(* ===== verification/_CoqProject ===== *)
-Q . S2P
Prelude.v
GoStd.v
GoHash.v
GoErrors.v
Graph.v
Vocab.v
Vocabulary.v
Payload.v
Mechanics.v
Decisions.v
ContentRecords.v
ContentStore.v
ProjectionContract.v
Store.v
Campaign.v
Dice.v
Effect.v
WorldEntity.v
Sequencing.v
RulePack.v
GraphIO.v
Turn.v
Caseflow.v
Knowledge.v
Stage.v
Resume.v
Ledger.v
Scene.v
Epistemic.v
Accusation.v
Persona.v
Delivery.v
Gateway.v
Egress.v
PlayerSocket.v
WorldTemplate.v
WorldRules.v
WorldPackage.v
WorldImport.v
Companion.v
Spawn.v
Prompt.v
Queues.v
BootSequence.v
BootRules.v
BootWorld.v
BootEngine.v
MemStore.v
TurnSpec.v
TurnTheorems.v
CampaignSpec.v
DiceSpec.v
EffectSpec.v
StageSpec.v
ResumeSpec.v
ContractSpec.v
RulePackSpec.v
ContentSpec.v
CaseflowSpec.v
KnowledgeSpec.v
ReceiptSpec.v
SceneSpec.v
EpistemicSpec.v
AccusationSpec.v
LedgerSpec.v
PersonaSpec.v
LoopFailureSpec.v
GatewaySpec.v
EgressSpec.v
PlayerSocketSpec.v
BootSequenceSpec.v
CompanionSpec.v
WorldSpec.v
WorldPlanSpec.v
WorldRuleSpec.v
BootRulesSpec.v
BootWorldSpec.v
BootEngineSpec.v
Bindings.v
PromptSpec.v
