(* ===== verification/Prelude.v ===== *)
(** * SemMachina: a verification development for the turn engine

    SemMachina runs a table-top campaign: a player's action becomes a turn, and
    the turn is carried through a fixed sequence of stages (interpretation,
    adjudication, dice, effects, companion, narration) by handlers that are
    delivered triggers from a queue. Deliveries repeat, stores fail with their
    outcome unknown, and processes die between two writes; what keeps the
    program correct is a phase FSM recorded in a graph of triples, idempotent
    writes to it, and deterministic dice. This development models that engine
    and proves those three, for every behaviour of the stores.

    ** How the program is modelled

    A Go function that may fail returns [result] ([Ok] or [Err]). Code that
    talks to a store is a program of the state monad [M] over a world [W], of
    which the theorems know only what type classes say: [HasGraph] (the graph a
    world holds), [GraphStore], [Clock], [ActionStore], [ArtifactStore],
    [Minter], [Waits], the queue interfaces of [Resume]. A failed call returns
    an error and may still have changed the world, which is how a lost
    acknowledgement looks. Programs are specified by [wp], a postcondition on
    the result and the final world. Upstream code (identifier validation,
    predicate parsing, text of times, the mutation client) is a class parameter
    and its documented behaviour a class of laws; [MemStore] instantiates all
    of them with an executable in-memory world that has a schedule of faults,
    so every law is satisfiable, and the witnesses run there. Errors are values
    ([GoErrors]); their message texts carry no verbs, since no modelled
    decision reads one. An [int] is [Z] with its wrap-around written where
    arithmetic can leave 64 bits.

    ** The files

    - [Prelude], [GoStd], [GoHash], [GoErrors]: results, monad, [wp], tactics;
      the parts of Go's language and library the engine uses (strings, bytes,
      SHA-256, PCG, hex, integer parsing); error values.
    - [Graph]: triples, entities, numbers read back from them, and the
      [Substrate] parameters.
    - [Vocab], [Vocabulary]: [internal/vocabulary], every table (predicates,
      enums, phases, mechanics, attribute bounds) and the functions over them.
    - [Payload], [Mechanics], [Decisions]: [internal/payload], validation and
      projection of the payloads of the turn loop, of decisions and records.
    - [ContentRecords], [ContentStore]: [internal/content], storage references,
      the typed artifacts, and the store over its backend.
    - [ProjectionContract]: [internal/projectioncontract], the predicate groups.
    - [Store], [GraphIO]: the store contract and [internal/graphio/store.go],
      the client that implements it.
    - [Campaign]: [internal/campaign], the seed, the boot gate and its marker.
    - [Dice]: [internal/dice]; [Effect]: [internal/effect].
    - [Turn]: [internal/turn], the recorder and the intake handler.
    - [Sequencing]: stage subjects ([internal/rulepack/subjects.go]), triggers
      ([internal/stage/trigger.go]), the action stream ([internal/turn/stream.go]);
      [RulePack]: the generated rules of [internal/rulepack] and their gates.
    - [Stage]: the dice, effect and completion stages of [internal/stage];
      [Spawn]: its persona and companion stages ([spawn.go], [companion.go])
      and its watcher of failed persona loops ([loopfailure.go]).
    - [Resume], [Queues]: [internal/resume], the pass over stranded turns and
      the read of what the stages' queues still hold.
    - [Caseflow], [Knowledge], [Accusation]: [internal/caseflow],
      [internal/knowledge], [internal/accusation], the case machine and the
      consumers that move a case, grant knowledge and judge accusations.
    - [Scene], [Epistemic]: [internal/scene] and [internal/epistemic], the view
      of a scene and what each audience may see of it.
    - [Persona]: [internal/persona], the identity injected into a loop, the
      personas' specifications, tasks, tools and exits, and the record of a loop
      that never exited; [Prompt]: its [prompt.go], the rendering of a
      projection and of the turn's artifacts into a persona's prompt.
    - [Delivery], [Gateway], [Egress]: the protocol payloads, [internal/gateway]
      (action identifiers, sessions, submission) and [internal/egress] (the
      read of results, their routing and the notifier).
    - [PlayerSocket]: [internal/playersocket], the frames of the player's
      socket, its handshake, its read loop and its sends.
    - [WorldEntity]: text helpers of Go and the payload of an imported entity;
      [WorldTemplate], [WorldRules], [WorldPackage], [WorldImport]:
      [internal/world], templates and the author's vocabulary, mysteries and the
      scope of package rules, loading a package, and the sealed plan an importer
      publishes.
    - [Companion]: [internal/companion], bond authority, hint ladder, the
      companion's decision and the evidence a narration may use of it.
    - [Ledger]: [internal/ledger], the archive of finished turns and its replay.
    - [BootSequence], [BootRules], [BootWorld], [BootEngine]: [internal/boot],
      where the parts meet: ordered steps, their runs and the checks a step makes
      of the running system, the composition of the rules, the configuration and
      the instantiation of the world, and the engine's own list of steps with its
      start and stop. The steps call [Campaign], [WorldImport], [WorldPackage],
      [Persona], [RulePack] and [Turn]; those that construct the consumers of a
      part modelled above are the class [BootParts].
    - [Bindings]: what every consumer binds on the broker (the intake, the stage
      runner, the notifier, the archive, the watcher of failed loops and those
      of knowledge, accusation and case progress) and the steps of
      [internal/boot/engine.go] that build these parts and bind them, with the
      theorems about the bindings of a whole instance.
    - [MemStore]: the executable world.
    - [<Part>Spec], [TurnTheorems]: each part's specifications and theorems;
      [ContractSpec] and [ReceiptSpec] those of the edges between parts.

    A state field, a guard or an early return of the source appears under its
    Go name where the names do not clash; otherwise it carries its receiver or
    file as a prefix ([graphio_Reconcile], [Resolver_Run], [Fail_]).

    ** What is proved

    - Turns ([TurnTheorems]): every recorder operation refines the phase FSM,
      whatever its store does; finished turns are final; failed turns carry one
      closed reason; [classify] decides reachability; phase changes are
      bounded; the contracts of accept, advance and fail; a live turn is never
      displaced.
    - Effects ([EffectSpec]): a batch applies whole, is refused before any
      write, is idempotent, and writes nothing but effects and its marker.
    - Dice ([DiceSpec]): rolling is total and self-consistent, the modifier
      budget is exactly right, and a recorded roll is never rolled again.
    - Campaign ([CampaignSpec]): one seed and one experience per campaign over
      any run of claims, marks and loads; the import marker; the wait ends.
    - Stages ([StageSpec]): running a stage on any delivered document follows
      the FSM, and the contracts of the dice and effect stages.
    - Resume ([ResumeSpec]): a pass accounts for what it scans, leaves finished
      and queued turns alone, publishes only triggers a stage can act on, and
      re-triggers a turn at most its budget of times over all passes, as long as
      nothing takes entities off the graph or sets their counts back meanwhile.
    - Edges ([ContractSpec]): the graph client honours the store contract;
      projections are legal; identifiers and references round trip; batch reads
      are total, listings valid and incoming edges answered; accepted stream
      filters cover.
    - Rules ([RulePackSpec]): a pack that passes the load-time gates only
      triggers stages the recorder lets a turn enter, from a phase it names -
      whose artifact has landed, unless it names it only as a move - and the
      embedded pack's edges are the FSM's.
    - Content ([ContentSpec]): an accepted artifact reads back as itself, and a
      companion's decision is decided by its first writer.
    - Cases ([CaseflowSpec], [KnowledgeSpec], [ReceiptSpec], [AccusationSpec]):
      recording an event leaves the receipt of an edge, the lifecycle rules move
      a case along the edge a receipt asks for, each delivery settles its turn
      before it is acknowledged, knowledge is granted only for what the turn's
      decision reveals and as the evidence's own rules, the one asked, or the
      actor's own record and the authorities entitle, a verdict is exact, and the
      solution is told only after a correct accusation. ([CaseflowSpec] also
      holds the rules of the programs that leave a predicate as it was on every
      entity, the [steady] ones, for all that need them.)
    - Views ([SceneSpec], [EpistemicSpec]): a view holds the sources of its
      location's membership edges and what they point at, as the graph records
      them, and is bounded; a projection hides the case file, refers only to what
      it shows, and shows private evidence only to those it was granted to.
    - Ledger ([LedgerSpec]): a turn is archived once, an acknowledged turn is
      archived as the graph tells it, a clean reconciliation leaves no resolved
      turn behind, and what a replay returns is what the dice rolled.
    - Personas ([PersonaSpec], [LoopFailureSpec]): task names tell spawns apart,
      a tool that ends a loop has stored its artifact and put the store's own
      reference on the turn, a failed loop's turn is over before its event is acknowledged,
      and the explanation stored for it fits its budget - but for reasons of
      control characters, and but for companions, whose exhausted budget the
      watcher can never acknowledge.
    - Players ([GatewaySpec], [EgressSpec]): an action's identifier names its
      submission, a submission publishes its own action at most, and only when no
      turn the player's pointer names is live, sessions are
      exactly the bound connections, a player reads and is notified of their own
      turns only, and the latest result is the latest.
    - Sockets ([PlayerSocketSpec]): only a player's credential opens a socket and
      none outlives its session, every message is answered once and in order,
      retrievals answer with the player's own result, a frame is read as what it
      carries, and connection identifiers do not repeat.
    - Companions ([CompanionSpec]): a run of the companion stage climbs at most
      one rung of the hint ladder, on the player's authoritative bond, and a
      narration draws only on what a stored decision cites.
    - Prompts ([PromptSpec]): a player's words are told only as quotation, a
      narration voices its turn's verdict, receipt and committed decision, each in
      full and nothing else, in the band whose effects were applied, the same world gives the same
      prompt, and what is rendered makes a task of its persona.
    - Worlds ([WorldSpec], [WorldPlanSpec], [WorldRuleSpec]): the plan of a loaded package is closed, its identifiers distinct and its own
      campaign's, importing it publishes the plan or says why not, a package's
      rules stay out of the namespaces reserved to the engine - which do not hold
      every fact [authoring.go] calls its own - and an accepted mystery holds
      together.
    - Boot ([BootSequenceSpec], [BootRulesSpec], [BootWorldSpec],
      [BootEngineSpec]): steps complete after what they require, and a boot is refused for its order exactly when its order is
      wrong; the engine's own order is right; the import marker is written on a
      world read back whole, a boot that goes on has read the membership index of
      its own process, and no consumer of a player's action is bound without a
      marker; the stream check tells whether subjects are captured, but for
      two shapes; narrowed patterns select the instance, and selected rules
      write through one projection; readbacks end; a stop unwinds the start.
    - Consumers ([Bindings]): a runner binds each of its stages once; an instance
      binds one durable for each trigger, the one the stranded-turn pass reads,
      each of them for deliveries that stay until they are acknowledged.

    ** Bounds and fuel

    Loops over lists are structural. The campaign wait takes fuel, and
    [AwaitImportCompletion_terminates] shows that [wait / poll + 2] rounds are
    enough. The boot's readbacks poll with [polls window] rounds of fuel, the
    rounds the window leaves room for and one that finds it over;
    [boot_readbacks_end] and [rule_readiness_is_read_or_refused] show that no
    readback runs out of them. The resume pass's page loop is bounded by the
    source's own [maxPages], after which the source returns an error.

    ** What is not modelled

    JSON and YAML encoding, transports and goroutines; logging; the text of error messages. Semantic versions, the decoding of documents, the
    file handle of a package, the rule engine and the broker are parameters.
    The stages prompt through the class [Prompter], which [Prompt] implements.
    Constructors do not check for absent collaborators, which are classes here
    and always there; the literal configurations of [components.go] are data for the broker's framework. Of the player's socket,
    the listener, the ping goroutine and the WebSocket protocol are parameters.
    The mock model, the test harness, the commands and the web client are not
    part of the engine. *)

From Stdlib Require Export ZArith Lia String Ascii.
From stdpp Require Export base tactics option list gmap strings pretty fin_maps.

#[export] Set Default Goal Selector "!".

(** ** Notation scope of the development *)

Declare Scope go_scope.
Delimit Scope go_scope with go.

(** ** Results

    A Go function that returns [(T, error)] is a function into [result]; the
    error type is a parameter here and is fixed in [GoErrors]. *)

Inductive result (E A : Type) : Type :=
| Ok (a : A)
| Err (e : E).
Arguments Ok {E A} a.
Arguments Err {E A} e.

Definition is_ok {E A} (r : result E A) : bool :=
  match r with Ok _ => true | Err _ => false end.

#[global] Instance result_ret {E} : MRet (result E) := fun A a => Ok a.
#[global] Instance result_bind {E} : MBind (result E) := fun A B f r =>
  match r with Ok a => f a | Err e => Err e end.

#[global] Instance result_eq_dec {E A} `{EqDecision E, EqDecision A} : EqDecision (result E A).
Proof. solve_decision. Defined.

Lemma result_bind_ok {E A B} (r : result E A) (f : A -> result E B) b :
  (r ≫= f) = Ok b <-> exists a, r = Ok a /\ f a = Ok b.
Proof. destruct r; cbn; naive_solver. Qed.

Lemma is_ok_ok {E A} (r : result E A) : is_ok r = true <-> exists a, r = Ok a.
Proof. destruct r; cbn; naive_solver. Qed.

(** [guard c e]: the early return [if !c { return e }]. *)
Definition require {E} (c : bool) (e : E) : result E unit :=
  if c then Ok tt else Err e.

Lemma require_ok {E} c (e : E) u : require c e = Ok u <-> c = true.
Proof. destruct c, u; cbn; naive_solver. Qed.

(** [all_ok f l]: the loop [for _, x := range l { if err := f(x); err != nil { return err } }]. *)
Fixpoint all_ok {E A} (f : A -> result E unit) (l : list A) : result E unit :=
  match l with
  | [] => Ok tt
  | x :: rest => match f x with Ok _ => all_ok f rest | Err e => Err e end
  end.

Lemma all_ok_Forall {E A} (f : A -> result E unit) l u :
  all_ok f l = Ok u <-> Forall (fun x => f x = Ok tt) l.
Proof.
  destruct u. induction l as [|x l IH]; cbn; [by rewrite Forall_nil|].
  rewrite Forall_cons. destruct (f x) as [[]|e]; naive_solver.
Qed.

(** ** Stateful fallible programs

    [M E W A] threads the world [W] (the graph, the clock, the stores) through
    a computation that may fail; a failure keeps the world it failed in,
    because a Go error does not undo the writes made before it. *)

Definition M (E W A : Type) : Type := W -> result E A * W.

#[global] Instance M_ret {E W} : MRet (M E W) := fun A a w => (Ok a, w).
#[global] Instance M_bind {E W} : MBind (M E W) := fun A B f m w =>
  match m w with
  | (Ok a, w') => f a w'
  | (Err e, w') => (Err e, w')
  end.

Definition throw {E W A} (e : E) : M E W A := fun w => (Err e, w).
Definition lift {E W A} (r : result E A) : M E W A := fun w => (r, w).

(** [attempt m] hands the [(value, err)] pair to the caller, who switches on
    it, instead of returning early. *)
Definition attempt {E W A} (m : M E W A) : M E W (result E A) := fun w =>
  let '(r, w') := m w in (Ok r, w').

(** [attempt_as m] does the same in a caller whose own failures are of another type. *)
Definition attempt_as {E E' W A} (m : M E W A) : M E' W (result E A) := fun w =>
  let '(r, w') := m w in (Ok r, w').

(** ** Weakest preconditions

    [wp m Q w]: started in [w], [m] ends in a result and a world that satisfy
    [Q]. Every program here is total, so this is total correctness. *)

Definition wp {E W A} (m : M E W A) (Q : result E A -> W -> Prop) (w : W) : Prop :=
  Q (m w).1 (m w).2.

Section wp.
Context {E W : Type}.

Lemma wp_intro {A} (m : M E W A) Q w r w' : m w = (r, w') -> Q r w' -> wp m Q w.
Proof. unfold wp. by intros ->. Qed.

Lemma wp_elim {A} (m : M E W A) Q w r w' : wp m Q w -> m w = (r, w') -> Q r w'.
Proof. unfold wp. by intros ? Hm; rewrite Hm in *. Qed.

Lemma wp_mono {A} (m : M E W A) (P Q : result E A -> W -> Prop) w :
  wp m P w -> (forall r w', P r w' -> Q r w') -> wp m Q w.
Proof. unfold wp. eauto. Qed.

Lemma wp_ret {A} (a : A) (Q : result E A -> W -> Prop) w : Q (Ok a) w -> wp (mret a) Q w.
Proof. done. Qed.

Lemma wp_throw {A} (e : E) (Q : result E A -> W -> Prop) w : Q (Err e) w -> wp (throw e) Q w.
Proof. done. Qed.

Lemma wp_lift {A} (r : result E A) (Q : result E A -> W -> Prop) w : Q r w -> wp (lift r) Q w.
Proof. done. Qed.

Lemma wp_bind {A B} (m : M E W A) (k : A -> M E W B) (Q : result E B -> W -> Prop) w :
  wp m (fun r w' => match r with Ok a => wp (k a) Q w' | Err e => Q (Err e) w' end) w ->
  wp (m ≫= k) Q w.
Proof.
  unfold wp, mbind, M_bind. destruct (m w) as [[a|e] w']; cbn; done.
Qed.

Lemma wp_attempt {A} (m : M E W A) (Q : result E (result E A) -> W -> Prop) w :
  wp m (fun r w' => Q (Ok r) w') w -> wp (attempt m) Q w.
Proof. unfold wp, attempt. destruct (m w); done. Qed.
End wp.

Lemma wp_attempt_as {E E' W A} (m : M E W A) (Q : result E' (result E A) -> W -> Prop) w :
  wp m (fun r w' => Q (Ok r) w') w -> wp (attempt_as m) Q w.
Proof. unfold wp, attempt_as. destruct (m w); done. Qed.

(** A run whose answer is known. *)
Lemma pair_of {A B} (p : A * B) a : p.1 = a -> p = (a, p.2).
Proof. intros <-. apply surjective_pairing. Qed.

Create HintDb wp.
#[export] Hint Resolve wp_ret wp_throw wp_lift : wp.

(** [wp_step] pushes one weakest precondition through the head of a program. *)
Ltac wp_step :=
  lazymatch goal with
  | |- wp (mbind _ _) _ _ => apply wp_bind
  | |- wp (mret _) _ _ => apply wp_ret
  | |- wp (throw _) _ _ => apply wp_throw
  | |- wp (lift _) _ _ => apply wp_lift
  | |- wp (attempt _) _ _ => apply wp_attempt
  | |- wp (match ?x with _ => _ end) _ _ => let H := fresh "Hm" in destruct x eqn:H
  end.

Ltac wp_steps := repeat (wp_step; cbn beta iota).

(** ** Finite lists of strings *)

Definition mem (x : string) (l : list string) : bool := bool_decide (x ∈ l).

Lemma mem_true x l : mem x l = true <-> x ∈ l.
Proof. apply bool_decide_eq_true. Qed.

Lemma mem_false x l : mem x l = false <-> x ∉ l.
Proof. apply bool_decide_eq_false. Qed.

(** A check of every entry of a finite table holds of each entry looked up in it. *)
Lemma lookup_forallb {A} (m : gmap string A) (f : string * A -> bool) k v :
  forallb f (map_to_list m) = true -> m !! k = Some v -> f (k, v) = true.
Proof.
  intros Hall Hk. rewrite forallb_forall in Hall. apply Hall.
  by apply list_elem_of_In, elem_of_map_to_list.
Qed.

(** [closed_cases H] turns [x ∈ [c1; ...; cn]] into one goal per constant. *)
Ltac closed_cases H :=
  repeat match type of H with
  | _ ∈ [] => by apply not_elem_of_nil in H
  | _ ∈ _ :: _ => apply elem_of_cons in H; destruct H as [H|H]; [subst|]
  end.

(** [res_inv] inverts every successful monadic chain in the context. *)
Ltac res_inv :=
  repeat match goal with
  | H : (_ ≫= _) = Ok _ |- _ => apply result_bind_ok in H; destruct H as (? & ? & H)
  | H : require _ _ = Ok _ |- _ => apply require_ok in H
  | H : all_ok _ _ = Ok _ |- _ => apply all_ok_Forall in H
  | H : Ok _ = Ok _ |- _ => injection H as H; subst
  | H : Err _ = Ok _ |- _ => discriminate H
  | H : Ok _ = Err _ |- _ => discriminate H
  end.
