(* ===== verification/GoStd.v ===== *)
(** The parts of the Go language and of its standard library the engine uses:
    fixed-width integers, [strings], [encoding/hex], [encoding/binary],
    [strconv.ParseInt], [crypto/sha256], [math/rand/v2]'s PCG, and [time]
    instants. Everything is executable; nothing here models engine code. *)

From stdpp Require Import sorting.
From S2P Require Import Prelude.

Open Scope Z_scope.

(** ** Integers at their width *)

Definition int64_min : Z := -(2 ^ 63).
Definition int64_max : Z := 2 ^ 63 - 1.

(** [int] is 64 bits wide on every platform the engine targets. *)
Definition in_int64 (z : Z) : bool := (int64_min <=? z) && (z <=? int64_max).
Definition wrap64 (z : Z) : Z := (z + 2 ^ 63) mod 2 ^ 64 - 2 ^ 63.
Definition int_add (a b : Z) : Z := wrap64 (a + b).
Definition u64 (z : Z) : Z := z mod 2 ^ 64.
Definition u32 (z : Z) : Z := z mod 2 ^ 32.

Lemma wrap64_small z : in_int64 z = true -> wrap64 z = z.
Proof.
  unfold in_int64, wrap64, int64_min, int64_max. intros H.
  apply andb_true_iff in H as [?%Z.leb_le ?%Z.leb_le].
  rewrite Z.mod_small; lia.
Qed.

Lemma int_add_small a b : -(2^62) <= a < 2^62 -> -(2^62) <= b < 2^62 -> int_add a b = a + b.
Proof.
  intros. unfold int_add. apply wrap64_small. unfold in_int64, int64_min, int64_max.
  apply andb_true_iff; split; apply Z.leb_le; lia.
Qed.

Lemma u64_bound z : 0 <= u64 z < 2 ^ 64.
Proof. apply Z.mod_pos_bound. lia. Qed.

(** ** Instants

    An instant is the number of nanoseconds since Go's zero [time.Time]; UTC
    normalisation does not move an instant, so [t.UTC()] is [t]. *)

Definition time : Type := Z.
Definition time_IsZero (t : time) : bool := t =? 0.

(** ** Byte strings *)

Definition byte_of (c : ascii) : Z := Z.of_N (N_of_ascii c).
Definition ascii_of (z : Z) : ascii := ascii_of_N (Z.to_N z).

Fixpoint bytes_of (s : string) : list Z :=
  match s with
  | EmptyString => []
  | String c rest => byte_of c :: bytes_of rest
  end.

Fixpoint string_of (l : list Z) : string :=
  match l with
  | [] => EmptyString
  | z :: rest => String (ascii_of z) (string_of rest)
  end.

Definition len (s : string) : Z := Z.of_nat (String.length s).

(** stdpp keeps [+:+] folded; these are its two equations. *)
Lemma app_cons c a b : String c a +:+ b = String c (a +:+ b).
Proof. done. Qed.

Lemma app_nil b : EmptyString +:+ b = b.
Proof. done. Qed.

Lemma len_nonneg s : 0 <= len s.
Proof. unfold len. lia. Qed.

Lemma len_app a b : len (a +:+ b) = len a + len b.
Proof.
  unfold len. rewrite <- Nat2Z.inj_add. f_equal.
  induction a as [|c a IH]; [done|]. rewrite app_cons. cbn. by rewrite IH.
Qed.

Lemma len_zero s : len s = 0 -> s = EmptyString.
Proof. destruct s; cbn; [done|]. unfold len. cbn. lia. Qed.

(** ** strings *)

(** [strings.CutPrefix]: the remainder, or [None] when the prefix is absent. *)
Fixpoint CutPrefix (s prefix : string) : option string :=
  match prefix, s with
  | EmptyString, _ => Some s
  | String p prefix', String c s' => if Ascii.eqb p c then CutPrefix s' prefix' else None
  | String _ _, EmptyString => None
  end.

Definition HasPrefix (s prefix : string) : bool :=
  match CutPrefix s prefix with Some _ => true | None => false end.

Fixpoint contains_char (c : ascii) (s : string) : bool :=
  match s with
  | EmptyString => false
  | String d rest => Ascii.eqb c d || contains_char c rest
  end.

(** [strings.Cut] with a one-byte separator. *)
Fixpoint Cut (sep : ascii) (s : string) : option (string * string) :=
  match s with
  | EmptyString => None
  | String d rest =>
      if Ascii.eqb sep d then Some (EmptyString, rest)
      else match Cut sep rest with
           | Some (before, after) => Some (String d before, after)
           | None => None
           end
  end.

(** [strings.Split] with a one-byte separator; never empty. *)
Fixpoint Split (sep : ascii) (s : string) : list string :=
  match s with
  | EmptyString => [EmptyString]
  | String d rest =>
      if Ascii.eqb sep d then EmptyString :: Split sep rest
      else match Split sep rest with
           | [] => [String d EmptyString]
           | head :: tail => String d head :: tail
           end
  end.

Fixpoint Join (sep : ascii) (parts : list string) : string :=
  match parts with
  | [] => EmptyString
  | [p] => p
  | p :: rest => p +:+ String sep (Join sep rest)
  end.

(** [strings.CutSuffix] with a one-byte suffix. *)
Fixpoint CutSuffix (s : string) (suffix : ascii) : option string :=
  match s with
  | EmptyString => None
  | String d EmptyString => if Ascii.eqb suffix d then Some EmptyString else None
  | String d rest =>
      match CutSuffix rest suffix with
      | Some before => Some (String d before)
      | None => None
      end
  end.

Definition dot : ascii := "."%char.

(** [strings.HasSuffix]. *)
Fixpoint HasSuffix (s suffix : string) : bool :=
  String.eqb s suffix ||
  match s with
  | EmptyString => false
  | String _ rest => HasSuffix rest suffix
  end.

Lemma CutPrefix_app p s : CutPrefix (p +:+ s) p = Some s.
Proof.
  induction p as [|c p IH]; [by destruct s|]. rewrite app_cons. cbn. by rewrite Ascii.eqb_refl.
Qed.

Lemma CutPrefix_Some s p rest : CutPrefix s p = Some rest -> s = p +:+ rest.
Proof.
  revert s. induction p as [|c p IH]; intros s; cbn.
  { destruct s; intros [= <-]; done. }
  destruct s as [|d s]; cbn; [discriminate|]. destruct (Ascii.eqb_spec c d) as [->|]; [|discriminate].
  intros H. rewrite app_cons. f_equal. by apply IH.
Qed.

Lemma string_app_inj_l p a b : p +:+ a = p +:+ b -> a = b.
Proof. induction p as [|c p IH]; [done|]. rewrite !app_cons. intros H. injection H. exact IH. Qed.

Lemma string_app_nil_r s : s +:+ EmptyString = s.
Proof. induction s as [|c s IH]; [done|]. rewrite app_cons. by rewrite IH. Qed.

Lemma string_app_assoc a b c : a +:+ (b +:+ c) = (a +:+ b) +:+ c.
Proof. induction a as [|d a IH]; [done|]. rewrite !app_cons. by rewrite IH. Qed.

Lemma HasSuffix_iff s suffix : HasSuffix s suffix = true <-> exists p, s = p +:+ suffix.
Proof.
  induction s as [|c s IH]; cbn -[String.eqb].
  - rewrite orb_false_r, String.eqb_eq. split.
    + intros <-. by exists EmptyString.
    + intros [[|d p] Hp]; [done|by rewrite app_cons in Hp].
  - rewrite orb_true_iff, String.eqb_eq, IH. split.
    + intros [<-|[p ->]]; [by exists EmptyString|]. exists (String c p). by rewrite app_cons.
    + intros [[|d p] Hp]; [by left|]. rewrite app_cons in Hp. injection Hp as -> ->. right. by exists p.
Qed.

Lemma contains_char_app c a b : contains_char c (a +:+ b) = contains_char c a || contains_char c b.
Proof. induction a as [|d a IH]; [done|]. rewrite app_cons. cbn. by rewrite IH, orb_assoc. Qed.

Lemma Split_not_nil sep s : Split sep s <> [].
Proof.
  destruct s as [|d s]; cbn; [done|].
  destruct (Ascii.eqb sep d); [done|]. by destruct (Split sep s).
Qed.

Lemma Join_Split sep s : Join sep (Split sep s) = s.
Proof.
  induction s as [|d s IH]; cbn; [done|].
  pose proof (Split_not_nil sep s) as Hn.
  destruct (Ascii.eqb_spec sep d) as [->|Hne].
  - destruct (Split d s) as [|h t] eqn:E; [done|]. rewrite <- IH. done.
  - destruct (Split sep s) as [|h t] eqn:E; [done|]. rewrite <- IH. by destruct t.
Qed.

Lemma Split_no_sep sep s : contains_char sep s = false -> Split sep s = [s].
Proof.
  induction s as [|d s IH]; cbn; [done|].
  intros [-> H]%orb_false_iff. by rewrite IH.
Qed.

Lemma Split_app_sep sep a b :
  contains_char sep a = false -> Split sep (a +:+ String sep b) = a :: Split sep b.
Proof.
  induction a as [|d a IH].
  { intros _. rewrite app_nil. cbn. by rewrite Ascii.eqb_refl. }
  rewrite app_cons. cbn. intros [-> H]%orb_false_iff. by rewrite IH.
Qed.

Lemma Split_Join sep parts :
  parts <> [] -> Forall (fun p => contains_char sep p = false) parts ->
  Split sep (Join sep parts) = parts.
Proof.
  intros Hn Hf. induction Hf as [|p rest Hp Hrest IH]; [done|].
  destruct rest as [|q rest].
  - cbn. by apply Split_no_sep.
  - change (Join sep (p :: q :: rest)) with (p +:+ String sep (Join sep (q :: rest))).
    rewrite Split_app_sep by done. by rewrite IH.
Qed.

(** ** slices *)

(** The byte order of Go strings. *)
Definition string_le (a b : string) : Prop := String.leb a b = true.

#[export] Instance string_le_dec a b : Decision (string_le a b).
Proof. unfold string_le. apply _. Defined.

#[export] Instance string_le_total : Total string_le.
Proof. intros a b. apply String.leb_total. Qed.

#[export] Instance string_le_antisym : AntiSymm eq string_le.
Proof. intros a b. apply String.leb_antisym. Qed.

Lemma string_compare_trans a : forall b c, String.compare a b <> Gt -> String.compare b c <> Gt -> String.compare a c <> Gt.
Proof.
  induction a as [|x a IH]; intros [|y b] [|z c]; cbn; try done.
  unfold Ascii.compare. destruct (N.compare_spec (N_of_ascii x) (N_of_ascii y)) as [E1|L1|L1];
    destruct (N.compare_spec (N_of_ascii y) (N_of_ascii z)) as [E2|L2|L2];
    destruct (N.compare_spec (N_of_ascii x) (N_of_ascii z)) as [E3|L3|L3];
    try done; try (exfalso; lia); apply IH.
Qed.

#[export] Instance string_le_trans : Transitive string_le.
Proof.
  intros a b c. unfold string_le, String.leb. intros Hab Hbc.
  pose proof (string_compare_trans a b c) as Ht.
  destruct (String.compare a b), (String.compare b c), (String.compare a c); try done; by destruct Ht.
Qed.

(** [slices.Sort] on strings. *)
Definition Sort (l : list string) : list string := merge_sort string_le l.

(** [slices.Compact]: each run of equal elements becomes one. *)
Fixpoint Compact (l : list string) : list string :=
  match l with
  | x :: (y :: _) as rest => if String.eqb x y then Compact rest else x :: Compact rest
  | _ => l
  end.

Lemma Compact_elem l x : x ∈ Compact l <-> x ∈ l.
Proof.
  induction l as [|a [|b l] IH]; [done|done|]. change (x ∈ (if String.eqb a b then Compact (b :: l) else a :: Compact (b :: l)) <-> x ∈ a :: b :: l).
  destruct (String.eqb_spec a b) as [->|]; rewrite ?elem_of_cons, ?IH, ?elem_of_cons; naive_solver.
Qed.

Lemma Compact_sorted l : StronglySorted string_le l -> StronglySorted string_le (Compact l) /\ NoDup (Compact l).
Proof.
  induction l as [|a [|b l] IH]; [intros _; split; constructor|intros _; split; [repeat constructor|apply NoDup_singleton]|].
  intros [Hs Ha]%StronglySorted_inv. destruct (IH Hs) as [Hc Hn].
  change (StronglySorted string_le (if String.eqb a b then Compact (b :: l) else a :: Compact (b :: l)) /\
          NoDup (if String.eqb a b then Compact (b :: l) else a :: Compact (b :: l))).
  destruct (String.eqb_spec a b) as [->|Hne]; [done|]. split.
  - constructor; [done|]. apply Forall_forall. intros x Hx. rewrite Compact_elem in Hx. rewrite Forall_forall in Ha. by apply Ha.
  - constructor; [|done]. rewrite Compact_elem. intros Hin. rewrite elem_of_cons in Hin.
    destruct Hin as [->|Hin]; [done|]. apply Hne. apply (anti_symm string_le).
    + rewrite Forall_forall in Ha. apply Ha. by left.
    + apply StronglySorted_inv in Hs as [_ Hb]. rewrite Forall_forall in Hb. by apply Hb.
Qed.

Lemma Sort_Compact_eq a b : Compact (Sort a) = Compact (Sort b) <-> (forall x, x ∈ a <-> x ∈ b).
Proof.
  assert (He : forall l x, x ∈ Compact (Sort l) <-> x ∈ l).
  { intros l x. unfold Sort. by rewrite Compact_elem, merge_sort_Permutation. }
  split; [intros Heq x; by rewrite <- (He a), <- (He b), Heq|]. intros Hx.
  destruct (Compact_sorted (Sort a)) as [Ha Hna]; [by apply StronglySorted_merge_sort; apply _|].
  destruct (Compact_sorted (Sort b)) as [Hb Hnb]; [by apply StronglySorted_merge_sort; apply _|].
  apply (StronglySorted_unique string_le); [done..|]. apply NoDup_Permutation; [done..|].
  intros x. by rewrite !He.
Qed.

Lemma Split_parts_no_sep sep s : Forall (fun p => contains_char sep p = false) (Split sep s).
Proof.
  induction s as [|d s IH]; cbn; [by repeat constructor|].
  destruct (Ascii.eqb sep d) eqn:E; [by constructor|].
  destruct (Split sep s) as [|h t] eqn:Es; [by destruct (Split_not_nil sep s)|].
  inversion IH; subst. constructor; [|done]. cbn. by rewrite E.
Qed.

(** [strings.TrimSpace]: the UTF-8 sequences of the white space Unicode lists. *)
Definition white_space : list (list Z) :=
  [[9]; [10]; [11]; [12]; [13]; [32]; [194; 133]; [194; 160]; [225; 154; 128]] ++
  map (fun b => [226; 128; b]) [128; 129; 130; 131; 132; 133; 134; 135; 136; 137; 138; 168; 169; 175] ++
  [[226; 129; 159]; [227; 128; 128]].

(** What follows one of the sequences, when [s] begins with it. *)
Fixpoint strip_bytes (sequence : list Z) (s : string) : option string :=
  match sequence, s with
  | [], _ => Some s
  | b :: sequence, String c s => if byte_of c =? b then strip_bytes sequence s else None
  | _, EmptyString => None
  end.

Definition strip_one (sequences : list (list Z)) (s : string) : option string :=
  head (omap (fun sequence => strip_bytes sequence s) sequences).

Fixpoint strip_all (fuel : nat) (sequences : list (list Z)) (s : string) : string :=
  match fuel with
  | O => s
  | S fuel => match strip_one sequences s with Some rest => strip_all fuel sequences rest | None => s end
  end.

Fixpoint rev_append_string (s acc : string) : string :=
  match s with EmptyString => acc | String c s => rev_append_string s (String c acc) end.

(** Every pass strips a byte at least, so the length is fuel enough. *)
Definition TrimSpace (s : string) : string :=
  let s := strip_all (String.length s) white_space s in
  let r := rev_append_string s EmptyString in
  rev_append_string (strip_all (String.length r) (map (@rev Z) white_space) r) EmptyString.

Example TrimSpace_ends : TrimSpace " 	a b  " = "a b"%string.
Proof. vm_compute. reflexivity. Qed.

(** [strconv.Itoa], also [%d]. *)
Definition Itoa (z : Z) : string := pretty z.
