(* ===== verification/GoHash.v ===== *)
(** Standard-library byte codecs and generators used by the dice and the
    campaign seed: [encoding/hex], [encoding/binary], [crypto/sha256] and the
    PCG-DXSM generator of [math/rand/v2]. Executable, with published test
    vectors checked by evaluation. *)

From S2P Require Import Prelude GoStd.

Open Scope Z_scope.

(** ** encoding/hex *)

Definition hex_digit (n : Z) : ascii :=
  ascii_of (if n <? 10 then 48 + n else 87 + n).

(** Lower and upper case digits decode; anything else is an error. *)
Definition from_hex_digit (c : ascii) : option Z :=
  let b := byte_of c in
  if (48 <=? b) && (b <=? 57) then Some (b - 48)
  else if (97 <=? b) && (b <=? 102) then Some (b - 87)
  else if (65 <=? b) && (b <=? 70) then Some (b - 55)
  else None.

Fixpoint EncodeToString (l : list Z) : string :=
  match l with
  | [] => EmptyString
  | b :: rest => String (hex_digit (b / 16)) (String (hex_digit (b mod 16)) (EncodeToString rest))
  end.

(** [hex.DecodeString]; [None] is its error (bad digit or odd length). *)
Fixpoint DecodeString (s : string) : option (list Z) :=
  match s with
  | EmptyString => Some []
  | String _ EmptyString => None
  | String a (String b rest) =>
      match from_hex_digit a, from_hex_digit b, DecodeString rest with
      | Some hi, Some lo, Some bytes => Some (16 * hi + lo :: bytes)
      | _, _, _ => None
      end
  end.

Definition is_byte (b : Z) : bool := (0 <=? b) && (b <? 256).
Definition bytes_ok (l : list Z) : Prop := Forall (fun b => is_byte b = true) l.

Lemma from_hex_digit_digit n : 0 <= n < 16 -> from_hex_digit (hex_digit n) = Some n.
Proof.
  intros H. rewrite <- (Z2Nat.id n) by lia. assert (Hn : (Z.to_nat n < 16)%nat) by lia.
  revert Hn. generalize (Z.to_nat n). clear. intros k Hk.
  assert (Hall : Forall (fun i => from_hex_digit (hex_digit (Z.of_nat i)) = Some (Z.of_nat i)) (List.seq 0 16))
    by (repeat constructor).
  rewrite Forall_forall in Hall. apply Hall, list_elem_of_In, in_seq. lia.
Qed.

Lemma DecodeString_EncodeToString l : bytes_ok l -> DecodeString (EncodeToString l) = Some l.
Proof.
  induction 1 as [|b l Hb Hl IH]; [done|].
  unfold is_byte in Hb. apply andb_true_iff in Hb as [?%Z.leb_le ?%Z.ltb_lt].
  cbn [EncodeToString DecodeString].
  rewrite !from_hex_digit_digit, IH.
  - f_equal. f_equal. rewrite (Z.div_mod b 16) at 3; lia.
  - apply Z.mod_pos_bound. lia.
  - split; [apply Z.div_pos; lia|]. apply Z.div_lt_upper_bound; lia.
Qed.

Lemma EncodeToString_inj l1 l2 :
  bytes_ok l1 -> bytes_ok l2 -> EncodeToString l1 = EncodeToString l2 -> l1 = l2.
Proof.
  intros H1%DecodeString_EncodeToString H2%DecodeString_EncodeToString Heq. congruence.
Qed.

Lemma from_hex_digit_range c n : from_hex_digit c = Some n -> 0 <= n < 16.
Proof.
  unfold from_hex_digit. intros H.
  repeat match type of H with
  | (if ?b then _ else _) = _ => destruct b eqn:?
  end; try discriminate; injection H as <-;
  match goal with H : _ && _ = true |- _ => apply andb_true_iff in H as [?%Z.leb_le ?%Z.leb_le] end; lia.
Qed.

Lemma DecodeString_bytes n s l :
  (String.length s <= n)%nat -> DecodeString s = Some l -> bytes_ok l.
Proof.
  revert s l. induction n as [|n IH]; intros s l Hlen.
  { destruct s; cbn in *; [|lia]. intros [= <-]. constructor. }
  destruct s as [|a [|b s]]; cbn [DecodeString]; [intros [= <-]; constructor|discriminate|].
  destruct (from_hex_digit a) as [hi|] eqn:Ea; [|discriminate].
  destruct (from_hex_digit b) as [lo|] eqn:Eb; [|discriminate].
  destruct (DecodeString s) as [r|] eqn:Er; [|discriminate].
  intros [= <-]. apply from_hex_digit_range in Ea, Eb.
  constructor; [unfold is_byte; apply andb_true_iff; split; [apply Z.leb_le|apply Z.ltb_lt]; lia|].
  apply (IH s); [cbn in Hlen; lia|done].
Qed.

(** ** encoding/binary, big endian *)

Definition be_combine (l : list Z) : Z := fold_left (fun acc b => 256 * acc + b) l 0.

Fixpoint be_split (n : nat) (z : Z) : list Z :=
  match n with
  | O => []
  | S k => be_split k (z / 256) ++ [z mod 256]
  end.

Lemma be_split_length n z : List.length (be_split n z) = n.
Proof. revert z. induction n as [|n IH]; intros z; cbn; [done|]. rewrite length_app, IH. cbn. lia. Qed.

Lemma be_split_bytes n z : bytes_ok (be_split n z).
Proof.
  revert z. induction n as [|n IH]; intros z; cbn; [constructor|].
  apply Forall_app. split; [apply IH|]. repeat constructor.
  unfold is_byte. pose proof (Z.mod_pos_bound z 256). apply andb_true_iff.
  split; [apply Z.leb_le|apply Z.ltb_lt]; lia.
Qed.

Lemma be_combine_app l b : be_combine (l ++ [b]) = 256 * be_combine l + b.
Proof. unfold be_combine. by rewrite fold_left_app. Qed.

(** [binary.BigEndian.Uint32] undoes [PutUint32], at every width. *)
Lemma be_combine_split n z : be_combine (be_split n z) = z mod 256 ^ Z.of_nat n.
Proof.
  revert z. induction n as [|n IH]; intros z.
  { cbn. by rewrite Z.mod_1_r. }
  cbn [be_split]. rewrite be_combine_app, IH, Nat2Z.inj_succ, Z.pow_succ_r by lia.
  rewrite Z.rem_mul_r by lia. lia.
Qed.

Lemma bytes_of_app a b : bytes_of (a +:+ b) = bytes_of a ++ bytes_of b.
Proof. induction a as [|c a IH]; [done|]. rewrite app_cons. cbn. by rewrite IH. Qed.

Lemma bytes_of_length s : Z.of_nat (List.length (bytes_of s)) = len s.
Proof. unfold len. f_equal. induction s as [|c s IH]; cbn; [done|]. by rewrite IH. Qed.

Lemma bytes_of_inj a b : bytes_of a = bytes_of b -> a = b.
Proof.
  revert b. induction a as [|c a IH]; intros [|d b]; cbn; try discriminate; [done|].
  intros [= Hc Hr]. f_equal; [|by apply IH].
  unfold byte_of in Hc. apply N2Z.inj in Hc.
  rewrite <- (ascii_N_embedding c), <- (ascii_N_embedding d). by rewrite Hc.
Qed.

(** ** Length-framed digests

    The members a digest is taken over, each behind its 4-byte big-endian
    length, so that no two lists of members write the same bytes. *)

Definition frame_member (value : string) : list Z := be_split 4 (u32 (len value)) ++ bytes_of value.
Definition frame (members : list string) : list Z := flat_map frame_member members.

Lemma frame_member_length v : (4 <= List.length (frame_member v))%nat.
Proof. unfold frame_member. rewrite length_app, be_split_length. lia. Qed.

Lemma frame_nonempty v a : frame [] <> frame (v :: a).
Proof.
  intros Heq. change ([] = frame_member v ++ frame a) in Heq. pose proof (frame_member_length v) as Hn.
  symmetry in Heq. apply app_eq_nil in Heq as [Hv _]. rewrite Hv in Hn. cbn in Hn. lia.
Qed.

Lemma frame_member_app v w a b :
  len v < 2 ^ 32 -> len w < 2 ^ 32 ->
  frame_member v ++ a = frame_member w ++ b -> v = w /\ a = b.
Proof.
  intros Hv Hw Heq. unfold frame_member in Heq. rewrite <- !(assoc_L (++)) in Heq.
  apply app_inj_1 in Heq as [Hlen Heq]; [|by rewrite !be_split_length].
  assert (Hl : len v = len w).
  { apply (f_equal be_combine) in Hlen. rewrite !be_combine_split in Hlen. unfold u32 in Hlen.
    change (256 ^ Z.of_nat 4) with (2 ^ 32) in Hlen.
    pose proof (len_nonneg v). pose proof (len_nonneg w). rewrite !Z.mod_small in Hlen by
      (try apply Z.mod_pos_bound; lia). done. }
  rewrite <- !bytes_of_length in Hl. apply app_inj_1 in Heq as [Hb Hr]; [|lia].
  split; [by apply bytes_of_inj|done].
Qed.

Lemma frame_inj a b :
  Forall (fun v => len v < 2 ^ 32) a -> Forall (fun v => len v < 2 ^ 32) b ->
  frame a = frame b -> a = b.
Proof.
  intros Ha. revert b. induction Ha as [|v a Hv Ha IH]; intros b Hb Heq.
  - destruct b as [|w b]; [done|]. by apply frame_nonempty in Heq.
  - destruct Hb as [|w b Hw Hb]; [symmetry in Heq; by apply frame_nonempty in Heq|].
    change (frame_member v ++ frame a = frame_member w ++ frame b) in Heq. apply frame_member_app in Heq as [-> Heq]; [|done|done]. f_equal. by apply IH.
Qed.

(** ** crypto/sha256 *)

Definition sha_k : list Z :=
  [1116352408; 1899447441; 3049323471; 3921009573; 961987163; 1508970993; 2453635748; 2870763221;
   3624381080; 310598401; 607225278; 1426881987; 1925078388; 2162078206; 2614888103; 3248222580;
   3835390401; 4022224774; 264347078; 604807628; 770255983; 1249150122; 1555081692; 1996064986;
   2554220882; 2821834349; 2952996808; 3210313671; 3336571891; 3584528711; 113926993; 338241895;
   666307205; 773529912; 1294757372; 1396182291; 1695183700; 1986661051; 2177026350; 2456956037;
   2730485921; 2820302411; 3259730800; 3345764771; 3516065817; 3600352804; 4094571909; 275423344;
   430227734; 506948616; 659060556; 883997877; 958139571; 1322822218; 1537002063; 1747873779;
   1955562222; 2024104815; 2227730452; 2361852424; 2428436474; 2756734187; 3204031479; 3329325298].

Definition sha_h0 : list Z :=
  [1779033703; 3144134277; 1013904242; 2773480762; 1359893119; 2600822924; 528734635; 1541459225].

Definition rotr (x n : Z) : Z := Z.lor (Z.shiftr x n) (u32 (Z.shiftl x (32 - n))).
Definition sigma0 (x : Z) : Z := Z.lxor (Z.lxor (rotr x 7) (rotr x 18)) (Z.shiftr x 3).
Definition sigma1 (x : Z) : Z := Z.lxor (Z.lxor (rotr x 17) (rotr x 19)) (Z.shiftr x 10).
Definition Sigma0 (x : Z) : Z := Z.lxor (Z.lxor (rotr x 2) (rotr x 13)) (rotr x 22).
Definition Sigma1 (x : Z) : Z := Z.lxor (Z.lxor (rotr x 6) (rotr x 11)) (rotr x 25).
Definition sha_ch (e f g : Z) : Z := Z.lxor (Z.land e f) (Z.land (Z.lxor e 4294967295) g).
Definition sha_maj (a b c : Z) : Z := Z.lxor (Z.lxor (Z.land a b) (Z.land a c)) (Z.land b c).

(** The message schedule, kept newest first while it is extended. *)
Fixpoint sha_extend (n : nat) (rev_w : list Z) : list Z :=
  match n with
  | O => rev rev_w
  | S k =>
      let w16 := nth 15 rev_w 0 in let w15 := nth 14 rev_w 0 in
      let w7 := nth 6 rev_w 0 in let w2 := nth 1 rev_w 0 in
      sha_extend k (u32 (w16 + sigma0 w15 + w7 + sigma1 w2) :: rev_w)
  end.

Definition sha_round (st : list Z) (kw : Z * Z) : list Z :=
  match st with
  | [a; b; c; d; e; f; g; h] =>
      let t1 := u32 (h + Sigma1 e + sha_ch e f g + kw.1 + kw.2) in
      let t2 := u32 (Sigma0 a + sha_maj a b c) in
      [u32 (t1 + t2); a; b; c; u32 (d + t1); e; f; g]
  | _ => st
  end.

Fixpoint group_words (n : nat) (l : list Z) : list Z :=
  match n with O => [] | S k => be_combine (take 4 l) :: group_words k (drop 4 l) end.

Definition sha_block (st block : list Z) : list Z :=
  let w := sha_extend 48 (rev (group_words 16 block)) in
  let st' := fold_left sha_round (zip sha_k w) st in
  zip_with (fun a b => u32 (a + b)) st st'.

Fixpoint sha_blocks (n : nat) (st msg : list Z) : list Z :=
  match n with O => st | S k => sha_blocks k (sha_block st (take 64 msg)) (drop 64 msg) end.

Definition sha_pad (msg : list Z) : list Z :=
  let l := List.length msg in
  let zeros := Nat.modulo (119 - Nat.modulo l 64) 64 in
  msg ++ [128] ++ repeat 0 zeros ++ be_split 8 (8 * Z.of_nat l).

(** [sha256.Sum256]: the digest's 32 bytes. *)
Definition sha256 (msg : list Z) : list Z :=
  let padded := sha_pad msg in
  flat_map (be_split 4) (sha_blocks (List.length padded / 64) sha_h0 padded).

Lemma sha256_bytes msg : bytes_ok (sha256 msg).
Proof.
  unfold sha256. generalize (sha_blocks (List.length (sha_pad msg) / 64) sha_h0 (sha_pad msg)).
  intros l. induction l as [|w l IH]; cbn [flat_map]; [constructor|].
  apply Forall_app. split; [apply be_split_bytes|done].
Qed.

Lemma sha_round_length st kw : List.length st = 8%nat -> List.length (sha_round st kw) = 8%nat.
Proof. by destruct st as [|? [|? [|? [|? [|? [|? [|? [|? [|]]]]]]]]]. Qed.

Lemma sha_block_length st block : List.length st = 8%nat -> List.length (sha_block st block) = 8%nat.
Proof.
  intros Hst. unfold sha_block. rewrite length_zip_with.
  generalize (zip sha_k (sha_extend 48 (rev (group_words 16 block)))) as kws.
  assert (Hfold : forall kws st', List.length st' = 8%nat -> List.length (fold_left sha_round kws st') = 8%nat).
  { induction kws as [|kw kws IH]; intros st' Hst'; [done|]. cbn [fold_left]. by apply IH, sha_round_length. }
  intros kws. rewrite (Hfold kws st Hst), Hst. done.
Qed.

Lemma sha256_length msg : List.length (sha256 msg) = 32%nat.
Proof.
  unfold sha256. set (n := (List.length (sha_pad msg) / 64)%nat).
  assert (Hblocks : forall n st padded, List.length st = 8%nat -> List.length (sha_blocks n st padded) = 8%nat).
  { clear. induction n as [|n IH]; intros st padded Hst; [done|]. cbn [sha_blocks]. by apply IH, sha_block_length. }
  specialize (Hblocks n sha_h0 (sha_pad msg) eq_refl). revert Hblocks. generalize (sha_blocks n sha_h0 (sha_pad msg)) as st.
  intros st Hst. by destruct st as [|? [|? [|? [|? [|? [|? [|? [|? [|]]]]]]]]].
Qed.

(** The identity of a list of members; two different lists with one identity
    are a collision of SHA-256 itself, on the two framings. *)
Definition framed_digest (members : list string) : string := EncodeToString (sha256 (frame members)).

Lemma framed_digest_collision a b :
  Forall (fun v => len v < 2 ^ 32) a -> Forall (fun v => len v < 2 ^ 32) b ->
  framed_digest a = framed_digest b ->
  a = b \/ (frame a <> frame b /\ sha256 (frame a) = sha256 (frame b)).
Proof.
  intros Ha Hb Heq. unfold framed_digest in Heq.
  apply EncodeToString_inj in Heq; [|apply sha256_bytes|apply sha256_bytes].
  destruct (decide (a = b)) as [->|Hne]; [by left|right]. split; [|done].
  intros Hf. by apply Hne, frame_inj.
Qed.

Lemma len_EncodeToString l : len (EncodeToString l) = 2 * Z.of_nat (List.length l).
Proof. induction l as [|b l IH]; [done|]. cbn [EncodeToString List.length]. unfold len in *. cbn [String.length]. lia. Qed.

(** An identity is 64 characters. *)
Lemma len_framed_digest members : len (framed_digest members) = 64.
Proof. unfold framed_digest. by rewrite len_EncodeToString, sha256_length. Qed.

Example sha256_abc :
  EncodeToString (sha256 (bytes_of "abc")) =
  "ba7816bf8f01cfea414140de5dae2223b00361a396177a9cb410ff61f20015ad"%string.
Proof. vm_compute. reflexivity. Qed.

Example sha256_empty :
  EncodeToString (sha256 []) =
  "e3b0c44298fc1c149afbf4c8996fb92427ae41e4649b934ca495991b7852b855"%string.
Proof. vm_compute. reflexivity. Qed.

Example sha256_two_blocks :
  EncodeToString (sha256 (bytes_of "abcdbcdecdefdefgefghfghighijhijkijkljklmklmnlmnomnopnopq")) =
  "248d6a61d20638b8e5c026930c3e6039a33ce45964ff2167f6ecedd419db06c1"%string.
Proof. vm_compute. reflexivity. Qed.

(** ** math/rand/v2: PCG-DXSM with 128 bits of state *)

Record PCG : Type := { pcg_hi : Z; pcg_lo : Z }.

Definition NewPCG (seed1 seed2 : Z) : PCG := {| pcg_hi := seed1; pcg_lo := seed2 |}.

Definition pcg_mul : Z := 2549297995355413924 * 2 ^ 64 + 4865540595714422341.
Definition pcg_inc : Z := 6364136223846793005 * 2 ^ 64 + 1442695040888963407.

Definition pcg_next (p : PCG) : PCG :=
  let s := (pcg_hi p * 2 ^ 64 + pcg_lo p) * pcg_mul + pcg_inc in
  {| pcg_hi := u64 (s / 2 ^ 64); pcg_lo := u64 s |}.

(** One draw: advance the state, then the DXSM output permutation. *)
Definition Uint64 (p : PCG) : Z * PCG :=
  let p' := pcg_next p in
  let hi := pcg_hi p' in let lo := pcg_lo p' in
  let hi := Z.lxor hi (Z.shiftr hi 32) in
  let hi := u64 (hi * 15750249268501108917) in
  let hi := Z.lxor hi (Z.shiftr hi 48) in
  (u64 (hi * Z.lor lo 1), p').

Lemma Uint64_bound p : 0 <= (Uint64 p).1 < 2 ^ 64.
Proof. unfold Uint64; cbn [fst]. apply u64_bound. Qed.

Fixpoint draws (n : nat) (p : PCG) : list Z :=
  match n with O => [] | S k => let '(v, p') := Uint64 p in v :: draws k p' end.

(** The first draws of the standard library's own PCG test, [NewPCG(1, 2)]. *)
Example pcg_reference_draws :
  draws 3 (NewPCG 1 2) = [14192431797130687760; 11371241257079532652; 14470142590855381128].
Proof. vm_compute. reflexivity. Qed.
