(* ===== verification/GoErrors.v ===== *)
(** Go [error] values: the engine's typed errors, the sentinels compared with
    [errors.Is], and [fmt.Errorf] messages with the errors they wrap. A message
    is represented by its text up to the first formatting verb; no decision of
    the modelled code reads a message, only types, sentinels and codes. *)

From S2P Require Import Prelude GoStd.

Open Scope Z_scope.

Inductive error : Type :=
| Errorf (message : string) (wrapped : list error)
| Sentinel (name : string)
| UnknownValueError (kind value : string) (allowed : list string)
| OutOfBoundsError (attribute : string) (value lo hi : Z)
| RejectedActionError (actionID : string) (err : error)
| IllegalTransitionError (turnEntityID from to fault : string)
| RecordError (turnEntityID : string) (err : error)
| RejectionError (intent : Z) (type target code : string) (err : error)
| CommitError (batchID target : string) (committed : list string) (err : error)
| PermanentProgressError (err : error)
| MissingProgressTurnError (turnEntityID : string) (err : error)
| CaseTransitionError (caseEntityID eventID kind current required : string)
| IntegrityError (err : error)
| MissingAccusationTurnError (turnEntityID : string) (err : error)
| AuthorizationError (reason : string)
| DetailLostError (turnEntityID previous phase outcome : string) (err : error)
| OversizeError (sceneID : string) (entities max : Z)
| FieldError (name : string) (err : option error)
| AbsentActorError (sceneID turnEntityID playerID characterID : string) (members : list string) (excluded : string)
(** upstream types the engine inspects with [errors.As] *)
| MutationError (kind commit : string) (err : option error)
| ClassifiedError (class code : string) (err : option error).

(** [Unwrap]. *)
Definition Unwrap (e : error) : list error :=
  match e with
  | Errorf _ ws => ws
  | RejectedActionError _ x | RecordError _ x | RejectionError _ _ _ _ x | CommitError _ _ _ x => [x]
  | PermanentProgressError x | MissingProgressTurnError _ x | IntegrityError x
  | MissingAccusationTurnError _ x | DetailLostError _ _ _ _ x => [x]
  | MutationError _ _ (Some x) | ClassifiedError _ _ (Some x) | FieldError _ (Some x) => [x]
  | _ => []
  end.

(** The error tree in the pre-order [errors.Is] and [errors.As] traverse. *)
Fixpoint chain (e : error) : list error :=
  e :: match e with
       | Errorf _ ws => flat_map chain ws
       | RejectedActionError _ x | RecordError _ x | RejectionError _ _ _ _ x
       | CommitError _ _ _ x => chain x
       | PermanentProgressError x | MissingProgressTurnError _ x | IntegrityError x
       | MissingAccusationTurnError _ x | DetailLostError _ _ _ _ x => chain x
       | MutationError _ _ (Some x) | ClassifiedError _ _ (Some x) | FieldError _ (Some x) => chain x
       | _ => []
       end.

Definition is_sentinel (name : string) (e : error) : bool :=
  match e with Sentinel n => String.eqb n name | _ => false end.

Definition errors_Is (name : string) (e : error) : bool :=
  existsb (is_sentinel name) (chain e).

Definition errors_As (p : error -> bool) (e : error) : option error :=
  List.find p (chain e).

Definition is_RejectedActionError (e : error) : bool :=
  match e with RejectedActionError _ _ => true | _ => false end.
Definition is_IllegalTransitionError (e : error) : bool :=
  match e with IllegalTransitionError _ _ _ _ => true | _ => false end.
Definition is_RecordError (e : error) : bool :=
  match e with RecordError _ _ => true | _ => false end.
Definition is_RejectionError (e : error) : bool :=
  match e with RejectionError _ _ _ _ _ => true | _ => false end.
Definition is_CommitError (e : error) : bool :=
  match e with CommitError _ _ _ _ => true | _ => false end.
Definition is_MutationError (e : error) : bool :=
  match e with MutationError _ _ _ => true | _ => false end.
Definition is_PermanentProgressError (e : error) : bool :=
  match e with PermanentProgressError _ => true | _ => false end.
Definition is_MissingProgressTurnError (e : error) : bool :=
  match e with MissingProgressTurnError _ _ => true | _ => false end.
Definition is_CaseTransitionError (e : error) : bool :=
  match e with CaseTransitionError _ _ _ _ _ => true | _ => false end.
Definition is_IntegrityError (e : error) : bool :=
  match e with IntegrityError _ => true | _ => false end.
Definition is_MissingAccusationTurnError (e : error) : bool :=
  match e with MissingAccusationTurnError _ _ => true | _ => false end.
Definition is_DetailLostError (e : error) : bool :=
  match e with DetailLostError _ _ _ _ _ => true | _ => false end.
Definition is_FieldError (e : error) : bool :=
  match e with FieldError _ _ => true | _ => false end.
Definition is_AuthorizationError (e : error) : bool :=
  match e with AuthorizationError _ => true | _ => false end.
Definition is_ClassifiedError (e : error) : bool :=
  match e with ClassifiedError _ _ _ => true | _ => false end.

Definition errors_As_b (p : error -> bool) (e : error) : bool :=
  match errors_As p e with Some _ => true | None => false end.

(** Results and programs over this error type. *)
Abbreviation res := (result error).
Abbreviation MW := (M error).

Lemma errors_Is_Errorf name msg ws :
  errors_Is name (Errorf msg ws) = existsb (errors_Is name) ws.
Proof.
  unfold errors_Is. cbn. induction ws as [|w ws IH]; [done|].
  cbn. by rewrite existsb_app, IH.
Qed.

(** [wrapf msg r] is [if err != nil { return fmt.Errorf("msg: %w", err) }]. *)
Definition wrapf {A} (msg : string) (r : res A) : res A :=
  match r with Ok a => Ok a | Err e => Err (Errorf msg [e]) end.

Lemma wrapf_ok {A} msg (r : res A) a : wrapf msg r = Ok a <-> r = Ok a.
Proof. destruct r; cbn; naive_solver. Qed.
