(* ===== verification/Graph.v ===== *)
(** The graph data the engine reads and writes ([message.Triple],
    [graph.EntityState]) and the upstream functions it calls on identifiers,
    which are parameters: the [Substrate] class names them and states the
    documented behaviour the engine relies on. *)

From Stdlib Require Export SpecFloat.
From S2P Require Import Prelude GoStd GoErrors.

Open Scope Z_scope.

(** ** Dynamic values

    A triple object is a Go [any]. The constructors are the dynamic types the
    engine's readers distinguish; [AOther] is any other type, by name. *)
Inductive any : Type :=
| ANil
| AString (s : string)
| ABool (b : bool)
| AInt (z : Z)
| AInt64 (z : Z)
| AFloat64 (f : spec_float)
| ANumber (text : string)
| AOther (type : string).

#[export] Instance spec_float_eq_dec : EqDecision spec_float.
Proof. solve_decision. Defined.
#[export] Instance any_eq_dec : EqDecision any.
Proof. solve_decision. Defined.

Definition float_one : spec_float := S754_finite false 1 0.

(** ** message.Triple and graph.EntityState *)

Record MessageType : Type := { Domain : string; Category : string; Version_ : string }.

#[export] Instance MessageType_eq_dec : EqDecision MessageType.
Proof. solve_decision. Defined.

Record Triple : Type := mkTriple {
  Subject : string;
  Predicate : string;
  Object : any;
  Source : string;
  Timestamp : time;
  Confidence : spec_float;
  Context_ : string;
  Datatype : string;
  ExpiresAt : option time
}.

#[export] Instance Triple_eq_dec : EqDecision Triple.
Proof. unfold EqDecision, time. solve_decision. Defined.

Record EntityState : Type := mkEntity {
  ID : string;
  MsgType : MessageType;
  EVersion : Z;
  UpdatedAt : time;
  StorageRef : option string;
  Triples : list Triple
}.

#[export] Instance EntityState_eq_dec : EqDecision EntityState.
Proof. unfold EqDecision, time. solve_decision. Defined.

(** Entity identifiers to entities: what ENTITY_STATES holds. *)
Abbreviation graph := (gmap string EntityState).

Definition triplesFor (p : string) (l : list Triple) : list Triple :=
  List.filter (fun t => String.eqb (Predicate t) p) l.

(** The objects an entity's triples record for one predicate; every reader of
    the engine collects them the same way before it decides. *)
Definition objectsFor (state : EntityState) (p : string) : list any :=
  map Object (triplesFor p (Triples state)).

Lemma triplesFor_app p l1 l2 : triplesFor p (l1 ++ l2) = triplesFor p l1 ++ triplesFor p l2.
Proof. unfold triplesFor. apply List.filter_app. Qed.

Lemma elem_of_triplesFor p l t : t ∈ triplesFor p l <-> t ∈ l /\ Predicate t = p.
Proof.
  unfold triplesFor. rewrite !list_elem_of_In, filter_In, String.eqb_eq. done.
Qed.

Lemma triplesFor_nil p l : (forall t, t ∈ l -> Predicate t <> p) -> triplesFor p l = [].
Proof.
  induction l as [|t l IH]; intros H; cbn; [done|].
  destruct (String.eqb_spec (Predicate t) p) as [E|]; [by destruct (H t); [left|]|].
  apply IH. intros u ?. apply H. by right.
Qed.

(** Readers see a triple list up to reordering. *)
Lemma filter_perm {A} (f : A -> bool) l1 l2 : l1 ≡ₚ l2 -> List.filter f l1 ≡ₚ List.filter f l2.
Proof.
  induction 1 as [|x l1 l2 _ IH|x y l|l1 l2 l3 _ IH1 _ IH2]; cbn.
  - done.
  - destruct (f x); [by constructor|done].
  - destruct (f x), (f y); try done. apply Permutation_swap.
  - by rewrite IH1.
Qed.

#[export] Instance triplesFor_perm p : Proper ((≡ₚ) ==> (≡ₚ)) (triplesFor p).
Proof. intros l1 l2. apply filter_perm. Qed.

Lemma objects_perm p l1 l2 : l1 ≡ₚ l2 -> map Object (triplesFor p l1) ≡ₚ map Object (triplesFor p l2).
Proof. intros Hp. apply Permutation_map. by rewrite Hp. Qed.

(** Triples whose predicate belongs to [group], and the others. *)
Definition in_group (group : list string) (t : Triple) : bool := mem (Predicate t) group.
Definition group_triples (group : list string) (l : list Triple) : list Triple :=
  List.filter (in_group group) l.
Definition other_triples (group : list string) (l : list Triple) : list Triple :=
  List.filter (fun t => negb (in_group group t)) l.

Lemma triplesFor_group_in p group l :
  p ∈ group -> triplesFor p (group_triples group l) = triplesFor p l.
Proof.
  intros Hp%mem_true. unfold triplesFor, group_triples, in_group.
  induction l as [|t l IH]; cbn -[String.eqb mem]; [done|].
  destruct (String.eqb_spec (Predicate t) p) as [E|Hne].
  - rewrite E, Hp. cbn -[String.eqb mem]. by rewrite E, String.eqb_refl, IH.
  - destruct (mem (Predicate t) group); cbn -[String.eqb mem]; [|done]. apply String.eqb_neq in Hne. by rewrite Hne.
Qed.

Lemma triplesFor_other_out p group l :
  p ∉ group -> triplesFor p (other_triples group l) = triplesFor p l.
Proof.
  intros Hp%mem_false. unfold triplesFor, other_triples, in_group.
  induction l as [|t l IH]; cbn -[String.eqb mem]; [done|].
  destruct (String.eqb_spec (Predicate t) p) as [E|Hne].
  - rewrite E, Hp. cbn -[String.eqb mem]. by rewrite E, String.eqb_refl, IH.
  - destruct (mem (Predicate t) group); cbn -[String.eqb mem]; [done|]. apply String.eqb_neq in Hne. by rewrite Hne.
Qed.

(** ** Upstream identifier functions *)

(** [types.EntityID]: the six positions of an entity ID. *)
Record ParsedEntityID : Type := {
  eid_Org : string; eid_Platform : string; eid_Domain : string; eid_System : string;
  eid_Type : string; eid_Instance : string }.

Class Substrate : Type := {
  (** [types.MaxEntityIDBytes] *)
  MaxEntityIDBytes : Z;
  (** [types.ValidateEntityID]: [nil] is [Ok tt] *)
  ValidateEntityID : string -> res unit;
  (** [types.ParseEntityID] *)
  ParseEntityID : string -> res ParsedEntityID;
  (** [types.ValidateEntityIDPrefix] *)
  ValidateEntityIDPrefix : string -> res unit;
  (** [ssvocab.ParsePredicate]: domain, category, property *)
  ParsePredicate : string -> res (string * string * string);
  (** [ssvocab.EntityIndexingProfile], the fact the substrate adds to every
      entity it creates, and [ssvocab.IsValidIndexingProfile] *)
  EntityIndexingProfile : string;
  IsValidIndexingProfile : string -> bool;
  (** the value of an [int] conversion of a float outside the [int64] range,
      which the Go specification leaves to the platform: the integer, when
      converting it back gives the same float *)
  float_int_out_of_range : spec_float -> option Z;
  (** [fmt.Sprint] of a float or of a value of a type not listed in [any] *)
  Sprint_other : any -> string;
  (** [message.EntityReferenceDatatype] *)
  EntityReferenceDatatype : string;
  (** [natsclient.TerminateDelivery]: marks a refusal the broker must not redeliver *)
  TerminateDelivery : error -> error;
  (** [err.Error()]: the text of an error, which no decision reads *)
  Error_text : error -> string
}.

Class SubstrateLaws `{Substrate} : Prop := {
  (** the budget admits the engine's own vocabulary and derived segments *)
  MaxEntityIDBytes_min : 64 <= MaxEntityIDBytes <= 2 ^ 32;
  (** a canonical entity ID has six dot-separated positions within the budget *)
  ValidateEntityID_parts s : ValidateEntityID s = Ok tt -> List.length (Split dot s) = 6%nat;
  ValidateEntityID_len s : ValidateEntityID s = Ok tt -> len s <= MaxEntityIDBytes;
  ValidateEntityID_nonempty s : ValidateEntityID s = Ok tt -> s <> EmptyString;
  (** an ID that validates parses, into its dot-separated positions *)
  ParseEntityID_valid s : ValidateEntityID s = Ok tt -> exists id, ParseEntityID s = Ok id;
  ParseEntityID_parts s id : ParseEntityID s = Ok id ->
    Split dot s = [eid_Org id; eid_Platform id; eid_Domain id; eid_System id; eid_Type id; eid_Instance id];
  (** a canonical predicate is its three segments joined by dots *)
  ParsePredicate_parts p d c q :
    ParsePredicate p = Ok (d, c, q) <->
    (exists v, ParsePredicate p = Ok v) /\ Split dot p = [d; c; q]
}.

(** ** Numbers read back from the graph *)

(** The exact value of an integral float; [None] for a fraction, NaN or an infinity. *)
Definition float_integral (f : spec_float) : option Z :=
  match f with
  | S754_zero _ => Some 0
  | S754_finite s m e =>
      let z := if s then Z.neg m else Z.pos m in
      if 0 <=? e then Some (z * 2 ^ e)
      else if Z.modulo z (2 ^ (- e)) =? 0 then Some (z / 2 ^ (- e)) else None
  | _ => None
  end.

Definition digit_value (c : ascii) : option Z :=
  let b := byte_of c in if (48 <=? b) && (b <=? 57) then Some (b - 48) else None.

Fixpoint parse_digits (s : string) (acc : Z) : option Z :=
  match s with
  | EmptyString => Some acc
  | String c rest => match digit_value c with Some d => parse_digits rest (10 * acc + d) | None => None end
  end.

(** [strconv.ParseInt(s, 10, 64)]; [None] is its error. *)
Definition ParseInt (s : string) : option Z :=
  let body (neg : bool) (digits : string) :=
    match digits with
    | EmptyString => None
    | _ => match parse_digits digits 0 with
           | Some v => let z := if neg then - v else v in if in_int64 z then Some z else None
           | None => None
           end
    end in
  match s with
  | String c rest =>
      if Ascii.eqb c "-" then body true rest
      else if Ascii.eqb c "+" then body false rest
      else body false s
  | EmptyString => None
  end.

Section numbers.
Context `{Substrate}.

(** [int(value)] followed by the comparison with [value] both readers make. *)
Definition float_to_int (f : spec_float) : option Z :=
  match float_integral f with
  | Some z => if in_int64 z then Some z else float_int_out_of_range f
  | None => None
  end.

(** [asInt]: [None] is the [(0, false)] return. *)
Definition asInt (object : any) : option Z :=
  match object with
  | AInt value => Some value
  | AInt64 value => Some (wrap64 value)
  | AFloat64 value => float_to_int value
  | ANumber value => option_map wrap64 (ParseInt value)
  | _ => None
  end.
End numbers.
