(* ===== verification/Vocab.v ===== *)
(** The engine's closed vocabulary as data ([internal/vocabulary]): predicate
    names, enum members, the registered enums and the world-fact tables. Go
    declares every vocabulary type as a named [string]; so does the model, and
    membership is a check, never a property of the type. *)

From S2P Require Import Prelude GoStd GoErrors.

(** ** Closed value sets *)

(* src/internal/vocabulary/enum.go#type enum *)
Record enum : Type := newEnum_ { enum_k : string; enum_values : list string }.

(* src/internal/vocabulary/enum.go#newEnum *)
Definition newEnum (k : string) (values : list string) : enum := newEnum_ k values.

(* src/internal/vocabulary/enum.go#enum.all *)
Definition enum_all (e : enum) : list string := enum_values e.

(* src/internal/vocabulary/enum.go#enum.valid *)
Definition enum_valid (e : enum) (v : string) : bool := mem v (enum_values e).

(* src/internal/vocabulary/enum.go#enum.strings *)
Definition enum_strings (e : enum) : list string := map (fun v => v) (enum_values e).

(* src/internal/vocabulary/enum.go#enum.parse *)
Definition enum_parse (e : enum) (s : string) : res string :=
  if enum_valid e s then Ok s
  else Err (UnknownValueError (enum_k e) s (enum_strings e)).

Lemma enum_parse_ok e s v : enum_parse e s = Ok v <-> v = s /\ s ∈ enum_values e.
Proof.
  unfold enum_parse. destruct (enum_valid e s) eqn:E; unfold enum_valid in E.
  - apply mem_true in E. split; [by intros [= ->]|by intros [-> ?]].
  - apply mem_false in E. split; [done|by intros [_ ?]].
Qed.

Lemma enum_valid_elem e v : enum_valid e v = true <-> v ∈ enum_values e.
Proof. apply mem_true. Qed.

(** ** Constants *)

(** *** [internal/vocabulary/predicates.go] *)

Definition TurnPhaseCurrent : string := "turn.phase.current". (* src/internal/vocabulary/predicates.go:29-29 *)
Definition TurnActionRef : string := "turn.action.ref". (* src/internal/vocabulary/predicates.go:31-31 *)
Definition TurnActionPlayer : string := "turn.action.player". (* src/internal/vocabulary/predicates.go:33-33 *)
Definition TurnActionScene : string := "turn.action.scene". (* src/internal/vocabulary/predicates.go:35-35 *)
Definition TurnCaseDecisionRef : string := "turn.case-decision.ref". (* src/internal/vocabulary/predicates.go:38-38 *)
Definition TurnCaseDecisionKind : string := "turn.case-decision.kind". (* src/internal/vocabulary/predicates.go:40-40 *)
Definition TurnCompanionDecisionRef : string := "turn.companion-decision.ref". (* src/internal/vocabulary/predicates.go:42-42 *)
Definition TurnCompanionStageRef : string := "turn.companion-stage.ref". (* src/internal/vocabulary/predicates.go:44-44 *)
Definition TurnCompanionTriggerKind : string := "turn.companion.trigger-kind". (* src/internal/vocabulary/predicates.go:46-46 *)
Definition TurnCompanionTriggerSource : string := "turn.companion.trigger-source". (* src/internal/vocabulary/predicates.go:48-48 *)
Definition TurnKnowledgeRef : string := "turn.knowledge.ref". (* src/internal/vocabulary/predicates.go:50-50 *)
Definition TurnAccusationRef : string := "turn.accusation.ref". (* src/internal/vocabulary/predicates.go:52-52 *)
Definition TurnCaseProgressRef : string := "turn.case-progress.ref". (* src/internal/vocabulary/predicates.go:54-54 *)
Definition TurnVerdictPlausibility : string := "turn.verdict.plausibility". (* src/internal/vocabulary/predicates.go:57-57 *)
Definition TurnVerdictRisk : string := "turn.verdict.risk". (* src/internal/vocabulary/predicates.go:59-59 *)
Definition TurnVerdictConsequence : string := "turn.verdict.consequence". (* src/internal/vocabulary/predicates.go:61-61 *)
Definition TurnVerdictRequiresRoll : string := "turn.verdict.requires-roll". (* src/internal/vocabulary/predicates.go:65-65 *)
Definition TurnVerdictRef : string := "turn.verdict.ref". (* src/internal/vocabulary/predicates.go:68-68 *)
Definition TurnRollBand : string := "turn.roll.band". (* src/internal/vocabulary/predicates.go:71-71 *)
Definition TurnRollTotal : string := "turn.roll.total". (* src/internal/vocabulary/predicates.go:73-73 *)
Definition TurnRollRef : string := "turn.roll.ref". (* src/internal/vocabulary/predicates.go:75-75 *)
Definition TurnEffectsBatch : string := "turn.effects.batch". (* src/internal/vocabulary/predicates.go:79-79 *)
Definition TurnEffectsRef : string := "turn.effects.ref". (* src/internal/vocabulary/predicates.go:81-81 *)
Definition TurnNarrationRef : string := "turn.narration.ref". (* src/internal/vocabulary/predicates.go:86-86 *)
Definition TurnResumeAttempts : string := "turn.resume.attempts". (* src/internal/vocabulary/predicates.go:102-102 *)
Definition TurnFailureReason : string := "turn.failure.reason". (* src/internal/vocabulary/predicates.go:109-109 *)
Definition TurnFailureRef : string := "turn.failure.ref". (* src/internal/vocabulary/predicates.go:130-130 *)
Definition CampaignSeedValue : string := "campaign.seed.value". (* src/internal/vocabulary/predicates.go:138-138 *)
Definition CampaignExperiencePersonaPack : string := "campaign.experience.persona-pack". (* src/internal/vocabulary/predicates.go:143-143 *)
Definition CampaignExperienceMechanicsPack : string := "campaign.experience.mechanics-pack". (* src/internal/vocabulary/predicates.go:148-148 *)
Definition CampaignImportCompleted : string := "campaign.import.completed". (* src/internal/vocabulary/predicates.go:167-167 *)
Definition WorldEntityName : string := "world.entity.name". (* src/internal/vocabulary/predicates.go:181-181 *)
Definition WorldEntityKind : string := "world.entity.kind". (* src/internal/vocabulary/predicates.go:184-184 *)
Definition WorldEntityDescription : string := "world.entity.description". (* src/internal/vocabulary/predicates.go:189-189 *)
Definition PlayerCharacterCurrent : string := "player.character.current". (* src/internal/vocabulary/predicates.go:202-202 *)
Definition PlayerTurnCurrent : string := "player.turn.current". (* src/internal/vocabulary/predicates.go:240-240 *)
Definition PlayerTurnResolved : string := "player.turn.resolved". (* src/internal/vocabulary/predicates.go:286-286 *)
Definition CharacterStatusCurrent : string := "character.status.current". (* src/internal/vocabulary/predicates.go:293-293 *)
Definition WorldLocationCurrent : string := "world.location.current". (* src/internal/vocabulary/predicates.go:296-296 *)
Definition SceneLocationCurrent : string := "scene.location.current". (* src/internal/vocabulary/predicates.go:298-298 *)
Definition LocationRelationConnectsTo : string := "location.relation.connects-to". (* src/internal/vocabulary/predicates.go:300-300 *)
Definition GeoLocationLatitude : string := "geo.location.latitude". (* src/internal/vocabulary/predicates.go:302-302 *)
Definition GeoLocationLongitude : string := "geo.location.longitude". (* src/internal/vocabulary/predicates.go:304-304 *)
Definition CharacterAttributeHealth : string := "character.attribute.health". (* src/internal/vocabulary/predicates.go:311-311 *)
Definition CharacterAttributeStamina : string := "character.attribute.stamina". (* src/internal/vocabulary/predicates.go:313-313 *)
Definition CharacterAttributeResolve : string := "character.attribute.resolve". (* src/internal/vocabulary/predicates.go:315-315 *)
Definition ItemAttributeQuantity : string := "item.attribute.quantity". (* src/internal/vocabulary/predicates.go:317-317 *)
Definition SceneAttributeTension : string := "scene.attribute.tension". (* src/internal/vocabulary/predicates.go:319-319 *)
Definition WorldRelationAlliedWith : string := "world.relation.allied-with". (* src/internal/vocabulary/predicates.go:326-326 *)
Definition WorldRelationHostileTo : string := "world.relation.hostile-to". (* src/internal/vocabulary/predicates.go:328-328 *)
Definition WorldRelationKnows : string := "world.relation.knows". (* src/internal/vocabulary/predicates.go:330-330 *)
Definition WorldRelationCarries : string := "world.relation.carries". (* src/internal/vocabulary/predicates.go:332-332 *)
Definition WorldRelationOwesDebt : string := "world.relation.owes-debt". (* src/internal/vocabulary/predicates.go:334-334 *)
Definition CaseSolutionCulprit : string := "case.solution.culprit". (* src/internal/vocabulary/predicates.go:341-341 *)
Definition CaseSolutionMethod : string := "case.solution.method". (* src/internal/vocabulary/predicates.go:342-342 *)
Definition CaseSolutionMotive : string := "case.solution.motive". (* src/internal/vocabulary/predicates.go:343-343 *)
Definition CaseRequirementSuspects : string := "case.requirement.suspects". (* src/internal/vocabulary/predicates.go:345-345 *)
Definition CaseRequirementEvidence : string := "case.requirement.evidence". (* src/internal/vocabulary/predicates.go:346-346 *)
Definition CaseMemberSuspect : string := "case.member.suspect". (* src/internal/vocabulary/predicates.go:347-347 *)
Definition CaseMemberEvidence : string := "case.member.evidence". (* src/internal/vocabulary/predicates.go:348-348 *)
Definition CaseMemberTimeline : string := "case.member.timeline". (* src/internal/vocabulary/predicates.go:349-349 *)
Definition CaseMemberVictim : string := "case.member.victim". (* src/internal/vocabulary/predicates.go:350-350 *)
Definition CaseTimelineOrder : string := "case.timeline.order". (* src/internal/vocabulary/predicates.go:351-351 *)
Definition CaseLifecyclePhase : string := "case.lifecycle.phase". (* src/internal/vocabulary/predicates.go:353-353 *)
Definition CaseLifecycleEventID : string := "case.lifecycle.event-id". (* src/internal/vocabulary/predicates.go:354-354 *)
Definition CaseLifecycleEventKindPredicate : string := "case.lifecycle.event-kind". (* src/internal/vocabulary/predicates.go:355-355 *)
Definition CaseLifecycleFromPhase : string := "case.lifecycle.from-phase". (* src/internal/vocabulary/predicates.go:356-356 *)
Definition CaseLifecycleToPhase : string := "case.lifecycle.to-phase". (* src/internal/vocabulary/predicates.go:357-357 *)
Definition CaseTransitionSource : string := "case.transition.source". (* src/internal/vocabulary/predicates.go:358-358 *)
Definition CaseTransitionAt : string := "case.transition.at". (* src/internal/vocabulary/predicates.go:359-359 *)
Definition CaseTransitionFrom : string := "case.transition.from". (* src/internal/vocabulary/predicates.go:360-360 *)
Definition EvidenceTruthStatusCurrent : string := "evidence.truth.status". (* src/internal/vocabulary/predicates.go:362-362 *)
Definition EvidenceRevealPhase : string := "evidence.reveal.phase". (* src/internal/vocabulary/predicates.go:363-363 *)
Definition EvidenceRevealKindPredicate : string := "evidence.reveal.kind". (* src/internal/vocabulary/predicates.go:364-364 *)
Definition EvidenceRevealTarget : string := "evidence.reveal.target". (* src/internal/vocabulary/predicates.go:365-365 *)
Definition BeliefActorHolder : string := "belief.actor.holder". (* src/internal/vocabulary/predicates.go:367-367 *)
Definition BeliefEvidenceRef : string := "belief.evidence.target". (* src/internal/vocabulary/predicates.go:368-368 *)
Definition BeliefStanceCurrent : string := "belief.stance.current". (* src/internal/vocabulary/predicates.go:369-369 *)
Definition KnowledgeActorHolder : string := "knowledge.actor.holder". (* src/internal/vocabulary/predicates.go:370-370 *)
Definition KnowledgeEvidenceRef : string := "knowledge.evidence.target". (* src/internal/vocabulary/predicates.go:371-371 *)
Definition RevelationEvidenceRef : string := "revelation.evidence.target". (* src/internal/vocabulary/predicates.go:372-372 *)
Definition RevelationActorHolder : string := "revelation.actor.holder". (* src/internal/vocabulary/predicates.go:373-373 *)
Definition RevelationTurnID : string := "revelation.turn.id". (* src/internal/vocabulary/predicates.go:374-374 *)
Definition RevelationSourceActor : string := "revelation.source.actor". (* src/internal/vocabulary/predicates.go:375-375 *)
Definition RevelationTestimonyRef : string := "revelation.testimony.ref". (* src/internal/vocabulary/predicates.go:376-376 *)
Definition CompanionCandidatePolicy : string := "companion.candidate.policy". (* src/internal/vocabulary/predicates.go:378-378 *)
Definition CompanionBondPlayer : string := "companion.bond.player". (* src/internal/vocabulary/predicates.go:379-379 *)
Definition CompanionBondCharacter : string := "companion.bond.character". (* src/internal/vocabulary/predicates.go:380-380 *)
Definition CompanionBondPolicy : string := "companion.bond.policy". (* src/internal/vocabulary/predicates.go:381-381 *)
Definition CompanionBondHintLevel : string := "companion.bond.hint-level". (* src/internal/vocabulary/predicates.go:382-382 *)

(** *** [internal/vocabulary/enum.go] *)

Definition KindPlausibility : string := "plausibility". (* src/internal/vocabulary/enum.go:17-17 *)
Definition KindRisk : string := "risk". (* src/internal/vocabulary/enum.go:19-19 *)
Definition KindConsequence : string := "consequence". (* src/internal/vocabulary/enum.go:22-22 *)
Definition KindOutcomeBand : string := "outcome_band". (* src/internal/vocabulary/enum.go:24-24 *)
Definition KindModifierSource : string := "modifier_source". (* src/internal/vocabulary/enum.go:26-26 *)
Definition KindEffectType : string := "effect_type". (* src/internal/vocabulary/enum.go:28-28 *)
Definition KindStatus : string := "status". (* src/internal/vocabulary/enum.go:30-30 *)
Definition KindAttribute : string := "attribute". (* src/internal/vocabulary/enum.go:33-33 *)
Definition KindRelation : string := "relation". (* src/internal/vocabulary/enum.go:35-35 *)
Definition KindEntityKind : string := "entity_kind". (* src/internal/vocabulary/enum.go:38-38 *)
Definition KindTurnPhase : string := "turn_phase". (* src/internal/vocabulary/enum.go:40-40 *)
Definition KindChannelAdapter : string := "channel_adapter". (* src/internal/vocabulary/enum.go:42-42 *)
Definition KindMechanic : string := "mechanic". (* src/internal/vocabulary/enum.go:44-44 *)
Definition KindRNG : string := "rng". (* src/internal/vocabulary/enum.go:46-46 *)
Definition KindFailureReason : string := "failure_reason". (* src/internal/vocabulary/enum.go:48-48 *)
Definition KindAuthorizationReason : string := "authorization_reason". (* src/internal/vocabulary/enum.go:51-51 *)
Definition KindRollGateMapping : string := "roll_gate_mapping". (* src/internal/vocabulary/enum.go:54-54 *)
Definition KindEvidenceTruthStatus : string := "evidence_truth_status". (* src/internal/vocabulary/enum.go:57-57 *)
Definition KindEvidenceRevealKind : string := "evidence_reveal_kind". (* src/internal/vocabulary/enum.go:60-60 *)
Definition KindBeliefStance : string := "belief_stance". (* src/internal/vocabulary/enum.go:62-62 *)
Definition KindCompanionPolicy : string := "companion_policy". (* src/internal/vocabulary/enum.go:65-65 *)
Definition KindHintLevel : string := "hint_level". (* src/internal/vocabulary/enum.go:67-67 *)
Definition KindCompanionTrigger : string := "companion_trigger". (* src/internal/vocabulary/enum.go:69-69 *)
Definition KindCompanionTriggerSource : string := "companion_trigger_source". (* src/internal/vocabulary/enum.go:71-71 *)
Definition KindCasePhase : string := "case_phase". (* src/internal/vocabulary/enum.go:73-73 *)
Definition KindCaseLifecycleEventKind : string := "case_lifecycle_event_kind". (* src/internal/vocabulary/enum.go:75-75 *)

(** *** [internal/vocabulary/classes.go] *)

Definition PlausibilityImpossible : string := "impossible". (* src/internal/vocabulary/classes.go:10-10 *)
Definition PlausibilityUnlikely : string := "unlikely". (* src/internal/vocabulary/classes.go:13-13 *)
Definition PlausibilityPlausible : string := "plausible". (* src/internal/vocabulary/classes.go:15-15 *)
Definition PlausibilityCertain : string := "certain". (* src/internal/vocabulary/classes.go:17-17 *)
Definition RiskNone : string := "none". (* src/internal/vocabulary/classes.go:39-39 *)
Definition RiskLow : string := "low". (* src/internal/vocabulary/classes.go:41-41 *)
Definition RiskModerate : string := "moderate". (* src/internal/vocabulary/classes.go:43-43 *)
Definition RiskHigh : string := "high". (* src/internal/vocabulary/classes.go:45-45 *)
Definition ConsequenceNone : string := "none". (* src/internal/vocabulary/classes.go:66-66 *)
Definition ConsequenceSetback : string := "setback". (* src/internal/vocabulary/classes.go:68-68 *)
Definition ConsequenceHarm : string := "harm". (* src/internal/vocabulary/classes.go:70-70 *)
Definition ConsequenceCost : string := "cost". (* src/internal/vocabulary/classes.go:72-72 *)
Definition ConsequenceComplication : string := "complication". (* src/internal/vocabulary/classes.go:74-74 *)
Definition ConsequenceEscalation : string := "escalation". (* src/internal/vocabulary/classes.go:76-76 *)
Definition BandAuto : string := "auto". (* src/internal/vocabulary/classes.go:102-102 *)
Definition BandMiss : string := "miss". (* src/internal/vocabulary/classes.go:104-104 *)
Definition BandPartial : string := "partial". (* src/internal/vocabulary/classes.go:106-106 *)
Definition BandFull : string := "full". (* src/internal/vocabulary/classes.go:108-108 *)
Definition ModifierTrait : string := "trait". (* src/internal/vocabulary/classes.go:140-140 *)
Definition ModifierEquipment : string := "equipment". (* src/internal/vocabulary/classes.go:142-142 *)
Definition ModifierPosition : string := "position". (* src/internal/vocabulary/classes.go:144-144 *)
Definition ModifierAssistance : string := "assistance". (* src/internal/vocabulary/classes.go:146-146 *)
Definition ModifierCondition : string := "condition". (* src/internal/vocabulary/classes.go:148-148 *)
Definition EffectSetAttribute : string := "set_attribute". (* src/internal/vocabulary/classes.go:169-169 *)
Definition EffectMoveEntity : string := "move_entity". (* src/internal/vocabulary/classes.go:171-171 *)
Definition EffectAddRelationship : string := "add_relationship". (* src/internal/vocabulary/classes.go:173-173 *)
Definition EffectRemoveRelationship : string := "remove_relationship". (* src/internal/vocabulary/classes.go:175-175 *)
Definition EffectSetStatus : string := "set_status". (* src/internal/vocabulary/classes.go:177-177 *)
Definition StatusHealthy : string := "healthy". (* src/internal/vocabulary/classes.go:201-201 *)
Definition StatusWounded : string := "wounded". (* src/internal/vocabulary/classes.go:203-203 *)
Definition StatusExhausted : string := "exhausted". (* src/internal/vocabulary/classes.go:205-205 *)
Definition StatusFrightened : string := "frightened". (* src/internal/vocabulary/classes.go:207-207 *)
Definition StatusHidden : string := "hidden". (* src/internal/vocabulary/classes.go:209-209 *)
Definition StatusRestrained : string := "restrained". (* src/internal/vocabulary/classes.go:211-211 *)
Definition StatusUnconscious : string := "unconscious". (* src/internal/vocabulary/classes.go:213-213 *)
Definition StatusDead : string := "dead". (* src/internal/vocabulary/classes.go:215-215 *)
Definition PhaseAccepted : string := "accepted". (* src/internal/vocabulary/classes.go:240-240 *)
Definition PhaseInterpreting : string := "interpreting". (* src/internal/vocabulary/classes.go:242-242 *)
Definition PhaseAdjudicating : string := "adjudicating". (* src/internal/vocabulary/classes.go:244-244 *)
Definition PhaseResolving : string := "resolving". (* src/internal/vocabulary/classes.go:246-246 *)
Definition PhaseApplying : string := "applying". (* src/internal/vocabulary/classes.go:248-248 *)
Definition PhaseCompanion : string := "companion". (* src/internal/vocabulary/classes.go:250-250 *)
Definition PhaseNarrating : string := "narrating". (* src/internal/vocabulary/classes.go:252-252 *)
Definition PhaseComplete : string := "complete". (* src/internal/vocabulary/classes.go:254-254 *)
Definition PhaseFailed : string := "failed". (* src/internal/vocabulary/classes.go:257-257 *)
Definition AdapterWebSocket : string := "websocket". (* src/internal/vocabulary/classes.go:286-286 *)
Definition Mechanic2d6PbtaV1 : string := "2d6-pbta/v1". (* src/internal/vocabulary/classes.go:308-308 *)
Definition RNGPCGV1 : string := "pcg/v1". (* src/internal/vocabulary/classes.go:330-330 *)

(** *** [internal/vocabulary/attributes.go] *)

Definition AttributeHealth : string := "health". (* src/internal/vocabulary/attributes.go:17-17 *)
Definition AttributeStamina : string := "stamina". (* src/internal/vocabulary/attributes.go:19-19 *)
Definition AttributeResolve : string := "resolve". (* src/internal/vocabulary/attributes.go:21-21 *)
Definition AttributeQuantity : string := "quantity". (* src/internal/vocabulary/attributes.go:23-23 *)
Definition AttributeTension : string := "tension". (* src/internal/vocabulary/attributes.go:25-25 *)
Definition RelationAlliedWith : string := "allied-with". (* src/internal/vocabulary/attributes.go:218-218 *)
Definition RelationHostileTo : string := "hostile-to". (* src/internal/vocabulary/attributes.go:220-220 *)
Definition RelationKnows : string := "knows". (* src/internal/vocabulary/attributes.go:222-222 *)
Definition RelationCarries : string := "carries". (* src/internal/vocabulary/attributes.go:224-224 *)
Definition RelationOwesDebt : string := "owes-debt". (* src/internal/vocabulary/attributes.go:226-226 *)

(** *** [internal/vocabulary/failures.go] *)

Definition FailureEffectInvalid : string := "effect-invalid". (* src/internal/vocabulary/failures.go:27-27 *)
Definition FailureEffectEntityMissing : string := "effect-entity-missing". (* src/internal/vocabulary/failures.go:31-31 *)
Definition FailureEffectEntityKind : string := "effect-entity-kind". (* src/internal/vocabulary/failures.go:35-35 *)
Definition FailureEffectCommitIncomplete : string := "effect-commit-incomplete". (* src/internal/vocabulary/failures.go:41-41 *)
Definition FailurePersonaCapExhausted : string := "persona-cap-exhausted". (* src/internal/vocabulary/failures.go:50-50 *)
Definition FailurePersonaLoopFailed : string := "persona-loop-failed". (* src/internal/vocabulary/failures.go:63-63 *)
Definition FailureTurnStranded : string := "turn-stranded". (* src/internal/vocabulary/failures.go:74-74 *)
Definition FailureKnowledgeUnauthorized : string := "knowledge-unauthorized". (* src/internal/vocabulary/failures.go:76-76 *)
Definition FailureAccusationInvalid : string := "accusation-invalid". (* src/internal/vocabulary/failures.go:78-78 *)
Definition FailureCaseProgressInvalid : string := "case-progress-invalid". (* src/internal/vocabulary/failures.go:80-80 *)

(** *** [internal/vocabulary/world.go] *)

Definition EntityKindCharacter : string := "character". (* src/internal/vocabulary/world.go:30-30 *)
Definition EntityKindItem : string := "item". (* src/internal/vocabulary/world.go:32-32 *)
Definition EntityKindScene : string := "scene". (* src/internal/vocabulary/world.go:34-34 *)
Definition EntityKindLocation : string := "location". (* src/internal/vocabulary/world.go:36-36 *)
Definition EntityKindPlayer : string := "player". (* src/internal/vocabulary/world.go:40-40 *)
Definition EntityKindCase : string := "case". (* src/internal/vocabulary/world.go:41-41 *)
Definition EntityKindEvidence : string := "evidence". (* src/internal/vocabulary/world.go:42-42 *)
Definition EntityKindEvent : string := "event". (* src/internal/vocabulary/world.go:43-43 *)
Definition EntityKindBelief : string := "belief". (* src/internal/vocabulary/world.go:44-44 *)
Definition EntityKindKnowledge : string := "knowledge". (* src/internal/vocabulary/world.go:45-45 *)
Definition EntityKindRevelation : string := "revelation". (* src/internal/vocabulary/world.go:46-46 *)
Definition EntityKindCompanionBond : string := "companion-bond". (* src/internal/vocabulary/world.go:47-47 *)
Definition PlatformSegment : string := "semmachina". (* src/internal/vocabulary/world.go:355-355 *)

(** *** [internal/vocabulary/mystery.go] *)

Definition EvidenceTruthClue : string := "clue". (* src/internal/vocabulary/mystery.go:9-9 *)
Definition EvidenceTruthRedHerring : string := "red-herring". (* src/internal/vocabulary/mystery.go:11-11 *)
Definition EvidenceRevealObserve : string := "observe". (* src/internal/vocabulary/mystery.go:35-35 *)
Definition EvidenceRevealInvestigate : string := "investigate". (* src/internal/vocabulary/mystery.go:37-37 *)
Definition BeliefAffirms : string := "affirms". (* src/internal/vocabulary/mystery.go:59-59 *)
Definition BeliefDenies : string := "denies". (* src/internal/vocabulary/mystery.go:61-61 *)
Definition BeliefUncertain : string := "uncertain". (* src/internal/vocabulary/mystery.go:63-63 *)
Definition CompanionPolicyReactive : string := "reactive". (* src/internal/vocabulary/mystery.go:83-83 *)
Definition CompanionPolicyBoundedInitiative : string := "bounded-initiative". (* src/internal/vocabulary/mystery.go:86-86 *)
Definition HintLevelNudge : string := "nudge". (* src/internal/vocabulary/mystery.go:106-106 *)
Definition HintLevelConnect : string := "connect". (* src/internal/vocabulary/mystery.go:108-108 *)
Definition HintLevelNextStep : string := "next-step". (* src/internal/vocabulary/mystery.go:110-110 *)
Definition CompanionTriggerNone : string := "none". (* src/internal/vocabulary/mystery.go:130-130 *)
Definition CompanionTriggerPlayerHint : string := "player-hint". (* src/internal/vocabulary/mystery.go:132-132 *)
Definition CompanionTriggerWarning : string := "warning". (* src/internal/vocabulary/mystery.go:134-134 *)
Definition CompanionTriggerSourceNone : string := "none". (* src/internal/vocabulary/mystery.go:153-153 *)
Definition CompanionTriggerSourceCaseDecision : string := "case-decision". (* src/internal/vocabulary/mystery.go:155-155 *)
Definition CompanionTriggerSourceResolvedRisk : string := "resolved-risk". (* src/internal/vocabulary/mystery.go:157-157 *)

(** *** [internal/vocabulary/caseflow.go] *)

Definition CaseWorkflowName : string := "mystery-case". (* src/internal/vocabulary/caseflow.go:4-4 *)
Definition CasePhaseColdOpen : string := "cold_open". (* src/internal/vocabulary/caseflow.go:11-11 *)
Definition CasePhaseDiscovery : string := "discovery". (* src/internal/vocabulary/caseflow.go:13-13 *)
Definition CasePhaseInvestigation : string := "investigation". (* src/internal/vocabulary/caseflow.go:15-15 *)
Definition CasePhaseAccusation : string := "accusation". (* src/internal/vocabulary/caseflow.go:17-17 *)
Definition CasePhaseDenouement : string := "denouement". (* src/internal/vocabulary/caseflow.go:19-19 *)
Definition CaseEventBodyObserved : string := "body-observed". (* src/internal/vocabulary/caseflow.go:44-44 *)
Definition CaseEventInvestigationStarted : string := "investigation-started". (* src/internal/vocabulary/caseflow.go:46-46 *)
Definition CaseEventAccusationSubmitted : string := "accusation-submitted". (* src/internal/vocabulary/caseflow.go:48-48 *)
Definition CaseEventAccusationCorrect : string := "accusation-correct". (* src/internal/vocabulary/caseflow.go:50-50 *)

(** *** [internal/vocabulary/authorization.go] *)

Definition AuthorizationWrongTurn : string := "wrong-turn". (* src/internal/vocabulary/authorization.go:10-10 *)
Definition AuthorizationWrongCase : string := "wrong-case". (* src/internal/vocabulary/authorization.go:11-11 *)
Definition AuthorizationWrongActor : string := "wrong-actor". (* src/internal/vocabulary/authorization.go:12-12 *)
Definition AuthorizationInvalidTarget : string := "invalid-target". (* src/internal/vocabulary/authorization.go:13-13 *)
Definition AuthorizationIneligibleReveal : string := "ineligible-reveal". (* src/internal/vocabulary/authorization.go:14-14 *)
Definition AuthorizationIneligiblePhase : string := "ineligible-phase". (* src/internal/vocabulary/authorization.go:15-15 *)
Definition AuthorizationSolutionLocked : string := "solution-locked". (* src/internal/vocabulary/authorization.go:16-16 *)
Definition AuthorizationQuestionTargetMismatch : string := "question-target-mismatch". (* src/internal/vocabulary/authorization.go:17-17 *)
Definition AuthorizationShareSourceUnknown : string := "share-source-unknown". (* src/internal/vocabulary/authorization.go:18-18 *)
Definition AuthorizationShareTargetUnauthorized : string := "share-target-unauthorized". (* src/internal/vocabulary/authorization.go:19-19 *)
Definition AuthorizationWitnessUnauthorized : string := "witness-unauthorized". (* src/internal/vocabulary/authorization.go:20-20 *)
Definition AuthorizationUnsupportedKind : string := "unsupported-kind". (* src/internal/vocabulary/authorization.go:21-21 *)

(** *** [internal/vocabulary/resolution.go] *)

Definition RollGateMappingV1 : string := "roll-gate/v1". (* src/internal/vocabulary/resolution.go:139-139 *)

(** ** The registered enums *)

(* src/internal/vocabulary/classes.go:20-21 (plausibilityEnum) *)
Definition plausibilityEnum : enum :=
  newEnum KindPlausibility [PlausibilityImpossible; PlausibilityUnlikely; PlausibilityPlausible; PlausibilityCertain].

(* src/internal/vocabulary/classes.go:48-48 (riskEnum) *)
Definition riskEnum : enum :=
  newEnum KindRisk [RiskNone; RiskLow; RiskModerate; RiskHigh].

(* src/internal/vocabulary/classes.go:79-81 (consequenceEnum) *)
Definition consequenceEnum : enum :=
  newEnum KindConsequence [ConsequenceNone; ConsequenceSetback; ConsequenceHarm; ConsequenceCost; ConsequenceComplication; ConsequenceEscalation].

(* src/internal/vocabulary/classes.go:111-111 (outcomeBandEnum) *)
Definition outcomeBandEnum : enum :=
  newEnum KindOutcomeBand [BandAuto; BandMiss; BandPartial; BandFull].

(* src/internal/vocabulary/classes.go:151-152 (modifierSourceEnum) *)
Definition modifierSourceEnum : enum :=
  newEnum KindModifierSource [ModifierTrait; ModifierEquipment; ModifierPosition; ModifierAssistance; ModifierCondition].

(* src/internal/vocabulary/classes.go:180-182 (effectTypeEnum) *)
Definition effectTypeEnum : enum :=
  newEnum KindEffectType [EffectSetAttribute; EffectMoveEntity; EffectAddRelationship; EffectRemoveRelationship; EffectSetStatus].

(* src/internal/vocabulary/classes.go:218-220 (statusEnum) *)
Definition statusEnum : enum :=
  newEnum KindStatus [StatusHealthy; StatusWounded; StatusExhausted; StatusFrightened; StatusHidden; StatusRestrained; StatusUnconscious; StatusDead].

(* src/internal/vocabulary/classes.go:260-262 (turnPhaseEnum) *)
Definition turnPhaseEnum : enum :=
  newEnum KindTurnPhase [PhaseAccepted; PhaseInterpreting; PhaseAdjudicating; PhaseResolving; PhaseApplying; PhaseCompanion; PhaseNarrating; PhaseComplete; PhaseFailed].

(* src/internal/vocabulary/classes.go:289-289 (channelAdapterEnum) *)
Definition channelAdapterEnum : enum :=
  newEnum KindChannelAdapter [AdapterWebSocket].

(* src/internal/vocabulary/classes.go:311-311 (mechanicEnum) *)
Definition mechanicEnum : enum :=
  newEnum KindMechanic [Mechanic2d6PbtaV1].

(* src/internal/vocabulary/classes.go:333-333 (rngEnum) *)
Definition rngEnum : enum :=
  newEnum KindRNG [RNGPCGV1].

(* src/internal/vocabulary/attributes.go:28-29 (attributeEnum) *)
Definition attributeEnum : enum :=
  newEnum KindAttribute [AttributeHealth; AttributeStamina; AttributeResolve; AttributeQuantity; AttributeTension].

(* src/internal/vocabulary/attributes.go:229-230 (relationEnum) *)
Definition relationEnum : enum :=
  newEnum KindRelation [RelationAlliedWith; RelationHostileTo; RelationKnows; RelationCarries; RelationOwesDebt].

(* src/internal/vocabulary/failures.go:83-87 (failureReasonEnum) *)
Definition failureReasonEnum : enum :=
  newEnum KindFailureReason [FailureEffectInvalid; FailureEffectEntityMissing; FailureEffectEntityKind; FailureEffectCommitIncomplete; FailurePersonaCapExhausted; FailurePersonaLoopFailed; FailureTurnStranded; FailureKnowledgeUnauthorized; FailureAccusationInvalid; FailureCaseProgressInvalid].

(* src/internal/vocabulary/world.go:50-53 (entityKindEnum) *)
Definition entityKindEnum : enum :=
  newEnum KindEntityKind [EntityKindCharacter; EntityKindItem; EntityKindScene; EntityKindLocation; EntityKindPlayer; EntityKindCase; EntityKindEvidence; EntityKindEvent; EntityKindBelief; EntityKindKnowledge; EntityKindRevelation; EntityKindCompanionBond].

(* src/internal/vocabulary/mystery.go:14-15 (evidenceTruthStatusEnum) *)
Definition evidenceTruthStatusEnum : enum :=
  newEnum KindEvidenceTruthStatus [EvidenceTruthClue; EvidenceTruthRedHerring].

(* src/internal/vocabulary/mystery.go:40-41 (evidenceRevealKindEnum) *)
Definition evidenceRevealKindEnum : enum :=
  newEnum KindEvidenceRevealKind [EvidenceRevealObserve; EvidenceRevealInvestigate].

(* src/internal/vocabulary/mystery.go:66-67 (beliefStanceEnum) *)
Definition beliefStanceEnum : enum :=
  newEnum KindBeliefStance [BeliefAffirms; BeliefDenies; BeliefUncertain].

(* src/internal/vocabulary/mystery.go:89-90 (companionPolicyEnum) *)
Definition companionPolicyEnum : enum :=
  newEnum KindCompanionPolicy [CompanionPolicyReactive; CompanionPolicyBoundedInitiative].

(* src/internal/vocabulary/mystery.go:113-114 (hintLevelEnum) *)
Definition hintLevelEnum : enum :=
  newEnum KindHintLevel [HintLevelNudge; HintLevelConnect; HintLevelNextStep].

(* src/internal/vocabulary/mystery.go:137-138 (companionTriggerEnum) *)
Definition companionTriggerEnum : enum :=
  newEnum KindCompanionTrigger [CompanionTriggerNone; CompanionTriggerPlayerHint; CompanionTriggerWarning].

(* src/internal/vocabulary/mystery.go:160-161 (companionTriggerSourceEnum) *)
Definition companionTriggerSourceEnum : enum :=
  newEnum KindCompanionTriggerSource [CompanionTriggerSourceNone; CompanionTriggerSourceCaseDecision; CompanionTriggerSourceResolvedRisk].

(* src/internal/vocabulary/caseflow.go:22-28 (casePhaseEnum) *)
Definition casePhaseEnum : enum :=
  newEnum KindCasePhase [CasePhaseColdOpen; CasePhaseDiscovery; CasePhaseInvestigation; CasePhaseAccusation; CasePhaseDenouement].

(* src/internal/vocabulary/caseflow.go:53-58 (caseLifecycleEventKindEnum) *)
Definition caseLifecycleEventKindEnum : enum :=
  newEnum KindCaseLifecycleEventKind [CaseEventBodyObserved; CaseEventInvestigationStarted; CaseEventAccusationSubmitted; CaseEventAccusationCorrect].

(* src/internal/vocabulary/authorization.go:24-37 (authorizationReasonEnum) *)
Definition authorizationReasonEnum : enum :=
  newEnum KindAuthorizationReason [AuthorizationWrongTurn; AuthorizationWrongCase; AuthorizationWrongActor; AuthorizationInvalidTarget; AuthorizationIneligibleReveal; AuthorizationIneligiblePhase; AuthorizationSolutionLocked; AuthorizationQuestionTargetMismatch; AuthorizationShareSourceUnknown; AuthorizationShareTargetUnauthorized; AuthorizationWitnessUnauthorized; AuthorizationUnsupportedKind].

(* src/internal/vocabulary/resolution.go:142-142 (rollGateMappingEnum) *)
Definition rollGateMappingEnum : enum :=
  newEnum KindRollGateMapping [RollGateMappingV1].

(** ** Tables *)

(* src/internal/vocabulary/predicates.go:387-478 (allPredicates) *)
Definition allPredicates : list string :=
  [TurnPhaseCurrent; TurnActionRef; TurnActionPlayer;
   TurnActionScene; TurnCaseDecisionRef; TurnCaseDecisionKind;
   TurnCompanionDecisionRef; TurnCompanionStageRef; TurnCompanionTriggerKind;
   TurnCompanionTriggerSource; TurnKnowledgeRef; TurnAccusationRef;
   TurnCaseProgressRef; TurnVerdictPlausibility; TurnVerdictRisk;
   TurnVerdictConsequence; TurnVerdictRequiresRoll; TurnVerdictRef;
   TurnRollBand; TurnRollTotal; TurnRollRef;
   TurnEffectsBatch; TurnEffectsRef; TurnNarrationRef;
   TurnResumeAttempts; TurnFailureReason; TurnFailureRef;
   CampaignSeedValue; CampaignExperiencePersonaPack; CampaignExperienceMechanicsPack;
   CampaignImportCompleted; WorldEntityName; WorldEntityKind;
   WorldEntityDescription; PlayerCharacterCurrent; PlayerTurnCurrent;
   PlayerTurnResolved; CharacterStatusCurrent; WorldLocationCurrent;
   SceneLocationCurrent; LocationRelationConnectsTo; GeoLocationLatitude;
   GeoLocationLongitude; CharacterAttributeHealth; CharacterAttributeStamina;
   CharacterAttributeResolve; ItemAttributeQuantity; SceneAttributeTension;
   WorldRelationAlliedWith; WorldRelationHostileTo; WorldRelationKnows;
   WorldRelationCarries; WorldRelationOwesDebt; CaseSolutionCulprit;
   CaseSolutionMethod; CaseSolutionMotive; CaseRequirementSuspects;
   CaseRequirementEvidence; CaseMemberSuspect; CaseMemberEvidence;
   CaseMemberTimeline; CaseMemberVictim; CaseTimelineOrder;
   CaseLifecyclePhase; CaseLifecycleEventID; CaseLifecycleEventKindPredicate;
   CaseLifecycleFromPhase; CaseLifecycleToPhase; CaseTransitionSource;
   CaseTransitionAt; CaseTransitionFrom; EvidenceTruthStatusCurrent;
   EvidenceRevealPhase; EvidenceRevealKindPredicate; EvidenceRevealTarget;
   BeliefActorHolder; BeliefEvidenceRef; BeliefStanceCurrent;
   KnowledgeActorHolder; KnowledgeEvidenceRef; RevelationEvidenceRef;
   RevelationActorHolder; RevelationTurnID; RevelationSourceActor;
   RevelationTestimonyRef; CompanionCandidatePolicy; CompanionBondPlayer;
   CompanionBondCharacter; CompanionBondPolicy; CompanionBondHintLevel].

(* src/internal/vocabulary/world.go:77-148 (worldFactSubjectKinds) *)
Definition worldFactSubjectKinds : gmap string (list string) := list_to_map
  [(WorldEntityName, [EntityKindCharacter; EntityKindItem; EntityKindScene; EntityKindLocation; EntityKindPlayer; EntityKindCase; EntityKindEvidence; EntityKindEvent]);
   (WorldEntityKind, [EntityKindCharacter; EntityKindItem; EntityKindScene; EntityKindLocation; EntityKindPlayer; EntityKindCase; EntityKindEvidence; EntityKindEvent; EntityKindBelief; EntityKindKnowledge; EntityKindRevelation; EntityKindCompanionBond]);
   (WorldEntityDescription, [EntityKindCharacter; EntityKindItem; EntityKindScene; EntityKindLocation; EntityKindPlayer; EntityKindCase; EntityKindEvidence; EntityKindEvent; EntityKindBelief]);
   (PlayerCharacterCurrent, [EntityKindPlayer]);
   (CharacterAttributeHealth, [EntityKindCharacter]);
   (CharacterAttributeStamina, [EntityKindCharacter]);
   (CharacterAttributeResolve, [EntityKindCharacter]);
   (CharacterStatusCurrent, [EntityKindCharacter]);
   (ItemAttributeQuantity, [EntityKindItem]);
   (SceneAttributeTension, [EntityKindScene]);
   (WorldLocationCurrent, [EntityKindCharacter; EntityKindItem]);
   (SceneLocationCurrent, [EntityKindScene]);
   (LocationRelationConnectsTo, [EntityKindLocation]);
   (GeoLocationLatitude, [EntityKindLocation]);
   (GeoLocationLongitude, [EntityKindLocation]);
   (WorldRelationAlliedWith, [EntityKindCharacter]);
   (WorldRelationHostileTo, [EntityKindCharacter]);
   (WorldRelationKnows, [EntityKindCharacter]);
   (WorldRelationCarries, [EntityKindCharacter]);
   (WorldRelationOwesDebt, [EntityKindCharacter]);
   (CaseSolutionCulprit, [EntityKindCase]);
   (CaseSolutionMethod, [EntityKindCase]);
   (CaseSolutionMotive, [EntityKindCase]);
   (CaseRequirementSuspects, [EntityKindCase]);
   (CaseRequirementEvidence, [EntityKindCase]);
   (CaseMemberSuspect, [EntityKindCase]);
   (CaseMemberEvidence, [EntityKindCase]);
   (CaseMemberTimeline, [EntityKindCase]);
   (CaseMemberVictim, [EntityKindCase]);
   (CaseLifecyclePhase, [EntityKindCase]);
   (CaseLifecycleEventID, [EntityKindCase]);
   (CaseLifecycleEventKindPredicate, [EntityKindCase]);
   (CaseLifecycleFromPhase, [EntityKindCase]);
   (CaseLifecycleToPhase, [EntityKindCase]);
   (CaseTransitionSource, [EntityKindCase]);
   (CaseTransitionAt, [EntityKindCase]);
   (CaseTransitionFrom, [EntityKindCase]);
   (CaseTimelineOrder, [EntityKindEvent]);
   (EvidenceTruthStatusCurrent, [EntityKindEvidence]);
   (EvidenceRevealPhase, [EntityKindEvidence]);
   (EvidenceRevealKindPredicate, [EntityKindEvidence]);
   (EvidenceRevealTarget, [EntityKindEvidence]);
   (BeliefActorHolder, [EntityKindBelief]);
   (BeliefEvidenceRef, [EntityKindBelief]);
   (BeliefStanceCurrent, [EntityKindBelief]);
   (KnowledgeActorHolder, [EntityKindKnowledge]);
   (KnowledgeEvidenceRef, [EntityKindKnowledge]);
   (RevelationEvidenceRef, [EntityKindRevelation]);
   (RevelationActorHolder, [EntityKindRevelation]);
   (RevelationTurnID, [EntityKindRevelation]);
   (RevelationSourceActor, [EntityKindRevelation]);
   (RevelationTestimonyRef, [EntityKindRevelation]);
   (CompanionCandidatePolicy, [EntityKindCharacter]);
   (CompanionBondPlayer, [EntityKindCompanionBond]);
   (CompanionBondCharacter, [EntityKindCompanionBond]);
   (CompanionBondPolicy, [EntityKindCompanionBond]);
   (CompanionBondHintLevel, [EntityKindCompanionBond])].

(* src/internal/vocabulary/world.go:164-195 (referenceObjectKinds) *)
Definition referenceObjectKinds : gmap string (list string) := list_to_map
  [(WorldLocationCurrent, [EntityKindLocation]);
   (SceneLocationCurrent, [EntityKindLocation]);
   (LocationRelationConnectsTo, [EntityKindLocation]);
   (PlayerCharacterCurrent, [EntityKindCharacter]);
   (WorldRelationAlliedWith, [EntityKindCharacter]);
   (WorldRelationHostileTo, [EntityKindCharacter]);
   (WorldRelationKnows, [EntityKindCharacter]);
   (WorldRelationCarries, [EntityKindItem]);
   (WorldRelationOwesDebt, [EntityKindCharacter]);
   (CaseSolutionCulprit, [EntityKindCharacter]);
   (CaseSolutionMethod, [EntityKindItem]);
   (CaseSolutionMotive, [EntityKindEvidence]);
   (CaseMemberSuspect, [EntityKindCharacter]);
   (CaseMemberEvidence, [EntityKindEvidence]);
   (CaseMemberTimeline, [EntityKindEvent]);
   (CaseMemberVictim, [EntityKindCharacter]);
   (BeliefActorHolder, [EntityKindCharacter]);
   (EvidenceRevealTarget, [EntityKindCharacter; EntityKindItem; EntityKindScene; EntityKindEvidence]);
   (BeliefEvidenceRef, [EntityKindEvidence]);
   (KnowledgeActorHolder, [EntityKindCharacter]);
   (KnowledgeEvidenceRef, [EntityKindEvidence]);
   (RevelationEvidenceRef, [EntityKindEvidence]);
   (RevelationActorHolder, [EntityKindCharacter]);
   (RevelationSourceActor, [EntityKindCharacter]);
   (CompanionBondPlayer, [EntityKindPlayer]);
   (CompanionBondCharacter, [EntityKindCharacter])].

(** ** [Sets] and [Kinds] *)

(* src/internal/vocabulary/enum.go#var registeredEnums *)
Definition registeredEnums : list enum :=
  [plausibilityEnum; riskEnum; consequenceEnum; outcomeBandEnum; modifierSourceEnum;
   effectTypeEnum; statusEnum; attributeEnum; relationEnum; entityKindEnum; turnPhaseEnum;
   channelAdapterEnum; mechanicEnum; rngEnum; failureReasonEnum; authorizationReasonEnum;
   rollGateMappingEnum; evidenceTruthStatusEnum; evidenceRevealKindEnum; beliefStanceEnum;
   companionPolicyEnum; hintLevelEnum; companionTriggerEnum; companionTriggerSourceEnum;
   casePhaseEnum; caseLifecycleEventKindEnum].

(* src/internal/vocabulary/enum.go#Sets *)
Definition Sets : gmap string (list string) :=
  fold_left (fun out e => <[enum_k e := enum_strings e]> out) registeredEnums ∅.

(* src/internal/vocabulary/enum.go#Kinds *)
Definition Kinds : list string := map enum_k registeredEnums.
