(* ===== verification/Vocabulary.v ===== *)
(** [internal/vocabulary]: the turn FSM table, the resolution mechanics, the
    advisory roll gate, attribute bounds, relations, the world-fact tables'
    readers, and the identifier rules. *)

From S2P Require Import Prelude GoStd GoErrors Graph Vocab.

Open Scope Z_scope.

(** ** Parsers of the closed sets *)

(* src/internal/vocabulary/classes.go#ParsePlausibility *)
Definition ParsePlausibility (s : string) : res string := enum_parse plausibilityEnum s.
(* src/internal/vocabulary/classes.go#ParseRisk *)
Definition ParseRisk (s : string) : res string := enum_parse riskEnum s.
(* src/internal/vocabulary/classes.go#ParseConsequence *)
Definition ParseConsequence (s : string) : res string := enum_parse consequenceEnum s.
(* src/internal/vocabulary/classes.go#ParseOutcomeBand *)
Definition ParseOutcomeBand (s : string) : res string := enum_parse outcomeBandEnum s.
(* src/internal/vocabulary/classes.go#ParseModifierSource *)
Definition ParseModifierSource (s : string) : res string := enum_parse modifierSourceEnum s.
(* src/internal/vocabulary/classes.go#ParseEffectType *)
Definition ParseEffectType (s : string) : res string := enum_parse effectTypeEnum s.
(* src/internal/vocabulary/classes.go#ParseStatus *)
Definition ParseStatus (s : string) : res string := enum_parse statusEnum s.
(* src/internal/vocabulary/classes.go#ParseTurnPhase *)
Definition ParseTurnPhase (s : string) : res string := enum_parse turnPhaseEnum s.
(* src/internal/vocabulary/classes.go#ParseChannelAdapter *)
Definition ParseChannelAdapter (s : string) : res string := enum_parse channelAdapterEnum s.
(* src/internal/vocabulary/classes.go#ParseRNG *)
Definition ParseRNG (s : string) : res string := enum_parse rngEnum s.
(* src/internal/vocabulary/attributes.go#ParseRelation *)
Definition ParseRelation (s : string) : res string := enum_parse relationEnum s.
(* src/internal/vocabulary/failures.go#ParseFailureReason *)
Definition ParseFailureReason (s : string) : res string := enum_parse failureReasonEnum s.
(* src/internal/vocabulary/world.go#ParseEntityKind *)
Definition ParseEntityKind (s : string) : res string := enum_parse entityKindEnum s.
(* src/internal/vocabulary/attributes.go#ParseAttribute *)
Definition ParseAttribute (s : string) : res string := enum_parse attributeEnum s.
(* src/internal/vocabulary/authorization.go#ParseAuthorizationReason *)
Definition ParseAuthorizationReason (value : string) : res string := enum_parse authorizationReasonEnum value.
(* src/internal/vocabulary/caseflow.go#ParseCasePhase *)
Definition ParseCasePhase (value : string) : res string := enum_parse casePhaseEnum value.
(* src/internal/vocabulary/caseflow.go#ParseCaseLifecycleEventKind *)
Definition ParseCaseLifecycleEventKind (value : string) : res string := enum_parse caseLifecycleEventKindEnum value.
(* src/internal/vocabulary/mystery.go#ParseEvidenceTruthStatus *)
Definition ParseEvidenceTruthStatus (s : string) : res string := enum_parse evidenceTruthStatusEnum s.
(* src/internal/vocabulary/mystery.go#ParseEvidenceRevealKind *)
Definition ParseEvidenceRevealKind (s : string) : res string := enum_parse evidenceRevealKindEnum s.
(* src/internal/vocabulary/mystery.go#ParseBeliefStance *)
Definition ParseBeliefStance (s : string) : res string := enum_parse beliefStanceEnum s.
(* src/internal/vocabulary/mystery.go#ParseCompanionPolicy *)
Definition ParseCompanionPolicy (s : string) : res string := enum_parse companionPolicyEnum s.
(* src/internal/vocabulary/mystery.go#ParseHintLevel *)
Definition ParseHintLevel (s : string) : res string := enum_parse hintLevelEnum s.
(* src/internal/vocabulary/mystery.go#ParseCompanionTrigger *)
Definition ParseCompanionTrigger (s : string) : res string := enum_parse companionTriggerEnum s.
(* src/internal/vocabulary/mystery.go#ParseCompanionTriggerSource *)
Definition ParseCompanionTriggerSource (s : string) : res string := enum_parse companionTriggerSourceEnum s.

(* src/internal/vocabulary/classes.go#TurnPhase.IsTerminal *)
Definition IsTerminal (p : string) : bool :=
  String.eqb p PhaseComplete || String.eqb p PhaseFailed.

(* src/internal/vocabulary/classes.go#RollBands *)
Definition RollBands : list string := [BandMiss; BandPartial; BandFull].

(* src/internal/vocabulary/classes.go#OutcomeBand.IsRollBand *)
Definition IsRollBand (b : string) : bool :=
  String.eqb b BandMiss || String.eqb b BandPartial || String.eqb b BandFull.

(** ** The turn FSM, stated once as data ([phases.go]) *)

(* src/internal/vocabulary/phases.go:29-39 (phaseRanks) *)
Definition phaseRanks : gmap string Z := list_to_map
  [(PhaseAccepted, 0); (PhaseInterpreting, 1); (PhaseAdjudicating, 2); (PhaseResolving, 3);
   (PhaseApplying, 4); (PhaseCompanion, 5); (PhaseNarrating, 6); (PhaseComplete, 7);
   (PhaseFailed, 7)].

(* src/internal/vocabulary/phases.go:55-70 (phasePredecessors) *)
Definition phasePredecessors : gmap string (list string) := list_to_map
  [(PhaseAccepted, []);
   (PhaseInterpreting, [PhaseAccepted]);
   (PhaseAdjudicating, [PhaseInterpreting]);
   (PhaseResolving, [PhaseAdjudicating]);
   (PhaseApplying, [PhaseAdjudicating; PhaseResolving]);
   (PhaseCompanion, [PhaseApplying]);
   (PhaseNarrating, [PhaseCompanion]);
   (PhaseComplete, [PhaseNarrating]);
   (PhaseFailed, [PhaseAccepted; PhaseInterpreting; PhaseAdjudicating; PhaseResolving;
                  PhaseApplying; PhaseCompanion; PhaseNarrating])].

(* src/internal/vocabulary/phases.go#PhaseRank *)
Definition PhaseRank (p : string) : option Z := phaseRanks !! p.

(* src/internal/vocabulary/phases.go#PhasePredecessors *)
Definition PhasePredecessors (p : string) : option (list string) :=
  match phaseRanks !! p with
  | None => None
  | Some _ => Some (default [] (phasePredecessors !! p))
  end.

(* src/internal/vocabulary/phases.go#PhaseFollows *)
Definition PhaseFollows (from to : string) : bool :=
  mem from (default [] (phasePredecessors !! to)).

(** ** Resolution mechanics ([resolution.go]) *)

(* src/internal/vocabulary/resolution.go#type MechanicSpec *)
Record MechanicSpec : Type := {
  Mechanic : string;
  Dice : Z;
  Faces : Z;
  MaxMissTotal : Z;
  MaxPartialTotal : Z
}.

(* src/internal/vocabulary/resolution.go#MechanicSpec.BandForTotal *)
Definition BandForTotal (s : MechanicSpec) (total : Z) : string :=
  if total <=? MaxMissTotal s then BandMiss
  else if total <=? MaxPartialTotal s then BandPartial
  else BandFull.

(* src/internal/vocabulary/resolution.go#MechanicSpec.MinDiceTotal *)
Definition MinDiceTotal (s : MechanicSpec) : Z := Dice s.
(* src/internal/vocabulary/resolution.go#MechanicSpec.MaxDiceTotal *)
Definition MaxDiceTotal (s : MechanicSpec) : Z := wrap64 (Dice s * Faces s).
(* src/internal/vocabulary/resolution.go#MechanicSpec.ValidDie *)
Definition ValidDie (s : MechanicSpec) (v : Z) : bool := (1 <=? v) && (v <=? Faces s).

(* src/internal/vocabulary/resolution.go#var mechanicSpecs *)
Definition mechanicSpecs : gmap string MechanicSpec := list_to_map
  [(Mechanic2d6PbtaV1, {| Mechanic := Mechanic2d6PbtaV1; Dice := 2; Faces := 6;
                          MaxMissTotal := 6; MaxPartialTotal := 9 |})].

(* src/internal/vocabulary/resolution.go#MechanicSpecFor *)
Definition MechanicSpecFor (m : string) : res MechanicSpec :=
  match mechanicSpecs !! m with
  | Some spec => Ok spec
  | None => Err (UnknownValueError KindMechanic m (enum_strings mechanicEnum))
  end.

(* src/internal/vocabulary/resolution.go#var rollGateMappings *)
Definition rollGateMappings : gmap string (string -> string -> bool) := list_to_map
  [(RollGateMappingV1, fun p r =>
      let uncertain := String.eqb p PlausibilityUnlikely || String.eqb p PlausibilityPlausible in
      uncertain && negb (String.eqb r RiskNone))].

(* src/internal/vocabulary/resolution.go#RollGateMappingVersion *)
Definition RollGateMappingVersion : string := RollGateMappingV1.

(* src/internal/vocabulary/resolution.go#AdviseRollGate *)
Definition AdviseRollGate (mapping p r : string) : res bool :=
  match rollGateMappings !! mapping with
  | None => Err (UnknownValueError KindRollGateMapping mapping (enum_strings rollGateMappingEnum))
  | Some advise =>
      if negb (enum_valid plausibilityEnum p) then
        Err (UnknownValueError KindPlausibility p (enum_strings plausibilityEnum))
      else if negb (enum_valid riskEnum r) then
        Err (UnknownValueError KindRisk r (enum_strings riskEnum))
      else Ok (advise p r)
  end.

(* src/internal/vocabulary/resolution.go#RequiresRoll *)
Definition RequiresRoll (p r : string) : res bool := AdviseRollGate RollGateMappingVersion p r.

(* src/internal/vocabulary/resolution.go#BandsForVerdict *)
Definition BandsForVerdict (requiresRoll : bool) : list string :=
  if requiresRoll then RollBands else [BandAuto].

(** ** Attributes and relations ([attributes.go]) *)

(* src/internal/vocabulary/attributes.go#type AttributeSpec *)
Record AttributeSpec : Type := {
  as_Attribute : string; as_Predicate : string; as_Min : Z; as_Max : Z
}.

(* src/internal/vocabulary/attributes.go#AttributeSpec.InBounds *)
Definition InBounds (s : AttributeSpec) (value : Z) : bool :=
  (as_Min s <=? value) && (value <=? as_Max s).

(* src/internal/vocabulary/attributes.go#type AttributeBounds *)
Record AttributeBounds : Type := { Min : Z; Max : Z }.

(** [AttributeSpecSet]: one world's contracts, keyed by attribute. *)
Abbreviation AttributeSpecSet := (gmap string AttributeSpec).

(* src/internal/vocabulary/attributes.go#var attributePredicates *)
Definition attributePredicates : gmap string string := list_to_map
  [(AttributeHealth, CharacterAttributeHealth);
   (AttributeStamina, CharacterAttributeStamina);
   (AttributeResolve, CharacterAttributeResolve);
   (AttributeQuantity, ItemAttributeQuantity);
   (AttributeTension, SceneAttributeTension)].

(* src/internal/vocabulary/attributes.go#var defaultAttributeBounds *)
Definition defaultAttributeBounds : gmap string AttributeBounds := list_to_map
  [(AttributeHealth, {| Min := 0; Max := 10 |});
   (AttributeStamina, {| Min := 0; Max := 10 |});
   (AttributeResolve, {| Min := 0; Max := 10 |});
   (AttributeQuantity, {| Min := 0; Max := 99 |});
   (AttributeTension, {| Min := 0; Max := 10 |})].

(** The first loop of the constructor: every registered attribute is declared. *)
Fixpoint pair_bounds (bounds : gmap string AttributeBounds) (attrs : list string)
    (specs : AttributeSpecSet) : res AttributeSpecSet :=
  match attrs with
  | [] => Ok specs
  | a :: rest =>
      match bounds !! a with
      | None => Err (Errorf "attribute has no declared bounds" [])
      | Some b =>
          if Max b <? Min b then Err (Errorf "attribute has an inverted range" [])
          else pair_bounds bounds rest
                 (<[a := {| as_Attribute := a; as_Predicate := default EmptyString (attributePredicates !! a);
                            as_Min := Min b; as_Max := Max b |}]> specs)
      end
  end.

(* src/internal/vocabulary/attributes.go#NewAttributeSpecSet *)
Definition NewAttributeSpecSet (bounds : gmap string AttributeBounds) : res AttributeSpecSet :=
  specs ← pair_bounds bounds (enum_all attributeEnum) ∅;
  _ ← all_ok (fun a => require (enum_valid attributeEnum a)
                (UnknownValueError KindAttribute a (enum_strings attributeEnum)))
        (map fst (map_to_list bounds));
  Ok specs.

(* src/internal/vocabulary/attributes.go#DefaultAttributeSpecs *)
Definition DefaultAttributeSpecs : AttributeSpecSet :=
  match NewAttributeSpecSet defaultAttributeBounds with
  | Ok set => set
  | Err _ => ∅ (* panic: refuted by [DefaultAttributeSpecs_ok] *)
  end.

(* src/internal/vocabulary/attributes.go#AttributeSpecSet.IsZero *)
Definition specs_IsZero (s : AttributeSpecSet) : bool := bool_decide (size s = 0%nat).

(* src/internal/vocabulary/attributes.go#AttributeSpecSet.For *)
Definition specs_For (s : AttributeSpecSet) (a : string) : option AttributeSpec := s !! a.

(* src/internal/vocabulary/attributes.go#AttributeSpecSet.Check *)
Definition specs_Check (s : AttributeSpecSet) (a : string) (value : Z) : res unit :=
  match specs_For s a with
  | None => Err (UnknownValueError KindAttribute a (enum_strings attributeEnum))
  | Some spec =>
      if negb (InBounds spec value) then Err (OutOfBoundsError a value (as_Min spec) (as_Max spec))
      else Ok tt
  end.

(* src/internal/vocabulary/attributes.go#AttributeSpecFor *)
Definition AttributeSpecFor (a : string) : option AttributeSpec := specs_For DefaultAttributeSpecs a.

(* src/internal/vocabulary/attributes.go#CheckAttributeValue *)
Definition CheckAttributeValue (a : string) (value : Z) : res unit :=
  specs_Check DefaultAttributeSpecs a value.

(* src/internal/vocabulary/attributes.go#var relationPredicates *)
Definition relationPredicates : gmap string string := list_to_map
  [(RelationAlliedWith, WorldRelationAlliedWith);
   (RelationHostileTo, WorldRelationHostileTo);
   (RelationKnows, WorldRelationKnows);
   (RelationCarries, WorldRelationCarries);
   (RelationOwesDebt, WorldRelationOwesDebt)].

(* src/internal/vocabulary/attributes.go#RelationPredicate *)
Definition RelationPredicate (r : string) : option string := relationPredicates !! r.

(** ** World-fact tables ([world.go], [registration.go]) *)

(** The first key of a Go map whose value is [v]; the maps searched this way
    are injective, so iteration order does not matter
    ([AttributeForPredicate_spec], [RelationForPredicate_spec]). *)
Definition key_of (m : gmap string string) (v : string) : option string :=
  match List.find (fun kv => String.eqb (snd kv) v) (map_to_list m) with
  | Some kv => Some (fst kv)
  | None => None
  end.

(* src/internal/vocabulary/world.go#AttributeForPredicate *)
Definition AttributeForPredicate (p : string) : option string := key_of attributePredicates p.

(* src/internal/vocabulary/world.go#RelationForPredicate *)
Definition RelationForPredicate (p : string) : option string := key_of relationPredicates p.

(* src/internal/vocabulary/world.go#SubjectKindsFor *)
Definition SubjectKindsFor (p : string) : option (list string) := worldFactSubjectKinds !! p.

(* src/internal/vocabulary/world.go#ObjectKindsFor *)
Definition ObjectKindsFor (p : string) : option (list string) := referenceObjectKinds !! p.

(* src/internal/vocabulary/world.go#AllowsObjectKind *)
Definition AllowsObjectKind (p k : string) : bool := mem k (default [] (referenceObjectKinds !! p)).

(* src/internal/vocabulary/world.go#IsEntityReference *)
Definition IsEntityReference (p : string) : bool :=
  match referenceObjectKinds !! p with Some _ => true | None => false end.

(* src/internal/vocabulary/world.go#var sceneMembershipPredicates *)
Definition sceneMembershipPredicates : list string := [WorldLocationCurrent].

(* src/internal/vocabulary/world.go#IsSceneMembership *)
Definition IsSceneMembership (p : string) : bool := mem p sceneMembershipPredicates.

(* src/internal/vocabulary/world.go#IsMultiValued *)
Definition IsMultiValued (p : string) : bool :=
  if mem p [CaseMemberSuspect; CaseMemberEvidence; CaseMemberTimeline;
            EvidenceRevealKindPredicate; EvidenceRevealTarget; LocationRelationConnectsTo]
  then true
  else match RelationForPredicate p with Some _ => true | None => false end.

(* src/internal/vocabulary/world.go#WorldFactPredicates *)
Definition WorldFactPredicates : list string :=
  List.filter (fun p => match worldFactSubjectKinds !! p with Some _ => true | None => false end)
    allPredicates.

(* src/internal/vocabulary/world.go#EffectWritablePredicateStrings *)
Definition EffectWritablePredicateStrings : list string :=
  List.filter (fun predicate =>
    match AttributeForPredicate predicate with
    | Some _ => true
    | None =>
        String.eqb predicate CharacterStatusCurrent || String.eqb predicate WorldLocationCurrent ||
        match RelationForPredicate predicate with Some _ => true | None => false end
    end) allPredicates.

(* src/internal/vocabulary/world.go#AllowsSubjectKind *)
Definition AllowsSubjectKind (p k : string) : bool :=
  match worldFactSubjectKinds !! p with
  | None => false
  | Some kinds => mem k kinds
  end.

(* src/internal/vocabulary/registration.go#var ruleOpaquePredicates *)
Definition ruleOpaquePredicates : list string :=
  [WorldEntityName; WorldEntityDescription; CaseSolutionCulprit; CaseSolutionMethod;
   CaseSolutionMotive; EvidenceTruthStatusCurrent; EvidenceRevealPhase;
   EvidenceRevealKindPredicate; EvidenceRevealTarget; BeliefActorHolder; BeliefEvidenceRef;
   BeliefStanceCurrent].

(* src/internal/vocabulary/registration.go#var immutablePredicates *)
Definition immutablePredicates : list string :=
  [CaseSolutionCulprit; CaseSolutionMethod; CaseSolutionMotive; EvidenceTruthStatusCurrent].

(* src/internal/vocabulary/registration.go#IsProtectedPredicate *)
Definition IsProtectedPredicate (p : string) : bool := mem p immutablePredicates.

(** ** The predicates each payload projects ([predicates.go]) *)

(* src/internal/vocabulary/predicates.go#var verdictScalarPredicates *)
Definition verdictScalarPredicates : list string :=
  [TurnVerdictPlausibility; TurnVerdictRisk; TurnVerdictConsequence; TurnVerdictRequiresRoll].
(* src/internal/vocabulary/predicates.go#var caseDecisionScalarPredicates *)
Definition caseDecisionScalarPredicates : list string := [TurnCaseDecisionKind].
(* src/internal/vocabulary/predicates.go#var rollScalarPredicates *)
Definition rollScalarPredicates : list string := [TurnRollBand; TurnRollTotal].
(* src/internal/vocabulary/predicates.go#var effectScalarPredicates *)
Definition effectScalarPredicates : list string := [TurnEffectsBatch].
(* src/internal/vocabulary/predicates.go:561-561 (narrationScalarPredicates) *)
Definition narrationScalarPredicates : list string := [].
(* src/internal/vocabulary/predicates.go:585-589 (turnAcceptedPredicates) *)
Definition turnAcceptedPredicates : list string := [TurnPhaseCurrent; TurnActionPlayer; TurnActionScene].
(* src/internal/vocabulary/predicates.go:593-593 (turnPhasePredicates) *)
Definition turnPhasePredicates : list string := [TurnPhaseCurrent].
(* src/internal/vocabulary/predicates.go:599-599 (turnFailurePredicates) *)
Definition turnFailurePredicates : list string := [TurnPhaseCurrent; TurnFailureReason].
(* src/internal/vocabulary/predicates.go:608-608 (turnResumePredicates) *)
Definition turnResumePredicates : list string := [TurnResumeAttempts].
(* src/internal/vocabulary/predicates.go:619-619 (playerTurnPredicates) *)
Definition playerTurnPredicates : list string := [PlayerTurnCurrent].
(* src/internal/vocabulary/predicates.go:636-636 (playerResolvedTurnPredicates) *)
Definition playerResolvedTurnPredicates : list string := [PlayerTurnResolved].

(** ** Stage artifacts ([artifacts.go]) *)

(* src/internal/vocabulary/artifacts.go#var stageArtifacts *)
Definition stageArtifacts : gmap string (list string) := list_to_map
  [(PhaseAccepted, []);
   (PhaseInterpreting, [TurnCaseDecisionRef]);
   (PhaseAdjudicating, verdictScalarPredicates ++ [TurnVerdictRef]);
   (PhaseResolving, rollScalarPredicates ++ [TurnRollRef]);
   (PhaseApplying, effectScalarPredicates ++ [TurnEffectsRef]);
   (PhaseCompanion, [TurnCompanionStageRef; TurnCompanionDecisionRef]);
   (PhaseNarrating, narrationScalarPredicates ++ [TurnNarrationRef]);
   (PhaseComplete, []);
   (PhaseFailed, [])].

(* src/internal/vocabulary/artifacts.go#var stageWitness *)
Definition stageWitness : gmap string string := list_to_map
  [(PhaseInterpreting, TurnCaseDecisionRef);
   (PhaseAdjudicating, TurnVerdictRef);
   (PhaseResolving, TurnRollRef);
   (PhaseApplying, TurnEffectsBatch);
   (PhaseCompanion, TurnCompanionStageRef);
   (PhaseNarrating, TurnNarrationRef)].

(* src/internal/vocabulary/artifacts.go#StageArtifacts *)
Definition StageArtifacts (p : string) : option (list string) := stageArtifacts !! p.

(* src/internal/vocabulary/artifacts.go#StageWitness *)
Definition StageWitness (p : string) : option string := stageWitness !! p.

(** ** Identifiers ([world.go], [references.go]) *)

(* src/internal/vocabulary/references.go#const StorageRefProperty *)
Definition StorageRefProperty : string := "ref".

Section identifiers.
Context `{Substrate}.

(* src/internal/vocabulary/world.go#const MaxIDSegmentBytes *)
Definition MaxIDSegmentBytes : Z := MaxEntityIDBytes / 2.

(* src/internal/vocabulary/world.go#ValidateIDSegment *)
Definition ValidateIDSegment (s : string) : res unit :=
  if String.eqb s EmptyString then Err (Errorf "entity-ID segment is required" [])
  else if MaxIDSegmentBytes <? len s then
    Err (Errorf "entity-ID segment exceeds the segment budget" [])
  else if contains_char dot s then
    Err (Errorf "entity-ID segment contains a dot, which would add positions rather than name one" [])
  else wrapf "not a legal entity-ID segment" (ValidateEntityIDPrefix s).

(* src/internal/vocabulary/world.go#ComposeEntityID *)
Definition ComposeEntityID (org worldNS template typeSegment instance : string) : res string :=
  let id := Join dot [org; PlatformSegment; worldNS; template; typeSegment; instance] in
  _ ← wrapf "composed entity id is not canonical" (ValidateEntityID id);
  Ok id.

(* src/internal/vocabulary/world.go#SiblingTypePrefix *)
Definition SiblingTypePrefix (entityID typeSegment : string) : res string :=
  _ ← wrapf "cannot derive a prefix" (ValidateEntityID entityID);
  _ ← wrapf "cannot derive a sibling prefix for type" (ValidateIDSegment typeSegment);
  let parts := Split dot entityID in
  let prefix := Join dot (take (List.length parts - 2) parts ++ [typeSegment]) in
  _ ← wrapf "derived prefix is not valid" (ValidateEntityIDPrefix prefix);
  Ok prefix.

(* src/internal/vocabulary/references.go#IsStorageRef *)
Definition IsStorageRef (p : string) : bool :=
  match ParsePredicate p with
  | Err _ => false
  | Ok (_, _, property) => String.eqb property StorageRefProperty
  end.

(* src/internal/vocabulary/references.go#StorageRefPredicates *)
Definition StorageRefPredicates : list string := List.filter IsStorageRef allPredicates.

(* src/internal/vocabulary/references.go#ArtifactSlot *)
Definition ArtifactSlot (p : string) : res string :=
  match ParsePredicate p with
  | Err e => Err (Errorf "predicate has no artifact slot" [e])
  | Ok (_, category, property) =>
      if negb (String.eqb property StorageRefProperty) then
        Err (Errorf "predicate is not a storage reference" [])
      else Ok category
  end.

(* src/internal/vocabulary/predicates.go#ValidatePredicate *)
Definition ValidatePredicate (p : string) : res unit :=
  match ParsePredicate p with Ok _ => Ok tt | Err e => Err e end.

(** ** Lemmas on identifiers *)

Lemma ValidateIDSegment_ok s :
  ValidateIDSegment s = Ok tt <->
  s <> EmptyString /\ len s <= MaxIDSegmentBytes /\ contains_char dot s = false /\
  ValidateEntityIDPrefix s = Ok tt.
Proof.
  unfold ValidateIDSegment.
  destruct (String.eqb_spec s EmptyString); [naive_solver|].
  destruct (Z.ltb_spec (MaxIDSegmentBytes) (len s)); [split; [done|]; intros (?&?&?&?); lia|].
  destruct (contains_char dot s) eqn:?; [naive_solver|].
  rewrite wrapf_ok. naive_solver.
Qed.

Lemma ComposeEntityID_ok org worldNS template typeSegment instance id :
  ComposeEntityID org worldNS template typeSegment instance = Ok id ->
  id = Join dot [org; PlatformSegment; worldNS; template; typeSegment; instance] /\
  ValidateEntityID id = Ok tt.
Proof.
  unfold ComposeEntityID. intros (u & Hv & [= <-])%result_bind_ok.
  apply wrapf_ok in Hv. by destruct u.
Qed.
End identifiers.

(** The substrate's own predicate is none of the engine's. *)
Class VocabularyLaws `{Substrate} : Prop := {
  vocabulary_substrate :: SubstrateLaws;
  EntityIndexingProfile_foreign : EntityIndexingProfile ∉ allPredicates;
  allPredicates_canonical p : p ∈ allPredicates -> exists v, ParsePredicate p = Ok v
}.

(** ** Lemmas on the tables *)

Lemma list_to_map_cases {A} (l : list (string * A)) k v :
  (list_to_map l : gmap string A) !! k = Some v -> In (k, v) l.
Proof. intros H. apply list_elem_of_In. by apply elem_of_list_to_map_2. Qed.

(** [table_cases H]: one goal per row of the literal map looked up in [H]. *)
Ltac table_cases H :=
  apply list_to_map_cases in H; cbn [In] in H;
  repeat (destruct H as [H|H]; [apply pair_equal_spec in H as [? ?]; subst|]); [..|destruct H].

Lemma PhaseRank_phases p r : PhaseRank p = Some r -> p ∈ enum_values turnPhaseEnum.
Proof. unfold PhaseRank, phaseRanks. intros H. table_cases H; vm_compute; set_solver. Qed.

Lemma phases_PhaseRank p : p ∈ enum_values turnPhaseEnum -> is_Some (PhaseRank p).
Proof.
  intros H. unfold turnPhaseEnum, newEnum in H. cbn [enum_values] in H.
  closed_cases H; eexists; vm_compute; reflexivity.
Qed.

Lemma PhaseFollows_cases from to :
  PhaseFollows from to = true ->
  exists rf rt, PhaseRank from = Some rf /\ PhaseRank to = Some rt /\ rf < rt /\
    IsTerminal from = false.
Proof.
  unfold PhaseFollows. rewrite mem_true.
  destruct (phasePredecessors !! to) as [l|] eqn:E; [|by intros ?%not_elem_of_nil].
  unfold phasePredecessors in E. intros H.
  table_cases E; cbn [from_option id] in H; closed_cases H;
  eexists _, _; (split; [vm_compute; reflexivity|]); (split; [vm_compute; reflexivity|]);
  (split; [lia|vm_compute; reflexivity]).
Qed.

Lemma DefaultAttributeSpecs_ok :
  NewAttributeSpecSet defaultAttributeBounds = Ok DefaultAttributeSpecs.
Proof. vm_compute. reflexivity. Qed.

Lemma key_of_spec (m : gmap string string) v k :
  (forall k1 k2 w, m !! k1 = Some w -> m !! k2 = Some w -> k1 = k2) ->
  key_of m v = Some k <-> m !! k = Some v.
Proof.
  intros Hinj. unfold key_of.
  destruct (List.find _ _) as [[k' v']|] eqn:E; cbn.
  - apply find_some in E as [Hin Heq]. cbn in Heq. apply String.eqb_eq in Heq as ->.
    rewrite <- list_elem_of_In, elem_of_map_to_list in Hin.
    split; [by intros [= <-]|]. intros Hk. f_equal. eauto.
  - split; [done|]. intros Hk. exfalso.
    apply elem_of_map_to_list, list_elem_of_In in Hk.
    apply (find_none _ _ E) in Hk. cbn in Hk. by rewrite String.eqb_refl in Hk.
Qed.

Ltac table_injective :=
  let k1 := fresh in let k2 := fresh in let w := fresh in let H1 := fresh in let H2 := fresh in
  intros k1 k2 w H1 H2; table_cases H1; table_cases H2; first
    [ reflexivity
    | match goal with H : @eq string _ _ |- _ => vm_compute in H; discriminate H end ].

Lemma AttributeForPredicate_spec p a :
  AttributeForPredicate p = Some a <-> attributePredicates !! a = Some p.
Proof. apply key_of_spec. unfold attributePredicates. table_injective. Qed.

Lemma RelationForPredicate_spec p r :
  RelationForPredicate p = Some r <-> relationPredicates !! r = Some p.
Proof. apply key_of_spec. unfold relationPredicates. table_injective. Qed.
