(* ===== verification/Payload.v ===== *)
(** [internal/payload], part one: the identity rules that pair a turn with its
    action and its entity, the one triple projection every payload goes
    through, and the turn, player and resume payloads. *)

From S2P Require Import Prelude GoStd GoErrors Graph Vocab Vocabulary.

Open Scope Z_scope.

(* src/internal/payload/constants.go#const Domain *)
Definition PayloadDomain : string := "semmachina".
(* src/internal/payload/constants.go#const SchemaVersion *)
Definition SchemaVersion : string := "v1".
(* src/internal/payload/constants.go#const CategoryTurnState *)
Definition CategoryTurnState : string := "turn_state".
(* src/internal/payload/constants.go#const CategoryCampaignEntity *)
Definition CategoryCampaignEntity : string := "campaign_entity".
(* src/internal/payload/playeraction.go#const TurnIDPrefix *)
Definition TurnIDPrefix : string := "turn-".
(* src/internal/payload/triples.go#const RefScheme *)
Definition RefScheme : string := "obj://".
(* src/internal/payload/triples.go#const RefSeparator *)
Definition RefSeparator : ascii := "/"%char.
(* src/internal/payload/playeraction.go#const MaxActionTextBytes *)
Definition MaxActionTextBytes : Z := 4 * 1024.

(* src/internal/payload/constants.go#requireNonEmpty *)
Definition requireNonEmpty (field value : string) : res unit :=
  if String.eqb value EmptyString then Err (Errorf "field is required" []) else Ok tt.

(* src/internal/payload/playeraction.go#TurnIDForAction *)
Definition TurnIDForAction (actionID : string) : string :=
  if String.eqb actionID EmptyString then EmptyString else TurnIDPrefix +:+ actionID.

(* src/internal/payload/triples.go#RequireStorageRef *)
Definition RequireStorageRef (field value : string) : res unit :=
  match CutPrefix value RefScheme with
  | None => Err (Errorf "not a storage reference: it does not begin with the scheme" [])
  | Some rest =>
      match Cut RefSeparator rest with
      | None => Err (Errorf "carries no key" [])
      | Some (instance, key) =>
          if String.eqb key EmptyString then Err (Errorf "carries no key" [])
          else if String.eqb instance EmptyString then Err (Errorf "names no storage instance" [])
          else Ok tt
      end
  end.

Section payload.
Context `{Substrate}.

(* src/internal/payload/triples.go#const MaxTripleObjectBytes *)
Definition MaxTripleObjectBytes : Z := MaxEntityIDBytes.

(* src/internal/payload/constants.go:170-174 (MaxActionIDBytes) *)
Definition MaxActionIDBytes : Z := MaxIDSegmentBytes - len TurnIDPrefix.

(* src/internal/payload/constants.go#requireIDSegment *)
Definition requireIDSegment (field value : string) : res unit :=
  wrapf field (ValidateIDSegment value).

(* src/internal/payload/constants.go#requireActionID *)
Definition requireActionID (field value : string) : res unit :=
  _ ← requireIDSegment field value;
  if MaxActionIDBytes <? len value then
    Err (Errorf "the derived turn id would exceed the entity-ID segment budget" [])
  else Ok tt.

(* src/internal/payload/constants.go#RequireActionID *)
Definition RequireActionID (actionID : string) : res unit := requireActionID "action_id" actionID.

(* src/internal/payload/constants.go#requireEntityID *)
Definition requireEntityID (field value : string) : res unit :=
  if String.eqb value EmptyString then Err (Errorf "field is required" [])
  else wrapf "not a canonical six-part entity ID" (ValidateEntityID value).

(* src/internal/payload/playeraction.go#ActionIDForTurn *)
Definition ActionIDForTurn (turnID : string) : res string :=
  _ ← requireIDSegment "turn_id" turnID;
  match CutPrefix turnID TurnIDPrefix with
  | None => Err (Errorf "turn id does not begin with the turn prefix" [])
  | Some actionID =>
      _ ← requireActionID "action_id" actionID;
      Ok actionID
  end.

(** The instance position of an entity ID. *)
Definition last_part (entityID : string) : string := List.last (Split dot entityID) EmptyString.

(* src/internal/payload/playeraction.go#RequireTurnEntityID *)
Definition RequireTurnEntityID (turnID turnEntityID : string) : res unit :=
  _ ← requireIDSegment "turn_id" turnID;
  _ ← requireEntityID "turn entity id" turnEntityID;
  let instance := last_part turnEntityID in
  if negb (String.eqb instance turnID) then
    Err (Errorf "turn entity id addresses another turn" [])
  else Ok tt.

(** ** The triple projection *)

(* src/internal/payload/triples.go#type tripleProjection *)
Record tripleProjection : Type := {
  p_payload : option (res unit);   (* [payload.Validate()]; [None] is a nil payload *)
  p_subject : string;
  p_turnID : string;
  p_playerSubject : string;
  p_source : string;
  p_at : time;
  p_registered : list string;
  p_objects : gmap string any;
  p_refPredicate : string;
  p_refName : string;
  p_ref : string;
  p_refless : bool;
  p_scalarless : bool
}.

(* src/internal/payload/triples.go#tripleProjection.triple *)
Definition projection_triple (p : tripleProjection) (predicate : string) (object : any) : Triple := {|
  Subject := p_subject p;
  Predicate := predicate;
  Object := object;
  Source := p_source p;
  Timestamp := p_at p;
  Confidence := float_one;
  Context_ := p_turnID p;
  Datatype := EmptyString;
  ExpiresAt := None
|}.

(* src/internal/payload/triples.go#checkTripleObject *)
Definition checkTripleObject (predicate : string) (object : any) : res unit :=
  match ParsePredicate predicate with
  | Err e => Err (Errorf "predicate would be rejected by the graph write gate" [e])
  | Ok _ =>
      match object with
      | AString value =>
          if String.eqb value EmptyString then Err (Errorf "predicate has an empty object" [])
          else if MaxTripleObjectBytes <? len value then
            Err (Errorf "object exceeds the triple-object budget" [])
          else if IsStorageRef predicate then RequireStorageRef "the object" value
          else Ok tt
      | ABool _ | AInt _ =>
          if IsStorageRef predicate then
            Err (Errorf "a storage reference is a pointer, and nothing else may be written there" [])
          else Ok tt
      | ANil => Err (Errorf "predicate has no object" [])
      | _ => Err (Errorf "only closed-vocabulary scalars may become triples" [])
      end
  end.

(* src/internal/payload/triples.go#tripleProjection.checkSubject *)
Definition checkSubject (p : tripleProjection) : res unit :=
  if String.eqb (p_playerSubject p) EmptyString then RequireTurnEntityID (p_turnID p) (p_subject p)
  else
    _ ← requireIDSegment "turn_id" (p_turnID p);
    _ ← requireEntityID "player entity id" (p_subject p);
    if negb (String.eqb (p_subject p) (p_playerSubject p)) then
      Err (Errorf "triples land on an entity other than the player the payload is about" [])
    else Ok tt.

(** The registration loop: no predicate twice, and a field for each one. *)
(* src/internal/payload/triples.go:300-311 (tripleProjection.checkPredicateSet) *)
Fixpoint checkRegistered (objects : gmap string any) (registered seen : list string) : res unit :=
  match registered with
  | [] => Ok tt
  | predicate :: rest =>
      if mem predicate seen then Err (Errorf "predicate is registered twice" [])
      else match objects !! predicate with
           | None => Err (Errorf "no field supplies registered predicate" [])
           | Some _ => checkRegistered objects rest (predicate :: seen)
           end
  end.

(* src/internal/payload/triples.go#tripleProjection.checkPredicateSet *)
Definition checkPredicateSet (p : tripleProjection) : res unit :=
  _ ← require (negb (p_scalarless p && p_refless p))
        (Errorf "projection is both scalar-less and reference-less" []);
  _ ← (if p_scalarless p then
         require (bool_decide (p_registered p = []))
           (Errorf "projection declares itself scalar-less and still registers predicates" [])
       else require (negb (bool_decide (p_registered p = [])))
              (Errorf "projection registers no predicates" []));
  _ ← checkRegistered (p_objects p) (p_registered p) [];
  _ ← (if p_refless p then
         require (String.eqb (p_refPredicate p) EmptyString && String.eqb (p_ref p) EmptyString &&
                  String.eqb (p_refName p) EmptyString)
           (Errorf "projection declares itself reference-less and still carries a reference" [])
       else
         _ ← require (negb (String.eqb (p_refPredicate p) EmptyString))
               (Errorf "projection has no reference predicate" []);
         _ ← require (negb (String.eqb (p_refName p) EmptyString))
               (Errorf "reference predicate has no field name" []);
         require (negb (mem (p_refPredicate p) (p_registered p)))
           (Errorf "reference predicate is also a scalar predicate" []));
  require (bool_decide (size (p_objects p) = List.length (p_registered p)))
    (Errorf "projection supplies a field no registered predicate list includes" []).

(** The output loop over the registered predicates. *)
(* src/internal/payload/triples.go:242-248 (tripleProjection.build) *)
Fixpoint build_scalars (p : tripleProjection) (registered : list string) : res (list Triple) :=
  match registered with
  | [] => Ok []
  | predicate :: rest =>
      let object := default ANil (p_objects p !! predicate) in
      _ ← checkTripleObject predicate object;
      triples ← build_scalars p rest;
      Ok (projection_triple p predicate object :: triples)
  end.

(* src/internal/payload/triples.go#tripleProjection.build *)
Definition build (p : tripleProjection) : res (list Triple) :=
  match p_payload p with
  | None => Err (Errorf "triple projection has no payload to validate" [])
  | Some validated =>
      _ ← validated;
      _ ← checkSubject p;
      _ ← requireNonEmpty "triple source" (p_source p);
      _ ← require (negb (time_IsZero (p_at p))) (Errorf "triple projection requires a timestamp" []);
      _ ← checkPredicateSet p;
      _ ← (if p_refless p then Ok tt else requireNonEmpty (p_refName p) (p_ref p));
      triples ← build_scalars p (p_registered p);
      if p_refless p then Ok triples
      else
        _ ← checkTripleObject (p_refPredicate p) (AString (p_ref p));
        Ok (triples ++ [projection_triple p (p_refPredicate p) (AString (p_ref p))])
  end.

(** ** turn_state *)

(* src/internal/payload/turnstate.go#type TurnState *)
Record TurnState : Type := {
  ts_TurnID : string;
  ts_Phase : string;
  ts_PlayerID : string;
  ts_SceneID : string;
  ts_ActionRef : string;
  ts_Reason : string;
  ts_DetailRef : string
}.

(* src/internal/payload/turnstate.go#TurnState.Validate *)
Definition TurnState_Validate (s : TurnState) : res unit :=
  _ ← requireIDSegment "turn_id" (ts_TurnID s);
  _ ← ParseTurnPhase (ts_Phase s);
  _ ← (if String.eqb (ts_Phase s) PhaseAccepted then
         _ ← requireEntityID "player_id" (ts_PlayerID s);
         _ ← requireEntityID "scene_id" (ts_SceneID s);
         wrapf "a turn born without a pointer to the player's words"
           (requireNonEmpty "action_ref" (ts_ActionRef s))
       else
         _ ← require (String.eqb (ts_PlayerID s) EmptyString && String.eqb (ts_SceneID s) EmptyString)
               (Errorf "phase carries a player or scene reference" []);
         require (String.eqb (ts_ActionRef s) EmptyString)
           (Errorf "phase carries an action reference" []));
  if String.eqb (ts_Phase s) PhaseFailed then
    _ ← ParseFailureReason (ts_Reason s);
    Ok tt
  else
    _ ← require (String.eqb (ts_Reason s) EmptyString) (Errorf "only a failed turn has a reason" []);
    require (String.eqb (ts_DetailRef s) EmptyString)
      (Errorf "phase carries a failure detail reference" []).

(* src/internal/payload/turnstate.go#TurnState.Triples *)
Definition TurnState_projection (s : TurnState) (turnEntityID source : string) (at_ : time)
    : tripleProjection :=
  let mk registered objects refPredicate refName ref refless := {|
    p_payload := Some (TurnState_Validate s); p_subject := turnEntityID; p_turnID := ts_TurnID s;
    p_playerSubject := EmptyString; p_source := source; p_at := at_; p_registered := registered;
    p_objects := objects; p_refPredicate := refPredicate; p_refName := refName; p_ref := ref;
    p_refless := refless; p_scalarless := false |} in
  if String.eqb (ts_Phase s) PhaseAccepted then
    mk turnAcceptedPredicates
      (list_to_map [(TurnPhaseCurrent, AString (ts_Phase s)); (TurnActionPlayer, AString (ts_PlayerID s));
                    (TurnActionScene, AString (ts_SceneID s))])
      TurnActionRef "action ref"%string (ts_ActionRef s) false
  else if String.eqb (ts_Phase s) PhaseFailed then
    let objects := list_to_map [(TurnPhaseCurrent, AString (ts_Phase s));
                                (TurnFailureReason, AString (ts_Reason s))] in
    if String.eqb (ts_DetailRef s) EmptyString then
      mk turnFailurePredicates objects EmptyString EmptyString EmptyString true
    else mk turnFailurePredicates objects TurnFailureRef "failure detail ref"%string (ts_DetailRef s) false
  else
    mk turnPhasePredicates (list_to_map [(TurnPhaseCurrent, AString (ts_Phase s))])
      EmptyString EmptyString EmptyString true.

Definition TurnState_Triples (s : TurnState) (turnEntityID source : string) (at_ : time)
    : res (list Triple) := build (TurnState_projection s turnEntityID source at_).

(** ** player_turn and player_resolved_turn *)

(* src/internal/payload/playerturn.go#type PlayerTurn *)
Record PlayerTurn : Type := { pt_PlayerID : string; pt_TurnID : string; pt_TurnEntityID : string }.

(* src/internal/payload/playerturn.go#PlayerTurn.Validate *)
Definition PlayerTurn_Validate (p : PlayerTurn) : res unit :=
  _ ← requireEntityID "player_id" (pt_PlayerID p);
  RequireTurnEntityID (pt_TurnID p) (pt_TurnEntityID p).

(* src/internal/payload/playerturn.go#PlayerTurn.Triples *)
Definition PlayerTurn_Triples (p : PlayerTurn) (playerEntityID source : string) (at_ : time)
    : res (list Triple) :=
  build {|
    p_payload := Some (PlayerTurn_Validate p); p_subject := playerEntityID;
    p_turnID := pt_TurnID p; p_playerSubject := pt_PlayerID p; p_source := source; p_at := at_;
    p_registered := playerTurnPredicates;
    p_objects := list_to_map [(PlayerTurnCurrent, AString (pt_TurnEntityID p))];
    p_refPredicate := EmptyString; p_refName := EmptyString; p_ref := EmptyString;
    p_refless := true; p_scalarless := false |}.

(* src/internal/payload/playerresolvedturn.go#type PlayerResolvedTurn *)
Record PlayerResolvedTurn : Type := {
  prt_PlayerID : string; prt_TurnID : string; prt_TurnEntityID : string }.

(* src/internal/payload/playerresolvedturn.go#PlayerResolvedTurn.Validate *)
Definition PlayerResolvedTurn_Validate (p : PlayerResolvedTurn) : res unit :=
  _ ← requireEntityID "player_id" (prt_PlayerID p);
  RequireTurnEntityID (prt_TurnID p) (prt_TurnEntityID p).

(* src/internal/payload/playerresolvedturn.go#PlayerResolvedTurn.Triples *)
Definition PlayerResolvedTurn_Triples (p : PlayerResolvedTurn) (playerEntityID source : string)
    (at_ : time) : res (list Triple) :=
  build {|
    p_payload := Some (PlayerResolvedTurn_Validate p); p_subject := playerEntityID;
    p_turnID := prt_TurnID p; p_playerSubject := prt_PlayerID p; p_source := source; p_at := at_;
    p_registered := playerResolvedTurnPredicates;
    p_objects := list_to_map [(PlayerTurnResolved, AString (prt_TurnEntityID p))];
    p_refPredicate := EmptyString; p_refName := EmptyString; p_ref := EmptyString;
    p_refless := true; p_scalarless := false |}.

(** ** turn_resume *)

(* src/internal/payload/turnresume.go#wholeInt *)
Definition wholeInt (object : any) : option Z :=
  match object with
  | AInt value => Some value
  | AInt64 value => Some value (* converted := int(value); int64(converted) == value at 64 bits *)
  | AFloat64 value => float_to_int value
  | ANumber value => ParseInt value
  | _ => None
  end.

(* src/internal/payload/turnresume.go#ResumeAttemptsFromTriples *)
Definition ResumeAttemptsFromTriples (triples : list Triple) : res Z :=
  match map Object (triplesFor TurnResumeAttempts triples) with
  | [] => Ok 0
  | [object] =>
      match wholeInt object with
      | None => Err (Errorf "records a resume count that is not a whole number" [])
      | Some attempts =>
          if attempts <? 1 then Err (Errorf "records a resume count that is not positive" [])
          else Ok attempts
      end
  | _ => Err (Errorf "holds several values for the single-valued resume count" [])
  end.

(* src/internal/payload/turnresume.go#type TurnResume *)
Record TurnResume : Type := { tr_TurnID : string; tr_Attempts : Z }.

(* src/internal/payload/turnresume.go#TurnResume.Validate *)
Definition TurnResume_Validate (r : TurnResume) : res unit :=
  _ ← requireIDSegment "turn_id" (tr_TurnID r);
  if tr_Attempts r <? 1 then Err (Errorf "records a non-positive number of resume attempts" [])
  else Ok tt.

(* src/internal/payload/turnresume.go#TurnResume.Triples *)
Definition TurnResume_Triples (r : TurnResume) (turnEntityID source : string) (at_ : time)
    : res (list Triple) :=
  build {|
    p_payload := Some (TurnResume_Validate r); p_subject := turnEntityID;
    p_turnID := tr_TurnID r; p_playerSubject := EmptyString; p_source := source; p_at := at_;
    p_registered := turnResumePredicates;
    p_objects := list_to_map [(TurnResumeAttempts, AInt (tr_Attempts r))];
    p_refPredicate := EmptyString; p_refName := EmptyString; p_ref := EmptyString;
    p_refless := true; p_scalarless := false |}.

(** ** player_action *)

(* src/internal/payload/playeraction.go#type ChannelBinding *)
Record ChannelBinding : Type := { Adapter : string; ReplyTo : string }.

(* src/internal/payload/playeraction.go#ChannelBinding.Validate *)
Definition ChannelBinding_Validate (c : ChannelBinding) : res unit :=
  _ ← ParseChannelAdapter (Adapter c);
  requireNonEmpty "channel.reply_to" (ReplyTo c).

(* src/internal/payload/playeraction.go#type PlayerAction *)
Record PlayerAction : Type := {
  pa_ActionID : string;
  pa_PlayerID : string;
  pa_CampaignID : string;
  pa_SceneID : string;
  pa_Text : string;
  pa_ArrivedAt : time;
  pa_Channel : ChannelBinding
}.

(* src/internal/payload/playeraction.go#PlayerAction.Validate *)
Definition PlayerAction_Validate (a : PlayerAction) : res unit :=
  _ ← requireActionID "action_id" (pa_ActionID a);
  _ ← requireEntityID "player_id" (pa_PlayerID a);
  _ ← requireEntityID "campaign_id" (pa_CampaignID a);
  _ ← requireEntityID "scene_id" (pa_SceneID a);
  _ ← requireNonEmpty "text" (pa_Text a);
  _ ← require (negb (MaxActionTextBytes <? len (pa_Text a)))
        (Errorf "text exceeds the action-text budget" []);
  _ ← require (negb (time_IsZero (pa_ArrivedAt a))) (Errorf "arrived_at is required" []);
  ChannelBinding_Validate (pa_Channel a).

(** ** Lemmas *)

Lemma requireIDSegment_ok f v : requireIDSegment f v = Ok tt <-> ValidateIDSegment v = Ok tt.
Proof. unfold requireIDSegment. apply wrapf_ok. Qed.

Lemma requireEntityID_ok f v :
  requireEntityID f v = Ok tt <-> v <> EmptyString /\ ValidateEntityID v = Ok tt.
Proof.
  unfold requireEntityID. destruct (String.eqb_spec v EmptyString); [naive_solver|].
  rewrite wrapf_ok. naive_solver.
Qed.

Lemma requireNonEmpty_ok f v : requireNonEmpty f v = Ok tt <-> v <> EmptyString.
Proof. unfold requireNonEmpty. destruct (String.eqb_spec v EmptyString); naive_solver. Qed.

Lemma RequireTurnEntityID_ok turnID id :
  RequireTurnEntityID turnID id = Ok tt <->
  ValidateIDSegment turnID = Ok tt /\ id <> EmptyString /\ ValidateEntityID id = Ok tt /\
  last_part id = turnID.
Proof.
  unfold RequireTurnEntityID. rewrite result_bind_ok. setoid_rewrite result_bind_ok. split.
  - intros ([] & H1%requireIDSegment_ok & [] & [H2 H3]%requireEntityID_ok & H4).
    destruct (String.eqb_spec (last_part id) turnID); [done|by cbn in H4].
  - intros (H1 & H2 & H3 & <-). exists tt. rewrite requireIDSegment_ok. split; [done|].
    exists tt. rewrite requireEntityID_ok. split; [done|]. by rewrite String.eqb_refl.
Qed.

Lemma checkRegistered_ok objects registered seen :
  checkRegistered objects registered seen = Ok tt <->
  NoDup registered /\ (forall p, p ∈ registered -> p ∉ seen) /\
  (forall p, p ∈ registered -> is_Some (objects !! p)).
Proof.
  revert seen. induction registered as [|q l IH]; intros seen; cbn.
  { split; [|done]. intros _. split_and!; [constructor|set_solver..]. }
  destruct (mem q seen) eqn:Es.
  { apply mem_true in Es. split; [done|]. intros (_ & Hs & _). destruct (Hs q); set_solver. }
  apply mem_false in Es. destruct (objects !! q) as [o|] eqn:Eq.
  - rewrite IH, NoDup_cons. split.
    + intros (? & Hs & Ho). split_and!; [|done|set_solver|].
      * intros Hq. destruct (Hs q Hq). left.
      * intros p [->|?]%elem_of_cons; [by eexists|auto].
    + intros ([Hq ?] & Hs & Ho). split_and!; [done|set_solver|]. intros p Hp. apply Ho. by right.
  - split; [done|]. intros (_ & _ & Ho). destruct (Ho q) as [? Hx]; [left|congruence].
Qed.

(** What a projection writes when it is accepted. *)
Definition projected (p : tripleProjection) : list Triple :=
  map (fun q => projection_triple p q (default ANil (p_objects p !! q))) (p_registered p) ++
  (if p_refless p then []
   else [projection_triple p (p_refPredicate p) (AString (p_ref p))]).

Lemma build_scalars_ok p l ts :
  build_scalars p l = Ok ts <->
  ts = map (fun q => projection_triple p q (default ANil (p_objects p !! q))) l /\
  Forall (fun q => checkTripleObject q (default ANil (p_objects p !! q)) = Ok tt) l.
Proof.
  revert ts. induction l as [|q l IH]; intros ts; cbn [build_scalars map].
  { rewrite Forall_nil. naive_solver. }
  rewrite Forall_cons, result_bind_ok. setoid_rewrite result_bind_ok. split.
  - intros ([] & Hq & ts' & [-> Hl]%IH & [= <-]). done.
  - intros (-> & Hq & Hl). exists tt. split; [done|]. eexists. split; [by apply IH|done].
Qed.

Lemma build_ok p ts :
  build p = Ok ts ->
  ts = projected p /\ p_payload p = Some (Ok tt) /\ checkSubject p = Ok tt /\
  NoDup (map Predicate ts) /\
  Forall (fun t => checkTripleObject (Predicate t) (Object t) = Ok tt) ts.
Proof.
  unfold build. destruct (p_payload p) as [v|]; [|done]. intros Hb.
  apply result_bind_ok in Hb as ([] & -> & Hb). apply result_bind_ok in Hb as ([] & Hsub & Hb).
  apply result_bind_ok in Hb as (? & ? & Hb). apply result_bind_ok in Hb as (? & ? & Hb).
  apply result_bind_ok in Hb as (? & Hset & Hb). apply result_bind_ok in Hb as (? & ? & Hb).
  apply result_bind_ok in Hb as (ss & [-> Hobj]%build_scalars_ok & Hb).
  unfold checkPredicateSet in Hset. apply result_bind_ok in Hset as (? & ? & Hset).
  apply result_bind_ok in Hset as (? & ? & Hset).
  apply result_bind_ok in Hset as ([] & (Hnd & _ & _)%checkRegistered_ok & Hset).
  apply result_bind_ok in Hset as (? & Href & ?).
  assert (Hpreds : forall l, map Predicate (map (fun q => projection_triple p q (default ANil (p_objects p !! q))) l) = l).
  { induction l as [|q l IH]; [done|]. cbn. by rewrite IH. }
  assert (Hf : Forall (fun t => checkTripleObject (Predicate t) (Object t) = Ok tt)
    (map (fun q => projection_triple p q (default ANil (p_objects p !! q))) (p_registered p))).
  { rewrite List.Forall_map. exact Hobj. }
  unfold projected. destruct (p_refless p).
  - injection Hb as <-. rewrite app_nil_r, Hpreds. done.
  - apply result_bind_ok in Href as (? & ? & Href). apply result_bind_ok in Href as (? & ? & Href).
    apply require_ok in Href. apply negb_true_iff, mem_false in Href.
    apply result_bind_ok in Hb as ([] & Hr & [= <-]). split_and!; [done..| |].
    + rewrite map_app, Hpreds. cbn. apply NoDup_app. split_and!; [done| |by apply NoDup_singleton].
      intros q Hq ->%list_elem_of_singleton. done.
    + apply Forall_app. split; [done|]. by apply Forall_singleton.
Qed.
End payload.

(** ** What each turn payload projects *)

Section projections.
Context `{Substrate}.

Lemma TurnState_Triples_accepted s id source at_ ts :
  ts_Phase s = PhaseAccepted -> TurnState_Triples s id source at_ = Ok ts ->
  map (fun t => (Predicate t, Object t)) ts =
    [(TurnPhaseCurrent, AString PhaseAccepted); (TurnActionPlayer, AString (ts_PlayerID s));
     (TurnActionScene, AString (ts_SceneID s)); (TurnActionRef, AString (ts_ActionRef s))].
Proof.
  intros Hp (-> & _)%build_ok. unfold TurnState_projection. rewrite Hp. reflexivity.
Qed.

Lemma TurnState_Triples_failed s id source at_ ts :
  ts_Phase s = PhaseFailed -> TurnState_Triples s id source at_ = Ok ts ->
  ts_Reason s ∈ enum_values failureReasonEnum /\
  map (fun t => (Predicate t, Object t)) ts =
    [(TurnPhaseCurrent, AString PhaseFailed); (TurnFailureReason, AString (ts_Reason s))] ++
    (if String.eqb (ts_DetailRef s) EmptyString then []
     else [(TurnFailureRef, AString (ts_DetailRef s))]).
Proof.
  intros Hp (-> & Hv & _)%build_ok. unfold TurnState_projection in *. rewrite Hp in *.
  change (String.eqb PhaseFailed PhaseAccepted) with false in *.
  change (String.eqb PhaseFailed PhaseFailed) with true in *. cbv iota in *. split.
  - assert (Hval : TurnState_Validate s = Ok tt) by (destruct (String.eqb _ _); by injection Hv).
    unfold TurnState_Validate in Hval. rewrite Hp in Hval.
    apply result_bind_ok in Hval as (? & _ & Hval). apply result_bind_ok in Hval as (? & _ & Hval).
    apply result_bind_ok in Hval as (? & _ & Hval).
    change (String.eqb PhaseFailed PhaseFailed) with true in Hval. cbv iota in Hval.
    apply result_bind_ok in Hval as (? & [-> Hr]%enum_parse_ok & _). done.
  - destruct (String.eqb _ _); reflexivity.
Qed.

Lemma TurnState_Triples_other s id source at_ ts :
  ts_Phase s <> PhaseAccepted -> ts_Phase s <> PhaseFailed ->
  TurnState_Triples s id source at_ = Ok ts ->
  map (fun t => (Predicate t, Object t)) ts = [(TurnPhaseCurrent, AString (ts_Phase s))].
Proof.
  intros Ha%String.eqb_neq Hf%String.eqb_neq (-> & _)%build_ok.
  unfold TurnState_projection. rewrite Ha, Hf. reflexivity.
Qed.

Lemma PlayerTurn_Triples_ok p id source at_ ts :
  PlayerTurn_Triples p id source at_ = Ok ts ->
  map (fun t => (Predicate t, Object t)) ts = [(PlayerTurnCurrent, AString (pt_TurnEntityID p))].
Proof. intros (-> & _)%build_ok. reflexivity. Qed.

Lemma PlayerResolvedTurn_Triples_ok p id source at_ ts :
  PlayerResolvedTurn_Triples p id source at_ = Ok ts ->
  map (fun t => (Predicate t, Object t)) ts = [(PlayerTurnResolved, AString (prt_TurnEntityID p))].
Proof. intros (-> & _)%build_ok. reflexivity. Qed.

Lemma TurnResume_Triples_ok r id source at_ ts :
  TurnResume_Triples r id source at_ = Ok ts ->
  map (fun t => (Predicate t, Object t)) ts = [(TurnResumeAttempts, AInt (tr_Attempts r))] /\
  1 <= tr_Attempts r.
Proof.
  intros (-> & Hv & _)%build_ok. split; [reflexivity|]. cbn in Hv. injection Hv as Hv.
  unfold TurnResume_Validate in Hv. apply result_bind_ok in Hv as (_ & _ & Hv).
  destruct (Z.ltb_spec (tr_Attempts r) 1); [done|lia].
Qed.
End projections.

(** The objects of one predicate, from the (predicate, object) view of a list. *)
Definition objects_of (p : string) (l : list (string * any)) : list any :=
  map snd (List.filter (fun po => String.eqb (fst po) p) l).

Lemma objects_of_triples p ts :
  map Object (triplesFor p ts) = objects_of p (map (fun t => (Predicate t, Object t)) ts).
Proof.
  unfold objects_of, triplesFor. induction ts as [|t ts IH]; [done|].
  cbn -[String.eqb]. destruct (String.eqb _ _); cbn -[String.eqb]; by rewrite IH.
Qed.
