(* ===== verification/Mechanics.v ===== *)
(** [internal/payload], part two: effect intents and batches, roll modifiers,
    roll results and the adjudicator's verdict. *)

From S2P Require Import Prelude GoStd GoErrors Graph Vocab Vocabulary Payload.

Open Scope Z_scope.

(* src/internal/payload/modifier.go:34-34 (MinModifierValue) *)
Definition MinModifierValue : Z := -3.
(* src/internal/payload/modifier.go:36-36 (MaxModifierValue) *)
Definition MaxModifierValue : Z := 3.
(* src/internal/payload/modifier.go:38-38 (MaxModifiers) *)
Definition MaxModifiers : Z := 4.
(* src/internal/payload/modifier.go:42-42 (MinModifierTotal) *)
Definition MinModifierTotal : Z := -2.
(* src/internal/payload/modifier.go:45-45 (MaxModifierTotal) *)
Definition MaxModifierTotal : Z := 4.
(* src/internal/payload/modifier.go#const MaxModifierNoteBytes *)
Definition MaxModifierNoteBytes : Z := 256.
(* src/internal/payload/verdict.go#const MaxRationaleBytes *)
Definition MaxRationaleBytes : Z := 2 * 1024.

(** ** Modifiers *)

(* src/internal/payload/modifier.go#type Modifier *)
Record Modifier : Type := { m_Source : string; m_Value : Z; m_Note : string }.

(* src/internal/payload/modifier.go#Modifier.Validate *)
Definition Modifier_Validate (m : Modifier) : res unit :=
  _ ← ParseModifierSource (m_Source m);
  if (m_Value m <? MinModifierValue) || (MaxModifierValue <? m_Value m) then
    Err (Errorf "modifier value is outside its bounds" [])
  else if MaxModifierNoteBytes <? len (m_Note m) then
    Err (Errorf "modifier note exceeds the note budget" [])
  else Ok tt.

(* src/internal/payload/modifier.go#SumModifiers *)
Definition SumModifiers (modifiers : list Modifier) : Z :=
  fold_left (fun total m => int_add total (m_Value m)) modifiers 0.

(* src/internal/payload/modifier.go#checkModifierTotal *)
Definition checkModifierTotal (total : Z) : res unit :=
  if (total <? MinModifierTotal) || (MaxModifierTotal <? total) then
    Err (Errorf "summed modifiers are outside their bounds" [])
  else Ok tt.

(* src/internal/payload/modifier.go#validateModifiers *)
Definition validateModifiers (modifiers : list Modifier) : res unit :=
  if MaxModifiers <? Z.of_nat (List.length modifiers) then
    Err (Errorf "modifiers exceed the cap" [])
  else
    _ ← all_ok (fun m => wrapf "modifier" (Modifier_Validate m)) modifiers;
    checkModifierTotal (SumModifiers modifiers).

(** ** Effect intents *)

(* src/internal/payload/effect.go#type EffectIntent *)
Record EffectIntent : Type := {
  i_Type : string;
  i_Target : string;
  i_Attribute : string;
  i_Value : option Z;
  i_Status : string;
  i_Location : string;
  i_Relation : string;
  i_Object : string
}.

(** The six optional fields in the fixed order [requireOnly] visits them, each
    with whether the intent populates it. *)
Definition populated (i : EffectIntent) : list (string * bool) :=
  [("attribute"%string, negb (String.eqb (i_Attribute i) EmptyString));
   ("value"%string, match i_Value i with Some _ => true | None => false end);
   ("status"%string, negb (String.eqb (i_Status i) EmptyString));
   ("location"%string, negb (String.eqb (i_Location i) EmptyString));
   ("relation"%string, negb (String.eqb (i_Relation i) EmptyString));
   ("object"%string, negb (String.eqb (i_Object i) EmptyString))].

(* src/internal/payload/effect.go#EffectIntent.requireOnly *)
Definition requireOnly (i : EffectIntent) (allowed : list string) : res unit :=
  all_ok (fun fp : string * bool =>
    let '(field, present) := fp in
    if present && negb (mem field allowed) then Err (Errorf "must not carry field" [])
    else if negb present && mem field allowed then Err (Errorf "requires field" [])
    else Ok tt) (populated i).

Section mechanics.
Context `{Substrate}.

(* src/internal/payload/effect.go#EffectIntent.Validate *)
Definition EffectIntent_Validate (i : EffectIntent) : res unit :=
  _ ← ParseEffectType (i_Type i);
  _ ← requireEntityID "target" (i_Target i);
  if String.eqb (i_Type i) EffectSetAttribute then
    _ ← requireOnly i ["attribute"; "value"]%string;
    match i_Value i with
    | None => Err (Errorf "requires value" [])
    | Some value => CheckAttributeValue (i_Attribute i) value
    end
  else if String.eqb (i_Type i) EffectSetStatus then
    _ ← requireOnly i ["status"]%string;
    _ ← ParseStatus (i_Status i);
    Ok tt
  else if String.eqb (i_Type i) EffectMoveEntity then
    _ ← requireOnly i ["location"]%string;
    requireEntityID "location" (i_Location i)
  else if String.eqb (i_Type i) EffectAddRelationship || String.eqb (i_Type i) EffectRemoveRelationship then
    _ ← requireOnly i ["relation"; "object"]%string;
    _ ← ParseRelation (i_Relation i);
    requireEntityID "object" (i_Object i)
  else Err (Errorf "effect type has no validation rule" []).

(* src/internal/payload/effect.go#EffectIntent.Mutation *)
Definition Mutation (i : EffectIntent) : res (string * any) :=
  _ ← EffectIntent_Validate i;
  if String.eqb (i_Type i) EffectSetAttribute then
    match AttributeSpecFor (i_Attribute i) with
    | None => Err (UnknownValueError KindAttribute (i_Attribute i) (enum_all attributeEnum))
    | Some spec =>
        match i_Value i with
        | Some value => Ok (as_Predicate spec, AInt value)
        | None => Err (Errorf "nil pointer dereference" []) (* excluded by Validate *)
        end
    end
  else if String.eqb (i_Type i) EffectSetStatus then Ok (CharacterStatusCurrent, AString (i_Status i))
  else if String.eqb (i_Type i) EffectMoveEntity then Ok (WorldLocationCurrent, AString (i_Location i))
  else if String.eqb (i_Type i) EffectAddRelationship || String.eqb (i_Type i) EffectRemoveRelationship then
    match RelationPredicate (i_Relation i) with
    | None => Err (UnknownValueError KindRelation (i_Relation i) (enum_all relationEnum))
    | Some predicate => Ok (predicate, AString (i_Object i))
    end
  else Err (UnknownValueError KindEffectType (i_Type i) (enum_all effectTypeEnum)).

(** ** Effect batches *)

(* src/internal/payload/effectbatch.go#BatchIDForTurn *)
Definition BatchIDForTurn (turnID : string) : string :=
  if String.eqb turnID EmptyString then EmptyString else "batch-" +:+ turnID.

(* src/internal/payload/effectbatch.go#type EffectBatch *)
Record EffectBatch : Type := {
  b_BatchID : string; b_TurnID : string; b_Band : string; b_Intents : list EffectIntent }.

(* src/internal/payload/effectbatch.go#NewEffectBatch *)
Definition NewEffectBatch (turnID band : string) (intents : list EffectIntent) : EffectBatch :=
  {| b_BatchID := BatchIDForTurn turnID; b_TurnID := turnID; b_Band := band; b_Intents := intents |}.

(* src/internal/payload/effectbatch.go#EffectBatch.Validate *)
Definition EffectBatch_Validate (b : EffectBatch) : res unit :=
  _ ← requireIDSegment "turn_id" (b_TurnID b);
  _ ← require (String.eqb (b_BatchID b) (BatchIDForTurn (b_TurnID b)))
        (Errorf "batch_id is not derived from turn_id" []);
  _ ← ParseOutcomeBand (b_Band b);
  all_ok (fun i => wrapf "intent" (EffectIntent_Validate i)) (b_Intents b).

(* src/internal/payload/effectbatch.go#EffectBatch.Triples *)
Definition EffectBatch_Triples (b : EffectBatch) (turnEntityID batchRef source : string) (at_ : time)
    : res (list Triple) :=
  build {|
    p_payload := Some (EffectBatch_Validate b); p_subject := turnEntityID; p_turnID := b_TurnID b;
    p_playerSubject := EmptyString; p_source := source; p_at := at_;
    p_registered := effectScalarPredicates;
    p_objects := list_to_map [(TurnEffectsBatch, AString (b_BatchID b))];
    p_refPredicate := TurnEffectsRef; p_refName := "effect batch ref"; p_ref := batchRef;
    p_refless := false; p_scalarless := false |}.

(** ** Roll results *)

(* src/internal/payload/rollresult.go#type SeedSource *)
Record SeedSource : Type := { ss_CampaignID : string; ss_TurnID : string }.

(* src/internal/payload/rollresult.go#type RollResult *)
Record RollResult : Type := {
  r_TurnID : string;
  r_Mechanic : string;
  r_RNGVersion : string;
  r_Seed : SeedSource;
  r_Dice : list Z;
  r_Modifiers : list Modifier;
  r_ModifierTotal : Z;
  r_Total : Z;
  r_Band : string
}.

(** [diceTotal += die] over the dice, at the width of an [int]. *)
Definition sum_int (l : list Z) : Z := fold_left int_add l 0.

(* src/internal/payload/rollresult.go#validateRollArithmetic *)
Definition validateRollArithmetic (spec : MechanicSpec) (dice : list Z) (modifiers : list Modifier)
    (modifierTotal total : Z) : res unit :=
  _ ← require (Z.of_nat (List.length dice) =? Vocabulary.Dice spec) (Errorf "mechanic rolls another number of dice" []);
  _ ← all_ok (fun die => require (ValidDie spec die) (Errorf "die value is outside its faces" [])) dice;
  _ ← validateModifiers modifiers;
  _ ← require (SumModifiers modifiers =? modifierTotal)
        (Errorf "modifier_total does not match the summed modifiers" []);
  require (int_add (sum_int dice) modifierTotal =? total)
    (Errorf "total does not match dice plus modifiers" []).

(* src/internal/payload/rollresult.go#requireBandForTotal *)
Definition requireBandForTotal (spec : MechanicSpec) (total : Z) (band : string) : res unit :=
  require (String.eqb (BandForTotal spec total) band) (Errorf "band does not match total" []).

(* src/internal/payload/rollresult.go#RollResult.Validate *)
Definition RollResult_Validate (r : RollResult) : res unit :=
  _ ← requireIDSegment "turn_id" (r_TurnID r);
  spec ← MechanicSpecFor (r_Mechanic r);
  _ ← ParseRNG (r_RNGVersion r);
  _ ← requireEntityID "seed.campaign_id" (ss_CampaignID (r_Seed r));
  _ ← require (String.eqb (ss_TurnID (r_Seed r)) (r_TurnID r))
        (Errorf "seed.turn_id does not match turn_id" []);
  _ ← validateRollArithmetic spec (r_Dice r) (r_Modifiers r) (r_ModifierTotal r) (r_Total r);
  _ ← ParseOutcomeBand (r_Band r);
  _ ← require (IsRollBand (r_Band r)) (Errorf "band is not selectable by a roll" []);
  requireBandForTotal spec (r_Total r) (r_Band r).

(* src/internal/payload/rollresult.go#RollResult.Triples *)
Definition RollResult_Triples (r : RollResult) (turnEntityID rollRef source : string) (at_ : time)
    : res (list Triple) :=
  build {|
    p_payload := Some (RollResult_Validate r); p_subject := turnEntityID; p_turnID := r_TurnID r;
    p_playerSubject := EmptyString; p_source := source; p_at := at_;
    p_registered := rollScalarPredicates;
    p_objects := list_to_map [(TurnRollBand, AString (r_Band r)); (TurnRollTotal, AInt (r_Total r))];
    p_refPredicate := TurnRollRef; p_refName := "roll ref"; p_ref := rollRef;
    p_refless := false; p_scalarless := false |}.

(** ** Verdicts *)

(* src/internal/payload/verdict.go#type VerdictScalars *)
Record VerdictScalars : Type := {
  v_Plausibility : string; v_Risk : string; v_Consequence : string; v_RequiresRoll : bool }.

(* src/internal/payload/verdict.go#VerdictScalars.Validate *)
Definition VerdictScalars_Validate (s : VerdictScalars) : res unit :=
  _ ← ParsePlausibility (v_Plausibility s);
  _ ← ParseRisk (v_Risk s);
  _ ← ParseConsequence (v_Consequence s);
  Ok tt.

(* src/internal/payload/verdict.go#type RollGateExpectation *)
Record RollGateExpectation : Type := {
  e_Plausibility : string; e_Risk : string; e_Reported : bool; e_Advised : bool; e_Mapping : string }.

(* src/internal/payload/verdict.go#RollGateExpectation.Agrees *)
Definition Agrees (e : RollGateExpectation) : bool := Bool.eqb (e_Reported e) (e_Advised e).

(* src/internal/payload/verdict.go#RollGateExpectation.Validate *)
Definition RollGateExpectation_Validate (e : RollGateExpectation) : res unit :=
  advised ← AdviseRollGate (e_Mapping e) (e_Plausibility e) (e_Risk e);
  require (Bool.eqb advised (e_Advised e)) (Errorf "roll gate records another advice" []).

(* src/internal/payload/verdict.go#VerdictScalars.RollGate *)
Definition RollGate (s : VerdictScalars) : res RollGateExpectation :=
  advised ← RequiresRoll (v_Plausibility s) (v_Risk s);
  Ok {| e_Plausibility := v_Plausibility s; e_Risk := v_Risk s; e_Reported := v_RequiresRoll s;
        e_Advised := advised; e_Mapping := RollGateMappingVersion |}.

(** [EffectBands]: one intent list per declared band. *)
Abbreviation EffectBands := (gmap string (list EffectIntent)).

(* src/internal/payload/verdict.go#EffectBands.Validate *)
Definition EffectBands_Validate (b : EffectBands) (requiresRoll : bool) : res unit :=
  let required := BandsForVerdict requiresRoll in
  _ ← require (bool_decide (size b = List.length required))
        (Errorf "verdict declares another number of bands" []);
  _ ← all_ok (fun band => require (match b !! band with Some _ => true | None => false end)
                            (Errorf "verdict is missing a band" [])) required;
  all_ok (fun band =>
    all_ok (fun i => wrapf "band intent" (EffectIntent_Validate i)) (default [] (b !! band))) required.

(* src/internal/payload/verdict.go#EffectBands.For *)
Definition EffectBands_For (b : EffectBands) (band : string) : res (list EffectIntent) :=
  match b !! band with
  | None => Err (Errorf "verdict declares no such band" [])
  | Some intents => Ok intents
  end.

(* src/internal/payload/verdict.go#type Verdict *)
Record Verdict : Type := {
  v_TurnID : string;
  v_ActionID : string;
  v_SceneID : string;
  v_Scalars : VerdictScalars;
  v_Modifiers : list Modifier;
  v_Bands : EffectBands;
  v_Rationale : string
}.

(* src/internal/payload/verdict.go#Verdict.Validate *)
Definition Verdict_Validate (v : Verdict) : res unit :=
  _ ← requireIDSegment "turn_id" (v_TurnID v);
  _ ← requireActionID "action_id" (v_ActionID v);
  _ ← requireEntityID "scene_id" (v_SceneID v);
  _ ← VerdictScalars_Validate (v_Scalars v);
  _ ← validateModifiers (v_Modifiers v);
  _ ← require (negb (MaxRationaleBytes <? len (v_Rationale v)))
        (Errorf "rationale exceeds the rationale budget" []);
  EffectBands_Validate (v_Bands v) (v_RequiresRoll (v_Scalars v)).

(* src/internal/payload/verdict.go#Verdict.Triples *)
Definition Verdict_Triples (v : Verdict) (turnEntityID verdictRef source : string) (at_ : time)
    : res (list Triple) :=
  build {|
    p_payload := Some (Verdict_Validate v); p_subject := turnEntityID; p_turnID := v_TurnID v;
    p_playerSubject := EmptyString; p_source := source; p_at := at_;
    p_registered := verdictScalarPredicates;
    p_objects := list_to_map
      [(TurnVerdictPlausibility, AString (v_Plausibility (v_Scalars v)));
       (TurnVerdictRisk, AString (v_Risk (v_Scalars v)));
       (TurnVerdictConsequence, AString (v_Consequence (v_Scalars v)));
       (TurnVerdictRequiresRoll, ABool (v_RequiresRoll (v_Scalars v)))];
    p_refPredicate := TurnVerdictRef; p_refName := "verdict ref"; p_ref := verdictRef;
    p_refless := false; p_scalarless := false |}.
End mechanics.
