(* ===== verification/Decisions.v ===== *)
(** [internal/payload], part three: the deterministic identities of derived
    records, and the decisions of the case keeper and of the companion with the
    records their stages leave behind. *)

From S2P Require Import Prelude GoStd GoHash GoErrors Graph Vocab Vocabulary Payload.

Open Scope Z_scope.

(** ** Deterministic identities *)

(** What one [Write] pair appends to the digest's input. *)
(* src/internal/payload/deterministic.go#writeDeterministicMember *)
Definition writeDeterministicMember (digest : list Z) (value : string) : list Z :=
  digest ++ be_split 4 (u32 (len value)) ++ bytes_of value.

(* src/internal/payload/deterministic.go#deterministicID *)
Definition deterministicID (domain : string) (values : list string) : string :=
  let digest := writeDeterministicMember [] domain in
  let digest := fold_left writeDeterministicMember values digest in
  EncodeToString (sha256 digest).

Lemma deterministicID_framed domain values :
  deterministicID domain values = framed_digest (domain :: values).
Proof.
  unfold deterministicID, framed_digest. do 2 f_equal.
  transitivity (writeDeterministicMember [] domain ++ frame values); [|done].
  generalize (writeDeterministicMember [] domain). induction values as [|v values IH]; intros acc.
  - symmetry. apply app_nil_r.
  - cbn [fold_left]. rewrite IH. unfold writeDeterministicMember. rewrite <- (assoc_L (++)). done.
Qed.

(* src/internal/payload/accusationresult.go#requireSHA256 *)
Definition requireSHA256 (field value : string) : res unit :=
  if negb (len value =? 64) then Err (Errorf "must be a 64-character lowercase SHA-256 value" [])
  else match DecodeString value with
       | None => Err (Errorf "must be a 64-character lowercase SHA-256 value" [])
       | Some decoded =>
           require (String.eqb (EncodeToString decoded) value)
             (Errorf "must be a 64-character lowercase SHA-256 value" [])
       end.

(** [seen[ref]] of the reference loops: each reference canonical, none twice. *)
Definition refs_loop `{Substrate} (field : string) : list string -> list string -> res unit :=
  fix go refs seen :=
    match refs with
    | [] => Ok tt
    | ref :: rest =>
        _ ← requireEntityID field ref;
        if mem ref seen then Err (Errorf "repeats reference" []) else go rest (ref :: seen)
    end.

(** ** Case decisions *)

(* src/internal/payload/casedecision.go:12-13 (MaxCaseDecisionTargets) *)
Definition MaxCaseDecisionTargets : Z := 8.
(* src/internal/payload/casedecision.go:14-15 (MaxCaseDecisionReveals) *)
Definition MaxCaseDecisionReveals : Z := 12.
(* src/internal/payload/casedecision.go:17-17 (caseDecisionIdentityDomain) *)
Definition caseDecisionIdentityDomain : string := "case-decision/v1".

(* src/internal/payload/casedecision.go:25-26 (CaseDecisionObserve) *)
Definition CaseDecisionObserve : string := "observe".
(* src/internal/payload/casedecision.go:27-28 (CaseDecisionInvestigate) *)
Definition CaseDecisionInvestigate : string := "investigate".
(* src/internal/payload/casedecision.go:29-30 (CaseDecisionQuestion) *)
Definition CaseDecisionQuestion : string := "question".
(* src/internal/payload/casedecision.go:31-32 (CaseDecisionShare) *)
Definition CaseDecisionShare : string := "share".
(* src/internal/payload/casedecision.go:33-34 (CaseDecisionRequestHint) *)
Definition CaseDecisionRequestHint : string := "request_hint".
(* src/internal/payload/casedecision.go:35-36 (CaseDecisionAccuse) *)
Definition CaseDecisionAccuse : string := "accuse".
(* src/internal/payload/casedecision.go:37-38 (CaseDecisionOther) *)
Definition CaseDecisionOther : string := "other".

(* src/internal/payload/casedecision.go:41-44 (orderedCaseDecisionKinds) *)
Definition orderedCaseDecisionKinds : list string :=
  [CaseDecisionObserve; CaseDecisionInvestigate; CaseDecisionQuestion; CaseDecisionShare;
   CaseDecisionRequestHint; CaseDecisionAccuse; CaseDecisionOther].

(* src/internal/payload/casedecision.go#CaseDecisionKinds *)
Definition CaseDecisionKinds : list string := orderedCaseDecisionKinds.

(* src/internal/payload/casedecision.go#type CaseDecision *)
Record CaseDecision : Type := {
  cd_DecisionID : string;
  cd_TurnID : string;
  cd_ActionID : string;
  cd_CaseID : string;
  cd_ActorID : string;
  cd_Kind : string;
  cd_TargetRefs : list string;
  cd_RevealRefs : list string;
  cd_CulpritRef : string;
  cd_MethodRef : string;
  cd_MotiveRef : string
}.

(* src/internal/payload/casedecision.go#CaseDecisionID *)
Definition CaseDecisionID (turnID actionID caseID actorID : string) : string :=
  deterministicID caseDecisionIdentityDomain [turnID; actionID; caseID; actorID].

Section casedecision.
Context `{Substrate}.

(* src/internal/payload/casedecision.go#validateCaseDecisionRefs *)
Definition validateCaseDecisionRefs (field : string) (refs : list string) (limit : Z) : res unit :=
  if limit <? Z.of_nat (List.length refs) then Err (Errorf "references exceed the limit" [])
  else refs_loop field refs [].

(* src/internal/payload/casedecision.go#CaseDecision.validateAccusationRefs *)
Definition validateAccusationRefs (d : CaseDecision) : res unit :=
  let refs := [("culprit_ref"%string, cd_CulpritRef d); ("method_ref"%string, cd_MethodRef d);
               ("motive_ref"%string, cd_MotiveRef d)] in
  if String.eqb (cd_Kind d) CaseDecisionAccuse then
    all_ok (fun ref => requireEntityID ref.1 ref.2) refs
  else
    all_ok (fun ref => require (String.eqb ref.2 EmptyString) (Errorf "forbidden for this kind" [])) refs.

(* src/internal/payload/casedecision.go#CaseDecision.Validate *)
Definition CaseDecision_Validate (d : CaseDecision) : res unit :=
  _ ← requireIDSegment "turn_id" (cd_TurnID d);
  _ ← requireActionID "action_id" (cd_ActionID d);
  _ ← require (String.eqb (cd_TurnID d) (TurnIDForAction (cd_ActionID d)))
        (Errorf "turn_id is not the 1:1 turn for action_id" []);
  _ ← requireEntityID "case_id" (cd_CaseID d);
  _ ← requireEntityID "actor_id" (cd_ActorID d);
  _ ← require (mem (cd_Kind d) orderedCaseDecisionKinds)
        (Errorf "kind is not a registered case decision kind" []);
  _ ← validateCaseDecisionRefs "target_refs" (cd_TargetRefs d) MaxCaseDecisionTargets;
  _ ← validateCaseDecisionRefs "reveal_refs" (cd_RevealRefs d) MaxCaseDecisionReveals;
  _ ← validateAccusationRefs d;
  require (String.eqb (cd_DecisionID d)
             (CaseDecisionID (cd_TurnID d) (cd_ActionID d) (cd_CaseID d) (cd_ActorID d)))
    (Errorf "decision_id does not match the deterministic identity" []).

(** ** The record of the case stage *)

(* src/internal/payload/casedecisionrecord.go:18-19 (CaseDecisionStatusDecision) *)
Definition CaseDecisionStatusDecision : string := "decision".
(* src/internal/payload/casedecisionrecord.go:20-21 (CaseDecisionStatusNotApplicable) *)
Definition CaseDecisionStatusNotApplicable : string := "not-applicable".

(* src/internal/payload/casedecisionrecord.go#type CaseDecisionRecord *)
Record CaseDecisionRecord : Type := {
  cdr_TurnID : string;
  cdr_ActionID : string;
  cdr_Status : string;
  cdr_Decision : option CaseDecision
}.

(* src/internal/payload/casedecisionrecord.go#CaseDecisionRecord.Validate *)
Definition CaseDecisionRecord_Validate (r : CaseDecisionRecord) : res unit :=
  _ ← requireIDSegment "turn_id" (cdr_TurnID r);
  _ ← requireActionID "action_id" (cdr_ActionID r);
  _ ← require (String.eqb (cdr_TurnID r) (TurnIDForAction (cdr_ActionID r)))
        (Errorf "turn_id is not the 1:1 turn for action_id" []);
  if String.eqb (cdr_Status r) CaseDecisionStatusDecision then
    match cdr_Decision r with
    | None => Err (Errorf "decision is required" [])
    | Some d =>
        _ ← wrapf "decision" (CaseDecision_Validate d);
        require (String.eqb (cd_TurnID d) (cdr_TurnID r) && String.eqb (cd_ActionID d) (cdr_ActionID r))
          (Errorf "decision identity does not match record identity" [])
    end
  else if String.eqb (cdr_Status r) CaseDecisionStatusNotApplicable then
    match cdr_Decision r with
    | Some _ => Err (Errorf "decision is forbidden" [])
    | None => Ok tt
    end
  else Err (Errorf "status is not a registered case decision record status" []).

(* src/internal/vocabulary/predicates.go#CaseDecisionNoOpScalarPredicates *)
Definition CaseDecisionNoOpScalarPredicates : list string := [].

(* src/internal/payload/casedecisionrecord.go#CaseDecisionRecord.Triples *)
Definition CaseDecisionRecord_Triples (r : CaseDecisionRecord) (turnEntityID decisionRef source : string)
    (at_ : time) : res (list Triple) :=
  let projection registered objects scalarless := {|
    p_payload := Some (CaseDecisionRecord_Validate r); p_subject := turnEntityID; p_turnID := cdr_TurnID r;
    p_playerSubject := EmptyString; p_source := source; p_at := at_; p_registered := registered;
    p_objects := objects; p_refPredicate := TurnCaseDecisionRef; p_refName := "case decision ref";
    p_ref := decisionRef; p_refless := false; p_scalarless := scalarless |} in
  build
    (if String.eqb (cdr_Status r) CaseDecisionStatusNotApplicable then
       projection CaseDecisionNoOpScalarPredicates ∅ true
     else match cdr_Decision r with
          | Some d => projection caseDecisionScalarPredicates
                        (list_to_map [(TurnCaseDecisionKind, AString (cd_Kind d))]) false
          | None => projection [] ∅ false
          end).
End casedecision.

(** ** The result of an accusation *)

(* src/internal/payload/accusationresult.go#const accusationResultIdentityDomain *)
Definition accusationResultIdentityDomain : string := "accusation-result/v1".
(* src/internal/payload/accusationresult.go:18-19 (AccusationCorrect) *)
Definition AccusationCorrect : string := "correct".
(* src/internal/payload/accusationresult.go:20-22 (AccusationIncorrect) *)
Definition AccusationIncorrect : string := "incorrect".
(* src/internal/payload/accusationresult.go:25-25 (orderedAccusationOutcomes) *)
Definition orderedAccusationOutcomes : list string := [AccusationCorrect; AccusationIncorrect].
(* src/internal/payload/accusationresult.go#AccusationOutcomes *)
Definition AccusationOutcomes : list string := orderedAccusationOutcomes.

(* src/internal/payload/accusationresult.go#type AccusationResult *)
Record AccusationResult : Type := {
  ar_ResultID : string;
  ar_TurnID : string;
  ar_CaseID : string;
  ar_DecisionID : string;
  ar_Outcome : string
}.

(* src/internal/payload/accusationresult.go#AccusationResultID *)
Definition AccusationResultID (turnID caseID decisionID : string) : string :=
  deterministicID accusationResultIdentityDomain [turnID; caseID; decisionID].

(* src/internal/payload/accusationresult.go#AccusationResult.Validate *)
Definition AccusationResult_Validate `{Substrate} (r : AccusationResult) : res unit :=
  _ ← requireIDSegment "turn_id" (ar_TurnID r);
  _ ← requireEntityID "case_id" (ar_CaseID r);
  _ ← requireSHA256 "decision_id" (ar_DecisionID r);
  _ ← require (mem (ar_Outcome r) orderedAccusationOutcomes)
        (Errorf "outcome is not a registered accusation outcome" []);
  require (String.eqb (ar_ResultID r) (AccusationResultID (ar_TurnID r) (ar_CaseID r) (ar_DecisionID r)))
    (Errorf "result_id does not match the deterministic identity" []).

(** ** Companion decisions *)

(* src/internal/payload/companiondecision.go:17-18 (MaxCompanionDecisionEvidence) *)
Definition MaxCompanionDecisionEvidence : Z := 8.
(* src/internal/payload/companiondecision.go:20-20 (companionDecisionIdentityDomain) *)
Definition companionDecisionIdentityDomain : string := "companion-decision/v1".
(* src/internal/payload/companiondecision.go:27-28 (CompanionDecisionSilent) *)
Definition CompanionDecisionSilent : string := "silent".
(* src/internal/payload/companiondecision.go:29-30 (CompanionDecisionQuip) *)
Definition CompanionDecisionQuip : string := "quip".
(* src/internal/payload/companiondecision.go:31-32 (CompanionDecisionQuestion) *)
Definition CompanionDecisionQuestion : string := "question".
(* src/internal/payload/companiondecision.go:33-34 (CompanionDecisionWarning) *)
Definition CompanionDecisionWarning : string := "warning".
(* src/internal/payload/companiondecision.go:35-36 (CompanionDecisionRecall) *)
Definition CompanionDecisionRecall : string := "recall".
(* src/internal/payload/companiondecision.go:37-38 (CompanionDecisionHint) *)
Definition CompanionDecisionHint : string := "hint".

(* src/internal/payload/companiondecision.go:41-44 (companionDecisionKinds) *)
Definition companionDecisionKinds : list string :=
  [CompanionDecisionSilent; CompanionDecisionQuip; CompanionDecisionQuestion;
   CompanionDecisionWarning; CompanionDecisionRecall; CompanionDecisionHint].

(* src/internal/payload/companiondecision.go#CompanionDecisionKinds *)
Definition CompanionDecisionKinds : list string := companionDecisionKinds.

(* src/internal/payload/companiondecision.go#type CompanionDecision *)
Record CompanionDecision : Type := {
  cmd_DecisionID : string;
  cmd_TurnID : string;
  cmd_ContextRef : string;
  cmd_PlayerID : string;
  cmd_CompanionID : string;
  cmd_Kind : string;
  cmd_HintLevel : string;
  cmd_EvidenceRefs : list string;
  cmd_TargetRef : string
}.

(* src/internal/payload/companiondecision.go#CompanionDecisionID *)
Definition CompanionDecisionID (turnID contextRef playerID companionID : string) : string :=
  deterministicID companionDecisionIdentityDomain [turnID; contextRef; playerID; companionID].

Section companion.
Context `{Substrate}.

(* src/internal/payload/companiondecision.go#CompanionDecision.Validate *)
Definition CompanionDecision_Validate (d : option CompanionDecision) : res unit :=
  match d with
  | None => Err (Errorf "companion decision is required" [])
  | Some d =>
      _ ← requireIDSegment "turn_id" (cmd_TurnID d);
      _ ← all_ok (fun field => requireEntityID field.1 field.2)
            [("context_ref"%string, cmd_ContextRef d); ("player_id"%string, cmd_PlayerID d);
             ("companion_id"%string, cmd_CompanionID d)];
      _ ← require (mem (cmd_Kind d) companionDecisionKinds)
            (Errorf "kind is not a registered companion decision kind" []);
      _ ← (if String.eqb (cmd_Kind d) CompanionDecisionHint then
             _ ← wrapf "hint_level is required and must be closed" (ParseHintLevel (cmd_HintLevel d));
             Ok tt
           else require (String.eqb (cmd_HintLevel d) EmptyString) (Errorf "hint_level is forbidden" []));
      _ ← require (negb (MaxCompanionDecisionEvidence <? Z.of_nat (List.length (cmd_EvidenceRefs d))))
            (Errorf "evidence_refs exceed the limit" []);
      _ ← refs_loop "evidence_refs" (cmd_EvidenceRefs d) [];
      _ ← require (negb (mem (cmd_Kind d) [CompanionDecisionWarning; CompanionDecisionRecall;
                                           CompanionDecisionHint] &&
                         Nat.eqb (List.length (cmd_EvidenceRefs d)) 0))
            (Errorf "evidence_refs is required" []);
      _ ← (if String.eqb (cmd_TargetRef d) EmptyString then Ok tt
           else requireEntityID "target_ref" (cmd_TargetRef d));
      require (String.eqb (cmd_DecisionID d)
                 (CompanionDecisionID (cmd_TurnID d) (cmd_ContextRef d) (cmd_PlayerID d) (cmd_CompanionID d)))
        (Errorf "decision_id does not match the deterministic identity" [])
  end.

(** ** The record of the companion stage *)

(* src/internal/payload/companionstagerecord.go:22-23 (CompanionStageDecision) *)
Definition CompanionStageDecision : string := "decision".
(* src/internal/payload/companionstagerecord.go:24-25 (CompanionStageNoActiveBond) *)
Definition CompanionStageNoActiveBond : string := "no-active-bond".
(* src/internal/payload/companionstagerecord.go:26-27 (CompanionStageNoTrigger) *)
Definition CompanionStageNoTrigger : string := "no-trigger".
(* src/internal/payload/companionstagerecord.go:28-29 (CompanionStageExhausted) *)
Definition CompanionStageExhausted : string := "exhausted".

(* src/internal/payload/companionstagerecord.go:32-34 (companionStageStatuses) *)
Definition companionStageStatuses : list string :=
  [CompanionStageDecision; CompanionStageNoActiveBond; CompanionStageNoTrigger; CompanionStageExhausted].

(* src/internal/payload/companionstagerecord.go#type CompanionStageRecord *)
Record CompanionStageRecord : Type := {
  csr_TurnID : string;
  csr_PlayerID : string;
  csr_CompanionID : string;
  csr_BondID : string;
  csr_Status : string;
  csr_TriggerKind : string;
  csr_TriggerSource : string;
  csr_DecisionRef : string
}.

(* src/internal/payload/companionstagerecord.go#requireTypedEntityID *)
Definition requireTypedEntityID (field value kind : string) : res unit :=
  _ ← requireEntityID field value;
  id ← ParseEntityID value;
  require (String.eqb (eid_Type id) kind) (Errorf "has another entity type" []).

(* src/internal/payload/companionstagerecord.go#CompanionStageRecord.Validate *)
Definition CompanionStageRecord_Validate (r : option CompanionStageRecord) : res unit :=
  match r with
  | None => Err (Errorf "companion stage record is required" [])
  | Some r =>
      let empty := String.eqb EmptyString in
      _ ← requireIDSegment "turn_id" (csr_TurnID r);
      _ ← requireTypedEntityID "player_id" (csr_PlayerID r) EntityKindPlayer;
      _ ← require (mem (csr_Status r) companionStageStatuses)
            (Errorf "status is not a registered companion stage status" []);
      if String.eqb (csr_Status r) CompanionStageNoActiveBond then
        require (empty (csr_CompanionID r) && empty (csr_BondID r) && empty (csr_TriggerKind r) &&
                 empty (csr_TriggerSource r) && empty (csr_DecisionRef r))
          (Errorf "no-active-bond record forbids bond, companion, trigger, and decision" [])
      else
        _ ← requireTypedEntityID "companion_id" (csr_CompanionID r) EntityKindCharacter;
        _ ← requireTypedEntityID "bond_id" (csr_BondID r) EntityKindCompanionBond;
        _ ← wrapf "trigger_kind" (ParseCompanionTrigger (csr_TriggerKind r));
        _ ← wrapf "trigger_source" (ParseCompanionTriggerSource (csr_TriggerSource r));
        if String.eqb (csr_Status r) CompanionStageNoTrigger then
          require (String.eqb (csr_TriggerKind r) CompanionTriggerNone &&
                   String.eqb (csr_TriggerSource r) CompanionTriggerSourceNone && empty (csr_DecisionRef r))
            (Errorf "no-trigger record requires none/none and forbids a decision" [])
        else
          _ ← require (negb (String.eqb (csr_TriggerKind r) CompanionTriggerNone ||
                             String.eqb (csr_TriggerSource r) CompanionTriggerSourceNone))
                (Errorf "decision and exhausted records require a non-none trigger and source" []);
          _ ← require (Bool.eqb (String.eqb (csr_TriggerKind r) CompanionTriggerPlayerHint)
                         (String.eqb (csr_TriggerSource r) CompanionTriggerSourceCaseDecision))
                (Errorf "player-hint and case-decision trigger values must be paired" []);
          _ ← require (Bool.eqb (String.eqb (csr_TriggerKind r) CompanionTriggerWarning)
                         (String.eqb (csr_TriggerSource r) CompanionTriggerSourceResolvedRisk))
                (Errorf "warning and resolved-risk trigger values must be paired" []);
          _ ← require (negb (String.eqb (csr_Status r) CompanionStageExhausted &&
                             negb (String.eqb (csr_TriggerKind r) CompanionTriggerWarning)))
                (Errorf "exhausted companion stage requires the automatic warning trigger" []);
          RequireStorageRef "decision_ref" (csr_DecisionRef r)
  end.

(* src/internal/payload/companionstagerecord.go#CompanionStageRecord.Triples *)
Definition CompanionStageRecord_Triples (r : CompanionStageRecord) (turnEntityID stageRef source : string)
    (at_ : time) : res (list Triple) :=
  _ ← CompanionStageRecord_Validate (Some r);
  _ ← RequireTurnEntityID (csr_TurnID r) turnEntityID;
  _ ← RequireStorageRef "companion stage ref" stageRef;
  let triple predicate object := {|
    Subject := turnEntityID; Predicate := predicate; Object := AString object; Source := source;
    Timestamp := at_; Confidence := float_one; Context_ := turnEntityID; Datatype := EmptyString;
    ExpiresAt := None |} in
  Ok (triple TurnCompanionStageRef stageRef ::
      (if String.eqb (csr_Status r) CompanionStageNoActiveBond then []
       else [triple TurnCompanionTriggerKind (csr_TriggerKind r);
             triple TurnCompanionTriggerSource (csr_TriggerSource r)])).

(** ** Lemmas *)

Lemma refs_loop_ok field refs seen :
  refs_loop field refs seen = Ok tt <->
  Forall (fun ref => requireEntityID field ref = Ok tt) refs /\ NoDup refs /\ Forall (fun ref => ref ∉ seen) refs.
Proof.
  revert seen. induction refs as [|ref refs IH]; intros seen.
  - cbn. split; [intros _; split; [constructor|split; constructor]|done].
  - rewrite !Forall_cons, NoDup_cons. cbn -[mem requireEntityID].
    destruct (requireEntityID field ref) as [[]|]; cbn -[mem]; [|naive_solver].
    destruct (mem ref seen) eqn:Em.
    { apply mem_true in Em. naive_solver. }
    apply mem_false in Em. rewrite IH. split.
    + intros (Hv & Hn & Hs). split; [done|]. split.
      * split; [|done]. intros Hin. rewrite Forall_forall in Hs. apply Hs in Hin. set_solver.
      * split; [done|]. eapply Forall_impl; [exact Hs|]. set_solver.
    + intros ([_ Hv] & [Hni Hn] & [_ Hs]). split; [done|]. split; [done|].
      rewrite Forall_forall in Hs |- *. intros x Hx. specialize (Hs x Hx). set_solver.
Qed.

(** A registered kind is one of seven; a decision has a culprit, a method and a
    motive exactly when it accuses. *)
Lemma validateAccusationRefs_ok d :
  validateAccusationRefs d = Ok tt ->
  if String.eqb (cd_Kind d) CaseDecisionAccuse then
    cd_CulpritRef d <> EmptyString /\ cd_MethodRef d <> EmptyString /\ cd_MotiveRef d <> EmptyString
  else cd_CulpritRef d = EmptyString /\ cd_MethodRef d = EmptyString /\ cd_MotiveRef d = EmptyString.
Proof.
  unfold validateAccusationRefs. destruct (String.eqb (cd_Kind d) CaseDecisionAccuse);
    rewrite all_ok_Forall, !Forall_cons; cbn -[String.eqb requireEntityID].
  - intros (Hc & Hm & Ho & _). repeat split; match goal with Hx : requireEntityID _ ?v = _ |- ?v <> _ =>
      by apply requireEntityID_ok in Hx as [? _] end.
  - intros (Hc%require_ok%String.eqb_eq & Hm%require_ok%String.eqb_eq & Ho%require_ok%String.eqb_eq & _).
    done.
Qed.
End companion.
