(* ===== verification/ContentRecords.v ===== *)
(** [internal/content]: storage references and artifact keys, and the artifacts the
    content package declares itself - a failure's explanation, a narration, the
    knowledge, accusation and case progress records of a turn, and a witness's
    testimony. The object store behind them is [ContentStore]; a reference is what
    reaches the graph. *)

From stdpp Require Import sorting.
From S2P Require Import Prelude GoStd GoHash GoErrors Graph Vocab Vocabulary Payload Mechanics Decisions.

Open Scope Z_scope.

(* src/internal/content/ref.go#type Ref *)
Record Ref : Type := { Instance_ : string; Key : string }.

#[export] Instance Ref_eq_dec : EqDecision Ref.
Proof. solve_decision. Defined.

Definition zero_Ref : Ref := {| Instance_ := EmptyString; Key := EmptyString |}.

(* src/internal/content/ref.go#Ref.IsZero *)
Definition Ref_IsZero (r : Ref) : bool :=
  String.eqb (Instance_ r) EmptyString && String.eqb (Key r) EmptyString.

(* src/internal/content/ref.go#Ref.String *)
Definition Ref_String (r : Ref) : string :=
  if Ref_IsZero r then EmptyString
  else RefScheme +:+ Instance_ r +:+ String RefSeparator (Key r).

(* src/internal/content/ref.go:147-152 (SubjectTurn) *)
Definition SubjectTurn : string := "turn".
Definition SubjectRevelation : string := "revelation".

(* src/internal/content/ref.go#var subjectKinds *)
Definition subjectKinds : list string := [SubjectTurn; SubjectRevelation].

Section content.
Context `{Substrate}.

(* src/internal/content/ref.go#Ref.Validate *)
Definition Ref_Validate (r : Ref) : res unit :=
  if String.eqb (Instance_ r) EmptyString then Err (Errorf "storage reference names no storage instance" [])
  else if contains_char RefSeparator (Instance_ r) then
    Err (Errorf "storage instance contains the separator" [])
  else if String.eqb (Key r) EmptyString then Err (Errorf "storage reference has no key" [])
  else if MaxTripleObjectBytes <? len (Ref_String r) then
    Err (Errorf "storage reference exceeds the triple-object budget" [])
  else Ok tt.

(* src/internal/content/ref.go#ParseRef *)
Definition ParseRef (s : string) : res Ref :=
  if String.eqb s EmptyString then Ok zero_Ref
  else
    _ ← RequireStorageRef "storage reference" s;
    match CutPrefix s RefScheme with
    | None => Err (Errorf "unreachable: RequireStorageRef checked the scheme" [])
    | Some rest =>
        match Cut RefSeparator rest with
        | None => Err (Errorf "unreachable: RequireStorageRef checked the separator" [])
        | Some (instance, key) =>
            let ref := {| Instance_ := instance; Key := key |} in
            _ ← Ref_Validate ref;
            Ok ref
        end
    end.

(* src/internal/content/ref.go#KeyFor *)
Definition KeyFor (refPredicate kind subjectID : string) : res string :=
  slot ← ArtifactSlot refPredicate;
  _ ← require (mem kind subjectKinds) (Errorf "not a registered artifact subject kind" []);
  _ ← wrapf "artifact key needs an id" (ValidateIDSegment subjectID);
  Ok (Join RefSeparator [kind; subjectID; slot]).

Lemma Cut_app sep a b :
  contains_char sep a = false -> Cut sep (a +:+ String sep b) = Some (a, b).
Proof.
  induction a as [|c a IH].
  { intros _. rewrite app_nil. cbn. by rewrite Ascii.eqb_refl. }
  rewrite app_cons. cbn. intros [-> Ha]%orb_false_iff. by rewrite IH.
Qed.

Lemma Ref_Validate_ok r :
  Ref_Validate r = Ok tt ->
  Instance_ r <> EmptyString /\ contains_char RefSeparator (Instance_ r) = false /\
  Key r <> EmptyString /\ Ref_String r = RefScheme +:+ Instance_ r +:+ String RefSeparator (Key r).
Proof.
  unfold Ref_Validate. destruct (String.eqb_spec (Instance_ r) EmptyString); [done|].
  destruct (contains_char _ _) eqn:E; [done|].
  destruct (String.eqb_spec (Key r) EmptyString); [done|]. intros _.
  split_and!; try done. unfold Ref_String, Ref_IsZero.
  destruct (String.eqb_spec (Instance_ r) EmptyString); done.
Qed.

Lemma RequireStorageRef_built field r :
  Ref_Validate r = Ok tt -> RequireStorageRef field (Ref_String r) = Ok tt.
Proof.
  intros (Hi & Hs & Hk & ->)%Ref_Validate_ok. unfold RequireStorageRef.
  rewrite CutPrefix_app, Cut_app by done.
  apply String.eqb_neq in Hk, Hi. by rewrite Hk, Hi.
Qed.

Lemma Ref_String_nonempty r : Ref_Validate r = Ok tt -> Ref_String r <> EmptyString.
Proof. by intros (_ & _ & _ & ->)%Ref_Validate_ok. Qed.
End content.

(** ** Failure details *)

(* src/internal/content/failure.go#const MaxFailureMessageBytes *)
Definition MaxFailureMessageBytes : Z := 4 * 1024.

(* src/internal/content/failure.go:27-27 (FailureClassProviderModel) *)
Definition FailureClassProviderModel : string := "provider-model".
(* src/internal/content/failure.go:28-28 (FailureClassModelOutputLimit) *)
Definition FailureClassModelOutputLimit : string := "model-output-limit".
(* src/internal/content/failure.go:29-29 (FailureClassAgentRuntime) *)
Definition FailureClassAgentRuntime : string := "agent-runtime".
(* src/internal/content/failure.go:30-30 (FailureClassAgentLimit) *)
Definition FailureClassAgentLimit : string := "agent-limit".
(* src/internal/content/failure.go:31-31 (FailureClassDeterministic) *)
Definition FailureClassDeterministic : string := "deterministic".
(* src/internal/content/failure.go:32-32 (FailureClassUnknown) *)
Definition FailureClassUnknown : string := "unknown".

(* src/internal/content/failure.go#var failureClasses *)
Definition failureClasses : list string :=
  [FailureClassProviderModel; FailureClassModelOutputLimit; FailureClassAgentRuntime;
   FailureClassAgentLimit; FailureClassDeterministic; FailureClassUnknown].

(* src/internal/content/failure.go#ParseFailureClass *)
Definition ParseFailureClass (value : string) : res string :=
  if mem value failureClasses then Ok value
  else Err (Errorf "failure class is outside the closed diagnostic set" []).

(* src/internal/content/failure.go#type FailureDetail *)
Record FailureDetail : Type := {
  fd_TurnID : string;
  fd_Reason : string;
  fd_Class : string;
  fd_AuthorizationReason : string;
  fd_Message : string;
  fd_Target : string;
  fd_Committed : list string
}.

Section records.
Context `{Substrate}.

(* src/internal/content/failure.go#FailureDetail.Validate *)
Definition FailureDetail_Validate (d : FailureDetail) : res unit :=
  let empty := String.eqb EmptyString in
  _ ← wrapf "turn_id" (ValidateIDSegment (fd_TurnID d));
  _ ← ParseFailureReason (fd_Reason d);
  _ ← (if empty (fd_Class d) then Ok EmptyString else ParseFailureClass (fd_Class d));
  _ ← require (negb (String.eqb (fd_Reason d) FailureKnowledgeUnauthorized && negb (empty (fd_Class d)) &&
                     empty (fd_AuthorizationReason d)))
        (Errorf "classed knowledge-unauthorized failure detail requires authorization_reason" []);
  _ ← (if empty (fd_AuthorizationReason d) then Ok EmptyString
       else
         _ ← require (String.eqb (fd_Reason d) FailureKnowledgeUnauthorized)
               (Errorf "authorization_reason is only valid for knowledge-unauthorized failures" []);
         _ ← require (String.eqb (fd_Class d) FailureClassDeterministic)
               (Errorf "authorization_reason requires failure class deterministic" []);
         ParseAuthorizationReason (fd_AuthorizationReason d));
  _ ← require (negb (empty (fd_Message d))) (Errorf "failure detail carries no message" []);
  _ ← require (negb (MaxFailureMessageBytes <? len (fd_Message d)))
        (Errorf "failure detail message exceeds the budget" []);
  _ ← (if empty (fd_Target d) then Ok tt
       else wrapf "failure detail target" (ValidateEntityID (fd_Target d)));
  all_ok (fun committed => wrapf "failure detail committed" (ValidateEntityID committed)) (fd_Committed d).

(** ** Narrations *)

(* src/internal/payload/triples.go#const MaxProseBytes *)
Definition MaxProseBytes : Z := 16 * 1024.

(* src/internal/content/narration.go#type Narration *)
Record Narration : Type := { n_TurnID : string; n_Band : string; n_Prose : string }.

(* src/internal/content/narration.go#Narration.Validate *)
Definition Narration_Validate (n : Narration) : res unit :=
  _ ← wrapf "turn_id" (ValidateIDSegment (n_TurnID n));
  _ ← ParseOutcomeBand (n_Band n);
  _ ← require (negb (String.eqb (n_Prose n) EmptyString)) (Errorf "narration carries no prose" []);
  require (negb (MaxProseBytes <? len (n_Prose n))) (Errorf "narration exceeds the prose budget" []).

(** ** Framed identities *)

(** The digest's input after the loop over the parts. *)
(* src/internal/content/knowledge.go#framedID *)
Definition framedID (parts : list string) : string :=
  let hash := fold_left (fun hash part => (hash ++ be_split 4 (u32 (len part))) ++ bytes_of part) parts [] in
  EncodeToString (sha256 hash).

(* src/internal/content/knowledge.go:18-19 (MaxKnowledgeReceiptEntries) *)
Definition MaxKnowledgeReceiptEntries : Z := 24.
(* src/internal/content/knowledge.go:20-21 (MaxTestimonyProseBytes) *)
Definition MaxTestimonyProseBytes : Z := 32 * 1024.
(* src/internal/content/knowledge.go:23-23 (knowledgeReceiptIdentityDomain) *)
Definition knowledgeReceiptIdentityDomain : string := "knowledge-receipt/v1".
(* src/internal/content/knowledge.go:24-24 (testimonyIdentityDomain) *)
Definition testimonyIdentityDomain : string := "testimony/v1".

(* src/internal/content/knowledge.go#KnowledgeReceiptID *)
Definition KnowledgeReceiptID (turnID decisionID : string) : string :=
  framedID [knowledgeReceiptIdentityDomain; turnID; decisionID].

(* src/internal/content/knowledge.go#TestimonyID *)
Definition TestimonyID (turnID decisionID beliefID recipientID evidenceID : string) : string :=
  framedID [testimonyIdentityDomain; turnID; decisionID; beliefID; recipientID; evidenceID].

(** ** Knowledge receipts *)

(* src/internal/content/knowledge.go:31-32 (KnowledgeCommitted) *)
Definition KnowledgeCommitted : string := "committed".
(* src/internal/content/knowledge.go:33-34 (KnowledgeNotApplicable) *)
Definition KnowledgeNotApplicable : string := "not-applicable".

(* src/internal/content/knowledge.go#type KnowledgeReceiptEntry *)
Record KnowledgeReceiptEntry : Type := {
  kre_RecipientID : string;
  kre_EvidenceID : string;
  kre_KnowledgeID : string;
  kre_RevelationID : string;
  kre_TestimonyRef : string
}.

(* src/internal/content/knowledge.go#type KnowledgeReceipt *)
Record KnowledgeReceipt : Type := {
  kr_TurnID : string;
  kr_DecisionID : string;
  kr_Status : string;
  kr_Entries : list KnowledgeReceiptEntry
}.

(** The map's iteration order only chooses which of several faults is named. *)
(* src/internal/content/knowledge.go#KnowledgeReceiptEntry.validate *)
Definition KnowledgeReceiptEntry_validate (e : KnowledgeReceiptEntry) : res unit :=
  _ ← all_ok (fun id => wrapf "id" (ValidateEntityID id))
        [kre_RecipientID e; kre_EvidenceID e; kre_KnowledgeID e; kre_RevelationID e];
  if String.eqb (kre_TestimonyRef e) EmptyString then Ok tt
  else _ ← wrapf "testimony_ref" (ParseRef (kre_TestimonyRef e)); Ok tt.

(* src/internal/content/knowledge.go:82-82 (KnowledgeReceipt.Validate) *)
Definition entry_key (e : KnowledgeReceiptEntry) : string :=
  kre_RecipientID e +:+ String "000"%char (kre_EvidenceID e).

(* src/internal/content/knowledge.go:77-87 (KnowledgeReceipt.Validate) *)
Fixpoint checkEntries (entries : list KnowledgeReceiptEntry) (previous : string) : res unit :=
  match entries with
  | [] => Ok tt
  | entry :: rest =>
      _ ← wrapf "entry" (KnowledgeReceiptEntry_validate entry);
      let key := entry_key entry in
      if String.leb key previous then
        Err (Errorf "entries must be sorted and unique by recipient/evidence" [])
      else checkEntries rest key
  end.

(* src/internal/content/knowledge.go#KnowledgeReceipt.Validate *)
Definition KnowledgeReceipt_Validate (r : KnowledgeReceipt) : res unit :=
  _ ← wrapf "turn_id" (ValidateIDSegment (kr_TurnID r));
  _ ← require (negb (MaxKnowledgeReceiptEntries <? Z.of_nat (List.length (kr_Entries r))))
        (Errorf "knowledge receipt exceeds the entry limit" []);
  _ ← (if String.eqb (kr_Status r) KnowledgeCommitted then
         require (negb (String.eqb (kr_DecisionID r) EmptyString))
           (Errorf "committed knowledge receipt requires decision_id" [])
       else if String.eqb (kr_Status r) KnowledgeNotApplicable then
         require (String.eqb (kr_DecisionID r) EmptyString && Nat.eqb (List.length (kr_Entries r)) 0)
           (Errorf "not-applicable knowledge receipt forbids decision_id and entries" [])
       else Err (Errorf "unknown knowledge receipt status" []));
  checkEntries (kr_Entries r) EmptyString.

(** [strings.Compare] on the recipient, then on the evidence. *)
Definition entry_le (a b : KnowledgeReceiptEntry) : bool :=
  match String.compare (kre_RecipientID a) (kre_RecipientID b) with
  | Lt => true
  | Gt => false
  | Eq => String.leb (kre_EvidenceID a) (kre_EvidenceID b)
  end.

#[export] Instance entry_le_dec : RelDecision (fun a b => entry_le a b = true).
Proof. intros a b. apply _. Defined.

(* src/internal/content/knowledge.go#SortedKnowledgeEntries *)
Definition SortedKnowledgeEntries (entries : list KnowledgeReceiptEntry) : list KnowledgeReceiptEntry :=
  merge_sort (fun a b => entry_le a b = true) entries.

(** ** Testimony *)

(* src/internal/content/knowledge.go#type Testimony *)
Record Testimony : Type := {
  ty_TurnID : string;
  ty_DecisionID : string;
  ty_BeliefID : string;
  ty_SourceActorID : string;
  ty_RecipientID : string;
  ty_EvidenceID : string;
  ty_Stance : string;
  ty_Prose : string
}.

(* src/internal/content/knowledge.go#Testimony.Validate *)
Definition Testimony_Validate (t : Testimony) : res unit :=
  _ ← wrapf "turn_id" (ValidateIDSegment (ty_TurnID t));
  _ ← require (negb (String.eqb (ty_DecisionID t) EmptyString)) (Errorf "testimony requires decision_id" []);
  _ ← all_ok (fun id => wrapf "id" (ValidateEntityID id))
        [ty_BeliefID t; ty_SourceActorID t; ty_RecipientID t; ty_EvidenceID t];
  _ ← require (enum_valid beliefStanceEnum (ty_Stance t)) (Errorf "testimony stance is not closed" []);
  require (negb (String.eqb (ty_Prose t) EmptyString || (MaxTestimonyProseBytes <? len (ty_Prose t))))
    (Errorf "testimony prose is outside its budget" []).

(** ** Accusation records *)

(* src/internal/content/accusation.go:17-18 (AccusationNotApplicable) *)
Definition AccusationNotApplicable : string := "not-applicable".
(* src/internal/content/accusation.go:19-20 (AccusationResultRecorded) *)
Definition AccusationResultRecorded : string := "result".

(* src/internal/content/accusation.go#type AccusationRecord *)
Record AccusationRecord : Type := {
  acr_TurnID : string; acr_Status : string; acr_Result : option AccusationResult }.

(* src/internal/content/accusation.go#AccusationRecord.Validate *)
Definition AccusationRecord_Validate (r : AccusationRecord) : res unit :=
  _ ← wrapf "turn_id" (ValidateIDSegment (acr_TurnID r));
  if String.eqb (acr_Status r) AccusationNotApplicable then
    match acr_Result r with
    | Some _ => Err (Errorf "not-applicable accusation record forbids a result" [])
    | None => Ok tt
    end
  else if String.eqb (acr_Status r) AccusationResultRecorded then
    match acr_Result r with
    | None => Err (Errorf "result accusation record requires a result" [])
    | Some result =>
        _ ← wrapf "accusation result" (AccusationResult_Validate result);
        require (String.eqb (ar_TurnID result) (acr_TurnID r))
          (Errorf "accusation record and result name different turns" [])
    end
  else Err (Errorf "unknown accusation record status" []).

(** ** Case progress records *)

(* src/internal/content/caseprogress.go#const caseProgressIdentityDomain *)
Definition caseProgressIdentityDomain : string := "case-progress/v1".
(* src/internal/content/caseprogress.go:19-20 (CaseProgressEventRecorded) *)
Definition CaseProgressEventRecorded : string := "event-recorded".
(* src/internal/content/caseprogress.go:21-22 (CaseProgressNotApplicable) *)
Definition CaseProgressNotApplicable : string := "not-applicable".

(* src/internal/content/caseprogress.go#type CaseProgressRecord *)
Record CaseProgressRecord : Type := {
  cpr_TurnID : string;
  cpr_DecisionID : string;
  cpr_CaseID : string;
  cpr_Status : string;
  cpr_EventID : string;
  cpr_EventKind : string
}.

(* src/internal/content/caseprogress.go#CaseProgressEventID *)
Definition CaseProgressEventID (turnID decisionID kind : string) : string :=
  framedID [caseProgressIdentityDomain; turnID; decisionID; kind].

(* src/internal/content/caseprogress.go#CaseProgressRecord.Validate *)
Definition CaseProgressRecord_Validate (r : CaseProgressRecord) : res unit :=
  let empty := String.eqb EmptyString in
  _ ← wrapf "turn_id" (ValidateIDSegment (cpr_TurnID r));
  if String.eqb (cpr_Status r) CaseProgressEventRecorded then
    _ ← require (negb (empty (cpr_DecisionID r) || empty (cpr_CaseID r) || empty (cpr_EventID r)))
          (Errorf "recorded case progress requires decision_id, case_id, and event_id" []);
    _ ← wrapf "case_id" (ValidateEntityID (cpr_CaseID r));
    _ ← wrapf "event_kind" (ParseCaseLifecycleEventKind (cpr_EventKind r));
    require (String.eqb (cpr_EventID r)
               (CaseProgressEventID (cpr_TurnID r) (cpr_DecisionID r) (cpr_EventKind r)))
      (Errorf "event_id does not match deterministic identity" [])
  else if String.eqb (cpr_Status r) CaseProgressNotApplicable then
    _ ← require (empty (cpr_EventID r) && empty (cpr_EventKind r))
          (Errorf "not-applicable case progress forbids event_id and event_kind" []);
    if empty (cpr_CaseID r) then
      require (empty (cpr_DecisionID r)) (Errorf "non-case progress forbids decision_id" [])
    else
      _ ← wrapf "case_id" (ValidateEntityID (cpr_CaseID r));
      require (negb (empty (cpr_DecisionID r)))
        (Errorf "case-scoped not-applicable progress requires decision_id" [])
  else Err (Errorf "unknown case progress status" []).
End records.

Lemma framedID_framed parts : framedID parts = framed_digest parts.
Proof.
  unfold framedID, framed_digest. do 2 f_equal.
  transitivity ([] ++ frame parts); [|done].
  generalize (@nil Z). induction parts as [|v values IH]; intros acc.
  - symmetry. apply app_nil_r.
  - cbn [fold_left]. rewrite IH. rewrite <- !(assoc_L (++)). done.
Qed.
