(* ===== verification/ContentStore.v ===== *)
(** [internal/content/store.go] and [managed.go]: the content store - typed,
    validated artifacts over an object-store backend, and the exact-resident
    claims that make a companion's record immutable.

    The object store, the claim bucket and JetStream's management calls are
    services behind third-party clients: the classes [ObjectStore],
    [ClaimBucket] and [JetStream] name the calls the package makes. What
    [encoding/json] writes for a record is the class [Codec]. *)

From S2P Require Import Prelude GoStd GoHash GoErrors Graph Vocab Vocabulary Payload Mechanics Decisions ContentRecords.

Open Scope Z_scope.

(* src/internal/content/store.go:23-26 (DefaultBucket) *)
Definition DefaultBucket : string := "SEMMACHINA_CONTENT".
(* src/internal/content/store.go:36-38 (MaxInstanceNameBytes) *)
Definition MaxInstanceNameBytes : Z := 32.
(* src/internal/content/store.go:40-42 (MaxCompanionDecisionBytes) *)
Definition MaxCompanionDecisionBytes : Z := 8 * 1024.

(* src/internal/content/store.go#var ErrArtifactNotFound *)
Definition ErrArtifactNotFound : string := "stored artifact not found".
(* src/internal/content/store.go#var ErrArtifactReference *)
Definition ErrArtifactReference : string := "invalid stored artifact reference".
(* src/internal/content/store.go#var ErrArtifactCorrupt *)
Definition ErrArtifactCorrupt : string := "stored artifact is corrupt".
(* src/internal/content/store.go#var ErrArtifactConflict *)
Definition ErrArtifactConflict : string := "stored artifact identity conflict".

(** Sentinels of the clients. *)
Definition ErrObjectNotFound : string := "storage: object not found".
Definition ErrKeyExists : string := "jetstream: key exists".
Definition ErrBucketNotFound : string := "jetstream: bucket not found".
Definition ErrBucketExists : string := "jetstream: bucket exists".

(** ** The services behind the package *)

(** [objectstore.Store]. *)
Class ObjectStore (W : Type) : Type := {
  object_Put : string -> string -> MW W unit;
  object_Get : string -> MW W string
}.

(** [jetstream.KeyValue]: [Create] writes a key that has no value yet. *)
Class ClaimBucket (W : Type) : Type := {
  claims_Create : string -> string -> MW W unit;
  claims_Get : string -> MW W string
}.

(** [json.Marshal] and [json.Unmarshal] at one record type. *)
Class Codec (A : Type) : Type := {
  Marshal : A -> res string;
  Unmarshal : string -> res A
}.

(** The [Backend] of the package, and the [ExactResidentBackend] it may also be. *)
(* src/internal/content/store.go#type Backend *)
Class Backend (W : Type) : Type := {
  InstanceName : string;
  Put : string -> string -> MW W unit;
  Get : string -> MW W string;
  ExactResident : option (string -> string -> MW W string)
}.

(** ** Exact-resident claims *)

Section claims.
Context {W : Type} `{ObjectStore W, ClaimBucket W}.

(** The claim: the candidate when no value was there, the resident one otherwise. *)
(* src/internal/content/store.go:133-144 (ObjectBackend.ClaimExact) *)
Definition claim_winner (key candidate : string) : MW W string :=
  created ← attempt (claims_Create key candidate);
  match created with
  | Ok _ => mret candidate
  | Err err =>
      if negb (errors_Is ErrKeyExists err) then throw (Errorf "create exact-resident claim" [err])
      else
        entry ← attempt (claims_Get key);
        match entry with
        | Err err => throw (Errorf "read exact-resident claim" [err])
        | Ok value => mret value
        end
  end.

(* src/internal/content/store.go#ObjectBackend.ClaimExact *)
Definition ObjectBackend_ClaimExact (key candidate : string) : MW W string :=
  if MaxCompanionDecisionBytes <? len candidate then
    throw (Errorf "immutable companion decision exceeds the limit" [])
  else
    winner ← claim_winner key candidate;
    resident ← attempt (object_Get key);
    match resident with
    | Err err =>
        if errors_Is ErrObjectNotFound err then
          repaired ← attempt (object_Put key winner);
          match repaired with
          | Err err => throw (Errorf "repair exact-resident object" [err])
          | Ok _ => mret winner
          end
        else throw (Errorf "read exact-resident object" [err])
    | Ok resident =>
        if negb (String.eqb resident winner) then
          throw (Errorf "object differs from its immutable claim" [Sentinel ErrArtifactCorrupt])
        else mret winner
    end.
End claims.

(* src/internal/content/store.go:97-123 (ObjectBackend) *)
Definition ObjectBackend {W} `{ObjectStore W, ClaimBucket W} (instance : string) : Backend W := {|
  InstanceName := instance;
  Put := object_Put;
  Get := object_Get;
  ExactResident := Some ObjectBackend_ClaimExact
|}.

(* src/internal/content/store.go#validateInstanceName *)
Definition validateInstanceName (name : string) : res unit :=
  if String.eqb name EmptyString then Err (Errorf "content store requires a storage instance name" [])
  else if MaxInstanceNameBytes <? len name then Err (Errorf "storage instance exceeds the budget" [])
  else if contains_char RefSeparator name then Err (Errorf "storage instance contains the separator" [])
  else Ok tt.

(* src/internal/content/store.go#NewStore *)
Definition NewStore {W} (backend : option (Backend W)) : res (Backend W) :=
  match backend with
  | None => Err (Errorf "content store requires a storage backend" [])
  | Some backend =>
      _ ← validateInstanceName (@InstanceName W backend);
      Ok backend
  end.

(** ** The claim bucket's configuration *)

(** What JetStream reports of, and accepts for, the two buckets. *)
Record ObjectStatus : Type := { ob_Storage : string; ob_Replicas : Z }.
Record KeyValueConfig : Type := {
  kvc_Bucket : string; kvc_MaxValueSize : Z; kvc_History : Z; kvc_TTL : Z;
  kvc_Storage : string; kvc_Replicas : Z }.
Record KeyValueStatus : Type := { kvs_History : Z; kvs_TTL : Z }.
Record StreamConfig : Type := { sc_Storage : string; sc_Replicas : Z; sc_MaxMsgSize : Z }.
Definition FileStorage : string := "file".

Class JetStream (W : Type) : Type := {
  js_JetStream : MW W unit;
  js_ObjectStore : string -> MW W unit;
  js_ObjectStatus : string -> MW W ObjectStatus;
  js_KeyValue : string -> MW W unit;
  js_CreateKeyValue : KeyValueConfig -> MW W unit;
  js_KeyValueStatus : string -> MW W KeyValueStatus;
  js_StreamConfig : string -> MW W StreamConfig
}.

Section open.
Context {W : Type} `{JetStream W}.

(** A call whose error is wrapped on its way out. *)
Definition calling {A} (msg : string) (m : MW W A) : MW W A :=
  result ← attempt m; lift (wrapf msg result).

(** The bucket, by its name: read, or created when it is not there; a creation
    another instance won is read again. *)
(* src/internal/content/store.go:223-233 (openExactClaims) *)
Definition open_or_create (config : KeyValueConfig) : MW W unit :=
  opened ← attempt (js_KeyValue (kvc_Bucket config));
  match opened with
  | Ok _ => mret tt
  | Err err =>
      if errors_Is ErrBucketNotFound err then
        created ← attempt (js_CreateKeyValue config);
        match created with
        | Ok _ => mret tt
        | Err err => if errors_Is ErrBucketExists err then js_KeyValue (kvc_Bucket config) else throw err
        end
      else throw err
  end.

(* src/internal/content/store.go#openExactClaims *)
Definition openExactClaims (contentBucket : string) : MW W string :=
  _ ← js_JetStream;
  _ ← calling "inspect content ObjectStore" (js_ObjectStore contentBucket);
  objectStatus ← calling "inspect content ObjectStore status" (js_ObjectStatus contentBucket);
  if negb (String.eqb (ob_Storage objectStatus) FileStorage) then
    throw (Errorf "content ObjectStore is not file-backed" [])
  else
    let name := contentBucket +:+ "_IMMUTABLE" in
    _ ← calling "open exact-resident claim bucket"
          (open_or_create {| kvc_Bucket := name; kvc_MaxValueSize := MaxCompanionDecisionBytes;
                             kvc_History := 1; kvc_TTL := 0; kvc_Storage := FileStorage;
                             kvc_Replicas := ob_Replicas objectStatus |});
    status ← calling "inspect exact-resident claim bucket" (js_KeyValueStatus name);
    info ← calling "inspect exact-resident claim stream" (js_StreamConfig ("KV_" +:+ name));
    if negb (kvs_History status =? 1) || negb (kvs_TTL status =? 0) ||
       negb (String.eqb (sc_Storage info) FileStorage) ||
       negb (sc_Replicas info =? ob_Replicas objectStatus) ||
       negb (sc_MaxMsgSize info =? MaxCompanionDecisionBytes) then
      throw (Errorf "exact-resident claim bucket has incompatible configuration" [])
    else mret name.
End open.

(** ** The managed backend

    The same operations over a store another component provides: each call
    looks the provider up again, so the engine only ever uses a started one. *)

(* src/internal/content/managed.go#const ManagedStorageInstance *)
Definition ManagedStorageInstance : string := "objectstore".

(** What [component.Lookup] finds under the provider's name: nothing, a
    component that provides no stores, or a provider with or without the store. *)
Inductive discoverable : Type := NotAdmitted | NotAProvider | Provides (started : bool).
Class ComponentLookup (W : Type) : Type := { Component : string -> MW W discoverable }.

Section managed.
Context {W : Type} `{ObjectStore W, ClaimBucket W, ComponentLookup W, JetStream W}.

(* src/internal/content/managed.go#ManagedBackend.providerStore *)
Definition providerStore : MW W unit :=
  found ← Component ManagedStorageInstance;
  match found with
  | NotAdmitted => throw (Errorf "managed content provider is not admitted" [])
  | NotAProvider => throw (Errorf "managed content component is not a StoreProvider" [])
  | Provides false => throw (Errorf "managed content provider is not started" [])
  | Provides true => mret tt
  end.

(* src/internal/content/managed.go#ManagedBackend.Put *)
Definition ManagedBackend_Put (key value : string) : MW W unit :=
  _ ← providerStore; object_Put key value.

(* src/internal/content/managed.go#ManagedBackend.Get *)
Definition ManagedBackend_Get (key : string) : MW W string :=
  _ ← providerStore; object_Get key.

(** The bucket handle is kept after the first success; [opened] says whether
    an earlier call left one. Both paths return a handle to the same bucket. *)
(* src/internal/content/managed.go#ManagedBackend.exactClaims *)
Definition exactClaims (opened : bool) (physicalBucket : string) : MW W unit :=
  if opened then mret tt else _ ← openExactClaims physicalBucket; mret tt.

(* src/internal/content/managed.go#ManagedBackend.ClaimExact *)
Definition ManagedBackend_ClaimExact (opened : bool) (physicalBucket key candidate : string)
    : MW W string :=
  if MaxCompanionDecisionBytes <? len candidate then
    throw (Errorf "immutable companion decision exceeds the limit" [])
  else
    _ ← exactClaims opened physicalBucket;
    winner ← claim_winner key candidate;
    resident ← attempt (ManagedBackend_Get key);
    match resident with
    | Err err =>
        if errors_Is ErrObjectNotFound err then
          repaired ← attempt (ManagedBackend_Put key winner);
          match repaired with
          | Err err => throw (Errorf "repair exact-resident object" [err])
          | Ok _ => mret winner
          end
        else throw (Errorf "read exact-resident object" [err])
    | Ok resident =>
        if negb (String.eqb resident winner) then
          throw (Errorf "object differs from its immutable claim" [Sentinel ErrArtifactCorrupt])
        else mret winner
    end.
End managed.

(** ** The store *)

(** Anything that can say whether it is fit to store. *)
(* src/internal/content/store.go#type artifact *)
Class artifact (A : Type) : Type := { artifact_Validate : A -> res unit }.

Section artifacts.
Context `{Substrate}.
#[export] Instance action_artifact : artifact PlayerAction := {| artifact_Validate := PlayerAction_Validate |}.
#[export] Instance verdict_artifact : artifact Verdict := {| artifact_Validate := Verdict_Validate |}.
#[export] Instance case_decision_artifact : artifact CaseDecisionRecord :=
  {| artifact_Validate := CaseDecisionRecord_Validate |}.
#[export] Instance companion_decision_artifact : artifact CompanionDecision :=
  {| artifact_Validate d := CompanionDecision_Validate (Some d) |}.
#[export] Instance companion_stage_artifact : artifact CompanionStageRecord :=
  {| artifact_Validate r := CompanionStageRecord_Validate (Some r) |}.
#[export] Instance accusation_artifact : artifact AccusationRecord :=
  {| artifact_Validate := AccusationRecord_Validate |}.
#[export] Instance knowledge_artifact : artifact KnowledgeReceipt :=
  {| artifact_Validate := KnowledgeReceipt_Validate |}.
#[export] Instance progress_artifact : artifact CaseProgressRecord :=
  {| artifact_Validate := CaseProgressRecord_Validate |}.
#[export] Instance testimony_artifact : artifact Testimony := {| artifact_Validate := Testimony_Validate |}.
#[export] Instance roll_artifact : artifact RollResult := {| artifact_Validate := RollResult_Validate |}.
#[export] Instance batch_artifact : artifact EffectBatch := {| artifact_Validate := EffectBatch_Validate |}.
#[export] Instance narration_artifact : artifact Narration := {| artifact_Validate := Narration_Validate |}.
#[export] Instance failure_artifact : artifact FailureDetail :=
  {| artifact_Validate := FailureDetail_Validate |}.
End artifacts.

Section store.
Context {W : Type} `{Substrate, Backend W}.

(** The reference an artifact's key makes, checked before anything is written. *)
(* src/internal/content/store.go:755-762 (Store.put) *)
Definition ref_for (refPredicate kind subjectID : string) : res Ref :=
  key ← KeyFor refPredicate kind subjectID;
  let ref := {| Instance_ := InstanceName; Key := key |} in
  _ ← Ref_Validate ref;
  Ok ref.

(* src/internal/content/store.go#Store.put *)
Definition put {A} `{artifact A, Codec A} (refPredicate kind subjectID : string) (a : A) : MW W Ref :=
  _ ← lift (wrapf "refusing to store an invalid artifact" (artifact_Validate a));
  ref ← lift (ref_for refPredicate kind subjectID);
  data ← lift (wrapf "encode artifact" (Marshal a));
  _ ← calling "store artifact" (Put (Key ref) data);
  mret ref.

(** The checks a reference passes before its bytes are fetched. *)
(* src/internal/content/store.go:782-804 (Store.get) *)
Definition check_ref (refPredicate : string) (ref : Ref) : res unit :=
  match Ref_Validate ref with
  | Err _ => Err (Errorf "reference" [Sentinel ErrArtifactReference])
  | Ok _ =>
      if negb (String.eqb (Instance_ ref) InstanceName) then
        Err (Errorf "reference names another storage instance" [Sentinel ErrArtifactReference])
      else match ArtifactSlot refPredicate with
           | Err _ => Err (Errorf "slot" [Sentinel ErrArtifactReference])
           | Ok slot =>
               if negb (HasSuffix (Key ref) (String RefSeparator slot)) then
                 Err (Errorf "reference does not address this artifact" [Sentinel ErrArtifactReference])
               else Ok tt
           end
  end.

(** What the fetched bytes decode to, held to the record's own contract. *)
(* src/internal/content/store.go:813-819 (Store.get) *)
Definition decode {A} `{artifact A, Codec A} (data : string) : res A :=
  match Unmarshal data with
  | Err _ => Err (Errorf "decode artifact" [Sentinel ErrArtifactCorrupt])
  | Ok into =>
      match artifact_Validate into with
      | Err _ => Err (Errorf "stored artifact does not satisfy its own contract" [Sentinel ErrArtifactCorrupt])
      | Ok _ => Ok into
      end
  end.

(* src/internal/content/store.go#Store.get *)
Definition get {A} `{artifact A, Codec A} (refPredicate : string) (ref : Ref) : MW W A :=
  _ ← lift (check_ref refPredicate ref);
  data ← attempt (Get (Key ref));
  match data with
  | Err err =>
      if errors_Is ErrObjectNotFound err then throw (Errorf "resolve" [Sentinel ErrArtifactNotFound; err])
      else throw (Errorf "resolve" [err])
  | Ok data => lift (decode data)
  end.

(** The shape every typed write shares: the record is there, and it is about
    the turn whose entity the caller names. *)
Definition put_for_turn {A} `{artifact A, Codec A} (refPredicate turnEntityID : string)
    (turnID : A -> string) (a : option A) : MW W Ref :=
  match a with
  | None => throw (Errorf "storing an artifact requires one" [])
  | Some a =>
      _ ← lift (RequireTurnEntityID (turnID a) turnEntityID);
      put refPredicate SubjectTurn (turnID a) a
  end.

(** The shape of a write that must not replace what is resident. *)
Definition put_exact {A} `{artifact A, Codec A} (refPredicate turnEntityID : string)
    (turnID : A -> string) (a : option A) : MW W Ref :=
  match a with
  | None => throw (Errorf "storing an artifact requires one" [])
  | Some a =>
      _ ← lift (RequireTurnEntityID (turnID a) turnEntityID);
      _ ← lift (wrapf "refusing to store an invalid record" (artifact_Validate a));
      ref ← lift (ref_for refPredicate SubjectTurn (turnID a));
      data ← lift (wrapf "encode" (Marshal a));
      match ExactResident with
      | None => throw (Errorf "content backend does not support exact-resident records" [])
      | Some ClaimExact =>
          winner ← calling "establish" (ClaimExact (Key ref) data);
          if negb (String.eqb winner data) then
            throw (Errorf "already carries different semantics" [Sentinel ErrArtifactConflict])
          else mret ref
      end
  end.

Context `{Codec PlayerAction, Codec Verdict, Codec CaseDecisionRecord, Codec CompanionDecision,
  Codec CompanionStageRecord, Codec AccusationRecord, Codec KnowledgeReceipt, Codec CaseProgressRecord,
  Codec Testimony, Codec RollResult, Codec EffectBatch, Codec Narration, Codec FailureDetail}.

(* src/internal/content/store.go#Store.PutAction *)
Definition PutAction (turnEntityID : string) (action : option PlayerAction) : MW W Ref :=
  put_for_turn TurnActionRef turnEntityID (fun a => TurnIDForAction (pa_ActionID a)) action.
(* src/internal/content/store.go#Store.GetAction *)
Definition GetAction (ref : Ref) : MW W PlayerAction := get TurnActionRef ref.

(* src/internal/content/store.go#Store.PutVerdict *)
Definition PutVerdict (turnEntityID : string) (verdict : option Verdict) : MW W Ref :=
  put_for_turn TurnVerdictRef turnEntityID v_TurnID verdict.
(* src/internal/content/store.go#Store.GetVerdict *)
Definition GetVerdict (ref : Ref) : MW W Verdict := get TurnVerdictRef ref.

(* src/internal/content/store.go#Store.PutCaseDecisionRecord *)
Definition PutCaseDecisionRecord (turnEntityID : string) (record : option CaseDecisionRecord) : MW W Ref :=
  put_for_turn TurnCaseDecisionRef turnEntityID cdr_TurnID record.
(* src/internal/content/store.go#Store.GetCaseDecisionRecord *)
Definition GetCaseDecisionRecord (ref : Ref) : MW W CaseDecisionRecord := get TurnCaseDecisionRef ref.

(* src/internal/content/store.go#Store.PutCompanionDecision *)
Definition PutCompanionDecision (turnEntityID : string) (decision : option CompanionDecision) : MW W Ref :=
  put_exact TurnCompanionDecisionRef turnEntityID cmd_TurnID decision.
(* src/internal/content/store.go#Store.GetCompanionDecision *)
Definition GetCompanionDecision (ref : Ref) : MW W CompanionDecision := get TurnCompanionDecisionRef ref.

(* src/internal/content/store.go#Store.PutCompanionStageRecord *)
Definition PutCompanionStageRecord (turnEntityID : string) (record : option CompanionStageRecord) : MW W Ref :=
  put_exact TurnCompanionStageRef turnEntityID csr_TurnID record.
(* src/internal/content/store.go#Store.GetCompanionStageRecord *)
Definition GetCompanionStageRecord (ref : Ref) : MW W CompanionStageRecord := get TurnCompanionStageRef ref.

(* src/internal/content/store.go#Store.PutAccusationRecord *)
Definition PutAccusationRecord (turnEntityID : string) (record : option AccusationRecord) : MW W Ref :=
  put_for_turn TurnAccusationRef turnEntityID acr_TurnID record.
(* src/internal/content/store.go#Store.GetAccusationRecord *)
Definition GetAccusationRecord (ref : Ref) : MW W AccusationRecord := get TurnAccusationRef ref.

(* src/internal/content/store.go#Store.PutKnowledgeReceipt *)
Definition PutKnowledgeReceipt (turnEntityID : string) (receipt : option KnowledgeReceipt) : MW W Ref :=
  put_for_turn TurnKnowledgeRef turnEntityID kr_TurnID receipt.
(* src/internal/content/store.go#Store.GetKnowledgeReceipt *)
Definition GetKnowledgeReceipt (ref : Ref) : MW W KnowledgeReceipt := get TurnKnowledgeRef ref.

(* src/internal/content/store.go#Store.PutCaseProgressRecord *)
Definition PutCaseProgressRecord (turnEntityID : string) (record : option CaseProgressRecord) : MW W Ref :=
  put_for_turn TurnCaseProgressRef turnEntityID cpr_TurnID record.
(* src/internal/content/store.go#Store.GetCaseProgressRecord *)
Definition GetCaseProgressRecord (ref : Ref) : MW W CaseProgressRecord := get TurnCaseProgressRef ref.

(* src/internal/content/store.go#Store.PutTestimony *)
Definition PutTestimony (testimonyID : string) (testimony : option Testimony) : MW W Ref :=
  match testimony with
  | None => throw (Errorf "storing testimony requires a record" [])
  | Some t =>
      let expected := TestimonyID (ty_TurnID t) (ty_DecisionID t) (ty_BeliefID t) (ty_RecipientID t)
                        (ty_EvidenceID t) in
      if negb (String.eqb testimonyID expected) then
        throw (Errorf "testimony id does not match deterministic identity" [])
      else put RevelationTestimonyRef SubjectRevelation testimonyID t
  end.
(* src/internal/content/store.go#Store.GetTestimony *)
Definition GetTestimony (ref : Ref) : MW W Testimony := get RevelationTestimonyRef ref.

(* src/internal/content/store.go#Store.PutRoll *)
Definition PutRoll (turnEntityID : string) (roll : option RollResult) : MW W Ref :=
  put_for_turn TurnRollRef turnEntityID r_TurnID roll.
(* src/internal/content/store.go#Store.GetRoll *)
Definition GetRoll (ref : Ref) : MW W RollResult := get TurnRollRef ref.

(* src/internal/content/store.go#Store.PutEffectBatch *)
Definition PutEffectBatch (turnEntityID : string) (batch : option EffectBatch) : MW W Ref :=
  put_for_turn TurnEffectsRef turnEntityID b_TurnID batch.
(* src/internal/content/store.go#Store.GetEffectBatch *)
Definition GetEffectBatch (ref : Ref) : MW W EffectBatch := get TurnEffectsRef ref.

(* src/internal/content/store.go#Store.PutNarration *)
Definition PutNarration (turnEntityID : string) (narration : option Narration) : MW W Ref :=
  put_for_turn TurnNarrationRef turnEntityID n_TurnID narration.
(* src/internal/content/store.go#Store.GetNarration *)
Definition GetNarration (ref : Ref) : MW W Narration := get TurnNarrationRef ref.

(* src/internal/content/store.go#Store.PutFailureDetail *)
Definition PutFailureDetail (turnEntityID : string) (detail : option FailureDetail) : MW W Ref :=
  put_for_turn TurnFailureRef turnEntityID fd_TurnID detail.
(* src/internal/content/store.go#Store.GetFailureDetail *)
Definition GetFailureDetail (ref : Ref) : MW W FailureDetail := get TurnFailureRef ref.
End store.
