(* ===== verification/ProjectionContract.v ===== *)
(** [internal/projectioncontract]: the named predicate groups every graph
    update is addressed to. A group is the unit the substrate replaces. *)

From S2P Require Import Prelude GoStd GoErrors Graph Vocab Vocabulary Payload.

(* src/internal/projectioncontract/contracts.go#type Target *)
Record Target : Type := { Contract : string; Group : string }.

#[export] Instance Target_eq_dec : EqDecision Target.
Proof. solve_decision. Defined.

(* src/internal/projectioncontract/contracts.go#const CampaignBirthContract *)
Definition CampaignBirthContract : string := "campaign-birth".
(* src/internal/projectioncontract/contracts.go#const CampaignStateContract *)
Definition CampaignStateContract : string := "campaign-state".
(* src/internal/projectioncontract/contracts.go#const TurnBirthContract *)
Definition TurnBirthContract : string := "turn-birth".
(* src/internal/projectioncontract/contracts.go#const TurnStateContract *)
Definition TurnStateContract : string := "turn-state".
(* src/internal/projectioncontract/contracts.go#const TurnCompanionTriggerContract *)
Definition TurnCompanionTriggerContract : string := "turn-companion-trigger".
(* src/internal/projectioncontract/contracts.go#const TurnCompanionResultContract *)
Definition TurnCompanionResultContract : string := "turn-companion-result".
(* src/internal/projectioncontract/contracts.go#const PlayerStateContract *)
Definition PlayerStateContract : string := "player-state".
(* src/internal/projectioncontract/contracts.go#const CompanionBondContract *)
Definition CompanionBondContract : string := "companion-bond".
(* src/internal/projectioncontract/contracts.go#const CaseLifecycleContract *)
Definition CaseLifecycleContract : string := "case-lifecycle".
(* src/internal/projectioncontract/contracts.go#const EffectTargetContract *)
Definition EffectTargetContract : string := "effect-target-state".
(* src/internal/projectioncontract/contracts.go#const KnowledgeBirthContract *)
Definition KnowledgeBirthContract : string := "knowledge-birth".
(* src/internal/projectioncontract/contracts.go#const RevelationBirthContract *)
Definition RevelationBirthContract : string := "revelation-birth".

(* src/internal/projectioncontract/contracts.go#var CampaignImport *)
Definition CampaignImport : Target := {| Contract := CampaignStateContract; Group := "import" |}.
(* src/internal/projectioncontract/contracts.go#var TurnPhaseState *)
Definition TurnPhaseState : Target := {| Contract := TurnStateContract; Group := "phase-state" |}.
(* src/internal/projectioncontract/contracts.go#var TurnResume *)
Definition TurnResumeTarget : Target := {| Contract := TurnStateContract; Group := "resume" |}.
(* src/internal/projectioncontract/contracts.go#var TurnVerdict *)
Definition TurnVerdict : Target := {| Contract := TurnStateContract; Group := "verdict" |}.
(* src/internal/projectioncontract/contracts.go#var TurnRoll *)
Definition TurnRoll : Target := {| Contract := TurnStateContract; Group := "roll" |}.
(* src/internal/projectioncontract/contracts.go#var TurnEffectMarker *)
Definition TurnEffectMarker : Target := {| Contract := TurnStateContract; Group := "effect-marker" |}.
(* src/internal/projectioncontract/contracts.go#var TurnAccusation *)
Definition TurnAccusation : Target := {| Contract := TurnStateContract; Group := "accusation" |}.
(* src/internal/projectioncontract/contracts.go#var TurnCaseProgress *)
Definition TurnCaseProgress : Target := {| Contract := TurnStateContract; Group := "case-progress" |}.
(* src/internal/projectioncontract/contracts.go#var TurnKnowledge *)
Definition TurnKnowledge : Target := {| Contract := TurnStateContract; Group := "knowledge" |}.
(* src/internal/projectioncontract/contracts.go#var TurnNarration *)
Definition TurnNarration : Target := {| Contract := TurnStateContract; Group := "narration" |}.
(* src/internal/projectioncontract/contracts.go#var TurnCaseDecision *)
Definition TurnCaseDecision : Target := {| Contract := TurnStateContract; Group := "case-decision" |}.
(* src/internal/projectioncontract/contracts.go#var TurnCompanionTrigger *)
Definition TurnCompanionTrigger : Target := {| Contract := TurnCompanionTriggerContract; Group := "trigger" |}.
(* src/internal/projectioncontract/contracts.go#var TurnCompanionResult *)
Definition TurnCompanionResult : Target := {| Contract := TurnCompanionResultContract; Group := "result" |}.
(* src/internal/projectioncontract/contracts.go#var CompanionBondHint *)
Definition CompanionBondHint : Target := {| Contract := CompanionBondContract; Group := "hint" |}.
(* src/internal/projectioncontract/contracts.go#var CaseLifecycleReceipt *)
Definition CaseLifecycleReceipt : Target := {| Contract := CaseLifecycleContract; Group := "lifecycle-receipt" |}.
(* src/internal/projectioncontract/contracts.go#var PlayerCurrentTurn *)
Definition PlayerCurrentTurn : Target := {| Contract := PlayerStateContract; Group := "current-turn" |}.
(* src/internal/projectioncontract/contracts.go#var PlayerResolvedTurn *)
Definition PlayerResolvedTurnTarget : Target := {| Contract := PlayerStateContract; Group := "resolved-turn" |}.
(* src/internal/projectioncontract/contracts.go#var EffectTargetAttributes *)
Definition EffectTargetAttributes : Target := {| Contract := EffectTargetContract; Group := "attributes" |}.
(* src/internal/projectioncontract/contracts.go#var EffectTargetStatus *)
Definition EffectTargetStatus : Target := {| Contract := EffectTargetContract; Group := "status" |}.
(* src/internal/projectioncontract/contracts.go#var EffectTargetLocation *)
Definition EffectTargetLocation : Target := {| Contract := EffectTargetContract; Group := "location" |}.
(* src/internal/projectioncontract/contracts.go#var EffectTargetRelationships *)
Definition EffectTargetRelationships : Target := {| Contract := EffectTargetContract; Group := "relationships" |}.

(** [projection.Contract], the fields the engine reads back. *)
Record ContractSpec : Type := {
  c_Name : string;
  c_MessageType : string;
  c_EntityPattern : string;
  c_BirthPredicates : list string;
  c_Groups : list (string * list string)
}.

(* src/internal/projectioncontract/contracts.go#EffectTargetForPredicate *)
Definition EffectTargetForPredicate (predicate : string) : option Target :=
  match AttributeForPredicate predicate with
  | Some _ => Some EffectTargetAttributes
  | None =>
      match RelationForPredicate predicate with
      | Some _ => Some EffectTargetRelationships
      | None =>
          if String.eqb predicate CharacterStatusCurrent then Some EffectTargetStatus
          else if String.eqb predicate WorldLocationCurrent then Some EffectTargetLocation
          else None
      end
  end.

(** The predicates [effectTargetGroups] collects for one target: the map it
    fills in predicate order, read at that target. *)
(* src/internal/projectioncontract/contracts.go:141-145 (effectTargetGroups) *)
Definition effectTargetPredicates (target : Target) : list string :=
  List.filter (fun predicate =>
    match EffectTargetForPredicate predicate with
    | Some t => bool_decide (t = target)
    | None => false
    end) WorldFactPredicates.

(* src/internal/projectioncontract/contracts.go#effectTargetGroups *)
Definition effectTargetGroups : list (string * list string) :=
  map (fun target => (Group target, effectTargetPredicates target))
    [EffectTargetAttributes; EffectTargetStatus; EffectTargetLocation; EffectTargetRelationships].

Definition message_type (category : string) : string :=
  PayloadDomain +:+ "." +:+ category +:+ "." +:+ SchemaVersion.

(* src/internal/projectioncontract/contracts.go#Contracts *)
Definition Contracts : list ContractSpec :=
  let turnPattern := "*.semmachina.*.*.turn.*"%string in
  let worldType := message_type "world_entity" in
  let turnType := message_type CategoryTurnState in
  let campaignType := message_type CategoryCampaignEntity in
  let mk name ty pattern birth groups := {| c_Name := name; c_MessageType := ty;
    c_EntityPattern := pattern; c_BirthPredicates := birth; c_Groups := groups |} in
  [mk CampaignBirthContract campaignType "*.semmachina.*.*.campaign.*"%string
     [CampaignSeedValue; CampaignExperiencePersonaPack; CampaignExperienceMechanicsPack] [];
   mk CampaignStateContract campaignType "*.semmachina.*.*.campaign.*"%string []
     [("import", [CampaignImportCompleted])]%string;
   mk TurnBirthContract turnType turnPattern
     [TurnPhaseCurrent; TurnActionPlayer; TurnActionScene; TurnActionRef] [];
   mk TurnStateContract turnType turnPattern []
     [("phase-state", [TurnPhaseCurrent; TurnFailureReason; TurnFailureRef]);
      ("accusation", [TurnAccusationRef]); ("case-progress", [TurnCaseProgressRef]);
      ("knowledge", [TurnKnowledgeRef]); ("narration", [TurnNarrationRef]);
      ("resume", [TurnResumeAttempts]);
      ("case-decision", [TurnCaseDecisionRef; TurnCaseDecisionKind]);
      ("verdict", [TurnVerdictPlausibility; TurnVerdictRisk; TurnVerdictConsequence;
                   TurnVerdictRequiresRoll; TurnVerdictRef]);
      ("roll", [TurnRollBand; TurnRollTotal; TurnRollRef]);
      ("effect-marker", [TurnEffectsBatch; TurnEffectsRef])]%string;
   mk TurnCompanionTriggerContract turnType turnPattern []
     [("trigger", [TurnCompanionTriggerKind; TurnCompanionTriggerSource])]%string;
   mk TurnCompanionResultContract turnType turnPattern []
     [("result", [TurnCompanionStageRef; TurnCompanionTriggerKind; TurnCompanionTriggerSource;
                  TurnCompanionDecisionRef])]%string;
   mk PlayerStateContract worldType "*.semmachina.*.*.player.*"%string []
     [("current-turn", [PlayerTurnCurrent]); ("resolved-turn", [PlayerTurnResolved])]%string;
   mk CompanionBondContract worldType "*.semmachina.*.*.companion-bond.*"%string []
     [("hint", [CompanionBondHintLevel])]%string;
   mk CaseLifecycleContract worldType "*.semmachina.*.*.case.*"%string []
     [("lifecycle-receipt", [CaseLifecycleEventID; CaseLifecycleEventKindPredicate;
                             CaseLifecycleFromPhase; CaseLifecycleToPhase])]%string;
   mk EffectTargetContract worldType "*.semmachina.*.*.*.*"%string [] effectTargetGroups;
   mk KnowledgeBirthContract (message_type "knowledge_grant_entity") "*.semmachina.*.*.knowledge.*"%string
     [WorldEntityKind; KnowledgeActorHolder; KnowledgeEvidenceRef] [];
   mk RevelationBirthContract (message_type "revelation_receipt_entity")
     "*.semmachina.*.*.revelation.*"%string
     [WorldEntityKind; RevelationEvidenceRef; RevelationActorHolder; RevelationTurnID;
      RevelationSourceActor; RevelationTestimonyRef] []].

(** The first group of that name inside one contract. *)
Definition group_of (name : string) (groups : list (string * list string)) : option (list string) :=
  option_map snd (List.find (fun g => String.eqb (fst g) name) groups).

(** The contract loop: a contract of the right name without the group is passed over. *)
(* src/internal/projectioncontract/contracts.go:157-167 (Predicates) *)
Fixpoint predicates_in (target : Target) (contracts : list ContractSpec) : list string :=
  match contracts with
  | [] => []
  | contract :: rest =>
      if negb (String.eqb (c_Name contract) (Contract target)) then predicates_in target rest
      else match group_of (Group target) (c_Groups contract) with
           | Some predicates => predicates
           | None => predicates_in target rest
           end
  end.

(* src/internal/projectioncontract/contracts.go#Predicates *)
Definition Predicates (target : Target) : list string := predicates_in target Contracts.

(* src/internal/projectioncontract/contracts.go#BirthPredicates *)
Definition BirthPredicates (name : string) : list string :=
  match List.find (fun c => String.eqb (c_Name c) name) Contracts with
  | Some contract => c_BirthPredicates contract
  | None => []
  end.

(** The groups the turn recorder, the dice and the applier write, evaluated. *)
Lemma Predicates_TurnPhaseState :
  Predicates TurnPhaseState = [TurnPhaseCurrent; TurnFailureReason; TurnFailureRef].
Proof. vm_compute. reflexivity. Qed.
Lemma Predicates_TurnResume : Predicates TurnResumeTarget = [TurnResumeAttempts].
Proof. vm_compute. reflexivity. Qed.
Lemma Predicates_TurnRoll : Predicates TurnRoll = [TurnRollBand; TurnRollTotal; TurnRollRef].
Proof. vm_compute. reflexivity. Qed.
Lemma Predicates_TurnEffectMarker : Predicates TurnEffectMarker = [TurnEffectsBatch; TurnEffectsRef].
Proof. vm_compute. reflexivity. Qed.
Lemma Predicates_PlayerCurrentTurn : Predicates PlayerCurrentTurn = [PlayerTurnCurrent].
Proof. vm_compute. reflexivity. Qed.
Lemma Predicates_PlayerResolvedTurn : Predicates PlayerResolvedTurnTarget = [PlayerTurnResolved].
Proof. vm_compute. reflexivity. Qed.

Lemma Predicates_TurnAccusation : Predicates TurnAccusation = [TurnAccusationRef].
Proof. vm_compute. reflexivity. Qed.
Lemma Predicates_TurnCaseProgress : Predicates TurnCaseProgress = [TurnCaseProgressRef].
Proof. vm_compute. reflexivity. Qed.
Lemma Predicates_TurnKnowledge : Predicates TurnKnowledge = [TurnKnowledgeRef].
Proof. vm_compute. reflexivity. Qed.
Lemma Predicates_CaseLifecycleReceipt : Predicates CaseLifecycleReceipt =
  [CaseLifecycleEventID; CaseLifecycleEventKindPredicate; CaseLifecycleFromPhase; CaseLifecycleToPhase].
Proof. vm_compute. reflexivity. Qed.

Create HintDb contracts.
#[export] Hint Rewrite Predicates_TurnPhaseState Predicates_TurnResume Predicates_TurnRoll
  Predicates_TurnEffectMarker Predicates_PlayerCurrentTurn Predicates_PlayerResolvedTurn
  Predicates_TurnAccusation Predicates_TurnCaseProgress Predicates_TurnKnowledge
  Predicates_CaseLifecycleReceipt : contracts.

(** Membership of a predicate in a target's group is decided by evaluation. *)
Ltac in_target := apply mem_true; vm_compute; reflexivity.
Ltac not_in_target := apply mem_false; vm_compute; reflexivity.
