(* ===== verification/Store.v ===== *)
(** The graph store the engine's components are written against: its
    operations as a type class, and the contract they promise as another. The
    clients' theorems use only the contract; [GraphIO] proves that the
    engine's own client of the substrate honours it, and [MemStore] gives an
    executable instance. *)

From S2P Require Import Prelude GoStd GoErrors Graph Vocab Vocabulary Payload ProjectionContract.

Open Scope Z_scope.

(* src/internal/graphio/store.go#var ErrEntityExists *)
Definition ErrEntityExists : string := "graph entity already exists".
(* src/internal/graphio/store.go#var ErrEntityNotFound *)
Definition ErrEntityNotFound : string := "graph entity not found".

(** The kinds of [projection.MutationError] the store distinguishes, and the
    classified code of a missing entity. *)
Definition MutationConflict : string := "conflict".
Definition MutationNotFound : string := "not-found".
Definition MutationCommitUnknown : string := "commit-unknown".
Definition MutationRevisionConflict : string := "revision-conflict".
(** ... and what it knows of the write: it did not commit, or nobody can tell. *)
Definition CommitNotCommitted : string := "not-committed".
Definition CommitUnknownState : string := "unknown".
Definition ErrorCodeEntityNotFound : string := "entity_not_found".

(** [errors.As(err, &mutationErr) && mutationErr.Kind == kind]. *)
Definition mutation_kind (kind : string) (err : error) : bool :=
  match errors_As is_MutationError err with
  | Some (MutationError k _ _) => String.eqb k kind
  | _ => false
  end.

(** ** Revision conflicts ([internal/graphio/retry.go]) *)

(* src/internal/graphio/retry.go#isRevisionConflict *)
Definition isRevisionConflict (err : error) : bool :=
  match errors_As is_MutationError err with
  | Some (MutationError kind commit _) =>
      String.eqb kind MutationRevisionConflict && String.eqb commit CommitNotCommitted
  | _ => false
  end.

(* src/internal/graphio/retry.go#const revisionConflictAttempts *)
Definition revisionConflictAttempts : nat := 4.

(** The [context.Context] of a call: an error once it is cancelled. *)
Class Ctx (W : Type) : Type := { ctx_Err : MW W unit }.

(** The loop, with [n] attempts left and [last] the answer of the previous one. *)
(* src/internal/graphio/retry.go:23-33 (RetryRevisionConflict) *)
Fixpoint retry_loop {W} `{Ctx W} (operation : MW W unit) (n : nat) (last : res unit) : MW W unit :=
  match n with
  | O => lift last
  | S n =>
      _ ← ctx_Err;
      last ← attempt operation;
      match last with
      | Ok _ => mret tt
      | Err err => if isRevisionConflict err then retry_loop operation n last else throw err
      end
  end.

(* src/internal/graphio/retry.go#RetryRevisionConflict *)
Definition RetryRevisionConflict {W} `{Ctx W} (operation : MW W unit) : MW W unit :=
  retry_loop operation revisionConflictAttempts (Ok tt).

(* src/internal/turn/recorder.go#type Store *)
Class GraphStore (W : Type) : Type := {
  CreateEntity : string -> EntityState -> MW W (option EntityState * Z);
  GetEntity : string -> MW W EntityState;
  Reconcile : Target -> string -> list Triple -> MW W EntityState
}.

(** The injected [now func() time.Time]. *)
Class Clock (W : Type) : Type := { now : W -> time * W }.

Definition read_clock {W} `{Clock W} : MW W time := fun w => let '(t, w') := now w in (Ok t, w').

(** The graph a world holds. *)
Class HasGraph (W : Type) : Type := { graph_of : W -> graph }.

(** [e] is [e0] after the complete [group] was replaced by [desired]. *)
Definition reconciled (group : list string) (desired : list Triple) (e0 e : EntityState) : Prop :=
  ID e = ID e0 /\
  other_triples group (Triples e) = other_triples group (Triples e0) /\
  group_triples group (Triples e) ≡ₚ desired.

(** [e] is what a create of [want] stores: its triples, re-contextualised, and
    the substrate's own indexing fact. *)
Definition born `{Substrate} (want e : EntityState) : Prop :=
  ID e = ID want /\
  forall p, p <> EntityIndexingProfile -> objectsFor e p ≡ₚ objectsFor want p.

Lemma reconciled_in group desired e0 e p :
  reconciled group desired e0 e -> p ∈ group ->
  objectsFor e p ≡ₚ map Object (triplesFor p desired).
Proof.
  intros (_ & _ & Hd) Hp. unfold objectsFor.
  rewrite <- (triplesFor_group_in p group (Triples e)) by done. by apply objects_perm.
Qed.

Lemma reconciled_out group desired e0 e p :
  reconciled group desired e0 e -> p ∉ group -> objectsFor e p = objectsFor e0 p.
Proof.
  intros (_ & Ho & _) Hp. unfold objectsFor.
  rewrite <- (triplesFor_other_out p group (Triples e)), <- (triplesFor_other_out p group (Triples e0)) by done.
  by rewrite Ho.
Qed.

(** The objects an entity of the graph records for a predicate; [None] when
    there is no such entity. *)
Definition objects_in (g : graph) (id p : string) : option (list any) :=
  (fun e => objectsFor e p) <$> g !! id.

(** Every entity records for [p] exactly what it recorded before. *)
Definition keeps (p : string) (g g' : graph) : Prop :=
  forall id, objects_in g' id p = objects_in g id p.

#[export] Instance keeps_preorder p : PreOrder (keeps p).
Proof. split; [done|]. intros g1 g2 g3 H12 H23 id. by rewrite H23, H12. Qed.

Section contract.
Context {W : Type} `{Substrate, HasGraph W, GraphStore W, Clock W}.

Definition reconcile_effect (target : Target) (id : string) (desired : list Triple)
    (g g' : graph) : Prop :=
  exists e0 e, g !! id = Some e0 /\ reconciled (Predicates target) desired e0 e /\ g' = <[id := e]> g.

Lemma reconcile_keeps target id desired g g' p :
  reconcile_effect target id desired g g' -> p ∉ Predicates target -> keeps p g g'.
Proof.
  intros (e0 & e & Hg & Hr & ->) Hp id'. unfold objects_in. rewrite lookup_insert.
  case_decide as Heq; [subst|done]. rewrite Hg. cbn. by rewrite (reconciled_out _ _ _ _ _ Hr Hp).
Qed.

Lemma reconcile_other target id desired g g' id' :
  reconcile_effect target id desired g g' -> id' <> id -> g' !! id' = g !! id'.
Proof. intros (e0 & e & _ & _ & ->) Hne. by rewrite lookup_insert_ne. Qed.

Lemma reconcile_writes target id desired g g' p :
  reconcile_effect target id desired g g' -> p ∈ Predicates target ->
  exists l, objects_in g' id p = Some l /\ l ≡ₚ map Object (triplesFor p desired).
Proof.
  intros (e0 & e & Hg & Hr & ->) Hp. unfold objects_in. rewrite lookup_insert_eq.
  eexists. split; [done|]. by apply (reconciled_in _ _ _ _ _ Hr).
Qed.

(** A create writes nothing, or writes the newborn entity where there was none. *)
Definition create_effect (want : EntityState) (g g' : graph) : Prop :=
  g' = g \/ (g !! ID want = None /\ exists e, born want e /\ g' = <[ID want := e]> g).

Class GraphStoreLaws : Prop := {
  GetEntity_spec id w :
    wp (GetEntity id) (fun r w' => graph_of w' = graph_of w /\
      match r with
      | Ok e => graph_of w !! id = Some e
      | Err err => errors_Is ErrEntityNotFound err = true -> graph_of w !! id = None
      end) w;
  Reconcile_spec target id desired w :
    wp (Reconcile target id desired) (fun r w' =>
      match r with
      | Ok e => reconcile_effect target id desired (graph_of w) (graph_of w') /\
                graph_of w' !! id = Some e
      | Err _ => graph_of w' = graph_of w \/ reconcile_effect target id desired (graph_of w) (graph_of w')
      end) w;
  CreateEntity_spec contract want w :
    wp (CreateEntity contract want) (fun r w' =>
      match r with
      | Ok (Some e, _) => born want e /\ graph_of w' !! ID want = Some e /\
          create_effect want (graph_of w) (graph_of w')
      | Ok (None, _) => create_effect want (graph_of w) (graph_of w')
      | Err err =>
          create_effect want (graph_of w) (graph_of w') /\
          (errors_Is ErrEntityExists err = true ->
           graph_of w' = graph_of w /\ is_Some (graph_of w !! ID want))
      end) w;
  now_spec w : graph_of (now w).2 = graph_of w
}.

Lemma read_clock_spec `{GraphStoreLaws} (Q : res time -> W -> Prop) w :
  (forall t w', graph_of w' = graph_of w -> Q (Ok t) w') -> wp read_clock Q w.
Proof.
  intros HQ. unfold wp, read_clock. pose proof (now_spec w).
  destruct (now w) as [t w']; cbn in *. by apply HQ.
Qed.
End contract.
Arguments GraphStoreLaws W {_ _ _ _}.
