(* ===== verification/Campaign.v ===== *)
(** [internal/campaign]: the campaign seed, the claim that instantiates a
    campaign exactly once, and the marker that its world import finished. *)

From stdpp Require Import relations.
From S2P Require Import Prelude GoStd GoHash GoErrors Graph Vocab Vocabulary Payload ProjectionContract Store.

Open Scope Z_scope.

(** ** The seed *)

(* src/internal/campaign/seed.go#const SeedBytes *)
Definition SeedBytes : nat := 32.

(** [[32]byte], as its bytes. *)
(* src/internal/campaign/seed.go#type Seed *)
Definition Seed : Type := list Z.

Definition Seed_wf (s : Seed) : Prop := List.length s = SeedBytes /\ bytes_ok s.

Definition zero_Seed : Seed := repeat 0 SeedBytes.

(* src/internal/campaign/seed.go#Seed.IsZero *)
Definition Seed_IsZero (s : Seed) : bool := bool_decide (s = zero_Seed).

(** [read] is what [rand.Read] left in the 32-byte buffer. *)
(* src/internal/campaign/seed.go#NewSeed *)
Definition NewSeed (read : res Seed) : res Seed :=
  match read with
  | Err err => Err (Errorf "generate campaign seed" [err])
  | Ok seed =>
      if Seed_IsZero seed then Err (Errorf "generated campaign seed is all zeroes" [])
      else Ok seed
  end.

(* src/internal/campaign/seed.go#ParseSeed *)
Definition ParseSeed (s : string) : res Seed :=
  if String.eqb s EmptyString then Err (Errorf "campaign seed is empty" [])
  else
    match DecodeString s with
    | None => Err (Errorf "campaign seed is not hex" [])
    | Some raw =>
        if negb (Nat.eqb (List.length raw) SeedBytes) then
          Err (Errorf "campaign seed has the wrong length" [])
        else if Seed_IsZero raw then
          Err (Errorf "campaign seed is all zeroes, which is the value an ungenerated seed has" [])
        else Ok raw
    end.

(* src/internal/campaign/seed.go#Seed.String *)
Definition Seed_String (s : Seed) : string := EncodeToString s.

(* src/internal/campaign/seed.go#Seed.Bytes *)
Definition Seed_Bytes (s : Seed) : list Z := s.

(** ** Identity and experience *)

(* src/internal/campaign/identity.go#const TypeSegment *)
Definition CampaignTypeSegment : string := "campaign".
(* src/internal/campaign/identity.go#const InstanceSegment *)
Definition InstanceSegment : string := "main".

(* src/internal/campaign/identity.go#type Identity *)
Record CampaignIdentity : Type := { c_Org : string; c_WorldNS : string; c_Template : string }.

(* src/internal/campaign/experience.go#var ErrExperienceMigrationRequired *)
Definition ErrExperienceMigrationRequired : string :=
  "campaign experience provenance requires migration".
(* src/internal/campaign/experience.go#var ErrExperienceMismatch *)
Definition ErrExperienceMismatch : string :=
  "requested campaign experience does not match recorded provenance".

(* src/internal/campaign/experience.go#type Experience *)
Record Experience : Type := { PersonaPack : string; MechanicsPack : string }.

#[export] Instance Experience_eq_dec : EqDecision Experience.
Proof. solve_decision. Defined.

Section identity.
Context `{Substrate}.

(* src/internal/campaign/identity.go#Identity.Validate *)
Definition CampaignIdentity_Validate (i : CampaignIdentity) : res unit :=
  _ ← wrapf "campaign org" (ValidateIDSegment (c_Org i));
  _ ← wrapf "campaign world namespace" (ValidateIDSegment (c_WorldNS i));
  wrapf "campaign template" (ValidateIDSegment (c_Template i)).

(* src/internal/campaign/identity.go#Identity.EntityID *)
Definition CampaignEntityID (i : CampaignIdentity) : res string :=
  _ ← CampaignIdentity_Validate i;
  ComposeEntityID (c_Org i) (c_WorldNS i) (c_Template i) CampaignTypeSegment InstanceSegment.

(* src/internal/campaign/experience.go#Experience.Validate *)
Definition Experience_Validate (e : Experience) : res unit :=
  _ ← wrapf "persona pack" (ValidateIDSegment (PersonaPack e));
  wrapf "mechanics pack" (ValidateIDSegment (MechanicsPack e)).
End identity.

(** ** The gate *)

(* src/internal/campaign/gate.go#const InstantiationSource *)
Definition InstantiationSource : string := "campaign-instantiation".
(* src/internal/campaign/marker.go#const MarkerSource *)
Definition MarkerSource : string := "world-import".

(* src/internal/campaign/marker.go#var ErrImportInterrupted *)
Definition ErrImportInterrupted : string :=
  "the campaign was claimed but its world import never completed".

(* src/internal/campaign/gate.go#var EntityMessageType *)
Definition CampaignEntityMessageType : MessageType :=
  {| Domain := PayloadDomain; Category := CategoryCampaignEntity; Version_ := SchemaVersion |}.

(* src/internal/campaign/gate.go#type instantiationSnapshot *)
Record instantiationSnapshot : Type := {
  s_campaignID : string; s_seed : Seed; s_experience : Experience; s_fresh : bool }.

#[export] Instance instantiationSnapshot_eq_dec : EqDecision instantiationSnapshot.
Proof. solve_decision. Defined.

(* src/internal/campaign/gate.go#type instantiationProof *)
Record instantiationProof : Type := { snapshot_ : instantiationSnapshot; sealed : bool }.

(* src/internal/campaign/gate.go#type Instantiation *)
Record Instantiation : Type := {
  i_CampaignID : string; i_Seed : Seed; i_Experience : Experience; i_Fresh : bool;
  i_proof : instantiationProof }.

(* src/internal/campaign/gate.go#Instantiation.snapshot *)
Definition snapshot (i : Instantiation) : instantiationSnapshot :=
  {| s_campaignID := i_CampaignID i; s_seed := i_Seed i; s_experience := i_Experience i;
     s_fresh := i_Fresh i |}.

(* src/internal/campaign/gate.go#newInstantiation *)
Definition newInstantiation (campaignID : string) (seed : Seed) (experience : Experience)
    (fresh : bool) : Instantiation :=
  let snap := {| s_campaignID := campaignID; s_seed := seed; s_experience := experience;
                 s_fresh := fresh |} in
  {| i_CampaignID := campaignID; i_Seed := seed; i_Experience := experience; i_Fresh := fresh;
     i_proof := {| snapshot_ := snap; sealed := true |} |}.

(* src/internal/campaign/gate.go#Instantiation.hasValidProof *)
Definition hasValidProof (i : Instantiation) : bool :=
  sealed (i_proof i) && bool_decide (snapshot_ (i_proof i) = snapshot i).

(* src/internal/campaign/gate.go#predicateObjects *)
Definition predicateObjects (state : EntityState) (predicate : string) : list any :=
  map Object (List.filter (fun t => String.eqb (Predicate t) predicate) (Triples state)).

(* src/internal/campaign/gate.go#validateCampaignEntity *)
Definition validateCampaignEntity (state : option EntityState) (campaignID : string)
    : res EntityState :=
  match state with
  | None => Err (Errorf "campaign entity read back as nil" [])
  | Some state => Ok state
  end.

(* src/internal/campaign/gate.go#seedFromEntity *)
Definition seedFromEntity (state : option EntityState) (campaignID : string) : res Seed :=
  state ← validateCampaignEntity state campaignID;
  match predicateObjects state CampaignSeedValue with
  | [] => Err (Errorf "campaign entity carries no seed triple" [])
  | [AString value] => wrapf "campaign entity" (ParseSeed value)
  | [_] => Err (Errorf "campaign entity carries a seed value that is not a hex string" [])
  | _ => Err (Errorf "campaign entity holds several seeds; its seed is ambiguous" [])
  end.

Section gate.
Context `{Substrate}.

(* src/internal/campaign/gate.go#instantiationFromEntity *)
Definition instantiationFromEntity (state : option EntityState) (campaignID : string)
    : res (Seed * Experience) :=
  entity ← validateCampaignEntity state campaignID;
  seed ← seedFromEntity state campaignID;
  match predicateObjects entity CampaignExperiencePersonaPack,
        predicateObjects entity CampaignExperienceMechanicsPack with
  | [], [] => Err (Errorf "campaign entity has no experience provenance"
                     [Sentinel ErrExperienceMigrationRequired])
  | [], _ | _, [] => Err (Errorf "campaign entity has partial experience provenance" [])
  | _ :: _ :: _, _ => Err (Errorf "several persona packs; experience provenance is ambiguous" [])
  | _, _ :: _ :: _ => Err (Errorf "several mechanics packs; experience provenance is ambiguous" [])
  | [AString personaPack], [AString mechanicsPack] =>
      let experience := {| PersonaPack := personaPack; MechanicsPack := mechanicsPack |} in
      _ ← wrapf "malformed experience provenance" (Experience_Validate experience);
      Ok (seed, experience)
  | _, _ => Err (Errorf "malformed experience provenance: a pack is not a string" [])
  end.

(* src/internal/campaign/gate.go#Gate.confirmStoredInstantiation *)
Definition confirmStoredInstantiation (campaignID : string) (stored : option EntityState)
    (minted : Seed) (requested : Experience) : res unit :=
  match instantiationFromEntity stored campaignID with
  | Err err => Err (Errorf "campaign was created but its provenance did not store" [err])
  | Ok (readBackSeed, readBackExperience) =>
      if negb (bool_decide (readBackSeed = minted)) then
        Err (Errorf "campaign stored a different seed than the one it was created with" [])
      else if negb (bool_decide (readBackExperience = requested)) then
        Err (Errorf "campaign stored another experience than the requested one" [])
      else Ok tt
  end.

(* src/internal/campaign/gate.go#Gate.entity *)
Definition gate_entity (campaignID : string) (seed : Seed) (experience : Experience) (at_ : time)
    : EntityState :=
  let triple predicate object := {|
    Subject := campaignID; Predicate := predicate; Object := AString object;
    Source := InstantiationSource; Timestamp := at_; Confidence := float_one;
    Context_ := campaignID; Datatype := EmptyString; ExpiresAt := None |} in
  {| ID := campaignID; MsgType := CampaignEntityMessageType; EVersion := 1; UpdatedAt := at_;
     StorageRef := None;
     Triples := [triple CampaignSeedValue (Seed_String seed);
                 triple CampaignExperiencePersonaPack (PersonaPack experience);
                 triple CampaignExperienceMechanicsPack (MechanicsPack experience)] |}.
End gate.

(** The gate's injected seed source, [func() (Seed, error)]. *)
Class Minter (W : Type) : Type := { newSeed : MW W Seed }.

(** [time.Format] and [time.Parse] at [time.RFC3339Nano]. *)
Class TimeText : Type := {
  FormatRFC3339Nano : time -> string;
  ParseRFC3339Nano : string -> option time
}.

(** [select] over the context and [time.After]: the wait between two polls. *)
Class Waits (W : Type) : Type := { pause : Z -> MW W unit }.

(* src/internal/campaign/marker.go#completionFromEntity *)
Definition completionFromEntity `{TimeText} (state : option EntityState) (campaignID : string)
    : res (time * bool) :=
  match state with
  | None => Err (Errorf "campaign entity read back as nil" [])
  | Some state =>
      match predicateObjects state CampaignImportCompleted with
      | [] => Ok (0, false)
      | [AString value] =>
          match ParseRFC3339Nano value with
          | None => Err (Errorf "campaign entity records a value that is not an RFC3339 instant" [])
          | Some at_ => Ok (at_, true)
          end
      | [_] => Err (Errorf "campaign entity records a value that is not a string" [])
      | _ => Err (Errorf "campaign entity holds several import markers" [])
      end
  end.

Section operations.
Context {W : Type} `{Substrate, TimeText, GraphStore W, Clock W, Minter W, Waits W}.
Variable campaignID : string.

(* src/internal/campaign/gate.go#Gate.Claim *)
Definition Claim (requested : Experience) : MW W Instantiation :=
  _ ← lift (wrapf "claim campaign with invalid experience" (Experience_Validate requested));
  seed ← newSeed;
  if Seed_IsZero seed then throw (Errorf "campaign seed source produced the zero seed" [])
  else
    at_ ← read_clock;
    result ← attempt (CreateEntity CampaignBirthContract (gate_entity campaignID seed requested at_));
    match result with
    | Ok (stored, _) =>
        _ ← lift (confirmStoredInstantiation campaignID stored seed requested);
        mret (newInstantiation campaignID seed requested true)
    | Err err =>
        if errors_Is ErrEntityExists err then
          loaded ← attempt (GetEntity campaignID);
          match loaded with
          | Err loadErr =>
              throw (Errorf "campaign exists but its provenance is unreadable" [loadErr])
          | Ok state =>
              match instantiationFromEntity (Some state) campaignID with
              | Err parseErr =>
                  throw (Errorf "campaign exists but its provenance is unreadable" [parseErr])
              | Ok (storedSeed, storedExperience) =>
                  if negb (bool_decide (storedExperience = requested)) then
                    throw (Errorf "experience mismatch" [Sentinel ErrExperienceMismatch])
                  else mret (newInstantiation campaignID storedSeed storedExperience false)
              end
          end
        else throw err
    end.

(* src/internal/campaign/gate.go#Gate.LoadSeed *)
Definition LoadSeed : MW W Seed :=
  state ← GetEntity campaignID;
  lift (seedFromEntity (Some state) campaignID).

(* src/internal/campaign/marker.go#Gate.MarkImported *)
Definition MarkImported (claim : Instantiation) : MW W time :=
  if negb (sealed (i_proof claim)) then
    throw (Errorf "refusing to mark campaign imported: not out of Claim" [])
  else if negb (hasValidProof claim) then
    throw (Errorf "refusing to mark campaign imported: does not match its proof" [])
  else if negb (i_Fresh claim) then
    throw (Errorf "refusing to mark campaign imported: the claim did not create it" [])
  else if negb (String.eqb (i_CampaignID claim) campaignID) then
    throw (Errorf "refusing to mark campaign imported: a claim on another campaign" [])
  else
    at_ ← read_clock;
    let triple := {|
      Subject := campaignID; Predicate := CampaignImportCompleted;
      Object := AString (FormatRFC3339Nano at_); Source := MarkerSource; Timestamp := at_;
      Confidence := float_one; Context_ := campaignID; Datatype := EmptyString; ExpiresAt := None |} in
    written ← attempt (Reconcile CampaignImport campaignID [triple]);
    match written with
    | Err err => throw (Errorf "record the import-completion marker" [err])
    | Ok _ => mret at_
    end.

(* src/internal/campaign/marker.go#Gate.ImportCompletion *)
Definition ImportCompletion : MW W (time * bool) :=
  state ← GetEntity campaignID;
  lift (completionFromEntity (Some state) campaignID).

(** The polling loop; [None] is a loop that is still running when the fuel ends. *)
(* src/internal/campaign/marker.go:155-177 (Gate.AwaitImportCompletion) *)
Fixpoint awaitLoop (fuel : nat) (deadline poll : Z) : MW W (option time) :=
  match fuel with
  | O => mret None
  | S fuel =>
      completion ← ImportCompletion;
      let '(at_, marked) := completion in
      if marked : bool then mret (Some at_)
      else
        t ← read_clock;
        if negb (t <? deadline) then
          throw (Errorf "no import marker for the whole wait" [Sentinel ErrImportInterrupted])
        else
          _ ← pause poll;
          awaitLoop fuel deadline poll
  end.

(* src/internal/campaign/marker.go#Gate.AwaitImportCompletion *)
Definition AwaitImportCompletion (fuel : nat) (wait poll : Z) : MW W (option time) :=
  if (wait <=? 0) || (poll <=? 0) then
    throw (Errorf "waiting for the import marker requires a positive bound and interval" [])
  else
    start ← read_clock;
    awaitLoop fuel (start + wait) poll.
End operations.
