(* ===== verification/Dice.v ===== *)
(** [internal/dice]: the seeded roller and the resolver that rolls a turn once
    and re-derives the same roll ever after. *)

From S2P Require Import Prelude GoStd GoHash GoErrors Graph Vocab Vocabulary Payload Mechanics ProjectionContract Store Campaign.

Open Scope Z_scope.

(* src/internal/dice/roller.go#const RNGVersion *)
Definition RNGVersion : string := RNGPCGV1.
(* src/internal/dice/roller.go#const Source *)
Definition DiceSource : string := "dice".

(** The bytes of a Go string. *)
Fixpoint bytes_of (s : string) : list Z :=
  match s with EmptyString => [] | String c rest => byte_of c :: bytes_of rest end.

(** [rand.NewPCG] over the first sixteen bytes of the digest. *)
(* src/internal/dice/roller.go:142-145 (Roller.roll) *)
Definition generator_of (digest : list Z) : PCG :=
  NewPCG (be_combine (take 8 digest)) (be_combine (take 8 (drop 8 digest))).

(** The loop of [Roller.roll]: [n] more dice, drawn in order. *)
(* src/internal/dice/roller.go:147-151 (Roller.roll) *)
Fixpoint roll_dice (n : nat) (faces : Z) (generator : PCG) (total : Z) : list Z * Z :=
  match n with
  | O => ([], total)
  | S n =>
      let '(draw, generator) := Uint64 generator in
      let die := draw mod faces + 1 in
      let '(rest, total) := roll_dice n faces generator (int_add total die) in
      (die :: rest, total)
  end.

(* src/internal/dice/roller.go#Roller.roll *)
Definition roll (spec : MechanicSpec) (digest : list Z) : list Z * Z :=
  roll_dice (Z.to_nat (Vocabulary.Dice spec)) (Faces spec) (generator_of digest) 0.

Section dice.
Context `{Substrate}.

(* src/internal/dice/roller.go#SeedFor *)
Definition SeedFor (campaignSeed : Seed) (turnID : string) : res (list Z) :=
  if Seed_IsZero campaignSeed then Err (Errorf "campaign seed is the zero value" [])
  else
    _ ← wrapf "turn id" (ValidateIDSegment turnID);
    Ok (sha256 (Seed_Bytes campaignSeed ++ bytes_of turnID)).

(** A [Roller] is the mechanic's specification. *)
(* src/internal/dice/roller.go#NewRoller *)
Definition NewRoller (mechanic : string) : res MechanicSpec := MechanicSpecFor mechanic.

(* src/internal/dice/roller.go#Roller.Roll *)
Definition Roll (spec : MechanicSpec) (campaignSeed : Seed) (campaignID turnID : string)
    (modifiers : list Modifier) : res RollResult :=
  digest ← SeedFor campaignSeed turnID;
  let '(dice, diceTotal) := roll spec digest in
  let modifierTotal := SumModifiers modifiers in
  let total := int_add diceTotal modifierTotal in
  let result := {|
    r_TurnID := turnID; r_Mechanic := Mechanic spec; r_RNGVersion := RNGVersion;
    r_Seed := {| ss_CampaignID := campaignID; ss_TurnID := turnID |};
    r_Dice := dice; r_Modifiers := modifiers; r_ModifierTotal := modifierTotal;
    r_Total := total; r_Band := BandForTotal spec total |} in
  _ ← wrapf "dice produced a record that fails its own contract" (RollResult_Validate result);
  Ok result.
End dice.

(** ** The resolver *)

(* src/internal/dice/resolver.go#var ErrNoRollRequired *)
Definition ErrNoRollRequired : string := "verdict reports no roll".

(* src/internal/dice/resolver.go#type Resolver *)
Record Resolver : Type := { rv_roller : MechanicSpec; rv_campaignID : string; rv_seed : Seed }.

(* src/internal/dice/resolver.go#NewResolver *)
Definition NewResolver (roller : option MechanicSpec) (reader : bool) (instantiation : Instantiation)
    : res Resolver :=
  match roller with
  | None => Err (Errorf "resolver requires a roller" [])
  | Some roller =>
      if negb reader then Err (Errorf "resolver requires a turn reader" [])
      else if Seed_IsZero (i_Seed instantiation) then Err (Errorf "resolver requires a campaign seed" [])
      else if String.eqb (i_CampaignID instantiation) EmptyString then
        Err (Errorf "resolver requires a campaign id" [])
      else Ok {| rv_roller := roller; rv_campaignID := i_CampaignID instantiation;
                 rv_seed := i_Seed instantiation |}
  end.

(* src/internal/dice/resolver.go#type Resolution *)
Record Resolution : Type := { rs_Roll : RollResult; rs_Rolled : bool }.

(* src/internal/dice/resolver.go#type recordedRollState *)
Record recordedRollState : Type := { rr_band : string; rr_total : Z }.

Section resolver.
Context `{Substrate}.

(* src/internal/dice/resolver.go#recordedRoll *)
Definition recordedRoll (state : EntityState) : res (option recordedRollState) :=
  let bands := objectsFor state TurnRollBand in
  let totals := objectsFor state TurnRollTotal in
  let refs := objectsFor state TurnRollRef in
  if existsb (fun objects : list any => Nat.ltb 1 (List.length objects)) [bands; totals; refs] then
    Err (Errorf "holds several values for a single-valued roll predicate" [])
  else
    match List.length (List.filter (fun objects : list any => Nat.eqb (List.length objects) 1)
                         [bands; totals; refs]) with
    | 0%nat => Ok None
    | 3%nat =>
        match bands with
        | AString band :: _ =>
            match totals with
            | object :: _ =>
                match asInt object with
                | Some total => Ok (Some {| rr_band := band; rr_total := total |})
                | None => Err (Errorf "records a total that is not a number" [])
                end
            | [] => Err (Errorf "index out of range" []) (* excluded: one of each *)
            end
        | _ => Err (Errorf "records a band that is not a string" [])
        end
    | _ => Err (Errorf "carries some of the 3 roll predicates" [])
    end.

(* src/internal/dice/resolver.go#recordedRollState.agreesWith *)
Definition agreesWith (s : recordedRollState) (r : RollResult) : res unit :=
  if negb (String.eqb (rr_band s) (r_Band r)) || negb (rr_total s =? r_Total r) then
    Err (Errorf "the recorded roll is no longer reproducible" [])
  else Ok tt.

Context {W : Type} `{GraphStore W}.

(* src/internal/dice/resolver.go#Resolver.Resolve *)
Definition Resolve (r : Resolver) (verdict : option Verdict) (turnEntityID : string)
    : MW W Resolution :=
  match verdict with
  | None => throw (Errorf "resolve requires a verdict" [])
  | Some verdict =>
      _ ← lift (Verdict_Validate verdict);
      _ ← lift (RequireTurnEntityID (v_TurnID verdict) turnEntityID);
      if negb (v_RequiresRoll (v_Scalars verdict)) then
        throw (Errorf "turn" [Sentinel ErrNoRollRequired])
      else
        read ← attempt (GetEntity turnEntityID);
        match read with
        | Err err => throw (Errorf "read turn entity" [err])
        | Ok state =>
            derived ← lift (Roll (rv_roller r) (rv_seed r) (rv_campaignID r) (v_TurnID verdict)
                              (v_Modifiers verdict));
            match recordedRoll state with
            | Err err => throw (Errorf "turn entity" [err])
            | Ok None => mret {| rs_Roll := derived; rs_Rolled := true |}
            | Ok (Some recorded) =>
                match agreesWith recorded derived with
                | Err err => throw (Errorf "turn entity" [err])
                | Ok _ => mret {| rs_Roll := derived; rs_Rolled := false |}
                end
            end
        end
  end.
End resolver.
