(* ===== verification/Effect.v ===== *)
(** [internal/effect]: the applier. It plans a whole batch against the graph it
    reads, refuses the batch before writing anything if one intent is illegal,
    then commits the plan and its marker. *)

From S2P Require Import Prelude GoStd GoErrors Graph Vocab Vocabulary Payload Mechanics ProjectionContract Store.

Open Scope Z_scope.

(* src/internal/effect/applier.go#const Source *)
Definition EffectSource : string := "effect-applier".

(** ** Violations *)

(* src/internal/effect/plan.go#type violation *)
Record violation : Type := { vi_code : string; vi_err : error }.

(* src/internal/effect/plan.go#invalid *)
Definition invalid (message : string) : violation :=
  {| vi_code := FailureEffectInvalid; vi_err := Errorf message [] |}.
(* src/internal/effect/plan.go#missing *)
Definition missing (message : string) : violation :=
  {| vi_code := FailureEffectEntityMissing; vi_err := Errorf message [] |}.
(* src/internal/effect/plan.go#wrongKind *)
Definition wrongKind (message : string) (wrapped : list error) : violation :=
  {| vi_code := FailureEffectEntityKind; vi_err := Errorf message wrapped |}.

(** Programs that fail with a violation. *)
Abbreviation MV := (M violation).

(** ** Planned writes *)

(* src/internal/effect/plan.go#type entityView *)
Record entityView : Type := { ev_state : EntityState; ev_kind : string }.

(* src/internal/effect/plan.go#entityView.triplesFor *)
Definition view_triplesFor (v : entityView) (predicate : string) : list Triple :=
  List.filter (fun t => String.eqb (Predicate t) predicate) (Triples (ev_state v)).

(** The resolver's cache. *)
(* src/internal/effect/plan.go#type resolver *)
Abbreviation seen_map := (gmap string entityView).

(* src/internal/effect/plan.go#type objectWrite *)
Record objectWrite : Type := { ow_object : any; ow_resident : option Triple }.

(* src/internal/effect/plan.go#type predicateWrite *)
Record predicateWrite : Type := mkPredicateWrite {
  pw_predicate : string;
  pw_objects : list objectWrite;
  pw_reference : bool;
  pw_multi : bool;
  pw_named : list string
}.

(* src/internal/effect/plan.go#type targetWrite *)
Record targetWrite : Type := mkTargetWrite {
  tw_entityID : string;
  tw_resident : option EntityState;
  tw_order : list string;
  tw_writes : gmap string predicateWrite
}.

(* src/internal/effect/plan.go#type plan *)
Record plan : Type := mkPlan { pl_order : list string; pl_targets : gmap string targetWrite }.

(* src/internal/effect/plan.go#type projectionWrite *)
Record projectionWrite : Type := { pr_target : Target; pr_triples : list Triple }.

(** The target of [built.target(entityID)]: the planned one, or a new one. *)
(* src/internal/effect/plan.go#plan.target *)
Definition plan_target (p : plan) (entityID : string) : targetWrite * plan :=
  match pl_targets p !! entityID with
  | Some existing => (existing, p)
  | None =>
      let write := mkTargetWrite entityID None [] ∅ in
      (write, mkPlan (pl_order p ++ [entityID]) (<[entityID := write]> (pl_targets p)))
  end.

Section plan.
Context `{Substrate}.

(** [fmt.Sprint], the key two objects of one batch are compared by. *)
Definition Sprint (object : any) : string :=
  match object with
  | AString s => s
  | AInt z | AInt64 z => pretty z
  | ABool b => if b then "true" else "false"
  | ANil => "<nil>"
  | ANumber text => text
  | AFloat64 _ | AOther _ => Sprint_other object
  end.

(* src/internal/effect/plan.go#withObject *)
Definition withObject (objects : list objectWrite) (key : string) (object : any) : list objectWrite :=
  if existsb (fun existing => String.eqb (Sprint (ow_object existing)) key) objects then objects
  else objects ++ [{| ow_object := object; ow_resident := None |}].

(* src/internal/effect/plan.go#withoutObject *)
Definition withoutObject (objects : list objectWrite) (key : string) : list objectWrite :=
  List.filter (fun existing => negb (String.eqb (Sprint (ow_object existing)) key)) objects.

(** The loop of [entryFor]: residents of a multi-valued predicate are strings. *)
(* src/internal/effect/plan.go:509-515 (targetWrite.entryFor) *)
Fixpoint resident_objects (l : list Triple) : result violation (list objectWrite) :=
  match l with
  | [] => Ok []
  | t :: rest =>
      match Object t with
      | AString _ =>
          others ← resident_objects rest;
          Ok ({| ow_object := Object t; ow_resident := Some t |} :: others)
      | _ => Err (invalid "entity records an object that is not a string for an entity-valued predicate")
      end
  end.

(* src/internal/effect/plan.go#targetWrite.entryFor *)
Definition entryFor (w : targetWrite) (target : entityView) (predicate : string)
    : result violation (predicateWrite * targetWrite) :=
  match tw_writes w !! predicate with
  | Some existing => Ok (existing, w)
  | None =>
      let multi := IsMultiValued predicate in
      objects ← (if multi then resident_objects (view_triplesFor target predicate) else Ok []);
      let entry := mkPredicateWrite predicate objects (IsEntityReference predicate) multi [] in
      Ok (entry, mkTargetWrite (tw_entityID w) (tw_resident w) (tw_order w ++ [predicate])
                   (<[predicate := entry]> (tw_writes w)))
  end.

Definition set_entry (w : targetWrite) (predicate : string) (entry : predicateWrite) : targetWrite :=
  mkTargetWrite (tw_entityID w) (tw_resident w) (tw_order w) (<[predicate := entry]> (tw_writes w)).

Definition with_named (entry : predicateWrite) (objects : list objectWrite) (key : string) : predicateWrite :=
  mkPredicateWrite (pw_predicate entry) objects (pw_reference entry) (pw_multi entry) (key :: pw_named entry).

(* src/internal/effect/plan.go#foldValue *)
Definition foldValue (write : targetWrite) (target : entityView) (predicate : string) (object : any)
    (effectType : string) : result violation targetWrite :=
  let write := match tw_resident write with
               | None => mkTargetWrite (tw_entityID write) (Some (ev_state target)) (tw_order write) (tw_writes write)
               | Some _ => write
               end in
  entry_write ← entryFor write target predicate;
  let '(entry, write) := entry_write in
  let key := Sprint object in
  if negb (pw_multi entry) then
    if Nat.ltb 0 (List.length (pw_named entry)) then
      Err (invalid "single-valued and this batch sets it twice")
    else Ok (set_entry write predicate
               (with_named entry [{| ow_object := object; ow_resident := None |}] key))
  else if mem key (pw_named entry) then Err (invalid "this batch names an object twice")
  else if String.eqb effectType EffectRemoveRelationship then
    Ok (set_entry write predicate (with_named entry (withoutObject (pw_objects entry) key) key))
  else Ok (set_entry write predicate (with_named entry (withObject (pw_objects entry) key object) key)).

(** ** Legality *)

(* src/internal/effect/plan.go#kindOf *)
Definition kindOf (state : EntityState) : result violation string :=
  match map Object (List.filter (fun t => String.eqb (Predicate t) WorldEntityKind) (Triples state)) with
  | [] => Err (wrongKind "entity declares no kind" [])
  | [AString text] =>
      match ParseEntityKind text with
      | Ok kind => Ok kind
      | Err err => Err (wrongKind "entity" [err])
      end
  | [_] => Err (wrongKind "entity declares a kind that is not a string" [])
  | _ => Err (wrongKind "entity declares several kinds" [])
  end.

(* src/internal/effect/plan.go#validateEffectPredicate *)
Definition validateEffectPredicate (predicate : string) : result violation unit :=
  if IsProtectedPredicate predicate then Err (invalid "immutable authored truth") else Ok tt.

(* src/internal/effect/plan.go#checkBounds *)
Definition checkBounds (specs : AttributeSpecSet) (predicate : string) (object : any)
    : result violation unit :=
  match AttributeForPredicate predicate with
  | None => Ok tt
  | Some attribute =>
      match object with
      | AInt value =>
          match specs_Check specs attribute value with
          | Ok _ => Ok tt
          | Err err => Err {| vi_code := FailureEffectInvalid; vi_err := err |}
          end
      | _ => Err (invalid "a bounded attribute but the intent supplies another type")
      end
  end.

Context {W : Type} `{GraphStore W}.

(* src/internal/effect/plan.go#resolver.view *)
Definition view (seen : seen_map) (id : string) : MV W (entityView * seen_map) :=
  match seen !! id with
  | Some v => mret (v, seen)
  | None =>
      read ← attempt_as (GetEntity id);
      match read with
      | Err err =>
          if errors_Is ErrEntityNotFound err then throw (missing "entity does not exist")
          else throw {| vi_code := FailureEffectEntityMissing; vi_err := Errorf "read entity" [err] |}
      | Ok state =>
          kind ← lift (kindOf state);
          let v := {| ev_state := state; ev_kind := kind |} in
          mret (v, <[id := v]> seen)
      end
  end.

(* src/internal/effect/plan.go#checkReferencedObject *)
Definition checkReferencedObject (seen : seen_map) (predicate targetID : string) (object : any)
    : MV W seen_map :=
  match object with
  | AString objectID =>
      if String.eqb objectID targetID then throw (invalid "names its own entity as its object")
      else
        view_seen ← view seen objectID;
        let '(v, seen) := view_seen in
        if negb (AllowsObjectKind predicate (ev_kind v)) then
          throw (wrongKind "cannot point at an entity of that kind" [])
        else mret seen
  | _ => throw (invalid "expects an entity reference")
  end.

(* src/internal/effect/plan.go#foldIntent *)
Definition foldIntent (specs : AttributeSpecSet) (seen : seen_map) (built : plan) (intent : EffectIntent)
    : MV W (seen_map * plan) :=
  match Mutation intent with
  | Err err => throw {| vi_code := FailureEffectInvalid; vi_err := err |}
  | Ok (predicate, object) =>
      _ ← lift (validateEffectPredicate predicate);
      _ ← lift (checkBounds specs predicate object);
      target_seen ← view seen (i_Target intent);
      let '(target, seen) := target_seen in
      if negb (AllowsSubjectKind predicate (ev_kind target)) then
        throw (wrongKind "cannot be carried by an entity of that kind" [])
      else
        seen ← (if IsEntityReference predicate
                then checkReferencedObject seen predicate (i_Target intent) object else mret seen);
        let '(write, built) := plan_target built (i_Target intent) in
        folded ← lift (foldValue write target predicate object (i_Type intent));
        mret (seen, mkPlan (pl_order built) (<[i_Target intent := folded]> (pl_targets built)))
  end.

(** The loop of [buildPlan], at index [index]. *)
(* src/internal/effect/plan.go:302-312 (buildPlan) *)
Fixpoint foldIntents (specs : AttributeSpecSet) (seen : seen_map) (built : plan) (index : Z)
    (intents : list EffectIntent) : MW W plan :=
  match intents with
  | [] => mret built
  | intent :: rest =>
      folded ← attempt_as (foldIntent specs seen built intent);
      match folded with
      | Err v => throw (RejectionError index (i_Type intent) (i_Target intent) (vi_code v) (vi_err v))
      | Ok (seen, built) => foldIntents specs seen built (index + 1) rest
      end
  end.

(* src/internal/effect/plan.go#buildPlan *)
Definition buildPlan (specs : AttributeSpecSet) (batch : EffectBatch) : MW W plan :=
  foldIntents specs ∅ (mkPlan [] ∅) 0 (b_Intents batch).
End plan.

(** ** Projection of a planned target *)

Section projections.
Context `{Substrate}.

(** The distinct targets of the touched predicates, in order. *)
(* src/internal/effect/plan.go:200-212 (targetWrite.projections) *)
Fixpoint touched_targets (order : list string) (targets : list Target) : list Target :=
  match order with
  | [] => targets
  | predicate :: rest =>
      match EffectTargetForPredicate predicate with
      | None => touched_targets rest targets
      | Some target =>
          touched_targets rest
            (if bool_decide (target ∈ targets) then targets else targets ++ [target])
      end
  end.

Definition is_target (target : Target) (predicate : string) : bool :=
  bool_decide (EffectTargetForPredicate predicate = Some target).

(** One object of a planned predicate as a triple. *)
(* src/internal/effect/plan.go:243-265 (targetWrite.projections) *)
Definition object_triple (source context : string) (at_ : time) (entityID predicate : string)
    (reference : bool) (value : objectWrite) : Triple :=
  match ow_resident value with
  | Some resident => resident
  | None => {|
      Subject := entityID; Predicate := predicate; Object := ow_object value; Source := source;
      Timestamp := at_; Confidence := float_one; Context_ := context;
      Datatype := if reference then EntityReferenceDatatype else EmptyString; ExpiresAt := None |}
  end.

(* src/internal/effect/plan.go:229-266 (targetWrite.projections) *)
Definition entry_triples (source context : string) (at_ : time) (w : targetWrite) (predicate : string)
    : list Triple :=
  match tw_writes w !! predicate with
  | None => [] (* excluded: the order lists the keys of the writes *)
  | Some entry =>
      map (object_triple source context at_ (tw_entityID w) predicate (pw_reference entry)) (pw_objects entry)
  end.

(* src/internal/effect/plan.go#targetWrite.projections *)
Definition projections (w : targetWrite) (source context : string) (at_ : time) : list projectionWrite :=
  map (fun target =>
    let touched := List.filter (is_target target) (tw_order w) in
    let residents :=
      match tw_resident w with
      | None => []
      | Some state =>
          List.filter (fun t => mem (Predicate t) (Predicates target) && negb (mem (Predicate t) touched))
            (Triples state)
      end in
    {| pr_target := target;
       pr_triples := residents ++ flat_map (entry_triples source context at_ w) touched |})
    (touched_targets (tw_order w) []).
End projections.

(** ** The applier *)

(* src/internal/effect/applier.go#type Outcome *)
Record Outcome : Type := { o_BatchID : string; o_Applied : bool; o_Targets : list string }.

Section applier.
Context {W : Type} `{Substrate, GraphStore W, Clock W}.

(* src/internal/effect/applier.go#Applier.alreadyApplied *)
Definition alreadyApplied (batch : EffectBatch) (turnEntityID batchRef : string) : MW W bool :=
  read ← attempt (GetEntity turnEntityID);
  match read with
  | Err err => throw (Errorf "read turn entity" [err])
  | Ok state =>
      let identities := objectsFor state TurnEffectsBatch in
      let references := objectsFor state TurnEffectsRef in
      if Nat.ltb 1 (List.length identities) || Nat.ltb 1 (List.length references) then
        throw (Errorf "several values for a single-valued effect predicate" [])
      else if negb (Nat.eqb (List.length identities) (List.length references)) then
        throw (Errorf "an applied batch lands in one write or not at all" [])
      else
        match identities, references with
        | [], _ => mret false
        | AString recorded :: _, reference :: _ =>
            if negb (String.eqb recorded (b_BatchID batch)) then
              throw (Errorf "already records another batch; one turn has one batch" [])
            else
              match reference with
              | AString recordedRef =>
                  if negb (String.eqb recordedRef batchRef) then
                    throw (Errorf "records the batch at another reference" [])
                  else mret true
              | _ => throw (Errorf "records a batch reference that is not a string" [])
              end
        | _, _ => throw (Errorf "records a batch identity that is not a string" [])
        end
  end.

(** The inner loop of [commit]: one target's projections. *)
(* src/internal/effect/applier.go:179-190 (Applier.commit) *)
Fixpoint commit_writes (batchID entityID : string) (written : list string) (writes : list projectionWrite)
    : MW W unit :=
  match writes with
  | [] => mret tt
  | write :: rest =>
      done ← attempt (Reconcile (pr_target write) entityID (pr_triples write));
      match done with
      | Err err => throw (CommitError batchID entityID written err)
      | Ok _ => commit_writes batchID entityID written rest
      end
  end.

(** The outer loop, with the entities already written. *)
(* src/internal/effect/applier.go:178-192 (Applier.commit) *)
Fixpoint commit_targets (batchID turnID : string) (at_ : time) (p : plan) (written order : list string)
    : MW W (list string) :=
  match order with
  | [] => mret written
  | entityID :: rest =>
      let writes := match pl_targets p !! entityID with
                    | Some w => projections w EffectSource turnID at_
                    | None => [] (* excluded: the order lists the keys of the targets *)
                    end in
      _ ← commit_writes batchID entityID written writes;
      commit_targets batchID turnID at_ p (written ++ [entityID]) rest
  end.

(* src/internal/effect/applier.go#Applier.commit *)
Definition commit (batch : EffectBatch) (committed : plan) (turnEntityID batchRef : string) : MW W Outcome :=
  at_ ← read_clock;
  written ← commit_targets (b_BatchID batch) (b_TurnID batch) at_ committed [] (pl_order committed);
  match EffectBatch_Triples batch turnEntityID batchRef EffectSource at_ with
  | Err err => throw (CommitError (b_BatchID batch) turnEntityID written err)
  | Ok marker =>
      marked ← attempt (Reconcile TurnEffectMarker turnEntityID marker);
      match marked with
      | Err err => throw (CommitError (b_BatchID batch) turnEntityID written err)
      | Ok _ => mret {| o_BatchID := b_BatchID batch; o_Applied := true; o_Targets := written |}
      end
  end.

(* src/internal/effect/applier.go#Applier.Apply *)
Definition Apply (specs : AttributeSpecSet) (batch : option EffectBatch) (turnEntityID batchRef : string)
    : MW W Outcome :=
  match batch with
  | None => throw (Errorf "apply requires an effect batch" [])
  | Some batch =>
      match EffectBatch_Validate batch with
      | Err err => throw (RejectionError (-1) EmptyString EmptyString FailureEffectInvalid err)
      | Ok _ =>
          _ ← lift (RequireTurnEntityID (b_TurnID batch) turnEntityID);
          if String.eqb batchRef EmptyString then
            throw (Errorf "apply requires a reference to the stored batch payload" [])
          else
            applied ← alreadyApplied batch turnEntityID batchRef;
            if applied : bool then
              mret {| o_BatchID := b_BatchID batch; o_Applied := false; o_Targets := [] |}
            else
              committed ← buildPlan specs batch;
              commit batch committed turnEntityID batchRef
      end
  end.
End applier.

(** ** The reason a failed apply ends a turn for *)

Definition is_coded (e : error) : bool := is_RejectionError e || is_CommitError e.

Definition Reason (e : error) : string :=
  match e with
  | RejectionError _ _ _ code _ => code
  | CommitError _ _ _ _ => FailureEffectCommitIncomplete
  | _ => EmptyString
  end.

(* src/internal/effect/errors.go#FailureReasonFor *)
Definition FailureReasonFor (err : error) : option string := Reason <$> errors_As is_coded err.
