(* ===== verification/WorldEntity.v ===== *)
(** The parts of Go's standard library the world package reads text with
    ([strings.Fields], [strconv.ParseFloat] on JSON numbers, the dynamic values
    [encoding/json] decodes with [UseNumber]), and [payload/worldentity.go]: one
    materialized world entity on its way to the graph, the check it passes before
    it is published and the triples it becomes. *)

From S2P Require Import Prelude GoStd GoErrors Graph Vocab Vocabulary Payload Effect.

Open Scope Z_scope.

(** ** [strings.Fields] *)

Definition flush (cur : string) (fields : list string) : list string :=
  match cur with EmptyString => fields | _ => cur :: fields end.

(** Every step consumes a byte at least, so the length is fuel enough. *)
Fixpoint fields_from (fuel : nat) (s cur : string) : list string :=
  match fuel with
  | O => flush cur []
  | S fuel =>
      match strip_one white_space s with
      | Some rest => flush cur (fields_from fuel rest EmptyString)
      | None =>
          match s with
          | EmptyString => flush cur []
          | String c rest => fields_from fuel rest (cur +:+ String c EmptyString)
          end
      end
  end.

Definition Fields (s : string) : list string := fields_from (S (String.length s)) s EmptyString.

Example Fields_splits : Fields "  >=v1.0.0	 <v2.0.0 " = [">=v1.0.0"; "<v2.0.0"]%string.
Proof. vm_compute. reflexivity. Qed.

(** ** JSON values

    What [Decode] into an [any] gives with [UseNumber]; of arrays and objects
    the modelled code only asks whether they are something else. *)
Inductive json_value : Type :=
| JNull
| JBool (b : bool)
| JString (s : string)
| JNumber (text : string)
| JComposite.

#[export] Instance json_value_eq_dec : EqDecision json_value.
Proof. solve_decision. Defined.

(** ** [strconv.ParseFloat(s, 64)] on a JSON number

    The decimal is scaled to an exact integer or quotient and rounded once, to
    nearest even, at 53 bits: what the function promises. A result that is not
    finite is its range error. *)

Definition float_of_Z (z : Z) : spec_float := binary_normalize 53 1024 z 0 false.

Definition float_of_decimal (negative : bool) (m : Z) (exponent : Z) : spec_float :=
  match m with
  | Z0 => S754_zero negative
  | Zneg _ => S754_nan
  | Zpos m =>
      if 0 <=? exponent then
        binary_normalize 53 1024 ((if negative then Zneg m else Zpos m) * 10 ^ exponent) 0 negative
      else
        let '(q, e, l) := SFdiv_core_binary 53 1024 (Zpos m) 0 (10 ^ (- exponent)) 0 in
        binary_round_aux 53 1024 negative q e l
  end.

(** An unsigned literal at the first of the two exponent letters. *)
Definition cut_exponent (s : string) : string * option string :=
  match Cut "e"%char s, Cut "E"%char s with
  | Some (before, after), _ => (before, Some after)
  | None, Some (before, after) => (before, Some after)
  | None, None => (s, None)
  end.

Definition signed_digits (s : string) : option Z :=
  match s with
  | String "-" rest => option_map Z.opp (parse_digits rest 0)
  | String "+" rest => parse_digits rest 0
  | _ => parse_digits s 0
  end.

Definition ParseFloat (s : string) : option spec_float :=
  let '(negative, body) := match s with String "-" rest => (true, rest) | _ => (false, s) end in
  let '(mantissa, exponent) := cut_exponent body in
  let '(whole, fraction) := match Cut dot mantissa with Some parts => parts | None => (mantissa, EmptyString) end in
  match parse_digits (whole +:+ fraction) 0,
        match exponent with Some text => signed_digits text | None => Some 0 end with
  | Some m, Some e =>
      match float_of_decimal negative m (e - len fraction) with
      | S754_infinity _ | S754_nan => None
      | f => Some f
      end
  | _, _ => None
  end.

(** [math.IsNaN(f) || math.IsInf(f, 0)], negated. *)
Definition finite (f : spec_float) : bool :=
  match f with S754_nan | S754_infinity _ => false | _ => true end.

Lemma ParseFloat_finite s f : ParseFloat s = Some f -> finite f = true.
Proof.
  unfold ParseFloat. repeat case_match; try discriminate; intros [= <-]; reflexivity.
Qed.

(** [f < bound], [f > bound]. *)
Definition float_lt (f g : spec_float) : bool := SFltb f g.

Example ParseFloat_quarter : ParseFloat "-2.50e-1" = Some (S754_finite true 4503599627370496 (-54)).
Proof. vm_compute. reflexivity. Qed.

(** One tenth is the double nearest to it, and nine digits too many overflow. *)
Example ParseFloat_tenth : ParseFloat "0.1" = Some (S754_finite false 7205759403792794 (-56)).
Proof. vm_compute. reflexivity. Qed.

Example ParseFloat_range : ParseFloat "1e309" = None.
Proof. vm_compute. reflexivity. Qed.

(* src/internal/payload/constants.go#const CategoryWorldEntity *)
Definition CategoryWorldEntity : string := "world_entity".
(* src/internal/payload/worldentity.go#const MaxFactTextBytes *)
Definition MaxFactTextBytes : Z := 512.
(* src/internal/payload/worldentity.go#WorldEntity.Schema *)
Definition WorldEntitySchema : MessageType :=
  {| Domain := PayloadDomain; Category := CategoryWorldEntity; Version_ := SchemaVersion |}.
(* src/internal/payload/worldentity.go#const WorldImportSource *)
Definition WorldImportSource : string := "world-import".
(* src/internal/payload/worldentity.go#const xsdStringDatatype *)
Definition xsdStringDatatype : string := "xsd:string".

(* src/internal/payload/worldentity.go#type TemplateRef *)
Record TemplateRef : Type := { tr_ID : string; tr_Version : string; tr_LocalID : string }.

(* src/internal/payload/worldentity.go#type WorldFact *)
Record WorldFact : Type := { wf_Predicate : string; wf_Object : any; wf_Reference : bool }.

(* src/internal/payload/worldentity.go#type WorldEntity *)
Record WorldEntity : Type := {
  we_ID : string; we_Kind : string; we_Template : TemplateRef;
  we_Facts : list WorldFact; we_RecordedAt : time }.

#[export] Instance TemplateRef_eq_dec : EqDecision TemplateRef.
Proof. solve_decision. Defined.
#[export] Instance WorldFact_eq_dec : EqDecision WorldFact.
Proof. solve_decision. Defined.
#[export] Instance WorldEntity_eq_dec : EqDecision WorldEntity.
Proof. unfold EqDecision, time. solve_decision. Defined.

(* src/internal/payload/worldentity.go#isCoordinatePredicate *)
Definition isCoordinatePredicate (predicate : string) : bool :=
  String.eqb predicate GeoLocationLatitude || String.eqb predicate GeoLocationLongitude.

(** [raw] is the fact's object, [None] when the document has none; the outer
    error is [Decode]'s. *)
(* src/internal/payload/worldentity.go#decodeFactObject *)
Definition decodeFactObject (predicate : string) (raw : option (res json_value)) : res any :=
  match raw with
  | None => Err (Errorf "object is required" [])
  | Some (Err err) => Err (Errorf "object" [err])
  | Some (Ok (JString typed)) => Ok (AString typed)
  | Some (Ok (JNumber typed)) =>
      if isCoordinatePredicate predicate then
        match ParseFloat typed with
        | Some coordinate => Ok (AFloat64 coordinate)
        | None => Err (Errorf "object is not a finite coordinate" [])
        end
      else
        match ParseInt typed with
        | Some integer => Ok (AInt integer)
        | None => Err (Errorf "object is not an integer; the v1 world vocabulary has no fractional facts" [])
        end
  | Some (Ok _) => Err (Errorf "object is neither a string nor an integer" [])
  end.

Section world_entity.
Context `{Substrate}.

(* src/internal/payload/worldentity.go#TemplateRef.Validate *)
Definition TemplateRef_Validate (r : TemplateRef) : res unit :=
  _ ← requireNonEmpty "template.version" (tr_Version r);
  _ ← requireIDSegment "template.id" (tr_ID r);
  requireIDSegment "template.local_id" (tr_LocalID r).

(* src/internal/payload/worldentity.go#WorldFact.UnmarshalJSON *)
Definition WorldFact_UnmarshalJSON (wire : res (string * option (res json_value) * bool)) : res WorldFact :=
  '(predicate, raw, reference) ← wire;
  object ← wrapf "fact" (decodeFactObject predicate raw);
  Ok {| wf_Predicate := predicate; wf_Object := object; wf_Reference := reference |}.

(* src/internal/payload/worldentity.go#WorldFact.Validate *)
Definition WorldFact_Validate (f : WorldFact) : res unit :=
  match SubjectKindsFor (wf_Predicate f) with
  | None => Err (Errorf "predicate is not a registered world fact" [])
  | Some _ =>
      _ ← wrapf "predicate" (ParsePredicate (wf_Predicate f));
      match wf_Object f with
      | AString object =>
          if wf_Reference f then requireEntityID (wf_Predicate f +:+ " object") object
          else if String.eqb object EmptyString then Err (Errorf "fact has an empty object" [])
          else if MaxFactTextBytes <? len object then
            Err (Errorf "fact exceeds the fact-text budget" [])
          else Ok tt
      | AInt _ =>
          if wf_Reference f then
            Err (Errorf "fact is marked as an entity reference but its object is a number" [])
          else Ok tt
      | AFloat64 object =>
          if wf_Reference f then
            Err (Errorf "fact is marked as an entity reference but its object is a number" [])
          else if negb (isCoordinatePredicate (wf_Predicate f)) then
            Err (Errorf "fact carries a float64 object" [])
          else if negb (finite object) then Err (Errorf "fact coordinate must be finite" [])
          else Ok tt
      | ANil => Err (Errorf "fact has no object" [])
      | _ => Err (Errorf "fact carries an object of another type" [])
      end
  end.

(* src/internal/payload/worldentity.go#WorldEntity.validateIDAgreesWithDeclaration *)
Definition validateIDAgreesWithDeclaration (e : WorldEntity) : res unit :=
  match Split dot (we_ID e) with
  | [_; platform; _; template; type; instance] =>
      if negb (String.eqb platform PayloadDomain) then Err (Errorf "id has another platform" [])
      else if negb (String.eqb template (tr_ID (we_Template e))) then
        Err (Errorf "id names a template the payload does not declare" [])
      else if negb (String.eqb type (we_Kind e)) then
        Err (Errorf "id has a type the payload does not declare" [])
      else if negb (String.eqb instance (tr_LocalID (we_Template e))) then
        Err (Errorf "id has an instance the payload does not declare" [])
      else Ok tt
  | _ => Err (Errorf "id does not have 6 positions" [])
  end.

(** The key two facts are compared by: [fmt.Sprintf("%s\x00%v", ...)]. *)
Definition fact_pair (f : WorldFact) : string :=
  wf_Predicate f +:+ String "000"%char (Sprint (wf_Object f)).

(* src/internal/payload/worldentity.go#WorldEntity.validateFacts *)
Fixpoint validateFacts (kind : string) (seen seenPairs : list string) (facts : list WorldFact) : res unit :=
  match facts with
  | [] => Ok tt
  | fact :: rest =>
      if String.eqb (wf_Predicate fact) WorldEntityKind then
        Err (Errorf "the kind triple is projected from the kind field, not authored" [])
      else
        _ ← wrapf "fact" (WorldFact_Validate fact);
        if negb (AllowsSubjectKind (wf_Predicate fact) kind) then
          Err (Errorf "predicate cannot be carried by an entity of this kind" [])
        else if mem (fact_pair fact) seenPairs then
          Err (Errorf "fact repeats a predicate with the same object" [])
        else if mem (wf_Predicate fact) seen && negb (IsMultiValued (wf_Predicate fact)) then
          Err (Errorf "fact repeats a single-valued predicate" [])
        else validateFacts kind (wf_Predicate fact :: seen) (fact_pair fact :: seenPairs) rest
  end.

(* src/internal/payload/worldentity.go#WorldEntity.Validate *)
Definition WorldEntity_Validate (e : WorldEntity) : res unit :=
  _ ← requireEntityID "id" (we_ID e);
  _ ← ParseEntityKind (we_Kind e);
  _ ← TemplateRef_Validate (we_Template e);
  _ ← validateIDAgreesWithDeclaration e;
  if time_IsZero (we_RecordedAt e) then Err (Errorf "recorded_at is required" [])
  else if Nat.eqb (List.length (we_Facts e)) 0 then Err (Errorf "entity declares no facts" [])
  else validateFacts (we_Kind e) [] [] (we_Facts e).

(* src/internal/payload/worldentity.go#WorldEntity.triple *)
Definition WorldEntity_triple (e : WorldEntity) (predicate : string) (object : any) (reference : bool) : Triple := {|
  Subject := we_ID e;
  Predicate := predicate;
  Object := object;
  Source := WorldImportSource;
  Timestamp := we_RecordedAt e;
  Confidence := float_one;
  Context_ := tr_ID (we_Template e) +:+ "@" +:+ tr_Version (we_Template e);
  Datatype :=
    if reference then EntityReferenceDatatype
    else match object with AString _ => xsdStringDatatype | _ => EmptyString end;
  ExpiresAt := None
|}.

(* src/internal/payload/worldentity.go#WorldEntity.Triples *)
Definition WorldEntity_Triples (e : WorldEntity) : list Triple :=
  match WorldEntity_Validate e with
  | Err _ => []
  | Ok _ =>
      WorldEntity_triple e WorldEntityKind (AString (we_Kind e)) false ::
      map (fun fact => WorldEntity_triple e (wf_Predicate fact) (wf_Object fact) (wf_Reference fact)) (we_Facts e)
  end.
End world_entity.
