(* ===== verification/Sequencing.v ===== *)
(** [internal/rulepack/subjects.go], [internal/stage/trigger.go] and
    [internal/turn/stream.go]: the subjects a stage trigger travels on, the
    trigger a stage accepts, and the check of the action stream's subjects. *)

From S2P Require Import Prelude GoStd GoErrors Graph Vocab Vocabulary Payload.

Open Scope Z_scope.

(** ** Subjects *)

(* src/internal/rulepack/subjects.go:27-27 (StageStream) *)
Definition StageStream : string := "TURN_STAGES".
(* src/internal/rulepack/subjects.go:29-29 (StageSubjectPrefix) *)
Definition StageSubjectPrefix : string := "semmachina.turn.".
(* src/internal/rulepack/subjects.go:31-31 (StageSubjectFilter) *)
Definition StageSubjectFilter : string := StageSubjectPrefix +:+ ">".
(* src/internal/rulepack/subjects.go#const SubjectResolved *)
Definition SubjectResolved : string := StageSubjectPrefix +:+ "resolved".
(* src/internal/rulepack/subjects.go#const SubjectKnowledge *)
Definition SubjectKnowledge : string := StageSubjectPrefix +:+ "knowledge".
(* src/internal/rulepack/subjects.go#const SubjectAccusation *)
Definition SubjectAccusation : string := StageSubjectPrefix +:+ "accusation".
(* src/internal/rulepack/subjects.go#const SubjectCaseProgress *)
Definition SubjectCaseProgress : string := StageSubjectPrefix +:+ "case-progress".

(* src/internal/rulepack/subjects.go#var stagePhases *)
Definition stagePhases : list string :=
  [PhaseInterpreting; PhaseAdjudicating; PhaseResolving; PhaseApplying; PhaseCompanion;
   PhaseNarrating; PhaseComplete].

(* src/internal/rulepack/subjects.go#StagePhases *)
Definition StagePhases : list string := stagePhases.

(* src/internal/rulepack/subjects.go#StageConsumerName *)
Definition StageConsumerName (phase : string) : string := "semmachina-stage-" +:+ phase.

(* src/internal/rulepack/subjects.go#SubjectForPhase *)
Definition SubjectForPhase (phase : string) : res string :=
  if mem phase stagePhases then Ok (StageSubjectPrefix +:+ phase)
  else Err (Errorf "turn phase has no stage trigger subject" []).

(* src/internal/rulepack/subjects.go#PhaseForSubject *)
Definition PhaseForSubject (subject : string) : option string :=
  List.find (fun phase => match SubjectForPhase phase with
                          | Ok got => String.eqb got subject
                          | Err _ => false
                          end) stagePhases.

(** [natsclient.StreamConsumerConfig], what a durable consumer states. *)
Record StreamConsumerConfig : Type := {
  cn_StreamName : string; cn_ConsumerName : string; cn_FilterSubject : string; cn_DeliverPolicy : string;
  cn_AckPolicy : string; cn_MaxDeliver : Z; cn_AckWait : Z }.

(* src/internal/rulepack/subjects.go#const KnowledgeConsumerName *)
Definition KnowledgeConsumerName : string := "semmachina-knowledge-granter".
(* src/internal/rulepack/subjects.go#const AccusationConsumerName *)
Definition AccusationConsumerName : string := "semmachina-accusation-verifier".
(* src/internal/rulepack/subjects.go#const CaseProgressConsumerName *)
Definition CaseProgressConsumerName : string := "semmachina-case-progress".

(** ** Triggers *)

(** The document on the stream; [encoding/json] stands between it and its bytes. *)
(* src/internal/stage/trigger.go#type rulePublication *)
Record rulePublication : Type := {
  EntityID_ : string; Subject_ : string; Source_ : string; Properties_ : gmap string any }.

(** The document the stranded-turn pass publishes in the rule engine's place: a
    timestamp it has, properties it has not. *)
(* src/internal/resume/reconcile.go:700-705 (Reconciler.publish) *)
Record stageTrigger : Type := {
  st_EntityID : string; st_Subject : string; st_Source : string; st_Timestamp : string }.

(** What [encoding/json] reads of it as the rule engine's publication. *)
Definition as_publication (t : stageTrigger) : rulePublication := {|
  EntityID_ := st_EntityID t; Subject_ := st_Subject t; Source_ := st_Source t; Properties_ := ∅ |}.

(* src/internal/stage/trigger.go#type Trigger *)
Record Trigger : Type := { t_TurnEntityID : string; t_TurnID : string; t_Subject : string }.

(** The second-to-last part of an identifier: its type segment. *)
Definition type_part (entityID : string) : string :=
  let parts := Split dot entityID in List.nth (List.length parts - 2) parts EmptyString.

Section trigger.
Context `{Substrate}.

(* src/internal/stage/trigger.go#ParseTrigger *)
Definition ParseTrigger (decoded : res rulePublication) : res Trigger :=
  match decoded with
  | Err err => Err (Errorf "decode stage trigger" [err])
  | Ok published =>
      if String.eqb (EntityID_ published) EmptyString then Err (Errorf "stage trigger names no entity" [])
      else
        _ ← wrapf "not a canonical six-part entity ID" (ValidateEntityID (EntityID_ published));
        if negb (String.eqb (type_part (EntityID_ published)) "turn") then
          Err (Errorf "stage trigger names an entity that is not a turn" [])
        else
          let turnID := last_part (EntityID_ published) in
          _ ← RequireTurnEntityID turnID (EntityID_ published);
          Ok {| t_TurnEntityID := EntityID_ published; t_TurnID := turnID;
                t_Subject := Subject_ published |}
  end.

(* src/internal/resume/reconcile.go#turnIDOf *)
Definition turnIDOf (turnEntityID : string) : res string :=
  _ ← wrapf "not a canonical six-part entity ID" (ValidateEntityID turnEntityID);
  if negb (String.eqb (type_part turnEntityID) "turn") then
    Err (Errorf "has another type segment; this pass resumes turns" [])
  else
    let turnID := last_part turnEntityID in
    _ ← RequireTurnEntityID turnID turnEntityID;
    Ok turnID.
End trigger.

(** ** The action stream's subjects *)

(** One filter of [subjectCovered]: equal, a [>] tail, or a one-token [*] tail. *)
(* src/internal/turn/stream.go:166-178 (subjectCovered) *)
Definition filter_covers (filter subject : string) : bool :=
  String.eqb filter subject ||
  match CutSuffix filter ">" with
  | Some prefix => HasPrefix subject prefix && (len prefix <? len subject)
  | None => false
  end ||
  match CutSuffix filter "*" with
  | Some prefix =>
      match CutPrefix subject prefix with
      | Some rest => negb (String.eqb rest EmptyString) && negb (contains_char dot rest)
      | None => false
      end
  | None => false
  end.

(* src/internal/turn/stream.go#subjectCovered *)
Definition subjectCovered (filters : list string) (subject : string) : bool :=
  existsb (fun filter => filter_covers filter subject) filters.

(** The fields of [jetstream.StreamConfig] the check compares. *)
Record StreamConfig : Type := {
  sc_MaxAge : Z; sc_MaxBytes : Z; sc_Discard : string; sc_Retention : string; sc_Subjects : list string }.

(* src/internal/turn/intake.go:33-33 (ActionSubject) *)
Definition ActionSubject : string := "player.action.submitted".
(* src/internal/turn/intake.go:31-31 (ActionSubjectPrefix) *)
Definition ActionSubjectPrefix : string := "player.action.>".
(* src/internal/turn/stream.go:40-40 (ActionMaxAge) *)
Definition ActionMaxAge : Z := 30 * 24 * 3600 * 10 ^ 9.
(* src/internal/turn/stream.go:47-47 (ActionMaxBytes) *)
Definition ActionMaxBytes : Z := Z.shiftl 1 30.

(* src/internal/turn/stream.go#ActionStreamConfig *)
Definition ActionStreamConfig : StreamConfig := {|
  sc_MaxAge := ActionMaxAge; sc_MaxBytes := ActionMaxBytes; sc_Discard := "DiscardNew";
  sc_Retention := "LimitsPolicy"; sc_Subjects := [ActionSubjectPrefix] |}.

(* src/internal/turn/stream.go#checkActionStreamConfig *)
Definition checkActionStreamConfig (want got : StreamConfig) (actionSubject : string) : res unit :=
  if negb (sc_MaxAge want =? sc_MaxAge got) then Err (Errorf "MaxAge differs" [])
  else if negb (sc_MaxBytes want =? sc_MaxBytes got) then Err (Errorf "MaxBytes differs" [])
  else if negb (String.eqb (sc_Discard want) (sc_Discard got)) then Err (Errorf "Discard differs" [])
  else if negb (String.eqb (sc_Retention want) (sc_Retention got)) then Err (Errorf "Retention differs" [])
  else if negb (subjectCovered (sc_Subjects got) actionSubject) then
    Err (Errorf "the subjects do not cover the canonical publish subject" [])
  else Ok tt.

(** ** Lemmas *)

Lemma SubjectForPhase_ok phase subject :
  SubjectForPhase phase = Ok subject <-> phase ∈ stagePhases /\ subject = StageSubjectPrefix +:+ phase.
Proof.
  unfold SubjectForPhase. destruct (mem phase stagePhases) eqn:E.
  - apply mem_true in E. naive_solver.
  - apply mem_false in E. naive_solver.
Qed.

Lemma turnIDOf_ok `{Substrate} id turnID :
  turnIDOf id = Ok turnID ->
  turnID = last_part id /\ type_part id = "turn"%string /\ RequireTurnEntityID turnID id = Ok tt /\
  ValidateEntityID id = Ok tt.
Proof.
  unfold turnIDOf. intros ([] & Hv%wrapf_ok & Ht)%result_bind_ok.
  destruct (String.eqb_spec (type_part id) "turn") as [E|]; cbn [negb] in Ht; [|discriminate].
  apply result_bind_ok in Ht as ([] & Hr & [= <-]). auto.
Qed.

Lemma ParseTrigger_turn `{Substrate} published turnID :
  turnIDOf (EntityID_ published) = Ok turnID ->
  ParseTrigger (Ok published) =
    Ok {| t_TurnEntityID := EntityID_ published; t_TurnID := turnID; t_Subject := Subject_ published |}.
Proof.
  intros (-> & Htype & Hreq & Hv)%turnIDOf_ok. unfold ParseTrigger.
  pose proof Hreq as (_ & Hne & _ & _)%RequireTurnEntityID_ok.
  rewrite (proj2 (String.eqb_neq _ _) Hne), Hv, Htype, Hreq. reflexivity.
Qed.
