(* ===== verification/RulePack.v ===== *)
(** [internal/rulepack]: the turn-sequencing rule pack, the gates a pack is held
    to before it is loaded, and the built-in rules of the case lifecycle. The
    rule engine that runs the rules is upstream. *)

From S2P Require Import Prelude GoStd GoErrors Graph Vocab Vocabulary Sequencing.

Open Scope Z_scope.

(** ** Rules as upstream declares them

    [rule.Definition], [expression.ConditionExpression] and [rule.Action], the
    fields the engine sets or reads. A condition value is a decoded JSON value:
    nothing, a scalar, or a list ([[]string] when Go code wrote it). *)

Inductive condition_value : Type :=
| VNil
| VScalar (a : any)
| VStrings (l : list string)
| VList (items : list any).

Definition VText (s : string) : condition_value := VScalar (AString s).

Record Condition : Type := mkCondition {
  cd_Field : string; cd_Operator : string; cd_Value : condition_value;
  cd_From : condition_value; cd_Required : bool }.

Record Action : Type := mkAction {
  ac_Type : string; ac_Subject : string; ac_Properties : nat;
  ac_MaxIterations : option Z; ac_Workflow : string; ac_Phase : string }.

Record Definition_ : Type := mkDefinition {
  rd_ID : string; rd_Enabled : bool; rd_Logic : string; rd_Pattern : string;
  rd_Cooldown : string; rd_Conditions : list Condition;
  rd_OnEnter : list Action; rd_OnRecovery : list Action;
  rd_OnExit : list Action; rd_WhileTrue : list Action; rd_Actions : list Action }.

Definition ActionTypePublish : string := "publish".
Definition ActionTypeLifecycleTransition : string := "lifecycle_transition".

(** [rule.ValidateDefinition]. *)
Class RuleValidator : Type := { ValidateDefinition : Definition_ -> res unit }.

(** ** The gates *)

(* src/internal/rulepack/pack.go#const EntityPattern *)
Definition EntityPattern : string := "*.semmachina.*.*.turn.*".

(* src/internal/rulepack/pack.go#stringSlice *)
Definition stringSlice (value : condition_value) : res (list string) :=
  match value with
  | VNil => Err (Errorf "is absent" [])
  | VScalar (AString s) => Ok [s]
  | VScalar _ => Err (Errorf "is not a list" [])
  | VStrings l => Ok l
  | VList items =>
      foldr (fun item out =>
        out ← out;
        match item with AString text => Ok (text :: out) | _ => Err (Errorf "holds a value that is not a string" []) end)
        (Ok []) items
  end.

(* src/internal/rulepack/pack.go#sameSet *)
Definition sameSet (a b : list string) : bool := bool_decide (Compact (Sort a) = Compact (Sort b)).

(* src/internal/rulepack/pack.go#subjectsOf *)
Definition subjectsOf (actions : list Action) : list string := map ac_Subject actions.

(* src/internal/rulepack/pack.go#knownSubject *)
Definition knownSubject (subject : string) : bool :=
  mem subject [SubjectResolved; SubjectKnowledge; SubjectAccusation; SubjectCaseProgress] ||
  match PhaseForSubject subject with Some _ => true | None => false end.

(* src/internal/rulepack/pack.go#checkAction *)
Definition checkAction (action : Action) : res unit :=
  if negb (String.eqb (ac_Type action) ActionTypePublish) then
    Err (Errorf "sequencing rules only publish a reference to a stage" [])
  else if negb (knownSubject (ac_Subject action)) then
    Err (Errorf "publishes to a subject no declared durable path consumes" [])
  else if Nat.ltb 0 (ac_Properties action) then Err (Errorf "carries properties" [])
  else
    match ac_MaxIterations action with
    | None => Err (Errorf "declares no max_iterations" [])
    | Some n =>
        if n <? 1 then Err (Errorf "declares max_iterations below 1" [])
        else
          match PhaseForSubject (ac_Subject action) with
          | Some phase =>
              if String.eqb phase PhaseCompanion && negb (n =? 1) then
                Err (Errorf "the automatic companion path must be capped at exactly 1" [])
              else Ok tt
          | None => Ok tt
          end
    end.

(** The loop of [checkActions] ranges over a map, so which of several refusals
    is reported varies; whether the rule is refused does not. *)
(* src/internal/rulepack/pack.go#checkActions *)
Definition checkActions (definition : Definition_) : res unit :=
  _ ← require (negb (Nat.eqb (List.length (rd_OnEnter definition)) 0)) (Errorf "declares no on_enter actions" []);
  _ ← all_ok checkAction (rd_OnEnter definition);
  _ ← require (negb (Nat.eqb (List.length (rd_OnRecovery definition)) 0)) (Errorf "declares no on_recovery actions" []);
  _ ← all_ok checkAction (rd_OnRecovery definition);
  _ ← require (Nat.eqb (List.length (rd_OnExit definition)) 0) (Errorf "declares on_exit actions" []);
  _ ← require (Nat.eqb (List.length (rd_WhileTrue definition)) 0) (Errorf "declares while_true actions" []);
  _ ← require (Nat.eqb (List.length (rd_Actions definition)) 0) (Errorf "declares actions" []);
  require (sameSet (subjectsOf (rd_OnEnter definition)) (subjectsOf (rd_OnRecovery definition)))
    (Errorf "publishes other subjects on entry than on recovery" []).

(** [strings.Contains(text, "$")]. *)
Definition substitutes (value : condition_value) : bool :=
  match value with VScalar (AString text) => contains_char "$"%char text | _ => false end.

(* src/internal/rulepack/pack.go#checkCondition *)
Definition checkCondition (condition : Condition) : res unit :=
  if cd_Required condition then Err (Errorf "is marked required" [])
  else if substitutes (cd_Value condition) then Err (Errorf "carries a substitution token" [])
  else if String.eqb (cd_Operator condition) "transition" then
    match cd_Value condition with
    | VScalar (AString phase) =>
        match PhasePredecessors phase with
        | None => Err (Errorf "transitions to a value that is not a turn phase" [])
        | Some want =>
            got ← wrapf "declares a from set that is not a list of phase names" (stringSlice (cd_From condition));
            require (sameSet got want) (Errorf "declares a from set that differs from the turn FSM" [])
        end
    | _ => Err (Errorf "transitions to a value that is not a phase name" [])
    end
  else if String.eqb (cd_Operator condition) "in" then
    got ← wrapf "matches against a value that is not a list of strings" (stringSlice (cd_Value condition));
    _ ← require (String.eqb (cd_Field condition) TurnRollBand)
          (Errorf "uses in on a predicate this pack has no closed set for" []);
    require (sameSet got RollBands) (Errorf "matches bands the dice cannot select" [])
  else if String.eqb (cd_Operator condition) "eq" || String.eqb (cd_Operator condition) "ne" then
    if String.eqb (cd_Field condition) TurnPhaseCurrent then
      if String.eqb (cd_Operator condition) "ne" then Err (Errorf "excludes a phase rather than naming one" [])
      else
        match cd_Value condition with
        | VScalar (AString phase) => _ ← ParseTurnPhase phase; Ok tt
        | _ => Err (Errorf "compares the phase against a value that is not a string" [])
        end
    else Ok tt
  else Err (Errorf "uses an operator outside eq/ne/in/transition" []).

(* src/internal/rulepack/pack.go#type phaseGate *)
Record phaseGate : Type := { pg_phase : string; pg_operator : string }.

Definition pin (condition : Condition) : option phaseGate :=
  if negb (String.eqb (cd_Field condition) TurnPhaseCurrent) then None
  else if negb (String.eqb (cd_Operator condition) "eq") && negb (String.eqb (cd_Operator condition) "transition")
  then None
  else match cd_Value condition with
       | VScalar (AString phase) => Some {| pg_phase := phase; pg_operator := cd_Operator condition |}
       | _ => None
       end.

(* src/internal/rulepack/pack.go#phaseGates *)
Definition phaseGates (definition : Definition_) : list phaseGate := omap pin (rd_Conditions definition).

(* src/internal/rulepack/pack.go#gatedOnArtifact *)
Definition gatedOnArtifact (definition : Definition_) (artifacts : list string) : bool :=
  existsb (fun condition => mem (cd_Field condition) artifacts) (rd_Conditions definition).

(* src/internal/rulepack/pack.go#checkArtifactGate *)
Definition checkArtifactGate (definition : Definition_) : res unit :=
  all_ok (fun gate =>
    if String.eqb (pg_operator gate) "transition" then Ok tt
    else if String.eqb (pg_phase gate) PhaseAccepted then Ok tt
    else
      match StageArtifacts (pg_phase gate) with
      | None => Ok tt
      | Some [] => Err (Errorf "no stage produces an artifact for the phase" [])
      | Some artifacts =>
          require (gatedOnArtifact definition artifacts)
            (Errorf "nothing else it matches is an artifact of the phase's stage" [])
      end) (phaseGates definition).

(* src/internal/rulepack/pack.go#checkPhaseEdges *)
Definition checkPhaseEdges (definition : Definition_) : res unit :=
  all_ok (fun gate =>
    all_ok (fun actions =>
      all_ok (fun action =>
        match PhaseForSubject (ac_Subject action) with
        | None => Ok tt
        | Some target =>
            require (PhaseFollows (pg_phase gate) target) (Errorf "drives a turn along no edge of the turn FSM" [])
        end) actions) [rd_OnEnter definition; rd_OnRecovery definition]) (phaseGates definition).

Section check.
Context `{RuleValidator}.

(* src/internal/rulepack/pack.go#checkDefinition *)
Definition checkDefinition (definition : Definition_) : res unit :=
  _ ← ValidateDefinition definition;
  _ ← require (rd_Enabled definition) (Errorf "is disabled" []);
  _ ← require (String.eqb (rd_Pattern definition) EntityPattern) (Errorf "watches another pattern" []);
  _ ← require (String.eqb (rd_Logic definition) "and") (Errorf "combines its conditions with another connective" []);
  _ ← require (negb (Nat.eqb (List.length (rd_Conditions definition)) 0)) (Errorf "declares no conditions" []);
  _ ← require (String.eqb (rd_Cooldown definition) EmptyString) (Errorf "declares a cooldown" []);
  _ ← all_ok (fun condition => wrapf "condition" (checkCondition condition)) (rd_Conditions definition);
  _ ← require (negb (Nat.eqb (List.length (phaseGates definition)) 0)) (Errorf "names no phase" []);
  _ ← checkArtifactGate definition;
  _ ← checkActions definition;
  checkPhaseEdges definition.

(** The loop of [Check], with the ids seen. *)
(* src/internal/rulepack/pack.go:86-97 (Check) *)
Fixpoint checkAll (seen : list string) (definitions : list Definition_) : res unit :=
  match definitions with
  | [] => Ok tt
  | definition :: rest =>
      if String.eqb (rd_ID definition) EmptyString then Err (Errorf "declares a rule with no id" [])
      else if mem (rd_ID definition) seen then Err (Errorf "declares a rule twice" [])
      else
        _ ← wrapf "rule" (checkDefinition definition);
        checkAll (rd_ID definition :: seen) rest
  end.

(* src/internal/rulepack/pack.go#Check *)
Definition Check_ (definitions : list Definition_) : res unit :=
  if Nat.eqb (List.length definitions) 0 then Err (Errorf "the turn-sequencing rule pack declares no rules" [])
  else checkAll [] definitions.

(* src/internal/rulepack/pack.go#Definitions *)
Definition Definitions (decoded : res (list Definition_)) : res (list Definition_) :=
  definitions ← wrapf "decode the turn-sequencing rule pack" decoded;
  _ ← Check_ definitions;
  Ok definitions.
End check.

(** ** The embedded pack ([turn-sequencing.json]), decoded *)

Definition when (field operator : string) (value : condition_value) : Condition :=
  mkCondition field operator value VNil false.

Definition lands (field : string) : Condition := when field "ne" (VText EmptyString).

Definition enters (phase : string) (from : list string) : Condition :=
  mkCondition TurnPhaseCurrent "transition" (VText phase) (VList (map AString from)) false.

Definition publish_ (cap : Z) (subject : string) : Action :=
  mkAction ActionTypePublish subject 0 (Some cap) EmptyString EmptyString.

Definition hop (id : string) (conditions : list Condition) (cap : Z) (subjects : list string) : Definition_ :=
  mkDefinition id true "and" "*.semmachina.*.*.turn.*" EmptyString conditions
    (map (publish_ cap) subjects) (map (publish_ cap) subjects) [] [] [].

(* src/internal/rulepack/turn-sequencing.json:1-229 (turn-sequencing) *)
Definition turn_sequencing : list Definition_ := [
  hop "turn-accepted-enters-interpretation"
    [when "turn.phase.current" "eq" (VText "accepted")] 3 ["semmachina.turn.interpreting"%string];
  hop "turn-interpretation-enters-adjudication"
    [when "turn.phase.current" "eq" (VText "interpreting"); lands "turn.case-decision.ref"] 3
    ["semmachina.turn.adjudicating"; "semmachina.turn.knowledge"; "semmachina.turn.accusation"]%string;
  hop "turn-verdict-requiring-a-roll-enters-resolution"
    [when "turn.phase.current" "eq" (VText "adjudicating");
     when "turn.verdict.requires-roll" "eq" (VScalar (ABool true))] 3 ["semmachina.turn.resolving"%string];
  hop "turn-verdict-declining-the-roll-enters-application"
    [when "turn.phase.current" "eq" (VText "adjudicating");
     when "turn.verdict.requires-roll" "eq" (VScalar (ABool false))] 3 ["semmachina.turn.applying"%string];
  hop "turn-roll-enters-application"
    [when "turn.phase.current" "eq" (VText "resolving");
     when "turn.roll.band" "in" (VList [AString "miss"; AString "partial"; AString "full"])] 3
    ["semmachina.turn.applying"%string];
  hop "turn-knowledge-committed-records-case-progress"
    [when "turn.phase.current" "eq" (VText "applying"); lands "turn.effects.batch";
     lands "turn.case-decision.ref"; lands "turn.knowledge.ref"] 3 ["semmachina.turn.case-progress"%string];
  hop "turn-committed-effects-enter-companion"
    [when "turn.phase.current" "eq" (VText "applying"); lands "turn.effects.batch"; lands "turn.knowledge.ref";
     lands "turn.accusation.ref"; lands "turn.case-progress.ref"] 1 ["semmachina.turn.companion"%string];
  hop "turn-companion-stage-enters-narration"
    [when "turn.phase.current" "eq" (VText "companion"); lands "turn.companion-stage.ref"] 3
    ["semmachina.turn.narrating"%string];
  hop "turn-narration-closes-the-turn"
    [when "turn.phase.current" "eq" (VText "narrating"); lands "turn.narration.ref"] 3
    ["semmachina.turn.complete"%string];
  hop "turn-completed-is-resolved" [enters "complete" ["narrating"%string]] 3 ["semmachina.turn.resolved"%string];
  hop "turn-failed-is-resolved"
    [enters "failed" ["accepted"; "interpreting"; "adjudicating"; "resolving"; "applying"; "companion";
                      "narrating"]%string] 3 ["semmachina.turn.resolved"%string]].

(** ** The case lifecycle *)

(* src/internal/rulepack/caseflow.go#const CaseEntityPattern *)
Definition CaseEntityPattern : string := "*.semmachina.*.*.case.*".

(* src/internal/rulepack/caseflow.go#type caseEdge *)
Record caseEdge : Type := { ce_id : string; ce_kind : string; ce_from : string; ce_to : string }.

(* src/internal/rulepack/caseflow.go:22-27 (caseEdges) *)
Definition caseEdges : list caseEdge := [
  {| ce_id := "case-body-observed-enters-discovery"; ce_kind := CaseEventBodyObserved;
     ce_from := CasePhaseColdOpen; ce_to := CasePhaseDiscovery |};
  {| ce_id := "case-investigation-started-enters-investigation"; ce_kind := CaseEventInvestigationStarted;
     ce_from := CasePhaseDiscovery; ce_to := CasePhaseInvestigation |};
  {| ce_id := "case-accusation-submitted-enters-accusation"; ce_kind := CaseEventAccusationSubmitted;
     ce_from := CasePhaseInvestigation; ce_to := CasePhaseAccusation |};
  {| ce_id := "case-correct-accusation-enters-denouement"; ce_kind := CaseEventAccusationCorrect;
     ce_from := CasePhaseAccusation; ce_to := CasePhaseDenouement |}].

(** The rule built for one edge. *)
(* src/internal/rulepack/caseflow.go:33-56 (CaseLifecycleDefinitions) *)
Definition case_rule (edge : caseEdge) : Definition_ :=
  let action := mkAction ActionTypeLifecycleTransition EmptyString 0 None CaseWorkflowName (ce_to edge) in
  mkDefinition (ce_id edge) true "and" CaseEntityPattern EmptyString
    [when CaseLifecyclePhase "eq" (VText (ce_from edge)); when CaseLifecycleEventID "ne" (VText EmptyString);
     when CaseLifecycleEventKindPredicate "eq" (VText (ce_kind edge));
     when CaseLifecycleFromPhase "eq" (VText (ce_from edge)); when CaseLifecycleToPhase "eq" (VText (ce_to edge))]
    [action] [action] [] [] [].

Section case.
Context `{RuleValidator}.

(* src/internal/rulepack/caseflow.go#CaseLifecycleDefinitions *)
Definition CaseLifecycleDefinitions : res (list Definition_) :=
  foldr (fun edge out =>
    _ ← wrapf "case lifecycle rule" (ValidateDefinition (case_rule edge));
    out ← out;
    Ok (case_rule edge :: out)) (Ok []) caseEdges.
End case.

(** ** The processor's ports *)

(** [component.PortDefinition] of a stage port: its name and its subject on [StageStream]. *)
Record StagePort : Type := { sp_Name : string; sp_Stream : string; sp_Subject : string }.

(* src/internal/rulepack/config.go#stagePort *)
Definition stagePort (name subject : string) : StagePort :=
  {| sp_Name := "semmachina.turn." +:+ name; sp_Stream := StageStream; sp_Subject := subject |}.

(** The outputs [ProcessorConfig] adds to the engine's default configuration. *)
(* src/internal/rulepack/config.go:44-57 (ProcessorConfig) *)
Definition processor_outputs : res (list StagePort) :=
  stages ← foldr (fun phase out =>
             subject ← SubjectForPhase phase;
             out ← out;
             Ok (stagePort phase subject :: out)) (Ok []) stagePhases;
  Ok (stages ++ [stagePort "resolved" SubjectResolved; stagePort "knowledge" SubjectKnowledge;
                 stagePort "accusation" SubjectAccusation; stagePort "case-progress" SubjectCaseProgress]).
