(* ===== verification/GraphIO.v ===== *)
(** [internal/graphio]: the engine's client of the graph, over the substrate's
    mutation client, and the proof that it honours the store contract the
    engine's components rely on. *)

From S2P Require Import Prelude GoStd GoErrors Graph Vocab Vocabulary Payload ProjectionContract Store.

Open Scope Z_scope.

(* src/internal/graphio/store.go#var ErrIndexNotReady *)
Definition ErrIndexNotReady : string := "graph index is not ready".

(** [graph.ExactEntity] and [projection.MutationReceipt]. *)
Record ExactEntity : Type := { x_Entity : option EntityState; x_KVRevision : Z }.

(* src/internal/graphio/store.go#codeOf *)
Definition codeOf (err : error) : string :=
  match errors_As is_ClassifiedError err with
  | Some (ClassifiedError _ code _) => code
  | _ => EmptyString
  end.

(* src/internal/graphio/store.go#type MutationClient *)
Class MutationClient (W : Type) : Type := {
  client_Create : string -> EntityState -> list Triple -> MW W ExactEntity;
  client_Reconcile : string -> string -> string -> list Triple -> MW W ExactEntity;
  ReadAuthoritative : string -> MW W (option ExactEntity)
}.

(** Standard-library and upstream functions whose text is not modelled:
    [json.Marshal] of a triple, used only to sort, and
    [graph.ValidateEntityStateContract]. *)
Class GraphIOParams : Type := {
  marshal_Triple : Triple -> string;
  ValidateEntityStateContract : EntityState -> res unit
}.

(** [slices.SortFunc] by the marshalled form. *)
Fixpoint insert_by {A} (key : A -> string) (x : A) (l : list A) : list A :=
  match l with
  | [] => [x]
  | y :: rest => if String.leb (key x) (key y) then x :: l else y :: insert_by key x rest
  end.
Definition sort_by {A} (key : A -> string) (l : list A) : list A := foldr (insert_by key) [] l.

Lemma insert_by_perm {A} key (x : A) l : insert_by key x l ≡ₚ x :: l.
Proof.
  induction l as [|y l IH]; cbn; [done|]. destruct (String.leb _ _); [done|].
  rewrite IH. apply Permutation_swap.
Qed.

Lemma sort_by_perm {A} key (l : list A) : sort_by key l ≡ₚ l.
Proof. induction l as [|x l IH]; cbn; [done|]. by rewrite insert_by_perm, IH. Qed.

Section graphio.
Context {W : Type} `{Substrate, GraphIOParams, MutationClient W}.

(* src/internal/graphio/store.go#triplesEqual *)
Definition triplesEqual (resident desired : list Triple) : bool :=
  bool_decide (sort_by marshal_Triple resident = sort_by marshal_Triple desired).

(* src/internal/graphio/store.go#createEnvelopeMatches *)
Definition createEnvelopeMatches (got want : option EntityState) : bool :=
  match got, want with
  | Some got, Some want =>
      String.eqb (ID got) (ID want) && bool_decide (MsgType got = MsgType want) &&
      bool_decide (StorageRef got = StorageRef want) &&
      (if EVersion want =? 0 then EVersion got =? 1 else EVersion got =? EVersion want) &&
      (if time_IsZero (UpdatedAt want) then negb (time_IsZero (UpdatedAt got))
       else UpdatedAt got =? UpdatedAt want)
  | _, _ => false
  end.

(** The checks on the one indexing fact the substrate adds. *)
(* src/internal/graphio/store.go:558-565 (birthMatches) *)
Definition indexing_fact_ok (got : EntityState) (triple : Triple) : bool :=
  String.eqb (Subject triple) (ID got) && String.eqb (Source triple) "graph-ingest-indexing-profile" &&
  negb (time_IsZero (Timestamp triple)) && bool_decide (Confidence triple = float_one) &&
  String.eqb (Context_ triple) EmptyString && String.eqb (Datatype triple) EmptyString &&
  match ExpiresAt triple with None => true | Some _ => false end &&
  match Object triple with AString profile => IsValidIndexingProfile profile | _ => false end.

(** The loop over the resident triples: [None] is a [return false]; otherwise
    the non-indexing triples and how many indexing facts were seen. *)
(* src/internal/graphio/store.go:552-569 (birthMatches) *)
Fixpoint birth_residents (got : EntityState) (triples : list Triple) (facts : nat)
    : option (list Triple * nat) :=
  match triples with
  | [] => Some ([], facts)
  | triple :: rest =>
      if String.eqb (Predicate triple) EntityIndexingProfile then
        if Nat.eqb (S facts) 1 && indexing_fact_ok got triple
        then birth_residents got rest (S facts) else None
      else match birth_residents got rest facts with
           | Some (resident, n) => Some (triple :: resident, n)
           | None => None
           end
  end.

(* src/internal/graphio/store.go#birthMatches *)
Definition birthMatches (got want : option EntityState) (desired : list Triple)
    (predicates : list string) : bool :=
  createEnvelopeMatches got want &&
  forallb (fun triple => mem (Predicate triple) predicates) desired &&
  match got with
  | None => false
  | Some got =>
      match birth_residents got (Triples got) 0 with
      | Some (resident, facts) => Nat.eqb facts 1 && triplesEqual resident desired
      | None => false
      end
  end.

(* src/internal/graphio/store.go#groupMatches *)
Definition groupMatches (state : option EntityState) (desired : list Triple)
    (predicates : list string) : bool :=
  match state with
  | None => false
  | Some state =>
      negb (bool_decide (predicates = [])) &&
      triplesEqual (group_triples predicates (Triples state)) desired
  end.

(** [triples[index].Context = entity.ID]. *)
Definition with_context (id : string) (t : Triple) : Triple := {|
  Subject := Subject t; Predicate := Predicate t; Object := Object t; Source := Source t;
  Timestamp := Timestamp t; Confidence := Confidence t; Context_ := id; Datatype := Datatype t;
  ExpiresAt := ExpiresAt t |}.

(** [bare.Triples = nil]. *)
Definition bare_entity (e : EntityState) : EntityState := {|
  ID := ID e; MsgType := MsgType e; EVersion := EVersion e; UpdatedAt := UpdatedAt e;
  StorageRef := StorageRef e; Triples := [] |}.

(** A failed mutation whose commit is unknown is settled by one authoritative
    read: [matches] decides whether the intended state is resident. *)
(* src/internal/graphio/store.go:246-252 (Store.CreateEntity) *)
Definition settle {A} (id : string) (err : error) (matches : ExactEntity -> option A) : MW W A :=
  if mutation_kind MutationCommitUnknown err then
    exact ← attempt (ReadAuthoritative id);
    match exact with
    | Ok (Some x) => match matches x with Some a => mret a | None => throw (Errorf "mutate entity" [err]) end
    | _ => throw (Errorf "mutate entity" [err])
    end
  else throw (Errorf "mutate entity" [err]).

(* src/internal/graphio/store.go#Store.CreateEntity *)
Definition graphio_CreateEntity (contract : string) (entity : EntityState) : MW W (option EntityState * Z) :=
  _ ← lift (wrapf "create entity" (ValidateEntityStateContract entity));
  _ ← lift (require (negb (String.eqb contract EmptyString))
              (Errorf "create requires a projection contract" []));
  let bare := bare_entity entity in
  let triples := map (with_context (ID entity)) (Triples entity) in
  receipt ← attempt (client_Create contract bare triples);
  match receipt with
  | Ok r => mret (x_Entity r, x_KVRevision r)
  | Err err =>
      if mutation_kind MutationConflict err then
        throw (Errorf "create entity" [Sentinel ErrEntityExists; err])
      else settle (ID entity) err (fun x =>
        if birthMatches (x_Entity x) (Some bare) triples (BirthPredicates contract)
        then Some (x_Entity x, x_KVRevision x) else None)
  end.

(* src/internal/graphio/store.go#Store.GetEntity *)
Definition graphio_GetEntity (id : string) : MW W EntityState :=
  _ ← lift (require (negb (String.eqb id EmptyString)) (Errorf "get requires an entity id" []));
  exact ← attempt (ReadAuthoritative id);
  match exact with
  | Err err =>
      if mutation_kind MutationNotFound err || String.eqb (codeOf err) ErrorCodeEntityNotFound then
        throw (Errorf "get entity" [Sentinel ErrEntityNotFound; err])
      else throw (Errorf "get entity" [err])
  | Ok None => throw (Errorf "invalid exact authority response" [])
  | Ok (Some x) =>
      match x_Entity x with
      | None => throw (Errorf "invalid exact authority response" [])
      | Some e => if x_KVRevision x =? 0 then throw (Errorf "invalid exact authority response" [])
                  else mret e
      end
  end.

(* src/internal/graphio/store.go#Store.Reconcile *)
Definition graphio_Reconcile (target : Target) (entityID : string) (desired : list Triple)
    : MW W EntityState :=
  _ ← lift (require (negb (String.eqb entityID EmptyString)) (Errorf "reconcile requires an entity id" []));
  _ ← lift (require (negb (String.eqb (Contract target) EmptyString || String.eqb (Group target) EmptyString))
              (Errorf "reconcile requires a projection contract and group" []));
  receipt ← attempt (client_Reconcile (Contract target) (Group target) entityID desired);
  match receipt with
  | Err err =>
      if mutation_kind MutationNotFound err then
        throw (Errorf "reconcile" [Sentinel ErrEntityNotFound; err])
      else settle entityID err (fun x =>
        if groupMatches (x_Entity x) desired (Predicates target) then x_Entity x else None)
  | Ok r =>
      match x_Entity r with
      | None => throw (Errorf "reconcile returned no entity" [])
      | Some e => mret e
      end
  end.

(** ** Batch reads *)

(** [graph.MissingEntity]. *)
Record MissingEntity : Type := { me_ID : string; me_Reason : string }.

(* src/internal/graphio/store.go#type BatchResult *)
Record BatchResult : Type := { br_Entities : list EntityState; br_Missing : list MissingEntity }.

(** [graph.MissingUnknown]. *)
Definition MissingUnknown : string := "unknown".

(** The accounting loop over the requested ids. *)
(* src/internal/graphio/store.go:362-367 (Store.GetEntities) *)
Fixpoint account (ids : list string) (accounted : gset string) (missing : list MissingEntity)
    : list MissingEntity :=
  match ids with
  | [] => missing
  | id :: rest =>
      if bool_decide (id ∈ accounted) then account rest accounted missing
      else account rest ({[id]} ∪ accounted) (missing ++ [{| me_ID := id; me_Reason := MissingUnknown |}])
  end.

(* src/internal/graphio/store.go#Store.GetEntities *)
Definition graphio_GetEntities (query : list string -> MW W BatchResult)
    (ValidateDecodedEntityStates : list EntityState -> res unit) (ids : list string)
    : MW W BatchResult :=
  match ids with
  | [] => mret {| br_Entities := []; br_Missing := [] |}
  | _ =>
      response ← query ids;
      _ ← lift (ValidateDecodedEntityStates (br_Entities response));
      let accounted : gset string :=
        list_to_set (map ID (br_Entities response) ++ map me_ID (br_Missing response)) in
      mret {| br_Entities := br_Entities response;
              br_Missing := account ids accounted (br_Missing response) |}
  end.

(* src/internal/graphio/store.go#Store.EntitiesByPredicateValue *)
Definition graphio_EntitiesByPredicateValue
    (query : string -> string -> Z -> MW W (list string)) (predicate value : string) (limit : Z)
    : MW W (list string) :=
  _ ← lift (require (negb (String.eqb predicate EmptyString)) (Errorf "predicate-value query requires a predicate" []));
  _ ← lift (require (negb (String.eqb value EmptyString)) (Errorf "predicate-value query requires a value" []));
  _ ← lift (require (0 <? limit) (Errorf "predicate-value query requires a positive limit" []));
  entities ← query predicate value limit;
  if limit <? Z.of_nat (List.length entities) then
    throw (Errorf "predicate-value query returned more than its hard limit" [])
  else mret entities.

(** ** Listings and incoming edges *)

(* src/internal/graphio/store.go#type PrefixPage *)
Record PrefixPage : Type := { pg_Entities : list EntityState; pg_NextCursor : string }.

(** The request and its decoded response; a page whose states do not validate
    is no page. *)
(* src/internal/graphio/store.go#Store.EntitiesWithPrefix *)
Definition graphio_EntitiesWithPrefix (query : string -> string -> Z -> MW W PrefixPage)
    (ValidateDecodedEntityStates : list EntityState -> res unit) (prefix cursor : string) (limit : Z)
    : MW W PrefixPage :=
  _ ← lift (require (negb (String.eqb prefix EmptyString)) (Errorf "prefix query requires a prefix" []));
  read ← attempt (query prefix cursor limit);
  response ← lift (wrapf "prefix query" read);
  _ ← lift (ValidateDecodedEntityStates (pg_Entities response));
  mret response.

(** [graph.IncomingEntry]: an edge that points at an entity. *)
Record IncomingEntry : Type := { ie_FromEntityID : string; ie_Predicate : string }.

(** [graph.ErrorCodeIndexNotReady]. *)
Definition ErrorCodeIndexNotReady : string := "index_not_ready".

(* src/internal/graphio/store.go#Store.IncomingRelationships *)
Definition graphio_IncomingRelationships (query : string -> MW W (list IncomingEntry)) (entityID : string)
    : MW W (list IncomingEntry) :=
  _ ← lift (require (negb (String.eqb entityID EmptyString)) (Errorf "incoming query requires an entity id" []));
  read ← attempt (query entityID);
  match read with
  | Err err =>
      if String.eqb (codeOf err) ErrorCodeIndexNotReady then
        throw (Errorf "incoming edges" [Sentinel ErrIndexNotReady; err])
      else throw (Errorf "incoming edges" [err])
  | Ok relationships => mret relationships
  end.

(** ** The contract *)

(** The engine's sentinels are the engine's: no upstream error wraps one. *)
Definition upstream (err : error) : Prop :=
  errors_Is ErrEntityNotFound err = false /\ errors_Is ErrEntityExists err = false.

(** What the substrate documents of its mutation client. *)
Class MutationClientLaws `{HasGraph W} : Prop := {
  ReadAuthoritative_spec id w :
    wp (ReadAuthoritative id) (fun r w' => graph_of w' = graph_of w /\
      match r with
      | Ok (Some x) => forall e, x_Entity x = Some e -> graph_of w !! id = Some e
      | Ok None => True
      | Err err => upstream err /\
          (mutation_kind MutationNotFound err = true \/ codeOf err = ErrorCodeEntityNotFound ->
           graph_of w !! id = None)
      end) w;
  client_Create_spec contract bare triples w :
    let want := {| ID := ID bare; MsgType := MsgType bare; EVersion := EVersion bare;
                   UpdatedAt := UpdatedAt bare; StorageRef := StorageRef bare; Triples := triples |} in
    wp (client_Create contract bare triples) (fun r w' =>
      create_effect want (graph_of w) (graph_of w') /\
      match r with
      | Ok x => forall e, x_Entity x = Some e -> born want e /\ graph_of w' !! ID bare = Some e
      | Err err => upstream err /\
          (mutation_kind MutationConflict err = true ->
           graph_of w' = graph_of w /\ is_Some (graph_of w !! ID bare))
      end) w;
  client_Reconcile_spec target id desired w :
    wp (client_Reconcile (Contract target) (Group target) id desired) (fun r w' =>
      match r with
      | Ok x => reconcile_effect target id desired (graph_of w) (graph_of w') /\
                forall e, x_Entity x = Some e -> graph_of w' !! id = Some e
      | Err _ => graph_of w' = graph_of w \/
                 reconcile_effect target id desired (graph_of w) (graph_of w')
      end) w
}.

Lemma triplesEqual_perm l1 l2 : triplesEqual l1 l2 = true -> l1 ≡ₚ l2.
Proof.
  unfold triplesEqual. intros Heq%bool_decide_eq_true.
  by rewrite <- (sort_by_perm marshal_Triple l1), Heq, sort_by_perm.
Qed.

Lemma birth_residents_spec got l facts resident n :
  birth_residents got l facts = Some (resident, n) ->
  forall p, p <> EntityIndexingProfile -> triplesFor p l = triplesFor p resident.
Proof.
  revert facts resident n. induction l as [|t l IH]; intros facts resident n; cbn.
  { by intros [= <- <-]. }
  destruct (String.eqb_spec (Predicate t) EntityIndexingProfile) as [E|E].
  - destruct (_ && _); [|done]. intros Hr p Hp. rewrite <- (IH _ _ _ Hr p Hp).
    unfold triplesFor. cbn. rewrite E. apply not_eq_sym, String.eqb_neq in Hp. by rewrite Hp.
  - destruct (birth_residents got l facts) as [[r m]|] eqn:Er; [|done].
    intros [= <- <-] p Hp. unfold triplesFor. cbn. unfold triplesFor in IH.
    by rewrite (IH _ _ _ Er p Hp).
Qed.

Lemma birthMatches_born got want desired predicates e :
  birthMatches got (Some want) desired predicates = true -> got = Some e ->
  born {| ID := ID want; MsgType := MsgType want; EVersion := EVersion want;
          UpdatedAt := UpdatedAt want; StorageRef := StorageRef want; Triples := desired |} e.
Proof.
  intros Hm ->. unfold birthMatches in Hm.
  apply andb_true_iff in Hm as [Hm Hres]. apply andb_true_iff in Hm as [Henv _].
  cbn in Henv. repeat (apply andb_true_iff in Henv as [Henv ?]).
  split; [by apply String.eqb_eq|]. intros p Hp. cbn.
  destruct (birth_residents e (Triples e) 0) as [[resident facts]|] eqn:Er; [|done].
  apply andb_true_iff in Hres as [_ Heq%triplesEqual_perm].
  unfold objectsFor. cbn [Triples].
  rewrite (birth_residents_spec _ _ _ _ _ Er p Hp). by apply objects_perm.
Qed.

Lemma groupMatches_perm e desired predicates :
  groupMatches (Some e) desired predicates = true ->
  group_triples predicates (Triples e) ≡ₚ desired.
Proof. unfold groupMatches. intros [_ Heq%triplesEqual_perm]%andb_true_iff. done. Qed.

Lemma objects_with_context id p l :
  map Object (triplesFor p (map (with_context id) l)) = map Object (triplesFor p l).
Proof.
  unfold triplesFor. induction l as [|t l IH]; [done|].
  cbn -[String.eqb]. destruct (String.eqb _ _); cbn -[String.eqb]; by rewrite IH.
Qed.

(** What the store sends is, to every reader, the entity it was asked to create. *)
Lemma born_sent entity e :
  born {| ID := ID (bare_entity entity); MsgType := MsgType (bare_entity entity);
          EVersion := EVersion (bare_entity entity); UpdatedAt := UpdatedAt (bare_entity entity);
          StorageRef := StorageRef (bare_entity entity);
          Triples := map (with_context (ID entity)) (Triples entity) |} e <-> born entity e.
Proof.
  unfold born, objectsFor; cbn [ID Triples bare_entity].
  split; intros [? Hb]; (split; [done|]); intros p Hp; specialize (Hb p Hp);
  by rewrite objects_with_context in *.
Qed.

Lemma reconcile_in_place target id desired g e :
  g !! id = Some e -> group_triples (Predicates target) (Triples e) ≡ₚ desired ->
  reconcile_effect target id desired g g.
Proof.
  intros Hg Hp. exists e, e. split; [done|]. split; [by repeat split|]. by rewrite insert_id.
Qed.

Lemma wrapped_not_exists msg err :
  errors_Is ErrEntityExists err = false -> errors_Is ErrEntityExists (Errorf msg [err]) = false.
Proof. intros E. rewrite errors_Is_Errorf. cbn. by rewrite E. Qed.

(** [graph.ValidateEntityStateContract] is upstream's: its error carries no
    sentinel of the engine. *)
Class ValidatorLaws : Prop := {
  ValidateEntityStateContract_upstream e err :
    ValidateEntityStateContract e = Err err -> upstream err
}.

Context `{HasGraph W, Clock W, !MutationClientLaws, !ValidatorLaws}.

Lemma wrapf_local msg e err :
  wrapf msg (ValidateEntityStateContract e) = Err err -> errors_Is ErrEntityExists err = false.
Proof.
  destruct (ValidateEntityStateContract e) eqn:E; cbn; [done|]. intros [= <-].
  apply wrapped_not_exists. by eapply ValidateEntityStateContract_upstream.
Qed.

Lemma graphio_GetEntity_spec id w :
  wp (graphio_GetEntity id) (fun r w' => graph_of w' = graph_of w /\
    match r with
    | Ok e => graph_of w !! id = Some e
    | Err err => errors_Is ErrEntityNotFound err = true -> graph_of w !! id = None
    end) w.
Proof.
  unfold graphio_GetEntity. wp_step. unfold require. destruct (negb _); wp_step; [|done].
  wp_steps. eapply wp_mono; [apply ReadAuthoritative_spec|].
  intros [[x|]|err] w' [Hg Hr]; cbn beta iota; [| |].
  - destruct (x_Entity x) as [e|] eqn:Ex; [|by wp_step].
    destruct (_ =? 0); wp_step; [done|]. split; [done|]. by apply Hr.
  - by wp_step.
  - destruct Hr as [[Hu _] Hr].
    destruct (_ || _) eqn:E; wp_step; (split; [done|]); rewrite errors_Is_Errorf; cbn.
    + intros _. apply Hr. apply orb_true_iff in E as [E|E%String.eqb_eq]; auto.
    + by rewrite Hu.
Qed.

Lemma settle_spec {A} id err (matches : ExactEntity -> option A) (Q : res A -> W -> Prop) w :
  (forall w', graph_of w' = graph_of w -> Q (Err (Errorf "mutate entity" [err])) w') ->
  (forall x a w', graph_of w' = graph_of w ->
     (forall e, x_Entity x = Some e -> graph_of w !! id = Some e) ->
     matches x = Some a -> Q (Ok a) w') ->
  wp (settle id err matches) Q w.
Proof.
  intros He Ho. unfold settle. destruct (mutation_kind _ _); [|wp_step; by apply He].
  wp_steps. eapply wp_mono; [apply ReadAuthoritative_spec|].
  intros [[x|]|err'] w' [Hg Hr]; cbn beta iota; [|wp_step; by apply He..].
  destruct (matches x) as [a|] eqn:Ex; wp_step; [|by apply He]. by apply (Ho x).
Qed.

Lemma graphio_Reconcile_spec target id desired w :
  wp (graphio_Reconcile target id desired) (fun r w' =>
    match r with
    | Ok e => reconcile_effect target id desired (graph_of w) (graph_of w') /\
              graph_of w' !! id = Some e
    | Err _ => graph_of w' = graph_of w \/ reconcile_effect target id desired (graph_of w) (graph_of w')
    end) w.
Proof.
  unfold graphio_Reconcile. wp_step. unfold require. destruct (negb _); wp_step; [|by left].
  wp_step. destruct (negb _); wp_step; [|by left].
  wp_steps. eapply wp_mono; [apply client_Reconcile_spec|].
  intros [r|err] w1; cbn beta iota.
  - intros [Heff Hx]. destruct (x_Entity r) as [e|] eqn:Er; wp_step; [|by right]. eauto.
  - intros Hw1. destruct (mutation_kind _ _); [by wp_step|].
    apply settle_spec; [intros w2 ->; exact Hw1|].
    intros x a w2 Hw2 Hx. destruct (groupMatches _ _ _) eqn:Em; [|done]. intros Ha.
    rewrite Ha in Em. apply groupMatches_perm in Em. specialize (Hx _ Ha).
    rewrite Hw2. split; [|done]. destruct Hw1 as [Hw1|Hw1]; [|done].
    rewrite Hw1 in *. by eapply reconcile_in_place.
Qed.

Lemma graphio_CreateEntity_spec contract want w :
  wp (graphio_CreateEntity contract want) (fun r w' =>
    match r with
    | Ok (Some e, _) => born want e /\ graph_of w' !! ID want = Some e /\
        create_effect want (graph_of w) (graph_of w')
    | Ok (None, _) => create_effect want (graph_of w) (graph_of w')
    | Err err =>
        create_effect want (graph_of w) (graph_of w') /\
        (errors_Is ErrEntityExists err = true ->
         graph_of w' = graph_of w /\ is_Some (graph_of w !! ID want))
    end) w.
Proof.
  assert (Hce : forall g g', create_effect {| ID := ID (bare_entity want);
      MsgType := MsgType (bare_entity want); EVersion := EVersion (bare_entity want);
      UpdatedAt := UpdatedAt (bare_entity want); StorageRef := StorageRef (bare_entity want);
      Triples := map (with_context (ID want)) (Triples want) |} g g' <-> create_effect want g g').
  { intros g g'. unfold create_effect. cbn [ID bare_entity]. by setoid_rewrite born_sent. }
  unfold graphio_CreateEntity. wp_step. wp_step.
  destruct (wrapf _ _) as [[]|err] eqn:Ev; [|apply wrapf_local in Ev; split; [by left|by rewrite Ev]].
  wp_step. unfold require. destruct (negb _); wp_step; [|split; [by left|done]].
  wp_steps. eapply wp_mono; [apply client_Create_spec|].
  intros [r|err] w1; cbn beta iota; intros [Heff%Hce Hr].
  - wp_step. destruct (x_Entity r) as [e|] eqn:Ex; [|done].
    destruct (Hr e eq_refl) as [Hb Hg]. split_and!; [by apply born_sent|done|done].
  - destruct Hr as [[_ Hu] Hc]. destruct (mutation_kind _ _) eqn:Ek.
    { wp_step. split; [done|]. intros _. by apply Hc. }
    apply settle_spec; [intros w2 Hw2; rewrite Hw2; split; [done|]; by rewrite (wrapped_not_exists _ _ Hu)|].
    intros x a w2 Hw2 Hx. destruct (birthMatches _ _ _ _) eqn:Em; [|done]. intros [= <-].
    rewrite Hw2. destruct (x_Entity x) as [e|] eqn:Ex; [|done].
    pose proof (proj1 (born_sent want e) (birthMatches_born _ _ _ _ _ Em eq_refl)) as Hborn.
    split_and!; [done|by apply Hx|done].
Qed.

#[export] Instance graphio_store : GraphStore W := {
  CreateEntity := graphio_CreateEntity;
  GetEntity := graphio_GetEntity;
  Reconcile := graphio_Reconcile
}.

(** The engine's graph client honours the store contract. *)
Lemma graphio_laws : (forall w : W, graph_of (now w).2 = graph_of w) -> GraphStoreLaws W.
Proof.
  intros Hnow. split.
  - apply graphio_GetEntity_spec.
  - apply graphio_Reconcile_spec.
  - apply graphio_CreateEntity_spec.
  - apply Hnow.
Qed.
End graphio.
