(* ===== verification/Turn.v ===== *)
(** [internal/turn]: the turn's identity, and the recorder that accepts an
    action, advances a turn's phase and ends it. *)

From S2P Require Import Prelude GoStd GoErrors Graph Vocab Vocabulary Payload ContentRecords ProjectionContract Store.

Open Scope Z_scope.

(* src/internal/turn/recorder.go#const Source *)
Definition RecorderSource : string := "turn-recorder".
(* src/internal/turn/identity.go#const TypeSegment *)
Definition TurnTypeSegment : string := "turn".

(* src/internal/turn/recorder.go#var EntityMessageType *)
Definition TurnEntityMessageType : MessageType :=
  {| Domain := PayloadDomain; Category := CategoryTurnState; Version_ := SchemaVersion |}.

(** ** Identity *)

(* src/internal/turn/identity.go#type Identity *)
Record Identity : Type := { Org : string; WorldNS : string; Template : string }.

Section identity.
Context `{Substrate}.

(* src/internal/turn/identity.go#Identity.Validate *)
Definition Identity_Validate (i : Identity) : res unit :=
  _ ← wrapf "turn org" (ValidateIDSegment (Org i));
  _ ← wrapf "turn world namespace" (ValidateIDSegment (WorldNS i));
  wrapf "turn template" (ValidateIDSegment (Template i)).

(* src/internal/turn/identity.go#Identity.EntityID *)
Definition EntityID (i : Identity) (turnID : string) : res string :=
  _ ← Identity_Validate i;
  _ ← wrapf "turn id" (ValidateIDSegment turnID);
  ComposeEntityID (Org i) (WorldNS i) (Template i) TurnTypeSegment turnID.

(* src/internal/turn/identity.go#Identity.EntityIDForAction *)
Definition EntityIDForAction (i : Identity) (actionID : string) : res (string * string) :=
  _ ← wrapf "action id" (ValidateIDSegment actionID);
  let turnID := TurnIDForAction actionID in
  entityID ← EntityID i turnID;
  Ok (turnID, entityID).
End identity.

(** ** Transition outcomes and faults *)

(* src/internal/turn/recorder.go#const OutcomeAdvanced *)
Definition OutcomeAdvanced : string := "advanced".
(* src/internal/turn/recorder.go#const OutcomeResumed *)
Definition OutcomeResumed : string := "resumed".
(* src/internal/turn/recorder.go#const OutcomeDeclined *)
Definition OutcomeDeclined : string := "declined".
(* src/internal/turn/errors.go:58-58 (FaultSkippedStage) *)
Definition FaultSkippedStage : string := "skipped-stage".
(* src/internal/turn/errors.go:63-63 (FaultUnknownPhase) *)
Definition FaultUnknownPhase : string := "unknown-phase".
(* src/internal/turn/errors.go:66-66 (FaultCreatedNotAdvanced) *)
Definition FaultCreatedNotAdvanced : string := "created-not-advanced".
(* src/internal/turn/errors.go:69-69 (FaultFailureNeedsReason) *)
Definition FaultFailureNeedsReason : string := "failure-needs-reason".

(* src/internal/turn/recorder.go#type Transition *)
Record Transition : Type := { Previous : string; Phase : string; Outcome : string }.

(* src/internal/turn/recorder.go#type Acceptance *)
Record Acceptance : Type := {
  a_TurnID : string; a_TurnEntityID : string; a_Created : bool; a_Phase : string }.

(* src/internal/turn/recorder.go#classify *)
Definition classify (previous to : string) : string * string :=
  match PhaseRank previous, PhaseRank to with
  | Some previousRank, Some toRank =>
      if IsTerminal previous then (OutcomeDeclined, EmptyString)
      else if String.eqb previous to then (OutcomeResumed, EmptyString)
      else if PhaseFollows previous to then (OutcomeAdvanced, EmptyString)
      else if toRank <? previousRank then (OutcomeDeclined, EmptyString)
      else (EmptyString, FaultSkippedStage)
  | _, _ => (EmptyString, FaultUnknownPhase)
  end.

(** ** Readers *)

(* src/internal/turn/recorder.go#PhaseOf *)
Definition PhaseOf (state : option EntityState) (turnEntityID : string) : res string :=
  match state with
  | None => Err (RecordError turnEntityID (Errorf "read back as nil" []))
  | Some state =>
      match objectsFor state TurnPhaseCurrent with
      | [] => Err (RecordError turnEntityID (Errorf "carries no phase triple" []))
      | [AString value] =>
          match ParseTurnPhase value with
          | Ok phase => Ok phase
          | Err e => Err (RecordError turnEntityID e)
          end
      | [_] => Err (RecordError turnEntityID (Errorf "records a phase that is not a string" []))
      | _ => Err (RecordError turnEntityID (Errorf "holds several values for the single-valued phase" []))
      end
  end.

(** The loop [HeldTurns] and [ResolvedTurns] share: readable objects, and how
    many were not. *)
(* src/internal/turn/recorder.go:519-535 (HeldTurns) *)
Definition readable (o : any) : option string :=
  match o with AString s => if String.eqb s EmptyString then None else Some s | _ => None end.

Definition pointed (state : option EntityState) (predicate : string) : list string * nat :=
  match state with
  | None => ([], O)
  | Some state =>
      let objects := objectsFor state predicate in
      let held := omap readable objects in
      (held, (List.length objects - List.length held)%nat)
  end.

(* src/internal/turn/recorder.go#HeldTurns *)
Definition HeldTurns (state : option EntityState) : list string * nat := pointed state PlayerTurnCurrent.

(* src/internal/turn/recorder.go#ResolvedTurns *)
Definition ResolvedTurns (state : option EntityState) : list string * nat := pointed state PlayerTurnResolved.

(* src/internal/turn/recorder.go#playerOf *)
Definition playerOf (state : EntityState) (turnEntityID : string) : res string :=
  match objectsFor state TurnActionPlayer with
  | [] => Err (RecordError turnEntityID (Errorf "carries no player" []))
  | [AString playerID] =>
      if String.eqb playerID EmptyString then
        Err (RecordError turnEntityID (Errorf "records a value that is not a player entity id" []))
      else Ok playerID
  | [_] => Err (RecordError turnEntityID (Errorf "records a value that is not a player entity id" []))
  | _ => Err (RecordError turnEntityID (Errorf "holds several values for the single-valued player" []))
  end.

(* src/internal/turn/recorder.go#confirmAccepted *)
Definition confirmAccepted (stored : option EntityState) (turnEntityID : string) : res unit :=
  match PhaseOf stored turnEntityID with
  | Err e => Err (Errorf "turn was created but its phase did not store" [e])
  | Ok phase =>
      if negb (String.eqb phase PhaseAccepted) then
        Err (RecordError turnEntityID (Errorf "was created in another phase" []))
      else Ok tt
  end.

(** ** The recorder *)

(* src/internal/turn/recorder.go#type ActionStore *)
Class ActionStore (W : Type) : Type := { PutAction : string -> PlayerAction -> MW W Ref }.

(** Storing an action, like every object-store write, leaves the graph alone. *)
Class ActionStoreLaws (W : Type) `{HasGraph W, ActionStore W} : Prop := {
  PutAction_spec turnEntityID action w :
    wp (PutAction turnEntityID action) (fun _ w' => graph_of w' = graph_of w) w
}.

Section recorder.
Context {W : Type} `{Substrate, GraphStore W, Clock W, ActionStore W}.

(* src/internal/turn/recorder.go#Recorder.currentState *)
Definition currentState (turnEntityID : string) : MW W (EntityState * string) :=
  read ← attempt (GetEntity turnEntityID);
  match read with
  | Err err => throw (Errorf "read turn entity" [err])
  | Ok state =>
      phase ← lift (PhaseOf (Some state) turnEntityID);
      mret (state, phase)
  end.

(* src/internal/turn/recorder.go#Recorder.Current *)
Definition Current (turnEntityID : string) : MW W string :=
  state_phase ← currentState turnEntityID;
  mret state_phase.2.

(* src/internal/turn/recorder.go#Recorder.turnIsLive *)
Definition turnIsLive (turnEntityID : string) : MW W bool :=
  read ← attempt (GetEntity turnEntityID);
  match read with
  | Err err =>
      if errors_Is ErrEntityNotFound err then mret false
      else throw (Errorf "read turn to place a player's turn pointer" [err])
  | Ok state =>
      match PhaseOf (Some state) turnEntityID with
      | Err err => if errors_As_b is_RecordError err then mret false else throw err
      | Ok phase => mret (negb (IsTerminal phase))
      end
  end.

(** The loop of [holdsAnotherLiveTurn] over the turns a player holds. *)
(* src/internal/turn/recorder.go:466-478 (Recorder.holdsAnotherLiveTurn) *)
Fixpoint anyLive (held : list string) (exceptTurnEntityID : string) : MW W bool :=
  match held with
  | [] => mret false
  | turnEntityID :: rest =>
      if String.eqb turnEntityID exceptTurnEntityID then anyLive rest exceptTurnEntityID
      else
        live ← turnIsLive turnEntityID;
        if live : bool then mret true else anyLive rest exceptTurnEntityID
  end.

(* src/internal/turn/recorder.go#Recorder.holdsAnotherLiveTurn *)
Definition holdsAnotherLiveTurn (playerID exceptTurnEntityID : string) : MW W bool :=
  read ← attempt (GetEntity playerID);
  match read with
  | Err err =>
      if errors_Is ErrEntityNotFound err then mret false
      else throw (Errorf "read player to place their turn pointer" [err])
  | Ok state => anyLive (HeldTurns (Some state)).1 exceptTurnEntityID
  end.

(* src/internal/turn/recorder.go#Recorder.pointPlayerAtTurn *)
Definition pointPlayerAtTurn (playerID : string) (acceptance : Acceptance) : MW W unit :=
  if IsTerminal (a_Phase acceptance) then mret tt
  else
    late ← holdsAnotherLiveTurn playerID (a_TurnEntityID acceptance);
    if late : bool then mret tt
    else
      let pointer := {| pt_PlayerID := playerID; pt_TurnID := a_TurnID acceptance;
                        pt_TurnEntityID := a_TurnEntityID acceptance |} in
      at_ ← read_clock;
      triples ← lift (PlayerTurn_Triples pointer playerID RecorderSource at_);
      written ← attempt (Reconcile PlayerCurrentTurn playerID triples);
      match written with
      | Err err => throw (Errorf "point player at turn" [err])
      | Ok _ => mret tt
      end.

(* src/internal/turn/recorder.go#Recorder.acceptedEntity *)
Definition acceptedEntity (turnID turnEntityID : string) (actionRef : Ref) (action : PlayerAction)
    : MW W EntityState :=
  at_ ← read_clock;
  let state := {| ts_TurnID := turnID; ts_Phase := PhaseAccepted; ts_PlayerID := pa_PlayerID action;
                  ts_SceneID := pa_SceneID action; ts_ActionRef := Ref_String actionRef;
                  ts_Reason := EmptyString; ts_DetailRef := EmptyString |} in
  triples ← lift (TurnState_Triples state turnEntityID RecorderSource at_);
  mret {| ID := turnEntityID; MsgType := TurnEntityMessageType; EVersion := 1; UpdatedAt := at_;
          StorageRef := None; Triples := triples |}.

(* src/internal/turn/recorder.go#Recorder.Accept *)
Definition Accept (identity : Identity) (action : PlayerAction) : MW W Acceptance :=
  let rejected {A} (r : res A) : res A :=
    match r with Ok a => Ok a | Err e => Err (RejectedActionError (pa_ActionID action) e) end in
  _ ← lift (rejected (PlayerAction_Validate action));
  ids ← lift (rejected (EntityIDForAction identity (pa_ActionID action)));
  let '(turnID, turnEntityID) := ids in
  stored ← attempt (PutAction turnEntityID action);
  match stored with
  | Err err => throw (Errorf "store action for turn" [err])
  | Ok actionRef =>
      built ← attempt (acceptedEntity turnID turnEntityID actionRef action);
      entity ← lift (rejected built);
      created ← attempt (CreateEntity TurnBirthContract entity);
      acceptance ←
        match created with
        | Ok (resultEntity, _) =>
            _ ← lift (confirmAccepted resultEntity turnEntityID);
            mret {| a_TurnID := turnID; a_TurnEntityID := turnEntityID; a_Created := true;
                    a_Phase := PhaseAccepted |}
        | Err err =>
            if errors_Is ErrEntityExists err then
              phase ← Current turnEntityID;
              mret {| a_TurnID := turnID; a_TurnEntityID := turnEntityID; a_Created := false;
                      a_Phase := phase |}
            else throw (Errorf "create turn" [err])
        end;
      _ ← pointPlayerAtTurn (pa_PlayerID action) acceptance;
      mret acceptance
  end.

(** The write both resolved-pointer paths make. *)
(* src/internal/turn/recorder.go:798-812 (Recorder.pointPlayerAtResolvedTurn) *)
Definition writeResolvedPointer (message playerID turnID turnEntityID : string) : MW W unit :=
  let pointer := {| prt_PlayerID := playerID; prt_TurnID := turnID; prt_TurnEntityID := turnEntityID |} in
  at_ ← read_clock;
  triples ← lift (PlayerResolvedTurn_Triples pointer playerID RecorderSource at_);
  written ← attempt (Reconcile PlayerResolvedTurnTarget playerID triples);
  match written with
  | Err err => throw (Errorf message [err])
  | Ok _ => mret tt
  end.

(* src/internal/turn/recorder.go#Recorder.pointPlayerAtResolvedTurn *)
Definition pointPlayerAtResolvedTurn (state : EntityState) (turnID turnEntityID : string) : MW W unit :=
  playerID ← lift (playerOf state turnEntityID);
  writeResolvedPointer "point player at their resolved turn" playerID turnID turnEntityID.

(* src/internal/turn/recorder.go#Recorder.repairResolvedPointer *)
Definition repairResolvedPointer (state : EntityState) (turnID turnEntityID : string) : MW W unit :=
  playerID ← lift (playerOf state turnEntityID);
  read ← attempt (GetEntity playerID);
  match read with
  | Err err =>
      if errors_Is ErrEntityNotFound err then mret tt
      else throw (Errorf "read player to repair their resolved-turn pointer" [err])
  | Ok player =>
      if mem turnEntityID (ResolvedTurns (Some player)).1 then mret tt
      else if negb (mem turnEntityID (HeldTurns (Some player)).1) then mret tt
      else writeResolvedPointer "repair player's pointer" playerID turnID turnEntityID
  end.

(* src/internal/turn/recorder.go#Recorder.transition *)
Definition transition (turnID turnEntityID to reason : string) (detail : Ref) : MW W Transition :=
  _ ← lift (RequireTurnEntityID turnID turnEntityID);
  stored_previous ← currentState turnEntityID;
  let '(stored, previous) := stored_previous in
  let '(outcome, fault) := classify previous to in
  if negb (String.eqb fault EmptyString) then
    throw (IllegalTransitionError turnEntityID previous to fault)
  else if negb (String.eqb outcome OutcomeAdvanced) then
    _ ← (if IsTerminal to && IsTerminal previous
         then repairResolvedPointer stored turnID turnEntityID else mret tt);
    mret {| Previous := previous; Phase := previous; Outcome := outcome |}
  else
    let state := {| ts_TurnID := turnID; ts_Phase := to; ts_PlayerID := EmptyString;
                    ts_SceneID := EmptyString; ts_ActionRef := EmptyString; ts_Reason := reason;
                    ts_DetailRef := Ref_String detail |} in
    at_ ← read_clock;
    triples ← lift (TurnState_Triples state turnEntityID RecorderSource at_);
    written ← attempt (Reconcile TurnPhaseState turnEntityID triples);
    match written with
    | Err err => throw (Errorf "record phase on turn" [err])
    | Ok _ =>
        _ ← (if IsTerminal to then pointPlayerAtResolvedTurn stored turnID turnEntityID else mret tt);
        mret {| Previous := previous; Phase := to; Outcome := OutcomeAdvanced |}
    end.

(* src/internal/turn/recorder.go#Recorder.Advance *)
Definition Advance (turnID turnEntityID to : string) : MW W Transition :=
  if String.eqb to PhaseAccepted then
    throw (IllegalTransitionError turnEntityID EmptyString to FaultCreatedNotAdvanced)
  else if String.eqb to PhaseFailed then
    throw (IllegalTransitionError turnEntityID EmptyString to FaultFailureNeedsReason)
  else transition turnID turnEntityID to EmptyString zero_Ref.

(* src/internal/turn/recorder.go#Recorder.Fail *)
Definition Fail_ (turnID turnEntityID reason : string) (detail : Ref) : MW W Transition :=
  match ParseFailureReason reason with
  | Err err => throw (Errorf "refusing to record a turn failure" [err])
  | Ok _ =>
      _ ← lift (if Ref_IsZero detail then Ok tt else Ref_Validate detail);
      transition turnID turnEntityID PhaseFailed reason detail
  end.

(** ** The intake handler *)

(* src/internal/turn/intake.go#Intake.Handle *)
Definition Handle (identity : Identity) (decoded : res PlayerAction) : MW W unit :=
  match decoded with
  | Err err => throw (TerminateDelivery err)
  | Ok action =>
      accepted ← attempt (Accept identity action);
      match accepted with
      | Err err =>
          if errors_As_b is_RejectedActionError err then throw (TerminateDelivery err)
          else throw err
      | Ok _ => mret tt
      end
  end.
End recorder.
