(* ===== verification/Caseflow.v ===== *)
(** [internal/caseflow]: the mystery case's own state machine - its workflow
    declaration, the lifecycle receipts that ask for one of its edges, and the
    deterministic stage that derives such a receipt from what a turn recorded. *)

From S2P Require Import Prelude GoStd GoHash GoErrors Graph Vocab Vocabulary Payload Mechanics Decisions ContentRecords ContentStore ProjectionContract Store Sequencing Turn.

Open Scope Z_scope.

(** ** The workflow *)

(** [lifecycle.Workflow], the part the engine's rules are checked against. *)
Record Workflow_ : Type := {
  wf_Name : string;
  wf_EntityIDPattern : string;
  wf_Phases : list string;
  wf_Transitions : gmap string (list string);
  wf_PhasePredicate : string;
  wf_Audit : string * string * string
}.

(* src/internal/caseflow/caseflow.go#Workflow *)
Definition Workflow : Workflow_ := {|
  wf_Name := CaseWorkflowName;
  wf_EntityIDPattern := "*.semmachina.*.*.case.*";
  wf_Phases := [CasePhaseColdOpen; CasePhaseDiscovery; CasePhaseInvestigation; CasePhaseAccusation;
                CasePhaseDenouement];
  wf_Transitions := list_to_map
    [(CasePhaseColdOpen, [CasePhaseDiscovery]);
     (CasePhaseDiscovery, [CasePhaseInvestigation]);
     (CasePhaseInvestigation, [CasePhaseAccusation]);
     (CasePhaseAccusation, [CasePhaseDenouement]);
     (CasePhaseDenouement, [])];
  wf_PhasePredicate := CaseLifecyclePhase;
  wf_Audit := (CaseTransitionSource, CaseTransitionAt, CaseTransitionFrom)
|}.

(* src/internal/caseflow/caseflow.go#type CaseState *)
Record CaseState : Type := { cs_ID : string; cs_CurrentPhase : string }.
(* src/internal/caseflow/caseflow.go#CaseState.IsTerminal *)
Definition CaseState_IsTerminal (s : CaseState) : bool := String.eqb (cs_CurrentPhase s) CasePhaseDenouement.

(** ** Receipts *)

(* src/internal/caseflow/receipt.go#const ReceiptSource *)
Definition ReceiptSource : string := "caseflow-receipt".

(* src/internal/caseflow/receipt.go#type TransitionRequest *)
Record TransitionRequest : Type := {
  tq_CaseEntityID : string;
  tq_EventID : string;
  tq_Kind : string
}.

(* src/internal/caseflow/receipt.go#type ReceiptOutcome *)
Record ReceiptOutcome : Type := { ro_Recorded : bool; ro_From : string; ro_To : string }.

(* src/internal/caseflow/receipt.go#edgeFor *)
Definition edgeFor (kind : string) : option (string * string) :=
  if String.eqb kind CaseEventBodyObserved then Some (CasePhaseColdOpen, CasePhaseDiscovery)
  else if String.eqb kind CaseEventInvestigationStarted then Some (CasePhaseDiscovery, CasePhaseInvestigation)
  else if String.eqb kind CaseEventAccusationSubmitted then Some (CasePhaseInvestigation, CasePhaseAccusation)
  else if String.eqb kind CaseEventAccusationCorrect then Some (CasePhaseAccusation, CasePhaseDenouement)
  else None.

(** [slices.Index]; [-1] when the value is not there. *)
Fixpoint index_from (i : Z) (x : string) (l : list string) : Z :=
  match l with
  | [] => -1
  | y :: rest => if String.eqb y x then i else index_from (i + 1) x rest
  end.

(* src/internal/vocabulary/caseflow.go#CasePhases *)
Definition CasePhases : list string := enum_all casePhaseEnum.

(* src/internal/caseflow/receipt.go#phaseRank *)
Definition phaseRank (phase : string) : Z := index_from 0 phase CasePhases.

(** The triples an entity states of itself. *)
Definition own (state : EntityState) (predicate : string) (t : Triple) : bool :=
  String.eqb (Subject t) (ID state) && String.eqb (Predicate t) predicate.

(* src/internal/caseflow/receipt.go#literal *)
Definition literal (state : EntityState) (predicate : string) : string :=
  match List.find (own state predicate) (Triples state) with
  | Some t => match Object t with AString value => value | _ => EmptyString end
  | None => EmptyString
  end.

(* src/internal/caseflow/receipt.go#receiptTriple *)
Definition receiptTriple (subject predicate object : string) (at_ : time) : Triple := {|
  Subject := subject; Predicate := predicate; Object := AString object; Source := ReceiptSource;
  Timestamp := at_; Confidence := float_one; Context_ := EmptyString; Datatype := EmptyString;
  ExpiresAt := None |}.

(** The four triples of a receipt. *)
(* src/internal/caseflow/receipt.go:118-123 (Recorder.Record) *)
Definition receipt_triples (request : TransitionRequest) (from to : string) (at_ : time) : list Triple :=
  let t := receiptTriple (tq_CaseEntityID request) in
  [t CaseLifecycleEventID (tq_EventID request) at_;
   t CaseLifecycleEventKindPredicate (tq_Kind request) at_;
   t CaseLifecycleFromPhase from at_;
   t CaseLifecycleToPhase to at_].

Section receipt.
Context {W : Type} `{Substrate, GraphStore W, Clock W}.

(* src/internal/caseflow/receipt.go#Recorder.Record *)
Definition Record_ (request : TransitionRequest) : MW W ReceiptOutcome :=
  if String.eqb (tq_CaseEntityID request) EmptyString then
    throw (Errorf "caseflow transition request requires a case entity id" [])
  else if String.eqb (tq_EventID request) EmptyString then
    throw (Errorf "caseflow transition request requires a nonempty event id" [])
  else
    match edgeFor (tq_Kind request) with
    | None =>
        match ParseCaseLifecycleEventKind (tq_Kind request) with
        | Err parseErr => throw (Errorf "caseflow transition request event kind" [parseErr])
        | Ok _ => throw (Errorf "caseflow transition request event kind" [])
        end
    | Some (from, to) =>
        let unchanged := {| ro_Recorded := false; ro_From := from; ro_To := to |} in
        read ← attempt (GetEntity (tq_CaseEntityID request));
        match read with
        | Err err => throw (Errorf "read case before recording event" [err])
        | Ok state =>
            if String.eqb (literal state CaseLifecycleEventID) (tq_EventID request) then mret unchanged
            else
              current ← lift (wrapf "case current lifecycle phase"
                                (ParseCasePhase (literal state CaseLifecyclePhase)));
              let currentRank := phaseRank current in
              let fromRank := phaseRank from in
              if fromRank <? currentRank then mret unchanged
              else if currentRank <? fromRank then
                throw (CaseTransitionError (tq_CaseEntityID request) (tq_EventID request) (tq_Kind request)
                         current from)
              else
                at_ ← read_clock;
                written ← attempt (Reconcile CaseLifecycleReceipt (tq_CaseEntityID request)
                                     (receipt_triples request from to at_));
                match written with
                | Err err => throw (Errorf "record case event" [err])
                | Ok _ => mret {| ro_Recorded := true; ro_From := from; ro_To := to |}
                end
        end
    end.
End receipt.

(** ** Progress *)

(** [ProgressArtifacts], and the artifact readers and writers of the knowledge
    and accusation stages: calls of the content store. A reader may return nil. *)
Class CaseArtifacts (W : Type) : Type := {
  artifacts_InstanceName : string;
  artifacts_GetCaseDecisionRecord : Ref -> MW W (option CaseDecisionRecord);
  artifacts_GetKnowledgeReceipt : Ref -> MW W (option KnowledgeReceipt);
  artifacts_PutKnowledgeReceipt : string -> KnowledgeReceipt -> MW W Ref;
  artifacts_PutTestimony : string -> Testimony -> MW W Ref;
  artifacts_GetCaseProgressRecord : Ref -> MW W (option CaseProgressRecord);
  artifacts_PutCaseProgressRecord : string -> CaseProgressRecord -> MW W Ref;
  artifacts_GetAccusationRecord : Ref -> MW W (option AccusationRecord);
  artifacts_PutAccusationRecord : string -> AccusationRecord -> MW W Ref;
  artifacts_PutFailureDetail : string -> FailureDetail -> MW W Ref
}.

#[export] Instance CaseProgressRecord_eq_dec : EqDecision CaseProgressRecord.
Proof. solve_decision. Defined.

(* src/internal/caseflow/progress.go#permanentArtifact *)
Definition permanentArtifact (err : error) : bool :=
  errors_Is ErrArtifactNotFound err || errors_Is ErrArtifactReference err ||
  errors_Is ErrArtifactCorrupt err || errors_Is ErrArtifactConflict err.

(** [permanentProgress] on the way out of a call: a fault in what was read. *)
(* src/internal/caseflow/progress.go#permanentProgress *)
Definition permanentProgress {A} (r : res A) : res A :=
  match r with Ok a => Ok a | Err err => Err (PermanentProgressError err) end.

(* src/internal/caseflow/progress.go#permanentProgressf *)
Definition permanentProgressf (msg : string) (wrapped : list error) : error :=
  PermanentProgressError (Errorf msg wrapped).

(** An artifact call's error: permanent when the artifact itself is at fault. *)
(* src/internal/caseflow/progress.go:125-130 (Progressor.Process) *)
Definition artifact_result {A} (msg : string) (r : res A) : res A :=
  match r with
  | Ok a => Ok a
  | Err err => if permanentArtifact err then Err (PermanentProgressError (Errorf msg [err]))
               else Err (Errorf msg [err])
  end.

(* src/internal/caseflow/progress.go#objects *)
Definition progress_objects (state : EntityState) (predicate : string) : res (list string) :=
  let fix go triples :=
    match triples with
    | [] => Ok []
    | t :: rest =>
        if own state predicate t then
          match Object t with
          | AString value =>
              if String.eqb value EmptyString then Err (Errorf "entity carries malformed object" [])
              else out ← go rest; Ok (value :: out)
          | _ => Err (Errorf "entity carries malformed object" [])
          end
        else go rest
    end in
  go (Triples state).

Section progress.
Context {W : Type} `{Substrate, GraphStore W, Clock W, CaseArtifacts W}.

(* src/internal/caseflow/progress.go#Progressor.exactRef *)
Definition exactRef (text predicate turnID : string) : res Ref :=
  ref ← wrapf "parse" (ParseRef text);
  want ← KeyFor predicate SubjectTurn turnID;
  if negb (String.eqb (Instance_ ref) artifacts_InstanceName) || negb (String.eqb (Key ref) want) then
    Err (Errorf "reference does not address its slot" [])
  else Ok ref.

(* src/internal/caseflow/progress.go#Progressor.requiredRef *)
Definition requiredRef (state : EntityState) (predicate turnID : string) : res Ref :=
  values ← progress_objects state predicate;
  match values with
  | [value] => exactRef value predicate turnID
  | _ => Err (Errorf "turn carries another number of values" [])
  end.

(** The lifecycle event a decision asks for, if any. *)
(* src/internal/caseflow/progress.go:222-247 (Progressor.derive) *)
Definition event_of (decision : CaseDecision) : MW W string :=
  if String.eqb (cd_Kind decision) CaseDecisionObserve then
    read ← attempt (GetEntity (cd_CaseID decision));
    match read with
    | Err err =>
        if errors_Is ErrEntityNotFound err then
          throw (PermanentProgressError (Errorf "read case victim for progress" [err]))
        else throw (Errorf "read case victim for progress" [err])
    | Ok caseState =>
        if negb (String.eqb (ID caseState) (cd_CaseID decision)) then
          throw (permanentProgressf "case is missing or foreign" [])
        else
          victims ← lift (permanentProgress (progress_objects caseState CaseMemberVictim));
          match victims with
          | [victim] => mret (if mem victim (cd_TargetRefs decision) then CaseEventBodyObserved else EmptyString)
          | _ => throw (permanentProgressf "case carries another number of victims" [])
          end
    end
  else if String.eqb (cd_Kind decision) CaseDecisionInvestigate then mret CaseEventInvestigationStarted
  else mret EmptyString.

(* src/internal/caseflow/progress.go#Progressor.derive *)
Definition derive (record : CaseDecisionRecord) (knowledge : KnowledgeReceipt)
    : MW W (CaseProgressRecord * option TransitionRequest) :=
  if String.eqb (cdr_Status record) CaseDecisionStatusNotApplicable then
    if negb (String.eqb (kr_Status knowledge) KnowledgeNotApplicable) then
      throw (permanentProgressf "non-case decision has a case-scoped knowledge receipt" [])
    else mret ({| cpr_TurnID := cdr_TurnID record; cpr_DecisionID := EmptyString; cpr_CaseID := EmptyString;
                  cpr_Status := CaseProgressNotApplicable; cpr_EventID := EmptyString;
                  cpr_EventKind := EmptyString |}, None)
  else
    match cdr_Decision record with
    | None => throw (permanentProgressf "case progress decision and knowledge identities disagree" [])
    | Some decision =>
        if negb (String.eqb (kr_Status knowledge) KnowledgeCommitted) ||
           negb (String.eqb (kr_DecisionID knowledge) (cd_DecisionID decision)) then
          throw (permanentProgressf "case progress decision and knowledge identities disagree" [])
        else
          kind ← event_of decision;
          let progress status eventID eventKind := {|
            cpr_TurnID := cdr_TurnID record; cpr_DecisionID := cd_DecisionID decision;
            cpr_CaseID := cd_CaseID decision; cpr_Status := status; cpr_EventID := eventID;
            cpr_EventKind := eventKind |} in
          if String.eqb kind EmptyString then
            mret (progress CaseProgressNotApplicable EmptyString EmptyString, None)
          else
            let eventID := CaseProgressEventID (cdr_TurnID record) (cd_DecisionID decision) kind in
            mret (progress CaseProgressEventRecorded eventID kind,
                  Some {| tq_CaseEntityID := cd_CaseID decision; tq_EventID := eventID; tq_Kind := kind |})
    end.

(** What the stage read and derived before it writes anything. *)
Record progress_plan : Type := {
  pp_resident : list string;
  pp_expected : CaseProgressRecord;
  pp_event : option TransitionRequest
}.

(** The two artifacts the turn names, each valid and of this turn. *)
(* src/internal/caseflow/progress.go:116-149 (Progressor.Process) *)
Definition read_artifacts (turnID : string) (state : EntityState)
    : MW W (CaseDecisionRecord * KnowledgeReceipt) :=
  decisionRef ← lift (permanentProgress (requiredRef state TurnCaseDecisionRef turnID));
  knowledgeRef ← lift (permanentProgress (requiredRef state TurnKnowledgeRef turnID));
  decisionRead ← attempt (artifacts_GetCaseDecisionRecord decisionRef);
  decisionRecord ← lift (artifact_result "read case decision for progress" decisionRead);
  knowledgeRead ← attempt (artifacts_GetKnowledgeReceipt knowledgeRef);
  knowledge ← lift (artifact_result "read knowledge receipt for progress" knowledgeRead);
  match decisionRecord, knowledge with
  | Some decisionRecord, Some knowledge =>
      _ ← lift (permanentProgress (wrapf "case decision for progress" (CaseDecisionRecord_Validate decisionRecord)));
      _ ← lift (permanentProgress (wrapf "knowledge receipt for progress" (KnowledgeReceipt_Validate knowledge)));
      if negb (String.eqb (cdr_TurnID decisionRecord) turnID) || negb (String.eqb (kr_TurnID knowledge) turnID) then
        throw (permanentProgressf "progress artifact identity does not match turn" [])
      else mret (decisionRecord, knowledge)
  | _, _ => throw (permanentProgressf "case progress artifact store returned nil" [])
  end.

(* src/internal/caseflow/progress.go:97-154 (Progressor.Process) *)
Definition plan_progress (turnID turnEntityID : string) : MW W progress_plan :=
  _ ← lift (permanentProgress (RequireTurnEntityID turnID turnEntityID));
  read ← attempt (GetEntity turnEntityID);
  match read with
  | Err err =>
      if errors_Is ErrEntityNotFound err then throw (MissingProgressTurnError turnEntityID err)
      else throw (Errorf "read progress turn" [err])
  | Ok state =>
      if negb (String.eqb (ID state) turnEntityID) then
        throw (MissingProgressTurnError turnEntityID (Sentinel ErrEntityNotFound))
      else
        resident ← lift (permanentProgress (progress_objects state TurnCaseProgressRef));
        artifacts ← read_artifacts turnID state;
        derived ← derive artifacts.1 artifacts.2;
        mret {| pp_resident := resident; pp_expected := derived.1; pp_event := derived.2 |}
  end.

(** A turn that already carries its reference: the record behind it has to be
    the one this delivery derives. *)
(* src/internal/caseflow/progress.go:155-182 (Progressor.Process) *)
Definition confirm_resident (turnID : string) (plan : progress_plan) : MW W Ref :=
  match pp_resident plan with
  | [value] =>
      ref ← lift (permanentProgress (exactRef value TurnCaseProgressRef turnID));
      read ← attempt (artifacts_GetCaseProgressRecord ref);
      record ← lift (artifact_result "read resident case progress" read);
      match record with
      | None => throw (permanentProgressf "resident case progress store returned nil" [])
      | Some record =>
          _ ← lift (permanentProgress (wrapf "resident case progress" (CaseProgressRecord_Validate record)));
          if negb (bool_decide (record = pp_expected plan)) then
            throw (permanentProgressf "resident case progress does not match the canonical decision" [])
          else mret ref
      end
  | _ => throw (permanentProgressf "turn carries several case progress references" [])
  end.

(** The event's receipt first, the record next, the turn's reference last. *)
(* src/internal/caseflow/progress.go:183-206 (Progressor.Process) *)
Definition commit_progress (turnEntityID : string) (plan : progress_plan) : MW W Ref :=
  _ ← match pp_event plan with
      | None => mret tt
      | Some event =>
          recorded ← attempt (Record_ event);
          match recorded with
          | Ok _ => mret tt
          | Err err =>
              if errors_As_b is_CaseTransitionError err || errors_Is ErrEntityNotFound err then
                throw (PermanentProgressError (Errorf "record deterministic case progress" [err]))
              else throw (Errorf "record deterministic case progress" [err])
          end
      end;
  stored ← attempt (artifacts_PutCaseProgressRecord turnEntityID (pp_expected plan));
  ref ← lift (artifact_result "store case progress" stored);
  at_ ← read_clock;
  let triple := receiptTriple turnEntityID TurnCaseProgressRef (Ref_String ref) at_ in
  written ← attempt (Reconcile TurnCaseProgress turnEntityID [triple]);
  match written with
  | Err err => throw (Errorf "land case progress reference last" [err])
  | Ok _ => mret ref
  end.

(* src/internal/caseflow/progress.go#Progressor.Process *)
Definition Process (turnID turnEntityID : string) : MW W Ref :=
  plan ← plan_progress turnID turnEntityID;
  if Nat.ltb 0 (List.length (pp_resident plan)) then confirm_resident turnID plan
  else commit_progress turnEntityID plan.

(** ** The consumer *)

Context `{ActionStore W}.

(* src/internal/caseflow/consumer.go#ProgressConsumer.Handle *)
Definition ProgressConsumer_Handle (owner : Identity) (decoded : res rulePublication) : MW W unit :=
  match ParseTrigger decoded with
  | Err err => throw (TerminateDelivery err)
  | Ok trigger =>
      if negb (String.eqb (t_Subject trigger) SubjectCaseProgress) then
        throw (TerminateDelivery (Errorf "case progress durable received another subject" []))
      else
        match EntityID owner (t_TurnID trigger) with
        | Err err => throw (TerminateDelivery (Errorf "case progress trigger identity" [err]))
        | Ok ownedEntityID =>
            if negb (String.eqb (t_TurnEntityID trigger) ownedEntityID) then
              throw (TerminateDelivery (Errorf "case progress trigger belongs outside owning world" []))
            else
              processed ← attempt (Process (t_TurnID trigger) (t_TurnEntityID trigger));
              match processed with
              | Ok _ => mret tt
              | Err err =>
                  if errors_As_b is_MissingProgressTurnError err then throw (TerminateDelivery err)
                  else if errors_As_b is_PermanentProgressError err then
                    failed ← attempt (Fail_ (t_TurnID trigger) (t_TurnEntityID trigger)
                                        FailureCaseProgressInvalid zero_Ref);
                    match failed with
                    | Ok _ => mret tt
                    | Err failErr =>
                        if errors_Is ErrEntityNotFound failErr then
                          throw (TerminateDelivery (Errorf "turn disappeared before failure recording" [failErr]))
                        else throw (Errorf "durably fail invalid case progress turn" [failErr])
                    end
                  else throw (Errorf "process deterministic case progress" [err])
              end
        end
  end.
End progress.
