(* ===== verification/Knowledge.v ===== *)
(** [internal/knowledge]: what a case decision is allowed to reveal, the
    snapshot that decision is authorized against, the ordered commit of the
    grants, and the consumer that runs one on a trigger. *)

From S2P Require Import Prelude GoStd GoHash GoErrors Graph Vocab Vocabulary Payload Mechanics Decisions ContentRecords ContentStore ProjectionContract Store Sequencing Turn Caseflow.

Open Scope Z_scope.

(** ** The snapshot *)

(* src/internal/knowledge/authorize.go#type eligibility *)
Record eligibility : Type := {
  el_MinimumPhase : string; el_Kinds : list string; el_Targets : list string }.

(* src/internal/knowledge/authorize.go#type AuthoredBelief *)
Record AuthoredBelief : Type := {
  ab_ID : string; ab_HolderID : string; ab_EvidenceID : string; ab_Stance : string; ab_Prose : string }.

(** The sets of the snapshot are the keys its maps hold [true] for. *)
(* src/internal/knowledge/authorize.go#type Preflight *)
Record Preflight : Type := {
  pf_Decision : option CaseDecision;
  pf_ActingActorID : string;
  pf_CaseID : string;
  pf_CasePhase : string;
  pf_CaseEvidence : list string;
  pf_CaseCharacters : list string;
  pf_Eligibility : gmap string eligibility;
  pf_Beliefs : gmap (string * string) AuthoredBelief;
  pf_Known : list (string * string);
  pf_SolutionLocked : list string
}.

(* src/internal/knowledge/authorize.go#type TestimonyDraft *)
Record TestimonyDraft : Type := {
  td_BeliefID : string; td_SourceActorID : string; td_RecipientID : string;
  td_EvidenceID : string; td_Stance : string; td_Prose : string }.

(* src/internal/knowledge/authorize.go#type Entry *)
Record Entry : Type := {
  en_RecipientID : string; en_EvidenceID : string; en_Testimony : option TestimonyDraft }.

(** A [Plan] is its entries. *)
(* src/internal/knowledge/authorize.go#type Plan *)
Definition Plan : Type := list Entry.

(* src/internal/knowledge/authorize.go#actorEntries *)
Definition actorEntries (actorID : string) (evidenceIDs : list string) : Plan :=
  map (fun evidenceID => {| en_RecipientID := actorID; en_EvidenceID := evidenceID; en_Testimony := None |})
    evidenceIDs.

(* src/internal/knowledge/authorize.go#intersects *)
Definition intersects (left right : list string) : bool := existsb (fun value => mem value right) left.

(* src/internal/knowledge/authorize.go#phaseAtLeast *)
Definition phaseAtLeast (current minimum : string) : bool :=
  let order := CasePhases in
  (index_from 0 minimum order <=? index_from 0 current order) && (0 <=? index_from 0 minimum order).

(* src/internal/knowledge/authorize.go#reject *)
Definition reject (reason : string) : error := AuthorizationError reason.

(** ** Authorization *)

(** The solution may be told once the case is over. *)
(* src/internal/knowledge/authorize.go:168-170 (AuthorizeWithWitnesses) *)
Definition locked (input : Preflight) (evidenceID : string) : bool :=
  mem evidenceID (pf_SolutionLocked input) && negb (String.eqb (pf_CasePhase input) CasePhaseDenouement).

(* src/internal/knowledge/authorize.go:167-184 (AuthorizeWithWitnesses) *)
Definition reveal_ok (input : Preflight) (decision : CaseDecision) (evidenceID : string) : res unit :=
  if locked input evidenceID then Err (reject AuthorizationSolutionLocked)
  else if negb (mem evidenceID (pf_CaseEvidence input)) then Err (reject AuthorizationIneligibleReveal)
  else
    match pf_Eligibility input !! evidenceID with
    | None => Err (reject AuthorizationIneligibleReveal)
    | Some eligible =>
        if negb (mem (cd_Kind decision) (el_Kinds eligible)) then Err (reject AuthorizationIneligibleReveal)
        else if negb (phaseAtLeast (pf_CasePhase input) (el_MinimumPhase eligible)) then
          Err (reject AuthorizationIneligiblePhase)
        else if negb (intersects (cd_TargetRefs decision) (el_Targets eligible)) then
          Err (reject AuthorizationInvalidTarget)
        else Ok tt
    end.

(* src/internal/knowledge/authorize.go:208-225 (AuthorizeWithWitnesses) *)
Fixpoint question_entries (input : Preflight) (target : string) (evidence : list string) : res (list Entry) :=
  match evidence with
  | [] => Ok []
  | evidenceID :: rest =>
      if locked input evidenceID then Err (reject AuthorizationSolutionLocked)
      else if negb (mem evidenceID (pf_CaseEvidence input)) then Err (reject AuthorizationIneligibleReveal)
      else
        match pf_Beliefs input !! (target, evidenceID) with
        | None => Err (reject AuthorizationQuestionTargetMismatch)
        | Some belief =>
            entries ← question_entries input target rest;
            Ok ({| en_RecipientID := pf_ActingActorID input; en_EvidenceID := evidenceID;
                   en_Testimony := Some {|
                     td_BeliefID := ab_ID belief; td_SourceActorID := ab_HolderID belief;
                     td_RecipientID := pf_ActingActorID input; td_EvidenceID := evidenceID;
                     td_Stance := ab_Stance belief; td_Prose := ab_Prose belief |} |} :: entries)
        end
  end.

Section authorize.
Context {W : Type}.

(** [ShareAuthorizer] and [WitnessAuthorizer]; either may be absent. *)
Definition ShareAuthorizer : Type := string -> string -> string -> MW W bool.
Definition WitnessAuthorizer : Type := string -> list string -> MW W (string * bool).

(* src/internal/knowledge/authorize.go:119-124 (DenyShares) *)
Definition DenyShares : ShareAuthorizer := fun _ _ _ => mret false.

(* src/internal/knowledge/authorize.go:233-248 (AuthorizeWithWitnesses) *)
Fixpoint share_ok (input : Preflight) (shares : option ShareAuthorizer) (recipient : string)
    (evidence : list string) : MW W unit :=
  match evidence with
  | [] => mret tt
  | evidenceID :: rest =>
      if negb (bool_decide ((pf_ActingActorID input, evidenceID) ∈ pf_Known input)) then
        throw (reject AuthorizationShareSourceUnknown)
      else
        allowed ← match shares with
                  | None => mret false
                  | Some authorized =>
                      answer ← attempt (authorized (pf_ActingActorID input) recipient evidenceID);
                      lift (wrapf "authorize share target" answer)
                  end;
        if negb allowed then throw (reject AuthorizationShareTargetUnauthorized)
        else share_ok input shares recipient rest
  end.

(** The companion who saw it too, when one was there. *)
(* src/internal/knowledge/authorize.go:185-200 (AuthorizeWithWitnesses) *)
Definition with_witness (input : Preflight) (decision : CaseDecision) (witnesses : option WitnessAuthorizer)
    : MW W Plan :=
  let plan := actorEntries (pf_ActingActorID input) (cd_RevealRefs decision) in
  match witnesses with
  | None => mret plan
  | Some witness =>
      if Nat.eqb (List.length (cd_RevealRefs decision)) 0 then mret plan
      else
        answer ← attempt (witness (pf_ActingActorID input) (cd_TargetRefs decision));
        seen ← lift (wrapf "authorize companion witness" answer);
        let '(witnessID, allowed) := seen in
        if negb allowed then mret plan
        else if String.eqb witnessID EmptyString || String.eqb witnessID (pf_ActingActorID input) then
          throw (reject AuthorizationWitnessUnauthorized)
        else mret (plan ++ actorEntries witnessID (cd_RevealRefs decision))
  end.

(* src/internal/knowledge/authorize.go#AuthorizeWithWitnesses *)
Definition AuthorizeWithWitnesses (input : Preflight) (shares : option ShareAuthorizer)
    (witnesses : option WitnessAuthorizer) : MW W Plan :=
  match pf_Decision input with
  | None => throw (reject AuthorizationUnsupportedKind)
  | Some decision =>
      if negb (String.eqb (cd_CaseID decision) (pf_CaseID input)) then throw (reject AuthorizationWrongCase)
      else if negb (String.eqb (cd_ActorID decision) (pf_ActingActorID input)) then
        throw (reject AuthorizationWrongActor)
      else
        let kind := cd_Kind decision in
        if String.eqb kind CaseDecisionObserve || String.eqb kind CaseDecisionInvestigate then
          _ ← lift (all_ok (reveal_ok input decision) (cd_RevealRefs decision));
          with_witness input decision witnesses
        else if String.eqb kind CaseDecisionQuestion then
          match cd_TargetRefs decision with
          | [target] =>
              if negb (mem target (pf_CaseCharacters input)) then throw (reject AuthorizationInvalidTarget)
              else lift (question_entries input target (cd_RevealRefs decision))
          | _ => throw (reject AuthorizationInvalidTarget)
          end
        else if String.eqb kind CaseDecisionShare then
          match cd_TargetRefs decision with
          | [recipient] =>
              _ ← share_ok input shares recipient (cd_RevealRefs decision);
              mret (actorEntries recipient (cd_RevealRefs decision))
          | _ => throw (reject AuthorizationInvalidTarget)
          end
        else if String.eqb kind CaseDecisionRequestHint || String.eqb kind CaseDecisionAccuse ||
                String.eqb kind CaseDecisionOther then
          if negb (Nat.eqb (List.length (cd_RevealRefs decision)) 0) then
            throw (reject AuthorizationUnsupportedKind)
          else mret []
        else throw (reject AuthorizationUnsupportedKind)
  end.

(* src/internal/knowledge/authorize.go#Authorize *)
Definition Authorize (input : Preflight) (shares : option ShareAuthorizer) : MW W Plan :=
  AuthorizeWithWitnesses input shares None.
End authorize.
Arguments ShareAuthorizer W : clear implicits.
Arguments WitnessAuthorizer W : clear implicits.

(** ** Loading the snapshot *)

(** The string objects an entity records; others are skipped. *)
(* src/internal/knowledge/loader.go#objects *)
Definition knowledge_objects (state : EntityState) (predicate : string) : list string :=
  omap (fun o => match o with AString value => Some value | _ => None end) (objectsFor state predicate).

(* src/internal/knowledge/loader.go#soleString *)
Definition soleString (state : EntityState) (predicate : string) : res string :=
  match knowledge_objects state predicate with
  | [value] => Ok value
  | _ => Err (Errorf "entity holds another number of values" [])
  end.

(* src/internal/knowledge/loader.go#entityInstance *)
Definition entityInstance (id : string) : string := last_part id.

(** The latest of the phases an entity records. *)
(* src/internal/knowledge/loader.go:158-169 (currentCasePhase) *)
Fixpoint latest_phase (values : list string) (current : string) (currentRank : Z) : res string :=
  match values with
  | [] => Ok current
  | value :: rest =>
      phase ← ParseCasePhase value;
      let rank := index_from 0 phase CasePhases in
      if currentRank <? rank then latest_phase rest phase rank else latest_phase rest current currentRank
  end.

(* src/internal/knowledge/loader.go#currentCasePhase *)
Definition currentCasePhase (state : EntityState) : res string :=
  match knowledge_objects state CaseLifecyclePhase with
  | [] => Err (Errorf "entity holds no values" [])
  | values => latest_phase values EmptyString (-1)
  end.

(** [EntitiesByPredicateValue]: the entities that record a value, up to a limit. *)
Class PredicateReader (W : Type) : Type := { EntitiesByPredicateValue : string -> string -> Z -> MW W (list string) }.

(* src/internal/knowledge/loader.go#type LoadResult *)
Record LoadResult : Type := { lr_TurnID : string; lr_Applicable : bool; lr_Preflight : option Preflight }.

Section loader.
Context {W : Type} `{Substrate, GraphStore W, Clock W, CaseArtifacts W, PredicateReader W}.

(** One pass of the loop; an evidence entity that is not there is left out. *)
(* src/internal/knowledge/loader.go#Loader.loadEligibility *)
Fixpoint loadEligibility (evidenceIDs : list string) (out : gmap string eligibility)
    : MW W (gmap string eligibility) :=
  match evidenceIDs with
  | [] => mret out
  | evidenceID :: rest =>
      read ← attempt (GetEntity evidenceID);
      match read with
      | Err err => if errors_Is ErrEntityNotFound err then loadEligibility rest out else throw err
      | Ok evidence =>
          phaseValue ← lift (soleString evidence EvidenceRevealPhase);
          minimum ← lift (ParseCasePhase phaseValue);
          let values := knowledge_objects evidence EvidenceRevealKindPredicate in
          _ ← lift (all_ok (fun value => kind ← ParseEvidenceRevealKind value; Ok tt) values);
          loadEligibility rest
            (<[evidenceID := {| el_MinimumPhase := minimum; el_Kinds := values;
                                el_Targets := knowledge_objects evidence EvidenceRevealTarget |}]> out)
      end
  end.

(** The beliefs of the listed entities, the last one of a holder and evidence kept. *)
(* src/internal/knowledge/loader.go:195-222 (Loader.loadBeliefs) *)
Fixpoint read_beliefs (beliefIDs : list string) (out : gmap (string * string) AuthoredBelief)
    : MW W (gmap (string * string) AuthoredBelief) :=
  match beliefIDs with
  | [] => mret out
  | beliefID :: rest =>
      belief ← GetEntity beliefID;
      evidenceID ← lift (soleString belief BeliefEvidenceRef);
      stanceText ← lift (soleString belief BeliefStanceCurrent);
      stance ← lift (ParseBeliefStance stanceText);
      prose ← lift (soleString belief WorldEntityDescription);
      holder ← lift (soleString belief BeliefActorHolder);
      read_beliefs rest
        (<[(holder, evidenceID) := {| ab_ID := beliefID; ab_HolderID := holder; ab_EvidenceID := evidenceID;
                                      ab_Stance := stance; ab_Prose := prose |}]> out)
  end.

(* src/internal/knowledge/loader.go#Loader.loadBeliefs *)
Definition loadBeliefs (actorID : string) (out : gmap (string * string) AuthoredBelief)
    : MW W (gmap (string * string) AuthoredBelief) :=
  beliefIDs ← EntitiesByPredicateValue BeliefActorHolder actorID 64;
  read_beliefs beliefIDs out.

(* src/internal/knowledge/loader.go:232-241 (Loader.loadKnown) *)
Fixpoint read_known (actorID : string) (knowledgeIDs : list string) (out : list (string * string))
    : MW W (list (string * string)) :=
  match knowledgeIDs with
  | [] => mret out
  | knowledgeID :: rest =>
      state ← GetEntity knowledgeID;
      evidenceID ← lift (soleString state KnowledgeEvidenceRef);
      read_known actorID rest ((actorID, evidenceID) :: out)
  end.

(* src/internal/knowledge/loader.go#Loader.loadKnown *)
Definition loadKnown (actorID : string) (out : list (string * string)) : MW W (list (string * string)) :=
  knowledgeIDs ← EntitiesByPredicateValue KnowledgeActorHolder actorID MaxKnowledgeReceiptEntries;
  read_known actorID knowledgeIDs out.

(** The decision a turn references, or nothing when it has none to make. *)
(* src/internal/knowledge/loader.go:53-92 (Loader.Load) *)
Definition load_decision (turnEntityID : string) (turnState : EntityState) : MW W (option CaseDecision) :=
  let turnID := entityInstance turnEntityID in
  refText ← lift (soleString turnState TurnCaseDecisionRef);
  ref ← lift (ParseRef refText);
  record ← artifacts_GetCaseDecisionRecord ref;
  match record with
  | None => throw (Errorf "case decision store returned a nil record" [])
  | Some record =>
      if negb (String.eqb (cdr_TurnID record) turnID) then throw (reject AuthorizationWrongTurn)
      else if match cdr_Decision record with
              | Some d => negb (String.eqb (cd_TurnID d) turnID) | None => false end
      then throw (reject AuthorizationWrongTurn)
      else if String.eqb (cdr_Status record) CaseDecisionStatusNotApplicable then mret None
      else match cdr_Decision record with
           | None => throw (Errorf "decision record is applicable but has no decision" [])
           | Some decision => mret (Some decision)
           end
  end.

(* src/internal/knowledge/loader.go#Loader.Load *)
Definition Load (caseID turnEntityID : string) : MW W LoadResult :=
  turnState ← GetEntity turnEntityID;
  let turnID := entityInstance turnEntityID in
  found ← load_decision turnEntityID turnState;
  match found with
  | None => mret {| lr_TurnID := turnID; lr_Applicable := false; lr_Preflight := None |}
  | Some decision =>
      playerID ← lift (soleString turnState TurnActionPlayer);
      player ← GetEntity playerID;
      actorID ← lift (soleString player PlayerCharacterCurrent);
      caseState ← GetEntity caseID;
      phase ← lift (currentCasePhase caseState);
      eligible ← loadEligibility (cd_RevealRefs decision) ∅;
      beliefs ← match cd_TargetRefs decision with
                | [target] => if String.eqb (cd_Kind decision) CaseDecisionQuestion
                              then loadBeliefs target ∅ else mret ∅
                | _ => mret ∅
                end;
      known ← (if String.eqb (cd_Kind decision) CaseDecisionShare then loadKnown actorID [] else mret []);
      mret {| lr_TurnID := turnID; lr_Applicable := true; lr_Preflight := Some {|
        pf_Decision := Some decision; pf_ActingActorID := actorID; pf_CaseID := caseID; pf_CasePhase := phase;
        pf_CaseEvidence := knowledge_objects caseState CaseMemberEvidence;
        pf_CaseCharacters := knowledge_objects caseState CaseMemberSuspect ++
                             knowledge_objects caseState CaseMemberVictim;
        pf_Eligibility := eligible; pf_Beliefs := beliefs; pf_Known := known;
        pf_SolutionLocked := knowledge_objects caseState CaseSolutionCulprit ++
                             knowledge_objects caseState CaseSolutionMethod ++
                             knowledge_objects caseState CaseSolutionMotive |} |}
  end.
End loader.

(** ** Granting *)

(* src/internal/knowledge/granter.go#const Source *)
Definition KnowledgeSource : string := "knowledge-granter".
(* src/internal/knowledge/granter.go:32-32 (knowledgeEntityType) *)
Definition knowledgeEntityType : MessageType :=
  {| Domain := PayloadDomain; Category := "knowledge_grant_entity"; Version_ := SchemaVersion |}.
(* src/internal/knowledge/granter.go:33-33 (revelationEntityType) *)
Definition revelationEntityType : MessageType :=
  {| Domain := PayloadDomain; Category := "revelation_receipt_entity"; Version_ := SchemaVersion |}.

(* src/internal/knowledge/granter.go#framedID *)
Definition knowledge_framedID (parts : list string) : string :=
  let hash := fold_left (fun hash part => (hash ++ be_split 4 (u32 (len part))) ++ bytes_of part) parts [] in
  EncodeToString (sha256 hash).

(* src/internal/knowledge/granter.go#fact *)
Definition fact (subject predicate object : string) (at_ : time) : Triple := {|
  Subject := subject; Predicate := predicate; Object := AString object; Source := KnowledgeSource;
  Timestamp := at_; Confidence := float_one; Context_ := subject; Datatype := EmptyString; ExpiresAt := None |}.

(* src/internal/knowledge/granter.go#entity *)
Definition entity (id : string) (typ : MessageType) (at_ : time) (triples : list Triple) : EntityState := {|
  ID := id; MsgType := typ; EVersion := 1; UpdatedAt := at_; StorageRef := None; Triples := triples |}.

(** [json.Marshal] of a triple's object. *)
Class ObjectEncoder : Type := { marshal_object : any -> res string }.

(** What one entry of the plan becomes. *)
(* src/internal/knowledge/granter.go:100-106 (Granter.commit) *)
Record derived : Type := {
  dv_entry : Entry;
  dv_knowledgeID : string;
  dv_revelationID : string;
  dv_testimony : option (string * Testimony)   (* its identity and its record *)
}.

Section granter.
Context `{Substrate, ObjectEncoder}.

(* src/internal/knowledge/granter.go#entityIDFor *)
Definition entityIDFor (anchor kind instance : string) : res string :=
  match Split dot anchor with
  | [org; _; worldNS; template; _; _] => ComposeEntityID org worldNS template kind instance
  | _ => Err (Errorf "anchor is not a six-part entity id" [])
  end.

(* src/internal/knowledge/granter.go:108-132 (Granter.commit) *)
Definition derive_entry (decision : CaseDecision) (entry : Entry) : res derived :=
  knowledgeID ← entityIDFor (en_RecipientID entry) EntityKindKnowledge
    (knowledge_framedID ["knowledge-grant/v1"%string; en_RecipientID entry; en_EvidenceID entry]);
  revelationID ← entityIDFor (en_RecipientID entry) EntityKindRevelation
    (knowledge_framedID ["revelation-receipt/v1"%string; cd_TurnID decision; cd_DecisionID decision;
                         en_RecipientID entry; en_EvidenceID entry]);
  Ok {| dv_entry := entry; dv_knowledgeID := knowledgeID; dv_revelationID := revelationID;
        dv_testimony :=
          match en_Testimony entry with
          | None => None
          | Some draft =>
              Some (TestimonyID (cd_TurnID decision) (cd_DecisionID decision) (td_BeliefID draft)
                      (en_RecipientID entry) (en_EvidenceID entry),
                    {| ty_TurnID := cd_TurnID decision; ty_DecisionID := cd_DecisionID decision;
                       ty_BeliefID := td_BeliefID draft; ty_SourceActorID := td_SourceActorID draft;
                       ty_RecipientID := en_RecipientID entry; ty_EvidenceID := en_EvidenceID entry;
                       ty_Stance := td_Stance draft; ty_Prose := td_Prose draft |})
          end |}.

(** A slice built by a loop that stops at the first error. *)
Fixpoint each {A B} (f : A -> res B) (l : list A) : res (list B) :=
  match l with
  | [] => Ok []
  | x :: rest => y ← f x; ys ← each f rest; Ok (y :: ys)
  end.

(* src/internal/knowledge/granter.go#frameworkManagedPredicate *)
Definition frameworkManagedPredicate (predicate : string) : bool := String.eqb predicate EntityIndexingProfile.

(* src/internal/knowledge/granter.go:232-250 (exactEntitySemantics) *)
Definition normalize (triples : list Triple) (resident : bool) : res (list string) :=
  out ← each (fun t =>
          object ← wrapf "encode object for exact verification" (marshal_object (Object t));
          Ok (Subject t +:+ String "000"%char (Predicate t +:+ String "000"%char object)))
        (List.filter (fun t => negb (resident && frameworkManagedPredicate (Predicate t))) triples);
  Ok (Sort out).

(* src/internal/knowledge/granter.go#exactEntitySemantics *)
Definition exactEntitySemantics (got : option EntityState) (want : EntityState) : res unit :=
  match got with
  | None => Err (Errorf "integrity mismatch for entity" [])
  | Some got =>
      _ ← require (String.eqb (ID got) (ID want)) (Errorf "integrity mismatch for entity" []);
      _ ← require (bool_decide (MsgType got = MsgType want)) (Errorf "integrity mismatch: message type" []);
      _ ← require (EVersion got =? EVersion want) (Errorf "integrity mismatch: version" []);
      gotTriples ← normalize (Triples got) true;
      wantTriples ← normalize (Triples want) false;
      require (bool_decide (gotTriples = wantTriples)) (Errorf "integrity mismatch for existing entity" [])
  end.

(** The two entities of an entry. *)
(* src/internal/knowledge/granter.go:148-151 (Granter.commit) *)
Definition knowledge_entity (d : derived) (at_ : time) : EntityState :=
  let id := dv_knowledgeID d in
  entity id knowledgeEntityType at_
    [fact id WorldEntityKind EntityKindKnowledge at_;
     fact id KnowledgeActorHolder (en_RecipientID (dv_entry d)) at_;
     fact id KnowledgeEvidenceRef (en_EvidenceID (dv_entry d)) at_].

(* src/internal/knowledge/granter.go:157-167 (Granter.commit) *)
Definition revelation_entity (decision : CaseDecision) (refs : gmap string Ref) (d : derived) (at_ : time)
    : EntityState :=
  let id := dv_revelationID d in
  entity id revelationEntityType at_
    ([fact id WorldEntityKind EntityKindRevelation at_;
      fact id RevelationActorHolder (en_RecipientID (dv_entry d)) at_;
      fact id RevelationEvidenceRef (en_EvidenceID (dv_entry d)) at_;
      fact id RevelationTurnID (cd_TurnID decision) at_] ++
     match en_Testimony (dv_entry d) with
     | None => []
     | Some draft =>
         [fact id RevelationSourceActor (td_SourceActorID draft) at_;
          fact id RevelationTestimonyRef (Ref_String (default zero_Ref (refs !! id))) at_]
     end).

(* src/internal/knowledge/granter.go:173-184 (Granter.commit) *)
Definition receipt_of (decision : CaseDecision) (refs : gmap string Ref) (ds : list derived) : KnowledgeReceipt := {|
  kr_TurnID := cd_TurnID decision; kr_DecisionID := cd_DecisionID decision; kr_Status := KnowledgeCommitted;
  kr_Entries := SortedKnowledgeEntries (map (fun d => {|
    kre_RecipientID := en_RecipientID (dv_entry d); kre_EvidenceID := en_EvidenceID (dv_entry d);
    kre_KnowledgeID := dv_knowledgeID d; kre_RevelationID := dv_revelationID d;
    kre_TestimonyRef := Ref_String (default zero_Ref (refs !! dv_revelationID d)) |}) ds) |}.

Context {W : Type} `{GraphStore W, Clock W, CaseArtifacts W, Ctx W}.

(* src/internal/knowledge/granter.go#Granter.createOrVerify *)
Definition createOrVerify (wanted : EntityState) : MW W unit :=
  let contract := if bool_decide (MsgType wanted = revelationEntityType) then RevelationBirthContract
                  else KnowledgeBirthContract in
  created ← attempt (CreateEntity contract wanted);
  match created with
  | Ok (None, _) => throw (Errorf "create entity returned no read-back" [])
  | Ok (Some stored, _) => lift (exactEntitySemantics (Some stored) wanted)
  | Err err =>
      if negb (errors_Is ErrEntityExists err) then throw err
      else
        read ← attempt (GetEntity (ID wanted));
        match read with
        | Err readErr => throw (Errorf "verify existing entity" [readErr])
        | Ok resident => lift (exactEntitySemantics (Some resident) wanted)
        end
  end.

(* src/internal/knowledge/granter.go:134-144 (Granter.commit) *)
Fixpoint put_testimonies (ds : list derived) (refs : gmap string Ref) : MW W (gmap string Ref) :=
  match ds with
  | [] => mret refs
  | d :: rest =>
      match dv_testimony d with
      | None => put_testimonies rest refs
      | Some (testimonyID, testimony) =>
          stored ← attempt (artifacts_PutTestimony testimonyID testimony);
          ref ← lift (wrapf "store testimony" stored);
          put_testimonies rest (<[dv_revelationID d := ref]> refs)
      end
  end.

(** Every entity of the list, in order; [msg] names the step that failed. *)
Fixpoint create_all (msg : string) (wanted : list EntityState) : MW W unit :=
  match wanted with
  | [] => mret tt
  | want :: rest =>
      created ← attempt (createOrVerify want);
      _ ← lift (wrapf msg created);
      create_all msg rest
  end.

(* src/internal/knowledge/granter.go#Granter.writeTurnRef *)
Definition writeTurnRef (turnEntityID : string) (ref : Ref) : MW W unit :=
  at_ ← read_clock;
  let desired := [fact turnEntityID TurnKnowledgeRef (Ref_String ref) at_] in
  written ← attempt (RetryRevisionConflict (_ ← Reconcile TurnKnowledge turnEntityID desired; mret tt));
  lift (wrapf "record knowledge receipt on turn" written).

(** Testimonies, then every knowledge entity, then every revelation, then the
    receipt, and the turn's reference last. *)
(* src/internal/knowledge/granter.go#Granter.commit *)
Definition commit (turnEntityID : string) (decision : option CaseDecision) (plan : Plan) : MW W Ref :=
  match decision with
  | None => throw (Errorf "knowledge commit requires a decision" [])
  | Some decision =>
      derivedEntries ← lift (each (derive_entry decision) plan);
      testimonyRefs ← put_testimonies derivedEntries ∅;
      at_ ← read_clock;
      _ ← create_all "commit knowledge grant" (map (fun d => knowledge_entity d at_) derivedEntries);
      _ ← create_all "commit revelation receipt"
            (map (fun d => revelation_entity decision testimonyRefs d at_) derivedEntries);
      stored ← attempt (artifacts_PutKnowledgeReceipt turnEntityID (receipt_of decision testimonyRefs derivedEntries));
      ref ← lift (wrapf "store aggregate knowledge receipt" stored);
      _ ← writeTurnRef turnEntityID ref;
      mret ref
  end.

(* src/internal/knowledge/granter.go#Granter.GrantWithWitnesses *)
Definition GrantWithWitnesses (turnEntityID : string) (input : Preflight) (shares : option (ShareAuthorizer W))
    (witnesses : option (WitnessAuthorizer W)) : MW W Ref :=
  plan ← AuthorizeWithWitnesses input shares witnesses;
  commit turnEntityID (pf_Decision input) plan.

(* src/internal/knowledge/granter.go#Granter.Grant *)
Definition Grant (turnEntityID : string) (input : Preflight) (shares : option (ShareAuthorizer W)) : MW W Ref :=
  GrantWithWitnesses turnEntityID input shares None.

(* src/internal/knowledge/granter.go#Granter.GrantNotApplicable *)
Definition GrantNotApplicable (turnID turnEntityID : string) : MW W Ref :=
  let receipt := {| kr_TurnID := turnID; kr_DecisionID := EmptyString; kr_Status := KnowledgeNotApplicable;
                    kr_Entries := [] |} in
  ref ← artifacts_PutKnowledgeReceipt turnEntityID receipt;
  _ ← writeTurnRef turnEntityID ref;
  mret ref.

(** ** The consumer *)

Context `{ActionStore W, PredicateReader W}.

(* src/internal/knowledge/consumer.go:25-25 (authorizationFailureMessage) *)
Definition authorizationFailureMessage : string := "knowledge authorization was refused".

(* src/internal/knowledge/consumer.go#Consumer.failUnauthorized *)
Definition failUnauthorized (trigger : Trigger) (reason : string) : MW W unit :=
  let detail := {| fd_TurnID := t_TurnID trigger; fd_Reason := FailureKnowledgeUnauthorized;
                   fd_Class := FailureClassDeterministic; fd_AuthorizationReason := reason;
                   fd_Message := authorizationFailureMessage; fd_Target := EmptyString; fd_Committed := [] |} in
  stored ← attempt (artifacts_PutFailureDetail (t_TurnEntityID trigger) detail);
  match stored with
  | Err _ => throw (Errorf "store knowledge authorization failure detail" [])
  | Ok ref =>
      if Ref_IsZero ref then throw (Errorf "store knowledge authorization failure detail returned no reference" [])
      else
        failed ← attempt (Fail_ (t_TurnID trigger) (t_TurnEntityID trigger) FailureKnowledgeUnauthorized ref);
        match failed with
        | Err failErr => throw (Errorf "durably fail unauthorized knowledge turn" [failErr])
        | Ok _ => mret tt
        end
  end.

(** The refusal inside an error, if there is one. *)
Definition rejection_of (err : error) : option string :=
  match errors_As is_AuthorizationError err with
  | Some (AuthorizationError reason) => Some reason
  | _ => None
  end.

(* src/internal/knowledge/consumer.go#Consumer.Handle *)
Definition Knowledge_Handle (caseID : string) (shares : option (ShareAuthorizer W))
    (witnesses : option (WitnessAuthorizer W)) (decoded : res rulePublication) : MW W unit :=
  match ParseTrigger decoded with
  | Err err => throw (TerminateDelivery err)
  | Ok trigger =>
      loaded ← attempt (Load caseID (t_TurnEntityID trigger));
      match loaded with
      | Err err =>
          match rejection_of err with
          | Some reason => failUnauthorized trigger reason
          | None => throw (Errorf "load knowledge preflight" [err])
          end
      | Ok loaded =>
          match lr_Applicable loaded, lr_Preflight loaded with
          | true, Some preflight =>
              granted ← attempt (GrantWithWitnesses (t_TurnEntityID trigger) preflight shares witnesses);
              match granted with
              | Ok _ => mret tt
              | Err err =>
                  match rejection_of err with
                  | Some reason => failUnauthorized trigger reason
                  | None => throw (Errorf "commit knowledge grant" [err])
                  end
              end
          | _, _ =>
              _ ← GrantNotApplicable (lr_TurnID loaded) (t_TurnEntityID trigger);
              mret tt
          end
      end
  end.
End granter.
