(* ===== verification/Stage.v ===== *)
(** [internal/stage]: the deterministic stages (dice, effects, completion) and
    the handler that runs one on a trigger. The artifact stores are the
    interfaces the stages are written against. *)

From S2P Require Import Prelude GoStd GoErrors Graph Vocab Vocabulary Payload Mechanics ContentRecords ProjectionContract Store Campaign Dice Effect Sequencing Turn.

Open Scope Z_scope.

(* src/internal/stage/resolve.go#const Source *)
Definition StageSource : string := "turn-stage".

(** [VerdictReader], [RollStore], [BatchStore] and [DetailStore]. *)
Class ArtifactStore (W : Type) : Type := {
  GetVerdict : Ref -> MW W Verdict;
  PutRoll : string -> RollResult -> MW W Ref;
  PutEffectBatch : string -> EffectBatch -> MW W Ref;
  PutFailureDetail : string -> FailureDetail -> MW W Ref
}.

(** [semerrs.Classify], compared with [semerrs.ErrorTransient]. *)
Class ErrorClassifier : Type := { is_transient : error -> bool }.

(** Reading and writing artifacts leaves the graph alone. *)
Class ArtifactStoreLaws (W : Type) `{HasGraph W, ArtifactStore W} : Prop := {
  GetVerdict_graph ref w : graph_of (GetVerdict ref w).2 = graph_of w;
  PutRoll_graph turn roll w : graph_of (PutRoll turn roll w).2 = graph_of w;
  PutEffectBatch_graph turn batch w : graph_of (PutEffectBatch turn batch w).2 = graph_of w;
  PutFailureDetail_graph turn detail w : graph_of (PutFailureDetail turn detail w).2 = graph_of w
}.

Section readers.
Context `{Substrate}.

(* src/internal/stage/enter.go#soleObject *)
Definition soleObject (state : EntityState) (predicate : string) : res (option any) :=
  match objectsFor state predicate with
  | [] => Ok None
  | [object] => Ok (Some object)
  | _ => Err (Errorf "turn entity holds several values for a single-valued predicate" [])
  end.

(* src/internal/stage/enter.go#soleRef *)
Definition soleRef (state : EntityState) (predicate : string) : res Ref :=
  object ← soleObject state predicate;
  match object with
  | None => Err (Errorf "turn entity carries no reference" [])
  | Some (AString value) =>
      ref ← wrapf "turn entity records an unresolvable reference" (ParseRef value);
      if Ref_IsZero ref then Err (Errorf "turn entity records an empty reference" []) else Ok ref
  | Some _ => Err (Errorf "turn entity records a value that is not a storage reference" [])
  end.

(* src/internal/stage/apply.go#committedBand *)
Definition committedBand (state : EntityState) (verdict : Verdict) : res string :=
  object ← soleObject state TurnRollBand;
  match v_RequiresRoll (v_Scalars verdict), object with
  | true, None => Err (Errorf "requires a roll and records no band" [])
  | false, Some _ => Err (Errorf "declined the dice and records a band anyway" [])
  | false, None => Ok BandAuto
  | true, Some (AString value) =>
      band ← ParseOutcomeBand value;
      if negb (IsRollBand band) then Err (Errorf "records a band the dice cannot select" []) else Ok band
  | true, Some _ => Err (Errorf "records a roll band that is not a string" [])
  end.
End readers.

Section stages.
Context {W : Type} `{Substrate, GraphStore W, Clock W, ActionStore W, ArtifactStore W, ErrorClassifier}.

(* src/internal/stage/enter.go#enter *)
Definition enter (trigger : Trigger) (phase : string) : MW W bool :=
  transition ← Advance (t_TurnID trigger) (t_TurnEntityID trigger) phase;
  mret (negb (String.eqb (Outcome transition) OutcomeDeclined)).

(* src/internal/stage/enter.go#readTurn *)
Definition readTurn (turnEntityID : string) : MW W EntityState :=
  read ← attempt (GetEntity turnEntityID);
  lift (wrapf "read turn entity" read).

(* src/internal/stage/resolve.go#verdictOf *)
Definition verdictOf (state : EntityState) : MW W Verdict :=
  ref ← lift (wrapf "a turn past adjudication without a verdict" (soleRef state TurnVerdictRef));
  read ← attempt (GetVerdict ref);
  lift (wrapf "resolve the verdict" read).

(* src/internal/stage/resolve.go#Resolver.verdict *)
Definition stage_verdict (trigger : Trigger) : MW W Verdict :=
  state ← readTurn (t_TurnEntityID trigger);
  verdictOf state.

(* src/internal/stage/resolve.go#Resolver.Run *)
Definition Resolver_Run (r : Resolver) (trigger : Trigger) : MW W unit :=
  run ← enter trigger PhaseResolving;
  if negb run then mret tt
  else
    verdict ← stage_verdict trigger;
    resolved ← attempt (Resolve r (Some verdict) (t_TurnEntityID trigger));
    match resolved with
    | Err err =>
        if errors_Is ErrNoRollRequired err then
          throw (Errorf "reached the dice with a verdict that declined them" [err])
        else throw err
    | Ok resolution =>
        if negb (rs_Rolled resolution) then mret tt
        else
          stored ← attempt (PutRoll (t_TurnEntityID trigger) (rs_Roll resolution));
          ref ← lift (wrapf "store the roll" stored);
          at_ ← read_clock;
          triples ← lift (RollResult_Triples (rs_Roll resolution) (t_TurnEntityID trigger) (Ref_String ref)
                            StageSource at_);
          written ← attempt (Reconcile TurnRoll (t_TurnEntityID trigger) triples);
          match written with
          | Err err => throw (Errorf "record the roll" [err])
          | Ok _ => mret tt
          end
    end.

(* src/internal/stage/apply.go#Effector.refuse *)
Definition refuse (trigger : Trigger) (applyErr : error) : MW W unit :=
  match FailureReasonFor applyErr with
  | None => throw (Errorf "could not be applied and the failure is not a turn outcome" [applyErr])
  | Some reason =>
      let target := match errors_As is_RejectionError applyErr with
                    | Some (RejectionError _ _ target _ _) => target
                    | _ => EmptyString
                    end in
      let '(target, committed) := match errors_As is_CommitError applyErr with
                                  | Some (CommitError _ target committed _) => (target, committed)
                                  | _ => (target, [])
                                  end in
      let detail := {| fd_TurnID := t_TurnID trigger; fd_Reason := reason;
                       fd_Class := FailureClassDeterministic; fd_AuthorizationReason := EmptyString;
                       fd_Message := Error_text applyErr;
                       fd_Target := target; fd_Committed := committed |} in
      stored ← attempt (PutFailureDetail (t_TurnEntityID trigger) detail);
      let ref := match stored with Ok ref => ref | Err _ => zero_Ref end in
      failed ← attempt (Fail_ (t_TurnID trigger) (t_TurnEntityID trigger) reason ref);
      match failed with
      | Err failErr => throw (Errorf "join" [Errorf "fail turn" [failErr]; applyErr])
      | Ok _ => mret tt
      end
  end.

(** [errors.As] to a commit error whose cause is transient. *)
Definition incomplete (applyErr : error) : bool :=
  match errors_As is_CommitError applyErr with
  | Some (CommitError _ _ _ err) => is_transient err
  | _ => false
  end.

(* src/internal/stage/apply.go#Effector.Run *)
Definition Effector_Run (specs : AttributeSpecSet) (trigger : Trigger) : MW W unit :=
  run ← enter trigger PhaseApplying;
  if negb run then mret tt
  else
    state ← readTurn (t_TurnEntityID trigger);
    verdict ← verdictOf state;
    band ← lift (committedBand state verdict);
    intents ← lift (EffectBands_For (v_Bands verdict) band);
    let batch := NewEffectBatch (t_TurnID trigger) band intents in
    stored ← attempt (PutEffectBatch (t_TurnEntityID trigger) batch);
    ref ← lift (wrapf "store the effect batch" stored);
    applied ← attempt (Apply specs (Some batch) (t_TurnEntityID trigger) (Ref_String ref));
    match applied with
    | Err applyErr =>
        if incomplete applyErr then throw (Errorf "effect batch commit is incomplete" [applyErr])
        else refuse trigger applyErr
    | Ok _ => mret tt
    end.

(* src/internal/stage/complete.go#Completer.Run *)
Definition Completer_Run (trigger : Trigger) : MW W unit :=
  _ ← enter trigger PhaseComplete;
  mret tt.

(** [Stage.Run] of the modelled stages. *)
Inductive stage : Type :=
| DiceStage (r : Resolver)
| EffectStage (specs : AttributeSpecSet)
| CompleteStage.

Definition stage_Phase (s : stage) : string :=
  match s with DiceStage _ => PhaseResolving | EffectStage _ => PhaseApplying | CompleteStage => PhaseComplete end.

Definition stage_Run (s : stage) (trigger : Trigger) : MW W unit :=
  match s with
  | DiceStage r => Resolver_Run r trigger
  | EffectStage specs => Effector_Run specs trigger
  | CompleteStage => Completer_Run trigger
  end.

(* src/internal/stage/runner.go#Runner.handle *)
Definition handle (s : stage) (decoded : res rulePublication) : MW W unit :=
  match ParseTrigger decoded with
  | Err err => throw (TerminateDelivery err)
  | Ok trigger =>
      ran ← attempt (stage_Run s trigger);
      lift (wrapf "run the stage" ran)
  end.
End stages.
