(* ===== verification/Resume.v ===== *)
(** [internal/resume]: the pass that finds turns parked with nothing queued for
    them, re-triggers their stage a bounded number of times and then ends them. *)

From S2P Require Import Prelude GoStd GoErrors Graph Vocab Vocabulary Payload ContentRecords ProjectionContract Store Campaign Sequencing GraphIO Turn Stage.

Open Scope Z_scope.

(* src/internal/resume/reconcile.go#const Source *)
Definition ResumeSource : string := "turn-resume".
(* src/internal/resume/reconcile.go#const MaxAttempts *)
Definition MaxAttempts : Z := 2.
(* src/internal/resume/reconcile.go#const DefaultPageLimit *)
Definition DefaultPageLimit : Z := 200.
(* src/internal/resume/reconcile.go#const maxPages *)
Definition maxPages : nat := 1000.

(** [TurnStore.EntitiesWithPrefix], [TriggerPublisher] and [QueuedTriggers]. *)
Class PrefixReader (W : Type) : Type := {
  EntitiesWithPrefix : string -> string -> Z -> MW W PrefixPage }.
Class TriggerPublisher (W : Type) : Type := {
  PublishToStream : string -> stageTrigger -> MW W unit }.
Class QueuedTriggers (W : Type) : Type := {
  Settle : MW W unit;
  Pending : MW W (gmap string Z) }.

(* src/internal/resume/reconcile.go#type TurnFailure *)
Record TurnFailure : Type := { tf_TurnEntityID : string; tf_Err : error }.

(* src/internal/resume/reconcile.go#type Reconciliation *)
Record Reconciliation : Type := mkReconciliation {
  Scanned : Z; Resolved : Z; Queued : Z; StageRetriggered : Z; Unadvanceable : Z; Abandoned : Z;
  Failures : list TurnFailure }.

Definition empty_report : Reconciliation := mkReconciliation 0 0 0 0 0 0 [].

Definition scanned (r : Reconciliation) : Reconciliation :=
  mkReconciliation (Scanned r + 1) (Resolved r) (Queued r) (StageRetriggered r) (Unadvanceable r) (Abandoned r) (Failures r).
Definition resolved (r : Reconciliation) : Reconciliation :=
  mkReconciliation (Scanned r) (Resolved r + 1) (Queued r) (StageRetriggered r) (Unadvanceable r) (Abandoned r) (Failures r).
Definition queued_ (r : Reconciliation) : Reconciliation :=
  mkReconciliation (Scanned r) (Resolved r) (Queued r + 1) (StageRetriggered r) (Unadvanceable r) (Abandoned r) (Failures r).
Definition retriggered (r : Reconciliation) : Reconciliation :=
  mkReconciliation (Scanned r) (Resolved r) (Queued r) (StageRetriggered r + 1) (Unadvanceable r) (Abandoned r) (Failures r).
Definition unadvanceable (r : Reconciliation) : Reconciliation :=
  mkReconciliation (Scanned r) (Resolved r) (Queued r) (StageRetriggered r) (Unadvanceable r + 1) (Abandoned r) (Failures r).
Definition abandoned (r : Reconciliation) : Reconciliation :=
  mkReconciliation (Scanned r) (Resolved r) (Queued r) (StageRetriggered r) (Unadvanceable r) (Abandoned r + 1) (Failures r).
Definition failure (id : string) (err : error) (r : Reconciliation) : Reconciliation :=
  mkReconciliation (Scanned r) (Resolved r) (Queued r) (StageRetriggered r) (Unadvanceable r) (Abandoned r)
    (Failures r ++ [{| tf_TurnEntityID := id; tf_Err := err |}]).

(** The reconciler's configuration. *)
(* src/internal/resume/reconcile.go#type Reconciler *)
Record Reconciler : Type := { rc_turnPrefix : string; rc_pageLimit : Z; rc_attempts : Z }.

Section pure.
Context `{Substrate}.

(* src/internal/resume/reconcile.go#NewReconciler *)
Definition NewReconciler (campaignID : string) (pageLimit attempts : Z) : res Reconciler :=
  _ ← wrapf "requires a canonical campaign entity id" (ValidateEntityID campaignID);
  turnPrefix ← SiblingTypePrefix campaignID "turn";
  if pageLimit <=? 0 then Err (Errorf "the stranded-turn pass requires a positive page limit" [])
  else if attempts <=? 0 then Err (Errorf "the stranded-turn pass requires a positive attempt budget" [])
  else Ok {| rc_turnPrefix := turnPrefix; rc_pageLimit := pageLimit; rc_attempts := attempts |}.

(* src/internal/resume/reconcile.go#recordedPhase *)
Definition recordedPhase (state : EntityState) : res string :=
  match map Object (List.filter (fun t => String.eqb (Predicate t) TurnPhaseCurrent) (Triples state)) with
  | [] => Err (Errorf "carries no phase" [])
  | [AString value] => ParseTurnPhase value
  | [_] => Err (Errorf "records a phase that is not a string" [])
  | _ => Err (Errorf "holds several values for the single-valued phase" [])
  end.

(* src/internal/resume/reconcile.go#recordedAttempts *)
Definition recordedAttempts (state : EntityState) : res Z :=
  wrapf "read persisted resume attempts" (ResumeAttemptsFromTriples (Triples state)).

(* src/internal/resume/reconcile.go#resumeSubject *)
Definition resumeSubject (phase : string) : res string :=
  if negb (String.eqb phase PhaseAccepted) then SubjectForPhase phase
  else
    match StagePhases with
    | [] => Err (Errorf "the engine declares no stage phases at all" [])
    | first :: _ => wrapf "the first stage phase has no trigger subject" (SubjectForPhase first)
    end.

(* src/internal/resume/reconcile.go#carriesStageArtifact *)
Definition carriesStageArtifact (state : EntityState) (phase : string) : option string :=
  match StageArtifacts phase with
  | None => None
  | Some artifacts =>
      List.find (fun artifact =>
        existsb (fun t => String.eqb (Predicate t) artifact) (Triples state)) artifacts
  end.
End pure.

Section pass.
Context {W : Type} `{Substrate, TimeText, GraphStore W, Clock W, ActionStore W, ArtifactStore W}.
Context `{PrefixReader W, TriggerPublisher W, QueuedTriggers W}.

(* src/internal/resume/reconcile.go#Reconciler.countAttempt *)
Definition countAttempt (turnID turnEntityID : string) (attempt_ : Z) : MW W unit :=
  at_ ← read_clock;
  triples ← lift (TurnResume_Triples {| tr_TurnID := turnID; tr_Attempts := attempt_ |}
                    turnEntityID ResumeSource at_);
  written ← attempt (Reconcile TurnResumeTarget turnEntityID triples);
  match written with
  | Err err => throw (Errorf "record resume attempt" [err])
  | Ok _ => mret tt
  end.

(* src/internal/resume/reconcile.go#Reconciler.publish *)
Definition publish (turnEntityID subject : string) : MW W unit :=
  at_ ← read_clock;
  let body := {| st_EntityID := turnEntityID; st_Subject := subject; st_Source := ResumeSource;
                 st_Timestamp := FormatRFC3339Nano at_ |} in
  published ← attempt (PublishToStream subject body);
  lift (wrapf "republish" published).

Variable r : Reconciler.

(* src/internal/resume/reconcile.go#Reconciler.abandon *)
Definition abandon (turnID : string) (state : EntityState) (phase : string) (explanation : error)
    (report : Reconciliation) : MW W Reconciliation :=
  let detail := {| fd_TurnID := turnID; fd_Reason := FailureTurnStranded;
                   fd_Class := FailureClassDeterministic; fd_AuthorizationReason := EmptyString; fd_Message := Error_text explanation;
                   fd_Target := EmptyString; fd_Committed := [] |} in
  stored ← attempt (PutFailureDetail (ID state) detail);
  let ref := match stored with Ok ref => ref | Err _ => zero_Ref end in
  failed ← attempt (Fail_ turnID (ID state) FailureTurnStranded ref);
  match failed with
  | Err err => mret (failure (ID state) (Errorf "exhausted its attempts and could not be failed" [err]) report)
  | Ok _ => mret (abandoned report)
  end.

(* src/internal/resume/reconcile.go#Reconciler.countTowardAbandonment *)
Definition countTowardAbandonment (turnID : string) (state : EntityState) (phase : string)
    (because : error) (report : Reconciliation) : MW W Reconciliation :=
  match recordedAttempts state with
  | Err err => mret (failure (ID state) err report)
  | Ok spent =>
      if spent <? rc_attempts r then
        counted ← attempt (countAttempt turnID (ID state) (spent + 1));
        match counted with
        | Err err => mret (failure (ID state) err report)
        | Ok _ => mret (unadvanceable report)
        end
      else
        report ← abandon turnID state phase because report;
        mret (failure (ID state) (Errorf "was ended as unresumable" []) report)
  end.

(* src/internal/resume/reconcile.go#Reconciler.retriggerStage *)
Definition retriggerStage (turnID : string) (state : EntityState) (phase subject : string)
    (report : Reconciliation) : MW W Reconciliation :=
  match recordedAttempts state with
  | Err err => mret (failure (ID state) err report)
  | Ok spent =>
      if rc_attempts r <=? spent then
        abandon turnID state phase (Errorf "the re-trigger budget is exhausted" []) report
      else
        counted ← attempt (countAttempt turnID (ID state) (spent + 1));
        match counted with
        | Err err => mret (failure (ID state) err report)
        | Ok _ =>
            published ← attempt (publish (ID state) subject);
            match published with
            | Err err => mret (failure (ID state) err report)
            | Ok _ => mret (retriggered report)
            end
        end
  end.

(* src/internal/resume/reconcile.go#Reconciler.reconcileTurn *)
Definition reconcileTurn (state : EntityState) (queued : gmap string Z) (report : Reconciliation)
    : MW W Reconciliation :=
  let report := scanned report in
  match turnIDOf (ID state) with
  | Err err => mret (failure (ID state) err report)
  | Ok turnID =>
      match recordedPhase state with
      | Err err => mret (failure (ID state) err report)
      | Ok phase =>
          if IsTerminal phase then mret (resolved report)
          else if 0 <? default 0 (queued !! ID state) then mret (queued_ report)
          else
            match resumeSubject phase with
            | Err subjectErr =>
                countTowardAbandonment turnID state phase (Errorf "no stage to re-run" [subjectErr]) report
            | Ok subject =>
                match carriesStageArtifact state phase with
                | Some _ =>
                    countTowardAbandonment turnID state phase (Errorf "its stage finished" []) report
                | None => retriggerStage turnID state phase subject report
                end
            end
      end
  end.

(* src/internal/resume/reconcile.go:370-372 (Reconciler.Reconcile) *)
Fixpoint reconcile_entities (states : list EntityState) (queued : gmap string Z)
    (report : Reconciliation) : MW W Reconciliation :=
  match states with
  | [] => mret report
  | state :: rest =>
      report ← reconcileTurn state queued report;
      reconcile_entities rest queued report
  end.

(** The page loop, [pages] more pages before the cursor counts as stuck. *)
(* src/internal/resume/reconcile.go:360-392 (Reconciler.Reconcile) *)
Fixpoint reconcile_pages (pages : nat) (cursor : string) (queued : gmap string Z)
    (report : Reconciliation) : MW W (Reconciliation * option error) :=
  match pages with
  | O => mret (report, Some (Errorf "read too many pages without exhausting the cursor" []))
  | S pages =>
      read ← attempt (EntitiesWithPrefix (rc_turnPrefix r) cursor (rc_pageLimit r));
      match read with
      | Err err => mret (report, Some (Errorf "enumerate turns" [err]))
      | Ok result =>
          report ← reconcile_entities (pg_Entities result) queued report;
          if String.eqb (pg_NextCursor result) EmptyString then
            mret (report,
              match Failures report with
              | [] => None
              | failures => Some (Errorf "join" (map (fun f => Errorf "turn" [tf_Err f]) failures))
              end)
          else if String.eqb (pg_NextCursor result) cursor then
            mret (report, Some (Errorf "the turn enumeration returned the same cursor twice" []))
          else reconcile_pages pages (pg_NextCursor result) queued report
      end
  end.

(* src/internal/resume/reconcile.go#Reconciler.Reconcile *)
Definition Reconciler_Reconcile : MW W (Reconciliation * option error) :=
  settled ← attempt Settle;
  match settled with
  | Err err => mret (empty_report, Some err)
  | Ok _ =>
      pending ← attempt Pending;
      match pending with
      | Err err => mret (empty_report, Some (Errorf "read the queued stage triggers" [err]))
      | Ok queued => reconcile_pages maxPages EmptyString queued empty_report
      end
  end.
End pass.
