(* ===== verification/Ledger.v ===== *)
(** [internal/ledger] with [payload/turnmanifest.go]: the append-only archive of
    resolved turns. A turn's manifest is composed from its entity, appended
    once to the turn's own subject, reconciled at start-up against the graph,
    and replayed by re-executing its dice and reading the rest. *)

From S2P Require Import Prelude GoStd GoErrors Graph Vocab Vocabulary Payload Mechanics ContentRecords ContentStore ProjectionContract Store Campaign Dice Sequencing GraphIO Resume.

Open Scope Z_scope.

(** ** The manifest *)

(* src/internal/payload/turnmanifest.go#type TurnManifest *)
Record TurnManifest : Type := mkTurnManifest {
  m_TurnID : string; m_ActionID : string; m_CampaignID : string; m_SceneID : string; m_PlayerID : string;
  m_Phase : string; m_ActionRef : string; m_VerdictRef : string; m_RollRef : string;
  m_EffectBatchRef : string; m_NarrationRef : string; m_FailureReason : string;
  m_RollGate : option RollGateExpectation; m_RecordedAt : time; m_WorldTime : Z
}.

(** What the phase of a resolved turn asks of the rest. *)
(* src/internal/payload/turnmanifest.go:111-148 (TurnManifest.Validate) *)
Definition manifest_ending (m : TurnManifest) : res unit :=
  if String.eqb (m_Phase m) PhaseFailed then
    _ ← require (negb (String.eqb (m_FailureReason m) EmptyString))
          (Errorf "a failed turn requires failure_reason" []);
    _ ← ParseFailureReason (m_FailureReason m);
    Ok tt
  else if String.eqb (m_Phase m) PhaseComplete then
    _ ← require (String.eqb (m_FailureReason m) EmptyString)
          (Errorf "a complete turn must not carry failure_reason" []);
    _ ← require (negb (String.eqb (m_VerdictRef m) EmptyString)) (Errorf "a complete turn requires verdict_ref" []);
    _ ← require (negb (String.eqb (m_NarrationRef m) EmptyString))
          (Errorf "a complete turn requires narration_ref" []);
    require (match m_RollGate m with Some _ => true | None => false end)
      (Errorf "a complete turn requires roll_gate" [])
  else Ok tt.

(* src/internal/payload/turnmanifest.go#TurnManifest.Validate *)
Definition TurnManifest_Validate `{Substrate} (m : TurnManifest) : res unit :=
  _ ← requireIDSegment "turn_id" (m_TurnID m);
  _ ← requireActionID "action_id" (m_ActionID m);
  _ ← requireEntityID "campaign_id" (m_CampaignID m);
  _ ← requireEntityID "scene_id" (m_SceneID m);
  _ ← requireEntityID "player_id" (m_PlayerID m);
  _ ← requireNonEmpty "action_ref" (m_ActionRef m);
  _ ← ParseTurnPhase (m_Phase m);
  _ ← require (IsTerminal (m_Phase m)) (Errorf "phase is not terminal" []);
  _ ← manifest_ending m;
  _ ← (match m_RollGate m with
       | Some gate => wrapf "roll_gate" (RollGateExpectation_Validate gate)
       | None => Ok tt
       end);
  require (negb (time_IsZero (m_RecordedAt m))) (Errorf "recorded_at is required" []).

(** ** The stream *)

(* src/internal/ledger/stream.go:16-17 (Stream) *)
Definition LedgerStreamName : string := "CAMPAIGN_LEDGER".
(* src/internal/ledger/stream.go:18-19 (SubjectPrefix) *)
Definition LedgerSubjectPrefix : string := "semmachina.ledger.turn.".
(* src/internal/ledger/stream.go:20-21 (SubjectFilter) *)
Definition LedgerSubjectFilter : string := LedgerSubjectPrefix +:+ "*".
(* src/internal/ledger/writer.go#const TurnTypeSegment *)
Definition TurnTypeSegment : string := "turn".
(* src/internal/ledger/reconcile.go#const maxReconcilePages *)
Definition maxReconcilePages : nat := 1000.

(* src/internal/ledger/stream.go#SubjectFor *)
Definition SubjectFor `{Substrate} (turnID : string) : res string :=
  _ ← wrapf "ledger subject needs a turn id" (ValidateIDSegment turnID);
  Ok (LedgerSubjectPrefix +:+ turnID).

(** Sentinels. *)
(* src/internal/ledger/replay.go:22-23 (ErrManifestNotFound) *)
Definition ErrManifestNotFound : string := "no ledger manifest for this turn".
(* src/internal/ledger/replay.go:24-32 (ErrNotReproducible) *)
Definition ErrNotReproducible : string := "the archived roll is not reproducible from its own inputs".
(* src/internal/ledger/replay.go:33-35 (ErrNotReplayable) *)
Definition ErrNotReplayable : string := "the archived turn cannot be re-executed by this engine".
(** [jetstream.ErrMsgNotFound]. *)
Definition ErrMsgNotFound : string := "jetstream: message not found".

(** Who holds the opened stream. *)
Inductive StreamUser : Type := AsWriter | AsReader.

(** The archive's JetStream client: [StreamEnsurer], [archive] and [Publisher],
    with the handles the writer and the reader keep once the stream is open. *)
Class LedgerStream (W : Type) : Type := {
  EnsureStream : MW W unit;
  GetLastMsgForSubject : string -> MW W string;
  PublishToStreamWithMsgID : string -> string -> string -> MW W unit;
  stream_held : StreamUser -> W -> bool;
  hold_stream : StreamUser -> W -> W
}.

Definition stream_is_held {W} `{LedgerStream W} (user : StreamUser) : MW W bool := fun w => (Ok (stream_held user w), w).
Definition keep_stream {W} `{LedgerStream W} (user : StreamUser) : MW W unit := fun w => (Ok tt, hold_stream user w).

(** The envelope around a manifest, upstream's [message.NewBaseMessage] and
    [message.Decoder]: [None] is a payload of another type. *)
Class ManifestEnvelope (W : Type) : Type := {
  marshal_message : TurnManifest -> MW W string;
  decode_message : string -> res (option TurnManifest)
}.

(** ** Composing *)

Section compose.
Context `{Substrate}.

(** The triples of the predicate, whatever their subject. *)
(* src/internal/ledger/manifest.go#soleTriple *)
Definition soleTriple (state : EntityState) (predicate : string) : res (option Triple) :=
  match List.filter (fun t => String.eqb (Predicate t) predicate) (Triples state) with
  | [] => Ok None
  | [t] => Ok (Some t)
  | _ => Err (Errorf "turn entity holds several values for a single-valued predicate" [])
  end.

(* src/internal/ledger/manifest.go#optionalString *)
Definition optionalString (state : EntityState) (predicate : string) : res string :=
  triple ← soleTriple state predicate;
  match triple with
  | None => Ok EmptyString
  | Some t => match Object t with
              | AString value => Ok value
              | _ => Err (Errorf "turn entity records another type, want a string" [])
              end
  end.

(* src/internal/ledger/manifest.go#requiredString *)
Definition requiredString (state : EntityState) (predicate : string) : res string :=
  value ← optionalString state predicate;
  if String.eqb value EmptyString then Err (Errorf "turn entity carries no required fact" []) else Ok value.

(* src/internal/ledger/manifest.go#optionalBool *)
Definition optionalBool (state : EntityState) (predicate : string) : res (option bool) :=
  triple ← soleTriple state predicate;
  match triple with
  | None => Ok None
  | Some t => match Object t with
              | ABool flag => Ok (Some flag)
              | _ => Err (Errorf "turn entity records another type, want a bool" [])
              end
  end.

(* src/internal/ledger/manifest.go#terminalPhase *)
Definition terminalPhase (state : EntityState) : res (string * time) :=
  triple ← soleTriple state TurnPhaseCurrent;
  match triple with
  | None => Err (Errorf "turn entity carries no phase" [])
  | Some t =>
      match Object t with
      | AString value =>
          phase ← wrapf "turn entity" (ParseTurnPhase value);
          if negb (IsTerminal phase) then Err (Errorf "turn entity is in a phase that is not terminal" [])
          else if time_IsZero (Timestamp t) then Err (Errorf "turn entity records its phase with no timestamp" [])
          else Ok (phase, Timestamp t)
      | _ => Err (Errorf "turn entity records a phase that is not a string" [])
      end
  end.

(* src/internal/ledger/manifest.go#rollGate *)
Definition rollGate (state : EntityState) : res (option RollGateExpectation) :=
  plausibility ← optionalString state TurnVerdictPlausibility;
  risk ← optionalString state TurnVerdictRisk;
  reported ← optionalBool state TurnVerdictRequiresRoll;
  let has : list bool := [negb (String.eqb plausibility EmptyString); negb (String.eqb risk EmptyString);
              match reported with Some _ => true | None => false end] in
  match List.length (List.filter id has) with
  | 0%nat => Ok None
  | 3%nat =>
      gate ← wrapf "turn entity"
        (RollGate {| v_Plausibility := plausibility; v_Risk := risk; v_Consequence := EmptyString;
                     v_RequiresRoll := default false reported |});
      Ok (Some gate)
  | _ => Err (Errorf "turn entity carries some of the 3 verdict scalars" [])
  end.

(* src/internal/ledger/manifest.go#Compose *)
Definition Compose (turnID : string) (state : option EntityState) (campaignID : string) : res TurnManifest :=
  match state with
  | None => Err (Errorf "cannot archive turn: the graph returned nothing" [])
  | Some state =>
      _ ← RequireTurnEntityID turnID (ID state);
      actionID ← ActionIDForTurn turnID;
      ended ← terminalPhase state;
      playerID ← requiredString state TurnActionPlayer;
      sceneID ← requiredString state TurnActionScene;
      actionRef ← requiredString state TurnActionRef;
      verdictRef ← optionalString state TurnVerdictRef;
      rollRef ← optionalString state TurnRollRef;
      effectBatchRef ← optionalString state TurnEffectsRef;
      narrationRef ← optionalString state TurnNarrationRef;
      failureReason ← optionalString state TurnFailureReason;
      gate ← rollGate state;
      let manifest := {|
        m_TurnID := turnID; m_ActionID := actionID; m_CampaignID := campaignID; m_SceneID := sceneID;
        m_PlayerID := playerID; m_Phase := ended.1; m_ActionRef := actionRef; m_VerdictRef := verdictRef;
        m_RollRef := rollRef; m_EffectBatchRef := effectBatchRef; m_NarrationRef := narrationRef;
        m_FailureReason := failureReason; m_RollGate := gate; m_RecordedAt := ended.2; m_WorldTime := 0 |} in
      _ ← wrapf "turn does not compose a coherent ledger record" (TurnManifest_Validate manifest);
      Ok manifest
  end.

(** ** Notifications *)

(* src/internal/ledger/writer.go#turnIDOf *)
Definition ledger_turnIDOf (turnEntityID : string) : res string :=
  _ ← wrapf "not a canonical six-part entity ID" (ValidateEntityID turnEntityID);
  if negb (String.eqb (type_part turnEntityID) TurnTypeSegment) then
    Err (Errorf "has another type segment; the ledger archives turns" [])
  else
    let turnID := last_part turnEntityID in
    _ ← RequireTurnEntityID turnID turnEntityID;
    Ok turnID.

(* src/internal/ledger/writer.go#type ResolvedEvent *)
Record ResolvedEvent : Type := { re_TurnEntityID : string; re_TurnID : string }.

(* src/internal/ledger/writer.go#ParseResolvedEvent *)
Definition ParseResolvedEvent (decoded : res rulePublication) : res ResolvedEvent :=
  match decoded with
  | Err err => Err (Errorf "decode resolved-turn notification" [err])
  | Ok published =>
      if String.eqb (EntityID_ published) EmptyString then
        Err (Errorf "resolved-turn notification names no entity" [])
      else
        turnID ← ledger_turnIDOf (EntityID_ published);
        Ok {| re_TurnEntityID := EntityID_ published; re_TurnID := turnID |}
  end.

(* src/internal/ledger/reconcile.go#recordedPhase *)
Definition ledger_recordedPhase (state : EntityState) : res string :=
  triple ← soleTriple state TurnPhaseCurrent;
  match triple with
  | None => Err (Errorf "turn entity carries no phase" [])
  | Some t => match Object t with
              | AString value => wrapf "turn entity" (ParseTurnPhase value)
              | _ => Err (Errorf "turn entity records a phase that is not a string" [])
              end
  end.

(* src/internal/ledger/reconcile.go#TurnPrefixForCampaign *)
Definition TurnPrefixForCampaign (campaignID : string) : res string :=
  SiblingTypePrefix campaignID TurnTypeSegment.

(** The writer's configuration; its clients are the classes below. *)
(* src/internal/ledger/writer.go:89-103 (Writer) *)
Record Writer : Type := { wr_campaignID : string; wr_turnPrefix : string; wr_heartbeat : Z; wr_pageLimit : Z }.

(** [NewWriter] with its clients present and its options applied. *)
(* src/internal/ledger/writer.go:164-186 (NewWriter) *)
Definition NewWriter (campaignID : string) (heartbeat pageLimit : Z) : res Writer :=
  _ ← wrapf "the ledger writer requires a canonical campaign entity id" (ValidateEntityID campaignID);
  turnPrefix ← TurnPrefixForCampaign campaignID;
  if heartbeat <=? 0 then Err (Errorf "the ledger writer requires a positive heartbeat" [])
  else if pageLimit <=? 0 then Err (Errorf "the ledger writer requires a positive reconciliation page limit" [])
  else Ok {| wr_campaignID := campaignID; wr_turnPrefix := turnPrefix; wr_heartbeat := heartbeat;
             wr_pageLimit := pageLimit |}.
End compose.

(* src/internal/ledger/writer.go#manifestDiff *)
Definition manifestDiff `{Codec TurnManifest} (existing composed : TurnManifest) : bool :=
  match Marshal existing, Marshal composed with
  | Ok before, Ok after => negb (String.eqb before after)
  | _, _ => true
  end.

(* src/internal/ledger/writer.go#type Outcome *)
Record Outcome : Type := { oc_Manifest : TurnManifest; oc_Appended : bool }.

(* src/internal/ledger/reconcile.go#type Reconciliation *)
Record LedgerReconciliation : Type := mkLedgerReconciliation {
  l_Scanned : Z; l_Archived : Z; l_AlreadyArchived : Z; l_InFlight : Z; l_Failures : list TurnFailure }.

Definition empty_ledger_report : LedgerReconciliation := mkLedgerReconciliation 0 0 0 0 [].

Section writer.
Context {W : Type} `{Substrate, GraphStore W, PrefixReader W, LedgerStream W, ManifestEnvelope W, Codec TurnManifest}.

(** ** The writer *)

(** The stream, opened at the first use. *)
(* src/internal/ledger/writer.go#Writer.archive *)
Definition archive : MW W unit :=
  held ← (stream_is_held AsWriter : MW W bool);
  match held with
  | true => mret tt
  | false =>
      ensured ← (attempt EnsureStream : MW W (res unit));
      match ensured with
      | Err err => throw (Errorf "ensure the stream" [err])
      | Ok _ => keep_stream AsWriter
      end
  end.

(* src/internal/ledger/writer.go#readManifest *)
Definition readManifest (subject : string) : MW W TurnManifest :=
  raw ← attempt (GetLastMsgForSubject subject);
  match raw with
  | Err err => if errors_Is ErrMsgNotFound err then throw (Errorf subject [Sentinel ErrManifestNotFound])
               else throw (Errorf "read the archived manifest" [err])
  | Ok data =>
      payload ← lift (wrapf "decode the archived manifest" (decode_message data));
      match payload with
      | None => throw (Errorf "the archived record is not a turn manifest" [])
      | Some manifest =>
          _ ← lift (wrapf "the archived manifest does not satisfy its own contract" (TurnManifest_Validate manifest));
          mret manifest
      end
  end.

Variable wr : Writer.

(* src/internal/ledger/writer.go#Writer.archiveTurn *)
Definition archiveTurn (turnID : string) (state : option EntityState) : MW W Outcome :=
  subject ← lift (SubjectFor turnID);
  manifest ← lift (Compose turnID state (wr_campaignID wr));
  _ ← archive;
  read ← attempt (readManifest subject);
  match read with
  | Ok existing =>
      if manifestDiff existing manifest then throw (Errorf "turn is already archived with a DIFFERENT manifest" [])
      else mret {| oc_Manifest := existing; oc_Appended := false |}
  | Err err =>
      if negb (errors_Is ErrManifestNotFound err) then throw err
      else
        encoded ← attempt (marshal_message manifest);
        body ← lift (wrapf "encode the manifest" encoded);
        published ← attempt (PublishToStreamWithMsgID subject body turnID);
        _ ← lift (wrapf "append the manifest" published);
        mret {| oc_Manifest := manifest; oc_Appended := true |}
  end.

(* src/internal/ledger/writer.go#Writer.Append *)
Definition Append (turnEntityID : string) : MW W Outcome :=
  turnID ← lift (ledger_turnIDOf turnEntityID);
  read ← attempt (GetEntity turnEntityID);
  state ← lift (wrapf "read turn entity" read);
  archiveTurn turnID (Some state).

(* src/internal/ledger/writer.go#Writer.Handle *)
Definition Ledger_Handle (decoded : res rulePublication) : MW W unit :=
  match ParseResolvedEvent decoded with
  | Err err => throw (TerminateDelivery err)
  | Ok event =>
      appended ← attempt (Append (re_TurnEntityID event));
      _ ← lift (wrapf "archive turn" appended);
      mret tt
  end.

(** ** Reconciling *)

(* src/internal/ledger/reconcile.go#Writer.reconcileTurn *)
Definition ledger_reconcileTurn (state : EntityState) (report : LedgerReconciliation) : MW W LedgerReconciliation :=
  let '(mkLedgerReconciliation s a k i f) := report in
  let s := s + 1 in
  let failed err := mkLedgerReconciliation s a k i (f ++ [{| tf_TurnEntityID := ID state; tf_Err := err |}]) in
  match ledger_turnIDOf (ID state) with
  | Err err => mret (failed err)
  | Ok turnID =>
      match ledger_recordedPhase state with
      | Err err => mret (failed err)
      | Ok phase =>
          if negb (IsTerminal phase) then mret (mkLedgerReconciliation s a k (i + 1) f)
          else
            archived ← attempt (archiveTurn turnID (Some state));
            match archived with
            | Err err => mret (failed err)
            | Ok outcome => if oc_Appended outcome then mret (mkLedgerReconciliation s (a + 1) k i f)
                            else mret (mkLedgerReconciliation s a (k + 1) i f)
            end
      end
  end.

(* src/internal/ledger/reconcile.go:115-117 (Writer.Reconcile) *)
Fixpoint ledger_reconcile_entities (states : list EntityState) (report : LedgerReconciliation)
    : MW W LedgerReconciliation :=
  match states with
  | [] => mret report
  | state :: rest => report ← ledger_reconcileTurn state report; ledger_reconcile_entities rest report
  end.

(** The page loop, [pages] more pages before the cursor counts as stuck. *)
(* src/internal/ledger/reconcile.go:105-136 (Writer.Reconcile) *)
Fixpoint ledger_reconcile_pages (pages : nat) (cursor : string) (report : LedgerReconciliation)
    : MW W (LedgerReconciliation * option error) :=
  match pages with
  | O => mret (report, Some (Errorf "read too many pages without exhausting the cursor" []))
  | S pages =>
      read ← attempt (EntitiesWithPrefix (wr_turnPrefix wr) cursor (wr_pageLimit wr));
      match read with
      | Err err => mret (report, Some (Errorf "enumerate turns" [err]))
      | Ok result =>
          report ← ledger_reconcile_entities (pg_Entities result) report;
          if String.eqb (pg_NextCursor result) EmptyString then
            mret (report,
              match l_Failures report with
              | [] => None
              | failures => Some (Errorf "join" (map (fun f => Errorf "turn" [tf_Err f]) failures))
              end)
          else if String.eqb (pg_NextCursor result) cursor then
            mret (report, Some (Errorf "the turn enumeration returned the same cursor twice" []))
          else ledger_reconcile_pages pages (pg_NextCursor result) report
      end
  end.

(* src/internal/ledger/reconcile.go#Writer.Reconcile *)
Definition Ledger_Reconcile : MW W (LedgerReconciliation * option error) :=
  ledger_reconcile_pages maxReconcilePages EmptyString empty_ledger_report.
End writer.

(** ** Replaying *)

(** [ArtifactReader]. *)
(* src/internal/ledger/replay.go#type ArtifactReader *)
Class ArtifactReader (W : Type) : Type := {
  archived_GetVerdict : Ref -> MW W Verdict;
  archived_GetRoll : Ref -> MW W RollResult;
  archived_GetNarration : Ref -> MW W Narration
}.

(** [SeedSource]. *)
(* src/internal/ledger/replay.go#type SeedSource *)
Record ReplaySeeds (W : Type) : Type := { rs_CampaignID : string; rs_LoadSeed : MW W Seed }.
Arguments rs_CampaignID {W}. Arguments rs_LoadSeed {W}.

(* src/internal/ledger/replay.go#type Replay *)
Record Replay : Type := {
  rp_Manifest : TurnManifest; rp_Verdict : option Verdict; rp_Roll : option RollResult;
  rp_Reproduced : option RollResult; rp_Narration : option Narration }.

(* src/internal/ledger/replay.go#identicalRolls *)
Definition identicalRolls `{Codec RollResult} (recorded reproduced : RollResult) : res unit :=
  before ← wrapf "the archived roll could not be re-encoded" (Marshal recorded);
  after ← wrapf "the re-executed roll could not be encoded" (Marshal reproduced);
  require (String.eqb before after) (Errorf "re-executing its inputs now produces another roll" []).

(* src/internal/ledger/replay.go#checkBand *)
Definition checkBand (roll : option RollResult) (narration : Narration) : res unit :=
  let want := match roll with Some roll => r_Band roll | None => BandAuto end in
  require (String.eqb (n_Band narration) want) (Errorf "narration voices another band" []).

Section replay.
Context {W : Type} `{Substrate, ArtifactReader W, Codec RollResult}.
Variable seeds : ReplaySeeds W.

(* src/internal/ledger/replay.go#Reader.verdict *)
Definition replay_verdict (manifest : TurnManifest) : MW W (option Verdict) :=
  if String.eqb (m_VerdictRef manifest) EmptyString then mret None
  else
    ref ← lift (wrapf "turn records an unresolvable verdict reference" (ParseRef (m_VerdictRef manifest)));
    read ← attempt (archived_GetVerdict ref);
    verdict ← lift (wrapf "resolve the archived verdict" read);
    if negb (String.eqb (v_TurnID verdict) (m_TurnID manifest)) then
      throw (Errorf "the verdict belongs to another turn" [])
    else mret (Some verdict).

(** The roll the archive holds, and the roll its inputs give now. *)
(* src/internal/ledger/replay.go#Reader.replayRoll *)
Definition replayRoll (manifest : TurnManifest) (verdict : option Verdict) : MW W (option (RollResult * RollResult)) :=
  if String.eqb (m_RollRef manifest) EmptyString then
    match verdict with
    | Some verdict =>
        if v_RequiresRoll (v_Scalars verdict) then
          throw (Errorf "turn archived a verdict that called for the dice and no roll reference" [])
        else mret None
    | None => mret None
    end
  else
    match verdict with
    | None => throw (Errorf "turn archived a roll and no verdict" [])
    | Some verdict =>
        if negb (v_RequiresRoll (v_Scalars verdict)) then
          throw (Errorf "turn archived a roll under a verdict that declined the dice" [])
        else
          ref ← lift (wrapf "turn records an unresolvable roll reference" (ParseRef (m_RollRef manifest)));
          read ← attempt (archived_GetRoll ref);
          recorded ← lift (wrapf "resolve the archived roll" read);
          if negb (String.eqb (r_TurnID recorded) (m_TurnID manifest)) then
            throw (Errorf "the roll belongs to another turn" [])
          else if negb (String.eqb (ss_CampaignID (r_Seed recorded)) (m_CampaignID manifest)) then
            throw (Errorf "the roll was derived under another campaign" [])
          else if negb (String.eqb (r_RNGVersion recorded) RNGVersion) then
            throw (Errorf "turn was rolled under another generator" [Sentinel ErrNotReplayable])
          else
            match NewRoller (r_Mechanic recorded) with
            | Err err => throw (Errorf "turn was rolled under a mechanic" [Sentinel ErrNotReplayable; err])
            | Ok roller =>
                loaded ← attempt (rs_LoadSeed seeds);
                seed ← lift (wrapf "load the campaign seed" loaded);
                reproduced ← lift (wrapf "re-execute the roll"
                  (Roll roller seed (ss_CampaignID (r_Seed recorded)) (m_TurnID manifest) (v_Modifiers verdict)));
                match identicalRolls recorded reproduced with
                | Err err => throw (Errorf "turn" [Sentinel ErrNotReproducible; err])
                | Ok _ => mret (Some (recorded, reproduced))
                end
            end
    end.

(* src/internal/ledger/replay.go#Reader.readNarration *)
Definition readNarration (manifest : TurnManifest) (roll : option RollResult) : MW W (option Narration) :=
  if String.eqb (m_NarrationRef manifest) EmptyString then mret None
  else
    ref ← lift (wrapf "turn records an unresolvable narration reference" (ParseRef (m_NarrationRef manifest)));
    read ← attempt (archived_GetNarration ref);
    narration ← lift (wrapf "resolve the archived narration" read);
    if negb (String.eqb (n_TurnID narration) (m_TurnID manifest)) then
      throw (Errorf "the narration belongs to another turn" [])
    else
      _ ← lift (checkBand roll narration);
      mret (Some narration).

(* src/internal/ledger/replay.go#Reader.Replay *)
Definition Reader_Replay (manifest : option TurnManifest) : MW W Replay :=
  match manifest with
  | None => throw (Errorf "replay requires a manifest" [])
  | Some manifest =>
      _ ← lift (wrapf "refusing to replay an incoherent manifest" (TurnManifest_Validate manifest));
      if negb (String.eqb (m_CampaignID manifest) (rs_CampaignID seeds)) then
        throw (Errorf "manifest belongs to another campaign" [])
      else
        verdict ← replay_verdict manifest;
        rolls ← replayRoll manifest verdict;
        narration ← readNarration manifest (option_map fst rolls);
        mret {| rp_Manifest := manifest; rp_Verdict := verdict; rp_Roll := option_map fst rolls;
                rp_Reproduced := option_map snd rolls; rp_Narration := narration |}
  end.
End replay.

Section reader.
Context {W : Type} `{Substrate, LedgerStream W, ManifestEnvelope W}.

(* src/internal/ledger/replay.go#Reader.archive *)
Definition Reader_archive : MW W unit :=
  held ← (stream_is_held AsReader : MW W bool);
  match held with
  | true => mret tt
  | false =>
      ensured ← (attempt EnsureStream : MW W (res unit));
      match ensured with
      | Err err => throw (Errorf "open the stream" [err])
      | Ok _ => keep_stream AsReader
      end
  end.

(* src/internal/ledger/replay.go#Reader.Manifest *)
Definition Reader_Manifest (turnID : string) : MW W TurnManifest :=
  subject ← lift (SubjectFor turnID);
  _ ← Reader_archive;
  readManifest subject.
End reader.
