(* ===== verification/Scene.v ===== *)
(** [internal/scene]: the bounded view of the room a turn is played in - the
    turn, its scene, the scene's location, whoever is there and what they point
    at - read once from the graph. *)

From stdpp Require Import sorting.
From S2P Require Import Prelude GoStd GoErrors Graph Vocab Vocabulary Payload ProjectionContract Store GraphIO Effect.

Open Scope Z_scope.

(** ** The view *)

(* src/internal/scene/view.go#type Entity *)
Record SceneEntity : Type := { se_ID : string; se_Triples : list Triple }.

(* src/internal/scene/view.go#Entity.Objects *)
Definition SceneEntity_Objects (e : SceneEntity) (predicate : string) : list any :=
  map Object (List.filter (fun t => String.eqb (Predicate t) predicate) (se_Triples e)).

(* src/internal/scene/view.go:57-61 (ExcludedMissing) *)
Definition ExcludedMissing : string := "missing".

(* src/internal/scene/view.go#type Exclusion *)
Record Exclusion : Type := { ex_ID : string; ex_Reason : string }.

(* src/internal/scene/view.go#type Actor *)
Record SceneActor : Type := { sa_PlayerID : string; sa_CharacterID : string; sa_Doubt : string }.

(* src/internal/scene/view.go#Actor.Verified *)
Definition Verified (a : SceneActor) : bool :=
  String.eqb (sa_Doubt a) EmptyString && negb (String.eqb (sa_CharacterID a) EmptyString).

(* src/internal/scene/view.go:114-118 (ActorPlayerAbsent) *)
Definition ActorPlayerAbsent : string := "player-absent".
(* src/internal/scene/view.go:119-122 (ActorBindingAbsent) *)
Definition ActorBindingAbsent : string := "binding-absent".
(* src/internal/scene/view.go:123-126 (ActorBindingAmbiguous) *)
Definition ActorBindingAmbiguous : string := "binding-ambiguous".

(* src/internal/scene/view.go#type Size *)
Record Size : Type := { sz_Entities : Z; sz_Triples : Z; sz_Bytes : Z }.

(* src/internal/scene/view.go#type View *)
Record View : Type := {
  v_TurnID : string; v_TurnEntityID : string; v_SceneID : string; v_LocationID : string;
  v_AssembledAt : time;
  v_Turn : SceneEntity; v_Scene : SceneEntity; v_Location : SceneEntity;
  v_Members : list SceneEntity; v_Neighbours : list SceneEntity; v_Excluded : list Exclusion;
  v_Actor : SceneActor; v_Size : Size
}.

(** The entities of a view, given apart because they are asked for while the
    view is still being built. *)
(* src/internal/scene/view.go#View.Entities *)
Definition view_entities (turn scene location : SceneEntity) (members neighbours : list SceneEntity) : list SceneEntity :=
  [turn; scene; location] ++ members ++ neighbours.

Definition View_Entities (v : View) : list SceneEntity :=
  view_entities (v_Turn v) (v_Scene v) (v_Location v) (v_Members v) (v_Neighbours v).

(* src/internal/scene/view.go#View.entity *)
Definition find_entity (entities : list SceneEntity) (entityID : string) : option SceneEntity :=
  List.find (fun e => String.eqb (se_ID e) entityID) entities.

(* src/internal/scene/view.go#idsOf *)
Definition idsOf (entities : list SceneEntity) : list string := map se_ID entities.

(* src/internal/scene/view.go#var registered *)
Definition registered (predicate : string) : bool := mem predicate allPredicates.

(* src/internal/scene/view.go#project *)
Definition project (state : EntityState) : SceneEntity := {|
  se_ID := ID state; se_Triples := List.filter (fun t => registered (Predicate t)) (Triples state) |}.

Section measure.
Context `{Substrate}.

(* src/internal/scene/view.go#measure *)
Definition measure (entities : list SceneEntity) : Size :=
  let triples := flat_map se_Triples entities in {|
  sz_Entities := Z.of_nat (List.length entities);
  sz_Triples := Z.of_nat (List.length triples);
  sz_Bytes := fold_left (fun n e => n + len (se_ID e)) entities
                (fold_left (fun n t => n + (len (Predicate t) + len (Sprint (Object t)))) triples 0) |}.
End measure.

(** ** Reading it *)

(* src/internal/scene/assembler.go#const DefaultMaxEntities *)
Definition DefaultMaxEntities : Z := 64.
(* src/internal/scene/assembler.go#const fixedEntities *)
Definition fixedEntities : Z := 3.

(** What the assembler reads besides single entities: batches and incoming edges. *)
(* src/internal/scene/assembler.go#type Graph *)
Class SceneGraph (W : Type) : Type := {
  GetEntities : list string -> MW W BatchResult;
  IncomingRelationships : string -> MW W (list IncomingEntry) }.

(** [message.Triple.IsRelationship], upstream's. *)
Class TripleShape : Type := { IsRelationship : Triple -> bool }.

(** The strings among objects all of which have to be strings. *)
(* src/internal/scene/assembler.go#entityReferences *)
Definition entityReferences (entity : SceneEntity) (predicate : string) : res (list string) :=
  let fix go objects :=
    match objects with
    | [] => Ok []
    | AString id :: rest => ids ← go rest; Ok (id :: ids)
    | _ :: _ => Err (Errorf "entity records a value that is no entity id" [])
    end in
  go (SceneEntity_Objects entity predicate).

(* src/internal/scene/assembler.go#sceneOf *)
Definition sceneOf (turn : SceneEntity) : res string :=
  scenes ← entityReferences turn TurnActionScene;
  match scenes with
  | [scene] => Ok scene
  | [] => Err (Errorf "turn carries no scene" [])
  | _ => Err (Errorf "turn holds several values for the single-valued scene" [])
  end.

(* src/internal/scene/assembler.go#locationOf *)
Definition locationOf (scene : SceneEntity) : res string :=
  locations ← entityReferences scene SceneLocationCurrent;
  match locations with
  | [location] => Ok location
  | [] => Err (Errorf "scene carries no location" [])
  | _ => Err (Errorf "scene holds several values for the single-valued location" [])
  end.

(* src/internal/scene/assembler.go#requireKind *)
Definition requireKind (entity : SceneEntity) (want : string) : res unit :=
  match SceneEntity_Objects entity WorldEntityKind with
  | [AString kind] =>
      require (String.eqb kind want) (Errorf "scene location has another entity kind" [])
  | [_] => Err (Errorf "scene location has another entity kind" [])
  | _ => Err (Errorf "location entity holds another number of kinds" [])
  end.

(* src/internal/scene/assembler.go#playerOf *)
Definition playerOf (turn : SceneEntity) : res string :=
  players ← entityReferences turn TurnActionPlayer;
  match players with
  | [player] => Ok player
  | [] => Err (Errorf "turn carries no player" [])
  | _ => Err (Errorf "turn holds several values for the single-valued player" [])
  end.

(* src/internal/scene/assembler.go#actorOf *)
Definition actorOf (turnEntityID sceneID : string) (turn scene location : SceneEntity)
    (members neighbours : list SceneEntity) (excluded : list Exclusion) : res SceneActor :=
  playerID ← playerOf turn;
  let doubtful doubt := {| sa_PlayerID := playerID; sa_CharacterID := EmptyString; sa_Doubt := doubt |} in
  match find_entity (view_entities turn scene location members neighbours) playerID with
  | None => Ok (doubtful ActorPlayerAbsent)
  | Some player =>
      characters ← entityReferences player PlayerCharacterCurrent;
      match characters with
      | [] => Ok (doubtful ActorBindingAbsent)
      | [character] =>
          if existsb (fun member => String.eqb (se_ID member) character) members then
            Ok {| sa_PlayerID := playerID; sa_CharacterID := character; sa_Doubt := EmptyString |}
          else
            Err (AbsentActorError sceneID turnEntityID playerID character (idsOf members)
                   (match List.find (fun e => String.eqb (ex_ID e) character) excluded with
                    | Some e => ex_Reason e | None => EmptyString end))
      | _ => Ok (doubtful ActorBindingAmbiguous)
      end
  end.

(** The sources of membership edges, each once, in order. *)
(* src/internal/scene/assembler.go:435-446 (Assembler.memberIDs) *)
Fixpoint member_ids (locationID : string) (incoming : list IncomingEntry) (seen : list string) : list string :=
  match incoming with
  | [] => []
  | edge :: rest =>
      let from := ie_FromEntityID edge in
      if negb (IsSceneMembership (ie_Predicate edge)) then member_ids locationID rest seen
      else if String.eqb from EmptyString || String.eqb from locationID || mem from seen then
        member_ids locationID rest seen
      else from :: member_ids locationID rest (from :: seen)
  end.

(** Orders by identifier, as [slices.SortFunc] with [strings.Compare] does. *)
Definition by_id {A} (id : A -> string) (a b : A) : Prop := string_le (id a) (id b).
#[export] Instance by_id_dec {A} (id : A -> string) : RelDecision (by_id id).
Proof. intros a b. unfold by_id. apply _. Defined.

Section assembler.
Context {W : Type} `{Substrate, GraphStore W, Clock W, SceneGraph W, TripleShape}.

(** What the turn, the scene, the location and the members point at, each
    target once and none of those already in view. *)
(* src/internal/scene/assembler.go:472-486 (neighbourIDsOf) *)
Fixpoint targets (triples : list Triple) (inView seen : list string) : list string :=
  match triples with
  | [] => []
  | triple :: rest =>
      match IsRelationship triple, Object triple with
      | true, AString target =>
          if mem target inView || mem target seen then targets rest inView seen
          else target :: targets rest inView (target :: seen)
      | _, _ => targets rest inView seen
      end
  end.

(* src/internal/scene/assembler.go#neighbourIDsOf *)
Definition neighbourIDsOf (sceneID locationID : string) (turn scene location : SceneEntity)
    (members : list SceneEntity) : list string :=
  let inView := [sceneID; locationID; se_ID turn] ++ idsOf members in
  Sort (targets (flat_map se_Triples ([turn; scene; location] ++ members)) inView []).

(* src/internal/scene/assembler.go#Assembler.readSolid *)
Definition readSolid (id role : string) : MW W EntityState :=
  read ← attempt (GetEntity id);
  lift (wrapf ("read entity" +:+ role) read).

(* src/internal/scene/assembler.go#Assembler.memberIDs *)
Definition memberIDs (locationID : string) : MW W (list string) :=
  read ← attempt (IncomingRelationships locationID);
  incoming ← lift (wrapf "read the members of location" read);
  mret (Sort (member_ids locationID incoming [])).

(* src/internal/scene/assembler.go#Assembler.hydrate *)
Definition hydrate (ids : list string) : MW W (list SceneEntity * list Exclusion) :=
  match ids with
  | [] => mret ([], [])
  | _ =>
      read ← attempt (GetEntities ids);
      result ← lift (wrapf "read entities" read);
      let entities := map project (br_Entities result) in
      let excluded := map (fun missing => {| ex_ID := me_ID missing; ex_Reason := ExcludedMissing |})
                        (br_Missing result) in
      mret (merge_sort (by_id se_ID) entities, merge_sort (by_id ex_ID) excluded)
  end.

(* src/internal/scene/assembler.go#Assembler.checkCap *)
Definition checkCap (maxEntities : Z) (sceneID : string) (entities : Z) : res unit :=
  if maxEntities <? entities then Err (OversizeError sceneID entities maxEntities) else Ok tt.

(** The three entities every view has. *)
(* src/internal/scene/assembler.go:137-166 (Assembler.Assemble) *)
Definition read_fixed (turnID turnEntityID : string) : MW W (SceneEntity * (string * SceneEntity) * (string * SceneEntity)) :=
  _ ← lift (RequireTurnEntityID turnID turnEntityID);
  turnState ← readSolid turnEntityID "turn";
  let turn := project turnState in
  sceneID ← lift (sceneOf turn);
  sceneState ← readSolid sceneID "scene";
  let scene := project sceneState in
  locationID ← lift (locationOf scene);
  locationState ← readSolid locationID "location";
  let location := project locationState in
  _ ← lift (requireKind location EntityKindLocation);
  mret (turn, (sceneID, scene), (locationID, location)).

(* src/internal/scene/assembler.go#Assembler.Assemble *)
Definition Assemble (maxEntities : Z) (turnID turnEntityID : string) : MW W View :=
  fixed ← read_fixed turnID turnEntityID;
  let '(turn, (sceneID, scene), (locationID, location)) := fixed in
  at_ ← read_clock;
  ids ← memberIDs locationID;
  let count := fixedEntities + Z.of_nat (List.length ids) in
  _ ← lift (checkCap maxEntities sceneID count);
  room ← hydrate ids;
  let members := room.1 in
  let neighbourIDs := neighbourIDsOf sceneID locationID turn scene location members in
  _ ← lift (checkCap maxEntities sceneID (count + Z.of_nat (List.length neighbourIDs)));
  around ← hydrate neighbourIDs;
  let neighbours := around.1 in
  let excluded := room.2 ++ around.2 in
  actor ← lift (actorOf turnEntityID sceneID turn scene location members neighbours excluded);
  mret {| v_TurnID := turnID; v_TurnEntityID := turnEntityID; v_SceneID := sceneID; v_LocationID := locationID;
          v_AssembledAt := at_; v_Turn := turn; v_Scene := scene; v_Location := location;
          v_Members := members; v_Neighbours := neighbours; v_Excluded := excluded; v_Actor := actor;
          v_Size := measure (view_entities turn scene location members neighbours) |}.
End assembler.
