(* ===== verification/Epistemic.v ===== *)
(** [internal/epistemic]: what each audience of a turn may be told. A projection
    is the public scene, the evidence its audience has a grant for, and - for
    the few that may have it - the solution of the case, within hard bounds. *)

From stdpp Require Import sorting.
From S2P Require Import Prelude GoStd GoErrors Graph Vocab Vocabulary Payload ProjectionContract Store GraphIO Knowledge Scene.

Open Scope Z_scope.

(** ** Audiences ([types.go]) *)

(* src/internal/epistemic/types.go:18-18 (PurposeCasekeeper) *)
Definition PurposeCasekeeper : string := "casekeeper".
(* src/internal/epistemic/types.go:19-19 (PurposePlayer) *)
Definition PurposePlayer : string := "player".
(* src/internal/epistemic/types.go:20-20 (PurposeCompanion) *)
Definition PurposeCompanion : string := "companion".
(* src/internal/epistemic/types.go:21-21 (PurposePublicAdjudicator) *)
Definition PurposePublicAdjudicator : string := "public-adjudicator".
(* src/internal/epistemic/types.go:22-22 (PurposeNarrator) *)
Definition PurposeNarrator : string := "narrator".
(* src/internal/epistemic/types.go:23-23 (PurposeDenouement) *)
Definition PurposeDenouement : string := "denouement".
(* src/internal/epistemic/types.go:24-24 (PurposeVerifier) *)
Definition PurposeVerifier : string := "verifier".
(* src/internal/epistemic/types.go:25-25 (PurposeOperator) *)
Definition PurposeOperator : string := "operator".

(* src/internal/epistemic/types.go#var purposes *)
Definition purposes : list string :=
  [PurposeCasekeeper; PurposePlayer; PurposeCompanion; PurposePublicAdjudicator; PurposeNarrator;
   PurposeDenouement; PurposeVerifier; PurposeOperator].

(* src/internal/epistemic/types.go#ParsePurpose *)
Definition ParsePurpose (value : string) : res string :=
  if mem value purposes then Ok value else Err (Errorf "epistemic purpose is not declared" []).

(* src/internal/epistemic/types.go#type AuthenticatedAudience *)
Record AuthenticatedAudience : Type := mkAudience {
  au_purpose : string; au_turnID : string; au_turnEntityID : string; au_caseID : string;
  au_contextRef : string; au_targetActorIDs : list string; au_companionID : string;
  au_bondID : string; au_authorizerRef : string
}.

(* src/internal/epistemic/types.go#CasekeeperAudience *)
Definition CasekeeperAudience (caseID turnID turnEntityID : string) (targetActorIDs : list string) :=
  mkAudience PurposeCasekeeper turnID turnEntityID caseID EmptyString targetActorIDs EmptyString EmptyString EmptyString.

(* src/internal/epistemic/types.go#PlayerAudience *)
Definition PlayerAudience (turnID turnEntityID : string) :=
  mkAudience PurposePlayer turnID turnEntityID EmptyString EmptyString [] EmptyString EmptyString EmptyString.

(* src/internal/epistemic/types.go#CompanionAudience *)
Definition CompanionAudience (turnID turnEntityID contextRef companionID bondID : string) :=
  mkAudience PurposeCompanion turnID turnEntityID EmptyString contextRef [] companionID bondID EmptyString.

(* src/internal/epistemic/types.go#PublicAdjudicatorAudience *)
Definition PublicAdjudicatorAudience (turnID turnEntityID : string) :=
  mkAudience PurposePublicAdjudicator turnID turnEntityID EmptyString EmptyString [] EmptyString EmptyString EmptyString.

(* src/internal/epistemic/types.go#NarratorAudience *)
Definition NarratorAudience (turnID turnEntityID : string) :=
  mkAudience PurposeNarrator turnID turnEntityID EmptyString EmptyString [] EmptyString EmptyString EmptyString.

(* src/internal/epistemic/types.go#DenouementAudience *)
Definition DenouementAudience (turnID turnEntityID caseID authorizerRef : string) :=
  mkAudience PurposeDenouement turnID turnEntityID caseID EmptyString [] EmptyString EmptyString authorizerRef.

(* src/internal/epistemic/types.go#VerifierAudience *)
Definition VerifierAudience (caseID : string) :=
  mkAudience PurposeVerifier EmptyString EmptyString caseID EmptyString [] EmptyString EmptyString EmptyString.

(* src/internal/epistemic/types.go#OperatorAudience *)
Definition OperatorAudience :=
  mkAudience PurposeOperator EmptyString EmptyString EmptyString EmptyString [] EmptyString EmptyString EmptyString.

(** ** Projections *)

(* src/internal/epistemic/types.go#type Fact *)
Record Fact : Type := { f_Predicate : string; f_Object : any }.
(* src/internal/epistemic/types.go#type Entity *)
Record ProjEntity : Type := { pe_ID : string; pe_Facts : list Fact }.

(* src/internal/epistemic/types.go#Entity.Objects *)
Definition ProjEntity_Objects (e : ProjEntity) (predicate : string) : list any :=
  map f_Object (List.filter (fun fact => String.eqb (f_Predicate fact) predicate) (pe_Facts e)).

(* src/internal/epistemic/types.go#type Actor *)
Record ProjActor : Type := { pa_Player : string; pa_Character : string }.
(* src/internal/epistemic/types.go#type Solution *)
Record Solution : Type := { Culprit : string; Method : string; Motive : string }.

Definition no_solution : Solution := {| Culprit := EmptyString; Method := EmptyString; Motive := EmptyString |}.

(* src/internal/epistemic/types.go#type Projection *)
Record Projection : Type := {
  p_Purpose : string; p_TurnID : string; p_TurnEntityID : string; p_SceneID : string;
  p_ContextRef : string; p_CompanionID : string; p_BondID : string; p_Actor : ProjActor;
  p_Turn : ProjEntity; p_Scene : ProjEntity; p_Members : list ProjEntity; p_Neighbours : list ProjEntity;
  p_HasSolution : bool; p_Solution : Solution
}.

(* src/internal/epistemic/types.go#Projection.Entities *)
Definition Projection_Entities (p : Projection) : list ProjEntity :=
  (if negb (String.eqb (pe_ID (p_Turn p)) EmptyString) then [p_Turn p] else []) ++
  (if negb (String.eqb (pe_ID (p_Scene p)) EmptyString) then [p_Scene p] else []) ++
  p_Members p ++ p_Neighbours p.

(* src/internal/epistemic/types.go#Projection.Entity *)
Definition Projection_Entity (p : Projection) (id : string) : option ProjEntity :=
  List.find (fun e => String.eqb (pe_ID e) id) (Projection_Entities p).

(** [json.Marshal] of an object and of a projection, and the [%T] verb. *)
Class ProjectionEncoder : Type := {
  marshal_any : any -> res string;
  type_name : any -> string;
  Projection_Bytes : Projection -> res string }.

(** ** The predicates each surface shows ([projector.go]) *)

(* src/internal/epistemic/projector.go#var publicWorldPredicates *)
Definition publicWorldPredicates : list string :=
  [WorldEntityName; WorldEntityKind; WorldEntityDescription; PlayerCharacterCurrent; CharacterStatusCurrent;
   WorldLocationCurrent; CharacterAttributeHealth; CharacterAttributeStamina; CharacterAttributeResolve;
   ItemAttributeQuantity; SceneAttributeTension; WorldRelationAlliedWith; WorldRelationHostileTo;
   WorldRelationKnows; WorldRelationCarries; WorldRelationOwesDebt].

(* src/internal/epistemic/projector.go#var publicTurnPredicates *)
Definition publicTurnPredicates : list string :=
  [TurnPhaseCurrent; TurnActionRef; TurnActionPlayer; TurnActionScene; TurnVerdictPlausibility; TurnVerdictRisk;
   TurnVerdictConsequence; TurnVerdictRequiresRoll; TurnVerdictRef; TurnRollBand; TurnRollTotal; TurnRollRef;
   TurnEffectsBatch; TurnEffectsRef; TurnNarrationRef; TurnResumeAttempts; TurnFailureReason; TurnFailureRef].

(* src/internal/epistemic/projector.go#var narrationTurnPredicates *)
Definition narrationTurnPredicates : list string :=
  publicTurnPredicates ++ [TurnKnowledgeRef; TurnCompanionStageRef; TurnCompanionDecisionRef].

(* src/internal/epistemic/projector.go#var evidencePredicates *)
Definition evidencePredicates : list string := [WorldEntityName; WorldEntityKind; WorldEntityDescription].

(* src/internal/epistemic/projector.go#var casekeeperPredicates *)
Definition casekeeperPredicates : list string :=
  [WorldEntityName; WorldEntityKind; WorldEntityDescription; CaseSolutionCulprit; CaseSolutionMethod;
   CaseSolutionMotive; CaseLifecyclePhase; CaseRequirementSuspects; CaseRequirementEvidence; CaseMemberSuspect;
   CaseMemberEvidence; CaseMemberTimeline; CaseMemberVictim; CaseTimelineOrder; EvidenceTruthStatusCurrent;
   EvidenceRevealPhase; EvidenceRevealKindPredicate; EvidenceRevealTarget; BeliefActorHolder; BeliefEvidenceRef;
   BeliefStanceCurrent].

(* src/internal/epistemic/policy.go:93-97 (Projector.addCompanionBond) *)
Definition bondPredicates : list string :=
  [WorldEntityKind; CompanionBondPlayer; CompanionBondCharacter; CompanionBondPolicy; CompanionBondHintLevel].

(* src/internal/epistemic/projector.go#publicEntityKind *)
Definition publicEntityKind (entity : SceneEntity) : bool :=
  match SceneEntity_Objects entity WorldEntityKind with
  | [AString kind] => mem kind [EntityKindCharacter; EntityKindItem; EntityKindScene; EntityKindPlayer]
  | _ => false
  end.

(* src/internal/epistemic/projector.go#dedupeSorted *)
Definition dedupeSorted (entities : list ProjEntity) (excluded : list string) : list ProjEntity :=
  let byID : gmap string ProjEntity :=
    fold_left (fun byID e =>
      if negb (String.eqb (pe_ID e) EmptyString) && negb (mem (pe_ID e) excluded)
      then <[pe_ID e := e]> byID else byID) entities ∅ in
  omap (fun id => byID !! id) (Sort (map fst (map_to_list byID))).

(* src/internal/epistemic/projector.go#pruneDangling *)
Definition pruneDangling (entity : ProjEntity) (allowedIDs : list string) : ProjEntity := {|
  pe_ID := pe_ID entity;
  pe_Facts := List.filter (fun fact =>
    negb (IsEntityReference (f_Predicate fact)) ||
    match f_Object fact with AString id => mem id allowedIDs | _ => false end) (pe_Facts entity) |}.

Definition with_entities (p : Projection) (turn scene : ProjEntity) (members neighbours : list ProjEntity) : Projection := {|
  p_Purpose := p_Purpose p; p_TurnID := p_TurnID p; p_TurnEntityID := p_TurnEntityID p; p_SceneID := p_SceneID p;
  p_ContextRef := p_ContextRef p; p_CompanionID := p_CompanionID p; p_BondID := p_BondID p; p_Actor := p_Actor p;
  p_Turn := turn; p_Scene := scene; p_Members := members; p_Neighbours := neighbours;
  p_HasSolution := p_HasSolution p; p_Solution := p_Solution p |}.

Definition add_neighbours (p : Projection) (more : list ProjEntity) : Projection :=
  with_entities p (p_Turn p) (p_Scene p) (p_Members p) (p_Neighbours p ++ more).

Definition with_bond (p : Projection) (contextRef companionID bondID : string) : Projection := {|
  p_Purpose := p_Purpose p; p_TurnID := p_TurnID p; p_TurnEntityID := p_TurnEntityID p; p_SceneID := p_SceneID p;
  p_ContextRef := contextRef; p_CompanionID := companionID; p_BondID := bondID; p_Actor := p_Actor p;
  p_Turn := p_Turn p; p_Scene := p_Scene p; p_Members := p_Members p; p_Neighbours := p_Neighbours p;
  p_HasSolution := p_HasSolution p; p_Solution := p_Solution p |}.

Definition with_solution (p : Projection) (solution : Solution) : Projection := {|
  p_Purpose := p_Purpose p; p_TurnID := p_TurnID p; p_TurnEntityID := p_TurnEntityID p; p_SceneID := p_SceneID p;
  p_ContextRef := p_ContextRef p; p_CompanionID := p_CompanionID p; p_BondID := p_BondID p; p_Actor := p_Actor p;
  p_Turn := p_Turn p; p_Scene := p_Scene p; p_Members := p_Members p; p_Neighbours := p_Neighbours p;
  p_HasSolution := true; p_Solution := solution |}.

(* src/internal/epistemic/projector.go#finalize *)
Definition finalize (p : Projection) : Projection :=
  let members := dedupeSorted (p_Members p) [pe_ID (p_Turn p); pe_ID (p_Scene p)] in
  let memberIDs := [pe_ID (p_Turn p); pe_ID (p_Scene p)] ++ map pe_ID members in
  let neighbours := dedupeSorted (p_Neighbours p) memberIDs in
  let p := with_entities p (p_Turn p) (p_Scene p) members neighbours in
  let allowedIDs := map pe_ID (Projection_Entities p) in
  with_entities p (pruneDangling (p_Turn p) allowedIDs) (pruneDangling (p_Scene p) allowedIDs)
    (map (fun e => pruneDangling e allowedIDs) members) (map (fun e => pruneDangling e allowedIDs) neighbours).

(** ** The scope of one world ([scope.go]) *)

(* src/internal/epistemic/scope.go#const MaxCasekeeperTargetActors *)
Definition MaxCasekeeperTargetActors : Z := 8.

(* src/internal/epistemic/scope.go#type Scope *)
Record Scope : Type := { sc_caseID : string; sc_beliefsByActorID : gmap string (list string) }.

(** The records of one actor, assigned to nobody else. *)
(* src/internal/epistemic/scope.go:51-56 (NewScope) *)
Fixpoint assign_records (actorID : string) (ids : list string) (owners : gmap string string)
    : res (gmap string string) :=
  match ids with
  | [] => Ok owners
  | recordID :: rest =>
      if match owners !! recordID with Some owner => negb (String.eqb owner actorID) | None => false end
      then Err (Errorf "belief record is assigned to two actors" [])
      else assign_records actorID rest (<[recordID := actorID]> owners)
  end.

(** The entries of the map, in the order its iteration yields them. *)
(* src/internal/epistemic/scope.go:37-58 (NewScope) *)
Fixpoint scope_entries (entries : list (string * list string)) (owners : gmap string string)
    (beliefs : gmap string (list string)) : res (gmap string (list string)) :=
  match entries with
  | [] => Ok beliefs
  | (actorID, recordIDs) :: rest =>
      let actorID := TrimSpace actorID in
      if String.eqb actorID EmptyString then Err (Errorf "epistemic scope contains an empty belief actor ID" [])
      else
        let ids := map TrimSpace recordIDs in
        if mem EmptyString ids then Err (Errorf "epistemic scope actor contains an empty belief record ID" [])
        else
          let ids := Compact (Sort ids) in
          owners ← assign_records actorID ids owners;
          scope_entries rest owners (<[actorID := ids]> beliefs)
  end.

(* src/internal/epistemic/scope.go#NewScope *)
Definition NewScope (caseID : string) (beliefsByActorID : list (string * list string)) : res Scope :=
  let caseID := TrimSpace caseID in
  if String.eqb caseID EmptyString && Nat.ltb 0 (List.length beliefsByActorID) then
    Err (Errorf "epistemic scope cannot carry beliefs without a scoped case" [])
  else
    beliefs ← scope_entries beliefsByActorID ∅ ∅;
    Ok {| sc_caseID := caseID; sc_beliefsByActorID := beliefs |}.

(* src/internal/epistemic/scope.go#Scope.CasekeeperAudience *)
Definition Scope_CasekeeperAudience (s : Scope) (turnID turnEntityID : string) : res (option AuthenticatedAudience) :=
  if String.eqb (sc_caseID s) EmptyString then Ok None
  else
    let targets := Sort (map fst (map_to_list (sc_beliefsByActorID s))) in
    if MaxCasekeeperTargetActors <? Z.of_nat (List.length targets) then
      Err (Errorf "casekeeper scope has too many belief holders" [])
    else Ok (Some (CasekeeperAudience (sc_caseID s) turnID turnEntityID targets)).

(** The records of one actor, within the limit at every step. *)
(* src/internal/epistemic/scope.go:96-101 (Scope.beliefRecords) *)
Fixpoint add_records (actorID : string) (recordIDs : list string) (limit : Z) (records : gmap string string)
    : res (gmap string string) :=
  match recordIDs with
  | [] => Ok records
  | recordID :: rest =>
      let records := <[recordID := actorID]> records in
      if limit <? Z.of_nat (size records) then
        Err (Errorf "scoped belief records exceed supplemental entity limit" [])
      else add_records actorID rest limit records
  end.

(* src/internal/epistemic/scope.go:95-102 (Scope.beliefRecords) *)
Fixpoint collect_records (s : Scope) (targets : list string) (limit : Z) (records : gmap string string)
    : res (gmap string string) :=
  match targets with
  | [] => Ok records
  | actorID :: rest =>
      records ← add_records actorID (default [] (sc_beliefsByActorID s !! actorID)) limit records;
      collect_records s rest limit records
  end.

(* src/internal/epistemic/scope.go#Scope.beliefRecords *)
Definition beliefRecords (s : Scope) (targetActorIDs : list string) (limit : Z) : res (gmap string string) :=
  let targets := map TrimSpace targetActorIDs in
  if mem EmptyString targets then Err (Errorf "casekeeper target actor IDs must not be empty" [])
  else collect_records s (Compact (Sort targets)) limit ∅.

(* src/internal/epistemic/scope.go#sortedRecordIDs *)
Definition sortedRecordIDs (records : gmap string string) : list string := Sort (map fst (map_to_list records)).

(** ** Reading entities ([policy.go]) *)

(** The one string an entity records; a value of another type is a fault. *)
(* src/internal/epistemic/policy.go#exactString *)
Definition exactString (state : EntityState) (predicate : string) : res string :=
  values ← entityReferences {| se_ID := ID state; se_Triples := Triples state |} predicate;
  match values with
  | [value] => Ok value
  | _ => Err (Errorf "entity holds another number of values" [])
  end.

(* src/internal/epistemic/policy.go#requireEntityKind *)
Definition requireEntityKind (state : EntityState) (want : string) : res unit :=
  kind ← exactString state WorldEntityKind;
  require (String.eqb kind want) (Errorf "entity has another kind" []).

(** The strings a case records for a predicate; other values are skipped. *)
(* src/internal/epistemic/policy.go#solutionOf *)
Definition solutionOf (state : EntityState) : res Solution :=
  let read predicate :=
    match knowledge_objects state predicate with
    | [value] => Ok value
    | _ => Err (Errorf "case has another number of values" [])
    end in
  culprit ← read CaseSolutionCulprit;
  method ← read CaseSolutionMethod;
  motive ← read CaseSolutionMotive;
  Ok {| Culprit := culprit; Method := method; Motive := motive |}.

(* src/internal/epistemic/narration.go:47-49 (Projector.addNarrationEvidence) *)
Fixpoint IsSorted (l : list string) : bool :=
  match l with
  | x :: (y :: _) as rest => String.leb x y && IsSorted rest
  | _ => true
  end.

(* src/internal/epistemic/narration.go#type NarrationEvidenceRequest *)
Record NarrationEvidenceRequest : Type := {
  ne_TurnID : string; ne_TurnEntityID : string; ne_PlayerID : string; ne_ContextRef : string; ne_Purpose : string }.

(** A projector: its scope and bounds, the assembler it builds on, and the
    authorities it may have been given. *)
(* src/internal/epistemic/projector.go#type Projector *)
Record Projector (W : Type) : Type := {
  pj_scope : Scope;
  pj_maxSupplemental : Z; pj_maxProjectionEntities : Z; pj_maxProjectionTriples : Z; pj_maxProjectionBytes : Z;
  pj_Assemble : string -> string -> MW W (option View);
  pj_denouement : option (string -> string -> string -> MW W bool);
  pj_companionBonds : option (string -> string -> string -> MW W unit);
  pj_narrationEvidence : option (NarrationEvidenceRequest -> MW W (list string))
}.
Arguments pj_scope {W}. Arguments pj_maxSupplemental {W}. Arguments pj_maxProjectionEntities {W}.
Arguments pj_maxProjectionTriples {W}. Arguments pj_maxProjectionBytes {W}. Arguments pj_Assemble {W}.
Arguments pj_denouement {W}. Arguments pj_companionBonds {W}. Arguments pj_narrationEvidence {W}.

(* src/internal/epistemic/projector.go#const DefaultMaxSupplementalEntities *)
Definition DefaultMaxSupplementalEntities : Z := 32.
(* src/internal/epistemic/projector.go#const DefaultMaxProjectionEntities *)
Definition DefaultMaxProjectionEntities : Z := DefaultMaxEntities + DefaultMaxSupplementalEntities.
(* src/internal/epistemic/projector.go#const DefaultMaxProjectionTriples *)
Definition DefaultMaxProjectionTriples : Z := 4096.
(* src/internal/epistemic/projector.go#const DefaultMaxProjectionBytes *)
Definition DefaultMaxProjectionBytes : Z := 2 ^ 20.

(** The bounds a projector is refused without. *)
(* src/internal/epistemic/projector.go:125-131 (NewProjector) *)
Definition NewProjector {W} (p : Projector W) : res (Projector W) :=
  if pj_maxSupplemental p <=? 0 then Err (Errorf "epistemic projector requires a positive supplemental entity cap" [])
  else if (pj_maxProjectionEntities p <=? 0) || (pj_maxProjectionTriples p <=? 0) || (pj_maxProjectionBytes p <=? 0) then
    Err (Errorf "epistemic projector requires positive output entity, triple, and byte caps" [])
  else Ok p.

(** No target twice and none empty. *)
(* src/internal/epistemic/projector.go:304-313 (Projector.validateAudience) *)
Fixpoint checkTargets (targets seen : list string) : res unit :=
  match targets with
  | [] => Ok tt
  | target :: rest =>
      if String.eqb (TrimSpace target) EmptyString then
        Err (Errorf "casekeeper audience contains an empty target actor ID" [])
      else if mem target seen then Err (Errorf "casekeeper audience repeats target actor" [])
      else checkTargets rest (target :: seen)
  end.

(* src/internal/epistemic/projector.go#Projector.validateAudience *)
Definition validateAudience {W} (p : Projector W) (a : AuthenticatedAudience) : res unit :=
  let purpose := au_purpose a in
  let blank s := String.eqb (TrimSpace s) EmptyString in
  let caseBound := mem purpose [PurposeCasekeeper; PurposeCompanion; PurposeVerifier; PurposeDenouement] in
  let caseBound := caseBound && negb (String.eqb purpose PurposeCompanion) in
  if caseBound && (blank (au_caseID a) || negb (String.eqb (au_caseID a) (sc_caseID (pj_scope p)))) then
    Err (Errorf "epistemic audience case does not match the projector's resolved world scope" [])
  else
    let turnBound := negb (String.eqb purpose PurposeVerifier) && negb (String.eqb purpose PurposeOperator) in
    if turnBound && (blank (au_turnID a) || blank (au_turnEntityID a)) then
      Err (Errorf "epistemic audience requires exact turn and turn-entity IDs" [])
    else if MaxCasekeeperTargetActors <? Z.of_nat (List.length (au_targetActorIDs a)) then
      Err (Errorf "casekeeper audience has too many target actors" [])
    else
      _ ← checkTargets (au_targetActorIDs a) [];
      if String.eqb purpose PurposeCompanion &&
         (blank (au_companionID a) || blank (au_bondID a) || blank (au_contextRef a)) then
        Err (Errorf "companion audience requires exact generic context, companion, and bond IDs" [])
      else if String.eqb purpose PurposeDenouement && blank (au_authorizerRef a) then
        Err (Errorf "denouement audience requires an exact authorization reference" [])
      else Ok tt.

(** ** Projecting *)

Section projector.
Context {W : Type} `{Substrate, SceneGraph W, PredicateReader W, ProjectionEncoder}.

(* src/internal/epistemic/projector.go#canonicalObjectKey *)
Definition canonicalObjectKey (object : any) : string :=
  match marshal_any object with
  | Err _ => type_name object +:+ ":<unserializable>"
  | Ok encoded => type_name object +:+ String ":" encoded
  end.

(** The order of an entity's facts: by predicate, then by object. *)
(* src/internal/epistemic/projector.go:425-431 (projectTriples) *)
Definition fact_le (left right : Fact) : Prop :=
  if String.eqb (f_Predicate left) (f_Predicate right)
  then string_le (canonicalObjectKey (f_Object left)) (canonicalObjectKey (f_Object right))
  else string_le (f_Predicate left) (f_Predicate right).
#[export] Instance fact_le_dec : RelDecision fact_le.
Proof. intros a b. unfold fact_le. destruct (String.eqb _ _); apply _. Defined.

(* src/internal/epistemic/projector.go#projectTriples *)
Definition projectTriples (id : string) (triples : list Triple) (allowed : list string) : ProjEntity := {|
  pe_ID := id;
  pe_Facts := merge_sort fact_le
    (map (fun t => {| f_Predicate := Predicate t; f_Object := Object t |})
       (List.filter (fun t => mem (Predicate t) allowed) triples)) |}.

(* src/internal/epistemic/projector.go#projectSceneEntity *)
Definition projectSceneEntity (entity : SceneEntity) (allowed : list string) : ProjEntity :=
  projectTriples (se_ID entity) (se_Triples entity) allowed.

(* src/internal/epistemic/projector.go#projectState *)
Definition projectState (state : EntityState) (allowed : list string) : ProjEntity :=
  projectTriples (ID state) (Triples state) allowed.

(* src/internal/epistemic/projector.go#publicProjection *)
Definition publicProjection (view : View) (purpose : string) : Projection :=
  let turnPredicates := if String.eqb purpose PurposeNarrator || String.eqb purpose PurposeDenouement
                        then narrationTurnPredicates else publicTurnPredicates in
  let public := fun l => map (fun e => projectSceneEntity e publicWorldPredicates) (List.filter publicEntityKind l) in {|
  p_Purpose := purpose; p_TurnID := v_TurnID view; p_TurnEntityID := v_TurnEntityID view; p_SceneID := v_SceneID view;
  p_ContextRef := EmptyString; p_CompanionID := EmptyString; p_BondID := EmptyString;
  p_Actor := {| pa_Player := sa_PlayerID (v_Actor view); pa_Character := sa_CharacterID (v_Actor view) |};
  p_Turn := projectSceneEntity (v_Turn view) turnPredicates;
  p_Scene := projectSceneEntity (v_Scene view) publicWorldPredicates;
  p_Members := public (v_Members view); p_Neighbours := public (v_Neighbours view);
  p_HasSolution := false; p_Solution := no_solution |}.

(* src/internal/epistemic/projector.go#projectionEntityIDs *)
Definition projectionEntityIDs (p : Projection) : list string := map pe_ID (Projection_Entities p).

(* src/internal/epistemic/projector.go#Projector.enforceProjectionBounds *)
Definition enforceProjectionBounds (pj : Projector W) (p : Projection) (baseEntityIDs : list string) : res unit :=
  let entities := Projection_Entities p in
  let supplemental := List.filter (fun e => negb (mem (pe_ID e) baseEntityIDs)) entities in
  if pj_maxProjectionEntities pj <? Z.of_nat (List.length entities) then
    Err (Errorf "epistemic projection has too many entities" [])
  else if pj_maxSupplemental pj <? Z.of_nat (List.length supplemental) then
    Err (Errorf "epistemic projection has too many cumulative supplemental entities" [])
  else if pj_maxProjectionTriples pj <? Z.of_nat (List.length (flat_map pe_Facts entities)) then
    Err (Errorf "epistemic projection has too many triples" [])
  else
    bytes ← wrapf "serialize epistemic projection for byte bound" (Projection_Bytes p);
    if pj_maxProjectionBytes pj <? len bytes then Err (Errorf "epistemic projection has too many serialized bytes" [])
    else Ok tt.

(* src/internal/epistemic/projector.go#Projector.queryIDs *)
Definition queryIDs (pj : Projector W) (predicate value : string) : MW W (list string) :=
  read ← attempt (EntitiesByPredicateValue predicate value (pj_maxSupplemental pj + 1));
  ids ← lift (wrapf "query" read);
  if pj_maxSupplemental pj <? Z.of_nat (List.length ids) then throw (Errorf "query returned too many entities" [])
  else mret (Compact (Sort ids)).

(** The loop over what the batch returned: only what was asked for, once. *)
(* src/internal/epistemic/projector.go:367-380 (Projector.hydrate) *)
Fixpoint check_batch (entities : list EntityState) (requested seen : list string) : res (list EntityState) :=
  match entities with
  | [] => Ok []
  | state :: rest =>
      if negb (mem (ID state) requested) then Err (Errorf "supplemental hydration returned unrequested entity" [])
      else if mem (ID state) seen then Err (Errorf "supplemental hydration returned entity more than once" [])
      else
        states ← check_batch rest requested (ID state :: seen);
        Ok (if String.eqb (ID state) EmptyString then states else state :: states)
  end.

(* src/internal/epistemic/projector.go#Projector.hydrate *)
Definition hydrate (pj : Projector W) (ids : list string) : MW W (list EntityState) :=
  match ids with
  | [] => mret []
  | _ =>
      if pj_maxSupplemental pj <? Z.of_nat (List.length ids) then
        throw (Errorf "supplemental hydration requests too many entities" [])
      else
        result ← GetEntities ids;
        states ← lift (check_batch (br_Entities result) ids []);
        mret (merge_sort (by_id ID) states)
  end.

(* src/internal/epistemic/policy.go#Projector.addEvidence *)
Definition addEvidence (pj : Projector W) (p : Projection) (ids allowed : list string) : MW W Projection :=
  states ← hydrate pj (Compact (Sort ids));
  _ ← lift (all_ok (fun state => wrapf "authorized evidence target" (requireEntityKind state EntityKindEvidence)) states);
  mret (add_neighbours p (map (fun state => projectState state allowed) states)).

(** The evidence one grant names, and whose grant it is. *)
(* src/internal/epistemic/policy.go:25-42 (Projector.addKnowledge) *)
Definition knowledge_evidence (actorID : string) (record : EntityState) : res string :=
  let checked {A} (r : res A) := wrapf "knowledge authorization record" r in
  _ ← checked (requireEntityKind record EntityKindKnowledge);
  holder ← checked (exactString record KnowledgeActorHolder);
  if negb (String.eqb holder actorID) then Err (Errorf "knowledge record holder does not match queried actor" [])
  else checked (exactString record KnowledgeEvidenceRef).

(* src/internal/epistemic/policy.go#Projector.addKnowledge *)
Definition addKnowledge (pj : Projector W) (p : Projection) (actorID : string) : MW W Projection :=
  recordIDs ← queryIDs pj KnowledgeActorHolder actorID;
  read ← attempt (hydrate pj recordIDs);
  records ← lift (wrapf "hydrate knowledge grants" read);
  evidenceIDs ← lift (each (knowledge_evidence actorID) records);
  addEvidence pj p evidenceIDs evidencePredicates.

(** The evidence one receipt of the turn revealed, if it was to this actor. *)
(* src/internal/epistemic/policy.go:58-81 (Projector.addRevelations) *)
Definition revealed_evidence (actorID turnID : string) (record : EntityState) : res (list string) :=
  let checked {A} (r : res A) := wrapf "revelation authorization record" r in
  _ ← checked (requireEntityKind record EntityKindRevelation);
  recordTurnID ← checked (exactString record RevelationTurnID);
  if negb (String.eqb recordTurnID turnID) then Err (Errorf "revelation record turn does not match queried turn" [])
  else
    holder ← checked (exactString record RevelationActorHolder);
    evidenceID ← checked (exactString record RevelationEvidenceRef);
    Ok (if String.eqb holder actorID then [evidenceID] else []).

(* src/internal/epistemic/policy.go#Projector.addRevelations *)
Definition addRevelations (pj : Projector W) (p : Projection) (actorID turnID : string) : MW W Projection :=
  recordIDs ← queryIDs pj RevelationTurnID turnID;
  read ← attempt (hydrate pj recordIDs);
  records ← lift (wrapf "hydrate revelation receipts" read);
  evidenceIDs ← lift (each (revealed_evidence actorID turnID) records);
  addEvidence pj p (List.concat evidenceIDs) evidencePredicates.

(* src/internal/epistemic/policy.go#Projector.addCompanionBond *)
Definition addCompanionBond (pj : Projector W) (p : Projection) (bondID : string) : MW W Projection :=
  read ← attempt (hydrate pj [bondID]);
  bonds ← lift (wrapf "hydrate companion bond projection" read);
  match bonds with
  | [bond] => mret (add_neighbours p [projectState bond bondPredicates])
  | _ => throw (Errorf "companion bond is missing from projection" [])
  end.

(* src/internal/epistemic/policy.go#Projector.caseState *)
Definition caseState (pj : Projector W) : MW W EntityState :=
  let caseID := sc_caseID (pj_scope pj) in
  if String.eqb caseID EmptyString then throw (Errorf "this world instance has no scoped mystery case" [])
  else
    states ← hydrate pj [caseID];
    match states with
    | [state] =>
        _ ← lift (wrapf "scoped case" (requireEntityKind state EntityKindCase));
        mret state
    | _ => throw (Errorf "scoped case is missing from the graph" [])
    end.

(** A belief the casekeeper is shown: of the actor it is scoped to, about the case's evidence. *)
(* src/internal/epistemic/policy.go:169-197 (Projector.addCasekeeperState) *)
Definition check_belief (beliefRecords : gmap string string) (caseEvidence : list string) (belief : EntityState)
    : res ProjEntity :=
  let checked {A} (r : res A) := wrapf "scoped belief authorization record" r in
  _ ← checked (requireEntityKind belief EntityKindBelief);
  holder ← checked (exactString belief BeliefActorHolder);
  if negb (String.eqb holder (default EmptyString (beliefRecords !! ID belief))) then
    Err (Errorf "scoped belief holder does not match plan-scoped actor" [])
  else
    evidenceID ← checked (exactString belief BeliefEvidenceRef);
    if negb (mem evidenceID caseEvidence) then Err (Errorf "scoped belief evidence is not a member of case" [])
    else
      stance ← checked (exactString belief BeliefStanceCurrent);
      _ ← wrapf "scoped belief stance" (ParseBeliefStance stance);
      Ok (projectState belief casekeeperPredicates).

(** What the casekeeper's predicates of the case refer to. *)
(* src/internal/epistemic/policy.go:110-121 (Projector.addCasekeeperState) *)
Definition case_references (state : EntityState) : list string :=
  Compact (Sort (omap (fun t =>
    if mem (Predicate t) casekeeperPredicates && IsEntityReference (Predicate t)
    then match Object t with AString id => Some id | _ => None end else None) (Triples state))).

(** Whom the casekeeper may be asked about: a suspect, or a character in view. *)
(* src/internal/epistemic/policy.go:129-142 (Projector.addCasekeeperState) *)
Definition eligibleTargets (p : Projection) (state : EntityState) : list string :=
  knowledge_objects state CaseMemberSuspect ++
  map pe_ID (List.filter (fun member =>
    match ProjEntity_Objects member WorldEntityKind with
    | [AString kind] => String.eqb kind EntityKindCharacter
    | _ => false
    end) (p_Members p)).

(* src/internal/epistemic/policy.go#Projector.addCasekeeperState *)
Definition addCasekeeperState (pj : Projector W) (p : Projection) (targetActorIDs : list string) : MW W Projection :=
  state ← caseState pj;
  let p := add_neighbours p [projectState state casekeeperPredicates] in
  states ← hydrate pj (case_references state);
  let p := add_neighbours p (map (fun s => projectState s casekeeperPredicates) states) in
  _ ← lift (all_ok (fun target => require (mem target (eligibleTargets p state))
        (Errorf "casekeeper target actor is neither a scoped case suspect nor visible actor" [])) targetActorIDs);
  records ← lift (beliefRecords (pj_scope pj) targetActorIDs (pj_maxSupplemental pj));
  let beliefIDs := sortedRecordIDs records in
  beliefs ← hydrate pj beliefIDs;
  if negb (Nat.eqb (List.length beliefs) (List.length beliefIDs)) then
    throw (Errorf "scoped case is missing one or more authored belief records" [])
  else
    more ← lift (each (check_belief records (knowledge_objects state CaseMemberEvidence)) beliefs);
    mret (add_neighbours p more).

(* src/internal/epistemic/policy.go#Projector.solutionOnly *)
Definition solutionOnly (pj : Projector W) (purpose : string) : MW W Projection :=
  state ← caseState pj;
  solution ← lift (solutionOf state);
  let nothing := {| pe_ID := EmptyString; pe_Facts := [] |} in
  mret {| p_Purpose := purpose; p_TurnID := EmptyString; p_TurnEntityID := EmptyString; p_SceneID := EmptyString;
          p_ContextRef := EmptyString; p_CompanionID := EmptyString; p_BondID := EmptyString;
          p_Actor := {| pa_Player := EmptyString; pa_Character := EmptyString |};
          p_Turn := nothing; p_Scene := nothing; p_Members := []; p_Neighbours := [];
          p_HasSolution := true; p_Solution := solution |}.

(* src/internal/epistemic/policy.go#Projector.authorizeDenouement *)
Definition authorizeDenouement (pj : Projector W) (p : Projection) (authorizerRef : string) : MW W Projection :=
  state ← caseState pj;
  match ProjEntity_Objects (projectState state casekeeperPredicates) CaseLifecyclePhase with
  | [AString phase] =>
      if negb (String.eqb phase CasePhaseDenouement) then
        throw (Errorf "denouement projection requires the case lifecycle denouement phase" [])
      else
        match pj_denouement pj with
        | None => throw (Errorf "denouement projection requires an accusation authorizer" [])
        | Some authorize =>
            asked ← attempt (authorize (p_TurnID p) (ID state) authorizerRef);
            authorized ← lift (wrapf "authorize denouement" asked);
            if negb authorized then
              throw (Errorf "denouement projection is not authorized by a correct accusation result" [])
            else
              solution ← lift (solutionOf state);
              mret (with_solution p solution)
        end
  | _ => throw (Errorf "denouement projection requires the case lifecycle denouement phase" [])
  end.

(** The ordinary narrator is not handed an identity of the locked solution. *)
(* src/internal/epistemic/narration.go:53-67 (Projector.addNarrationEvidence) *)
Definition check_locked (pj : Projector W) (purpose : string) (ids : list string) : MW W unit :=
  if String.eqb purpose PurposeNarrator && negb (Nat.eqb (List.length ids) 0) &&
     negb (String.eqb (sc_caseID (pj_scope pj)) EmptyString) then
    state ← caseState pj;
    solution ← lift (solutionOf state);
    lift (all_ok (fun id => require (negb (mem id [Culprit solution; Method solution; Motive solution]))
      (Errorf "ordinary narrator companion evidence cites locked solution identity" [])) ids)
  else mret tt.

(* src/internal/epistemic/narration.go#Projector.addNarrationEvidence *)
Definition addNarrationEvidence (pj : Projector W) (p : Projection) (audience : AuthenticatedAudience) : MW W Projection :=
  match pj_narrationEvidence pj with
  | None =>
      if Nat.eqb (List.length (ProjEntity_Objects (p_Turn p) TurnCompanionStageRef)) 0 then mret p
      else throw (Errorf "narrator projection requires the companion narration evidence resolver" [])
  | Some resolve =>
      asked ← attempt (resolve {|
        ne_TurnID := au_turnID audience; ne_TurnEntityID := au_turnEntityID audience;
        ne_PlayerID := pa_Player (p_Actor p); ne_ContextRef := p_SceneID p; ne_Purpose := au_purpose audience |});
      ids ← lift (wrapf "authorize companion narration evidence" asked);
      if negb (IsSorted ids) then throw (Errorf "companion narration evidence resolver returned unsorted identities" [])
      else if negb (Nat.eqb (List.length (Compact ids)) (List.length ids)) then
        throw (Errorf "companion narration evidence resolver returned duplicate identities" [])
      else
        _ ← check_locked pj (au_purpose audience) ids;
        states ← hydrate pj ids;
        if negb (Nat.eqb (List.length states) (List.length ids)) then
          throw (Errorf "one or more authorized companion narration evidence entities are missing" [])
        else
          _ ← lift (all_ok (fun s => wrapf "authorized companion narration evidence"
                (requireEntityKind s EntityKindEvidence)) states);
          mret (add_neighbours p (map (fun s => projectState s evidencePredicates) states))
  end.

(** What each purpose adds to the public scene. *)
(* src/internal/epistemic/projector.go:179-236 (Projector.Project) *)
Definition add_for (pj : Projector W) (view : View) (audience : AuthenticatedAudience) (p : Projection) : MW W Projection :=
  let purpose := au_purpose audience in
  let actorID := if String.eqb purpose PurposeCompanion then au_companionID audience
                 else sa_CharacterID (v_Actor view) in
  if String.eqb purpose PurposePublicAdjudicator then addKnowledge pj p actorID
  else if String.eqb purpose PurposePlayer then
    p ← addKnowledge pj p actorID;
    addRevelations pj p actorID (au_turnID audience)
  else if String.eqb purpose PurposeCompanion then
    match pj_companionBonds pj with
    | None => throw (Errorf "companion projection requires the authoritative bond validator" [])
    | Some validate =>
        _ ← validate (au_bondID audience) (sa_PlayerID (v_Actor view)) actorID;
        let p := with_bond p (au_contextRef audience) (au_companionID audience) (au_bondID audience) in
        p ← addCompanionBond pj p (au_bondID audience);
        addKnowledge pj p actorID
    end
  else if String.eqb purpose PurposeNarrator then
    p ← addKnowledge pj p actorID;
    p ← addRevelations pj p actorID (au_turnID audience);
    addNarrationEvidence pj p audience
  else if String.eqb purpose PurposeCasekeeper then addCasekeeperState pj p (au_targetActorIDs audience)
  else if String.eqb purpose PurposeDenouement then
    p ← addKnowledge pj p actorID;
    p ← addRevelations pj p actorID (au_turnID audience);
    p ← authorizeDenouement pj p (au_authorizerRef audience);
    addNarrationEvidence pj p audience
  else mret p.

(* src/internal/epistemic/projector.go#Projector.Project *)
Definition Project (pj : Projector W) (audience : AuthenticatedAudience) : MW W Projection :=
  let purpose := au_purpose audience in
  if negb (mem purpose purposes) then throw (Errorf "project context: undeclared purpose" [])
  else if String.eqb purpose PurposeOperator then
    throw (Errorf "operator projection is not a persona surface" [])
  else
    _ ← lift (validateAudience pj audience);
    if String.eqb purpose PurposeVerifier then
      p ← solutionOnly pj purpose;
      _ ← lift (enforceProjectionBounds pj p []);
      mret p
    else
      assembled ← attempt (pj_Assemble pj (au_turnID audience) (au_turnEntityID audience));
      found ← lift (wrapf "assemble bounded public scene" assembled);
      match found with
      | None => throw (Errorf "assemble bounded public scene: assembler returned nil" [])
      | Some view =>
          if negb (String.eqb (v_TurnID view) (au_turnID audience)) ||
             negb (String.eqb (v_TurnEntityID view) (au_turnEntityID audience)) then
            throw (Errorf "assembled turn identity does not match the authenticated audience scope" [])
          else if negb (Verified (v_Actor view)) then throw (Errorf "pin acting actor from graph" [])
          else
            let public := publicProjection view purpose in
            let baseEntityIDs := projectionEntityIDs public in
            p ← add_for pj view audience public;
            let p := finalize p in
            _ ← lift (enforceProjectionBounds pj p baseEntityIDs);
            mret p
      end.
End projector.
