(* ===== verification/Accusation.v ===== *)
(** [internal/accusation]: an accusation is verified against the solution only
    the verifier may read, its result is committed once, a correct one is
    reported to the case's lifecycle, and the narration that follows is routed
    to the denouement when the result entitles it. *)

From S2P Require Import Prelude GoStd GoHash GoErrors Graph Vocab Vocabulary Payload Mechanics Decisions ContentRecords ContentStore ProjectionContract Store Sequencing RulePack Turn Caseflow Knowledge Scene Epistemic.

Open Scope Z_scope.

#[export] Instance AccusationResult_eq_dec : EqDecision AccusationResult.
Proof. solve_decision. Defined.
#[export] Instance AccusationRecord_eq_dec : EqDecision AccusationRecord.
Proof. solve_decision. Defined.

(* src/internal/accusation/commit.go#const resultSource *)
Definition resultSource : string := "accusation-verifier".

(* src/internal/accusation/loader.go#integrity *)
Definition integrity (msg : string) : error := IntegrityError (Errorf msg []).

(* src/internal/accusation/loader.go#permanentArtifactError *)
Definition permanentArtifactError (err : error) : bool :=
  errors_Is ErrArtifactNotFound err || errors_Is ErrArtifactReference err || errors_Is ErrArtifactCorrupt err.

(** The strings among the values an entity states of itself; nothing when a
    value is of another type. *)
(* src/internal/accusation/commit.go:141-150 (stringObjects) *)
Fixpoint own_strings (state : EntityState) (predicate : string) (triples : list Triple) : option (list string) :=
  match triples with
  | [] => Some []
  | t :: rest =>
      if own state predicate t then
        match Object t with
        | AString value => values ← own_strings state predicate rest; Some (value :: values)
        | _ => None
        end
      else own_strings state predicate rest
  end.

(* src/internal/accusation/commit.go#stringObjects *)
Definition stringObjects (state : EntityState) (predicate : string) : list string :=
  default ["<non-string>"%string] (own_strings state predicate (Triples state)).

(* src/internal/accusation/loader.go#soleObject *)
Definition soleObject (state : EntityState) (predicate : string) : res string :=
  match own_strings state predicate (Triples state) with
  | None => Err (Errorf "value is not a string" [])
  | Some [value] => Ok value
  | Some _ => Err (Errorf "entity holds another number of values" [])
  end.

(* src/internal/accusation/commit.go#resultTriple *)
Definition resultTriple (subject predicate object : string) (at_ : time) : Triple := {|
  Subject := subject; Predicate := predicate; Object := AString object; Source := resultSource;
  Timestamp := at_; Confidence := float_one; Context_ := subject; Datatype := EmptyString; ExpiresAt := None |}.

(** ** Verifying *)

(* src/internal/accusation/verifier.go#Verify *)
Definition Verify `{Substrate} (decision : option CaseDecision) (solution : Solution) : res AccusationResult :=
  match decision with
  | None => Err (Errorf "accusation verification requires a decision" [])
  | Some decision =>
      _ ← wrapf "invalid accusation decision" (CaseDecision_Validate decision);
      if negb (String.eqb (cd_Kind decision) CaseDecisionAccuse) then Err (Errorf "decision has another kind" [])
      else
        let outcome := if String.eqb (cd_CulpritRef decision) (Culprit solution) &&
                          String.eqb (cd_MethodRef decision) (Method solution) &&
                          String.eqb (cd_MotiveRef decision) (Motive solution)
                       then AccusationCorrect else AccusationIncorrect in
        Ok {| ar_ResultID := AccusationResultID (cd_TurnID decision) (cd_CaseID decision) (cd_DecisionID decision);
              ar_TurnID := cd_TurnID decision; ar_CaseID := cd_CaseID decision;
              ar_DecisionID := cd_DecisionID decision; ar_Outcome := outcome |}
  end.

(* src/internal/accusation/loader.go#type Preflight *)
Record AccusationPreflight : Type := {
  af_TurnEntityID : string; af_TurnID : string; af_Applicable : bool; af_CaseID : string; af_CasePhase : string;
  af_Decision : option CaseDecision; af_Solution : Solution
}.

(** What the stage knows of a turn it has nothing to verify for. *)
Definition inapplicable (turnEntityID turnID : string) (decision : option CaseDecision) : AccusationPreflight := {|
  af_TurnEntityID := turnEntityID; af_TurnID := turnID; af_Applicable := false; af_CaseID := EmptyString;
  af_CasePhase := EmptyString; af_Decision := decision; af_Solution := no_solution |}.

Section accusation.
Context {W : Type} `{Substrate, GraphStore W, Clock W, CaseArtifacts W, Ctx W}.

(** ** Committing *)

(** The record the turn already names has to be this one. *)
(* src/internal/accusation/commit.go:99-119 (Committer.Commit) *)
Definition resident_record (refs : list string) (record : AccusationRecord) : MW W Ref :=
  match refs with
  | [value] =>
      match ParseRef value with
      | Err _ => throw (integrity "resident accusation reference")
      | Ok ref =>
          read ← attempt (artifacts_GetAccusationRecord ref);
          match read with
          | Err readErr =>
              if permanentArtifactError readErr then throw (integrity "resolve resident accusation record")
              else throw (Errorf "resolve resident accusation record" [readErr])
          | Ok resident =>
              if negb (bool_decide (resident = Some record)) then
                throw (integrity "resident accusation record does not match deterministic retry")
              else mret ref
          end
      end
  | _ => throw (integrity "resident accusation record is ambiguous")
  end.

(* src/internal/accusation/commit.go#Committer.Commit *)
Definition Commit (turnEntityID : string) (record : AccusationRecord) : MW W Ref :=
  match AccusationRecord_Validate record with
  | Err _ => throw (integrity "invalid accusation record")
  | Ok _ =>
      match RequireTurnEntityID (acr_TurnID record) turnEntityID with
      | Err _ => throw (integrity "accusation record turn identity")
      | Ok _ =>
          read ← attempt (GetEntity turnEntityID);
          match read with
          | Err err =>
              if errors_Is ErrEntityNotFound err then throw (integrity "accusation turn is missing during commit")
              else throw (Errorf "read turn before accusation commit" [err])
          | Ok state =>
              let refs := stringObjects state TurnAccusationRef in
              if Nat.ltb 0 (List.length refs) then resident_record refs record
              else
                stored ← attempt (artifacts_PutAccusationRecord turnEntityID record);
                ref ← lift (wrapf "store accusation record" stored);
                at_ ← read_clock;
                let triples := [resultTriple turnEntityID TurnAccusationRef (Ref_String ref) at_] in
                written ← attempt (RetryRevisionConflict (_ ← Reconcile TurnAccusation turnEntityID triples; mret tt));
                _ ← lift (wrapf "record accusation barrier on turn" written);
                mret ref
          end
      end
  end.

(* src/internal/accusation/commit.go#Committer.CommitResult *)
Definition CommitResult (turnEntityID : string) (result : AccusationResult) : MW W Ref :=
  Commit turnEntityID {| acr_TurnID := ar_TurnID result; acr_Status := AccusationResultRecorded;
                         acr_Result := Some result |}.

(* src/internal/accusation/commit.go#Committer.CommitNotApplicable *)
Definition CommitNotApplicable (turnID turnEntityID : string) : MW W Ref :=
  Commit turnEntityID {| acr_TurnID := turnID; acr_Status := AccusationNotApplicable; acr_Result := None |}.

(** ** Loading *)

(** [SolutionProjector], [ProjectionService]: a projector of the epistemic scope. *)
Definition ProjectionService : Type := AuthenticatedAudience -> MW W Projection.

(** The decision of the turn, read from its own slot. *)
(* src/internal/accusation/loader.go:106-143 (Loader.Load) *)
Definition load_accusation (turnID : string) (turnState : EntityState) : MW W (option CaseDecision) :=
  let checked {A} (msg : string) (r : res A) : MW W A :=
    match r with Ok a => mret a | Err _ => throw (integrity msg) end in
  refText ← checked "accusation decision reference"%string (soleObject turnState TurnCaseDecisionRef);
  ref ← checked "accusation decision reference"%string (ParseRef refText);
  let slot := "decision reference is not the triggered turn's deterministic slot"%string in
  expectedKey ← checked slot (KeyFor TurnCaseDecisionRef SubjectTurn turnID);
  if negb (String.eqb (Key ref) expectedKey) then throw (integrity slot)
  else
    read ← attempt (artifacts_GetCaseDecisionRecord ref);
    match read with
    | Err err => if permanentArtifactError err then throw (integrity "read accusation decision")
                 else throw (Errorf "read accusation decision" [err])
    | Ok None => throw (integrity "decision store returned nil record")
    | Ok (Some record) =>
        _ ← checked "invalid accusation decision record"%string (CaseDecisionRecord_Validate record);
        if negb (String.eqb (cdr_TurnID record) turnID) then
          throw (integrity "decision record belongs to a foreign turn")
        else if String.eqb (cdr_Status record) CaseDecisionStatusNotApplicable then mret None
        else
          match cdr_Decision record with
          | None => throw (integrity "decision record belongs to a foreign turn")
          | Some decision =>
              if negb (String.eqb (cd_TurnID decision) turnID) then
                throw (integrity "decision record belongs to a foreign turn")
              else if negb (String.eqb (cdr_ActionID record) (cd_ActionID decision)) then
                throw (integrity "decision record and decision name different actions")
              else mret (Some decision)
          end
    end.

(** The case's phase and its solution, for an accusation about this case. *)
(* src/internal/accusation/loader.go:147-173 (Loader.Load) *)
Definition load_case (caseID : string) (project : option ProjectionService) (turnEntityID turnID : string)
    (decision : CaseDecision) : MW W AccusationPreflight :=
  match project with
  | None => throw (integrity "accusation decision belongs to a foreign or unscoped case")
  | Some project =>
      if String.eqb caseID EmptyString || negb (String.eqb (cd_CaseID decision) caseID) then
        throw (integrity "accusation decision belongs to a foreign or unscoped case")
      else
        read ← attempt (GetEntity caseID);
        match read with
        | Err err => if errors_Is ErrEntityNotFound err then throw (integrity "accusation case is missing")
                     else throw (Errorf "read accusation case" [err])
        | Ok caseState =>
            match phaseText ← soleObject caseState CaseLifecyclePhase; ParseCasePhase phaseText with
            | Err _ => throw (integrity "accusation case phase")
            | Ok phase =>
                projected ← attempt (project (VerifierAudience caseID));
                projection ← lift (wrapf "project canonical accusation solution" projected);
                if negb (String.eqb (p_Purpose projection) PurposeVerifier) || negb (p_HasSolution projection) then
                  throw (integrity "verifier projection returned no canonical solution")
                else mret {| af_TurnEntityID := turnEntityID; af_TurnID := turnID; af_Applicable := true;
                             af_CaseID := caseID; af_CasePhase := phase; af_Decision := Some decision;
                             af_Solution := p_Solution projection |}
            end
        end
  end.

(* src/internal/accusation/loader.go#Loader.Load *)
Definition Accusation_Load (caseID : string) (project : option ProjectionService) (turnEntityID : string)
    : MW W AccusationPreflight :=
  match Split dot turnEntityID with
  | [_; _; _; _; kind; turnID] =>
      if negb (String.eqb kind "turn") then throw (integrity "accusation trigger names non-turn entity")
      else
        match RequireTurnEntityID turnID turnEntityID with
        | Err _ => throw (integrity "accusation trigger identity")
        | Ok _ =>
            read ← attempt (GetEntity turnEntityID);
            match read with
            | Err err => if errors_Is ErrEntityNotFound err then throw (MissingAccusationTurnError turnEntityID err)
                         else throw (Errorf "read accusation turn" [err])
            | Ok turnState =>
                found ← load_accusation turnID turnState;
                match found with
                | None => mret (inapplicable turnEntityID turnID None)
                | Some decision =>
                    if negb (String.eqb (cd_Kind decision) CaseDecisionAccuse) then
                      mret (inapplicable turnEntityID turnID (Some decision))
                    else load_case caseID project turnEntityID turnID decision
                end
            end
        end
  | _ => throw (integrity "accusation trigger names non-turn entity")
  end.

(** ** The consumer *)

Context `{ActionStore W}.

(* src/internal/accusation/consumer.go#Consumer.failInvalid *)
Definition failInvalid (trigger : Trigger) : MW W unit :=
  failed ← attempt (Fail_ (t_TurnID trigger) (t_TurnEntityID trigger) FailureAccusationInvalid zero_Ref);
  match failed with
  | Ok _ => mret tt
  | Err err => if errors_Is ErrEntityNotFound err then throw (TerminateDelivery err)
               else throw (Errorf "durably fail invalid accusation turn" [err])
  end.

(** An accusation of a case that is ready for one. *)
(* src/internal/accusation/consumer.go:114-146 (Consumer.Handle) *)
Definition handle_accusation (trigger : Trigger) (loaded : AccusationPreflight) (decision : CaseDecision) : MW W unit :=
  submitted ← attempt (Record_ {| tq_CaseEntityID := af_CaseID loaded; tq_EventID := cd_DecisionID decision;
                                  tq_Kind := CaseEventAccusationSubmitted |});
  match submitted with
  | Err err => throw (Errorf "record accusation submitted" [err])
  | Ok _ =>
      if String.eqb (af_CasePhase loaded) CasePhaseInvestigation then
        throw (Errorf "await accusation lifecycle transition" [])
      else if negb (String.eqb (af_CasePhase loaded) CasePhaseAccusation) &&
              negb (String.eqb (af_CasePhase loaded) CasePhaseDenouement) then failInvalid trigger
      else
        match Verify (Some decision) (af_Solution loaded) with
        | Err _ => failInvalid trigger
        | Ok result =>
            committed ← attempt (CommitResult (t_TurnEntityID trigger) result);
            match committed with
            | Err err => if errors_As_b is_IntegrityError err then failInvalid trigger
                         else throw (Errorf "commit accusation result" [err])
            | Ok _ =>
                if String.eqb (ar_Outcome result) AccusationIncorrect then mret tt
                else
                  correct ← attempt (Record_ {| tq_CaseEntityID := af_CaseID loaded; tq_EventID := ar_ResultID result;
                                                tq_Kind := CaseEventAccusationCorrect |});
                  match correct with
                  | Err err => throw (Errorf "record correct accusation" [err])
                  | Ok _ => mret tt
                  end
            end
        end
  end.

(* src/internal/accusation/consumer.go#Consumer.Handle *)
Definition Accusation_Handle (caseID : string) (project : option ProjectionService) (decoded : res rulePublication)
    : MW W unit :=
  match ParseTrigger decoded with
  | Err err => throw (TerminateDelivery err)
  | Ok trigger =>
      if negb (String.eqb (t_Subject trigger) SubjectAccusation) then
        throw (TerminateDelivery (Errorf "accusation durable received another subject" []))
      else
        read ← attempt (Accusation_Load caseID project (t_TurnEntityID trigger));
        match read with
        | Err err =>
            if errors_As_b is_MissingAccusationTurnError err then throw (TerminateDelivery err)
            else if errors_As_b is_IntegrityError err then failInvalid trigger
            else throw (Errorf "load accusation preflight" [err])
        | Ok loaded =>
            match af_Applicable loaded, af_Decision loaded with
            | true, Some decision => handle_accusation trigger loaded decision
            | _, _ =>
                committed ← attempt (CommitNotApplicable (af_TurnID loaded) (t_TurnEntityID trigger));
                match committed with
                | Ok _ => mret tt
                | Err err => if errors_As_b is_IntegrityError err then failInvalid trigger
                             else throw (Errorf "commit non-applicable accusation barrier" [err])
                end
            end
        end
  end.

(** ** After the verdict *)

Context `{PredicateReader W}.

(** Whether the turn's stored result entitles it to the denouement. *)
(* src/internal/accusation/authorizer.go#DenouementAuthorizer.Authorized *)
Definition Authorized (turnID caseID refText : string) : MW W bool :=
  ref ← lift (wrapf "invalid denouement accusation reference" (ParseRef refText));
  if Ref_IsZero ref then throw (Errorf "invalid denouement accusation reference: empty reference" [])
  else
    let slot := Errorf "denouement accusation reference is not the turn's deterministic result slot" [] in
    match KeyFor TurnAccusationRef SubjectTurn turnID with
    | Err _ => throw slot
    | Ok expectedKey =>
        if negb (String.eqb (Key ref) expectedKey) then throw slot
        else
          asked ← attempt (EntitiesByPredicateValue TurnAccusationRef refText 2);
          ids ← lift (wrapf "find turn holding accusation reference" asked);
          match ids with
          | [id] =>
              match Split dot id with
              | [_; _; _; _; kind; instance] =>
                  if negb (String.eqb kind "turn") || negb (String.eqb instance turnID) then
                    throw (Errorf "accusation reference is committed on a foreign turn" [])
                  else
                    read ← attempt (GetEntity id);
                    state ← lift (wrapf "read accusation turn" read);
                    match soleObject state TurnAccusationRef with
                    | Err _ => throw (Errorf "turn does not hold the supplied accusation reference exactly" [])
                    | Ok residentRef =>
                        if negb (String.eqb residentRef refText) then
                          throw (Errorf "turn does not hold the supplied accusation reference exactly" [])
                        else
                          fetched ← attempt (artifacts_GetAccusationRecord ref);
                          record ← lift (wrapf "read denouement accusation record" fetched);
                          match record with
                          | None => throw (Errorf "accusation store returned nil record" [])
                          | Some record =>
                              _ ← lift (wrapf "stored accusation record" (AccusationRecord_Validate record));
                              match String.eqb (acr_Status record) AccusationResultRecorded, acr_Result record with
                              | true, Some result =>
                                  if negb (String.eqb (ar_TurnID result) turnID) ||
                                     negb (String.eqb (ar_CaseID result) caseID) ||
                                     negb (String.eqb (ar_Outcome result) AccusationCorrect) then
                                    throw (Errorf "stored accusation result does not authorize this turn and case" [])
                                  else mret true
                              | _, _ => throw (Errorf "stored accusation record carries no result" [])
                              end
                          end
                    end
              | _ => throw (Errorf "accusation reference is committed on a foreign turn" [])
              end
          | _ => throw (Errorf "accusation reference is held by another number of turns" [])
          end
    end.

(** The narrator's projection becomes the denouement's when the turn's own
    result says the accusation was correct. *)
(* src/internal/accusation/router.go#NarrationRouter.Project *)
Definition Route (caseID : string) (next : ProjectionService) (audience : AuthenticatedAudience) : MW W Projection :=
  if negb (String.eqb (au_purpose audience) PurposeNarrator) then next audience
  else
    let turnID := au_turnID audience in
    let turnEntityID := au_turnEntityID audience in
    read ← attempt (GetEntity turnEntityID);
    state ← lift (wrapf "route narration accusation state" read);
    match stringObjects state TurnAccusationRef with
    | [] => next audience
    | [value] =>
        match ParseRef value with
        | Err _ => throw (Errorf "narration accusation reference is malformed" [])
        | Ok ref =>
            if Ref_IsZero ref then throw (Errorf "narration accusation reference is malformed" [])
            else
              match KeyFor TurnAccusationRef SubjectTurn turnID with
              | Err _ => throw (Errorf "narration accusation reference belongs to a foreign turn" [])
              | Ok expectedKey =>
                  if negb (String.eqb (Key ref) expectedKey) then
                    throw (Errorf "narration accusation reference belongs to a foreign turn" [])
                  else
                    fetched ← attempt (artifacts_GetAccusationRecord ref);
                    record ← lift (wrapf "read narration accusation record" fetched);
                    match record with
                    | None => throw (Errorf "accusation store returned nil narration record" [])
                    | Some record =>
                        _ ← lift (wrapf "narration accusation record" (AccusationRecord_Validate record));
                        if negb (String.eqb (acr_TurnID record) turnID) then
                          throw (Errorf "narration accusation result has foreign or mismatched identity" [])
                        else if String.eqb (acr_Status record) AccusationNotApplicable then next audience
                        else
                          match acr_Result record with
                          | None => throw (Errorf "narration accusation result has foreign or mismatched identity" [])
                          | Some result =>
                              if negb (String.eqb (ar_CaseID result) caseID) then
                                throw (Errorf "narration accusation result has foreign or mismatched identity" [])
                              else if String.eqb (ar_Outcome result) AccusationIncorrect then next audience
                              else if String.eqb (ar_Outcome result) AccusationCorrect then
                                next (DenouementAudience turnID turnEntityID caseID (Ref_String ref))
                              else throw (Errorf "narration accusation result has an unknown outcome" [])
                          end
                    end
              end
        end
    | _ => throw (Errorf "narration accusation state is partial or ambiguous" [])
    end.
End accusation.
Arguments ProjectionService W : clear implicits.
