(* ===== verification/Persona.v ===== *)
(** [internal/persona]: the identity the engine injects into a persona's tool
    calls and how an exit reads it back, the tools the personas exit through,
    their specifications and the tasks spawned from them, the check that a stage
    already finished, the three executors of the terminal tools, and how a
    persona that never exited ends its turn, with the bounded explanation stored
    for it. *)

From S2P Require Import Prelude GoStd GoHash GoErrors Graph Vocab Vocabulary Payload Mechanics Decisions ContentRecords ContentStore ProjectionContract Store Sequencing Turn.

Open Scope Z_scope.

(* src/internal/persona/identity.go:41-43 (MetadataKeyTurnID) *)
Definition MetadataKeyTurnID : string := "semmachina.turn.id".
(* src/internal/persona/identity.go:44-46 (MetadataKeyTurnEntityID) *)
Definition MetadataKeyTurnEntityID : string := "semmachina.turn.entity_id".
(* src/internal/persona/identity.go:47-48 (MetadataKeyActionID) *)
Definition MetadataKeyActionID : string := "semmachina.action.id".
(* src/internal/persona/identity.go:49-50 (MetadataKeySceneID) *)
Definition MetadataKeySceneID : string := "semmachina.scene.id".
(* src/internal/persona/identity.go:52-52 (MetadataKeyCaseID) *)
Definition MetadataKeyCaseID : string := "semmachina.case.id".
(* src/internal/persona/identity.go:54-54 (MetadataKeyActorID) *)
Definition MetadataKeyActorID : string := "semmachina.actor.id".
(* src/internal/persona/identity.go:55-55 (MetadataKeyContextRef) *)
Definition MetadataKeyContextRef : string := "semmachina.companion.context_ref".
(* src/internal/persona/identity.go:56-56 (MetadataKeyPlayerID) *)
Definition MetadataKeyPlayerID : string := "semmachina.companion.player_id".
(* src/internal/persona/identity.go:57-57 (MetadataKeyCompanionID) *)
Definition MetadataKeyCompanionID : string := "semmachina.companion.character_id".
(* src/internal/persona/identity.go:58-58 (MetadataKeyBondID) *)
Definition MetadataKeyBondID : string := "semmachina.companion.bond_id".
(* src/internal/persona/identity.go:59-63 (MetadataKeyBand) *)
Definition MetadataKeyBand : string := "semmachina.outcome.band".

(* src/internal/persona/identity.go#type Identity *)
Record PersonaIdentity : Type := {
  pi_TurnID : string; pi_TurnEntityID : string; pi_ActionID : string; pi_SceneID : string;
  pi_CaseID : string; pi_ActorID : string;
  pi_ContextRef : string; pi_PlayerID : string; pi_CompanionID : string; pi_BondID : string
}.

(** Metadata: a map of dynamic values. *)
Abbreviation Metadata := (gmap string any).

Section identity.
Context `{Substrate}.

Let given (s : string) : bool := negb (String.eqb s EmptyString).

(* src/internal/persona/identity.go#requireEntityID *)
Definition persona_requireEntityID (field value : string) : res unit :=
  if String.eqb value EmptyString then Err (Errorf "field is required" [])
  else wrapf "not a canonical six-part entity ID" (ValidateEntityID value).

(* src/internal/persona/identity.go#Identity.hasAnyCompanionIdentity *)
Definition hasAnyCompanionIdentity (i : PersonaIdentity) : bool :=
  given (pi_ContextRef i) || given (pi_PlayerID i) || given (pi_CompanionID i) || given (pi_BondID i).

(* src/internal/persona/identity.go#Identity.hasCompanionIdentity *)
Definition hasCompanionIdentity (i : PersonaIdentity) : bool :=
  given (pi_ContextRef i) && given (pi_PlayerID i) && given (pi_CompanionID i) && given (pi_BondID i).

(* src/internal/persona/identity.go#Identity.Validate *)
Definition PersonaIdentity_Validate (i : PersonaIdentity) : res unit :=
  _ ← RequireTurnEntityID (pi_TurnID i) (pi_TurnEntityID i);
  _ ← require (String.eqb (TurnIDForAction (pi_ActionID i)) (pi_TurnID i))
        (Errorf "identity names an action and another action's turn" []);
  _ ← wrapf "action_id" (ValidateIDSegment (pi_ActionID i));
  _ ← persona_requireEntityID "scene_id" (pi_SceneID i);
  _ ← require (Bool.eqb (given (pi_CaseID i)) (given (pi_ActorID i)))
        (Errorf "case_id and actor_id must be supplied together" []);
  _ ← (if given (pi_CaseID i) then
         _ ← persona_requireEntityID "case_id" (pi_CaseID i);
         persona_requireEntityID "actor_id" (pi_ActorID i)
       else Ok tt);
  if hasAnyCompanionIdentity i then
    if negb (hasCompanionIdentity i) then
      Err (Errorf "context_ref, player_id, companion_id, and bond_id must be supplied together" [])
    else all_ok (fun field => persona_requireEntityID field.1 field.2)
           [("context_ref"%string, pi_ContextRef i); ("player_id"%string, pi_PlayerID i);
            ("companion_id"%string, pi_CompanionID i); ("bond_id"%string, pi_BondID i)]
  else Ok tt.

(* src/internal/persona/identity.go#Identity.metadata *)
Definition identity_metadata (i : PersonaIdentity) : Metadata :=
  let base : Metadata :=
    <[MetadataKeySceneID := AString (pi_SceneID i)]> (<[MetadataKeyActionID := AString (pi_ActionID i)]>
    (<[MetadataKeyTurnEntityID := AString (pi_TurnEntityID i)]> (<[MetadataKeyTurnID := AString (pi_TurnID i)]> ∅))) in
  let with_case : Metadata :=
    if given (pi_CaseID i) then
      <[MetadataKeyActorID := AString (pi_ActorID i)]> (<[MetadataKeyCaseID := AString (pi_CaseID i)]> base)
    else base in
  if hasCompanionIdentity i then
    <[MetadataKeyBondID := AString (pi_BondID i)]> (<[MetadataKeyCompanionID := AString (pi_CompanionID i)]>
    (<[MetadataKeyPlayerID := AString (pi_PlayerID i)]> (<[MetadataKeyContextRef := AString (pi_ContextRef i)]> with_case)))
  else with_case.

(* src/internal/persona/identity.go#metadataString *)
Definition metadataString (metadata : Metadata) (key : string) : res string :=
  match metadata !! key with
  | None | Some ANil => Err (Errorf "tool call carries no such metadata" [])
  | Some (AString value) =>
      if String.eqb value EmptyString then Err (Errorf "tool call metadata is empty" []) else Ok value
  | Some _ => Err (Errorf "tool call metadata is of another type, want a string" [])
  end.

(* src/internal/persona/identity.go#IdentityFrom *)
Definition IdentityFrom (metadata : Metadata) : res PersonaIdentity :=
  turnID ← metadataString metadata MetadataKeyTurnID;
  turnEntityID ← metadataString metadata MetadataKeyTurnEntityID;
  actionID ← metadataString metadata MetadataKeyActionID;
  sceneID ← metadataString metadata MetadataKeySceneID;
  let identity := {| pi_TurnID := turnID; pi_TurnEntityID := turnEntityID; pi_ActionID := actionID;
    pi_SceneID := sceneID; pi_CaseID := EmptyString; pi_ActorID := EmptyString; pi_ContextRef := EmptyString;
    pi_PlayerID := EmptyString; pi_CompanionID := EmptyString; pi_BondID := EmptyString |} in
  _ ← PersonaIdentity_Validate identity;
  Ok identity.

(* src/internal/persona/identity.go#CompanionIdentityFrom *)
Definition CompanionIdentityFrom (metadata : Metadata) : res PersonaIdentity :=
  i ← IdentityFrom metadata;
  contextRef ← metadataString metadata MetadataKeyContextRef;
  playerID ← metadataString metadata MetadataKeyPlayerID;
  companionID ← metadataString metadata MetadataKeyCompanionID;
  bondID ← metadataString metadata MetadataKeyBondID;
  let identity := {| pi_TurnID := pi_TurnID i; pi_TurnEntityID := pi_TurnEntityID i; pi_ActionID := pi_ActionID i;
    pi_SceneID := pi_SceneID i; pi_CaseID := pi_CaseID i; pi_ActorID := pi_ActorID i; pi_ContextRef := contextRef;
    pi_PlayerID := playerID; pi_CompanionID := companionID; pi_BondID := bondID |} in
  _ ← PersonaIdentity_Validate identity;
  Ok identity.

(* src/internal/persona/identity.go#CaseIdentityFrom *)
Definition CaseIdentityFrom (metadata : Metadata) : res PersonaIdentity :=
  i ← IdentityFrom metadata;
  caseID ← metadataString metadata MetadataKeyCaseID;
  actorID ← metadataString metadata MetadataKeyActorID;
  let identity := {| pi_TurnID := pi_TurnID i; pi_TurnEntityID := pi_TurnEntityID i; pi_ActionID := pi_ActionID i;
    pi_SceneID := pi_SceneID i; pi_CaseID := caseID; pi_ActorID := actorID; pi_ContextRef := pi_ContextRef i;
    pi_PlayerID := pi_PlayerID i; pi_CompanionID := pi_CompanionID i; pi_BondID := pi_BondID i |} in
  _ ← PersonaIdentity_Validate identity;
  Ok identity.

(* src/internal/persona/identity.go#BandFrom *)
Definition BandFrom (metadata : Metadata) : res string :=
  value ← metadataString metadata MetadataKeyBand;
  ParseOutcomeBand value.
End identity.

(** ** What a tool call is, upstream *)

(** A JSON value, as a tool's parameter schema is one. *)
Inductive json : Type :=
| JObject (members : list (string * json))
| JArray (items : list json)
| JStrings (items : list string)
| JString (s : string)
| JInt (z : Z)
| JBool (b : bool).

(** [agentic.ToolDefinition]. *)
Record ToolDefinition : Type := { tool_Name : string; tool_Description : string; tool_Strict : bool; tool_Parameters : json }.

(** [agentic.ToolErrorKind], the kinds the executors use. *)
Inductive ToolErrorKind : Type := ToolErrorNotFound | ToolErrorInvalidArgs | ToolErrorNetwork | ToolErrorInternal.

(** [agentic.ToolCall] to an executor whose arguments have the type [A]: whether
    it carries any, and what decoding them, with unknown fields refused, gives. *)
Record ToolCall (A : Type) : Type := {
  call_ID : string; call_Name : string; call_Metadata : Metadata; call_Empty : bool; call_Arguments : res A }.
Arguments call_ID {A}. Arguments call_Name {A}. Arguments call_Metadata {A}. Arguments call_Empty {A}.
Arguments call_Arguments {A}.

(** [agentic.ToolResult]; its error is the kind, [None] for a result without one. *)
Record ToolResult : Type := {
  tr_CallID : string; tr_Name : string; tr_Content : string; tr_StopLoop : bool;
  tr_ErrorKind : option ToolErrorKind; tr_Metadata : list (string * any) }.

(** What [Execute] returns: the result, and the error beside it. *)
Abbreviation Executed := (ToolResult * option error)%type.

(** The upstream validators of a tool definition and of a task. *)
Class AgenticRules : Type := { ToolDefinition_Validate : ToolDefinition -> res unit }.

(** [errs.WrapInvalid] and [errs.WrapTransient]. *)
Definition WrapInvalid (err : error) : error := ClassifiedError "invalid" EmptyString (Some err).
Definition WrapTransient (err : error) : error := ClassifiedError "transient" EmptyString (Some err).

(** ** Schemas *)

(* src/internal/persona/schema.go#VerdictToolName *)
Definition VerdictToolName : string := "submit_verdict".
(* src/internal/persona/schema.go#NarrationToolName *)
Definition NarrationToolName : string := "submit_narration".
(* src/internal/persona/schema.go#CaseDecisionToolName *)
Definition CaseDecisionToolName : string := "submit_case_decision".
(* src/internal/persona/schema.go#CompanionDecisionToolName *)
Definition CompanionDecisionToolName : string := "submit_companion_decision".

Definition typed (type : string) (rest : list (string * json)) : json := JObject (("type"%string, JString type) :: rest).
Definition described (description : string) : string * json := ("description"%string, JString description).

(** [%+d]. *)
Definition Itoa_signed (z : Z) : string := (if 0 <=? z then "+"%string else EmptyString) +:+ pretty z.

(** A closed property; no values in it is a panic at start-up, which the
    registered enums rule out. *)
(* src/internal/persona/schema.go#enumProperty *)
Definition enumProperty (values : list string) (description : string) : json :=
  typed "string" [("enum"%string, JStrings values); described description].

(** A closed object: exactly these properties. *)
Definition closed_object (required : list string) (properties : list (string * json)) : list (string * json) :=
  [("additionalProperties"%string, JBool false); ("required"%string, JStrings required);
   ("properties"%string, JObject properties)].

(* src/internal/persona/schema.go#companionDecisionToolDefinition *)
Definition companionDecisionToolDefinition : ToolDefinition := {|
  tool_Name := CompanionDecisionToolName;
  tool_Description := "Exit once with the companion's structural decision. Dialogue and rationale belong to the narrator and are not accepted here.";
  tool_Strict := true;
  tool_Parameters := typed "object" (closed_object ["kind"; "hint_level"; "evidence_refs"; "target_ref"]%string
    [("kind"%string, typed "string" [("enum"%string, JStrings CompanionDecisionKinds)]);
     ("hint_level"%string,
      typed "string" [("enum"%string, JStrings (EmptyString :: enum_all hintLevelEnum));
                      described "One closed hint level for hint; otherwise an empty string."]);
     ("evidence_refs"%string,
      typed "array" [("items"%string, typed "string" []);
                     described "Zero to eight evidence references already known by this companion."]);
     ("target_ref"%string,
      typed "string" [described "Optional structural target entity ID; use an empty string for none."])]) |}.

(* src/internal/persona/schema.go#caseDecisionToolDefinition *)
Definition caseDecisionToolDefinition : ToolDefinition :=
  let ref description := typed "string" [described description] in
  let refs description := typed "array" [described description; ("items"%string, typed "string" [])] in {|
  tool_Name := CaseDecisionToolName;
  tool_Description := "Exit once with the closed structural interpretation of the player's mystery action. Use empty accusation-reference strings for every non-accuse kind.";
  tool_Strict := true;
  tool_Parameters := typed "object"
    (closed_object ["kind"; "target_refs"; "reveal_refs"; "culprit_ref"; "method_ref"; "motive_ref"]%string
      [("kind"%string, typed "string" [("enum"%string, JStrings CaseDecisionKinds);
                                       described "The closed interpretation kind."]);
       ("target_refs"%string,
        refs "Zero to eight entity references actually targeted by the player's action prose. Never add a target merely to qualify evidence for revelation."%string);
       ("reveal_refs"%string,
        refs "Zero to twelve evidence references proposed for revelation. For observe/investigate, include evidence only when authored eligibility admits that kind, the case reached its minimum phase, an actual target intersects its eligible targets, and it is not solution-locked. If none qualify, use reveal_refs=[]."%string);
       ("culprit_ref"%string, ref "For accuse only: the proposed culprit entity ID; otherwise an empty string."%string);
       ("method_ref"%string, ref "For accuse only: the proposed method entity ID; otherwise an empty string."%string);
       ("motive_ref"%string, ref "For accuse only: the proposed motive entity ID; otherwise an empty string."%string)]) |}.

(* src/internal/persona/schema.go#intentArraySchema *)
Definition intentArraySchema (description : string) : json :=
  typed "array"
    [described description;
     ("items"%string, typed "object" (closed_object ["type"; "target"]%string
        [("type"%string, enumProperty (enum_strings effectTypeEnum)
            "Which kind of change this is. It decides which of the fields below are allowed; carrying a field belonging to another kind is rejected.");
         ("target"%string, typed "string" [described "The six-part entity ID of the thing that changes."]);
         ("attribute"%string, enumProperty (enum_strings attributeEnum) "set_attribute only.");
         ("value"%string, typed "integer" [described "set_attribute only. Bounded per attribute."]);
         ("status"%string, enumProperty (enum_strings statusEnum) "set_status only.");
         ("location"%string, typed "string" [described "move_entity only: a location entity ID."]);
         ("relation"%string, enumProperty (enum_strings relationEnum) "add_relationship and remove_relationship only.");
         ("object"%string,
          typed "string" [described "add_relationship and remove_relationship only: the other entity's ID."])]))].

(** The [scalars] of a verdict. *)
(* src/internal/persona/schema.go:157-177 (verdictToolDefinition) *)
Definition verdict_scalars_schema : json :=
  typed "object" (closed_object ["plausibility"; "risk"; "consequence"; "requires_roll"]%string
    [("plausibility"%string, enumProperty (enum_strings plausibilityEnum) "Whether the fiction admits the action at all.");
     ("risk"%string, enumProperty (enum_strings riskEnum) "What is at stake if the action goes wrong.");
     ("consequence"%string, enumProperty (enum_strings consequenceEnum) "The shape a miss or a partial success takes.");
     ("requires_roll"%string, typed "boolean"
        [described "Whether the dice are consulted. This judgment is yours and is read from the fiction, never from a table. True means you must declare the miss, partial and full bands; false means you must declare exactly the auto band, which is whatever the fiction already determined and is not necessarily success."])]).

(** Its [modifiers]. *)
(* src/internal/persona/schema.go:178-207 (verdictToolDefinition) *)
Definition verdict_modifiers_schema : json :=
  typed "array"
    [described ("Typed adjustments to the roll. At most "%string +:+ Itoa MaxModifiers +:+ ", each between " +:+
                Itoa MinModifierValue +:+ " and " +:+ Itoa_signed MaxModifierValue +:+ ", and they must sum to between " +:+
                Itoa MinModifierTotal +:+ " and " +:+ Itoa_signed MaxModifierTotal +:+
                " so that every band stays reachable — a verdict may not pre-decide what the dice say.");
     ("maxItems"%string, JInt MaxModifiers);
     ("items"%string, typed "object" (closed_object ["source"; "value"]%string
        [("source"%string, enumProperty (enum_strings modifierSourceEnum) "Where this adjustment comes from in the fiction.");
         ("value"%string, typed "integer" [("minimum"%string, JInt MinModifierValue); ("maximum"%string, JInt MaxModifierValue)]);
         ("note"%string, typed "string"
            [("maxLength"%string, JInt MaxModifierNoteBytes);
             described "One clause naming the fact in the scene this adjustment reads from."])]))].

(* src/internal/persona/schema.go#verdictToolDefinition *)
Definition verdictToolDefinition : ToolDefinition := {|
  tool_Name := VerdictToolName;
  tool_Description := "Exit with your judgment of the player's action. Call this exactly once. Report the fiction's own answer: whether it admits the action, what is at stake, what shape a failure takes, whether the dice should be consulted at all, and what would change in the world under each outcome you are entitled to declare. Every value is drawn from a closed vocabulary and an unlisted value is rejected and returned to you for correction.";
  tool_Strict := false;
  tool_Parameters := typed "object" (closed_object ["scalars"; "bands"; "rationale"]%string
    [("scalars"%string, verdict_scalars_schema);
     ("modifiers"%string, verdict_modifiers_schema);
     ("bands"%string, typed "object"
        [("additionalProperties"%string, JBool false);
         described "Proposed world changes per outcome. Declare exactly miss, partial and full when requires_roll is true, or exactly auto when it is false. A band may be empty; a band you were not entitled to declare is rejected.";
         ("properties"%string, JObject
            [(BandAuto, intentArraySchema "The single band of a verdict that declined the dice.");
             (BandMiss, intentArraySchema "What changes on a 6 or under.");
             (BandPartial, intentArraySchema "What changes on a 7 to 9.");
             (BandFull, intentArraySchema "What changes on a 10 or over.")])]);
     ("rationale"%string, typed "string"
        [("maxLength"%string, JInt MaxRationaleBytes);
         described "Your reasoning, in a short paragraph, for the player's resolution card. It is never read by a rule."])]) |}.

(* src/internal/persona/schema.go#narrationToolDefinition *)
Definition narrationToolDefinition : ToolDefinition := {|
  tool_Name := NarrationToolName;
  tool_Description := "Exit with the prose for this turn. Call this exactly once. You are voicing an outcome that has already been decided and already changed the world: narrate it, and do not decide, soften, or add to it.";
  tool_Strict := true;
  tool_Parameters := typed "object" (closed_object ["prose"%string]
    [("prose"%string, typed "string"
        [described ("The narration the player reads. Plain prose — no headings, no lists, no mechanics. Two to four sentences for an ordinary turn; "%string
                    +:+ Itoa MaxProseBytes +:+ " bytes is the hard limit.")])]) |}.

(* src/internal/persona/schema.go#var strictSchemaKeywords *)
Definition strictSchemaKeywords : list string :=
  ["type"; "description"; "properties"; "required"; "additionalProperties"; "enum"; "items"]%string.

(** ** Specifications *)

(* src/internal/persona/spec.go#RoleAdjudicator *)
Definition RoleAdjudicator : string := "adjudicator".
(* src/internal/persona/spec.go#RoleNarrator *)
Definition RoleNarrator : string := "narrator".
(* src/internal/persona/spec.go#RoleCasekeeper *)
Definition RoleCasekeeper : string := "casekeeper".
(* src/internal/persona/spec.go#RoleCompanion *)
Definition RoleCompanion : string := "companion".
(* src/internal/persona/spec.go#SlotMid *)
Definition SlotMid : string := "mid".
(* src/internal/persona/spec.go#SlotLarge *)
Definition SlotLarge : string := "large".
(* src/internal/persona/spec.go#CapabilityAdjudication *)
Definition CapabilityAdjudication : string := "fiction_adjudication".
(* src/internal/persona/spec.go#CapabilityNarration *)
Definition CapabilityNarration : string := "narration".
(* src/internal/persona/spec.go#CapabilityCasekeeping *)
Definition CapabilityCasekeeping : string := "casekeeping".
(* src/internal/persona/spec.go#CapabilityCompanion *)
Definition CapabilityCompanion : string := "companion_decision".
(* src/internal/persona/spec.go#AdjudicatorMaxIterations *)
Definition AdjudicatorMaxIterations : Z := 3.
(* src/internal/persona/spec.go#NarratorMaxIterations *)
Definition NarratorMaxIterations : Z := 2.
(* src/internal/persona/spec.go#CasekeeperMaxIterations *)
Definition CasekeeperMaxIterations : Z := 3.
(* src/internal/persona/spec.go#CompanionMaxIterations *)
Definition CompanionMaxIterations : Z := 1.

(** [time.Second], in nanoseconds. *)
Definition Second : Z := 10 ^ 9.

(* src/internal/persona/spec.go#AdjudicatorTimeout *)
Definition AdjudicatorTimeout : Z := 90 * Second.
(* src/internal/persona/spec.go#NarratorTimeout *)
Definition NarratorTimeout : Z := 120 * Second.
(* src/internal/persona/spec.go#CasekeeperTimeout *)
Definition CasekeeperTimeout : Z := 90 * Second.
(* src/internal/persona/spec.go:106-106 (CompanionTimeout) *)
Definition CompanionTimeout : Z := 90 * Second.

(* src/internal/persona/spec.go#type Spec *)
Record Spec : Type := {
  sp_Role : string; sp_Slot : string; sp_Capability : string; sp_MaxIterations : Z; sp_Timeout : Z;
  sp_Artifact : string; sp_Tool : ToolDefinition; sp_NeedsBand : bool; sp_NeedsCase : bool; sp_NeedsCompanion : bool }.

(* src/internal/persona/spec.go#Adjudicator *)
Definition Adjudicator : Spec := {|
  sp_Role := RoleAdjudicator; sp_Slot := SlotMid; sp_Capability := CapabilityAdjudication;
  sp_MaxIterations := AdjudicatorMaxIterations; sp_Timeout := AdjudicatorTimeout; sp_Artifact := TurnVerdictRef;
  sp_Tool := verdictToolDefinition; sp_NeedsBand := false; sp_NeedsCase := false; sp_NeedsCompanion := false |}.
(* src/internal/persona/spec.go#Narrator *)
Definition Narrator : Spec := {|
  sp_Role := RoleNarrator; sp_Slot := SlotLarge; sp_Capability := CapabilityNarration;
  sp_MaxIterations := NarratorMaxIterations; sp_Timeout := NarratorTimeout; sp_Artifact := TurnNarrationRef;
  sp_Tool := narrationToolDefinition; sp_NeedsBand := true; sp_NeedsCase := false; sp_NeedsCompanion := false |}.
(* src/internal/persona/spec.go#Casekeeper *)
Definition Casekeeper : Spec := {|
  sp_Role := RoleCasekeeper; sp_Slot := SlotMid; sp_Capability := CapabilityCasekeeping;
  sp_MaxIterations := CasekeeperMaxIterations; sp_Timeout := CasekeeperTimeout; sp_Artifact := TurnCaseDecisionRef;
  sp_Tool := caseDecisionToolDefinition; sp_NeedsBand := false; sp_NeedsCase := true; sp_NeedsCompanion := false |}.
(* src/internal/persona/spec.go#Companion *)
Definition Companion_ : Spec := {|
  sp_Role := RoleCompanion; sp_Slot := SlotMid; sp_Capability := CapabilityCompanion;
  sp_MaxIterations := CompanionMaxIterations; sp_Timeout := CompanionTimeout; sp_Artifact := TurnCompanionDecisionRef;
  sp_Tool := companionDecisionToolDefinition; sp_NeedsBand := false; sp_NeedsCase := false; sp_NeedsCompanion := true |}.

(* src/internal/persona/spec.go#Specs *)
Definition Specs : list Spec := [Casekeeper; Companion_; Adjudicator; Narrator].

(* src/internal/persona/spec.go#SpecFor *)
Definition SpecFor (role : string) : res Spec :=
  match List.find (fun spec => String.eqb (sp_Role spec) role) Specs with
  | Some spec => Ok spec
  | None => Err (Errorf "is not a persona role" [])
  end.

(** [model.RegistryReader] and [model.ResolveEndpointWithConfig]: which
    capabilities a deployment declares, and the endpoint one resolves to, with
    whether it supports tools. *)
Record RegistryReader : Type := {
  GetCapability : string -> bool; ResolveEndpoint : string -> res (option bool) }.

Section specs.
Context `{Substrate, AgenticRules}.

(* src/internal/persona/spec.go#Spec.Validate *)
Definition Spec_Validate (s : Spec) : res unit :=
  _ ← require (negb (String.eqb (sp_Role s) EmptyString)) (Errorf "persona spec has no role" []);
  _ ← require (negb (String.eqb (sp_Capability s) EmptyString)) (Errorf "persona names no model-registry capability" []);
  _ ← require (negb (sp_MaxIterations s <? 1)) (Errorf "persona has no positive iteration budget" []);
  _ ← require (negb (sp_Timeout s <=? 0)) (Errorf "persona has no timeout" []);
  _ ← require (IsStorageRef (sp_Artifact s)) (Errorf "persona lands an artifact predicate which is not a storage reference" []);
  wrapf "persona terminal tool" (ToolDefinition_Validate (sp_Tool s)).

(* src/internal/persona/spec.go#Spec.CheckRegistry *)
Definition CheckRegistry (s : Spec) (registry : option RegistryReader) : res unit :=
  match registry with
  | None => Err (Errorf "persona cannot be checked against a nil model registry" [])
  | Some registry =>
      _ ← require (GetCapability registry (sp_Capability s)) (Errorf "deployment does not declare the capability" []);
      endpoint ← wrapf "persona could not resolve model-registry capability" (ResolveEndpoint registry (sp_Capability s));
      match endpoint with
      | None => Err (Errorf "persona resolved capability to no endpoint configuration" [])
      | Some supportsTools => require supportsTools (Errorf "endpoint does not support tool calling" [])
      end
  end.

(* src/internal/persona/spec.go#CheckRegistryAll *)
Definition CheckRegistryAll (registry : option RegistryReader) : res unit :=
  all_ok (fun spec => _ ← Spec_Validate spec; CheckRegistry spec registry) Specs.

(** ** Tasks *)

(* src/internal/persona/spec.go#type TaskRequest *)
Record TaskRequest : Type := {
  rq_Identity : PersonaIdentity; rq_ResumeAttempt : Z; rq_Band : string; rq_Prompt : string }.

(** [agentic.TaskMessage]; the tool choice is always ["required"], and the
    timeout is the duration its text gives. *)
Record TaskMessage : Type := {
  tm_TaskID : string; tm_Role : string; tm_Model : string; tm_Prompt : string; tm_Tools : list ToolDefinition;
  tm_MaxIterations : Z; tm_Timeout : Z; tm_Metadata : Metadata }.

(** [agentic.TaskMessage.Validate], upstream. *)
Class TaskRules : Type := { TaskMessage_Validate : TaskMessage -> res unit }.
Context `{TaskRules}.

(** What identity a role is told, and no other's. *)
(* src/internal/persona/spec.go:369-382 (Spec.Task) *)
Definition scope_identity (s : Spec) (i : PersonaIdentity) : res unit :=
  let empty := String.eqb EmptyString in
  _ ← (if sp_NeedsCase s then
         require (negb (empty (pi_CaseID i) || empty (pi_ActorID i))) (Errorf "persona requires injected case_id and actor_id" [])
       else require (empty (pi_CaseID i) && empty (pi_ActorID i)) (Errorf "persona must not receive private case identity" []));
  if sp_NeedsCompanion s then
    require (hasCompanionIdentity i) (Errorf "persona requires injected companion identity" [])
  else require (negb (hasAnyCompanionIdentity i)) (Errorf "persona must not receive companion identity" []).

(** The name of a spawn; a repeated publication of it is the broker's to drop. *)
(* src/internal/persona/spec.go:398-401 (Spec.Task) *)
Definition task_id (role turnID : string) (attempt : Z) : string :=
  if 0 <? attempt then role +:+ "/" +:+ turnID +:+ "/resume/" +:+ Itoa attempt else role +:+ "-" +:+ turnID.

(* src/internal/persona/spec.go#Spec.Task *)
Definition Task (s : Spec) (request : TaskRequest) : res TaskMessage :=
  let i := rq_Identity request in
  _ ← Spec_Validate s;
  _ ← PersonaIdentity_Validate i;
  _ ← require (negb (rq_ResumeAttempt request <? 0)) (Errorf "persona was spawned with negative resume attempt" []);
  _ ← require (negb (String.eqb (rq_Prompt request) EmptyString)) (Errorf "persona was spawned with an empty prompt" []);
  _ ← scope_identity s i;
  metadata ← (if sp_NeedsBand s then
                band ← wrapf "persona voices a committed outcome and must be told which one" (ParseOutcomeBand (rq_Band request));
                Ok (<[MetadataKeyBand := AString band]> (identity_metadata i))
              else
                _ ← require (String.eqb (rq_Band request) EmptyString) (Errorf "persona was spawned carrying an outcome band" []);
                Ok (identity_metadata i));
  let task := {| tm_TaskID := task_id (sp_Role s) (pi_TurnID i) (rq_ResumeAttempt request);
                 tm_Role := sp_Role s; tm_Model := sp_Capability s; tm_Prompt := rq_Prompt request;
                 tm_Tools := [sp_Tool s]; tm_MaxIterations := sp_MaxIterations s; tm_Timeout := sp_Timeout s;
                 tm_Metadata := metadata |} in
  _ ← wrapf "persona task" (TaskMessage_Validate task);
  Ok task.
End specs.

(** ** Transport *)

(* src/internal/persona/transport.go#TaskStream *)
Definition TaskStream : string := "AGENT".
(* src/internal/persona/transport.go#TaskSubjectPrefix *)
Definition TaskSubjectPrefix : string := "agent.task.".
(* src/internal/persona/transport.go#TaskSubjectFilter *)
Definition TaskSubjectFilter : string := TaskSubjectPrefix +:+ "*".
(* src/internal/persona/transport.go#AgentSubjectFilter *)
Definition AgentSubjectFilter : string := "agent.>".
(* src/internal/persona/transport.go#ToolExecuteSubjectFilter *)
Definition ToolExecuteSubjectFilter : string := "tool.execute.>".
(* src/internal/persona/transport.go#ToolResultSubjectFilter *)
Definition ToolResultSubjectFilter : string := "tool.result.>".
(* src/internal/persona/transport.go#AgentStreamSubjects *)
Definition AgentStreamSubjects : list string := [AgentSubjectFilter; ToolExecuteSubjectFilter; ToolResultSubjectFilter].
(* src/internal/persona/transport.go#TaskSubjectFor *)
Definition TaskSubjectFor (role : string) : string := TaskSubjectPrefix +:+ role.

(** ** Whether a stage already finished *)

(* src/internal/persona/resume.go#DecisionRun *)
Definition DecisionRun : string := "run".
(* src/internal/persona/resume.go#DecisionSkip *)
Definition DecisionSkip : string := "skip".
(* src/internal/persona/resume.go#type Resumption *)
Record Resumption : Type := { rp_Role : string; rp_Decision : string; rp_Ref : Ref }.

Section guard.
Context {W : Type} `{Substrate, AgenticRules, GraphStore W}.

(** The answer the turn's record of the artifact gives. *)
(* src/internal/persona/resume.go:122-150 (Guard.Check) *)
Definition resumption_of (spec : Spec) (state : EntityState) : res Resumption :=
  match objectsFor state (sp_Artifact spec) with
  | [] => Ok {| rp_Role := sp_Role spec; rp_Decision := DecisionRun; rp_Ref := zero_Ref |}
  | [AString value] =>
      ref ← wrapf "turn entity records no resolvable storage reference" (ParseRef value);
      if Ref_IsZero ref then Err (Errorf "turn entity records an empty reference" [])
      else Ok {| rp_Role := sp_Role spec; rp_Decision := DecisionSkip; rp_Ref := ref |}
  | [_] => Err (Errorf "turn entity records a value of another type, want a storage reference" [])
  | _ => Err (Errorf "turn entity holds several values for the single-valued reference" [])
  end.

(* src/internal/persona/resume.go#Guard.Check *)
Definition Guard_Check (spec : Spec) (turnID turnEntityID : string) : MW W Resumption :=
  _ ← lift (Spec_Validate spec);
  _ ← lift (RequireTurnEntityID turnID turnEntityID);
  read ← attempt (GetEntity turnEntityID);
  state ← lift (wrapf "read turn entity" read);
  lift (resumption_of spec state).
End guard.

(** ** Executors *)

(* src/internal/persona/verdict.go#sourceFor *)
Definition sourceFor (role : string) : string := "persona-" +:+ role.

(** A result without content. *)
Definition tool_failed {A} (call : ToolCall A) (kind : ToolErrorKind) : ToolResult := {|
  tr_CallID := call_ID call; tr_Name := call_Name call; tr_Content := EmptyString; tr_StopLoop := false;
  tr_ErrorKind := Some kind; tr_Metadata := [] |}.

(* src/internal/persona/verdict.go#notFound *)
Definition notFound {A} (call : ToolCall A) : Executed :=
  (tool_failed call ToolErrorNotFound, Some (WrapInvalid (Errorf "tool routed to another executor" []))).
(* src/internal/persona/verdict.go#correctable *)
Definition correctable {A} (call : ToolCall A) : Executed := (tool_failed call ToolErrorInvalidArgs, None).
(* src/internal/persona/verdict.go#transientFailure *)
Definition transientFailure {A} (call : ToolCall A) (what : string) (cause : error) : Executed :=
  (tool_failed call ToolErrorNetwork, Some (WrapTransient (Errorf what [cause]))).
(* src/internal/persona/verdict.go#internalFailure *)
Definition internalFailure {A} (call : ToolCall A) (what : string) (cause : error) : Executed :=
  (tool_failed call ToolErrorInternal, Some (WrapInvalid (Errorf what [cause]))).

(** The exit: the loop stops with the artifact as its content. *)
Definition tool_exit {A} (call : ToolCall A) (body : string) (metadata : list (string * any)) : Executed :=
  ({| tr_CallID := call_ID call; tr_Name := call_Name call; tr_Content := body; tr_StopLoop := true;
      tr_ErrorKind := None; tr_Metadata := metadata |}, None).

(* src/internal/persona/verdict.go#decodeStrict *)
Definition decodeStrict {A} (call : ToolCall A) : res A :=
  if call_Empty call then Err (Errorf "the tool call carried no arguments at all" [])
  else wrapf "the tool call's arguments do not match the tool's schema" (call_Arguments call).

(* src/internal/persona/verdict.go#type verdictScalarArgs *)
Record verdictScalarArgs : Type := {
  vs_Plausibility : string; vs_Risk : string; vs_Consequence : string; vs_RequiresRoll : option bool }.
(** [nil] bands are [None]. *)
(* src/internal/persona/verdict.go#type verdictArgs *)
Record verdictArgs : Type := {
  va_Scalars : option verdictScalarArgs; va_Modifiers : list Modifier; va_Bands : option (gmap string (list EffectIntent));
  va_Rationale : string }.

(** The arguments with everything that may not be missing. *)
(* src/internal/persona/verdict.go#parseVerdictArgs *)
Definition parseVerdictArgs (call : ToolCall verdictArgs) : res (VerdictScalars * verdictArgs * gmap string (list EffectIntent)) :=
  args ← decodeStrict call;
  match va_Scalars args with
  | None => Err (Errorf "the verdict carries no `scalars` object" [])
  | Some scalars =>
      match vs_RequiresRoll scalars, va_Bands args with
      | None, _ => Err (Errorf "the verdict does not report `requires_roll`" [])
      | _, None => Err (Errorf "the verdict declares no `bands`" [])
      | Some requiresRoll, Some bands =>
          Ok ({| v_Plausibility := vs_Plausibility scalars; v_Risk := vs_Risk scalars;
                 v_Consequence := vs_Consequence scalars; v_RequiresRoll := requiresRoll |}, args, bands)
      end
  end.

(* src/internal/persona/verdict.go#verdictArgs.verdict *)
Definition verdict_of (parsed : VerdictScalars * verdictArgs * gmap string (list EffectIntent)) (identity : PersonaIdentity) : Verdict :=
  let '(scalars, args, bands) := parsed in {|
  v_TurnID := pi_TurnID identity; v_ActionID := pi_ActionID identity; v_SceneID := pi_SceneID identity;
  v_Scalars := scalars; v_Modifiers := va_Modifiers args; v_Bands := bands; v_Rationale := va_Rationale args |}.

(* src/internal/persona/verdict.go#countIntents *)
Definition countIntents (bands : gmap string (list EffectIntent)) : Z :=
  fold_left (fun total band => int_add total (Z.of_nat (List.length (default [] (bands !! band)))))
    (enum_all outcomeBandEnum) 0.

(* src/internal/payload/turnnarration.go#type TurnNarration *)
Record TurnNarrationPayload : Type := { tn_TurnID : string; tn_NarrationRef : string }.

Section narration_payload.
Context `{Substrate}.
(* src/internal/payload/turnnarration.go#TurnNarration.Validate *)
Definition TurnNarration_Validate (n : TurnNarrationPayload) : res unit :=
  _ ← requireIDSegment "turn_id" (tn_TurnID n);
  requireNonEmpty "narration ref" (tn_NarrationRef n).
(* src/internal/payload/turnnarration.go#TurnNarration.Triples *)
Definition TurnNarration_Triples (n : TurnNarrationPayload) (turnEntityID source : string) (at_ : time) : res (list Triple) :=
  build {|
    p_payload := Some (TurnNarration_Validate n); p_subject := turnEntityID; p_turnID := tn_TurnID n;
    p_playerSubject := EmptyString; p_source := source; p_at := at_;
    p_registered := narrationScalarPredicates; p_objects := ∅;
    p_refPredicate := TurnNarrationRef; p_refName := "narration ref"; p_ref := tn_NarrationRef n;
    p_refless := false; p_scalarless := true |}.
End narration_payload.

(** The stores the executors write to. *)
(* src/internal/persona/register.go#type ArtifactStore *)
Class PersonaArtifacts (W : Type) : Type := {
  persona_PutVerdict : string -> Verdict -> MW W Ref;
  persona_PutNarration : string -> Narration -> MW W Ref;
  persona_PutCaseDecisionRecord : string -> CaseDecisionRecord -> MW W Ref;
  persona_PutFailureDetail : string -> FailureDetail -> MW W Ref
}.

(* src/internal/persona/narration.go#type narrationArgs *)
Record narrationArgs : Type := { na_Prose : string }.
(* src/internal/persona/casekeeper.go#type caseDecisionArgs *)
Record caseDecisionArgs : Type := {
  ca_Kind : string; ca_TargetRefs : list string; ca_RevealRefs : list string;
  ca_CulpritRef : string; ca_MethodRef : string; ca_MotiveRef : string }.

Section executors.
Context {W : Type} `{Substrate, GraphStore W, Clock W, PersonaArtifacts W}.

(** Store the artifact, project it, record the projection, exit with its body:
    the tail the three executors of this package share, here as the verdict's. *)
(* src/internal/persona/verdict.go:154-196 (VerdictExecutor.Execute) *)
Definition commit_artifact {A B} `{Codec B} (call : ToolCall A) (turnEntityID : string) (artifact : B)
    (stored : MW W Ref) (triples_of : Ref -> time -> res (list Triple)) (target : Target)
    (store_msg project_msg record_msg encode_msg : string) (metadata : Ref -> res (list (string * any))) : MW W Executed :=
  put ← attempt stored;
  match put with
  | Err err => mret (transientFailure call store_msg err)
  | Ok ref =>
      at_ ← read_clock;
      match triples_of ref at_ with
      | Err err => mret (internalFailure call project_msg err)
      | Ok triples =>
          written ← attempt (Reconcile target turnEntityID triples);
          match written with
          | Err err => mret (transientFailure call record_msg err)
          | Ok _ =>
              mret match metadata ref, Marshal artifact with
                   | Err err, _ => internalFailure call "compare the reported roll gate with the mapping" err
                   | _, Err err => internalFailure call encode_msg err
                   | Ok metadata, Ok body => tool_exit call body metadata
                   end
          end
      end
  end.

(** What a verdict reports beside itself, and the advice it may disagree with. *)
(* src/internal/persona/verdict.go:171-197 (VerdictExecutor.Execute) *)
Definition verdict_metadata (verdict : Verdict) (ref : Ref) : res (list (string * any)) :=
  gate ← RollGate (v_Scalars verdict);
  Ok [("turn_id"%string, AString (v_TurnID verdict)); ("verdict_ref"%string, AString (Ref_String ref));
      ("requires_roll"%string, ABool (e_Reported gate)); ("gate_advised"%string, ABool (e_Advised gate));
      ("gate_agrees"%string, ABool (Agrees gate)); ("declared_bands"%string, AOther "[]string");
      ("intent_count"%string, AInt (countIntents (v_Bands verdict)));
      ("modifier_total"%string, AInt (SumModifiers (v_Modifiers verdict)));
      ("rationale_present"%string, ABool (negb (String.eqb (v_Rationale verdict) EmptyString)))].

(* src/internal/persona/verdict.go#VerdictExecutor.Execute *)
Definition Verdict_Execute `{Codec Verdict} (call : ToolCall verdictArgs) : MW W Executed :=
  if negb (String.eqb (call_Name call) VerdictToolName) then mret (notFound call)
  else
    match IdentityFrom (call_Metadata call) with
    | Err err => mret (internalFailure call "resolve the turn this verdict belongs to" err)
    | Ok identity =>
        match parseVerdictArgs call with
        | Err _ => mret (correctable call)
        | Ok parsed =>
            let verdict := verdict_of parsed identity in
            match Verdict_Validate verdict with
            | Err _ => mret (correctable call)
            | Ok _ =>
                let turn := pi_TurnEntityID identity in
                commit_artifact call turn verdict (persona_PutVerdict turn verdict)
                  (fun ref at_ => Verdict_Triples verdict turn (Ref_String ref) (sourceFor RoleAdjudicator) at_)
                  TurnVerdict "store the verdict" "project the verdict onto the turn" "record the verdict on the turn"
                  "encode the verdict for the loop result" (verdict_metadata verdict)
            end
        end
    end.

(* src/internal/persona/narration.go#NarrationExecutor.Execute *)
Definition Narration_Execute `{Codec Narration} (call : ToolCall narrationArgs) : MW W Executed :=
  if negb (String.eqb (call_Name call) NarrationToolName) then mret (notFound call)
  else
    match IdentityFrom (call_Metadata call) with
    | Err err => mret (internalFailure call "resolve the turn this narration belongs to" err)
    | Ok identity =>
        match BandFrom (call_Metadata call) with
        | Err err => mret (internalFailure call "resolve the outcome band this narration voices" err)
        | Ok band =>
            match decodeStrict call with
            | Err _ => mret (correctable call)
            | Ok args =>
                let narration := {| n_TurnID := pi_TurnID identity; n_Band := band; n_Prose := na_Prose args |} in
                match Narration_Validate narration with
                | Err _ => mret (correctable call)
                | Ok _ =>
                    let turn := pi_TurnEntityID identity in
                    commit_artifact call turn narration (persona_PutNarration turn narration)
                      (fun ref at_ => TurnNarration_Triples
                         {| tn_TurnID := pi_TurnID identity; tn_NarrationRef := Ref_String ref |} turn
                         (sourceFor RoleNarrator) at_)
                      TurnNarration "store the narration prose" "project the narration reference onto the turn"
                      "record the narration reference on the turn" "encode the narration for the loop result"
                      (fun ref => Ok [("turn_id"%string, AString (pi_TurnID identity));
                                      ("narration_ref"%string, AString (Ref_String ref));
                                      ("band"%string, AString band); ("prose_bytes"%string, AInt (len (n_Prose narration)))])
                end
            end
        end
    end.

(** The decision the arguments and the injected identity make. *)
(* src/internal/persona/casekeeper.go:75-87 (CaseDecisionExecutor.Execute) *)
Definition case_record (args : caseDecisionArgs) (i : PersonaIdentity) : CaseDecisionRecord :=
  let decision := {|
    cd_DecisionID := CaseDecisionID (pi_TurnID i) (pi_ActionID i) (pi_CaseID i) (pi_ActorID i);
    cd_TurnID := pi_TurnID i; cd_ActionID := pi_ActionID i; cd_CaseID := pi_CaseID i; cd_ActorID := pi_ActorID i;
    cd_Kind := ca_Kind args; cd_TargetRefs := ca_TargetRefs args; cd_RevealRefs := ca_RevealRefs args;
    cd_CulpritRef := ca_CulpritRef args; cd_MethodRef := ca_MethodRef args; cd_MotiveRef := ca_MotiveRef args |} in
  {| cdr_TurnID := pi_TurnID i; cdr_ActionID := pi_ActionID i; cdr_Status := CaseDecisionStatusDecision;
     cdr_Decision := Some decision |}.

(* src/internal/persona/casekeeper.go#CaseDecisionExecutor.Execute *)
Definition CaseDecision_Execute `{Codec CaseDecisionRecord} (call : ToolCall caseDecisionArgs) : MW W Executed :=
  if negb (String.eqb (call_Name call) CaseDecisionToolName) then mret (notFound call)
  else
    match CaseIdentityFrom (call_Metadata call) with
    | Err err => mret (internalFailure call "resolve the case and turn this decision belongs to" err)
    | Ok identity =>
        match decodeStrict call with
        | Err _ => mret (correctable call)
        | Ok args =>
            let record := case_record args identity in
            match CaseDecisionRecord_Validate record with
            | Err _ => mret (correctable call)
            | Ok _ =>
                let turn := pi_TurnEntityID identity in
                commit_artifact call turn record (persona_PutCaseDecisionRecord turn record)
                  (fun ref at_ => CaseDecisionRecord_Triples record turn (Ref_String ref) (sourceFor RoleCasekeeper) at_)
                  TurnCaseDecision "store the case decision" "project the case decision onto the turn"
                  "record the case decision reference on the turn" "encode the case decision result"
                  (fun ref => Ok [("turn_id"%string, AString (pi_TurnID identity));
                                  ("case_decision_ref"%string, AString (Ref_String ref));
                                  ("kind"%string, AString (ca_Kind args))])
            end
        end
    end.
End executors.

(** ** UTF-8 and quoting, from Go's library *)

(** [utf8.RuneStart]. *)
Definition RuneStart (b : Z) : bool := negb (Z.land b 192 =? 128).

(** The bounds the second byte of a rune with this first byte has to respect,
    and how many bytes the rune has. *)
Definition rune_shape (b : Z) : option (nat * Z * Z) :=
  if (194 <=? b) && (b <=? 223) then Some (2%nat, 128, 191)
  else if b =? 224 then Some (3%nat, 160, 191)
  else if b =? 237 then Some (3%nat, 128, 159)
  else if (225 <=? b) && (b <=? 239) then Some (3%nat, 128, 191)
  else if b =? 240 then Some (4%nat, 144, 191)
  else if b =? 244 then Some (4%nat, 128, 143)
  else if (241 <=? b) && (b <=? 243) then Some (4%nat, 128, 191)
  else None.

Definition continuation (b : Z) : bool := (128 <=? b) && (b <=? 191).

(** [utf8.DecodeRune] of bytes that start with one of 128 or more; [None] is
    the error rune of one byte. *)
Definition DecodeRune (l : list Z) : option (Z * nat) :=
  match l with
  | [] => None
  | b0 :: rest =>
      match rune_shape b0 with
      | None => None
      | Some (size, lo, hi) =>
          match size, rest with
          | 2%nat, b1 :: _ =>
              if (lo <=? b1) && (b1 <=? hi) then Some (Z.land b0 31 * 64 + Z.land b1 63, 2%nat) else None
          | 3%nat, b1 :: b2 :: _ =>
              if (lo <=? b1) && (b1 <=? hi) && continuation b2
              then Some (Z.land b0 15 * 4096 + Z.land b1 63 * 64 + Z.land b2 63, 3%nat) else None
          | 4%nat, b1 :: b2 :: b3 :: _ =>
              if (lo <=? b1) && (b1 <=? hi) && continuation b2 && continuation b3
              then Some (Z.land b0 7 * 262144 + Z.land b1 63 * 4096 + Z.land b2 63 * 64 + Z.land b3 63, 4%nat) else None
          | _, _ => None
          end
      end
  end.

(** [strconv.IsPrint] beyond Latin-1: a table of Go's library. *)
Class UnicodePrint : Type := { print_table : Z -> bool }.

Definition IsPrint `{UnicodePrint} (r : Z) : bool :=
  if r <=? 255 then ((32 <=? r) && (r <? 127)) || ((161 <=? r) && negb (r =? 173)) else print_table r.

Definition hex_digit (z : Z) : Z := if z <? 10 then 48 + z else 87 + z.
(** The low [n] hexadecimal digits. *)
Fixpoint hex_digits (n : nat) (z : Z) : list Z :=
  match n with O => [] | S n => hex_digits n (Z.shiftr z 4) ++ [hex_digit (Z.land z 15)] end.

(** The escape of a rune, given the bytes it was read from. *)
Definition escape_rune `{UnicodePrint} (r : Z) (raw : list Z) : list Z :=
  if (r =? 34) || (r =? 92) then [92; r]
  else if IsPrint r then raw
  else if r =? 7 then [92; 97] else if r =? 8 then [92; 98] else if r =? 12 then [92; 102]
  else if r =? 10 then [92; 110] else if r =? 13 then [92; 114] else if r =? 9 then [92; 116]
  else if r =? 11 then [92; 118]
  else if (r <? 32) || (r =? 127) then [92; 120] ++ hex_digits 2 r
  else if r <? 65536 then [92; 117] ++ hex_digits 4 r
  else [92; 85] ++ hex_digits 8 r.

(** [strconv.Quote]'s loop: [skip] bytes of the rune just read are left. *)
Fixpoint quote_bytes `{UnicodePrint} (skip : nat) (l : list Z) : list Z :=
  match l with
  | [] => []
  | b :: rest =>
      match skip with
      | S skip => quote_bytes skip rest
      | O =>
          if b <? 128 then escape_rune b [b] ++ quote_bytes 0 rest
          else
            match DecodeRune l with
            | None => [92; 120] ++ hex_digits 2 b ++ quote_bytes 0 rest
            | Some (r, width) => escape_rune r (take width l) ++ quote_bytes (width - 1) rest
            end
      end
  end.

(** [%q]. *)
Definition Quote `{UnicodePrint} (s : string) : string := string_of ([34] ++ quote_bytes 0 (bytes_of s) ++ [34]).

(** ** Clipping *)

(* src/internal/persona/failure.go#MaxLoopIDBytes *)
Definition MaxLoopIDBytes : Z := 128.
(* src/internal/persona/failure.go#MaxLastErrorBytes *)
Definition MaxLastErrorBytes : Z := 3 * 1024.
(* src/internal/persona/failure.go#MaxLoopReasonBytes *)
Definition MaxLoopReasonBytes : Z := 128.
(* src/internal/persona/failure.go#elision *)
Definition elision : string := "… (truncated)".

(** [text[limit]]; the callers index inside the text. *)
Definition byte_at (text : string) (limit : nat) : Z :=
  match String.get limit text with Some c => byte_of c | None => 0 end.

(* src/internal/persona/failure.go#truncateAtRune *)
Fixpoint truncateAtRune (text : string) (limit : nat) : nat :=
  match limit with
  | O => O
  | S n => if RuneStart (byte_at text limit) then limit else truncateAtRune text n
  end.

(* src/internal/persona/failure.go#clip *)
Definition clip (text : string) (limit : Z) : string :=
  let limit := if limit <? 0 then 0 else limit in
  if len text <=? limit then text
  else
    let marker := if limit <? len elision then EmptyString else elision in
    let keep := truncateAtRune text (Z.to_nat (limit - len marker)) in
    String.substring 0 keep text +:+ marker.

(** ** Explanations *)

(* src/internal/persona/failure.go#type CapExhaustion *)
Record CapExhaustion : Type := { ce_Role : string; ce_LoopID : string; ce_Iterations : Z; ce_LastError : string }.

(* src/internal/persona/failure.go#type LoopFailure *)
Record LoopFailure : Type := {
  lf_Role : string; lf_LoopID : string; lf_Reason : string; lf_Iterations : Z; lf_LastError : string }.

(** The two optional fragments both explanations end with. *)
(* src/internal/persona/failure.go:305-310 (CapExhaustion.describe) *)
Definition loop_fragments (loopID lastError : string) : string :=
  (if String.eqb loopID EmptyString then EmptyString else " (loop " +:+ clip loopID MaxLoopIDBytes +:+ ")") +:+
  (if String.eqb lastError EmptyString then EmptyString
   else "; the last thing it was told was: " +:+ clip lastError MaxLastErrorBytes).

(* src/internal/persona/failure.go#CapExhaustion.describe *)
Definition cap_describe (e : CapExhaustion) (spec : Spec) : string :=
  ("the " +:+ ce_Role e +:+ " persona used " +:+ Itoa (ce_Iterations e) +:+ " of its " +:+ Itoa (sp_MaxIterations spec) +:+
   " permitted iterations without exiting through " +:+ tool_Name (sp_Tool spec)) +:+
  loop_fragments (ce_LoopID e) (ce_LastError e) +:+
  ". The iteration cap is what stops a persona costing a turn forever; a turn that reaches it ends explicitly rather than stalling.".

Section describe.
Context `{UnicodePrint}.

(* src/internal/persona/failure.go#LoopFailure.describe *)
Definition loop_describe (f : LoopFailure) (spec : Spec) : string :=
  ("the " +:+ lf_Role f +:+ " persona loop ended without exiting through " +:+ tool_Name (sp_Tool spec) +:+
   ", and not because it ran out of iterations: the loop reported " +:+ Quote (clip (lf_Reason f) MaxLoopReasonBytes) +:+
   " after " +:+ Itoa (lf_Iterations f) +:+ " of its " +:+ Itoa (sp_MaxIterations spec) +:+ " permitted iterations") +:+
  loop_fragments (lf_LoopID f) (lf_LastError f) +:+
  ". A loop that stops trying and a loop that runs out of budget leave the turn in the same place, so both end it explicitly rather than leaving a player waiting on a stage nothing will run again.".
End describe.

(* src/internal/persona/failure.go#classifyLoopFailure *)
Definition classifyLoopFailure (reason : string) : string :=
  if String.eqb reason "model_error" then FailureClassProviderModel
  else if String.eqb reason "length_truncated" then FailureClassModelOutputLimit
  else if mem reason ["handler_error"; "spawn_identity_birth_failed"]%string then FailureClassAgentRuntime
  else FailureClassUnknown.

(** ** Recording *)

Section record.
Context {W : Type} `{Substrate, UnicodePrint, GraphStore W, Clock W, ActionStore W, PersonaArtifacts W}.

(* src/internal/persona/failure.go#failWithoutDetail *)
Definition failWithoutDetail (identity : PersonaIdentity) (reason : string) (storeErr : error) : MW W Transition :=
  let stored := Errorf "store the detail for turn" [storeErr] in
  failed ← attempt (Fail_ (pi_TurnID identity) (pi_TurnEntityID identity) reason zero_Ref);
  match failed with
  | Err failErr => throw (Errorf "join" [stored; Errorf "fail turn without an explanation" [failErr]])
  | Ok transition =>
      throw (DetailLostError (pi_TurnEntityID identity) (Previous transition) (Phase transition) (Outcome transition) stored)
  end.

(* src/internal/persona/failure.go#record *)
Definition record_failure (identity : PersonaIdentity) (reason class explanation : string) : MW W Transition :=
  _ ← lift (PersonaIdentity_Validate identity);
  let detail := {| fd_TurnID := pi_TurnID identity; fd_Reason := reason; fd_Class := class;
                   fd_AuthorizationReason := EmptyString; fd_Message := explanation; fd_Target := EmptyString;
                   fd_Committed := [] |} in
  stored ← attempt (persona_PutFailureDetail (pi_TurnEntityID identity) detail);
  match stored with
  | Err storeErr => failWithoutDetail identity reason storeErr
  | Ok ref => Fail_ (pi_TurnID identity) (pi_TurnEntityID identity) reason ref
  end.

(* src/internal/persona/failure.go#RecordCapExhausted *)
Definition RecordCapExhausted (identity : PersonaIdentity) (exhaustion : CapExhaustion) : MW W Transition :=
  spec ← lift (SpecFor (ce_Role exhaustion));
  record_failure identity FailurePersonaCapExhausted FailureClassAgentLimit (cap_describe exhaustion spec).

(* src/internal/persona/failure.go#RecordLoopFailed *)
Definition RecordLoopFailed (identity : PersonaIdentity) (failure : LoopFailure) : MW W Transition :=
  spec ← lift (SpecFor (lf_Role failure));
  record_failure identity FailurePersonaLoopFailed (classifyLoopFailure (lf_Reason failure)) (loop_describe failure spec).
End record.
