(* ===== verification/Delivery.v ===== *)
(** [payload/protocol.go], [submitaction.go], [submitresponse.go],
    [turnresult.go] and [turndelivery.go]: the documents the engine exchanges
    with players - a submission, its answer, and a turn's delivered result. *)

From S2P Require Import Prelude GoStd GoErrors Graph Vocab Vocabulary Payload Mechanics Decisions ContentRecords Persona.

Open Scope Z_scope.

(** ** The protocol *)

(* src/internal/payload/protocol.go#const PlayerProtocolV1 *)
Definition PlayerProtocolV1 : string := "player/v1".
(* src/internal/payload/protocol.go#var playerProtocolVersions *)
Definition playerProtocolVersions : list string := [PlayerProtocolV1].
(* src/internal/payload/protocol.go:75-75 (ErrUnsupportedProtocol) *)
Definition ErrUnsupportedProtocol : string := "unsupported player protocol version".
(* src/internal/payload/protocol.go:79-79 (ErrServerOwnedField) *)
Definition ErrServerOwnedField : string := "server-owned field".
(* src/internal/payload/protocol.go:83-83 (ErrUnknownField) *)
Definition ErrUnknownField : string := "unknown field".

(* src/internal/payload/protocol.go#fieldErrorf *)
Definition fieldErrorf (name : string) (sentinel : option error) : error := FieldError name sentinel.

(* src/internal/payload/protocol.go#ParsePlayerProtocolVersion *)
Definition ParsePlayerProtocolVersion (s : string) : res string :=
  if mem s playerProtocolVersions then Ok s
  else if String.eqb s EmptyString then
    Err (Errorf "no protocol version was declared" [Sentinel ErrUnsupportedProtocol])
  else Err (Errorf "this engine speaks another version" [Sentinel ErrUnsupportedProtocol]).

(** ** Submissions *)

(* src/internal/payload/submitaction.go#const MaxIdempotencyKeyBytes *)
Definition MaxIdempotencyKeyBytes : Z := 128.

(* src/internal/payload/submitaction.go#type SubmitAction *)
Record SubmitAction : Type := { sa_Protocol : string; sa_Text : string; sa_IdempotencyKey : string }.

(** The JSON names of the fields, which the source collects by reflection over
    the two structures, those of the nested channel binding included. *)
(* src/internal/payload/submitaction.go:77-78 (clientOwnedSubmitFields) *)
Definition clientOwnedSubmitFields : list string := ["protocol"; "text"; "idempotency_key"]%string.
(* src/internal/payload/playeraction.go:56-79 (PlayerAction) *)
Definition actionFields : list string :=
  ["action_id"; "player_id"; "campaign_id"; "scene_id"; "text"; "arrived_at"; "channel"; "adapter"; "reply_to"]%string.
(* src/internal/payload/submitaction.go#const clientSuppliedActionField *)
Definition clientSuppliedActionField : string := "text".
(* src/internal/payload/submitaction.go#serverOwnedFields *)
Definition serverOwnedActionFields : list string :=
  List.filter (fun name => negb (String.eqb name clientSuppliedActionField)) actionFields.

(** [utf8.ValidString]: [skip] bytes of the rune just read are left. *)
Fixpoint valid_utf8 (skip : nat) (l : list Z) : bool :=
  match l with
  | [] => true
  | b :: rest =>
      match skip with
      | S skip => valid_utf8 skip rest
      | O =>
          if b <? 128 then valid_utf8 0 rest
          else match DecodeRune l with None => false | Some (_, width) => valid_utf8 (width - 1) rest end
      end
  end.
Definition ValidString (s : string) : bool := valid_utf8 0 (bytes_of s).

(** A rune below 32 or 127 is its own byte, and no other rune holds such a byte. *)
(* src/internal/payload/submitaction.go:201-207 (validateIdempotencyKey) *)
Definition control_byte (b : Z) : bool := (b <? 32) || (b =? 127).

(* src/internal/payload/submitaction.go#validateIdempotencyKey *)
Definition validateIdempotencyKey (key : string) : res unit :=
  let fault := Err (fieldErrorf "idempotency_key" None) in
  if String.eqb key EmptyString then fault
  else if MaxIdempotencyKeyBytes <? len key then fault
  else if negb (ValidString key) then fault
  else if existsb control_byte (bytes_of key) then fault
  else Ok tt.

(* src/internal/payload/submitaction.go#RequireIdempotencyKey *)
Definition RequireIdempotencyKey (key : string) : res unit := validateIdempotencyKey key.

(* src/internal/payload/submitaction.go#SubmitAction.Validate *)
Definition SubmitAction_Validate (s : SubmitAction) : res unit :=
  _ ← ParsePlayerProtocolVersion (sa_Protocol s);
  _ ← require (negb (String.eqb (sa_Text s) EmptyString)) (fieldErrorf "text" None);
  _ ← require (negb (String.eqb (TrimSpace (sa_Text s)) EmptyString)) (fieldErrorf "text" None);
  _ ← require (negb (MaxActionTextBytes <? len (sa_Text s))) (fieldErrorf "text" None);
  validateIdempotencyKey (sa_IdempotencyKey s).

(** What [encoding/json] reads of a submission: the names of the document's
    members - [None] for null - and the three fields, each or the key alone. *)
Class SubmissionText : Type := {
  submission_names : string -> res (option (list string));
  submission_fields : string -> res SubmitAction;
  submission_key : string -> res string
}.

(* src/internal/payload/submitaction.go#SubmitAction.UnmarshalJSON *)
Definition SubmitAction_UnmarshalJSON `{SubmissionText} (data : string) : res SubmitAction :=
  match submission_names data with
  | Err err => Err (Errorf "a submission must be a JSON object" [err])
  | Ok None => Err (Errorf "a submission must be a JSON object, got null" [])
  | Ok (Some fields) =>
      let names := Sort fields in
      match List.find (fun name => mem name serverOwnedActionFields) names with
      | Some name => Err (fieldErrorf name (Some (Sentinel ErrServerOwnedField)))
      | None =>
          match List.find (fun name => negb (mem name clientOwnedSubmitFields)) names with
          | Some name => Err (fieldErrorf name (Some (Sentinel ErrUnknownField)))
          | None => submission_fields data
          end
      end
  end.

(** ** Answers *)

(* src/internal/payload/submitresponse.go#const StatusAccepted *)
Definition StatusAccepted : string := "accepted".
(* src/internal/payload/submitresponse.go#const StatusRefused *)
Definition StatusRefused : string := "refused".
(* src/internal/payload/submitresponse.go#const RefusalUnauthenticated *)
Definition RefusalUnauthenticated : string := "unauthenticated".
(* src/internal/payload/submitresponse.go#const RefusalUnsupportedProtocol *)
Definition RefusalUnsupportedProtocol : string := "unsupported_protocol".
(* src/internal/payload/submitresponse.go#const RefusalServerOwnedField *)
Definition RefusalServerOwnedField : string := "server_owned_field".
(* src/internal/payload/submitresponse.go#const RefusalUnknownField *)
Definition RefusalUnknownField : string := "unknown_field".
(* src/internal/payload/submitresponse.go#const RefusalMalformedRequest *)
Definition RefusalMalformedRequest : string := "malformed_request".
(* src/internal/payload/submitresponse.go#const RefusalInvalidField *)
Definition RefusalInvalidField : string := "invalid_field".
(* src/internal/payload/submitresponse.go#const RefusalTurnInProgress *)
Definition RefusalTurnInProgress : string := "turn_in_progress".
(* src/internal/payload/submitresponse.go#const RefusalUnavailable *)
Definition RefusalUnavailable : string := "unavailable".
(* src/internal/payload/submitresponse.go#var submitRefusalCodes *)
Definition submitRefusalCodes : list string :=
  [RefusalUnauthenticated; RefusalUnsupportedProtocol; RefusalServerOwnedField; RefusalUnknownField;
   RefusalMalformedRequest; RefusalInvalidField; RefusalTurnInProgress; RefusalUnavailable].

(* src/internal/payload/submitresponse.go#SubmitRefusalCode.Valid *)
Definition RefusalCode_Valid (c : string) : bool := mem c submitRefusalCodes.

(* src/internal/payload/submitresponse.go#type SubmitRefusal *)
Record SubmitRefusal : Type := { sr_Code : string; sr_Message : string; sr_Field : string; sr_ActiveTurnID : string }.

(* src/internal/payload/submitresponse.go#type SubmitResponse *)
Record SubmitResponse : Type := {
  sp_Protocol : string; sp_Status : string; sp_IdempotencyKey : string; sp_ActionID : string; sp_TurnID : string;
  sp_ArrivedAt : time; sp_Refusal : option SubmitRefusal }.

Section responses.
Context `{Substrate}.

(* src/internal/payload/submitresponse.go#SubmitRefusal.Validate *)
Definition SubmitRefusal_Validate (r : SubmitRefusal) : res unit :=
  _ ← require (RefusalCode_Valid (sr_Code r)) (Errorf "submission refusal code is not registered" []);
  _ ← require (negb (String.eqb (sr_Message r) EmptyString)) (Errorf "a submission refusal needs a message" []);
  if String.eqb (sr_Code r) RefusalTurnInProgress then
    wrapf "refusal must name the turn the player is waiting on" (requireIDSegment "active_turn_id" (sr_ActiveTurnID r))
  else require (String.eqb (sr_ActiveTurnID r) EmptyString) (Errorf "refusal names an active turn" []).

(* src/internal/payload/submitresponse.go#SubmitResponse.Validate *)
Definition SubmitResponse_Validate (r : SubmitResponse) : res unit :=
  let empty := String.eqb EmptyString in
  _ ← ParsePlayerProtocolVersion (sp_Protocol r);
  if String.eqb (sp_Status r) StatusAccepted then
    _ ← require (match sp_Refusal r with None => true | Some _ => false end)
          (Errorf "an accepted submission carries a refusal" []);
    _ ← requireActionID "action_id" (sp_ActionID r);
    _ ← requireIDSegment "turn_id" (sp_TurnID r);
    _ ← require (String.eqb (sp_TurnID r) (TurnIDForAction (sp_ActionID r)))
          (Errorf "accepted action reports another turn" []);
    _ ← require (negb (time_IsZero (sp_ArrivedAt r))) (Errorf "an accepted submission must report the arrival time" []);
    validateIdempotencyKey (sp_IdempotencyKey r)
  else if String.eqb (sp_Status r) StatusRefused then
    match sp_Refusal r with
    | None => Err (Errorf "a refused submission carries no refusal" [])
    | Some refusal =>
        _ ← require (empty (sp_ActionID r) && empty (sp_TurnID r)) (Errorf "a refused submission reports an identity" []);
        _ ← require (time_IsZero (sp_ArrivedAt r)) (Errorf "a refused submission reports an arrival time" []);
        SubmitRefusal_Validate refusal
    end
  else Err (Errorf "submission status is neither" []).
End responses.

(** ** Results *)

(* src/internal/payload/turnresult.go#type TurnRoll *)
Record TurnRoll : Type := {
  tr_Mechanic : string; tr_Dice : list Z; tr_Modifiers : list Modifier; tr_ModifierTotal : Z; tr_Total : Z }.

(* src/internal/payload/turnresult.go#TurnRoll.Validate *)
Definition TurnRoll_Validate (r : TurnRoll) : res unit :=
  spec ← MechanicSpecFor (tr_Mechanic r);
  validateRollArithmetic spec (tr_Dice r) (tr_Modifiers r) (tr_ModifierTotal r) (tr_Total r).

(* src/internal/payload/turnresult.go#type TurnResolution *)
Record TurnResolution : Type := { rs_Verdict : VerdictScalars; rs_Band : string; rs_Roll : option TurnRoll }.

(* src/internal/payload/turnresult.go#type CompanionResolution *)
Record CompanionResolution : Type := { cr_CompanionID : string; cr_Kind : string; cr_HintLevel : string }.

(* src/internal/payload/turnresult.go#type TurnResult *)
Record TurnResult : Type := {
  rt_Protocol : string; rt_TurnID : string; rt_ActionID : string; rt_PlayerID : string; rt_Phase : string;
  rt_Resolution : option TurnResolution; rt_CompanionResolution : option CompanionResolution;
  rt_NarrationRef : string; rt_FailureReason : string; rt_ResolvedAt : time }.

(* src/internal/payload/turndelivery.go#type DeliveredNarration *)
Record DeliveredNarration : Type := { dn_TurnID : string; dn_Band : string; dn_Prose : string }.

(* src/internal/payload/turndelivery.go#type TurnDelivery *)
Record TurnDelivery : Type := {
  td_Protocol : string; td_Result : option TurnResult; td_Narration : option DeliveredNarration }.

Section results.
Context `{Substrate}.

Let given (s : string) : bool := negb (String.eqb s EmptyString).

(* src/internal/payload/turnresult.go#CompanionResolution.Validate *)
Definition CompanionResolution_Validate (r : CompanionResolution) : res unit :=
  _ ← requireEntityID "companion_id" (cr_CompanionID r);
  _ ← require (mem (cr_Kind r) companionDecisionKinds) (Errorf "kind is not a registered companion decision kind" []);
  if String.eqb (cr_Kind r) CompanionDecisionHint then
    _ ← wrapf "hint_level is required and must be closed when kind is hint" (ParseHintLevel (cr_HintLevel r));
    Ok tt
  else require (negb (given (cr_HintLevel r))) (Errorf "hint_level is forbidden for this kind" []).

(** A band without a roll behind it. *)
(* src/internal/payload/turnresult.go:162-174 (TurnResolution.Validate) *)
Definition unrolled_band (r : TurnResolution) (band : string) : res unit :=
  _ ← require (String.eqb band BandAuto) (Errorf "band is selected by dice, but the resolution carries no roll" []);
  require (negb (v_RequiresRoll (rs_Verdict r)))
    (Errorf "the verdict reported that this action requires a roll" []).

(* src/internal/payload/turnresult.go#TurnResolution.Validate *)
Definition TurnResolution_Validate (r : TurnResolution) (outcomeRequired : bool) : res unit :=
  _ ← VerdictScalars_Validate (rs_Verdict r);
  if negb (given (rs_Band r)) then
    _ ← require (negb outcomeRequired) (Errorf "a completed turn records no outcome band" []);
    require (match rs_Roll r with None => true | Some _ => false end)
      (Errorf "a resolution carries a roll but no band" [])
  else
    band ← ParseOutcomeBand (rs_Band r);
    match rs_Roll r with
    | None => unrolled_band r band
    | Some roll =>
        _ ← require (IsRollBand band) (Errorf "band is not selectable by a roll" []);
        _ ← require (v_RequiresRoll (rs_Verdict r))
              (Errorf "the resolution carries a roll, but the verdict reported that none is required" []);
        _ ← TurnRoll_Validate roll;
        spec ← MechanicSpecFor (tr_Mechanic roll);
        requireBandForTotal spec (tr_Total roll) band
    end.

(** What the phase a turn ended in asks of its result. *)
(* src/internal/payload/turnresult.go:325-347 (TurnResult.Validate) *)
Definition result_ending (r : TurnResult) : res unit :=
  if String.eqb (rt_Phase r) PhaseComplete then
    _ ← require (negb (given (rt_FailureReason r))) (Errorf "a complete turn must not carry failure_reason" []);
    _ ← require (given (rt_NarrationRef r)) (Errorf "a complete turn requires narration_ref" []);
    require (match rt_Resolution r with Some _ => true | None => false end)
      (Errorf "a complete turn requires resolution" [])
  else if String.eqb (rt_Phase r) PhaseFailed then
    _ ← ParseFailureReason (rt_FailureReason r); Ok tt
  else Ok tt.

(* src/internal/payload/turnresult.go#TurnResult.Validate *)
Definition TurnResult_Validate (r : TurnResult) : res unit :=
  _ ← ParsePlayerProtocolVersion (rt_Protocol r);
  derived ← ActionIDForTurn (rt_TurnID r);
  _ ← require (String.eqb derived (rt_ActionID r)) (Errorf "turn derives another action" []);
  _ ← requireEntityID "player_id" (rt_PlayerID r);
  phase ← ParseTurnPhase (rt_Phase r);
  _ ← require (IsTerminal phase) (Errorf "phase is not terminal" []);
  _ ← result_ending r;
  _ ← (if given (rt_NarrationRef r) then RequireStorageRef "narration_ref" (rt_NarrationRef r) else Ok tt);
  _ ← (match rt_Resolution r with
       | None => Ok tt
       | Some resolution => wrapf "resolution" (TurnResolution_Validate resolution (String.eqb phase PhaseComplete))
       end);
  _ ← (match rt_CompanionResolution r with
       | None => Ok tt
       | Some summary => wrapf "companion_resolution" (CompanionResolution_Validate summary)
       end);
  require (negb (time_IsZero (rt_ResolvedAt r))) (Errorf "resolved_at is required" []).

(* src/internal/payload/turndelivery.go#DeliveredNarration.Validate *)
Definition DeliveredNarration_Validate (n : DeliveredNarration) : res unit :=
  _ ← requireIDSegment "turn_id" (dn_TurnID n);
  _ ← ParseOutcomeBand (dn_Band n);
  _ ← require (given (dn_Prose n)) (Errorf "the narration delivered carries no prose" []);
  require (negb (MaxProseBytes <? len (dn_Prose n))) (Errorf "delivered prose exceeds the prose budget" []).

(** The band the result states, when it states one. *)
(* src/internal/payload/turndelivery.go:172-173 (TurnDelivery.Validate) *)
Definition stated_band (result : TurnResult) : string :=
  match rt_Resolution result with Some resolution => rs_Band resolution | None => EmptyString end.

(* src/internal/payload/turndelivery.go#TurnDelivery.Validate *)
Definition TurnDelivery_Validate (d : TurnDelivery) : res unit :=
  _ ← ParsePlayerProtocolVersion (td_Protocol d);
  match td_Result d with
  | None => Err (Errorf "a delivery carries no result" [])
  | Some result =>
      _ ← wrapf "result" (TurnResult_Validate result);
      match td_Narration d with
      | None => require (negb (given (rt_NarrationRef result)))
                  (Errorf "turn records narration and the delivery carries none" [])
      | Some narration =>
          _ ← require (given (rt_NarrationRef result))
                (Errorf "the delivery carries prose, but the result references none" []);
          _ ← wrapf "narration" (DeliveredNarration_Validate narration);
          _ ← require (String.eqb (dn_TurnID narration) (rt_TurnID result))
                (Errorf "the delivery carries prose belonging to another turn" []);
          require (negb (given (stated_band result) && negb (String.eqb (dn_Band narration) (stated_band result))))
            (Errorf "the delivery carries prose voicing another band" [])
      end
  end.
End results.
