(* ===== verification/Gateway.v ===== *)
(** [internal/gateway]: sessions of authenticated connections, the derived
    action identity, and the submission of a player's action. *)

From S2P Require Import Prelude GoStd GoHash GoErrors Graph Vocab Vocabulary Payload Store GraphIO Turn Sequencing Delivery.

Open Scope Z_scope.

(* src/internal/gateway/session.go#var ErrUnauthenticated *)
Definition ErrUnauthenticated : string := "unauthenticated".
(* src/internal/gateway/session.go#var ErrTooManyConnections *)
Definition ErrTooManyConnections : string := "too many connections for this player".

(** ** Action identities *)

(** [base32.StdEncoding] without padding. *)
Definition base32_char (v : Z) : Z := if v <? 26 then 65 + v else 24 + v.
Definition byte_bits (b : Z) : list bool := map (Z.testbit b) [7; 6; 5; 4; 3; 2; 1; 0].
Definition bits_value (l : list bool) : Z := fold_left (fun acc (b : bool) => 2 * acc + (if b then 1 else 0)) l 0.
(** Groups of five, the last one filled up with zeros. *)
Fixpoint quintets (l : list bool) : list Z :=
  match l with
  | a :: b :: c :: d :: e :: rest => bits_value [a; b; c; d; e] :: quintets rest
  | [] => []
  | l => [bits_value (take 5 (l ++ repeat false 5))]
  end.
Definition base32 (l : list Z) : string := string_of (map base32_char (quintets (flat_map byte_bits l))).

(* src/internal/gateway/actionid.go#const actionIDDomain *)
Definition actionIDDomain : string := "semmachina/action-id/v1" +:+ String Ascii.zero EmptyString.

Section identity.
Context `{Substrate}.

(** What the digest is of: the domain, then the framed player and key. *)
(* src/internal/gateway/actionid.go:87-90 (ActionIDFor) *)
Definition action_digest (playerID idempotencyKey : string) : list Z :=
  sha256 (bytes_of actionIDDomain ++ frame [playerID; idempotencyKey]).

(* src/internal/gateway/actionid.go#ActionIDFor *)
Definition ActionIDFor (playerID idempotencyKey : string) : res string :=
  _ ← wrapf "deriving an action id requires the authenticated player's canonical entity id" (ValidateEntityID playerID);
  _ ← wrapf "deriving an action id" (RequireIdempotencyKey idempotencyKey);
  let actionID := base32 (action_digest playerID idempotencyKey) in
  _ ← wrapf "the derived action id is not usable as a turn identity" (RequireActionID actionID);
  Ok actionID.
End identity.

(** ** Sessions *)

(** The connection's writer is the socket's; it is known here by a handle. *)
(* src/internal/gateway/session.go#type Connection *)
Record Connection : Type := {
  cn_ID : string; cn_Adapter : string; cn_ReplyTo : string; cn_Writer : option string }.

(* src/internal/gateway/session.go#Connection.Validate *)
Definition Connection_Validate (c : Connection) : res unit :=
  _ ← require (negb (String.eqb (cn_ID c) EmptyString)) (Errorf "a connection needs an id to bind a session to" []);
  _ ← ParseChannelAdapter (cn_Adapter c);
  require (negb (String.eqb (cn_ReplyTo c) EmptyString)) (Errorf "a connection needs a reply-to address" []).

(* src/internal/gateway/session.go#type Session *)
Record Session : Type := { se_PlayerID : string; se_Connection : Connection }.

(* src/internal/gateway/session.go#type sessions *)
Record sessions : Type := {
  byConnID : gmap string Session; byPlayerID : gmap string (gset string); maxPerPlayer : Z }.

(* src/internal/gateway/session.go#newSessions *)
Definition newSessions (limit : Z) : sessions := {| byConnID := ∅; byPlayerID := ∅; maxPerPlayer := limit |}.

(** A player's connections; none when the player has no entry. *)
Definition connections_of (s : sessions) (playerID : string) : gset string := default ∅ (byPlayerID s !! playerID).

(* src/internal/gateway/session.go#sessions.unbind *)
Definition unbind (connID : string) (s : sessions) : sessions :=
  match byConnID s !! connID with
  | None => s
  | Some previous =>
      let connections := connections_of s (se_PlayerID previous) ∖ {[ connID ]} in
      {| byConnID := byConnID s;
         byPlayerID := if bool_decide (connections = ∅) then delete (se_PlayerID previous) (byPlayerID s)
                       else <[se_PlayerID previous := connections]> (byPlayerID s);
         maxPerPlayer := maxPerPlayer s |}
  end.

(* src/internal/gateway/session.go#sessions.put *)
Definition put (session : Session) (s : sessions) : res unit * sessions :=
  let connID := cn_ID (se_Connection session) in
  let s := unbind connID s in
  let connections := connections_of s (se_PlayerID session) in
  if maxPerPlayer s <=? Z.of_nat (size connections) then
    (Err (Errorf "player already holds as many connections" [Sentinel ErrTooManyConnections]),
     {| byConnID := delete connID (byConnID s); byPlayerID := byPlayerID s; maxPerPlayer := maxPerPlayer s |})
  else
    (Ok tt,
     {| byConnID := <[connID := session]> (byConnID s);
        byPlayerID := <[se_PlayerID session := {[ connID ]} ∪ connections]> (byPlayerID s);
        maxPerPlayer := maxPerPlayer s |}).

(* src/internal/gateway/session.go#sessions.get *)
Definition get_session (connID : string) (s : sessions) : option Session := byConnID s !! connID.

(* src/internal/gateway/session.go#sessions.remove *)
Definition remove_session (connID : string) (s : sessions) : sessions :=
  let s := unbind connID s in
  {| byConnID := delete connID (byConnID s); byPlayerID := byPlayerID s; maxPerPlayer := maxPerPlayer s |}.

(* src/internal/gateway/session.go#sessions.forPlayer *)
Definition forPlayer (playerID : string) (s : sessions) : list Session :=
  sort_by (fun session => cn_ID (se_Connection session))
    (omap (fun connID => byConnID s !! connID) (elements (connections_of s playerID))).

(** ** Who is who *)

(* src/internal/gateway/session.go#type Authenticator *)
Class Authenticator (W : Type) : Type := { auth_Authenticate : string -> MW W string }.

(* src/internal/gateway/session.go#type Roster *)
Record Roster : Type := { ro_entries : list (string * string) }.

(** The entries of the configuration in the order of their credentials. *)
(* src/internal/gateway/session.go:175-186 (NewRoster) *)
Fixpoint roster_entries `{Substrate} (l : list (string * string)) : res (list (string * string)) :=
  match l with
  | [] => Ok []
  | (credential, playerID) :: rest =>
      _ ← require (negb (String.eqb credential EmptyString))
            (Errorf "a roster entry with an empty credential would authenticate a silent client" []);
      _ ← wrapf "roster entry for a credential names no canonical player" (ValidateEntityID playerID);
      entries ← roster_entries rest;
      Ok ((credential, playerID) :: entries)
  end.

(* src/internal/gateway/session.go#NewRoster *)
Definition NewRoster `{Substrate} (entries : gmap string string) : res Roster :=
  if bool_decide (entries = ∅) then Err (Errorf "a roster with no entries authenticates nobody" [])
  else
    sorted ← roster_entries (sort_by fst (map_to_list entries));
    Ok {| ro_entries := sorted |}.

(* src/internal/gateway/session.go#Roster.Authenticate *)
Definition Roster_Authenticate (r : Roster) (credential : string) : res string :=
  let playerID := fold_left (fun playerID entry => if String.eqb entry.1 credential then entry.2 else playerID)
                    (ro_entries r) EmptyString in
  if String.eqb playerID EmptyString then
    Err (Errorf "the credential names no player of this world" [Sentinel ErrUnauthenticated])
  else Ok playerID.

(** ** The gateway *)

(* src/internal/gateway/gateway.go#type Config *)
Record GatewayConfig : Type := { gc_CampaignID : string; gc_SceneID : string }.

(* src/internal/gateway/gateway.go#Config.Validate *)
Definition GatewayConfig_Validate `{Substrate} (c : GatewayConfig) : res unit :=
  _ ← wrapf "gateway campaign id is not a canonical six-part entity id" (ValidateEntityID (gc_CampaignID c));
  wrapf "gateway scene id is not a canonical six-part entity id" (ValidateEntityID (gc_SceneID c)).

(* src/internal/gateway/gateway.go#const DefaultMaxConnectionsPerPlayer *)
Definition DefaultMaxConnectionsPerPlayer : Z := 4.
(* src/internal/gateway/gateway.go#const MaxRequestBytes *)
Definition MaxRequestBytes : Z := 6 * (MaxActionTextBytes + MaxIdempotencyKeyBytes) + 512.

(** What is configured; the session table is state of the world. *)
(* src/internal/gateway/gateway.go#type Gateway *)
Record Gateway : Type := { gw_config : GatewayConfig; gw_subject : string }.

(** The checks of the constructor and the table it starts with: the options'
    connection limit and subject override. *)
(* src/internal/gateway/gateway.go:178-211 (New) *)
Definition New `{Substrate} (config : GatewayConfig) (limit : Z) (subject : string) : res (Gateway * sessions) :=
  _ ← GatewayConfig_Validate config;
  _ ← require (negb (String.eqb subject EmptyString)) (Errorf "the player gateway requires a publish subject" []);
  _ ← require (negb (limit <? 1)) (Errorf "a cap below one is a gateway nobody can connect to" []);
  Ok ({| gw_config := config; gw_subject := subject |}, newSessions limit).

(** The table the gateway holds. *)
Class HasSessions (W : Type) : Type := { sessions_of : W -> sessions; with_sessions : sessions -> W -> W }.

(** The action's envelope as bytes, and the stream it is published to. *)
Class ActionEnvelope : Type := { envelope_bytes : PlayerAction -> res string }.
Class ActionPublisher (W : Type) : Type := {
  PublishToStreamWithMsgID : string -> string -> string -> MW W unit }.

Section gateway.
Context {W : Type} `{Substrate, GraphStore W, Clock W, Authenticator W, HasSessions W, ActionEnvelope, ActionPublisher W,
  SubmissionText}.
Variable g : Gateway.

Definition read_sessions : MW W sessions := fun w => (Ok (sessions_of w), w).
Definition update_sessions {A} (f : sessions -> res A * sessions) : MW W A := fun w =>
  let '(r, s) := f (sessions_of w) in (r, with_sessions s w).

(* src/internal/gateway/gateway.go#Gateway.Verify *)
Definition Gateway_Verify (credential : string) : MW W string :=
  playerID ← auth_Authenticate credential;
  _ ← lift (match ValidateEntityID playerID with
            | Ok _ => Ok tt
            | Err _ => Err (Errorf "the credential names no canonical six-part entity id" [Sentinel ErrUnauthenticated])
            end);
  read ← attempt (GetEntity playerID);
  match read with
  | Ok _ => mret playerID
  | Err err =>
      if errors_Is ErrEntityNotFound err then
        throw (Errorf "player is not an entity of this world" [Sentinel ErrUnauthenticated])
      else throw (Errorf "read player" [err])
  end.

(* src/internal/gateway/gateway.go#Gateway.Bind *)
Definition Gateway_Bind (playerID : string) (conn : Connection) : MW W Session :=
  _ ← lift (Connection_Validate conn);
  _ ← lift (wrapf "refusing to bind a session" (ValidateEntityID playerID));
  let session := {| se_PlayerID := playerID; se_Connection := conn |} in
  _ ← update_sessions (put session);
  mret session.

(* src/internal/gateway/gateway.go#Gateway.Authenticate *)
Definition Gateway_Authenticate (credential : string) (conn : Connection) : MW W Session :=
  _ ← lift (Connection_Validate conn);
  player ← Gateway_Verify credential;
  Gateway_Bind player conn.

(* src/internal/gateway/gateway.go#Gateway.SessionsFor *)
Definition Gateway_SessionsFor (playerID : string) : MW W (list Session) :=
  s ← read_sessions;
  mret (forPlayer playerID s).

(* src/internal/gateway/gateway.go#Gateway.Disconnect *)
Definition Gateway_Disconnect (connID : string) : MW W unit :=
  update_sessions (fun s => (Ok tt, remove_session connID s)).

(** ** Submitting *)

(* src/internal/gateway/gateway.go#classify *)
Definition gateway_classify (err : error) (fallback : string) : SubmitRefusal :=
  {| sr_Code := if errors_Is ErrUnsupportedProtocol err then RefusalUnsupportedProtocol
                else if errors_Is ErrServerOwnedField err then RefusalServerOwnedField
                else if errors_Is ErrUnknownField err then RefusalUnknownField else fallback;
     sr_Message := Error_text err;
     sr_Field := match errors_As is_FieldError err with Some (FieldError name _) => name | _ => EmptyString end;
     sr_ActiveTurnID := EmptyString |}.

(* src/internal/gateway/gateway.go#Gateway.decode *)
Definition decode (raw : string) : result SubmitRefusal SubmitAction :=
  if MaxRequestBytes <? len raw then
    Err {| sr_Code := RefusalMalformedRequest;
           sr_Message := "the submission is " +:+ Itoa (len raw) +:+ " bytes, which exceeds the " +:+
             Itoa MaxRequestBytes +:+ "-byte request budget";
           sr_Field := EmptyString; sr_ActiveTurnID := EmptyString |}
  else
    match SubmitAction_UnmarshalJSON raw with
    | Err err => Err (gateway_classify err RefusalMalformedRequest)
    | Ok submission =>
        match SubmitAction_Validate submission with
        | Err err => Err (gateway_classify err RefusalInvalidField)
        | Ok _ => Ok submission
        end
    end.

(* src/internal/gateway/gateway.go#turnIDOf *)
Definition gateway_turnIDOf (turnEntityID : string) : string := last_part turnEntityID.

(* src/internal/gateway/gateway.go#Gateway.refuseIfLive *)
Definition refuseIfLive (turnEntityID : string) : MW W (option SubmitRefusal) :=
  read ← attempt (GetEntity turnEntityID);
  match read with
  | Err err =>
      if errors_Is ErrEntityNotFound err then mret None
      else throw (Errorf "read turn held by player" [err])
  | Ok state =>
      phase ← lift (wrapf "read the phase of turn held by player" (PhaseOf (Some state) turnEntityID));
      if IsTerminal phase then mret None
      else
        let activeTurnID := gateway_turnIDOf turnEntityID in
        mret (Some {| sr_Code := RefusalTurnInProgress;
                      sr_Message := "your turn " +:+ activeTurnID +:+ " is still " +:+ phase +:+
                        "; one action at a time, and this one was not taken";
                      sr_Field := EmptyString; sr_ActiveTurnID := activeTurnID |})
  end.

(** The held turns in turn, the one this action itself derives skipped. *)
(* src/internal/gateway/gateway.go:577-590 (Gateway.admit) *)
Fixpoint admit_held (turnID : string) (held : list string) : MW W (option SubmitRefusal) :=
  match held with
  | [] => mret None
  | turnEntityID :: rest =>
      match RequireTurnEntityID turnID turnEntityID with
      | Ok _ => admit_held turnID rest
      | Err _ =>
          refusal ← refuseIfLive turnEntityID;
          match refusal with
          | Some _ => mret refusal
          | None => admit_held turnID rest
          end
      end
  end.

(* src/internal/gateway/gateway.go#Gateway.admit *)
Definition admit_action (playerID turnID : string) : MW W (option SubmitRefusal) :=
  read ← attempt (GetEntity playerID);
  match read with
  | Err err =>
      if errors_Is ErrEntityNotFound err then throw (Errorf "player authenticated but their entity is gone" [])
      else throw (Errorf "read player" [err])
  | Ok state => admit_held turnID (HeldTurns (Some state)).1
  end.

(* src/internal/gateway/gateway.go#Gateway.canonical *)
Definition canonical (session : Session) (submission : SubmitAction) (actionID : string) : MW W PlayerAction :=
  at_ ← read_clock;
  mret {| pa_ActionID := actionID; pa_PlayerID := se_PlayerID session; pa_CampaignID := gc_CampaignID (gw_config g);
          pa_SceneID := gc_SceneID (gw_config g); pa_Text := sa_Text submission; pa_ArrivedAt := at_;
          pa_Channel := {| Adapter := cn_Adapter (se_Connection session); ReplyTo := cn_ReplyTo (se_Connection session) |} |}.

(* src/internal/gateway/gateway.go#Gateway.publish *)
Definition publish_action (action : PlayerAction) : MW W unit :=
  data ← lift (wrapf "marshal action" (envelope_bytes action));
  published ← attempt (PublishToStreamWithMsgID (gw_subject g) data (pa_ActionID action));
  lift (wrapf "publish action" published).

(* src/internal/gateway/gateway.go#refuse *)
Definition refuse_submission (idempotencyKey : string) (refusal : SubmitRefusal) : SubmitResponse :=
  {| sp_Protocol := PlayerProtocolV1; sp_Status := StatusRefused; sp_IdempotencyKey := idempotencyKey;
     sp_ActionID := EmptyString; sp_TurnID := EmptyString; sp_ArrivedAt := 0; sp_Refusal := Some refusal |}.

(** The answer to the client, and the error beside it. *)
Definition Answer : Type := option SubmitResponse * option error.

(* src/internal/gateway/gateway.go#Gateway.unavailable *)
Definition unavailable (idempotencyKey : string) (cause : error) : Answer :=
  (Some (refuse_submission idempotencyKey
     {| sr_Code := RefusalUnavailable;
        sr_Message := "the engine could not take this action; nothing was published, so it is safe to retry";
        sr_Field := EmptyString; sr_ActiveTurnID := EmptyString |}), Some cause).

(* src/internal/gateway/gateway.go#echoableKey *)
Definition echoableKey (raw : string) : string :=
  match submission_key raw with
  | Err _ => EmptyString
  | Ok key => match RequireIdempotencyKey key with Ok _ => key | Err _ => EmptyString end
  end.

(** From the admitted action to the answer. *)
(* src/internal/gateway/gateway.go:448-477 (Gateway.Submit) *)
Definition submit_admitted (session : Session) (submission : SubmitAction) (actionID : string) : MW W Answer :=
  let key := sa_IdempotencyKey submission in
  action ← canonical session submission actionID;
  match PlayerAction_Validate action with
  | Err err => mret (unavailable key (Errorf "the gateway composed an invalid canonical action" [err]))
  | Ok _ =>
      published ← attempt (publish_action action);
      match published with
      | Err err => mret (unavailable key err)
      | Ok _ =>
          let response := {| sp_Protocol := PlayerProtocolV1; sp_Status := StatusAccepted; sp_IdempotencyKey := key;
            sp_ActionID := actionID; sp_TurnID := TurnIDForAction actionID; sp_ArrivedAt := pa_ArrivedAt action;
            sp_Refusal := None |} in
          mret match SubmitResponse_Validate response with
               | Err err => (None, Some (Errorf "compose the acceptance for action" [err]))
               | Ok _ => (Some response, None)
               end
      end
  end.

(* src/internal/gateway/gateway.go#Gateway.Submit *)
Definition Gateway_Submit (connID raw : string) : MW W Answer :=
  s ← read_sessions;
  match get_session connID s with
  | None =>
      mret (Some (refuse_submission EmptyString
        {| sr_Code := RefusalUnauthenticated;
           sr_Message := "this connection has no session; authenticate before submitting an action";
           sr_Field := EmptyString; sr_ActiveTurnID := EmptyString |}), None)
  | Some session =>
      match decode raw with
      | Err refusal => mret (Some (refuse_submission (echoableKey raw) refusal), None)
      | Ok submission =>
          let key := sa_IdempotencyKey submission in
          match ActionIDFor (se_PlayerID session) key with
          | Err err => mret (unavailable key (Errorf "derive the action id for player" [err]))
          | Ok actionID =>
              admission ← attempt (admit_action (se_PlayerID session) (TurnIDForAction actionID));
              match admission with
              | Err err => mret (unavailable key err)
              | Ok (Some refusal) => mret (Some (refuse_submission key refusal), None)
              | Ok None => submit_admitted session submission actionID
              end
          end
      end
  end.
End gateway.
