(* ===== verification/Egress.v ===== *)
(** [internal/egress]: a player's result composed from durable state, and its
    delivery to that player's live connections. *)

From S2P Require Import Prelude GoStd GoHash GoErrors Graph Vocab Vocabulary Payload Mechanics Decisions ContentRecords ContentStore ProjectionContract Store Campaign Sequencing GraphIO Turn Resume Ledger Delivery Gateway.

Open Scope Z_scope.

(* src/internal/egress/results.go:27-27 (ErrNoTurnHistory) *)
Definition ErrNoTurnHistory : string := "player has no turn history".
(* src/internal/egress/results.go:36-36 (ErrNoResult) *)
Definition ErrNoResult : string := "no terminal result for this turn".
(* src/internal/egress/results.go:38-38 (ErrTurnNotFound) *)
Definition ErrTurnNotFound : string := "no such turn".
(* src/internal/egress/results.go:42-42 (ErrResultNotAccessible) *)
Definition ErrResultNotAccessible : string := "result is not accessible to this player".
(* src/internal/egress/results.go:52-52 (ErrNarrationMissing) *)
Definition ErrNarrationMissing : string := "the prose this result references is not in the store".
(* src/internal/egress/results.go#const MaxLatestCandidates *)
Definition MaxLatestCandidates : nat := 8.

(* src/internal/egress/results.go#type ArtifactReader *)
Class ResultArtifacts (W : Type) : Type := {
  result_GetRoll : Ref -> MW W RollResult;
  result_GetNarration : Ref -> MW W Narration;
  result_GetCompanionStageRecord : Ref -> MW W CompanionStageRecord;
  result_GetCompanionDecision : Ref -> MW W CompanionDecision
}.

(* src/internal/egress/results.go#type Results *)
Record Results : Type := { re_identity : Identity; re_campaignID : string }.

(** ** Reading the turn *)

(** The value of the last triple of the predicate; a value that is not text is
    an error, and so are several values. *)
(* src/internal/egress/results.go#soleString *)
Definition result_soleString (state : EntityState) (predicate : string) : res string :=
  let objects := objectsFor state predicate in
  _ ← all_ok (fun o => match o with AString _ => Ok tt | _ => Err (Errorf "turn records a value that is not a string" []) end)
        objects;
  match objects with
  | [] => Ok EmptyString
  | [AString value] => Ok value
  | _ => Err (Errorf "turn holds several values for the single-valued predicate" [])
  end.

Section reading.
Context `{Substrate}.

(* src/internal/egress/results.go#turnIDOf *)
Definition result_turnIDOf (turnEntityID : string) : res string :=
  _ ← wrapf "not a canonical six-part entity id" (ValidateEntityID turnEntityID);
  if negb (String.eqb (type_part turnEntityID) Turn.TurnTypeSegment) then
    Err (Errorf "has another type segment; only turns have a result" [])
  else
    let turnID := last_part turnEntityID in
    _ ← RequireTurnEntityID turnID turnEntityID;
    Ok turnID.

(* src/internal/egress/results.go#resultOwner *)
Definition resultOwner (state : EntityState) : res string :=
  playerID ← result_soleString state TurnActionPlayer;
  _ ← wrapf "turn records an invalid player" (ValidateEntityID playerID);
  Ok playerID.

(** The loop that keeps the first of each, up to the bound. *)
(* src/internal/egress/results.go:343-349 (candidateTurns) *)
Fixpoint keep_candidates (pointers candidates : list string) : list string :=
  match pointers with
  | [] => candidates
  | turnEntityID :: rest =>
      keep_candidates rest
        (if mem turnEntityID candidates || Nat.leb MaxLatestCandidates (List.length candidates) then candidates
         else candidates ++ [turnEntityID])
  end.

(* src/internal/egress/results.go#candidateTurns *)
Definition candidateTurns (player : option EntityState) : list string :=
  keep_candidates ((ResolvedTurns player).1 ++ (HeldTurns player).1) [].

(* src/internal/egress/results.go#actedBand *)
Definition actedBand (state : EntityState) (manifest : TurnManifest) (requiresRoll : bool) : res string :=
  recorded ← result_soleString state TurnRollBand;
  if negb (String.eqb recorded EmptyString) then
    band ← wrapf "turn" (ParseOutcomeBand recorded);
    _ ← require (IsRollBand band) (Errorf "turn records a roll band which the dice cannot select" []);
    Ok band
  else if negb requiresRoll && negb (String.eqb (m_EffectBatchRef manifest) EmptyString) then Ok BandAuto
  else Ok EmptyString.
End reading.

(** ** Composing *)

Section results.
Context {W : Type} `{Substrate, GraphStore W, ResultArtifacts W}.
Variable r : Results.

(* src/internal/egress/results.go#Results.read *)
Definition read_turn (turnEntityID : string) : MW W EntityState :=
  read ← attempt (GetEntity turnEntityID);
  match read with
  | Ok state => mret state
  | Err err =>
      if errors_Is ErrEntityNotFound err then throw (Errorf "read" [Sentinel ErrTurnNotFound])
      else throw (Errorf "read turn" [err])
  end.

(* src/internal/egress/results.go#Results.narration *)
Definition deliver_narration (reference : string) : MW W DeliveredNarration :=
  ref ← lift (wrapf "turn records an unresolvable narration reference" (ParseRef reference));
  read ← attempt (result_GetNarration ref);
  match read with
  | Ok stored => mret {| dn_TurnID := n_TurnID stored; dn_Band := n_Band stored; dn_Prose := n_Prose stored |}
  | Err err =>
      if errors_Is ErrArtifactNotFound err then throw (Errorf "turn references" [Sentinel ErrNarrationMissing; err])
      else throw (Errorf "resolve the narration for turn" [err])
  end.

(* src/internal/egress/results.go#Results.roll *)
Definition deliver_roll (manifest : TurnManifest) : MW W (option TurnRoll) :=
  if String.eqb (m_RollRef manifest) EmptyString then mret None
  else
    ref ← lift (wrapf "turn records an unresolvable roll reference" (ParseRef (m_RollRef manifest)));
    read ← attempt (result_GetRoll ref);
    stored ← lift (wrapf "resolve the roll for turn" read);
    if negb (String.eqb (r_TurnID stored) (m_TurnID manifest)) then throw (Errorf "the roll belongs to another turn" [])
    else mret (Some {| tr_Mechanic := r_Mechanic stored; tr_Dice := r_Dice stored; tr_Modifiers := r_Modifiers stored;
                       tr_ModifierTotal := r_ModifierTotal stored; tr_Total := r_Total stored |}).

(* src/internal/egress/results.go#Results.resolution *)
Definition deliver_resolution (state : EntityState) (manifest : TurnManifest) : MW W (option TurnResolution) :=
  match m_RollGate manifest with
  | None => mret None
  | Some gate =>
      consequence ← lift (result_soleString state TurnVerdictConsequence);
      let verdict := {| v_Plausibility := e_Plausibility gate; v_Risk := e_Risk gate; v_Consequence := consequence;
                        v_RequiresRoll := e_Reported gate |} in
      roll ← deliver_roll manifest;
      band ← lift (actedBand state manifest (v_RequiresRoll verdict));
      mret (Some {| rs_Verdict := verdict; rs_Band := band; rs_Roll := roll |})
  end.

(** The stage record the turn names, of this turn and player. *)
(* src/internal/egress/results.go:460-475 (Results.companionResolution) *)
Definition companion_record (stageReference : string) (manifest : TurnManifest) : MW W CompanionStageRecord :=
  stageRef ← lift (wrapf "turn records an unresolvable companion stage reference" (ParseRef stageReference));
  read ← attempt (result_GetCompanionStageRecord stageRef);
  record ← lift (wrapf "resolve the companion stage for turn" read);
  _ ← lift (wrapf "turn companion stage is invalid" (CompanionStageRecord_Validate (Some record)));
  if negb (String.eqb (csr_TurnID record) (m_TurnID manifest)) || negb (String.eqb (csr_PlayerID record) (m_PlayerID manifest))
  then throw (Errorf "companion stage belongs to another turn or player" [])
  else mret record.

(** The decision the record and the turn agree on, as a summary without prose. *)
(* src/internal/egress/results.go:497-528 (Results.companionResolution) *)
Definition companion_summary (decisionReference : string) (record : CompanionStageRecord) (manifest : TurnManifest)
    : MW W CompanionResolution :=
  if negb (String.eqb decisionReference (csr_DecisionRef record)) then
    throw (Errorf "turn companion decision reference disagrees with stage record reference" [])
  else
    decisionRef ← lift (wrapf "turn records an unresolvable companion decision reference" (ParseRef decisionReference));
    read ← attempt (result_GetCompanionDecision decisionRef);
    decision ← lift (wrapf "resolve the companion decision for turn" read);
    _ ← lift (wrapf "turn companion decision is invalid" (CompanionDecision_Validate (Some decision)));
    if negb (String.eqb (cmd_TurnID decision) (m_TurnID manifest)) ||
       negb (String.eqb (cmd_PlayerID decision) (m_PlayerID manifest)) ||
       negb (String.eqb (cmd_CompanionID decision) (csr_CompanionID record))
    then throw (Errorf "companion decision has another turn, player or companion" [])
    else
      let summary := {| cr_CompanionID := cmd_CompanionID decision; cr_Kind := cmd_Kind decision;
                        cr_HintLevel := cmd_HintLevel decision |} in
      _ ← lift (wrapf "turn companion summary is invalid" (CompanionResolution_Validate summary));
      mret summary.

(* src/internal/egress/results.go#Results.companionResolution *)
Definition companionResolution (state : EntityState) (manifest : TurnManifest) : MW W (option CompanionResolution) :=
  stageReference ← lift (result_soleString state TurnCompanionStageRef);
  if String.eqb stageReference EmptyString then
    if String.eqb (m_Phase manifest) PhaseComplete then throw (Errorf "complete turn carries no companion stage" [])
    else mret None
  else
    record ← companion_record stageReference manifest;
    decisionReference ← lift (result_soleString state TurnCompanionDecisionRef);
    let decided := negb (String.eqb decisionReference EmptyString) in
    if mem (csr_Status record) [CompanionStageNoActiveBond; CompanionStageNoTrigger] then
      match decided with
      | true => throw (Errorf "turn companion stage status forbids decision reference" [])
      | false => mret None
      end
    else if mem (csr_Status record) [CompanionStageDecision; CompanionStageExhausted] then
      match decided with
      | false => throw (Errorf "turn companion stage status requires a decision reference" [])
      | true =>
          summary ← companion_summary decisionReference record manifest;
          mret (Some summary)
      end
    else throw (Errorf "turn companion stage has unsupported status" []).

(* src/internal/egress/results.go#Results.compose *)
Definition compose_result (turnID turnEntityID : string) (state : EntityState) : MW W TurnResult :=
  phase ← lift (PhaseOf (Some state) turnEntityID);
  if negb (IsTerminal phase) then throw (Errorf "turn is not terminal" [Sentinel ErrNoResult])
  else
    manifest ← lift (Compose turnID (Some state) (re_campaignID r));
    resolution ← deliver_resolution state manifest;
    companion ← companionResolution state manifest;
    let result := {|
      rt_Protocol := PlayerProtocolV1; rt_TurnID := m_TurnID manifest; rt_ActionID := m_ActionID manifest;
      rt_PlayerID := m_PlayerID manifest; rt_Phase := m_Phase manifest; rt_Resolution := resolution;
      rt_CompanionResolution := companion; rt_NarrationRef := m_NarrationRef manifest;
      rt_FailureReason := m_FailureReason manifest; rt_ResolvedAt := m_RecordedAt manifest |} in
    _ ← lift (wrapf "turn does not compose a coherent result" (TurnResult_Validate result));
    mret result.

(* src/internal/egress/results.go#Results.deliverable *)
Definition deliverable (turnID turnEntityID : string) (state : EntityState) : MW W TurnDelivery :=
  result ← compose_result turnID turnEntityID state;
  narration ← (if String.eqb (rt_NarrationRef result) EmptyString then mret None
               else
                 narration ← deliver_narration (rt_NarrationRef result);
                 mret (Some narration));
  let delivery := {| td_Protocol := PlayerProtocolV1; td_Result := Some result; td_Narration := narration |} in
  _ ← lift (wrapf "turn does not compose a coherent delivery" (TurnDelivery_Validate delivery));
  mret delivery.

(** ** Looking up *)

(* src/internal/egress/results.go#Results.ByTurn *)
Definition ByTurn (turnID : string) : MW W TurnDelivery :=
  turnEntityID ← lift (EntityID (re_identity r) turnID);
  state ← read_turn turnEntityID;
  deliverable turnID turnEntityID state.

(* src/internal/egress/results.go#Results.ByTurnForPlayer *)
Definition ByTurnForPlayer (playerID turnID : string) : MW W TurnDelivery :=
  _ ← lift (wrapf "a scoped result lookup needs a player entity id" (ValidateEntityID playerID));
  turnEntityID ← lift (EntityID (re_identity r) turnID);
  state ← read_turn turnEntityID;
  owner ← lift (resultOwner state);
  if negb (String.eqb owner playerID) then throw (Errorf "turn" [Sentinel ErrResultNotAccessible])
  else deliverable turnID turnEntityID state.

(* src/internal/egress/results.go#Results.ByAction *)
Definition ByAction (actionID : string) : MW W TurnDelivery :=
  _ ← lift (RequireActionID actionID);
  ByTurn (TurnIDForAction actionID).

(* src/internal/egress/results.go#Results.ByActionForPlayer *)
Definition ByActionForPlayer (playerID actionID : string) : MW W TurnDelivery :=
  _ ← lift (RequireActionID actionID);
  ByTurnForPlayer playerID (TurnIDForAction actionID).

(** When a delivery's turn ended. *)
Definition resolved_at (d : TurnDelivery) : time := match td_Result d with Some result => rt_ResolvedAt result | None => 0 end.

(* src/internal/egress/results.go:306-308 (Results.Latest) *)
Definition newer (best : option TurnDelivery) (delivery : TurnDelivery) : option TurnDelivery :=
  match best with
  | None => Some delivery
  | Some b => if resolved_at b <? resolved_at delivery then Some delivery else best
  end.

(** The candidates, one after the other: skipped, refused or compared. *)
(* src/internal/egress/results.go:271-309 (Results.Latest) *)
Fixpoint latest_of (playerID : string) (candidates : list string) (best : option TurnDelivery)
    : MW W (option TurnDelivery) :=
  match candidates with
  | [] => mret best
  | turnEntityID :: rest =>
      match result_turnIDOf turnEntityID with
      | Err _ => latest_of playerID rest best
      | Ok turnID =>
          read ← attempt (read_turn turnEntityID);
          match read with
          | Err err => if errors_Is ErrTurnNotFound err then latest_of playerID rest best else throw err
          | Ok state =>
              owner ← lift (resultOwner state);
              if negb (String.eqb owner playerID) then latest_of playerID rest best
              else
                composed ← attempt (deliverable turnID turnEntityID state);
                match composed with
                | Err err => if errors_Is ErrNoResult err then latest_of playerID rest best else throw err
                | Ok delivery => latest_of playerID rest (newer best delivery)
                end
          end
      end
  end.

(* src/internal/egress/results.go#Results.Latest *)
Definition Latest (playerID : string) : MW W TurnDelivery :=
  _ ← lift (wrapf "a result lookup needs a player entity id" (ValidateEntityID playerID));
  read ← attempt (GetEntity playerID);
  match read with
  | Err err =>
      if errors_Is ErrEntityNotFound err then throw (Errorf "player is not an entity of this world" [Sentinel ErrNoResult])
      else throw (Errorf "read player" [err])
  | Ok player =>
      let candidates := candidateTurns (Some player) in
      if Nat.eqb (List.length candidates) 0 then throw (Errorf "player" [Sentinel ErrNoTurnHistory])
      else
        best ← latest_of playerID candidates None;
        match best with
        | None => throw (Errorf "player has finished no turn" [Sentinel ErrNoResult])
        | Some delivery => mret delivery
        end
  end.

(** ** Delivering *)

(** [Directory] and [Sink]: the gateway's sessions, and the socket. *)
(* src/internal/egress/router.go#type Sink *)
Class Sink (W : Type) : Type := { sink_Deliver : Session -> TurnDelivery -> MW W unit }.
Context `{HasSessions W, Sink W}.

(* src/internal/egress/router.go#type Outcome *)
Record RouteOutcome : Type := { ro_PlayerID : string; ro_Recipients : Z }.

(** Every session is tried; the failures are collected. *)
(* src/internal/egress/router.go:154-163 (Router.Deliver) *)
Fixpoint deliver_each (delivery : TurnDelivery) (recipients : list Session) (sent : Z) (errs : list error)
    : MW W (Z * list error) :=
  match recipients with
  | [] => mret (sent, errs)
  | session :: rest =>
      delivered ← attempt (sink_Deliver session delivery);
      match delivered with
      | Ok _ => deliver_each delivery rest (sent + 1) errs
      | Err err => deliver_each delivery rest sent (errs ++ [Errorf "deliver turn to player on connection" [err]])
      end
  end.

(** The outcome, and the joined errors beside it. *)
(* src/internal/egress/router.go#Router.Deliver *)
Definition Router_Deliver (delivery : option TurnDelivery) : MW W (RouteOutcome * option error) :=
  match delivery with
  | None => throw (Errorf "delivery requires a document" [])
  | Some delivery =>
      _ ← lift (wrapf "refusing to deliver an incoherent result" (TurnDelivery_Validate delivery));
      let playerID := match td_Result delivery with Some result => rt_PlayerID result | None => EmptyString end in
      sessions ← Gateway_SessionsFor playerID;
      if Nat.eqb (List.length sessions) 0 then mret ({| ro_PlayerID := playerID; ro_Recipients := 0 |}, None)
      else
        tried ← deliver_each delivery sessions 0 [];
        let '(sent, errs) := tried in
        mret ({| ro_PlayerID := playerID; ro_Recipients := sent |},
              match errs with [] => None | _ => Some (Errorf "join" errs) end)
  end.

(* src/internal/egress/notifier.go#Notifier.Handle *)
Definition Notifier_Handle (decoded : res rulePublication) : MW W unit :=
  match ParseResolvedEvent decoded with
  | Err err => throw (TerminateDelivery err)
  | Ok event =>
      found ← attempt (ByTurn (re_TurnID event));
      match found with
      | Err err =>
          if errors_Is ErrNoResult err then throw (Errorf "turn has not resolved yet from this reader's view" [err])
          else if errors_Is ErrTurnNotFound err then throw (TerminateDelivery err)
          else if errors_Is ErrNarrationMissing err then throw (TerminateDelivery err)
          else throw (Errorf "compose the result for turn" [err])
      | Ok delivery =>
          routed ← attempt (Router_Deliver (Some delivery));
          match routed with
          | Ok (_, None) => mret tt
          | Ok (_, Some err) | Err err => throw (Errorf "deliver turn" [err])
          end
      end
  end.
End results.
