(* ===== verification/PlayerSocket.v ===== *)
(** [internal/playersocket]: the WebSocket adapter - its frames, the retrieval
    requests it answers, one socket's writes, and the life of a connection from
    its handshake to its end. *)

From S2P Require Import Prelude GoStd GoHash GoErrors Graph Vocab Vocabulary Payload Store GraphIO Turn Sequencing Ledger Delivery Gateway Egress.

Open Scope Z_scope.

(** ** Undispatchable operations *)

(* src/internal/playersocket/operation.go#const OperationRefused *)
Definition OperationRefused : string := "refused".
(* src/internal/playersocket/operation.go#const OperationMalformed *)
Definition OperationMalformed : string := "malformed_operation".
(* src/internal/playersocket/operation.go#const OperationUnsupported *)
Definition OperationUnsupported : string := "unsupported_operation".

(* src/internal/playersocket/operation.go#type OperationRefusal *)
Record OperationRefusal : Type := { or_Code : string; or_Operation : string; or_Message : string }.
(* src/internal/playersocket/operation.go#type OperationResponse *)
Record OperationResponse : Type := { op_Protocol : string; op_Status : string; op_Refusal : option OperationRefusal }.

(* src/internal/playersocket/operation.go#OperationResponse.Validate *)
Definition OperationResponse_Validate (r : OperationResponse) : res unit :=
  _ ← ParsePlayerProtocolVersion (op_Protocol r);
  if negb (String.eqb (op_Status r) OperationRefused) then Err (Errorf "operation status is another" [])
  else
    match op_Refusal r with
    | None => Err (Errorf "an operation refusal carries no diagnosis" [])
    | Some refusal =>
        if negb (String.eqb (or_Code refusal) OperationMalformed) && negb (String.eqb (or_Code refusal) OperationUnsupported) then
          Err (Errorf "operation refusal code is not recognized" [])
        else if String.eqb (or_Code refusal) OperationMalformed && negb (String.eqb (or_Operation refusal) EmptyString) then
          Err (Errorf "a malformed non-string operation cannot carry an operation name" [])
        else if String.eqb (or_Code refusal) OperationUnsupported && String.eqb (or_Operation refusal) EmptyString then
          Err (Errorf "an unsupported operation refusal carries no operation name" [])
        else if String.eqb (or_Message refusal) EmptyString then
          Err (Errorf "an operation refusal carries no message" [])
        else Ok tt
    end.

(* src/internal/playersocket/operation.go#operationRefused *)
Definition operationRefused (operation code message : string) : OperationResponse :=
  {| op_Protocol := PlayerProtocolV1; op_Status := OperationRefused;
     op_Refusal := Some {| or_Code := code; or_Operation := operation; or_Message := message |} |}.

(** ** Retrieval *)

(* src/internal/playersocket/retrieval.go#const RequestRetrieve *)
Definition RequestRetrieve : string := "retrieve_result".
(* src/internal/playersocket/retrieval.go#const RetrieveByTurn *)
Definition RetrieveByTurn : string := "turn".
(* src/internal/playersocket/retrieval.go#const RetrieveByAction *)
Definition RetrieveByAction : string := "action".
(* src/internal/playersocket/retrieval.go#const RetrieveLatest *)
Definition RetrieveLatest : string := "latest".
(* src/internal/playersocket/retrieval.go#var retrieveBys *)
Definition retrieveBys : list string := [RetrieveByTurn; RetrieveByAction; RetrieveLatest].

(* src/internal/playersocket/retrieval.go#type RetrieveRequest *)
Record RetrieveRequest : Type := { rq_Protocol : string; rq_Type : string; rq_By : string; rq_ID : string }.

(* src/internal/playersocket/retrieval.go#const RetrieveFound *)
Definition RetrieveFound : string := "found".
(* src/internal/playersocket/retrieval.go#const RetrieveRefused *)
Definition RetrieveRefused : string := "refused".
(* src/internal/playersocket/retrieval.go#const RetrieveMalformed *)
Definition RetrieveMalformed : string := "malformed_request".
(* src/internal/playersocket/retrieval.go#const RetrieveNotFound *)
Definition RetrieveNotFound : string := "not_found".
(* src/internal/playersocket/retrieval.go#const RetrieveNotReady *)
Definition RetrieveNotReady : string := "not_ready".
(* src/internal/playersocket/retrieval.go#const RetrieveUnavailable *)
Definition RetrieveUnavailable : string := "unavailable".
(* src/internal/playersocket/retrieval.go#var retrieveRefusalCodes *)
Definition retrieveRefusalCodes : list string := [RetrieveMalformed; RetrieveNotFound; RetrieveNotReady; RetrieveUnavailable].

(* src/internal/playersocket/retrieval.go#type RetrieveRefusal *)
Record RetrieveRefusal : Type := { rf_Code : string; rf_Message : string }.
(* src/internal/playersocket/retrieval.go#type RetrieveResponse *)
Record RetrieveResponse : Type := {
  rp_Protocol : string; rp_Status : string; rp_By : string; rp_ID : string; rp_Delivery : option TurnDelivery;
  rp_Refusal : option RetrieveRefusal }.

(* src/internal/playersocket/retrieval.go#RetrieveRefusal.Validate *)
Definition RetrieveRefusal_Validate (r : option RetrieveRefusal) : res unit :=
  match r with
  | None => Err (Errorf "a refused retrieval carries no refusal" [])
  | Some r =>
      _ ← require (mem (rf_Code r) retrieveRefusalCodes) (Errorf "retrieval refusal code is not one of the closed set" []);
      require (negb (String.eqb (rf_Message r) EmptyString)) (Errorf "a retrieval refusal carries no message" [])
  end.

(* src/internal/playersocket/retrieval.go#retrievalFound *)
Definition retrievalFound (request : RetrieveRequest) (delivery : TurnDelivery) : RetrieveResponse :=
  {| rp_Protocol := PlayerProtocolV1; rp_Status := RetrieveFound; rp_By := rq_By request; rp_ID := rq_ID request;
     rp_Delivery := Some delivery; rp_Refusal := None |}.

(* src/internal/playersocket/retrieval.go#retrievalRefused *)
Definition retrievalRefused (by_ id code message : string) : RetrieveResponse :=
  let '(by_, id) := if mem by_ retrieveBys then (by_, id) else (RetrieveLatest, EmptyString) in
  {| rp_Protocol := PlayerProtocolV1; rp_Status := RetrieveRefused; rp_By := by_; rp_ID := id; rp_Delivery := None;
     rp_Refusal := Some {| rf_Code := code; rf_Message := message |} |}.

Section lookups.
Context `{Substrate}.

(** The identifier a lookup by turn or by action names. *)
(* src/internal/playersocket/retrieval.go:66-79 (RetrieveRequest.Validate) *)
Definition check_lookup_id (by_ id : string) : res unit :=
  if String.eqb by_ RetrieveByTurn then _ ← wrapf "id" (ActionIDForTurn id); Ok tt
  else if String.eqb by_ RetrieveByAction then wrapf "id" (RequireActionID id)
  else Ok tt.

(* src/internal/playersocket/retrieval.go#RetrieveRequest.Validate *)
Definition RetrieveRequest_Validate (r : RetrieveRequest) : res unit :=
  _ ← ParsePlayerProtocolVersion (rq_Protocol r);
  _ ← require (String.eqb (rq_Type r) RequestRetrieve) (Errorf "request type is another" []);
  _ ← require (mem (rq_By r) retrieveBys) (Errorf "retrieval key is not one of the closed set" []);
  if String.eqb (rq_By r) RetrieveLatest then
    require (String.eqb (rq_ID r) EmptyString) (Errorf "a latest retrieval carries no id" [])
  else check_lookup_id (rq_By r) (rq_ID r).

(** A found answer carries its delivery, and the one that was looked up. *)
(* src/internal/playersocket/retrieval.go:218-231 (RetrieveResponse.Validate) *)
Definition check_found (r : RetrieveResponse) : res unit :=
  match rp_Delivery r, rp_Refusal r with
  | Some delivery, None =>
      _ ← TurnDelivery_Validate delivery;
      match td_Result delivery with
      | None => Ok tt
      | Some result =>
          _ ← require (negb (String.eqb (rp_By r) RetrieveByTurn && negb (String.eqb (rt_TurnID result) (rp_ID r))))
                (Errorf "turn lookup returned another turn" []);
          require (negb (String.eqb (rp_By r) RetrieveByAction && negb (String.eqb (rt_ActionID result) (rp_ID r))))
            (Errorf "action lookup returned another action" [])
      end
  | _, _ => Err (Errorf "a found retrieval carries exactly one delivery and no refusal" [])
  end.

(* src/internal/playersocket/retrieval.go#RetrieveResponse.Validate *)
Definition RetrieveResponse_Validate (r : RetrieveResponse) : res unit :=
  _ ← ParsePlayerProtocolVersion (rp_Protocol r);
  _ ← require (mem (rp_By r) retrieveBys) (Errorf "retrieval key is not one of the closed set" []);
  let latest := String.eqb (rp_By r) RetrieveLatest in
  let unnamed := String.eqb (rp_ID r) EmptyString in
  _ ← require (negb (latest && negb unnamed)) (Errorf "a latest retrieval response carries no requested id" []);
  _ ← require (negb (negb latest && unnamed)) (Errorf "a named retrieval response carries no requested id" []);
  _ ← check_lookup_id (rp_By r) (rp_ID r);
  if String.eqb (rp_Status r) RetrieveFound then check_found r
  else if String.eqb (rp_Status r) RetrieveRefused then
    match rp_Delivery r with
    | Some _ => Err (Errorf "a refused retrieval also carries a delivery" [])
    | None => RetrieveRefusal_Validate (rp_Refusal r)
    end
  else Err (Errorf "retrieval status is neither" []).
End lookups.

(** ** Frames *)

(* src/internal/playersocket/frame.go#const FrameSubmitResponse *)
Definition FrameSubmitResponse : string := "submit_response".
(* src/internal/playersocket/frame.go#const FrameTurnDelivery *)
Definition FrameTurnDelivery : string := "turn_delivery".
(* src/internal/playersocket/frame.go#const FrameRetrieveResponse *)
Definition FrameRetrieveResponse : string := "retrieve_response".
(* src/internal/playersocket/frame.go#const FrameOperationResponse *)
Definition FrameOperationResponse : string := "operation_response".
(* src/internal/playersocket/frame.go#var frameTypes *)
Definition frameTypes : list string := [FrameSubmitResponse; FrameTurnDelivery; FrameRetrieveResponse; FrameOperationResponse].

(* src/internal/playersocket/frame.go#type Frame *)
Record Frame : Type := {
  fr_Protocol : string; fr_Type : string; fr_Response : option SubmitResponse; fr_Delivery : option TurnDelivery;
  fr_Retrieval : option RetrieveResponse; fr_Operation : option OperationResponse }.

(* src/internal/playersocket/frame.go#responseFrame *)
Definition responseFrame (response : option SubmitResponse) : Frame :=
  {| fr_Protocol := PlayerProtocolV1; fr_Type := FrameSubmitResponse; fr_Response := response; fr_Delivery := None;
     fr_Retrieval := None; fr_Operation := None |}.
(* src/internal/playersocket/frame.go#deliveryFrame *)
Definition deliveryFrame (delivery : option TurnDelivery) : Frame :=
  {| fr_Protocol := PlayerProtocolV1; fr_Type := FrameTurnDelivery; fr_Response := None; fr_Delivery := delivery;
     fr_Retrieval := None; fr_Operation := None |}.
(* src/internal/playersocket/frame.go#retrievalFrame *)
Definition retrievalFrame (response : RetrieveResponse) : Frame :=
  {| fr_Protocol := PlayerProtocolV1; fr_Type := FrameRetrieveResponse; fr_Response := None; fr_Delivery := None;
     fr_Retrieval := Some response; fr_Operation := None |}.
(* src/internal/playersocket/frame.go#operationFrame *)
Definition operationFrame (response : OperationResponse) : Frame :=
  {| fr_Protocol := PlayerProtocolV1; fr_Type := FrameOperationResponse; fr_Response := None; fr_Delivery := None;
     fr_Retrieval := None; fr_Operation := Some response |}.

Definition absent {A} (o : option A) : bool := match o with None => true | Some _ => false end.

(* src/internal/playersocket/frame.go#Frame.Validate *)
Definition Frame_Validate `{Substrate} (f : Frame) : res unit :=
  _ ← ParsePlayerProtocolVersion (fr_Protocol f);
  _ ← require (mem (fr_Type f) frameTypes) (Errorf "frame type is not one of the closed set" []);
  let also what := Errorf what [] in
  if String.eqb (fr_Type f) FrameSubmitResponse then
    match fr_Response f with
    | None => Err (Errorf "a submit_response frame carries no response" [])
    | Some response =>
        _ ← require (absent (fr_Delivery f)) (also "a submit_response frame also carries a turn delivery"%string);
        _ ← require (absent (fr_Retrieval f)) (also "a submit_response frame also carries a retrieval response"%string);
        _ ← require (absent (fr_Operation f)) (also "a submit_response frame also carries an operation response"%string);
        SubmitResponse_Validate response
    end
  else if String.eqb (fr_Type f) FrameTurnDelivery then
    match fr_Delivery f with
    | None => Err (Errorf "a turn_delivery frame carries no delivery" [])
    | Some delivery =>
        _ ← require (absent (fr_Response f)) (also "a turn_delivery frame also carries a submit response"%string);
        _ ← require (absent (fr_Retrieval f)) (also "a turn_delivery frame also carries a retrieval response"%string);
        _ ← require (absent (fr_Operation f)) (also "a turn_delivery frame also carries an operation response"%string);
        TurnDelivery_Validate delivery
    end
  else if String.eqb (fr_Type f) FrameRetrieveResponse then
    match fr_Retrieval f with
    | None => Err (Errorf "a retrieve_response frame carries no retrieval response" [])
    | Some retrieval =>
        _ ← require (absent (fr_Response f) && absent (fr_Delivery f) && absent (fr_Operation f))
              (also "a retrieve_response frame also carries an unrelated document"%string);
        RetrieveResponse_Validate retrieval
    end
  else
    match fr_Operation f with
    | None => Err (Errorf "an operation_response frame carries no operation response" [])
    | Some operation =>
        _ ← require (absent (fr_Response f) && absent (fr_Delivery f) && absent (fr_Retrieval f))
              (also "an operation_response frame also carries an unrelated document"%string);
        OperationResponse_Validate operation
    end.

(** ** Text

    [encoding/json] on the documents of the socket: a frame's text; the members
    of an object, each by its own text; a token's string; a request read under
    [DisallowUnknownFields], and beside it how a second document reads. *)
Class SocketText : Type := {
  marshal_frame : Frame -> res string;
  object_members : string -> res (gmap string string);
  string_token : string -> res string;
  request_stream : string -> res (RetrieveRequest * res unit)
}.
Definition EOF : string := "EOF".
Definition quote_mark : string := String "034"%char EmptyString.

Section text.
Context `{Substrate, SocketText}.

(* src/internal/playersocket/frame.go#Frame.encode *)
Definition Frame_encode (f : Frame) : res string :=
  _ ← wrapf "refusing to send an incoherent frame" (Frame_Validate f);
  wrapf "encode the frame" (marshal_frame f).

(* src/internal/playersocket/retrieval.go#decodeRetrieveRequest *)
Definition decodeRetrieveRequest (raw : string) : res RetrieveRequest :=
  stream ← request_stream raw;
  let '(request, second) := stream in
  match second with
  | Ok _ => Err (Errorf "a retrieval frame carries more than one JSON document" [])
  | Err err =>
      if negb (errors_Is EOF err) then Err err
      else _ ← RetrieveRequest_Validate request; Ok request
  end.

(** The operation; whether the document has a type at all, and what is wrong
    with it. *)
(* src/internal/playersocket/retrieval.go#inspectRequestType *)
Definition inspectRequestType (raw : string) : string * bool * option error :=
  match object_members raw with
  | Err err => (EmptyString, false, Some err)
  | Ok document =>
      match document !! "type"%string with
      | None => (EmptyString, false, None)
      | Some encoded =>
          let token := TrimSpace encoded in
          if negb (HasPrefix token quote_mark) then
            (EmptyString, true, Some (Errorf "the operation type must be a JSON string" []))
          else
            match string_token token with
            | Err err => (EmptyString, true, Some err)
            | Ok operation =>
                if String.eqb operation EmptyString then
                  (EmptyString, true, Some (Errorf "the operation type must be a non-empty JSON string" []))
                else (operation, true, None)
            end
      end
  end.
End text.

(** ** One socket *)

(* src/internal/playersocket/conn.go#var ErrConnectionClosed *)
Definition ErrConnectionClosed : string := "the connection is closed".

(** What the transport holds in memory: the counter of connection identifiers,
    and the sockets it has closed. *)
Record Transport : Type := { tp_counter : Z; tp_closed : gset string }.
Class HasTransport (W : Type) : Type := { transport_of : W -> Transport; with_transport : Transport -> W -> W }.

(** The calls of the WebSocket library on one connection. *)
Class WebSocket (W : Type) : Type := {
  ws_Upgrade : MW W unit;
  ws_SetWriteDeadline : string -> MW W unit;
  ws_WriteMessage : string -> string -> MW W unit;
  ws_WriteControl : string -> Z -> string -> MW W unit;
  ws_Close : string -> MW W unit
}.
Definition ClosePolicyViolation : Z := 1008.
Definition CloseInternalServerErr : Z := 1011.

Section conn.
Context {W : Type} `{Substrate, SocketText, Ctx W, HasTransport W, WebSocket W}.

Definition is_closed (id : string) : MW W bool := fun w => (Ok (bool_decide (id ∈ tp_closed (transport_of w))), w).
Definition mark_closed (id : string) : MW W unit := fun w =>
  let t := transport_of w in
  (Ok tt, with_transport {| tp_counter := tp_counter t; tp_closed := {[ id ]} ∪ tp_closed t |} w).

(* src/internal/playersocket/conn.go#conn.closeLocked *)
Definition closeLocked (id : string) : MW W unit :=
  closed ← is_closed id;
  if closed : bool then mret tt
  else
    _ ← mark_closed id;
    _ ← attempt (ws_Close id);
    mret tt.

(* src/internal/playersocket/conn.go#conn.Write *)
Definition conn_Write (id document : string) : MW W unit :=
  alive ← attempt ctx_Err;
  _ ← lift (wrapf "write to connection" alive);
  closed ← is_closed id;
  if closed : bool then throw (Errorf "write to connection" [Sentinel ErrConnectionClosed])
  else
    deadline ← attempt (ws_SetWriteDeadline id);
    _ ← lift (wrapf "set the write deadline on connection" deadline);
    written ← attempt (ws_WriteMessage id document);
    match written with
    | Ok _ => mret tt
    | Err err =>
        _ ← closeLocked id;
        throw (Errorf "write to connection" [err])
    end.

(* src/internal/playersocket/conn.go#conn.send *)
Definition conn_send (id : string) (frame : Frame) : MW W unit :=
  document ← lift (Frame_encode frame);
  conn_Write id document.

(* src/internal/playersocket/conn.go#conn.close *)
Definition conn_close (id : string) : MW W unit := closeLocked id.

(* src/internal/playersocket/conn.go#conn.closeWith *)
Definition conn_closeWith (id : string) (code : Z) (reason : string) : MW W unit :=
  closed ← is_closed id;
  if closed : bool then mret tt
  else
    _ ← attempt (ws_WriteControl id code reason);
    closeLocked id.

(** A session is written to through the connection it names. *)
(* src/internal/playersocket/sink.go#Sink.Deliver *)
Definition Sink_Deliver (session : Session) (delivery : option TurnDelivery) : MW W unit :=
  match delivery with
  | None => throw (Errorf "the player socket was asked to deliver nothing" [])
  | Some _ =>
      if negb (String.eqb (cn_Adapter (se_Connection session)) AdapterWebSocket) then
        throw (Errorf "the player socket was handed another adapter's session" [])
      else
        match cn_Writer (se_Connection session) with
        | None => throw (Errorf "the session has no live writer" [])
        | Some writer =>
            document ← lift (Frame_encode (deliveryFrame delivery));
            conn_Write writer document
        end
  end.
End conn.

(** ** The server *)

(* src/internal/playersocket/server.go#type Config *)
Record SocketConfig : Type := { sc_Addr : string; sc_Path : string; sc_AllowNonLoopback : bool }.

(* src/internal/playersocket/server.go#type ResultRetriever *)
Record ResultRetriever (W : Type) : Type := {
  rr_ByTurnForPlayer : string -> string -> MW W TurnDelivery;
  rr_ByActionForPlayer : string -> string -> MW W TurnDelivery;
  rr_Latest : string -> MW W TurnDelivery }.
Arguments rr_ByTurnForPlayer {W}. Arguments rr_ByActionForPlayer {W}. Arguments rr_Latest {W}.

(** The durations of the options are in nanoseconds; the nonce is the text of
    the eight random bytes. *)
(* src/internal/playersocket/server.go#type Server *)
Record Server (W : Type) : Type := {
  sv_results : option (ResultRetriever W); sv_config : SocketConfig;
  sv_pingInterval : Z; sv_pongTimeout : Z; sv_writeTimeout : Z; sv_nonce : string }.
Arguments sv_results {W}. Arguments sv_config {W}. Arguments sv_pingInterval {W}. Arguments sv_pongTimeout {W}.
Arguments sv_writeTimeout {W}. Arguments sv_nonce {W}.

(* src/internal/playersocket/server.go#const DefaultPath *)
Definition DefaultPath : string := "/play".
(* src/internal/playersocket/server.go#const credentialScheme *)
Definition credentialScheme : string := "Bearer ".

(** [net] and [net/netip]: the host of an address, whether a host is a loopback
    literal, and whether the peer of a request is one. *)
Class NetAddresses : Type := {
  split_host : string -> res string; loopback_literal : string -> bool; loopback_peer : string -> bool }.

Section addresses.
Context `{NetAddresses}.

(* src/internal/playersocket/server.go#isLoopbackHost *)
Definition isLoopbackHost (host : string) : bool := String.eqb host "localhost" || loopback_literal host.

(* src/internal/playersocket/server.go#Server.checkConfiguredAddr *)
Definition checkConfiguredAddr (config : SocketConfig) : res unit :=
  if String.eqb (sc_Addr config) EmptyString then Ok tt
  else
    host ← wrapf "the player socket address is not host:port" (split_host (sc_Addr config));
    require (isLoopbackHost host || sc_AllowNonLoopback config)
      (Errorf "the player socket refuses to bind an address that is not loopback" []).

(** A listener's address: a TCP address is loopback or not; of any other it
    cannot be told. *)
(* src/internal/playersocket/server.go#Server.checkBoundAddr *)
Definition checkBoundAddr (config : SocketConfig) (tcp_loopback : option bool) : res unit :=
  match tcp_loopback with
  | None => require (sc_AllowNonLoopback config) (Errorf "the player socket refuses what it cannot prove to be loopback" [])
  | Some loopback =>
      require (loopback || sc_AllowNonLoopback config)
        (Errorf "the player socket refuses to serve on an address reachable from off this box" [])
  end.

(* src/internal/playersocket/server.go#NewServer *)
Definition NewServer {W} (config : SocketConfig) (results : option (ResultRetriever W)) (ping pong write : Z)
    (nonce : res (list Z)) : res (Server W) :=
  let config := {| sc_Addr := sc_Addr config;
                   sc_Path := if String.eqb (sc_Path config) EmptyString then DefaultPath else sc_Path config;
                   sc_AllowNonLoopback := sc_AllowNonLoopback config |} in
  _ ← require (HasPrefix (sc_Path config) "/") (Errorf "the player socket path must begin with a slash" []);
  bytes ← wrapf "the player socket could not seed its connection-id nonce" nonce;
  _ ← require (0 <? ping) (Errorf "the player socket requires a positive ping interval" []);
  _ ← require (0 <? pong) (Errorf "the player socket requires a positive pong timeout" []);
  _ ← require (0 <? write) (Errorf "the player socket requires a positive write timeout" []);
  _ ← checkConfiguredAddr config;
  Ok {| sv_results := results; sv_config := config; sv_pingInterval := ping; sv_pongTimeout := pong;
        sv_writeTimeout := write; sv_nonce := EncodeToString bytes |}.

(* src/internal/playersocket/server.go#Server.peerIsAllowed *)
Definition peerIsAllowed (config : SocketConfig) (remote : string) : bool :=
  loopback_peer remote || sc_AllowNonLoopback config.
End addresses.

(** ** Serving *)

Definition ascii_lower (b : Z) : Z := if (65 <=? b) && (b <=? 90) then b + 32 else b.
(** [strings.EqualFold] against a text of ASCII letters that fold among
    themselves only. *)
Definition EqualFold_ascii (s t : string) : bool :=
  bool_decide (map ascii_lower (bytes_of s) = map ascii_lower (bytes_of t)).

(** The credential of the header, when it is a bearer's and not blank. *)
(* src/internal/playersocket/server.go#bearerCredential *)
Definition bearerCredential (header : string) : option string :=
  if (len header <=? len credentialScheme) ||
     negb (EqualFold_ascii (substring 0 (String.length credentialScheme) header) credentialScheme) then None
  else
    let credential := TrimSpace (substring (String.length credentialScheme) (String.length header) header) in
    if String.eqb credential EmptyString then None else Some credential.

(* src/internal/playersocket/server.go#refusal *)
Definition socket_refusal (reason : SubmitRefusal) : SubmitResponse :=
  {| sp_Protocol := PlayerProtocolV1; sp_Status := StatusRefused; sp_IdempotencyKey := EmptyString;
     sp_ActionID := EmptyString; sp_TurnID := EmptyString; sp_ArrivedAt := 0; sp_Refusal := Some reason |}.

(** A message off the wire: a text frame or a binary one, and its payload. *)
Record Message : Type := { ms_Text : bool; ms_Raw : string }.

(** What the handshake reads of an HTTP request. *)
Record Handshake : Type := { hs_Path : string; hs_Remote : string; hs_Authorization : string }.

(** How a handshake ends: answered with a status, left to the upgrader's own
    answer, or a socket that was served. *)
Inductive handshake_end : Type :=
| Answered (status : Z)
| NotUpgraded
| Served.
Definition StatusNotFound : Z := 404.
Definition StatusForbidden : Z := 403.
Definition StatusUnauthorized : Z := 401.
Definition StatusServiceUnavailable : Z := 503.

Section server.
Context {W : Type} `{Substrate, SocketText, NetAddresses, GraphStore W, Clock W, Authenticator W, HasSessions W,
  ActionEnvelope, ActionPublisher W, SubmissionText, Ctx W, HasTransport W, WebSocket W}.
Variable g : Gateway.
Variable s : Server W.

(** An atomic 64-bit counter. *)
(* src/internal/playersocket/server.go#Server.mintConnectionID *)
Definition mintConnectionID : MW W string := fun w =>
  let t := transport_of w in
  let counter := (tp_counter t + 1) mod 2 ^ 64 in
  (Ok ("ws-" +:+ sv_nonce s +:+ "-" +:+ Itoa counter),
   with_transport {| tp_counter := counter; tp_closed := tp_closed t |} w).

(** The lookup of a request, by its key. *)
(* src/internal/playersocket/server.go:656-664 (Server.retrieve) *)
Definition look_up (results : ResultRetriever W) (playerID : string) (request : RetrieveRequest) : MW W (option TurnDelivery) :=
  if String.eqb (rq_By request) RetrieveByTurn then d ← rr_ByTurnForPlayer results playerID (rq_ID request); mret (Some d)
  else if String.eqb (rq_By request) RetrieveByAction then
    d ← rr_ByActionForPlayer results playerID (rq_ID request); mret (Some d)
  else if String.eqb (rq_By request) RetrieveLatest then d ← rr_Latest results playerID; mret (Some d)
  else mret None.

(** The answer to a lookup's outcome. *)
(* src/internal/playersocket/server.go:665-690 (Server.retrieve) *)
Definition answer_lookup (playerID : string) (request : RetrieveRequest) (found : res (option TurnDelivery))
    : RetrieveResponse :=
  let refused := retrievalRefused (rq_By request) (rq_ID request) in
  let unavailable := refused RetrieveUnavailable "the result could not be retrieved" in
  match found with
  | Err err =>
      if errors_Is ErrNoTurnHistory err || errors_Is ErrTurnNotFound err || errors_Is ErrResultNotAccessible err then
        refused RetrieveNotFound "no accessible result exists for that lookup"
      else if errors_Is ErrNoResult err then refused RetrieveNotReady "that lookup has no terminal result yet"
      else unavailable
  | Ok None => unavailable
  | Ok (Some delivery) =>
      match td_Result delivery with
      | None => unavailable
      | Some result =>
          if negb (String.eqb (rt_PlayerID result) playerID) then unavailable else retrievalFound request delivery
      end
  end.

(* src/internal/playersocket/server.go#Server.retrieve *)
Definition retrieve (playerID raw : string) : MW W RetrieveResponse :=
  match decodeRetrieveRequest raw with
  | Err err => mret (retrievalRefused RetrieveLatest EmptyString RetrieveMalformed (Error_text err))
  | Ok request =>
      match sv_results s with
      | None => mret (retrievalRefused (rq_By request) (rq_ID request) RetrieveUnavailable
                        "result retrieval is unavailable on this server")
      | Some results =>
          found ← attempt (look_up results playerID request);
          mret (answer_lookup playerID request found)
      end
  end.

(** The frame a message is answered with. *)
(* src/internal/playersocket/server.go:591-636 (Server.readLoop) *)
Definition answer_message (connID playerID : string) (message : Message) : MW W Frame :=
  if negb (ms_Text message) then
    mret (responseFrame (Some (socket_refusal
      {| sr_Code := RefusalMalformedRequest;
         sr_Message := "this protocol speaks JSON text frames; a binary frame carries no submission";
         sr_Field := EmptyString; sr_ActiveTurnID := EmptyString |})))
  else
    let '(operation, typed, typeErr) := inspectRequestType (ms_Raw message) in
    match typed, typeErr with
    | true, Some _ =>
        mret (operationFrame (operationRefused EmptyString OperationMalformed "the operation type must be a non-empty string"))
    | true, None =>
        if negb (String.eqb operation RequestRetrieve) then
          mret (operationFrame (operationRefused operation OperationUnsupported
                                  "this player protocol does not support that operation"))
        else
          response ← retrieve playerID (ms_Raw message);
          mret (retrievalFrame response)
    | false, _ =>
        answer ← Gateway_Submit g connID (ms_Raw message);
        mret (responseFrame answer.1)
    end.

(** The messages the peer sends until its socket ends. A message past the read
    limit ends the read like an error; so does an answer that cannot be sent. *)
(* src/internal/playersocket/server.go#Server.readLoop *)
Fixpoint readLoop (connID playerID : string) (incoming : list Message) : MW W unit :=
  match incoming with
  | [] => mret tt
  | message :: rest =>
      if MaxRequestBytes <? len (ms_Raw message) then mret tt
      else
        frame ← answer_message connID playerID message;
        sent ← attempt (conn_send connID frame);
        match sent with
        | Err _ => mret tt
        | Ok _ => readLoop connID playerID rest
        end
  end.

(** The deferred calls run however the loop ends. *)
(* src/internal/playersocket/server.go#Server.serve *)
Definition serve (playerID : string) (incoming : list Message) : MW W unit :=
  connID ← mintConnectionID;
  bound ← attempt (Gateway_Bind playerID
                     {| cn_ID := connID; cn_Adapter := AdapterWebSocket; cn_ReplyTo := connID; cn_Writer := Some connID |});
  match bound with
  | Err err =>
      if errors_Is ErrTooManyConnections err then
        conn_closeWith connID ClosePolicyViolation "this player already holds the maximum number of connections"
      else conn_closeWith connID CloseInternalServerErr "the engine could not open this session"
  | Ok session =>
      ended ← attempt (readLoop connID (se_PlayerID session) incoming);
      _ ← Gateway_Disconnect connID;
      _ ← conn_close connID;
      lift ended
  end.

(* src/internal/playersocket/server.go#Server.ServeHTTP *)
Definition ServeHTTP (request : Handshake) (incoming : list Message) : MW W handshake_end :=
  if negb (String.eqb (hs_Path request) (sc_Path (sv_config s))) then mret (Answered StatusNotFound)
  else if negb (peerIsAllowed (sv_config s) (hs_Remote request)) then mret (Answered StatusForbidden)
  else
    match bearerCredential (hs_Authorization request) with
    | None => mret (Answered StatusUnauthorized)
    | Some credential =>
        verified ← attempt (Gateway_Verify credential);
        match verified with
        | Err err => mret (Answered (if errors_Is ErrUnauthenticated err then StatusUnauthorized else StatusServiceUnavailable))
        | Ok player =>
            upgraded ← attempt ws_Upgrade;
            match upgraded with
            | Err _ => mret NotUpgraded
            | Ok _ => _ ← serve player incoming; mret Served
            end
        end
    end.
End server.

(** The result surface of the egress is what the server retrieves through. *)
Definition egress_retriever {W} `{Substrate, GraphStore W, Clock W, ResultArtifacts W} (r : Results) : ResultRetriever W := {|
  rr_ByTurnForPlayer := ByTurnForPlayer r; rr_ByActionForPlayer := ByActionForPlayer r; rr_Latest := Latest r |}.
