(* ===== verification/WorldTemplate.v ===== *)
(** [internal/world], part one: the author-writable vocabulary
    ([authoring.go]), the entities of a package as they are read and checked
    line by line ([entities.go]), and the place checks ([place.go]). *)

From S2P Require Import Prelude GoStd GoErrors Graph Vocab Vocabulary Payload WorldEntity.

Open Scope Z_scope.

(** ** What an author may write *)

(* src/internal/world/authoring.go#type ObjectShape *)
Inductive ObjectShape : Type :=
| ShapeNone | ShapeText | ShapeReference | ShapeAttribute | ShapeStatus | ShapeOrdinal
| ShapeEvidenceTruthStatus | ShapeCasePhase | ShapeEvidenceRevealKind | ShapeBeliefStance
| ShapeCompanionPolicy | ShapeHintLevel | ShapeNumber.

#[export] Instance ObjectShape_eq_dec : EqDecision ObjectShape.
Proof. solve_decision. Defined.

(* src/internal/world/authoring.go#ObjectShapeFor *)
Definition ObjectShapeFor (p : string) : ObjectShape :=
  match AttributeForPredicate p with
  | Some _ => ShapeAttribute
  | None =>
      if IsEntityReference p then ShapeReference
      else if String.eqb p CharacterStatusCurrent then ShapeStatus
      else if mem p [CaseRequirementSuspects; CaseRequirementEvidence; CaseTimelineOrder] then ShapeOrdinal
      else if String.eqb p CompanionCandidatePolicy then ShapeCompanionPolicy
      else if String.eqb p EvidenceTruthStatusCurrent then ShapeEvidenceTruthStatus
      else if String.eqb p EvidenceRevealPhase then ShapeCasePhase
      else if String.eqb p EvidenceRevealKindPredicate then ShapeEvidenceRevealKind
      else if String.eqb p BeliefStanceCurrent then ShapeBeliefStance
      else if String.eqb p CompanionBondPolicy then ShapeCompanionPolicy
      else if String.eqb p CompanionBondHintLevel then ShapeHintLevel
      else if mem p [GeoLocationLatitude; GeoLocationLongitude] then ShapeNumber
      else if mem p [WorldEntityName; WorldEntityDescription] then ShapeText
      else ShapeNone
  end.

(* src/internal/world/authoring.go#var engineOwnedFacts *)
Definition engineOwnedFacts : list string :=
  [WorldEntityKind; PlayerCharacterCurrent; RevelationEvidenceRef; RevelationActorHolder;
   RevelationTurnID; RevelationSourceActor; RevelationTestimonyRef; CompanionBondPlayer;
   CompanionBondCharacter; CompanionBondPolicy; CompanionBondHintLevel; CaseLifecyclePhase;
   CaseLifecycleEventID; CaseLifecycleEventKindPredicate; CaseLifecycleFromPhase;
   CaseLifecycleToPhase; CaseTransitionSource; CaseTransitionAt; CaseTransitionFrom].

(* src/internal/world/authoring.go#AuthorWritable *)
Definition AuthorWritable (p : string) : bool :=
  if mem p engineOwnedFacts then false
  else match SubjectKindsFor p with
       | None => false
       | Some _ => negb (bool_decide (ObjectShapeFor p = ShapeNone))
       end.

(* src/internal/world/authoring.go#AuthorWritablePredicates *)
Definition AuthorWritablePredicates : list string := List.filter AuthorWritable WorldFactPredicates.

(** ** Template entities *)

(* src/internal/world/entities.go#const EntitiesFile *)
Definition EntitiesFile : string := "entities.jsonl".
(* src/internal/world/entities.go#const LocalRefPrefix *)
Definition LocalRefPrefix : string := "local:".
(* src/internal/world/entities.go#const MaxEntityLineBytes *)
Definition MaxEntityLineBytes : Z := 64 * 1024.
(** [bufio.ErrTooLong]. *)
Definition ErrTooLong : string := "bufio.Scanner: token too long".

(* src/internal/world/entities.go#lineErr *)
Definition lineErr (line : Z) (err : error) : error :=
  Errorf (EntitiesFile +:+ ":" +:+ Itoa line) [err].

(* src/internal/world/entities.go#type TemplateFact *)
Record TemplateFact : Type := { tf_Predicate : string; tf_LocalRef : string; tf_Literal : any }.

(* src/internal/world/entities.go#TemplateFact.IsReference *)
Definition IsReference (f : TemplateFact) : bool := negb (String.eqb (tf_LocalRef f) EmptyString).

(* src/internal/world/entities.go#type TemplateEntity *)
Record TemplateEntity : Type := {
  te_LocalID : string; te_Kind : string; te_Facts : list TemplateFact; te_Line : Z }.

(** A line's JSON record; an object is absent, or the value or error its
    bytes decode to. *)
(* src/internal/world/entities.go#type tripleLine *)
Record tripleLine : Type := { tl_Predicate : string; tl_Object : option (res json_value) }.
(* src/internal/world/entities.go#type entityLine *)
Record entityLine : Type := { el_LocalID : string; el_Type : string; el_Triples : list tripleLine }.

(** [json.Unmarshal] into a string: [null] leaves it empty, absent bytes are an error. *)
(* src/internal/world/entities.go#decodeString *)
Definition decodeString (raw : option (res json_value)) : res string :=
  match raw with
  | Some (Ok (JString text)) => Ok text
  | Some (Ok JNull) => Ok EmptyString
  | Some (Err err) => Err (Errorf "object must be a JSON string" [err])
  | _ => Err (Errorf "object must be a JSON string" [Errorf "json: cannot unmarshal" []])
  end.

(** The [json.Number] both numeric readers decode. *)
Definition decode_number (raw : option (res json_value)) : res string :=
  match raw with
  | Some (Ok (JNumber number)) => Ok number
  | Some (Err err) => Err (Errorf "object must be a JSON number" [err])
  | None => Err (Errorf "object must be a JSON number" [Sentinel "EOF"])
  | Some (Ok _) => Err (Errorf "object must be a JSON number, got another value" [])
  end.

(* src/internal/world/entities.go#decodeInt *)
Definition decodeInt (raw : option (res json_value)) : res Z :=
  number ← decode_number raw;
  match ParseInt number with
  | Some integer => Ok integer
  | None => Err (Errorf "object must be a whole number" [])
  end.

(* src/internal/world/entities.go#decodeFloat *)
Definition decodeFloat (raw : option (res json_value)) : res spec_float :=
  number ← decode_number raw;
  match ParseFloat number with
  | Some numeric => Ok numeric
  | None => Err (Errorf "object must be a finite number" [])
  end.

Definition literal_fact (predicate : string) (object : any) : TemplateFact :=
  {| tf_Predicate := predicate; tf_LocalRef := EmptyString; tf_Literal := object |}.

(* src/internal/world/entities.go#parseClosedStringFact *)
Definition parseClosedStringFact (predicate : string) (raw : option (res json_value))
    (parse : string -> res string) : res TemplateFact :=
  text ← decodeString raw;
  value ← parse text;
  Ok (literal_fact predicate (AString value)).

(* src/internal/world/entities.go#parseEvidenceRevealKind *)
Definition parseEvidenceRevealKind (predicate : string) (raw : option (res json_value)) : res TemplateFact :=
  text ← decodeString raw;
  kind ← ParseEvidenceRevealKind text;
  Ok (literal_fact predicate (AString kind)).

Section entities.
Context `{Substrate}.

(* src/internal/world/entities.go#parseFactObject *)
Definition parseFactObject (predicate : string) (raw : option (res json_value)) (specs : AttributeSpecSet)
    : res TemplateFact :=
  match ObjectShapeFor predicate with
  | ShapeReference =>
      text ← decodeString raw;
      match CutPrefix text LocalRefPrefix with
      | None => Err (Errorf "predicate takes an entity reference" [])
      | Some local =>
          _ ← wrapf "reference target" (ValidateIDSegment local);
          Ok {| tf_Predicate := predicate; tf_LocalRef := local; tf_Literal := ANil |}
      end
  | ShapeStatus => parseClosedStringFact predicate raw ParseStatus
  | ShapeAttribute =>
      match AttributeForPredicate predicate with
      | None => Err (Errorf "predicate has no registered attribute" [])
      | Some attribute =>
          value ← decodeInt raw;
          _ ← specs_Check specs attribute value;
          Ok (literal_fact predicate (AInt value))
      end
  | ShapeOrdinal =>
      value ← decodeInt raw;
      if value <? 1 then Err (Errorf "predicate must be a positive whole number" [])
      else Ok (literal_fact predicate (AInt value))
  | ShapeEvidenceTruthStatus => parseClosedStringFact predicate raw ParseEvidenceTruthStatus
  | ShapeCasePhase => parseClosedStringFact predicate raw ParseCasePhase
  | ShapeEvidenceRevealKind => parseEvidenceRevealKind predicate raw
  | ShapeBeliefStance => parseClosedStringFact predicate raw ParseBeliefStance
  | ShapeCompanionPolicy => parseClosedStringFact predicate raw ParseCompanionPolicy
  | ShapeHintLevel => parseClosedStringFact predicate raw ParseHintLevel
  | ShapeNumber =>
      value ← decodeFloat raw;
      Ok (literal_fact predicate (AFloat64 value))
  | ShapeText =>
      text ← decodeString raw;
      if String.eqb text EmptyString then Err (Errorf "predicate has an empty object" [])
      else if HasPrefix text LocalRefPrefix then
        Err (Errorf "predicate takes literal text but its object begins with the reference prefix" [])
      else if MaxFactTextBytes <? len text then Err (Errorf "predicate exceeds the fact-text budget" [])
      else Ok (literal_fact predicate (AString text))
  | ShapeNone => Err (Errorf "predicate has no registered object shape" [])
  end.

(* src/internal/world/entities.go#parseTemplateFact *)
Definition parseTemplateFact (triple : tripleLine) (kind : string) (specs : AttributeSpecSet) : res TemplateFact :=
  _ ← wrapf "predicate is not a canonical three-segment lower-kebab predicate" (ParsePredicate (tl_Predicate triple));
  let predicate := tl_Predicate triple in
  if negb (AuthorWritable predicate) then Err (Errorf "predicate is not author-writable" [])
  else if negb (AllowsSubjectKind predicate kind) then
    Err (Errorf "predicate cannot be carried by an entity of this kind" [])
  else parseFactObject predicate (tl_Object triple) specs.

Fixpoint parse_facts (line : Z) (kind : string) (specs : AttributeSpecSet) (triples : list tripleLine)
    : res (list TemplateFact) :=
  match triples with
  | [] => Ok []
  | triple :: rest =>
      match parseTemplateFact triple kind specs with
      | Err factErr => Err (lineErr line (Errorf "entity triple" [factErr]))
      | Ok fact => facts ← parse_facts line kind specs rest; Ok (fact :: facts)
      end
  end.

(** [decode] is the strict decoding of one line, and whether the line holds
    more after its first value. *)
Context (decode : string -> res (entityLine * bool)).

(* src/internal/world/entities.go#parseEntityLine *)
Definition parseEntityLine (text : string) (lineNumber : Z) (specs : AttributeSpecSet) : res TemplateEntity :=
  match decode text with
  | Err err => Err (lineErr lineNumber err)
  | Ok (_, true) => Err (lineErr lineNumber (Errorf "line carries more than one JSON value" []))
  | Ok (wire, false) =>
      match ValidateIDSegment (el_LocalID wire) with
      | Err err => Err (lineErr lineNumber (Errorf "local_id" [err]))
      | Ok _ =>
          match ParseEntityKind (el_Type wire) with
          | Err err => Err (lineErr lineNumber (Errorf "type" [err]))
          | Ok kind =>
              if Nat.eqb (List.length (el_Triples wire)) 0 then
                Err (lineErr lineNumber (Errorf "entity declares no triples" []))
              else
                facts ← parse_facts lineNumber kind specs (el_Triples wire);
                Ok {| te_LocalID := el_LocalID wire; te_Kind := kind; te_Facts := facts; te_Line := lineNumber |}
          end
      end
  end.

(** The loop over the scanned lines; [declaredAt] is in reverse order of
    declaration. *)
Fixpoint parse_lines (specs : AttributeSpecSet) (lineNumber : Z) (declaredAt : list string)
    (lines : list string) : res (list TemplateEntity) :=
  match lines with
  | [] => Ok []
  | text :: rest =>
      let lineNumber := lineNumber + 1 in
      let text := TrimSpace text in
      if String.eqb text EmptyString then parse_lines specs lineNumber declaredAt rest
      else
        entity ← parseEntityLine text lineNumber specs;
        if mem (te_LocalID entity) declaredAt then
          Err (lineErr lineNumber (Errorf "local_id was already declared" []))
        else
          entities ← parse_lines specs lineNumber (te_LocalID entity :: declaredAt) rest;
          Ok (entity :: entities)
  end.

(** [lines] are the lines the scanner delivers before it stops, [scanErr] what
    [scanner.Err()] reports then. *)
(* src/internal/world/entities.go#ParseEntities *)
Definition ParseEntities (lines : list string) (scanErr : option error) (specs : AttributeSpecSet)
    : res (list TemplateEntity) :=
  entities ← parse_lines specs 0 [] lines;
  match scanErr with
  | Some err =>
      let lineNumber := Z.of_nat (List.length lines) + 1 in
      if errors_Is ErrTooLong err then
        Err (lineErr lineNumber (Errorf "line exceeds the byte limit" []))
      else Err (lineErr lineNumber err)
  | None =>
      if Nat.eqb (List.length entities) 0 then Err (Errorf "entities.jsonl: declares no entities" [])
      else Ok entities
  end.
End entities.

(** ** Reading a template entity's facts *)

(** [byID[id]]: the map is filled in file order, so a later entity of the same
    id would win. *)
Definition byID (entities : list TemplateEntity) (id : string) : option TemplateEntity :=
  List.find (fun entity => String.eqb (te_LocalID entity) id) (rev entities).

(* src/internal/world/mystery.go#factsFor *)
Definition factsFor (entity : TemplateEntity) (predicate : string) : list TemplateFact :=
  List.filter (fun fact => String.eqb (tf_Predicate fact) predicate) (te_Facts entity).

(** ** Places *)

(* src/internal/world/place.go#requirePlaceRef *)
Definition requirePlaceRef (entities : list TemplateEntity) (subject : TemplateEntity) (fact : TemplateFact)
    (field : string) : res unit :=
  if negb (IsReference fact) then Err (Errorf (field +:+ " is not a reference") [])
  else if String.eqb (tf_LocalRef fact) (te_LocalID subject) then Err (Errorf (field +:+ " references itself") [])
  else
    match byID entities (tf_LocalRef fact) with
    | None => Err (Errorf (field +:+ " references missing location") [])
    | Some target =>
        if negb (String.eqb (te_Kind target) EntityKindLocation) then
          Err (Errorf (field +:+ " references an entity of another kind; want location") [])
        else Ok tt
    end.

Fixpoint check_connections (entities : list TemplateEntity) (entity : TemplateEntity) (seen : list string)
    (connections : list TemplateFact) : res unit :=
  match connections with
  | [] => Ok tt
  | connection :: rest =>
      if String.eqb (tf_LocalRef connection) (te_LocalID entity) then Err (Errorf "location connects to itself" [])
      else if mem (tf_LocalRef connection) seen then Err (Errorf "location connection names a place more than once" [])
      else
        _ ← requirePlaceRef entities entity connection "connection";
        check_connections entities entity (tf_LocalRef connection :: seen) rest
  end.

Definition finite_literal (name : string) (fact : TemplateFact) : res spec_float :=
  match tf_Literal fact with
  | AFloat64 value => if finite value then Ok value else Err (Errorf (name +:+ " must be finite") [])
  | _ => Err (Errorf (name +:+ " must be finite") [])
  end.

Definition out_of_range (bound : Z) (value : spec_float) : bool :=
  float_lt value (float_of_Z (- bound)) || float_lt (float_of_Z bound) value.

(* src/internal/world/place.go#validateLocation *)
Definition validateLocation (entities : list TemplateEntity) (entity : TemplateEntity) : res unit :=
  _ ← check_connections entities entity [] (factsFor entity LocationRelationConnectsTo);
  match factsFor entity GeoLocationLatitude, factsFor entity GeoLocationLongitude with
  | [], [] => Ok tt
  | [latitudes], [longitudes] =>
      latitude ← finite_literal "latitude" latitudes;
      longitude ← finite_literal "longitude" longitudes;
      if out_of_range 90 latitude then Err (Errorf "latitude is outside [-90, 90]" [])
      else if out_of_range 180 longitude then Err (Errorf "longitude is outside [-180, 180]" [])
      else Ok tt
  | [_], [] | [], [_] => Err (Errorf "coordinates must declare latitude and longitude as a pair" [])
  | _, _ => Err (Errorf "coordinates are single-valued" [])
  end.

Definition place_entity (entities : list TemplateEntity) (entity : TemplateEntity) : res unit :=
  if String.eqb (te_Kind entity) EntityKindScene then
    match factsFor entity SceneLocationCurrent with
    | [placement] => requirePlaceRef entities entity placement "scene placement"
    | _ => Err (Errorf "placement requires exactly one reference" [])
    end
  else if mem (te_Kind entity) [EntityKindCharacter; EntityKindItem] then
    match factsFor entity WorldLocationCurrent with
    | [] => Ok tt
    | [occupancy] => requirePlaceRef entities entity occupancy "occupancy"
    | _ => Err (Errorf "occupancy allows at most one reference" [])
    end
  else if String.eqb (te_Kind entity) EntityKindLocation then validateLocation entities entity
  else Ok tt.

(* src/internal/world/place.go#validatePlaceEntities *)
Definition validatePlaceEntities (entities : list TemplateEntity) : res unit :=
  all_ok (fun entity =>
    match place_entity entities entity with Ok _ => Ok tt | Err err => Err (lineErr (te_Line entity) err) end)
    entities.
