(* ===== verification/WorldRules.v ===== *)
(** [internal/world]: the checks of a package's mystery ([mystery.go]) and the
    typed case they produce, and the boundary a downloaded package's rules are
    held to when the package is loaded ([rulescope.go]); the rules themselves are
    run by the upstream rule engine. *)

From S2P Require Import Prelude GoStd GoErrors Graph Vocab Vocabulary RulePack WorldTemplate.

Open Scope Z_scope.

(** ** The typed case *)

(* src/internal/world/mystery.go#type MysterySolution *)
Record MysterySolution : Type := { ms_Culprit : string; ms_Method : string; ms_Motive : string }.
(* src/internal/world/mystery.go#type MysteryTimelineEvent *)
Record MysteryTimelineEvent : Type := { mt_Event : string; mt_Order : Z }.
(* src/internal/world/mystery.go#type MysteryBelief *)
Record MysteryBelief : Type := { mb_Record : string; mb_Actor : string; mb_Evidence : string; mb_Stance : string }.
(* src/internal/world/mystery.go#type MysteryKnowledgeSeed *)
Record MysteryKnowledgeSeed : Type := { mk_Record : string; mk_Actor : string; mk_Evidence : string }.
(* src/internal/world/mystery.go#type MysteryEvidenceEligibility *)
Record MysteryEvidenceEligibility : Type := {
  me_Evidence : string; me_MinimumPhase : string; me_Kinds : list string; me_Targets : list string }.
(* src/internal/world/mystery.go#type MysteryCase *)
Record MysteryCase : Type := {
  mc_ID : string; mc_Victim : string; mc_Solution : MysterySolution;
  mc_Suspects : list string; mc_Evidence : list string;
  mc_EvidenceEligibility : list MysteryEvidenceEligibility; mc_Timeline : list MysteryTimelineEvent;
  mc_Beliefs : list MysteryBelief; mc_KnowledgeSeeds : list MysteryKnowledgeSeed;
  mc_CompanionCandidates : list string }.

(** ** Reading facts *)

(* src/internal/world/mystery.go#exactlyOneRef *)
Definition exactlyOneRef (entity : TemplateEntity) (predicate field : string) : res string :=
  match factsFor entity predicate with
  | [fact] => if IsReference fact then Ok (tf_LocalRef fact)
              else Err (Errorf (field +:+ " requires exactly one reference") [])
  | _ => Err (Errorf (field +:+ " requires exactly one reference") [])
  end.

(* src/internal/world/mystery.go#exactlyOneInt *)
Definition exactlyOneInt (entity : TemplateEntity) (predicate field : string) : res Z :=
  match factsFor entity predicate with
  | [fact] => match tf_Literal fact with
              | AInt value => Ok value
              | _ => Err (Errorf (field +:+ " expected an integer") [])
              end
  | _ => Err (Errorf (field +:+ " requires exactly one value") [])
  end.

(* src/internal/world/mystery.go#exactlyOneLiteral *)
Definition exactlyOneLiteral (entity : TemplateEntity) (predicate field : string) : res string :=
  match factsFor entity predicate with
  | [fact] => match tf_Literal fact with
              | AString value => Ok value
              | _ => Err (Errorf (field +:+ " expected text") [])
              end
  | _ => Err (Errorf (field +:+ " requires exactly one value") [])
  end.

(** The loop shared by [uniqueRefs] and [uniqueLiterals]: each fact gives a
    value, and no value comes twice. *)
Fixpoint unique_values (value : TemplateFact -> res string) (field : string) (seen : list string)
    (facts : list TemplateFact) : res (list string) :=
  match facts with
  | [] => Ok []
  | fact :: rest =>
      v ← value fact;
      if mem v seen then Err (Errorf (field +:+ " names a value more than once") [])
      else vs ← unique_values value field (v :: seen) rest; Ok (v :: vs)
  end.

(* src/internal/world/mystery.go#uniqueRefs *)
Definition uniqueRefs (entity : TemplateEntity) (predicate field : string) : res (list string) :=
  match factsFor entity predicate with
  | [] => Err (Errorf (field +:+ " requires at least one reference") [])
  | facts =>
      unique_values (fun fact => if IsReference fact then Ok (tf_LocalRef fact)
                                 else Err (Errorf (field +:+ " contains a non-reference") [])) field [] facts
  end.

(* src/internal/world/mystery.go#uniqueLiterals *)
Definition uniqueLiterals (entity : TemplateEntity) (predicate field : string) : res (list string) :=
  match factsFor entity predicate with
  | [] => Err (Errorf (field +:+ " requires at least one value") [])
  | facts =>
      unique_values (fun fact => match tf_Literal fact with
                                 | AString value => Ok value
                                 | _ => Err (Errorf (field +:+ " contains a non-text value") [])
                                 end) field [] facts
  end.

Section package.
(** The package's entities; [byID entities] is the map the checks share. *)
Context (entities : list TemplateEntity).

(* src/internal/world/mystery.go#requireRef *)
Definition requireRef (ref kind field : string) : res unit :=
  match byID entities ref with
  | None => Err (Errorf (field +:+ " references missing entity") [])
  | Some entity =>
      if negb (String.eqb (te_Kind entity) kind) then
        Err (Errorf (field +:+ " references an entity of another kind") [])
      else Ok tt
  end.

(* src/internal/world/mystery.go#requireRefs *)
Definition requireRefs (refs : list string) (kind field : string) : res unit :=
  all_ok (fun ref => requireRef ref kind field) refs.

(** [byID[id]] where the code has already required the entity: the zero value otherwise. *)
Definition entity_or_zero (id : string) : TemplateEntity :=
  default {| te_LocalID := EmptyString; te_Kind := EmptyString; te_Facts := []; te_Line := 0 |} (byID entities id).

(* src/internal/world/mystery.go#companionCandidate *)
Definition companionCandidate (entity : TemplateEntity) : res bool :=
  match factsFor entity CompanionCandidatePolicy with
  | [] => Ok false
  | [fact] =>
      match tf_Literal fact with
      | AString policy => _ ← wrapf "companion candidate policy" (ParseCompanionPolicy policy); Ok true
      | _ => Err (Errorf "companion candidate policy is not a closed string value" [])
      end
  | _ => Err (Errorf "companion candidate policy requires exactly one value" [])
  end.

(** ** The timeline *)

Fixpoint timeline_events (timelineRefs : list string) : res (list MysteryTimelineEvent) :=
  match timelineRefs with
  | [] => Ok []
  | eventID :: rest =>
      order ← exactlyOneInt (entity_or_zero eventID) CaseTimelineOrder "timeline order";
      events ← timeline_events rest;
      Ok ({| mt_Event := eventID; mt_Order := order |} :: events)
  end.

Fixpoint insert_event (e : MysteryTimelineEvent) (l : list MysteryTimelineEvent) : list MysteryTimelineEvent :=
  match l with
  | [] => [e]
  | x :: rest => if mt_Order e <=? mt_Order x then e :: l else x :: insert_event e rest
  end.

(** [sort.Slice] by order. It is not stable, so events of one order may come
    out either way; the next check refuses such a timeline. *)
Definition sort_events (l : list MysteryTimelineEvent) : list MysteryTimelineEvent := foldr insert_event [] l.

Fixpoint contiguous (position : Z) (timeline : list MysteryTimelineEvent) : res unit :=
  match timeline with
  | [] => Ok tt
  | event :: rest =>
      if negb (mt_Order event =? position) then Err (Errorf "timeline order: want contiguous" [])
      else contiguous (position + 1) rest
  end.

(* src/internal/world/mystery.go#validateMysteryTimeline *)
Definition validateMysteryTimeline (timelineRefs : list string) : res (list MysteryTimelineEvent) :=
  events ← timeline_events timelineRefs;
  let timeline := sort_events events in
  _ ← contiguous 1 timeline;
  Ok timeline.

(** ** The evidence *)

Fixpoint parse_all (parse : string -> res string) (texts : list string) : res (list string) :=
  match texts with
  | [] => Ok []
  | text :: rest => v ← parse text; vs ← parse_all parse rest; Ok (v :: vs)
  end.

(** One piece of evidence: whether it is a red herring, and its eligibility. *)
Definition evidence_eligibility (evidenceID : string) : res (bool * MysteryEvidenceEligibility) :=
  let entity := entity_or_zero evidenceID in
  statusText ← exactlyOneLiteral entity EvidenceTruthStatusCurrent "evidence truth status";
  status ← wrapf "evidence truth status" (ParseEvidenceTruthStatus statusText);
  phaseText ← exactlyOneLiteral entity EvidenceRevealPhase "reveal phase";
  phase ← wrapf "evidence reveal phase" (ParseCasePhase phaseText);
  kindTexts ← uniqueLiterals entity EvidenceRevealKindPredicate "reveal kind";
  kinds ← wrapf "evidence reveal kind" (parse_all ParseEvidenceRevealKind kindTexts);
  targets ← uniqueRefs entity EvidenceRevealTarget "reveal target";
  Ok (String.eqb status EvidenceTruthRedHerring,
      {| me_Evidence := evidenceID; me_MinimumPhase := phase; me_Kinds := kinds; me_Targets := targets |}).

Fixpoint evidence_records (evidence : list string) : res (nat * list MysteryEvidenceEligibility) :=
  match evidence with
  | [] => Ok (0%nat, [])
  | evidenceID :: rest =>
      '(herring, record) ← evidence_eligibility evidenceID;
      '(herrings, records) ← evidence_records rest;
      Ok ((if herring : bool then S herrings else herrings), record :: records)
  end.

(* src/internal/world/mystery.go#validateMysteryEvidence *)
Definition validateMysteryEvidence (evidence timelineRefs : list string) : res (list MysteryEvidenceEligibility) :=
  '(redHerrings, eligibility) ← evidence_records evidence;
  if Nat.eqb redHerrings 0 then Err (Errorf "case evidence includes no red herrings" [])
  else
    _ ← all_ok (fun entity =>
          if String.eqb (te_Kind entity) EntityKindEvidence && negb (mem (te_LocalID entity) evidence) then
            Err (Errorf "evidence entity is outside the case's evidence membership" [])
          else if String.eqb (te_Kind entity) EntityKindEvent && negb (mem (te_LocalID entity) timelineRefs) then
            Err (Errorf "timeline event is outside the case's timeline membership" [])
          else Ok tt) entities;
    Ok eligibility.

(** ** Beliefs, knowledge seeds and companions *)

(** What one entity adds. *)
Inductive mystery_record : Type :=
| RBelief (b : MysteryBelief)
| RKnowledge (k : MysteryKnowledgeSeed)
| RCompanion (local : string).

Definition mystery_record_of (evidence : list string) (entity : TemplateEntity) : res (option mystery_record) :=
  if String.eqb (te_Kind entity) EntityKindBelief then
    actor ← exactlyOneRef entity BeliefActorHolder "belief actor";
    evidenceID ← exactlyOneRef entity BeliefEvidenceRef "belief evidence";
    stanceText ← exactlyOneLiteral entity BeliefStanceCurrent "belief stance";
    stance ← wrapf "belief stance" (ParseBeliefStance stanceText);
    _ ← requireRef actor EntityKindCharacter "belief actor";
    if negb (mem evidenceID evidence) then Err (Errorf "belief references evidence outside the case" [])
    else Ok (Some (RBelief {| mb_Record := te_LocalID entity; mb_Actor := actor;
                              mb_Evidence := evidenceID; mb_Stance := stance |}))
  else if String.eqb (te_Kind entity) EntityKindKnowledge then
    actor ← exactlyOneRef entity KnowledgeActorHolder "knowledge actor";
    evidenceID ← exactlyOneRef entity KnowledgeEvidenceRef "knowledge evidence";
    _ ← requireRef actor EntityKindCharacter "knowledge actor";
    if negb (mem evidenceID evidence) then Err (Errorf "knowledge references evidence outside the case" [])
    else Ok (Some (RKnowledge {| mk_Record := te_LocalID entity; mk_Actor := actor; mk_Evidence := evidenceID |}))
  else if String.eqb (te_Kind entity) EntityKindCharacter then
    candidate ← companionCandidate entity;
    Ok (if candidate : bool then Some (RCompanion (te_LocalID entity)) else None)
  else Ok None.

Fixpoint mystery_records (evidence : list string) (l : list TemplateEntity) : res (list mystery_record) :=
  match l with
  | [] => Ok []
  | entity :: rest =>
      r ← mystery_record_of evidence entity;
      rs ← mystery_records evidence rest;
      Ok (match r with Some r => r :: rs | None => rs end)
  end.

Definition as_belief (r : mystery_record) : option MysteryBelief :=
  match r with RBelief b => Some b | _ => None end.
Definition as_knowledge (r : mystery_record) : option MysteryKnowledgeSeed :=
  match r with RKnowledge k => Some k | _ => None end.
Definition as_companion (r : mystery_record) : option string :=
  match r with RCompanion local => Some local | _ => None end.

(** The three lists the code appends to. *)
(* src/internal/world/mystery.go#validateMysteryRecords *)
Definition validateMysteryRecords (evidence : list string)
    : res (list MysteryBelief * list MysteryKnowledgeSeed * list string) :=
  match mystery_records evidence entities with
  | Err err => Err err
  | Ok records => Ok (omap as_belief records, omap as_knowledge records, omap as_companion records)
  end.

(** ** The case *)

(* src/internal/world/mystery.go#validateMysteryCase *)
Definition validateMysteryCase (caseEntity : TemplateEntity) : res MysteryCase :=
  culprit ← exactlyOneRef caseEntity CaseSolutionCulprit "solution culprit";
  method ← exactlyOneRef caseEntity CaseSolutionMethod "solution method";
  motive ← exactlyOneRef caseEntity CaseSolutionMotive "solution motive";
  victim ← exactlyOneRef caseEntity CaseMemberVictim "victim";
  suspectCount ← exactlyOneInt caseEntity CaseRequirementSuspects "required suspects";
  evidenceCount ← exactlyOneInt caseEntity CaseRequirementEvidence "required evidence";
  suspects ← uniqueRefs caseEntity CaseMemberSuspect "suspects";
  evidence ← uniqueRefs caseEntity CaseMemberEvidence "evidence";
  timelineRefs ← uniqueRefs caseEntity CaseMemberTimeline "timeline";
  _ ← require (Z.of_nat (List.length suspects) =? suspectCount) (Errorf "case suspects: another number is required" []);
  _ ← require (Z.of_nat (List.length evidence) =? evidenceCount) (Errorf "case evidence: another number is required" []);
  _ ← require (negb (Nat.eqb (List.length timelineRefs) 0)) (Errorf "case timeline: at least one event is required" []);
  _ ← requireRefs suspects EntityKindCharacter "suspects";
  _ ← requireRefs evidence EntityKindEvidence "evidence";
  _ ← requireRefs timelineRefs EntityKindEvent "timeline";
  _ ← requireRef culprit EntityKindCharacter "culprit";
  _ ← requireRef victim EntityKindCharacter "victim";
  _ ← require (mem culprit suspects) (Errorf "solution culprit is not a declared suspect" []);
  _ ← requireRef method EntityKindItem "method";
  _ ← requireRef motive EntityKindEvidence "motive";
  _ ← require (mem motive evidence) (Errorf "solution motive is not declared case evidence" []);
  timeline ← validateMysteryTimeline timelineRefs;
  eligibility ← validateMysteryEvidence evidence timelineRefs;
  '(beliefs, knowledge, companions) ← validateMysteryRecords evidence;
  _ ← require (negb (Nat.eqb (List.length beliefs) 0)) (Errorf "case requires at least one authored belief" []);
  _ ← require (negb (Nat.eqb (List.length knowledge) 0)) (Errorf "case requires at least one authored knowledge seed" []);
  _ ← require (negb (Nat.eqb (List.length companions) 0)) (Errorf "case requires at least one valid companion candidate" []);
  Ok {| mc_ID := te_LocalID caseEntity; mc_Victim := victim;
        mc_Solution := {| ms_Culprit := culprit; ms_Method := method; ms_Motive := motive |};
        mc_Suspects := suspects; mc_Evidence := evidence; mc_EvidenceEligibility := eligibility;
        mc_Timeline := timeline; mc_Beliefs := beliefs; mc_KnowledgeSeeds := knowledge;
        mc_CompanionCandidates := companions |}.

Definition is_mystery_record (entity : TemplateEntity) : bool :=
  mem (te_Kind entity) [EntityKindCase; EntityKindEvidence; EntityKindEvent; EntityKindBelief; EntityKindKnowledge] ||
  existsb (fun fact => IsProtectedPredicate (tf_Predicate fact)) (te_Facts entity).

Definition is_case (entity : TemplateEntity) : bool := String.eqb (te_Kind entity) EntityKindCase.

(** [Ok None] is the package that declares no mystery. *)
(* src/internal/world/mystery.go#validateMysteryEntities *)
Definition validateMysteryEntities : res (option MysteryCase) :=
  if negb (existsb is_mystery_record entities) then Ok None
  else
    match List.filter is_case entities with
    | [caseEntity] => mystery ← validateMysteryCase caseEntity; Ok (Some mystery)
    | _ => Err (Errorf "mystery package: exactly one case is required" [])
    end.
End package.

(** ** Rules as a package declares them

    The fields of [rule.Action] and [rule.Definition] the boundary reads; the
    action types are upstream's, and any other is [OtherActionType]. *)

Inductive action_type : Type :=
| ActionTypeAddTriple | ActionTypeRemoveTriple | ActionTypeUpdateTriple | ActionTypeReconcilePredicates
| ActionTypeDeny | ActionTypePublish_ | ActionTypePublishAgent | ActionTypeApprove | ActionTypeUpdateKV
| ActionTypeLifecycleTransition_ | ActionTypeLifecycleComplete | ActionTypeLifecycleFail
| OtherActionType (name : string).

#[export] Instance action_type_eq_dec : EqDecision action_type.
Proof. solve_decision. Defined.

Record WorldAction : Type := {
  wa_Type : action_type; wa_Subject : string; wa_Predicate : string; wa_Object : string;
  wa_When : list Condition; wa_MaxIterations : option Z;
  wa_ProjectionContract : string; wa_ProjectionGroup : string }.

Record WorldRule : Type := {
  wr_ID : string; wr_Type : string; wr_Pattern : string; wr_WatchBuckets : list string;
  wr_Conditions : list Condition; wr_RelatedPatterns : list string;
  wr_OnEnter : list WorldAction; wr_OnExit : list WorldAction; wr_WhileTrue : list WorldAction;
  wr_OnRecovery : list WorldAction; wr_Actions : list WorldAction }.

(** Upstream: [rule.DefaultActionMaxIterations] and [message.IsValidEntityID]. *)
Class WorldRuleEngine : Type := {
  DefaultActionMaxIterations : Z;
  IsValidEntityID : string -> bool
}.

(** ** The reserved namespaces *)

(* src/internal/world/rulescope.go#type reservedDomain *)
Record reservedDomain : Type := { rv_prefix : string; rv_why : string }.

(* src/internal/world/rulescope.go#type namespaceWidth *)
Inductive namespaceWidth : Type := wholeDomain | domainAndCategory.

Section scope.
Context `{Substrate}.

Fixpoint reserve (sources : list (string * namespaceWidth * string)) : res (list reservedDomain) :=
  match sources with
  | [] => Ok []
  | (predicate, width, why) :: rest =>
      match ParsePredicate predicate with
      | Err err => Err (Errorf "cannot derive the reserved predicate namespace" [err])
      | Ok (domain, category, _) =>
          let prefix := domain +:+ "." in
          let prefix := match width with wholeDomain => prefix | domainAndCategory => prefix +:+ category +:+ "." end in
          domains ← reserve rest;
          Ok ({| rv_prefix := prefix; rv_why := why |} :: domains)
      end
  end.

(* src/internal/world/rulescope.go#enginePredicateNamespaces *)
Definition enginePredicateNamespaces : res (list reservedDomain) :=
  reserve
    [(TurnPhaseCurrent, wholeDomain, "the turn loop is the engine's own state machine");
     (CampaignSeedValue, domainAndCategory, "the campaign seed is minted once at instantiation");
     (CampaignImportCompleted, domainAndCategory, "this is the marker that says the world import FINISHED");
     (CampaignExperiencePersonaPack, domainAndCategory, "the selected packs are immutable provenance");
     (PlayerTurnCurrent, domainAndCategory, "this is the ingress admission gate's pointer");
     (CaseSolutionCulprit, domainAndCategory, "the canonical solution is immutable authored seed truth");
     (EvidenceTruthStatusCurrent, domainAndCategory, "evidence truth status is immutable authored seed truth");
     (CaseLifecyclePhase, domainAndCategory, "case lifecycle phase and event receipts are structural engine state")]%string.

(* src/internal/world/rulescope.go#reservedDomainFor *)
Definition reservedDomainFor (field : string) (domains : list reservedDomain) : option reservedDomain :=
  if String.eqb field EmptyString || HasPrefix field "$" then None
  else List.find (fun reserved => HasPrefix field (rv_prefix reserved)) domains.

(** ** The checks *)

(* src/internal/world/rulescope.go#checkConditionScope *)
Definition checkConditionScope (condition : Condition) (domains : list reservedDomain) : res unit :=
  if HasPrefix (cd_Field condition) "$entity.lifecycle." then
    Err (Errorf "matches lifecycle-managed state" [])
  else
    match reservedDomainFor (cd_Field condition) domains with
    | None => Ok tt
    | Some domain => Err (Errorf ("matches a reserved predicate namespace: " +:+ rv_why domain) [])
    end.

(* src/internal/world/rulescope.go#checkNameIsLiteral *)
Definition checkNameIsLiteral (value : string) : res unit :=
  if negb (contains_char "$"%char value) then Ok tt
  else Err (Errorf "is assembled by substitution at fire time" []).

(* src/internal/world/rulescope.go#checkReservedPredicate *)
Definition checkReservedPredicate (predicate : string) (domains : list reservedDomain) : res unit :=
  _ ← checkNameIsLiteral predicate;
  match reservedDomainFor predicate domains with
  | None => Ok tt
  | Some domain => Err (Errorf ("writes a reserved predicate namespace: " +:+ rv_why domain) [])
  end.

Context `{WorldRuleEngine}.

(* src/internal/world/rulescope.go#const maxWorldPackageActionIterations *)
Definition maxWorldPackageActionIterations : Z := 4.

(* src/internal/world/rulescope.go#checkActionBound *)
Definition checkActionBound (action : WorldAction) : res unit :=
  match wa_MaxIterations action with
  | None =>
      if (1 <=? DefaultActionMaxIterations) && (DefaultActionMaxIterations <=? maxWorldPackageActionIterations) then Ok tt
      else Err (Errorf "omits max_iterations, but upstream's default is outside the downloadable-world range" [])
  | Some n =>
      if (0 <? n) && (n <=? maxWorldPackageActionIterations) then Ok tt
      else Err (Errorf "max_iterations must be between 1 and 4 when explicit" [])
  end.

(* src/internal/world/rulescope.go#checkGraphActionScope *)
Definition checkGraphActionScope (action : WorldAction) (hasRelatedPattern : bool) (domains : list reservedDomain)
    : res unit :=
  _ ← checkReservedPredicate (wa_Predicate action) domains;
  if negb (String.eqb (wa_Subject action) EmptyString) && negb (String.eqb (wa_Subject action) "$entity.id") then
    Err (Errorf "graph action subject is not provably in the same instance" [])
  else if bool_decide (wa_Type action = ActionTypeRemoveTriple) then Ok tt
  else if bool_decide (wa_Type action = ActionTypeReconcilePredicates) && String.eqb (wa_Object action) EmptyString
  then Ok tt
  else if String.eqb (wa_Object action) "$entity.id" then Ok tt
  else if String.eqb (wa_Object action) "$related.id" && hasRelatedPattern then Ok tt
  else if contains_char "$"%char (wa_Object action) || IsValidEntityID (wa_Object action) ||
          bool_decide (ObjectShapeFor (wa_Predicate action) = ShapeReference) then
    Err (Errorf "graph action object is an entity reference that is not provably in the same instance" [])
  else Ok tt.

(* src/internal/world/rulescope.go#unassignedCapabilityReason *)
Definition unassignedCapabilityReason (actionType : action_type) : string :=
  match actionType with
  | ActionTypePublish_ => "no world-owned NATS subject contract exists at Stage 3"
  | ActionTypePublishAgent => "persona dispatch and paid model work are owned by engine stages"
  | ActionTypeApprove => "tool approval is an engine and operator authority"
  | ActionTypeUpdateKV => "no package-owned KV bucket namespace exists at Stage 3"
  | _ => "lifecycle workflows are owned by the engine's built-in receipt rules"
  end.

(* src/internal/world/rulescope.go#checkActionScope *)
Definition checkActionScope (action : WorldAction) (hasRelatedPattern : bool) (domains : list reservedDomain)
    : res unit :=
  _ ← all_ok (fun guard => checkConditionScope guard domains) (wa_When action);
  _ ← checkActionBound action;
  match wa_Type action with
  | ActionTypeAddTriple | ActionTypeRemoveTriple | ActionTypeUpdateTriple | ActionTypeReconcilePredicates =>
      checkGraphActionScope action hasRelatedPattern domains
  | ActionTypeDeny => Ok tt
  | ActionTypePublish_ | ActionTypePublishAgent | ActionTypeApprove | ActionTypeUpdateKV
  | ActionTypeLifecycleTransition_ | ActionTypeLifecycleComplete | ActionTypeLifecycleFail =>
      Err (Errorf ("action capability is not assigned to downloadable world packages: " +:+
                   unassignedCapabilityReason (wa_Type action)) [])
  | OtherActionType _ => Err (Errorf "action capability which this loader cannot bound" [])
  end.

(* src/internal/world/rulescope.go#checkRuleScope *)
Definition checkRuleScope (definition : WorldRule) : res unit :=
  domains ← enginePredicateNamespaces;
  _ ← all_ok (fun condition => checkConditionScope condition domains) (wr_Conditions definition);
  all_ok (all_ok (fun action => checkActionScope action (Nat.ltb 0 (List.length (wr_RelatedPatterns definition))) domains))
    [wr_OnEnter definition; wr_OnExit definition; wr_WhileTrue definition; wr_OnRecovery definition;
     wr_Actions definition].

(** ** The file gate ([package.go]) *)

(** [many] and [single] are what the two [json.Unmarshal] calls give. *)
(* src/internal/world/package.go#decodeRuleDefinitionsJSON *)
Definition decodeRuleDefinitionsJSON (many : res (list WorldRule)) (single : res WorldRule) : res (list WorldRule) :=
  match many with
  | Ok definitions => Ok definitions
  | Err _ =>
      match single with
      | Ok definition => Ok [definition]
      | Err err => Err (Errorf "is neither a rule nor an array of rules" [err])
      end
  end.

Definition condition_parses (condition : Condition) : res unit :=
  if String.eqb (cd_Field condition) EmptyString || HasPrefix (cd_Field condition) "$" then Ok tt
  else _ ← wrapf "field is not a canonical three-segment lower-kebab predicate" (ParsePredicate (cd_Field condition));
       Ok tt.

(** [data] is the file: whether it is JSON, and its two readings. *)
(* src/internal/world/package.go#DecodeRuleDefinitions *)
Definition DecodeRuleDefinitions (data : bool * res (list WorldRule) * res WorldRule) : res (list WorldRule) :=
  let '(valid, many, single) := data in
  match valid with
  | false => Err (Errorf "is not well-formed JSON" [])
  | true =>
      definitions ← decodeRuleDefinitionsJSON many single;
      _ ← all_ok (fun definition =>
            _ ← all_ok condition_parses (wr_Conditions definition);
            checkRuleScope definition) definitions;
      Ok definitions
  end.

(* src/internal/world/package.go#checkRuleFile *)
Definition checkRuleFile (data : bool * res (list WorldRule) * res WorldRule) : res unit :=
  _ ← DecodeRuleDefinitions data; Ok tt.
End scope.
