(* ===== verification/WorldPackage.v ===== *)
(** [internal/world], part three: engine compatibility ([compat.go]), the
    manifest ([manifest.go]), the experience catalog ([catalog.go]) and the
    loader that reads a whole package ([package.go]). *)

From S2P Require Import Prelude GoStd GoErrors Graph Vocab Vocabulary WorldEntity Persona Delivery WorldTemplate WorldRules.

Open Scope Z_scope.

(** ** Engine compatibility *)

(* src/internal/world/compat.go#const EngineVersion *)
Definition EngineVersion : string := "v1.0.0-beta.160".

(* src/internal/world/compat.go#type Operator *)
Inductive Operator : Type := OpGreaterOrEqual | OpLessOrEqual | OpGreater | OpLess | OpEqual.

#[export] Instance Operator_eq_dec : EqDecision Operator.
Proof. solve_decision. Defined.

Definition Operator_text (op : Operator) : string :=
  match op with
  | OpGreaterOrEqual => ">=" | OpLessOrEqual => "<=" | OpGreater => ">" | OpLess => "<" | OpEqual => "="
  end.

(* src/internal/world/compat.go#var operators *)
Definition operators : list Operator := [OpGreaterOrEqual; OpLessOrEqual; OpGreater; OpLess; OpEqual].

(* src/internal/world/compat.go#type Comparison *)
Record Comparison : Type := { cmp_Op : Operator; cmp_Version : string }.

(* src/internal/world/compat.go#Comparison.String *)
Definition Comparison_String (c : Comparison) : string := Operator_text (cmp_Op c) +:+ cmp_Version c.

(* src/internal/world/compat.go#type Constraint *)
Abbreviation Constraint := (list Comparison).

(** [golang.org/x/mod/semver]: validity, the canonical form and precedence. *)
Class Semver : Type := {
  semver_IsValid : string -> bool;
  semver_Canonical : string -> string;
  semver_Compare : string -> string -> Z
}.

Section compat.
Context `{Semver}.

(* src/internal/world/compat.go#Comparison.admits *)
Definition admits (c : Comparison) (version : string) : bool :=
  let cmp := semver_Compare version (cmp_Version c) in
  match cmp_Op c with
  | OpGreaterOrEqual => 0 <=? cmp
  | OpLessOrEqual => cmp <=? 0
  | OpGreater => 0 <? cmp
  | OpLess => cmp <? 0
  | OpEqual => cmp =? 0
  end.

Definition with_v (version : string) : string :=
  if HasPrefix version "v" then version else "v" +:+ version.

(** The first operator the field begins with decides. *)
Fixpoint parse_with (ops : list Operator) (field : string) : res Comparison :=
  match ops with
  | [] => Err (Errorf "comparison does not start with one of the operators" [])
  | op :: rest =>
      match CutPrefix field (Operator_text op) with
      | None => parse_with rest field
      | Some text =>
          let version := with_v text in
          if negb (semver_IsValid version) then
            Err (Errorf "comparison does not name a valid semver version" [])
          else if negb (String.eqb (semver_Canonical version) version) then
            Err (Errorf "comparison is not a canonical major.minor.patch version" [])
          else Ok {| cmp_Op := op; cmp_Version := version |}
      end
  end.

(* src/internal/world/compat.go#parseComparison *)
Definition parseComparison (field : string) : res Comparison := parse_with operators field.

Fixpoint parse_comparisons (fields : list string) : res Constraint :=
  match fields with
  | [] => Ok []
  | field :: rest => c ← parseComparison field; cs ← parse_comparisons rest; Ok (c :: cs)
  end.

(* src/internal/world/compat.go#ParseConstraint *)
Definition ParseConstraint (expr : string) : res Constraint :=
  match Fields expr with
  | [] => Err (Errorf "constraint is empty" [])
  | fields => parse_comparisons fields
  end.

(* src/internal/world/compat.go#Constraint.String *)
Definition Constraint_String (c : Constraint) : string := Join " "%char (map Comparison_String c).

(* src/internal/world/compat.go#Constraint.Admits *)
Definition Admits (c : Constraint) (version : string) : bool :=
  if negb (semver_IsValid version) then false else forallb (fun comparison => admits comparison version) c.

(* src/internal/world/compat.go#CheckEngineCompat *)
Definition CheckEngineCompat (expr engineVersion : string) : res unit :=
  constraint ← ParseConstraint expr;
  if negb (semver_IsValid engineVersion) then Err (Errorf "engine version is not valid semver" [])
  else if negb (Admits constraint engineVersion) then Err (Errorf "engine_compat excludes the running engine" [])
  else Ok tt.
End compat.

(** ** The manifest *)

(* src/internal/world/manifest.go#const ManifestFile *)
Definition ManifestFile : string := "manifest.yaml".

(* src/internal/world/manifest.go#type Manifest *)
Record Manifest : Type := {
  mf_ID : string; mf_Name : string; mf_Version : string; mf_EngineCompat : string; mf_Description : string }.

(** [&FieldError{File, Field, Err}], here and in the catalog. *)
(* src/internal/world/manifest.go#type FieldError *)
Definition package_field_error (file field : string) (err : error) : error :=
  Errorf (file +:+ ": field " +:+ field) [err].

(* src/internal/world/manifest.go#manifestFieldErr *)
Definition manifestFieldErr (field : string) (err : error) : error := package_field_error ManifestFile field err.

Definition manifest_field {A} (field : string) (r : res A) : res A :=
  match r with Ok a => Ok a | Err err => Err (manifestFieldErr field err) end.

Section manifest.
Context `{Substrate} `{Semver}.

(* src/internal/world/manifest.go#Manifest.validate *)
Definition manifest_validate (m : Manifest) (engineVersion : string) : res unit :=
  _ ← all_ok (fun required =>
        if String.eqb required.2 EmptyString then Err (manifestFieldErr required.1 (Errorf "is required" []))
        else Ok tt)
      [("id", mf_ID m); ("name", mf_Name m); ("version", mf_Version m);
       ("engine_compat", mf_EngineCompat m); ("description", mf_Description m)]%string;
  _ ← manifest_field "id" (ValidateIDSegment (mf_ID m));
  let version := "v" +:+ mf_Version m in
  if negb (semver_IsValid version) || negb (String.eqb (semver_Canonical version) version) then
    Err (manifestFieldErr "version" (Errorf "is not a canonical semver major.minor.patch version" []))
  else manifest_field "engine_compat" (CheckEngineCompat (mf_EngineCompat m) engineVersion).

(** [decoded] is the strict YAML decoding of the file. *)
(* src/internal/world/manifest.go#ParseManifest *)
Definition ParseManifest (decoded : res Manifest) (engineVersion : string) : res Manifest :=
  if String.eqb engineVersion EmptyString then Err (Errorf "engine version is required" [])
  else
    manifest ← wrapf ManifestFile decoded;
    _ ← manifest_validate manifest engineVersion;
    Ok manifest.
End manifest.

(** ** Paths ([io/fs] and [path]) *)

Definition slash : ascii := "/"%char.

(** [fs.ValidPath]. *)
Definition fs_ValidPath (name : string) : bool :=
  ValidString name &&
  (String.eqb name "." ||
   forallb (fun elem => negb (mem elem [""; "."; ".."]%string)) (Split slash name)).

(** [path.Clean]: [out] holds the elements kept, last first. *)
Fixpoint clean_elements (rooted : bool) (elems out : list string) : list string :=
  match elems with
  | [] => rev out
  | elem :: rest =>
      if mem elem [""; "."]%string then clean_elements rooted rest out
      else if String.eqb elem ".." then
        match out with
        | top :: below =>
            if String.eqb top ".." then clean_elements rooted rest (elem :: out) else clean_elements rooted rest below
        | [] => match rooted with
                | true => clean_elements rooted rest out
                | false => clean_elements rooted rest [elem]
                end
        end
      else clean_elements rooted rest (elem :: out)
  end.

Definition path_Clean (path : string) : string :=
  let rooted := HasPrefix path "/" in
  let cleaned := Join slash (clean_elements rooted (Split slash path) []) in
  let cleaned := if rooted then "/" +:+ cleaned else cleaned in
  if String.eqb cleaned EmptyString then "." else cleaned.

(** [path.Ext]: from the final dot of the last element. *)
Fixpoint ext_of (s : string) : string :=
  match s with
  | EmptyString => EmptyString
  | String c rest => if Ascii.eqb c dot && negb (contains_char dot rest) then s else ext_of rest
  end.

Definition path_Ext (path : string) : string := ext_of (List.last (Split slash path) EmptyString).

(** [path.Join] of a directory of the package and a name in it. *)
Definition path_Join (dir name : string) : string := path_Clean (dir +:+ "/" +:+ name).

Example path_Clean_dots : path_Clean "rules/../../a//b/." = "../a/b"%string.
Proof. vm_compute. reflexivity. Qed.

(** ** The experience catalog *)

(* src/internal/world/catalog.go#const PacksFile *)
Definition PacksFile : string := "packs.yaml".
(* src/internal/world/package.go#const RulesDir *)
Definition RulesDir : string := "rules".
(* src/internal/world/package.go#const PersonasDir *)
Definition PersonasDir : string := "personas".

(** A Go map that may be nil. *)
Abbreviation gomap A := (option (gmap string A)).
Definition get {A} (m : gomap A) (k : string) : option A := default ∅ m !! k.

(* src/internal/world/catalog.go#type PackCatalog *)
Record PackCatalog : Type := {
  pc_Version : Z; pc_DefaultPersonaPack : string; pc_DefaultMechanicsPack : string;
  pc_PersonaPacks : gomap (list string); pc_MechanicsPacks : gomap (list string);
  pc_personaCoverage : gomap Z }.

(* src/internal/world/catalog.go:37-37 (coversAdjudicator) *)
Definition coversAdjudicator : Z := 1.
(* src/internal/world/catalog.go:38-38 (coversNarrator) *)
Definition coversNarrator : Z := 2.
(* src/internal/world/catalog.go:39-39 (requiredPersonaCoverage) *)
Definition requiredPersonaCoverage : Z := Z.lor coversAdjudicator coversNarrator.

(** [packWire]: the files, which may be absent. *)
(* src/internal/world/catalog.go#type catalogWire *)
Record catalogWire : Type := {
  cw_Version : Z; cw_PersonaPack : string; cw_MechanicsPack : string;
  cw_PersonaPacks : gomap (option (list string)); cw_MechanicsPacks : gomap (option (list string)) }.

(* src/internal/world/catalog.go#catalogError *)
Definition catalogError (field : string) (err : error) : error := package_field_error PacksFile field err.

Definition catalog_field {A} (field : string) (r : res A) : res A :=
  match r with Ok a => Ok a | Err err => Err (catalogError field err) end.

(* src/internal/world/catalog.go#implicitCatalog *)
Definition implicitCatalog (personaFiles : list string) : PackCatalog := {|
  pc_Version := 1; pc_DefaultPersonaPack := "default"; pc_DefaultMechanicsPack := "default";
  pc_PersonaPacks := Some {[ "default" := Sort personaFiles ]};
  pc_MechanicsPacks := Some {[ "default" := [] ]};
  pc_personaCoverage := None |}.

(* src/internal/world/catalog.go#isZeroCatalog *)
Definition isZeroCatalog (catalog : PackCatalog) : bool :=
  (pc_Version catalog =? 0) && String.eqb (pc_DefaultPersonaPack catalog) EmptyString &&
  String.eqb (pc_DefaultMechanicsPack catalog) EmptyString &&
  bool_decide (pc_PersonaPacks catalog = None) && bool_decide (pc_MechanicsPacks catalog = None) &&
  bool_decide (pc_personaCoverage catalog = None).

(** A copy that shares nothing with the original: the same value here. *)
(* src/internal/world/catalog.go#clonePackCatalog *)
Definition clonePackCatalog (in_ : PackCatalog) : PackCatalog := in_.

(* src/internal/world/catalog.go#catalogFiles *)
Definition catalogFiles (packs : gomap (list string)) : list string :=
  Sort (elements (list_to_set (flat_map snd (map_to_list (default ∅ packs))) : gset string)).

(* src/internal/world/catalog.go#validatePackPath *)
Definition validatePackPath (file dir : string) : res unit :=
  if String.eqb file EmptyString then Err (Errorf "file path is empty" [])
  else if negb (fs_ValidPath file) || negb (String.eqb (path_Clean file) file) then
    Err (Errorf "file path is not a clean package-relative path" [])
  else if negb (HasPrefix file (dir +:+ "/")) then Err (Errorf "file path must remain below the directory" [])
  else if negb (String.eqb (path_Ext file) ".json") then Err (Errorf "file path must have the .json extension" [])
  else Ok tt.

(* src/internal/world/catalog.go#validatePersonaCoverage *)
Definition validatePersonaCoverage (coverage : Z) : res unit :=
  if (Z.land coverage coversAdjudicator =? 0) || (Z.land coverage coversNarrator =? 0) then
    Err (Errorf "instance experience persona pack is missing required role(s)" [])
  else Ok tt.

(** ** Persona records

    [persona.Persona] is upstream's: the roles it declares and its own check. *)
Class PersonaRecords : Type := {
  PersonaRecord : Type;
  PersonaRecord_Roles : PersonaRecord -> list string;
  PersonaRecord_Validate : PersonaRecord -> res unit
}.

Section personas.
Context `{PersonaRecords}.

(* src/internal/world/package.go#ValidatePersonaRecord *)
Definition ValidatePersonaRecord (record : option PersonaRecord) : res unit :=
  match record with
  | None => Err (Errorf "the persona record is nil" [])
  | Some record =>
      _ ← PersonaRecord_Validate record;
      if Nat.eqb (List.length (PersonaRecord_Roles record)) 0 then
        Err (Errorf "the persona record declares no roles" [])
      else Ok tt
  end.

(* src/internal/world/package.go#DecodePersonaRecord *)
Definition DecodePersonaRecord (decoded : res PersonaRecord) : res PersonaRecord :=
  record ← decoded;
  _ ← ValidatePersonaRecord (Some record);
  Ok record.

(* src/internal/world/package.go#checkPersonaRecord *)
Definition checkPersonaRecord (decoded : res PersonaRecord) : res unit :=
  _ ← DecodePersonaRecord decoded; Ok tt.

(* src/internal/world/catalog.go#personaCoverageForRecords *)
Definition personaCoverageForRecords (records : list PersonaRecord) : Z :=
  fold_left (fun coverage record =>
    fold_left (fun coverage role =>
      if String.eqb role RoleAdjudicator then Z.lor coverage coversAdjudicator
      else if String.eqb role RoleNarrator then Z.lor coverage coversNarrator
      else coverage) (PersonaRecord_Roles record) coverage) records 0.

(* src/internal/world/catalog.go#ValidatePersonaRoleCoverage *)
Definition ValidatePersonaRoleCoverage (records : list PersonaRecord) : res unit :=
  validatePersonaCoverage (personaCoverageForRecords records).
End personas.

(** ** The package directory

    [fs.FS] with the decodings of a file's bytes: what each reader of the
    package sees at a path. *)
(** [fs.ErrNotExist] and [io.EOF]. *)
Definition ErrNotExist : string := "file does not exist".
Definition EOF : string := "EOF".

Record DirEntry : Type := { de_Name : string; de_IsDir : bool }.

Record PackageFS `{PersonaRecords} : Type := {
  fs_Bytes : Type;
  fs_ReadFile : string -> res fs_Bytes;
  fs_ReadDir : string -> res (list DirEntry);
  as_manifest : fs_Bytes -> res Manifest;
  as_lines : fs_Bytes -> list string * option error;
  as_line : string -> res (entityLine * bool);
  as_rules : fs_Bytes -> bool * res (list WorldRule) * res WorldRule;
  as_persona : fs_Bytes -> res PersonaRecord;
  (** the first document, and what decoding the rest of the stream gives *)
  as_catalog : fs_Bytes -> res catalogWire * res unit
}.

Section load.
Context `{Substrate} `{Semver} `{WorldRuleEngine} `{PersonaRecords}.
Context (fsys : PackageFS).

(* src/internal/world/catalog.go#personaCoverageForFiles *)
Fixpoint personaCoverageForFiles (files : list string) : res Z :=
  match files with
  | [] => Ok 0
  | file :: rest =>
      data ← wrapf "packs.yaml: read persona roles" (fs_ReadFile fsys file);
      record ← wrapf "packs.yaml: decode persona roles" (DecodePersonaRecord (as_persona fsys data));
      coverage ← personaCoverageForFiles rest;
      Ok (Z.lor (personaCoverageForRecords [record]) coverage)
  end.

Fixpoint validate_pack_files (field dir : string) (check : fs_Bytes fsys -> res unit) (seen files : list string)
    : res unit :=
  match files with
  | [] => Ok tt
  | file :: rest =>
      _ ← catalog_field field (validatePackPath file dir);
      if mem file seen then Err (catalogError field (Errorf "duplicate file" []))
      else
        data ← catalog_field field (wrapf "read" (fs_ReadFile fsys file));
        _ ← catalog_field field (wrapf file (check data));
        validate_pack_files field dir check (file :: seen) rest
  end.

Fixpoint validate_named (field dir : string) (packs : gmap string (option (list string))) (emptyAllowed : bool)
    (check : fs_Bytes fsys -> res unit) (names : list string) : res (gmap string (list string)) :=
  match names with
  | [] => Ok ∅
  | name :: rest =>
      let files_field := field +:+ "." +:+ name +:+ ".files" in
      _ ← catalog_field field (wrapf "pack name" (ValidateIDSegment name));
      match default None (packs !! name) with
      | None => Err (catalogError files_field (Errorf "is required" []))
      | Some files =>
          if Nat.eqb (List.length files) 0 && negb emptyAllowed then
            Err (catalogError files_field (Errorf "persona pack is empty" []))
          else
            _ ← validate_pack_files files_field dir check [] files;
            out ← validate_named field dir packs emptyAllowed check rest;
            Ok (<[name := Sort files]> out)
      end
  end.

(* src/internal/world/catalog.go#validatePacks *)
Definition validatePacks (field dir : string) (packs : gmap string (option (list string))) (emptyAllowed : bool)
    (check : fs_Bytes fsys -> res unit) : res (gmap string (list string)) :=
  validate_named field dir packs emptyAllowed check (Sort (map fst (map_to_list packs))).

(** The range over the persona packs; of several packs that fail, which is
    reported varies with the map's order. *)
Fixpoint coverage_of (packs : list (string * list string)) : res (gmap string Z) :=
  match packs with
  | [] => Ok ∅
  | (name, files) :: rest =>
      coverage ← personaCoverageForFiles files;
      out ← coverage_of rest;
      Ok (<[name := coverage]> out)
  end.

(* src/internal/world/catalog.go#parseCatalog *)
Definition parseCatalog (data : fs_Bytes fsys) : res PackCatalog :=
  let '(decoded, extra) := as_catalog fsys data in
  wire ← wrapf PacksFile decoded;
  match extra with
  | Ok _ => Err (Errorf PacksFile [Errorf "contains more than one YAML document" []])
  | Err err =>
      if negb (errors_Is EOF err) then Err (Errorf PacksFile [err])
      else if negb (cw_Version wire =? 1) then Err (catalogError "version" (Errorf "want 1" []))
      else if String.eqb (cw_PersonaPack wire) EmptyString then
        Err (catalogError "defaults.persona_pack" (Errorf "is required" []))
      else if String.eqb (cw_MechanicsPack wire) EmptyString then
        Err (catalogError "defaults.mechanics_pack" (Errorf "is required" []))
      else
        match cw_PersonaPacks wire, cw_MechanicsPacks wire with
        | None, _ => Err (catalogError "persona_packs" (Errorf "is required" []))
        | _, None => Err (catalogError "mechanics_packs" (Errorf "is required" []))
        | Some personaPacks, Some mechanicsPacks =>
            personas ← validatePacks "persona_packs" PersonasDir personaPacks false
                         (fun data => checkPersonaRecord (as_persona fsys data));
            mechanics ← validatePacks "mechanics_packs" RulesDir mechanicsPacks true
                          (fun data => checkRuleFile (as_rules fsys data));
            match personas !! cw_PersonaPack wire, mechanics !! cw_MechanicsPack wire with
            | None, _ => Err (catalogError "defaults.persona_pack" (Errorf "names no persona pack" []))
            | _, None => Err (catalogError "defaults.mechanics_pack" (Errorf "names no mechanics pack" []))
            | Some _, Some _ =>
                personaCoverage ← coverage_of (map_to_list personas);
                Ok {| pc_Version := 1; pc_DefaultPersonaPack := cw_PersonaPack wire;
                      pc_DefaultMechanicsPack := cw_MechanicsPack wire;
                      pc_PersonaPacks := Some personas; pc_MechanicsPacks := Some mechanics;
                      pc_personaCoverage := Some personaCoverage |}
            end
        end
  end.

(** The catalog, and whether the package declares it. *)
(* src/internal/world/catalog.go#loadCatalog *)
Definition loadCatalog (legacyPersonaFiles : list string) : res (PackCatalog * bool) :=
  match fs_ReadFile fsys PacksFile with
  | Err err =>
      if errors_Is ErrNotExist err then
        let catalog := implicitCatalog legacyPersonaFiles in
        coverage ← personaCoverageForFiles legacyPersonaFiles;
        Ok ({| pc_Version := pc_Version catalog; pc_DefaultPersonaPack := pc_DefaultPersonaPack catalog;
               pc_DefaultMechanicsPack := pc_DefaultMechanicsPack catalog;
               pc_PersonaPacks := pc_PersonaPacks catalog; pc_MechanicsPacks := pc_MechanicsPacks catalog;
               pc_personaCoverage := Some {[ "default" := coverage ]} |}, false)
      else Err (Errorf "read packs.yaml" [err])
  | Ok data => catalog ← parseCatalog data; Ok (catalog, true)
  end.

(** ** Loading *)

(* src/internal/world/package.go#loadJSONDir *)
Definition loadJSONDir (dir : string) (required : bool) (check : fs_Bytes fsys -> res unit) : res (list string) :=
  match fs_ReadDir fsys dir with
  | Err err => if negb required && errors_Is ErrNotExist err then Ok [] else Err (Errorf "read directory" [err])
  | Ok entries =>
      let names := map (fun entry => path_Join dir (de_Name entry))
                     (List.filter (fun entry => negb (de_IsDir entry) && String.eqb (path_Ext (de_Name entry)) ".json") entries) in
      _ ← all_ok (fun name =>
            data ← wrapf "read" (fs_ReadFile fsys name);
            wrapf name (check data)) names;
      if Nat.eqb (List.length names) 0 && required then Err (Errorf dir [Errorf "holds no .json files" []])
      else Ok (Sort names)
  end.

(* src/internal/world/package.go#type Package *)
Record Package : Type := {
  pkg_Manifest : Manifest; pkg_Entities : list TemplateEntity; pkg_Mystery : option MysteryCase;
  pkg_Catalog : PackCatalog; pkg_validatedCatalog : option PackCatalog;
  pkg_RuleFiles : list string; pkg_PersonaFiles : list string }.

(* src/internal/world/package.go#type LoadOptions *)
Record LoadOptions : Type := { lo_EngineVersion : string; lo_AttributeSpecs : option AttributeSpecSet }.

(* src/internal/world/package.go#LoadOptions.engineVersion *)
Definition engineVersion (o : LoadOptions) : string :=
  if String.eqb (lo_EngineVersion o) EmptyString then EngineVersion else lo_EngineVersion o.

(* src/internal/world/package.go#LoadOptions.attributeSpecs *)
Definition attributeSpecs (o : LoadOptions) : AttributeSpecSet := default DefaultAttributeSpecs (lo_AttributeSpecs o).

(* src/internal/world/package.go#LoadPackage *)
Definition LoadPackage (opts : LoadOptions) : res Package :=
  manifestData ← wrapf "read manifest.yaml" (fs_ReadFile fsys ManifestFile);
  manifest ← ParseManifest (as_manifest fsys manifestData) (engineVersion opts);
  entityData ← wrapf "read entities.jsonl" (fs_ReadFile fsys EntitiesFile);
  let '(lines, scanErr) := as_lines fsys entityData in
  entities ← ParseEntities (as_line fsys) lines scanErr (attributeSpecs opts);
  _ ← wrapf "validate place package" (validatePlaceEntities entities);
  mystery ← wrapf "validate mystery package" (validateMysteryEntities entities);
  legacyRuleFiles ← loadJSONDir RulesDir false (fun data => checkRuleFile (as_rules fsys data));
  legacyPersonaFiles ← loadJSONDir PersonasDir false (fun data => checkPersonaRecord (as_persona fsys data));
  '(catalog, explicitCatalog) ← loadCatalog legacyPersonaFiles;
  if negb explicitCatalog && Nat.eqb (List.length legacyPersonaFiles) 0 then
    Err (Errorf PersonasDir [Errorf "holds no .json files" []])
  else
    Ok {| pkg_Manifest := manifest; pkg_Entities := entities; pkg_Mystery := mystery;
          pkg_Catalog := clonePackCatalog catalog; pkg_validatedCatalog := Some (clonePackCatalog catalog);
          pkg_RuleFiles := if explicitCatalog : bool then catalogFiles (pc_MechanicsPacks catalog) else legacyRuleFiles;
          pkg_PersonaFiles := if explicitCatalog : bool then catalogFiles (pc_PersonaPacks catalog) else legacyPersonaFiles |}.
End load.
