(* ===== verification/WorldImport.v ===== *)
(** [internal/world], part four: resolving a package into one instance
    ([instance.go]), the seal of the plan ([planseal.go]) and the importer that
    publishes it ([importer.go]). *)

From S2P Require Import Prelude GoStd GoHash GoErrors Graph Vocab Vocabulary Payload Store WorldEntity WorldTemplate WorldRules WorldPackage.

Open Scope Z_scope.

(** ** The instance *)

(* src/internal/world/instance.go#type PlayerBinding *)
Record PlayerBinding : Type := { pb_LocalID : string; pb_Name : string; pb_Character : string }.
(* src/internal/world/instance.go#type CompanionBinding *)
Record CompanionBinding : Type := { cb_Character : string; cb_Policy : string }.
(* src/internal/world/instance.go#type ExperienceSelection *)
Record ExperienceSelection : Type := { es_PersonaPack : string; es_MechanicsPack : string }.

(* src/internal/world/instance.go#type InstanceConfig *)
Record InstanceConfig : Type := {
  ic_Org : string; ic_WorldNS : string; ic_Player : PlayerBinding;
  ic_Companion : option CompanionBinding; ic_Experience : ExperienceSelection }.

(* src/internal/world/instance.go#type PlannedEntity *)
Record PlannedEntity : Type := {
  pn_ID : string; pn_Kind : string; pn_Template : TemplateRef; pn_Facts : list WorldFact }.

(* src/internal/world/instance.go#type ResolvedExperience *)
Record ResolvedExperience : Type := {
  rx_PersonaPack : string; rx_MechanicsPack : string;
  rx_PersonaFiles : list string; rx_MechanicsFiles : list string }.

(** Every importable part of a plan: what the seal covers. *)
(* src/internal/world/planseal.go#type planSealWire *)
Record planSealWire : Type := {
  ps_Org : string; ps_WorldNS : string; ps_TemplateID : string; ps_TemplateVersion : string;
  ps_Experience : ResolvedExperience; ps_Entities : list PlannedEntity }.

(* src/internal/world/instance.go#type Plan *)
Record Plan : Type := { pl_Wire : planSealWire; pl_seal : list Z }.

(* src/internal/world/instance.go#Plan.IDs *)
Definition Plan_IDs (p : Plan) : list string := map pn_ID (ps_Entities (pl_Wire p)).

(* src/internal/world/instance.go#PlannedEntity.Payload *)
Definition PlannedEntity_Payload (e : PlannedEntity) (recordedAt : time) : WorldEntity := {|
  we_ID := pn_ID e; we_Kind := pn_Kind e; we_Template := pn_Template e;
  we_Facts := pn_Facts e; we_RecordedAt := recordedAt |}.

Definition literal (predicate : string) (object : any) : WorldFact :=
  {| wf_Predicate := predicate; wf_Object := object; wf_Reference := false |}.

Definition reference (predicate object : string) : WorldFact :=
  {| wf_Predicate := predicate; wf_Object := AString object; wf_Reference := true |}.

(** [strings.CutPrefix], whose remainder without the prefix is the text itself. *)
Definition local_name (ref : string) : string := default ref (CutPrefix ref LocalRefPrefix).

Section resolve.
Context `{Substrate}.

(* src/internal/world/instance.go#InstanceConfig.Validate *)
Definition InstanceConfig_Validate (c : InstanceConfig) : res unit :=
  _ ← wrapf "instance org" (ValidateIDSegment (ic_Org c));
  _ ← wrapf "instance world namespace" (ValidateIDSegment (ic_WorldNS c));
  _ ← wrapf "instance player id" (ValidateIDSegment (pb_LocalID (ic_Player c)));
  if String.eqb (TrimSpace (pb_Name (ic_Player c))) EmptyString then
    Err (Errorf "instance player name is required" [])
  else if MaxFactTextBytes <? len (pb_Name (ic_Player c)) then
    Err (Errorf "instance player name exceeds the fact-text budget" [])
  else if negb (HasPrefix (pb_Character (ic_Player c)) LocalRefPrefix) then
    Err (Errorf "instance player character must be a reference into the template" [])
  else
    match ic_Companion c with
    | None => Ok tt
    | Some companion =>
        if negb (HasPrefix (cb_Character companion) LocalRefPrefix) then
          Err (Errorf "instance companion character must be a reference into the template" [])
        else _ ← wrapf "instance companion policy" (ParseCompanionPolicy (cb_Policy companion)); Ok tt
    end.

(* src/internal/world/instance.go#companionBondLocalID *)
Definition companionBondLocalID (worldNS playerID companionID : string) : string :=
  framed_digest ["companion-bond/v1"%string; worldNS; playerID; companionID].

(* src/internal/world/instance.go#CompanionBondID *)
Definition CompanionBondID (org worldNS template playerID companionID : string) : res string :=
  ComposeEntityID org worldNS template EntityKindCompanionBond (companionBondLocalID worldNS playerID companionID).

(** The map of the first pass, local id to composed id; [kinds[id]] is the kind
    of the entity [byID] finds, and the empty kind of an id not declared. *)
Fixpoint compose_ids (inst : InstanceConfig) (templateID : string) (entities : list TemplateEntity)
    : res (list (string * string)) :=
  match entities with
  | [] => Ok []
  | entity :: rest =>
      match ComposeEntityID (ic_Org inst) (ic_WorldNS inst) templateID (te_Kind entity) (te_LocalID entity) with
      | Err err => Err (lineErr (te_Line entity) err)
      | Ok id => ids ← compose_ids inst templateID rest; Ok ((te_LocalID entity, id) :: ids)
      end
  end.

(** Later entries win, as they do in the map. *)
Definition mapped (ids : list (string * string)) (local : string) : option string :=
  option_map snd (List.find (fun entry => String.eqb entry.1 local) (rev ids)).

Definition kind_of (entities : list TemplateEntity) (local : string) : string :=
  match byID entities local with Some entity => te_Kind entity | None => EmptyString end.

(* src/internal/world/instance.go#resolveFact *)
Definition resolveFact (ids : list (string * string)) (entities : list TemplateEntity)
    (entity : TemplateEntity) (fact : TemplateFact) : res WorldFact :=
  if negb (IsReference fact) then Ok (literal (tf_Predicate fact) (tf_Literal fact))
  else
    match mapped ids (tf_LocalRef fact) with
    | None => Err (Errorf "entity references an id no entity in this package declares" [])
    | Some target =>
        if String.eqb (tf_LocalRef fact) (te_LocalID entity) then Err (Errorf "entity references itself" [])
        else if negb (AllowsObjectKind (tf_Predicate fact) (kind_of entities (tf_LocalRef fact))) then
          Err (Errorf "entity points a predicate at an entity of a kind it does not allow" [])
        else Ok (reference (tf_Predicate fact) target)
    end.

Fixpoint resolve_facts (ids : list (string * string)) (entities : list TemplateEntity)
    (entity : TemplateEntity) (facts : list TemplateFact) : res (list WorldFact) :=
  match facts with
  | [] => Ok []
  | fact :: rest =>
      match resolveFact ids entities entity fact with
      | Err err => Err (lineErr (te_Line entity) err)
      | Ok resolved => out ← resolve_facts ids entities entity rest; Ok (resolved :: out)
      end
  end.

Fixpoint plan_entities (ids : list (string * string)) (entities : list TemplateEntity)
    (templateRef : string -> TemplateRef) (l : list TemplateEntity) : res (list PlannedEntity) :=
  match l with
  | [] => Ok []
  | entity :: rest =>
      facts ← resolve_facts ids entities entity (te_Facts entity);
      planned ← plan_entities ids entities templateRef rest;
      Ok ({| pn_ID := default EmptyString (mapped ids (te_LocalID entity)); pn_Kind := te_Kind entity;
             pn_Template := templateRef (te_LocalID entity); pn_Facts := facts |} :: planned)
  end.

(* src/internal/world/instance.go#planPlayerEntity *)
Definition planPlayerEntity (templateID : string) (inst : InstanceConfig) (ids : list (string * string))
    (entities : list TemplateEntity) (templateRef : string -> TemplateRef) : res PlannedEntity :=
  let player := ic_Player inst in
  let local := local_name (pb_Character player) in
  _ ← wrapf "instance player character" (ValidateIDSegment local);
  match mapped ids local with
  | None => Err (Errorf "instance player character names no entity in the template" [])
  | Some character =>
      if negb (AllowsObjectKind PlayerCharacterCurrent (kind_of entities local)) then
        Err (Errorf "instance player character is of another kind" [])
      else
        match mapped ids (pb_LocalID player) with
        | Some _ => Err (Errorf "instance player id collides with a template entity of the same local id" [])
        | None =>
            id ← ComposeEntityID (ic_Org inst) (ic_WorldNS inst) templateID EntityKindPlayer (pb_LocalID player);
            Ok {| pn_ID := id; pn_Kind := EntityKindPlayer; pn_Template := templateRef (pb_LocalID player);
                  pn_Facts := [literal WorldEntityName (AString (pb_Name player));
                               reference PlayerCharacterCurrent character] |}
        end
  end.

(** The candidate policies the named character carries. *)
Fixpoint candidate_policies (facts : list TemplateFact) : res (list string) :=
  match facts with
  | [] => Ok []
  | fact :: rest =>
      policy ← ParseCompanionPolicy (Effect.Sprint (tf_Literal fact));
      policies ← candidate_policies rest;
      Ok (policy :: policies)
  end.

Definition candidate_facts (entities : list TemplateEntity) (local : string) : list TemplateFact :=
  flat_map (fun entity =>
    if String.eqb (te_LocalID entity) local then factsFor entity CompanionCandidatePolicy else []) entities.

(** [player.Facts[1].Object.(string)] *)
Definition controlled_character (player : PlannedEntity) : string :=
  match nth_error (pn_Facts player) 1 with
  | Some fact => match wf_Object fact with AString s => s | _ => EmptyString end
  | None => EmptyString
  end.

(* src/internal/world/instance.go#planCompanionBond *)
Definition planCompanionBond (templateID : string) (inst : InstanceConfig) (companion : CompanionBinding)
    (player : PlannedEntity) (ids : list (string * string)) (entities : list TemplateEntity)
    (templateRef : string -> TemplateRef) : res PlannedEntity :=
  let local := local_name (cb_Character companion) in
  match mapped ids local with
  | None => Err (Errorf "instance companion character names no entity in the template" [])
  | Some companionID =>
      if negb (String.eqb (kind_of entities local) EntityKindCharacter) then
        Err (Errorf "instance companion character is of another kind, want character" [])
      else if String.eqb companionID (controlled_character player) then
        Err (Errorf "instance companion cannot be the player's controlled character" [])
      else
        policies ← candidate_policies (candidate_facts entities local);
        match policies with
        | [candidate] =>
            if String.eqb candidate CompanionPolicyReactive &&
               String.eqb (cb_Policy companion) CompanionPolicyBoundedInitiative then
              Err (Errorf "active companion policy is wider than candidate policy" [])
            else
              bondID ← CompanionBondID (ic_Org inst) (ic_WorldNS inst) templateID (pn_ID player) companionID;
              Ok {| pn_ID := bondID; pn_Kind := EntityKindCompanionBond;
                    pn_Template := templateRef (companionBondLocalID (ic_WorldNS inst) (pn_ID player) companionID);
                    pn_Facts := [reference CompanionBondPlayer (pn_ID player);
                                 reference CompanionBondCharacter companionID;
                                 literal CompanionBondPolicy (AString (cb_Policy companion));
                                 literal CompanionBondHintLevel (AString HintLevelNudge)] |}
        | _ => Err (Errorf "companion character must carry exactly one candidate policy" [])
        end
  end.

(** ** The experience ([catalog.go]) *)

(* src/internal/world/catalog.go#Package.resolveExperience *)
Definition resolveExperience (p : Package) (selection : ExperienceSelection) : res ResolvedExperience :=
  catalog ←
    match pkg_validatedCatalog p with
    | Some catalog => Ok catalog
    | None =>
        if isZeroCatalog (pkg_Catalog p) then Ok (implicitCatalog (pkg_PersonaFiles p))
        else Err (Errorf "package experience catalog was not validated by LoadPackage" [])
    end;
  let personaPack :=
    if String.eqb (es_PersonaPack selection) EmptyString then pc_DefaultPersonaPack catalog
    else es_PersonaPack selection in
  let mechanicsPack :=
    if String.eqb (es_MechanicsPack selection) EmptyString then pc_DefaultMechanicsPack catalog
    else es_MechanicsPack selection in
  match get (pc_PersonaPacks catalog) personaPack with
  | None => Err (Errorf "instance experience persona pack is not declared by the catalog" [])
  | Some personaFiles =>
      _ ← match get (pc_personaCoverage catalog) personaPack with
          | Some coverage => validatePersonaCoverage coverage
          | None => Ok tt
          end;
      match get (pc_MechanicsPacks catalog) mechanicsPack with
      | None => Err (Errorf "instance experience mechanics pack is not declared by the catalog" [])
      | Some mechanicsFiles =>
          Ok {| rx_PersonaPack := personaPack; rx_MechanicsPack := mechanicsPack;
                rx_PersonaFiles := Sort personaFiles; rx_MechanicsFiles := Sort mechanicsFiles |}
      end
  end.

(** ** The seal

    [marshal] is [json.Marshal] of the sealed fields. *)
Context (marshal : planSealWire -> res string).

Definition zero_seal : list Z := repeat 0 32.

(* src/internal/world/planseal.go#Plan.sealBytes *)
Definition sealBytes (p : Plan) : res (list Z) :=
  match marshal (pl_Wire p) with
  | Err err => Err (Errorf "seal resolved world plan" [err])
  | Ok wire => Ok (sha256 (bytes_of wire))
  end.

(* src/internal/world/planseal.go#Plan.sealResolved *)
Definition sealResolved (p : Plan) : res Plan :=
  seal ← sealBytes p;
  Ok {| pl_Wire := pl_Wire p; pl_seal := seal |}.

(* src/internal/world/planseal.go#Plan.requireResolvedSeal *)
Definition requireResolvedSeal (p : option Plan) : res unit :=
  match p with
  | None => Err (Errorf "world plan is nil" [])
  | Some p =>
      seal ← sealBytes p;
      if negb (bool_decide (pl_seal p = seal)) then
        Err (Errorf "world plan was not produced unchanged by Package.Resolve" [])
      else Ok tt
  end.

(** ** Resolving *)

(* src/internal/world/instance.go#Package.Resolve *)
Definition Package_Resolve (p : Package) (inst : InstanceConfig) : res Plan :=
  _ ← wrapf "validate place package" (validatePlaceEntities (pkg_Entities p));
  _ ← wrapf "validate mystery package" (validateMysteryEntities (pkg_Entities p));
  _ ← InstanceConfig_Validate inst;
  experience ← resolveExperience p (ic_Experience inst);
  let templateID := mf_ID (pkg_Manifest p) in
  let templateRef localID :=
    {| tr_ID := templateID; tr_Version := mf_Version (pkg_Manifest p); tr_LocalID := localID |} in
  let entities := pkg_Entities p in
  ids ← compose_ids inst templateID entities;
  planned ← plan_entities ids entities templateRef entities;
  player ← planPlayerEntity templateID inst ids entities templateRef;
  bond ← match ic_Companion inst with
         | None => Ok []
         | Some companion =>
             bond ← planCompanionBond templateID inst companion player ids entities templateRef;
             Ok [bond]
         end;
  sealResolved {|
    pl_Wire := {| ps_Org := ic_Org inst; ps_WorldNS := ic_WorldNS inst; ps_TemplateID := templateID;
                  ps_TemplateVersion := mf_Version (pkg_Manifest p); ps_Experience := experience;
                  ps_Entities := planned ++ player :: bond |};
    pl_seal := zero_seal |}.
End resolve.

(** ** Importing *)

(* src/internal/world/importer.go#const DefaultImportSubject *)
Definition DefaultImportSubject : string := "entity.world.import".
(* src/internal/world/importer.go#const ImportSource *)
Definition ImportSource : string := "world-importer".

(** The stream, whose acknowledgement names the sequence it stored the message
    under and may be missing, and [json.Marshal] of the envelope around a
    payload. *)
(* src/internal/world/importer.go#type Publisher *)
Class Publisher (W : Type) : Type := { PublishToStreamWithAck : string -> string -> MW W (option Z) }.
Class EntityEnvelope : Type := { marshal_entity : MessageType -> WorldEntity -> string -> time -> res string }.

(* src/internal/world/importer.go#type Importer *)
Record Importer : Type := { im_subject : string; im_source : string }.

(* src/internal/world/importer.go#type ImportResult *)
Record ImportResult : Type := { ir_Entities : list string; ir_Sequences : list Z; ir_RecordedAt : time }.

Definition zero_ImportResult : ImportResult := {| ir_Entities := []; ir_Sequences := []; ir_RecordedAt := 0 |}.

(** The options are settings of the subject and the clock; [subject] is what
    they leave. *)
(* src/internal/world/importer.go#NewImporter *)
Definition NewImporter (publisher : bool) (subject : string) (clock : bool) : res Importer :=
  if negb publisher then Err (Errorf "world importer requires a publisher" [])
  else if String.eqb subject EmptyString then Err (Errorf "world importer requires a publish subject" [])
  else if negb clock then Err (Errorf "world importer requires a clock" [])
  else Ok {| im_subject := subject; im_source := ImportSource |}.

Section import.
Context {W : Type} `{Substrate} `{Clock W} `{Publisher W} `{EntityEnvelope}.
Context (marshal : planSealWire -> res string).
Context (i : Importer).

(* src/internal/world/importer.go#Importer.encode *)
Definition Importer_encode (entity : WorldEntity) : res string :=
  _ ← wrapf "invalid world entity" (WorldEntity_Validate entity);
  wrapf "encode world entity" (marshal_entity WorldEntitySchema entity (im_source i) (we_RecordedAt entity)).

Fixpoint prepare (recordedAt : time) (entities : list PlannedEntity) : res (list (string * string)) :=
  match entities with
  | [] => Ok []
  | planned :: rest =>
      let entity := PlannedEntity_Payload planned recordedAt in
      wire ← wrapf "entity" (Importer_encode entity);
      prepared ← prepare recordedAt rest;
      Ok ((we_ID entity, wire) :: prepared)
  end.

(** The publishing loop, with what it has recorded so far; a failure keeps the
    record beside its error. *)
Fixpoint publish_all (recordedAt : time) (result : ImportResult) (prepared : list (string * string))
    : MW W (ImportResult * option error) :=
  match prepared with
  | [] => mret (result, None)
  | (id, wire) :: rest =>
      published ← attempt (PublishToStreamWithAck (im_subject i) wire);
      match published with
      | Err err => mret (result, Some (Errorf "publish entity" [err]))
      | Ok ack =>
          publish_all recordedAt
            {| ir_Entities := ir_Entities result ++ [id]; ir_Sequences := ir_Sequences result ++ [default 0 ack];
               ir_RecordedAt := recordedAt |} rest
      end
  end.

(** The result beside the error, as both are returned. *)
(* src/internal/world/importer.go#Importer.Import *)
Definition Importer_Import (plan : option Plan) : MW W (ImportResult * option error) :=
  match plan with
  | None => mret (zero_ImportResult, Some (Errorf "world importer requires a plan" []))
  | Some p =>
      if Nat.eqb (List.length (ps_Entities (pl_Wire p))) 0 then
        mret (zero_ImportResult, Some (Errorf "world plan materializes no entities" []))
      else
        match requireResolvedSeal marshal plan with
        | Err err => mret (zero_ImportResult, Some err)
        | Ok _ =>
            recordedAt ← read_clock;
            let result := {| ir_Entities := []; ir_Sequences := []; ir_RecordedAt := recordedAt |} in
            match prepare recordedAt (ps_Entities (pl_Wire p)) with
            | Err err => mret (result, Some err)
            | Ok prepared => publish_all recordedAt result prepared
            end
        end
  end.
End import.
