(* ===== verification/Companion.v ===== *)
(** [internal/companion] and [stage/companion.go]: the authority over a player's
    one companion bond, the hint ladder, the trigger that brings the companion
    in, the executor of a companion's decision, the evidence a narration may
    draw from it, and the stage that runs them. *)

From S2P Require Import Prelude GoStd GoHash GoErrors Graph Vocab Vocabulary Payload Mechanics Decisions ContentRecords ContentStore ProjectionContract Store WorldEntity Sequencing Turn Caseflow Knowledge Stage Scene Epistemic Persona WorldImport.

Open Scope Z_scope.

(* src/internal/companion/authority.go#var ErrBondIntegrity *)
Definition ErrBondIntegrity : string := "companion bond integrity failure".

(* src/internal/companion/authority.go#integrity *)
Definition bond_integrity (msg : string) : error := Errorf msg [Sentinel ErrBondIntegrity].

(** ** Reading an entity strictly *)

(** The triples of the predicate, whatever their subject. *)
Definition of_predicate (state : EntityState) (predicate : string) : list Triple :=
  List.filter (fun t => String.eqb (Predicate t) predicate) (Triples state).

Definition blank (s : string) : bool := String.eqb (TrimSpace s) EmptyString.

(** Every value has to be a string that [bad] does not refuse. *)
Fixpoint text_values (bad : string -> bool) (msg : error) (triples : list Triple) : res (list string) :=
  match triples with
  | [] => Ok []
  | t :: rest =>
      match Object t with
      | AString value =>
          if bad value then Err msg
          else values ← text_values bad msg rest; Ok (value :: values)
      | _ => Err msg
      end
  end.

Definition empty_text (s : string) : bool := String.eqb s EmptyString.

(* src/internal/companion/authority.go#exactString *)
Definition exactString (state : EntityState) (predicate : string) : res string :=
  values ← text_values blank (bond_integrity "entity has a non-string or empty value") (of_predicate state predicate);
  match values with
  | [value] => Ok value
  | _ => Err (bond_integrity "entity carries another number of values, want exactly one")
  end.

(* src/internal/companion/hints.go#soleRecordString *)
Definition soleRecordString (state : EntityState) (predicate : string) : res string :=
  values ← text_values empty_text (Errorf "is not a non-empty string" []) (of_predicate state predicate);
  match values with [value] => Ok value | _ => Err (Errorf "carries another number of values, want exactly one" []) end.

(** The value, or nothing when there is none. *)
(* src/internal/companion/trigger.go#optionalSoleString *)
Definition optionalSoleString (state : EntityState) (predicate : string) : res (option string) :=
  values ← text_values empty_text (Errorf "turn predicate is not a non-empty string" []) (of_predicate state predicate);
  match values with
  | [] => Ok None
  | [value] => Ok (Some value)
  | _ => Err (Errorf "turn carries several values" [])
  end.

(* src/internal/stage/companion.go#optionalSoleTurnString *)
Definition optionalSoleTurnString (state : EntityState) (predicate : string) : res (option string) :=
  values ← text_values empty_text (Errorf "turn predicate is not a string" []) (of_predicate state predicate);
  match values with
  | [] => Ok None
  | [value] => Ok (Some value)
  | _ => Err (Errorf "turn carries several values" [])
  end.

(* src/internal/companion/authority.go#type Bond *)
Record Bond : Type := {
  bo_ID : string; bo_PlayerID : string; bo_CharacterID : string; bo_Policy : string; bo_HintLevel : string }.

Definition with_level (b : Bond) (level : string) : Bond := {|
  bo_ID := bo_ID b; bo_PlayerID := bo_PlayerID b; bo_CharacterID := bo_CharacterID b; bo_Policy := bo_Policy b;
  bo_HintLevel := level |}.

(** [*Authority]: whether its graph is also a writer. *)
(* src/internal/companion/authority.go#type Authority *)
Record Authority : Type := { au_writable : bool }.

Section reading.
Context `{Substrate}.

(* src/internal/companion/authority.go#requireKindID *)
Definition requireKindID (field value want : string) : res unit :=
  parsed ← wrapf field (ParseEntityID value);
  require (String.eqb (eid_Type parsed) want) (Errorf "has another type" []).

(* src/internal/companion/authority.go#exactImportedString *)
Definition exactImportedString (state : EntityState) (predicate : string) : res string :=
  match of_predicate state predicate with
  | [t] =>
      if negb (String.eqb (Source t) WorldImportSource) || blank (Context_ t) then
        Err (bond_integrity "entity predicate lacks world-import template provenance")
      else
        match ParseEntityID (ID state) with
        | Err _ => Err (bond_integrity "entity provenance cannot be matched to its identity")
        | Ok parsed =>
            match Cut "@" (Context_ t) with
            | Some (template, version) =>
                if negb (String.eqb template (eid_System parsed)) || blank version then
                  Err (bond_integrity "entity predicate has inconsistent template provenance")
                else
                  match Object t with
                  | AString value =>
                      if blank value then Err (bond_integrity "entity predicate is not one non-empty string") else Ok value
                  | _ => Err (bond_integrity "entity predicate is not one non-empty string")
                  end
            | None => Err (bond_integrity "entity predicate has inconsistent template provenance")
            end
        end
  | _ => Err (bond_integrity "entity carries another number of values, want exactly one")
  end.

(* src/internal/companion/authority.go#requireStateKind *)
Definition requireStateKind (state : EntityState) (want : string) : res unit :=
  if negb (bool_decide (MsgType state = WorldEntitySchema)) then
    Err (bond_integrity "entity has another message type, want the imported world type")
  else
    value ← exactImportedString state WorldEntityKind;
    if negb (String.eqb value want) then Err (bond_integrity "entity has another kind")
    else match requireKindID "entity" (ID state) want with
         | Err _ => Err (bond_integrity "entity id has another kind")
         | Ok _ => Ok tt
         end.


(** ** The hint ladder *)

(** The level a hint is given at, and the level the next one is. *)
(* src/internal/companion/hints.go#NextHintLevel *)
Definition NextHintLevel (current : string) : res (string * string) :=
  _ ← ParseHintLevel current;
  if String.eqb current HintLevelNudge then Ok (current, HintLevelConnect)
  else if String.eqb current HintLevelConnect then Ok (current, HintLevelNextStep)
  else Ok (current, HintLevelNextStep).

(* src/internal/companion/hints.go#HintEvidenceCount *)
Definition HintEvidenceCount (level : string) : res Z :=
  if String.eqb level HintLevelNudge then Ok 1
  else if String.eqb level HintLevelConnect then Ok 2
  else if String.eqb level HintLevelNextStep then Ok 3
  else _ ← ParseHintLevel level; Ok 0.

(** [message.Type] of a knowledge grant minted at run time. *)
(* src/internal/companion/hints.go:108-109 (knowledgeEvidenceIDs) *)
Definition runtimeGrantType : MessageType :=
  {| Domain := PayloadDomain; Category := "knowledge_grant_entity"; Version_ := SchemaVersion |}.

(** One pass of the loop: the evidence the record grants its holder, if that is
    the companion. *)
(* src/internal/companion/hints.go:103-138 (knowledgeEvidenceIDs) *)
Definition record_evidence (record : EntityState) (companionID : string) : res (option string) :=
  let canonical (id kind : string) : bool :=
    match ParseEntityID id with Ok parsed => String.eqb (eid_Type parsed) kind | Err _ => false end in
  if negb (canonical (ID record) EntityKindKnowledge) then Err (Errorf "knowledge record id is not canonical" [])
  else if negb (bool_decide (MsgType record = WorldEntitySchema)) && negb (bool_decide (MsgType record = runtimeGrantType)) then
    Err (Errorf "knowledge record has another envelope" [])
  else if negb (EVersion record =? 1) then Err (Errorf "knowledge record has another version, want 1" [])
  else
    kind ← wrapf "knowledge record" (soleRecordString record WorldEntityKind);
    if negb (String.eqb kind EntityKindKnowledge) then Err (Errorf "knowledge record declares another kind" [])
    else
      holder ← wrapf "knowledge record" (soleRecordString record KnowledgeActorHolder);
      if negb (String.eqb holder companionID) then Ok None
      else
        evidence ← wrapf "knowledge record" (soleRecordString record KnowledgeEvidenceRef);
        if negb (canonical evidence EntityKindEvidence) then
          Err (Errorf "knowledge record evidence is not canonical evidence" [])
        else Ok (Some evidence).

Fixpoint records_evidence (records : list EntityState) (companionID : string) : res (list string) :=
  match records with
  | [] => Ok []
  | record :: rest =>
      found ← record_evidence record companionID;
      more ← records_evidence rest companionID;
      Ok (match found with Some evidence => evidence :: more | None => more end)
  end.

(* src/internal/companion/hints.go#knowledgeEvidenceIDs *)
Definition knowledgeEvidenceIDs (records : list EntityState) (companionID : string) : res (list string) :=
  candidates ← records_evidence records companionID;
  Ok (Compact (Sort candidates)).

(* src/internal/companion/hints.go#SelectHintEvidence *)
Definition SelectHintEvidence (projection : option Projection) (companionID : string) (records : list EntityState)
    (level : string) : res (list string) :=
  count ← HintEvidenceCount level;
  match projection with
  | None => Err (Errorf "hint selection requires a companion projection" [])
  | Some projection =>
      if negb (String.eqb (p_Purpose projection) PurposeCompanion) then
        Err (Errorf "hint selection requires a companion projection" [])
      else if p_HasSolution projection then Err (Errorf "hint selection refuses a solution-bearing projection" [])
      else if negb (String.eqb (p_CompanionID projection) EmptyString) &&
              negb (String.eqb (p_CompanionID projection) companionID) then
        Err (Errorf "hint selection companion does not match projection identity" [])
      else
        match ParseEntityID companionID with
        | Err _ => Err (Errorf "hint companion is not a canonical character" [])
        | Ok parsed =>
            if negb (String.eqb (eid_Type parsed) EntityKindCharacter) then
              Err (Errorf "hint companion is not a canonical character" [])
            else
              known ← knowledgeEvidenceIDs records companionID;
              let authorized := map pe_ID (Projection_Entities projection) in
              let candidates := Compact (Sort (List.filter (fun evidence => mem evidence authorized) known)) in
              if Z.of_nat (List.length candidates) <? count then Ok candidates
              else Ok (take (Z.to_nat count) candidates)
        end
  end.

(** ** The trigger *)

(* src/internal/companion/trigger.go#type Trigger *)
Record CompanionTrigger : Type := { tg_Kind : string; tg_Source : string }.

Definition no_trigger : CompanionTrigger := {| tg_Kind := CompanionTriggerNone; tg_Source := CompanionTriggerSourceNone |}.

(** A risky turn that went badly. *)
(* src/internal/companion/trigger.go:31-52 (SelectTrigger) *)
Definition resolved_risk (state : EntityState) : res bool :=
  band ← optionalSoleString state TurnRollBand;
  risk ← optionalSoleString state TurnVerdictRisk;
  consequence ← optionalSoleString state TurnVerdictConsequence;
  Ok (match band, risk, consequence with
      | Some band, Some risk, Some consequence =>
          mem band [BandMiss; BandPartial] && String.eqb risk RiskHigh &&
          mem consequence [ConsequenceHarm; ConsequenceEscalation]
      | _, _, _ => false
      end).

(* src/internal/companion/trigger.go#SelectTrigger *)
Definition SelectTrigger (state : EntityState) (bond : Bond) : res CompanionTrigger :=
  caseKind ← optionalSoleString state TurnCaseDecisionKind;
  if bool_decide (caseKind = Some CaseDecisionRequestHint) then
    Ok {| tg_Kind := CompanionTriggerPlayerHint; tg_Source := CompanionTriggerSourceCaseDecision |}
  else if String.eqb (bo_Policy bond) CompanionPolicyBoundedInitiative then
    bad ← resolved_risk state;
    match bad with
    | true => Ok {| tg_Kind := CompanionTriggerWarning; tg_Source := CompanionTriggerSourceResolvedRisk |}
    | false => Ok no_trigger
    end
  else Ok no_trigger.

(* src/internal/companion/trigger.go#PersistedTrigger *)
Definition PersistedTrigger (state : EntityState) : res CompanionTrigger :=
  kindText ← optionalSoleString state TurnCompanionTriggerKind;
  match kindText with
  | None => Err (Errorf "companion trigger kind is not durably recorded" [])
  | Some kindText =>
      sourceText ← optionalSoleString state TurnCompanionTriggerSource;
      match sourceText with
      | None => Err (Errorf "companion trigger source is not durably recorded" [])
      | Some sourceText =>
          kind ← ParseCompanionTrigger kindText;
          source ← ParseCompanionTriggerSource sourceText;
          Ok {| tg_Kind := kind; tg_Source := source |}
      end
  end.
End reading.

(** ** The authority

    A bond's mutex makes the whole transactions of one process exclusive; the
    model runs one transaction at a time. The transaction's bond is the value
    [WithBondTransaction] hands its callback; an advance returns the bond as it
    is afterwards. *)

Section authority.
Context {W : Type} `{Substrate, GraphStore W, Clock W, PredicateReader W}.

(* src/internal/companion/authority.go#Authority.query *)
Definition authority_query (predicate value : string) (limit : Z) : MW W (list string) :=
  read ← attempt (EntitiesByPredicateValue predicate value limit);
  ids ← lift (wrapf "query" read);
  mret (Compact (Sort ids)).

(* src/internal/companion/authority.go#Authority.referentError *)
Definition referentError (err : error) : error :=
  if errors_Is ErrEntityNotFound err then bond_integrity "bond referent is missing"
  else Errorf "read bond referent" [err].

(** The level, the policy and the two ends the bond states. *)
(* src/internal/companion/authority.go:150-182 (Authority.ValidateBond) *)
Definition read_bond (bondID expectedPlayerID expectedCompanionID : string) (state : EntityState) : res Bond :=
  _ ← requireStateKind state EntityKindCompanionBond;
  playerID ← exactImportedString state CompanionBondPlayer;
  companionID ← exactImportedString state CompanionBondCharacter;
  policyText ← exactImportedString state CompanionBondPolicy;
  match ParseCompanionPolicy policyText with
  | Err _ => Err (bond_integrity "bond policy")
  | Ok policy =>
      hintText ← exactString state CompanionBondHintLevel;
      match ParseHintLevel hintText with
      | Err _ => Err (bond_integrity "bond hint level")
      | Ok hint =>
          if negb (String.eqb expectedPlayerID EmptyString) && negb (String.eqb playerID expectedPlayerID) then
            Err (bond_integrity "bond names another player")
          else if negb (String.eqb expectedCompanionID EmptyString) &&
                  negb (String.eqb companionID expectedCompanionID) then
            Err (bond_integrity "bond names another companion")
          else Ok {| bo_ID := bondID; bo_PlayerID := playerID; bo_CharacterID := companionID; bo_Policy := policy;
                     bo_HintLevel := hint |}
      end
  end.

(** The companion is a candidate, and for no wider a policy. *)
(* src/internal/companion/authority.go:202-215 (Authority.ValidateBond) *)
Definition check_candidate (bond : Bond) (companionState : EntityState) : res unit :=
  _ ← requireStateKind companionState EntityKindCharacter;
  match exactImportedString companionState CompanionCandidatePolicy with
  | Err _ => Err (bond_integrity "companion candidate")
  | Ok candidateText =>
      match ParseCompanionPolicy candidateText with
      | Err _ => Err (bond_integrity "companion candidate policy")
      | Ok candidate =>
          if String.eqb candidate CompanionPolicyReactive &&
             String.eqb (bo_Policy bond) CompanionPolicyBoundedInitiative then
            Err (bond_integrity "bond policy is wider than candidate policy")
          else Ok tt
      end
  end.

(** The identity a bond of these two has to carry. A player id that does not
    parse leaves its parts empty. *)
(* src/internal/companion/authority.go:231-239 (Authority.ValidateBond) *)
Definition check_identity (bond : Bond) : res unit :=
  let '(org, domain, system) :=
    match ParseEntityID (bo_PlayerID bond) with
    | Ok parsed => (eid_Org parsed, eid_Domain parsed, eid_System parsed)
    | Err _ => (EmptyString, EmptyString, EmptyString)
    end in
  match CompanionBondID org domain system (bo_PlayerID bond) (bo_CharacterID bond) with
  | Err _ => Err (bond_integrity "derive bond identity")
  | Ok expectedID =>
      require (String.eqb (bo_ID bond) expectedID) (bond_integrity "bond id does not match deterministic identity")
  end.

(** The one bond recorded for a player, or for a companion. *)
(* src/internal/companion/authority.go:217-230 (Authority.ValidateBond) *)
Definition sole_bond (predicate value bondID : string) : MW W unit :=
  bonds ← authority_query predicate value 2;
  lift (require (bool_decide (bonds = [bondID])) (bond_integrity "the bond is not the only active one")).

(* src/internal/companion/authority.go#Authority.ValidateBond *)
Definition ValidateBond (bondID expectedPlayerID expectedCompanionID : string) : MW W Bond :=
  match requireKindID "bond_id" bondID EntityKindCompanionBond with
  | Err _ => throw (bond_integrity "bond_id")
  | Ok _ =>
      read ← attempt (GetEntity bondID);
      match read with
      | Err err => if errors_Is ErrEntityNotFound err then throw (bond_integrity "bond is missing")
                   else throw (Errorf "read companion bond" [err])
      | Ok state =>
          bond ← lift (read_bond bondID expectedPlayerID expectedCompanionID state);
          playerRead ← attempt (GetEntity (bo_PlayerID bond));
          match playerRead with
          | Err err => throw (referentError err)
          | Ok player =>
              _ ← lift (requireStateKind player EntityKindPlayer);
              controlled ← lift (exactImportedString player PlayerCharacterCurrent);
              if String.eqb controlled (bo_CharacterID bond) then
                throw (bond_integrity "companion is also the player's controlled character")
              else
                companionRead ← attempt (GetEntity (bo_CharacterID bond));
                match companionRead with
                | Err err => throw (referentError err)
                | Ok companionState =>
                    _ ← lift (check_candidate bond companionState);
                    _ ← sole_bond CompanionBondPlayer (bo_PlayerID bond) bondID;
                    _ ← sole_bond CompanionBondCharacter (bo_CharacterID bond) bondID;
                    _ ← lift (check_identity bond);
                    mret bond
                end
          end
      end
  end.

(* src/internal/companion/authority.go#Authority.ValidateCompanionBond *)
Definition ValidateCompanionBond (bondID playerID companionID : string) : MW W unit :=
  _ ← ValidateBond bondID playerID companionID; mret tt.

(* src/internal/companion/authority.go#Authority.ActiveBondForPlayer *)
Definition ActiveBondForPlayer (playerID : string) : MW W (option Bond) :=
  _ ← lift (requireKindID "player_id" playerID EntityKindPlayer);
  ids ← authority_query CompanionBondPlayer playerID 2;
  match ids with
  | [] => mret None
  | [id] => bond ← ValidateBond id playerID EmptyString; mret (Some bond)
  | _ => throw (bond_integrity "player has several active companion bonds")
  end.

(* src/internal/companion/authority.go#Authority.WithBondTransaction *)
Definition WithBondTransaction {A} (bondID expectedPlayerID expectedCompanionID : string) (fn : Bond -> MW W A)
    : MW W A :=
  bond ← ValidateBond bondID expectedPlayerID expectedCompanionID;
  fn bond.

(** The level of a bond as one triple. *)
(* src/internal/companion/authority.go:261-264 (Authority.advanceHintLocked) *)
Definition hint_triple (bondID level : string) (at_ : time) : Triple := {|
  Subject := bondID; Predicate := CompanionBondHintLevel; Object := AString level;
  Source := "companion-hint-ladder"; Timestamp := at_; Confidence := float_one; Context_ := bondID;
  Datatype := EmptyString; ExpiresAt := None |}.

(* src/internal/companion/authority.go:257-269 (Authority.advanceHintLocked) *)
Definition write_level (a : Authority) (bond : Bond) (level msg : string) : MW W Bond :=
  if negb (au_writable a) then throw (Errorf "companion authority graph is read-only" [])
  else
    at_ ← read_clock;
    written ← attempt (Reconcile CompanionBondHint (bo_ID bond) [hint_triple (bo_ID bond) level at_]);
    _ ← lift (wrapf msg written);
    mret (with_level bond level).

(* src/internal/companion/authority.go#Authority.advanceHintLocked *)
Definition advanceHintLocked (a : Authority) (bond : Bond) (emitted : string) : MW W Bond :=
  levels ← lift (NextHintLevel emitted);
  if negb (String.eqb (bo_HintLevel bond) emitted) then
    throw (bond_integrity "bond hint level is another one while committing decision")
  else if String.eqb levels.2 emitted then mret bond
  else write_level a bond levels.2 "advance companion hint level".

(* src/internal/companion/authority.go#Authority.resetHintLocked *)
Definition resetHintLocked (a : Authority) (bond : Bond) : MW W Bond :=
  if String.eqb (bo_HintLevel bond) HintLevelNudge then mret bond
  else write_level a bond HintLevelNudge "reset companion hint level".

(* src/internal/companion/authority.go#Authority.ResetHint *)
Definition ResetHint (a : Authority) (bondID : string) : MW W Bond :=
  bond ← ValidateBond bondID EmptyString EmptyString;
  resetHintLocked a bond.

(** The player who controls a character. *)
(* src/internal/companion/authority.go:318-327 (Authority.Authorized) *)
Definition controlling_player (sourceActorID : string) : MW W (option string) :=
  players ← authority_query PlayerCharacterCurrent sourceActorID 2;
  match players with
  | [] => mret None
  | [player] => mret (Some player)
  | _ => throw (bond_integrity "character is controlled by several players")
  end.

(* src/internal/companion/authority.go#Authority.Authorized *)
Definition Authority_Authorized (sourceActorID recipientID evidenceID : string) : MW W bool :=
  _ ← lift (requireKindID "source actor" sourceActorID EntityKindCharacter);
  _ ← lift (requireKindID "recipient" recipientID EntityKindCharacter);
  _ ← lift (requireKindID "evidence" evidenceID EntityKindEvidence);
  player ← controlling_player sourceActorID;
  match player with
  | None => mret false
  | Some player =>
      bond ← ActiveBondForPlayer player;
      mret (match bond with Some bond => String.eqb (bo_CharacterID bond) recipientID | None => false end)
  end.

(* src/internal/companion/authority.go#Authority.Witness *)
Definition Witness (sourceActorID : string) (targetRefs : list string) : MW W (string * bool) :=
  let nobody : MW W (string * bool) := mret (EmptyString, false) in
  player ← controlling_player sourceActorID;
  match player with
  | None => nobody
  | Some player =>
      found ← ActiveBondForPlayer player;
      match found with
      | None => nobody
      | Some bond =>
          sourceRead ← attempt (GetEntity sourceActorID);
          source ← lift (wrapf "read witnessing actor" sourceRead);
          companionRead ← attempt (GetEntity (bo_CharacterID bond));
          companionState ← lift (wrapf "read witnessing companion" companionRead);
          match exactString source WorldLocationCurrent, exactString companionState WorldLocationCurrent with
          | Ok sourceLocation, Ok companionLocation =>
              if negb (String.eqb sourceLocation companionLocation) || negb (mem sourceLocation targetRefs) then nobody
              else mret (bo_CharacterID bond, true)
          | _, _ => nobody
          end
      end
  end.
End authority.

(** ** The executor *)

(** [DecisionStore], [NarrationArtifacts] and the stage's artifacts: calls of
    the content store, which returns a value or an error. *)
(* src/internal/stage/companion.go#type CompanionArtifacts *)
Class CompanionArtifacts (W : Type) : Type := {
  companion_InstanceName : string;
  companion_PutDecision : string -> CompanionDecision -> MW W Ref;
  companion_GetDecision : Ref -> MW W CompanionDecision;
  companion_PutStageRecord : string -> CompanionStageRecord -> MW W Ref;
  companion_GetStageRecord : Ref -> MW W CompanionStageRecord
}.

(** [errs.IsTransient], upstream. *)
Class TransientErrors : Type := { IsTransient : error -> bool }.

(* src/internal/companion/executor.go#type decisionArgs *)
Record decisionArgs : Type := {
  da_Kind : string; da_HintLevel : string; da_EvidenceRefs : list string; da_TargetRef : string }.

(* src/internal/companion/executor.go#correctable *)
Definition companion_correctable {A} (call : ToolCall A) : Executed := (tool_failed call ToolErrorInvalidArgs, None).
(* src/internal/companion/executor.go#transient *)
Definition companion_transient {A} (call : ToolCall A) (what : string) (cause : error) : Executed :=
  (tool_failed call ToolErrorNetwork, Some (WrapTransient (Errorf what [cause]))).
(* src/internal/companion/executor.go#permanent *)
Definition companion_permanent {A} (call : ToolCall A) (what : string) (cause : error) : Executed :=
  (tool_failed call ToolErrorInternal, Some (WrapInvalid (Errorf what [cause]))).

(** The fault of an artifact that cannot be put at its place. *)
(* src/internal/companion/executor.go:172-175 (Executor.executeTransaction) *)
Definition put_fault {A} (call : ToolCall A) (verify store : string) (err : error) : Executed :=
  if errors_Is ErrArtifactConflict err || errors_Is ErrArtifactCorrupt err then companion_permanent call verify err
  else companion_transient call store err.

(** The decision the arguments and the injected identity make. *)
(* src/internal/companion/executor.go:112-119 (Executor.executeTransaction) *)
Definition decision_of (args : decisionArgs) (i : PersonaIdentity) : CompanionDecision := {|
  cmd_DecisionID := CompanionDecisionID (pi_TurnID i) (pi_ContextRef i) (pi_PlayerID i) (pi_CompanionID i);
  cmd_TurnID := pi_TurnID i; cmd_ContextRef := pi_ContextRef i; cmd_PlayerID := pi_PlayerID i;
  cmd_CompanionID := pi_CompanionID i; cmd_Kind := da_Kind args; cmd_HintLevel := da_HintLevel args;
  cmd_EvidenceRefs := da_EvidenceRefs args; cmd_TargetRef := da_TargetRef args |}.

(** The reference of the decision on the turn, as one triple. *)
(* src/internal/companion/executor.go:193-197 (Executor.executeTransaction) *)
Definition decision_triple (turnEntityID source : string) (ref : Ref) (at_ : time) : Triple := {|
  Subject := turnEntityID; Predicate := TurnCompanionDecisionRef; Object := AString (Ref_String ref); Source := source;
  Timestamp := at_; Confidence := float_one; Context_ := turnEntityID; Datatype := EmptyString; ExpiresAt := None |}.

(** What the projection shows of evidence. *)
(* src/internal/companion/executor.go:155-161 (Executor.executeTransaction) *)
Definition known_evidence (projection : Projection) : list string :=
  map pe_ID (List.filter (fun entity => bool_decide (ProjEntity_Objects entity WorldEntityKind = [AString EntityKindEvidence]))
               (Projection_Entities projection)).

#[export] Instance CompanionTrigger_eq_dec : EqDecision CompanionTrigger.
Proof. solve_decision. Defined.

Definition warning_trigger : CompanionTrigger :=
  {| tg_Kind := CompanionTriggerWarning; tg_Source := CompanionTriggerSourceResolvedRisk |}.

Section executor.
Context {W : Type} `{Substrate, GraphStore W, Clock W, PredicateReader W, CompanionArtifacts W, TransientErrors}.
Context `{Codec CompanionDecision}.

(** [ProjectionAuthorizer]: a projector of the epistemic scope. *)
(* src/internal/companion/executor.go#type ProjectionAuthorizer *)
Definition ProjectionAuthorizer : Type := AuthenticatedAudience -> MW W Projection.

(* src/internal/companion/executor.go:177-181 (Executor.executeTransaction) *)
Definition executor_record (i : PersonaIdentity) (status : string) (selected : CompanionTrigger) (ref : Ref)
    : CompanionStageRecord := {|
  csr_TurnID := pi_TurnID i; csr_PlayerID := pi_PlayerID i; csr_CompanionID := pi_CompanionID i;
  csr_BondID := pi_BondID i; csr_Status := status; csr_TriggerKind := tg_Kind selected;
  csr_TriggerSource := tg_Source selected; csr_DecisionRef := Ref_String ref |}.

(** The decision and the stage record stored, both references land on the turn
    in one write. *)
(* src/internal/companion/executor.go:170-210 (Executor.executeTransaction) *)
Definition commit_exit (call : ToolCall decisionArgs) (i : PersonaIdentity) (decision : CompanionDecision)
    (selected : CompanionTrigger) : MW W Executed :=
  let turn := pi_TurnEntityID i in
  put ← attempt (companion_PutDecision turn decision);
  match put with
  | Err err => mret (put_fault call "verify resident companion decision" "store companion decision" err)
  | Ok ref =>
      let record := executor_record i CompanionStageDecision selected ref in
      putRecord ← attempt (companion_PutStageRecord turn record);
      match putRecord with
      | Err err => mret (put_fault call "verify resident companion stage record" "store companion stage record" err)
      | Ok stageRef =>
          at_ ← read_clock;
          match CompanionStageRecord_Triples record turn (Ref_String stageRef) "persona-companion" at_ with
          | Err err => mret (companion_permanent call "project companion stage record" err)
          | Ok triples =>
              at' ← read_clock;
              written ← attempt (Reconcile TurnCompanionResult turn
                                   (triples ++ [decision_triple turn "persona-companion" ref at']));
              match written with
              | Err err => mret (companion_transient call "record companion decision and stage references" err)
              | Ok _ =>
                  mret match Marshal decision with
                       | Err err => companion_permanent call "encode companion decision result" err
                       | Ok body =>
                           tool_exit call body
                             [("turn_id"%string, AString (pi_TurnID i));
                              ("companion_decision_ref"%string, AString (Ref_String ref));
                              ("companion_id"%string, AString (pi_CompanionID i));
                              ("kind"%string, AString (cmd_Kind decision))]
                       end
              end
          end
      end
  end.

(** The trigger a warning needs: selected now, and recorded before. *)
(* src/internal/companion/executor.go:130-146 (Executor.executeTransaction) *)
Definition authorized_warning (turnState : EntityState) (bond : Bond) : result (string * error) CompanionTrigger :=
  match SelectTrigger turnState bond with
  | Err err => Err ("validate companion trigger"%string, err)
  | Ok selected =>
      if negb (bool_decide (selected = warning_trigger)) then
        Err ("validate companion trigger"%string,
             Errorf "agentic companion exit requires the persisted automatic warning trigger" [])
      else
        match PersistedTrigger turnState with
        | Err err => Err ("validate persisted companion trigger"%string, err)
        | Ok persisted =>
            if negb (bool_decide (persisted = selected)) then
              Err ("validate persisted companion trigger"%string,
                   Errorf "persisted trigger does not match authorized trigger" [])
            else Ok selected
        end
  end.

(* src/internal/companion/executor.go#Executor.executeTransaction *)
Definition executeTransaction (project : ProjectionAuthorizer) (call : ToolCall decisionArgs) (i : PersonaIdentity)
    (bond : Bond) : MW W Executed :=
  match call_Arguments call with
  | Err _ => mret (companion_correctable call)
  | Ok args =>
      let decision := decision_of args i in
      match CompanionDecision_Validate (Some decision) with
      | Err _ => mret (companion_correctable call)
      | Ok _ =>
          if String.eqb (cmd_Kind decision) CompanionDecisionHint then mret (companion_correctable call)
          else
            read ← attempt (GetEntity (pi_TurnEntityID i));
            match read with
            | Err err => mret (companion_transient call "read companion trigger" err)
            | Ok turnState =>
                match authorized_warning turnState bond with
                | Err (what, err) => mret (companion_permanent call what err)
                | Ok selected =>
                    projected ← attempt (project (CompanionAudience (pi_TurnID i) (pi_TurnEntityID i) (pi_ContextRef i)
                                                    (pi_CompanionID i) (pi_BondID i)));
                    match projected with
                    | Err err =>
                        mret (if errors_Is ErrBondIntegrity err || negb (IsTransient err)
                              then companion_permanent call "validate companion projection" err
                              else companion_transient call "read companion projection" err)
                    | Ok projection =>
                        if negb (forallb (fun id => mem id (known_evidence projection)) (cmd_EvidenceRefs decision)) then
                          mret (companion_correctable call)
                        else commit_exit call i decision selected
                    end
                end
            end
      end
  end.

(* src/internal/companion/executor.go#Executor.Execute *)
Definition Companion_Execute (project : ProjectionAuthorizer) (call : ToolCall decisionArgs) : MW W Executed :=
  if negb (String.eqb (call_Name call) CompanionDecisionToolName) then mret (notFound call)
  else
    match CompanionIdentityFrom (call_Metadata call) with
    | Err err => mret (companion_permanent call "resolve injected companion identity" err)
    | Ok i =>
        ran ← attempt (WithBondTransaction (pi_BondID i) (pi_PlayerID i) (pi_CompanionID i)
                         (executeTransaction project call i));
        match ran with
        | Ok executed => mret executed
        | Err err =>
            mret (if errors_Is ErrBondIntegrity err then companion_permanent call "validate companion bond" err
                  else companion_transient call "read companion bond" err)
        end
    end.

(** The silent decision of a companion that used its budget up. *)
(* src/internal/companion/executor.go:240-244 (Executor.exhaustTransaction) *)
Definition silent_decision (i : PersonaIdentity) : CompanionDecision :=
  decision_of {| da_Kind := CompanionDecisionSilent; da_HintLevel := EmptyString; da_EvidenceRefs := [];
                 da_TargetRef := EmptyString |} i.

(* src/internal/companion/executor.go#Executor.exhaustTransaction *)
Definition exhaustTransaction (i : PersonaIdentity) (bond : Bond) : MW W unit :=
  let turn := pi_TurnEntityID i in
  state ← GetEntity turn;
  selected ← lift (SelectTrigger state bond);
  if negb (String.eqb (tg_Kind selected) CompanionTriggerWarning) then
    throw (Errorf "companion exhaustion has another trigger, want warning" [])
  else
    persisted ← lift (PersistedTrigger state);
    if negb (bool_decide (persisted = selected)) then
      throw (Errorf "persisted trigger does not match authorized trigger" [])
    else
      decisionRef ← companion_PutDecision turn (silent_decision i);
      let record := executor_record i CompanionStageExhausted selected decisionRef in
      stageRef ← companion_PutStageRecord turn record;
      at_ ← read_clock;
      triples ← lift (CompanionStageRecord_Triples record turn (Ref_String stageRef) "persona-companion-exhausted" at_);
      at' ← read_clock;
      _ ← Reconcile TurnCompanionResult turn
            (triples ++ [decision_triple turn "persona-companion-exhausted" decisionRef at']);
      mret tt.

(* src/internal/companion/executor.go#Executor.Exhaust *)
Definition Exhaust (i : PersonaIdentity) : MW W unit :=
  WithBondTransaction (pi_BondID i) (pi_PlayerID i) (pi_CompanionID i) (exhaustTransaction i).

(** ** The evidence a narration may use *)

(* src/internal/companion/narration.go#const maxNarrationKnowledgeRecords *)
Definition maxNarrationKnowledgeRecords : Z := 256.

(* src/internal/companion/narration.go#NarrationResolver.exactTurnRef *)
Definition exactTurnRef (state : EntityState) (predicate turnID : string) : res Ref :=
  value ← wrapf "companion narration" (exactString state predicate);
  ref ← wrapf "parse companion narration" (ParseRef value);
  match KeyFor predicate SubjectTurn turnID with
  | Ok expectedKey =>
      if negb (String.eqb (Instance_ ref) companion_InstanceName) || negb (String.eqb (Key ref) expectedKey) then
        Err (Errorf "companion narration is not the canonical turn artifact reference" [])
      else Ok ref
  | Err _ => Err (Errorf "companion narration is not the canonical turn artifact reference" [])
  end.

(* src/internal/companion/narration.go#forbidDecisionRef *)
Definition forbidDecisionRef (state : EntityState) : res unit :=
  require (Nat.eqb (List.length (of_predicate state TurnCompanionDecisionRef)) 0)
    (Errorf "no-decision companion narration stage carries a decision reference" []).

(** The records the holder's query named, each the entity asked for. *)
(* src/internal/companion/narration.go:156-166 (NarrationResolver.authorizedKnowledge) *)
Fixpoint read_records (recordIDs : list string) : MW W (list EntityState) :=
  match recordIDs with
  | [] => mret []
  | recordID :: rest =>
      read ← attempt (GetEntity recordID);
      record ← lift (wrapf "read companion narration knowledge" read);
      if negb (String.eqb (ID record) recordID) then
        throw (Errorf "companion narration knowledge is missing or foreign" [])
      else
        records ← read_records rest;
        mret (record :: records)
  end.

(* src/internal/companion/narration.go#NarrationResolver.authorizedKnowledge *)
Definition authorizedKnowledge (companionID : string) (cited : list string) : MW W (list string) :=
  read ← attempt (EntitiesByPredicateValue KnowledgeActorHolder companionID (maxNarrationKnowledgeRecords + 1));
  recordIDs ← lift (wrapf "query companion narration knowledge" read);
  if maxNarrationKnowledgeRecords <? Z.of_nat (List.length recordIDs) then
    throw (Errorf "companion narration knowledge exceeds the limit" [])
  else
    records ← read_records recordIDs;
    known ← lift (knowledgeEvidenceIDs records companionID);
    if negb (forallb (fun id => mem id known) cited) then
      throw (Errorf "companion decision cites evidence outside authoritative companion knowledge" [])
    else mret (Compact (Sort cited)).

(** The turn is the request's, and its stage record is its own. *)
(* src/internal/companion/narration.go:46-89 (NarrationResolver.AuthorizedNarrationEvidence) *)
Definition narration_stage (request : NarrationEvidenceRequest) : MW W (EntityState * CompanionStageRecord) :=
  _ ← lift (require (mem (ne_Purpose request) [PurposeNarrator; PurposeDenouement])
              (Errorf "companion narration resolver rejects purpose" []));
  _ ← lift (wrapf "companion narration turn identity" (RequireTurnEntityID (ne_TurnID request) (ne_TurnEntityID request)));
  read ← attempt (GetEntity (ne_TurnEntityID request));
  turnState ← lift (wrapf "read companion narration turn" read);
  _ ← lift (require (String.eqb (ID turnState) (ne_TurnEntityID request))
              (Errorf "companion narration turn is missing or foreign" []));
  playerID ← lift (wrapf "read companion narration player identity" (exactString turnState TurnActionPlayer));
  _ ← lift (require (String.eqb playerID (ne_PlayerID request))
              (Errorf "companion narration player identity does not match authenticated turn" []));
  contextRef ← lift (wrapf "read companion narration context" (exactString turnState TurnActionScene));
  _ ← lift (require (String.eqb contextRef (ne_ContextRef request))
              (Errorf "companion narration context does not match authenticated turn" []));
  stageRef ← lift (exactTurnRef turnState TurnCompanionStageRef (ne_TurnID request));
  stageRead ← attempt (companion_GetStageRecord stageRef);
  stage ← lift (wrapf "read companion narration stage" stageRead);
  _ ← lift (wrapf "invalid companion narration stage" (CompanionStageRecord_Validate (Some stage)));
  _ ← lift (require (String.eqb (csr_TurnID stage) (ne_TurnID request) && String.eqb (csr_PlayerID stage) (ne_PlayerID request))
              (Errorf "companion narration stage has foreign turn or player identity" []));
  mret (turnState, stage).

(** The evidence a stored decision cites, when the decision is this turn's. *)
(* src/internal/companion/narration.go:117-142 (NarrationResolver.AuthorizedNarrationEvidence) *)
Definition decided_evidence (request : NarrationEvidenceRequest) (turnState : EntityState) (stage : CompanionStageRecord)
    : MW W (list string) :=
  _ ← ValidateBond (csr_BondID stage) (ne_PlayerID request) (csr_CompanionID stage);
  decisionRef ← lift (exactTurnRef turnState TurnCompanionDecisionRef (ne_TurnID request));
  _ ← lift (require (String.eqb (Ref_String decisionRef) (csr_DecisionRef stage))
              (Errorf "companion narration decision reference disagrees with stage record" []));
  read ← attempt (companion_GetDecision decisionRef);
  decision ← lift (wrapf "read companion narration decision" read);
  _ ← lift (wrapf "invalid companion narration decision" (CompanionDecision_Validate (Some decision)));
  _ ← lift (require (String.eqb (cmd_TurnID decision) (ne_TurnID request) &&
                     String.eqb (cmd_PlayerID decision) (ne_PlayerID request) &&
                     String.eqb (cmd_CompanionID decision) (csr_CompanionID stage) &&
                     String.eqb (cmd_ContextRef decision) (ne_ContextRef request))
              (Errorf "companion narration decision has foreign identity" []));
  authorizedKnowledge (csr_CompanionID stage) (cmd_EvidenceRefs decision).

(* src/internal/companion/narration.go#NarrationResolver.AuthorizedNarrationEvidence *)
Definition AuthorizedNarrationEvidence (request : NarrationEvidenceRequest) : MW W (list string) :=
  found ← narration_stage request;
  let '(turnState, stage) := found in
  if String.eqb (csr_Status stage) CompanionStageNoActiveBond then
    _ ← lift (forbidDecisionRef turnState);
    bond ← ActiveBondForPlayer (ne_PlayerID request);
    match bond with
    | Some _ => throw (Errorf "no-active-bond narration stage disagrees with authoritative active bond" [])
    | None => mret []
    end
  else if String.eqb (csr_Status stage) CompanionStageNoTrigger then
    _ ← lift (forbidDecisionRef turnState);
    _ ← ValidateBond (csr_BondID stage) (ne_PlayerID request) (csr_CompanionID stage);
    mret []
  else if mem (csr_Status stage) [CompanionStageDecision; CompanionStageExhausted] then
    decided_evidence request turnState stage
  else throw (Errorf "unsupported companion narration stage status" []).
End executor.
