(* ===== verification/Spawn.v ===== *)
(** [internal/stage], part two: the stages that hand a turn to a persona
    ([spawn.go]), the companion's stage, which mostly needs none ([companion.go]),
    and the watcher of persona loops that ended in failure ([loopfailure.go]). *)

From S2P Require Import Prelude GoStd GoHash GoErrors Graph Vocab Vocabulary Payload Mechanics Decisions ContentRecords ContentStore ProjectionContract Store Sequencing GraphIO Turn Caseflow Knowledge Stage Scene Epistemic Persona Companion.

Open Scope Z_scope.

(* src/internal/stage/spawn.go#TaskSource *)
Definition TaskSource : string := "semmachina-stage".

(** [TaskPublisher]: a publication under a message id, which the broker keeps once. *)
(* src/internal/stage/spawn.go#type TaskPublisher *)
Class TaskPublisher (W : Type) : Type := { PublishToStreamWithMsgID : string -> string -> string -> MW W unit }.

(** [message.NewBaseMessage] of a task from this source, and [json.Marshal]. *)
Class TaskEnvelope : Type := { marshal_task : TaskMessage -> string -> res string }.

(** [Prompter] and [companionPrompter]: what a persona is told. *)
(* src/internal/stage/spawn.go#type Prompter *)
Class Prompter (W : Type) : Type := {
  Interpret : Projection -> MW W TaskRequest;
  Adjudicate : Projection -> MW W TaskRequest;
  Narrate : Projection -> MW W TaskRequest;
  prompt_Companion : Projection -> MW W TaskRequest
}.

(** [Guard.Check] of the stages is the personas' own. *)
(* src/internal/stage/spawn.go#var spawnPhases *)
Definition spawnPhases : gmap string string := list_to_map
  [(RoleAdjudicator, PhaseAdjudicating); (RoleCasekeeper, PhaseInterpreting); (RoleNarrator, PhaseNarrating)].

(** A spawner: its persona, the phase it runs in, its projector, and the case
    scope of the casekeeper's. *)
(* src/internal/stage/spawn.go#type Spawner *)
Record Spawner (W : Type) : Type := {
  sw_spec : Spec; sw_phase : string; sw_project : AuthenticatedAudience -> MW W Projection;
  sw_caseConfigured : bool; sw_caseScope : Scope }.
Arguments sw_spec {W}. Arguments sw_phase {W}. Arguments sw_project {W}. Arguments sw_caseConfigured {W}.
Arguments sw_caseScope {W}.

(* src/internal/stage/spawn.go#NewSpawner *)
Definition NewSpawner {W} `{Substrate, AgenticRules} (spec : Spec) (project : AuthenticatedAudience -> MW W Projection)
    (caseScope : option Scope) : res (Spawner W) :=
  _ ← Spec_Validate spec;
  match spawnPhases !! sp_Role spec with
  | None => Err (Errorf "persona has no turn phase" [])
  | Some phase =>
      match String.eqb (sp_Role spec) RoleCasekeeper, caseScope with
      | true, None =>
          Err (Errorf "the casekeeper stage requires package applicability, content store, and graph writer" [])
      | _, _ => Ok {| sw_spec := spec; sw_phase := phase; sw_project := project;
                      sw_caseConfigured := match caseScope with Some _ => true | None => false end;
                      sw_caseScope := default {| sc_caseID := EmptyString; sc_beliefsByActorID := ∅ |} caseScope |}
      end
  end.

(* src/internal/stage/spawn.go#audienceFor *)
Definition audienceFor (role : string) (trigger : Trigger) : res AuthenticatedAudience :=
  if String.eqb role RoleAdjudicator then Ok (PublicAdjudicatorAudience (t_TurnID trigger) (t_TurnEntityID trigger))
  else if String.eqb role RoleNarrator then Ok (NarratorAudience (t_TurnID trigger) (t_TurnEntityID trigger))
  else Err (Errorf "persona has no epistemic audience" []).

Section spawn.
Context {W : Type} `{Substrate, AgenticRules, TaskRules, TaskEnvelope, GraphStore W, Clock W, PersonaArtifacts W,
  TaskPublisher W, Prompter W}.

(** A task, under its own id, on its role's subject. *)
(* src/internal/stage/spawn.go#Spawner.publish *)
Definition publish (role : string) (task : TaskMessage) : MW W unit :=
  data ← lift (wrapf "encode the task" (marshal_task task TaskSource));
  published ← attempt (PublishToStreamWithMsgID (TaskSubjectFor role) data (tm_TaskID task));
  lift (wrapf "publish the task" published).

(* src/internal/stage/spawn.go#Spawner.request *)
Definition spawner_request (role : string) (projection : Projection) : MW W TaskRequest :=
  if String.eqb role RoleCasekeeper then Interpret projection
  else if String.eqb role RoleAdjudicator then Adjudicate projection
  else if String.eqb role RoleNarrator then Narrate projection
  else throw (Errorf "persona has no prompt" []).

(* src/internal/stage/spawn.go#Spawner.commitNotApplicable *)
Definition commitNotApplicable (trigger : Trigger) : MW W unit :=
  actionID ← lift (wrapf "derive action identity for non-mystery turn" (ActionIDForTurn (t_TurnID trigger)));
  let record := {| cdr_TurnID := t_TurnID trigger; cdr_ActionID := actionID;
                   cdr_Status := CaseDecisionStatusNotApplicable; cdr_Decision := None |} in
  stored ← attempt (persona_PutCaseDecisionRecord (t_TurnEntityID trigger) record);
  ref ← lift (wrapf "store non-mystery interpretation" stored);
  at_ ← read_clock;
  triples ← lift (wrapf "project non-mystery interpretation"
                    (CaseDecisionRecord_Triples record (t_TurnEntityID trigger) (Ref_String ref)
                       "stage-casekeeper-not-applicable" at_));
  written ← attempt (Reconcile TurnCaseDecision (t_TurnEntityID trigger) triples);
  _ ← lift (wrapf "record non-mystery interpretation" written);
  mret tt.

(** The projection the persona is prompted with, and its task published. *)
(* src/internal/stage/spawn.go:243-255 (Spawner.Run) *)
Definition spawn_task (s : Spawner W) (audience : AuthenticatedAudience) : MW W unit :=
  projected ← attempt (sw_project s audience);
  projection ← lift (wrapf "project context" projected);
  request ← spawner_request (sp_Role (sw_spec s)) projection;
  task ← lift (Task (sw_spec s) request);
  publish (sp_Role (sw_spec s)) task.

(* src/internal/stage/spawn.go#Spawner.Run *)
Definition Spawner_Run (s : Spawner W) (trigger : Trigger) : MW W unit :=
  run ← enter trigger (sw_phase s);
  if negb run then mret tt
  else
    checked ← attempt (Guard_Check (sw_spec s) (t_TurnID trigger) (t_TurnEntityID trigger));
    resumption ← lift (wrapf "check whether the stage already finished" checked);
    if String.eqb (rp_Decision resumption) DecisionSkip then mret tt
    else if String.eqb (sp_Role (sw_spec s)) RoleCasekeeper then
      audience ← lift (wrapf "derive casekeeper applicability"
                         (Scope_CasekeeperAudience (sw_caseScope s) (t_TurnID trigger) (t_TurnEntityID trigger)));
      match audience with
      | None => commitNotApplicable trigger
      | Some audience => spawn_task s audience
      end
    else
      audience ← lift (audienceFor (sp_Role (sw_spec s)) trigger);
      spawn_task s audience.
End spawn.

(** ** The companion's stage *)

(* src/internal/stage/companion.go#const companionStageSource *)
Definition companionStageSource : string := "stage-companion".

(* src/internal/stage/companion.go#soleCompanionRef *)
Definition soleCompanionRef `{Substrate} (state : EntityState) (predicate : string) : res (option Ref) :=
  value ← optionalSoleTurnString state predicate;
  match value with
  | None => Ok None
  | Some value => ref ← ParseRef value; Ok (Some ref)
  end.

(* src/internal/stage/companion.go#companionDecision *)
Definition companionDecision (turnID contextRef : string) (bond : Bond) (kind level : string) (refs : list string)
    : CompanionDecision := {|
  cmd_DecisionID := CompanionDecisionID turnID contextRef (bo_PlayerID bond) (bo_CharacterID bond);
  cmd_TurnID := turnID; cmd_ContextRef := contextRef; cmd_PlayerID := bo_PlayerID bond;
  cmd_CompanionID := bo_CharacterID bond; cmd_Kind := kind; cmd_HintLevel := level; cmd_EvidenceRefs := refs;
  cmd_TargetRef := EmptyString |}.

(* src/internal/stage/companion.go#stageRecord *)
Definition stageRecord (turnID : string) (bond : Bond) (selected : CompanionTrigger) (status decisionRef : string)
    : CompanionStageRecord := {|
  csr_TurnID := turnID; csr_PlayerID := bo_PlayerID bond; csr_CompanionID := bo_CharacterID bond;
  csr_BondID := bo_ID bond; csr_Status := status; csr_TriggerKind := tg_Kind selected;
  csr_TriggerSource := tg_Source selected; csr_DecisionRef := decisionRef |}.

(** Whether a stored decision is this turn's and this bond's. *)
(* src/internal/stage/companion.go:195-196 (CompanionStage.commitHint) *)
Definition decision_matches (decision : CompanionDecision) (turnID contextRef : string) (bond : Bond) : bool :=
  String.eqb (cmd_TurnID decision) turnID && String.eqb (cmd_PlayerID decision) (bo_PlayerID bond) &&
  String.eqb (cmd_CompanionID decision) (bo_CharacterID bond) && String.eqb (cmd_ContextRef decision) contextRef.

(* src/internal/stage/companion.go:342-343 (CompanionStage.persistTrigger) *)
Definition trigger_triples (turnEntityID : string) (trigger : CompanionTrigger) (at_ : time) : list Triple :=
  let triple predicate object := {|
    Subject := turnEntityID; Predicate := predicate; Object := AString object; Source := companionStageSource;
    Timestamp := at_; Confidence := float_one; Context_ := turnEntityID; Datatype := EmptyString;
    ExpiresAt := None |} in
  [triple TurnCompanionTriggerKind (tg_Kind trigger); triple TurnCompanionTriggerSource (tg_Source trigger)].

Section companion_stage.
Context {W : Type} `{Substrate, AgenticRules, TaskRules, TaskEnvelope, GraphStore W, Clock W, PersonaArtifacts W,
  TaskPublisher W, Prompter W, PredicateReader W, SceneGraph W, CompanionArtifacts W}.

(* src/internal/stage/companion.go#CompanionStage.directRef *)
Definition directRef (predicate turnID : string) : res Ref :=
  key ← KeyFor predicate SubjectTurn turnID;
  let ref := {| Instance_ := companion_InstanceName; Key := key |} in
  _ ← Ref_Validate ref;
  Ok ref.

(* src/internal/stage/companion.go#CompanionStage.residentStage *)
Definition residentStage (turnID : string) : MW W (option CompanionStageRecord) :=
  ref ← lift (directRef TurnCompanionStageRef turnID);
  read ← attempt (companion_GetStageRecord ref);
  match read with
  | Ok record => mret (Some record)
  | Err err => if errors_Is ErrArtifactNotFound err then mret None else throw err
  end.

(* src/internal/stage/companion.go#CompanionStage.residentDecision *)
Definition residentDecision (turnID : string) : MW W (option (CompanionDecision * Ref)) :=
  ref ← lift (directRef TurnCompanionDecisionRef turnID);
  read ← attempt (companion_GetDecision ref);
  match read with
  | Ok decision => mret (Some (decision, ref))
  | Err err => if errors_Is ErrArtifactNotFound err then mret None else throw err
  end.

(* src/internal/stage/companion.go#CompanionStage.commitRecord *)
Definition commitRecord (turnEntityID : string) (record : CompanionStageRecord) (decisionRef : Ref) : MW W unit :=
  stageRef ← companion_PutStageRecord turnEntityID record;
  at_ ← read_clock;
  triples ← lift (CompanionStageRecord_Triples record turnEntityID (Ref_String stageRef) companionStageSource at_);
  if Ref_IsZero decisionRef then
    _ ← Reconcile TurnCompanionResult turnEntityID triples; mret tt
  else
    at' ← read_clock;
    _ ← Reconcile TurnCompanionResult turnEntityID
          (triples ++ [decision_triple turnEntityID companionStageSource decisionRef at']);
    mret tt.

(* src/internal/stage/companion.go#CompanionStage.persistTrigger *)
Definition persistTrigger (turnEntityID : string) (trigger : CompanionTrigger) : MW W unit :=
  at_ ← read_clock;
  _ ← Reconcile TurnCompanionTrigger turnEntityID (trigger_triples turnEntityID trigger at_);
  mret tt.

(* src/internal/stage/companion.go#advanceResidentHint *)
Definition advanceResidentHint (a : Authority) (bond : Bond) (emitted : string) : MW W unit :=
  levels ← lift (NextHintLevel emitted);
  if String.eqb (bo_HintLevel bond) levels.2 then mret tt
  else _ ← advanceHintLocked a bond emitted; mret tt.

(** The decision is stored first, then the ladder moves, then the turn names both. *)
(* src/internal/stage/companion.go#CompanionStage.commitDecision *)
Definition commitDecision (a : Authority) (trigger : Trigger) (bond : Bond) (selected : CompanionTrigger)
    (decision : CompanionDecision) (advance : bool) : MW W unit :=
  decisionRef ← companion_PutDecision (t_TurnEntityID trigger) decision;
  _ ← (match advance with
       | true => _ ← advanceHintLocked a bond (cmd_HintLevel decision); mret tt
       | false => mret tt
       end);
  commitRecord (t_TurnEntityID trigger)
    (stageRecord (t_TurnID trigger) bond selected CompanionStageDecision (Ref_String decisionRef)) decisionRef.

(** A hint: the companion's knowledge, as far as the ladder discloses it. *)
(* src/internal/stage/companion.go:207-231 (CompanionStage.commitHint) *)
Definition fresh_hint (a : Authority) (trigger : Trigger) (bond : Bond) (projection : Projection)
    (selected : CompanionTrigger) : MW W unit :=
  ids ← EntitiesByPredicateValue KnowledgeActorHolder (bo_CharacterID bond) 256;
  batch ← GetEntities ids;
  if negb (Nat.eqb (List.length (br_Missing batch)) 0) then
    throw (Errorf "companion knowledge hydration is short" [])
  else
    let level := bo_HintLevel bond in
    refs ← lift (SelectHintEvidence (Some projection) (bo_CharacterID bond) (br_Entities batch) level);
    let need := match HintEvidenceCount level with Ok count => count | Err _ => 0 end in
    if Z.of_nat (List.length refs) <? need then
      commitDecision a trigger bond selected
        (companionDecision (t_TurnID trigger) (p_ContextRef projection) bond CompanionDecisionSilent EmptyString []) false
    else
      commitDecision a trigger bond selected
        (companionDecision (t_TurnID trigger) (p_ContextRef projection) bond CompanionDecisionHint level refs) true.

(* src/internal/stage/companion.go#CompanionStage.commitHint *)
Definition commitHint (a : Authority) (trigger : Trigger) (bond : Bond) (projection : Projection)
    (selected : CompanionTrigger) : MW W unit :=
  resident ← residentDecision (t_TurnID trigger);
  match resident with
  | Some (decision, ref) =>
      if negb (decision_matches decision (t_TurnID trigger) (p_ContextRef projection) bond) then
        throw (Errorf "resident companion decision diverges from the authorized turn and bond" [])
      else
        _ ← (if String.eqb (cmd_Kind decision) CompanionDecisionHint
             then advanceResidentHint a bond (cmd_HintLevel decision) else mret tt);
        commitRecord (t_TurnEntityID trigger)
          (stageRecord (t_TurnID trigger) bond selected CompanionStageDecision (Ref_String ref)) ref
  | None => fresh_hint a trigger bond projection selected
  end.

(** A warning: the persona's decision when it made one, else its task. *)
(* src/internal/stage/companion.go:162-183 (CompanionStage.runBondTransaction) *)
Definition warn (trigger : Trigger) (bond : Bond) (projection : Projection) (selected : CompanionTrigger) : MW W unit :=
  resident ← residentDecision (t_TurnID trigger);
  match resident with
  | Some (decision, ref) =>
      if negb (decision_matches decision (t_TurnID trigger) (p_ContextRef projection) bond) ||
         String.eqb (cmd_Kind decision) CompanionDecisionHint then
        throw (Errorf "resident warning decision diverges from the authorized turn and bond" [])
      else
        commitRecord (t_TurnEntityID trigger)
          (stageRecord (t_TurnID trigger) bond selected CompanionStageDecision (Ref_String ref)) ref
  | None =>
      request ← prompt_Companion projection;
      task ← lift (Task Companion_ request);
      data ← lift (marshal_task task TaskSource);
      PublishToStreamWithMsgID (TaskSubjectFor RoleCompanion) data (tm_TaskID task)
  end.

(* src/internal/stage/companion.go#CompanionStage.runBondTransaction *)
Definition runBondTransaction (a : Authority) (project : AuthenticatedAudience -> MW W Projection) (trigger : Trigger)
    (state : EntityState) (bond : Bond) : MW W unit :=
  selected ← lift (SelectTrigger state bond);
  _ ← persistTrigger (t_TurnEntityID trigger) selected;
  if String.eqb (tg_Kind selected) CompanionTriggerNone then
    commitRecord (t_TurnEntityID trigger)
      (stageRecord (t_TurnID trigger) bond selected CompanionStageNoTrigger EmptyString) zero_Ref
  else
    scene ← lift (wrapf "read companion context" (optionalSoleTurnString state TurnActionScene));
    match scene with
    | None => throw (Errorf "read companion context" [])
    | Some contextRef =>
        projection ← project (CompanionAudience (t_TurnID trigger) (t_TurnEntityID trigger) contextRef
                                (bo_CharacterID bond) (bo_ID bond));
        if String.eqb (tg_Kind selected) CompanionTriggerWarning then warn trigger bond projection selected
        else commitHint a trigger bond projection selected
    end.

(** A stage record already stored for the turn lands, when it is the player's. *)
(* src/internal/stage/companion.go:108-119 (CompanionStage.Run) *)
Definition adopt_stage (trigger : Trigger) (playerID : string) (resident : CompanionStageRecord) : MW W unit :=
  if negb (String.eqb (csr_PlayerID resident) playerID) then
    throw (Errorf "resident companion stage record names another player" [])
  else
    decisionRef ← lift (if String.eqb (csr_DecisionRef resident) EmptyString then Ok zero_Ref
                        else ParseRef (csr_DecisionRef resident));
    commitRecord (t_TurnEntityID trigger) resident decisionRef.

(* src/internal/stage/companion.go#CompanionStage.Run *)
Definition CompanionStage_Run (a : Authority) (project : AuthenticatedAudience -> MW W Projection) (trigger : Trigger)
    : MW W unit :=
  run ← enter trigger PhaseCompanion;
  if negb run then mret tt
  else
    read ← attempt (GetEntity (t_TurnEntityID trigger));
    state ← lift (wrapf "read companion turn" read);
    found ← lift (soleCompanionRef state TurnCompanionStageRef);
    match found with
    | Some stageRef =>
        record ← companion_GetStageRecord stageRef;
        lift (require (String.eqb (csr_TurnID record) (t_TurnID trigger))
                (Errorf "resident companion stage record belongs to another turn" []))
    | None =>
        player ← lift (wrapf "read companion player identity" (optionalSoleTurnString state TurnActionPlayer));
        match player with
        | None => throw (Errorf "read companion player identity" [])
        | Some playerID =>
            resident ← residentStage (t_TurnID trigger);
            match resident with
            | Some resident => adopt_stage trigger playerID resident
            | None =>
                bond ← ActiveBondForPlayer playerID;
                match bond with
                | None =>
                    commitRecord (t_TurnEntityID trigger)
                      {| csr_TurnID := t_TurnID trigger; csr_PlayerID := playerID; csr_CompanionID := EmptyString;
                         csr_BondID := EmptyString; csr_Status := CompanionStageNoActiveBond;
                         csr_TriggerKind := EmptyString; csr_TriggerSource := EmptyString;
                         csr_DecisionRef := EmptyString |} zero_Ref
                | Some bond =>
                    WithBondTransaction (bo_ID bond) playerID (bo_CharacterID bond)
                      (runBondTransaction a project trigger state)
                end
            end
        end
    end.
End companion_stage.

(* src/internal/stage/loopfailure.go#LoopFailedSubject *)
Definition LoopFailedSubject : string := "agent.failed.*".
(* src/internal/stage/loopfailure.go#LoopFailureConsumer *)
Definition LoopFailureConsumer : string := "semmachina-loop-failures".
(* src/internal/stage/loopfailure.go#ReasonMaxIterations *)
Definition ReasonMaxIterations : string := "max_iterations".
(* src/internal/stage/loopfailure.go#DefaultFailureAckWait *)
Definition DefaultFailureAckWait : Z := 30 * Second.
(* src/internal/stage/loopfailure.go#DefaultFailureHeartbeat *)
Definition DefaultFailureHeartbeat : Z := 10 * Second.
(* src/internal/stage/loopfailure.go#AgentStreamMaxAge *)
Definition AgentStreamMaxAge : Z := 7 * 24 * 3600 * Second.
(* src/internal/stage/loopfailure.go#AgentStreamMaxBytes *)
Definition AgentStreamMaxBytes : Z := Z.shiftl 4 30.

(** [jetstream.StreamConfig], what this declaration states. *)
Record AgentStreamConfiguration : Type := {
  as_Name : string; as_Subjects : list string; as_FileStorage : bool; as_LimitsPolicy : bool; as_MaxAge : Z;
  as_MaxBytes : Z; as_Duplicates : Z; as_DiscardOld : bool }.

(* src/internal/stage/loopfailure.go#AgentStreamConfig *)
Definition AgentStreamConfig : AgentStreamConfiguration := {|
  as_Name := TaskStream; as_Subjects := AgentStreamSubjects; as_FileStorage := true; as_LimitsPolicy := true;
  as_MaxAge := AgentStreamMaxAge; as_MaxBytes := AgentStreamMaxBytes; as_Duplicates := AgentStreamMaxAge;
  as_DiscardOld := true |}.

(** Whether every subject the second pattern can match is one the first does. *)
(* src/internal/stage/loopfailure.go#covers *)
Fixpoint covers (pattern want : list string) : bool :=
  match pattern with
  | [] => match want with [] => true | _ => false end
  | token :: pattern' =>
      if String.eqb token ">" then true
      else
        match want with
        | [] => false
        | wanted :: want' =>
            if negb (String.eqb token "*") && negb (String.eqb token wanted) then false else covers pattern' want'
        end
  end.

(* src/internal/stage/loopfailure.go#subjectCovered *)
Definition loop_subjectCovered (want : string) (subjects : list string) : bool :=
  existsb (fun subject => covers (Split dot subject) (Split dot want)) subjects.

(** The watcher's configuration. *)
(* src/internal/stage/loopfailure.go#type LoopFailureWatcher *)
Record LoopFailureWatcher : Type := {
  lw_subject : string; lw_consumerName : string; lw_heartbeat : Z; lw_ackWait : Z; lw_hasExhauster : bool }.

(** What the options leave of an override: a name only when it is not empty. *)
(* src/internal/stage/loopfailure.go:259-271 (NewLoopFailureWatcher) *)
Definition NewLoopFailureWatcher (subject consumerName : string) (timings : option (Z * Z)) (hasExhauster : bool)
    : res LoopFailureWatcher :=
  let '(ackWait, heartbeat) := default (DefaultFailureAckWait, DefaultFailureHeartbeat) timings in
  if (heartbeat <=? 0) || (ackWait <=? 0) then Err (Errorf "the loop-failure watcher requires positive ack timings" [])
  else Ok {|
    lw_subject := if String.eqb subject EmptyString then LoopFailedSubject else subject;
    lw_consumerName := if String.eqb consumerName EmptyString then LoopFailureConsumer else consumerName;
    lw_heartbeat := heartbeat; lw_ackWait := ackWait; lw_hasExhauster := hasExhauster |}.

(* src/internal/stage/loopfailure.go#LoopFailureWatcher.ConsumerConfig *)
Definition Loop_ConsumerConfig (w : LoopFailureWatcher) : StreamConsumerConfig := {|
  cn_StreamName := TaskStream; cn_ConsumerName := lw_consumerName w; cn_FilterSubject := lw_subject w;
  cn_DeliverPolicy := "all"; cn_AckPolicy := "explicit"; cn_MaxDeliver := 0; cn_AckWait := lw_ackWait w |}.

(** [agentic.LoopFailedEvent]. *)
Record LoopFailedEvent : Type := {
  le_LoopID : string; le_Role : string; le_Reason : string; le_Iterations : Z; le_Error : string;
  le_Metadata : Metadata }.

(** The agentic stream, and the watcher's consumer on it: what it has yet to
    deliver, and what is delivered and unacknowledged. *)
Class AgentStream (W : Type) : Type := {
  stream_Subjects : MW W (list string);
  stream_Consume : StreamConsumerConfig -> Z -> MW W unit;
  stream_Backlog : string -> MW W (Z * Z);
  stream_Tick : MW W unit
}.

(* src/internal/stage/loopfailure.go#roleOf *)
Definition roleOf (role : string) : res string :=
  spec ← wrapf "a loop carrying this engine's turn identity reported another role" (SpecFor role);
  Ok (sp_Role spec).

(** A recording whose explanation was lost ended the turn all the same. *)
(* src/internal/stage/loopfailure.go#LoopFailureWatcher.reportRecordError *)
Definition reportRecordError (err : error) : res unit :=
  if errors_As_b is_DetailLostError err then Ok tt else Err (Errorf "record persona failure for turn" [err]).

Section watcher.
Context {W : Type} `{Substrate, UnicodePrint, GraphStore W, Clock W, ActionStore W, PersonaArtifacts W,
  PredicateReader W, CompanionArtifacts W, TransientErrors, Codec CompanionDecision, AgentStream W}.

(** [jetstream.ErrStreamNotFound] is one of the stream's errors. *)
(* src/internal/stage/loopfailure.go#LoopFailureWatcher.Start *)
Definition Loop_Start (w : LoopFailureWatcher) : MW W unit :=
  read ← attempt stream_Subjects;
  subjects ← lift (wrapf "read the stream" read);
  if negb (loop_subjectCovered (lw_subject w) subjects) then
    throw (Errorf "the stream exists but its subjects do not capture the loop failures" [])
  else
    bound ← attempt (stream_Consume (Loop_ConsumerConfig w) (lw_heartbeat w));
    lift (wrapf "bind the loop-failure consumer" bound).

(** The poll until nothing is left to deliver or acknowledge; the wait between
    two polls ends with the context. [fuel] bounds the polls of one run. *)
(* src/internal/stage/loopfailure.go#LoopFailureWatcher.CatchUp *)
Fixpoint CatchUp (fuel : nat) (w : LoopFailureWatcher) : MW W (option unit) :=
  match fuel with
  | O => mret None
  | S fuel =>
      read ← attempt (stream_Backlog (lw_consumerName w));
      backlog ← lift (wrapf "read loop-failure consumer state" read);
      if (fst backlog =? 0) && (snd backlog =? 0) then mret (Some tt)
      else
        ticked ← attempt stream_Tick;
        _ ← lift (wrapf "catch up loop failures" ticked);
        CatchUp fuel w
  end.

(* src/internal/stage/loopfailure.go#LoopFailureWatcher.recordCapExhaustion *)
Definition recordCapExhaustion (identity : PersonaIdentity) (role : string) (event : LoopFailedEvent) : MW W unit :=
  recorded ← attempt (RecordCapExhausted identity
    {| ce_Role := role; ce_LoopID := le_LoopID event; ce_Iterations := le_Iterations event; ce_LastError := le_Error event |});
  match recorded with
  | Ok _ => mret tt
  | Err err => lift (reportRecordError err)
  end.

(* src/internal/stage/loopfailure.go#LoopFailureWatcher.recordLoopFailure *)
Definition recordLoopFailure (identity : PersonaIdentity) (role : string) (event : LoopFailedEvent) : MW W unit :=
  recorded ← attempt (RecordLoopFailed identity
    {| lf_Role := role; lf_LoopID := le_LoopID event; lf_Reason := le_Reason event; lf_Iterations := le_Iterations event;
       lf_LastError := le_Error event |});
  match recorded with
  | Ok _ => mret tt
  | Err err => lift (reportRecordError err)
  end.

(** What the decoder gives: an error, another payload, or a failure event. *)
(* src/internal/stage/loopfailure.go#LoopFailureWatcher.Handle *)
Definition Loop_Handle (w : LoopFailureWatcher) (decoded : res (option LoopFailedEvent)) : MW W unit :=
  match decoded with
  | Err err => throw (TerminateDelivery (Errorf "decode loop failure" [err]))
  | Ok None => mret tt
  | Ok (Some event) =>
      match IdentityFrom (le_Metadata event) with
      | Err _ => mret tt
      | Ok identity =>
          role ← lift (roleOf (le_Role event));
          if String.eqb (le_Reason event) ReasonMaxIterations then
            if String.eqb role RoleCompanion then
              if negb (lw_hasExhauster w) then
                throw (Errorf "companion cap exhaustion has no deterministic committer" [])
              else
                exhausted ← attempt (Exhaust identity);
                lift (wrapf "commit exhausted companion result" exhausted)
            else recordCapExhaustion identity role event
          else recordLoopFailure identity role event
      end
  end.
End watcher.
