(* ===== verification/Prompt.v ===== *)
(** [internal/persona/prompt.go]: the rendering of an assembled projection and
    of the turn's artifacts into a persona's prompt, and the identity its task
    carries. *)

From S2P Require Import Prelude GoStd GoErrors Graph Vocab Vocabulary Payload Mechanics Decisions ContentRecords ContentStore Store Effect Turn Epistemic Persona Spawn.

Open Scope Z_scope.

(** [strings.Builder] is the text written so far; a write is a concatenation. *)
Definition newline : ascii := "010"%char.
Definition nl : string := String newline EmptyString.
Definition line (s : string) : string := s +:+ nl.
Definition lines (l : list string) : string := String.concat EmptyString (map line l).

(* src/internal/persona/prompt.go#type ArtifactReader *)
Record ArtifactReader (W : Type) : Type := {
  ar_GetAction : Ref -> MW W PlayerAction;
  ar_GetVerdict : Ref -> MW W Verdict;
  ar_GetKnowledgeReceipt : Ref -> MW W KnowledgeReceipt;
  ar_GetTestimony : Ref -> MW W Testimony;
  ar_GetCompanionStageRecord : Ref -> MW W CompanionStageRecord;
  ar_GetCompanionDecision : Ref -> MW W CompanionDecision }.
Arguments ar_GetAction {W}. Arguments ar_GetVerdict {W}. Arguments ar_GetKnowledgeReceipt {W}.
Arguments ar_GetTestimony {W}. Arguments ar_GetCompanionStageRecord {W}. Arguments ar_GetCompanionDecision {W}.

(** The content store is such a reader. *)
(* src/internal/persona/prompt.go:43-43 (ArtifactReader) *)
Definition store_reader {W} `{Substrate, Backend W, Codec PlayerAction, Codec Verdict, Codec CompanionDecision,
    Codec CompanionStageRecord, Codec KnowledgeReceipt, Codec Testimony} : ArtifactReader W := {|
  ar_GetAction := GetAction; ar_GetVerdict := GetVerdict; ar_GetKnowledgeReceipt := GetKnowledgeReceipt;
  ar_GetTestimony := GetTestimony; ar_GetCompanionStageRecord := GetCompanionStageRecord;
  ar_GetCompanionDecision := GetCompanionDecision |}.

(* src/internal/persona/prompt.go#type Builder *)
Record Builder (W : Type) : Type := { bd_artifacts : ArtifactReader W }.
Arguments bd_artifacts {W}.

(* src/internal/persona/prompt.go#NewBuilder *)
Definition NewBuilder {W} (artifacts : option (ArtifactReader W)) : res (Builder W) :=
  match artifacts with
  | None => Err (Errorf "the prompt builder requires an artifact reader" [])
  | Some artifacts => Ok {| bd_artifacts := artifacts |}
  end.

(** ** The player's words *)

(** [strings.ReplaceAll(text, "\n", "\n> ")]. *)
Fixpoint fence_lines (s : string) : string :=
  match s with
  | EmptyString => EmptyString
  | String c rest => if Ascii.eqb newline c then String newline ("> " +:+ fence_lines rest) else String c (fence_lines rest)
  end.

(* src/internal/persona/prompt.go#quoteAction *)
Definition quoteAction (text : string) : string := "> " +:+ fence_lines (TrimSpace text).

(** ** The world *)

Section render.
Context `{Substrate}.

(** [%v] of an object is its [fmt.Sprint]. *)
(* src/internal/persona/prompt.go:779-779 (writeEntity) *)
Definition fact_text (fact : Fact) : string := "    " +:+ f_Predicate fact +:+ ": " +:+ Sprint (f_Object fact).

(* src/internal/persona/prompt.go#writeEntity *)
Definition writeEntity (entity : ProjEntity) : string :=
  line ("- " +:+ pe_ID entity) +:+ lines (Sort (map fact_text (pe_Facts entity))).

(* src/internal/persona/prompt.go#writeEntities *)
Definition writeEntities (entities : list ProjEntity) (empty : string) : string :=
  if Nat.eqb (List.length entities) 0 then line empty
  else String.concat EmptyString (map writeEntity entities).

(* src/internal/persona/prompt.go#writeWorld *)
Definition writeWorld (view : Projection) : string :=
  "# Who is acting" +:+ nl +:+ nl +:+
  line ("player: " +:+ pa_Player (p_Actor view)) +:+
  line ("playing: " +:+ pa_Character (p_Actor view)) +:+
  nl +:+ "# Where" +:+ nl +:+ nl +:+
  writeEntity (p_Scene view) +:+
  nl +:+ "# Who and what is here" +:+ nl +:+ nl +:+
  writeEntities (p_Members view) "The room is empty apart from the scene itself." +:+
  nl +:+ "# One step away" +:+ nl +:+ nl +:+
  writeEntities (p_Neighbours view) "Nothing is carried, known, or connected outside this room.".

(* src/internal/persona/prompt.go#triplesOf *)
Definition triplesOf (entity : ProjEntity) : list Triple :=
  map (fun fact => {| Subject := pe_ID entity; Predicate := f_Predicate fact; Object := f_Object fact;
    Source := EmptyString; Timestamp := 0; Confidence := S754_zero false; Context_ := EmptyString;
    Datatype := EmptyString; ExpiresAt := None |}) (pe_Facts entity).

(** ** What the turn records *)

(* src/internal/persona/prompt.go#validateProjectionForPrompt *)
Definition validateProjectionForPrompt `{ProjectionEncoder} (projection : Projection) : res unit :=
  data ← wrapf "serialize epistemic projection before prompt assembly" (Projection_Bytes projection);
  if DefaultMaxProjectionBytes <? len data then Err (Errorf "epistemic prompt projection is too large" []) else Ok tt.

(* src/internal/persona/prompt.go#resumeAttemptOf *)
Definition resumeAttemptOf (view : Projection) : res Z :=
  wrapf "read the persisted resume attempt" (ResumeAttemptsFromTriples (triplesOf (p_Turn view))).

(* src/internal/persona/prompt.go#soleRef *)
Definition prompt_soleRef (view : Projection) (predicate : string) : res Ref :=
  match ProjEntity_Objects (p_Turn view) predicate with
  | [] => Err (Errorf "turn carries no such reference" [])
  | [AString value] =>
      ref ← wrapf "turn records an unresolvable reference" (ParseRef value);
      if Ref_IsZero ref then Err (Errorf "turn records an empty reference" []) else Ok ref
  | [_] => Err (Errorf "turn records a value that is not a storage reference" [])
  | _ => Err (Errorf "turn holds several values for a single-valued reference" [])
  end.

(* src/internal/persona/prompt.go#atMostOne *)
Definition atMostOne (view : Projection) (predicate : string) : res (option any) :=
  match ProjEntity_Objects (p_Turn view) predicate with
  | [] => Ok None
  | [object] => Ok (Some object)
  | _ => Err (Errorf "turn holds several values for a single-valued predicate" [])
  end.

(* src/internal/persona/prompt.go#singleInt *)
Definition singleInt (view : Projection) (predicate : string) : res Z :=
  match ProjEntity_Objects (p_Turn view) predicate with
  | [AInt value] => Ok value
  | [AFloat64 value] =>
      match float_to_int value with
      | None => Err (Errorf "turn records a value which is not a whole number" [])
      | Some z => Ok z
      end
  | [_] => Err (Errorf "turn records a value of another type, want a number" [])
  | _ => Err (Errorf "turn holds another number of values, want exactly one" [])
  end.

(* src/internal/persona/prompt.go#identityOf *)
Definition identityOf (view : Projection) (action : PlayerAction) : res PersonaIdentity :=
  let identity := {| pi_TurnID := p_TurnID view; pi_TurnEntityID := p_TurnEntityID view;
    pi_ActionID := pa_ActionID action; pi_SceneID := p_SceneID view; pi_CaseID := EmptyString; pi_ActorID := EmptyString;
    pi_ContextRef := EmptyString; pi_PlayerID := EmptyString; pi_CompanionID := EmptyString; pi_BondID := EmptyString |} in
  _ ← PersonaIdentity_Validate identity;
  if negb (String.eqb (pa_SceneID action) (p_SceneID view)) then
    Err (Errorf "turn was submitted in one scene and assembled in another" [])
  else Ok identity.

(* src/internal/persona/prompt.go#caseIDOf *)
Definition caseIDOf (view : Projection) : res string :=
  match map pe_ID (List.filter (fun entity =>
          bool_decide (ProjEntity_Objects entity WorldEntityKind = [AString EntityKindCase])) (Projection_Entities view)) with
  | [id] => Ok id
  | _ => Err (Errorf "casekeeper projection carries another number of case entities, want exactly one" [])
  end.

(** ** The outcome *)

(* src/internal/persona/prompt.go#type outcome *)
Record outcome : Type := {
  oc_Band : string; oc_Rolled : bool; oc_Total : Z; oc_Verdict : Verdict; oc_Committed : bool; oc_Failure : string }.

(** The [switch]: the band, whether it was rolled, and the total. *)
(* src/internal/persona/prompt.go:571-603 (outcomeOf) *)
Definition band_of (view : Projection) (verdict : Verdict) (bands : option any) : res (string * bool * Z) :=
  match v_RequiresRoll (v_Scalars verdict), bands with
  | true, None => Err (Errorf "the verdict requires a roll and the turn records no band" [])
  | false, Some _ => Err (Errorf "the verdict declined the dice and the turn records a band anyway" [])
  | false, None => Ok (BandAuto, false, 0)
  | true, Some (AString value) =>
      band ← ParseOutcomeBand value;
      if negb (IsRollBand band) then Err (Errorf "turn records a roll band which the dice cannot select" [])
      else
        total ← singleInt view TurnRollTotal;
        Ok (band, true, total)
  | true, Some _ => Err (Errorf "turn records a roll band of another type, want a string" [])
  end.

(* src/internal/persona/prompt.go#outcomeOf *)
Definition outcomeOf (view : Projection) (verdict : Verdict) : res outcome :=
  bands ← atMostOne view TurnRollBand;
  rolled ← band_of view verdict bands;
  let '(band, isRolled, total) := rolled in
  batches ← atMostOne view TurnEffectsBatch;
  reasons ← atMostOne view TurnFailureReason;
  failure ← match reasons with
            | None => Ok EmptyString
            | Some (AString value) => ParseFailureReason value
            | Some _ => Err (Errorf "turn records a failure reason of another type, want a string" [])
            end;
  Ok {| oc_Band := band; oc_Rolled := isRolled; oc_Total := total; oc_Verdict := verdict;
        oc_Committed := match batches with Some _ => true | None => false end; oc_Failure := failure |}.

(* src/internal/persona/prompt.go#describeIntent *)
Definition describeIntent (intent : EffectIntent) : string :=
  if String.eqb (i_Type intent) EffectSetAttribute then
    i_Target intent +:+ ": " +:+ i_Attribute intent +:+ " is now " +:+
      match i_Value intent with Some value => Itoa value | None => EmptyString end
  else if String.eqb (i_Type intent) EffectSetStatus then i_Target intent +:+ ": is now " +:+ i_Status intent
  else if String.eqb (i_Type intent) EffectMoveEntity then i_Target intent +:+ ": is now at " +:+ i_Location intent
  else if String.eqb (i_Type intent) EffectAddRelationship then
    i_Target intent +:+ ": now " +:+ i_Relation intent +:+ " " +:+ i_Object intent
  else if String.eqb (i_Type intent) EffectRemoveRelationship then
    i_Target intent +:+ ": no longer " +:+ i_Relation intent +:+ " " +:+ i_Object intent
  else i_Target intent +:+ ": " +:+ i_Type intent.

(** The second section: what changed. *)
(* src/internal/persona/prompt.go:700-713 (outcome.write) *)
Definition write_changes (o : outcome) : string :=
  let intents := default [] (v_Bands (oc_Verdict o) !! oc_Band o) in
  if negb (String.eqb (oc_Failure o) EmptyString) then
    line ("Nothing. The turn ended in failure (" +:+ oc_Failure o +:+
          "); the world is exactly as described above, and nothing the player attempted took effect.")
  else if negb (oc_Committed o) then line "Nothing was committed. The world is exactly as described above."
  else if Nat.eqb (List.length intents) 0 then
    line "Nothing changed. The outcome carried no world change; the moment still happened."
  else lines (map (fun intent => "- " +:+ describeIntent intent) intents).

(* src/internal/persona/prompt.go#outcome.write *)
Definition outcome_write (o : outcome) : string :=
  let scalars := v_Scalars (oc_Verdict o) in
  "# What was decided" +:+ nl +:+ nl +:+
  line ("plausibility: " +:+ v_Plausibility scalars) +:+
  line ("risk: " +:+ v_Risk scalars) +:+
  line ("consequence: " +:+ v_Consequence scalars) +:+
  (if oc_Rolled o then line ("roll: " +:+ Itoa (oc_Total o) +:+ " (" +:+ oc_Band o +:+ ")")
   else line ("roll: none — the fiction already decided (" +:+ oc_Band o +:+ ")")) +:+
  (if negb (String.eqb (v_Rationale (oc_Verdict o)) EmptyString) then
     line ("the judgment behind it: " +:+ v_Rationale (oc_Verdict o)) else EmptyString) +:+
  nl +:+ "# What changed in the world" +:+ nl +:+ nl +:+
  write_changes o.
End render.

(** ** What a narration may voice *)

(* src/internal/persona/prompt.go#type narrationRevelation *)
Record narrationRevelation : Type := { nr_evidenceID : string; nr_testimony : option Testimony }.
(* src/internal/persona/prompt.go#type narrationArtifactContext *)
Record narrationArtifactContext : Type := {
  nc_revelations : list narrationRevelation; nc_companion : option CompanionDecision }.

Definition shows (view : Projection) (id : string) : bool :=
  match Projection_Entity view id with Some _ => true | None => false end.

(* src/internal/persona/prompt.go#narrationArtifactContext.write *)
Definition context_write (c : narrationArtifactContext) : string :=
  (if Nat.eqb (List.length (nc_revelations c)) 0 then EmptyString
   else
     nl +:+ "# Committed revelations to voice" +:+ nl +:+ nl +:+
     String.concat EmptyString (map (fun revelation =>
       line ("- evidence: " +:+ nr_evidenceID revelation) +:+
       match nr_testimony revelation with
       | None => EmptyString
       | Some testimony =>
           line ("  attributed testimony from " +:+ ty_SourceActorID testimony +:+ ": " +:+ ty_Prose testimony)
       end) (nc_revelations c))) +:+
  match nc_companion c with
  | None => EmptyString
  | Some companion =>
      nl +:+ "# Committed companion decision to voice" +:+ nl +:+ nl +:+
      line ("companion: " +:+ cmd_CompanionID companion) +:+
      line ("kind: " +:+ cmd_Kind companion) +:+
      (if negb (String.eqb (cmd_HintLevel companion) EmptyString) then
         line ("hint level: " +:+ cmd_HintLevel companion) else EmptyString) +:+
      lines (map (fun evidenceID => "evidence: " +:+ evidenceID) (cmd_EvidenceRefs companion)) +:+
      line "The narrator may author the companion's dialogue, but must add no evidence or decision."
  end.

Section builder.
Context {W : Type} `{Substrate, ProjectionEncoder}.
Context (b : Builder W).

(* src/internal/persona/prompt.go#Builder.action *)
Definition Builder_action (view : Projection) : MW W PlayerAction :=
  ref ← lift (prompt_soleRef view TurnActionRef);
  read ← attempt (ar_GetAction (bd_artifacts b) ref);
  lift (wrapf "resolve the player's action" read).

(* src/internal/persona/prompt.go#Builder.verdict *)
Definition Builder_verdict (view : Projection) : MW W Verdict :=
  ref ← lift (wrapf "the narrator voices a judged outcome" (prompt_soleRef view TurnVerdictRef));
  read ← attempt (ar_GetVerdict (bd_artifacts b) ref);
  lift (wrapf "resolve the verdict" read).

(** The testimony an entry of the receipt refers to. *)
(* src/internal/persona/prompt.go:337-358 (Builder.narrationContext) *)
Definition entry_testimony (view : Projection) (receipt : KnowledgeReceipt) (entry : KnowledgeReceiptEntry)
    : MW W (option Testimony) :=
  if String.eqb (kre_TestimonyRef entry) EmptyString then mret None
  else
    ref ← lift (wrapf "parse testimony reference" (ParseRef (kre_TestimonyRef entry)));
    read ← attempt (ar_GetTestimony (bd_artifacts b) ref);
    testimony ← lift (wrapf "resolve testimony" read);
    _ ← lift (wrapf "testimony is invalid" (Testimony_Validate testimony));
    if negb (String.eqb (ty_TurnID testimony) (p_TurnID view)) ||
       negb (String.eqb (ty_DecisionID testimony) (kr_DecisionID receipt)) ||
       negb (String.eqb (ty_RecipientID testimony) (kre_RecipientID entry)) ||
       negb (String.eqb (ty_EvidenceID testimony) (kre_EvidenceID entry)) then
      throw (Errorf "testimony does not match its receipt entry identity" [])
    else if negb (shows view (ty_SourceActorID testimony)) then
      throw (Errorf "testimony source is outside the authorized narrator projection" [])
    else mret (Some testimony).

(** The loop over the receipt's entries. *)
(* src/internal/persona/prompt.go:327-360 (Builder.narrationContext) *)
Fixpoint revelations_of (view : Projection) (receipt : KnowledgeReceipt) (entries : list KnowledgeReceiptEntry)
    : MW W (list narrationRevelation) :=
  match entries with
  | [] => mret []
  | entry :: rest =>
      if negb (String.eqb (kre_RecipientID entry) (pa_Character (p_Actor view))) then revelations_of view receipt rest
      else if negb (shows view (kre_EvidenceID entry)) then
        throw (Errorf "knowledge receipt cites evidence outside the acting character's authorized projection" [])
      else
        testimony ← entry_testimony view receipt entry;
        others ← revelations_of view receipt rest;
        mret ({| nr_evidenceID := kre_EvidenceID entry; nr_testimony := testimony |} :: others)
  end.

(** The decision the turn's companion stage committed. *)
(* src/internal/persona/prompt.go:362-409 (Builder.narrationContext) *)
Definition committed_companion (view : Projection) : MW W (option CompanionDecision) :=
  stageRef ← lift (wrapf "resolve committed companion stage" (prompt_soleRef view TurnCompanionStageRef));
  read ← attempt (ar_GetCompanionStageRecord (bd_artifacts b) stageRef);
  stage ← lift (wrapf "resolve companion stage" read);
  _ ← lift (wrapf "companion stage is invalid" (CompanionStageRecord_Validate (Some stage)));
  if negb (String.eqb (csr_TurnID stage) (p_TurnID view)) || negb (String.eqb (csr_PlayerID stage) (pa_Player (p_Actor view)))
  then throw (Errorf "companion stage does not match turn/player identity" [])
  else if String.eqb (csr_Status stage) CompanionStageNoActiveBond || String.eqb (csr_Status stage) CompanionStageNoTrigger
  then
    if negb (Nat.eqb (List.length (ProjEntity_Objects (p_Turn view) TurnCompanionDecisionRef)) 0) then
      throw (Errorf "no-decision companion stage carries a decision reference" [])
    else mret None
  else
    decisionRef ← lift (wrapf "resolve committed companion decision" (prompt_soleRef view TurnCompanionDecisionRef));
    if negb (String.eqb (Ref_String decisionRef) (csr_DecisionRef stage)) then
      throw (Errorf "companion decision reference disagrees with stage" [])
    else
      read ← attempt (ar_GetCompanionDecision (bd_artifacts b) decisionRef);
      decision ← lift (wrapf "resolve companion decision" read);
      _ ← lift (wrapf "companion decision is invalid" (CompanionDecision_Validate (Some decision)));
      if negb (String.eqb (cmd_TurnID decision) (p_TurnID view)) ||
         negb (String.eqb (cmd_PlayerID decision) (pa_Player (p_Actor view))) ||
         negb (String.eqb (cmd_CompanionID decision) (csr_CompanionID stage)) then
        throw (Errorf "companion decision does not match stage turn/player/companion identity" [])
      else if negb (forallb (shows view) (cmd_EvidenceRefs decision)) then
        throw (Errorf "companion decision cites evidence outside the authorized narrator projection" [])
      else mret (Some decision).

(* src/internal/persona/prompt.go#Builder.narrationContext *)
Definition Builder_narrationContext (view : Projection) : MW W narrationArtifactContext :=
  knowledgeRef ← lift (wrapf "resolve committed narration knowledge" (prompt_soleRef view TurnKnowledgeRef));
  read ← attempt (ar_GetKnowledgeReceipt (bd_artifacts b) knowledgeRef);
  receipt ← lift (wrapf "resolve knowledge receipt" read);
  _ ← lift (wrapf "knowledge receipt is invalid" (KnowledgeReceipt_Validate receipt));
  if negb (String.eqb (kr_TurnID receipt) (p_TurnID view)) then
    throw (Errorf "knowledge receipt belongs to another turn" [])
  else
    revelations ← revelations_of view receipt (kr_Entries receipt);
    companion ← committed_companion view;
    mret {| nc_revelations := revelations; nc_companion := companion |}.

(** ** The four prompts *)

(** What every prompt begins with: the projection fits, the turn is in order,
    and its action is read. *)
(* src/internal/persona/prompt.go:89-103 (Builder.Adjudicate) *)
Definition begin_prompt (view : Projection) : MW W (Z * PlayerAction * PersonaIdentity) :=
  _ ← lift (validateProjectionForPrompt view);
  resumeAttempt ← lift (resumeAttemptOf view);
  action ← Builder_action view;
  identity ← lift (identityOf view action);
  mret (resumeAttempt, action, identity).

(* src/internal/persona/prompt.go:105-111 (Builder.Adjudicate) *)
Definition adjudication_text (view : Projection) (text : string) : string :=
  writeWorld view +:+ nl +:+ "# The action to judge" +:+ nl +:+ nl +:+ quoteAction text +:+ nl +:+ nl +:+
  "Judge this action against the world above and exit through " +:+ VerdictToolName +:+ "." +:+ nl.

(* src/internal/persona/prompt.go#Builder.Adjudicate *)
Definition Builder_Adjudicate (view : option Projection) : MW W TaskRequest :=
  match view with
  | None => throw (Errorf "rendering an adjudication prompt requires an assembled view" [])
  | Some view =>
      if negb (String.eqb (p_Purpose view) PurposePublicAdjudicator) then
        throw (Errorf "adjudication prompt requires another projection" [])
      else
        begun ← begin_prompt view;
        let '(resumeAttempt, action, identity) := begun in
        mret {| rq_Identity := identity; rq_ResumeAttempt := resumeAttempt; rq_Band := EmptyString;
                rq_Prompt := adjudication_text view (pa_Text action) |}
  end.

(* src/internal/persona/prompt.go:151-164 (Builder.Interpret) *)
Definition interpretation_text (view : Projection) (text : string) : string :=
  writeWorld view +:+ nl +:+ "# The mystery action to interpret" +:+ nl +:+ nl +:+ quoteAction text +:+ nl +:+ nl +:+
  "# Structural mystery contract" +:+ nl +:+ nl +:+
  "target_refs name only entities actually targeted by the player's action prose. " +:+
  "Never add a target merely to qualify evidence." +:+ nl +:+ nl +:+
  "For observe/investigate, include an evidence reference only when authored eligibility admits the " +:+
  "observe/investigate kind, the case has reached the evidence's minimum phase, at least one actual " +:+
  "target intersects the evidence's eligible targets, and the evidence is not solution-locked. " +:+
  "If no evidence satisfies all four checks, submit reveal_refs=[]." +:+ nl +:+ nl +:+
  "Interpret the action against the private case state above and exit through " +:+
  CaseDecisionToolName +:+ "." +:+ nl.

(* src/internal/persona/prompt.go:142-146 (Builder.Interpret) *)
Definition with_case (identity : PersonaIdentity) (caseID actorID : string) : PersonaIdentity := {|
  pi_TurnID := pi_TurnID identity; pi_TurnEntityID := pi_TurnEntityID identity; pi_ActionID := pi_ActionID identity;
  pi_SceneID := pi_SceneID identity; pi_CaseID := caseID; pi_ActorID := actorID;
  pi_ContextRef := pi_ContextRef identity; pi_PlayerID := pi_PlayerID identity;
  pi_CompanionID := pi_CompanionID identity; pi_BondID := pi_BondID identity |}.

(* src/internal/persona/prompt.go#Builder.Interpret *)
Definition Builder_Interpret (view : option Projection) : MW W TaskRequest :=
  match view with
  | None => throw (Errorf "rendering a case interpretation prompt requires an assembled view" [])
  | Some view =>
      if negb (String.eqb (p_Purpose view) PurposeCasekeeper) then
        throw (Errorf "case interpretation prompt requires another projection" [])
      else
        begun ← begin_prompt view;
        let '(resumeAttempt, action, identity) := begun in
        caseID ← lift (caseIDOf view);
        let identity := with_case identity caseID (pa_Character (p_Actor view)) in
        _ ← lift (PersonaIdentity_Validate identity);
        mret {| rq_Identity := identity; rq_ResumeAttempt := resumeAttempt; rq_Band := EmptyString;
                rq_Prompt := interpretation_text view (pa_Text action) |}
  end.

(* src/internal/persona/prompt.go:214-220 (Builder.Companion) *)
Definition companion_text (view : Projection) (text : string) : string :=
  writeWorld view +:+ nl +:+ "# The player's action" +:+ nl +:+ nl +:+ quoteAction text +:+ nl +:+ nl +:+
  "Choose only a structural companion response and exit through " +:+ CompanionDecisionToolName +:+
  ". The narrator owns all dialogue and rationale." +:+ nl.

(* src/internal/persona/prompt.go:206-209 (Builder.Companion) *)
Definition with_companion (identity : PersonaIdentity) (view : Projection) : PersonaIdentity := {|
  pi_TurnID := pi_TurnID identity; pi_TurnEntityID := pi_TurnEntityID identity; pi_ActionID := pi_ActionID identity;
  pi_SceneID := pi_SceneID identity; pi_CaseID := pi_CaseID identity; pi_ActorID := pi_ActorID identity;
  pi_ContextRef := p_ContextRef view; pi_PlayerID := pa_Player (p_Actor view);
  pi_CompanionID := p_CompanionID view; pi_BondID := p_BondID view |}.

(* src/internal/persona/prompt.go#Builder.Companion *)
Definition Builder_Companion (view : option Projection) : MW W TaskRequest :=
  match view with
  | None => throw (Errorf "rendering a companion prompt requires an assembled view" [])
  | Some view =>
      if negb (String.eqb (p_Purpose view) PurposeCompanion) then
        throw (Errorf "companion prompt requires another projection" [])
      else
        begun ← begin_prompt view;
        let '(resumeAttempt, action, identity) := begun in
        let identity := with_companion identity view in
        _ ← lift (PersonaIdentity_Validate identity);
        mret {| rq_Identity := identity; rq_ResumeAttempt := resumeAttempt; rq_Band := EmptyString;
                rq_Prompt := companion_text view (pa_Text action) |}
  end.

(* src/internal/persona/prompt.go:282-286 (Builder.Narrate) *)
Definition solution_text (view : Projection) : string :=
  if String.eqb (p_Purpose view) PurposeDenouement then
    nl +:+ "# Authorized canonical solution" +:+ nl +:+ nl +:+
    line ("culprit: " +:+ Culprit (p_Solution view)) +:+ line ("method: " +:+ Method (p_Solution view)) +:+
    line ("motive: " +:+ Motive (p_Solution view))
  else EmptyString.

(* src/internal/persona/prompt.go:275-289 (Builder.Narrate) *)
Definition narration_text (view : Projection) (text : string) (o : outcome) (c : narrationArtifactContext) : string :=
  writeWorld view +:+ nl +:+ "# What the player declared" +:+ nl +:+ nl +:+ quoteAction text +:+ nl +:+ nl +:+
  outcome_write o +:+ context_write c +:+ solution_text view +:+
  nl +:+ "Voice this outcome and exit through " +:+ NarrationToolName +:+ "." +:+ nl.

(* src/internal/persona/prompt.go:237-246 (Builder.Narrate) *)
Definition checkNarrationPurpose (view : Projection) : res unit :=
  if negb (mem (p_Purpose view) [PurposeNarrator; PurposeDenouement]) then
    Err (Errorf "narration prompt requires another projection" [])
  else if String.eqb (p_Purpose view) PurposeNarrator && p_HasSolution view then
    Err (Errorf "ordinary narrator projection must not carry canonical solution" [])
  else if String.eqb (p_Purpose view) PurposeDenouement && negb (p_HasSolution view) then
    Err (Errorf "denouement projection must carry its authorized canonical solution" [])
  else Ok tt.

(* src/internal/persona/prompt.go#Builder.Narrate *)
Definition Builder_Narrate (view : option Projection) : MW W TaskRequest :=
  match view with
  | None => throw (Errorf "rendering a narration prompt requires an assembled view" [])
  | Some view =>
      _ ← lift (checkNarrationPurpose view);
      begun ← begin_prompt view;
      let '(resumeAttempt, action, identity) := begun in
      verdict ← Builder_verdict view;
      outcome ← lift (outcomeOf view verdict);
      narrationContext ← Builder_narrationContext view;
      mret {| rq_Identity := identity; rq_ResumeAttempt := resumeAttempt; rq_Band := oc_Band outcome;
              rq_Prompt := narration_text view (pa_Text action) outcome narrationContext |}
  end.

(** The builder is what the stages prompt their personas with. *)
#[local] Instance builder_prompter : Prompter W := {|
  Interpret view := Builder_Interpret (Some view); Adjudicate view := Builder_Adjudicate (Some view);
  Narrate view := Builder_Narrate (Some view); prompt_Companion view := Builder_Companion (Some view) |}.
End builder.
