(* ===== verification/Queues.v ===== *)
(** [resume/pending.go]: what work is still queued for which turn, read from the
    stage and agentic streams. *)

From S2P Require Import Prelude GoStd GoHash GoErrors Graph Vocab Vocabulary Payload Mechanics Decisions ContentRecords ProjectionContract Store Sequencing Turn Stage Resume Persona.

Open Scope Z_scope.

(* src/internal/resume/pending.go#DefaultSettleQuiet *)
Definition DefaultSettleQuiet : Z := 3 * Second.
(* src/internal/resume/pending.go#DefaultSettleTimeout *)
Definition DefaultSettleTimeout : Z := 60 * Second.
(* src/internal/resume/pending.go#const maxQueueScan *)
Definition maxQueueScan : Z := 4096.
(* src/internal/resume/pending.go#const pollInterval *)
Definition pollInterval : Z := 250 * 10 ^ 6.

(* src/internal/resume/pending.go#type WorkQueues *)
Record WorkQueues : Type := { wq_quiet : Z; wq_timeout : Z }.

(* src/internal/resume/pending.go:140-153 (NewWorkQueues) *)
Definition NewWorkQueues (quiet timeout : Z) : res WorkQueues :=
  if (quiet <=? 0) || (timeout <=? 0) then Err (Errorf "the stranded-turn pass requires a positive settle window" [])
  else if timeout <? quiet then Err (Errorf "the settle window is longer than the time allowed to reach it" [])
  else Ok {| wq_quiet := quiet; wq_timeout := timeout |}.

(* src/internal/rulepack/subjects.go#const KnowledgeConsumerName *)

(** [jetstream.ConsumerInfo], of a consumer of the agentic stream. *)
Record ConsumerInfo : Type := {
  ci_Durable : string; ci_FilterSubject : string; ci_FilterSubjects : list string; ci_AckFloor : Z }.

(** [jetstream.ErrConsumerNotFound]. *)
Definition ErrConsumerNotFound : string := "jetstream: consumer not found".

(** The two streams: their last sequences, the consumers bound to them, and the
    messages of a subject from a sequence on, at most so many. A message of the
    stage stream is what decoding the trigger's entity gives, one of the agentic
    stream its task's metadata. *)
Class WorkStreams (W : Type) : Type := {
  stream_Heads : MW W (Z * Z);
  stages_AckFloor : string -> MW W Z;
  agent_Consumers : MW W (list ConsumerInfo);
  stages_Fetch : string -> Z -> Z -> MW W (list (res string));
  agent_Fetch : string -> Z -> Z -> MW W (list (res Metadata));
  poll_wait : Z -> MW W unit
}.

(* src/internal/resume/pending.go#triggerEntityID *)
Definition triggerEntityID (published : res string) : res string :=
  entityID ← published;
  if String.eqb entityID EmptyString then Err (Errorf "stage trigger names no entity" []) else Ok entityID.

(* src/internal/resume/pending.go#taskEntityID *)
Definition taskEntityID (envelope : res Metadata) : res string :=
  metadata ← envelope;
  match metadata !! MetadataKeyTurnEntityID with
  | None => Err (Errorf "persona task carries no turn entity" [])
  | Some (AString entityID) =>
      if String.eqb entityID EmptyString then Err (Errorf "persona task carries another value" []) else Ok entityID
  | Some _ => Err (Errorf "persona task carries another value" [])
  end.

(** One message more for the turn. *)
Definition count_turn (pending : gmap string Z) (turn : res string) : gmap string Z :=
  match turn with
  | Ok entityID => <[entityID := default 0 (pending !! entityID) + 1]> pending
  | Err _ => pending
  end.

(** The loop over a batch, and the refusal of a batch that may be short. *)
(* src/internal/resume/pending.go:471-492 (readQueue) *)
Definition count_batch {A} (turnOf : A -> res string) (messages : list A) (pending : gmap string Z)
    : res (gmap string Z) :=
  if maxQueueScan <=? Z.of_nat (List.length messages) then
    Err (Errorf "the queued messages filled a whole read, so the set may be short" [])
  else Ok (fold_left count_turn (map turnOf messages) pending).

(* src/internal/resume/pending.go#consumerCarries *)
Definition consumerCarries (info : ConsumerInfo) (want : string) : bool :=
  String.eqb (ci_FilterSubject info) want || mem want (ci_FilterSubjects info).

(** The lowest floor of the durable consumers that carry the tasks. *)
(* src/internal/resume/pending.go:380-395 (WorkQueues.taskAckFloor) *)
Definition lowest_floor (infos : list ConsumerInfo) (want : string) : option Z :=
  fold_left (fun found info =>
    if String.eqb (ci_Durable info) EmptyString || negb (consumerCarries info want) then found
    else match found with
         | Some floor => Some (if ci_AckFloor info <? floor then ci_AckFloor info else floor)
         | None => Some (ci_AckFloor info)
         end) infos None.

Section queues.
Context {W : Type} `{Clock W, WorkStreams W}.

(** The first message a read may start at: the one after the floor, or the
    first of the stream when nothing was acknowledged. *)
(* src/internal/resume/pending.go:450-461 (readQueue) *)
Definition start_sequence (floor : Z) : Z := if floor =? 0 then 0 else u64 (floor + 1).

(* src/internal/resume/pending.go#readQueue *)
Definition readQueue {A} (fetch : string -> Z -> Z -> MW W (list A)) (subject : string) (floor : Z)
    (turnOf : A -> res string) (pending : gmap string Z) : MW W (gmap string Z) :=
  messages ← fetch subject (start_sequence floor) maxQueueScan;
  lift (count_batch turnOf messages pending).

(* src/internal/resume/pending.go#WorkQueues.consumerAckFloor *)
Definition consumerAckFloor (name : string) : MW W Z :=
  read ← attempt (stages_AckFloor name);
  match read with
  | Ok floor => mret floor
  | Err err => if errors_Is ErrConsumerNotFound err then mret 0 else throw (Errorf "read the consumer" [err])
  end.

(* src/internal/resume/pending.go#WorkQueues.stageAckFloor *)
Definition stageAckFloor (phase : string) : MW W Z := consumerAckFloor (StageConsumerName phase).

(* src/internal/resume/pending.go#WorkQueues.taskAckFloor *)
Definition taskAckFloor : MW W Z :=
  read ← attempt agent_Consumers;
  infos ← lift (wrapf "list the stream's consumers" read);
  match lowest_floor infos TaskSubjectFilter with
  | Some floor => mret floor
  | None => throw (Errorf "no durable consumer on the stream filters the task subject" [])
  end.

(** One subject of the stage stream, from its consumer's floor. *)
(* src/internal/resume/pending.go:261-282 (WorkQueues.Pending) *)
Definition read_subject (consumer subject : string) (pending : gmap string Z) : MW W (gmap string Z) :=
  floor ← consumerAckFloor consumer;
  read ← attempt (readQueue stages_Fetch subject floor triggerEntityID pending);
  lift (wrapf "read the queued triggers" read).

(** The stages in their order, each from its own consumer's floor. *)
(* src/internal/resume/pending.go:248-260 (WorkQueues.Pending) *)
Fixpoint read_stages (phases : list string) (pending : gmap string Z) : MW W (gmap string Z) :=
  match phases with
  | [] => mret pending
  | phase :: rest =>
      subject ← lift (SubjectForPhase phase);
      pending ← read_subject (StageConsumerName phase) subject pending;
      read_stages rest pending
  end.

(* src/internal/resume/pending.go#WorkQueues.Pending *)
Definition Queues_Pending : MW W (gmap string Z) :=
  pending ← read_stages StagePhases ∅;
  pending ← read_subject KnowledgeConsumerName SubjectKnowledge pending;
  pending ← read_subject AccusationConsumerName SubjectAccusation pending;
  pending ← read_subject CaseProgressConsumerName SubjectCaseProgress pending;
  floor ← taskAckFloor;
  read ← attempt (readQueue agent_Fetch TaskSubjectFilter floor taskEntityID pending);
  lift (wrapf "read the queued persona tasks" read).

(* src/internal/resume/pending.go#WorkQueues.heads *)
Definition heads : MW W (Z * Z) :=
  read ← attempt stream_Heads;
  lift (wrapf "read a work queue's head" read).

(** The loop, with the heads last seen and since when they have not moved. *)
(* src/internal/resume/pending.go:173-198 (WorkQueues.Settle) *)
Fixpoint settle_loop (fuel : nat) (q : WorkQueues) (deadline : time) (previous : Z * Z) (quietSince : time)
    : MW W (option unit) :=
  match fuel with
  | O => mret None
  | S fuel =>
      t ← read_clock;
      if wq_quiet q <=? t - quietSince then mret (Some tt)
      else
        t' ← read_clock;
        if deadline <? t' then throw (Errorf "the queues were still being published to" [])
        else
          _ ← poll_wait pollInterval;
          current ← heads;
          if bool_decide (current = previous) then settle_loop fuel q deadline previous quietSince
          else
            t'' ← read_clock;
            settle_loop fuel q deadline current t''
  end.

(* src/internal/resume/pending.go#WorkQueues.Settle *)
Definition Queues_Settle (fuel : nat) (q : WorkQueues) : MW W (option unit) :=
  t ← read_clock;
  let deadline := t + wq_timeout q in
  previous ← heads;
  quietSince ← read_clock;
  settle_loop fuel q deadline previous quietSince.
End queues.
