(* ===== verification/BootSequence.v ===== *)
(** [internal/boot/sequence.go] and [checks.go]: a boot as an ordered list of
    steps whose prerequisites are declared beside the order, and the
    preconditions a step reads from the running system - streams and the subjects
    they capture, the readiness of the rule processor, the import marker, the
    personas' models and the bridges of the agentic loop. *)

From S2P Require Import Prelude GoStd GoErrors Graph Vocab Vocabulary Payload Store Campaign Sequencing Persona Spawn.

Open Scope Z_scope.

(** [if err := m(); err != nil { return fmt.Errorf("msg: %w", err) }]. *)
Definition wrapping {W A} (msg : string) (m : MW W A) : MW W A := fun w =>
  let '(r, w') := m w in (wrapf msg r, w').

(** A program on the world, where a state of the boot's own is kept beside it. *)
Definition on_world {S W A} (m : MW W A) : MW (S * W) A := fun '(s, w) => let '(r, w') := m w in (r, (s, w')).

Section sequence.
Context {W : Type} `{Ctx W}.

(** A nil function is [None]. *)
(* src/internal/boot/sequence.go#type Step *)
Record Step : Type := {
  st_ID : string; st_Needs : list string; st_Check : option (MW W unit); st_Run : option (MW W unit) }.

(** The map [done] has only [true] values: it is the set of its keys. *)
(* src/internal/boot/sequence.go#type Sequence *)
Record Sequence : Type := { sq_steps : list Step; sq_done : gset string; sq_completed : list string }.

(** The first loop of the constructor: every step names itself and has work. *)
(* src/internal/boot/sequence.go:92-106 (NewSequence) *)
Fixpoint declare_steps (steps : list Step) (declared : gset string) : res (gset string) :=
  match steps with
  | [] => Ok declared
  | step :: rest =>
      if String.eqb (st_ID step) EmptyString then Err (Errorf "a boot step has no id" [])
      else if decide (st_ID step ∈ declared) then Err (Errorf "boot step is declared twice" [])
      else
        match st_Run step with
        | None => Err (Errorf "boot step has nothing to run" [])
        | Some _ => declare_steps rest ({[st_ID step]} ∪ declared)
        end
  end.

(** The second: every prerequisite is another declared step. *)
(* src/internal/boot/sequence.go:107-119 (NewSequence) *)
Definition check_needs (declared : gset string) (step : Step) : res unit :=
  all_ok (fun need =>
    if String.eqb need (st_ID step) then Err (Errorf "boot step requires itself" [])
    else if decide (need ∈ declared) then Ok tt
    else Err (Errorf "boot step requires one which this sequence does not declare" [])) (st_Needs step).

(* src/internal/boot/sequence.go#NewSequence *)
Definition NewSequence (steps : list Step) : res Sequence :=
  if Nat.eqb (List.length steps) 0 then Err (Errorf "a boot sequence with no steps starts nothing" [])
  else
    declared ← declare_steps steps ∅;
    _ ← all_ok (check_needs declared) steps;
    Ok {| sq_steps := steps; sq_done := ∅; sq_completed := [] |}.

(* src/internal/boot/sequence.go#Sequence.Steps *)
Definition Sequence_Steps (s : Sequence) : list Step := sq_steps s.
(* src/internal/boot/sequence.go#Sequence.Completed *)
Definition Completed (s : Sequence) : list string := sq_completed s.

(* src/internal/boot/sequence.go#Sequence.declares *)
Definition declares (s : Sequence) (id : string) : bool := existsb (fun step => String.eqb (st_ID step) id) (sq_steps s).

(* src/internal/boot/sequence.go#Sequence.missing *)
Definition missing (s : Sequence) (step : Step) : list string :=
  List.filter (fun need => negb (bool_decide (need ∈ sq_done s))) (st_Needs step).

(** ** Running

    The state of a run is the sequence beside the world its steps work on. *)

Definition get_sequence : MW (Sequence * W) Sequence := fun sw => (Ok sw.1, sw).

(* src/internal/boot/sequence.go:174-175 (RunThrough) *)
Definition complete_step (id : string) : MW (Sequence * W) unit := fun '(s, w) =>
  (Ok tt, ({| sq_steps := sq_steps s; sq_done := {[id]} ∪ sq_done s; sq_completed := sq_completed s ++ [id] |}, w)).

(** What a step that comes before its prerequisites is refused with. *)
(* src/internal/boot/sequence.go:159-164 (RunThrough) *)
Definition misordered (id : string) (needs completed : list string) : error :=
  Errorf "boot step runs before others which it requires" (map Sentinel (id :: needs ++ completed)).

(** A nil [Check] is passed over; [NewSequence] leaves no nil [Run]. *)
(* src/internal/boot/sequence.go:165-173 (RunThrough) *)
Definition perform (step : Step) : MW W unit :=
  _ ← match st_Check step with
      | None => mret tt
      | Some check => wrapping "boot step: precondition not met" check
      end;
  match st_Run step with
  | None => throw (Errorf "nil function" [])
  | Some run => wrapping "boot step" run
  end.

(* src/internal/boot/sequence.go:152-181 (RunThrough) *)
Fixpoint run_steps (last : string) (steps : list Step) : MW (Sequence * W) unit :=
  match steps with
  | [] => mret tt
  | step :: rest =>
      s ← get_sequence;
      if decide (st_ID step ∈ sq_done s) then run_steps last rest
      else
        _ ← on_world (wrapping "boot cancelled" ctx_Err);
        match missing s step with
        | [] =>
            _ ← on_world (perform step);
            _ ← complete_step (st_ID step);
            if String.eqb (st_ID step) last then mret tt else run_steps last rest
        | needs => throw (misordered (st_ID step) needs (sq_completed s))
        end
  end.

(* src/internal/boot/sequence.go#Sequence.RunThrough *)
Definition RunThrough (last : string) : MW (Sequence * W) unit :=
  s ← get_sequence;
  if negb (String.eqb last EmptyString) && negb (declares s last) then
    throw (Errorf "this sequence declares no step to run through" [])
  else run_steps last (sq_steps s).

(* src/internal/boot/sequence.go#Sequence.Run *)
Definition Sequence_Run : MW (Sequence * W) unit := RunThrough EmptyString.
End sequence.
Arguments Step : clear implicits.
Arguments Sequence : clear implicits.

(** ** Subjects *)

(** The loop over the pattern's tokens beside those wanted. *)
(* src/internal/boot/checks.go#patternCovers *)
Fixpoint patternCovers (pattern want : list string) : bool :=
  match pattern with
  | [] => match want with [] => true | _ => false end
  | token :: pattern' =>
      if String.eqb token ">" then true
      else
        match want with
        | [] => false
        | wanted :: want' =>
            if negb (String.eqb token "*") && negb (String.eqb token wanted) then false
            else patternCovers pattern' want'
        end
  end.

(* src/internal/boot/checks.go#subjectCaptured *)
Definition subjectCaptured (want : string) (subjects : list string) : bool :=
  existsb (fun subject => patternCovers (Split dot subject) (Split dot want)) subjects.

(* src/internal/boot/checks.go:293-293 (stageStreamSubjects) *)
Definition stageStreamSubjects : list string := [StageSubjectFilter].

(* src/internal/persona/transport.go#ModelRequestSubjectFilter *)
Definition ModelRequestSubjectFilter : string := "agent.request.>".
(* src/internal/persona/transport.go#ModelResponseSubjectFilter *)
Definition ModelResponseSubjectFilter : string := "agent.response.>".

(* src/internal/boot/checks.go:298-304 (agentStreamSubjects) *)
Definition agentStreamSubjects : list string :=
  AgentStreamSubjects ++ [LoopFailedSubject; TaskSubjectFilter; ModelRequestSubjectFilter; ModelResponseSubjectFilter].

(** The bridges' filters; what each is for is text. *)
(* src/internal/boot/checks.go:315-329 (agenticBridges) *)
Definition agenticBridges : list string := [ModelRequestSubjectFilter; ToolExecuteSubjectFilter].

(** ** Streams

    What the broker tells of a stream: its configuration, and the filters of
    the consumers bound on it, with the error that ended their listing. *)

Definition ErrStreamNotFound : string := "nats: stream not found".

Record StreamInfo : Type := { si_Config : StreamConfig; si_Duplicates : Z }.

(** A consumer's single filter, which may be empty, and its list of them. *)
Record ConsumerFilters : Type := { cf_FilterSubject : string; cf_FilterSubjects : list string }.

(* src/internal/boot/engine.go#type streamReader *)
Class BootStreams (W : Type) : Type := {
  GetStream : string -> MW W unit;
  stream_Info : string -> MW W StreamInfo;
  stream_Consumers : string -> MW W (list (option ConsumerFilters) * option error)
}.

Section checks.
Context {W : Type} `{BootStreams W}.

(* src/internal/boot/checks.go#checkStreamCaptures *)
Definition checkStreamCaptures (name : string) (subjects : list string) : MW W unit :=
  found ← attempt (GetStream name);
  match found with
  | Err err =>
      if errors_Is ErrStreamNotFound err then throw (Errorf "the stream does not exist" [err])
      else throw (Errorf "read the stream" [err])
  | Ok _ =>
      info ← wrapping "read the stream's configuration" (stream_Info name);
      lift (all_ok (fun subject =>
        if negb (subjectCaptured subject (sc_Subjects (si_Config info))) then
          Err (Errorf "the stream exists but its subjects do not capture another" [])
        else Ok tt) subjects)
  end.

(** The map [bound]: the filters some consumer is bound on. *)
(* src/internal/boot/checks.go:350-361 (checkAgenticBridges) *)
Definition bound_filters (consumers : list (option ConsumerFilters)) : list string :=
  List.filter (fun subject => negb (String.eqb subject EmptyString))
    (flat_map (fun info =>
       match info with None => [] | Some info => cf_FilterSubject info :: cf_FilterSubjects info end) consumers).

(* src/internal/boot/checks.go#Engine.checkAgenticBridges *)
Definition checkAgenticBridges : MW W unit :=
  _ ← wrapping "read the stream" (GetStream TaskStream);
  listed ← stream_Consumers TaskStream;
  match snd listed with
  | Some err => throw (Errorf "list the consumers" [err])
  | None =>
      lift (all_ok (fun filter =>
        if negb (mem filter (bound_filters (fst listed))) then Err (Errorf "nothing consumes a lane" []) else Ok tt)
        agenticBridges)
  end.
End checks.

(** ** The payload registry

    [decode_probe] is what a decoder over the registry makes of this engine's
    own player action: whether the payload is one. *)
(* src/internal/boot/checks.go#checkPayloadRegistry *)
Definition checkPayloadRegistry (registry : bool) (encode_probe : res string) (decode_probe : string -> res bool)
    : res unit :=
  if negb registry then Err (Errorf "no payload registry" [])
  else
    wire ← wrapf "encode the registry probe" encode_probe;
    decoded ← wrapf "the payload registry cannot decode this engine's own player action" (decode_probe wire);
    if decoded : bool then Ok tt
    else Err (Errorf "the payload registry decoded this engine's player action as something else" []).

(** ** The rule processor's readiness

    The status entry in the broker's key-value bucket, its revision and the
    instant it was written at; decoding it may fail. *)

Record IndexStatus : Type := { ix_State : string; ix_Ready : bool; ix_BootstrapComplete : bool }.
Record StatusEntry : Type := { se_Revision : Z; se_Created : time; se_Value : res IndexStatus }.

Definition ErrBucketNotFound : string := "nats: bucket not found".
Definition ErrKeyNotFound : string := "nats: key not found".

Class RuleStatus (W : Type) : Type := {
  status_Bucket : MW W unit;
  status_Get : MW W StatusEntry;
  FreshnessWindow : Z;
  IndexStateReady : string
}.

(** [readiness.Reading]. *)
Record Reading : Type := {
  rg_Known : bool; rg_Err : option error; rg_Fresh : bool; rg_Age : Z; rg_Status : IndexStatus }.
(* src/internal/boot/checks.go#type ruleReadinessGeneration *)
Record ruleReadinessGeneration : Type := { rr_revision : Z; rr_reading : Reading }.

Definition no_status : IndexStatus := {| ix_State := EmptyString; ix_Ready := false; ix_BootstrapComplete := false |}.
Definition no_reading : Reading :=
  {| rg_Known := false; rg_Err := None; rg_Fresh := false; rg_Age := 0; rg_Status := no_status |}.
Definition no_generation : ruleReadinessGeneration := {| rr_revision := 0; rr_reading := no_reading |}.
Definition unread (err : error) : ruleReadinessGeneration :=
  {| rr_revision := 0;
     rr_reading := {| rg_Known := false; rg_Err := Some err; rg_Fresh := false; rg_Age := 0; rg_Status := no_status |} |}.

(* src/internal/boot/world.go#type readinessWindow *)
Record readinessWindow : Type := { win_timeout : Z; win_poll : Z }.

Section readiness.
Context {W : Type} `{RuleStatus W, Clock W, Waits W}.

(** The generation that was there before the processor is started. *)
(* src/internal/boot/checks.go#Engine.captureRuleStatusBaseline *)
Definition captureRuleStatusBaseline : MW W Z :=
  bucket ← attempt status_Bucket;
  match bucket with
  | Err err => if errors_Is ErrBucketNotFound err then mret 0 else throw (Errorf "capture the status generation" [err])
  | Ok _ =>
      entry ← attempt status_Get;
      match entry with
      | Err err => if errors_Is ErrKeyNotFound err then mret 0 else throw (Errorf "capture the status generation" [err])
      | Ok entry => mret (se_Revision entry)
      end
  end.

(* src/internal/boot/checks.go#Engine.readRuleReadinessGeneration *)
Definition readRuleReadinessGeneration : MW W ruleReadinessGeneration :=
  bucket ← attempt status_Bucket;
  match bucket with
  | Err err => mret (if errors_Is ErrBucketNotFound err then no_generation else unread err)
  | Ok _ =>
      entry ← attempt status_Get;
      match entry with
      | Err err => mret (if errors_Is ErrKeyNotFound err then no_generation else unread err)
      | Ok entry =>
          match se_Value entry with
          | Err err =>
              mret {| rr_revision := se_Revision entry;
                      rr_reading := {| rg_Known := true; rg_Err := Some (Errorf "decode the status" [err]);
                                       rg_Fresh := false; rg_Age := 0; rg_Status := no_status |} |}
          | Ok status =>
              t ← read_clock;
              let age := t - se_Created entry in
              mret {| rr_revision := se_Revision entry;
                      rr_reading := {| rg_Known := true; rg_Err := None; rg_Fresh := age <=? FreshnessWindow;
                                       rg_Age := age; rg_Status := status |} |}
          end
      end
  end.

(** The [switch]: [None] is its default, the reading that ends the wait. *)
(* src/internal/boot/checks.go:195-213 (awaitRuleReadiness) *)
Definition not_ready (baseline : Z) (generation : ruleReadinessGeneration) : option string :=
  let reading := rr_reading generation in
  if rr_revision generation <=? baseline then Some "the status generation has not advanced"%string
  else if negb (rg_Known reading) then Some "status unknown"%string
  else
    match rg_Err reading with
    | Some _ => Some "the status could not be read"%string
    | None =>
        if negb (rg_Fresh reading) then Some "status stale"%string
        else if negb (String.eqb (ix_State (rg_Status reading)) IndexStateReady) then Some "another state"%string
        else if negb (ix_Ready (rg_Status reading)) then Some "ready is false"%string
        else if negb (ix_BootstrapComplete (rg_Status reading)) then Some "bootstrap is incomplete"%string
        else None
    end.

(** A poll until [probe] finds nothing left to wait for or the deadline has
    passed; every boot readback polls so. [None] is a poll that still runs when
    the fuel ends. *)
Fixpoint poll_until {A} (probe : MW W (option A)) (late : A -> error) (fuel : nat) (deadline poll : Z)
    : MW W (option unit) :=
  match fuel with
  | O => mret None
  | S fuel =>
      left ← probe;
      match left with
      | None => mret (Some tt)
      | Some pending =>
          t ← read_clock;
          if deadline <? t then throw (late pending)
          else
            _ ← pause poll;
            poll_until probe late fuel deadline poll
      end
  end.

(* src/internal/boot/checks.go#awaitRuleReadiness *)
Definition awaitRuleReadiness (fuel : nat) (baseline : Z) (read : MW W ruleReadinessGeneration) (w : readinessWindow)
    : MW W (option unit) :=
  start ← read_clock;
  poll_until (generation ← read; mret (not_ready baseline generation))
    (fun last => Errorf "rule readiness did not become fresh, ready, and bootstrap-complete" [Errorf last []])
    fuel (start + win_timeout w) (win_poll w).

(** The polls a window leaves room for, and one that finds it over. *)
Definition polls (w : readinessWindow) : nat := Z.to_nat (win_timeout w / win_poll w + 2).
End readiness.

(** ** The import marker *)

(* src/internal/boot/checks.go#Engine.checkImportMarked *)
Definition checkImportMarked {W} `{TimeText, GraphStore W} (campaignID : string) : MW W unit :=
  completion ← wrapping "re-read the import-completion marker" (ImportCompletion campaignID);
  if negb (snd completion) then throw (Errorf "campaign carries no import marker" []) else mret tt.

(* src/internal/boot/checks.go#Engine.checkPersonaModels *)
Definition checkPersonaModels {W} `{Substrate, AgenticRules} (models : option RegistryReader) : MW W unit :=
  lift (CheckRegistryAll models).
