(* ===== verification/BootRules.v ===== *)
(** [internal/boot/experience.go], [internal/boot/rules.go] and
    [internal/rulepack/config.go]: the experience an instance selected, its
    rules narrowed to the instance, and the one rule configuration they are
    composed into after the engine's own. *)

From S2P Require Import Prelude GoStd GoErrors Graph Vocab Vocabulary Sequencing RulePack WorldTemplate WorldRules WorldPackage WorldImport.

Open Scope Z_scope.

(** ** The rule processor's configuration

    An inline rule is one of the engine's own or one of the selected world's. *)

Inductive InlineRule : Type :=
| Fixed (definition : Definition_)
| Selected (definition : WorldRule).

Definition inline_ID (r : InlineRule) : string :=
  match r with Fixed d => rd_ID d | Selected d => wr_ID d end.

(** [projection.PredicateGroup] and [projection.Contract]. *)
Record PredicateGroup : Type := { gr_Name : string; gr_Mode : string; gr_Predicates : list string }.
Record MechanicsContract : Type := { mc_Name : string; mc_EntityPattern : string; mc_Groups : list PredicateGroup }.

(** [rule.Config], the fields the engine sets; the watched patterns are those
    of the one bucket it watches. *)
Record RuleConfig : Type := {
  rc_InlineRules : list InlineRule; rc_Patterns : list string; rc_Outputs : list StagePort;
  rc_EnableGraphIntegration : bool; rc_Contracts : list MechanicsContract }.

(** The rule engine's own: its defaults, its validation, its codec, and
    upstream's check of an entity pattern and of a projection contract. *)
Class RuleRuntime : Type := {
  rule_NewConfig : string -> res RuleConfig;
  rule_Config_Validate : RuleConfig -> res unit;
  rule_Marshal : RuleConfig -> res string;
  rule_Unmarshal : string -> res RuleConfig;
  rule_ValidateDefinition : WorldRule -> res unit;
  ValidateEntityIDPattern : string -> res unit;
  contract_Validate : MechanicsContract -> res unit;
  ModeReconcile : string
}.

(* src/internal/rulepack/pack.go#const PackID *)
Definition PackID : string := "semmachina-turn-sequencing".

(** [decoded] is the embedded pack, decoded. *)
(* src/internal/rulepack/config.go#ProcessorConfig *)
Definition ProcessorConfig `{RuleValidator, RuleRuntime} (decoded : res (list Definition_)) : res string :=
  definitions ← Definitions decoded;
  caseDefinitions ← CaseLifecycleDefinitions;
  outputs ← processor_outputs;
  config ← wrapf "build turn-sequencing rule defaults" (rule_NewConfig PackID);
  let config := {|
    rc_InlineRules := map Fixed (definitions ++ caseDefinitions);
    rc_Patterns := [EntityPattern; CaseEntityPattern];
    rc_Outputs := rc_Outputs config ++ outputs;
    rc_EnableGraphIntegration := rc_EnableGraphIntegration config;
    rc_Contracts := rc_Contracts config |} in
  _ ← wrapf "turn-sequencing rule config" (rule_Config_Validate config);
  wrapf "encode the turn-sequencing rule config" (rule_Marshal config).

(** ** Narrowing to the instance *)

(** The first four positions of every entity of the instance. *)
(* src/internal/boot/experience.go:110-110 (narrowWorldPattern) *)
Definition instance_positions (plan : Plan) : list string :=
  [ps_Org (pl_Wire plan); "semmachina"%string; ps_WorldNS (pl_Wire plan); ps_TemplateID (pl_Wire plan)].

(** The loop over the positions. A pattern the check accepted has six parts, so
    the index is in range. *)
(* src/internal/boot/experience.go:111-120 (narrowWorldPattern) *)
Fixpoint narrow_parts (instance parts : list string) : res (list string) :=
  match instance, parts with
  | [], rest => Ok rest
  | exact :: instance, part :: rest =>
      if String.eqb part "*" || String.eqb part exact then
        narrowed ← narrow_parts instance rest;
        Ok (exact :: narrowed)
      else Err (Errorf "position literal is incompatible with instance" [])
  | _ :: _, [] => Err (Errorf "index out of range" [])
  end.

(* src/internal/boot/experience.go#narrowWorldPattern *)
Definition narrowWorldPattern `{RuleRuntime} (plan : Plan) (pattern : string) : res string :=
  _ ← ValidateEntityIDPattern pattern;
  parts ← narrow_parts (instance_positions plan) (Split dot pattern);
  Ok (Join dot parts).

(** [for index, x := range l { out[index], err = f(x) }]. *)
Fixpoint map_ok {A B} (f : A -> res B) (l : list A) : res (list B) :=
  match l with
  | [] => Ok []
  | x :: rest => y ← f x; ys ← map_ok f rest; Ok (y :: ys)
  end.

(* src/internal/boot/experience.go#narrowWorldDefinition *)
Definition narrowWorldDefinition `{RuleRuntime} (plan : Plan) (definition : WorldRule) : res WorldRule :=
  if negb (String.eqb (wr_Type definition) "expression") then
    Err (Errorf "world rule has a type which has no instance-scoped entity pattern" [])
  else if String.eqb (wr_Pattern definition) EmptyString then
    Err (Errorf "world rule has no instance-scopeable entity pattern" [])
  else
    primary ← wrapf "world rule entity.pattern" (narrowWorldPattern plan (wr_Pattern definition));
    related ← map_ok (fun pattern => wrapf "world rule related_patterns" (narrowWorldPattern plan pattern))
                (wr_RelatedPatterns definition);
    Ok {| wr_ID := wr_ID definition; wr_Type := wr_Type definition; wr_Pattern := primary;
          wr_WatchBuckets := wr_WatchBuckets definition; wr_Conditions := wr_Conditions definition;
          wr_RelatedPatterns := related; wr_OnEnter := wr_OnEnter definition; wr_OnExit := wr_OnExit definition;
          wr_WhileTrue := wr_WhileTrue definition; wr_OnRecovery := wr_OnRecovery definition;
          wr_Actions := wr_Actions definition |}.

(* src/internal/boot/experience.go#type selectedMechanicsDefinition *)
Record selectedMechanicsDefinition : Type := { sm_file : string; sm_definition : WorldRule }.

Section experience.
Context `{Substrate, WorldRuleEngine, PersonaRecords, RuleRuntime}.

(* src/internal/boot/experience.go:27-37 (bindSelectedExperience) *)
Definition bind_persona (fsys : PackageFS) (name : string) : res PersonaRecord :=
  data ← wrapf "bind selected persona file" (fs_ReadFile fsys name);
  wrapf "bind selected persona file" (DecodePersonaRecord (as_persona fsys data)).

(* src/internal/boot/experience.go:45-59 (bindSelectedExperience) *)
Definition bind_mechanics (plan : Plan) (fsys : PackageFS) (name : string) : res (list selectedMechanicsDefinition) :=
  data ← wrapf "bind selected mechanics file" (fs_ReadFile fsys name);
  definitions ← wrapf "bind selected mechanics file" (DecodeRuleDefinitions (as_rules fsys data));
  map_ok (fun definition =>
    narrowed ← wrapf "bind selected mechanics file" (narrowWorldDefinition plan definition);
    Ok {| sm_file := name; sm_definition := narrowed |}) definitions.

(* src/internal/boot/experience.go#bindSelectedExperience *)
Definition bindSelectedExperience (fsys : PackageFS) (plan : Plan)
    : res (list PersonaRecord * list selectedMechanicsDefinition) :=
  let experience := ps_Experience (pl_Wire plan) in
  personas ← map_ok (bind_persona fsys) (rx_PersonaFiles experience);
  _ ← wrapf "bind selected personas" (ValidatePersonaRoleCoverage personas);
  mechanics ← map_ok (bind_mechanics plan fsys) (rx_MechanicsFiles experience);
  Ok (personas, concat mechanics).

(* src/internal/boot/experience.go#validateCachedPersonas *)
Definition validateCachedPersonas (plan : Plan) (records : list PersonaRecord) : res unit :=
  if negb (Nat.eqb (List.length records) (List.length (rx_PersonaFiles (ps_Experience (pl_Wire plan))))) then
    Err (Errorf "cached persona count does not match sealed selected file count" [])
  else all_ok (fun record => wrapf "validate cached persona record" (ValidatePersonaRecord (Some record))) records.
End experience.

(** ** Composing the rules *)

(* src/internal/boot/rules.go#selectedMechanicsContractName *)
Definition selectedMechanicsContractName (pack : string) : string := "mechanics-" +:+ pack.

(** [strings.ReplaceAll] of one byte by another. *)
Fixpoint replace_char (old new : ascii) (s : string) : string :=
  match s with
  | EmptyString => EmptyString
  | String c rest => String (if Ascii.eqb c old then new else c) (replace_char old new rest)
  end.

(* src/internal/boot/rules.go#selectedMechanicsGroupName *)
Definition selectedMechanicsGroupName (predicate : string) : string :=
  "predicate_" +:+ replace_char dot "_"%char predicate.

Definition set_projection (action : WorldAction) (contract group : string) : WorldAction := {|
  wa_Type := ActionTypeReconcilePredicates; wa_Subject := wa_Subject action; wa_Predicate := wa_Predicate action;
  wa_Object := wa_Object action; wa_When := wa_When action; wa_MaxIterations := wa_MaxIterations action;
  wa_ProjectionContract := contract; wa_ProjectionGroup := group |}.

(** The body of the loop over one list of actions. *)
(* src/internal/boot/rules.go:128-158 (bindSelectedMechanicsActions) *)
Definition bind_action (contract : string) (action : WorldAction) : res WorldAction :=
  match wa_Type action with
  | ActionTypeAddTriple => Err (Errorf "selected mechanics rule uses add_triple" [])
  | ActionTypeRemoveTriple | ActionTypeUpdateTriple | ActionTypeReconcilePredicates =>
      let group := selectedMechanicsGroupName (wa_Predicate action) in
      let noContract := String.eqb (wa_ProjectionContract action) EmptyString in
      let noGroup := String.eqb (wa_ProjectionGroup action) EmptyString in
      if negb (Bool.eqb noContract noGroup) then
        Err (Errorf "must omit both projection selectors for derivation or declare both" [])
      else if negb noContract && (negb (String.eqb (wa_ProjectionContract action) contract) ||
                                  negb (String.eqb (wa_ProjectionGroup action) group)) then
        Err (Errorf "declares another projection than the selected pack requires" [])
      else Ok (set_projection action contract group)
  | _ => Ok action
  end.

(** The rule with its actions bound. The source writes them in place, and
    binding them again changes nothing ([BootRulesSpec.bind_action_idem]). *)
(* src/internal/boot/rules.go#bindSelectedMechanicsActions *)
Definition bindSelectedMechanicsActions (contract : string) (definition : WorldRule) : res WorldRule :=
  onEnter ← map_ok (bind_action contract) (wr_OnEnter definition);
  onExit ← map_ok (bind_action contract) (wr_OnExit definition);
  whileTrue ← map_ok (bind_action contract) (wr_WhileTrue definition);
  onRecovery ← map_ok (bind_action contract) (wr_OnRecovery definition);
  actions ← map_ok (bind_action contract) (wr_Actions definition);
  Ok {| wr_ID := wr_ID definition; wr_Type := wr_Type definition; wr_Pattern := wr_Pattern definition;
        wr_WatchBuckets := wr_WatchBuckets definition; wr_Conditions := wr_Conditions definition;
        wr_RelatedPatterns := wr_RelatedPatterns definition; wr_OnEnter := onEnter; wr_OnExit := onExit;
        wr_WhileTrue := whileTrue; wr_OnRecovery := onRecovery; wr_Actions := actions |}.

(* src/internal/boot/rules.go:170-172 (selectedMechanicsProjection) *)
Definition rule_actions (definition : WorldRule) : list WorldAction :=
  wr_OnEnter definition ++ wr_OnExit definition ++ wr_WhileTrue definition ++ wr_OnRecovery definition ++
  wr_Actions definition.

(** The map the loops build: the group of every predicate some rule writes. *)
(* src/internal/boot/rules.go:173-178 (selectedMechanicsProjection) *)
Definition write_predicate (predicates : gmap string string) (action : WorldAction) : gmap string string :=
  if bool_decide (wa_Type action = ActionTypeReconcilePredicates) then
    <[wa_Predicate action := wa_ProjectionGroup action]> predicates
  else predicates.

(* src/internal/boot/rules.go:168-180 (selectedMechanicsProjection) *)
Definition written_predicates (definitions : list WorldRule) : gmap string string :=
  fold_left write_predicate (flat_map rule_actions definitions) ∅.

Section compose.
Context `{RuleRuntime}.

(* src/internal/boot/rules.go#selectedMechanicsProjection *)
Definition selectedMechanicsProjection (plan : Plan) (definitions : list WorldRule) : res (option MechanicsContract) :=
  let predicates := written_predicates definitions in
  if decide (predicates = ∅) then Ok None
  else
    let contract := {|
      mc_Name := selectedMechanicsContractName (rx_MechanicsPack (ps_Experience (pl_Wire plan)));
      mc_EntityPattern := Join dot (instance_positions plan ++ ["*"; "*"]%string);
      mc_Groups := map (fun predicate => {| gr_Name := default EmptyString (predicates !! predicate);
                                            gr_Mode := ModeReconcile; gr_Predicates := [predicate] |})
                     (Sort (map fst (map_to_list predicates))) |} in
    _ ← wrapf "validate selected mechanics projection" (contract_Validate contract);
    Ok (Some contract).

(* src/internal/boot/rules.go#definitionMutatesGraph *)
Definition definitionMutatesGraph (definition : WorldRule) : bool :=
  existsb (fun action =>
    match wa_Type action with
    | ActionTypeAddTriple | ActionTypeRemoveTriple | ActionTypeUpdateTriple | ActionTypeReconcilePredicates => true
    | _ => false
    end) (rule_actions definition).

(** The loop over the fixed rules: the identifiers seen. *)
(* src/internal/boot/rules.go:33-39 (ruleProcessorConfig) *)
Fixpoint seen_ids (seen : gset string) (rules : list InlineRule) : res (gset string) :=
  match rules with
  | [] => Ok seen
  | r :: rest =>
      if decide (inline_ID r ∈ seen) then Err (Errorf "fixed engine rule duplicates another" [])
      else seen_ids ({[inline_ID r]} ∪ seen) rest
  end.

(** What the loop over the selected rules has composed so far. *)
Record composed : Type := {
  co_seen : gset string; co_patterns : list string; co_graph : bool; co_rules : list InlineRule;
  co_selected : list WorldRule }.

(* src/internal/boot/rules.go:47-81 (ruleProcessorConfig) *)
Fixpoint compose_selected (contract : string) (mechanics : list selectedMechanicsDefinition) (c : composed)
    : res composed :=
  match mechanics with
  | [] => Ok c
  | selected :: rest =>
      let id := wr_ID (sm_definition selected) in
      if decide (id ∈ co_seen c) then Err (Errorf "duplicate rule id in selected mechanics file" [])
      else
        definition ← bindSelectedMechanicsActions contract (sm_definition selected);
        _ ← wrapf "selected mechanics rule failed runtime validation" (rule_ValidateDefinition definition);
        compose_selected contract rest {|
          co_seen := {[id]} ∪ co_seen c;
          co_patterns := if mem (wr_Pattern definition) (co_patterns c) then co_patterns c
                         else co_patterns c ++ [wr_Pattern definition];
          co_graph := if definitionMutatesGraph definition then true else co_graph c;
          co_rules := co_rules c ++ [Selected definition];
          co_selected := co_selected c ++ [definition] |}
  end.

(* src/internal/boot/rules.go:33-92 (composed_config) *)
Definition composed_config (plan : Plan) (mechanics : list selectedMechanicsDefinition) (config : RuleConfig)
    : res RuleConfig :=
  seen ← seen_ids ∅ (rc_InlineRules config);
  c ← compose_selected (selectedMechanicsContractName (rx_MechanicsPack (ps_Experience (pl_Wire plan)))) mechanics
        {| co_seen := seen; co_patterns := rc_Patterns config; co_graph := rc_EnableGraphIntegration config;
           co_rules := rc_InlineRules config; co_selected := [] |};
  contract ← selectedMechanicsProjection plan (co_selected c);
  let config := {|
    rc_InlineRules := co_rules c; rc_Patterns := co_patterns c; rc_Outputs := rc_Outputs config;
    rc_EnableGraphIntegration := co_graph c;
    rc_Contracts := match contract with Some contract => [contract] | None => rc_Contracts config end |} in
  _ ← wrapf "composed engine and selected world rule configuration" (rule_Config_Validate config);
  Ok config.

(* src/internal/boot/rules.go#Engine.ruleProcessorConfig *)
Definition ruleProcessorConfig `{RuleValidator} (decoded : res (list Definition_)) (plan : option Plan)
    (mechanics : list selectedMechanicsDefinition) : res string :=
  match plan with
  | None => Err (Errorf "compose rule configuration: the world has no resolved plan" [])
  | Some plan =>
      raw ← wrapf "build the fixed turn-sequencing rule configuration" (ProcessorConfig decoded);
      config ← wrapf "decode the fixed turn-sequencing rule configuration" (rule_Unmarshal raw);
      config ← composed_config plan mechanics config;
      wrapf "encode the composed rule configuration" (rule_Marshal config)
  end.
End compose.
