(* ===== verification/BootWorld.v ===== *)
(** [internal/boot/world.go], [config.go] and [streams.go], with the parts of
    [engine.go] that only read an instance's configuration: the scene and the
    player of an instance, the readbacks a boot waits for, the instantiation of
    the world - claimed, imported, read back and marked, or waited for -, the
    configuration's defaults and checks, the streams it declares, and the loading
    of its world. *)

From S2P Require Import Prelude GoStd GoErrors Graph Vocab Vocabulary Payload ContentRecords ContentStore Store Campaign WorldEntity Sequencing RulePack GraphIO Turn Ledger Scene Epistemic Persona PlayerSocket WorldTemplate WorldRules WorldPackage WorldImport Spawn BootSequence BootRules.

Open Scope Z_scope.

(* src/internal/boot/world.go#const membershipPredicate *)
Definition membershipPredicate : string := WorldLocationCurrent.

(** ** The scene and the player *)

Definition of_entity_kind (kind : string) (plan : Plan) : list PlannedEntity :=
  List.filter (fun entity => String.eqb (pn_Kind entity) kind) (ps_Entities (pl_Wire plan)).

Definition localID_is (localID : string) (entity : PlannedEntity) : bool :=
  String.eqb (tr_LocalID (pn_Template entity)) localID.

(* src/internal/boot/world.go#sceneEntityID *)
Definition sceneEntityID (plan : Plan) (localID : string) : res string :=
  let scenes := of_entity_kind EntityKindScene plan in
  match scenes with
  | [] => Err (Errorf "the world package declares no scene" [])
  | first :: rest =>
      if String.eqb localID EmptyString then
        if Nat.ltb 1 (List.length scenes) then
          Err (Errorf "the world package declares several scenes and the instance names none" [])
        else Ok (pn_ID first)
      else
        match List.find (localID_is localID) scenes with
        | Some scene => Ok (pn_ID scene)
        | None => Err (Errorf "the instance names a scene which this world package does not declare" [])
        end
  end.

(* src/internal/boot/world.go#playerEntityID *)
Definition playerEntityID (plan : Plan) (localID : string) : res string :=
  match List.find (fun entity => String.eqb (pn_Kind entity) EntityKindPlayer && localID_is localID entity)
          (ps_Entities (pl_Wire plan)) with
  | Some entity => Ok (pn_ID entity)
  | None => Err (Errorf "the resolved plan carries no player entity for the instance player" [])
  end.

(* src/internal/boot/world.go#localIDs *)
Definition localIDs (entities : list PlannedEntity) : list string :=
  Sort (map (fun entity => tr_LocalID (pn_Template entity)) entities).

(** ** The membership a plan declares *)

(** The target of a fact that is a membership edge. *)
(* src/internal/boot/world.go:420-426 (membershipEdges) *)
Definition membership_target (fact : WorldFact) : option string :=
  if wf_Reference fact && String.eqb (wf_Predicate fact) membershipPredicate then
    match wf_Object fact with
    | AString EmptyString => None
    | AString target => Some target
    | _ => None
    end
  else None.

Definition membership_pairs (plan : Plan) : list (string * string) :=
  flat_map (fun entity => map (fun target => (target, pn_ID entity)) (omap membership_target (pn_Facts entity)))
    (ps_Entities (pl_Wire plan)).

Definition add_edge (edges : gmap string (list string)) (pair : string * string) : gmap string (list string) :=
  <[pair.1 := default [] (edges !! pair.1) ++ [pair.2]]> edges.

(* src/internal/boot/world.go#membershipEdges *)
Definition membershipEdges (plan : Plan) : gmap string (list string) :=
  Sort <$> fold_left add_edge (membership_pairs plan) ∅.

(** ** The readbacks *)

(** What a poll that outlasts its fuel would be; the fuel every caller passes
    is enough ([BootWorldSpec]). *)
Definition StillPolling : string := "the poll is still running".

Definition finished {W} (m : MW W (option unit)) : MW W unit :=
  r ← m;
  match r with Some _ => mret tt | None => throw (Sentinel StillPolling) end.

Section readbacks.
Context {W : Type} `{SceneGraph W, Clock W, Waits W}.

(* src/internal/boot/world.go#awaitEntitiesBorn *)
Definition awaitEntitiesBorn (fuel : nat) (ids : list string) (w : readinessWindow) : MW W (option unit) :=
  start ← read_clock;
  poll_until
    (batch ← wrapping "read the imported world back" (GetEntities ids);
     mret (match br_Missing batch with [] => None | missing => Some (map me_ID missing) end))
    (fun pending => Errorf "imported entities are still not queryable" (map Sentinel (Sort pending)))
    fuel (start + win_timeout w) (win_poll w).

(* src/internal/boot/world.go#missingIncoming *)
Definition missingIncoming (target : string) (sources : list string) : MW W (list string) :=
  read ← attempt (IncomingRelationships target);
  match read with
  | Err err =>
      if errors_Is ErrIndexNotReady err then mret sources
      else throw (Errorf "read the incoming edges" [err])
  | Ok entries =>
      let present := map ie_FromEntityID
        (List.filter (fun entry => String.eqb (ie_Predicate entry) membershipPredicate) entries) in
      mret (List.filter (fun source => negb (mem source present)) sources)
  end.

(** The loop over the targets: the edges that are still missing. *)
(* src/internal/boot/world.go:345-353 (awaitMembershipIndexed) *)
Fixpoint missing_edges (expected : gmap string (list string)) (targets : list string) : MW W (list (string * string)) :=
  match targets with
  | [] => mret []
  | target :: rest =>
      missing ← missingIncoming target (default [] (expected !! target));
      more ← missing_edges expected rest;
      mret (map (fun source => (source, target)) missing ++ more)
  end.

(* src/internal/boot/world.go#awaitMembershipIndexed *)
Definition awaitMembershipIndexed (fuel : nat) (expected : gmap string (list string)) (w : readinessWindow)
    : MW W (option unit) :=
  if decide (expected = ∅) then throw (Errorf "the world package declares no membership edge" [])
  else
    let targets := Sort (map fst (map_to_list expected)) in
    start ← read_clock;
    poll_until
      (pending ← missing_edges expected targets;
       mret (match pending with [] => None | _ => Some pending end))
      (fun pending => Errorf "the reverse-edge index still does not carry membership edges"
                        (map (fun edge => Sentinel (edge.1 +:+ " -> " +:+ edge.2)) pending))
      fuel (start + win_timeout w) (win_poll w).
End readbacks.

(** ** The instantiation *)

Section instantiate.
Context {W : Type} `{Substrate, TimeText, GraphStore W, Clock W, Minter W, Waits W, SceneGraph W, Publisher W,
  EntityEnvelope}.
Context (marshal : planSealWire -> res string).
(** The engine's fields the steps read: its plan, its gate's campaign, its
    importer and its window, and how long it waits for another's marker. *)
Context (plan : Plan) (campaignID : string) (importer : Importer) (window : readinessWindow) (markerWait : Z).

(* src/internal/boot/world.go#Engine.awaitEntitiesBorn *)
Definition engine_awaitEntitiesBorn : MW W unit :=
  finished (awaitEntitiesBorn (polls window) (Plan_IDs plan) window).

(* src/internal/boot/world.go#Engine.awaitMembershipIndexed *)
Definition engine_awaitMembershipIndexed : MW W unit :=
  finished (awaitMembershipIndexed (polls window) (membershipEdges plan) window).

(* src/internal/boot/world.go#Engine.importWorld *)
Definition importWorld (instantiation : Instantiation) : MW W unit :=
  result ← Importer_Import marshal importer (Some plan);
  match snd result with
  | Some err => throw (Errorf "import the world" [err])
  | None =>
      _ ← engine_awaitEntitiesBorn;
      _ ← engine_awaitMembershipIndexed;
      _ ← MarkImported campaignID instantiation;
      mret tt
  end.

(** The wait for another boot's marker. *)
(* src/internal/boot/world.go:174-187 (instantiate) *)
Definition await_claimant : MW W unit :=
  completion ← ImportCompletion campaignID;
  if snd completion : bool then mret tt
  else
    finished
      (at_ ← AwaitImportCompletion campaignID (Z.to_nat (markerWait / win_poll window + 2)) markerWait (win_poll window);
       mret (match at_ with Some _ => Some tt | None => None end)).

(** The claim becomes the engine's instantiation: it is returned, with what
    the rest of the step makes of it. *)
(* src/internal/boot/world.go#Engine.instantiate *)
Definition instantiate : MW W (Instantiation * res unit) :=
  let experience := ps_Experience (pl_Wire plan) in
  claim ← wrapping "claim the campaign"
    (Claim campaignID {| PersonaPack := rx_PersonaPack experience; MechanicsPack := rx_MechanicsPack experience |});
  rest ← attempt
    (_ ← if i_Fresh claim then importWorld claim else await_claimant;
     engine_awaitMembershipIndexed);
  mret (claim, rest).
End instantiate.

(** A [time.Duration] is in nanoseconds. *)
Definition second : Z := 10 ^ 9.

(* src/internal/boot/config.go#const DefaultNATSURL *)
Definition DefaultNATSURL : string := "nats://127.0.0.1:4222".
(* src/internal/boot/config.go#const DefaultReadyTimeout *)
Definition DefaultReadyTimeout : Z := 90 * second.
(* src/internal/boot/config.go#const DefaultReadyPoll *)
Definition DefaultReadyPoll : Z := 250 * 10 ^ 6.
(* src/internal/boot/config.go#const DefaultStopTimeout *)
Definition DefaultStopTimeout : Z := 10 * second.
(* src/internal/campaign/marker.go#const DefaultMarkerWait *)
Definition DefaultMarkerWait : Z := 2 * 60 * second.

(* src/internal/boot/config.go#type PlayerConfig *)
Record PlayerConfig : Type := { pl_LocalID : string; pl_Name : string; pl_Character : string; pl_Credential : string }.
(* src/internal/boot/config.go#type CompanionConfig *)
Record CompanionConfig : Type := { cn_Character : string; cn_Policy : string }.
(* src/internal/boot/config.go#type ExperienceConfig *)
Record ExperienceConfig : Type := { ex_PersonaPack : string; ex_MechanicsPack : string }.

(** [model.Registry]: its own check and what a persona reads of it. *)
Record ModelRegistry : Type := { mr_Validate : res unit; mr_Reader : RegistryReader }.

(** A payload registry is what a decoder over it makes of the boot's probe. *)
(* src/internal/boot/config.go#type Config *)
Record Config `{PersonaRecords} : Type := {
  cf_NATSURL : string; cf_Org : string; cf_WorldNS : string; cf_Player : PlayerConfig;
  cf_Companion : option CompanionConfig; cf_Experience : ExperienceConfig; cf_SceneLocalID : string;
  cf_ContentBucket : string; cf_Models : option ModelRegistry; cf_Socket : SocketConfig;
  cf_ReadyTimeout : Z; cf_ReadyPoll : Z; cf_MarkerWait : Z; cf_StopTimeout : Z;
  cf_World : option PackageFS; cf_CampaignSeed : Seed; cf_Registry : option (string -> res bool) }.

Section config.
Context `{Substrate, PersonaRecords}.

(** [decoded] is [Decode] with unknown fields refused. *)
(* src/internal/boot/config.go#LoadConfig *)
Definition LoadConfig (decoded : res Config) : res Config := wrapf "parse the instance configuration" decoded.

Definition or_text (s fallback : string) : string := if String.eqb s EmptyString then fallback else s.
Definition or_duration (d fallback : Z) : Z := if d <=? 0 then fallback else d.

(* src/internal/boot/config.go#Config.withDefaults *)
Definition withDefaults (c : Config) : Config := {|
  cf_NATSURL := or_text (cf_NATSURL c) DefaultNATSURL; cf_Org := cf_Org c; cf_WorldNS := cf_WorldNS c;
  cf_Player := cf_Player c; cf_Companion := cf_Companion c; cf_Experience := cf_Experience c;
  cf_SceneLocalID := cf_SceneLocalID c; cf_ContentBucket := or_text (cf_ContentBucket c) DefaultBucket;
  cf_Models := cf_Models c; cf_Socket := cf_Socket c;
  cf_ReadyTimeout := or_duration (cf_ReadyTimeout c) DefaultReadyTimeout;
  cf_ReadyPoll := or_duration (cf_ReadyPoll c) DefaultReadyPoll;
  cf_MarkerWait := or_duration (cf_MarkerWait c) DefaultMarkerWait;
  cf_StopTimeout := or_duration (cf_StopTimeout c) DefaultStopTimeout;
  cf_World := cf_World c; cf_CampaignSeed := cf_CampaignSeed c; cf_Registry := cf_Registry c |}.

(* src/internal/boot/config.go#Config.playerBinding *)
Definition playerBinding (c : Config) : PlayerBinding := {|
  pb_LocalID := pl_LocalID (cf_Player c); pb_Name := pl_Name (cf_Player c);
  pb_Character := pl_Character (cf_Player c) |}.

(* src/internal/boot/config.go#Config.instanceConfig *)
Definition instanceConfig (c : Config) : InstanceConfig := {|
  ic_Org := cf_Org c; ic_WorldNS := cf_WorldNS c; ic_Player := playerBinding c;
  ic_Companion := (fun companion => {| cb_Character := cn_Character companion; cb_Policy := cn_Policy companion |})
                    <$> cf_Companion c;
  ic_Experience := {| es_PersonaPack := ex_PersonaPack (cf_Experience c);
                      es_MechanicsPack := ex_MechanicsPack (cf_Experience c) |} |}.

(* src/internal/boot/config.go#Config.Validate *)
Definition Config_Validate (c : Config) : res unit :=
  _ ← wrapf "instance org" (ValidateIDSegment (cf_Org c));
  _ ← wrapf "instance world namespace" (ValidateIDSegment (cf_WorldNS c));
  if String.eqb (pl_Credential (cf_Player c)) EmptyString then Err (Errorf "the instance player has no credential" [])
  else
    match cf_World c, cf_Registry c, cf_Models c with
    | None, _, _ => Err (Errorf "the instance has no world package to instantiate from" [])
    | _, None, _ => Err (Errorf "the instance has no payload registry" [])
    | _, _, None => Err (Errorf "the instance declares no model registry" [])
    | Some _, Some _, Some models =>
        _ ← wrapf "model registry" (mr_Validate models);
        _ ← InstanceConfig_Validate (instanceConfig c);
        if negb (String.eqb (cf_SceneLocalID c) EmptyString) then
          wrapf "instance scene id" (ValidateIDSegment (cf_SceneLocalID c))
        else Ok tt
    end.
End config.

(** ** The streams an instance declares *)

(* src/internal/world/importer.go#const EntityStream *)
Definition EntityStream : string := "ENTITY".
(* src/internal/world/importer.go#const EntitySubjectFilter *)
Definition EntitySubjectFilter : string := "entity.>".

(** A declaration: [None] leaves a limit unstated. *)
Record StreamDeclaration : Type := {
  sd_Subjects : list string; sd_Storage : string; sd_Retention : string; sd_MaxAge : option Z; sd_MaxBytes : option Z;
  sd_Duplicates : option Z; sd_Discard : option string }.
Record ArchivalStream : Type := { av_Owner : string; av_Reason : string }.
Record StreamInventory : Type := {
  in_Org : string; in_Streams : gmap string StreamDeclaration; in_Archival : gmap string ArchivalStream }.

(* src/internal/boot/streams.go#const streamOwner *)
Definition streamOwner : string := "semmachina".
(* src/internal/boot/streams.go#const entityArchiveReason *)
Definition entityArchiveReason : string := "the canonical graph-ingest fact lane must not lose unapplied or replay input".
(* src/internal/boot/streams.go#const stageArchiveReason *)
Definition stageArchiveReason : string := "an unread stage trigger permanently strands its turn".
(* src/internal/boot/streams.go#const ledgerArchiveReason *)
Definition ledgerArchiveReason : string := "the campaign ledger is the permanent record from which a campaign is replayed".

Definition unbounded_stream (subjects : list string) (duplicates : option Z) : StreamDeclaration := {|
  sd_Subjects := subjects; sd_Storage := "file"; sd_Retention := "limits"; sd_MaxAge := None; sd_MaxBytes := None;
  sd_Duplicates := duplicates; sd_Discard := None |}.

(* src/internal/turn/intake.go:26-26 (ActionStream) *)
Definition ActionStreamName : string := "PLAYER_ACTIONS".

(* src/internal/boot/streams.go#streamDeclarations *)
Definition streamDeclarations (org : string) : StreamInventory := {|
  in_Org := org;
  in_Streams := list_to_map [
    (EntityStream, unbounded_stream [EntitySubjectFilter] None);
    (StageStream, unbounded_stream [StageSubjectFilter] None);
    (LedgerStreamName, unbounded_stream [LedgerSubjectFilter] (Some (2 * 60 * second)));
    (as_Name AgentStreamConfig,
      {| sd_Subjects := as_Subjects AgentStreamConfig; sd_Storage := "file"; sd_Retention := "limits";
         sd_MaxAge := Some (as_MaxAge AgentStreamConfig); sd_MaxBytes := Some (as_MaxBytes AgentStreamConfig);
         sd_Duplicates := Some (as_Duplicates AgentStreamConfig); sd_Discard := Some "old"%string |});
    (ActionStreamName,
      {| sd_Subjects := sc_Subjects ActionStreamConfig; sd_Storage := "file"; sd_Retention := "limits";
         sd_MaxAge := Some (sc_MaxAge ActionStreamConfig); sd_MaxBytes := Some (sc_MaxBytes ActionStreamConfig);
         sd_Duplicates := None; sd_Discard := Some "new"%string |})];
  in_Archival := list_to_map [
    (EntityStream, {| av_Owner := streamOwner; av_Reason := entityArchiveReason |});
    (StageStream, {| av_Owner := streamOwner; av_Reason := stageArchiveReason |});
    (LedgerStreamName, {| av_Owner := streamOwner; av_Reason := ledgerArchiveReason |})] |}.

(** ** The loaded world *)

Section world.
Context `{Substrate, Semver, WorldRuleEngine, PersonaRecords, RuleRuntime}.
Context (marshal : planSealWire -> res string).

(** What [loadWorld] leaves on the engine. *)
Record LoadedWorld : Type := {
  lw_pkg : Package; lw_plan : Plan; lw_personas : list PersonaRecord;
  lw_mechanics : list selectedMechanicsDefinition; lw_sceneID : string; lw_playerID : string }.

(* src/internal/boot/world.go#Engine.loadWorld *)
Definition loadWorld (cfg : Config) (fsys : PackageFS) : res LoadedWorld :=
  pkg ← wrapf "load the world package"
    (LoadPackage fsys {| lo_EngineVersion := EmptyString; lo_AttributeSpecs := None |});
  plan ← wrapf "resolve the world package into this instance" (Package_Resolve marshal pkg (instanceConfig cfg));
  experience ← bindSelectedExperience fsys plan;
  sceneID ← sceneEntityID plan (cf_SceneLocalID cfg);
  playerID ← playerEntityID plan (pl_LocalID (cf_Player cfg));
  Ok {| lw_pkg := pkg; lw_plan := plan; lw_personas := fst experience; lw_mechanics := snd experience;
        lw_sceneID := sceneID; lw_playerID := playerID |}.

(* src/internal/boot/engine.go#Engine.campaignIdentity *)
Definition campaignIdentity (cfg : Config) (plan : Plan) : CampaignIdentity :=
  {| c_Org := cf_Org cfg; c_WorldNS := cf_WorldNS cfg; c_Template := ps_TemplateID (pl_Wire plan) |}.

(* src/internal/boot/engine.go#Engine.turnIdentity *)
Definition turnIdentity (cfg : Config) (plan : Plan) : Identity :=
  {| Org := cf_Org cfg; WorldNS := cf_WorldNS cfg; Template := ps_TemplateID (pl_Wire plan) |}.

(** The pinned seed, when the deployment pinned one. *)
(* src/internal/boot/engine.go#Engine.seedSource *)
Definition seedSource (cfg : Config) : option Seed :=
  if Seed_IsZero (cf_CampaignSeed cfg) then None else Some (cf_CampaignSeed cfg).

(** *** The epistemic scope *)

(** The map [byLocalID]: of several entities with one local name, the last. *)
(* src/internal/boot/engine.go:972-975 (epistemicScope) *)
Definition byLocalID (plan : Plan) (localID : string) : option PlannedEntity :=
  List.find (localID_is localID) (rev (ps_Entities (pl_Wire plan))).

Definition planned_as (kind : string) (entity : option PlannedEntity) : option PlannedEntity :=
  match entity with
  | Some entity => if String.eqb (pn_Kind entity) kind then Some entity else None
  | None => None
  end.

(** The loop over the beliefs. *)
(* src/internal/boot/engine.go:982-995 (epistemicScope) *)
Fixpoint scope_beliefs (plan : Plan) (beliefs : list MysteryBelief) (byActor : gmap string (list string))
    : res (gmap string (list string)) :=
  match beliefs with
  | [] => Ok byActor
  | belief :: rest =>
      match planned_as EntityKindBelief (byLocalID plan (mb_Record belief)),
            planned_as EntityKindCharacter (byLocalID plan (mb_Actor belief)) with
      | None, _ => Err (Errorf "build epistemic scope: resolved plan has no belief" [])
      | Some _, None => Err (Errorf "build epistemic scope: resolved plan has no belief actor" [])
      | Some record, Some actor =>
          scope_beliefs plan rest
            (<[pn_ID actor := default [] (byActor !! pn_ID actor) ++ [pn_ID record]]> byActor)
      end
  end.

(* src/internal/boot/engine.go#Engine.epistemicScope *)
Definition epistemicScope (plan : option Plan) (pkg : option Package) : res Scope :=
  match plan, pkg with
  | Some plan, Some pkg =>
      match pkg_Mystery pkg with
      | None => NewScope EmptyString []
      | Some mystery =>
          match planned_as EntityKindCase (byLocalID plan (mc_ID mystery)) with
          | None => Err (Errorf "build epistemic scope: resolved plan has no case" [])
          | Some caseEntity =>
              beliefs ← scope_beliefs plan (mc_Beliefs mystery) ∅;
              NewScope (pn_ID caseEntity) (map_to_list beliefs)
          end
      end
  | _, _ => Err (Errorf "build epistemic scope: resolved world plan is unavailable" [])
  end.
End world.

(** ** The agentic loop's budgets *)

(* src/internal/boot/engine.go#maxPersonaIterations *)
Definition maxPersonaIterations : Z :=
  fold_left (fun widest spec => if widest <? sp_MaxIterations spec then sp_MaxIterations spec else widest) Specs 1.

(* src/internal/boot/engine.go#maxPersonaTimeout *)
Definition maxPersonaTimeout : Z :=
  fold_left (fun longest spec => if longest <? sp_Timeout spec then sp_Timeout spec else longest) Specs (60 * second) *
  (maxPersonaIterations + 1).
