(* ===== verification/BootEngine.v ===== *)
(** [internal/boot/engine.go] and [internal/boot/components.go]: the engine's
    steps and what each of them does to the engine and to the world, the
    admission and activation of component managers, and the start and the stop
    of an instance. *)

From S2P Require Import Prelude GoStd GoErrors Graph Vocab Vocabulary Payload ContentRecords ContentStore Store Campaign WorldEntity Sequencing RulePack GraphIO Turn Caseflow Ledger Scene Persona WorldTemplate WorldRules WorldPackage WorldImport Spawn BootSequence BootRules BootWorld.

Open Scope Z_scope.

(** ** The steps' names *)

(* src/internal/boot/engine.go#const StepConnect *)
Definition StepConnect : string := "connect".
(* src/internal/boot/engine.go#const StepStreams *)
Definition StepStreams : string := "streams".
(* src/internal/boot/engine.go#const StepEntityStream *)
Definition StepEntityStream : string := "entity-stream".
(* src/internal/boot/engine.go#const StepGraph *)
Definition StepGraph : string := "graph".
(* src/internal/boot/engine.go#const StepAgentStream *)
Definition StepAgentStream : string := "agent-stream".
(* src/internal/boot/engine.go#const StepPersonas *)
Definition StepPersonas : string := "personas".
(* src/internal/boot/engine.go#const StepAgentic *)
Definition StepAgentic : string := "agentic".
(* src/internal/boot/engine.go#const StepWorld *)
Definition StepWorld : string := "world".
(* src/internal/boot/engine.go#const StepLifecycle *)
Definition StepLifecycle : string := "lifecycle".
(* src/internal/boot/engine.go#const StepStageStream *)
Definition StepStageStream : string := "stage-stream".
(* src/internal/boot/engine.go#const StepKnowledge *)
Definition StepKnowledge : string := "knowledge".
(* src/internal/boot/engine.go#const StepAccusation *)
Definition StepAccusation : string := "accusation".
(* src/internal/boot/engine.go#const StepCaseProgress *)
Definition StepCaseProgress : string := "case-progress".
(* src/internal/boot/engine.go#const StepRules *)
Definition StepRules : string := "rules".
(* src/internal/boot/engine.go#const StepResume *)
Definition StepResume : string := "resume".
(* src/internal/boot/engine.go#const StepLoopFailures *)
Definition StepLoopFailures : string := "loop-failures".
(* src/internal/boot/engine.go#const StepStages *)
Definition StepStages : string := "stages".
(* src/internal/boot/engine.go#const StepEgress *)
Definition StepEgress : string := "egress".
(* src/internal/boot/engine.go#const StepLedger *)
Definition StepLedger : string := "ledger".
(* src/internal/boot/engine.go#const StepActionStream *)
Definition StepActionStream : string := "action-stream".
(* src/internal/boot/engine.go#const StepIntake *)
Definition StepIntake : string := "intake".
(* src/internal/boot/engine.go#const StepIngress *)
Definition StepIngress : string := "ingress".

(** ** Component manifests

    What a component declares of a port: its facts may fail to resolve; a port
    with an interface carries its type and version. *)

Record PortFacts : Type := {
  pf_IsRequest : bool; pf_ConnectionIDs : list string; pf_Interface : option (string * string) }.
Record Port : Type := { pt_Name : string; pt_IsInput : bool; pt_Required : bool; pt_Facts : res PortFacts }.
Record Discoverable : Type := { dc_IsStoreProvider : bool; dc_InputPorts : list Port; dc_OutputPorts : list Port }.

(* src/internal/boot/components.go:344-348 (validateUnionComponents) *)
Definition mutationSubject : string := "graph.mutation.>".
Definition mutationType : string := "semstreams.graph.mutation".
Definition mutationVersion : string := "v1".

(* src/internal/boot/components.go:369-373 (validateUnionComponents) *)
Definition isMutation (facts : PortFacts) : bool :=
  match pf_Interface facts with Some (type, _) => String.eqb type mutationType | None => false end ||
  existsb (fun connection => HasPrefix connection "graph.mutation.") (pf_ConnectionIDs facts).

(* src/internal/boot/components.go:377-381 (validateUnionComponents) *)
Definition canonical_port (port : Port) (facts : PortFacts) : bool :=
  pf_IsRequest facts && bool_decide (pf_ConnectionIDs facts = [mutationSubject]) &&
  bool_decide (pf_Interface facts = Some (mutationType, mutationVersion)) && pt_Required port.

(** One port: how many providers of graph mutations it is. *)
(* src/internal/boot/components.go:363-385 (validateUnionComponents) *)
Definition port_providers (port : Port) : res nat :=
  facts ← wrapf "component port" (pt_Facts port);
  if negb (isMutation facts) then Ok O
  else if negb (canonical_port port facts) then
    Err (Errorf "component port is not the canonical required graph mutation port" [])
  else Ok (if pt_IsInput port then 1%nat else O).

Fixpoint sum_ok {A} (f : A -> res nat) (l : list A) : res nat :=
  match l with
  | [] => Ok O
  | x :: rest => n ← f x; m ← sum_ok f rest; Ok (n + m)%nat
  end.

(** The components of all managers in the order the ranges yield them: the
    names seen, the providers of mutations and of storage. *)
(* src/internal/boot/components.go:352-388 (validateUnionComponents) *)
Fixpoint count_providers (seen : gset string) (components : list (string * Discoverable)) : res (nat * nat) :=
  match components with
  | [] => Ok (O, O)
  | (name, discoverable) :: rest =>
      if decide (name ∈ seen) then Err (Errorf "component appears in two managers" [])
      else
        mutations ← sum_ok port_providers (dc_InputPorts discoverable ++ dc_OutputPorts discoverable);
        counts ← count_providers ({[name]} ∪ seen) rest;
        Ok ((mutations + counts.1)%nat, ((if dc_IsStoreProvider discoverable then 1 else 0) + counts.2)%nat)
  end.

(* src/internal/boot/components.go#validateUnionComponents *)
Definition validateUnionComponents (groups : list (list (string * Discoverable))) : res unit :=
  counts ← count_providers ∅ (concat groups);
  if negb (Nat.eqb counts.1 1) then
    Err (Errorf "component manifest requires exactly one graph mutation provider" [])
  else if negb (Nat.eqb counts.2 1) then
    Err (Errorf "component manifest requires exactly one storage provider" [])
  else Ok tt.

(** ** What the engine calls *)

Inductive ComponentLifecycle : Type := StateInitialized | StateStarted | OtherState (name : string).
#[export] Instance ComponentLifecycle_eq_dec : EqDecision ComponentLifecycle.
Proof. solve_decision. Defined.

(** Upstream's component managers, each by the name of its barrier: building
    one from its components, what it manages, starting and stopping it. *)
Class ComponentManagers (W : Type) : Type := {
  manager_Build : string -> list string -> option string -> MW W unit;
  manager_Components : string -> MW W (list (string * ComponentLifecycle));
  manager_Manifest : string -> MW W (list (string * Discoverable));
  manager_IsStarted : string -> MW W bool;
  manager_Start : string -> MW W unit;
  manager_Stop : string -> Z -> MW W unit
}.

(** The broker's client, the listener, the declared streams, the lifecycle of a
    case and the persona bucket, all upstream. *)
Definition ErrAlreadyExists : string := "lifecycle: entity already exists".

Class BootServices (W : Type) `{PersonaRecords} : Type := {
  client_Connect : MW W unit;
  client_StopAllConsumers : MW W unit;
  client_Close : MW W unit;
  listener_Close : MW W unit;
  EnsureStreams : StreamInventory -> MW W unit;
  EnsureStream : string -> MW W unit;
  bind_projection : MW W unit;
  lifecycle_Register : Workflow_ -> MW W unit;
  lifecycle_Create : CaseState -> MW W unit;
  persona_NewManager : MW W unit;
  persona_Upsert : PersonaRecord -> MW W unit
}.

(** The steps that construct components modelled elsewhere and bind their
    consumers, and the pass over the stranded turns: each has its own file. *)
Class BootParts (W : Type) : Type := {
  part_Knowledge : MW W unit; part_Accusation : MW W unit; part_CaseProgress : MW W unit;
  part_WorkQueues : MW W unit; part_Reconcile : MW W unit;
  part_LoopFailures : MW W unit; part_Stages : MW W unit; part_Egress : MW W unit; part_Ledger : MW W unit;
  part_Intake : MW W unit; part_Ingress : MW W unit
}.

(** ** The engine's own state

    Which managers are prepared and which were activated, in that order; the
    status generation before the rules started; the claim; whether the shared
    client and the listener are held. *)
(* src/internal/boot/engine.go#type Engine *)
Record Engine : Type := {
  en_prepared : list string; en_managers : list string; en_ruleStatusBaseline : Z;
  en_instantiation : option Instantiation; en_client : bool; en_listener : bool }.

Definition new_Engine : Engine := {|
  en_prepared := []; en_managers := []; en_ruleStatusBaseline := 0; en_instantiation := None; en_client := false;
  en_listener := false |}.

Section engine.
Context {W : Type} `{Substrate, TimeText, AgenticRules, Semver, WorldRuleEngine, PersonaRecords, RuleRuntime,
  RuleValidator, GraphStore W, Clock W, Minter W, Waits W, SceneGraph W, Publisher W, EntityEnvelope, Ctx W,
  BootStreams W, RuleStatus W, ComponentManagers W, !BootServices W, BootParts W}.
(** The configuration with its defaults, the loaded world, the importer, and
    the embedded rule pack as it decodes. *)
Context (marshal : planSealWire -> res string) (cfg : Config) (lw : LoadedWorld) (importer : Importer)
  (pack : res (list Definition_)).

Abbreviation EW := (Engine * W)%type.

#[export] Instance engine_ctx : Ctx EW := {| ctx_Err := on_world ctx_Err |}.

Definition modify (f : Engine -> Engine) : MW EW unit := fun '(e, w) => (Ok tt, (f e, w)).
Definition get_engine : MW EW Engine := fun ew => (Ok ew.1, ew).

Definition set_prepared (name : string) (e : Engine) : Engine := {|
  en_prepared := en_prepared e ++ [name]; en_managers := en_managers e;
  en_ruleStatusBaseline := en_ruleStatusBaseline e; en_instantiation := en_instantiation e;
  en_client := en_client e; en_listener := en_listener e |}.
Definition set_managers (managers : list string) (e : Engine) : Engine := {|
  en_prepared := en_prepared e; en_managers := managers;
  en_ruleStatusBaseline := en_ruleStatusBaseline e; en_instantiation := en_instantiation e;
  en_client := en_client e; en_listener := en_listener e |}.
Definition set_baseline (baseline : Z) (e : Engine) : Engine := {|
  en_prepared := en_prepared e; en_managers := en_managers e; en_ruleStatusBaseline := baseline;
  en_instantiation := en_instantiation e; en_client := en_client e; en_listener := en_listener e |}.
Definition set_instantiation (claim : Instantiation) (e : Engine) : Engine := {|
  en_prepared := en_prepared e; en_managers := en_managers e; en_ruleStatusBaseline := en_ruleStatusBaseline e;
  en_instantiation := Some claim; en_client := en_client e; en_listener := en_listener e |}.
Definition set_client (held : bool) (e : Engine) : Engine := {|
  en_prepared := en_prepared e; en_managers := en_managers e; en_ruleStatusBaseline := en_ruleStatusBaseline e;
  en_instantiation := en_instantiation e; en_client := held; en_listener := en_listener e |}.
Definition set_listener (held : bool) (e : Engine) : Engine := {|
  en_prepared := en_prepared e; en_managers := en_managers e; en_ruleStatusBaseline := en_ruleStatusBaseline e;
  en_instantiation := en_instantiation e; en_client := en_client e; en_listener := held |}.

(** The campaign [NewGate] composes; [connect] refuses an identity it cannot. *)
Definition gate_campaign : string :=
  match CampaignEntityID (campaignIdentity cfg (lw_plan lw)) with Ok id => id | Err _ => EmptyString end.

(* src/internal/boot/world.go#Engine.window *)
Definition window : readinessWindow := {| win_timeout := cf_ReadyTimeout cfg; win_poll := cf_ReadyPoll cfg |}.

(** *** Component barriers *)

(* src/internal/boot/components.go#Engine.newComponentManager *)
Definition newComponentManager (barrier : string) (components : list string) (raw : option string) : MW W unit :=
  _ ← wrapping "build component manager" (manager_Build barrier components raw);
  managed ← manager_Components barrier;
  if negb (Nat.eqb (List.length managed) (List.length components)) then
    throw (Errorf "build component manager: admitted fewer of the configured components" [])
  else
    lift (all_ok (fun name =>
      if existsb (fun entry => String.eqb entry.1 name && bool_decide (entry.2 = StateInitialized)) managed then Ok tt
      else Err (Errorf "build component manager: component was not initialized" [])) components).

(* src/internal/boot/checks.go#const ruleProcessorComponent *)
Definition ruleProcessorComponent : string := "rule-processor".
(* src/internal/boot/checks.go#const ruleStatusWait *)
Definition ruleStatusWait : Z := 20 * second.

(* src/internal/boot/components.go#graphComponentConfigs *)
Definition graphComponents : list string := ["graph-ingest"; "graph-index"]%string.
(* src/internal/boot/components.go:292-297 (agenticComponentConfigs) *)
Definition agenticComponents : list string :=
  [ManagedStorageInstance; "agentic-tools"; "agentic-model"; "agentic-loop"]%string.

(* src/internal/boot/components.go#Engine.prepareComponentBarriers *)
Definition prepareComponentBarriers : MW EW unit :=
  _ ← on_world (newComponentManager "graph" graphComponents None);
  _ ← modify (set_prepared "graph");
  _ ← on_world (newComponentManager "agentic" agenticComponents None);
  _ ← modify (set_prepared "agentic");
  raw ← lift (wrapf "build the rule processor configuration"
                (ruleProcessorConfig pack (Some (lw_plan lw)) (lw_mechanics lw)));
  _ ← on_world (newComponentManager "rule" [ruleProcessorComponent] (Some raw));
  _ ← modify (set_prepared "rule");
  _ ← on_world bind_projection;
  graph ← on_world (manager_Manifest "graph");
  agentic ← on_world (manager_Manifest "agentic");
  rule ← on_world (manager_Manifest "rule");
  lift (validateUnionComponents [graph; agentic; rule]).

(* src/internal/boot/components.go#Engine.activateManager *)
Definition activateManager (name : string) (verify : MW W unit) : MW EW unit :=
  e ← get_engine;
  if negb (mem name (en_prepared e)) then throw (Errorf "component manager was not prepared" [])
  else
    _ ← modify (fun e => set_managers (en_managers e ++ [name]) e);
    _ ← on_world (wrapping "start component manager" (manager_Start name));
    on_world (wrapping "start component manager" verify).

(* src/internal/boot/components.go#Engine.startManager *)
Definition startManager (name : string) : MW EW unit :=
  activateManager name
    (managed ← manager_Components name;
     lift (all_ok (fun entry =>
       if bool_decide (entry.2 = StateStarted) then Ok tt else Err (Errorf "component is in another state" [])) managed)).

(** *** The steps *)

(* src/internal/boot/engine.go#Engine.connect *)
Definition connect : MW EW unit :=
  _ ← on_world (wrapping "connect" client_Connect);
  _ ← modify (set_client true);
  _ ← prepareComponentBarriers;
  _ ← lift (Identity_Validate (turnIdentity cfg (lw_plan lw)));
  _ ← lift (CampaignEntityID (campaignIdentity cfg (lw_plan lw)));
  mret tt.

(* src/internal/boot/streams.go#Engine.ensureStreams *)
Definition ensureStreams : MW W unit := EnsureStreams (streamDeclarations (cf_Org cfg)).

(* src/internal/boot/engine.go#Engine.ensureEntityStream *)
Definition ensureEntityStream : MW W unit :=
  _ ← wrapping "ensure the stream" (EnsureStream EntityStream);
  checkStreamCaptures EntityStream [DefaultImportSubject].

(* src/internal/boot/engine.go#Engine.startGraph *)
Definition startGraph : MW EW unit := startManager "graph".

(* src/internal/boot/engine.go#Engine.ensureAgentStream *)
Definition ensureAgentStream : MW W unit :=
  _ ← wrapping "ensure the stream" (EnsureStream TaskStream);
  info ← wrapping "read the stream after declarative reconciliation" (stream_Info TaskStream);
  if negb (sc_MaxAge (si_Config info) =? AgentStreamMaxAge) || negb (si_Duplicates info =? sc_MaxAge (si_Config info))
  then throw (Errorf "the stream retained tasks and duplicate evidence for other times" [])
  else checkStreamCaptures TaskStream agentStreamSubjects.

(* src/internal/boot/engine.go#Engine.ensureStageStream *)
Definition ensureStageStream : MW W unit :=
  _ ← wrapping "ensure the stream" (EnsureStream StageStream);
  checkStreamCaptures StageStream stageStreamSubjects.

(* src/internal/turn/stream.go#EnsureActionStream *)
Definition EnsureActionStream : MW W unit :=
  _ ← wrapping "ensure the stream" (EnsureStream ActionStreamName);
  info ← wrapping "read back the stream configuration" (stream_Info ActionStreamName);
  lift (checkActionStreamConfig ActionStreamConfig (si_Config info) ActionSubject).

(** The claim is the engine's as soon as it is made. *)
(* src/internal/boot/world.go:160-163 (instantiate) *)
Definition run_instantiate : MW EW unit :=
  outcome ← on_world (instantiate marshal (lw_plan lw) gate_campaign importer window (cf_MarkerWait cfg));
  _ ← modify (set_instantiation (fst outcome));
  lift (snd outcome).

(** The loop of upserts. *)
Fixpoint upsert_all (records : list PersonaRecord) : MW W unit :=
  match records with
  | [] => mret tt
  | record :: rest => _ ← wrapping "seed persona record" (persona_Upsert record); upsert_all rest
  end.

(* src/internal/boot/world.go#Engine.seedPersonas *)
Definition seedPersonas : MW W unit :=
  if Nat.eqb (List.length (lw_personas lw)) 0 then throw (Errorf "the world package ships no persona records" [])
  else
    _ ← lift (validateCachedPersonas (lw_plan lw) (lw_personas lw));
    _ ← wrapping "open the persona bucket" persona_NewManager;
    upsert_all (lw_personas lw).

(* src/internal/boot/engine.go:568-573 (attachCaseLifecycle) *)
Definition case_entity (mystery : MysteryCase) : option PlannedEntity :=
  List.find (fun entity => String.eqb (pn_Kind entity) EntityKindCase && localID_is (mc_ID mystery) entity)
    (ps_Entities (pl_Wire (lw_plan lw))).

(* src/internal/boot/engine.go#Engine.attachCaseLifecycle *)
Definition attachCaseLifecycle : MW W unit :=
  _ ← wrapping "register case lifecycle" (lifecycle_Register Workflow);
  match pkg_Mystery (lw_pkg lw) with
  | None => mret tt
  | Some mystery =>
      match case_entity mystery with
      | None => throw (Errorf "attach case lifecycle: resolved plan has no case" [])
      | Some entity =>
          created ← attempt (lifecycle_Create {| cs_ID := pn_ID entity; cs_CurrentPhase := CasePhaseColdOpen |});
          match created with
          | Ok _ => mret tt
          | Err err =>
              if errors_Is ErrAlreadyExists err then mret tt
              else throw (Errorf "attach case lifecycle" [err])
          end
      end
  end.

(* src/internal/boot/engine.go#Engine.startAgenticLoop *)
Definition startAgenticLoop : MW EW unit := startManager "agentic".

(* src/internal/boot/engine.go#Engine.startRules *)
Definition startRules : MW EW unit :=
  _ ← modify (set_baseline 0);
  baseline ← on_world captureRuleStatusBaseline;
  _ ← modify (set_baseline baseline);
  startManager "rule".

(* src/internal/boot/checks.go#Engine.checkRuleProcessorStarted *)
Definition checkRuleProcessorStarted : MW EW unit :=
  e ← get_engine;
  started ← (if mem "rule" (en_prepared e) then on_world (manager_IsStarted "rule") else mret false);
  if negb started then throw (Errorf "rule processor component manager has not started" [])
  else
    managed ← on_world (manager_Components "rule");
    if negb (existsb (fun entry => String.eqb entry.1 ruleProcessorComponent && bool_decide (entry.2 = StateStarted)) managed)
    then throw (Errorf "rule component manager reports the processor is not started" [])
    else
      let w := {| win_timeout := ruleStatusWait; win_poll := cf_ReadyPoll cfg |} in
      on_world (finished (awaitRuleReadiness (polls w) (en_ruleStatusBaseline e) readRuleReadinessGeneration w)).

(* src/internal/boot/engine.go#Engine.checkResumePreconditions *)
Definition checkResumePreconditions : MW EW unit :=
  _ ← on_world (checkStreamCaptures StageStream stageStreamSubjects);
  _ ← on_world (checkStreamCaptures TaskStream agentStreamSubjects);
  checkRuleProcessorStarted.

(** The pass's own failures are logged; those of reading the queues end the boot. *)
(* src/internal/boot/engine.go#Engine.reconcileStrandedTurns *)
Definition reconcileStrandedTurns : MW W unit :=
  _ ← wrapping "read the stream" (GetStream StageStream);
  _ ← wrapping "read the stream" (GetStream TaskStream);
  _ ← part_WorkQueues;
  _ ← attempt part_Reconcile;
  mret tt.

(* src/internal/boot/engine.go#Engine.checkStagePreconditions *)
Definition checkStagePreconditions : MW W unit :=
  _ ← checkImportMarked gate_campaign;
  checkAgenticBridges.

(* src/internal/boot/engine.go:1085-1123 (startIngress) *)
Definition startIngress : MW EW unit :=
  _ ← on_world part_Ingress;
  modify (set_listener true).

Definition plain (id : string) (needs : list string) (run : MW EW unit) : Step EW :=
  {| st_ID := id; st_Needs := needs; st_Check := None; st_Run := Some run |}.
Definition checked (id : string) (needs : list string) (check run : MW EW unit) : Step EW :=
  {| st_ID := id; st_Needs := needs; st_Check := Some check; st_Run := Some run |}.

(* src/internal/boot/engine.go#Engine.steps *)
Definition steps : list (Step EW) := [
  plain StepConnect [] connect;
  plain StepStreams [StepConnect] (on_world ensureStreams);
  plain StepEntityStream [StepStreams] (on_world ensureEntityStream);
  plain StepGraph [StepConnect; StepEntityStream] startGraph;
  plain StepAgentStream [StepStreams] (on_world ensureAgentStream);
  plain StepWorld [StepGraph] run_instantiate;
  plain StepPersonas [StepConnect; StepWorld] (on_world seedPersonas);
  checked StepAgentic [StepAgentStream; StepPersonas]
    (on_world (checkPersonaModels (mr_Reader <$> cf_Models cfg))) startAgenticLoop;
  plain StepLifecycle [StepWorld; StepGraph] (on_world attachCaseLifecycle);
  plain StepStageStream [StepStreams] (on_world ensureStageStream);
  plain StepKnowledge [StepStageStream; StepGraph; StepWorld] (on_world part_Knowledge);
  plain StepAccusation [StepStageStream; StepGraph; StepWorld; StepLifecycle] (on_world part_Accusation);
  plain StepCaseProgress [StepStageStream; StepGraph; StepWorld; StepLifecycle] (on_world part_CaseProgress);
  plain StepRules [StepStageStream; StepGraph; StepWorld; StepLifecycle; StepKnowledge; StepAccusation; StepCaseProgress]
    startRules;
  checked StepResume [StepRules; StepStageStream; StepAgentStream; StepAgentic; StepWorld; StepKnowledge; StepAccusation;
                      StepCaseProgress]
    checkResumePreconditions (on_world reconcileStrandedTurns);
  plain StepLoopFailures [StepResume; StepAgentStream; StepWorld] (on_world part_LoopFailures);
  checked StepStages [StepLoopFailures; StepAgentic; StepWorld] (on_world checkStagePreconditions) (on_world part_Stages);
  plain StepEgress [StepStageStream; StepResume] (on_world part_Egress);
  plain StepLedger [StepWorld; StepResume] (on_world part_Ledger);
  plain StepActionStream [StepStreams] (on_world EnsureActionStream);
  checked StepIntake [StepActionStream; StepStages; StepEgress; StepLedger; StepWorld]
    (on_world (checkImportMarked gate_campaign)) (on_world part_Intake);
  plain StepIngress [StepIntake] startIngress].

(** *** Starting and stopping

    The state of a running boot: the sequence beside the engine and its world.
    A stop has no error of its own: what a component answers is logged. *)

Definition quietly {A} (m : MW EW A) : EW -> EW := fun ew => (m ew).2.

Fixpoint stop_managers (timeout : Z) (names : list string) (ew : EW) : EW :=
  match names with
  | [] => ew
  | name :: rest => stop_managers timeout rest (quietly (on_world (manager_Stop name timeout)) ew)
  end.

(* src/internal/boot/engine.go#Engine.stopComponents *)
Definition stopComponents (ew : EW) : EW :=
  quietly (modify (set_managers [])) (stop_managers (cf_StopTimeout cfg) (rev (en_managers ew.1)) ew).

(* src/internal/boot/engine.go#Engine.Stop *)
Definition Stop (ew : EW) : EW :=
  let ew := if en_listener ew.1 : bool then
              quietly (modify (set_listener false)) (quietly (on_world listener_Close) ew)
            else ew in
  let ew := stopComponents ew in
  if en_client ew.1 : bool then
    quietly (modify (set_client false)) (quietly (on_world client_Close) (quietly (on_world client_StopAllConsumers) ew))
  else ew.

Definition after {A} (stop : EW -> EW) (m : MW (Sequence EW * EW) A) : MW (Sequence EW * EW) A := fun sw =>
  match m sw with
  | (Ok a, sw') => (Ok a, sw')
  | (Err err, (s', ew')) => (Err err, (s', stop ew'))
  end.

(* src/internal/boot/engine.go#Engine.Start *)
Definition Start : MW (Sequence EW * EW) unit := after Stop Sequence_Run.

(* src/internal/boot/engine.go#Engine.StartThrough *)
Definition StartThrough (last : string) : MW (Sequence EW * EW) unit := after stopComponents (RunThrough last).
End engine.

(** ** Construction *)

(* src/internal/boot/engine.go#New *)
Definition New_ {W} `{Substrate, Semver, WorldRuleEngine, PersonaRecords, RuleRuntime}
    (marshal : planSealWire -> res string) (encode_probe : res string) (cfg : Config)
    (steps_of : Config -> LoadedWorld -> list (Step (Engine * W)))
    : res (Config * LoadedWorld * Sequence (Engine * W)) :=
  let cfg := withDefaults cfg in
  _ ← Config_Validate cfg;
  _ ← checkPayloadRegistry (match cf_Registry cfg with Some _ => true | None => false end) encode_probe
        (default (fun _ => Ok false) (cf_Registry cfg));
  match cf_World cfg with
  | None => Err (Errorf "the instance has no world package to instantiate from" [])
  | Some fsys =>
      lw ← loadWorld marshal cfg fsys;
      seq ← NewSequence (steps_of cfg lw);
      Ok (cfg, lw, seq)
  end.
