(* ===== verification/MemStore.v ===== *)
(** An executable instance of everything the engine takes from outside: the
    identifier functions of the substrate, an in-memory mutation client with a
    schedule of faults, a ticking clock and an object store. It satisfies every
    assumed law, so the development's hypotheses are consistent, and it is what
    the witnesses evaluate on. *)

From S2P Require Import Prelude GoStd GoErrors Graph Vocab Vocabulary Payload ContentRecords ProjectionContract Store Campaign Sequencing GraphIO Turn.

Open Scope Z_scope.

(** ** Identifiers *)

Definition segment_char (c : ascii) : bool :=
  let b := byte_of c in
  ((48 <=? b) && (b <=? 57)) || ((65 <=? b) && (b <=? 90)) || ((97 <=? b) && (b <=? 122)) ||
  (b =? 45) || (b =? 95).

Fixpoint all_chars (f : ascii -> bool) (s : string) : bool :=
  match s with EmptyString => true | String c rest => f c && all_chars f rest end.

Definition segment_ok (s : string) : bool :=
  negb (String.eqb s EmptyString) && all_chars segment_char s.

Definition mem_ValidateEntityID (s : string) : res unit :=
  let parts := Split dot s in
  require (Nat.eqb (List.length parts) 6 && forallb segment_ok parts && (len s <=? 256) &&
           negb (String.eqb s EmptyString))
    (Errorf "invalid entity id" []).

Definition mem_ValidateEntityIDPrefix (s : string) : res unit :=
  let parts := Split dot s in
  require (Nat.leb (List.length parts) 6 && forallb segment_ok parts && (len s <=? 256))
    (Errorf "invalid entity id prefix" []).

Definition mem_ParsePredicate (s : string) : res (string * string * string) :=
  match Split dot s with
  | [d; c; p] => if forallb segment_ok [d; c; p] then Ok (d, c, p) else Err (Errorf "invalid predicate" [])
  | _ => Err (Errorf "invalid predicate" [])
  end.

Definition mem_ParseEntityID (s : string) : res ParsedEntityID :=
  _ ← mem_ValidateEntityID s;
  match Split dot s with
  | [o; p; d; y; t; i] =>
      Ok {| eid_Org := o; eid_Platform := p; eid_Domain := d; eid_System := y; eid_Type := t; eid_Instance := i |}
  | _ => Err (Errorf "invalid entity id" [])
  end.

#[export] Instance mem_substrate : Substrate := {
  MaxEntityIDBytes := 256;
  ValidateEntityID := mem_ValidateEntityID;
  ParseEntityID := mem_ParseEntityID;
  ValidateEntityIDPrefix := mem_ValidateEntityIDPrefix;
  ParsePredicate := mem_ParsePredicate;
  EntityIndexingProfile := "entity.indexing.profile";
  IsValidIndexingProfile p := String.eqb p "control";
  float_int_out_of_range _ := None;
  Sprint_other _ := "?"%string;
  EntityReferenceDatatype := "entity_id"%string;
  TerminateDelivery err := ClassifiedError "terminate" EmptyString (Some err);
  Error_text _ := "error"%string
}.

#[export] Instance mem_substrate_laws : SubstrateLaws.
Proof.
  split; cbn.
  - lia.
  - unfold mem_ValidateEntityID. intros s Hr. apply require_ok in Hr.
    repeat (apply andb_true_iff in Hr as [Hr ?]). by apply Nat.eqb_eq.
  - unfold mem_ValidateEntityID. intros s Hr. apply require_ok in Hr.
    repeat (apply andb_true_iff in Hr as [Hr ?]). by apply Z.leb_le.
  - unfold mem_ValidateEntityID. intros s Hr. apply require_ok in Hr.
    repeat (apply andb_true_iff in Hr as [Hr ?]). intros ->. done.
  - intros s Hs. unfold mem_ParseEntityID. rewrite Hs. cbn -[Split].
    unfold mem_ValidateEntityID in Hs. apply require_ok in Hs.
    repeat (apply andb_true_iff in Hs as [Hs ?]). apply Nat.eqb_eq in Hs.
    destruct (Split dot s) as [|a [|b [|c [|d [|e [|f [|g l]]]]]]]; try discriminate. by eexists.
  - intros s id. unfold mem_ParseEntityID. destruct (mem_ValidateEntityID s); [|discriminate].
    cbn -[Split]. intros Hid. 
    destruct (Split dot s) as [|a1 [|b [|c [|d [|e [|f [|g l]]]]]]]; try discriminate Hid.
    by injection Hid as <-.
  - intros p d c q. unfold mem_ParsePredicate.
    destruct (Split dot p) as [|a [|b [|e [|f l]]]] eqn:E; try naive_solver.
    destruct (forallb _ _); naive_solver.
Qed.

#[export] Instance mem_vocabulary_laws : VocabularyLaws.
Proof.
  split.
  - apply _.
  - apply mem_false. vm_compute. reflexivity.
  - intros p Hp.
    assert (Hall : forallb (fun p => is_ok (ParsePredicate p)) allPredicates = true) by (vm_compute; reflexivity).
    rewrite forallb_forall in Hall. apply is_ok_ok, Hall. by apply list_elem_of_In.
Qed.

(** ** The world *)

(** What happens to one mutation: it commits; it is refused before it commits;
    or its outcome is unknown, committed or not. *)
Inductive fault : Type := Commits | Refused | UnknownCommitted | UnknownLost.

Record World : Type := mkWorld {
  w_graph : graph;
  w_clock : time;
  w_faults : list fault;
  w_published : list stageTrigger
}.

#[export] Instance world_graph : HasGraph World := {| graph_of := w_graph |}.

Definition next_fault (w : World) : fault * World :=
  match w_faults w with
  | [] => (Commits, w)
  | f :: rest => (f, mkWorld (w_graph w) (w_clock w) rest (w_published w))
  end.

Definition set_graph (g : graph) (w : World) : World :=
  mkWorld g (w_clock w) (w_faults w) (w_published w).

Definition mutate {A} (entity : A) (g : graph) : MW World A := fun w =>
  let '(f, w) := next_fault w in
  match f with
  | Commits => (Ok entity, set_graph g w)
  | Refused => (Err (ClassifiedError "transient" "refused" None), w)
  | UnknownCommitted => (Err (MutationError MutationCommitUnknown CommitUnknownState None), set_graph g w)
  | UnknownLost => (Err (MutationError MutationCommitUnknown CommitUnknownState None), w)
  end.

Definition indexing_triple (e : EntityState) : Triple := {|
  Subject := ID e; Predicate := EntityIndexingProfile; Object := AString "control";
  Source := "graph-ingest-indexing-profile"; Timestamp := UpdatedAt e; Confidence := float_one;
  Context_ := EmptyString; Datatype := EmptyString; ExpiresAt := None |}.

Definition with_triples (e : EntityState) (l : list Triple) : EntityState := {|
  ID := ID e; MsgType := MsgType e; EVersion := EVersion e; UpdatedAt := UpdatedAt e;
  StorageRef := StorageRef e; Triples := l |}.

Definition mem_Create (contract : string) (bare : EntityState) (triples : list Triple)
    : MW World ExactEntity := fun w =>
  match w_graph w !! ID bare with
  | Some _ => (Err (MutationError MutationConflict CommitUnknownState None), w)
  | None =>
      let e := with_triples bare (triples ++ [indexing_triple bare]) in
      mutate {| x_Entity := Some e; x_KVRevision := 1 |} (<[ID bare := e]> (w_graph w)) w
  end.

Definition mem_Reconcile (contract group id : string) (desired : list Triple)
    : MW World ExactEntity := fun w =>
  let predicates := Predicates {| Contract := contract; Group := group |} in
  match w_graph w !! id with
  | None => (Err (MutationError MutationNotFound CommitUnknownState None), w)
  | Some e0 =>
      if forallb (in_group predicates) desired then
        let e := with_triples e0 (other_triples predicates (Triples e0) ++ desired) in
        mutate {| x_Entity := Some e; x_KVRevision := 1 |} (<[id := e]> (w_graph w)) w
      else (Err (ClassifiedError "invalid" "predicate_outside_group" None), w)
  end.

Definition mem_Read (id : string) : MW World (option ExactEntity) := fun w =>
  match w_graph w !! id with
  | Some e => (Ok (Some {| x_Entity := Some e; x_KVRevision := 1 |}), w)
  | None => (Err (MutationError MutationNotFound CommitUnknownState None), w)
  end.

#[export] Instance mem_client : MutationClient World := {|
  client_Create := mem_Create; client_Reconcile := mem_Reconcile; ReadAuthoritative := mem_Read |}.

Definition marshal_key (t : Triple) : string :=
  Predicate t +:+ match Object t with AString s => s | _ => EmptyString end.

#[export] Instance mem_params : GraphIOParams := {|
  marshal_Triple := marshal_key; ValidateEntityStateContract := fun _ => Ok tt |}.

#[export] Instance mem_clock : Clock World := {|
  now w := (w_clock w, mkWorld (w_graph w) (w_clock w + 1) (w_faults w) (w_published w)) |}.

#[export] Instance mem_actions : ActionStore World := {|
  PutAction turnEntityID action w := (Ok {| Instance_ := "content"; Key := "turn/action" |}, w) |}.

#[export] Instance mem_seeds : Minter World := {|
  newSeed w := (Ok (repeat (w_clock w mod 255 + 1) SeedBytes), w) |}.

#[export] Instance mem_waits : Waits World := {|
  pause d w := (Ok tt, mkWorld (w_graph w) (w_clock w + d) (w_faults w) (w_published w)) |}.

(** Instants are written in binary, the sign first. *)
Fixpoint bits_of (p : positive) : string :=
  match p with xH => "1" | xO p => String "0" (bits_of p) | xI p => String "1" (bits_of p) end.

Fixpoint bits_to (s : string) : option positive :=
  match s with
  | EmptyString => None
  | String "1" EmptyString => Some xH
  | String "1" s => xI <$> bits_to s
  | String "0" s => xO <$> bits_to s
  | String _ _ => None
  end.

#[export] Instance mem_time_text : TimeText := {|
  FormatRFC3339Nano t :=
    match t with Z0 => "z" | Zpos p => String "+" (bits_of p) | Zneg p => String "-" (bits_of p) end;
  ParseRFC3339Nano s :=
    match s with
    | String "z" EmptyString => Some 0
    | String "+" s => Zpos <$> bits_to s
    | String "-" s => Zneg <$> bits_to s
    | _ => None
    end |}.

(** ** The laws hold *)

Lemma group_triples_all group l : forallb (in_group group) l = true -> group_triples group l = l.
Proof.
  unfold group_triples. induction l as [|t l IH]; cbn; [done|].
  intros [-> Hl]%andb_true_iff. by rewrite IH.
Qed.

Lemma other_triples_all group l : forallb (in_group group) l = true -> other_triples group l = [].
Proof.
  unfold other_triples. induction l as [|t l IH]; cbn; [done|].
  intros [-> Hl]%andb_true_iff. by apply IH.
Qed.

Lemma group_other group l :
  group_triples group (other_triples group l) = [] /\
  other_triples group (other_triples group l) = other_triples group l.
Proof.
  unfold group_triples, other_triples. induction l as [|t l [IH1 IH2]]; [done|].
  cbn. destruct (in_group group t) eqn:E; cbn; [done|]. rewrite E. cbn. by rewrite IH1, IH2.
Qed.

Lemma mem_reconciled group desired e0 :
  forallb (in_group group) desired = true ->
  reconciled group desired e0 (with_triples e0 (other_triples group (Triples e0) ++ desired)).
Proof.
  intros Hd. destruct (group_other group (Triples e0)) as [Hg Ho].
  split; [done|]. cbn [with_triples Triples]. split.
  - unfold other_triples in *. rewrite List.filter_app, Ho.
    pose proof (other_triples_all _ _ Hd) as Hn. unfold other_triples in Hn. by rewrite Hn, app_nil_r.
  - unfold group_triples in *. rewrite List.filter_app, Hg. cbn.
    pose proof (group_triples_all _ _ Hd) as Hn. unfold group_triples in Hn. by rewrite Hn.
Qed.

Lemma mem_born bare triples :
  born {| ID := ID bare; MsgType := MsgType bare; EVersion := EVersion bare;
          UpdatedAt := UpdatedAt bare; StorageRef := StorageRef bare; Triples := triples |}
    (with_triples bare (triples ++ [indexing_triple bare])).
Proof.
  split; [done|]. intros p Hp. unfold objectsFor. cbn [with_triples Triples].
  rewrite triplesFor_app. unfold triplesFor at 2. cbn -[String.eqb EntityIndexingProfile].
  apply not_eq_sym, String.eqb_neq in Hp. by rewrite Hp, app_nil_r.
Qed.

Lemma mutate_graph {A} (a : A) g w r w' :
  mutate a g w = (r, w') ->
  (w_graph w' = w_graph w \/ w_graph w' = g) /\
  match r with
  | Ok b => b = a /\ w_graph w' = g
  | Err err => upstream err /\ mutation_kind MutationConflict err = false
  end.
Proof.
  unfold mutate, next_fault. destruct w as [g0 c fs p]; cbn.
  destruct fs as [|[] fs]; cbn; intros [= <- <-]; cbn; repeat split; auto.
Qed.

#[export] Instance mem_client_laws : MutationClientLaws (W := World).
Proof.
  split.
  - intros id w. unfold wp. cbn. unfold mem_Read.
    destruct (w_graph w !! id) as [e|] eqn:E; cbn; (split; [done|]).
    + by intros e' [= <-].
    + by repeat split.
  - intros contract bare triples w want. unfold wp. cbn [client_Create mem_client]. unfold mem_Create.
    destruct (w_graph w !! ID bare) as [e|] eqn:E; cbn [fst snd].
    { split; [by left|]. split; [done|]. intros _. split; [done|]. cbn. by rewrite E. }
    destruct (mutate _ _ w) as [r w'] eqn:Em. cbn [fst snd].
    apply mutate_graph in Em as [Hg Hr]. cbn [graph_of world_graph]. split.
    { destruct Hg as [Hg|Hg]; [by left|]. right. split; [done|].
      eexists. split; [apply mem_born|]. by rewrite Hg. }
    destruct r as [x|err].
    + destruct Hr as [-> Hr]. intros e' [= <-]. split; [apply mem_born|].
      rewrite Hr. apply lookup_insert_eq.
    + destruct Hr as [Hu ->]. done.
  - intros [c gr] id desired w. unfold wp. cbn [client_Reconcile mem_client Contract Group]. unfold mem_Reconcile.
    destruct (w_graph w !! id) as [e0|] eqn:E; cbn [fst snd]; [|by left].
    destruct (forallb _ _) eqn:Ef; cbn [fst snd]; [|by left].
    destruct (mutate _ _ w) as [r w'] eqn:Em. cbn [fst snd].
    apply mutate_graph in Em as [Hg Hr]. cbn [graph_of world_graph].
    assert (Heff : w_graph w' = <[id := with_triples e0 (other_triples (Predicates {| Contract := c; Group := gr |}) (Triples e0) ++ desired)]> (w_graph w) ->
      reconcile_effect {| Contract := c; Group := gr |} id desired (w_graph w) (w_graph w')).
    { intros Hw. eexists _, _. split; [done|]. split; [by apply mem_reconciled|done]. }
    destruct r as [x|err].
    + destruct Hr as [-> Hr]. split; [by apply Heff|]. intros e' [= <-]. rewrite Hr. apply lookup_insert_eq.
    + destruct Hg as [Hg|Hg]; [by left|right; by apply Heff].
Qed.

#[export] Instance mem_validator_laws : ValidatorLaws.
Proof. by split. Qed.

#[export] Instance mem_store_laws : GraphStoreLaws World.
Proof. by apply graphio_laws. Qed.

#[export] Instance mem_action_laws : ActionStoreLaws World.
Proof. by split. Qed.

(** ** A small world the witnesses run in *)

Module Demo.
Definition identity : Identity := {| Org := "acme"; WorldNS := "barrow"; Template := "case" |}.
Definition player_id : string := "acme.semmachina.barrow.case.player.ada".
Definition turn_id : string := "acme.semmachina.barrow.case.turn.turn-a1".

Definition bare (id : string) : EntityState := {|
  ID := id; MsgType := TurnEntityMessageType; EVersion := 1; UpdatedAt := 0; StorageRef := None;
  Triples := [] |}.

Definition action : PlayerAction := {|
  pa_ActionID := "a1"; pa_PlayerID := player_id;
  pa_CampaignID := "acme.semmachina.barrow.case.campaign.main";
  pa_SceneID := "acme.semmachina.barrow.case.scene.hall";
  pa_Text := "I search the hall"; pa_ArrivedAt := 5;
  pa_Channel := {| Adapter := "websocket"; ReplyTo := "ada" |} |}.

(** One player, no turn yet. *)
Definition world (faults : list fault) : World :=
  mkWorld {[ player_id := bare player_id ]} 10 faults [].

(** The world after the player's first action was accepted. *)
Definition accepted : World := (Accept identity action (world [])).2.

(** A graph with one player and one turn in a given phase. *)
Definition string_triple (id p o : string) : Triple := {|
  Subject := id; Predicate := p; Object := AString o; Source := "demo"; Timestamp := 1;
  Confidence := float_one; Context_ := id; Datatype := EmptyString; ExpiresAt := None |}.

Definition turn_in (phase : string) : EntityState :=
  with_triples (bare turn_id)
    [string_triple turn_id TurnPhaseCurrent phase; string_triple turn_id TurnActionPlayer player_id].

Definition turn_world (phase : string) (faults : list fault) : World :=
  mkWorld {[ player_id := bare player_id; turn_id := turn_in phase ]} 10 faults [].

(** The player's earlier turn is being narrated when their next action arrives. *)
Definition other_turn_id : string := "acme.semmachina.barrow.case.turn.turn-a0".
Definition busy_world : World :=
  mkWorld {[ player_id := with_triples (bare player_id)
               [string_triple player_id PlayerTurnCurrent other_turn_id];
             other_turn_id := with_triples (bare other_turn_id)
               [string_triple other_turn_id TurnPhaseCurrent PhaseNarrating] ]} 10 [] [].
End Demo.
