(* ===== verification/TurnSpec.v ===== *)
(** The recorder's guarantees: the turn FSM as an abstract transition relation
    on graphs, every recorder operation as a step of it under arbitrary store
    faults, and what follows for the turns of any run. *)

From S2P Require Import Prelude GoStd GoErrors Graph Vocab Vocabulary Payload ContentRecords ProjectionContract Store GraphIO Turn MemStore.

Open Scope Z_scope.

(** ** The abstract state of a turn *)

Section abstract.
Context `{Substrate}.

(** The phase a graph records for a turn; [None] when the turn is absent or
    its record is unreadable. *)
Definition phase_in (g : graph) (id : string) : option string :=
  match g !! id with
  | Some e => match PhaseOf (Some e) id with Ok p => Some p | Err _ => None end
  | None => None
  end.

Definition reasons_in (g : graph) (id : string) : option (list any) :=
  objects_in g id TurnFailureReason.

(** One move of one turn: it stays, is born accepted, follows an edge of the
    phase table without a reason, or fails along an edge with a closed reason. *)
Inductive turn_moves (g g' : graph) (id : string) : Prop :=
| move_stay :
    objects_in g' id TurnPhaseCurrent = objects_in g id TurnPhaseCurrent ->
    reasons_in g' id = reasons_in g id -> turn_moves g g' id
| move_born :
    g !! id = None -> phase_in g' id = Some PhaseAccepted -> reasons_in g' id = Some [] ->
    turn_moves g g' id
| move_advance p p' :
    phase_in g id = Some p -> phase_in g' id = Some p' -> PhaseFollows p p' = true ->
    p' <> PhaseFailed -> reasons_in g' id = Some [] -> turn_moves g g' id
| move_fail p r :
    phase_in g id = Some p -> phase_in g' id = Some PhaseFailed ->
    PhaseFollows p PhaseFailed = true -> r ∈ enum_values failureReasonEnum ->
    reasons_in g' id = Some [AString r] -> turn_moves g g' id.

(** A turn on the record: failed with exactly one closed reason, or in another
    phase with none. *)
Definition turn_wf (g : graph) (id : string) : Prop :=
  match phase_in g id with
  | None => True
  | Some p =>
      if String.eqb p PhaseFailed
      then exists r, reasons_in g id = Some [AString r] /\ r ∈ enum_values failureReasonEnum
      else reasons_in g id = Some []
  end.

Lemma PhaseOf_objects e1 e2 id :
  objectsFor e1 TurnPhaseCurrent = objectsFor e2 TurnPhaseCurrent ->
  PhaseOf (Some e1) id = PhaseOf (Some e2) id.
Proof. intros E. unfold PhaseOf. by rewrite E. Qed.

Lemma phase_in_objects g g' id :
  objects_in g' id TurnPhaseCurrent = objects_in g id TurnPhaseCurrent ->
  phase_in g' id = phase_in g id.
Proof.
  unfold objects_in, phase_in. intros E.
  destruct (g !! id) as [e|], (g' !! id) as [e'|]; try done.
  apply (inj Some) in E. by rewrite (PhaseOf_objects e' e id E).
Qed.

Lemma phase_in_single g id p :
  objects_in g id TurnPhaseCurrent = Some [AString p] -> p ∈ enum_values turnPhaseEnum ->
  phase_in g id = Some p.
Proof.
  unfold objects_in, phase_in. intros E Hp. destruct (g !! id) as [e|]; [|done].
  apply (inj Some) in E. unfold PhaseOf. rewrite E. unfold ParseTurnPhase, enum_parse.
  by rewrite (proj2 (enum_valid_elem turnPhaseEnum p) Hp).
Qed.

Lemma PhaseOf_known e id p : PhaseOf (Some e) id = Ok p -> p ∈ enum_values turnPhaseEnum.
Proof.
  unfold PhaseOf. destruct (objectsFor e TurnPhaseCurrent) as [|[] [|]]; try done.
  destruct (ParseTurnPhase s) eqn:E; [|done]. intros [= <-].
  by apply enum_parse_ok in E as [-> ?].
Qed.

Lemma phase_in_known g id p : phase_in g id = Some p -> p ∈ enum_values turnPhaseEnum.
Proof.
  unfold phase_in. destruct (g !! id) as [e|]; [|done].
  destruct (PhaseOf (Some e) id) eqn:E; [|done]. intros [= <-]. by eapply PhaseOf_known.
Qed.

Lemma moves_keep g g' id :
  keeps TurnPhaseCurrent g g' -> keeps TurnFailureReason g g' -> turn_moves g g' id.
Proof. intros Hp Hr. apply move_stay; [apply Hp|apply Hr]. Qed.

Lemma moves_then_keep g g1 g2 id :
  turn_moves g g1 id -> keeps TurnPhaseCurrent g1 g2 -> keeps TurnFailureReason g1 g2 ->
  turn_moves g g2 id.
Proof.
  intros Hm Hp Hr. specialize (Hp id). specialize (Hr id). pose proof (phase_in_objects _ _ _ Hp) as Hph.
  fold (reasons_in g2 id) (reasons_in g1 id) in Hr.
  destruct Hm; rewrite <- ?Hph, <- ?Hr in *.
  - apply move_stay; congruence.
  - by apply move_born.
  - by eapply move_advance.
  - by eapply move_fail.
Qed.

Lemma turn_wf_moves g g' id : turn_moves g g' id -> turn_wf g id -> turn_wf g' id.
Proof.
  unfold turn_wf. intros [Hp Hr|_ -> Hr|p p' _ -> _ Hne Hr|p r _ -> _ Hin Hr] Hwf.
  - rewrite (phase_in_objects _ _ _ Hp). unfold reasons_in in *. by rewrite Hr.
  - done.
  - apply String.eqb_neq in Hne. by rewrite Hne.
  - cbn. eauto.
Qed.
End abstract.

(** ** Every recorder operation is a move of every turn *)

Section recorder.
Context {W : Type} `{Substrate, HasGraph W, GraphStore W, Clock W, ActionStore W}.
Context `{!GraphStoreLaws W, !ActionStoreLaws W, !VocabularyLaws}.
Implicit Types (w : W).

(** A write that touches nothing but [q]. *)
Definition only (q : string) (g g' : graph) : Prop := forall p, p <> q -> keeps p g g'.

Lemma only_refl q g : only q g g.
Proof. by intros p _ id. Qed.

Lemma only_turn q g g' id :
  q <> TurnPhaseCurrent -> q <> TurnFailureReason -> only q g g' -> turn_moves g g' id.
Proof. intros ? ? Ho. apply moves_keep; by apply Ho, not_eq_sym. Qed.

Lemma only_reconcile target q id ts g g' :
  Predicates target = [q] -> reconcile_effect target id ts g g' -> only q g g'.
Proof.
  intros Hq He p Hp. eapply reconcile_keeps; [done|]. rewrite Hq. set_solver.
Qed.

(** Reading the graph: what an [attempt (GetEntity id)] continues with. *)
Lemma wp_get {A} id (k : res EntityState -> MW W A) Q w :
  (forall r w', graph_of w' = graph_of w ->
     match r with
     | Ok e => graph_of w !! id = Some e
     | Err err => errors_Is ErrEntityNotFound err = true -> graph_of w !! id = None
     end -> wp (k r) Q w') ->
  wp (r ← attempt (GetEntity id); k r) Q w.
Proof.
  intros Hk. apply wp_bind, wp_attempt. eapply wp_mono; [apply GetEntity_spec|].
  intros r w' [Hg Hr]. by apply Hk.
Qed.

Lemma wp_clock {A} (k : time -> MW W A) Q w :
  (forall t w', graph_of w' = graph_of w -> wp (k t) Q w') -> wp (t ← read_clock; k t) Q w.
Proof. intros Hk. apply wp_bind, read_clock_spec. intros. by apply Hk. Qed.

Lemma wp_lift_bind {A B} (r : res A) (k : A -> MW W B) (Q : res B -> W -> Prop) w :
  (forall a, r = Ok a -> wp (k a) Q w) -> (forall e, r = Err e -> Q (Err e) w) ->
  wp (a ← lift r; k a) Q w.
Proof. intros Hk He. apply wp_bind, wp_lift. destruct r; auto. Qed.

Lemma currentState_spec id w :
  wp (currentState id) (fun r w' => graph_of w' = graph_of w /\
    match r with
    | Ok (e, p) => graph_of w !! id = Some e /\ PhaseOf (Some e) id = Ok p
    | Err _ => True
    end) w.
Proof.
  unfold currentState. apply wp_get. intros [e|err] w1 Hg Hr; wp_steps; [|by rewrite Hg].
  by destruct (PhaseOf (Some e) id) eqn:E; wp_steps.
Qed.

Lemma turnIsLive_spec id w :
  wp (turnIsLive id) (fun r w' => graph_of w' = graph_of w /\
    match r with
    | Ok true => exists p, phase_in (graph_of w) id = Some p /\ IsTerminal p = false
    | Ok false => forall p, phase_in (graph_of w) id = Some p -> IsTerminal p = true
    | Err _ => True
    end) w.
Proof.
  unfold turnIsLive. apply wp_get. intros [e|err] w1 Hg Hr.
  - unfold phase_in. rewrite Hr. destruct (PhaseOf (Some e) id) as [p|err].
    + wp_steps. split; [done|]. destruct (IsTerminal p) eqn:Et; cbn; naive_solver.
    + destruct (errors_As_b _ _); wp_steps; done.
  - destruct (errors_Is _ _); wp_steps; [|done]. split; [done|].
    unfold phase_in. by rewrite Hr.
Qed.

Lemma anyLive_spec held except w :
  wp (anyLive held except) (fun r w' => graph_of w' = graph_of w /\
    match r with
    | Ok true => exists id p, id ∈ held /\ id <> except /\
        phase_in (graph_of w) id = Some p /\ IsTerminal p = false
    | Ok false => forall id p, id ∈ held -> id <> except ->
        phase_in (graph_of w) id = Some p -> IsTerminal p = true
    | Err _ => True
    end) w.
Proof.
  revert w. induction held as [|t held IH]; intros w; cbn [anyLive].
  { apply wp_ret. split; [done|]. by intros id p ?%not_elem_of_nil. }
  destruct (String.eqb_spec t except) as [->|Hne].
  - eapply wp_mono; [apply IH|]. intros [[]|] w' [Hg Hr]; (split; [done|]); [set_solver| |done].
    intros id p [->|?]%elem_of_cons; [done|eauto].
  - apply wp_bind. eapply wp_mono; [apply turnIsLive_spec|].
    intros [[]|err] w1 [Hg Hr]; [| |done].
    + apply wp_ret. split; [done|]. destruct Hr as (p & ? & ?). exists t, p. set_solver.
    + eapply wp_mono; [apply IH|]. rewrite Hg. intros [[]|] w' [Hg' Hr']; (split; [done|]); [set_solver| |done].
      intros id p [->|?]%elem_of_cons; eauto.
Qed.

(** The live turn that keeps a player's pointer where it is. *)
Definition other_live (g : graph) (player except : string) : Prop :=
  exists e id p, g !! player = Some e /\ id ∈ (HeldTurns (Some e)).1 /\ id <> except /\
    phase_in g id = Some p /\ IsTerminal p = false.

Lemma holdsAnotherLiveTurn_spec player except w :
  wp (holdsAnotherLiveTurn player except) (fun r w' => graph_of w' = graph_of w /\
    match r with
    | Ok b => b = true <-> other_live (graph_of w) player except
    | Err _ => True
    end) w.
Proof.
  unfold holdsAnotherLiveTurn, other_live. apply wp_get. intros [e|err] w1 Hg Hr.
  - eapply wp_mono; [apply anyLive_spec|]. rewrite Hg.
    intros [[]|] w' [Hg' Hr']; (split; [done|]); [| |done].
    + split; [|done]. intros _. destruct Hr' as (id & p & ?). by exists e, id, p.
    + split; [done|]. intros (e' & id & p & He & Hin & Hne & Hp & Ht).
      assert (e' = e) as -> by congruence. rewrite (Hr' id p) in Ht; done.
  - destruct (errors_Is _ _); wp_steps; [|done].
    do 2 (split; [done|]). intros (e & id & p & He & _). rewrite Hr in He; done.
Qed.

Lemma elem_objects l (o : any) : l ≡ₚ [o] -> l = [o].
Proof. by intros ?%Permutation_singleton_r. Qed.

(** A reconcile of [target] that projects exactly one object for [p] leaves
    exactly that object. *)
Lemma reconcile_single target id ts g g' p o :
  reconcile_effect target id ts g g' -> p ∈ Predicates target ->
  objects_of p (map (fun t => (Predicate t, Object t)) ts) = [o] ->
  objects_in g' id p = Some [o].
Proof.
  intros He Hp Ho. destruct (reconcile_writes _ _ _ _ _ _ He Hp) as (l & Hl & Hperm).
  rewrite objects_of_triples, Ho in Hperm. by apply elem_objects in Hperm as ->.
Qed.

Lemma reconcile_none target id ts g g' p :
  reconcile_effect target id ts g g' -> p ∈ Predicates target ->
  objects_of p (map (fun t => (Predicate t, Object t)) ts) = [] ->
  objects_in g' id p = Some [].
Proof.
  intros He Hp Ho. destruct (reconcile_writes _ _ _ _ _ _ He Hp) as (l & Hl & Hperm).
  rewrite objects_of_triples, Ho in Hperm. by apply Permutation_nil_r in Hperm as ->.
Qed.

(** The player's current-turn pointer after a write that succeeded. *)
Definition points_at (predicate : string) (g : graph) (player turn : string) : Prop :=
  objects_in g player predicate = Some [AString turn].

Lemma pointPlayerAtTurn_spec player acceptance w :
  wp (pointPlayerAtTurn player acceptance) (fun r w' =>
    only PlayerTurnCurrent (graph_of w) (graph_of w') /\
    (other_live (graph_of w) player (a_TurnEntityID acceptance) -> graph_of w' = graph_of w) /\
    match r with
    | Ok _ => IsTerminal (a_Phase acceptance) = true \/
        other_live (graph_of w) player (a_TurnEntityID acceptance) \/
        points_at PlayerTurnCurrent (graph_of w') player (a_TurnEntityID acceptance)
    | Err _ => True
    end) w.
Proof.
  unfold pointPlayerAtTurn. destruct (IsTerminal _).
  { apply wp_ret. split_and!; [apply only_refl|done|by left]. }
  apply wp_bind. eapply wp_mono; [apply holdsAnotherLiveTurn_spec|].
  intros [late|err] w1 [Hg Hlate]; [|rewrite Hg; split_and!; [apply only_refl|done..]].
  destruct late.
  { apply wp_ret. rewrite Hg. split_and!; [apply only_refl|done|]. right. left. by apply Hlate. }
  apply wp_clock. intros t w2 Hg2. rewrite <- Hg in *. rewrite <- Hg2 in *.
  assert (Hno : ~ other_live (graph_of w2) player (a_TurnEntityID acceptance)).
  { intros Hol%Hlate. done. }
  apply wp_lift_bind; [|intros; split_and!; [apply only_refl|done..]]. intros ts Hts.
  apply PlayerTurn_Triples_ok in Hts. apply wp_bind, wp_attempt.
  eapply wp_mono; [apply Reconcile_spec|]. intros [e|err] w3 Hr; wp_steps.
  - destruct Hr as [He _]. split_and!; [|done|].
    + eapply only_reconcile; [|done]. by autorewrite with contracts.
    + right. right. eapply reconcile_single; [done|in_target|].
      by rewrite Hts.
  - split_and!; [|done..]. destruct Hr as [->|He]; [apply only_refl|].
    eapply only_reconcile; [|done]. by autorewrite with contracts.
Qed.

Lemma writeResolvedPointer_spec message player turnID turn w :
  wp (writeResolvedPointer message player turnID turn) (fun r w' =>
    only PlayerTurnResolved (graph_of w) (graph_of w') /\
    match r with
    | Ok _ => points_at PlayerTurnResolved (graph_of w') player turn
    | Err _ => True
    end) w.
Proof.
  unfold writeResolvedPointer. apply wp_clock. intros t w2 <-.
  apply wp_lift_bind; [|intros; split; [apply only_refl|done]]. intros ts Hts.
  apply PlayerResolvedTurn_Triples_ok in Hts. apply wp_bind, wp_attempt.
  eapply wp_mono; [apply Reconcile_spec|]. intros [e|err] w3 Hr; wp_steps.
  - destruct Hr as [He _]. split.
    + eapply only_reconcile; [|done]. by autorewrite with contracts.
    + eapply reconcile_single; [done|in_target|]. by rewrite Hts.
  - split; [|done]. destruct Hr as [->|He]; [apply only_refl|].
    eapply only_reconcile; [|done]. by autorewrite with contracts.
Qed.

Lemma repairResolvedPointer_spec e turnID turn w :
  wp (repairResolvedPointer e turnID turn) (fun r w' =>
    only PlayerTurnResolved (graph_of w) (graph_of w')) w.
Proof.
  unfold repairResolvedPointer. apply wp_lift_bind; [|intros; apply only_refl]. intros player _.
  apply wp_get. intros [p|err] w1 <- _.
  - repeat case_match; wp_steps; try apply only_refl.
    eapply wp_mono; [apply writeResolvedPointer_spec|]. by intros ? ? [? _].
  - case_match; wp_steps; apply only_refl.
Qed.

(** The failure reasons a turn in phase [to] records. *)
Definition reasons_for (to reason : string) : list any :=
  if String.eqb to PhaseFailed then [AString reason] else [].

(** What a phase write puts on the turn. *)
Lemma phase_write_moves g g' turn e previous to reason turnID detail source at_ ts :
  g !! turn = Some e -> PhaseOf (Some e) turn = Ok previous -> PhaseFollows previous to = true ->
  TurnState_Triples {| ts_TurnID := turnID; ts_Phase := to; ts_PlayerID := EmptyString;
      ts_SceneID := EmptyString; ts_ActionRef := EmptyString; ts_Reason := reason;
      ts_DetailRef := detail |} turn source at_ = Ok ts ->
  reconcile_effect TurnPhaseState turn ts g g' ->
  (forall id, turn_moves g g' id) /\ phase_in g' turn = Some to /\
  reasons_in g' turn = Some (reasons_for to reason).
Proof.
  intros Hg Hprev Hf Hts He.
  assert (Hna : to <> PhaseAccepted) by (intros ->; vm_compute in Hf; discriminate).
  assert (Hto : to ∈ enum_values turnPhaseEnum).
  { apply PhaseFollows_cases in Hf as (? & ? & _ & ?%PhaseRank_phases & _). done. }
  assert (Hold : phase_in g turn = Some previous) by (unfold phase_in; by rewrite Hg, Hprev).
  assert (Hin : forall p o, p ∈ Predicates TurnPhaseState ->
    objects_of p (map (fun t => (Predicate t, Object t)) ts) = [o] -> objects_in g' turn p = Some [o]).
  { intros p o. eapply reconcile_single, He. }
  assert (Hmove : turn_moves g g' turn /\ phase_in g' turn = Some to /\
    reasons_in g' turn = Some (reasons_for to reason)).
  { destruct (decide (to = PhaseFailed)) as [->|Hnf].
    - pose proof Hts as Hshape. apply TurnState_Triples_failed in Hshape as [Hr Hshape]; [|done].
      cbn [ts_Reason ts_DetailRef] in *.
      assert (phase_in g' turn = Some PhaseFailed).
      { apply phase_in_single; [|done]. apply Hin; [in_target|].
        rewrite Hshape. by destruct (String.eqb _ _). }
      assert (reasons_in g' turn = Some [AString reason]).
      { apply Hin; [in_target|]. rewrite Hshape. by destruct (String.eqb _ _). }
      split; [|done]. by apply (move_fail _ _ _ previous reason).
    - pose proof Hts as Hshape. apply TurnState_Triples_other in Hshape; [|done..]. cbn [ts_Phase] in Hshape.
      assert (phase_in g' turn = Some to).
      { apply phase_in_single; [|done]. apply Hin; [in_target|]. by rewrite Hshape. }
      assert (reasons_in g' turn = Some []).
      { eapply reconcile_none; [done|in_target|]. by rewrite Hshape. }
      unfold reasons_for. rewrite (proj2 (String.eqb_neq to PhaseFailed) Hnf).
      split; [|done]. by apply (move_advance _ _ _ previous to). }
  split; [|apply Hmove]. intros id. destruct (decide (id = turn)) as [->|Hne]; [apply Hmove|].
  pose proof (reconcile_other _ _ _ _ _ _ He Hne) as Hsame.
  apply move_stay; unfold reasons_in, objects_in; by rewrite Hsame.
Qed.

Lemma only_phase q g g' id :
  q <> TurnPhaseCurrent -> only q g g' -> phase_in g' id = phase_in g id.
Proof. intros Hq Ho. apply phase_in_objects, Ho. by apply not_eq_sym. Qed.

Lemma only_moves q g g1 g2 id :
  q <> TurnPhaseCurrent -> q <> TurnFailureReason -> turn_moves g g1 id -> only q g1 g2 ->
  turn_moves g g2 id.
Proof. intros ?? Hm Ho. eapply moves_then_keep; [done|apply Ho; by apply not_eq_sym..]. Qed.

(** What a transition that returned promises. *)
Definition transition_post (g g' : graph) (turn to reason : string) (tr : Transition) : Prop :=
  phase_in g turn = Some (Previous tr) /\ phase_in g' turn = Some (Phase tr) /\
  classify (Previous tr) to = (Outcome tr, EmptyString) /\
  (Outcome tr = OutcomeAdvanced -> Phase tr = to /\
     reasons_in g' turn = Some (reasons_for to reason) /\
     (IsTerminal to = true -> exists e player, g !! turn = Some e /\
        playerOf e turn = Ok player /\ points_at PlayerTurnResolved g' player turn)) /\
  (Outcome tr <> OutcomeAdvanced -> only PlayerTurnResolved g g' /\ Phase tr = Previous tr).

Lemma classify_advanced previous to :
  classify previous to = (OutcomeAdvanced, EmptyString) -> PhaseFollows previous to = true.
Proof.
  unfold classify. repeat case_match; intros Hc; try done; exfalso; vm_compute in Hc; discriminate.
Qed.

Lemma transition_spec turnID turn to reason detail w :
  wp (transition turnID turn to reason detail) (fun r w' =>
    (forall id, turn_moves (graph_of w) (graph_of w') id) /\
    match r with Ok tr => transition_post (graph_of w) (graph_of w') turn to reason tr | Err _ => True end) w.
Proof.
  assert (Hstay : forall g id, turn_moves g g id).
  { intros. apply (only_turn PlayerTurnCurrent); [done..|apply only_refl]. }
  unfold transition. apply wp_lift_bind; [|intros; split; [done|done]]. intros _ _.
  apply wp_bind. eapply wp_mono; [apply currentState_spec|].
  intros [[e previous]|err] w1 [<- Hcur]; [|done]. destruct Hcur as [Hg Hprev].
  assert (Hold : phase_in (graph_of w1) turn = Some previous) by (unfold phase_in; by rewrite Hg, Hprev).
  destruct (classify previous to) as [outcome fault] eqn:Hc.
  destruct (String.eqb_spec fault EmptyString) as [->|_]; cbn [negb]; [|by apply wp_throw].
  destruct (String.eqb_spec outcome OutcomeAdvanced) as [->|Hno]; cbn [negb].
  - pose proof (classify_advanced _ _ Hc) as Hf.
    apply wp_clock. intros t w2 Hw. apply wp_lift_bind; [|by intros; rewrite Hw]. intros ts Hts.
    apply wp_bind, wp_attempt. eapply wp_mono; [apply Reconcile_spec|]. rewrite Hw.
    intros [e'|err] w3 Hr.
    + destruct Hr as [He _].
      destruct (phase_write_moves _ _ _ _ _ _ _ _ _ _ _ _ Hg Hprev Hf Hts He) as (Hm & Hp & Hreason).
      apply wp_bind. destruct (IsTerminal to) eqn:Hterm.
      * unfold pointPlayerAtResolvedTurn. apply wp_lift_bind; [|done]. intros player Hpl.
        eapply wp_mono; [apply writeResolvedPointer_spec|]. intros [[]|err] w4 [Ho Hpt].
        -- apply wp_ret. split; [intros id; exact (only_moves PlayerTurnResolved _ _ _ id ltac:(discriminate) ltac:(discriminate) (Hm id) Ho)|].
           split_and!; cbn; [done|rewrite (only_phase PlayerTurnResolved _ _ _ ltac:(discriminate) Ho); exact Hp|done| |done].
           intros _. split_and!; [done| |intros _; by exists e, player].
           rewrite <- Hreason. by apply (Ho TurnFailureReason).
        -- split; [intros id; exact (only_moves PlayerTurnResolved _ _ _ id ltac:(discriminate) ltac:(discriminate) (Hm id) Ho)|done].
      * apply wp_ret, wp_ret. split; [done|]. split_and!; cbn; try done. by rewrite Hterm.
    + apply wp_throw. split; [|done]. destruct Hr as [->|He]; [done|].
      by eapply phase_write_moves.
  - apply wp_bind.
    assert (Hend : forall g', only PlayerTurnResolved (graph_of w1) g' ->
      (forall id, turn_moves (graph_of w1) g' id) /\
      transition_post (graph_of w1) g' turn to reason
        {| Previous := previous; Phase := previous; Outcome := outcome |}).
    { intros g' Ho. split; [intros id; exact (only_turn PlayerTurnResolved _ _ id ltac:(discriminate) ltac:(discriminate) Ho)|].
      split_and!; cbn; [done|rewrite (only_phase PlayerTurnResolved _ _ _ ltac:(discriminate) Ho); exact Hold|done..]. }
    case_match; [|by apply wp_ret, wp_ret, Hend, only_refl].
    eapply wp_mono; [apply repairResolvedPointer_spec|]. intros [[]|err] w2 Ho; [by apply wp_ret, Hend|].
    split; [|done]. by apply Hend.
Qed.

(** A birth of an accepted turn is one move of that turn. *)
Lemma birth_moves g g' want source at_ s id :
  ts_Phase s = PhaseAccepted -> TurnState_Triples s (ID want) source at_ = Ok (Triples want) ->
  create_effect want g g' -> turn_moves g g' id.
Proof.
  intros Hph Hts [->|(Hnone & e & [_ Hb] & ->)].
  { apply (only_turn PlayerTurnCurrent); [done..|apply only_refl]. }
  destruct (decide (id = ID want)) as [->|Hne].
  2: { apply move_stay; unfold reasons_in, objects_in; by rewrite lookup_insert_ne. }
  apply TurnState_Triples_accepted in Hts; [|done].
  assert (Hobj : forall p, p ∈ allPredicates ->
    objects_in (<[ID want:=e]> g) (ID want) p = Some (objectsFor e p) /\
    objectsFor e p ≡ₚ objects_of p (map (fun t => (Predicate t, Object t)) (Triples want))).
  { intros p Hp. unfold objects_in. rewrite lookup_insert_eq. split; [done|].
    rewrite (Hb p), <- objects_of_triples; [done|]. intros ->. by apply EntityIndexingProfile_foreign. }
  apply move_born; [done| |].
  - destruct (Hobj TurnPhaseCurrent) as [Ho Hp]; [in_target|]. rewrite Hts in Hp.
    apply elem_objects in Hp. apply phase_in_single; [by rewrite Ho, Hp|in_target].
  - unfold reasons_in. destruct (Hobj TurnFailureReason) as [Ho Hp]; [in_target|]. rewrite Hts in Hp.
    apply Permutation_nil_r in Hp. by rewrite Ho, Hp.
Qed.

Lemma acceptedEntity_spec turnID turn ref action w :
  wp (acceptedEntity turnID turn ref action) (fun r w' => graph_of w' = graph_of w /\
    match r with
    | Ok want => ID want = turn /\ exists s at_, ts_Phase s = PhaseAccepted /\
        ts_PlayerID s = pa_PlayerID action /\
        TurnState_Triples s turn RecorderSource at_ = Ok (Triples want)
    | Err _ => True
    end) w.
Proof.
  unfold acceptedEntity. apply wp_clock. intros t w2 <-. apply wp_lift_bind; [|done]. intros ts Hts.
  apply wp_ret. split; [done|]. split; [done|]. eexists _, t. split_and!; [..|exact Hts]; done.
Qed.

Lemma confirmAccepted_ok stored id :
  confirmAccepted stored id = Ok tt -> PhaseOf stored id = Ok PhaseAccepted.
Proof.
  unfold confirmAccepted. destruct (PhaseOf stored id) as [p|]; [|done].
  by destruct (String.eqb_spec p PhaseAccepted) as [->|].
Qed.

(** What an acceptance promises: the turn is on the record in the phase it
    reports, a turn that was already there is left as it was, and the player's pointer names
    the turn unless it is over or the player holds another live one. *)
Definition accept_post (g g' : graph) (player : string) (a : Acceptance) : Prop :=
  let turn := a_TurnEntityID a in
  phase_in g' turn = Some (a_Phase a) /\
  (g !! turn = None \/ only PlayerTurnCurrent g g') /\
  (if a_Created a then a_Phase a = PhaseAccepted else is_Some (g !! turn)) /\
  (IsTerminal (a_Phase a) = true \/ other_live g' player turn \/
   points_at PlayerTurnCurrent g' player turn).

Lemma point_then_spec player acceptance w :
  wp (_ ← pointPlayerAtTurn player acceptance; mret acceptance) (fun r w' =>
    only PlayerTurnCurrent (graph_of w) (graph_of w') /\
    match r with
    | Ok a => a = acceptance /\
        (IsTerminal (a_Phase a) = true \/ other_live (graph_of w') player (a_TurnEntityID a) \/
         points_at PlayerTurnCurrent (graph_of w') player (a_TurnEntityID a))
    | Err _ => True
    end) w.
Proof.
  apply wp_bind. eapply wp_mono; [apply pointPlayerAtTurn_spec|].
  intros [u|err] w1 (Ho & Hl & Hr); [|done]. apply wp_ret. split; [done|]. split; [done|].
  destruct Hr as [Ht|[Hol|Hpt]]; [by left| |by right; right]. right. left. by rewrite (Hl Hol).
Qed.

Lemma Current_spec id w :
  wp (Current id) (fun r w' => graph_of w' = graph_of w /\
    match r with
    | Ok p => is_Some (graph_of w !! id) /\ phase_in (graph_of w) id = Some p
    | Err _ => True
    end) w.
Proof.
  unfold Current. apply wp_bind. eapply wp_mono; [apply currentState_spec|].
  intros [[e p]|err] w1 [Hg Hr]; [|done]. apply wp_ret. split; [done|]. destruct Hr as [He Hp].
  unfold phase_in. rewrite He, Hp. by split; [eexists|].
Qed.

Lemma Accept_spec identity action w :
  wp (Accept identity action) (fun r w' =>
    (forall id, turn_moves (graph_of w) (graph_of w') id) /\
    match r with
    | Ok a => EntityIDForAction identity (pa_ActionID action) = Ok (a_TurnID a, a_TurnEntityID a) /\
        accept_post (graph_of w) (graph_of w') (pa_PlayerID action) a
    | Err _ => True
    end) w.
Proof.
  assert (Hstay : forall g id, turn_moves g g id).
  { intros. apply (only_turn PlayerTurnCurrent); [done..|apply only_refl]. }
  unfold Accept. apply wp_lift_bind; [|done]. intros _ _. apply wp_lift_bind; [|done].
  intros [turnID turn] Hids. apply wp_bind, wp_attempt.
  eapply wp_mono; [apply PutAction_spec|]. intros [ref|err] w1 <-; [|by apply wp_throw].
  apply wp_bind, wp_attempt. eapply wp_mono; [apply acceptedEntity_spec|].
  intros built w2 [<- Hbuilt]. apply wp_lift_bind; [|done]. intros want Hok.
  destruct built as [want'|]; [|done]. injection Hok as ->.
  destruct Hbuilt as (<- & s & at_ & Hph & _ & Hts).
  apply wp_bind, wp_attempt. eapply wp_mono; [apply CreateEntity_spec|].
  assert (Hid : EntityIDForAction identity (pa_ActionID action) = Ok (turnID, ID want)).
  { by destruct (EntityIDForAction _ _) as [[??]|]; [injection Hids as -> ->|]. }
  intros [[stored rev]|err] w3 Hr.
  - apply wp_bind, wp_lift_bind.
    2: { intros e _. split; [|done]. intros id. eapply birth_moves; [done..|]. by destruct stored; [apply Hr|]. }
    intros [] Hconf%confirmAccepted_ok. destruct stored as [e|]; [|done]. destruct Hr as (Hb & He & Hc).
    apply wp_ret. eapply wp_mono; [apply point_then_spec|]. intros r w4 [Ho Hr]. split.
    + intros id. exact (only_moves PlayerTurnCurrent _ _ _ id ltac:(discriminate) ltac:(discriminate)
        (birth_moves _ _ _ _ _ _ id Hph Hts Hc) Ho).
    + destruct r as [a|]; [|done]. destruct Hr as [-> Hpt]. split; [done|].
      unfold accept_post. cbn -[phase_in PhaseAccepted].
      rewrite (only_phase PlayerTurnCurrent _ _ _ ltac:(discriminate) Ho).
      split_and!; [by unfold phase_in; rewrite He, Hconf| |done|done].
      destruct Hc as [Hg|[? _]]; [right; by rewrite <- Hg|by left].
  - destruct Hr as [Hc Hex]. destruct (errors_Is ErrEntityExists err).
    2: { apply wp_bind, wp_throw. split; [|done]. intros id. by eapply birth_moves. }
    destruct (Hex eq_refl) as [Hg Hsome].
    apply wp_bind, wp_bind. eapply wp_mono; [apply Current_spec|].
    intros [p|err'] w4 [Hg4 Hcur]; rewrite Hg in *; [|by rewrite Hg4].
    apply wp_ret. eapply wp_mono; [apply point_then_spec|]. rewrite Hg4. intros r w5 [Ho Hr]. split.
    + intros id. exact (only_turn PlayerTurnCurrent _ _ id ltac:(discriminate) ltac:(discriminate) Ho).
    + destruct r as [a|]; [|done]. destruct Hr as [-> Hpt]. cbn in *. split; [done|].
      unfold accept_post. cbn. rewrite (only_phase PlayerTurnCurrent _ _ _ ltac:(discriminate) Ho).
      split_and!; [apply Hcur|by right|done|done].
Qed.

(** A player whose other turn is live keeps it through a birth. *)
Lemma other_live_create want g g1 player :
  create_effect want g g1 -> other_live g player (ID want) ->
  other_live g1 player (ID want) /\ g1 !! player = g !! player.
Proof.
  intros [->|(Hnone & e1 & _ & ->)] Hol; [done|].
  destruct Hol as (e & id & p & He & Hin & Hne & Hp & Ht).
  assert (player <> ID want) by (intros ->; congruence).
  assert (Hpl : <[ID want:=e1]> g !! player = g !! player) by (by rewrite lookup_insert_ne).
  split; [|done]. exists e, id, p. rewrite Hpl. split_and!; try done.
  unfold phase_in in *. by rewrite lookup_insert_ne.
Qed.

Lemma Accept_pointer_spec identity action turnID turn w :
  EntityIDForAction identity (pa_ActionID action) = Ok (turnID, turn) ->
  other_live (graph_of w) (pa_PlayerID action) turn ->
  wp (Accept identity action) (fun _ w' =>
    graph_of w' !! pa_PlayerID action = graph_of w !! pa_PlayerID action) w.
Proof.
  intros Hids Hol. unfold Accept. apply wp_lift_bind; [|done]. intros _ _. rewrite Hids.
  apply wp_bind, wp_lift. cbn beta iota. apply wp_bind, wp_attempt.
  eapply wp_mono; [apply PutAction_spec|]. intros [ref|err] w1 Hg1; [rewrite <- Hg1 in Hol |- *; clear Hg1|by apply wp_throw; rewrite Hg1].
  apply wp_bind, wp_attempt. eapply wp_mono; [apply acceptedEntity_spec|].
  intros built w2 [Hg2 Hbuilt]. rewrite <- Hg2 in Hol |- *. apply wp_lift_bind; [|done]. intros want Hok.
  destruct built as [want'|]; [|done]. injection Hok as ->. destruct Hbuilt as [<- _]. clear Hg2.
  assert (Hkeep : forall g1, create_effect want (graph_of w2) g1 ->
    g1 !! pa_PlayerID action = graph_of w2 !! pa_PlayerID action).
  { intros g1 Hc. by apply (other_live_create _ _ _ _ Hc). }
  assert (Hpoint : forall a w3, a_TurnEntityID a = ID want -> create_effect want (graph_of w2) (graph_of w3) ->
    wp (_ ← pointPlayerAtTurn (pa_PlayerID action) a; mret a) (fun _ w' =>
      graph_of w' !! pa_PlayerID action = graph_of w2 !! pa_PlayerID action) w3).
  { intros a w3 Ha Hc. apply wp_bind. eapply wp_mono; [apply pointPlayerAtTurn_spec|].
    intros r w4 (_ & Hl & _). rewrite Ha in Hl. rewrite <- (Hkeep _ Hc).
    rewrite <- Hl by (apply (other_live_create _ _ _ _ Hc Hol)). by destruct r. }
  apply wp_bind, wp_attempt. eapply wp_mono; [apply CreateEntity_spec|].
  intros [[stored rev]|err] w3 Hr.
  - assert (Hc : create_effect want (graph_of w2) (graph_of w3)) by (by destruct stored; [apply Hr|]).
    apply wp_bind, wp_lift_bind; [|intros; by apply Hkeep]. intros _ _. apply wp_ret. by apply Hpoint.
  - destruct Hr as [Hc _]. apply wp_bind. destruct (errors_Is ErrEntityExists err); [|by apply wp_throw, Hkeep].
    apply wp_bind. eapply wp_mono; [apply Current_spec|]. intros [p|err'] w4 [Hg _]; [|rewrite Hg; by apply Hkeep].
    apply wp_ret, Hpoint; [done|]. by rewrite Hg.
Qed.

(** A request that follows no edge from the recorded phase. *)
Lemma transition_refuses_spec turnID turn to reason detail p w :
  phase_in (graph_of w) turn = Some p -> PhaseFollows p to = false ->
  wp (transition turnID turn to reason detail) (fun r w' =>
    only PlayerTurnResolved (graph_of w) (graph_of w') /\
    (IsTerminal p && IsTerminal to = false -> graph_of w' = graph_of w) /\
    match r with Ok tr => Outcome tr <> OutcomeAdvanced | Err _ => True end) w.
Proof.
  assert (Hsame : forall (w1 : W), graph_of w1 = graph_of w ->
    only PlayerTurnResolved (graph_of w) (graph_of w1)) by (intros ? ->; apply only_refl).
  intros Hp Hf. unfold transition. apply wp_lift_bind; [|intros; auto]. intros _ _.
  apply wp_bind. eapply wp_mono; [apply currentState_spec|].
  intros [[e previous]|err] w1 [Hg Hcur]; [|auto]. destruct Hcur as [He Hprev].
  assert (previous = p) as ->.
  { unfold phase_in in Hp. rewrite He, Hprev in Hp. by injection Hp. }
  destruct (classify p to) as [outcome fault] eqn:Hc.
  destruct (String.eqb_spec fault EmptyString) as [->|_]; cbn [negb]; [|apply wp_throw; auto].
  destruct (String.eqb_spec outcome OutcomeAdvanced) as [->|Hno]; cbn [negb].
  { apply classify_advanced in Hc. congruence. }
  apply wp_bind. rewrite andb_comm. destruct (IsTerminal p && IsTerminal to).
  - eapply wp_mono; [apply repairResolvedPointer_spec|]. rewrite Hg.
    intros [[]|err'] w2 Ho; [by apply wp_ret|done].
  - apply wp_ret, wp_ret. split_and!; [auto..|done].
Qed.

(** A transition writes the phase group of its turn and the resolved pointer. *)
Definition transition_frame (g g' : graph) : Prop :=
  forall p, p ∉ Predicates TurnPhaseState -> p <> PlayerTurnResolved -> keeps p g g'.

Lemma transition_frame_spec turnID turn to reason detail w :
  wp (transition turnID turn to reason detail) (fun _ w' =>
    transition_frame (graph_of w) (graph_of w')) w.
Proof.
  assert (Hsame : forall g, transition_frame g g) by (by intros g p _ _ id).
  assert (Honly : forall g g', only PlayerTurnResolved g g' -> transition_frame g g')
    by (intros g g' Ho p _ Hp; by apply Ho).
  unfold transition. apply wp_lift_bind; [|intros; apply Hsame]. intros _ _.
  apply wp_bind. eapply wp_mono; [apply currentState_spec|].
  intros [[e previous]|err] w1 [Hg _]; rewrite <- Hg; [|apply Hsame].
  destruct (classify previous to) as [outcome fault].
  destruct (negb (String.eqb fault EmptyString)); [apply wp_throw, Hsame|].
  destruct (negb (String.eqb outcome OutcomeAdvanced)).
  { apply wp_bind. destruct (_ && _); [|apply wp_ret, wp_ret, Hsame].
    eapply wp_mono; [apply repairResolvedPointer_spec|]. intros [] w2 Ho; [apply wp_ret|]; by apply Honly. }
  apply wp_clock. intros t w2 Hw. rewrite <- Hw. apply wp_lift_bind; [|intros; apply Hsame]. intros ts _.
  apply wp_bind, wp_attempt. eapply wp_mono; [apply Reconcile_spec|].
  assert (Hphase : forall g', reconcile_effect TurnPhaseState turn ts (graph_of w2) g' ->
    transition_frame (graph_of w2) g') by (intros g' He p Hp _; by eapply reconcile_keeps).
  intros [e'|err] w3 Hr; [|apply wp_throw; destruct Hr as [->|Hr]; auto].
  destruct Hr as [He%Hphase _]. apply wp_bind. destruct (IsTerminal to); [|by apply wp_ret, wp_ret].
  unfold pointPlayerAtResolvedTurn. apply wp_lift_bind; [|auto]. intros player _.
  eapply wp_mono; [apply writeResolvedPointer_spec|].
  intros [] w4 [Ho%Honly _]; [apply wp_ret|]; intros p Hp Hq; (transitivity (graph_of w3); [by apply He|by apply Ho]).
Qed.
End recorder.
