(* ===== verification/TurnTheorems.v ===== *)
(** What the turn recorder guarantees over any run of its operations, under
    any schedule of store faults. *)

From stdpp Require Import relations.
From S2P Require Import Prelude GoStd GoErrors Graph Vocab Vocabulary Payload ContentRecords ProjectionContract Store GraphIO Turn MemStore TurnSpec.

Open Scope Z_scope.

(** ** Runs *)

(** The recorder's entry points, and the queue's handler, with their inputs. *)
Inductive recorder_op : Type :=
| OpAccept (identity : Identity) (action : PlayerAction)
| OpHandle (identity : Identity) (decoded : res PlayerAction)
| OpCurrent (turnEntityID : string)
| OpAdvance (turnID turnEntityID to : string)
| OpFail (turnID turnEntityID reason : string) (detail : Ref).

Section runs.
Context {W : Type} `{Substrate, HasGraph W, GraphStore W, Clock W, ActionStore W}.

Definition run_op (o : recorder_op) : MW W unit :=
  match o with
  | OpAccept identity action => _ ← Accept identity action; mret tt
  | OpHandle identity decoded => Handle identity decoded
  | OpCurrent turn => _ ← Current turn; mret tt
  | OpAdvance turnID turn to => _ ← Advance turnID turn to; mret tt
  | OpFail turnID turn reason detail => _ ← Fail_ turnID turn reason detail; mret tt
  end.

(** One operation, whatever it returned, is one step of the world. *)
Inductive recorder_step (w : W) : W -> Prop :=
| step_op o : recorder_step w (run_op o w).2.

(** The worlds a schedule of operations visits. *)
Fixpoint visited (ops : list recorder_op) (w : W) : list W :=
  match ops with
  | [] => [w]
  | o :: rest => w :: visited rest (run_op o w).2
  end.

(** How often the phase of a turn differs from the one before it. *)
Fixpoint phase_changes (id : string) (ws : list W) : nat :=
  match ws with
  | w :: ((w' :: _) as rest) =>
      ((if bool_decide (phase_in (graph_of w) id = phase_in (graph_of w') id) then 0 else 1) +
       phase_changes id rest)%nat
  | _ => O
  end.

Context `{!GraphStoreLaws W, !ActionStoreLaws W, !VocabularyLaws}.

Lemma stays g id : turn_moves g g id.
Proof. apply (only_turn PlayerTurnCurrent); [done..|apply only_refl]. Qed.

Lemma discard_spec {A} (m : MW W A) (P : W -> Prop) w :
  wp m (fun _ w' => P w') w -> wp (_ ← m; mret tt) (fun _ w' => P w') w.
Proof. intros Hm. apply wp_bind. eapply wp_mono; [apply Hm|]. by intros []. Qed.

Lemma Advance_spec turnID turn to w :
  wp (Advance turnID turn to) (fun r w' =>
    (forall id, turn_moves (graph_of w) (graph_of w') id) /\
    match r with
    | Ok tr => to <> PhaseAccepted /\ to <> PhaseFailed /\
        transition_post (graph_of w) (graph_of w') turn to EmptyString tr
    | Err _ => True
    end) w.
Proof.
  unfold Advance. destruct (String.eqb_spec to PhaseAccepted).
  { apply wp_throw. split; [|done]. intros; apply stays. }
  destruct (String.eqb_spec to PhaseFailed).
  { apply wp_throw. split; [|done]. intros; apply stays. }
  eapply wp_mono; [apply transition_spec|]. by intros [] w' [? ?].
Qed.

Lemma Fail_spec turnID turn reason detail w :
  wp (Fail_ turnID turn reason detail) (fun r w' =>
    (forall id, turn_moves (graph_of w) (graph_of w') id) /\
    match r with
    | Ok tr => reason ∈ enum_values failureReasonEnum /\
        transition_post (graph_of w) (graph_of w') turn PhaseFailed reason tr
    | Err _ => True
    end) w.
Proof.
  unfold Fail_. destruct (ParseFailureReason reason) eqn:E.
  2: { apply wp_throw. split; [|done]. intros; apply stays. }
  apply enum_parse_ok in E as [_ Hr]. apply wp_lift_bind; [|split; [intros; apply stays|done]].
  intros _ _. eapply wp_mono; [apply transition_spec|]. by intros [] w' [? ?].
Qed.

Lemma run_op_moves o w id : turn_moves (graph_of w) (graph_of (run_op o w).2) id.
Proof.
  revert w. change (forall w, wp (run_op o) (fun _ w' => turn_moves (graph_of w) (graph_of w') id) w).
  intros w. destruct o as [identity action|identity decoded|turn|turnID turn to|turnID turn reason detail];
    cbn [run_op]; try apply discard_spec.
  - eapply wp_mono; [apply Accept_spec|]. by intros ? ? [? _].
  - unfold Handle. destruct decoded as [action|err]; [|by apply wp_throw, stays].
    apply wp_bind, wp_attempt. eapply wp_mono; [apply Accept_spec|].
    intros [a|err] w' [Hm _]; [by apply wp_ret|]. by case_match; apply wp_throw.
  - eapply wp_mono; [apply Current_spec|]. intros ? ? [-> _]. apply stays.
  - eapply wp_mono; [apply Advance_spec|]. by intros ? ? [? _].
  - eapply wp_mono; [apply Fail_spec|]. by intros ? ? [? _].
Qed.

(** An invariant of moves is an invariant of runs. *)
Lemma moves_invariant (I : graph -> Prop) id :
  (forall g g', turn_moves g g' id -> I g -> I g') ->
  forall w w', rtc recorder_step w w' -> I (graph_of w) -> I (graph_of w').
Proof.
  intros HI w w' Hrun. induction Hrun as [|w w1 w' Hstep _ IH]; [done|].
  intros Hw. apply IH. destruct Hstep as [o]. eapply HI; [apply run_op_moves|done].
Qed.

(** How many more moves a turn can make. *)
Definition moves_left (ph : option string) : nat :=
  match ph with
  | None => 8
  | Some p => Z.to_nat (7 - default 7 (PhaseRank p))
  end.

Lemma rank_range p r : PhaseRank p = Some r -> 0 <= r <= 7.
Proof. unfold PhaseRank, phaseRanks. intros Hr. table_cases Hr; lia. Qed.

Lemma follows_left p p' :
  PhaseFollows p p' = true -> (moves_left (Some p') < moves_left (Some p))%nat.
Proof.
  intros (rf & rt & Hf & Ht & Hlt & _)%PhaseFollows_cases. unfold moves_left.
  rewrite Hf, Ht. cbn. apply rank_range in Hf, Ht. lia.
Qed.

Lemma turn_moves_left g g' id :
  turn_moves g g' id ->
  phase_in g' id = phase_in g id \/
  (moves_left (phase_in g' id) < moves_left (phase_in g id))%nat.
Proof.
  intros [Hp _|Hn Hp _|p p' Hp Hp' Hf _ _|p r Hp Hp' Hf _ _].
  - left. by apply phase_in_objects.
  - right. unfold phase_in at 2. rewrite Hn, Hp. vm_compute. lia.
  - right. rewrite Hp, Hp'. by apply follows_left.
  - right. rewrite Hp, Hp'. by apply follows_left.
Qed.

Lemma phase_changes_bound id ops w :
  (phase_changes id (visited ops w) <= moves_left (phase_in (graph_of w) id))%nat.
Proof.
  revert w. induction ops as [|o ops IH]; intros w; [cbn; lia|].
  pose proof (turn_moves_left _ _ _ (run_op_moves o w id)) as Hm. specialize (IH (run_op o w).2).
  cbn [visited]. destruct (visited ops (run_op o w).2) as [|w1 rest] eqn:E; [cbn; lia|].
  assert (w1 = (run_op o w).2) as -> by (by destruct ops; injection E).
  cbn [phase_changes]. cbn [phase_changes] in IH. case_bool_decide as Heq; destruct Hm as [Hm|Hm]; [..|congruence|]; rewrite ?Heq; lia.
Qed.
End runs.

(** ** The FSM *)

Definition edge (p q : string) : Prop := PhaseFollows p q = true.

(** [path n p q]: [q] is reachable from [p] in one to [n] edges. *)
Fixpoint path (n : nat) (p q : string) : bool :=
  match n with
  | O => false
  | S n => if PhaseFollows p q then true
           else existsb (fun m => if PhaseFollows p m then path n m q else false) (enum_values turnPhaseEnum)
  end.

Lemma path_tc n p q : path n p q = true -> tc edge p q.
Proof.
  revert p. induction n as [|n IH]; intros p; cbn [path]; [done|].
  destruct (PhaseFollows p q) eqn:Hf; [by intros _; apply tc_once|].
  intros (m & _ & Hm)%existsb_exists. destruct (PhaseFollows p m) eqn:Hpm; [|done].
  eapply tc_l; [exact Hpm|eauto].
Qed.

Lemma tc_edge_rank p q :
  tc edge p q -> exists rp rq, PhaseRank p = Some rp /\ PhaseRank q = Some rq /\ rp < rq /\
    IsTerminal p = false.
Proof.
  induction 1 as [p q He|p m q He _ (rm & rq & Hm & Hq & Hlt & _)].
  - by apply PhaseFollows_cases in He.
  - apply PhaseFollows_cases in He as (rp & rm' & Hp & Hm' & Hlt' & Ht).
    rewrite Hm in Hm'. injection Hm' as <-. exists rp, rq. split_and!; try done. lia.
Qed.

(** Every later phase is reachable from every live one. *)
Lemma live_reaches p q rp rq :
  PhaseRank p = Some rp -> PhaseRank q = Some rq -> rp < rq -> IsTerminal p = false -> tc edge p q.
Proof.
  intros Hp Hq Hlt Ht. apply (path_tc 8).
  pose proof (PhaseRank_phases _ _ Hp) as Hpin. pose proof (PhaseRank_phases _ _ Hq) as Hqin.
  assert (Hall : forallb (fun p => forallb (fun q =>
    match PhaseRank p, PhaseRank q with
    | Some rp, Some rq => implb ((rp <? rq) && negb (IsTerminal p)) (path 8 p q)
    | _, _ => true
    end) (enum_values turnPhaseEnum)) (enum_values turnPhaseEnum) = true) by (vm_compute; reflexivity).
  rewrite forallb_forall in Hall. specialize (Hall p (proj1 (list_elem_of_In _ _) Hpin)). cbv beta in Hall.
  rewrite forallb_forall in Hall. specialize (Hall q (proj1 (list_elem_of_In _ _) Hqin)). cbv beta in Hall.
  rewrite Hp, Hq, Ht in Hall. by rewrite (proj2 (Z.ltb_lt _ _) Hlt) in Hall.
Qed.

Lemma classify_live p q rp rq :
  PhaseRank p = Some rp -> PhaseRank q = Some rq -> IsTerminal p = false ->
  classify p q =
    if decide (p = q) then (OutcomeResumed, EmptyString)
    else if PhaseFollows p q then (OutcomeAdvanced, EmptyString)
    else if decide (rp < rq) then (EmptyString, FaultSkippedStage)
    else (OutcomeDeclined, EmptyString).
Proof.
  intros Hp Hq Ht. unfold classify. rewrite Hp, Hq, Ht.
  destruct (String.eqb_spec p q); case_decide; try done.
  destruct (PhaseFollows p q); [done|].
  destruct (Z.ltb_spec rq rp); case_decide; try done; [lia|].
  assert (rp = rq) by lia. subst rq. exfalso.
  assert (Hinj : forallb (fun p => forallb (fun q =>
    match PhaseRank p, PhaseRank q with
    | Some rp, Some rq => implb ((rp =? rq) && negb (IsTerminal p)) (String.eqb p q)
    | _, _ => true
    end) (enum_values turnPhaseEnum)) (enum_values turnPhaseEnum) = true) by (vm_compute; reflexivity).
  pose proof (PhaseRank_phases _ _ Hp) as Hpin. pose proof (PhaseRank_phases _ _ Hq) as Hqin.
  rewrite forallb_forall in Hinj. specialize (Hinj p (proj1 (list_elem_of_In _ _) Hpin)). cbv beta in Hinj.
  rewrite forallb_forall in Hinj. specialize (Hinj q (proj1 (list_elem_of_In _ _) Hqin)). cbv beta in Hinj.
  rewrite Hp, Hq, Ht, Z.eqb_refl in Hinj. by apply String.eqb_eq in Hinj.
Qed.

(** [classify] decides reachability in the phase graph: a recorded phase and
    a requested one give an advance exactly along an edge, a resume exactly on
    the same live phase, a skipped-stage fault exactly when the request is
    reachable only through a stage not yet recorded, and a decline exactly when
    the turn is over or the request is unreachable from where it is. *)
Theorem classify_decides_reachability p q
    (Hp : p ∈ enum_values turnPhaseEnum) (Hq : q ∈ enum_values turnPhaseEnum) :
  (classify p q = (OutcomeAdvanced, EmptyString) <-> edge p q) /\
  (classify p q = (OutcomeResumed, EmptyString) <-> p = q /\ IsTerminal p = false) /\
  (classify p q = (EmptyString, FaultSkippedStage) <-> tc edge p q /\ ~ edge p q) /\
  (classify p q = (OutcomeDeclined, EmptyString) <->
     IsTerminal p = true \/ (p <> q /\ ~ tc edge p q)).
Proof.
  apply phases_PhaseRank in Hp as [rp Hp], Hq as [rq Hq].
  assert (Htc : tc edge p q <-> rp < rq /\ IsTerminal p = false).
  { split; [|intros []; by eapply live_reaches].
    intros (rp' & rq' & Hp' & Hq' & Hlt & Ht)%tc_edge_rank. split; [|done]. congruence. }
  rewrite !Htc. assert (He : edge p q -> rp < rq /\ IsTerminal p = false).
  { intros Hpq. by apply Htc, tc_once. }
  unfold edge in *. destruct (IsTerminal p) eqn:Ht.
  - assert (Hf : PhaseFollows p q <> true) by (intros Hf; by apply He in Hf as [_ ?]).
    unfold classify. rewrite Hp, Hq, Ht. clear He. split_and!; split; by intuition.
  - rewrite (classify_live p q rp rq) by done.
    assert (Hne : rp < rq -> p <> q) by (intros ? ->; assert (rp = rq) by congruence; lia).
    destruct (PhaseFollows p q) eqn:Hf; case_decide as Hpq; try (case_decide as Hlt);
      split_and!; split; intros Hx; first [discriminate Hx | by intuition].
Qed.

Lemma classify_decides_reachability_witness :
  PhaseAccepted ∈ enum_values turnPhaseEnum /\
  (classify PhaseAccepted PhaseAdjudicating = (EmptyString, FaultSkippedStage) <->
   tc edge PhaseAccepted PhaseAdjudicating /\ ~ edge PhaseAccepted PhaseAdjudicating).
Proof.
  split; [in_target|]. apply (classify_decides_reachability PhaseAccepted PhaseAdjudicating); in_target.
Defined.

(** ** The guarantees *)

Section guarantees.
Context {W : Type} `{Substrate, HasGraph W, GraphStore W, Clock W, ActionStore W}.
Context `{!GraphStoreLaws W, !ActionStoreLaws W, !VocabularyLaws}.

(** C1: every recorder operation, whatever it returns and whatever its store
    calls did, moves every turn by at most one step of the FSM: the turn keeps
    its phase and failure reason, is born accepted, follows one edge of the
    phase table, or fails along an edge with a reason of the closed set. *)
Theorem recorder_refines_fsm o (w : W) id :
  turn_moves (graph_of w) (graph_of (run_op o w).2) id.
Proof. apply run_op_moves. Qed.

(** Over any schedule of recorder operations and faults, a failed turn
    records exactly one reason of the closed set and every other turn none. *)
Theorem recorder_keeps_turns_wellformed (w w' : W) id
    (Hrun : rtc recorder_step w w') (Hwf : turn_wf (graph_of w) id) : turn_wf (graph_of w') id.
Proof.
  revert Hwf. eapply (moves_invariant (fun g => turn_wf g id) id); [|exact Hrun].
  intros g g'. apply turn_wf_moves.
Qed.

(** C2: a turn that is complete or failed stays as it is for ever: no schedule
    of recorder operations changes its phase or the reason it failed for. *)
Theorem terminal_turns_are_final (w w' : W) id p
    (Hrun : rtc recorder_step w w') (Hp : phase_in (graph_of w) id = Some p)
    (Ht : IsTerminal p = true) :
  phase_in (graph_of w') id = Some p /\ reasons_in (graph_of w') id = reasons_in (graph_of w) id.
Proof.
  set (rs := reasons_in (graph_of w) id).
  eapply (moves_invariant (fun g => phase_in g id = Some p /\ reasons_in g id = rs) id);
    [|exact Hrun|done].
  clear Hp Hrun. clearbody rs. intros g g' Hm [Hp Hr].
  destruct Hm as [Hp' Hr'|Hn _ _|p1 p2 Hp1 _ Hf _ _|p1 r Hp1 _ Hf _ _].
  - rewrite (phase_in_objects _ _ _ Hp'). split; congruence.
  - unfold phase_in in Hp. by rewrite Hn in Hp.
  - apply PhaseFollows_cases in Hf as (? & ? & _ & _ & _ & Hf). congruence.
  - apply PhaseFollows_cases in Hf as (? & ? & _ & _ & _ & Hf). congruence.
Qed.

(** C19: the FSM terminates: over any schedule of operations and faults the phase
    of a turn changes at most as often as its rank leaves room for: eight
    times from birth, at most [7 - rank] times from a recorded phase. *)
Theorem phase_changes_bounded id ops (w : W) :
  (phase_changes id (visited ops w) <=
     match phase_in (graph_of w) id with
     | None => 8
     | Some p => Z.to_nat (7 - default 7%Z (PhaseRank p))%Z
     end)%nat.
Proof. apply phase_changes_bound. Qed.

(** An acceptance puts the turn the action derives on the record in the phase
    it reports, leaves a turn already there as it was, and points the player
    at it unless the turn is over or another live turn holds the player. *)
Theorem Accept_contract identity action (w : W) a w'
    (Hrun : Accept identity action w = (Ok a, w')) :
  EntityIDForAction identity (pa_ActionID action) = Ok (a_TurnID a, a_TurnEntityID a) /\
  accept_post (graph_of w) (graph_of w') (pa_PlayerID action) a.
Proof. exact (proj2 (wp_elim _ _ _ _ _ (Accept_spec identity action w) Hrun)). Qed.

(** A phase transition that returns reports the phase the turn had and the
    phase it has; an advance put it in the requested phase, and if that is the
    end of the turn the player's resolved pointer names it; anything else
    wrote no phase. *)
Theorem Advance_contract turnID turn to (w : W) tr w'
    (Hrun : Advance turnID turn to w = (Ok tr, w')) :
  to <> PhaseAccepted /\ to <> PhaseFailed /\ transition_post (graph_of w) (graph_of w') turn to EmptyString tr.
Proof. exact (proj2 (wp_elim _ _ _ _ _ (Advance_spec turnID turn to w) Hrun)). Qed.

(** A failure that returns recorded its closed reason on a turn that was
    still live, or found the turn over and left its record alone. *)
Theorem Fail_contract turnID turn reason detail (w : W) tr w'
    (Hrun : Fail_ turnID turn reason detail w = (Ok tr, w')) :
  transition_post (graph_of w) (graph_of w') turn PhaseFailed reason tr /\
  (Outcome tr = OutcomeAdvanced -> reasons_in (graph_of w') turn = Some [AString reason]) /\
  (Outcome tr <> OutcomeAdvanced -> reasons_in (graph_of w') turn = reasons_in (graph_of w) turn).
Proof.
  destruct (wp_elim _ _ _ _ _ (Fail_spec turnID turn reason detail w) Hrun) as [_ [_ Hpost]].
  split; [done|]. destruct Hpost as (_ & _ & _ & Hadv & Hstill). split.
  - intros Ha. by apply Hadv in Ha as (_ & ? & _).
  - intros Hno. apply Hstill in Hno as [Ho _]. by apply (Ho TurnFailureReason).
Qed.

(** A player whose other turn is still live keeps their record, pointer
    included, through any acceptance: a later turn never takes their place. *)
Theorem Accept_never_displaces_live_turn identity action turnID turn (w : W)
    (Hids : EntityIDForAction identity (pa_ActionID action) = Ok (turnID, turn))
    (Hlive : other_live (graph_of w) (pa_PlayerID action) turn) :
  graph_of (Accept identity action w).2 !! pa_PlayerID action =
    graph_of w !! pa_PlayerID action.
Proof. exact (Accept_pointer_spec identity action turnID turn w Hids Hlive). Qed.

(** A request that follows no edge from the recorded phase (a redelivery, a
    late stage, a skipped one) writes no phase: at most the resolved pointer
    of a turn that is already over is repaired. *)
Theorem transition_off_edge_writes_no_phase turnID turn to reason detail p (w : W)
    (Hp : phase_in (graph_of w) turn = Some p) (Hf : PhaseFollows p to = false) :
  let '(r, w') := transition turnID turn to reason detail w in
  only PlayerTurnResolved (graph_of w) (graph_of w') /\
  (IsTerminal p && IsTerminal to = false -> graph_of w' = graph_of w) /\
  match r with Ok tr => Outcome tr <> OutcomeAdvanced | Err _ => True end.
Proof.
  destruct (transition _ _ _ _ _ _) as [r w'] eqn:E.
  exact (wp_elim _ _ _ _ _ (transition_refuses_spec turnID turn to reason detail p w Hp Hf) E).
Qed.
End guarantees.

(** ** The guarantees at work on the in-memory world *)

Lemma recorder_refines_fsm_witness :
  turn_moves (graph_of (Demo.world []))
    (graph_of (run_op (OpAccept Demo.identity Demo.action) (Demo.world [])).2) Demo.turn_id.
Proof. apply (recorder_refines_fsm (OpAccept Demo.identity Demo.action)). Defined.

(** Three operations: an acceptance whose outcome was unknown but committed, a
    skipped stage, and a failure. *)
Lemma demo_run :
  rtc recorder_step (Demo.world [UnknownCommitted])
    (run_op (OpFail "turn-a1" Demo.turn_id FailureTurnStranded zero_Ref)
      (run_op (OpAdvance "turn-a1" Demo.turn_id PhaseResolving)
        (run_op (OpAccept Demo.identity Demo.action) (Demo.world [UnknownCommitted])).2).2).2.
Proof. do 3 (eapply rtc_l; [apply step_op|]). apply rtc_refl. Qed.

Lemma recorder_keeps_turns_wellformed_witness :
  exists w', rtc recorder_step (Demo.world [UnknownCommitted]) w' /\
    phase_in (graph_of w') Demo.turn_id = Some PhaseFailed /\ turn_wf (graph_of w') Demo.turn_id.
Proof.
  eexists. split; [apply demo_run|]. split; [vm_compute; reflexivity|].
  eapply recorder_keeps_turns_wellformed; [apply demo_run|]. vm_compute. exact I.
Defined.

Lemma terminal_turns_are_final_witness :
  phase_in (graph_of (run_op (OpAdvance "turn-a1" Demo.turn_id PhaseNarrating)
    (Demo.turn_world PhaseComplete [])).2) Demo.turn_id = Some PhaseComplete.
Proof.
  eapply (terminal_turns_are_final (Demo.turn_world PhaseComplete []) _ Demo.turn_id PhaseComplete);
    [eapply rtc_l; [apply step_op|apply rtc_refl]|vm_compute; reflexivity..].
Defined.

Lemma phase_changes_bounded_witness :
  (phase_changes Demo.turn_id (visited [OpAccept Demo.identity Demo.action;
     OpAdvance "turn-a1" Demo.turn_id PhaseInterpreting] (Demo.world [])) <= 8)%nat.
Proof. eapply Nat.le_trans; [apply phase_changes_bounded|]. vm_compute. lia. Defined.

Lemma Accept_contract_witness :
  exists a w', Accept Demo.identity Demo.action (Demo.world []) = (Ok a, w') /\
    accept_post (graph_of (Demo.world [])) (graph_of w') Demo.player_id a.
Proof.
  eexists _, _. split; [vm_compute; reflexivity|].
  apply (Accept_contract Demo.identity Demo.action). vm_compute. reflexivity.
Defined.

Lemma Advance_contract_witness :
  exists tr w', Advance "turn-a1" Demo.turn_id PhaseComplete (Demo.turn_world PhaseNarrating []) = (Ok tr, w') /\
    transition_post (graph_of (Demo.turn_world PhaseNarrating [])) (graph_of w') Demo.turn_id
      PhaseComplete EmptyString tr.
Proof.
  eexists _, _. split; [vm_compute; reflexivity|].
  apply (Advance_contract "turn-a1"). vm_compute. reflexivity.
Defined.

Lemma Fail_contract_witness :
  exists tr w', Fail_ "turn-a1" Demo.turn_id FailureTurnStranded zero_Ref
      (Demo.turn_world PhaseNarrating []) = (Ok tr, w') /\
    transition_post (graph_of (Demo.turn_world PhaseNarrating [])) (graph_of w') Demo.turn_id
      PhaseFailed FailureTurnStranded tr.
Proof.
  eexists _, _. split; [vm_compute; reflexivity|].
  apply (Fail_contract "turn-a1" Demo.turn_id FailureTurnStranded zero_Ref). vm_compute. reflexivity.
Defined.

Lemma Accept_never_displaces_live_turn_witness :
  let w := Demo.busy_world in
  graph_of (Accept Demo.identity Demo.action w).2 !! Demo.player_id = graph_of w !! Demo.player_id.
Proof.
  cbv zeta. apply (Accept_never_displaces_live_turn Demo.identity Demo.action "turn-a1" Demo.turn_id
    Demo.busy_world); [vm_compute; reflexivity|].
  eexists _, Demo.other_turn_id, PhaseNarrating. split_and!; [vm_compute; reflexivity|in_target|done..].
Defined.

Lemma transition_off_edge_writes_no_phase_witness :
  let w := Demo.turn_world PhaseApplying [] in
  graph_of (transition "turn-a1" Demo.turn_id PhaseResolving EmptyString zero_Ref w).2 = graph_of w.
Proof.
  cbv zeta. pose proof (transition_off_edge_writes_no_phase "turn-a1" Demo.turn_id PhaseResolving
    EmptyString zero_Ref PhaseApplying (Demo.turn_world PhaseApplying []) eq_refl eq_refl) as Ht.
  destruct (transition _ _ _ _ _ _) as [r w']. by apply Ht.
Defined.
