(* ===== verification/CampaignSpec.v ===== *)
(** What a campaign's claim and import marker guarantee: one seed for ever, a
    marker only from the claim that created the campaign, and a wait for it
    that ends. *)

From stdpp Require Import relations.
From S2P Require Import Prelude GoStd GoHash GoErrors Graph Vocab Vocabulary Payload ProjectionContract Store Campaign GraphIO Turn MemStore TurnSpec.

Open Scope Z_scope.

(** Minting a seed leaves the graph alone and yields 32 bytes. *)
Class MinterLaws (W : Type) `{HasGraph W, Minter W} : Prop := {
  newSeed_spec w : wp newSeed (fun r w' => graph_of w' = graph_of w /\
    match r with Ok s => Seed_wf s | Err _ => True end) w
}.

(** An instant that was formatted parses back. *)
Class TimeTextLaws `{TimeText} : Prop := {
  Parse_Format t : ParseRFC3339Nano (FormatRFC3339Nano t) = Some t
}.

(** ** The seed's text *)

Lemma Seed_String_nonempty s : Seed_wf s -> Seed_String s <> EmptyString.
Proof. intros [Hl _]. by destruct s. Qed.

Lemma ParseSeed_ok str s :
  ParseSeed str = Ok s ->
  DecodeString str = Some s /\ Seed_wf s /\ Seed_IsZero s = false.
Proof.
  unfold ParseSeed. destruct (String.eqb str EmptyString); [done|].
  destruct (DecodeString str) as [raw|] eqn:E; [|done].
  destruct (Nat.eqb (List.length raw) SeedBytes) eqn:El; cbn [negb]; [|done].
  destruct (Seed_IsZero raw) eqn:Ez; [done|]. intros [= <-]. split; [done|]. split; [|done].
  split; [by apply Nat.eqb_eq|]. by apply (DecodeString_bytes _ _ _ (Nat.le_refl _) E).
Qed.

(** ** Provenance *)

Section spec.
Context {W : Type} `{Substrate, TimeText, HasGraph W, GraphStore W, Clock W, Minter W, Waits W}.
Context `{!GraphStoreLaws W, !MinterLaws W}.
Variable campaignID : string.

(** The seed and experience a graph records for the campaign. *)
Definition provenance (g : graph) : res (Seed * Experience) :=
  instantiationFromEntity (g !! campaignID) campaignID.

(** The predicates the provenance is read from. *)
Definition provenancePredicates : list string :=
  [CampaignSeedValue; CampaignExperiencePersonaPack; CampaignExperienceMechanicsPack].

Lemma instantiationFromEntity_objects e e' :
  (forall p, p ∈ provenancePredicates -> objectsFor e' p = objectsFor e p) ->
  instantiationFromEntity (Some e') campaignID = instantiationFromEntity (Some e) campaignID.
Proof.
  intros He. unfold instantiationFromEntity, seedFromEntity.
  assert (Hp : forall p, p ∈ provenancePredicates -> predicateObjects e' p = predicateObjects e p) by exact He.
  unfold mbind, result_bind, validateCampaignEntity. by rewrite !Hp by (apply list_elem_of_In; cbn; tauto).
Qed.

(** Nothing the gate does changes a provenance already on the record. *)
Definition keeps_provenance (g g' : graph) : Prop :=
  is_Some (g !! campaignID) -> is_Some (g' !! campaignID) /\ provenance g' = provenance g.

Lemma keeps_provenance_refl g : keeps_provenance g g.
Proof. by intros ?. Qed.

Lemma create_keeps_provenance want g g' :
  ID want = campaignID -> create_effect want g g' -> keeps_provenance g g'.
Proof. intros Hid [->|(Hn & _)] Hs; [done|]. rewrite Hid in Hn. rewrite Hn in Hs. by destruct Hs. Qed.

Lemma marker_keeps_provenance ts g g' :
  reconcile_effect CampaignImport campaignID ts g g' -> keeps_provenance g g'.
Proof.
  intros (e0 & e & Hg & Hr & ->) _. rewrite lookup_insert_eq. split; [done|].
  unfold provenance. rewrite lookup_insert_eq, Hg. apply instantiationFromEntity_objects.
  intros p Hp. apply (reconciled_out _ _ _ _ _ Hr).
  unfold provenancePredicates in Hp. closed_cases Hp; not_in_target.
Qed.

(** What a claim that returned promises. *)
Definition claim_post (minted : res Seed) (requested : Experience) (g g' : graph)
    (inst : Instantiation) : Prop :=
  i_CampaignID inst = campaignID /\ hasValidProof inst = true /\ i_Experience inst = requested /\
  is_Some (g' !! campaignID) /\ provenance g' = Ok (i_Seed inst, requested) /\
  (if i_Fresh inst then minted = Ok (i_Seed inst) else g' = g /\ is_Some (g !! campaignID)).

Lemma newInstantiation_valid id seed experience fresh :
  hasValidProof (newInstantiation id seed experience fresh) = true.
Proof. unfold hasValidProof. cbn. by apply bool_decide_eq_true. Qed.

Lemma confirmStoredInstantiation_ok stored minted requested :
  confirmStoredInstantiation campaignID stored minted requested = Ok tt ->
  instantiationFromEntity stored campaignID = Ok (minted, requested).
Proof.
  unfold confirmStoredInstantiation. destruct (instantiationFromEntity _ _) as [[s e]|]; [|done].
  case_bool_decide as Hs; [|done]. case_bool_decide as He; [|done]. by subst.
Qed.

Lemma newSeed_self w : wp newSeed (fun r w' => r = (newSeed w).1 /\ graph_of w' = graph_of w /\
    match r with Ok s => Seed_wf s | Err _ => True end) w.
Proof. pose proof (newSeed_spec w). done. Qed.

Lemma Claim_spec requested w :
  wp (Claim campaignID requested) (fun r w' =>
    keeps_provenance (graph_of w) (graph_of w') /\
    match r with
    | Ok inst => claim_post (newSeed w).1 requested (graph_of w) (graph_of w') inst
    | Err _ => True
    end) w.
Proof.
  unfold Claim. apply wp_lift_bind; [|intros; split; [apply keeps_provenance_refl|done]]. intros _ _.
  apply wp_bind. eapply wp_mono; [apply newSeed_self|]. intros r w0 (-> & Hg0 & _). rewrite <- Hg0.
  destruct (newSeed w).1 as [seed|err]; [|split; [apply keeps_provenance_refl|done]].
  destruct (Seed_IsZero seed); [split; [apply keeps_provenance_refl|done]|].
  apply wp_clock. intros t w1 <-. apply wp_bind, wp_attempt.
  eapply wp_mono; [apply CreateEntity_spec|]. intros [[stored rev]|err] w2 Hr.
  - assert (Hk : keeps_provenance (graph_of w1) (graph_of w2)).
    { eapply (create_keeps_provenance (gate_entity campaignID seed requested t)); [done|].
      by destruct stored; [apply Hr|]. }
    apply wp_lift_bind; [|done]. intros [] Hc%confirmStoredInstantiation_ok.
    destruct stored as [e|]; [|done]. destruct Hr as (_ & He & _). apply wp_ret. split; [done|].
    unfold claim_post, provenance. cbn [ID gate_entity] in He. rewrite He. split_and!; try done. apply newInstantiation_valid.
  - destruct Hr as [Hc Hex].
    assert (Hk : keeps_provenance (graph_of w1) (graph_of w2)) by (by apply (create_keeps_provenance (gate_entity campaignID seed requested t))).
    destruct (errors_Is ErrEntityExists err); [|by apply wp_throw].
    destruct (Hex eq_refl) as [Hg Hs]. cbn [ID gate_entity] in Hs. apply wp_get.
    rewrite Hg in *. intros [e|err'] w3 Hg3 Hload; [|apply wp_throw; by rewrite Hg3].
    destruct (instantiationFromEntity (Some e) campaignID) as [[s x]|] eqn:Ei;
      [|apply wp_throw; by rewrite Hg3].
    case_bool_decide as Hx; [subst x|apply wp_throw; by rewrite Hg3]. cbn [negb].
    apply wp_ret. rewrite Hg3. split; [done|]. unfold claim_post, provenance. rewrite Hload.
    split_and!; try done. apply newInstantiation_valid.
Qed.

(** The import marker a graph records. *)
Definition marked (g : graph) : option (list any) := objects_in g campaignID CampaignImportCompleted.

(** What the type system and the seal leave as the values [MarkImported] acts on. *)
Lemma hasValidProof_inv claim :
  hasValidProof claim = true ->
  claim = newInstantiation (i_CampaignID claim) (i_Seed claim) (i_Experience claim) (i_Fresh claim).
Proof.
  destruct claim as [id seed experience fresh [snap sl]]. unfold hasValidProof. cbn.
  intros [-> ->%bool_decide_eq_true]%andb_true_iff. reflexivity.
Qed.

Lemma MarkImported_spec claim w :
  wp (MarkImported campaignID claim) (fun r w' =>
    keeps_provenance (graph_of w) (graph_of w') /\
    (graph_of w' <> graph_of w ->
       claim = newInstantiation campaignID (i_Seed claim) (i_Experience claim) true) /\
    match r with
    | Ok t => marked (graph_of w') = Some [AString (FormatRFC3339Nano t)] /\
        only CampaignImportCompleted (graph_of w) (graph_of w')
    | Err _ => True
    end) w.
Proof.
  unfold MarkImported.
  assert (Hsame : keeps_provenance (graph_of w) (graph_of w) /\
    (graph_of w <> graph_of w ->
       claim = newInstantiation campaignID (i_Seed claim) (i_Experience claim) true) /\ True).
  { split_and!; [apply keeps_provenance_refl|done|done]. }
  destruct (sealed (i_proof claim)); cbn [negb]; [|by apply wp_throw].
  destruct (hasValidProof claim) eqn:Hv; cbn [negb]; [|by apply wp_throw].
  destruct (i_Fresh claim) eqn:Hf; cbn [negb]; [|by apply wp_throw].
  destruct (String.eqb_spec (i_CampaignID claim) campaignID) as [Hid|]; cbn [negb]; [|by apply wp_throw].
  apply hasValidProof_inv in Hv. rewrite Hid, Hf in Hv. clear Hsame.
  apply wp_clock. intros t w1 <-. apply wp_bind, wp_attempt.
  eapply wp_mono; [apply Reconcile_spec|]. intros [e|err] w2 Hr.
  - destruct Hr as [He _]. apply wp_ret. split_and!; [by eapply marker_keeps_provenance|done| |].
    + eapply reconcile_single; [done|in_target|]. reflexivity.
    + eapply only_reconcile; [|done]. vm_compute. reflexivity.
  - apply wp_throw. split_and!; [|done|done]. destruct Hr as [->|He]; [apply keeps_provenance_refl|].
    by eapply marker_keeps_provenance.
Qed.

Lemma ImportCompletion_spec w :
  wp (ImportCompletion campaignID) (fun r w' => graph_of w' = graph_of w /\
    match r with
    | Ok (t, true) => exists s, marked (graph_of w) = Some [AString s] /\ ParseRFC3339Nano s = Some t
    | Ok (_, false) => marked (graph_of w) = Some []
    | Err _ => True
    end) w.
Proof.
  unfold ImportCompletion. apply wp_bind. eapply wp_mono; [apply GetEntity_spec|].
  intros [e|err] w1 [Hg He]; [|done]. apply wp_lift. split; [done|].
  unfold marked, objects_in. rewrite He. cbn. change (predicateObjects e CampaignImportCompleted) with
    (objectsFor e CampaignImportCompleted).
  destruct (objectsFor e CampaignImportCompleted) as [|[] [|]]; try done.
  destruct (ParseRFC3339Nano s) eqn:Hp; [|done]. by exists s.
Qed.

(** *** Runs *)

Inductive gate_op : Type :=
| OpClaim (requested : Experience)
| OpLoadSeed
| OpMarkImported (claim : Instantiation)
| OpImportCompletion.

Definition run_gate (o : gate_op) : MW W unit :=
  match o with
  | OpClaim requested => _ ← Claim campaignID requested; mret tt
  | OpLoadSeed => _ ← LoadSeed campaignID; mret tt
  | OpMarkImported claim => _ ← MarkImported campaignID claim; mret tt
  | OpImportCompletion => _ ← ImportCompletion campaignID; mret tt
  end.

Inductive gate_step (w : W) : W -> Prop := gate_step_op o : gate_step w (run_gate o w).2.

Lemma gate_step_provenance w w' : gate_step w w' -> keeps_provenance (graph_of w) (graph_of w').
Proof.
  intros [o]. change (wp (run_gate o) (fun _ w' => keeps_provenance (graph_of w) (graph_of w')) w).
  destruct o as [requested| |claim|]; cbn [run_gate]; apply wp_bind.
  - eapply wp_mono; [apply Claim_spec|]. by intros [] w1 [? _].
  - eapply wp_mono with (P := fun _ w' => graph_of w' = graph_of w).
    + unfold LoadSeed. apply wp_bind. eapply wp_mono; [apply GetEntity_spec|]. by intros [] w1 [? _].
    + intros [] w1 Hg; [apply wp_ret|]; rewrite Hg; apply keeps_provenance_refl.
  - eapply wp_mono; [apply MarkImported_spec|]. by intros [] w1 [? _].
  - eapply wp_mono; [apply ImportCompletion_spec|].
    intros [] w1 [Hg _]; [apply wp_ret|]; rewrite Hg; apply keeps_provenance_refl.
Qed.

Lemma gate_run_provenance w w' :
  rtc gate_step w w' -> keeps_provenance (graph_of w) (graph_of w').
Proof.
  induction 1 as [|w w1 w' Hs _ IH]; [apply keeps_provenance_refl|].
  intros Hsome. apply gate_step_provenance in Hs. destruct (Hs Hsome) as [Hsome' Heq].
  destruct (IH Hsome') as [? ?]. split; [done|]. congruence.
Qed.
End spec.

(** ** The wait ends *)

(** Time as the waits see it: reading the clock or the store never goes back,
    and a pause lasts at least as long as it was asked to, unless the context
    ended it. *)
Class TimerLaws (W : Type) `{GraphStore W, Clock W, Waits W} : Type := {
  instant : W -> time;
  now_instant w : instant w <= (now w).1 /\ (now w).1 <= instant (now w).2;
  GetEntity_instant id w : instant w <= instant (GetEntity id w).2;
  pause_instant d w :
    match (pause d w).1 with Ok _ => instant w + d <= instant (pause d w).2 | Err _ => True end
}.

Section await.
Context {W : Type} `{Substrate, TimeText, HasGraph W, GraphStore W, Clock W, Waits W}.
Context `{!GraphStoreLaws W, !TimerLaws W}.
Variable campaignID : string.

Definition awaited (r : res (option time)) (w' : W) : Prop :=
  match r with
  | Ok None => False
  | Ok (Some t) => exists s, marked campaignID (graph_of w') = Some [AString s] /\
      ParseRFC3339Nano s = Some t
  | Err _ => True
  end.

Lemma ImportCompletion_instant w : instant w <= instant (ImportCompletion campaignID w).2.
Proof.
  unfold ImportCompletion, mbind, M_bind. pose proof (GetEntity_instant campaignID w).
  destruct (GetEntity campaignID w) as [[e|] w1]; done.
Qed.

Lemma awaitLoop_spec fuel deadline poll w :
  0 < poll -> deadline - instant w <= poll * Z.of_nat fuel ->
  wp (awaitLoop campaignID (S fuel) deadline poll) awaited w.
Proof.
  intros Hp. revert w. induction fuel as [|fuel IH]; intros w Hf;
    apply wp_bind; pose proof (ImportCompletion_instant w) as Hi;
    pose proof (ImportCompletion_spec campaignID w) as Hc; unfold wp in *;
    destruct (ImportCompletion campaignID w) as [[[t [|]]|err] w1]; cbn [fst snd] in *;
    try exact I; try (destruct Hc as [Hg Hc]; unfold awaited; cbn; rewrite Hg; exact Hc).
  all: pose proof (now_instant w1) as Hn; unfold mbind, M_bind, read_clock; destruct (now w1) as [t1 w2];
    cbn [fst snd] in *; destruct (Z.ltb_spec t1 deadline); cbn [negb]; try exact I; try lia.
  pose proof (pause_instant poll w2) as Hpause. destruct (pause poll w2) as [[u|err] w3]; [|exact I].
  cbn [fst snd] in *. apply IH. lia.
Qed.

Lemma AwaitImportCompletion_spec fuel wait poll w :
  wait / poll + 2 <= Z.of_nat fuel ->
  wp (AwaitImportCompletion campaignID fuel wait poll) awaited w.
Proof.
  intros Hf. unfold AwaitImportCompletion.
  destruct (Z.leb_spec wait 0), (Z.leb_spec poll 0); cbn [orb]; try by apply wp_throw.
  pose proof (Z.div_pos wait poll). pose proof (Z.mul_succ_div_gt wait poll).
  destruct fuel as [|fuel]; [lia|]. apply wp_bind. unfold wp at 1, read_clock.
  pose proof (now_instant w) as Hn. destruct (now w) as [start w1]. cbn [fst snd] in *.
  apply awaitLoop_spec; [done|]. nia.
Qed.
End await.

(** ** The guarantees *)

(** A campaign seed survives its text: printing a 32-byte seed and parsing it
    back gives the seed, and whatever parses is 32 bytes and not the zero seed. *)
Theorem ParseSeed_roundtrip s str s'
    (Hwf : Seed_wf s) (Hz : Seed_IsZero s = false) (Hp : ParseSeed str = Ok s') :
  ParseSeed (Seed_String s) = Ok s /\ Seed_wf s' /\ Seed_IsZero s' = false.
Proof.
  split; [|apply (ParseSeed_ok str s' Hp)]. unfold ParseSeed.
  pose proof (Seed_String_nonempty s Hwf) as Hne. destruct Hwf as [Hl Hb].
  rewrite (proj2 (String.eqb_neq _ _) Hne). unfold Seed_String.
  rewrite DecodeString_EncodeToString by done.
  by rewrite Hl, Hz.
Qed.

Section guarantees.
Context {W : Type} `{Substrate, TimeText, HasGraph W, GraphStore W, Clock W, Minter W, Waits W}.
Context `{!GraphStoreLaws W, !MinterLaws W}.
Variable campaignID : string.

(** A claim that returns reports the provenance on the record; it is fresh
    only with the seed it minted itself, and otherwise it wrote nothing. *)
Theorem Claim_contract requested (w : W) inst w'
    (Hrun : Claim campaignID requested w = (Ok inst, w')) :
  claim_post campaignID (newSeed w).1 requested (graph_of w) (graph_of w') inst.
Proof. exact (proj2 (wp_elim _ _ _ _ _ (Claim_spec campaignID requested w) Hrun)). Qed.

(** C8: a campaign has one seed and one experience for ever: whatever claims,
    loads and import marks run in between, two claims that return agree on
    both, so a fresh one among the later is a claim that minted that same seed. *)
Theorem claims_agree r1 r2 (w1 w1' w2 w2' : W) i1 i2
    (Hc1 : Claim campaignID r1 w1 = (Ok i1, w1'))
    (Hrun : rtc (gate_step campaignID) w1' w2)
    (Hc2 : Claim campaignID r2 w2 = (Ok i2, w2')) :
  i_CampaignID i1 = i_CampaignID i2 /\ i_Seed i1 = i_Seed i2 /\ i_Experience i1 = i_Experience i2 /\
  (i_Fresh i2 = true -> (newSeed w2).1 = Ok (i_Seed i1)).
Proof.
  destruct (wp_elim _ _ _ _ _ (Claim_spec campaignID r1 w1) Hc1) as (_ & Hid1 & _ & He1 & Hs1 & Hp1 & _).
  destruct (wp_elim _ _ _ _ _ (Claim_spec campaignID r2 w2) Hc2) as (Hk & Hid2 & _ & He2 & _ & Hp2 & Hf2).
  destruct (gate_run_provenance campaignID _ _ Hrun Hs1) as [Hs Hp].
  apply Hk in Hs as [_ Hp']. rewrite Hp', Hp, Hp1 in Hp2. injection Hp2 as Hseed Hreq.
  split_and!; [congruence..|]. intros Hfresh. rewrite Hfresh in Hf2. congruence.
Qed.

(** The import marker is written only for a claim sealed fresh on this very
    campaign, never disturbs the provenance, and then is the one instant the
    completion check reads back. *)
Theorem MarkImported_contract `{!TimeTextLaws} claim (w : W) r w'
    (Hrun : MarkImported campaignID claim w = (r, w')) :
  (graph_of w' <> graph_of w ->
     claim = newInstantiation campaignID (i_Seed claim) (i_Experience claim) true) /\
  (is_Some (graph_of w !! campaignID) -> provenance campaignID (graph_of w') = provenance campaignID (graph_of w)) /\
  (forall t e, r = Ok t -> graph_of w' !! campaignID = Some e ->
     completionFromEntity (Some e) campaignID = Ok (t, true)).
Proof.
  destruct (wp_elim _ _ _ _ _ (MarkImported_spec campaignID claim w) Hrun) as (Hk & Hg & Hr).
  split_and!; [done|intros Hs; by apply Hk|]. intros t e -> He. destruct Hr as [Hm _].
  unfold marked, objects_in in Hm. rewrite He in Hm. apply (inj Some) in Hm.
  unfold completionFromEntity, predicateObjects. unfold objectsFor, triplesFor in Hm.
  by rewrite Hm, Parse_Format.
Qed.

(** Waiting for another boot's import ends: with fuel for [wait / poll + 2]
    polls the loop never runs out, and a wait that returns an instant read it
    from the campaign's marker. *)
Theorem AwaitImportCompletion_terminates `{!TimerLaws W} fuel wait poll (w : W)
    (Hfuel : wait / poll + 2 <= Z.of_nat fuel) :
  let '(r, w') := AwaitImportCompletion campaignID fuel wait poll w in
  match r with
  | Ok None => False
  | Ok (Some t) => exists s, marked campaignID (graph_of w') = Some [AString s] /\
      ParseRFC3339Nano s = Some t
  | Err _ => True
  end.
Proof.
  destruct (AwaitImportCompletion _ _ _ _ _) as [r w'] eqn:E.
  exact (wp_elim _ _ _ _ _ (AwaitImportCompletion_spec campaignID fuel wait poll w Hfuel) E).
Qed.
End guarantees.

(** ** On the in-memory world *)

#[export] Instance mem_seed_laws : MinterLaws World.
Proof.
  split. intros w. unfold wp. cbn [newSeed mem_seeds fst snd]. split; [done|].
  split; [apply repeat_length|]. apply Forall_forall. intros b ->%list_elem_of_In%repeat_spec.
  unfold is_byte. pose proof (Z.mod_pos_bound (w_clock w) 255 ltac:(lia)).
  apply andb_true_iff. split; [apply Z.leb_le|apply Z.ltb_lt]; lia.
Qed.

Lemma bits_to_of p : bits_to (bits_of p) = Some p.
Proof.
  induction p as [p IH|p IH|]; [..|done]; cbn [bits_of bits_to]; rewrite IH; [|done].
  by destruct p.
Qed.

#[export] Instance mem_time_laws : TimeTextLaws.
Proof. split. intros [|p|p]; cbn; by rewrite ?bits_to_of. Qed.

Lemma mem_GetEntity_clock id (w : World) : w_clock (GetEntity id w).2 = w_clock w.
Proof.
  change (wp (graphio_GetEntity id) (fun _ w' => w_clock w' = w_clock w) w).
  unfold graphio_GetEntity. apply wp_lift_bind; [|done]. intros _ _. apply wp_bind, wp_attempt.
  unfold wp at 1. cbn [ReadAuthoritative mem_client]. unfold mem_Read.
  destruct (w_graph w !! id); cbn [fst snd]; wp_steps; done.
Qed.

#[export] Instance mem_timer : TimerLaws World.
Proof.
  refine {| instant := w_clock |}; [cbn; lia| |cbn; lia].
  intros id w. by rewrite mem_GetEntity_clock.
Defined.

Definition demo_seed : Seed := repeat 7 SeedBytes.

Lemma ParseSeed_roundtrip_witness :
  Seed_wf demo_seed /\ ParseSeed (Seed_String demo_seed) = Ok demo_seed.
Proof.
  assert (Hwf : Seed_wf demo_seed) by (split; [done|repeat constructor]).
  split; [done|]. apply (ParseSeed_roundtrip demo_seed (Seed_String demo_seed) demo_seed);
    [done|vm_compute; reflexivity..].
Defined.

Definition demo_campaign : string := "acme.semmachina.barrow.case.campaign.main".
Definition demo_experience : Experience := {| PersonaPack := "gm-v1"; MechanicsPack := "pbta-2d6" |}.
Definition demo_claimed : World := (Claim demo_campaign demo_experience (Demo.world [])).2.

Lemma Claim_contract_witness :
  exists inst w', Claim demo_campaign demo_experience (Demo.world [UnknownCommitted]) = (Ok inst, w') /\
    i_Fresh inst = true /\
    claim_post demo_campaign (newSeed (Demo.world [UnknownCommitted])).1 demo_experience
      (graph_of (Demo.world [UnknownCommitted])) (graph_of w') inst.
Proof.
  eexists _, _. split; [vm_compute; reflexivity|]. split; [reflexivity|].
  apply (Claim_contract demo_campaign). vm_compute. reflexivity.
Defined.

Lemma claims_agree_witness :
  exists i1 i2 w1' w2', Claim demo_campaign demo_experience (Demo.world []) = (Ok i1, w1') /\
    Claim demo_campaign demo_experience w1' = (Ok i2, w2') /\
    i_Fresh i1 = true /\ i_Fresh i2 = false /\ i_Seed i1 = i_Seed i2.
Proof.
  eexists _, _, _, _. split; [vm_compute; reflexivity|]. split; [vm_compute; reflexivity|].
  split; [reflexivity|]. split; [reflexivity|].
  eapply (claims_agree demo_campaign demo_experience demo_experience (Demo.world []) demo_claimed demo_claimed);
    [vm_compute; reflexivity|apply rtc_refl|vm_compute; reflexivity].
Defined.

Lemma MarkImported_contract_witness :
  exists t w', MarkImported demo_campaign
      (newInstantiation demo_campaign demo_seed demo_experience true) demo_claimed = (Ok t, w') /\
    forall e, graph_of w' !! demo_campaign = Some e ->
      completionFromEntity (Some e) demo_campaign = Ok (t, true).
Proof.
  eexists _, _. split; [vm_compute; reflexivity|]. intros e He.
  eapply (MarkImported_contract demo_campaign
    (newInstantiation demo_campaign demo_seed demo_experience true) demo_claimed);
    [vm_compute; reflexivity|reflexivity|exact He].
Defined.

Lemma AwaitImportCompletion_terminates_witness :
  (AwaitImportCompletion demo_campaign 6 10 3 demo_claimed).1 <> Ok None.
Proof.
  pose proof (AwaitImportCompletion_terminates demo_campaign 6 10 3 demo_claimed ltac:(vm_compute; done)) as Ha.
  destruct (AwaitImportCompletion _ _ _ _ _) as [r w']. cbn [fst]. by intros ->.
Defined.
