(* ===== verification/DiceSpec.v ===== *)
(** What the dice guarantee: a roll that always satisfies its own contract,
    modifier bounds that keep every outcome reachable, and one roll per turn,
    re-derived exactly from its recorded inputs. *)

From stdpp Require Import relations.
From S2P Require Import Prelude GoStd GoHash GoErrors Graph Vocab Vocabulary Payload Mechanics ProjectionContract Store Campaign Dice GraphIO Turn MemStore TurnSpec.

Open Scope Z_scope.

(** ** One roll *)

Lemma roll_dice_spec n faces generator total :
  0 < faces ->
  let '(dice, total') := roll_dice n faces generator total in
  List.length dice = n /\ Forall (fun d => 1 <= d <= faces) dice /\
  total' = fold_left int_add dice total.
Proof.
  intros Hf. revert generator total. induction n as [|n IH]; intros generator total; cbn [roll_dice].
  { split_and!; [done|constructor|done]. }
  destruct (Uint64 generator) as [draw generator'].
  specialize (IH generator' (int_add total (draw mod faces + 1))).
  destruct (roll_dice n faces generator' _) as [dice total']. destruct IH as (Hl & Ha & Ht).
  split_and!; [cbn; by rewrite Hl|constructor; [|done]|done].
  pose proof (Z.mod_pos_bound draw faces Hf). lia.
Qed.

Lemma mechanic_rows m spec :
  MechanicSpecFor m = Ok spec ->
  Mechanic spec = m /\ Vocabulary.Dice spec = 2 /\ Faces spec = 6 /\ MaxMissTotal spec = 6 /\
  MaxPartialTotal spec = 9.
Proof.
  unfold MechanicSpecFor, mechanicSpecs. destruct (list_to_map _ !! m) eqn:E; [|done].
  intros [= <-]. by table_cases E.
Qed.

Lemma BandForTotal_roll spec total : BandForTotal spec total ∈ RollBands.
Proof.
  unfold BandForTotal, RollBands. destruct (total <=? _); [left|]. destruct (total <=? _); [right; left|].
  right; right; left.
Qed.

Section roll.
Context `{Substrate}.

Definition rolled (spec : MechanicSpec) (seed : Seed) (campaignID turnID : string)
    (modifiers : list Modifier) : RollResult :=
  let '(dice, diceTotal) := roll spec (sha256 (seed ++ bytes_of turnID)) in
  let total := int_add diceTotal (SumModifiers modifiers) in
  {| r_TurnID := turnID; r_Mechanic := Mechanic spec; r_RNGVersion := RNGVersion;
     r_Seed := {| ss_CampaignID := campaignID; ss_TurnID := turnID |};
     r_Dice := dice; r_Modifiers := modifiers; r_ModifierTotal := SumModifiers modifiers;
     r_Total := total; r_Band := BandForTotal spec total |}.

Lemma Roll_shape spec seed campaignID turnID modifiers r :
  Roll spec seed campaignID turnID modifiers = Ok r ->
  r = rolled spec seed campaignID turnID modifiers /\ RollResult_Validate r = Ok tt.
Proof.
  unfold Roll, SeedFor, rolled, Seed_Bytes. destruct (Seed_IsZero seed); [done|].
  destruct (wrapf "turn id" _); [|done]. cbn [mbind result_bind].
  destruct (roll spec _) as [dice diceTotal]. intros ([] & Hv%wrapf_ok & [= <-])%result_bind_ok. done.
Qed.

Lemma Roll_total m spec seed campaignID turnID modifiers :
  MechanicSpecFor m = Ok spec -> Seed_IsZero seed = false -> ValidateIDSegment turnID = Ok tt ->
  requireEntityID "seed.campaign_id" campaignID = Ok tt -> validateModifiers modifiers = Ok tt ->
  Roll spec seed campaignID turnID modifiers = Ok (rolled spec seed campaignID turnID modifiers).
Proof.
  intros Hm Hz Ht Hc Hmods. destruct (mechanic_rows _ _ Hm) as (Hname & Hdice & Hfaces & _).
  unfold Roll, SeedFor. rewrite Hz, Ht. unfold rolled, Seed_Bytes, roll. rewrite Hdice, Hfaces.
  cbn [wrapf mbind result_bind].
  pose proof (roll_dice_spec 2 6 (generator_of (sha256 (seed ++ bytes_of turnID))) 0 ltac:(lia)) as Hr.
  change (Z.to_nat 2) with 2%nat.
  destruct (roll_dice 2 6 _ 0) as [dice total]. destruct Hr as (Hl & Ha & ->).
  match goal with |- context [RollResult_Validate ?r] => assert (Hv : RollResult_Validate r = Ok tt) end.
  2: { by rewrite Hv. }
  unfold RollResult_Validate, validateRollArithmetic.
  cbn [r_TurnID r_Mechanic r_RNGVersion r_Seed ss_CampaignID ss_TurnID r_Dice r_Modifiers r_ModifierTotal
    r_Total r_Band].
  rewrite (proj2 (requireIDSegment_ok _ _) Ht), Hname, Hm. cbn [mbind result_bind].
  change (ParseRNG RNGVersion) with (Ok RNGVersion : res string). cbn [mbind result_bind].
  rewrite Hc, String.eqb_refl, Hdice, Hl, Hmods, !Z.eqb_refl. cbn [require mbind result_bind Z.of_nat Z.eqb Pos.of_succ_nat Pos.succ Pos.eqb].
  rewrite (proj2 (all_ok_Forall _ dice tt)).
  2: { eapply Forall_impl; [exact Ha|]. intros d Hd. unfold ValidDie. rewrite Hfaces.
       destruct Hd as [->%Z.leb_le ->%Z.leb_le]. done. }
  cbn [require mbind result_bind].
  pose proof (BandForTotal_roll spec (int_add (fold_left int_add dice 0) (SumModifiers modifiers))) as Hb.
  unfold requireBandForTotal. rewrite String.eqb_refl.
  set (band := BandForTotal spec _) in *. clearbody band. unfold RollBands in Hb.
  closed_cases Hb; reflexivity.
Qed.
End roll.

(** ** Recorded rolls *)

Section recorded.
Context `{Substrate}.

Lemma recordedRoll_objects e e' :
  (forall p, p ∈ [TurnRollBand; TurnRollTotal; TurnRollRef] -> objectsFor e' p = objectsFor e p) ->
  recordedRoll e' = recordedRoll e.
Proof.
  intros He. unfold recordedRoll. by rewrite !He by (apply list_elem_of_In; cbn; tauto).
Qed.

Lemma recordedRoll_none e :
  recordedRoll e = Ok None ->
  objectsFor e TurnRollBand = [] /\ objectsFor e TurnRollTotal = [] /\ objectsFor e TurnRollRef = [].
Proof.
  unfold recordedRoll.
  destruct (objectsFor e TurnRollBand) as [|b [|]], (objectsFor e TurnRollTotal) as [|t [|]],
    (objectsFor e TurnRollRef) as [|r [|]]; cbn; try done.
  destruct b; try done. by destruct (asInt t).
Qed.

Lemma recordedRoll_written e band total ref :
  objectsFor e TurnRollBand = [AString band] -> objectsFor e TurnRollTotal = [AInt total] ->
  objectsFor e TurnRollRef = [AString ref] ->
  recordedRoll e = Ok (Some {| rr_band := band; rr_total := total |}).
Proof. intros Hb Ht Hr. unfold recordedRoll. by rewrite Hb, Ht, Hr. Qed.

Lemma agreesWith_ok s r : agreesWith s r = Ok tt <-> rr_band s = r_Band r /\ rr_total s = r_Total r.
Proof.
  unfold agreesWith. destruct (String.eqb_spec (rr_band s) (r_Band r)), (Z.eqb_spec (rr_total s) (r_Total r));
    cbn; naive_solver.
Qed.

Lemma RollResult_Triples_ok r id ref source at_ ts :
  RollResult_Triples r id ref source at_ = Ok ts ->
  map (fun t => (Predicate t, Object t)) ts =
    [(TurnRollBand, AString (r_Band r)); (TurnRollTotal, AInt (r_Total r)); (TurnRollRef, AString ref)].
Proof. intros (-> & _)%build_ok. reflexivity. Qed.

(** What a graph records of a turn's roll. *)
Definition roll_in (g : graph) (turn : string) : option (res (option recordedRollState)) :=
  recordedRoll <$> g !! turn.

Lemma reconcile_roll turn r ref source at_ ts g g' :
  RollResult_Triples r turn ref source at_ = Ok ts -> reconcile_effect TurnRoll turn ts g g' ->
  roll_in g' turn = Some (Ok (Some {| rr_band := r_Band r; rr_total := r_Total r |})).
Proof.
  intros Hts%RollResult_Triples_ok He.
  assert (Hw : forall p o, p ∈ Predicates TurnRoll -> objects_of p (map (fun t => (Predicate t, Object t)) ts) = [o] ->
    objects_in g' turn p = Some [o]) by (intros p o ??; by eapply reconcile_single).
  rewrite Hts in Hw.
  pose proof (Hw TurnRollBand _ ltac:(in_target) eq_refl) as Hb.
  pose proof (Hw TurnRollTotal _ ltac:(in_target) eq_refl) as Ht.
  pose proof (Hw TurnRollRef _ ltac:(in_target) eq_refl) as Hr.
  unfold objects_in, roll_in in *. destruct (g' !! turn) as [e|]; [|done].
  apply (inj Some) in Hb, Ht, Hr. cbn. f_equal. by eapply recordedRoll_written.
Qed.
End recorded.

Section resolve.
Context {W : Type} `{Substrate, HasGraph W, GraphStore W, Clock W}.
Context `{!GraphStoreLaws W}.

(** What a resolution that returned promises. *)
Definition resolve_post (rv : Resolver) (v : Verdict) (turn : string) (g : graph) (res : Resolution) : Prop :=
  v_RequiresRoll (v_Scalars v) = true /\
  rs_Roll res = rolled (rv_roller rv) (rv_seed rv) (rv_campaignID rv) (v_TurnID v) (v_Modifiers v) /\
  RollResult_Validate (rs_Roll res) = Ok tt /\
  roll_in g turn =
    Some (Ok (if rs_Rolled res then None
              else Some {| rr_band := r_Band (rs_Roll res); rr_total := r_Total (rs_Roll res) |})).

Lemma Resolve_spec rv v turn w :
  wp (Resolve rv (Some v) turn) (fun r w' => graph_of w' = graph_of w /\
    match r with Ok res => resolve_post rv v turn (graph_of w) res | Err _ => True end) w.
Proof.
  unfold Resolve. apply wp_lift_bind; [|done]. intros _ _. apply wp_lift_bind; [|done]. intros _ _.
  destruct (v_RequiresRoll (v_Scalars v)) eqn:Hr; cbn [negb]; [|by apply wp_throw].
  apply wp_get. intros [e|err] w1 Hg He; [|by apply wp_throw].
  apply wp_lift_bind; [|done]. intros r [Hshape Hv]%Roll_shape.
  assert (Hin : roll_in (graph_of w) turn = Some (recordedRoll e)) by (unfold roll_in; by rewrite He).
  destruct (recordedRoll e) as [[s|]|err]; [| |by apply wp_throw].
  - destruct (agreesWith s r) as [[]|] eqn:Ha; [|by apply wp_throw].
    apply agreesWith_ok in Ha as [Hb Ht]. apply wp_ret. split; [done|]. split_and!; [done..|].
    rewrite Hin. destruct s as [band total]. cbn in *. by subst band total.
  - apply wp_ret. split; [done|]. by split_and!.
Qed.
End resolve.

(** ** The guarantees *)

Section guarantees.
Context `{Substrate}.

(** Rolling never fails on valid inputs: for any known mechanic, a seed that
    was generated, a valid turn and campaign and modifiers inside their
    bounds, the roller returns a record, and the record satisfies the
    contract every reader re-checks (dice in range and count, sums, band). *)
Theorem Roll_is_total m spec seed campaignID turnID modifiers
    (Hm : MechanicSpecFor m = Ok spec) (Hz : Seed_IsZero seed = false)
    (Ht : ValidateIDSegment turnID = Ok tt)
    (Hc : requireEntityID "seed.campaign_id" campaignID = Ok tt)
    (Hmods : validateModifiers modifiers = Ok tt) :
  exists r, Roll spec seed campaignID turnID modifiers = Ok r /\ RollResult_Validate r = Ok tt /\
    Forall (fun d => 1 <= d <= Faces spec) (r_Dice r) /\
    Z.of_nat (List.length (r_Dice r)) = Vocabulary.Dice spec.
Proof.
  eexists. split; [by eapply Roll_total|].
  pose proof (Roll_total m spec seed campaignID turnID modifiers Hm Hz Ht Hc Hmods) as Hr.
  split; [apply (Roll_shape _ _ _ _ _ _ Hr)|]. destruct (mechanic_rows _ _ Hm) as (_ & Hd & Hf & _).
  unfold rolled, roll. rewrite Hd, Hf.
  pose proof (roll_dice_spec (Z.to_nat 2) 6 (generator_of (sha256 (seed ++ bytes_of turnID))) 0 ltac:(lia)) as Hs.
  destruct (roll_dice _ 6 _ 0) as [dice total]. destruct Hs as (Hl & Ha & _). cbn [r_Dice].
  split; [done|]. rewrite Hl. lia.
Qed.

(** The modifier budget is exactly right: every band the dice can select is
    reachable by some throw of the mechanic's dice if and only if the summed
    modifiers pass [checkModifierTotal]. *)
Theorem modifier_budget_keeps_bands_reachable m spec total
    (Hm : MechanicSpecFor m = Ok spec) :
  checkModifierTotal total = Ok tt <->
  forall band, band ∈ RollBands -> exists d1 d2,
    ValidDie spec d1 = true /\ ValidDie spec d2 = true /\ BandForTotal spec (d1 + d2 + total) = band.
Proof.
  destruct (mechanic_rows _ _ Hm) as (_ & _ & Hf & Hmiss & Hpart).
  unfold ValidDie, BandForTotal, checkModifierTotal. rewrite Hf, Hmiss, Hpart.
  unfold MinModifierTotal, MaxModifierTotal. split.
  - destruct (Z.ltb_spec total (-2)), (Z.ltb_spec 4 total); cbn [orb]; try done. intros _ band Hb.
    unfold RollBands in Hb. closed_cases Hb.
    + exists 1, 1. split_and!; [done..|]. destruct (Z.leb_spec (1 + 1 + total) 6); [done|lia].
    + assert (Hd : exists d1 d2, 1 <= d1 <= 6 /\ 1 <= d2 <= 6 /\ 7 <= d1 + d2 + total <= 9).
      { destruct (Z.leb_spec total 2); [exists 6, (3 - total)|exists 1, 4]; lia. }
      destruct Hd as (d1 & d2 & ? & ? & ?). exists d1, d2.
      destruct (Z.leb_spec 1 d1), (Z.leb_spec d1 6), (Z.leb_spec 1 d2), (Z.leb_spec d2 6),
        (Z.leb_spec (d1 + d2 + total) 6), (Z.leb_spec (d1 + d2 + total) 9); try lia. done.
    + exists 6, 6. split_and!; [done..|].
      destruct (Z.leb_spec (6 + 6 + total) 6), (Z.leb_spec (6 + 6 + total) 9); try lia. done.
  - intros Hall. destruct (Hall BandMiss) as (d1 & d2 & Hd1 & Hd2 & Hb); [left|].
    destruct (Hall BandFull) as (d1' & d2' & Hd1' & Hd2' & Hb'); [right; right; left|].
    apply andb_true_iff in Hd1 as [?%Z.leb_le ?%Z.leb_le], Hd2 as [?%Z.leb_le ?%Z.leb_le].
    apply andb_true_iff in Hd1' as [?%Z.leb_le ?%Z.leb_le], Hd2' as [?%Z.leb_le ?%Z.leb_le].
    destruct (Z.ltb_spec total (-2)) as [Hlo|]; cbn [orb].
    + exfalso. destruct (Z.leb_spec (d1' + d2' + total) 6); [done|].
      destruct (Z.leb_spec (d1' + d2' + total) 9); [done|lia].
    + destruct (Z.ltb_spec 4 total); [|done]. exfalso.
      destruct (Z.leb_spec (d1 + d2 + total) 6); [lia|]. by destruct (Z.leb_spec (d1 + d2 + total) 9).
Qed.
End guarantees.

Section resolving.
Context {W : Type} `{Substrate, HasGraph W, GraphStore W, Clock W}.
Context `{!GraphStoreLaws W}.

(** Resolving a turn writes nothing, is refused for a verdict that declines
    the dice, and returns the one roll the turn's inputs derive: as a new roll
    exactly when the turn records none, and as the recorded one exactly when
    what is recorded agrees with it in band and total. *)
Theorem Resolve_contract rv v turn (w : W) r w'
    (Hrun : Resolve rv (Some v) turn w = (r, w')) :
  graph_of w' = graph_of w /\
  (v_RequiresRoll (v_Scalars v) = false -> forall res, r <> Ok res) /\
  (forall res, r = Ok res -> resolve_post rv v turn (graph_of w) res).
Proof.
  destruct (wp_elim _ _ _ _ _ (Resolve_spec rv v turn w) Hrun) as [Hg Hr]. split; [done|]. split.
  - intros Hno res ->. destruct Hr as [Hyes _]. congruence.
  - by intros res ->.
Qed.

(** C4: a turn is rolled once: after a roll was recorded, every later resolution
    of the same verdict that returns returns that same roll and does not roll again. *)
Theorem recorded_roll_is_never_rerolled rv v turn ref source at_ ts (w0 w1 w2 w : W) res1 res2
    (Hfirst : Resolve rv (Some v) turn w0 = (Ok res1, w1))
    (Hts : RollResult_Triples (rs_Roll res1) turn ref source at_ = Ok ts)
    (Hwrite : reconcile_effect TurnRoll turn ts (graph_of w1) (graph_of w))
    (Hsecond : Resolve rv (Some v) turn w = (Ok res2, w2)) :
  rs_Rolled res2 = false /\ rs_Roll res2 = rs_Roll res1.
Proof.
  destruct (wp_elim _ _ _ _ _ (Resolve_spec rv v turn w0) Hfirst) as [_ (_ & Hr1 & _ & _)].
  destruct (wp_elim _ _ _ _ _ (Resolve_spec rv v turn w) Hsecond) as [_ (_ & Hr2 & _ & Hin)].
  rewrite (reconcile_roll _ _ _ _ _ _ _ _ Hts Hwrite) in Hin.
  split; [|congruence]. by destruct (rs_Rolled res2).
Qed.
End resolving.

(** ** At work on the in-memory world *)

Definition demo_spec : MechanicSpec := {| Mechanic := Mechanic2d6PbtaV1; Vocabulary.Dice := 2; Faces := 6;
  MaxMissTotal := 6; MaxPartialTotal := 9 |}.

Lemma Roll_is_total_witness :
  exists r, Roll demo_spec (repeat 7 SeedBytes) "acme.semmachina.barrow.case.campaign.main" "turn-a1" [] = Ok r.
Proof.
  destruct (Roll_is_total Mechanic2d6PbtaV1 demo_spec (repeat 7 SeedBytes)
    "acme.semmachina.barrow.case.campaign.main" "turn-a1" []) as (r & Hr & _);
    [vm_compute; reflexivity..|by exists r].
Defined.

Lemma modifier_budget_keeps_bands_reachable_witness :
  exists d1 d2, ValidDie demo_spec d1 = true /\ ValidDie demo_spec d2 = true /\
    BandForTotal demo_spec (d1 + d2 + 4) = BandMiss.
Proof.
  apply (modifier_budget_keeps_bands_reachable Mechanic2d6PbtaV1 demo_spec 4);
    [vm_compute; reflexivity|vm_compute; reflexivity|left].
Defined.

Definition demo_resolver : Resolver := {|
  rv_roller := demo_spec; rv_campaignID := "acme.semmachina.barrow.case.campaign.main";
  rv_seed := repeat 7 SeedBytes |}.

Definition demo_verdict : Verdict := {|
  v_TurnID := "turn-a1"; v_ActionID := "a1"; v_SceneID := "acme.semmachina.barrow.case.scene.hall";
  v_Scalars := {| v_Plausibility := PlausibilityPlausible; v_Risk := RiskLow;
                  v_Consequence := ConsequenceSetback; v_RequiresRoll := true |};
  v_Modifiers := []; v_Bands := list_to_map [(BandMiss, []); (BandPartial, []); (BandFull, [])];
  v_Rationale := "the hall is dark" |}.

Lemma Resolve_contract_witness :
  exists res, (Resolve demo_resolver (Some demo_verdict) Demo.turn_id (Demo.turn_world PhaseResolving [])).1 = Ok res /\
    resolve_post demo_resolver demo_verdict Demo.turn_id
      (graph_of (Demo.turn_world PhaseResolving [])) res.
Proof.
  eexists. split; [vm_compute; reflexivity|].
  eapply (Resolve_contract demo_resolver demo_verdict Demo.turn_id (Demo.turn_world PhaseResolving []));
    [vm_compute; reflexivity|reflexivity].
Defined.

Definition demo_roll : RollResult :=
  rolled demo_spec (repeat 7 SeedBytes) "acme.semmachina.barrow.case.campaign.main" "turn-a1" [].
Definition demo_first : Resolution := {| rs_Roll := demo_roll; rs_Rolled := true |}.
Definition demo_roll_triples : list Triple :=
  match RollResult_Triples demo_roll Demo.turn_id "obj://content/turn/roll" DiceSource 12 with
  | Ok ts => ts | Err _ => [] end.
Definition demo_unrolled : World := Demo.turn_world PhaseResolving [].
Definition demo_rolled : World := (Reconcile TurnRoll Demo.turn_id demo_roll_triples demo_unrolled).2.

Lemma recorded_roll_is_never_rerolled_witness :
  exists res, (Resolve demo_resolver (Some demo_verdict) Demo.turn_id demo_rolled).1 = Ok res /\
    rs_Rolled res = false /\ rs_Roll res = rs_Roll demo_first.
Proof.
  eexists. split; [vm_compute; reflexivity|].
  pose proof (Reconcile_spec TurnRoll Demo.turn_id demo_roll_triples demo_unrolled) as Hw.
  unfold wp in Hw. change (Reconcile TurnRoll Demo.turn_id demo_roll_triples demo_unrolled).2 with demo_rolled in Hw.
  destruct (Reconcile TurnRoll Demo.turn_id demo_roll_triples demo_unrolled).1 as [e|err] eqn:E;
    [|vm_compute in E; discriminate E].
  eapply (recorded_roll_is_never_rerolled demo_resolver demo_verdict Demo.turn_id
    "obj://content/turn/roll" DiceSource 12 demo_roll_triples demo_unrolled demo_unrolled
    demo_rolled demo_rolled demo_first);
    [vm_compute; reflexivity|vm_compute; reflexivity|exact (proj1 Hw)|vm_compute; reflexivity].
Defined.
