(* ===== verification/EffectSpec.v ===== *)
(** What the effect applier guarantees: a batch is refused whole and before any
    write, or every intent of it takes effect exactly as declared and nothing
    else in the world changes; and it is applied once. *)

From S2P Require Import Prelude GoStd GoErrors Graph Vocab Vocabulary Payload Mechanics ProjectionContract Store Effect GraphIO Turn MemStore TurnSpec.

Open Scope Z_scope.

(** ** The effect targets *)

Definition effectTargets : list Target :=
  [EffectTargetAttributes; EffectTargetStatus; EffectTargetLocation; EffectTargetRelationships].

(** Every predicate an effect can write. *)
Definition effectPredicates : list string := flat_map Predicates effectTargets.

Lemma EffectTarget_cases p t :
  EffectTargetForPredicate p = Some t -> t ∈ effectTargets /\ p ∈ Predicates t.
Proof.
  unfold EffectTargetForPredicate. destruct (AttributeForPredicate p) as [a|] eqn:Ea.
  { intros [= <-]. split; [left|]. apply AttributeForPredicate_spec in Ea.
    unfold attributePredicates in Ea. table_cases Ea; in_target. }
  destruct (RelationForPredicate p) as [r|] eqn:Er.
  { intros [= <-]. split; [do 3 right; left|]. apply RelationForPredicate_spec in Er.
    unfold relationPredicates in Er. table_cases Er; in_target. }
  destruct (String.eqb_spec p CharacterStatusCurrent) as [->|_].
  { intros [= <-]. split; [right; left|in_target]. }
  destruct (String.eqb_spec p WorldLocationCurrent) as [->|_]; [|done].
  intros [= <-]. split; [do 2 right; left|in_target].
Qed.

Lemma EffectTarget_group t p :
  t ∈ effectTargets -> p ∈ Predicates t -> EffectTargetForPredicate p = Some t.
Proof.
  intros Ht Hp.
  assert (Hall : forallb (fun t => forallb (fun p => bool_decide (EffectTargetForPredicate p = Some t))
    (Predicates t)) effectTargets = true) by (vm_compute; reflexivity).
  rewrite forallb_forall in Hall. specialize (Hall t (proj1 (list_elem_of_In _ _) Ht)). cbv beta in Hall.
  rewrite forallb_forall in Hall. specialize (Hall p (proj1 (list_elem_of_In _ _) Hp)). cbv beta in Hall.
  by apply bool_decide_eq_true in Hall.
Qed.

Lemma EffectTarget_marker p : EffectTargetForPredicate p <> None -> p ∉ Predicates TurnEffectMarker.
Proof.
  intros Hne Hp. apply Hne. autorewrite with contracts in Hp.
  closed_cases Hp; vm_compute; reflexivity.
Qed.

Lemma effectPredicates_target p : p ∈ effectPredicates <-> is_Some (EffectTargetForPredicate p).
Proof.
  unfold effectPredicates. rewrite list_elem_of_In, in_flat_map. split.
  - intros (t & Ht & Hp). exists t. by apply EffectTarget_group; apply list_elem_of_In.
  - intros [t Ht]. destruct (EffectTarget_cases _ _ Ht) as [Hin Hp]. exists t.
    split; by apply list_elem_of_In.
Qed.

(** ** The mutation an intent stands for *)

Section mutation.
Context `{Substrate}.

Definition is_relationship (i : EffectIntent) : bool :=
  String.eqb (i_Type i) EffectAddRelationship || String.eqb (i_Type i) EffectRemoveRelationship.

Lemma Mutation_shape i p o :
  Mutation i = Ok (p, o) ->
  is_Some (EffectTargetForPredicate p) /\
  IsMultiValued p = is_relationship i /\
  (is_relationship i = true -> exists s, o = AString s).
Proof.
  unfold Mutation, is_relationship. intros (_ & _ & Hm)%result_bind_ok.
  destruct (String.eqb_spec (i_Type i) EffectSetAttribute) as [->|_].
  { destruct (AttributeSpecFor (i_Attribute i)) as [spec|] eqn:Es; [|done].
    destruct (i_Value i) as [v|]; [|done]. injection Hm as <- <-.
    change (AttributeSpecFor (i_Attribute i)) with (DefaultAttributeSpecs !! i_Attribute i) in Es.
    assert (Hall : forallb (fun kv : string * AttributeSpec =>
      let p := as_Predicate kv.2 in
      bool_decide (is_Some (EffectTargetForPredicate p)) && negb (IsMultiValued p))
      (map_to_list DefaultAttributeSpecs) = true) by (vm_compute; reflexivity).
    pose proof (lookup_forallb _ _ _ _ Hall Es) as Hrow. clear Hall Es. cbn [snd] in Hrow.
    apply andb_true_iff in Hrow as [Ht%bool_decide_eq_true Hn%negb_true_iff].
    split; [done|]. split; [|done]. rewrite Hn. reflexivity. }
  destruct (String.eqb_spec (i_Type i) EffectSetStatus) as [->|_].
  { injection Hm as <- <-. split; [vm_compute; eauto|]. split; [vm_compute; reflexivity|done]. }
  destruct (String.eqb_spec (i_Type i) EffectMoveEntity) as [->|_].
  { injection Hm as <- <-. split; [vm_compute; eauto|]. split; [vm_compute; reflexivity|done]. }
  destruct (_ || _); [|done].
  destruct (RelationPredicate (i_Relation i)) as [q|] eqn:Er; [|done]. injection Hm as <- <-.
  unfold RelationPredicate, relationPredicates in Er.
  table_cases Er; (split; [vm_compute; eauto|]); (split; [vm_compute; reflexivity|eauto]).
Qed.
End mutation.

(** The tables behind the checks are evaluated above and never below, where a
    failed branch only has to say that the graph is still the same. *)
Ltac unchanged := split; [first [reflexivity | assumption | congruence]|exact I].

(** ** Planning reads, and refuses what is illegal against the graph *)

Section planning.
Context {W : Type} `{Substrate, HasGraph W, GraphStore W, Clock W}.
Context `{!GraphStoreLaws W}.

(** [wp_get] for callers whose failures are violations. *)
Lemma wp_get_as {A} id (k : res EntityState -> MV W A) Q w :
  (forall r w', graph_of w' = graph_of w ->
     match r with Ok e => graph_of w !! id = Some e | Err _ => True end -> wp (k r) Q w') ->
  wp (r ← attempt_as (GetEntity id); k r) Q w.
Proof.
  intros Hk. apply wp_bind, wp_attempt_as. eapply wp_mono; [apply GetEntity_spec|].
  intros r w' [Hg Hr]. apply Hk; [done|]. by destruct r.
Qed.

Definition seen_ok (g : graph) (seen : seen_map) : Prop :=
  forall id v, seen !! id = Some v -> g !! id = Some (ev_state v) /\ kindOf (ev_state v) = Ok (ev_kind v).

Lemma view_spec seen id w :
  seen_ok (graph_of w) seen ->
  wp (view seen id) (fun r w' => graph_of w' = graph_of w /\
    match r with
    | Ok (v, seen') => seen_ok (graph_of w) seen' /\ graph_of w !! id = Some (ev_state v) /\
        kindOf (ev_state v) = Ok (ev_kind v)
    | Err _ => True
    end) w.
Proof.
  intros Hs. unfold view. destruct (seen !! id) as [v|] eqn:E.
  { apply wp_ret. split; [done|]. split; [done|]. by apply Hs. }
  apply wp_get_as. intros [e|err] w1 Hg He; [|by case_match; apply wp_throw].
  apply wp_bind, wp_lift. destruct (kindOf e) as [k|v] eqn:Hk; [|done]. apply wp_ret.
  split; [done|]. split; [|done]. intros id' v'. rewrite lookup_insert_Some.
  intros [[<- <-]|[_ Hv]]; [done|by apply Hs].
Qed.

(** An intent that is legal against a graph: its target exists and may carry
    the predicate, its value is inside the world's bounds, and what it refers
    to exists, is another entity, and is of a kind the predicate may name. *)
Record intent_legal (specs : AttributeSpecSet) (g : graph) (i : EffectIntent) (p : string) (o : any) : Prop := {
  legal_mutation : Mutation i = Ok (p, o);
  legal_predicate : validateEffectPredicate p = Ok tt;
  legal_bounds : checkBounds specs p o = Ok tt;
  legal_target : exists e k, g !! i_Target i = Some e /\ kindOf e = Ok k /\ AllowsSubjectKind p k = true;
  legal_object : IsEntityReference p = true -> exists id e k, o = AString id /\ id <> i_Target i /\
    g !! id = Some e /\ kindOf e = Ok k /\ AllowsObjectKind p k = true
}.

Lemma checkReferencedObject_spec seen p target o w :
  seen_ok (graph_of w) seen ->
  wp (checkReferencedObject seen p target o) (fun r w' => graph_of w' = graph_of w /\
    match r with
    | Ok seen' => seen_ok (graph_of w) seen' /\ exists id e k, o = AString id /\ id <> target /\
        graph_of w !! id = Some e /\ kindOf e = Ok k /\ AllowsObjectKind p k = true
    | Err _ => True
    end) w.
Proof.
  intros Hs. destruct o; try by apply wp_throw. cbn [checkReferencedObject].
  destruct (String.eqb_spec s target) as [|Hne]; [by apply wp_throw|].
  apply wp_bind. eapply wp_mono; [by apply view_spec|]. intros [[v seen']|err] w1 [Hg Hr]; [|done].
  destruct Hr as (Hs' & He & Hk). destruct (AllowsObjectKind p (ev_kind v)) eqn:Ha; cbn [negb];
    [|apply wp_throw; unchanged]. apply wp_ret. split; [exact Hg|]. split; [exact Hs'|].
  exists s, (ev_state v), (ev_kind v). auto.
Qed.

(** One accepted intent: legal, and folded into the plan from its target's state. *)
Definition folded_from (g : graph) (built built' : plan) (i : EffectIntent) (p : string) (o : any) : Prop :=
  exists v write built1 write', g !! i_Target i = Some (ev_state v) /\
    plan_target built (i_Target i) = (write, built1) /\
    foldValue write v p o (i_Type i) = Ok write' /\
    built' = mkPlan (pl_order built1) (<[i_Target i := write']> (pl_targets built1)).

Lemma foldIntent_spec specs seen built i w :
  seen_ok (graph_of w) seen ->
  wp (foldIntent specs seen built i) (fun r w' => graph_of w' = graph_of w /\
    match r with
    | Ok (seen', built') => seen_ok (graph_of w) seen' /\ exists p o,
        intent_legal specs (graph_of w) i p o /\ folded_from (graph_of w) built built' i p o
    | Err _ => True
    end) w.
Proof.
  intros Hs. unfold foldIntent. destruct (Mutation i) as [[p o]|err] eqn:Hm; [|apply wp_throw; unchanged].
  apply wp_bind, wp_lift. destruct (validateEffectPredicate p) as [[]|] eqn:Hv; [|unchanged].
  apply wp_bind, wp_lift. destruct (checkBounds specs p o) as [[]|] eqn:Hb; [|unchanged].
  apply wp_bind. eapply wp_mono; [by apply view_spec|].
  intros [[v seen1]|err] w1 [Hg Hr]; [|unchanged]. destruct Hr as (Hs1 & He & Hk).
  destruct (AllowsSubjectKind p (ev_kind v)) eqn:Ha; cbn [negb]; [|apply wp_throw; unchanged].
  apply wp_bind.
  apply (wp_mono _ (fun r w' => graph_of w' = graph_of w /\
    match r with
    | Ok seen' => seen_ok (graph_of w) seen' /\ (IsEntityReference p = true -> exists id e k,
        o = AString id /\ id <> i_Target i /\ graph_of w !! id = Some e /\ kindOf e = Ok k /\
        AllowsObjectKind p k = true)
    | Err _ => True
    end)).
  { destruct (IsEntityReference p).
    - rewrite <- Hg in Hs1 |- *. eapply wp_mono; [by apply checkReferencedObject_spec|].
      intros [seen2|] w2 [Hg2 Hr2]; (split; [congruence|]); [|exact I]. destruct Hr2 as [Hs2 Hr2]. auto.
    - apply wp_ret. split; [exact Hg|]. split; [exact Hs1|discriminate]. }
  intros [seen2|err] w2 [Hg2 Hr2]; [|unchanged]. destruct Hr2 as [Hs2 Href].
  destruct (plan_target built (i_Target i)) as [write built1] eqn:Hpt.
  apply wp_bind, wp_lift. destruct (foldValue write v p o (i_Type i)) as [write'|] eqn:Hf; [|unchanged].
  apply wp_ret. split; [exact Hg2|]. split; [exact Hs2|]. exists p, o. split.
  - split; [exact Hm|exact Hv|exact Hb| |exact Href]. exists (ev_state v), (ev_kind v). auto.
  - exists v, write, built1, write'. auto.
Qed.
End planning.

(** ** The plan invariant *)

Section invariant.
Context `{Substrate}.

Definition entry_objects (entry : predicateWrite) : list any := map ow_object (pw_objects entry).

(** What a plan holds for one predicate of one target. *)
Record entry_wf (p : string) (entry : predicateWrite) : Prop := {
  entry_target : is_Some (EffectTargetForPredicate p);
  entry_multi : pw_multi entry = IsMultiValued p;
  entry_strings : IsMultiValued p = true -> Forall (fun o => exists s, o = AString s) (entry_objects entry);
  entry_residents : Forall (fun ow => match ow_resident ow with
    | Some t => Predicate t = p /\ Object t = ow_object ow | None => True end) (pw_objects entry)
}.

(** What a plan holds for one target, planned against [state]. *)
Record target_wf (state : EntityState) (id : string) (w : targetWrite) : Prop := {
  target_id : tw_entityID w = id;
  target_resident : tw_resident w = Some state;
  target_nodup : NoDup (tw_order w);
  target_dom p : p ∈ tw_order w <-> is_Some (tw_writes w !! p);
  target_entries p entry : tw_writes w !! p = Some entry -> entry_wf p entry
}.

(** What the predicate of [i]'s mutation [(p, o)] must hold after the batch. *)
Definition takes_effect (i : EffectIntent) (o : any) (objects : list any) : Prop :=
  if String.eqb (i_Type i) EffectRemoveRelationship then o ∉ objects
  else if String.eqb (i_Type i) EffectAddRelationship then o ∈ objects
  else objects = [o].

(** The entry carries the mutation, and no later intent may undo it. *)
Definition entry_carries (i : EffectIntent) (o : any) (entry : predicateWrite) : Prop :=
  Sprint o ∈ pw_named entry /\ takes_effect i o (entry_objects entry).

Lemma Sprint_string_inj s1 s2 : Sprint (AString s1) = Sprint (AString s2) -> s1 = s2.
Proof. done. Qed.

Lemma elem_withObject l key o x :
  x ∈ map ow_object (withObject l key o) <->
  x ∈ map ow_object l \/ (x = o /\ existsb (fun e => String.eqb (Sprint (ow_object e)) key) l = false).
Proof.
  unfold withObject. destruct (existsb _ l); [naive_solver|].
  rewrite map_app, elem_of_app. cbn. rewrite list_elem_of_singleton. naive_solver.
Qed.

Lemma elem_withoutObject l key x :
  x ∈ map ow_object (withoutObject l key) <-> x ∈ map ow_object l /\ Sprint x <> key.
Proof.
  unfold withoutObject. rewrite !list_elem_of_In, !in_map_iff. setoid_rewrite filter_In. split.
  - intros (ow & <- & Hin & Hne%negb_true_iff%String.eqb_neq). eauto.
  - intros [(ow & <- & Hin) Hne]. exists ow. split_and!; [done..|].
    by apply negb_true_iff, String.eqb_neq.
Qed.

Lemma Forall_withObject {P : objectWrite -> Prop} l key o :
  Forall P l -> P {| ow_object := o; ow_resident := None |} -> Forall P (withObject l key o).
Proof. intros Hl Ho. unfold withObject. destruct (existsb _ l); [done|]. apply Forall_app. auto. Qed.

Lemma Forall_withoutObject {P : objectWrite -> Prop} l key : Forall P l -> Forall P (withoutObject l key).
Proof.
  unfold withoutObject. rewrite !List.Forall_forall. intros Hl ow [Hin _]%filter_In. auto.
Qed.

Lemma resident_objects_ok l ows :
  resident_objects l = Ok ows ->
  map ow_object ows = map Object l /\ Forall (fun o => exists s, o = AString s) (map ow_object ows) /\
  Forall (fun ow => exists t, ow_resident ow = Some t /\ t ∈ l /\ Object t = ow_object ow) ows.
Proof.
  revert ows. induction l as [|t l IH]; intros ows; cbn [resident_objects].
  { intros [= <-]. split_and!; constructor. }
  destruct (Object t) as [|s| | | | | |] eqn:Ho; try discriminate.
  intros (others & Hrest & [= <-])%result_bind_ok. destruct (IH _ Hrest) as (Hm & Hs & Hr).
  cbn [map ow_object]. split_and!; [by rewrite Hm, Ho|constructor; [eauto|done]|].
  constructor.
  - exists t. split_and!; [done|left|done].
  - eapply Forall_impl; [exact Hr|]. intros ow (t' & ? & ? & ?). exists t'. split_and!; [done|by right|done].
Qed.

Lemma entryFor_ok state id w v p entry w' :
  target_wf state id w -> ev_state v = state -> is_Some (EffectTargetForPredicate p) ->
  entryFor w v p = Ok (entry, w') ->
  target_wf state id w' /\ tw_writes w' !! p = Some entry /\
  (forall q, q <> p -> tw_writes w' !! q = tw_writes w !! q) /\
  match tw_writes w !! p with
  | Some old => entry = old
  | None => pw_named entry = [] /\ entry_objects entry = (if IsMultiValued p then objectsFor state p else [])
  end.
Proof.
  intros [Hid Hres Hnd Hdom Hent] Hv Ht. unfold entryFor.
  destruct (tw_writes w !! p) as [old|] eqn:Eold.
  { intros [= <- <-]. split_and!; auto. by split. }
  intros (ows & Hows & [= <- <-])%result_bind_ok. cbn [tw_writes tw_order].
  assert (Hobj : map ow_object ows = (if IsMultiValued p then objectsFor state p else []) /\
    (IsMultiValued p = true -> Forall (fun o => exists s, o = AString s) (map ow_object ows)) /\
    Forall (fun ow => match ow_resident ow with
      | Some t => Predicate t = p /\ Object t = ow_object ow | None => True end) ows).
  { destruct (IsMultiValued p).
    - apply resident_objects_ok in Hows as (Hm & Hs & Hr). split_and!; [|auto|].
      + rewrite Hm. unfold view_triplesFor. by rewrite Hv.
      + eapply Forall_impl; [exact Hr|]. intros ow (t & -> & Hin & Ho). split; [|done].
        apply list_elem_of_In, filter_In in Hin as [_ Hp]. by apply String.eqb_eq in Hp.
    - injection Hows as <-. split_and!; [done|discriminate|constructor]. }
  destruct Hobj as (Hobj & Hstr & Hrs).
  split_and!; [|by rewrite lookup_insert_eq|by intros; rewrite lookup_insert_ne|done|exact Hobj].
  split; cbn [tw_entityID tw_resident tw_order tw_writes]; [done..| | |].
  - apply NoDup_app. split_and!; [done| |by apply NoDup_singleton].
    intros q Hq ->%list_elem_of_singleton. apply Hdom in Hq as [? Hq]. congruence.
  - intros q. rewrite elem_of_app, list_elem_of_singleton, Hdom.
    destruct (decide (q = p)) as [->|Hne]; [rewrite lookup_insert_eq; naive_solver|].
    rewrite lookup_insert_ne by done. naive_solver.
  - intros q entry. rewrite lookup_insert_Some. intros [[<- <-]|[_ Hq]]; [|auto].
    split; cbn [pw_multi pw_objects]; auto.
Qed.

Lemma is_relationship_type i :
  is_relationship i = true ->
  (i_Type i = EffectRemoveRelationship /\ String.eqb (i_Type i) EffectRemoveRelationship = true) \/
  (i_Type i = EffectAddRelationship /\ String.eqb (i_Type i) EffectRemoveRelationship = false /\
   String.eqb (i_Type i) EffectAddRelationship = true).
Proof.
  unfold is_relationship. intros [Ht%String.eqb_eq|Ht%String.eqb_eq]%orb_true_iff; rewrite Ht; [right|left];
    split_and!; reflexivity.
Qed.

Lemma takes_effect_single i o objects :
  is_relationship i = false -> takes_effect i o objects <-> objects = [o].
Proof.
  unfold is_relationship, takes_effect. by intros [-> ->]%orb_false_iff.
Qed.

(** A new key joins an entry. *)
Definition multi_step (i : EffectIntent) (o : any) (entry : predicateWrite) : predicateWrite :=
  with_named entry
    (if String.eqb (i_Type i) EffectRemoveRelationship then withoutObject (pw_objects entry) (Sprint o)
     else withObject (pw_objects entry) (Sprint o) o) (Sprint o).

Lemma multi_step_wf p i s entry : entry_wf p entry -> entry_wf p (multi_step i (AString s) entry).
Proof.
  intros [Ht Hm Hs Hr]. unfold multi_step, entry_objects in *.
  split; cbn [with_named pw_multi pw_objects]; unfold entry_objects in *; cbn [with_named pw_objects]; [done|done| |].
  - intros Hmulti. specialize (Hs Hmulti). rewrite Forall_map in *.
    destruct (String.eqb _ _); [by apply Forall_withoutObject|]. apply Forall_withObject; [done|]. by exists s.
  - destruct (String.eqb _ _); [by apply Forall_withoutObject|by apply Forall_withObject].
Qed.

Lemma multi_step_carries i s p entry :
  is_relationship i = true -> entry_wf p entry -> IsMultiValued p = true ->
  entry_carries i (AString s) (multi_step i (AString s) entry).
Proof.
  intros Hrel Hwf Hm. split; [left|]. unfold takes_effect, entry_objects, multi_step.
  cbn [with_named pw_objects].
  destruct (is_relationship_type _ Hrel) as [[_ ->]|(_ & -> & ->)].
  - rewrite elem_withoutObject. by intros [_ Hne].
  - apply elem_withObject. destruct (existsb _ (pw_objects entry)) eqn:He; [left|by right].
    apply existsb_exists in He as (ow & Hin & Heq%String.eqb_eq).
    pose proof (entry_strings _ _ Hwf Hm) as Hs. unfold entry_objects in Hs.
    rewrite Forall_map, List.Forall_forall in Hs. destruct (Hs _ Hin) as [s' Ho].
    apply list_elem_of_In, in_map_iff. exists ow. split; [|done]. rewrite Ho in Heq |- *.
    by rewrite (Sprint_string_inj s' s Heq).
Qed.

Lemma multi_step_keeps i o j oj entry :
  Sprint o ∉ pw_named entry -> entry_carries j oj entry -> is_relationship j = true ->
  entry_carries j oj (multi_step i o entry).
Proof.
  intros Hnew [Hn Ht] Hrel.
  assert (Hne : Sprint oj <> Sprint o) by (intros Heq; by rewrite Heq in Hn).
  split; [by right|]. unfold takes_effect, entry_objects, multi_step in *. cbn [with_named pw_objects].
  destruct (is_relationship_type _ Hrel) as [[_ Hj]|(_ & Hj & Hj')]; rewrite Hj, ?Hj' in *;
    destruct (String.eqb (i_Type i) _).
  - rewrite elem_withoutObject. tauto.
  - rewrite elem_withObject. intros [?|[-> _]]; [done|by apply Hne].
  - apply elem_withoutObject. done.
  - apply elem_withObject. by left.
Qed.

(** A target the plan may fold a value into: planned already, or just made. *)
Definition target_pre (state : EntityState) (id : string) (w : targetWrite) : Prop :=
  target_wf state id w \/ w = mkTargetWrite id None [] ∅.

Definition residented (state : EntityState) (w : targetWrite) : targetWrite :=
  match tw_resident w with
  | None => mkTargetWrite (tw_entityID w) (Some state) (tw_order w) (tw_writes w)
  | Some _ => w
  end.

Lemma residented_wf state id w : target_pre state id w -> target_wf state id (residented state w).
Proof.
  intros [Hwf| ->]; unfold residented; [by rewrite (target_resident _ _ _ Hwf)|].
  split; cbn; [done|done|constructor| |done].
  intros p. rewrite lookup_empty. split; [by intros ?%not_elem_of_nil|by intros []].
Qed.

Lemma set_entry_wf state id w p old entry :
  target_wf state id w -> tw_writes w !! p = Some old -> entry_wf p entry ->
  target_wf state id (set_entry w p entry).
Proof.
  intros [Hid Hres Hnd Hdom Hent] Hold He. split; cbn [set_entry tw_entityID tw_resident tw_order tw_writes]; auto.
  - intros q. rewrite Hdom. destruct (decide (q = p)) as [->|Hne].
    + rewrite lookup_insert_eq, Hold. split; intros _; eauto.
    + by rewrite lookup_insert_ne.
  - intros q entry'. rewrite lookup_insert_Some. intros [[<- <-]|[_ Hq]]; auto.
Qed.

(** One folded value: what the target's plan now carries. *)
Lemma foldValue_ok state id w v p o i w' :
  target_pre state id w -> ev_state v = state -> Mutation i = Ok (p, o) ->
  foldValue w v p o (i_Type i) = Ok w' ->
  target_wf state id w' /\
  (exists entry, tw_writes w' !! p = Some entry /\ entry_carries i o entry) /\
  (forall q, q <> p -> tw_writes w' !! q = tw_writes w !! q) /\
  (forall old j oj, tw_writes w !! p = Some old -> Mutation j = Ok (p, oj) -> entry_carries j oj old ->
     exists entry, tw_writes w' !! p = Some entry /\ entry_carries j oj entry).
Proof.
  intros Hpre Hv Hm Hf. destruct (Mutation_shape _ _ _ Hm) as (Ht & Hmulti & Hstr).
  pose proof (residented_wf _ _ _ Hpre) as Hwf.
  assert (Hsame : tw_writes (residented state w) = tw_writes w)
    by (unfold residented; by destruct (tw_resident w)).
  unfold foldValue in Hf. rewrite Hv in Hf.
  change (match tw_resident w with None => _ | Some _ => w end) with (residented state w) in Hf.
  apply result_bind_ok in Hf as ([entry w1] & He & Hf).
  destruct (entryFor_ok _ _ _ _ _ _ _ Hwf Hv Ht He) as (Hwf1 & Hent & Hother & Hold).
  rewrite Hsame in Hother, Hold. pose proof (target_entries _ _ _ Hwf1 _ _ Hent) as Hewf.
  rewrite (entry_multi _ _ Hewf), Hmulti in Hf.
  destruct (is_relationship i) eqn:Hrel; cbn [negb] in Hf.
  - destruct (Hstr eq_refl) as [s ->].
    destruct (mem (Sprint (AString s)) (pw_named entry)) eqn:Hnew; [discriminate|].
    apply mem_false in Hnew.
    assert (w' = set_entry w1 p (multi_step i (AString s) entry)) as ->.
    { unfold multi_step. destruct (String.eqb (i_Type i) _); by injection Hf as <-. }
    split_and!.
    + eapply set_entry_wf; [done..|by apply multi_step_wf].
    + eexists. cbn [set_entry tw_writes]. rewrite lookup_insert_eq. split; [done|].
      by eapply multi_step_carries.
    + intros q Hq. cbn [set_entry tw_writes]. rewrite lookup_insert_ne by done. by apply Hother.
    + intros old j oj Hlook Hj Hc. rewrite Hlook in Hold. subst old.
      destruct (Mutation_shape _ _ _ Hj) as (_ & Hmj & _). eexists. cbn [set_entry tw_writes].
      rewrite lookup_insert_eq. split; [done|]. apply multi_step_keeps; [done..|congruence].
  - destruct (Nat.ltb 0 (List.length (pw_named entry))) eqn:Hn; [discriminate|]. injection Hf as <-.
    split_and!.
    + eapply set_entry_wf; [done..|]. destruct Hewf as [Het Hem _ _].
      split; cbn [with_named pw_multi pw_objects]; [done|done|congruence|by repeat constructor].
    + eexists. cbn [set_entry tw_writes]. rewrite lookup_insert_eq. split; [done|]. split; [left|].
      by apply takes_effect_single.
    + intros q Hq. cbn [set_entry tw_writes]. rewrite lookup_insert_ne by done. by apply Hother.
    + intros old j oj Hlook Hj [Hnamed _]. rewrite Hlook in Hold. subst old.
      apply Nat.ltb_ge in Hn. destruct (pw_named entry); [by apply not_elem_of_nil in Hnamed|cbn in Hn; lia].
Qed.
End invariant.

(** ** The plan of a batch *)

Section plans.
Context `{Substrate}.
Variable specs : AttributeSpecSet.

Record plan_wf (g : graph) (folded : list EffectIntent) (p : plan) : Prop := {
  plan_nodup : NoDup (pl_order p);
  plan_dom id : id ∈ pl_order p <-> is_Some (pl_targets p !! id);
  plan_targets id w : pl_targets p !! id = Some w -> exists state, g !! id = Some state /\
    target_wf state id w;
  plan_touched id w q : pl_targets p !! id = Some w -> q ∈ tw_order w ->
    exists i o, i ∈ folded /\ i_Target i = id /\ Mutation i = Ok (q, o);
  plan_carries i : i ∈ folded -> exists q o w entry, intent_legal specs g i q o /\
    pl_targets p !! i_Target i = Some w /\ tw_writes w !! q = Some entry /\ entry_carries i o entry
}.

Lemma plan_wf_empty g : plan_wf g [] (mkPlan [] ∅).
Proof.
  split; cbn.
  - constructor.
  - intros id. rewrite lookup_empty. split; [by intros ?%not_elem_of_nil|by intros []].
  - intros id w. by rewrite lookup_empty.
  - intros id w q. by rewrite lookup_empty.
  - by intros i ?%not_elem_of_nil.
Qed.

Lemma plan_target_ok g folded built id state write built1 :
  plan_wf g folded built -> g !! id = Some state -> plan_target built id = (write, built1) ->
  target_pre state id write /\ NoDup (pl_order built1) /\ id ∈ pl_order built1 /\
  (forall id', id' ∈ pl_order built1 <-> id' = id \/ id' ∈ pl_order built) /\
  (forall id', id' <> id -> pl_targets built1 !! id' = pl_targets built !! id') /\
  match pl_targets built !! id with Some w => write = w | None => tw_writes write = ∅ end.
Proof.
  intros [Hnd Hdom Htgt _ _] Hg. unfold plan_target. destruct (pl_targets built !! id) as [w|] eqn:E.
  - intros [= <- <-]. destruct (Htgt _ _ E) as (st & Hst & Hwf).
    assert (id ∈ pl_order built) by (apply Hdom; eauto).
    split_and!; [left; congruence|done|done| |done|done].
    intros id'. split; [auto|]. by intros [->|?].
  - intros [= <- <-]. cbn [pl_order pl_targets]. split_and!.
    + by right.
    + apply NoDup_app. split_and!; [done| |by apply NoDup_singleton].
      intros x Hx ->%list_elem_of_singleton. apply Hdom in Hx as [? Hx]. congruence.
    + apply elem_of_app. right. left.
    + intros id'. rewrite elem_of_app, list_elem_of_singleton. tauto.
    + intros id' Hne. by rewrite lookup_insert_ne.
    + done.
Qed.

Lemma plan_wf_fold g folded built built' i p o :
  plan_wf g folded built -> intent_legal specs g i p o -> folded_from g built built' i p o ->
  plan_wf g (folded ++ [i]) built'.
Proof.
  intros Hwf Hlegal (v & write & built1 & write' & Hg & Hpt & Hf & ->).
  pose proof (legal_mutation _ _ _ _ _ Hlegal) as Hm.
  destruct (plan_target_ok _ _ _ _ _ _ _ Hwf Hg Hpt) as (Hpre & Hnd & Hin & Hord & Hother & Hw).
  destruct (foldValue_ok _ _ _ _ _ _ _ _ Hpre eq_refl Hm Hf) as (Hwf' & Hcar & Hq & Hkeep).
  assert (Hback : forall q, q <> p -> is_Some (tw_writes write' !! q) ->
    exists w0, pl_targets built !! i_Target i = Some w0 /\ q ∈ tw_order w0).
  { intros q Hne Hs. rewrite Hq in Hs by done. destruct (pl_targets built !! i_Target i) as [w0|] eqn:E.
    - subst write. exists w0. split; [done|]. destruct (plan_targets _ _ _ Hwf _ _ E) as (st & _ & Hw0).
      by apply (target_dom _ _ _ Hw0).
    - rewrite Hw, lookup_empty in Hs. by destruct Hs. }
  split; cbn [pl_order pl_targets].
  - done.
  - intros id. rewrite Hord, lookup_insert_is_Some. destruct (decide (id = i_Target i)) as [->|Hne]; [naive_solver|].
    rewrite Hother by done. rewrite (plan_dom _ _ _ Hwf). naive_solver.
  - intros id w. rewrite lookup_insert_Some. intros [[<- <-]|[Hne Hl]].
    + by exists (ev_state v).
    + rewrite Hother in Hl by done. by apply (plan_targets _ _ _ Hwf).
  - intros id w q. rewrite lookup_insert_Some. intros [[<- <-]|[Hne Hl]] Hqin.
    + destruct (decide (q = p)) as [->|Hqne].
      { exists i, o. split_and!; [apply elem_of_app; right; left|done|done]. }
      apply (target_dom _ _ _ Hwf') in Hqin. destruct (Hback q Hqne Hqin) as (w0 & Hl & Hq0).
      destruct (plan_touched _ _ _ Hwf _ _ _ Hl Hq0) as (j & oj & Hj & ? & ?). exists j, oj.
      split_and!; [apply elem_of_app; by left|done|done].
    + rewrite Hother in Hl by done. destruct (plan_touched _ _ _ Hwf _ _ _ Hl Hqin) as (j & oj & Hj & ? & ?).
      exists j, oj. split_and!; [apply elem_of_app; by left|done|done].
  - intros j. rewrite elem_of_app, list_elem_of_singleton. intros [Hj| ->].
    2: { destruct Hcar as (entry & ? & ?). exists p, o, write', entry. rewrite lookup_insert_eq. auto. }
    destruct (plan_carries _ _ _ Hwf _ Hj) as (q & oj & w0 & old & Hlj & Ht & Hl & Hc).
    exists q, oj. destruct (decide (i_Target j = i_Target i)) as [Heq|Hne].
    2: { exists w0, old. rewrite lookup_insert_ne by done. rewrite Hother by done. auto. }
    rewrite Heq in Ht |- *. rewrite Ht in Hw. subst write.
    exists write'. destruct (decide (q = p)) as [->|Hqne].
    + destruct (Hkeep old j oj Hl (legal_mutation _ _ _ _ _ Hlj) Hc) as (entry & ? & ?).
      exists entry. rewrite lookup_insert_eq. auto.
    + exists old. rewrite lookup_insert_eq, Hq by done. auto.
Qed.

Context {W : Type} `{HasGraph W, GraphStore W, Clock W}.
Context `{!GraphStoreLaws W}.

Lemma foldIntents_spec seen built folded index intents w :
  seen_ok (graph_of w) seen -> plan_wf (graph_of w) folded built ->
  wp (foldIntents specs seen built index intents) (fun r w' => graph_of w' = graph_of w /\
    match r with
    | Ok built' => plan_wf (graph_of w) (folded ++ intents) built'
    | Err err => is_RejectionError err = true
    end) w.
Proof.
  revert seen built folded index w. induction intents as [|i intents IH]; intros seen built folded index w Hs Hwf;
    cbn [foldIntents].
  { apply wp_ret. by rewrite app_nil_r. }
  apply wp_bind, wp_attempt_as. eapply wp_mono; [by apply foldIntent_spec|].
  intros [[seen' built']|v] w1 [Hg Hr]; [|by apply wp_throw].
  destruct Hr as (Hs' & p & o & Hl & Hf).
  pose proof (plan_wf_fold _ _ _ _ _ _ _ Hwf Hl Hf) as Hwf'. rewrite <- Hg in *.
  eapply wp_mono; [by apply (IH _ _ (folded ++ [i]))|]. intros r w2 [Hg2 Hr]. split; [congruence|].
  destruct r; [|done]. by rewrite <- app_assoc in Hr.
Qed.

Lemma buildPlan_spec batch w :
  wp (buildPlan specs batch) (fun r w' => graph_of w' = graph_of w /\
    match r with
    | Ok p => plan_wf (graph_of w) (b_Intents batch) p
    | Err err => is_RejectionError err = true
    end) w.
Proof. apply (foldIntents_spec _ _ []); [by intros id v; rewrite lookup_empty|apply plan_wf_empty]. Qed.
End plans.

(** ** Sequences of reconciles *)

Section chains.
Context `{Substrate}.

Abbreviation writes := (list (string * projectionWrite)).

(** The graph after each write replaced its group, in order. *)
Fixpoint chain (l : writes) (g g' : graph) : Prop :=
  match l with
  | [] => g' = g
  | (id, pw) :: rest => exists g1, reconcile_effect (pr_target pw) id (pr_triples pw) g g1 /\ chain rest g1 g'
  end.

(** Some of the writes, the rest never happened. *)
Definition chain_prefix (l : writes) (g g' : graph) : Prop := exists n, chain (take n l) g g'.

Lemma chain_app l1 l2 g g1 g2 : chain l1 g g1 -> chain l2 g1 g2 -> chain (l1 ++ l2) g g2.
Proof.
  revert g. induction l1 as [|[id pw] l1 IH]; intros g; cbn; [by intros ->|].
  intros (g0 & ? & ?) ?. exists g0. auto.
Qed.

Lemma chain_keeps l g g' p :
  (forall id pw, (id, pw) ∈ l -> p ∉ Predicates (pr_target pw)) -> chain l g g' -> keeps p g g'.
Proof.
  revert g. induction l as [|[id pw] l IH]; intros g Hp; cbn; [by intros ->|].
  intros (g1 & He & Hc). transitivity g1.
  - eapply reconcile_keeps; [exact He|]. apply (Hp id). left.
  - apply IH; [|exact Hc]. intros id' pw' Hin. apply (Hp id'). by right.
Qed.

(** What an entity records for a predicate is untouched by writes to other
    entities and to other groups. *)
Lemma chain_keeps_at l g g' id p :
  (forall pw, (id, pw) ∈ l -> p ∉ Predicates (pr_target pw)) -> chain l g g' ->
  objects_in g' id p = objects_in g id p.
Proof.
  revert g. induction l as [|[id' pw] l IH]; intros g Hp; cbn; [by intros ->|].
  intros (g1 & He & Hc). rewrite (IH g1); [|intros pw' Hin; apply Hp; by right|exact Hc].
  destruct (decide (id = id')) as [->|Hne].
  - eapply reconcile_keeps; [exact He|]. apply Hp. left.
  - unfold objects_in. by rewrite (reconcile_other _ _ _ _ _ _ He Hne).
Qed.

Definition disjoint_writes (l : writes) : Prop :=
  NoDup (map (fun ipw : string * projectionWrite => (ipw.1, pr_target ipw.2)) l) /\
  Forall (fun ipw : string * projectionWrite => pr_target ipw.2 ∈ effectTargets) l.

Lemma chain_writes l g g' id pw p :
  disjoint_writes l -> chain l g g' -> (id, pw) ∈ l -> p ∈ Predicates (pr_target pw) ->
  exists objects, objects_in g' id p = Some objects /\
    objects ≡ₚ map Object (triplesFor p (pr_triples pw)).
Proof.
  revert g. induction l as [|[id' pw'] l IH]; intros g [Hnd Ht] Hc Hin Hp; [by apply not_elem_of_nil in Hin|].
  cbn [map] in Hnd. apply NoDup_cons in Hnd as [Hnew Hnd]. apply Forall_cons in Ht as [Ht Hts].
  destruct Hc as (g1 & He & Hc). apply elem_of_cons in Hin as [[= <- <-]|Hin].
  - destruct (reconcile_writes _ _ _ _ _ _ He Hp) as (objects & Ho & Hperm). exists objects.
    split; [|exact Hperm]. rewrite <- Ho. eapply chain_keeps_at; [|exact Hc].
    intros pw2 Hin2 Hp2. apply Hnew. apply list_elem_of_In, in_map_iff. exists (id, pw2).
    split; [|by apply list_elem_of_In]. cbn [fst snd]. f_equal.
    rewrite List.Forall_forall in Hts. specialize (Hts _ (proj1 (list_elem_of_In _ _) Hin2)). cbn [snd] in Hts, Ht.
    pose proof (EffectTarget_group _ _ Ht Hp). pose proof (EffectTarget_group _ _ Hts Hp2). congruence.
  - by eapply (IH g1).
Qed.
End chains.

(** ** What a planned target projects *)

Section projected.
Context `{Substrate}.

Lemma touched_targets_spec order acc t :
  t ∈ touched_targets order acc <->
  t ∈ acc \/ exists p, p ∈ order /\ EffectTargetForPredicate p = Some t.
Proof.
  revert acc. induction order as [|p order IH]; intros acc; cbn [touched_targets].
  { split; [auto|]. intros [?|(p & ?%not_elem_of_nil & _)]; done. }
  destruct (EffectTargetForPredicate p) as [t'|] eqn:E.
  - rewrite IH. case_bool_decide as Hin.
    + split; [intros [?|(q & ? & ?)]|]; [by left|right; exists q; split; [by right|done]|].
      intros [?|(q & [->|?]%elem_of_cons & Hq)]; [by left| |right; eauto]. left. congruence.
    + rewrite elem_of_app, list_elem_of_singleton.
      split; [intros [[?| ->]|(q & ? & ?)]|].
      * by left.
      * right. exists p. split; [left|done].
      * right. exists q. split; [by right|done].
      * intros [?|(q & [->|?]%elem_of_cons & Hq)]; [by left; left| |right; eauto]. left. right. congruence.
  - rewrite IH. split; (intros [?|(q & Hq & Hs)]; [left; assumption|right]).
    + exists q. split; [right; exact Hq|exact Hs].
    + apply elem_of_cons in Hq as [->|Hq]; [rewrite E in Hs; discriminate Hs|]. exists q. auto.
Qed.

Lemma touched_targets_nodup order acc : NoDup acc -> NoDup (touched_targets order acc).
Proof.
  revert acc. induction order as [|p order IH]; intros acc Hnd; cbn [touched_targets]; [done|].
  destruct (EffectTargetForPredicate p) as [t|]; [|by apply IH]. apply IH.
  case_bool_decide as Hin; [done|]. apply NoDup_app. split_and!; [done| |by apply NoDup_singleton].
  by intros x Hx ->%list_elem_of_singleton.
Qed.

Lemma entry_triples_predicate state id w source context at_ q t :
  target_wf state id w -> t ∈ entry_triples source context at_ w q -> Predicate t = q.
Proof.
  intros Hwf. unfold entry_triples. destruct (tw_writes w !! q) as [entry|] eqn:E; [|by intros ?%not_elem_of_nil].
  intros (ow & <- & Hin)%list_elem_of_In%in_map_iff. unfold object_triple.
  pose proof (entry_residents _ _ (target_entries _ _ _ Hwf _ _ E)) as Hr.
  rewrite List.Forall_forall in Hr. specialize (Hr _ Hin).
  destruct (ow_resident ow); [apply Hr|done].
Qed.

Lemma triplesFor_all p l : (forall t, t ∈ l -> Predicate t = p) -> triplesFor p l = l.
Proof.
  unfold triplesFor. induction l as [|t l IH]; intros Hl; [done|]. cbn [List.filter].
  rewrite (proj2 (String.eqb_eq _ _) (Hl t (list_elem_of_here _ _))). f_equal. apply IH.
  intros t' Ht'. apply Hl. by right.
Qed.

Lemma triplesFor_entries state id w source context at_ p order :
  target_wf state id w -> NoDup order -> p ∈ order ->
  triplesFor p (flat_map (entry_triples source context at_ w) order) = entry_triples source context at_ w p.
Proof.
  intros Hwf. induction order as [|q order IH]; intros Hnd Hin; [by apply not_elem_of_nil in Hin|].
  apply NoDup_cons in Hnd as [Hq Hnd]. cbn [flat_map]. rewrite triplesFor_app.
  apply elem_of_cons in Hin as [->|Hin].
  - rewrite (triplesFor_all q (entry_triples _ _ _ _ q)) by (intros t; by eapply entry_triples_predicate).
    rewrite (triplesFor_nil q (flat_map _ _)); [by rewrite app_nil_r|].
    intros t (q' & Hq' & Ht)%list_elem_of_In%in_flat_map Heq. apply Hq.
    apply list_elem_of_In in Ht, Hq'. by rewrite <- Heq, (entry_triples_predicate _ _ _ _ _ _ _ _ Hwf Ht).
  - rewrite (triplesFor_nil p (entry_triples _ _ _ _ q)); [by rewrite IH|].
    intros t Ht Heq. apply Hq. by rewrite <- (entry_triples_predicate _ _ _ _ _ _ _ _ Hwf Ht), Heq.
Qed.

Lemma triplesFor_filter p f l :
  (forall t, Predicate t = p -> f t = true) -> triplesFor p (List.filter f l) = triplesFor p l.
Proof.
  intros Hf. unfold triplesFor. induction l as [|t l IH]; [done|]. cbn [List.filter].
  destruct (String.eqb_spec (Predicate t) p) as [Hp|Hp].
  - rewrite (Hf t Hp). cbn [List.filter]. by rewrite (proj2 (String.eqb_eq _ _) Hp), IH.
  - destruct (f t); [|done]. cbn [List.filter]. by rewrite (proj2 (String.eqb_neq _ _) Hp).
Qed.

Lemma is_target_spec t p : is_target t p = true <-> EffectTargetForPredicate p = Some t.
Proof. apply bool_decide_eq_true. Qed.

(** A projection writes a touched predicate as planned, and carries every
    other predicate of its group over from the resident state. *)
Lemma projections_spec state id w source context at_ pw :
  target_wf state id w -> pw ∈ projections w source context at_ ->
  pr_target pw ∈ effectTargets /\
  (forall p, p ∈ Predicates (pr_target pw) ->
    map Object (triplesFor p (pr_triples pw)) =
      match tw_writes w !! p with Some entry => entry_objects entry | None => objectsFor state p end).
Proof.
  intros Hwf (t & <- & Ht)%list_elem_of_In%in_map_iff. apply list_elem_of_In in Ht. cbn [pr_target pr_triples].
  apply touched_targets_spec in Ht as [Ht|(q & Hq & Ht)]; [by apply not_elem_of_nil in Ht|].
  destruct (EffectTarget_cases _ _ Ht) as [Hin _]. split; [done|]. intros p Hp.
  pose proof (EffectTarget_group _ _ Hin Hp) as Hpt.
  rewrite (target_resident _ _ _ Hwf), triplesFor_app, map_app.
  set (touched := List.filter (is_target t) (tw_order w)).
  assert (Htouched : p ∈ touched <-> is_Some (tw_writes w !! p)).
  { rewrite <- (target_dom _ _ _ Hwf). unfold touched. rewrite list_elem_of_In, filter_In, is_target_spec, <- list_elem_of_In. tauto. }
  clear Hpt Ht.
  assert (Hnd : NoDup touched).
  { apply NoDup_ListNoDup, List.NoDup_filter, NoDup_ListNoDup. apply (target_nodup _ _ _ Hwf). }
  destruct (tw_writes w !! p) as [entry|] eqn:E.
  - assert (Hin' : p ∈ touched) by (apply Htouched; eauto).
    rewrite (triplesFor_nil p (List.filter _ _)).
    2: { intros t' (_ & Hf)%list_elem_of_In%filter_In Heq. apply andb_true_iff in Hf as [_ Hf].
         apply negb_true_iff, mem_false in Hf. by rewrite Heq in Hf. }
    rewrite (triplesFor_entries _ _ _ _ _ _ _ _ Hwf Hnd Hin'). unfold entry_triples. rewrite E. cbn [map app].
    rewrite map_map. unfold entry_objects. apply map_ext_in. intros ow How. unfold object_triple.
    pose proof (entry_residents _ _ (target_entries _ _ _ Hwf _ _ E)) as Hr.
    rewrite List.Forall_forall in Hr. specialize (Hr _ How). destruct (ow_resident ow); [apply Hr|done].
  - assert (Hout : p ∉ touched) by (rewrite Htouched; by intros []).
    rewrite triplesFor_filter.
    2: { intros t' ->. rewrite (proj2 (mem_true p _) Hp), (proj2 (mem_false p _) Hout). done. }
    rewrite (triplesFor_nil p (flat_map _ _)); [by rewrite app_nil_r|].
    intros t' (q' & Hq' & Ht')%list_elem_of_In%in_flat_map Heq. apply Hout.
    apply list_elem_of_In in Ht', Hq'. by rewrite <- Heq, (entry_triples_predicate _ _ _ _ _ _ _ _ Hwf Ht').
Qed.
End projected.

(** ** Committing a plan *)

Section committing.
Context {W : Type} `{Substrate, HasGraph W, GraphStore W, Clock W}.
Context `{!GraphStoreLaws W}.

Abbreviation writes := (list (string * projectionWrite)).

(** The writes a plan commits, in order. *)
Definition writes_of (p : plan) (turnID : string) (at_ : time) (order : list string) : writes :=
  flat_map (fun id => map (pair id) match pl_targets p !! id with
    | Some w => projections w EffectSource turnID at_ | None => [] end) order.

Lemma chain_prefix_app l1 l2 g g1 g2 :
  chain l1 g g1 -> chain_prefix l2 g1 g2 -> chain_prefix (l1 ++ l2) g g2.
Proof.
  intros Hc [n Hn]. exists (List.length l1 + n)%nat. rewrite take_app_add. by eapply chain_app.
Qed.

Lemma chain_prefix_weaken l1 l2 g g' : chain_prefix l1 g g' -> chain_prefix (l1 ++ l2) g g'.
Proof.
  intros [n Hn]. destruct (decide (n <= List.length l1)%nat).
  - exists n. by rewrite take_app_le.
  - exists (List.length l1). rewrite take_app_length. by rewrite firstn_all2 in Hn by lia.
Qed.

Lemma commit_writes_spec batchID id written pws w :
  wp (commit_writes batchID id written pws) (fun r w' =>
    match r with
    | Ok _ => chain (map (pair id) pws) (graph_of w) (graph_of w')
    | Err err => is_CommitError err = true /\ chain_prefix (map (pair id) pws) (graph_of w) (graph_of w')
    end) w.
Proof.
  revert w. induction pws as [|pw pws IH]; intros w; cbn [commit_writes]; [by apply wp_ret|].
  apply wp_bind, wp_attempt. eapply wp_mono; [apply Reconcile_spec|]. intros [e|err] w1 Hr.
  - destruct Hr as [He _]. eapply wp_mono; [apply IH|]. intros [u|err] w2 Hc; [by exists (graph_of w1)|].
    destruct Hc as [? [n Hn]]. split; [done|]. exists (S n). by exists (graph_of w1).
  - apply wp_throw. split; [done|]. destruct Hr as [Hg|He]; [by exists 0%nat|]. exists 1%nat.
    by exists (graph_of w1).
Qed.

Lemma commit_targets_spec batchID turnID at_ p written order w :
  wp (commit_targets batchID turnID at_ p written order) (fun r w' =>
    match r with
    | Ok ids => ids = written ++ order /\ chain (writes_of p turnID at_ order) (graph_of w) (graph_of w')
    | Err err => is_CommitError err = true /\
        chain_prefix (writes_of p turnID at_ order) (graph_of w) (graph_of w')
    end) w.
Proof.
  revert written w. induction order as [|id order IH]; intros written w; cbn [commit_targets].
  { apply wp_ret. by rewrite app_nil_r. }
  apply wp_bind. eapply wp_mono; [apply commit_writes_spec|]. intros [u|err] w1 Hc.
  - eapply wp_mono; [apply IH|]. intros [ids|err] w2 Hr; destruct Hr as [Ho Hr].
    + split; [by rewrite <- app_assoc in Ho|]. by eapply chain_app.
    + split; [done|]. by eapply chain_prefix_app.
  - destruct Hc as [? Hc]. split; [done|]. by apply chain_prefix_weaken.
Qed.

Lemma elem_writes_of p turnID at_ order id pw :
  (id, pw) ∈ writes_of p turnID at_ order <->
  id ∈ order /\ exists w, pl_targets p !! id = Some w /\ pw ∈ projections w EffectSource turnID at_.
Proof.
  unfold writes_of. rewrite list_elem_of_In, in_flat_map. split.
  - intros (id' & Hid & (pw' & [= -> ->] & Hin)%in_map_iff). split; [by apply list_elem_of_In|].
    destruct (pl_targets p !! id) as [w|]; [|done]. exists w. split; [done|by apply list_elem_of_In].
  - intros [Hid (w & Hw & Hin)]. exists id. split; [by apply list_elem_of_In|]. rewrite Hw.
    apply in_map_iff. exists pw. split; [done|by apply list_elem_of_In].
Qed.

Lemma projections_targets w source context at_ :
  map pr_target (projections w source context at_) = touched_targets (tw_order w) [].
Proof. unfold projections. rewrite map_map. cbn [pr_target]. apply map_id. Qed.

Lemma writes_of_disjoint g folded specs p turnID at_ :
  plan_wf specs g folded p -> disjoint_writes (writes_of p turnID at_ (pl_order p)).
Proof.
  intros Hwf. split.
  - assert (Hnd : forall order, NoDup order ->
      NoDup (map (fun ipw : string * projectionWrite => (ipw.1, pr_target ipw.2))
        (writes_of p turnID at_ order))).
    { induction order as [|id order IH]; intros Ho; [constructor|]. apply NoDup_cons in Ho as [Hid Ho].
      unfold writes_of. cbn [flat_map]. rewrite map_app. apply NoDup_app. split_and!; [| |by apply IH].
      - rewrite map_map. cbn [fst snd]. destruct (pl_targets p !! id) as [w|]; [|constructor].
        rewrite <- (map_map pr_target (pair id)), projections_targets.
        apply NoDup_fmap_2; [by intros ?? [=]|]. apply touched_targets_nodup. constructor.
      - intros [id' t] Hin Hin2. apply list_elem_of_In, in_map_iff in Hin as ([i1 p1] & [= <- <-] & Hin).
        apply in_map_iff in Hin as (? & [= <- <-] & _). cbn [fst] in Hin2.
        apply list_elem_of_In, in_map_iff in Hin2 as ([i2 p2] & [= -> _] & Hin2).
        apply list_elem_of_In, elem_writes_of in Hin2 as [? _]. done. }
    apply Hnd, (plan_nodup _ _ _ _ Hwf).
  - apply List.Forall_forall. intros [id pw] Hin. apply list_elem_of_In, elem_writes_of in Hin as (_ & w & Hw & Hin).
    destruct (plan_targets _ _ _ _ Hwf _ _ Hw) as (state & _ & Htw). cbn [snd].
    apply (projections_spec _ _ _ _ _ _ _ Htw Hin).
Qed.

(** After the whole plan: every planned predicate of every planned target
    records the planned objects, and nothing else changed. *)
Lemma plan_committed g g' folded specs p turnID at_ :
  plan_wf specs g folded p -> chain (writes_of p turnID at_ (pl_order p)) g g' ->
  (forall id w q entry, pl_targets p !! id = Some w -> tw_writes w !! q = Some entry ->
     exists objects, objects_in g' id q = Some objects /\ objects ≡ₚ entry_objects entry) /\
  (forall id q, (forall w, pl_targets p !! id = Some w -> tw_writes w !! q = None) ->
     option_relation (≡ₚ) (fun _ => False) (fun _ => False) (objects_in g' id q) (objects_in g id q)).
Proof.
  intros Hwf Hc. pose proof (writes_of_disjoint _ _ _ _ turnID at_ Hwf) as Hdis. split.
  - intros id w q entry Hw Hq. destruct (plan_targets _ _ _ _ Hwf _ _ Hw) as (state & _ & Htw).
    destruct (entry_target _ _ (target_entries _ _ _ Htw _ _ Hq)) as [t Ht].
    assert (Hin : t ∈ map pr_target (projections w EffectSource turnID at_)).
    { rewrite projections_targets. apply touched_targets_spec. right. exists q.
      split; [apply (target_dom _ _ _ Htw); eauto|exact Ht]. }
    apply list_elem_of_In, in_map_iff in Hin as (pw & <- & Hin). apply list_elem_of_In in Hin.
    destruct (EffectTarget_cases _ _ Ht) as [_ Hqin]. clear Ht.
    destruct (chain_writes _ _ _ id pw q Hdis Hc) as (objects & Ho & Hperm); [|exact Hqin|].
    { apply elem_writes_of. split; [apply (plan_dom _ _ _ _ Hwf); eauto|eauto]. }
    exists objects. split; [exact Ho|].
    destruct (projections_spec _ _ _ _ _ _ _ Htw Hin) as [_ Hproj]. by rewrite (Hproj _ Hqin), Hq in Hperm.
  - intros id q Hno.
    destruct (decide (Exists (fun ipw : string * projectionWrite => ipw.1 = id /\ q ∈ Predicates (pr_target ipw.2))
      (writes_of p turnID at_ (pl_order p)))) as [Hex|Hnex].
    + apply Exists_exists in Hex as ([id' pw] & Hin & [Hid Hq]). cbn [fst snd] in *. subst id'.
      destruct (chain_writes _ _ _ id pw q Hdis Hc Hin Hq) as (objects & Ho & Hperm).
      apply elem_writes_of in Hin as (_ & w & Hw & Hin).
      destruct (plan_targets _ _ _ _ Hwf _ _ Hw) as (state & Hg & Htw).
      destruct (projections_spec _ _ _ _ _ _ _ Htw Hin) as [_ Hproj].
      rewrite (Hproj _ Hq), (Hno _ Hw) in Hperm. rewrite Ho. unfold objects_in. rewrite Hg. exact Hperm.
    + rewrite (chain_keeps_at _ _ _ id q) by (try exact Hc; intros pw Hin Hq; apply Hnex, Exists_exists; by exists (id, pw)).
      destruct (objects_in g id q); cbn; done.
Qed.
End committing.

(** ** Applying a batch *)

Section applying.
Context {W : Type} `{Substrate, HasGraph W, GraphStore W, Clock W}.
Context `{!GraphStoreLaws W}.

(** The turn's effect marker: which batch was applied, stored where. *)
Definition marker_in (g : graph) (turn batchID batchRef : string) : Prop :=
  objects_in g turn TurnEffectsBatch = Some [AString batchID] /\
  objects_in g turn TurnEffectsRef = Some [AString batchRef].

Lemma alreadyApplied_spec batch turn batchRef w :
  wp (alreadyApplied batch turn batchRef) (fun r w' => graph_of w' = graph_of w /\
    match r with
    | Ok b => if b then marker_in (graph_of w) turn (b_BatchID batch) batchRef
              else objects_in (graph_of w) turn TurnEffectsBatch = Some []
    | Err err => True
    end) w.
Proof.
  unfold alreadyApplied. apply wp_get. intros [e|err] w1 Hg He; [|by apply wp_throw].
  unfold marker_in, objects_in. rewrite He. cbn [fmap option_fmap option_map].
  destruct (objectsFor e TurnEffectsBatch) as [|b [|]], (objectsFor e TurnEffectsRef) as [|r [|]];
    cbn [List.length Nat.ltb Nat.leb orb negb Nat.eqb]; try (apply wp_throw; unchanged);
    try (apply wp_ret; by split).
  destruct b as [|s| | | | | |]; try (apply wp_throw; unchanged).
  destruct (String.eqb_spec s (b_BatchID batch)) as [->|]; cbn [negb]; [|apply wp_throw; unchanged].
  destruct r as [|s| | | | | |]; try (apply wp_throw; unchanged).
  destruct (String.eqb_spec s batchRef) as [->|]; cbn [negb]; [|apply wp_throw; unchanged].
  apply wp_ret. by split.
Qed.

Lemma EffectBatch_Triples_ok b id ref source at_ ts :
  EffectBatch_Triples b id ref source at_ = Ok ts ->
  map (fun t => (Predicate t, Object t)) ts =
    [(TurnEffectsBatch, AString (b_BatchID b)); (TurnEffectsRef, AString ref)].
Proof. intros (-> & _)%build_ok. reflexivity. Qed.

Lemma reconcile_marker batch turn ref source at_ ts g g' :
  EffectBatch_Triples batch turn ref source at_ = Ok ts ->
  reconcile_effect TurnEffectMarker turn ts g g' -> marker_in g' turn (b_BatchID batch) ref.
Proof.
  intros Hts%EffectBatch_Triples_ok He.
  split; (eapply reconcile_single; [exact He|in_target|]); by rewrite Hts.
Qed.

Lemma takes_effect_perm i o l1 l2 : l1 ≡ₚ l2 -> takes_effect i o l2 -> takes_effect i o l1.
Proof.
  intros Hp. unfold takes_effect. destruct (String.eqb _ _); [by rewrite Hp|].
  destruct (String.eqb _ _); [by rewrite Hp|]. intros ->. by apply elem_objects.
Qed.

(** Every intent was legal and took effect; nothing the batch did not name changed. *)
Record batch_applied (specs : AttributeSpecSet) (turn : string) (intents : list EffectIntent)
    (g g' : graph) : Prop := {
  applied_intents i : i ∈ intents -> exists p o objects, intent_legal specs g i p o /\
    objects_in g' (i_Target i) p = Some objects /\ takes_effect i o objects;
  applied_frame id p :
    (forall i o, i ∈ intents -> i_Target i = id -> Mutation i <> Ok (p, o)) ->
    (id = turn -> p ∉ Predicates TurnEffectMarker) ->
    option_relation (≡ₚ) (fun _ => False) (fun _ => False) (objects_in g' id p) (objects_in g id p)
}.

Lemma chain_frame l g g' p :
  Forall (fun ipw : string * projectionWrite => pr_target ipw.2 ∈ effectTargets) l ->
  p ∉ effectPredicates -> chain l g g' -> keeps p g g'.
Proof.
  intros Ht Hp. apply chain_keeps. intros id pw Hin Hpin. apply Hp, effectPredicates_target.
  rewrite List.Forall_forall in Ht. specialize (Ht _ (proj1 (list_elem_of_In _ _) Hin)). cbn [snd] in Ht.
  exists (pr_target pw). by apply EffectTarget_group.
Qed.

(** The predicates an apply may write at all. *)
Definition apply_frame (g g' : graph) : Prop :=
  forall p, p ∉ effectPredicates -> p ∉ Predicates TurnEffectMarker -> keeps p g g'.

Lemma apply_frame_refl g : apply_frame g g.
Proof. by intros p _ _ id. Qed.

Lemma commit_spec specs batch p turn ref w :
  plan_wf specs (graph_of w) (b_Intents batch) p ->
  wp (commit batch p turn ref) (fun r w' =>
    match r with
    | Ok o => o_Applied o = true /\ marker_in (graph_of w') turn (b_BatchID batch) ref /\
        batch_applied specs turn (b_Intents batch) (graph_of w) (graph_of w')
    | Err err => is_CommitError err = true
    end /\ apply_frame (graph_of w) (graph_of w')) w.
Proof.
  intros Hwf. unfold commit. apply wp_clock. intros t w1 Hg1. rewrite <- Hg1 in Hwf |- *. clear Hg1.
  pose proof (writes_of_disjoint _ _ _ _ (b_TurnID batch) t Hwf) as [_ Htargets].
  apply wp_bind. eapply wp_mono; [apply commit_targets_spec|]. intros [ids|err] w2 Hr.
  2: { destruct Hr as [Herr [n Hc]]. split; [exact Herr|]. intros q Hq _.
       eapply chain_frame; [|exact Hq|exact Hc]. by apply Forall_take. }
  destruct Hr as [_ Hc].
  assert (Hframe1 : apply_frame (graph_of w1) (graph_of w2)).
  { intros q Hq _. by eapply chain_frame. }
  destruct (EffectBatch_Triples batch turn ref EffectSource t) as [ts|err] eqn:Hts;
    [|apply wp_throw; split; [reflexivity|exact Hframe1]].
  apply wp_bind, wp_attempt. eapply wp_mono; [apply Reconcile_spec|].
  assert (Hframe2 : forall g', reconcile_effect TurnEffectMarker turn ts (graph_of w2) g' ->
    apply_frame (graph_of w1) g').
  { intros g' He q Hq Hm. transitivity (graph_of w2); [by apply Hframe1|]. by eapply reconcile_keeps. }
  intros [e|err] w3 Hr.
  2: { apply wp_throw. split; [reflexivity|]. destruct Hr as [->|He]; [exact Hframe1|by apply Hframe2]. }
  destruct Hr as [He _]. apply wp_ret. split; [|by apply Hframe2].
  split; [reflexivity|]. split; [by eapply reconcile_marker|].
  destruct (plan_committed _ _ _ _ _ _ _ Hwf Hc) as [Hplanned Hrest].
  assert (Hafter : forall id q, (id = turn -> q ∉ Predicates TurnEffectMarker) ->
    objects_in (graph_of w3) id q = objects_in (graph_of w2) id q).
  { intros id q Hq. destruct (decide (id = turn)) as [->|Hne].
    - by apply (reconcile_keeps _ _ _ _ _ _ He (Hq eq_refl)).
    - unfold objects_in. by rewrite (reconcile_other _ _ _ _ _ _ He Hne). }
  split.
  - intros i Hi. destruct (plan_carries _ _ _ _ Hwf _ Hi) as (q & o & tw & entry & Hl & Ht & Hw & [_ Hc']).
    destruct (Hplanned _ _ _ _ Ht Hw) as (objects & Ho & Hperm). exists q, o, objects.
    split; [exact Hl|]. split; [|by eapply takes_effect_perm]. rewrite Hafter; [exact Ho|]. intros _.
    destruct (Mutation_shape _ _ _ (legal_mutation _ _ _ _ _ Hl)) as ([tt Htt] & _).
    apply EffectTarget_marker. rewrite Htt. discriminate.
  - intros id q Hno Hq. rewrite Hafter by exact Hq. apply Hrest. intros tw Htw.
    destruct (tw_writes tw !! q) as [entry|] eqn:Ew; [|reflexivity]. exfalso.
    destruct (plan_targets _ _ _ _ Hwf _ _ Htw) as (state & _ & Htwf).
    destruct (plan_touched _ _ _ _ Hwf _ _ q Htw) as (i & o & Hi & Hid & Hm);
      [apply (target_dom _ _ _ Htwf); eauto|]. by apply (Hno i o Hi Hid).
Qed.

Lemma Apply_spec specs batch turn ref w :
  wp (Apply specs (Some batch) turn ref) (fun r w' =>
    match r with
    | Ok o => marker_in (graph_of w') turn (b_BatchID batch) ref /\
        if o_Applied o then batch_applied specs turn (b_Intents batch) (graph_of w) (graph_of w')
        else graph_of w' = graph_of w
    | Err err => graph_of w' = graph_of w \/ is_CommitError err = true
    end /\ apply_frame (graph_of w) (graph_of w') /\
    (marker_in (graph_of w) turn (b_BatchID batch) ref ->
       graph_of w' = graph_of w /\ match r with Ok o => o_Applied o = false | Err _ => True end)) w.
Proof.
  assert (Hsame : forall (w1 : W), graph_of w1 = graph_of w -> apply_frame (graph_of w) (graph_of w1))
    by (intros ? ->; apply apply_frame_refl).
  unfold Apply. destruct (EffectBatch_Validate batch) as [u|err]; [|apply wp_throw; auto].
  apply wp_lift_bind; [|auto]. intros _ _. destruct (String.eqb ref EmptyString); [apply wp_throw; auto|].
  apply wp_bind. eapply wp_mono; [apply alreadyApplied_spec|]. intros [[]|err] w1 [Hg Hr]; [| |auto].
  { apply wp_ret. cbn [o_Applied]. rewrite Hg. split_and!; auto. }
  assert (Hnew : ~ marker_in (graph_of w) turn (b_BatchID batch) ref)
    by (intros [Hm _]; rewrite Hr in Hm; discriminate).
  apply wp_bind. eapply wp_mono; [by eapply buildPlan_spec|]. rewrite Hg. intros [p|err] w2 [Hg2 Hp]; [|auto].
  rewrite <- Hg2 in Hp. eapply wp_mono; [by apply commit_spec|]. rewrite Hg2. intros [o|err] w3 [Hc Hf].
  - destruct Hc as (-> & Hm & Hb). split_and!; auto. tauto.
  - split_and!; auto. tauto.
Qed.
End applying.

(** ** The guarantees *)

Section guarantees.
Context {W : Type} `{Substrate, HasGraph W, GraphStore W, Clock W}.
Context `{!GraphStoreLaws W}.

(** C3: a batch that applies takes effect exactly: every intent was legal
    against the graph the plan was made on (target and object exist, kinds
    allowed, value in bounds), its predicate now holds what the intent asked
    for, every fact the batch did not name is as it was, and the turn's marker
    names the batch and where it is stored. *)
Theorem Apply_commits_whole_batch specs batch turn ref (w : W) o w'
    (Hrun : Apply specs (Some batch) turn ref w = (Ok o, w')) (Happlied : o_Applied o = true) :
  batch_applied specs turn (b_Intents batch) (graph_of w) (graph_of w') /\
  marker_in (graph_of w') turn (b_BatchID batch) ref.
Proof.
  destruct (wp_elim _ _ _ _ _ (Apply_spec specs batch turn ref w) Hrun) as [[Hm Ho] _].
  rewrite Happlied in Ho. auto.
Qed.

(** A batch that is refused is refused before any write: an apply that fails
    with anything but a commit error, a rejection of any of its intents
    included, left the graph as it was. *)
Theorem Apply_rejects_before_writing specs batch turn ref (w : W) err w'
    (Hrun : Apply specs (Some batch) turn ref w = (Err err, w'))
    (Hcode : is_CommitError err = false) :
  graph_of w' = graph_of w.
Proof.
  destruct (wp_elim _ _ _ _ _ (Apply_spec specs batch turn ref w) Hrun) as [[Hg|Hc] _]; [exact Hg|].
  congruence.
Qed.

(** A batch is applied once: after an apply that returned, re-applying the
    same batch at the same reference, whatever the store does, leaves the
    graph alone and never reports a new application. *)
Theorem Apply_is_idempotent specs batch turn ref (w w1 w2 : W) o r w'
    (Hfirst : Apply specs (Some batch) turn ref w = (Ok o, w1))
    (Hkept : keeps TurnEffectsBatch (graph_of w1) (graph_of w2))
    (Hkept' : keeps TurnEffectsRef (graph_of w1) (graph_of w2))
    (Hsecond : Apply specs (Some batch) turn ref w2 = (r, w')) :
  graph_of w' = graph_of w2 /\ (forall o2, r = Ok o2 -> o_Applied o2 = false).
Proof.
  destruct (wp_elim _ _ _ _ _ (Apply_spec specs batch turn ref w) Hfirst) as [[[Hm1 Hm2] _] _].
  destruct (wp_elim _ _ _ _ _ (Apply_spec specs batch turn ref w2) Hsecond) as (_ & _ & Hsame).
  destruct Hsame as [Hg Hr]; [split; [by rewrite Hkept|by rewrite Hkept']|].
  split; [exact Hg|]. by intros o2 ->.
Qed.

(** An apply, whole, partial or refused, writes only effect predicates and
    the marker: no fact of any other predicate, a turn's phase and roll
    included, changes for any entity. *)
Theorem Apply_writes_only_effects specs batch turn ref (w : W) r w' p
    (Hrun : Apply specs (Some batch) turn ref w = (r, w'))
    (Hp : p ∉ effectPredicates) (Hm : p ∉ Predicates TurnEffectMarker) :
  keeps p (graph_of w) (graph_of w').
Proof.
  destruct (wp_elim _ _ _ _ _ (Apply_spec specs batch turn ref w) Hrun) as (_ & Hf & _). by apply Hf.
Qed.
End guarantees.

(** ** At work on the in-memory world *)

Definition hero : string := "acme.semmachina.barrow.case.character.ada".
Definition rival : string := "acme.semmachina.barrow.case.character.bo".

Definition character (id : string) (facts : list Triple) : EntityState :=
  with_triples (Demo.bare id) (Demo.string_triple id WorldEntityKind EntityKindCharacter :: facts).

(** The hero is well and knows nobody. *)
Definition effect_world (faults : list fault) : World :=
  mkWorld {[ hero := character hero [Demo.string_triple hero CharacterStatusCurrent StatusHealthy];
             rival := character rival [];
             Demo.turn_id := Demo.turn_in PhaseApplying ]} 10 faults [].

Definition demo_intents : list EffectIntent :=
  [{| i_Type := EffectSetAttribute; i_Target := hero; i_Attribute := AttributeHealth; i_Value := Some 4;
      i_Status := EmptyString; i_Location := EmptyString; i_Relation := EmptyString; i_Object := EmptyString |};
   {| i_Type := EffectAddRelationship; i_Target := hero; i_Attribute := EmptyString; i_Value := None;
      i_Status := EmptyString; i_Location := EmptyString; i_Relation := RelationKnows; i_Object := rival |}].

Definition demo_batch : EffectBatch := NewEffectBatch "turn-a1" BandPartial demo_intents.
Definition demo_ref : string := "obj://content/turn/effects".

Lemma Apply_commits_whole_batch_witness :
  exists o w', Apply DefaultAttributeSpecs (Some demo_batch) Demo.turn_id demo_ref (effect_world []) = (Ok o, w') /\
    batch_applied DefaultAttributeSpecs Demo.turn_id demo_intents (graph_of (effect_world [])) (graph_of w').
Proof.
  eexists _, _. split; [vm_compute; reflexivity|].
  eapply (Apply_commits_whole_batch DefaultAttributeSpecs demo_batch Demo.turn_id demo_ref);
    [vm_compute; reflexivity|reflexivity].
Defined.

(** The second intent names an entity that is not there. *)
Definition bad_batch : EffectBatch := NewEffectBatch "turn-a1" BandPartial
  [{| i_Type := EffectSetStatus; i_Target := hero; i_Attribute := EmptyString; i_Value := None;
      i_Status := StatusHealthy; i_Location := EmptyString; i_Relation := EmptyString; i_Object := EmptyString |};
   {| i_Type := EffectAddRelationship; i_Target := hero; i_Attribute := EmptyString; i_Value := None;
      i_Status := EmptyString; i_Location := EmptyString; i_Relation := RelationKnows; i_Object := Demo.player_id |}].

Lemma Apply_rejects_before_writing_witness :
  exists err w', Apply DefaultAttributeSpecs (Some bad_batch) Demo.turn_id demo_ref (effect_world []) = (Err err, w') /\
    is_RejectionError err = true /\ graph_of w' = graph_of (effect_world []).
Proof.
  eexists _, _. split; [vm_compute; reflexivity|]. split; [reflexivity|].
  eapply (Apply_rejects_before_writing DefaultAttributeSpecs bad_batch Demo.turn_id demo_ref);
    [vm_compute; reflexivity|reflexivity].
Defined.

Definition effect_done : World :=
  (Apply DefaultAttributeSpecs (Some demo_batch) Demo.turn_id demo_ref (effect_world [])).2.

Lemma Apply_is_idempotent_witness :
  exists o2, (Apply DefaultAttributeSpecs (Some demo_batch) Demo.turn_id demo_ref effect_done).1 = Ok o2 /\
    o_Applied o2 = false.
Proof.
  eexists. split; [vm_compute; reflexivity|].
  eapply (Apply_is_idempotent DefaultAttributeSpecs demo_batch Demo.turn_id demo_ref (effect_world [])
    effect_done effect_done); [vm_compute; reflexivity|done|done|vm_compute; reflexivity|reflexivity].
Defined.

Lemma Apply_writes_only_effects_witness :
  keeps TurnPhaseCurrent (graph_of (effect_world [Commits; Refused]))
    (graph_of (Apply DefaultAttributeSpecs (Some demo_batch) Demo.turn_id demo_ref
       (effect_world [Commits; Refused])).2).
Proof.
  eapply (Apply_writes_only_effects DefaultAttributeSpecs demo_batch Demo.turn_id demo_ref
    (effect_world [Commits; Refused])); [apply surjective_pairing|not_in_target|not_in_target].
Defined.
