(* ===== verification/StageSpec.v ===== *)
(** What the deterministic stages guarantee: they only ever take turns along
    the FSM, a stage that succeeds leaves its artifact, and a stage that cannot
    ends its turn explicitly. *)

From stdpp Require Import relations.
From S2P Require Import Prelude GoStd GoHash GoErrors Graph Vocab Vocabulary Payload Mechanics ContentRecords ProjectionContract Store Campaign Dice Effect Sequencing GraphIO Turn Stage MemStore TurnSpec TurnTheorems DiceSpec EffectSpec.

Open Scope Z_scope.

(** Several steps of the FSM at once, for every turn of the graph. *)
Definition fsm_step (g g' : graph) `{Substrate} : Prop := forall id, turn_moves g g' id.
Definition fsm_run `{Substrate} : graph -> graph -> Prop := rtc (fun g g' => fsm_step g g').

Section stages.
Context {W : Type} `{Substrate, HasGraph W, GraphStore W, Clock W, ActionStore W, ArtifactStore W, ErrorClassifier}.
Context `{!GraphStoreLaws W, !ActionStoreLaws W, !ArtifactStoreLaws W, !VocabularyLaws}.

Lemma fsm_once g g' : (forall id, turn_moves g g' id) -> fsm_run g g'.
Proof. intros Hm. by apply rtc_once. Qed.

Lemma fsm_keep g g' : keeps TurnPhaseCurrent g g' -> keeps TurnFailureReason g g' -> fsm_run g g'.
Proof. intros ??. apply fsm_once. intros id. by apply moves_keep. Qed.

Lemma wp_artifact {A B} (m : MW W A) (k : res A -> MW W B) Q w :
  (forall w, graph_of (m w).2 = graph_of w) ->
  (forall r w', graph_of w' = graph_of w -> wp (k r) Q w') -> wp (r ← attempt m; k r) Q w.
Proof.
  intros Hm Hk. apply wp_bind, wp_attempt. unfold wp at 1. apply Hk, Hm.
Qed.

Lemma classify_resumed p q o :
  classify p q = (o, EmptyString) -> o <> OutcomeAdvanced -> o <> OutcomeDeclined -> p = q.
Proof.
  unfold classify. destruct (PhaseRank p), (PhaseRank q); try (intros Hc; discriminate Hc).
  destruct (IsTerminal p); [by intros [= <-]|]. destruct (String.eqb_spec p q); [done|].
  destruct (PhaseFollows p q); [by intros [= <-]|]. destruct (_ <? _); [by intros [= <-]|].
  intros Hc. discriminate Hc.
Qed.

Lemma enter_spec trigger phase w :
  wp (enter trigger phase) (fun r w' =>
    (forall id, turn_moves (graph_of w) (graph_of w') id) /\ transition_frame (graph_of w) (graph_of w') /\
    match r with
    | Ok true => phase_in (graph_of w') (t_TurnEntityID trigger) = Some phase
    | Ok false => exists p, phase_in (graph_of w) (t_TurnEntityID trigger) = Some p /\
        classify p phase = (OutcomeDeclined, EmptyString)
    | Err _ => True
    end) w.
Proof.
  unfold enter. apply wp_bind.
  pose proof (Advance_spec (t_TurnID trigger) (t_TurnEntityID trigger) phase w) as Ha.
  assert (Hf : wp (Advance (t_TurnID trigger) (t_TurnEntityID trigger) phase) (fun _ w' =>
    transition_frame (graph_of w) (graph_of w')) w).
  { unfold Advance. repeat case_match; try (apply wp_throw; by intros p _ _ id). apply transition_frame_spec. }
  unfold wp in *. destruct (Advance _ _ _ w) as [[tr|err] w1]; cbn [fst snd] in *; [|split_and!; [apply Ha|done..]].
  destruct Ha as (Hm & _ & _ & Hprev & Hphase & Hc & Hadv & Hstill). split_and!; [done..|].
  cbn. destruct (String.eqb_spec (Outcome tr) OutcomeDeclined) as [Hd|Hd]; cbn [negb].
  { exists (Previous tr). by rewrite <- Hd. }
  destruct (decide (Outcome tr = OutcomeAdvanced)) as [Had|Hna].
  { destruct (Hadv Had) as [<- _]. done. }
  (* neither advanced nor declined: resumed on the same phase *)
  rewrite Hphase. destruct (Hstill Hna) as [_ ->]. by rewrite (classify_resumed _ _ _ Hc Hna Hd).
Qed.

Lemma readTurn_spec id w :
  wp (readTurn id) (fun r w' => graph_of w' = graph_of w /\
    match r with Ok e => graph_of w !! id = Some e | Err _ => True end) w.
Proof.
  unfold readTurn. apply wp_get. intros [e|err] w1 Hg Hr; by apply wp_lift.
Qed.

Lemma verdictOf_spec e w : wp (verdictOf e) (fun _ w' => graph_of w' = graph_of w) w.
Proof.
  unfold verdictOf. apply wp_lift_bind; [|done]. intros ref _.
  apply wp_artifact; [apply GetVerdict_graph|]. intros r w1 Hg. by apply wp_lift.
Qed.

Lemma stage_verdict_spec trigger w : wp (stage_verdict trigger) (fun _ w' => graph_of w' = graph_of w) w.
Proof.
  unfold stage_verdict. apply wp_bind. eapply wp_mono; [apply readTurn_spec|]. intros [e|err] w1 [<- _]; [|done].
  apply verdictOf_spec.
Qed.

(** ** The dice stage *)

Lemma roll_in_keeps g g' turn :
  (forall p, p ∈ [TurnRollBand; TurnRollTotal; TurnRollRef] -> keeps p g g') -> roll_in g' turn = roll_in g turn.
Proof.
  intros Hk. unfold roll_in.
  assert (Ho : forall p, p ∈ [TurnRollBand; TurnRollTotal; TurnRollRef] ->
    objects_in g' turn p = objects_in g turn p) by (intros p Hp; by apply Hk).
  unfold objects_in in Ho. destruct (g !! turn) as [e|] eqn:E, (g' !! turn) as [e'|] eqn:E'; cbn in *; try done.
  - f_equal. apply recordedRoll_objects. intros p Hp. by apply (inj Some), Ho.
  - by specialize (Ho TurnRollBand (list_elem_of_here _ _)).
  - by specialize (Ho TurnRollBand (list_elem_of_here _ _)).
Qed.

Lemma frame_roll g g' turn : transition_frame g g' -> roll_in g' turn = roll_in g turn.
Proof.
  intros Hf. apply roll_in_keeps. intros p Hp. apply Hf; closed_cases Hp; (not_in_target || discriminate).
Qed.

(** What the dice stage leaves behind. *)
Definition dice_post (r : Resolver) (trigger : Trigger) (g g' : graph) (ok : bool) : Prop :=
  let turn := t_TurnEntityID trigger in
  fsm_run g g' /\
  (forall s, roll_in g turn = Some (Ok (Some s)) -> roll_in g' turn = roll_in g turn) /\
  (ok = true ->
    (exists p, phase_in g turn = Some p /\ classify p PhaseResolving = (OutcomeDeclined, EmptyString)) \/
    (phase_in g' turn = Some PhaseResolving /\ exists v,
       let roll := rolled (rv_roller r) (rv_seed r) (rv_campaignID r) (v_TurnID v) (v_Modifiers v) in
       RollResult_Validate roll = Ok tt /\
       roll_in g' turn = Some (Ok (Some {| rr_band := r_Band roll; rr_total := r_Total roll |})))).

Lemma dice_post_fail r trigger g g1 g' :
  (forall id, turn_moves g g1 id) -> transition_frame g g1 -> g' = g1 -> dice_post r trigger g g' false.
Proof.
  intros Hm Hf ->. split; [by apply fsm_once|]. split; [|done]. intros s _. by apply frame_roll.
Qed.

Lemma Resolver_Run_spec r trigger w :
  wp (Resolver_Run r trigger) (fun res w' => dice_post r trigger (graph_of w) (graph_of w') (is_ok res)) w.
Proof.
  unfold Resolver_Run. set (turn := t_TurnEntityID trigger).
  apply wp_bind. eapply wp_mono; [apply enter_spec|]. intros [run|err] w1 (Hm & Hf & Hr);
    [|by eapply dice_post_fail].
  destruct run; cbn [negb].
  2: { apply wp_ret. destruct (dice_post_fail r trigger _ _ _ Hm Hf eq_refl) as (? & ? & _).
       split_and!; [done..|]. intros _. by left. }
  assert (Hfail : forall (w2 : W), graph_of w2 = graph_of w1 -> dice_post r trigger (graph_of w) (graph_of w2) false).
  { intros w2 Hg. by eapply dice_post_fail. }
  apply wp_bind. eapply wp_mono; [apply stage_verdict_spec|]. intros [v|err] w2 Hg2; [|by apply Hfail].
  apply wp_bind, wp_attempt. eapply wp_mono; [by eapply Resolve_spec|]. intros [res|err] w3 [Hg3 Hres].
  2: { case_match; apply wp_throw, Hfail; congruence. }
  destruct Hres as (_ & Hroll & Hv & Hin). rewrite Hg2 in Hin, Hg3. rewrite (frame_roll _ _ _ Hf) in Hin.
  destruct (rs_Rolled res) eqn:Hrolled; cbn [negb].
  2: { apply wp_ret. destruct (Hfail w3 Hg3) as (? & ? & _). split_and!; [done..|]. intros _. right.
       rewrite Hg3. split; [done|]. exists v. rewrite <- Hroll. split; [done|].
       by rewrite (frame_roll _ _ _ Hf). }
  apply wp_artifact; [apply PutRoll_graph|]. intros stored w4 Hg4.
  apply wp_lift_bind; [|intros; apply Hfail; congruence]. intros ref _.
  apply wp_clock. intros t w5 Hg5. apply wp_lift_bind; [|intros; apply Hfail; congruence]. intros ts Hts.
  apply wp_bind, wp_attempt. eapply wp_mono; [apply Reconcile_spec|].
  assert (Hg51 : graph_of w5 = graph_of w1) by congruence. rewrite Hg51.
  assert (Hwrite : forall g', reconcile_effect TurnRoll turn ts (graph_of w1) g' ->
    fsm_run (graph_of w) g' /\ phase_in g' turn = Some PhaseResolving).
  { intros g' He.
    assert (Hkp : keeps TurnPhaseCurrent (graph_of w1) g') by (eapply reconcile_keeps; [exact He|not_in_target]).
    split; [|by rewrite (phase_in_objects _ _ _ (Hkp turn))].
    eapply rtc_l; [exact Hm|]. apply fsm_keep; [exact Hkp|]. eapply reconcile_keeps; [exact He|not_in_target]. }
  assert (Hnone : forall s g', roll_in (graph_of w) turn = Some (Ok (Some s)) ->
    roll_in g' turn = roll_in (graph_of w) turn) by (intros s g' Hs; rewrite Hs in Hin; discriminate).
  intros [e|err] w6 Hrec; [apply wp_ret|apply wp_throw].
  - destruct Hrec as [He _]. destruct (Hwrite _ He) as [Hrun Hp].
    split_and!; [done|intros s Hs; by eapply Hnone|]. intros _. right. split; [done|]. exists v.
    rewrite <- Hroll. split; [done|]. by eapply reconcile_roll.
  - destruct Hrec as [Hg|He].
    + apply Hfail. congruence.
    + destruct (Hwrite _ He) as [Hrun Hp]. split_and!; [done|intros s Hs; by eapply Hnone|done].
Qed.

(** ** The effect stage *)

Lemma apply_frame_phase g g' : apply_frame g g' -> keeps TurnPhaseCurrent g g' /\ keeps TurnFailureReason g g'.
Proof.
  intros Hf. assert (Hout : forall p, mem p effectPredicates = false -> mem p (Predicates TurnEffectMarker) = false ->
    keeps p g g') by (intros p Hp Hm; apply Hf; by apply mem_false).
  split; apply Hout; vm_compute; reflexivity.
Qed.

(** The turn was ended for the coded reason of the error that refused it. *)
Definition ended_for (g : graph) (turn : string) (err : error) : Prop :=
  exists reason, FailureReasonFor err = Some reason /\ phase_in g turn = Some PhaseFailed /\
    reasons_in g turn = Some [AString reason].

Lemma refuse_spec trigger err w :
  phase_in (graph_of w) (t_TurnEntityID trigger) = Some PhaseApplying ->
  wp (refuse trigger err) (fun r w' => (forall id, turn_moves (graph_of w) (graph_of w') id) /\
    match r with Ok _ => ended_for (graph_of w') (t_TurnEntityID trigger) err | Err _ => True end) w.
Proof.
  intros Hp. unfold refuse. destruct (FailureReasonFor err) as [reason|] eqn:Hreason.
  2: { apply wp_throw. split; [intros; apply stays|done]. }
  destruct (match errors_As is_CommitError err with
            | Some (CommitError _ target committed _) => (target, committed)
            | _ => _ end) as [target committed].
  apply wp_artifact; [apply PutFailureDetail_graph|]. intros stored w1 Hg.
  apply wp_bind, wp_attempt. eapply wp_mono; [apply Fail_spec|]. rewrite Hg.
  intros [tr|err'] w2 [Hm Hpost]; [|by apply wp_throw]. apply wp_ret. split; [done|].
  destruct Hpost as (_ & Hprev & Hphase & Hc & Hadv & _). rewrite Hp in Hprev. injection Hprev as Hprev.
  rewrite <- Hprev in Hc. assert (Ha : Outcome tr = OutcomeAdvanced) by (vm_compute in Hc; by injection Hc).
  destruct (Hadv Ha) as (Hto & Hrs & _). exists reason. rewrite Hphase, Hto. split_and!; [done..|].
  rewrite Hrs. reflexivity.
Qed.

(** What the effect stage leaves behind. *)
Definition effect_post (trigger : Trigger) (g g' : graph) (ok : bool) : Prop :=
  let turn := t_TurnEntityID trigger in
  fsm_run g g' /\
  (ok = true ->
    (exists p, phase_in g turn = Some p /\ classify p PhaseApplying = (OutcomeDeclined, EmptyString)) \/
    (phase_in g' turn = Some PhaseApplying /\ exists e v band intents ref,
       objects_in g turn TurnRollBand = Some (objectsFor e TurnRollBand) /\
       committedBand e v = Ok band /\ v_Bands v !! band = Some intents /\
       marker_in g' turn (b_BatchID (NewEffectBatch (t_TurnID trigger) band intents)) ref) \/
    (exists err, ended_for g' turn err)).

Lemma Effector_Run_spec specs trigger w :
  wp (Effector_Run specs trigger) (fun res w' => effect_post trigger (graph_of w) (graph_of w') (is_ok res)) w.
Proof.
  unfold Effector_Run. set (turn := t_TurnEntityID trigger).
  apply wp_bind. eapply wp_mono; [apply enter_spec|]. intros [run|err] w1 (Hm & Hf & Hr);
    [|split; [by apply fsm_once|done]].
  destruct run; cbn [negb].
  2: { apply wp_ret. split; [by apply fsm_once|]. intros _. by left. }
  assert (Hfail : forall (w2 : W), graph_of w2 = graph_of w1 -> effect_post trigger (graph_of w) (graph_of w2) false).
  { intros w2 ->. split; [by apply fsm_once|done]. }
  apply wp_bind. eapply wp_mono; [apply readTurn_spec|]. intros [e|err] w2 [Hg2 He]; [|by apply Hfail].
  apply wp_bind. eapply wp_mono; [apply verdictOf_spec|]. intros [v|err] w3 Hg3; [|apply Hfail; congruence].
  apply wp_lift_bind; [|intros; apply Hfail; congruence]. intros band Hband.
  apply wp_lift_bind; [|intros; apply Hfail; congruence]. intros intents Hintents.
  apply wp_artifact; [apply PutEffectBatch_graph|]. intros stored w4 Hg4.
  apply wp_lift_bind; [|intros; apply Hfail; congruence]. intros ref _.
  assert (Hg41 : graph_of w4 = graph_of w1) by congruence.
  apply wp_bind, wp_attempt. eapply wp_mono; [apply Apply_spec|]. rewrite Hg41.
  intros [o|err] w5 (Hres & Hframe & _); destruct (apply_frame_phase _ _ Hframe) as [Hkp Hkr];
    assert (Hrun : fsm_run (graph_of w) (graph_of w5))
      by (eapply rtc_l; [exact Hm|]; by apply fsm_keep);
    assert (Hphase : phase_in (graph_of w5) turn = Some PhaseApplying)
      by (by rewrite (phase_in_objects _ _ _ (Hkp turn))).
  - apply wp_ret. split; [done|]. intros _. right. left. split; [done|].
    exists e, v, band, intents, (Ref_String ref). split_and!; [|done| |apply Hres].
    + assert (Hk : keeps TurnRollBand (graph_of w) (graph_of w1)) by (apply Hf; [not_in_target|discriminate]).
      transitivity (objects_in (graph_of w1) turn TurnRollBand); [symmetry; apply Hk|]. unfold objects_in. by rewrite He.
    + unfold EffectBands_For in Hintents. destruct (v_Bands v !! band); [by injection Hintents as ->|done].
  - destruct (incomplete err); [by apply wp_throw|].
    eapply wp_mono; [by apply refuse_spec|]. intros r w6 [Hm6 Hr6].
    assert (Hrun6 : fsm_run (graph_of w) (graph_of w6)) by (eapply rtc_r; [exact Hrun|exact Hm6]).
    split; [exact Hrun6|]. intros Hok. right. right. destruct r; [by exists err|done].
Qed.

(** ** Every stage *)

Lemma stage_Run_fsm st trigger w :
  wp (stage_Run st trigger) (fun _ w' => fsm_run (graph_of w) (graph_of w')) w.
Proof.
  destruct st as [r|specs|]; cbn [stage_Run].
  - eapply wp_mono; [apply Resolver_Run_spec|]. by intros res w' [? _].
  - eapply wp_mono; [apply Effector_Run_spec|]. by intros res w' [? _].
  - unfold Completer_Run. apply wp_bind. eapply wp_mono; [apply enter_spec|].
    intros [b|err] w' [? _]; [apply wp_ret|]; by apply fsm_once.
Qed.

Lemma handle_fsm st decoded w :
  wp (handle st decoded) (fun _ w' => fsm_run (graph_of w) (graph_of w')) w.
Proof.
  unfold handle. destruct (ParseTrigger decoded) as [trigger|err]; [|by apply wp_throw, rtc_refl].
  apply wp_bind, wp_attempt. eapply wp_mono; [apply stage_Run_fsm|]. intros r w' Hrun. by apply wp_lift.
Qed.
End stages.

(** ** The guarantees *)

Section guarantees.
Context {W : Type} `{Substrate, HasGraph W, GraphStore W, Clock W, ActionStore W, ArtifactStore W, ErrorClassifier}.
Context `{!GraphStoreLaws W, !ActionStoreLaws W, !ArtifactStoreLaws W, !VocabularyLaws}.

(** C9: whatever document arrives on a stage's queue and whatever the stores do,
    running the stage takes every turn along edges of the FSM only, so it
    keeps every well-formed turn well-formed. *)
Theorem stage_handler_follows_fsm st decoded (w : W) :
  let w' := (handle st decoded w).2 in
  fsm_run (graph_of w) (graph_of w') /\
  (forall id, turn_wf (graph_of w) id -> turn_wf (graph_of w') id).
Proof.
  pose proof (handle_fsm st decoded w) as Hrun. unfold wp in Hrun. split; [done|]. intros id.
  induction Hrun as [|g g1 g' Hstep _ IH]; [done|]. intros Hwf. apply IH. by eapply turn_wf_moves.
Qed.

(** A dice stage that returns without error either found the turn past the
    dice, or left it resolving with the roll its verdict derives on the
    record; and whatever it returns, a roll already recorded is not touched. *)
Theorem dice_stage_contract r trigger (w : W) res w'
    (Hrun : Resolver_Run r trigger w = (res, w')) :
  dice_post r trigger (graph_of w) (graph_of w') (is_ok res).
Proof. exact (wp_elim _ _ _ _ _ (Resolver_Run_spec r trigger w) Hrun). Qed.

(** An effect stage that returns without error either found the turn past
    effects, or recorded the batch of the band the dice committed, or ended
    the turn as failed for the closed reason of the refusal: a turn is never
    left waiting on a batch that was refused. *)
Theorem effect_stage_contract specs trigger (w : W) res w'
    (Hrun : Effector_Run specs trigger w = (res, w')) :
  effect_post trigger (graph_of w) (graph_of w') (is_ok res).
Proof. exact (wp_elim _ _ _ _ _ (Effector_Run_spec specs trigger w) Hrun). Qed.
End guarantees.

(** ** At work on the in-memory world *)

#[local] Instance demo_artifacts : ArtifactStore World := {|
  GetVerdict _ := mret demo_verdict;
  PutRoll _ _ := mret {| Instance_ := "content"; Key := "turn/roll" |};
  PutEffectBatch _ _ := mret {| Instance_ := "content"; Key := "turn/effects" |};
  PutFailureDetail _ _ := mret {| Instance_ := "content"; Key := "turn/failure" |} |}.

#[local] Instance demo_artifact_laws : ArtifactStoreLaws World.
Proof. by split. Qed.

#[local] Instance demo_classifier : ErrorClassifier := {| is_transient _ := false |}.

Definition demo_trigger : Trigger := {|
  t_TurnEntityID := Demo.turn_id; t_TurnID := "turn-a1"; t_Subject := "semmachina.turn.resolving" |}.
Definition demo_publication : rulePublication := {|
  EntityID_ := Demo.turn_id; Subject_ := "semmachina.turn.resolving"; Source_ := "rules";
  Properties_ := ∅ |}.

(** An adjudicated turn, with the reference to its verdict and, when the dice
    were thrown, its roll. *)
Definition adjudicated (phase : string) (roll : list Triple) : World :=
  mkWorld {[ Demo.player_id := Demo.bare Demo.player_id;
             Demo.turn_id := with_triples (Demo.bare Demo.turn_id)
               ([Demo.string_triple Demo.turn_id TurnPhaseCurrent phase;
                 Demo.string_triple Demo.turn_id TurnActionPlayer Demo.player_id;
                 Demo.string_triple Demo.turn_id TurnVerdictRef "obj://content/turn/verdict"] ++ roll) ]} 10 [] [].

Lemma stage_handler_follows_fsm_witness :
  fsm_run (graph_of (adjudicated PhaseAdjudicating []))
    (graph_of (handle (DiceStage demo_resolver) (Ok demo_publication) (adjudicated PhaseAdjudicating [])).2).
Proof. apply (stage_handler_follows_fsm (DiceStage demo_resolver)). Defined.

Lemma dice_stage_contract_witness :
  exists w', Resolver_Run demo_resolver demo_trigger (adjudicated PhaseAdjudicating []) = (Ok tt, w') /\
    dice_post demo_resolver demo_trigger (graph_of (adjudicated PhaseAdjudicating [])) (graph_of w') true.
Proof.
  eexists. split; [vm_compute; reflexivity|].
  eapply (dice_stage_contract demo_resolver demo_trigger (adjudicated PhaseAdjudicating []) (Ok tt)).
  vm_compute. reflexivity.
Defined.

Lemma effect_stage_contract_witness :
  exists w', Effector_Run DefaultAttributeSpecs demo_trigger
      (adjudicated PhaseResolving demo_roll_triples) = (Ok tt, w') /\
    effect_post demo_trigger (graph_of (adjudicated PhaseResolving demo_roll_triples)) (graph_of w') true.
Proof.
  eexists. split; [vm_compute; reflexivity|].
  eapply (effect_stage_contract DefaultAttributeSpecs demo_trigger
    (adjudicated PhaseResolving demo_roll_triples) (Ok tt)).
  vm_compute. reflexivity.
Defined.
