(* ===== verification/ResumeSpec.v ===== *)
(** What the stranded-turn pass guarantees: it moves turns only along the FSM,
    leaves finished and queued turns alone, accounts for every turn it scans,
    and re-triggers a turn at most its budget of times, ever. *)

From stdpp Require Import relations.
From S2P Require Import Prelude GoStd GoErrors Graph Vocab Vocabulary Payload ContentRecords ProjectionContract Store Campaign Sequencing GraphIO Turn Stage Resume MemStore TurnSpec TurnTheorems CampaignSpec StageSpec.

Open Scope Z_scope.

(** The triggers on the stage stream, oldest first. *)
Class HasTriggers (W : Type) : Type := { triggers : W -> list stageTrigger }.

(** The queues and the enumeration leave the graph alone; only a publish, which
    may be lost or land without an acknowledgement, adds a trigger. *)
Class ResumeLaws (W : Type)
    `{Substrate, HasGraph W, HasTriggers W, GraphStore W, Clock W, ArtifactStore W, PrefixReader W,
      TriggerPublisher W, QueuedTriggers W} : Prop := {
  EntitiesWithPrefix_graph prefix cursor limit w :
    graph_of (EntitiesWithPrefix prefix cursor limit w).2 = graph_of w;
  EntitiesWithPrefix_current prefix cursor limit w :
    match (EntitiesWithPrefix prefix cursor limit w).1 with
    | Ok page => NoDup (map ID (pg_Entities page)) /\
        Forall (fun e => graph_of w !! ID e = Some e) (pg_Entities page)
    | Err _ => True
    end;
  EntitiesWithPrefix_quiet prefix cursor limit w :
    triggers (EntitiesWithPrefix prefix cursor limit w).2 = triggers w;
  Settle_quiet w : triggers (Settle w).2 = triggers w;
  Pending_quiet w : triggers (Pending w).2 = triggers w;
  Settle_graph w : graph_of (Settle w).2 = graph_of w;
  Pending_graph w : graph_of (Pending w).2 = graph_of w;
  PublishToStream_spec subject body w :
    wp (PublishToStream subject body) (fun r w' => graph_of w' = graph_of w /\
      match r with
      | Ok _ => triggers w' = triggers w ++ [body]
      | Err _ => triggers w' = triggers w \/ triggers w' = triggers w ++ [body]
      end) w;
  GetEntity_quiet id w : triggers (GetEntity id w).2 = triggers w;
  Reconcile_quiet target id ts w : triggers (Reconcile target id ts w).2 = triggers w;
  now_quiet w : triggers (now w).2 = triggers w;
  PutFailureDetail_quiet id detail w : triggers (PutFailureDetail id detail w).2 = triggers w
}.

(** ** Programs that publish nothing *)

Section quiet.
Context {W : Type} `{HasTriggers W}.

Definition quiet {A} (m : MW W A) : Prop := forall w, triggers (m w).2 = triggers w.

Lemma quiet_ret {A} (a : A) : quiet (mret a).
Proof. done. Qed.
Lemma quiet_throw {A} (e : error) : quiet (throw (A := A) e).
Proof. done. Qed.
Lemma quiet_lift {A} (r : res A) : quiet (lift r).
Proof. done. Qed.
Lemma quiet_attempt {A} (m : MW W A) : quiet m -> quiet (attempt m).
Proof. intros Hm w. specialize (Hm w). unfold attempt. by destruct (m w). Qed.
Lemma quiet_bind {A B} (m : MW W A) (k : A -> MW W B) : quiet m -> (forall a, quiet (k a)) -> quiet (m ≫= k).
Proof.
  intros Hm Hk w. specialize (Hm w). unfold mbind, M_bind.
  destruct (m w) as [[a|e] w1]; cbn in *; [|done]. by rewrite Hk.
Qed.
End quiet.

Create HintDb quiet.
#[export] Hint Resolve quiet_ret quiet_throw quiet_lift : quiet.

(** [quietly] walks a program; only calls are left, and the database closes them. *)
Ltac quietly :=
  repeat first
    [ apply quiet_bind; [|intros ?]
    | apply quiet_attempt
    | solve [auto with quiet]
    | match goal with |- quiet (match ?x with _ => _ end) => destruct x end ].

Section recorder_quiet.
Context {W : Type}.
Context `{Substrate, HasGraph W, HasTriggers W, GraphStore W, Clock W, ActionStore W, ArtifactStore W,
  PrefixReader W, TriggerPublisher W, QueuedTriggers W}.
Context `{!ResumeLaws W}.

Lemma quiet_GetEntity id : quiet (GetEntity id).
Proof. intros w. apply GetEntity_quiet. Qed.
Lemma quiet_Reconcile target id ts : quiet (Reconcile target id ts).
Proof. intros w. apply Reconcile_quiet. Qed.
Lemma quiet_clock : quiet read_clock.
Proof. intros w. unfold read_clock. pose proof (now_quiet w). by destruct (now w). Qed.
Lemma quiet_detail id detail : quiet (PutFailureDetail id detail).
Proof. intros w. apply PutFailureDetail_quiet. Qed.

#[local] Hint Resolve quiet_GetEntity quiet_Reconcile quiet_clock quiet_detail : quiet.

Lemma quiet_Fail turnID turn reason detail : quiet (Fail_ turnID turn reason detail).
Proof.
  unfold Fail_, transition, currentState, repairResolvedPointer, pointPlayerAtResolvedTurn, writeResolvedPointer.
  quietly.
Qed.

Lemma quiet_abandon turnID state phase explanation report :
  quiet (abandon turnID state phase explanation report).
Proof. unfold abandon. quietly; apply quiet_Fail. Qed.

Lemma quiet_countAttempt turnID turn n : quiet (countAttempt turnID turn n).
Proof. unfold countAttempt. quietly. Qed.

Lemma quiet_countToward r turnID state phase because report :
  quiet (countTowardAbandonment r turnID state phase because report).
Proof. unfold countTowardAbandonment. quietly; auto using quiet_countAttempt, quiet_abandon. Qed.
End recorder_quiet.

(** ** One scanned turn *)

Section turns.
Context {W : Type}.
Context `{Substrate, TimeText, HasGraph W, HasTriggers W, GraphStore W, Clock W, ActionStore W, ArtifactStore W,
  PrefixReader W, TriggerPublisher W, QueuedTriggers W}.
Context `{!GraphStoreLaws W, !ActionStoreLaws W, !ArtifactStoreLaws W, !VocabularyLaws, !ResumeLaws W}.

(** The turn records [n] resume attempts, and nothing else of the graph changed. *)
Definition attempt_counted (turn : string) (n : Z) (g g' : graph) : Prop :=
  objects_in g' turn TurnResumeAttempts = Some [AInt n] /\ only TurnResumeAttempts g g' /\
  (forall id, id <> turn -> g' !! id = g !! id).

Lemma countAttempt_spec turnID turn n w :
  wp (countAttempt turnID turn n) (fun r w' =>
    triggers w' = triggers w /\
    match r with
    | Ok _ => attempt_counted turn n (graph_of w) (graph_of w')
    | Err _ => graph_of w' = graph_of w \/ attempt_counted turn n (graph_of w) (graph_of w')
    end) w.
Proof.
  assert (Hq := quiet_countAttempt turnID turn n w). unfold wp. split; [exact Hq|]. clear Hq.
  match goal with |- match (?m w).1 with Ok _ => _ | Err _ => _ end =>
    change (wp m (fun r w' => match r with
      | Ok _ => attempt_counted turn n (graph_of w) (graph_of w')
      | Err _ => graph_of w' = graph_of w \/ attempt_counted turn n (graph_of w) (graph_of w')
      end) w) end.
  unfold countAttempt. apply wp_clock. intros t w1 <-. apply wp_lift_bind; [|auto].
  intros ts [Hts _]%TurnResume_Triples_ok. apply wp_bind, wp_attempt. eapply wp_mono; [apply Reconcile_spec|].
  assert (Hw : forall g', reconcile_effect TurnResumeTarget turn ts (graph_of w1) g' ->
    attempt_counted turn n (graph_of w1) g').
  { intros g' He. split; [|split].
    - eapply reconcile_single; [exact He|in_target|]. by rewrite Hts.
    - eapply only_reconcile; [|exact He]. apply Predicates_TurnResume.
    - intros id Hne. by apply (reconcile_other _ _ _ _ _ _ He). }
  intros [e|err] w2 Hr; [apply wp_ret; apply Hw, Hr|apply wp_throw]. destruct Hr as [Hg|He]; [by left|right; by apply Hw].
Qed.

Lemma counted_moves turn n g g' id : attempt_counted turn n g g' -> turn_moves g g' id.
Proof.
  intros (_ & Ho & _). exact (only_turn TurnResumeAttempts _ _ id ltac:(discriminate) ltac:(discriminate) Ho).
Qed.

(** The report accounts for one more turn. *)
Definition total (r : Reconciliation) : Z :=
  Resolved r + Queued r + StageRetriggered r + Unadvanceable r + Abandoned r + Z.of_nat (List.length (Failures r)).

Definition accounted (report report' : Reconciliation) : Prop :=
  Scanned report' = Scanned report /\ total report + 1 <= total report'.

Lemma failure_accounted id err report : accounted report (failure id err report).
Proof. split; [done|]. unfold total, failure. cbn. rewrite length_app. cbn. lia. Qed.
Lemma counter_accounted (f : Reconciliation -> Reconciliation) report :
  Scanned (f report) = Scanned report -> total (f report) = total report + 1 -> accounted report (f report).
Proof. intros ??. split; [done|lia]. Qed.

(** What the graph and the stream look like after a pass dealt with one turn. *)
Inductive turn_outcome (r : Reconciler) (state : EntityState) (queued : gmap string Z) (w w' : W) : Prop :=
| outcome_untouched :
    graph_of w' = graph_of w -> triggers w' = triggers w -> turn_outcome r state queued w w'
| outcome_counted n :
    recordedAttempts state = Ok n -> n < rc_attempts r ->
    attempt_counted (ID state) (n + 1) (graph_of w) (graph_of w') -> triggers w' = triggers w ->
    turn_outcome r state queued w w'
| outcome_retriggered n turnID phase subject body :
    recordedAttempts state = Ok n -> n < rc_attempts r ->
    attempt_counted (ID state) (n + 1) (graph_of w) (graph_of w') ->
    turnIDOf (ID state) = Ok turnID -> recordedPhase state = Ok phase -> IsTerminal phase = false ->
    ~ 0 < default 0 (queued !! ID state) -> resumeSubject phase = Ok subject ->
    st_EntityID body = ID state -> st_Subject body = subject -> st_Source body = ResumeSource ->
    triggers w' = triggers w ++ [body] -> turn_outcome r state queued w w'
| outcome_ended n phase :
    recordedAttempts state = Ok n -> rc_attempts r <= n ->
    recordedPhase state = Ok phase -> IsTerminal phase = false ->
    ~ 0 < default 0 (queued !! ID state) ->
    (forall id, turn_moves (graph_of w) (graph_of w') id) -> transition_frame (graph_of w) (graph_of w') ->
    triggers w' = triggers w -> turn_outcome r state queued w w'.

Definition turn_result (r : Reconciler) (state : EntityState) (queued : gmap string Z) (report : Reconciliation)
    (w : W) (res : res Reconciliation) (w' : W) : Prop :=
  turn_outcome r state queued w w' /\
  match res with Ok report' => accounted report report' | Err _ => False end.

Lemma Fail_frame turnID turn reason detail w :
  wp (Fail_ turnID turn reason detail) (fun _ w' =>
    (forall id, turn_moves (graph_of w) (graph_of w') id) /\ transition_frame (graph_of w) (graph_of w') /\
    triggers w' = triggers w) w.
Proof.
  assert (Hq := quiet_Fail turnID turn reason detail w).
  pose proof (Fail_spec turnID turn reason detail w) as Hm. unfold wp in *. split; [apply Hm|]. split; [|exact Hq].
  clear Hm Hq. change (wp (Fail_ turnID turn reason detail) (fun _ w' => transition_frame (graph_of w) (graph_of w')) w).
  unfold Fail_. destruct (ParseFailureReason reason); [|apply wp_throw; by intros p _ _ id].
  apply wp_lift_bind; [|intros; by intros p _ _ id]. intros _ _. apply transition_frame_spec.
Qed.

Lemma abandon_spec turnID state phase explanation report w :
  wp (abandon turnID state phase explanation report) (fun res w' =>
    ((forall id, turn_moves (graph_of w) (graph_of w') id) /\ transition_frame (graph_of w) (graph_of w') /\
     triggers w' = triggers w) /\
    match res with Ok report' => accounted report report' | Err _ => False end) w.
Proof.
  unfold abandon. apply wp_bind, wp_attempt. unfold wp at 1.
  pose proof (PutFailureDetail_graph (ID state)
    {| fd_TurnID := turnID; fd_Reason := FailureTurnStranded; fd_Class := FailureClassDeterministic;
       fd_AuthorizationReason := EmptyString; fd_Message := Error_text explanation; fd_Target := EmptyString; fd_Committed := [] |} w) as Hg.
  pose proof (PutFailureDetail_quiet (ID state)
    {| fd_TurnID := turnID; fd_Reason := FailureTurnStranded; fd_Class := FailureClassDeterministic;
       fd_AuthorizationReason := EmptyString; fd_Message := Error_text explanation; fd_Target := EmptyString; fd_Committed := [] |} w) as Hq.
  destruct (PutFailureDetail _ _ w) as [stored w1]. cbn [fst snd] in *.
  apply wp_bind, wp_attempt. eapply wp_mono; [apply Fail_frame|]. rewrite Hg, Hq.
  intros [tr|err] w2 Hr; apply wp_ret; (split; [exact Hr|]).
  - by apply counter_accounted; [|unfold total; cbn; lia].
  - apply failure_accounted.
Qed.

Lemma accounted_trans a b c : accounted a b -> accounted b c -> accounted a c.
Proof. unfold accounted. lia. Qed.

Lemma countToward_spec r turnID state phase queued because report w :
  recordedPhase state = Ok phase -> IsTerminal phase = false -> ~ 0 < default 0 (queued !! ID state) ->
  wp (countTowardAbandonment r turnID state phase because report) (turn_result r state queued report w) w.
Proof.
  intros Hp Ht Hq. unfold countTowardAbandonment. destruct (recordedAttempts state) as [n|err] eqn:Hn.
  2: { apply wp_ret. split; [by apply outcome_untouched|apply failure_accounted]. }
  destruct (Z.ltb_spec n (rc_attempts r)) as [Hlt|Hge].
  - apply wp_bind, wp_attempt. eapply wp_mono; [apply countAttempt_spec|].
    intros [u|err] w1 [Htr Hr]; apply wp_ret.
    + split; [by eapply outcome_counted|]. by apply counter_accounted; [|unfold total; cbn; lia].
    + split; [|apply failure_accounted]. destruct Hr as [Hg|Hc]; [by apply outcome_untouched|by eapply outcome_counted].
  - apply wp_bind. eapply wp_mono; [apply abandon_spec|]. intros [report'|err] w1 [(Hm & Hf & Htr) Hacc]; [|done].
    apply wp_ret. split; [by eapply outcome_ended|]. eapply accounted_trans; [exact Hacc|apply failure_accounted].
Qed.

Lemma retrigger_spec r turnID state phase queued subject report w :
  turnIDOf (ID state) = Ok turnID -> recordedPhase state = Ok phase -> IsTerminal phase = false ->
  ~ 0 < default 0 (queued !! ID state) -> resumeSubject phase = Ok subject ->
  wp (retriggerStage r turnID state phase subject report) (turn_result r state queued report w) w.
Proof.
  intros Hid Hp Ht Hq Hs. unfold retriggerStage. destruct (recordedAttempts state) as [n|err] eqn:Hn.
  2: { apply wp_ret. split; [by apply outcome_untouched|apply failure_accounted]. }
  destruct (Z.leb_spec (rc_attempts r) n) as [Hge|Hlt].
  { eapply wp_mono; [apply abandon_spec|]. intros [report'|err] w1 [(Hm & Hf & Htr) Hacc]; [|done].
    split; [by eapply outcome_ended|exact Hacc]. }
  apply wp_bind, wp_attempt. eapply wp_mono; [apply countAttempt_spec|].
  intros [u|err] w1 [Htr Hr].
  2: { apply wp_ret. split; [|apply failure_accounted].
       destruct Hr as [Hg|Hc]; [by apply outcome_untouched|by eapply outcome_counted]. }
  apply wp_bind, wp_attempt. unfold publish. apply wp_bind. unfold wp at 1, read_clock.
  pose proof (now_spec w1) as Hg2. pose proof (now_quiet w1) as Hq2.
  destruct (now w1) as [t w2]. cbn [fst snd] in *.
  apply wp_bind, wp_attempt. eapply wp_mono; [apply PublishToStream_spec|].
  rewrite Hg2, Hq2, Htr. intros published w3 [Hg3 Hpub]. apply wp_lift.
  assert (Hout : triggers w3 = triggers w \/ triggers w3 = triggers w ++
      [{| st_EntityID := ID state; st_Subject := subject; st_Source := ResumeSource; st_Timestamp := FormatRFC3339Nano t |}] ->
    turn_outcome r state queued w w3).
  { rewrite <- Hg3 in Hr. intros [Hsame|Happ]; [by eapply outcome_counted|eapply outcome_retriggered; [exact Hn|exact Hlt|exact Hr|exact Hid|exact Hp|exact Ht|exact Hq|exact Hs| | | |exact Happ]; reflexivity]. }
  destruct published as [v|err]; apply wp_ret; (split; [apply Hout; auto|]).
  - by apply counter_accounted; [|unfold total; cbn; lia].
  - apply failure_accounted.
Qed.

(** Finished and queued turns, and unreadable ones, are left alone. *)
Definition settled_turn (state : EntityState) (queued : gmap string Z) : Prop :=
  (exists phase, recordedPhase state = Ok phase /\ IsTerminal phase = true) \/ 0 < default 0 (queued !! ID state).

Lemma reconcileTurn_spec r state queued report w :
  wp (reconcileTurn r state queued report) (fun res w' =>
    turn_result r state queued (scanned report) w res w' /\
    (settled_turn state queued -> graph_of w' = graph_of w /\ triggers w' = triggers w)) w.
Proof.
  assert (Hfail : forall err, wp (mret (failure (ID state) err (scanned report))) (fun res w' =>
    turn_result r state queued (scanned report) w res w' /\
    (settled_turn state queued -> graph_of w' = graph_of w /\ triggers w' = triggers w)) w).
  { intros err. apply wp_ret. split; [|done]. split; [by apply outcome_untouched|apply failure_accounted]. }
  unfold reconcileTurn. destruct (turnIDOf (ID state)) as [turnID|err] eqn:Hid; [|apply Hfail].
  destruct (recordedPhase state) as [phase|err] eqn:Hp; [|apply Hfail].
  destruct (IsTerminal phase) eqn:Ht.
  { apply wp_ret. split; [|done]. split; [by apply outcome_untouched|].
    by apply counter_accounted; [|unfold total; cbn; lia]. }
  destruct (Z.ltb_spec 0 (default 0 (queued !! ID state))) as [Hq|Hq].
  { apply wp_ret. split; [|done]. split; [by apply outcome_untouched|].
    by apply counter_accounted; [|unfold total; cbn; lia]. }
  assert (Hno : ~ settled_turn state queued).
  { intros [(p & Hp' & Hterm)|Hc]; [|lia]. congruence. }
  assert (Hlift : forall m, wp m (turn_result r state queued (scanned report) w) w ->
    wp m (fun res w' => turn_result r state queued (scanned report) w res w' /\
      (settled_turn state queued -> graph_of w' = graph_of w /\ triggers w' = triggers w)) w).
  { intros m Hm. eapply wp_mono; [exact Hm|]. intros res w' Hr. by split. }
  destruct (resumeSubject phase) as [subject|err] eqn:Hs; [|apply Hlift, countToward_spec; auto; lia].
  destruct (carriesStageArtifact state phase); [apply Hlift, countToward_spec; auto; lia|].
  apply Hlift, retrigger_spec; auto. lia.
Qed.

Lemma outcome_moves r state queued (w w' : W) id :
  turn_outcome r state queued w w' -> turn_moves (graph_of w) (graph_of w') id.
Proof.
  intros [->| | |]; [apply stays|by eapply counted_moves..|done].
Qed.
End turns.

(** ** The whole pass *)

Section pass.
Context {W : Type}.
Context `{Substrate, TimeText, HasGraph W, HasTriggers W, GraphStore W, Clock W, ActionStore W, ArtifactStore W,
  PrefixReader W, TriggerPublisher W, QueuedTriggers W}.
Context `{!GraphStoreLaws W, !ActionStoreLaws W, !ArtifactStoreLaws W, !VocabularyLaws, !ResumeLaws W}.

Lemma reconcile_entities_spec r states queued report w :
  wp (reconcile_entities r states queued report) (fun res w' => fsm_run (graph_of w) (graph_of w') /\
    match res with
    | Ok report' => Scanned report' = Scanned report + Z.of_nat (List.length states) /\
        total report + Z.of_nat (List.length states) <= total report'
    | Err _ => False
    end) w.
Proof.
  revert report w. induction states as [|state states IH]; intros report w; cbn [reconcile_entities].
  { apply wp_ret. split; [apply rtc_refl|]. cbn. lia. }
  apply wp_bind. eapply wp_mono; [apply reconcileTurn_spec|]. intros [report1|err] w1 [[Hout Hacc] _]; [|done].
  destruct Hacc as [Hs Ht]. cbn in Hs. change (total (scanned report)) with (total report) in Ht.
  eapply wp_mono; [apply IH|]. intros [report2|err] w2 [Hrun Hr]; (split; [|try done]).
  - eapply rtc_l; [|exact Hrun]. intros id. by eapply outcome_moves.
  - cbn [List.length]. lia.
  - eapply rtc_l; [|exact Hrun]. intros id. by eapply outcome_moves.
Qed.

Definition pass_result (w : W) (res : res (Reconciliation * option error)) (w' : W) : Prop :=
  fsm_run (graph_of w) (graph_of w') /\
  match res with
  | Ok (report, err) => Scanned report <= total report /\ (err = None -> Failures report = [])
  | Err _ => False
  end.

Lemma reconcile_pages_spec r pages cursor queued report w :
  Scanned report <= total report ->
  wp (reconcile_pages r pages cursor queued report) (pass_result w) w.
Proof.
  revert cursor report w. induction pages as [|pages IH]; intros cursor report w Hacc; cbn [reconcile_pages].
  { apply wp_ret. by split; [apply rtc_refl|]. }
  apply wp_artifact; [apply EntitiesWithPrefix_graph|]. intros [page|err] w1 Hg.
  2: { apply wp_ret. split; [rewrite Hg; apply rtc_refl|done]. }
  apply wp_bind. eapply wp_mono; [apply reconcile_entities_spec|]. rewrite Hg.
  intros [report1|err] w2 [Hrun Hr]; [|done]. destruct Hr as [Hs Ht].
  destruct (String.eqb (pg_NextCursor page) EmptyString).
  { apply wp_ret. split; [done|]. split; [lia|]. by destruct (Failures report1). }
  destruct (String.eqb (pg_NextCursor page) cursor).
  { apply wp_ret. split; [done|]. by split; [lia|]. }
  eapply wp_mono; [apply IH; lia|]. intros res w3 [Hrun' Hr]. split; [by etrans|exact Hr].
Qed.

Lemma Reconciler_Reconcile_spec r w : wp (Reconciler_Reconcile r) (pass_result w) w.
Proof.
  unfold Reconciler_Reconcile. apply wp_artifact; [apply Settle_graph|]. intros [u|err] w1 Hg1.
  2: { apply wp_ret. split; [rewrite Hg1; apply rtc_refl|done]. }
  apply wp_artifact; [apply Pending_graph|]. intros [queued|err] w2 Hg2.
  2: { apply wp_ret. split; [rewrite Hg2, Hg1; apply rtc_refl|done]. }
  assert (Hg : graph_of w2 = graph_of w) by congruence.
  eapply wp_mono; [by apply reconcile_pages_spec|]. intros res w3 [Hrun Hr]. split; [by rewrite <- Hg|exact Hr].
Qed.

(** *** The re-trigger budget *)

(** The triggers this pass published for a turn. *)
Definition retriggers (id : string) (l : list stageTrigger) : Z :=
  Z.of_nat (List.length (List.filter (fun body =>
    String.eqb (st_EntityID body) id && String.eqb (st_Source body) ResumeSource) l)).

Definition attempts_read (g : graph) (state : EntityState) : Prop :=
  objects_in g (ID state) TurnResumeAttempts = Some (objectsFor state TurnResumeAttempts).

(** How many re-triggers a turn has left: all of them while it is not there, and
    none when its record of attempts cannot be read. *)
Definition budget_left (r : Reconciler) (g : graph) (id : string) : Z :=
  match recordedAttempts <$> g !! id with
  | Some (Ok n) => Z.max 0 (rc_attempts r - n)
  | Some (Err _) => 0
  | None => Z.max 0 (rc_attempts r)
  end.

(** What is on the graph stays on it, and no record of attempts is set back. *)
Definition attempts_kept (g g' : graph) : Prop := forall id e, g !! id = Some e ->
  exists e', g' !! id = Some e' /\
    forall n', recordedAttempts e' = Ok n' -> exists n, recordedAttempts e = Ok n /\ n <= n'.

Definition potential (r : Reconciler) (id : string) (w : W) : Z :=
  retriggers id (triggers w) + budget_left r (graph_of w) id.

Lemma recordedAttempts_objects e e' :
  objectsFor e TurnResumeAttempts = objectsFor e' TurnResumeAttempts -> recordedAttempts e = recordedAttempts e'.
Proof. unfold objectsFor, recordedAttempts, ResumeAttemptsFromTriples. by intros ->. Qed.

Lemma budget_left_objects r g g' id :
  objects_in g' id TurnResumeAttempts = objects_in g id TurnResumeAttempts ->
  budget_left r g' id = budget_left r g id.
Proof.
  unfold objects_in, budget_left. destruct (g !! id) as [e|], (g' !! id) as [e'|]; cbn; try done.
  by intros ->%(inj Some)%recordedAttempts_objects.
Qed.

Lemma budget_left_read r g state n :
  attempts_read g state -> recordedAttempts state = Ok n -> budget_left r g (ID state) = Z.max 0 (rc_attempts r - n).
Proof.
  unfold attempts_read, objects_in, budget_left. destruct (g !! ID state) as [e|]; cbn; [|done].
  by intros ->%(inj Some)%recordedAttempts_objects ->.
Qed.

Lemma recordedAttempts_nonneg e n : recordedAttempts e = Ok n -> 0 <= n.
Proof.
  unfold recordedAttempts, ResumeAttemptsFromTriples. intros Hr%wrapf_ok.
  destruct (map Object _) as [|o [|]]; [by injection Hr as <-| |done].
  destruct (wholeInt o); [|done]. destruct (Z.ltb_spec z 1); [done|]. injection Hr as <-. lia.
Qed.

Lemma budget_left_bounds r g id : 0 <= budget_left r g id <= Z.max 0 (rc_attempts r).
Proof.
  unfold budget_left. destruct (g !! id) as [e|]; cbn; [|lia].
  destruct (recordedAttempts e) as [n|] eqn:Hn; [|lia]. apply recordedAttempts_nonneg in Hn. lia.
Qed.

Lemma budget_left_counted r g g' id n :
  attempt_counted id (n + 1) g g' -> budget_left r g' id <= Z.max 0 (rc_attempts r - (n + 1)).
Proof.
  intros (Ho & _ & _). unfold objects_in, budget_left in *. destruct (g' !! id) as [e|]; cbn in *; [|discriminate Ho].
  apply (inj Some) in Ho. unfold recordedAttempts, ResumeAttemptsFromTriples. unfold objectsFor in Ho.
  rewrite Ho. cbn [wholeInt]. destruct (n + 1 <? 1); cbn; lia.
Qed.

Lemma retriggers_app id l body :
  retriggers id (l ++ [body]) <= retriggers id l + (if String.eqb (st_EntityID body) id then 1 else 0).
Proof.
  unfold retriggers. rewrite List.filter_app, length_app. cbn [List.filter].
  destruct (String.eqb (st_EntityID body) id), (String.eqb (st_Source body) _); cbn [List.length andb]; lia.
Qed.

(** Dealing with one turn leaves every other turn's attempts alone, and spends
    an attempt of this turn for a re-trigger of it. *)
Lemma budget_left_kept r g g' id : attempts_kept g g' -> budget_left r g' id <= budget_left r g id.
Proof.
  intros Hk. pose proof (budget_left_bounds r g' id). specialize (Hk id). unfold budget_left in *.
  destruct (g !! id) as [e|]; cbn; [|lia]. destruct (Hk e eq_refl) as (e' & -> & Hn). cbn.
  destruct (recordedAttempts e') as [n'|] eqn:He'; [|destruct (recordedAttempts e); lia].
  destruct (Hn n' eq_refl) as (n & -> & Hle). lia.
Qed.

Lemma outcome_attempts r state queued (w w' : W) id :
  turn_outcome r state queued w w' -> id <> ID state ->
  objects_in (graph_of w') id TurnResumeAttempts = objects_in (graph_of w) id TurnResumeAttempts.
Proof.
  intros [Hg _|n _ _ Hc _|n turnID phase subject body _ _ Hc _ _ _ _ _ _ _ _ _|n phase _ _ _ _ _ _ Hf _] Hne.
  - by rewrite Hg.
  - unfold objects_in. by rewrite (proj2 (proj2 Hc) id Hne).
  - unfold objects_in. by rewrite (proj2 (proj2 Hc) id Hne).
  - apply Hf; [not_in_target|discriminate].
Qed.

Lemma outcome_potential r state queued (w w' : W) id :
  attempts_read (graph_of w) state -> turn_outcome r state queued w w' -> potential r id w' <= potential r id w.
Proof.
  intros Hread Hout. pose proof (outcome_attempts r state queued w w' id Hout) as Hother. unfold potential.
  destruct (decide (id = ID state)) as [->|Hne].
  - destruct Hout as [Hg Ht|n Hn Hlt Hc Ht|n turnID phase subject body Hn Hlt Hc _ _ _ _ _ Hid _ _ Ht|n phase _ _ _ _ _ _ Hf Ht];
      rewrite Ht.
    + rewrite Hg. lia.
    + pose proof (budget_left_counted r _ _ _ _ Hc). rewrite (budget_left_read r _ _ _ Hread Hn). lia.
    + pose proof (budget_left_counted r _ _ _ _ Hc). rewrite (budget_left_read r _ _ _ Hread Hn).
      pose proof (retriggers_app (ID state) (triggers w) body). destruct (String.eqb _ _); lia.
    + rewrite (budget_left_objects r (graph_of w) _ (ID state)); [lia|]. apply Hf; [not_in_target|discriminate].
  - rewrite (budget_left_objects r (graph_of w) _ id (Hother Hne)).
    assert (retriggers id (triggers w') <= retriggers id (triggers w)); [|lia].
    destruct Hout as [_ Ht|n _ _ _ Ht|n turnID phase subject body _ _ _ _ _ _ _ _ Hid _ _ Ht|n phase _ _ _ _ _ _ _ Ht];
      rewrite Ht; try lia.
    pose proof (retriggers_app id (triggers w) body) as Hle. rewrite Hid in Hle.
    rewrite (proj2 (String.eqb_neq _ _) (not_eq_sym Hne)) in Hle. lia.
Qed.

Lemma reconcile_entities_potential r states queued report id w :
  NoDup (map ID states) -> Forall (attempts_read (graph_of w)) states ->
  wp (reconcile_entities r states queued report) (fun _ w' => potential r id w' <= potential r id w) w.
Proof.
  revert report w. induction states as [|state states IH]; intros report w Hnd Hread; cbn [reconcile_entities].
  { apply wp_ret. lia. }
  apply NoDup_cons in Hnd as [Hnew Hnd]. apply Forall_cons in Hread as [Hhd Htl].
  apply wp_bind. eapply wp_mono; [apply reconcileTurn_spec|]. intros [report1|err] w1 [[Hout Hacc] _]; [|done].
  pose proof (outcome_potential r state queued w w1 id Hhd Hout).
  eapply wp_mono; [apply IH; [done|]|]; [|intros; cbn in *; lia].
  apply Forall_forall. intros s Hs. rewrite Forall_forall in Htl. unfold attempts_read. rewrite <- (Htl s Hs).
  eapply outcome_attempts; [exact Hout|]. intros Heq. apply Hnew. rewrite <- Heq. by apply list_elem_of_fmap_2.
Qed.

Lemma wp_quiet {A} (m : MW W A) Q w :
  graph_of (m w).2 = graph_of w -> triggers (m w).2 = triggers w ->
  (forall r w', graph_of w' = graph_of w -> triggers w' = triggers w -> m w = (r, w') -> Q r w') -> wp m Q w.
Proof. unfold wp. destruct (m w) as [r w']. cbn. auto. Qed.

Lemma reconcile_pages_potential r pages cursor queued report id w :
  wp (reconcile_pages r pages cursor queued report) (fun _ w' => potential r id w' <= potential r id w) w.
Proof.
  revert cursor report w. induction pages as [|pages IH]; intros cursor report w; cbn [reconcile_pages].
  { apply wp_ret. lia. }
  apply wp_bind, wp_attempt, wp_quiet;
    [apply EntitiesWithPrefix_graph|apply EntitiesWithPrefix_quiet|].
  intros read w1 Hg Hq Hrun. pose proof (EntitiesWithPrefix_current (rc_turnPrefix r) cursor (rc_pageLimit r) w) as Hcur.
  rewrite Hrun in Hcur. cbn in Hcur.
  assert (Hp : potential r id w1 = potential r id w) by (unfold potential; by rewrite Hg, Hq).
  destruct read as [page|err]; [|apply wp_ret; lia]. destruct Hcur as [Hnd Hcur].
  apply wp_bind. eapply wp_mono; [apply (reconcile_entities_potential _ _ _ _ id); [exact Hnd|]|].
  { rewrite Hg. eapply Forall_impl; [exact Hcur|]. intros e He. unfold attempts_read, objects_in. by rewrite He. }
  cbn. intros [report1|err] w2 Hle; [|lia].
  destruct (String.eqb (pg_NextCursor page) EmptyString); [apply wp_ret; lia|].
  destruct (String.eqb (pg_NextCursor page) cursor); [apply wp_ret; lia|].
  eapply wp_mono; [apply IH|]. cbn. intros; lia.
Qed.

Lemma Reconciler_Reconcile_potential r id w :
  wp (Reconciler_Reconcile r) (fun _ w' => potential r id w' <= potential r id w) w.
Proof.
  unfold Reconciler_Reconcile. apply wp_bind, wp_attempt, wp_quiet; [apply Settle_graph|apply Settle_quiet|].
  intros settled w1 Hg1 Hq1 _. assert (Hp1 : potential r id w1 = potential r id w) by (unfold potential; by rewrite Hg1, Hq1).
  destruct settled; [|apply wp_ret; lia].
  apply wp_bind, wp_attempt, wp_quiet; [apply Pending_graph|apply Pending_quiet|].
  intros pending w2 Hg2 Hq2 _. assert (Hp2 : potential r id w2 = potential r id w1) by (unfold potential; by rewrite Hg2, Hq2).
  destruct pending as [queued|]; [|apply wp_ret; lia].
  eapply wp_mono; [apply (reconcile_pages_potential r _ _ _ _ id)|]. cbn. intros; lia.
Qed.
End pass.

(** ** The guarantees *)

(** A re-trigger as [publish] writes it. *)
Definition retrigger_body (turn subject at_ : string) : stageTrigger := {|
  st_EntityID := turn; st_Subject := subject; st_Source := ResumeSource; st_Timestamp := at_ |}.

Section guarantees.
Context {W : Type}.
Context `{Substrate, TimeText, HasGraph W, HasTriggers W, GraphStore W, Clock W, ActionStore W, ArtifactStore W,
  PrefixReader W, TriggerPublisher W, QueuedTriggers W}.
Context `{!GraphStoreLaws W, !ActionStoreLaws W, !ArtifactStoreLaws W, !VocabularyLaws, !ResumeLaws W}.

(** Whole passes, interleaved with everything else the engine does: turns are
    born, move and end, entities are written, triggers published and consumed.
    All that the rest of it leaves to this pass is what is the pass's own: it
    does not take an entity off the graph, nor set back a count of attempts, nor
    publish under the pass's name. *)
Inductive engine_step (r : Reconciler) (w : W) : W -> Prop :=
| step_pass : engine_step r w (Reconciler_Reconcile r w).2
| step_other w' :
    attempts_kept (graph_of w) (graph_of w') ->
    (forall id, retriggers id (triggers w') = retriggers id (triggers w)) -> engine_step r w w'.

Lemma engine_step_potential r (w w' : W) id : engine_step r w w' -> potential r id w' <= potential r id w.
Proof.
  intros [|w1 Hk Hr]; [apply (Reconciler_Reconcile_potential r id w)|].
  unfold potential. rewrite Hr. pose proof (budget_left_kept r _ _ id Hk). lia.
Qed.

Lemma engine_run_potential r (w w' : W) id : rtc (engine_step r) w w' -> potential r id w' <= potential r id w.
Proof.
  induction 1 as [|w w1 w' Hs _ IH]; [lia|]. pose proof (engine_step_potential r w w1 id Hs). lia.
Qed.

(** C11: the resume budget bounds re-triggers for good: however many passes run,
    whatever faults their stores have, and whatever the rest of the engine does
    between two of them - turns are born, move and end, entities are written -
    as long as it takes no entity off the graph, sets back no count of resume
    attempts and publishes nothing under the pass's name, a turn is re-triggered
    by this pass at most as often as the configured budget; publishes whose
    outcome is unknown count too. *)
Theorem retriggers_bounded campaignID pageLimit attempts r (w w' : W) id
    (Hr : NewReconciler campaignID pageLimit attempts = Ok r) (Hrun : rtc (engine_step r) w w') :
  retriggers id (triggers w') <= retriggers id (triggers w) + attempts.
Proof.
  unfold NewReconciler in Hr. apply result_bind_ok in Hr as ([] & _ & (p & _ & Hr)%result_bind_ok).
  destruct (Z.leb_spec pageLimit 0); [discriminate|]. destruct (Z.leb_spec attempts 0); [discriminate|].
  injection Hr as <-. apply (engine_run_potential _ _ _ id) in Hrun. unfold potential in Hrun.
  match type of Hrun with context [budget_left ?r _ _] =>
    pose proof (budget_left_bounds r (graph_of w) id) as Hb; pose proof (budget_left_bounds r (graph_of w') id) end.
  cbn [rc_attempts] in *. lia.
Qed.

(** One pass always returns its report; it moved turns along FSM edges only,
    every turn it scanned is accounted for under some heading, and it reports
    no error only when no turn failed. *)
Theorem resume_pass_contract r (w : W) :
  exists report err w', Reconciler_Reconcile r w = (Ok (report, err), w') /\
    fsm_run (graph_of w) (graph_of w') /\
    Scanned report <= Resolved report + Queued report + StageRetriggered report + Unadvanceable report +
      Abandoned report + Z.of_nat (List.length (Failures report)) /\
    (err = None -> Failures report = []).
Proof.
  pose proof (Reconciler_Reconcile_spec r w) as Hp. unfold wp in Hp.
  destruct (Reconciler_Reconcile r w) as [[[report err]|e] w']; destruct Hp as [Hrun Hres]; [|done].
  exists report, err, w'. by split.
Qed.

(** Dealing with one scanned turn ends in one of four ways: untouched; one
    more attempt on its record; one more attempt and then one re-trigger of its
    own stage; or, with the budget spent, ended along the FSM. A turn that is
    over, or has a trigger queued already, is always the first. *)
Theorem reconcileTurn_contract r state queued report (w : W) res w'
    (Hrun : reconcileTurn r state queued report w = (res, w')) :
  turn_outcome r state queued w w' /\
  (settled_turn state queued -> graph_of w' = graph_of w /\ triggers w' = triggers w) /\
  is_ok res = true.
Proof.
  destruct (wp_elim _ _ _ _ _ (reconcileTurn_spec r state queued report w) Hrun) as [[Ho Hr] Hs].
  split; [exact Ho|]. split; [exact Hs|]. by destruct res.
Qed.
End guarantees.

Definition retrigger_target (phase : string) : option string :=
  match resumeSubject phase with Ok subject => PhaseForSubject subject | Err _ => None end.

Lemma retrigger_targets :
  forallb (fun phase => IsTerminal phase ||
    match retrigger_target phase with
    | Some target => mem (classify phase target).1 [OutcomeAdvanced; OutcomeResumed]
    | None => false
    end) (enum_values turnPhaseEnum) = true.
Proof. vm_compute. reflexivity. Qed.

(** A re-trigger is never noise: for every phase a turn can be stranded in,
    the pass finds a subject; the document it publishes parses as a trigger for
    that very turn; and the phase its subject stands for is one the recorder
    lets the turn enter or resume. *)
Theorem retrigger_is_actionable `{Substrate} turn turnID phase at_
    (Hid : turnIDOf turn = Ok turnID) (Hphase : phase ∈ enum_values turnPhaseEnum) (Hlive : IsTerminal phase = false) :
  exists subject target,
    resumeSubject phase = Ok subject /\
    ParseTrigger (Ok (as_publication (retrigger_body turn subject at_))) =
      Ok {| t_TurnEntityID := turn; t_TurnID := turnID; t_Subject := subject |} /\
    PhaseForSubject subject = Some target /\
    (classify phase target).1 ∈ [OutcomeAdvanced; OutcomeResumed].
Proof.
  pose proof retrigger_targets as Hall. rewrite forallb_forall in Hall.
  specialize (Hall phase (proj1 (list_elem_of_In _ _) Hphase)). rewrite Hlive in Hall. cbn [orb] in Hall.
  unfold retrigger_target in Hall. destruct (resumeSubject phase) as [subject|]; [|done].
  destruct (PhaseForSubject subject) as [target|] eqn:Ht; [|done].
  exists subject, target. split; [done|]. split; [by apply (ParseTrigger_turn (as_publication (retrigger_body turn subject at_)))|].
  split; [done|]. by apply mem_true.
Qed.

(** ** At work on the in-memory world *)

#[local] Instance demo_artifacts : ArtifactStore World := {|
  GetVerdict _ := throw (Errorf "no verdict" []);
  PutRoll _ _ := throw (Errorf "no roll" []);
  PutEffectBatch _ _ := throw (Errorf "no batch" []);
  PutFailureDetail _ _ := mret {| Instance_ := "content"; Key := "turn/failure" |} |}.

#[local] Instance demo_artifact_laws : ArtifactStoreLaws World.
Proof. by split. Qed.

#[local] Instance demo_triggers : HasTriggers World := {| triggers := w_published |}.

(** One page holds every entity under the prefix. *)
Definition entities_under (prefix : string) (g : graph) : list EntityState :=
  map snd (List.filter (fun ke => String.eqb (ID ke.2) ke.1 && HasPrefix ke.1 prefix) (map_to_list g)).

#[local] Instance demo_pages : PrefixReader World := {|
  EntitiesWithPrefix prefix cursor limit w :=
    (Ok {| pg_Entities := entities_under prefix (w_graph w); pg_NextCursor := EmptyString |}, w) |}.

#[local] Instance demo_queue : QueuedTriggers World := {| Settle := mret tt; Pending := mret ∅ |}.

#[local] Instance demo_publisher : TriggerPublisher World := {|
  PublishToStream subject body w :=
    let '(f, w) := next_fault w in
    let sent := mkWorld (w_graph w) (w_clock w) (w_faults w) (w_published w ++ [body]) in
    match f with
    | Commits => (Ok tt, sent)
    | UnknownCommitted => (Err (Errorf "no acknowledgement" []), sent)
    | Refused | UnknownLost => (Err (Errorf "no acknowledgement" []), w)
    end |}.

Lemma entities_under_keys prefix (l : list (string * EntityState)) :
  NoDup (map fst l) ->
  let kept := List.filter (fun ke => String.eqb (ID ke.2) ke.1 && HasPrefix ke.1 prefix) l in
  map ID (map snd kept) = map fst kept /\ NoDup (map fst kept).
Proof.
  induction l as [|[k e] l IH]; cbn -[String.eqb]; [done|]. intros [Hnew Hnd]%NoDup_cons.
  destruct (IH Hnd) as [Hk Hkept]. destruct (String.eqb_spec (ID e) k) as [<-|]; cbn [andb]; [|done].
  destruct (HasPrefix (ID e) prefix); [|done]. cbn. split; [by rewrite Hk|]. apply NoDup_cons. split; [|done].
  intros ([k' e'] & Hin & [Hl _]%filter_In)%list_elem_of_In%in_map_iff. apply Hnew. rewrite <- Hin.
  by apply list_elem_of_In, in_map.
Qed.

Lemma entities_under_current prefix g :
  NoDup (map ID (entities_under prefix g)) /\ Forall (fun e => g !! ID e = Some e) (entities_under prefix g).
Proof.
  unfold entities_under. split.
  - destruct (entities_under_keys prefix (map_to_list g) (NoDup_fst_map_to_list g)) as [-> Hnd]. exact Hnd.
  - apply Forall_forall. intros e ([k e'] & He & [Hl Hk]%filter_In)%list_elem_of_In%in_map_iff. cbn in He. subst e'.
    apply andb_true_iff in Hk as [Hk%String.eqb_eq _]. cbn in Hk. subst k.
    by apply elem_of_map_to_list, list_elem_of_In.
Qed.

Lemma next_fault_world w : w_graph (next_fault w).2 = w_graph w /\ w_published (next_fault w).2 = w_published w.
Proof. unfold next_fault. by destruct (w_faults w). Qed.

Lemma mutate_quiet {A} (a : A) g w : w_published (mutate a g w).2 = w_published w.
Proof.
  unfold mutate. pose proof (proj2 (next_fault_world w)). by destruct (next_fault w) as [[] w1].
Qed.

#[local] Instance demo_resume_laws : ResumeLaws World.
Proof.
  assert (Hread : forall id, quiet (ReadAuthoritative (W := World) id)).
  { intros id w. cbn. unfold mem_Read. by destruct (w_graph w !! id). }
  assert (Hwrite : forall c g id ts, quiet (client_Reconcile (W := World) c g id ts)).
  { intros c g id ts w. cbn [client_Reconcile mem_client]. unfold mem_Reconcile.
    destruct (w_graph w !! id); [|done]. destruct (forallb _ _); [|done]. apply mutate_quiet. }
  split; try done.
  - intros prefix cursor limit w. apply entities_under_current.
  - intros subject body w. unfold wp. cbn. pose proof (next_fault_world w) as [Hg Hp].
    destruct (next_fault w) as [[] w1]; cbn in *; rewrite Hg, Hp; auto.
  - intros id. change (quiet (graphio_GetEntity (W := World) id)). unfold graphio_GetEntity. quietly; auto.
  - intros target id ts. change (quiet (graphio_Reconcile (W := World) target id ts)). unfold graphio_Reconcile, settle. quietly; auto.
Qed.

Definition demo_campaign : string := "acme.semmachina.barrow.case.campaign.main".
Definition demo_reconciler : Reconciler := {|
  rc_turnPrefix := "acme.semmachina.barrow.case.turn"; rc_pageLimit := DefaultPageLimit; rc_attempts := MaxAttempts |}.

(** A turn stranded while adjudicating, and a finished one. *)
Definition stranded : World := Demo.turn_world PhaseAdjudicating [].

Definition pass_once (w : World) : World := (Reconciler_Reconcile demo_reconciler w).2.

Lemma pass_once_step w : engine_step demo_reconciler w (pass_once w).
Proof. apply step_pass. Qed.

(** Between the passes another turn is accepted. *)
Definition newcomer : string := "acme.semmachina.barrow.case.turn.turn-b2".
Definition with_newcomer (w : World) : World :=
  mkWorld (<[newcomer := with_triples (Demo.bare newcomer) [Demo.string_triple newcomer TurnPhaseCurrent PhaseAccepted]]> (w_graph w))
    (w_clock w) (w_faults w) (w_published w).

Lemma newcomer_step w : w_graph w !! newcomer = None -> engine_step demo_reconciler w (with_newcomer w).
Proof.
  intros Hnone. apply step_other; [|done]. intros id e He. exists e. split; [|intros n Hn; by exists n].
  cbn. rewrite lookup_insert_ne; [done|]. intros <-. cbn in He. congruence.
Qed.

Lemma retriggers_bounded_witness :
  let w' := pass_once (pass_once (with_newcomer (pass_once stranded))) in
  retriggers Demo.turn_id (triggers w') = 2 /\ retriggers newcomer (triggers w') = 2 /\ retriggers Demo.turn_id (triggers w') <= retriggers Demo.turn_id (triggers stranded) + MaxAttempts.
Proof.
  split; [vm_compute; reflexivity|]. split; [vm_compute; reflexivity|].
  apply (retriggers_bounded demo_campaign DefaultPageLimit MaxAttempts demo_reconciler stranded); [vm_compute; reflexivity|].
  eapply rtc_l; [apply pass_once_step|]. eapply rtc_l; [apply newcomer_step; vm_compute; reflexivity|].
  eapply rtc_l; [apply pass_once_step|]. apply rtc_once, pass_once_step.
Defined.

Lemma resume_pass_contract_witness :
  match (Reconciler_Reconcile demo_reconciler stranded).1 with
  | Ok (report, None) => StageRetriggered report = 1
  | _ => False
  end /\
  fsm_run (graph_of stranded) (graph_of (pass_once stranded)).
Proof.
  split; [vm_compute; reflexivity|].
  destruct (resume_pass_contract demo_reconciler stranded) as (report & err & w' & Hrun & Hfsm & _).
  unfold pass_once. rewrite Hrun. exact Hfsm.
Defined.

Lemma reconcileTurn_contract_witness :
  exists res w', reconcileTurn demo_reconciler (Demo.turn_in PhaseComplete) ∅ empty_report
      (Demo.turn_world PhaseComplete []) = (Ok res, w') /\
    graph_of w' = graph_of (Demo.turn_world PhaseComplete []) /\ triggers w' = [].
Proof.
  destruct (reconcileTurn demo_reconciler (Demo.turn_in PhaseComplete) ∅ empty_report
    (Demo.turn_world PhaseComplete [])) as [res w'] eqn:Hrun.
  destruct (reconcileTurn_contract _ _ _ _ _ _ _ Hrun) as (_ & Hset & Hok).
  destruct res as [report|]; [|discriminate Hok]. exists report, w'. split; [reflexivity|].
  apply Hset. left. exists PhaseComplete. split; vm_compute; reflexivity.
Defined.

Lemma retrigger_is_actionable_witness :
  turnIDOf Demo.turn_id = Ok "turn-a1"%string /\
  exists subject target, resumeSubject PhaseAccepted = Ok subject /\ PhaseForSubject subject = Some target /\
    (classify PhaseAccepted target).1 ∈ [OutcomeAdvanced; OutcomeResumed].
Proof.
  split; [vm_compute; reflexivity|].
  destruct (retrigger_is_actionable Demo.turn_id "turn-a1" PhaseAccepted "now") as (s & t & Hs & _ & Ht & Hc);
    [vm_compute; reflexivity|apply mem_true; vm_compute; reflexivity|vm_compute; reflexivity|by exists s, t].
Defined.
