(* ===== verification/ContractSpec.v ===== *)
(** What the engine promises at its edges: identifiers and references that
    round trip, payloads that only ever project legal triples, effect intents
    that always name a writable fact, stream filters that really cover, and a
    graph client that honours the store contract. *)

From S2P Require Import Prelude GoStd GoErrors Graph Vocab Vocabulary Payload Mechanics ContentRecords ProjectionContract Store Campaign Effect Sequencing GraphIO Turn MemStore EffectSpec.

Open Scope Z_scope.

(** ** Turns, actions and the identifiers between them *)

Section identity.
Context `{Substrate}.

Lemma TurnIDForAction_nonempty a : a <> EmptyString -> TurnIDForAction a = TurnIDPrefix +:+ a.
Proof. intros Ha. unfold TurnIDForAction. by rewrite (proj2 (String.eqb_neq _ _) Ha). Qed.

Lemma requireActionID_ok f a :
  requireActionID f a = Ok tt <-> ValidateIDSegment a = Ok tt /\ len a <= MaxActionIDBytes.
Proof.
  unfold requireActionID. rewrite result_bind_ok. split.
  - intros ([] & Hs%requireIDSegment_ok & Hl). destruct (Z.ltb_spec MaxActionIDBytes (len a)); [done|]. by split.
  - intros [Hs Hl]. exists tt. rewrite requireIDSegment_ok. split; [done|].
    destruct (Z.ltb_spec MaxActionIDBytes (len a)); [lia|done].
Qed.

Lemma ActionIDForTurn_ok t a :
  ActionIDForTurn t = Ok a <->
  ValidateIDSegment t = Ok tt /\ t = TurnIDPrefix +:+ a /\ ValidateIDSegment a = Ok tt /\ len a <= MaxActionIDBytes.
Proof.
  unfold ActionIDForTurn. rewrite result_bind_ok. split.
  - intros ([] & Ht%requireIDSegment_ok & Hc). destruct (CutPrefix t TurnIDPrefix) as [b|] eqn:Hp; [|done].
    apply CutPrefix_Some in Hp. apply result_bind_ok in Hc as ([] & [Hb Hl]%requireActionID_ok & [= <-]). done.
  - intros (Ht & -> & Ha & Hl). exists tt. rewrite requireIDSegment_ok. split; [done|].
    rewrite CutPrefix_app. apply result_bind_ok. exists tt. by rewrite requireActionID_ok.
Qed.

(** A segment that becomes a legal turn id leaves room for the prefix. *)
Lemma turn_segment_budget a :
  ValidateIDSegment a = Ok tt -> ValidateIDSegment (TurnIDForAction a) = Ok tt -> len a <= MaxActionIDBytes.
Proof.
  intros (Ha & _)%ValidateIDSegment_ok (_ & Hl & _)%ValidateIDSegment_ok.
  rewrite (TurnIDForAction_nonempty a Ha), len_app in Hl. unfold MaxActionIDBytes. lia.
Qed.

Lemma ComposeEntityID_parts org worldNS template typeSegment instance id :
  ComposeEntityID org worldNS template typeSegment instance = Ok id ->
  Forall (fun p => contains_char dot p = false) [org; worldNS; template; typeSegment; instance] ->
  Split dot id = [org; PlatformSegment; worldNS; template; typeSegment; instance].
Proof.
  intros [-> _]%ComposeEntityID_ok Hf. apply Split_Join; [done|].
  rewrite !Forall_cons in Hf. rewrite !Forall_cons. destruct Hf as (Ho & Hw & Ht & Hy & Hi & Hn). repeat split; try assumption.
Qed.

(** An accepted action names exactly one turn and the turn names it back:
    the identifiers composed for an action split back into the turn they were
    composed for, the entity passes every check that guards a turn's entity,
    the resume pass reads the same turn off it, and stripping the prefix gives
    the action. *)
Theorem turn_identity_roundtrip identity action turn id
    (Hid : EntityIDForAction identity action = Ok (turn, id)) :
  turn = TurnIDForAction action /\ ActionIDForTurn turn = Ok action /\
  RequireTurnEntityID turn id = Ok tt /\ turnIDOf id = Ok turn.
Proof.
  unfold EntityIDForAction in Hid. apply result_bind_ok in Hid as ([] & Ha%wrapf_ok & Hid).
  apply result_bind_ok in Hid as (e & He & [= <- <-]). unfold EntityID in He.
  apply result_bind_ok in He as ([] & Hi & He). apply result_bind_ok in He as ([] & Ht%wrapf_ok & He).
  unfold Identity_Validate in Hi. apply result_bind_ok in Hi as ([] & Ho%wrapf_ok & Hi).
  apply result_bind_ok in Hi as ([] & Hw%wrapf_ok & Hp%wrapf_ok).
  pose proof He as [_ Hv]%ComposeEntityID_ok.
  assert (Hne : action <> EmptyString) by (by apply ValidateIDSegment_ok in Ha as []).
  assert (Hparts : Split dot e = [Org identity; PlatformSegment; WorldNS identity; Template identity;
                                  TurnTypeSegment; TurnIDForAction action]).
  { apply (ComposeEntityID_parts _ _ _ _ _ _ He). rewrite !Forall_cons.
    apply ValidateIDSegment_ok in Ho, Hw, Hp, Ht. by destruct Ho as (_ & _ & ? & _), Hw as (_ & _ & ? & _),
      Hp as (_ & _ & ? & _), Ht as (_ & _ & ? & _). }
  assert (Hreq : RequireTurnEntityID (TurnIDForAction action) e = Ok tt).
  { apply RequireTurnEntityID_ok. split_and!; [done| |done|].
    - intros ->. vm_compute in Hparts. discriminate Hparts.
    - unfold last_part. by rewrite Hparts. }
  split_and!; [done| |done|].
  - apply ActionIDForTurn_ok. split_and!; [done|by apply TurnIDForAction_nonempty|done|by apply turn_segment_budget].
  - unfold turnIDOf, type_part, last_part. rewrite Hv, Hparts. cbn [wrapf mbind result_bind List.length List.nth Nat.sub List.last].
    change (String.eqb TurnTypeSegment "turn") with true. cbn [negb]. by rewrite Hreq.
Qed.
End identity.

(** ** Storage references *)

Section references.
Context `{Substrate}.

Lemma Cut_Some sep s a b : Cut sep s = Some (a, b) -> s = a +:+ String sep b.
Proof.
  revert a. induction s as [|d s IH]; intros a; cbn; [done|]. destruct (Ascii.eqb_spec sep d) as [->|].
  - by intros [= <- <-].
  - destruct (Cut sep s) as [[a' b']|] eqn:Hc; [|done]. intros [= <- <-]. rewrite app_cons. f_equal. by apply IH.
Qed.

(** A storage reference and its text are each other's inverse: a valid
    reference prints to text that parses back to it, and whatever text parses
    is the text the reference prints, so no two texts name one artifact. *)
Theorem reference_roundtrip :
  (forall r, Ref_Validate r = Ok tt -> ParseRef (Ref_String r) = Ok r) /\
  (forall s r, ParseRef s = Ok r -> Ref_String r = s /\ (r = zero_Ref \/ Ref_Validate r = Ok tt)).
Proof.
  split.
  - intros r Hr. pose proof (Ref_String_nonempty r Hr) as Hne. unfold ParseRef.
    rewrite (proj2 (String.eqb_neq _ _) Hne), (RequireStorageRef_built _ r Hr). cbn [mbind result_bind].
    pose proof Hr as (_ & Hs & _ & ->)%Ref_Validate_ok.
    rewrite CutPrefix_app, Cut_app by done. destruct r as [instance key]. cbn [Instance_ Key]. by rewrite Hr.
  - intros s r. unfold ParseRef. destruct (String.eqb_spec s EmptyString) as [->|Hne]; [by intros [= <-]; auto|].
    intros ([] & _ & Hp)%result_bind_ok. destruct (CutPrefix s RefScheme) as [rest|] eqn:Hc; [|done].
    destruct (Cut RefSeparator rest) as [[instance key]|] eqn:Hcut; [|done].
    apply result_bind_ok in Hp as ([] & Hv & [= <-]). split; [|by right].
    pose proof Hv as (_ & _ & _ & ->)%Ref_Validate_ok. cbn [Instance_ Key].
    by rewrite (CutPrefix_Some _ _ _ Hc), (Cut_Some _ _ _ _ Hcut).
Qed.
End references.

(** ** Projections and effect intents *)

Section projections.
Context `{Substrate}.

(** What the graph's write gate and the engine's own budget ask of an object. *)
Definition legal_object (predicate : string) (object : any) : Prop :=
  (exists parts, ParsePredicate predicate = Ok parts) /\
  match object with
  | AString value => value <> EmptyString /\ len value <= MaxTripleObjectBytes /\
      (IsStorageRef predicate = true -> RequireStorageRef "the object" value = Ok tt)
  | ABool _ | AInt _ => IsStorageRef predicate = false
  | _ => False
  end.

Lemma checkTripleObject_legal predicate object :
  checkTripleObject predicate object = Ok tt -> legal_object predicate object.
Proof.
  unfold checkTripleObject, legal_object. destruct (ParsePredicate predicate) as [parts|] eqn:Hp; [|done].
  intros Hc. split; [by exists parts|]. destruct object; try done.
  - destruct (String.eqb_spec s EmptyString); [done|].
    destruct (Z.ltb_spec MaxTripleObjectBytes (len s)); [done|]. split; [done|]. split; [lia|].
    by destruct (IsStorageRef predicate).
  - by destruct (IsStorageRef predicate).
  - by destruct (IsStorageRef predicate).
Qed.

(** Whatever a payload says, the triples projected from it are fit to write:
    the payload is valid, all of them land on one subject that is the turn's
    own entity or the player's, no predicate is stated twice, the predicates
    are the registered ones and at most one reference besides, and every object
    is a bounded closed-vocabulary scalar or a well-formed storage reference. *)
Theorem projection_is_gated p ts (Hb : build p = Ok ts) :
  p_payload p = Some (Ok tt) /\ checkSubject p = Ok tt /\ NoDup (map Predicate ts) /\
  map Predicate ts = p_registered p ++ (if p_refless p then [] else [p_refPredicate p]) /\
  Forall (fun t => Subject t = p_subject p /\ Context_ t = p_turnID p /\
                   legal_object (Predicate t) (Object t)) ts.
Proof.
  apply build_ok in Hb as (-> & Hpay & Hsub & Hnd & Hobj). split_and!; [done..| |].
  - unfold projected. rewrite map_app. f_equal.
    + induction (p_registered p) as [|q l IH]; [done|]. cbn. by rewrite IH.
    + by destruct (p_refless p).
  - rewrite Forall_forall in Hobj |- *. intros t Ht. pose proof (Hobj t Ht) as Hl%checkTripleObject_legal.
    assert (Hshape : exists q o, t = projection_triple p q o).
    { unfold projected in Ht. apply elem_of_app in Ht as [(q & -> & _)%list_elem_of_fmap|Ht]; [by eexists _, _|].
      destruct (p_refless p); [by apply elem_of_nil in Ht|]. apply list_elem_of_singleton in Ht as ->. by eexists _, _. }
    destruct Hshape as (q & o & ->). done.
Qed.

Lemma requireOnly_value i :
  requireOnly i ["attribute"; "value"]%string = Ok tt -> is_Some (i_Value i).
Proof.
  unfold requireOnly, populated. intros Hf%all_ok_Forall. rewrite !Forall_cons in Hf.
  destruct Hf as (_ & Hv & _). destruct (i_Value i); [done|]. by vm_compute in Hv.
Qed.

Lemma ParseRelation_predicate r : ParseRelation r = Ok r -> is_Some (RelationPredicate r).
Proof.
  unfold ParseRelation. intros [_ Hin]%enum_parse_ok. unfold relationEnum, newEnum in Hin. cbn [enum_values] in Hin.
  closed_cases Hin; vm_compute; eauto.
Qed.

(** An effect intent that validates always names exactly one fact the effect
    stage may write: its mutation is defined, its predicate belongs to one of
    the effect groups, and only a relationship intent names a fact that holds
    several values; an intent that does not validate names none. *)
Theorem effect_intents_are_writable i :
  match EffectIntent_Validate i with
  | Ok _ => exists predicate object target,
      Mutation i = Ok (predicate, object) /\ EffectTargetForPredicate predicate = Some target /\
      predicate ∈ Predicates target /\ IsMultiValued predicate = is_relationship i
  | Err err => Mutation i = Err err
  end.
Proof.
  destruct (EffectIntent_Validate i) as [[]|err] eqn:Hv; [|unfold Mutation; by rewrite Hv].
  assert (Hm : exists po, Mutation i = Ok po).
  { unfold Mutation. rewrite Hv. cbn [mbind result_bind]. unfold EffectIntent_Validate in Hv.
    apply result_bind_ok in Hv as (? & _ & Hv). apply result_bind_ok in Hv as (? & _ & Hv).
    destruct (String.eqb (i_Type i) EffectSetAttribute).
    { apply result_bind_ok in Hv as ([] & [v Ho]%requireOnly_value & Hv). rewrite Ho in *.
      unfold CheckAttributeValue, specs_Check in Hv. unfold AttributeSpecFor.
      destruct (specs_For DefaultAttributeSpecs (i_Attribute i)) as [spec|]; [by eexists|done]. }
    destruct (String.eqb (i_Type i) EffectSetStatus); [by eexists|].
    destruct (String.eqb (i_Type i) EffectMoveEntity); [by eexists|].
    destruct (_ || _); [|done]. apply result_bind_ok in Hv as (? & _ & Hv). apply result_bind_ok in Hv as (r & Hr & _).
    pose proof Hr as [-> _]%enum_parse_ok. destruct (ParseRelation_predicate _ Hr) as [q ->]. by eexists. }
  destruct Hm as [[predicate object] Hm]. destruct (Mutation_shape _ _ _ Hm) as ([target Ht] & Hmv & _).
  exists predicate, object, target. destruct (EffectTarget_cases _ _ Ht) as [_ Hin].
  exact (conj Hm (conj Ht (conj Hin Hmv))).
Qed.
End projections.

(** ** Stream filters *)

(** NATS matches a subject against a filter token by token: [*] stands for any
    one token, a final [>] for one token or more. *)
Fixpoint tokens_match (filter subject : list string) : bool :=
  match filter, subject with
  | [], [] => true
  | [t], _ :: _ =>
      if String.eqb t ">" then true
      else match subject with [s] => String.eqb t "*" || String.eqb t s | _ => false end
  | t :: filter, s :: subject => (String.eqb t "*" || String.eqb t s) && tokens_match filter subject
  | _, _ => false
  end.

Definition nats_match (filter subject : string) : bool := tokens_match (Split dot filter) (Split dot subject).

(** A wildcard counts only when it is a token of its own. *)
Definition whole_wildcard (filter : string) : Prop :=
  forall prefix c, c = ">"%char \/ c = "*"%char -> CutSuffix filter c = Some prefix ->
    prefix = EmptyString \/ exists before, prefix = before +:+ String dot EmptyString.

Lemma CutSuffix_Some s c prefix : CutSuffix s c = Some prefix -> s = prefix +:+ String c EmptyString.
Proof.
  revert prefix. induction s as [|d s IH]; intros prefix; [done|]. destruct s as [|d' s].
  - cbn. destruct (Ascii.eqb_spec c d) as [->|]; [|done]. by intros [= <-].
  - cbn [CutSuffix]. cbn [CutSuffix] in IH. destruct (CutSuffix (String d' s) c) as [b|] eqn:Hc.
    + intros Hp. cbn [CutSuffix] in Hc. rewrite Hc in Hp. injection Hp as <-. rewrite app_cons. f_equal. by apply IH.
    + cbn [CutSuffix] in Hc. by rewrite Hc.
Qed.

Lemma Split_dot a b : Split dot (a +:+ String dot b) = Split dot a ++ Split dot b.
Proof.
  induction a as [|c a IH]; [done|]. rewrite app_cons. cbn [Split]. destruct (Ascii.eqb dot c); [by rewrite IH|].
  rewrite IH. destruct (Split dot a) as [|h t] eqn:E; [by destruct (Split_not_nil dot a)|done].
Qed.

Lemma tokens_match_refl l : tokens_match l l = true.
Proof.
  induction l as [|t [|t' l] IH]; [done| |].
  - cbn -[String.eqb]. destruct (String.eqb t ">"); [done|]. by rewrite String.eqb_refl, orb_true_r.
  - change ((String.eqb t "*" || String.eqb t t) && tokens_match (t' :: l) (t' :: l) = true).
    by rewrite IH, String.eqb_refl, orb_true_r.
Qed.

Lemma tokens_match_app l f s : f <> [] -> tokens_match f s = true -> tokens_match (l ++ f) (l ++ s) = true.
Proof.
  intros Hf Hm. induction l as [|t l IH]; [done|]. cbn [app].
  destruct (l ++ f) as [|t' lf] eqn:E; [by apply app_eq_nil in E as [_ ?]|].
  destruct (l ++ s) as [|s' ls]; [by destruct lf|].
  change ((String.eqb t "*" || String.eqb t t) && tokens_match (t' :: lf) (s' :: ls) = true).
  by rewrite IH, String.eqb_refl, orb_true_r.
Qed.

Lemma prefix_match prefix c rest :
  prefix = EmptyString \/ (exists before, prefix = before +:+ String dot EmptyString) ->
  nats_match (String c EmptyString) rest = true -> nats_match (prefix +:+ String c EmptyString) (prefix +:+ rest) = true.
Proof.
  intros [->|[before ->]] Hm; [done|]. unfold nats_match.
  rewrite <- !string_app_assoc, !app_cons, !app_nil, !Split_dot. apply tokens_match_app; [apply Split_not_nil|exact Hm].
Qed.

(** When the startup check says a stream's filters cover the subject actions
    are published on, NATS delivers that subject to the stream, provided the
    filters' wildcards are whole tokens; the canonical stream configuration
    passes the check against itself. *)
Theorem subject_coverage_is_sound filters subject
    (Hwild : Forall whole_wildcard filters) (Hcov : subjectCovered filters subject = true) :
  existsb (fun filter => nats_match filter subject) filters = true /\
  checkActionStreamConfig ActionStreamConfig ActionStreamConfig ActionSubject = Ok tt.
Proof.
  split; [|vm_compute; reflexivity]. unfold subjectCovered in Hcov. apply existsb_exists in Hcov as (f & Hin & Hf).
  apply existsb_exists. exists f. split; [done|]. rewrite Forall_forall in Hwild.
  specialize (Hwild f (proj2 (list_elem_of_In _ _) Hin)). unfold filter_covers in Hf.
  apply orb_true_iff in Hf as [[Heq|Htail]%orb_true_iff|Hstar].
  - apply String.eqb_eq in Heq as ->. apply tokens_match_refl.
  - destruct (CutSuffix f ">") as [prefix|] eqn:Hc; [|done]. apply andb_true_iff in Htail as [Hp Hl%Z.ltb_lt].
    unfold HasPrefix in Hp. destruct (CutPrefix subject prefix) as [rest|] eqn:Hr; [|done].
    apply CutPrefix_Some in Hr as ->. rewrite (CutSuffix_Some _ _ _ Hc).
    apply prefix_match; [by eapply Hwild; [left|]|]. unfold nats_match.
    destruct (Split dot rest) as [|h t] eqn:E; [by destruct (Split_not_nil dot rest)|]. reflexivity.
  - destruct (CutSuffix f "*") as [prefix|] eqn:Hc; [|done].
    destruct (CutPrefix subject prefix) as [rest|] eqn:Hr; [|done]. apply andb_true_iff in Hstar as [_ Hd%negb_true_iff].
    apply CutPrefix_Some in Hr as ->. rewrite (CutSuffix_Some _ _ _ Hc).
    apply prefix_match; [by eapply Hwild; [right|]|]. unfold nats_match. rewrite (Split_no_sep dot rest Hd). reflexivity.
Qed.

(** Without that proviso the check is too generous: a [*] glued to a token is
    no wildcard for NATS, and the check treats it as one. *)
Lemma partial_wildcard_is_accepted :
  subjectCovered ["player.action.sub*"]%string ActionSubject = true /\
  nats_match "player.action.sub*" ActionSubject = false.
Proof. split; vm_compute; reflexivity. Qed.

(** ** The graph client *)

Section client.
Context {W : Type} `{Substrate, HasGraph W, Clock W, GraphIOParams, MutationClient W}.
Context `{!SubstrateLaws, !MutationClientLaws (W := W), !ValidatorLaws}.

(** C18: the engine's client of the substrate honours the store contract every
    component is proved against: reads are of the stored graph, a write either
    replaced the complete predicate group or changed nothing, a create never
    overwrites, and a mutation whose acknowledgement was lost is reported as
    done only when the intended state is resident. *)
Theorem graphio_honours_store_contract
    (Hclock : forall w : W, graph_of (now w).2 = graph_of w) : GraphStoreLaws W.
Proof.
  split; [apply graphio_GetEntity_spec|apply graphio_Reconcile_spec|apply graphio_CreateEntity_spec|exact Hclock].
Qed.
End client.

Section batch.
Context {W : Type}.

Lemma account_spec ids accounted missing :
  exists added, account ids accounted missing = missing ++ added /\
    NoDup (map me_ID added) /\
    Forall (fun m => me_ID m ∈ ids /\ me_ID m ∉ accounted /\ me_Reason m = MissingUnknown) added /\
    (forall id, id ∈ ids -> id ∈ accounted \/ id ∈ map me_ID added).
Proof.
  revert accounted missing. induction ids as [|id ids IH]; intros accounted missing; cbn [account].
  { exists []. rewrite app_nil_r. split_and!; [done|constructor|constructor|]. by intros id ?%elem_of_nil. }
  case_bool_decide as Hin.
  - destruct (IH accounted missing) as (added & -> & Hnd & Hf & Hall). exists added. split_and!; [done..| |].
    + eapply Forall_impl; [exact Hf|]. intros m (? & ? & ?). split; [by right|done].
    + intros i [->|Hi]%elem_of_cons; [by left|auto].
  - destruct (IH ({[id]} ∪ accounted) (missing ++ [{| me_ID := id; me_Reason := MissingUnknown |}]))
      as (added & -> & Hnd & Hf & Hall).
    exists ({| me_ID := id; me_Reason := MissingUnknown |} :: added). split_and!.
    + by rewrite <- app_assoc.
    + cbn. apply NoDup_cons. split; [|done]. rewrite Forall_forall in Hf.
      intros (m & Hm & Hin')%list_elem_of_fmap. destruct (Hf m Hin') as (_ & Hno & _). apply Hno. rewrite <- Hm. set_solver.
    + constructor; [by repeat split; [left|]|]. eapply Forall_impl; [exact Hf|].
      intros m (? & Hno & ?). split; [by right|]. split; [set_solver|done].
    + intros i [->|Hi]%elem_of_cons; [right; by left|]. destruct (Hall i Hi) as [Ha|Ha]; [|right; by right].
      apply elem_of_union in Ha as [->%elem_of_singleton|Ha]; [right; by left|by left].
Qed.

(** A batch read is total over the request: every requested id comes back
    as an entity or as missing, what the server answered is passed on as it
    was, and what the client adds is each unanswered id once, as unknown. *)
Theorem batch_read_is_total (query : list string -> MW W BatchResult) validate ids (w w' : W) result
    (Hrun : graphio_GetEntities query validate ids w = (Ok result, w')) :
  (forall id, id ∈ ids -> id ∈ map ID (br_Entities result) \/ id ∈ map me_ID (br_Missing result)) /\
  (ids <> [] -> exists response added,
     query ids w = (Ok response, w') /\ br_Entities result = br_Entities response /\
     br_Missing result = br_Missing response ++ added /\ NoDup (map me_ID added) /\
     Forall (fun m => me_ID m ∈ ids /\ me_ID m ∉ map ID (br_Entities response) /\
                      me_ID m ∉ map me_ID (br_Missing response) /\ me_Reason m = MissingUnknown) added).
Proof.
  unfold graphio_GetEntities in Hrun. destruct ids as [|i ids].
  { injection Hrun as <- <-. split; [by intros id ?%elem_of_nil|done]. }
  unfold mbind, M_bind in Hrun. destruct (query (i :: ids) w) as [[response|err] w1]; [|done].
  unfold lift in Hrun. destruct (validate (br_Entities response)); [|done].
  unfold mret, M_ret in Hrun. set (known := list_to_set _) in Hrun.
  destruct (account_spec (i :: ids) known (br_Missing response)) as (added & Hacc & Hnd & Hf & Hall).
  rewrite Hacc in Hrun. injection Hrun as <- <-. cbn [br_Entities br_Missing].
  assert (Hknown : forall id, id ∈ known <-> id ∈ map ID (br_Entities response) \/ id ∈ map me_ID (br_Missing response)).
  { intros id. unfold known. by rewrite elem_of_list_to_set, elem_of_app. }
  split.
  - intros id Hid. rewrite map_app, elem_of_app. destruct (Hall id Hid) as [[?|?]%Hknown|?]; auto.
  - intros _. exists response, added. split_and!; [done..|]. eapply Forall_impl; [exact Hf|].
    intros m (? & Hno & ?). rewrite Hknown in Hno. split_and!; [done| | |done]; intros ?; apply Hno; auto.
Qed.

(** A listing is a page the server gave and every state of which validated. *)
Theorem listed_pages_are_valid (query : string -> string -> Z -> MW W PrefixPage) validate prefix cursor limit (w w' : W) page :
  graphio_EntitiesWithPrefix query validate prefix cursor limit w = (Ok page, w') <->
  prefix <> EmptyString /\ query prefix cursor limit w = (Ok page, w') /\ validate (pg_Entities page) = Ok tt.
Proof.
  unfold graphio_EntitiesWithPrefix, mbind, M_bind, lift, attempt. destruct (String.eqb_spec prefix EmptyString); cbn; [split; [done|by intros (? & _)]|].
  destruct (query prefix cursor limit w) as [[response|err] w1]; cbn; [|split; [done|by intros (_ & ? & _)]].
  destruct (validate (pg_Entities response)) as [[]|err] eqn:Hv; cbn; (split; [intros [=]|intros (_ & [=] & Hok)]);
    subst; [done..|congruence].
Qed.

(** No answer of an index that is still being built is taken for "nobody points
    here": edges are the server's own answer, and an index that is not ready is
    told apart from every other refusal. *)
Theorem incoming_edges_are_answered (query : string -> MW W (list IncomingEntry)) id (w : W) :
  (forall edges w', graphio_IncomingRelationships query id w = (Ok edges, w') <->
     id <> EmptyString /\ query id w = (Ok edges, w')) /\
  (forall err w', id <> EmptyString -> query id w = (Err err, w') -> errors_Is ErrIndexNotReady err = false ->
     exists err', graphio_IncomingRelationships query id w = (Err err', w') /\
       (errors_Is ErrIndexNotReady err' = true <-> codeOf err = ErrorCodeIndexNotReady)).
Proof.
  unfold graphio_IncomingRelationships, mbind, M_bind, lift, attempt. split.
  - intros edges w'. destruct (String.eqb_spec id EmptyString); cbn; [split; [done|by intros (? & _)]|].
    destruct (query id w) as [[response|err] w1]; cbn; [split; [done|by intros (_ & ?)]|].
    destruct (String.eqb _ _); (split; [done|by intros (_ & ?)]).
  - intros err w' Hid%String.eqb_neq Hq Hno. rewrite Hid. cbn. rewrite Hq. cbn.
    destruct (String.eqb_spec (codeOf err) ErrorCodeIndexNotReady) as [Hc|Hc]; (eexists; split; [reflexivity|]).
    + split; [done|]. intros _. reflexivity.
    + split; [|done]. cbn. rewrite app_nil_r. unfold errors_Is in *. cbn in *. rewrite ?orb_false_r. congruence.
Qed.
End batch.

(** ** At work on the in-memory substrate *)

Lemma turn_identity_roundtrip_witness :
  exists turn id, EntityIDForAction Demo.identity "a1" = Ok (turn, id) /\
    ActionIDForTurn turn = Ok "a1"%string /\ turnIDOf id = Ok turn.
Proof.
  exists "turn-a1"%string, Demo.turn_id.
  assert (Hid : EntityIDForAction Demo.identity "a1" = Ok ("turn-a1"%string, Demo.turn_id)) by (vm_compute; reflexivity).
  destruct (turn_identity_roundtrip Demo.identity "a1" "turn-a1" Demo.turn_id Hid) as (_ & Ha & _ & Ht).
  exact (conj Hid (conj Ha Ht)).
Defined.

Lemma reference_roundtrip_witness :
  ParseRef (Ref_String {| Instance_ := "content"; Key := "turn/action" |}) =
    Ok {| Instance_ := "content"; Key := "turn/action" |} /\
  Ref_String {| Instance_ := "content"; Key := "turn/roll" |} = "obj://content/turn/roll"%string.
Proof.
  split.
  - apply (proj1 reference_roundtrip). vm_compute. reflexivity.
  - apply (proj2 reference_roundtrip). vm_compute. reflexivity.
Defined.

Definition demo_resume : TurnResume := {| tr_TurnID := "turn-a1"; tr_Attempts := 2 |}.

Lemma projection_is_gated_witness :
  exists ts, TurnResume_Triples demo_resume Demo.turn_id "turn-resume" 7 = Ok ts /\
    map Predicate ts = [TurnResumeAttempts] /\ NoDup (map Predicate ts).
Proof.
  destruct (TurnResume_Triples demo_resume Demo.turn_id "turn-resume" 7) as [ts|err] eqn:Hts;
    [|vm_compute in Hts; discriminate Hts].
  exists ts. split; [reflexivity|]. unfold TurnResume_Triples in Hts.
  destruct (projection_is_gated _ _ Hts) as (_ & _ & Hnd & Hp & _). split; [exact Hp|exact Hnd].
Defined.

Lemma subject_coverage_is_sound_witness :
  subjectCovered ["orders"; "player.action.>"]%string ActionSubject = true /\
  existsb (fun filter => nats_match filter ActionSubject) ["orders"; "player.action.>"]%string = true.
Proof.
  split; [vm_compute; reflexivity|]. apply subject_coverage_is_sound; [|vm_compute; reflexivity].
  constructor; [|constructor; [|constructor]]; intros prefix c [->| ->] Hc; vm_compute in Hc; try discriminate Hc.
  injection Hc as <-. right. exists "player.action"%string. reflexivity.
Defined.

Lemma graphio_honours_store_contract_witness : GraphStoreLaws World.
Proof. apply graphio_honours_store_contract. reflexivity. Defined.

Definition empty_world : World := mkWorld ∅ 10 [] [].

Definition demo_batch (ids : list string) : MW World BatchResult :=
  mret {| br_Entities := [Demo.turn_in PhaseComplete]; br_Missing := [] |}.

Lemma batch_read_is_total_witness :
  exists result w', graphio_GetEntities demo_batch (fun _ => Ok tt) [Demo.turn_id; "x"; "x"]%string empty_world =
      (Ok result, w') /\
    "x"%string ∈ map me_ID (br_Missing result).
Proof.
  eexists _, _. split; [vm_compute; reflexivity|].
  destruct (batch_read_is_total demo_batch (fun _ => Ok tt) [Demo.turn_id; "x"; "x"]%string empty_world
    empty_world {| br_Entities := [Demo.turn_in PhaseComplete];
                      br_Missing := [{| me_ID := "x"; me_Reason := MissingUnknown |}] |}) as [Hall _];
    [vm_compute; reflexivity|].
  destruct (Hall "x"%string) as [Hbad|Hin]; [by right; left| |exact Hin].
  vm_compute in Hbad. apply list_elem_of_singleton in Hbad. discriminate Hbad.
Defined.
