(* ===== verification/RulePackSpec.v ===== *)
(** What the load-time gates buy: a pack that passes them only ever drives a
    turn along an edge of the FSM, after the stage it leaves has landed its
    artifact, and onto a subject a durable consumer is bound to; and the pack
    the engine embeds passes, and is the FSM. *)

From S2P Require Import Prelude GoStd GoErrors Graph Vocab Vocabulary Sequencing RulePack Turn MemStore TurnSpec.

Open Scope Z_scope.

(** ** The rule engine, as the gates rely on it

    A rule whose logic is [and] fires only when each of its conditions matches
    the entity; a condition matches only a predicate the entity carries; and an
    [eq] or a [transition] on a string only when that string is recorded. *)
Class RuleEngine : Type := { fires : Definition_ -> option EntityState -> EntityState -> bool }.

Class RuleEngineLaws `{RuleEngine} : Prop := {
  fires_and rule before e c :
    fires rule before e = true -> rd_Logic rule = "and"%string -> c ∈ rd_Conditions rule -> cd_Required c = false ->
    objectsFor e (cd_Field c) <> [];
  fires_value rule before e c s :
    fires rule before e = true -> rd_Logic rule = "and"%string -> c ∈ rd_Conditions rule ->
    cd_Operator c = "eq"%string \/ cd_Operator c = "transition"%string -> cd_Value c = VText s ->
    AString s ∈ objectsFor e (cd_Field c)
}.

Definition actions_of (rule : Definition_) : list Action := rd_OnEnter rule ++ rd_OnRecovery rule.

(** ** What passing the gates means *)

Lemma sameSet_spec a b : sameSet a b = true <-> (forall x, x ∈ a <-> x ∈ b).
Proof. unfold sameSet. rewrite bool_decide_eq_true. apply Sort_Compact_eq. Qed.

Lemma phaseGates_elem rule gate :
  gate ∈ phaseGates rule <->
  exists c, c ∈ rd_Conditions rule /\ cd_Field c = TurnPhaseCurrent /\ cd_Value c = VText (pg_phase gate) /\
    cd_Operator c = pg_operator gate /\ (pg_operator gate = "eq"%string \/ pg_operator gate = "transition"%string).
Proof.
  unfold phaseGates. rewrite list_elem_of_omap. split.
  - intros (c & Hc & Hp). exists c. unfold pin in Hp.
    destruct (String.eqb_spec (cd_Field c) TurnPhaseCurrent) as [Hf|]; [|done]. cbn [negb] in Hp.
    assert (Hop : cd_Operator c = "eq"%string \/ cd_Operator c = "transition"%string).
    { destruct (String.eqb_spec (cd_Operator c) "eq"); [by left|].
      destruct (String.eqb_spec (cd_Operator c) "transition"); [by right|done]. }
    destruct (_ && _) in Hp; [done|]. destruct (cd_Value c) as [|[]| |] eqn:Hv; try done.
    injection Hp as <-. by split_and!.
  - intros (c & Hc & Hf & Hv & Ho & Hop). exists c. split; [done|]. unfold pin. rewrite Hf, Hv, Ho. destruct gate as [phase op].
    cbn [pg_operator pg_phase VText] in *. by destruct Hop as [->| ->].
Qed.

Section gates.
Context `{RuleValidator}.

Lemma Check_definition pack rule :
  Check_ pack = Ok tt -> rule ∈ pack -> rd_ID rule <> EmptyString /\ checkDefinition rule = Ok tt.
Proof.
  unfold Check_. destruct (Nat.eqb (List.length pack) 0); [done|]. generalize (@nil string) as seen.
  induction pack as [|d pack IH]; intros seen Hc; [by intros ?%elem_of_nil|]. cbn [checkAll] in Hc.
  destruct (String.eqb_spec (rd_ID d) EmptyString) as [|Hid]; [done|]. destruct (mem (rd_ID d) seen); [done|].
  apply result_bind_ok in Hc as ([] & Hd%wrapf_ok & Hrest). intros [->|Hin]%elem_of_cons; [done|by eapply IH].
Qed.

Lemma Check_ids pack : Check_ pack = Ok tt -> NoDup (map rd_ID pack).
Proof.
  unfold Check_. destruct (Nat.eqb (List.length pack) 0); [done|].
  assert (Hgen : forall seen, checkAll seen pack = Ok tt ->
    NoDup (map rd_ID pack) /\ (forall id, id ∈ map rd_ID pack -> id ∉ seen)); [|intros Hc; by apply (Hgen [])].
  induction pack as [|d pack IH]; intros seen Hc; cbn [map].
  { split; [constructor|]. by intros ? ?%elem_of_nil. }
  cbn [checkAll] in Hc. destruct (String.eqb (rd_ID d) EmptyString); [done|].
  destruct (mem (rd_ID d) seen) eqn:Hm; [done|]. apply mem_false in Hm.
  apply result_bind_ok in Hc as (? & _ & [Hnd Hseen]%IH). split.
  - constructor; [|done]. intros Hin. apply (Hseen _ Hin). by left.
  - intros id [->|Hin]%elem_of_cons; [done|]. intros Hs. apply (Hseen _ Hin). by right.
Qed.

(** The facts [checkDefinition] establishes, one record. *)
Record gated (rule : Definition_) : Prop := {
  gated_logic : rd_Logic rule = "and"%string;
  gated_conditions : Forall (fun c => checkCondition c = Ok tt) (rd_Conditions rule);
  gated_pinned : phaseGates rule <> [];
  gated_artifact : checkArtifactGate rule = Ok tt;
  gated_actions : Forall (fun a => checkAction a = Ok tt) (actions_of rule);
  gated_same : forall s, s ∈ subjectsOf (rd_OnEnter rule) <-> s ∈ subjectsOf (rd_OnRecovery rule);
  gated_edges : forall gate a target, gate ∈ phaseGates rule -> a ∈ actions_of rule ->
    PhaseForSubject (ac_Subject a) = Some target -> PhaseFollows (pg_phase gate) target = true
}.

Lemma checkDefinition_gated rule : checkDefinition rule = Ok tt -> gated rule.
Proof.
  unfold checkDefinition. intros Hc.
  repeat match type of Hc with
  | (_ ← _; _) = Ok _ => let H := fresh "Hg" in apply result_bind_ok in Hc as ([] & H & Hc)
  end.
  match goal with Ha : checkActions rule = Ok tt |- _ => rename Ha into Hact end.
  unfold checkActions in Hact. repeat (apply result_bind_ok in Hact as ([] & ? & Hact)).
  apply require_ok in Hact. pose proof (proj1 (sameSet_spec _ _) Hact) as Hsame.
  repeat match goal with H : all_ok _ _ = Ok _ |- _ => apply all_ok_Forall in H end.
  repeat match goal with H : require _ _ = Ok _ |- _ => apply require_ok in H end.
  split; try done.
  - by apply String.eqb_eq.
  - eapply Forall_impl; [eassumption|]. by intros c ?%wrapf_ok.
  - by destruct (phaseGates rule).
  - apply Forall_app. by split.
  - intros gate a target Hgate Ha Ht. unfold checkPhaseEdges in Hc. apply all_ok_Forall in Hc.
    rewrite Forall_forall in Hc. specialize (Hc gate Hgate). apply all_ok_Forall in Hc.
    rewrite Forall_forall in Hc. unfold actions_of in Ha. apply elem_of_app in Ha as [Ha|Ha];
      [specialize (Hc (rd_OnEnter rule) ltac:(left))|specialize (Hc (rd_OnRecovery rule) ltac:(right; left))];
      apply all_ok_Forall in Hc; rewrite Forall_forall in Hc; specialize (Hc a Ha); rewrite Ht in Hc; by apply require_ok in Hc.
Qed.

Lemma checkArtifactGate_ok rule gate :
  checkArtifactGate rule = Ok tt -> gate ∈ phaseGates rule ->
  pg_operator gate = "transition"%string \/ pg_phase gate = PhaseAccepted \/ StageArtifacts (pg_phase gate) = None \/
  exists artifacts c, StageArtifacts (pg_phase gate) = Some artifacts /\ c ∈ rd_Conditions rule /\ cd_Field c ∈ artifacts.
Proof.
  unfold checkArtifactGate. intros Hc%all_ok_Forall Hg. rewrite Forall_forall in Hc. specialize (Hc gate Hg).
  destruct (String.eqb_spec (pg_operator gate) "transition"); [by left|].
  destruct (String.eqb_spec (pg_phase gate) PhaseAccepted); [by right; left|].
  destruct (StageArtifacts (pg_phase gate)) as [[|x l]|] eqn:Ha; [done| |by right; right; left].
  apply require_ok in Hc. unfold gatedOnArtifact in Hc. apply existsb_exists in Hc as (c & Hin & Hm).
  right; right; right. exists (x :: l), c. split; [done|]. split; [by apply list_elem_of_In|by apply mem_true].
Qed.

Lemma checkCondition_optional c : checkCondition c = Ok tt -> cd_Required c = false.
Proof. unfold checkCondition. by destruct (cd_Required c). Qed.
End gates.

Lemma PhaseFollows_classify p q : PhaseFollows p q = true -> classify p q = (OutcomeAdvanced, EmptyString).
Proof.
  intros Hf. pose proof Hf as (rf & rt & Hp & Hq & Hlt & Ht)%PhaseFollows_cases.
  unfold classify. rewrite Hp, Hq, Ht, Hf. destruct (String.eqb_spec p q) as [->|]; [|done].
  assert (rf = rt) by congruence. lia.
Qed.

Lemma PhaseOf_objects_single e id p : PhaseOf (Some e) id = Ok p -> objectsFor e TurnPhaseCurrent = [AString p].
Proof.
  unfold PhaseOf. destruct (objectsFor e TurnPhaseCurrent) as [|[] [|]] eqn:Ho; try done.
  destruct (ParseTurnPhase s) as [q|] eqn:Hp; [|done]. intros [= <-]. by apply enum_parse_ok in Hp as [-> _].
Qed.

(** Every subject the gates know has a port on the stage stream. *)
Definition ports : list StagePort := match processor_outputs with Ok l => l | Err _ => [] end.

Lemma knownSubject_port s :
  knownSubject s = true -> exists port, port ∈ ports /\ sp_Subject port = s /\ sp_Stream port = StageStream.
Proof.
  assert (Hports : ports = map (fun p => stagePort p (StageSubjectPrefix +:+ p)) stagePhases ++
    [stagePort "resolved" SubjectResolved; stagePort "knowledge" SubjectKnowledge;
     stagePort "accusation" SubjectAccusation; stagePort "case-progress" SubjectCaseProgress])
    by (vm_compute; reflexivity).
  assert (Hothers : forallb (fun s => existsb (fun port => String.eqb (sp_Subject port) s &&
      String.eqb (sp_Stream port) StageStream) ports)
    [SubjectResolved; SubjectKnowledge; SubjectAccusation; SubjectCaseProgress] = true) by (vm_compute; reflexivity).
  unfold knownSubject. intros [Hm|Hp]%orb_true_iff.
  - apply mem_true, list_elem_of_In in Hm. rewrite forallb_forall in Hothers. specialize (Hothers s Hm).
    apply existsb_exists in Hothers as (port & Hin & [Hs%String.eqb_eq Ht%String.eqb_eq]%andb_true_iff).
    exists port. split; [by apply list_elem_of_In|done].
  - destruct (PhaseForSubject s) as [phase|] eqn:Hf; [|done]. unfold PhaseForSubject in Hf.
    apply find_some in Hf as [Hin Heq]. destruct (SubjectForPhase phase) as [got|] eqn:Hs; [|done].
    apply String.eqb_eq in Heq as ->. apply SubjectForPhase_ok in Hs as [Hin' ->].
    rewrite Hports. exists (stagePort phase (StageSubjectPrefix +:+ phase)). split; [|done]. apply elem_of_app. left.
    apply list_elem_of_fmap. by exists phase.
Qed.

(** ** The guarantees *)

Section guarantees.
Context `{RuleValidator, RuleEngine, !RuleEngineLaws}.

(** The turn carries something the stage of the phase lands when it is done. *)
Definition has_landed (e : EntityState) (p : string) : Prop :=
  exists artifacts artifact, StageArtifacts p = Some artifacts /\ artifact ∈ artifacts /\ objectsFor e artifact <> [].

(** C20: a pack that passes the load-time gates sequences turns soundly.
    Whenever the rule engine fires one of its rules on a turn, every stage its
    actions trigger is one the recorder lets that turn advance into, every
    subject published is bound to the stage stream, and the rule names the
    phase the turn is in, by equality or as a move into it. A rule that names it
    by equality fires on a turn that is newly accepted or on which the stage
    of that phase has landed an artifact. A rule that names it only as a move
    is exempt from that, as [checkArtifactGate] says, and may fire before the
    stage has landed anything ([a_move_waits_for_nothing]). *)
Theorem checked_packs_sequence_soundly pack rule before e id p a
    (Hcheck : Check_ pack = Ok tt) (Hrule : rule ∈ pack) (Hfires : fires rule before e = true)
    (Hphase : PhaseOf (Some e) id = Ok p) (Ha : a ∈ actions_of rule) :
  (forall target, PhaseForSubject (ac_Subject a) = Some target ->
     classify p target = (OutcomeAdvanced, EmptyString)) /\
  phaseGates rule <> [] /\
  (forall gate, gate ∈ phaseGates rule -> pg_phase gate = p /\
     (pg_operator gate = "transition"%string \/
      (pg_operator gate = "eq"%string /\ (p = PhaseAccepted \/ has_landed e p)))) /\
  (exists port, port ∈ ports /\ sp_Subject port = ac_Subject a /\ sp_Stream port = StageStream).
Proof.
  destruct (Check_definition _ _ Hcheck Hrule) as [_ Hg%checkDefinition_gated].
  pose proof (PhaseOf_objects_single _ _ _ Hphase) as Hobj.
  assert (Hpg : forall gate, gate ∈ phaseGates rule -> pg_phase gate = p).
  { intros gate (c & Hc & Hf & Hv & Ho & Hop)%phaseGates_elem.
    pose proof (fires_value rule before e c (pg_phase gate) Hfires (gated_logic _ Hg) Hc) as Hval.
    rewrite Ho, Hf, Hobj in Hval. by specialize (Hval Hop Hv) as [= ->]%list_elem_of_singleton. }
  split; [|split; [apply (gated_pinned _ Hg)|split]].
  - intros target Ht. destruct (phaseGates rule) as [|gate gates] eqn:Hgates; [by destruct (gated_pinned _ Hg)|].
    apply PhaseFollows_classify. rewrite <- (Hpg gate) by left. eapply gated_edges; [exact Hg| |done..]. rewrite Hgates. left.
  - intros gate Hgate. split; [by apply Hpg|]. pose proof Hgate as (_ & _ & _ & _ & _ & [Heq|Htr])%phaseGates_elem; [right|by left].
    split; [done|]. destruct (checkArtifactGate_ok _ gate (gated_artifact _ Hg) Hgate) as [Htr|[Hacc|[Hnone|(l & c & Hl & Hc & Hin)]]].
    + rewrite Heq in Htr. discriminate Htr.
    + left. by rewrite <- (Hpg gate).
    + exfalso. assert (Hp : p ∈ enum_values turnPhaseEnum) by (by eapply PhaseOf_known). rewrite (Hpg gate Hgate) in Hnone.
      assert (Htable : forallb (fun p => match StageArtifacts p with Some _ => true | None => false end)
        (enum_values turnPhaseEnum) = true) by (vm_compute; reflexivity).
      rewrite forallb_forall in Htable. specialize (Htable p (proj1 (list_elem_of_In _ _) Hp)). by rewrite Hnone in Htable.
    + right. exists l, (cd_Field c). rewrite <- (Hpg gate Hgate). split; [done|]. split; [done|].
      pose proof (gated_conditions _ Hg) as Hcs. rewrite Forall_forall in Hcs.
      exact (fires_and rule before e c Hfires (gated_logic _ Hg) Hc (checkCondition_optional _ (Hcs c Hc))).
  - pose proof (gated_actions _ Hg) as Has. rewrite Forall_forall in Has. specialize (Has a Ha).
    apply knownSubject_port. unfold checkAction in Has.
    destruct (negb (String.eqb (ac_Type a) _)); [done|]. by destruct (knownSubject (ac_Subject a)).
Qed.

(** The hop from [p] to [q]: a rule of the pack pinned at [p] that triggers the stage of [q]. *)
Definition drives (pack : list Definition_) (p q : string) : bool :=
  existsb (fun rule =>
    existsb (fun gate => String.eqb (pg_phase gate) p) (phaseGates rule) &&
    existsb (fun a => match PhaseForSubject (ac_Subject a) with Some t => String.eqb t q | None => false end)
      (rd_OnEnter rule)) pack.

(** The embedded pack passes its gates once upstream accepts its rules, and
    it is the turn FSM: it drives a turn from one phase into another exactly
    along the FSM's edges, failure aside, which only the recorder decides; both
    endings are announced, as moves; no rule id occurs twice. *)
Theorem embedded_pack_is_the_fsm
    (Hvalid : forall rule, rule ∈ turn_sequencing -> ValidateDefinition rule = Ok tt) :
  Definitions (Ok turn_sequencing) = Ok turn_sequencing /\
  (forall p q, p ∈ enum_values turnPhaseEnum -> q ∈ enum_values turnPhaseEnum ->
     drives turn_sequencing p q = PhaseFollows p q && negb (String.eqb q PhaseFailed)) /\
  (forall p, IsTerminal p = true -> exists rule, rule ∈ turn_sequencing /\
     phaseGates rule = [{| pg_phase := p; pg_operator := "transition" |}] /\
     subjectsOf (rd_OnEnter rule) = [SubjectResolved]) /\
  NoDup (map rd_ID turn_sequencing).
Proof.
  assert (Hcheck : Check_ turn_sequencing = Ok tt).
  { assert (Hrest : forall rule, rule ∈ turn_sequencing -> ValidateDefinition rule = Ok tt ->
      checkDefinition rule = Ok tt).
    { intros rule Hin Hv. unfold checkDefinition. rewrite Hv. clear Hv Hvalid.
      unfold turn_sequencing in Hin. closed_cases Hin; vm_compute; reflexivity. }
    unfold Check_. change (Nat.eqb (List.length turn_sequencing) 0) with false. cbv iota.
    assert (Hgen : forall pack seen, (forall rule, rule ∈ pack -> checkDefinition rule = Ok tt) ->
      forallb (fun rule => negb (String.eqb (rd_ID rule) EmptyString) && negb (mem (rd_ID rule) seen)) pack = true ->
      NoDup (map rd_ID pack) -> checkAll seen pack = Ok tt).
    { clear. intros pack. induction pack as [|d pack IH]; intros seen Hd Hids Hnd; [done|]. cbn [checkAll].
      cbn [forallb] in Hids. apply andb_true_iff in Hids as [[Hn Hm]%andb_true_iff Hids]. cbn in Hnd.
      apply NoDup_cons in Hnd as [Hnew Hnd]. apply negb_true_iff in Hn, Hm. rewrite Hn, Hm, (Hd d ltac:(left)).
      apply IH; [intros r Hr; apply Hd; by right| |done]. apply forallb_forall. intros r Hr.
      rewrite forallb_forall in Hids. specialize (Hids r Hr). apply andb_true_iff in Hids as [-> Hm'%negb_true_iff].
      cbn [andb]. apply negb_true_iff, mem_false. apply mem_false in Hm'. intros [Heq|Hin]%elem_of_cons; [|done].
      apply Hnew. rewrite <- Heq. apply list_elem_of_In, in_map, Hr. }
    apply Hgen; [intros rule Hin; by apply Hrest, Hvalid|vm_compute; reflexivity|].
    refine (proj1 (bool_decide_eq_true _) _). vm_compute. reflexivity. }
  split; [unfold Definitions, wrapf, mbind, result_bind; by rewrite Hcheck|]. split; [|split; [|by apply Check_ids]].
  - assert (Hall : forallb (fun p => forallb (fun q =>
      Bool.eqb (drives turn_sequencing p q) (PhaseFollows p q && negb (String.eqb q PhaseFailed)))
      (enum_values turnPhaseEnum)) (enum_values turnPhaseEnum) = true) by (vm_compute; reflexivity).
    intros p q Hp Hq. rewrite forallb_forall in Hall. specialize (Hall p (proj1 (list_elem_of_In _ _) Hp)).
    rewrite forallb_forall in Hall. specialize (Hall q (proj1 (list_elem_of_In _ _) Hq)). by apply eqb_prop.
  - assert (Hat : forall k p, (k < List.length turn_sequencing)%nat ->
      phaseGates (List.nth k turn_sequencing (hop EmptyString [] 0 [])) = [{| pg_phase := p; pg_operator := "transition" |}] ->
      subjectsOf (rd_OnEnter (List.nth k turn_sequencing (hop EmptyString [] 0 []))) = [SubjectResolved] ->
      exists rule, rule ∈ turn_sequencing /\
        phaseGates rule = [{| pg_phase := p; pg_operator := "transition" |}] /\
        subjectsOf (rd_OnEnter rule) = [SubjectResolved]).
    { intros k p Hk Hg Hs. eexists. split; [apply list_elem_of_In, nth_In, Hk|]. by split. }
    intros p Hp. unfold IsTerminal in Hp.
    apply orb_true_iff in Hp as [Hp|Hp]; apply String.eqb_eq in Hp as ->; [apply (Hat 9%nat)|apply (Hat 10%nat)];
      first [cbn; lia|vm_compute; reflexivity].
Qed.
End guarantees.

(** ** At work: an engine that keeps the assumed behaviour *)

#[local] Instance demo_validator : RuleValidator := {| ValidateDefinition _ := Ok tt |}.

Definition demo_matches (before : option EntityState) (e : EntityState) (c : Condition) : bool :=
  let objects := objectsFor e (cd_Field c) in
  if String.eqb (cd_Operator c) "eq" then
    match cd_Value c with VScalar v => bool_decide (v ∈ objects) | _ => false end
  else if String.eqb (cd_Operator c) "transition" then
    match cd_Value c, before with
    | VScalar v, Some old => bool_decide (v ∈ objects) && negb (bool_decide (v ∈ objectsFor old (cd_Field c)))
    | _, _ => false
    end
  else if String.eqb (cd_Operator c) "ne" then
    match cd_Value c, objects with VScalar v, o :: _ => negb (bool_decide (v = o)) | _, _ => false end
  else
    match cd_Value c, objects with VList l, o :: _ => bool_decide (o ∈ l) | _, _ => false end.

#[export] Instance demo_engine : RuleEngine := {|
  fires rule before e := String.eqb (rd_Logic rule) "and" && forallb (demo_matches before e) (rd_Conditions rule) |}.

#[export] Instance demo_engine_laws : RuleEngineLaws.
Proof.
  assert (Hc : forall rule before e c, fires rule before e = true -> c ∈ rd_Conditions rule -> demo_matches before e c = true).
  { intros rule before e c [_ Hall]%andb_true_iff Hin. rewrite forallb_forall in Hall. by apply Hall, list_elem_of_In. }
  split; intros rule before e c.
  - intros Hf _ Hin _ Hnil. specialize (Hc _ _ _ _ Hf Hin). unfold demo_matches in Hc. rewrite Hnil in Hc.
    destruct (String.eqb _ _); [|destruct (String.eqb _ _); [|destruct (String.eqb _ _)]]; destruct (cd_Value c), before; try done;
      try (apply bool_decide_eq_true in Hc; by apply elem_of_nil in Hc);
      apply andb_true_iff in Hc as [Hc%bool_decide_eq_true _]; by apply elem_of_nil in Hc.
  - intros s Hf _ Hin Hop Hv. specialize (Hc _ _ _ _ Hf Hin). unfold demo_matches in Hc. rewrite Hv in Hc.
    destruct Hop as [Ho|Ho]; rewrite Ho in Hc; cbn [String.eqb Ascii.eqb Bool.eqb] in Hc; [by apply bool_decide_eq_true in Hc|].
    destruct before; [|done]. by apply andb_true_iff in Hc as [Hc%bool_decide_eq_true _].
Qed.

(** An adjudicating turn whose verdict asks for the dice. *)
Definition adjudicated_turn : EntityState :=
  with_triples (Demo.turn_in PhaseAdjudicating)
    (Triples (Demo.turn_in PhaseAdjudicating) ++
     [{| Subject := Demo.turn_id; Predicate := TurnVerdictRequiresRoll; Object := ABool true; Source := "demo";
         Timestamp := 1; Confidence := float_one; Context_ := Demo.turn_id; Datatype := EmptyString; ExpiresAt := None |}]).

Definition resolution_rule : Definition_ := List.nth 2 turn_sequencing (hop EmptyString [] 0 []).

Lemma demo_Check : Check_ turn_sequencing = Ok tt.
Proof. vm_compute. reflexivity. Qed.

(** A rule on the move into adjudication passes the gates and fires on a turn
    whose verdict has not landed. *)
Definition eager : Definition_ :=
  hop "turn-eager" [enters "adjudicating" ["interpreting"%string]] 3 ["semmachina.turn.resolving"%string].

Example a_move_waits_for_nothing :
  Check_ [eager] = Ok tt /\
  fires eager (Some (Demo.turn_in PhaseInterpreting)) (Demo.turn_in PhaseAdjudicating) = true /\
  forallb (fun p => match objectsFor (Demo.turn_in PhaseAdjudicating) p with [] => true | _ => false end)
    (default [] (StageArtifacts PhaseAdjudicating)) = true.
Proof. vm_compute. split_and!; reflexivity. Qed.

Lemma checked_packs_sequence_soundly_witness :
  fires resolution_rule None adjudicated_turn = true /\
  classify PhaseAdjudicating PhaseResolving = (OutcomeAdvanced, EmptyString).
Proof.
  assert (Hf : fires resolution_rule None adjudicated_turn = true) by (vm_compute; reflexivity).
  split; [exact Hf|].
  destruct (checked_packs_sequence_soundly turn_sequencing resolution_rule None adjudicated_turn Demo.turn_id
    PhaseAdjudicating (publish_ 3 "semmachina.turn.resolving")) as (Hedge & _).
  - exact demo_Check.
  - apply list_elem_of_In, nth_In. cbn. lia.
  - exact Hf.
  - vm_compute. reflexivity.
  - left.
  - apply Hedge. vm_compute. reflexivity.
Defined.

Lemma embedded_pack_is_the_fsm_witness :
  drives turn_sequencing PhaseResolving PhaseApplying = true /\ drives turn_sequencing PhaseResolving PhaseFailed = false.
Proof.
  assert (Hv : forall rule, rule ∈ turn_sequencing -> ValidateDefinition rule = Ok tt) by (intros; reflexivity).
  destruct (embedded_pack_is_the_fsm Hv) as (_ & Hd & _).
  split; (rewrite Hd; [vm_compute; reflexivity|apply mem_true; vm_compute; reflexivity..]).
Defined.
