(* ===== verification/ContentSpec.v ===== *)
(** What the content store promises: a stored artifact reads back as itself, a
    reference reads as one kind of artifact only, what is read satisfies its
    own contract, and an exact-resident record is decided by its first writer.
    The last part discharges the interface the stages were proved against. *)

From S2P Require Import Prelude GoStd GoHash GoErrors Graph Vocab Vocabulary Payload Mechanics Decisions ContentRecords ContentStore ProjectionContract Store Campaign Dice Effect Sequencing Turn Stage MemStore.

Open Scope Z_scope.

(** ** The laws of the services *)

(** What the object store and the claim bucket hold. *)
Class HasObjects (W : Type) : Type := {
  objects_of : W -> gmap string string;
  claims_of : W -> gmap string string
}.

(** A write either happened or did not, whatever it answered; a read tells what
    is there; only [Create] adds a claim and nothing ever replaces one. *)
Class ObjectStoreLaws (W : Type) `{HasObjects W, ObjectStore W, ClaimBucket W} : Prop := {
  object_Put_spec k d w : wp (object_Put k d) (fun r w' => claims_of w' = claims_of w /\
    match r with
    | Ok _ => objects_of w' = <[k := d]> (objects_of w)
    | Err _ => objects_of w' = objects_of w \/ objects_of w' = <[k := d]> (objects_of w)
    end) w;
  object_Get_spec k w : wp (object_Get k) (fun r w' => claims_of w' = claims_of w /\ objects_of w' = objects_of w /\
    match r with
    | Ok d => objects_of w !! k = Some d
    | Err e => errors_Is ErrObjectNotFound e = true -> objects_of w !! k = None
    end) w;
  claims_Create_spec k d w : wp (claims_Create k d) (fun r w' => objects_of w' = objects_of w /\
    match r with
    | Ok _ => claims_of w !! k = None /\ claims_of w' = <[k := d]> (claims_of w)
    | Err e => claims_of w' = claims_of w \/
               (claims_of w !! k = None /\ claims_of w' = <[k := d]> (claims_of w))
    end) w;
  claims_Get_spec k w : wp (claims_Get k) (fun r w' => claims_of w' = claims_of w /\ objects_of w' = objects_of w /\
    match r with Ok d => claims_of w !! k = Some d | Err _ => True end) w
}.

(** What a backend owes the store, whichever backend it is. *)
Class BackendLaws (W : Type) `{HasObjects W, Backend W} : Prop := {
  Put_spec k d w : wp (Put k d) (fun r w' =>
    match r with Ok _ => objects_of w' = <[k := d]> (objects_of w) | Err _ => True end) w;
  Get_spec k w : wp (Get k) (fun r w' => objects_of w' = objects_of w /\
    match r with
    | Ok d => objects_of w !! k = Some d
    | Err e => errors_Is ErrObjectNotFound e = true -> objects_of w !! k = None
    end) w;
  ExactResident_spec ClaimExact k c w : ExactResident = Some ClaimExact ->
    wp (ClaimExact k c) (fun r w' => claims_of w ⊆ claims_of w' /\
      match r with
      | Ok v => claims_of w' !! k = Some v /\ objects_of w' !! k = Some v
      | Err _ => True
      end) w
}.

(** ** Claims *)

Section claims.
Context {W : Type} `{HasObjects W, ObjectStore W, ClaimBucket W, !ObjectStoreLaws W}.

Lemma claim_winner_spec k c w :
  wp (claim_winner k c) (fun r w' => claims_of w ⊆ claims_of w' /\ objects_of w' = objects_of w /\
    match r with Ok v => claims_of w' !! k = Some v | Err _ => True end) w.
Proof.
  unfold claim_winner. apply wp_bind, wp_attempt.
  eapply wp_mono; [apply claims_Create_spec|]. intros [u|err] w1 [Ho Hc].
  { destruct Hc as [Hn Hc]. apply wp_ret. rewrite Hc. split; [by apply insert_subseteq|].
    split; [done|]. by rewrite lookup_insert_eq. }
  assert (Hsub : claims_of w ⊆ claims_of w1).
  { destruct Hc as [->|[Hn ->]]; [done|by apply insert_subseteq]. }
  destruct (errors_Is ErrKeyExists err); cbn [negb]; [|by apply wp_throw].
  apply wp_bind, wp_attempt. eapply wp_mono; [apply claims_Get_spec|]. intros [v|e] w2 (Hc2 & Ho2 & Hv).
  - apply wp_ret. rewrite Hc2. split; [done|]. split; [congruence|done].
  - apply wp_throw. rewrite Hc2. split; [done|]. split; [congruence|done].
Qed.

Lemma ObjectBackend_ClaimExact_spec k c w :
  wp (ObjectBackend_ClaimExact k c) (fun r w' => claims_of w ⊆ claims_of w' /\
    match r with
    | Ok v => claims_of w' !! k = Some v /\ objects_of w' !! k = Some v
    | Err _ => True
    end) w.
Proof.
  unfold ObjectBackend_ClaimExact. destruct (_ <? _); [by apply wp_throw|].
  apply wp_bind. eapply wp_mono; [apply claim_winner_spec|]. intros [v|e] w1 (Hsub & Ho & Hv); [|done].
  apply wp_bind, wp_attempt. eapply wp_mono; [apply object_Get_spec|]. intros [d|e] w2 (Hc2 & Ho2 & Hd).
  - destruct (String.eqb_spec d v) as [->|]; cbn [negb].
    + apply wp_ret. rewrite Hc2, Ho2. done.
    + apply wp_throw. by rewrite Hc2.
  - destruct (errors_Is ErrObjectNotFound e); [|apply wp_throw; by rewrite Hc2].
    apply wp_bind, wp_attempt. eapply wp_mono; [apply object_Put_spec|]. intros [u|e'] w3 [Hc3 Ho3].
    + apply wp_ret. rewrite Hc3, Hc2, Ho3. split; [done|]. split; [done|]. by rewrite lookup_insert_eq.
    + apply wp_throw. by rewrite Hc3, Hc2.
Qed.
End claims.

(** The backend over one object store and its claim bucket keeps those promises. *)
Lemma object_backend_laws {W} `{HasObjects W, ObjectStore W, ClaimBucket W, !ObjectStoreLaws W} instance :
  @BackendLaws W _ (ObjectBackend instance).
Proof.
  unshelve econstructor; cbn [Put Get ExactResident ObjectBackend].
  - intros k d w. eapply wp_mono; [apply object_Put_spec|]. intros [u|e] w' [_ Ho]; done.
  - intros k w. eapply wp_mono; [apply object_Get_spec|]. intros r w' (_ & Ho & Hr). done.
  - intros claim k c w [= <-]. apply ObjectBackend_ClaimExact_spec.
Qed.

(** ** Writing and reading *)

Section store.
Context {W : Type} `{Substrate, HasObjects W, Backend W, !BackendLaws W}.

Lemma ref_for_ok p kind id ref :
  ref_for p kind id = Ok ref ->
  exists slot, ArtifactSlot p = Ok slot /\ Ref_Validate ref = Ok tt /\
    ref = {| Instance_ := InstanceName; Key := Join RefSeparator [kind; id; slot] |}.
Proof.
  unfold ref_for, KeyFor. intros (key & Hk & Hv)%result_bind_ok.
  apply result_bind_ok in Hk as (slot & Hs & Hk). apply result_bind_ok in Hk as (u1 & _ & Hk).
  apply result_bind_ok in Hk as (u2 & _ & Hk). injection Hk as <-.
  apply result_bind_ok in Hv as ([] & Hv & Hr). injection Hr as <-. by exists slot.
Qed.

(** The reference a write makes passes the checks of a read of the same kind. *)
Lemma check_ref_for p kind id ref : ref_for p kind id = Ok ref -> check_ref p ref = Ok tt.
Proof.
  intros (slot & Hs & Hv & ->)%ref_for_ok. unfold check_ref. rewrite Hv, Hs. cbn [Instance_ Key].
  rewrite String.eqb_refl. cbn [negb].
  assert (Hsuf : HasSuffix (Join RefSeparator [kind; id; slot]) (String RefSeparator slot) = true).
  { apply HasSuffix_iff. exists (kind +:+ String RefSeparator id). cbn [Join].
    by rewrite <- string_app_assoc, app_cons. }
  by rewrite Hsuf.
Qed.

Lemma check_ref_ok p ref :
  check_ref p ref = Ok tt -> Instance_ ref = InstanceName /\
  exists slot prefix, ArtifactSlot p = Ok slot /\ Key ref = prefix +:+ String RefSeparator slot.
Proof.
  unfold check_ref. destruct (Ref_Validate ref); [|discriminate].
  destruct (String.eqb_spec (Instance_ ref) InstanceName); [|discriminate]. cbn [negb].
  destruct (ArtifactSlot p) as [slot|]; [|discriminate].
  destruct (HasSuffix _ _) eqn:Hs; [|discriminate]. intros _. split; [done|].
  apply HasSuffix_iff in Hs as [prefix Hp]. by exists slot, prefix.
Qed.

Section artifact.
Context {A : Type} `{artifact A, Codec A}.

Lemma put_spec p kind id (a : A) w :
  wp (put p kind id a) (fun r w' =>
    match r with
    | Ok ref => artifact_Validate a = Ok tt /\ ref_for p kind id = Ok ref /\
        exists d, Marshal a = Ok d /\ objects_of w' !! Key ref = Some d
    | Err _ => True
    end) w.
Proof.
  unfold put, calling. wp_step. apply wp_lift.
  destruct (wrapf _ (artifact_Validate a)) as [[]|] eqn:Hv; [|done]. apply wrapf_ok in Hv.
  wp_step. apply wp_lift. destruct (ref_for p kind id) as [ref|] eqn:Hr; [|done].
  wp_step. apply wp_lift. destruct (wrapf _ (Marshal a)) as [d|] eqn:Hd; [|done]. apply wrapf_ok in Hd.
  apply wp_bind, wp_bind, wp_attempt. eapply wp_mono; [apply Put_spec|]. intros [u|e] w1 Ho; [|done].
  apply wp_lift. cbn. split; [done|]. split; [done|]. exists d. split; [done|].
  by rewrite Ho, lookup_insert_eq.
Qed.

(** What a read gives: the decoded object at the key, or the reason there is
    none. *)
Lemma get_spec p ref w :
  wp (get (A := A) p ref) (fun r w' =>
    match r with
    | Ok a => check_ref p ref = Ok tt /\ exists d, objects_of w !! Key ref = Some d /\ decode d = Ok a
    | Err e => check_ref p ref = Err e \/
        (exists d, objects_of w !! Key ref = Some d /\ decode (A := A) d = Err e) \/
        (exists err, e = Errorf "resolve" [Sentinel ErrArtifactNotFound; err] /\ objects_of w !! Key ref = None) \/
        (exists err, e = Errorf "resolve" [err] /\ errors_Is ErrObjectNotFound err = false)
    end) w.
Proof.
  unfold get. wp_step. apply wp_lift. destruct (check_ref p ref) as [[]|e]; [|by left].
  apply wp_bind, wp_attempt. eapply wp_mono; [apply Get_spec|]. intros [d|err] w1 [Ho Hd].
  - apply wp_lift. destruct (decode d) as [a|e] eqn:Hdec; [by eauto|]. right. left. by eauto.
  - destruct (errors_Is ErrObjectNotFound err) eqn:He; apply wp_throw; right; right; [left|right]; eauto.
Qed.
End artifact.
End store.

(** ** The theorems *)

(** The slots of the registered reference predicates: a table the closed
    vocabulary fixes, whatever the substrate's parser does. *)
Definition slot_of (p : string) : option string :=
  match Split dot p with
  | [_; category; property] => if String.eqb property StorageRefProperty then Some category else None
  | _ => None
  end.

Lemma slots_distinct p q slot :
  p ∈ allPredicates -> q ∈ allPredicates -> slot_of p = Some slot -> slot_of q = Some slot -> p = q.
Proof.
  intros Hp Hq Hsp Hsq.
  assert (Hall : forallb (fun p => forallb (fun q =>
    bool_decide (p = q) || negb (bool_decide (slot_of p = slot_of q)) || bool_decide (slot_of p = None))
    allPredicates) allPredicates = true) by (vm_compute; reflexivity).
  rewrite forallb_forall in Hall. specialize (Hall p (proj1 (list_elem_of_In _ _) Hp)).
  rewrite forallb_forall in Hall. specialize (Hall q (proj1 (list_elem_of_In _ _) Hq)).
  rewrite Hsp, Hsq in Hall. apply orb_true_iff in Hall as [Hall|Hall]; [|by rewrite bool_decide_eq_true in Hall].
  apply orb_true_iff in Hall as [Hall|Hall]; [by rewrite bool_decide_eq_true in Hall|].
  by rewrite bool_decide_eq_true_2 in Hall.
Qed.

Lemma slots_no_separator p slot : p ∈ allPredicates -> slot_of p = Some slot -> contains_char RefSeparator slot = false.
Proof.
  intros Hp Hs.
  assert (Hall : forallb (fun p => match slot_of p with
    | Some s => negb (contains_char RefSeparator s) | None => true end) allPredicates = true)
    by (vm_compute; reflexivity).
  rewrite forallb_forall in Hall. specialize (Hall p (proj1 (list_elem_of_In _ _) Hp)).
  rewrite Hs in Hall. by destruct (contains_char _ _).
Qed.

Lemma ArtifactSlot_slot_of `{SubstrateLaws} p slot : ArtifactSlot p = Ok slot -> slot_of p = Some slot.
Proof.
  unfold ArtifactSlot, slot_of. destruct (ParsePredicate p) as [[[d c] q]|] eqn:Hp; [|discriminate].
  apply ParsePredicate_parts in Hp as [_ ->]. destruct (String.eqb q StorageRefProperty); [|discriminate].
  by intros [= ->].
Qed.

(** The last segment of a key is read off it in one way. *)
Lemma last_segment_inj sep a b x y :
  contains_char sep a = false -> contains_char sep b = false ->
  x +:+ String sep a = y +:+ String sep b -> a = b.
Proof.
  intros Ha Hb. revert y. induction x as [|c x IH]; intros [|d y]; rewrite ?app_nil, ?app_cons; intros Heq.
  - by injection Heq.
  - injection Heq as <- Heq. subst a. rewrite contains_char_app in Ha. cbn in Ha.
    by rewrite Ascii.eqb_refl, orb_true_r in Ha.
  - injection Heq as -> Heq. subst b. rewrite contains_char_app in Hb. cbn in Hb.
    by rewrite Ascii.eqb_refl, orb_true_r in Hb.
  - injection Heq as -> Heq. by apply (IH y).
Qed.

Section theorems.
Context {W : Type} `{SubstrateLaws, HasObjects W, Backend W, !BackendLaws W}.

(** C21: an artifact the store accepted reads back as itself through the
    reference it was given, whenever its encoding decodes to it: the read's
    only other outcome is the backend's own failure, passed on - the stored
    object is never reported missing, corrupt or foreign. *)
Theorem stored_artifact_reads_back {A} `{artifact A, Codec A} p kind id (a : A) (w w1 : W) ref
    (Hput : put p kind id a w = (Ok ref, w1))
    (Hcodec : forall d, Marshal a = Ok d -> Unmarshal d = Ok a) :
  (get p ref w1).1 = Ok a \/
  exists err, (get (A := A) p ref w1).1 = Err (Errorf "resolve" [err]) /\ errors_Is ErrObjectNotFound err = false.
Proof.
  pose proof (wp_elim _ _ _ _ _ (put_spec p kind id a w) Hput) as (Hv & Href & d & Hd & Ho).
  pose proof (get_spec (A := A) p ref w1) as Hget. unfold wp in Hget.
  assert (Hdec : decode (A := A) d = Ok a) by (unfold decode; by rewrite (Hcodec d Hd), Hv).
  apply check_ref_for in Href.
  destruct (get p ref w1).1 as [b|e].
  - destruct Hget as (_ & d' & Hd' & Hb). left. congruence.
  - right. destruct Hget as [Hc|[(d' & Hd' & Hb)|[(err & _ & Hn)|(err & -> & He)]]]; [congruence..|].
    by exists err.
Qed.

(** A reference is readable as one kind of artifact only. Whatever two
    typed reads of it succeed, in whatever states, were reads of the same
    predicate, on the storage instance the reference names; and what a read
    returns satisfies its record's own contract. *)
Theorem reference_reads_as_one_kind {A B} `{artifact A, Codec A, artifact B, Codec B} p q ref
    (a : A) (b : B) (w w' w2 w2' : W)
    (Hp : p ∈ allPredicates) (Hq : q ∈ allPredicates)
    (Ha : get p ref w = (Ok a, w')) (Hb : get q ref w2 = (Ok b, w2')) :
  p = q /\ Instance_ ref = InstanceName /\ artifact_Validate a = Ok tt /\ artifact_Validate b = Ok tt.
Proof.
  assert (Hvalid : forall C `(Ac : artifact C) `(Cc : Codec C) d (c : C), decode d = Ok c -> artifact_Validate c = Ok tt).
  { intros C Ac Cc d c. unfold decode. destruct (Unmarshal d) as [x|]; [|discriminate].
    destruct (artifact_Validate x) as [[]|] eqn:Hx; [|discriminate]. by intros [= <-]. }
  pose proof (wp_elim _ _ _ _ _ (get_spec p ref w) Ha) as (Hca & da & _ & Hda).
  pose proof (wp_elim _ _ _ _ _ (get_spec q ref w2) Hb) as (Hcb & db & _ & Hdb).
  apply check_ref_ok in Hca as (Hi & slot & x & Hs & Hk), Hcb as (_ & slot' & y & Hs' & Hk').
  apply ArtifactSlot_slot_of in Hs, Hs'.
  assert (slot = slot') as <-.
  { apply (last_segment_inj RefSeparator _ _ x y); [by apply (slots_no_separator p)|by apply (slots_no_separator q)|congruence]. }
  split; [by apply (slots_distinct p q slot)|]. split; [done|]. split; eapply Hvalid; done.
Qed.

Lemma put_exact_spec {A} `{artifact A, Codec A} p id (turnID : A -> string) (a : A) w :
  wp (put_exact p id turnID (Some a)) (fun r w' => claims_of w ⊆ claims_of w' /\
    match r with
    | Ok ref => RequireTurnEntityID (turnID a) id = Ok tt /\ artifact_Validate a = Ok tt /\
        ref_for p SubjectTurn (turnID a) = Ok ref /\
        exists d, Marshal a = Ok d /\ claims_of w' !! Key ref = Some d /\ objects_of w' !! Key ref = Some d
    | Err _ => True
    end) w.
Proof.
  unfold put_exact, calling. wp_step. apply wp_lift.
  destruct (RequireTurnEntityID (turnID a) id) as [[]|] eqn:Ht; [|done].
  wp_step. apply wp_lift. destruct (wrapf _ (artifact_Validate a)) as [[]|] eqn:Hv; [|done].
  apply wrapf_ok in Hv. wp_step. apply wp_lift. destruct (ref_for _ _ _) as [ref|] eqn:Hr; [|done].
  wp_step. apply wp_lift. destruct (wrapf _ (Marshal a)) as [d|] eqn:Hd; [|done]. apply wrapf_ok in Hd.
  destruct ExactResident as [claim|] eqn:He; [|by apply wp_throw].
  apply wp_bind, wp_bind, wp_attempt. eapply wp_mono; [by apply ExactResident_spec|].
  intros [v|e] w1 [Hsub Hcl]; apply wp_lift; cbn; [|done].
  destruct (String.eqb_spec v d) as [->|]; cbn; [|done]. destruct Hcl as [Hcl Ho].
  split; [done|]. split; [done|]. split; [done|]. split; [done|]. exists d. done.
Qed.

(** A companion's decision on a turn is decided by its first writer. Once a
    decision was recorded, every later record for the same turn that is
    accepted, by whichever instance and after whatever only adds claims, is the
    same bytes at the same reference; and an accepted decision's object is
    resident, even when an earlier claimant died before writing it. *)
Theorem companion_decision_is_decided_once `{Codec CompanionDecision} id id' d d' (w w1 w2 w3 : W) ref ref'
    (Hfirst : PutCompanionDecision id (Some d) w = (Ok ref, w1))
    (Hgrow : claims_of w1 ⊆ claims_of w2)
    (Hsecond : PutCompanionDecision id' (Some d') w2 = (Ok ref', w3))
    (Hturn : cmd_TurnID d' = cmd_TurnID d) :
  ref' = ref /\ Marshal d' = Marshal d /\
  exists bytes, Marshal d = Ok bytes /\ objects_of w3 !! Key ref = Some bytes.
Proof.
  pose proof (wp_elim _ _ _ _ _ (put_exact_spec _ id cmd_TurnID d w) Hfirst)
    as (_ & _ & _ & Hr & b & Hm & Hc & _).
  pose proof (wp_elim _ _ _ _ _ (put_exact_spec _ id' cmd_TurnID d' w2) Hsecond)
    as (Hsub & _ & _ & Hr' & b' & Hm' & Hc' & Ho').
  assert (ref' = ref) as -> by (rewrite Hturn in Hr'; congruence).
  assert (Hin : claims_of w3 !! Key ref = Some b).
  { eapply lookup_weaken; [|exact Hsub]. eapply lookup_weaken; [exact Hc|exact Hgrow]. }
  assert (b' = b) as -> by congruence. split; [done|]. split; [congruence|]. exists b. done.
Qed.

(** The claims of exact-resident records only grow: no step of any of the
    store's immutable writes, successful or not, changes or removes a claim. *)
Theorem exact_writes_only_add_claims `{Codec CompanionDecision, Codec CompanionStageRecord} id decision record (w : W) :
  claims_of w ⊆ claims_of (PutCompanionDecision id decision w).2 /\
  claims_of w ⊆ claims_of (PutCompanionStageRecord id record w).2.
Proof.
  split.
  - destruct decision as [d|]; [|done]. exact (proj1 (put_exact_spec _ id cmd_TurnID d w)).
  - destruct record as [r|]; [|done]. exact (proj1 (put_exact_spec _ id csr_TurnID r w)).
Qed.
End theorems.

(** ** The interface of the stages *)

(** A backend whose calls leave the graph alone. *)
Class GraphQuiet (W : Type) `{HasGraph W, Backend W} : Prop := {
  Put_graph k d w : graph_of (Put k d w).2 = graph_of w;
  Get_graph k w : graph_of (Get k w).2 = graph_of w
}.

Section stages.
Context {W : Type} `{Substrate, HasGraph W, Backend W, !GraphQuiet W}.

Lemma put_for_turn_graph {A} `{artifact A, Codec A} p id (turnID : A -> string) a w :
  graph_of (put_for_turn p id turnID a w).2 = graph_of w.
Proof.
  change (wp (put_for_turn p id turnID a) (fun _ w' => graph_of w' = graph_of w) w).
  destruct a as [a|]; [|done]. unfold put_for_turn, put, calling.
  wp_step. apply wp_lift. destruct (RequireTurnEntityID _ _); [|done].
  wp_step. apply wp_lift. destruct (wrapf _ _); [|done].
  wp_step. apply wp_lift. destruct (ref_for _ _ _) as [ref|]; [|done].
  wp_step. apply wp_lift. destruct (wrapf _ _) as [data|]; [|done].
  apply wp_bind, wp_bind, wp_attempt. unfold wp at 1. pose proof (Put_graph (Key ref) data w) as Hg.
  destruct (Put (Key ref) data w) as [[u|e] w1]; exact Hg.
Qed.

Lemma get_graph {A} `{artifact A, Codec A} p ref w : graph_of (get (A := A) p ref w).2 = graph_of w.
Proof.
  change (wp (get (A := A) p ref) (fun _ w' => graph_of w' = graph_of w) w). unfold get.
  wp_step. apply wp_lift. destruct (check_ref p ref); [|done].
  apply wp_bind, wp_attempt. unfold wp at 1. pose proof (Get_graph (Key ref) w) as Hg.
  destruct (Get (Key ref) w) as [[d|e] w1]; [by apply wp_lift|].
  cbn in Hg |- *. by destruct (errors_Is _ _).
Qed.

Context `{Codec PlayerAction, Codec Verdict, Codec RollResult, Codec EffectBatch, Codec FailureDetail}.

(** The store as the readers and writers the stages and the recorder use. *)
#[export] Instance store_artifacts : ArtifactStore W := {|
  Stage.GetVerdict := ContentStore.GetVerdict;
  Stage.PutRoll id roll := ContentStore.PutRoll id (Some roll);
  Stage.PutEffectBatch id batch := ContentStore.PutEffectBatch id (Some batch);
  Stage.PutFailureDetail id detail := ContentStore.PutFailureDetail id (Some detail) |}.

#[export] Instance store_actions : ActionStore W := {|
  Turn.PutAction id action := ContentStore.PutAction id (Some action) |}.

#[export] Instance store_artifact_laws : ArtifactStoreLaws W.
Proof. split; intros; [apply get_graph|apply put_for_turn_graph..]. Qed.

#[export] Instance store_action_laws : ActionStoreLaws W.
Proof. split. intros. apply put_for_turn_graph. Qed.
End stages.

(** ** At work on two shelves *)

Module Shelf.
Record World : Type := mk { objects : gmap string string; claims : gmap string string }.

#[export] Instance has_objects : HasObjects World := {| objects_of := objects; claims_of := claims |}.

#[export] Instance object_store : ObjectStore World := {|
  object_Put k d w := (Ok tt, mk (<[k := d]> (objects w)) (claims w));
  object_Get k w := (match objects w !! k with
                     | Some d => Ok d
                     | None => Err (Sentinel ErrObjectNotFound)
                     end, w) |}.

#[export] Instance claim_bucket : ClaimBucket World := {|
  claims_Create k d w := match claims w !! k with
                         | Some _ => (Err (Sentinel ErrKeyExists), w)
                         | None => (Ok tt, mk (objects w) (<[k := d]> (claims w)))
                         end;
  claims_Get k w := (match claims w !! k with
                     | Some d => Ok d
                     | None => Err (Errorf "key not found" [])
                     end, w) |}.

#[export] Instance laws : ObjectStoreLaws World.
Proof.
  split; intros; unfold wp; cbn.
  - done.
  - destruct (objects w !! k); done.
  - destruct (claims w !! k) eqn:E; cbn; [by split; [|left]|done].
  - destruct (claims w !! k); done.
Qed.

#[export] Instance backend : Backend World := ObjectBackend "content".
#[export] Instance backend_laws : BackendLaws World := object_backend_laws "content".

Definition bar : ascii := "|"%char.

#[export] Instance narration_codec : Codec Narration := {|
  Marshal n := Ok (Join bar [n_TurnID n; n_Band n; n_Prose n]);
  Unmarshal s := match Split bar s with
                 | [t; b; p] => Ok {| n_TurnID := t; n_Band := b; n_Prose := p |}
                 | _ => Err (Errorf "not a narration" [])
                 end |}.

#[export] Instance decision_codec : Codec CompanionDecision := {|
  Marshal d := Ok (Join bar [cmd_DecisionID d; cmd_Kind d]);
  Unmarshal _ := Err (Errorf "write only" []) |}.

Definition narration : Narration :=
  {| n_TurnID := "turn-a1"; n_Band := "partial"; n_Prose := "The lamp gutters, but holds." |}.

Definition turn_entity : string := "acme.semmachina.barrow.case.turn.turn-a1".

Definition quip : CompanionDecision := {|
  cmd_DecisionID := CompanionDecisionID "turn-a1" Demo.player_id Demo.player_id Demo.player_id;
  cmd_TurnID := "turn-a1"; cmd_ContextRef := Demo.player_id; cmd_PlayerID := Demo.player_id;
  cmd_CompanionID := Demo.player_id; cmd_Kind := CompanionDecisionQuip; cmd_HintLevel := EmptyString;
  cmd_EvidenceRefs := []; cmd_TargetRef := EmptyString |}.

Definition empty : World := mk ∅ ∅.
End Shelf.

Import Shelf.

Lemma stored_artifact_reads_back_witness :
  exists ref w1, put TurnNarrationRef SubjectTurn "turn-a1" Shelf.narration Shelf.empty = (Ok ref, w1) /\
  ((get TurnNarrationRef ref w1).1 = Ok Shelf.narration \/
   exists err, (get (A := Narration) TurnNarrationRef ref w1).1 = Err (Errorf "resolve" [err]) /\
               errors_Is ErrObjectNotFound err = false).
Proof.
  eexists _, _. split; [vm_compute; reflexivity|].
  eapply (stored_artifact_reads_back TurnNarrationRef SubjectTurn "turn-a1" Shelf.narration Shelf.empty).
  - vm_compute. reflexivity.
  - intros d [= <-]. vm_compute. reflexivity.
Defined.

Definition shelved : Shelf.World := (put TurnNarrationRef SubjectTurn "turn-a1" Shelf.narration Shelf.empty).2.
Definition narration_ref : Ref := {| Instance_ := "content"; Key := "turn/turn-a1/narration" |}.

Lemma reference_reads_as_one_kind_witness :
  TurnNarrationRef = TurnNarrationRef /\ Instance_ narration_ref = InstanceName (W := Shelf.World) /\
  artifact_Validate Shelf.narration = Ok tt /\ artifact_Validate Shelf.narration = Ok tt.
Proof.
  apply (reference_reads_as_one_kind TurnNarrationRef TurnNarrationRef narration_ref
           Shelf.narration Shelf.narration shelved shelved shelved shelved).
  - apply mem_true. vm_compute. reflexivity.
  - apply mem_true. vm_compute. reflexivity.
  - vm_compute. reflexivity.
  - vm_compute. reflexivity.
Defined.

Definition quipped : Shelf.World := (PutCompanionDecision Shelf.turn_entity (Some Shelf.quip) Shelf.empty).2.
Definition quip_ref : Ref := {| Instance_ := "content"; Key := "turn/turn-a1/companion-decision" |}.

Lemma companion_decision_is_decided_once_witness :
  quip_ref = quip_ref /\ Marshal Shelf.quip = Marshal Shelf.quip /\
  exists bytes, Marshal Shelf.quip = Ok bytes /\ objects_of quipped !! Key quip_ref = Some bytes.
Proof.
  apply (companion_decision_is_decided_once Shelf.turn_entity Shelf.turn_entity Shelf.quip Shelf.quip
           Shelf.empty quipped quipped quipped).
  - vm_compute. reflexivity.
  - reflexivity.
  - vm_compute. reflexivity.
  - reflexivity.
Defined.
