(* ===== verification/CaseflowSpec.v ===== *)
(** What the case machine guarantees: one transition table in three places,
    receipts that ask for an edge in order and once, a progress stage whose
    redelivery changes nothing, and a consumer that moves its turn only along
    the turn FSM. *)

From stdpp Require Import relations.
From S2P Require Import Prelude GoStd GoHash GoErrors Graph Vocab Vocabulary Payload Mechanics Decisions ContentRecords ContentStore ProjectionContract Store Campaign Sequencing RulePack GraphIO Turn Caseflow MemStore TurnSpec TurnTheorems StageSpec RulePackSpec.

Open Scope Z_scope.

(** ** Reading one entity *)

Lemma find_head {A} (f : A -> bool) l : List.find f l = head (List.filter f l).
Proof. induction l as [|x l IH]; cbn; [done|]. by destruct (f x). Qed.

Lemma literal_head e p :
  literal e p = match head (List.filter (own e p) (Triples e)) with
                | Some t => match Object t with AString v => v | _ => EmptyString end
                | None => EmptyString
                end.
Proof. unfold literal. by rewrite find_head. Qed.

(** An entity's own triples for a predicate of a group are found in the group. *)
Lemma own_group e p group :
  p ∈ group -> List.filter (own e p) (Triples e) = List.filter (own e p) (group_triples group (Triples e)).
Proof.
  intros Hp. unfold group_triples. induction (Triples e) as [|t l IH]; cbn; [done|].
  destruct (own e p t) eqn:Ho.
  - assert (Hg : in_group group t = true).
    { unfold own in Ho. apply andb_true_iff in Ho as [_ <-%String.eqb_eq]. unfold in_group. by apply mem_true. }
    rewrite Hg. cbn. by rewrite Ho, IH.
  - destruct (in_group group t); cbn; [by rewrite Ho|done].
Qed.

(** After a reconcile that desires one triple for a predicate, the entity's
    literal is that triple's object. *)
Lemma literal_reconciled group desired e0 e p t v :
  reconciled group desired e0 e -> p ∈ group ->
  List.filter (fun t => String.eqb (Subject t) (ID e0) && String.eqb (Predicate t) p) desired = [t] ->
  Object t = AString v -> literal e p = v.
Proof.
  intros (Hid & _ & Hperm) Hp Hone Hv. rewrite literal_head, (own_group e p group Hp).
  assert (Hf : List.filter (own e p) (group_triples group (Triples e)) = [t]).
  { apply Permutation_singleton_r. rewrite (filter_perm _ _ _ Hperm). unfold own. rewrite Hid. by rewrite Hone. }
  rewrite Hf. cbn. by rewrite Hv.
Qed.

(** A literal of a predicate outside the group is what it was. *)
Lemma literal_reconciled_out group desired e0 e p :
  reconciled group desired e0 e -> p ∉ group -> literal e p = literal e0 p.
Proof.
  intros (Hid & Ho & _) Hp. rewrite !literal_head.
  assert (Hf : forall e, List.filter (own e p) (Triples e) = List.filter (own e p) (other_triples group (Triples e))).
  { clear -Hp. intros e. unfold other_triples. induction (Triples e) as [|t l IH]; cbn; [done|].
    destruct (own e p t) eqn:Ht.
    - assert (Hg : in_group group t = false).
      { unfold own in Ht. apply andb_true_iff in Ht as [_ <-%String.eqb_eq]. unfold in_group. by apply mem_false. }
      rewrite Hg. cbn. by rewrite Ht, IH.
    - destruct (in_group group t); cbn; [done|by rewrite Ht]. }
  rewrite (Hf e), (Hf e0), Ho. unfold own. by rewrite Hid.
Qed.

(** ** The transition table *)

Lemma edgeFor_cases kind from to :
  edgeFor kind = Some (from, to) ->
  exists edge, edge ∈ caseEdges /\ ce_kind edge = kind /\ ce_from edge = from /\ ce_to edge = to.
Proof.
  unfold edgeFor. intros He.
  repeat match type of He with (if String.eqb kind ?k then _ else _) = _ =>
    destruct (String.eqb_spec kind k) as [->|] end; try discriminate;
    injection He as <- <-;
    (eexists (Build_caseEdge _ _ _ _); split; [|split_and!; reflexivity]; unfold caseEdges; repeat first [apply list_elem_of_here|apply list_elem_of_further]).
Qed.

Lemma edgeFor_rank kind from to :
  edgeFor kind = Some (from, to) ->
  kind ∈ enum_values caseLifecycleEventKindEnum /\ kind <> EmptyString /\ from ∈ CasePhases /\ to ∈ CasePhases /\
  phaseRank to = phaseRank from + 1.
Proof.
  intros (edge & Hin & <- & <- & <-)%edgeFor_cases.
  assert (Hall : forallb (fun e => mem (ce_kind e) (enum_values caseLifecycleEventKindEnum) &&
    negb (String.eqb (ce_kind e) EmptyString) && mem (ce_from e) CasePhases && mem (ce_to e) CasePhases &&
    (phaseRank (ce_to e) =? phaseRank (ce_from e) + 1)) caseEdges = true) by (vm_compute; reflexivity).
  rewrite forallb_forall in Hall. specialize (Hall edge (proj1 (list_elem_of_In _ _) Hin)).
  repeat (apply andb_true_iff in Hall as [Hall ?]).
  repeat match goal with H : mem _ _ = true |- _ => apply mem_true in H end.
  split_and!; try done; [|by apply Z.eqb_eq].
  intros He. match goal with H : negb _ = true |- _ => rewrite He in H; done end.
Qed.

(** Ranks tell the case phases apart. *)
Lemma phaseRank_inj p q : p ∈ CasePhases -> phaseRank p = phaseRank q -> p = q.
Proof.
  intros Hp Hr.
  assert (Hall : forallb (fun p => 0 <=? phaseRank p) CasePhases = true) by (vm_compute; reflexivity).
  rewrite forallb_forall in Hall. specialize (Hall p (proj1 (list_elem_of_In _ _) Hp)). apply Z.leb_le in Hall.
  unfold phaseRank, CasePhases, enum_all in *. cbn [enum_values casePhaseEnum newEnum] in *.
  cbn [index_from] in Hr, Hall.
  repeat match type of Hr with context [String.eqb ?a p] => destruct (String.eqb_spec a p) end;
  repeat match type of Hr with context [String.eqb ?a q] => destruct (String.eqb_spec a q) end; subst; try done; lia.
Qed.

Section receipt.
Context {W : Type} `{Substrate, HasGraph W, GraphStore W, Clock W, !GraphStoreLaws W}.
Implicit Types (w : W).

(** The receipt of a request, written at some instant. *)
Definition receipted (request : TransitionRequest) (from to : string) (g g' : graph) : Prop :=
  exists at_, reconcile_effect CaseLifecycleReceipt (tq_CaseEntityID request)
    (receipt_triples request from to at_) g g'.

(** What recording a request does, on every branch. *)
Definition record_post (request : TransitionRequest) (g g' : graph) (r : res ReceiptOutcome) : Prop :=
  match r with
  | Ok o => exists e from to, g !! tq_CaseEntityID request = Some e /\
      edgeFor (tq_Kind request) = Some (from, to) /\ ro_From o = from /\ ro_To o = to /\
      if ro_Recorded o
      then literal e CaseLifecyclePhase = from /\ receipted request from to g g'
      else g' = g /\ (literal e CaseLifecycleEventID = tq_EventID request \/
                      phaseRank from < phaseRank (literal e CaseLifecyclePhase))
  | Err err =>
      (g' = g \/ exists e from to, g !! tq_CaseEntityID request = Some e /\
         edgeFor (tq_Kind request) = Some (from, to) /\ literal e CaseLifecyclePhase = from /\
         receipted request from to g g') /\
      (forall c ev k current required, err = CaseTransitionError c ev k current required ->
         g' = g /\ exists e to, g !! tq_CaseEntityID request = Some e /\
           edgeFor (tq_Kind request) = Some (required, to) /\
           literal e CaseLifecyclePhase = current /\ phaseRank current < phaseRank required)
  end.

Lemma Record_spec request w :
  wp (Record_ request) (fun r w' => record_post request (graph_of w) (graph_of w') r) w.
Proof.
  assert (Hsame : forall err (w' : W), graph_of w' = graph_of w -> (forall c ev k cu re, err <> CaseTransitionError c ev k cu re) ->
    record_post request (graph_of w) (graph_of w') (Err err)).
  { intros err w' Hg Hne. split; [by left|]. intros ????? ->. by edestruct Hne. }
  unfold Record_. destruct (String.eqb _ _); [by apply wp_throw, Hsame|].
  destruct (String.eqb _ _); [by apply wp_throw, Hsame|].
  destruct (edgeFor (tq_Kind request)) as [[from to]|] eqn:He.
  2: { destruct (ParseCaseLifecycleEventKind _); by apply wp_throw, Hsame. }
  apply wp_get. intros [e|err] w1 Hg Hr; [|by apply wp_throw, Hsame].
  destruct (String.eqb_spec (literal e CaseLifecycleEventID) (tq_EventID request)) as [Hev|_].
  { apply wp_ret. exists e, from, to. cbn. rewrite Hg. split_and!; try done. by left. }
  apply wp_lift_bind.
  2: { intros err Hp. apply Hsame; [done|]. intros ????? ->. destruct (ParseCasePhase _); discriminate Hp. }
  intros current Hcur%wrapf_ok. apply enum_parse_ok in Hcur as [-> Hcur].
  destruct (Z.ltb_spec (phaseRank from) (phaseRank (literal e CaseLifecyclePhase))) as [Hlt|Hle].
  { apply wp_ret. exists e, from, to. cbn. rewrite Hg. split_and!; try done. by right. }
  destruct (Z.ltb_spec (phaseRank (literal e CaseLifecyclePhase)) (phaseRank from)) as [Hlt|Hge].
  { apply wp_throw. rewrite Hg. split; [by left|]. intros c ev k cu re [= <- <- <- <- <-]. split; [done|].
    exists e, to. done. }
  assert (Hphase : literal e CaseLifecyclePhase = from) by (apply phaseRank_inj; [done|lia]).
  apply wp_clock. intros t w2 Hg2. apply wp_bind, wp_attempt. eapply wp_mono; [apply Reconcile_spec|].
  rewrite Hg2, Hg. intros [e'|err] w3 Hw.
  - apply wp_ret. exists e, from, to. cbn. split_and!; try done. exists t. apply Hw.
  - apply wp_throw. split.
    + destruct Hw as [->|Hw]; [by left|right]. exists e, from, to. split_and!; try done. by exists t.
    + by intros.
Qed.

(** A receipt touches the case it is about, in the receipt group, and no phase. *)
Lemma receipted_frame request from to g g' :
  receipted request from to g g' ->
  keeps CaseLifecyclePhase g g' /\ (forall id, id <> tq_CaseEntityID request -> g' !! id = g !! id).
Proof.
  intros [at_ He]. split.
  - eapply reconcile_keeps; [exact He|]. not_in_target.
  - intros id Hne. by eapply reconcile_other.
Qed.

(** What the case entity states of the four receipt predicates. *)
Lemma receipted_literals request from to g g' e0 :
  receipted request from to g g' -> g !! tq_CaseEntityID request = Some e0 -> ID e0 = tq_CaseEntityID request ->
  exists e, g' !! tq_CaseEntityID request = Some e /\ ID e = ID e0 /\
    literal e CaseLifecycleEventID = tq_EventID request /\
    literal e CaseLifecyclePhase = literal e0 CaseLifecyclePhase /\
    objectsFor e CaseLifecycleEventKindPredicate = [AString (tq_Kind request)].
Proof.
  intros (at_ & e1 & e & Hg & Hr & ->) Hg0 Hid. assert (e1 = e0) as -> by congruence. exists e.
  rewrite lookup_insert_eq. split; [done|]. split; [apply Hr|]. split_and!.
  - eapply (literal_reconciled _ _ e0 e CaseLifecycleEventID
      (receiptTriple (tq_CaseEntityID request) CaseLifecycleEventID (tq_EventID request) at_)).
    + exact Hr.
    + in_target.
    + unfold receipt_triples. cbn [List.filter Subject Predicate receiptTriple]. rewrite Hid, String.eqb_refl. done.
    + done.
  - eapply literal_reconciled_out; [exact Hr|not_in_target].
  - apply elem_objects. rewrite (reconciled_in _ _ _ _ CaseLifecycleEventKindPredicate Hr); [done|in_target].
Qed.
End receipt.

Lemma edgeFor_edges edge : edge ∈ caseEdges -> edgeFor (ce_kind edge) = Some (ce_from edge, ce_to edge).
Proof.
  intros Hin. assert (Hall : forallb (fun e => bool_decide (edgeFor (ce_kind e) = Some (ce_from e, ce_to e)))
    caseEdges = true) by (vm_compute; reflexivity).
  rewrite forallb_forall in Hall. specialize (Hall edge (proj1 (list_elem_of_In _ _) Hin)).
  by rewrite bool_decide_eq_true in Hall.
Qed.

Lemma Workflow_edges edge : edge ∈ caseEdges -> wf_Transitions Workflow !! ce_from edge = Some [ce_to edge].
Proof.
  intros Hin. assert (Hall : forallb (fun e => bool_decide (wf_Transitions Workflow !! ce_from e = Some [ce_to e]))
    caseEdges = true) by (vm_compute; reflexivity).
  rewrite forallb_forall in Hall. specialize (Hall edge (proj1 (list_elem_of_In _ _) Hin)).
  by rewrite bool_decide_eq_true in Hall.
Qed.

Lemma Workflow_next from next to :
  wf_Transitions Workflow !! from = Some next -> to ∈ next ->
  exists edge, edge ∈ caseEdges /\ ce_from edge = from /\ ce_to edge = to.
Proof.
  intros Hl Hin.
  assert (Hall : map_Forall (fun from next => Forall (fun to => existsb (fun e =>
    String.eqb (ce_from e) from && String.eqb (ce_to e) to) caseEdges = true) next) (wf_Transitions Workflow)).
  { apply map_Forall_to_list. vm_compute. repeat constructor. }
  pose proof (proj1 (Forall_forall _ _) (Hall from next Hl) to Hin) as Hex.
  apply existsb_exists in Hex as (edge & Hedge & Hm).
  apply andb_true_iff in Hm as [<-%String.eqb_eq <-%String.eqb_eq]. exists edge. by rewrite list_elem_of_In.
Qed.

(** ** The guarantees of receipts *)

(** The case machine is one machine, written down three times: the declared
    workflow's transitions, the edges receipts may ask for, and the edges the
    generated lifecycle rules fire on are the same; every lifecycle event asks
    for exactly one edge, and each edge leads to the next phase. *)
Theorem case_machine_is_one :
  (forall from to,
     (exists next, wf_Transitions Workflow !! from = Some next /\ to ∈ next) <->
     (exists kind, edgeFor kind = Some (from, to))) /\
  (forall kind from to, edgeFor kind = Some (from, to) <->
     exists edge, edge ∈ caseEdges /\ ce_kind edge = kind /\ ce_from edge = from /\ ce_to edge = to) /\
  (forall kind, kind ∈ enum_values caseLifecycleEventKindEnum <-> is_Some (edgeFor kind)) /\
  (forall kind from to, edgeFor kind = Some (from, to) -> phaseRank to = phaseRank from + 1).
Proof.
  split_and!.
  - intros from to. split.
    + intros (next & Hl & Hin). destruct (Workflow_next _ _ _ Hl Hin) as (edge & Hedge & <- & <-).
      exists (ce_kind edge). by apply edgeFor_edges.
    + intros (kind & (edge & Hin & _ & <- & <-)%edgeFor_cases). exists [ce_to edge]. split; [by apply Workflow_edges|left].
  - intros kind from to. split; [apply edgeFor_cases|]. intros (edge & Hin & <- & <- & <-). by apply edgeFor_edges.
  - intros kind. split; [|by intros [[from to] [Hin _]%edgeFor_rank]].
    cbn [enum_values caseLifecycleEventKindEnum newEnum].
    rewrite !elem_of_cons. intros Hk.
    repeat (destruct Hk as [->|Hk]; [eexists; vm_compute; reflexivity|]). by apply elem_of_nil in Hk.
  - intros kind from to He. by destruct (edgeFor_rank _ _ _ He) as (_ & _ & _ & _ & Hr).
Qed.

Section guarantees.
Context {W : Type} `{Substrate, HasGraph W, GraphStore W, Clock W, !GraphStoreLaws W}.

(** The phase a case is in, when it records exactly one. *)
Definition case_in_phase (g : graph) (case phase : string) : Prop :=
  objects_in g case CaseLifecyclePhase = Some [AString phase].

Definition case_moves (p q : string) : Prop := exists edge, edge ∈ caseEdges /\ ce_from edge = p /\ ce_to edge = q.

(** The receipt on the case asks for the edge. *)
Definition asked_for (g : graph) (case : string) (edge : caseEdge) : Prop :=
  exists e, g !! case = Some e /\ AString (ce_kind edge) ∈ objectsFor e CaseLifecycleEventKindPredicate /\
    AString (ce_from edge) ∈ objectsFor e CaseLifecycleFromPhase /\ AString (ce_to edge) ∈ objectsFor e CaseLifecycleToPhase.

Context `{RuleEngine, !RuleEngineLaws}.

(** What upstream does with a lifecycle rule that fires on the case: it takes
    the case into the phase its action names. *)
Definition lifecycle_fires (case : string) (g g' : graph) : Prop :=
  exists edge before e a, edge ∈ caseEdges /\ g !! case = Some e /\ fires (case_rule edge) before e = true /\
    a ∈ actions_of (case_rule edge) /\ case_in_phase g' case (ac_Phase a).

(** What happens to a case: an event is recorded, on it or on another, a
    lifecycle rule fires, or something else happens that is no write of its phase. *)
Inductive case_step (case : string) (w w' : W) : Prop :=
| step_record request r : Record_ request w = (r, w') -> case_step case w w'
| step_fire : lifecycle_fires case (graph_of w) (graph_of w') -> case_step case w w'
| step_elsewhere : objects_in (graph_of w') case CaseLifecyclePhase = objects_in (graph_of w) case CaseLifecyclePhase ->
    case_step case w w'.

Lemma Record_frame request (w : W) r w' : Record_ request w = (r, w') ->
  record_post request (graph_of w) (graph_of w') r /\
  keeps CaseLifecyclePhase (graph_of w) (graph_of w') /\
  (forall id, id <> tq_CaseEntityID request -> graph_of w' !! id = graph_of w !! id).
Proof.
  intros Hrun. pose proof (wp_elim _ _ _ _ _ (Record_spec request w) Hrun) as Hpost. split; [done|].
  destruct r as [o|err]; cbn in Hpost.
  - destruct Hpost as (e & from & to & _ & _ & _ & _ & Hr). destruct (ro_Recorded o).
    + exact (receipted_frame _ _ _ _ _ (proj2 Hr)).
    + destruct Hr as [-> _]. done.
  - destruct Hpost as [[->|(e & from & to & _ & _ & _ & Hr)] _]; [done|]. exact (receipted_frame _ _ _ _ _ Hr).
Qed.

(** A lifecycle rule fires only on a case at the start of its edge whose
    receipt asks for that edge, and takes it to the end of it. *)
Lemma lifecycle_fires_edge case g g' p : lifecycle_fires case g g' -> case_in_phase g case p ->
  exists edge, edge ∈ caseEdges /\ asked_for g case edge /\ ce_from edge = p /\ case_in_phase g' case (ce_to edge).
Proof.
  intros (edge & before & e & a & Hedge & He & Hf & Ha & Hphase) Hp. exists edge. split; [done|].
  assert (Hval : forall c v, c ∈ rd_Conditions (case_rule edge) -> cd_Operator c = "eq"%string -> cd_Value c = VText v ->
    AString v ∈ objectsFor e (cd_Field c)).
  { intros c v Hc Ho Hv. by apply (fires_value (case_rule edge) before); [..|left|]. }
  split_and!.
  - exists e. split; [done|]. split_and!.
    + apply (Hval (when CaseLifecycleEventKindPredicate "eq" (VText (ce_kind edge)))); [|done|done]. cbn. do 2 right. left.
    + apply (Hval (when CaseLifecycleFromPhase "eq" (VText (ce_from edge)))); [|done|done]. cbn. do 3 right. left.
    + apply (Hval (when CaseLifecycleToPhase "eq" (VText (ce_to edge)))); [|done|done]. cbn. do 4 right. left.
  - specialize (Hval (when CaseLifecyclePhase "eq" (VText (ce_from edge))) (ce_from edge)).
    unfold case_in_phase, objects_in in Hp. rewrite He in Hp. injection Hp as Hp.
    change (cd_Field (when CaseLifecyclePhase "eq" (VText (ce_from edge)))) with CaseLifecyclePhase in Hval. rewrite Hp in Hval. by specialize (Hval ltac:(left) eq_refl eq_refl) as [= ->]%list_elem_of_singleton.
  - cbn in Ha. by closed_cases Ha.
Qed.

(** C10: a case moves along the edges of the case machine only, and only on a
    receipt that asks for the edge. Whatever the store does, recording an event
    writes either nothing or the one receipt of the event's edge, and only when
    the case is at the start of that edge; an event the case has already
    consumed or passed writes nothing and is no error; one it has not reached
    yet is refused with the two phases; and the phase itself is never written
    by it. The generated lifecycle rules move it: one that fires on a case does
    so at the start of its own edge, on a receipt that asks for exactly that
    edge, and takes the case to its end. So over any run of recordings, firings
    and writes of other facts, the phases a case goes through follow the edges
    of the machine. *)
Theorem receipts_follow_the_case_machine case (w : W) p (Hp : case_in_phase (graph_of w) case p) :
  (forall request r w', Record_ request w = (r, w') ->
     record_post request (graph_of w) (graph_of w') r /\
     keeps CaseLifecyclePhase (graph_of w) (graph_of w') /\
     (forall id, id <> tq_CaseEntityID request -> graph_of w' !! id = graph_of w !! id)) /\
  (forall g', lifecycle_fires case (graph_of w) g' ->
     exists edge, edge ∈ caseEdges /\ asked_for (graph_of w) case edge /\ ce_from edge = p /\
       case_in_phase g' case (ce_to edge)) /\
  (forall w', rtc (case_step case) w w' -> exists q, case_in_phase (graph_of w') case q /\ rtc case_moves p q).
Proof.
  assert (Hkept : forall request r (w1 w2 : W) q, Record_ request w1 = (r, w2) -> case_in_phase (graph_of w1) case q ->
    case_in_phase (graph_of w2) case q).
  { intros request r w1 w2 q Hrun Hq. destruct (Record_frame _ _ _ _ Hrun) as (_ & Hk & _). unfold case_in_phase. by rewrite Hk. }
  split_and!.
  - intros request r w' Hrun. by apply Record_frame.
  - intros g' Hf. by eapply lifecycle_fires_edge.
  - intros w' Hrun. revert p Hp. induction Hrun as [w1|w1 w2 w3 Hstep _ IH]; intros p Hp; [by exists p|].
    destruct Hstep as [request r Hrec|Hf|Hsame].
    + apply IH. by eapply Hkept.
    + destruct (lifecycle_fires_edge _ _ _ _ Hf Hp) as (edge & Hedge & _ & <- & Hto).
      destruct (IH _ Hto) as (q & Hq & Hmoves). exists q. split; [done|]. eapply rtc_l; [|exact Hmoves]. by exists edge.
    + apply IH. unfold case_in_phase. by rewrite Hsame.
Qed.

(** An event is recorded at most once. After a recorded receipt, the same
    request made again writes nothing, whatever else happened to the world but
    the graph: it reports the same edge as not recorded, or that it could not
    read the case. *)
Theorem receipt_is_recorded_once request (w w1 w2 w3 : W) o r
    (Hown : forall id e, graph_of w !! id = Some e -> ID e = id)
    (Hfirst : Record_ request w = (Ok o, w1)) (Hrec : ro_Recorded o = true)
    (Hsame : graph_of w2 = graph_of w1) (Hagain : Record_ request w2 = (r, w3)) :
  graph_of w3 = graph_of w1 /\
  (r = Ok {| ro_Recorded := false; ro_From := ro_From o; ro_To := ro_To o |} \/
   exists err, r = Err (Errorf "read case before recording event" [err])).
Proof.
  pose proof (wp_elim _ _ _ _ _ (Record_spec request w) Hfirst) as (e0 & from & to & Hg & Hedge & Hf & Ht & Hp).
  rewrite Hrec in Hp. destruct Hp as [_ Hp].
  destruct (receipted_literals _ _ _ _ _ _ Hp Hg (Hown _ _ Hg)) as (e & Hg1 & _ & Hev & _).
  assert (Hcase : tq_CaseEntityID request <> EmptyString /\ tq_EventID request <> EmptyString).
  { unfold Record_ in Hfirst. destruct (String.eqb_spec (tq_CaseEntityID request) EmptyString); [discriminate|].
    destruct (String.eqb_spec (tq_EventID request) EmptyString); [discriminate|]. done. }
  destruct Hcase as [Hc He].
  assert (Hwp : wp (Record_ request) (fun r w' => graph_of w' = graph_of w1 /\
    (r = Ok {| ro_Recorded := false; ro_From := ro_From o; ro_To := ro_To o |} \/
     exists err, r = Err (Errorf "read case before recording event" [err]))) w2).
  { unfold Record_. rewrite (proj2 (String.eqb_neq _ _) Hc), (proj2 (String.eqb_neq _ _) He), Hedge.
    apply wp_get. intros [e'|err] w4 Hg4 Hr.
    - assert (e' = e) as -> by (rewrite Hsame in Hr; congruence). rewrite Hev, String.eqb_refl. apply wp_ret.
      split; [congruence|]. left. by subst.
    - apply wp_throw. split; [congruence|]. right. by exists err. }
  exact (wp_elim _ _ _ _ _ Hwp Hagain).
Qed.

(** What a recorded receipt sets in motion is its own edge: on a case that
    carries one, no lifecycle rule fires but the one built for the request's
    kind of event, and its one action moves the case to the phase the receipt
    names. *)
Theorem receipt_fires_only_its_edge request (w w' : W) o e before edge
    (Hrun : Record_ request w = (Ok o, w')) (Hrec : ro_Recorded o = true)
    (Hown : forall id e, graph_of w !! id = Some e -> ID e = id)
    (He : graph_of w' !! tq_CaseEntityID request = Some e)
    (Hedge : edge ∈ caseEdges) (Hfires : fires (case_rule edge) before e = true) :
  ce_kind edge = tq_Kind request /\ ce_from edge = ro_From o /\ ce_to edge = ro_To o /\
  Forall (fun a => ac_Phase a = ro_To o) (actions_of (case_rule edge)).
Proof.
  pose proof (wp_elim _ _ _ _ _ (Record_spec request w) Hrun) as (e0 & from & to & Hg & Hkind & Hf & Ht & Hp).
  rewrite Hrec in Hp. destruct Hp as [_ Hp].
  destruct (receipted_literals _ _ _ _ _ _ Hp Hg (Hown _ _ Hg)) as (e' & Hg1 & _ & _ & _ & Hobj).
  assert (e' = e) as -> by congruence.
  assert (Hk : AString (ce_kind edge) ∈ objectsFor e CaseLifecycleEventKindPredicate).
  { eapply (fires_value (case_rule edge) before e (when CaseLifecycleEventKindPredicate "eq" (VText (ce_kind edge))));
      [done|done| |by left|done].
    cbn. do 2 apply list_elem_of_further. apply list_elem_of_here. }
  rewrite Hobj in Hk. apply list_elem_of_singleton in Hk. injection Hk as Hk.
  pose proof (edgeFor_edges edge Hedge) as Hpair. rewrite Hk, Hkind in Hpair. injection Hpair as Hfrom Hto. subst.
  split_and!; [done..|]. cbn. repeat constructor; done.
Qed.
End guarantees.

(** ** Progress *)

(** Reading and writing artifacts leaves the graph alone. *)
Class CaseArtifactsLaws (W : Type) `{HasGraph W, CaseArtifacts W} : Prop := {
  GetCaseDecisionRecord_graph ref w : graph_of (artifacts_GetCaseDecisionRecord ref w).2 = graph_of w;
  GetKnowledgeReceipt_graph ref w : graph_of (artifacts_GetKnowledgeReceipt ref w).2 = graph_of w;
  PutKnowledgeReceipt_graph turn receipt w : graph_of (artifacts_PutKnowledgeReceipt turn receipt w).2 = graph_of w;
  PutTestimony_graph id testimony w : graph_of (artifacts_PutTestimony id testimony w).2 = graph_of w;
  GetCaseProgressRecord_graph ref w : graph_of (artifacts_GetCaseProgressRecord ref w).2 = graph_of w;
  PutCaseProgressRecord_graph turn record w : graph_of (artifacts_PutCaseProgressRecord turn record w).2 = graph_of w;
  GetAccusationRecord_graph ref w : graph_of (artifacts_GetAccusationRecord ref w).2 = graph_of w;
  PutAccusationRecord_graph turn record w : graph_of (artifacts_PutAccusationRecord turn record w).2 = graph_of w;
  artifacts_PutFailureDetail_graph turn detail w : graph_of (artifacts_PutFailureDetail turn detail w).2 = graph_of w
}.

Section ends.
Context {W : Type} `{Substrate, HasGraph W, GraphStore W, Clock W, ActionStore W}.
Context `{!GraphStoreLaws W, !ActionStoreLaws W, !VocabularyLaws}.
Implicit Types (w : W).

Lemma classify_to_failed p o :
  p ∈ enum_values turnPhaseEnum -> classify p PhaseFailed = (o, EmptyString) -> o = OutcomeAdvanced \/ IsTerminal p = true.
Proof.
  intros Hp Hc.
  assert (Hall : forallb (fun p => String.eqb (classify p PhaseFailed).1 OutcomeAdvanced || IsTerminal p)
    (enum_values turnPhaseEnum) = true) by (vm_compute; reflexivity).
  rewrite forallb_forall in Hall. specialize (Hall p (proj1 (list_elem_of_In _ _) Hp)).
  rewrite Hc in Hall. apply orb_true_iff in Hall as [Ha%String.eqb_eq|?]; [by left|by right].
Qed.

(** The turn is over, whichever way it ended. *)
Definition turn_over (g : graph) (turn : string) : Prop :=
  exists p, phase_in g turn = Some p /\ IsTerminal p = true.

(** A failure that returned left the turn over. *)
Lemma Fail_ends turnID turn reason detail w :
  wp (Fail_ turnID turn reason detail) (fun r w' =>
    (forall id, turn_moves (graph_of w) (graph_of w') id) /\
    match r with Ok _ => turn_over (graph_of w') turn | Err _ => True end) w.
Proof.
  eapply wp_mono; [apply Fail_spec|]. intros [tr|err] w' [Hm Hpost]; (split; [done|]); [|done].
  destruct Hpost as (_ & Hprev & Hphase & Hc & Hadv & Hstill). exists (Phase tr). split; [done|].
  destruct (classify_to_failed _ _ (phase_in_known _ _ _ Hprev) Hc) as [Ha|Ht].
  - by destruct (Hadv Ha) as [-> _].
  - destruct (decide (Outcome tr = OutcomeAdvanced)) as [Ha|Hn]; [by destruct (Hadv Ha) as [-> _]|].
    by destruct (Hstill Hn) as [_ ->].
Qed.
End ends.

Section progress.
Context {W : Type} `{Substrate, HasGraph W, GraphStore W, Clock W, CaseArtifacts W}.
Context `{!GraphStoreLaws W, !CaseArtifactsLaws W}.
Implicit Types (w : W).

(** A call that only reads the graph. *)
Definition reading {A} (m : MW W A) : Prop := forall w, graph_of (m w).2 = graph_of w.

Lemma reading_bind {A B} (m : MW W A) (k : A -> MW W B) :
  reading m -> (forall a, reading (k a)) -> reading (m ≫= k).
Proof.
  intros Hm Hk w. unfold mbind, M_bind. specialize (Hm w). destruct (m w) as [[a|e] w1]; cbn in *; [|done].
  by rewrite Hk.
Qed.
Lemma reading_attempt {A} (m : MW W A) : reading m -> reading (attempt m).
Proof. intros Hm w. unfold attempt. specialize (Hm w). by destruct (m w). Qed.
Lemma reading_lift {A} (r : res A) : reading (lift r).
Proof. by intros w. Qed.
Lemma reading_ret {A} (a : A) : reading (mret a).
Proof. by intros w. Qed.
Lemma reading_throw {A} (e : error) : reading (throw (A := A) e).
Proof. by intros w. Qed.
Lemma reading_get id : reading (GetEntity id).
Proof. intros w. apply (GetEntity_spec id w). Qed.

Lemma event_of_reading decision : reading (event_of decision).
Proof.
  unfold event_of. destruct (String.eqb _ _); [|destruct (String.eqb _ _); apply reading_ret].
  apply reading_bind; [apply reading_attempt, reading_get|]. intros [e|err].
  - destruct (negb _); [apply reading_throw|]. apply reading_bind; [apply reading_lift|].
    intros [|v [|]]; [apply reading_throw|apply reading_ret|apply reading_throw].
  - destruct (errors_Is _ _); apply reading_throw.
Qed.

Lemma derive_reading record knowledge : reading (derive record knowledge).
Proof.
  unfold derive. destruct (String.eqb _ _).
  { destruct (negb _); [apply reading_throw|apply reading_ret]. }
  destruct (cdr_Decision record); [|apply reading_throw]. destruct (_ || _); [apply reading_throw|].
  apply reading_bind; [apply event_of_reading|]. intros kind. destruct (String.eqb _ _); apply reading_ret.
Qed.

Lemma read_artifacts_reading turnID state : reading (read_artifacts turnID state).
Proof.
  unfold read_artifacts.
  apply reading_bind; [apply reading_lift|]. intros dref. apply reading_bind; [apply reading_lift|]. intros kref.
  apply reading_bind; [apply reading_attempt; intros w; apply GetCaseDecisionRecord_graph|]. intros dr.
  apply reading_bind; [apply reading_lift|]. intros d.
  apply reading_bind; [apply reading_attempt; intros w; apply GetKnowledgeReceipt_graph|]. intros kr.
  apply reading_bind; [apply reading_lift|]. intros k. destruct d, k; try apply reading_throw.
  do 2 (apply reading_bind; [apply reading_lift|]; intros _). destruct (_ || _); [apply reading_throw|apply reading_ret].
Qed.

(** The plan only reads; its resident references are the turn's own. *)
Lemma plan_progress_spec turnID turn w :
  wp (plan_progress turnID turn) (fun r w' => graph_of w' = graph_of w /\
    match r with
    | Ok plan => exists e, graph_of w !! turn = Some e /\ ID e = turn /\
        progress_objects e TurnCaseProgressRef = Ok (pp_resident plan)
    | Err _ => True
    end) w.
Proof.
  unfold plan_progress. apply wp_lift_bind; [|done]. intros _ _. apply wp_get. intros [e|err] w1 Hg He.
  2: { destruct (errors_Is _ _); by apply wp_throw. }
  destruct (String.eqb_spec (ID e) turn) as [Hid|]; cbn [negb]; [|by apply wp_throw].
  apply wp_lift_bind; [|done]. intros resident Hres.
  apply wp_bind. pose proof (read_artifacts_reading turnID e w1) as Hread. unfold wp at 1.
  destruct (read_artifacts turnID e w1) as [[a|err] w2]; cbn [fst snd] in *; [|by rewrite Hread].
  apply wp_bind. pose proof (derive_reading a.1 a.2 w2) as Hd. unfold wp at 1.
  destruct (derive a.1 a.2 w2) as [[d|err] w3]; cbn [fst snd] in *; [|split; [congruence|done]].
  apply wp_ret. split; [congruence|]. exists e. split_and!; [done..|]. cbn.
  by destruct (progress_objects e TurnCaseProgressRef) as [l|]; [injection Hres as ->|].
Qed.

Lemma confirm_resident_reading turnID plan : reading (confirm_resident turnID plan).
Proof.
  unfold confirm_resident. destruct (pp_resident plan) as [|v [|]]; [apply reading_throw| |apply reading_throw].
  apply reading_bind; [apply reading_lift|]. intros ref.
  apply reading_bind; [apply reading_attempt; intros w; apply GetCaseProgressRecord_graph|]. intros r.
  apply reading_bind; [apply reading_lift|]. intros [record|]; [|apply reading_throw].
  apply reading_bind; [apply reading_lift|]. intros _. destruct (negb _); [apply reading_throw|apply reading_ret].
Qed.

(** What committing writes: at most one receipt, then at most the turn's
    reference, and the reference only after the receipt's call succeeded. *)
Definition progress_writes (turn : string) (event : option TransitionRequest) (g g' : graph) : Prop :=
  g' = g \/
  (exists request r, event = Some request /\ record_post request g g' r) \/
  (exists g1 ref at_,
     match event with None => g1 = g | Some request => exists o, record_post request g g1 (Ok o) end /\
     reconcile_effect TurnCaseProgress turn [receiptTriple turn TurnCaseProgressRef (Ref_String ref) at_] g1 g').

(** The reference is on the turn, by a write of its group. *)
Definition landed (turn : string) (ref : Ref) (g' : graph) : Prop :=
  objects_in g' turn TurnCaseProgressRef = Some [AString (Ref_String ref)] /\
  exists g1 at_, reconcile_effect TurnCaseProgress turn
    [receiptTriple turn TurnCaseProgressRef (Ref_String ref) at_] g1 g'.

Lemma commit_progress_spec turn plan w :
  wp (commit_progress turn plan) (fun r w' =>
    progress_writes turn (pp_event plan) (graph_of w) (graph_of w') /\
    match r with
    | Ok ref => landed turn ref (graph_of w')
    | Err _ => True
    end) w.
Proof.
  unfold commit_progress. apply wp_bind.
  assert (Hev : wp (match pp_event plan with
      | None => mret tt
      | Some event =>
          recorded ← attempt (Record_ event);
          match recorded with
          | Ok _ => mret tt
          | Err err =>
              if errors_As_b is_CaseTransitionError err || errors_Is ErrEntityNotFound err then
                throw (PermanentProgressError (Errorf "record deterministic case progress" [err]))
              else throw (Errorf "record deterministic case progress" [err])
          end
      end) (fun r w1 => match r with
      | Ok _ => match pp_event plan with None => graph_of w1 = graph_of w
                | Some request => exists o, record_post request (graph_of w) (graph_of w1) (Ok o) end
      | Err _ => progress_writes turn (pp_event plan) (graph_of w) (graph_of w1)
      end) w).
  { destruct (pp_event plan) as [event|]; [|by apply wp_ret].
    apply wp_bind, wp_attempt. eapply wp_mono; [apply Record_spec|]. intros [o|err] w1 Hr.
    - apply wp_ret. by exists o.
    - destruct (_ || _); apply wp_throw; right; left; exists event, (Err err); done. }
  eapply wp_mono; [exact Hev|]. clear Hev. intros [u|err] w1 Hr; [|done].
  assert (Hstop : progress_writes turn (pp_event plan) (graph_of w) (graph_of w1)).
  { destruct (pp_event plan) as [event|]; [|by left]. destruct Hr as [o Hr]. right. left. by exists event, (Ok o). }
  apply wp_artifact; [intros; apply PutCaseProgressRecord_graph|]. intros stored w2 Hg2.
  apply wp_lift_bind; [|by rewrite Hg2]. intros ref _. apply wp_clock. intros t w3 Hg3.
  apply wp_bind, wp_attempt. eapply wp_mono; [apply Reconcile_spec|]. rewrite Hg3, Hg2. intros [e|err] w4 Hw.
  - apply wp_ret. destruct Hw as [He _]. split; [right; right; by exists (graph_of w1), ref, t|].
    split; [|by exists (graph_of w1), t]. eapply reconcile_single; [exact He|in_target|]. done.
  - apply wp_throw. split; [|done]. destruct Hw as [->|He]; [done|]. right. right. by exists (graph_of w1), ref, t.
Qed.

Lemma progress_writes_frame turn event g g' p :
  progress_writes turn event g g' -> p ∉ Predicates CaseLifecycleReceipt -> p <> TurnCaseProgressRef -> keeps p g g'.
Proof.
  intros Hw Hp Hne.
  assert (Hrec : forall request g1 r, record_post request g g1 r -> keeps p g g1).
  { intros request g1 [o|err].
    - intros (e & from & to & _ & _ & _ & _ & Hr). destruct (ro_Recorded o); [|by destruct Hr as [-> _]].
      destruct Hr as [_ [t Hr]]. by eapply reconcile_keeps.
    - intros [[->|(e & from & to & _ & _ & _ & t & Hr)] _]; [done|]. by eapply reconcile_keeps. }
  destruct Hw as [->|[(request & r & _ & Hr)|(g1 & ref & t & Hg1 & Hr)]]; [done|by eapply Hrec|].
  assert (Hk : keeps p g1 g').
  { eapply reconcile_keeps; [exact Hr|]. autorewrite with contracts. set_solver. }
  destruct event as [request|]; [destruct Hg1 as [o Hg1]|subst; done].
  etransitivity; [by eapply Hrec|done].
Qed.

(** Everything a delivery may do to the graph. *)
Definition progress_post (turn : string) (g g' : graph) (r : res Ref) : Prop :=
  (exists event, progress_writes turn event g g') /\
  (forall e l, g !! turn = Some e -> progress_objects e TurnCaseProgressRef = Ok l -> l <> [] -> g' = g) /\
  match r with
  | Ok ref => (exists e l, g !! turn = Some e /\ progress_objects e TurnCaseProgressRef = Ok l /\ l <> []) \/
              landed turn ref g'
  | Err _ => True
  end.

Lemma Process_spec turnID turn w :
  wp (Process turnID turn) (fun r w' => progress_post turn (graph_of w) (graph_of w') r) w.
Proof.
  unfold Process. apply wp_bind. eapply wp_mono; [apply plan_progress_spec|].
  assert (Hnone : forall g, exists event, progress_writes turn event g g) by (intros g; exists None; by left).
  intros [plan|err] w1 [Hg Hp]; [|rewrite Hg; by split_and!].
  destruct Hp as (e & He & _ & Hres). destruct (pp_resident plan) as [|v l] eqn:Hpl; cbn [List.length Nat.ltb Nat.leb].
  - eapply wp_mono; [apply commit_progress_spec|]. rewrite Hg. intros r w2 [Hw Hr]. split_and!.
    + by exists (pp_event plan).
    + intros e' l' He' Hl'. assert (l' = []) as -> by congruence. done.
    + destruct r; [by right|done].
  - pose proof (confirm_resident_reading turnID plan w1) as Hc. unfold wp. rewrite Hc, Hg. split_and!; [done..|].
    destruct (confirm_resident turnID plan w1).1; [left; by exists e, (v :: l)|done].
Qed.
End progress.

(** ** Programs that leave a predicate alone *)

Create HintDb steady.

Section steady.
Context {W : Type} `{Substrate, HasGraph W, GraphStore W, Clock W, !GraphStoreLaws W}.
Implicit Types (w : W).

(** Whatever happens, no entity's values of the predicate change. *)
Definition steady (p : string) {A} (m : MW W A) : Prop := forall w, keeps p (graph_of w) (graph_of (m w).2).

Lemma steady_reading p {A} (m : MW W A) : reading m -> steady p m.
Proof. intros Hm w id. by rewrite Hm. Qed.

Lemma steady_bind p {A B} (m : MW W A) (k : A -> MW W B) : steady p m -> (forall a, steady p (k a)) -> steady p (m ≫= k).
Proof.
  intros Hm Hk w. specialize (Hm w). unfold mbind, M_bind. destruct (m w) as [[a|e] w1]; cbn in *; [|done].
  by etrans; [|apply Hk].
Qed.

Lemma steady_attempt p {A} (m : MW W A) : steady p m -> steady p (attempt m).
Proof. intros Hm w. specialize (Hm w). unfold attempt. by destruct (m w). Qed.

Lemma wp_steady p {A} (m : MW W A) w : steady p m -> wp m (fun _ w' => keeps p (graph_of w) (graph_of w')) w.
Proof. intros Hm. apply Hm. Qed.

Lemma wp_both {A} (m : MW W A) (P Q : res A -> W -> Prop) w : wp m P w -> wp m Q w -> wp m (fun r w' => P r w' /\ Q r w') w.
Proof. by split. Qed.

Lemma steady_clock p : steady p read_clock.
Proof. apply steady_reading. intros w. pose proof (now_spec w). unfold read_clock. by destruct (now w). Qed.

Lemma steady_Reconcile p target id desired : p ∉ Predicates target -> steady p (Reconcile target id desired).
Proof.
  intros Hp w. pose proof (Reconcile_spec target id desired w) as Hr. unfold wp in Hr.
  destruct (Reconcile target id desired w) as [[e|err] w']; cbn [fst snd] in *.
  - by eapply reconcile_keeps; [apply Hr|].
  - destruct Hr as [->|He]; [done|]. by eapply reconcile_keeps.
Qed.

End steady.

(** [steadily] walks a program down to its calls. *)
Ltac steadily :=
  repeat first
    [ solve [auto with steady]
    | apply steady_bind; [|intros ?]
    | apply steady_attempt
    | match goal with |- steady _ (match ?x with _ => _ end) => destruct x end ].

#[export] Hint Extern 1 (steady _ (mret _)) => apply steady_reading, reading_ret : steady.
#[export] Hint Extern 1 (steady _ (throw _)) => apply steady_reading, reading_throw : steady.
#[export] Hint Extern 1 (steady _ (lift _)) => apply steady_reading, reading_lift : steady.
#[export] Hint Extern 1 (steady _ (GetEntity _)) => apply steady_reading, reading_get : steady.
#[export] Hint Extern 1 (steady _ read_clock) => apply steady_clock : steady.

Section recorder_steady.
Context {W : Type} `{Substrate, HasGraph W, GraphStore W, Clock W, ActionStore W, !GraphStoreLaws W}.

(** The recorder writes a turn's phase and a player's resolved turn, no more. *)
Lemma steady_transition p turnID turn to reason detail :
  p ∉ Predicates TurnPhaseState -> p <> PlayerTurnResolved -> steady (W := W) p (transition turnID turn to reason detail).
Proof.
  intros Hphase Hpointer.
  assert (Hresolved : p ∉ Predicates PlayerResolvedTurnTarget) by (autorewrite with contracts; set_solver).
  assert (Hp : forall id desired, steady (W := W) p (Reconcile TurnPhaseState id desired)) by (intros; by apply steady_Reconcile).
  assert (Hr : forall id desired, steady (W := W) p (Reconcile PlayerResolvedTurnTarget id desired)) by (intros; by apply steady_Reconcile).
  unfold transition, currentState, pointPlayerAtResolvedTurn, repairResolvedPointer, writeResolvedPointer. steadily.
Qed.

Lemma steady_Fail p turnID turn reason detail :
  p ∉ Predicates TurnPhaseState -> p <> PlayerTurnResolved -> steady (W := W) p (Fail_ turnID turn reason detail).
Proof.
  intros ??. unfold Fail_. destruct (ParseFailureReason reason); [|apply steady_reading, reading_throw].
  apply steady_bind; [apply steady_reading, reading_lift|]. intros ?. by apply steady_transition.
Qed.
End recorder_steady.

(** An entity that carries a triple of its own for a predicate does not read
    as carrying none. *)
Lemma progress_objects_some e p t : t ∈ Triples e -> own e p t = true -> progress_objects e p <> Ok [].
Proof.
  unfold progress_objects. induction (Triples e) as [|x l IH]; intros Hin Ht; [by apply elem_of_nil in Hin|].
  destruct (own e p x) eqn:Hx.
  - destruct (Object x); try done. destruct (String.eqb _ _); [done|]. by destruct (_ l).
  - apply elem_of_cons in Hin as [->|Hin]; [congruence|]. by apply IH.
Qed.

Lemma progress_landed turn ref at_ g g' e :
  reconcile_effect TurnCaseProgress turn [receiptTriple turn TurnCaseProgressRef (Ref_String ref) at_] g g' ->
  g' !! turn = Some e -> ID e = turn -> progress_objects e TurnCaseProgressRef <> Ok [].
Proof.
  intros (e0 & e1 & _ & (_ & _ & Hperm) & ->) He Hid. rewrite lookup_insert_eq in He. injection He as ->.
  set (t := receiptTriple turn TurnCaseProgressRef (Ref_String ref) at_) in *.
  assert (Hin : t ∈ group_triples (Predicates TurnCaseProgress) (Triples e)).
  { rewrite Hperm. left. }
  apply (progress_objects_some e TurnCaseProgressRef t).
  - apply list_elem_of_In in Hin. unfold group_triples in Hin. apply filter_In in Hin as [Hin _]. by apply list_elem_of_In.
  - unfold own. rewrite Hid. unfold t, receiptTriple. cbn [Subject Predicate]. by rewrite !String.eqb_refl.
Qed.

Section deliveries.
Context {W : Type} `{Substrate, HasGraph W, GraphStore W, Clock W, ActionStore W, CaseArtifacts W}.
Context `{!GraphStoreLaws W, !ActionStoreLaws W, !CaseArtifactsLaws W, !VocabularyLaws}.

(** The progress stage lands its reference last. Whatever the stores do, a
    delivery writes nothing, or one lifecycle receipt, or - after the receipt
    it derived was recorded or found consumed - the turn's progress reference;
    it writes no other predicate of any entity, so no phase; on a turn that
    already carries a reference it writes nothing at all; and when it returns
    a reference the turn carries it. *)
Theorem progress_lands_its_reference_last turnID turn (w : W) r w' (Hrun : Process turnID turn w = (r, w')) :
  progress_post turn (graph_of w) (graph_of w') r /\
  (forall p, p ∉ Predicates CaseLifecycleReceipt -> p <> TurnCaseProgressRef -> keeps p (graph_of w) (graph_of w')).
Proof.
  pose proof (wp_elim _ _ _ _ _ (Process_spec turnID turn w) Hrun) as Hpost. split; [done|].
  intros p Hp Hne. destruct Hpost as [[event Hw] _]. by eapply progress_writes_frame.
Qed.

(** A redelivered progress trigger changes nothing. Once a delivery has
    returned its reference, every later delivery for the turn leaves the graph
    as it is, whatever it reads and returns. *)
Theorem progress_redelivery_writes_nothing turnID turn (w w1 w2 : W) ref
    (Hown : forall id e, graph_of w1 !! id = Some e -> ID e = id)
    (Hfirst : Process turnID turn w = (Ok ref, w1)) (Hsame : graph_of w2 = graph_of w1) :
  graph_of (Process turnID turn w2).2 = graph_of w1.
Proof.
  pose proof (wp_elim _ _ _ _ _ (Process_spec turnID turn w) Hfirst) as ((event & Hw) & Hstill & Hok).
  pose proof (Process_spec turnID turn w2) as Hagain. unfold wp in Hagain. rewrite Hsame in Hagain.
  pose proof (plan_progress_spec turnID turn w2) as Hplan. unfold wp in Hplan. rewrite Hsame in Hplan.
  assert (Hcarried : forall e, graph_of w1 !! turn = Some e -> progress_objects e TurnCaseProgressRef <> Ok []).
  { intros e He. destruct Hok as [(e0 & l & He0 & Hl & Hne)|[_ (g1 & t & Hr)]].
    - rewrite (Hstill e0 l He0 Hl Hne) in He. assert (e0 = e) as -> by congruence. rewrite Hl. by intros [= ->].
    - exact (progress_landed _ _ _ _ _ _ Hr He (Hown _ _ He)). }
  unfold Process in *. unfold mbind, M_bind in *.
  destruct (plan_progress turnID turn w2) as [[plan|err] w3]; cbn [fst snd] in *; [|apply Hplan].
  destruct Hplan as (Hg3 & e & He & _ & Hres). destruct Hagain as (_ & Hquiet & _).
  specialize (Hcarried e He). apply (Hquiet e (pp_resident plan)); [done..|]. intros Hnil. by rewrite Hres, Hnil in Hcarried.
Qed.
(** What handling a delivery did to the turn it names. *)
Definition settled (turn : string) (g g' : graph) : Prop :=
  turn_over g' turn \/
  (exists e l, g !! turn = Some e /\ progress_objects e TurnCaseProgressRef = Ok l /\ l <> [] /\ g' = g) \/
  (exists ref, landed turn ref g').

Lemma phase_kept g g' :
  (forall p, p ∉ Predicates CaseLifecycleReceipt -> p <> TurnCaseProgressRef -> keeps p g g') -> fsm_run g g'.
Proof. intros Hk. apply fsm_keep; apply Hk; solve [not_in_target|discriminate]. Qed.

Lemma ProgressConsumer_spec owner decoded (w : W) :
  wp (ProgressConsumer_Handle owner decoded) (fun r w' => fsm_run (graph_of w) (graph_of w') /\
    match r with
    | Ok _ => exists trigger, ParseTrigger decoded = Ok trigger /\ t_Subject trigger = SubjectCaseProgress /\
        EntityID owner (t_TurnID trigger) = Ok (t_TurnEntityID trigger) /\
        settled (t_TurnEntityID trigger) (graph_of w) (graph_of w')
    | Err _ => True
    end) w.
Proof.
  assert (Hstay : forall g, fsm_run g g) by (intros; apply rtc_refl).
  unfold ProgressConsumer_Handle. destruct (ParseTrigger decoded) as [trigger|err]; [|by apply wp_throw].
  destruct (String.eqb_spec (t_Subject trigger) SubjectCaseProgress) as [Hsub|]; cbn [negb]; [|by apply wp_throw].
  destruct (EntityID owner (t_TurnID trigger)) as [owned|err] eqn:Hown; [|by apply wp_throw].
  destruct (String.eqb_spec (t_TurnEntityID trigger) owned) as [<-|]; cbn [negb]; [|by apply wp_throw].
  apply wp_bind, wp_attempt. eapply wp_mono; [apply Process_spec|]. intros r w1 Hpost.
  assert (Hrun : fsm_run (graph_of w) (graph_of w1)).
  { destruct Hpost as [[event Hw] _]. apply phase_kept. intros p Hp Hne. by eapply progress_writes_frame. }
  destruct r as [ref|err].
  - apply wp_ret. split; [done|]. exists trigger. split_and!; try done. right.
    destruct Hpost as (_ & Hstill & [(e & l & He & Hl & Hne)|Hland]); [left|by right; exists ref].
    exists e, l. split_and!; try done. by eapply Hstill.
  - destruct (errors_As_b _ err); [by apply wp_throw|]. destruct (errors_As_b _ err); [|by apply wp_throw].
    apply wp_bind, wp_attempt. eapply wp_mono; [apply Fail_ends|]. intros [tr|failErr] w2 [Hm Hover].
    + apply wp_ret. split; [eapply rtc_r; [exact Hrun|exact Hm]|]. exists trigger. split_and!; try done. by left.
    + assert (Hrun2 : fsm_run (graph_of w) (graph_of w2)) by (eapply rtc_r; [exact Hrun|exact Hm]).
      destruct (errors_Is _ _); by apply wp_throw.
Qed.

(** A case progress delivery that is acknowledged is settled. Under any
    store faults the consumer takes turns only along the turn FSM; and when it
    returns without an error, the trigger was the owner's own, and its turn
    carries the progress reference or is over - failed by this delivery if by
    nothing else. *)
Theorem acknowledged_progress_is_settled owner decoded (w : W) r w'
    (Hrun : ProgressConsumer_Handle owner decoded w = (r, w')) :
  fsm_run (graph_of w) (graph_of w') /\
  (r = Ok tt -> exists trigger, ParseTrigger decoded = Ok trigger /\ t_Subject trigger = SubjectCaseProgress /\
     EntityID owner (t_TurnID trigger) = Ok (t_TurnEntityID trigger) /\
     settled (t_TurnEntityID trigger) (graph_of w) (graph_of w')).
Proof.
  pose proof (wp_elim _ _ _ _ _ (ProgressConsumer_spec owner decoded w) Hrun) as [Hf Hr].
  split; [done|]. by intros ->.
Qed.
End deliveries.

(** ** At work on one case *)

Module CaseDemo.
Definition case_id : string := "acme.semmachina.barrow.case.case.manor".
Definition victim_id : string := "acme.semmachina.barrow.case.character.edmund".
Definition character_id : string := "acme.semmachina.barrow.case.character.ada".

Definition case_in (phase : string) : EntityState :=
  with_triples (Demo.bare case_id)
    [Demo.string_triple case_id CaseLifecyclePhase phase; Demo.string_triple case_id CaseMemberVictim victim_id].

Definition ref_to (slot : string) : string := "obj://content/turn/turn-a1/" +:+ slot.

(** A turn whose decision and knowledge have landed. *)
Definition turn_at (phase : string) : EntityState :=
  with_triples (Demo.bare Demo.turn_id)
    [Demo.string_triple Demo.turn_id TurnPhaseCurrent phase;
     Demo.string_triple Demo.turn_id TurnActionPlayer Demo.player_id;
     Demo.string_triple Demo.turn_id TurnCaseDecisionRef (ref_to "case-decision");
     Demo.string_triple Demo.turn_id TurnKnowledgeRef (ref_to "knowledge")].

Definition case_world (phase : string) : World :=
  mkWorld {[ Demo.player_id := with_triples (Demo.bare Demo.player_id)
               [Demo.string_triple Demo.player_id PlayerCharacterCurrent character_id];
             case_id := case_in phase; Demo.turn_id := turn_at PhaseAdjudicating ]} 10 [] [].

(** The detective looks at the body. *)
Definition decision : CaseDecision := {|
  cd_DecisionID := CaseDecisionID "turn-a1" "a1" case_id character_id;
  cd_TurnID := "turn-a1"; cd_ActionID := "a1"; cd_CaseID := case_id; cd_ActorID := character_id;
  cd_Kind := CaseDecisionObserve; cd_TargetRefs := [victim_id]; cd_RevealRefs := [];
  cd_CulpritRef := EmptyString; cd_MethodRef := EmptyString; cd_MotiveRef := EmptyString |}.

Definition record : CaseDecisionRecord := {|
  cdr_TurnID := "turn-a1"; cdr_ActionID := "a1"; cdr_Status := CaseDecisionStatusDecision;
  cdr_Decision := Some decision |}.

Definition receipt : KnowledgeReceipt := {|
  kr_TurnID := "turn-a1"; kr_DecisionID := cd_DecisionID decision; kr_Status := KnowledgeCommitted;
  kr_Entries := [] |}.

Definition progress_record : CaseProgressRecord := {|
  cpr_TurnID := "turn-a1"; cpr_DecisionID := cd_DecisionID decision; cpr_CaseID := case_id;
  cpr_Status := CaseProgressEventRecorded;
  cpr_EventID := CaseProgressEventID "turn-a1" (cd_DecisionID decision) CaseEventBodyObserved;
  cpr_EventKind := CaseEventBodyObserved |}.

#[export] Instance artifacts : CaseArtifacts World := {|
  artifacts_InstanceName := "content";
  artifacts_GetCaseDecisionRecord _ := mret (Some record);
  artifacts_GetKnowledgeReceipt _ := mret (Some receipt);
  artifacts_PutKnowledgeReceipt _ _ := mret {| Instance_ := "content"; Key := "turn/turn-a1/knowledge" |};
  artifacts_PutTestimony _ _ := throw (Errorf "no testimony" []);
  artifacts_GetCaseProgressRecord _ := mret (Some progress_record);
  artifacts_PutCaseProgressRecord _ _ := mret {| Instance_ := "content"; Key := "turn/turn-a1/case-progress" |};
  artifacts_GetAccusationRecord _ := mret None;
  artifacts_PutAccusationRecord _ _ := mret {| Instance_ := "content"; Key := "turn/turn-a1/accusation" |};
  artifacts_PutFailureDetail _ _ := mret {| Instance_ := "content"; Key := "turn/turn-a1/failure" |} |}.

#[export] Instance artifacts_laws : CaseArtifactsLaws World.
Proof. by split. Qed.

Definition observed : TransitionRequest := {|
  tq_CaseEntityID := case_id; tq_EventID := "event-1"; tq_Kind := CaseEventBodyObserved |}.

Definition recorded : World := (Record_ observed (case_world CasePhaseColdOpen)).2.
Definition processed : World := (Process "turn-a1" Demo.turn_id (case_world CasePhaseColdOpen)).2.

Definition publication : rulePublication := {|
  EntityID_ := Demo.turn_id; Subject_ := SubjectCaseProgress; Source_ := "rules"; Properties_ := ∅ |}.
End CaseDemo.
Import CaseDemo.

Lemma owned_ids (g : graph) : bool_decide (map_Forall (fun id e => ID e = id) g) = true ->
  forall id e, g !! id = Some e -> ID e = id.
Proof. intros H%bool_decide_eq_true id e He. exact (H id e He). Qed.

Definition recorded_case : EntityState := default (Demo.bare case_id) (graph_of recorded !! case_id).
Definition observed_edge : caseEdge := List.nth 0 caseEdges (Build_caseEdge EmptyString EmptyString EmptyString EmptyString).

(** The lifecycle rule takes the case on. *)
Definition discovered : World :=
  mkWorld (<[case_id := case_in CasePhaseDiscovery]> (graph_of recorded)) 10 [] [].

Lemma receipts_follow_the_case_machine_witness :
  asked_for (graph_of recorded) case_id observed_edge /\
  exists q, case_in_phase (graph_of discovered) case_id q /\ rtc case_moves CasePhaseColdOpen q.
Proof.
  assert (Hp : case_in_phase (graph_of (case_world CasePhaseColdOpen)) case_id CasePhaseColdOpen) by (vm_compute; reflexivity).
  split; [exists recorded_case; split; [vm_compute; reflexivity|split_and!; apply list_elem_of_In; vm_compute; auto]|].
  apply (receipts_follow_the_case_machine case_id (case_world CasePhaseColdOpen) CasePhaseColdOpen Hp).
  eapply rtc_l; [eapply (step_record _ _ recorded observed); apply surjective_pairing|]. apply rtc_once, step_fire.
  exists observed_edge, None, recorded_case. eexists. split_and!.
  - left.
  - vm_compute. reflexivity.
  - vm_compute. reflexivity.
  - left.
  - vm_compute. reflexivity.
Defined.

Lemma receipt_is_recorded_once_witness :
  graph_of (Record_ observed recorded).2 = graph_of recorded /\
  ((Record_ observed recorded).1 =
     Ok {| ro_Recorded := false; ro_From := CasePhaseColdOpen; ro_To := CasePhaseDiscovery |} \/
   exists err, (Record_ observed recorded).1 = Err (Errorf "read case before recording event" [err])).
Proof.
  apply (receipt_is_recorded_once observed (case_world CasePhaseColdOpen) recorded recorded _
    {| ro_Recorded := true; ro_From := CasePhaseColdOpen; ro_To := CasePhaseDiscovery |}).
  - apply owned_ids. vm_compute. reflexivity.
  - vm_compute. reflexivity.
  - reflexivity.
  - reflexivity.
  - apply surjective_pairing.
Defined.

Lemma receipt_fires_only_its_edge_witness :
  fires (case_rule observed_edge) None recorded_case = true /\
  ce_kind observed_edge = CaseEventBodyObserved /\ ce_from observed_edge = CasePhaseColdOpen /\
  ce_to observed_edge = CasePhaseDiscovery /\
  Forall (fun a => ac_Phase a = CasePhaseDiscovery) (actions_of (case_rule observed_edge)).
Proof.
  assert (Hf : fires (case_rule observed_edge) None recorded_case = true) by (vm_compute; reflexivity).
  split; [exact Hf|].
  apply (receipt_fires_only_its_edge observed (case_world CasePhaseColdOpen) recorded
    {| ro_Recorded := true; ro_From := CasePhaseColdOpen; ro_To := CasePhaseDiscovery |} recorded_case None observed_edge).
  - vm_compute. reflexivity.
  - reflexivity.
  - apply owned_ids. vm_compute. reflexivity.
  - vm_compute. reflexivity.
  - left.
  - exact Hf.
Defined.

Lemma progress_lands_its_reference_last_witness :
  progress_post Demo.turn_id (graph_of (case_world CasePhaseColdOpen)) (graph_of processed)
    (Process "turn-a1" Demo.turn_id (case_world CasePhaseColdOpen)).1 /\
  (forall p, p ∉ Predicates CaseLifecycleReceipt -> p <> TurnCaseProgressRef ->
     keeps p (graph_of (case_world CasePhaseColdOpen)) (graph_of processed)).
Proof. apply (progress_lands_its_reference_last "turn-a1"). apply surjective_pairing. Defined.

Lemma progress_redelivery_writes_nothing_witness :
  graph_of (Process "turn-a1" Demo.turn_id processed).2 = graph_of processed.
Proof.
  apply (progress_redelivery_writes_nothing "turn-a1" Demo.turn_id (case_world CasePhaseColdOpen) processed processed
    {| Instance_ := "content"; Key := "turn/turn-a1/case-progress" |}).
  - apply owned_ids. vm_compute. reflexivity.
  - vm_compute. reflexivity.
  - reflexivity.
Defined.

Lemma acknowledged_progress_is_settled_witness :
  (ProgressConsumer_Handle Demo.identity (Ok publication) (case_world CasePhaseColdOpen)).1 = Ok tt /\
  exists trigger, ParseTrigger (Ok publication) = Ok trigger /\ t_Subject trigger = SubjectCaseProgress /\
    EntityID Demo.identity (t_TurnID trigger) = Ok (t_TurnEntityID trigger) /\
    settled (t_TurnEntityID trigger) (graph_of (case_world CasePhaseColdOpen))
      (graph_of (ProgressConsumer_Handle Demo.identity (Ok publication) (case_world CasePhaseColdOpen)).2).
Proof.
  assert (Hok : (ProgressConsumer_Handle Demo.identity (Ok publication) (case_world CasePhaseColdOpen)).1 = Ok tt)
    by (vm_compute; reflexivity).
  split; [exact Hok|].
  apply (acknowledged_progress_is_settled Demo.identity (Ok publication) (case_world CasePhaseColdOpen)
    _ _ (surjective_pairing _)). exact Hok.
Defined.
