(* ===== verification/KnowledgeSpec.v ===== *)
(** What the knowledge stage guarantees: a plan grants what the decision was
    entitled to reveal and nothing else, a commit never overwrites what is on
    record and lands its reference last, its receipt fits the receipt's own
    contract, and an acknowledged delivery is settled. *)

From stdpp Require Import relations sorting.
From S2P Require Import Prelude GoStd GoHash GoErrors Graph Vocab Vocabulary Payload Mechanics Decisions ContentRecords ContentStore ProjectionContract Store Campaign Sequencing RulePack GraphIO Turn Caseflow Knowledge MemStore TurnSpec TurnTheorems StageSpec RulePackSpec CaseflowSpec.

Open Scope Z_scope.

(** ** Authorization *)

(** Evidence the case lets be told: its own, and no part of the solution before
    the denouement. *)
Definition tellable (input : Preflight) (evidenceID : string) : Prop :=
  evidenceID ∈ pf_CaseEvidence input /\
  (evidenceID ∈ pf_SolutionLocked input -> pf_CasePhase input = CasePhaseDenouement).

(** Evidence the case's authors made available to this kind of act, at this
    phase, on one of these targets. *)
Definition eligible (input : Preflight) (decision : CaseDecision) (evidenceID : string) : Prop :=
  exists el, pf_Eligibility input !! evidenceID = Some el /\ cd_Kind decision ∈ el_Kinds el /\
    phaseAtLeast (pf_CasePhase input) (el_MinimumPhase el) = true /\
    exists target, target ∈ cd_TargetRefs decision /\ target ∈ el_Targets el.

(** [here]: the worlds the authorities are asked in. *)
Section authorize.
Context {W : Type} (here : W -> Prop).
Implicit Types (w : W).

(** The recipients an observation may have: who looked, and a companion the
    witness authority named. *)
Definition observer (input : Preflight) (decision : CaseDecision) (witnesses : option (WitnessAuthorizer W))
    (recipient : string) : Prop :=
  recipient = pf_ActingActorID input \/
  exists witness w w', witnesses = Some witness /\ recipient <> EmptyString /\ here w /\
    witness (pf_ActingActorID input) (cd_TargetRefs decision) w = (Ok (recipient, true), w').

(** What entitles one entry of a plan. *)
Inductive entitled (input : Preflight) (decision : CaseDecision) (shares : option (ShareAuthorizer W))
    (witnesses : option (WitnessAuthorizer W)) (e : Entry) : Prop :=
| entitled_seen :
    cd_Kind decision = CaseDecisionObserve \/ cd_Kind decision = CaseDecisionInvestigate ->
    tellable input (en_EvidenceID e) -> eligible input decision (en_EvidenceID e) ->
    observer input decision witnesses (en_RecipientID e) -> en_Testimony e = None ->
    entitled input decision shares witnesses e
| entitled_told target belief :
    cd_Kind decision = CaseDecisionQuestion -> cd_TargetRefs decision = [target] ->
    target ∈ pf_CaseCharacters input -> tellable input (en_EvidenceID e) ->
    pf_Beliefs input !! (target, en_EvidenceID e) = Some belief ->
    en_RecipientID e = pf_ActingActorID input ->
    en_Testimony e = Some {|
      td_BeliefID := ab_ID belief; td_SourceActorID := ab_HolderID belief;
      td_RecipientID := pf_ActingActorID input; td_EvidenceID := en_EvidenceID e;
      td_Stance := ab_Stance belief; td_Prose := ab_Prose belief |} ->
    entitled input decision shares witnesses e
| entitled_shared authorized w w' :
    cd_Kind decision = CaseDecisionShare -> cd_TargetRefs decision = [en_RecipientID e] ->
    (pf_ActingActorID input, en_EvidenceID e) ∈ pf_Known input -> shares = Some authorized -> here w ->
    authorized (pf_ActingActorID input) (en_RecipientID e) (en_EvidenceID e) w = (Ok true, w') ->
    en_Testimony e = None ->
    entitled input decision shares witnesses e.

(** The references a plan grants are those the decision reveals, once for the
    actor or the recipient, and once more for a witness. *)
Definition grants_reveals (decision : CaseDecision) (plan : Plan) : Prop :=
  exists recipients, (List.length recipients <= 2)%nat /\ NoDup recipients /\
    map (fun e => (en_RecipientID e, en_EvidenceID e)) plan =
      flat_map (fun r => map (fun ev => (r, ev)) (cd_RevealRefs decision)) recipients.

Definition plan_sound (input : Preflight) (shares : option (ShareAuthorizer W))
    (witnesses : option (WitnessAuthorizer W)) (plan : Plan) : Prop :=
  exists decision, pf_Decision input = Some decision /\ cd_CaseID decision = pf_CaseID input /\
    cd_ActorID decision = pf_ActingActorID input /\
    Forall (entitled input decision shares witnesses) plan /\
    grants_reveals decision plan.

Lemma locked_tellable input ev : locked input ev = false -> mem ev (pf_CaseEvidence input) = true -> tellable input ev.
Proof.
  unfold locked. intros Hl Hm%mem_true. split; [done|]. intros Hs%mem_true. rewrite Hs in Hl. cbn [andb] in Hl.
  by destruct (String.eqb_spec (pf_CasePhase input) CasePhaseDenouement).
Qed.

Lemma reveal_ok_spec input decision ev :
  reveal_ok input decision ev = Ok tt -> tellable input ev /\ eligible input decision ev.
Proof.
  unfold reveal_ok. destruct (locked input ev) eqn:Hl; [done|].
  destruct (mem ev (pf_CaseEvidence input)) eqn:Hm; [|done]. cbn [negb].
  destruct (pf_Eligibility input !! ev) as [el|] eqn:He; [|done].
  destruct (mem (cd_Kind decision) (el_Kinds el)) eqn:Hk; [|done]. cbn [negb].
  destruct (phaseAtLeast _ _) eqn:Hp; [|done]. cbn [negb].
  destruct (intersects _ _) eqn:Hi; [|done]. intros _. split; [by apply locked_tellable|].
  exists el. apply mem_true in Hk. split_and!; try done.
  unfold intersects in Hi. apply existsb_exists in Hi as (target & Hin & Ht%mem_true). exists target.
  by rewrite list_elem_of_In.
Qed.

Lemma actorEntries_pairs actor refs :
  map (fun e => (en_RecipientID e, en_EvidenceID e)) (actorEntries actor refs) = map (fun ev => (actor, ev)) refs.
Proof. unfold actorEntries. rewrite map_map. done. Qed.

Lemma actorEntries_elem actor refs e :
  e ∈ actorEntries actor refs <-> en_RecipientID e = actor /\ en_EvidenceID e ∈ refs /\ en_Testimony e = None.
Proof.
  unfold actorEntries. rewrite list_elem_of_fmap. split.
  - intros (ev & -> & Hin). done.
  - destruct e as [r ev t]. cbn. intros (-> & Hin & ->). by exists ev.
Qed.

Lemma question_entries_spec input target refs plan :
  question_entries input target refs = Ok plan ->
  map (fun e => (en_RecipientID e, en_EvidenceID e)) plan = map (fun ev => (pf_ActingActorID input, ev)) refs /\
  Forall (fun e => tellable input (en_EvidenceID e) /\ exists belief,
    pf_Beliefs input !! (target, en_EvidenceID e) = Some belief /\ en_RecipientID e = pf_ActingActorID input /\
    en_Testimony e = Some {|
      td_BeliefID := ab_ID belief; td_SourceActorID := ab_HolderID belief;
      td_RecipientID := pf_ActingActorID input; td_EvidenceID := en_EvidenceID e;
      td_Stance := ab_Stance belief; td_Prose := ab_Prose belief |}) plan.
Proof.
  revert plan. induction refs as [|ev refs IH]; intros plan; cbn [question_entries].
  { intros [= <-]. split; [done|constructor]. }
  destruct (locked input ev) eqn:Hl; [done|].
  destruct (mem ev (pf_CaseEvidence input)) eqn:Hm; [|done]. cbn [negb].
  destruct (pf_Beliefs input !! (target, ev)) as [belief|] eqn:Hb; [|done].
  intros (rest & Hrest & Heq)%result_bind_ok. injection Heq as <-. destruct (IH _ Hrest) as [Hmap Hall]. split.
  - cbn. by rewrite Hmap.
  - constructor; [|done]. cbn. split; [by apply locked_tellable|]. by exists belief.
Qed.

(** Asking the share authority does not leave [here]. *)
Definition stays_here (shares : option (ShareAuthorizer W)) : Prop :=
  forall authorized actor recipient evidence w, shares = Some authorized -> here w ->
    here (authorized actor recipient evidence w).2.

Lemma share_ok_spec input shares recipient refs w : stays_here shares -> here w ->
  wp (share_ok input shares recipient refs) (fun r _ => match r with
    | Ok _ => Forall (fun ev => (pf_ActingActorID input, ev) ∈ pf_Known input /\
        exists authorized w1 w2, shares = Some authorized /\ here w1 /\
          authorized (pf_ActingActorID input) recipient ev w1 = (Ok true, w2)) refs
    | Err _ => True end) w.
Proof.
  intros Hstay. revert w. induction refs as [|ev refs IH]; intros w Hw; cbn [share_ok]; [apply wp_ret; constructor|].
  destruct (bool_decide _) eqn:Hk; [|by apply wp_throw]. apply bool_decide_eq_true in Hk. cbn [negb].
  apply wp_bind. destruct shares as [authorized|]; [|by apply wp_ret, wp_throw].
  apply wp_bind, wp_attempt. unfold wp at 1.
  pose proof (Hstay authorized (pf_ActingActorID input) recipient ev w eq_refl Hw) as Hw1.
  destruct (authorized (pf_ActingActorID input) recipient ev w) as [[b|err] w1] eqn:Ha; cbn [fst snd] in *;
    apply wp_lift; [|done].
  cbn [wrapf]. destruct b; [|by apply wp_throw]. cbn [negb].
  eapply wp_mono; [by apply IH|]. intros [u|err] w2 Hr; [|done]. constructor; [|done].
  split; [done|]. by exists authorized, w, w1.
Qed.

Lemma with_witness_spec input decision witnesses w : here w ->
  wp (with_witness input decision witnesses) (fun r _ => match r with
    | Ok plan => exists recipients, (List.length recipients <= 2)%nat /\ NoDup recipients /\
        Forall (observer input decision witnesses) recipients /\
        plan = flat_map (fun r => actorEntries r (cd_RevealRefs decision)) recipients
    | Err _ => True end) w.
Proof.
  intros Hhere. assert (Halone : exists recipients, (List.length recipients <= 2)%nat /\ NoDup recipients /\
    Forall (observer input decision witnesses) recipients /\
    actorEntries (pf_ActingActorID input) (cd_RevealRefs decision) =
      flat_map (fun r => actorEntries r (cd_RevealRefs decision)) recipients).
  { exists [pf_ActingActorID input]. split_and!; [cbn; lia|apply NoDup_singleton|repeat constructor; by left|].
    cbn. by rewrite List.app_nil_r. }
  unfold with_witness. destruct witnesses as [witness|]; [|by apply wp_ret].
  destruct (Nat.eqb _ _); [by apply wp_ret|].
  apply wp_bind, wp_attempt. unfold wp at 1.
  destruct (witness _ _ w) as [[[id allowed]|err] w1] eqn:Hw; cbn [fst snd]; apply wp_bind, wp_lift; [|done].
  cbn [wrapf]. destruct allowed; cbn [negb]; [|by apply wp_ret].
  destruct (String.eqb_spec id EmptyString); [by apply wp_throw|]. cbn [orb].
  destruct (String.eqb_spec id (pf_ActingActorID input)); [by apply wp_throw|]. apply wp_ret.
  exists [pf_ActingActorID input; id]. split_and!.
  - cbn; lia.
  - apply NoDup_cons. split; [set_solver|apply NoDup_singleton].
  - constructor; [by left|]. constructor; [|constructor]. right. by exists witness, w, w1.
  - cbn. by rewrite List.app_nil_r.
Qed.

Lemma AuthorizeWithWitnesses_spec input shares witnesses w : stays_here shares -> here w ->
  wp (AuthorizeWithWitnesses input shares witnesses) (fun r _ => match r with
    | Ok plan => plan_sound input shares witnesses plan
    | Err _ => True end) w.
Proof.
  intros Hstay Hhere. unfold AuthorizeWithWitnesses. destruct (pf_Decision input) as [decision|] eqn:Hd; [|by apply wp_throw].
  destruct (String.eqb_spec (cd_CaseID decision) (pf_CaseID input)) as [Hc|]; [|by apply wp_throw]. cbn [negb].
  destruct (String.eqb_spec (cd_ActorID decision) (pf_ActingActorID input)) as [Ha|]; [|by apply wp_throw]. cbn [negb].
  assert (Hsound : forall plan, Forall (entitled input decision shares witnesses) plan -> grants_reveals decision plan ->
    plan_sound input shares witnesses plan) by (intros plan ??; by exists decision).
  destruct (String.eqb (cd_Kind decision) CaseDecisionObserve || String.eqb (cd_Kind decision) CaseDecisionInvestigate) eqn:Hk.
  { assert (Hkind : cd_Kind decision = CaseDecisionObserve \/ cd_Kind decision = CaseDecisionInvestigate).
    { apply orb_true_iff in Hk as [?%String.eqb_eq|?%String.eqb_eq]; auto. }
    apply wp_bind, wp_lift. destruct (all_ok _ _) as [[]|] eqn:Hall; [|done]. apply all_ok_Forall in Hall.
    eapply wp_mono; [by apply with_witness_spec|]. intros [plan|] w1 Hr; [|done].
    destruct Hr as (recipients & Hlen & Hnd & Hobs & ->). apply Hsound.
    - rewrite Forall_forall. intros e He. apply list_elem_of_In, in_flat_map in He as (r & Hr & He).
      apply list_elem_of_In, actorEntries_elem in He as (<- & Hin & Ht).
      rewrite Forall_forall in Hall, Hobs. destruct (reveal_ok_spec _ _ _ (Hall _ Hin)) as [Htell Hel].
      apply entitled_seen; try done. apply Hobs. by apply list_elem_of_In.
    - exists recipients. split_and!; [done..|]. clear. induction recipients as [|r rs IH]; [done|]. cbn.
      by rewrite map_app, actorEntries_pairs, IH. }
  destruct (String.eqb_spec (cd_Kind decision) CaseDecisionQuestion) as [Hq|_].
  { destruct (cd_TargetRefs decision) as [|target [|]] eqn:Ht; [by apply wp_throw| |by apply wp_throw].
    destruct (mem target (pf_CaseCharacters input)) eqn:Hm; [|by apply wp_throw]. apply mem_true in Hm.
    apply wp_lift. destruct (question_entries _ _ _) as [plan|] eqn:He; [|done].
    apply question_entries_spec in He as [Hmap Hall]. apply Hsound.
    - eapply Forall_impl; [exact Hall|]. intros e (Htell & belief & Hb & Hr & Htest).
      by eapply entitled_told.
    - exists [pf_ActingActorID input]. split_and!; [cbn; lia|apply NoDup_singleton|].
      cbn. by rewrite List.app_nil_r. }
  destruct (String.eqb_spec (cd_Kind decision) CaseDecisionShare) as [Hs|_].
  { destruct (cd_TargetRefs decision) as [|recipient [|]] eqn:Ht; [by apply wp_throw| |by apply wp_throw].
    apply wp_bind. eapply wp_mono; [by apply share_ok_spec|]. intros [u|] w1 Hall; [|done]. apply wp_ret. apply Hsound.
    - cbv beta iota in Hall. rewrite Forall_forall in Hall. apply Forall_forall. intros e (Hr & Hin & Htest)%actorEntries_elem.
      destruct (Hall _ Hin) as (Hknown & authorized & w2 & w3 & Hsh & Hw2 & Hauth). rewrite <- Hr in Hauth, Ht.
      by eapply entitled_shared.
    - exists [recipient]. split_and!; [cbn; lia|apply NoDup_singleton|].
      cbn. by rewrite actorEntries_pairs, List.app_nil_r. }
  destruct (String.eqb (cd_Kind decision) CaseDecisionRequestHint || _ || _); [|by apply wp_throw].
  destruct (Nat.eqb_spec (List.length (cd_RevealRefs decision)) 0) as [Hn|];
    [|by apply wp_throw]. apply wp_ret. apply Hsound; [constructor|]. exists []. split_and!; [cbn; lia|constructor|done].
Qed.
End authorize.

(** ** Granting *)

(** An entity a plan grants. *)
Definition grant_of `{Substrate} (decision : CaseDecision) (plan : Plan) (want : EntityState) : Prop :=
  exists d, dv_entry d ∈ plan /\ derive_entry decision (dv_entry d) = Ok d /\
    ((exists at_, want = knowledge_entity d at_) \/ exists refs at_, want = revelation_entity decision refs d at_).

(** Entities the plan grants were added where there was none; nothing else changed. *)
Definition grant_births `{Substrate} (decision : CaseDecision) (plan : Plan) (g g' : graph) : Prop :=
  g ⊆ g' /\ forall id e, g' !! id = Some e -> g !! id = None ->
    exists want, grant_of decision plan want /\ ID want = id /\ born want e.

(** The graph holds the wanted entity, fact for fact. *)
Definition recorded `{ObjectEncoder, Substrate} (g : graph) (want : EntityState) : Prop :=
  exists e, g !! ID want = Some e /\ exactEntitySemantics (Some e) want = Ok tt.

(** Every grant of the plan is on record. *)
Definition granted `{ObjectEncoder, Substrate} (decision : CaseDecision) (plan : Plan) (g : graph) : Prop :=
  exists ds refs at_, each (derive_entry decision) plan = Ok ds /\
    Forall (fun d => recorded g (knowledge_entity d at_) /\ recorded g (revelation_entity decision refs d at_)) ds.

(** The turn's reference was written, and nothing else. *)
Definition pointed `{Substrate} (turn : string) (ref : Ref) (g g' : graph) : Prop :=
  exists at_, reconcile_effect TurnKnowledge turn [fact turn TurnKnowledgeRef (Ref_String ref) at_] g g'.

(** What a commit writes: grants, and once all of them are on record the reference. *)
Definition commit_effect `{ObjectEncoder, Substrate} (turn : string) (decision : CaseDecision) (plan : Plan)
    (g g' : graph) (r : res Ref) : Prop :=
  exists g1, grant_births decision plan g g1 /\
    match r with
    | Ok ref => granted decision plan g1 /\ pointed turn ref g1 g'
    | Err _ => g' = g1 \/ exists ref, granted decision plan g1 /\ pointed turn ref g1 g'
    end.

(** A retried write of one group is one write of it. *)
Lemma reconcile_again target id desired g g1 g2 :
  reconcile_effect target id desired g g1 -> reconcile_effect target id desired g1 g2 ->
  reconcile_effect target id desired g g2.
Proof.
  intros (e0 & e & Hg & (Hid & Ho & _) & ->) (e0' & e' & Hg' & (Hid' & Ho' & Hp') & ->).
  rewrite lookup_insert_eq in Hg'. injection Hg' as <-. exists e0, e'. split; [done|]. split.
  - split_and!; [congruence|by rewrite Ho'|done].
  - by rewrite insert_insert_eq.
Qed.

Lemma grant_phaseless `{Substrate} decision plan want p :
  p ∈ [TurnPhaseCurrent; TurnFailureReason; TurnKnowledgeRef] -> grant_of decision plan want -> objectsFor want p = [].
Proof.
  intros Hp (d & _ & _ & [[t ->]|(refs & t & ->)]); unfold objectsFor, triplesFor; cbn -[String.eqb].
  - by closed_cases Hp.
  - destruct (en_Testimony (dv_entry d)); by closed_cases Hp.
Qed.

(** Asking whether a call is cancelled leaves the graph alone. *)
Class CtxLaws (W : Type) `{HasGraph W, Ctx W} : Prop := { ctx_Err_graph w : graph_of (ctx_Err w).2 = graph_of w }.

Section commit.
Context {W : Type} `{Substrate, ObjectEncoder, HasGraph W, GraphStore W, Clock W, CaseArtifacts W, Ctx W}.
Context `{!GraphStoreLaws W, !CaseArtifactsLaws W, !CtxLaws W}.
Implicit Types (w : W).

Lemma births_refl decision plan g : grant_births decision plan g g.
Proof. split; [done|]. intros id e He Hn. congruence. Qed.

Lemma births_trans decision plan g g1 g2 :
  grant_births decision plan g g1 -> grant_births decision plan g1 g2 -> grant_births decision plan g g2.
Proof.
  intros [Hs1 Hn1] [Hs2 Hn2]. split; [by etrans|]. intros id e He Hn.
  destruct (g1 !! id) as [e1|] eqn:He1; [|by apply Hn2].
  assert (e1 = e) as -> by (pose proof (lookup_weaken _ _ _ _ He1 Hs2); congruence). by apply Hn1.
Qed.

Lemma births_create decision plan g g' want :
  grant_of decision plan want -> create_effect want g g' -> grant_births decision plan g g'.
Proof.
  intros Hwant [->|(Hn & e & Hb & ->)]; [apply births_refl|]. split; [by apply insert_subseteq|].
  intros id e'. rewrite lookup_insert. case_decide as Hid; [|intros; congruence]. intros [= <-] _. by exists want.
Qed.

Lemma recorded_mono g g' want : g ⊆ g' -> recorded g want -> recorded g' want.
Proof. intros Hs (e & He & Hx). exists e. split; [by eapply lookup_weaken|done]. Qed.

Lemma createOrVerify_spec want w :
  wp (createOrVerify want) (fun r w' => create_effect want (graph_of w) (graph_of w') /\
    match r with Ok _ => recorded (graph_of w') want | Err _ => True end) w.
Proof.
  unfold createOrVerify. apply wp_bind, wp_attempt. eapply wp_mono; [apply CreateEntity_spec|].
  intros [[[e|] rev]|err] w1 Hr.
  - apply wp_lift. destruct Hr as (_ & Hg & Hc). split; [done|].
    destruct (exactEntitySemantics (Some e) want) as [[]|] eqn:Hx; [by exists e|done].
  - by apply wp_throw.
  - destruct Hr as [Hc Hex]. destruct (errors_Is ErrEntityExists err); [|by apply wp_throw]. cbn [negb].
    apply wp_bind, wp_attempt. eapply wp_mono; [apply GetEntity_spec|]. intros [e|readErr] w2 [Hg Hr].
    + apply wp_lift. rewrite Hg. split; [done|].
      destruct (exactEntitySemantics (Some e) want) as [[]|] eqn:Hx; [|done]. exists e. split; [congruence|done].
    + apply wp_throw. by rewrite Hg.
Qed.

Lemma create_all_spec decision plan msg wanted w :
  Forall (grant_of decision plan) wanted ->
  wp (create_all msg wanted) (fun r w' => grant_births decision plan (graph_of w) (graph_of w') /\
    match r with Ok _ => Forall (recorded (graph_of w')) wanted | Err _ => True end) w.
Proof.
  revert w. induction wanted as [|want wanted IH]; intros w Hall; cbn [create_all].
  { apply wp_ret. split; [apply births_refl|constructor]. }
  apply Forall_cons in Hall as [Hwant Hall].
  apply wp_bind, wp_attempt. eapply wp_mono; [apply createOrVerify_spec|]. intros r w1 [Hc Hr].
  apply (births_create _ _ _ _ _ Hwant) in Hc. apply wp_lift_bind; [|done]. intros u Hu.
  destruct r as [u'|]; [|done]. eapply wp_mono; [by apply IH|]. intros r2 w2 [Hb Hr2]. split; [by eapply births_trans|].
  destruct r2; [|done]. constructor; [|done]. eapply recorded_mono; [apply Hb|done].
Qed.

Lemma put_testimonies_reading ds refs : reading (put_testimonies ds refs).
Proof.
  revert refs. induction ds as [|d ds IH]; intros refs; cbn [put_testimonies]; [apply reading_ret|].
  destruct (dv_testimony d) as [[id testimony]|]; [|apply IH].
  apply reading_bind; [apply reading_attempt; intros w; apply PutTestimony_graph|]. intros r.
  apply reading_bind; [apply reading_lift|]. intros ref. apply IH.
Qed.

Lemma each_in {A B} (f : A -> res B) l l' y : each f l = Ok l' -> y ∈ l' -> exists x, x ∈ l /\ f x = Ok y.
Proof.
  revert l'. induction l as [|x l IH]; intros l'; cbn.
  { intros [= <-] Hy. by apply elem_of_nil in Hy. }
  intros (y0 & Hy0 & (ys & Hys & [= <-])%result_bind_ok)%result_bind_ok [->|Hin]%elem_of_cons.
  - exists x. split; [by left|done].
  - destruct (IH _ Hys Hin) as (x' & ? & ?). exists x'. split; [by right|done].
Qed.

Lemma derive_entry_own decision e d : derive_entry decision e = Ok d -> dv_entry d = e.
Proof. unfold derive_entry. intros H'. res_inv. done. Qed.

Lemma derived_grants decision plan ds : each (derive_entry decision) plan = Ok ds ->
  Forall (fun d => dv_entry d ∈ plan /\ derive_entry decision (dv_entry d) = Ok d) ds.
Proof.
  intros Hds. apply Forall_forall. intros d Hd. destruct (each_in _ _ _ _ Hds Hd) as (e & He & Hd').
  by rewrite (derive_entry_own _ _ _ Hd').
Qed.

(** The retried write of a group: it happened, or it may have. *)
Lemma retry_reconcile_spec target id desired n last w g0 :
  (n <> 0%nat \/ is_ok last = false) ->
  (graph_of w = g0 \/ reconcile_effect target id desired g0 (graph_of w)) ->
  wp (retry_loop (_ ← Reconcile target id desired; mret tt) n last) (fun r w' =>
    match r with
    | Ok _ => reconcile_effect target id desired g0 (graph_of w')
    | Err _ => graph_of w' = g0 \/ reconcile_effect target id desired g0 (graph_of w')
    end) w.
Proof.
  revert last w. induction n as [|n IH]; intros last w Hn Hw; cbn [retry_loop].
  { apply wp_lift. destruct last; [by destruct Hn|done]. }
  apply wp_bind. pose proof (ctx_Err_graph w) as Hc. unfold wp at 1.
  destruct (ctx_Err w) as [[u|err] w1]; cbn [fst snd] in *; [|by rewrite Hc].
  assert (Hstep : forall g, reconcile_effect target id desired (graph_of w1) g -> reconcile_effect target id desired g0 g).
  { intros g Hg. rewrite Hc in Hg. destruct Hw as [<-|Hw]; [done|by eapply reconcile_again]. }
  rewrite <- Hc in Hw.
  apply wp_bind, wp_attempt, wp_bind. eapply wp_mono; [apply Reconcile_spec|]. intros [e|err] w2 Hr.
  - apply wp_ret, wp_ret. apply Hstep, Hr.
  - assert (Hw2 : graph_of w2 = g0 \/ reconcile_effect target id desired g0 (graph_of w2)).
    { destruct Hr as [->|Hr]; [done|right; by apply Hstep]. }
    destruct (isRevisionConflict err); [|by apply wp_throw]. apply IH; [by right|done].
Qed.

Lemma writeTurnRef_spec turn ref w :
  wp (writeTurnRef turn ref) (fun r w' =>
    match r with
    | Ok _ => pointed turn ref (graph_of w) (graph_of w')
    | Err _ => graph_of w' = graph_of w \/ pointed turn ref (graph_of w) (graph_of w')
    end) w.
Proof.
  unfold writeTurnRef, RetryRevisionConflict. apply wp_clock. intros t w1 Hg.
  apply wp_bind, wp_attempt. eapply wp_mono; [apply (retry_reconcile_spec _ _ _ _ _ _ (graph_of w1)); by left|].
  rewrite Hg. intros r w2 Hr. apply wp_lift. destruct r as [u|err]; cbn [wrapf].
  - by exists t.
  - destruct Hr as [->|Hr]; [by left|right; by exists t].
Qed.

Lemma grants_all_spec decision plan ds refs at_ w :
  each (derive_entry decision) plan = Ok ds ->
  wp (_ ← create_all "commit knowledge grant" (map (fun d => knowledge_entity d at_) ds);
      create_all "commit revelation receipt" (map (fun d => revelation_entity decision refs d at_) ds))
    (fun r w' => grant_births decision plan (graph_of w) (graph_of w') /\
      match r with Ok _ => granted decision plan (graph_of w') | Err _ => True end) w.
Proof.
  intros Hds. pose proof (derived_grants _ _ _ Hds) as Hall. apply wp_bind.
  eapply wp_mono; [apply (create_all_spec decision plan)|].
  { apply List.Forall_map. eapply Forall_impl; [exact Hall|]. intros d [Hin Hd]. exists d. split_and!; [done..|]. left. by exists at_. }
  intros [u|err] w1 [Hb1 Hr1]; [|done]. eapply wp_mono; [apply (create_all_spec decision plan)|].
  { apply List.Forall_map. eapply Forall_impl; [exact Hall|]. intros d [Hin Hd]. exists d. split_and!; [done..|]. right. by exists refs, at_. }
  intros [u'|err] w2 [Hb2 Hr2]; (split; [by eapply births_trans|]); [|done].
  exists ds, refs, at_. split; [done|]. rewrite List.Forall_map in Hr1, Hr2. apply Forall_and. split; [|exact Hr2].
  eapply Forall_impl; [exact Hr1|]. intros d Hd. eapply recorded_mono; [apply Hb2|exact Hd].
Qed.

Lemma commit_grants_spec turn decision plan w :
  wp (commit turn (Some decision) plan) (fun r w' =>
    commit_effect turn decision plan (graph_of w) (graph_of w') r) w.
Proof.
  assert (Hnone : forall (w' : W) err, graph_of w' = graph_of w ->
    commit_effect turn decision plan (graph_of w) (graph_of w') (Err err)).
  { intros w' err ->. exists (graph_of w). split; [apply births_refl|by left]. }
  unfold commit. apply wp_lift_bind; [|intros; by apply Hnone]. intros ds Hds.
  apply wp_bind. pose proof (put_testimonies_reading ds ∅ w) as Hp. unfold wp at 1.
  destruct (put_testimonies ds ∅ w) as [[refs|err] w1]; cbn [fst snd] in *; [|by apply Hnone].
  apply wp_clock. intros t w2 Hg2. rewrite Hp in Hg2.
  apply wp_bind. pose proof (grants_all_spec decision plan ds refs t w2 Hds) as Hall. rewrite Hg2 in Hall.
  unfold wp, mbind, M_bind in Hall. unfold wp at 1.
  destruct (create_all "commit knowledge grant" _ w2) as [[u|err] w3]; cbn [fst snd] in *.
  2: { exists (graph_of w3). split; [apply Hall|by left]. }
  apply wp_bind. unfold wp at 1. destruct (create_all "commit revelation receipt" _ w3) as [[u'|err] w4]; cbn [fst snd] in *.
  2: { exists (graph_of w4). split; [apply Hall|by left]. }
  destruct Hall as [Hb Hgr].
  apply wp_artifact; [intros; apply PutKnowledgeReceipt_graph|]. intros stored w5 Hg5.
  apply wp_lift_bind.
  2: { intros err _. exists (graph_of w4). split; [done|by left]. }
  intros ref _. apply wp_bind. eapply wp_mono; [apply writeTurnRef_spec|]. rewrite Hg5. intros [u2|err] w6 Hr.
  - apply wp_ret. exists (graph_of w4). done.
  - exists (graph_of w4). split; [done|]. destruct Hr as [Hr|Hr]; [by left|right; by exists ref].
Qed.
End commit.

(** ** The snapshot *)

(** Queries by predicate value only read. *)
Class PredicateReaderLaws (W : Type) `{HasGraph W, PredicateReader W} : Prop := {
  EntitiesByPredicateValue_graph p v n w : graph_of (EntitiesByPredicateValue p v n w).2 = graph_of w }.

(** The holder of a knowledge record is written when the record is born and
    never again, so a record that the index lists under a holder has that
    holder: what the loader relies on, which does not look again. *)
Class HonestQueries (W : Type) `{HasGraph W, PredicateReader W} : Prop := {
  holders_hold actor n w ids w' id e :
    EntitiesByPredicateValue KnowledgeActorHolder actor n w = (Ok ids, w') -> id ∈ ids ->
    graph_of w !! id = Some e -> AString actor ∈ objectsFor e KnowledgeActorHolder }.

Section snapshot.
Context {W : Type} `{Substrate, ObjectEncoder, HasGraph W, GraphStore W, Clock W, CaseArtifacts W, Ctx W, PredicateReader W}.
Context `{!GraphStoreLaws W, !CaseArtifactsLaws W, !CtxLaws W, !PredicateReaderLaws W, !HonestQueries W}.
Implicit Types (w : W).

(** The authorities a grant asks only read. *)
Definition quiet_shares (shares : option (ShareAuthorizer W)) : Prop :=
  forall authorized actor recipient evidence, shares = Some authorized -> reading (authorized actor recipient evidence).
Definition quiet_witnesses (witnesses : option (WitnessAuthorizer W)) : Prop :=
  forall witness actor targets, witnesses = Some witness -> reading (witness actor targets).

Lemma share_ok_reading input shares recipient refs : quiet_shares shares -> reading (share_ok input shares recipient refs).
Proof.
  intros Hq. induction refs as [|ev refs IH]; cbn [share_ok]; [apply reading_ret|].
  destruct (negb _); [apply reading_throw|]. apply reading_bind.
  - destruct shares as [authorized|]; [|apply reading_ret].
    apply reading_bind; [apply reading_attempt; by apply Hq|intros; apply reading_lift].
  - intros []; [apply IH|apply reading_throw].
Qed.

Lemma with_witness_reading input decision witnesses : quiet_witnesses witnesses -> reading (with_witness input decision witnesses).
Proof.
  intros Hq. unfold with_witness. destruct witnesses as [witness|]; [|apply reading_ret].
  destruct (Nat.eqb _ _); [apply reading_ret|].
  apply reading_bind; [apply reading_attempt; by apply Hq|]. intros r. apply reading_bind; [apply reading_lift|].
  intros [id []]; cbn [negb]; [|apply reading_ret]. destruct (_ || _); [apply reading_throw|apply reading_ret].
Qed.

Lemma AuthorizeWithWitnesses_reading input shares witnesses :
  quiet_shares shares -> quiet_witnesses witnesses -> reading (AuthorizeWithWitnesses input shares witnesses).
Proof.
  intros Hs Hw. unfold AuthorizeWithWitnesses. destruct (pf_Decision input) as [decision|]; [|apply reading_throw].
  do 2 (destruct (negb _); [apply reading_throw|]). destruct (_ || _).
  { apply reading_bind; [apply reading_lift|]. intros _. by apply with_witness_reading. }
  destruct (String.eqb _ _).
  { destruct (cd_TargetRefs decision) as [|t [|]]; [apply reading_throw| |apply reading_throw].
    destruct (negb _); [apply reading_throw|apply reading_lift]. }
  destruct (String.eqb _ _).
  { destruct (cd_TargetRefs decision) as [|t [|]]; [apply reading_throw| |apply reading_throw].
    apply reading_bind; [by apply share_ok_reading|]. intros _. apply reading_ret. }
  destruct (_ || _); [|apply reading_throw]. destruct (negb _); [apply reading_throw|apply reading_ret].
Qed.

(** A batch is authorized as a whole before anything is written. *)
Lemma quiet_stays g shares : quiet_shares shares -> stays_here (fun w => graph_of w = g) shares.
Proof. intros Hq authorized actor recipient evidence w Hs Hw. by rewrite (Hq _ _ _ _ Hs w). Qed.

(** A plan authorized of a snapshot of [g]. *)
Definition plan_of (g : graph) input shares (witnesses : option (WitnessAuthorizer W)) plan : Prop :=
  plan_sound (fun w => graph_of w = g) input shares witnesses plan.

Lemma GrantWithWitnesses_spec turn input shares witnesses w :
  quiet_shares shares -> quiet_witnesses witnesses ->
  wp (GrantWithWitnesses turn input shares witnesses) (fun r w' =>
    match (AuthorizeWithWitnesses input shares witnesses w).1 with
    | Err err => r = Err err /\ graph_of w' = graph_of w
    | Ok plan => plan_of (graph_of w) input shares witnesses plan /\ exists decision, pf_Decision input = Some decision /\
        commit_effect turn decision plan (graph_of w) (graph_of w') r
    end) w.
Proof.
  intros Hs Hw. unfold GrantWithWitnesses. apply wp_bind.
  pose proof (AuthorizeWithWitnesses_reading input shares witnesses Hs Hw w) as Hread.
  pose proof (AuthorizeWithWitnesses_spec _ input shares witnesses w (quiet_stays (graph_of w) _ Hs) eq_refl) as Hsound.
  unfold wp in Hsound. unfold wp at 1.
  destruct (AuthorizeWithWitnesses input shares witnesses w) as [[plan|err] w1]; cbn [fst snd] in *; [|done].
  destruct Hsound as (decision & Hd & Hrest). rewrite Hd.
  eapply wp_mono; [apply commit_grants_spec|]. rewrite Hread. intros r w2 Hc. split; [by exists decision|by exists decision].
Qed.

(** A read of the graph whose failure is the caller's. *)
Lemma wp_read {A} id (k : EntityState -> MW W A) (Q : res A -> W -> Prop) w :
  (forall err w', graph_of w' = graph_of w -> Q (Err err) w') ->
  (forall e w', graph_of w' = graph_of w -> graph_of w !! id = Some e -> wp (k e) Q w') ->
  wp (e ← GetEntity id; k e) Q w.
Proof.
  intros Herr Hok. apply wp_bind. eapply wp_mono; [apply GetEntity_spec|]. intros [e|err] w' [Hg He]; auto.
Qed.

(** The rules an entity of evidence states for its own disclosure. *)
Definition reveal_rule (g : graph) (evidenceID : string) (el : eligibility) : Prop :=
  exists e text, g !! evidenceID = Some e /\ soleString e EvidenceRevealPhase = Ok text /\
    ParseCasePhase text = Ok (el_MinimumPhase el) /\
    el_Kinds el = knowledge_objects e EvidenceRevealKindPredicate /\
    el_Targets el = knowledge_objects e EvidenceRevealTarget.
Definition eligible_in (g : graph) (rules : gmap string eligibility) : Prop := map_Forall (reveal_rule g) rules.

Lemma loadEligibility_spec g ids out w : graph_of w = g -> eligible_in g out ->
  wp (loadEligibility ids out) (fun r w' => graph_of w' = g /\
    match r with Ok rules => eligible_in g rules | Err _ => True end) w.
Proof.
  revert out w. induction ids as [|id ids IH]; intros out w Hg Hout; cbn [loadEligibility]; [by apply wp_ret|].
  apply wp_bind, wp_attempt. eapply wp_mono; [apply GetEntity_spec|]. rewrite Hg. intros [e|err] w1 [Hg1 Hr].
  - apply wp_lift_bind; [|done]. intros text Htext. apply wp_lift_bind; [|done]. intros minimum Hmin.
    apply wp_lift_bind; [|done]. intros _ _. apply IH; [done|]. apply map_Forall_insert_2; [|done].
    by exists e, text.
  - destruct (errors_Is _ _); [by apply IH|by apply wp_throw].
Qed.

(** What an entity says its holder believes of a piece of evidence. *)
Definition belief_of (g : graph) (key : string * string) (b : AuthoredBelief) : Prop :=
  (ab_HolderID b, ab_EvidenceID b) = key /\
  exists e, g !! ab_ID b = Some e /\ soleString e BeliefActorHolder = Ok key.1 /\
    soleString e BeliefEvidenceRef = Ok key.2 /\ soleString e WorldEntityDescription = Ok (ab_Prose b).
Definition beliefs_in (g : graph) (beliefs : gmap (string * string) AuthoredBelief) : Prop :=
  map_Forall (belief_of g) beliefs.

Lemma read_beliefs_spec g ids out w : graph_of w = g -> beliefs_in g out ->
  wp (read_beliefs ids out) (fun r w' => graph_of w' = g /\
    match r with Ok beliefs => beliefs_in g beliefs | Err _ => True end) w.
Proof.
  revert out w. induction ids as [|id ids IH]; intros out w Hg Hout; cbn [read_beliefs]; [by apply wp_ret|].
  apply wp_read; [intros; split; [congruence|done]|]. rewrite Hg. intros e w1 Hg1 He.
  apply wp_lift_bind; [|done]. intros ev Hev. apply wp_lift_bind; [|done]. intros ? _.
  apply wp_lift_bind; [|done]. intros ? _. apply wp_lift_bind; [|done]. intros prose Hprose.
  apply wp_lift_bind; [|done]. intros holder Hholder. apply IH; [done|]. apply map_Forall_insert_2; [|done].
  split; [done|]. by exists e.
Qed.

Lemma loadBeliefs_spec actor w :
  wp (loadBeliefs actor ∅) (fun r w' => graph_of w' = graph_of w /\
    match r with Ok beliefs => beliefs_in (graph_of w) beliefs | Err _ => True end) w.
Proof.
  unfold loadBeliefs. apply wp_bind. pose proof (EntitiesByPredicateValue_graph BeliefActorHolder actor 64 w) as Hg.
  unfold wp at 1. destruct (EntitiesByPredicateValue _ _ _ w) as [[ids|err] w1]; cbn [fst snd] in *; [|done].
  apply read_beliefs_spec; [done|apply map_Forall_empty].
Qed.

(** Evidence the graph holds as known, by whom it holds it. *)
Definition known_by (g : graph) (actor evidenceID : string) : Prop :=
  exists id e, g !! id = Some e /\ soleString e KnowledgeEvidenceRef = Ok evidenceID /\
    AString actor ∈ objectsFor e KnowledgeActorHolder.
Definition known_in (g : graph) (actor : string) (known : list (string * string)) : Prop :=
  Forall (fun k => k.1 = actor /\ known_by g actor k.2) known.

Lemma loadKnown_spec actor w :
  wp (loadKnown actor []) (fun r w' => graph_of w' = graph_of w /\
    match r with Ok known => known_in (graph_of w) actor known | Err _ => True end) w.
Proof.
  unfold loadKnown. apply wp_bind. pose proof (EntitiesByPredicateValue_graph KnowledgeActorHolder actor MaxKnowledgeReceiptEntries w) as Hg.
  unfold wp at 1. destruct (EntitiesByPredicateValue _ _ _ w) as [[ids|err] w1] eqn:Hq; cbn [fst snd] in *; [|done].
  assert (Hids : Forall (fun id => forall e, graph_of w !! id = Some e -> AString actor ∈ objectsFor e KnowledgeActorHolder) ids).
  { apply Forall_forall. intros id Hin e. by eapply holders_hold. }
  rewrite <- Hg in Hids |- *. clear Hg Hq w. assert (Hnil : known_in (graph_of w1) actor []) by constructor. revert Hnil.
  generalize (@nil (string * string)) as out. revert w1 Hids.
  induction ids as [|id ids IH]; intros w Hids out Hout; cbn [read_known]; [by apply wp_ret|].
  apply Forall_cons in Hids as [Hid Hids]. apply wp_read; [done|]. intros e w2 Hg He.
  apply wp_lift_bind; [|done]. intros ev Hev. rewrite <- Hg in Hids, Hout, He, Hid |- *.
  apply IH; [done|]. constructor; [|done]. split; [done|]. exists id, e. auto.
Qed.

(** The decision a turn refers to, as the artifact store has it. *)
Definition turns_decision (g : graph) (turn : string) (decision : CaseDecision) : Prop :=
  exists t text ref record w w', g !! turn = Some t /\ soleString t TurnCaseDecisionRef = Ok text /\
    ParseRef text = Ok ref /\ graph_of w = g /\ artifacts_GetCaseDecisionRecord ref w = (Ok (Some record), w') /\
    cdr_TurnID record = entityInstance turn /\ cdr_Status record <> CaseDecisionStatusNotApplicable /\
    cdr_Decision record = Some decision /\ cd_TurnID decision = entityInstance turn.

(** The character the player of a turn plays. *)
Definition plays (g : graph) (turn actor : string) : Prop :=
  exists t player p, g !! turn = Some t /\ soleString t TurnActionPlayer = Ok player /\
    g !! player = Some p /\ soleString p PlayerCharacterCurrent = Ok actor.

(** What a preflight says of the graph it was loaded from. *)
Record snapshot_of (g : graph) (caseID turn : string) (input : Preflight) : Prop := {
  snapshot_case : pf_CaseID input = caseID;
  snapshot_decision : exists decision, pf_Decision input = Some decision /\ turns_decision g turn decision;
  snapshot_actor : plays g turn (pf_ActingActorID input);
  snapshot_members : exists c, g !! caseID = Some c /\ currentCasePhase c = Ok (pf_CasePhase input) /\
    pf_CaseEvidence input = knowledge_objects c CaseMemberEvidence /\
    pf_CaseCharacters input = knowledge_objects c CaseMemberSuspect ++ knowledge_objects c CaseMemberVictim /\
    pf_SolutionLocked input = knowledge_objects c CaseSolutionCulprit ++ knowledge_objects c CaseSolutionMethod ++
      knowledge_objects c CaseSolutionMotive;
  snapshot_eligibility : eligible_in g (pf_Eligibility input);
  snapshot_beliefs : beliefs_in g (pf_Beliefs input);
  snapshot_known : known_in g (pf_ActingActorID input) (pf_Known input) }.

Lemma load_decision_spec turn state w : graph_of w !! turn = Some state ->
  wp (load_decision turn state) (fun r w' => graph_of w' = graph_of w /\
    match r with Ok (Some decision) => turns_decision (graph_of w) turn decision | _ => True end) w.
Proof.
  intros Hstate. unfold load_decision. apply wp_lift_bind; [|done]. intros text Htext.
  apply wp_lift_bind; [|done]. intros ref Href.
  apply wp_bind. pose proof (GetCaseDecisionRecord_graph ref w) as Hg. unfold wp at 1.
  destruct (artifacts_GetCaseDecisionRecord ref w) as [[[record|]|err] w1] eqn:Hget; cbn [fst snd] in *; [|by apply wp_throw|done].
  destruct (String.eqb_spec (cdr_TurnID record) (entityInstance turn)) as [Ht|]; cbn [negb]; [|by apply wp_throw].
  destruct (cdr_Decision record) as [decision|] eqn:Hdec.
  - destruct (String.eqb_spec (cd_TurnID decision) (entityInstance turn)) as [Hd|]; cbn [negb]; [|by apply wp_throw].
    destruct (String.eqb_spec (cdr_Status record) CaseDecisionStatusNotApplicable) as [|Hs]; apply wp_ret; [done|].
    split; [done|]. by exists state, text, ref, record, w, w1.
  - by destruct (String.eqb _ _); [apply wp_ret|apply wp_throw].
Qed.

Lemma load_beliefs_spec (decision : CaseDecision) w :
  wp (match cd_TargetRefs decision with
      | [target] => if String.eqb (cd_Kind decision) CaseDecisionQuestion then loadBeliefs target ∅ else mret ∅
      | _ => mret ∅
      end : MW W _) (fun r w' => graph_of w' = graph_of w /\
    match r with Ok beliefs => beliefs_in (graph_of w) beliefs | Err _ => True end) w.
Proof.
  assert (Hnone : wp (mret ∅ : MW W _) (fun r w' => graph_of w' = graph_of w /\
    match r with Ok beliefs => beliefs_in (graph_of w) beliefs | Err _ => True end) w).
  { apply wp_ret. split; [done|apply map_Forall_empty]. }
  destruct (cd_TargetRefs decision) as [|target [|]]; [exact Hnone| |exact Hnone].
  destruct (String.eqb _ _); [apply loadBeliefs_spec|exact Hnone].
Qed.

Lemma load_known_spec (decision : CaseDecision) actor w :
  wp (if String.eqb (cd_Kind decision) CaseDecisionShare then loadKnown actor [] else mret [] : MW W _) (fun r w' =>
    graph_of w' = graph_of w /\ match r with Ok known => known_in (graph_of w) actor known | Err _ => True end) w.
Proof. destruct (String.eqb _ _); [apply loadKnown_spec|apply wp_ret; split; [done|constructor]]. Qed.

Lemma Load_spec caseID turn w :
  wp (Load caseID turn) (fun r w' => graph_of w' = graph_of w /\
    match r with
    | Ok loaded => lr_TurnID loaded = entityInstance turn /\
        match lr_Preflight loaded with
        | Some input => lr_Applicable loaded = true /\ snapshot_of (graph_of w) caseID turn input
        | None => lr_Applicable loaded = false
        end
    | Err _ => True
    end) w.
Proof.
  unfold Load. apply wp_read; [done|]. intros t w1 Hg1 Ht. rewrite <- Hg1 in Ht.
  apply wp_bind. eapply wp_mono; [by apply load_decision_spec|]. rewrite Hg1 in Ht |- *. intros [[decision|]|err] w2 [Hg2 Hd].
  2: { by apply wp_ret. } 2: done.
  apply wp_lift_bind; [|done]. intros player Hplayer. apply wp_read; [by rewrite Hg2|]. intros p w3 Hg3 Hp.
  rewrite Hg2 in Hg3, Hp. apply wp_lift_bind; [|by rewrite Hg3]. intros actor Hactor.
  apply wp_read; [by rewrite Hg3|]. intros c w4 Hg4 Hc. rewrite Hg3 in Hg4, Hc.
  apply wp_lift_bind; [|by rewrite Hg4]. intros phase Hphase.
  apply wp_bind. eapply wp_mono; [apply (loadEligibility_spec _ _ _ _ Hg4), map_Forall_empty|].
  intros [rules|err] w5 [Hg5 Hel]; [|done].
  apply wp_bind. eapply wp_mono; [apply load_beliefs_spec|]. rewrite Hg5. intros [beliefs|err] w6 [Hg6 Hbel]; [|done].
  apply wp_bind. eapply wp_mono; [apply load_known_spec|]. rewrite Hg6. intros [known|err] w7 [Hg7 Hkn]; [|done].
  apply wp_ret. split; [done|]. cbn. split_and!; [done..|]. split; cbn; [done| | | |done..].
  - by exists decision.
  - by exists t, player, p.
  - by exists c.
Qed.
End snapshot.

(** ** Deliveries *)

(** The entities a delivery may add: those of a plan its snapshot entitles. *)
Definition allowed_births {W} `{Substrate, HasGraph W, CaseArtifacts W} (caseID turn : string) (shares : option (ShareAuthorizer W))
    (witnesses : option (WitnessAuthorizer W)) (g g' : graph) : Prop :=
  g' = g \/ exists input decision plan, snapshot_of g caseID turn input /\ pf_Decision input = Some decision /\
    plan_of g input shares witnesses plan /\ grant_births decision plan g g'.

(** What says who learned which evidence. *)
Definition disclosures : list string :=
  [KnowledgeActorHolder; KnowledgeEvidenceRef; RevelationActorHolder; RevelationEvidenceRef].

(** Turns move along their FSM, and nobody learns anything. *)
Definition turn_writes `{Substrate} (g g' : graph) : Prop :=
  fsm_run g g' /\ forall p, p ∈ disclosures -> keeps p g g'.

Lemma turn_writes_refl `{Substrate} g : turn_writes g g.
Proof. split; [apply rtc_refl|]. intros p _ id. done. Qed.

Lemma turn_writes_trans `{Substrate} g g1 g2 : turn_writes g g1 -> turn_writes g1 g2 -> turn_writes g g2.
Proof. intros [Hr1 Hk1] [Hr2 Hk2]. split; [by etrans|]. intros p Hp. etrans; [by apply Hk1|by apply Hk2]. Qed.

(** The turn is over, or names its knowledge receipt. *)
Definition knowledge_settled (turn : string) (g' : graph) : Prop :=
  turn_over g' turn \/ exists ref, objects_in g' turn TurnKnowledgeRef = Some [AString (Ref_String ref)].

Section deliveries.
Context {W : Type} `{Substrate, ObjectEncoder, HasGraph W, GraphStore W, Clock W, CaseArtifacts W, Ctx W}.
Context `{PredicateReader W, ActionStore W, !GraphStoreLaws W, !CaseArtifactsLaws W, !CtxLaws W}.
Context `{!PredicateReaderLaws W, !HonestQueries W, !ActionStoreLaws W, !VocabularyLaws}.
Implicit Types (w : W).

Lemma pointed_run turn ref g g' : pointed turn ref g g' -> turn_writes g g'.
Proof.
  intros [t He]. split; [apply fsm_keep; (eapply reconcile_keeps; [exact He|not_in_target])|].
  intros p Hp. eapply reconcile_keeps; [exact He|]. unfold disclosures in Hp. closed_cases Hp; not_in_target.
Qed.

Lemma pointed_lands turn ref g g' : pointed turn ref g g' -> objects_in g' turn TurnKnowledgeRef = Some [AString (Ref_String ref)].
Proof. intros [t He]. eapply reconcile_single; [exact He|in_target|]. done. Qed.

Lemma commit_effect_run turn decision plan g g' r :
  commit_effect turn decision plan g g' r -> exists g1, grant_births decision plan g g1 /\ turn_writes g1 g'.
Proof.
  intros (g1 & Hb & Hr). exists g1. split; [done|]. destruct r as [ref|err].
  - eapply pointed_run, Hr.
  - destruct Hr as [->|(ref & _ & Hp)]; [apply turn_writes_refl|by eapply pointed_run].
Qed.

Lemma Fail_writes turnID turn reason detail w :
  wp (Fail_ turnID turn reason detail) (fun r w' => turn_writes (graph_of w) (graph_of w') /\
    match r with Ok _ => turn_over (graph_of w') turn | Err _ => True end) w.
Proof.
  eapply wp_mono; [apply wp_both; [apply Fail_ends|]|].
  - instantiate (1 := fun _ w' => forall p, p ∈ disclosures -> keeps p (graph_of w) (graph_of w')).
    intros p Hp. unfold disclosures in Hp. apply (steady_Fail p turnID turn reason detail); closed_cases Hp; first [not_in_target|done].
  - intros r w' [[Hm Hr] Hk]. split; [|done]. split; [by apply fsm_once|done].
Qed.

Lemma failUnauthorized_spec trigger reason w :
  wp (failUnauthorized trigger reason) (fun r w' => turn_writes (graph_of w) (graph_of w') /\
    match r with Ok _ => turn_over (graph_of w') (t_TurnEntityID trigger) | Err _ => True end) w.
Proof.
  pose proof turn_writes_refl as Hstay.
  unfold failUnauthorized. apply wp_artifact; [intros; apply artifacts_PutFailureDetail_graph|]. intros [ref|err] w1 Hg.
  2: { apply wp_throw. by rewrite Hg. }
  destruct (Ref_IsZero ref); [apply wp_throw; by rewrite Hg|].
  apply wp_bind, wp_attempt. eapply wp_mono; [apply Fail_writes|]. rewrite Hg.
  intros [tr|err] w2 [Hm Hr]; [by apply wp_ret|by apply wp_throw].
Qed.

Lemma GrantNotApplicable_spec turnID turn w :
  wp (GrantNotApplicable turnID turn) (fun r w' => turn_writes (graph_of w) (graph_of w') /\
    match r with Ok ref => pointed turn ref (graph_of w) (graph_of w') | Err _ => True end) w.
Proof.
  unfold GrantNotApplicable. apply wp_bind.
  set (receipt := Build_KnowledgeReceipt _ _ _ _).
  pose proof (PutKnowledgeReceipt_graph turn receipt w) as Hg. unfold wp at 1.
  destruct (artifacts_PutKnowledgeReceipt turn receipt w) as [[ref|err] w1]; cbn [fst snd] in *.
  2: { rewrite Hg. split; [apply turn_writes_refl|done]. }
  apply wp_bind. eapply wp_mono; [apply writeTurnRef_spec|]. rewrite Hg. intros [u|err] w2 Hr.
  - apply wp_ret. split; [by eapply pointed_run|done].
  - split; [|done]. destruct Hr as [->|Hr]; [apply turn_writes_refl|by eapply pointed_run].
Qed.

Definition delivery_post caseID (shares : option (ShareAuthorizer W)) witnesses decoded (g g' : graph) (r : res unit) : Prop :=
  match ParseTrigger decoded with
  | Err _ => g' = g /\ is_ok r = false
  | Ok trigger => (exists g1, allowed_births caseID (t_TurnEntityID trigger) shares witnesses g g1 /\ turn_writes g1 g') /\
      match r with Ok _ => knowledge_settled (t_TurnEntityID trigger) g' | Err _ => True end
  end.

Lemma Knowledge_Handle_spec caseID shares witnesses decoded w :
  quiet_shares shares -> quiet_witnesses witnesses ->
  wp (Knowledge_Handle caseID shares witnesses decoded) (fun r w' =>
    delivery_post caseID shares witnesses decoded (graph_of w) (graph_of w') r) w.
Proof.
  intros Hs Hw. unfold Knowledge_Handle, delivery_post. destruct (ParseTrigger decoded) as [trigger|err]; [|by apply wp_throw].
  assert (Hrefuse : forall g1 reason w', allowed_births caseID (t_TurnEntityID trigger) shares witnesses (graph_of w) g1 ->
    turn_writes g1 (graph_of w') -> wp (failUnauthorized trigger reason) (fun r w'' =>
      (exists g1, allowed_births caseID (t_TurnEntityID trigger) shares witnesses (graph_of w) g1 /\ turn_writes g1 (graph_of w'')) /\
      match r with Ok _ => knowledge_settled (t_TurnEntityID trigger) (graph_of w'') | Err _ => True end) w').
  { intros g1 reason w' Hb Hrun. eapply wp_mono; [apply failUnauthorized_spec|]. intros r w'' [Hrun' Hr]. split.
    - exists g1. split; [done|]. by eapply turn_writes_trans.
    - destruct r; [by left|done]. }
  assert (Hstay : allowed_births caseID (t_TurnEntityID trigger) shares witnesses (graph_of w) (graph_of w)) by (by left).
  apply wp_bind, wp_attempt. eapply wp_mono; [apply Load_spec|]. intros [loaded|err] w1 [Hg Hl].
  2: { destruct (rejection_of err) as [reason|]; [eapply Hrefuse; [exact Hstay|rewrite Hg; apply turn_writes_refl]|].
       apply wp_throw. rewrite Hg. split; [|done]. exists (graph_of w). split; [done|apply turn_writes_refl]. }
  destruct Hl as [_ Hl]. destruct (lr_Preflight loaded) as [input|].
  - destruct Hl as [-> Hsnap]. apply wp_bind, wp_attempt. eapply wp_mono; [by apply GrantWithWitnesses_spec|].
    rewrite Hg. intros r w2 Hr.
    assert (Hb : exists g1, allowed_births caseID (t_TurnEntityID trigger) shares witnesses (graph_of w) g1 /\ turn_writes g1 (graph_of w2)).
    { destruct (AuthorizeWithWitnesses input shares witnesses w1).1 as [plan|err].
      - destruct Hr as (Hsound & decision & Hd & Hc). apply commit_effect_run in Hc as (g1 & Hb & Hrun).
        exists g1. split; [|done]. right. by exists input, decision, plan.
      - destruct Hr as [_ ->]. exists (graph_of w). split; [done|apply turn_writes_refl]. }
    destruct r as [ref|err].
    + apply wp_ret. split; [done|]. destruct (AuthorizeWithWitnesses input shares witnesses w1).1; [|by destruct Hr].
      destruct Hr as (_ & decision & _ & g1 & _ & _ & Hp). right. exists ref. by eapply pointed_lands.
    + destruct Hb as (g1 & Hb & Hrun). destruct (rejection_of err) as [reason|]; [by eapply Hrefuse|].
      apply wp_throw. split; [by exists g1|done].
  - rewrite Hl. apply wp_bind. eapply wp_mono; [apply GrantNotApplicable_spec|]. rewrite Hg. intros [ref|err] w2 [Hrun Hr].
    + apply wp_ret. split; [by exists (graph_of w)|]. right. exists ref. by eapply pointed_lands.
    + split; [by exists (graph_of w)|done].
Qed.
End deliveries.

(** ** What is learned *)

(** One entity tells one recipient of one piece of evidence. *)
Definition tells (g : graph) (id recipient evidenceID : string) : Prop :=
  exists e, g !! id = Some e /\
    objectsFor e KnowledgeActorHolder ++ objectsFor e RevelationActorHolder = [AString recipient] /\
    objectsFor e KnowledgeEvidenceRef ++ objectsFor e RevelationEvidenceRef = [AString evidenceID].

Lemma tells_keeps g g' id recipient evidenceID :
  (forall p, p ∈ disclosures -> keeps p g g') -> tells g id recipient evidenceID -> tells g' id recipient evidenceID.
Proof.
  intros Hk (e & He & Hr & Hev). assert (Hobj : forall p, p ∈ disclosures -> objects_in g' id p = Some (objectsFor e p)).
  { intros p Hp. rewrite (Hk p Hp). unfold objects_in. by rewrite He. }
  unfold objects_in in Hobj. destruct (g' !! id) as [e'|] eqn:He'.
  2: { specialize (Hobj KnowledgeActorHolder ltac:(in_target)). discriminate Hobj. }
  exists e'. split; [done|]. assert (Heq : forall p, p ∈ disclosures -> objectsFor e' p = objectsFor e p).
  { intros p Hp. specialize (Hobj p Hp). by injection Hobj. }
  rewrite !Heq; [done|in_target..].
Qed.

(** A phase of the case machine that is no earlier than another. *)
Definition phase_reached (current minimum : string) : Prop :=
  exists before later, CasePhases = before ++ minimum :: later /\ current ∈ minimum :: later.

(** Evidence of the case, and no part of its solution before the denouement. *)
Definition case_tells (case : EntityState) (evidenceID : string) : Prop :=
  AString evidenceID ∈ objectsFor case CaseMemberEvidence /\
  (AString evidenceID ∈ objectsFor case CaseSolutionCulprit ++ objectsFor case CaseSolutionMethod ++ objectsFor case CaseSolutionMotive ->
   currentCasePhase case = Ok CasePhaseDenouement).

(** The evidence's own rules admit this act, in this phase of the case, on one
    of its targets. *)
Definition rules_admit (g : graph) (case : EntityState) (decision : CaseDecision) (evidenceID : string) : Prop :=
  exists e text minimum phase target, g !! evidenceID = Some e /\
    AString (cd_Kind decision) ∈ objectsFor e EvidenceRevealKindPredicate /\
    soleString e EvidenceRevealPhase = Ok text /\ ParseCasePhase text = Ok minimum /\
    currentCasePhase case = Ok phase /\ phase_reached phase minimum /\
    target ∈ cd_TargetRefs decision /\ AString target ∈ objectsFor e EvidenceRevealTarget.

(** Why the decision of a turn lets somebody learn a piece of evidence. *)
Inductive may_learn {W} `{HasGraph W} (g : graph) (case : EntityState) (decision : CaseDecision)
    (shares : option (ShareAuthorizer W)) (witnesses : option (WitnessAuthorizer W)) (recipient evidenceID : string) : Prop :=
| learns_by_looking :
    cd_Kind decision = CaseDecisionObserve \/ cd_Kind decision = CaseDecisionInvestigate ->
    case_tells case evidenceID -> rules_admit g case decision evidenceID ->
    recipient = cd_ActorID decision \/ (exists witness w w', witnesses = Some witness /\ recipient <> EmptyString /\
      graph_of w = g /\ witness (cd_ActorID decision) (cd_TargetRefs decision) w = (Ok (recipient, true), w')) ->
    may_learn g case decision shares witnesses recipient evidenceID
| learns_by_asking target id belief :
    cd_Kind decision = CaseDecisionQuestion -> cd_TargetRefs decision = [target] ->
    AString target ∈ objectsFor case CaseMemberSuspect ++ objectsFor case CaseMemberVictim ->
    case_tells case evidenceID -> g !! id = Some belief -> soleString belief BeliefActorHolder = Ok target ->
    soleString belief BeliefEvidenceRef = Ok evidenceID -> recipient = cd_ActorID decision ->
    may_learn g case decision shares witnesses recipient evidenceID
| learns_from_the_actor authorized w w' :
    cd_Kind decision = CaseDecisionShare -> cd_TargetRefs decision = [recipient] ->
    known_by g (cd_ActorID decision) evidenceID -> shares = Some authorized -> graph_of w = g ->
    authorized (cd_ActorID decision) recipient evidenceID w = (Ok true, w') ->
    may_learn g case decision shares witnesses recipient evidenceID.

Lemma knowledge_objects_elem e p v : v ∈ knowledge_objects e p <-> AString v ∈ objectsFor e p.
Proof.
  unfold knowledge_objects. rewrite list_elem_of_omap. split.
  - intros (o & Ho & Hv). by destruct o; simplify_eq.
  - intros Hv. by exists (AString v).
Qed.

Lemma soleString_elem e p v : soleString e p = Ok v -> AString v ∈ objectsFor e p.
Proof.
  unfold soleString. destruct (knowledge_objects e p) as [|x [|]] eqn:Hk; try done. intros [= <-].
  apply knowledge_objects_elem. rewrite Hk. left.
Qed.

Lemma index_position x l n : 0 <= n -> index_from n x l = -1 \/
  exists before later, l = before ++ x :: later /\ (x ∉ before) /\ index_from n x l = n + Z.of_nat (List.length before).
Proof.
  revert n. induction l as [|y l IH]; intros n Hn; cbn [index_from]; [by left|].
  destruct (String.eqb_spec y x) as [->|Hne].
  - right. exists [], l. split_and!; [done|set_solver|cbn; lia].
  - destruct (IH (n + 1) ltac:(lia)) as [|(before & later & -> & Hni & ->)]; [by left|right].
    exists (y :: before), later. split_and!; [done|set_solver|cbn [List.length]; lia].
Qed.

Lemma phaseAtLeast_reached current minimum : phaseAtLeast current minimum = true -> phase_reached current minimum.
Proof.
  unfold phaseAtLeast. cbv zeta. intros [Hle%Z.leb_le Hge%Z.leb_le]%andb_true_iff.
  destruct (index_position minimum CasePhases 0) as [|(before & later & Heq & Hni & Hm)]; [lia..|].
  exists before, later. split; [done|].
  destruct (index_position current CasePhases 0) as [|(before' & later' & Heq' & _ & Hc)]; [lia..|].
  rewrite Hm, Hc in Hle. rewrite Heq in Heq'.
  assert (Hin : (before ++ minimum :: later) !! List.length before' = Some current) by (by rewrite Heq', list_lookup_middle).
  rewrite lookup_app_r in Hin by lia. by eapply list_elem_of_lookup_2.
Qed.

(** A grant that was born tells its recipient of its evidence. *)
Lemma grant_tells `{Substrate, !VocabularyLaws} decision plan want g e :
  grant_of decision plan want -> born want e -> g !! ID want = Some e ->
  exists entry, entry ∈ plan /\ tells g (ID want) (en_RecipientID entry) (en_EvidenceID entry).
Proof.
  intros (d & Hin & _ & Hwant) [_ Hb] Hg. exists (dv_entry d). split; [done|]. exists e. split; [done|].
  assert (Hobj : forall p, p ∈ disclosures -> (List.length (objectsFor want p) <= 1)%nat -> objectsFor e p = objectsFor want p).
  { intros p Hp Hl. assert (Hperm : objectsFor e p ≡ₚ objectsFor want p).
    { apply Hb. intros Heq. apply EntityIndexingProfile_foreign. rewrite <- Heq. unfold disclosures in Hp.
      clear Heq. closed_cases Hp; in_target. }
    destruct (objectsFor want p) as [|o [|]]; [by apply Permutation_nil_r|by apply Permutation_singleton_r|cbn in Hl; lia]. }
  rewrite (Hobj KnowledgeActorHolder), (Hobj KnowledgeEvidenceRef), (Hobj RevelationActorHolder), (Hobj RevelationEvidenceRef);
    try in_target; clear Hobj Hb Hg Hin;
    (destruct Hwant as [[t ->]|(refs & t & ->)]; unfold objectsFor, triplesFor, revelation_entity;
     [|destruct (en_Testimony (dv_entry d))];
     first [split; reflexivity|apply Nat.leb_le; reflexivity]).
Qed.

(** What a snapshot entitles to, the graph it was taken of lets be learned. *)
Lemma entitled_may_learn {W} `{Substrate, HasGraph W, CaseArtifacts W} g caseID turn input decision
    (shares : option (ShareAuthorizer W)) witnesses e :
  snapshot_of g caseID turn input -> cd_ActorID decision = pf_ActingActorID input ->
  entitled (fun w => graph_of w = g) input decision shares witnesses e ->
  exists case, g !! caseID = Some case /\ may_learn g case decision shares witnesses (en_RecipientID e) (en_EvidenceID e).
Proof.
  intros Hsnap Hactor He. destruct (snapshot_members _ _ _ _ Hsnap) as (c & Hc & Hphase & Hev & Hchars & Hlock).
  exists c. split; [done|].
  assert (Htell : forall ev, tellable input ev -> case_tells c ev).
  { intros ev [Hin Hl]. rewrite Hev in Hin. apply knowledge_objects_elem in Hin. split; [done|]. intros Hs.
    rewrite Hphase, Hl; [done|]. rewrite Hlock, !elem_of_app, !knowledge_objects_elem. by rewrite !elem_of_app in Hs. }
  destruct He as [Hkind Ht Hel Hobs _|target b Hkind Htargets Hchar Ht Hb Hr _|authorized w w' Hkind Htargets Hk Hs Hw Ha _].
  - apply learns_by_looking; [done|by apply Htell| |].
    + destruct Hel as (el & Hel & Hkinds & Hp & target & Hin & Htarget).
      destruct (snapshot_eligibility _ _ _ _ Hsnap _ _ Hel) as (entity & text & Hg & Htext & Hmin & Heq & Heqt).
      rewrite Heq, knowledge_objects_elem in Hkinds. rewrite Heqt, knowledge_objects_elem in Htarget.
      exists entity, text, (el_MinimumPhase el), (pf_CasePhase input), target. by apply phaseAtLeast_reached in Hp.
    + rewrite Hactor. exact Hobs.
  - destruct (snapshot_beliefs _ _ _ _ Hsnap _ _ Hb) as (_ & belief & Hg & Hholder & Hevidence & _).
    eapply learns_by_asking; [done|exact Htargets| |by apply Htell|exact Hg|done|done|congruence].
    rewrite Hchars, elem_of_app, !knowledge_objects_elem in Hchar. by rewrite elem_of_app.
  - pose proof (snapshot_known _ _ _ _ Hsnap) as Hknown. unfold known_in in Hknown. rewrite Forall_forall in Hknown.
    destruct (Hknown _ Hk) as [_ Hby]. cbn [snd] in Hby. rewrite <- Hactor in Hby, Ha.
    by eapply learns_from_the_actor.
Qed.

(** Only what the decision reveals is granted. *)
Lemma grants_revealed decision plan e : grants_reveals decision plan -> e ∈ plan -> en_EvidenceID e ∈ cd_RevealRefs decision.
Proof.
  intros (recipients & _ & _ & Hmap) He.
  assert (Hin : (en_RecipientID e, en_EvidenceID e) ∈ map (fun e => (en_RecipientID e, en_EvidenceID e)) plan)
    by (apply list_elem_of_fmap; by exists e).
  rewrite Hmap in Hin. apply list_elem_of_In, in_flat_map in Hin as (r & _ & Hin).
  apply in_map_iff in Hin as (ev & [= _ <-] & Hin). by apply list_elem_of_In.
Qed.

Section theorems.
Context {W : Type} `{Substrate, ObjectEncoder, HasGraph W, GraphStore W, Clock W, CaseArtifacts W, Ctx W}.
Context `{PredicateReader W, ActionStore W, !GraphStoreLaws W, !CaseArtifactsLaws W, !CtxLaws W}.
Context `{!PredicateReaderLaws W, !HonestQueries W, !ActionStoreLaws W, !VocabularyLaws}.
Implicit Types (w : W).

(** A plan reveals only what its decision is entitled to. Of any snapshot
    and any authorities: an authorized plan is for the snapshot's own case and
    actor, each of its entries is something seen at the right phase and target,
    a belief the one questioned holds, or knowledge of the actor's that the
    share authority let pass, and it grants the decision's references, once per
    recipient, to at most two recipients. *)
Theorem authorization_is_sound (input : Preflight) (shares : option (ShareAuthorizer W)) witnesses w plan w'
    (Hs : quiet_shares shares) (Hrun : AuthorizeWithWitnesses input shares witnesses w = (Ok plan, w')) :
  plan_of (graph_of w) input shares witnesses plan.
Proof. exact (wp_elim _ _ _ _ _ (AuthorizeWithWitnesses_spec _ _ _ _ w (quiet_stays _ _ Hs) eq_refl) Hrun). Qed.

(** A grant is all or nothing at its authorization, and lands its
    reference last. A refused batch writes nothing; an authorized one adds
    entities of its plan where there were none, and writes the turn's reference
    only once every grant of the plan is on record, fact for fact; whatever the
    stores do, no other entity changes, nor any other predicate of the turn. *)
Theorem grants_land_before_their_reference turn input (shares : option (ShareAuthorizer W)) witnesses w r w'
    (Hs : quiet_shares shares) (Hw : quiet_witnesses witnesses)
    (Hrun : GrantWithWitnesses turn input shares witnesses w = (r, w')) :
  match (AuthorizeWithWitnesses input shares witnesses w).1 with
  | Err err => r = Err err /\ graph_of w' = graph_of w
  | Ok plan => exists decision, pf_Decision input = Some decision /\
      commit_effect turn decision plan (graph_of w) (graph_of w') r
  end /\
  forall id e, graph_of w !! id = Some e ->
    (id <> turn -> graph_of w' !! id = Some e) /\
    (forall p, p <> TurnKnowledgeRef -> objects_in (graph_of w') id p = Some (objectsFor e p)).
Proof.
  pose proof (wp_elim _ _ _ _ _ (GrantWithWitnesses_spec turn input shares witnesses w Hs Hw) Hrun) as Hpost.
  assert (Hsame : graph_of w' = graph_of w \/ exists g1, graph_of w ⊆ g1 /\
    (graph_of w' = g1 \/ exists ref, pointed turn ref g1 (graph_of w'))).
  { destruct (AuthorizeWithWitnesses input shares witnesses w).1 as [plan|err]; [|left; by destruct Hpost].
    destruct Hpost as (_ & decision & _ & g1 & [Hsub _] & Hr). right. exists g1. split; [done|].
    destruct r as [ref|err]; [right; exists ref; apply Hr|]. destruct Hr as [Hr|(ref & _ & Hr)]; [by left|right; by exists ref]. }
  split.
  { destruct (AuthorizeWithWitnesses input shares witnesses w).1; [|done]. apply Hpost. }
  intros id e He. destruct Hsame as [->|(g1 & Hsub & Hr)]; [by split; [|intros; unfold objects_in; rewrite He]|].
  pose proof (lookup_weaken _ _ _ _ He Hsub) as He1. destruct Hr as [->|(ref & t & Hr)].
  { split; [done|]. intros p _. unfold objects_in. by rewrite He1. }
  split.
  - intros Hne. by rewrite (reconcile_other _ _ _ _ _ _ Hr Hne).
  - intros p Hp. rewrite (reconcile_keeps _ _ _ _ _ _ Hr); [unfold objects_in; by rewrite He1|].
    autorewrite with contracts. set_solver.
Qed.

(** C6: knowledge stays inside the case. Whatever the stores do, a delivery of
    the knowledge stage leaves every entity's say on who learned what as it
    was, except that it may bear entities each of which tells one recipient of
    one piece of evidence. Such evidence is among what the decision stored for
    the delivered turn reveals, that decision is of this case and of the
    character the turn's player plays, and one of three things holds of the
    graph before. The decision is to look: the evidence is the case's own and
    no part of its solution before the denouement, its own rules admit this
    kind of act in this phase on one of the decision's targets, and the
    recipient is the actor or a companion the witness authority named. Or it is
    to question one suspect or victim, who holds a belief about it, and the
    recipient is the actor. Or it is to share with the recipient what the actor
    themselves has on record, and the share authority let it pass. Entities
    that were there stay as they were until turns move along their FSM. *)
Theorem knowledge_stays_inside_the_case caseID (shares : option (ShareAuthorizer W)) witnesses decoded w r w'
    (Hs : quiet_shares shares) (Hw : quiet_witnesses witnesses)
    (Hrun : Knowledge_Handle caseID shares witnesses decoded w = (r, w')) :
  (exists g1, graph_of w ⊆ g1 /\ fsm_run g1 (graph_of w')) /\
  forall id, (forall p, p ∈ disclosures -> objects_in (graph_of w') id p = objects_in (graph_of w) id p) \/
    (graph_of w !! id = None /\
     exists trigger decision case recipient evidenceID, ParseTrigger decoded = Ok trigger /\
       turns_decision (graph_of w) (t_TurnEntityID trigger) decision /\
       plays (graph_of w) (t_TurnEntityID trigger) (cd_ActorID decision) /\ cd_CaseID decision = caseID /\
       evidenceID ∈ cd_RevealRefs decision /\ graph_of w !! caseID = Some case /\
       tells (graph_of w') id recipient evidenceID /\
       may_learn (graph_of w) case decision shares witnesses recipient evidenceID).
Proof.
  pose proof (wp_elim _ _ _ _ _ (Knowledge_Handle_spec caseID shares witnesses decoded w Hs Hw) Hrun) as Hpost.
  unfold delivery_post in Hpost. destruct (ParseTrigger decoded) as [trigger|err].
  2: { destruct Hpost as [-> _]. split; [exists (graph_of w); split; [done|apply rtc_refl]|by left]. }
  destruct Hpost as [(g1 & Hb & Hf & Hkeep) _].
  destruct Hb as [->|(input & decision & plan & Hsnap & Hd & Hsound & Hsub & Hnew)].
  { split; [by exists (graph_of w)|]. intros id. left. intros p Hp. by apply Hkeep. }
  split; [by exists g1|]. intros id. destruct (graph_of w !! id) as [e|] eqn:He.
  { left. intros p Hp. rewrite (Hkeep p Hp). unfold objects_in. by rewrite He, (lookup_weaken _ _ _ _ He Hsub). }
  destruct (g1 !! id) as [e|] eqn:He1.
  2: { left. intros p Hp. rewrite (Hkeep p Hp). unfold objects_in. by rewrite He, He1. }
  right. split; [done|]. destruct (Hnew id e He1 He) as (want & Hwant & <- & Hborn).
  destruct (grant_tells _ _ _ _ _ Hwant Hborn He1) as (entry & Hin & Htells).
  destruct Hsound as (decision' & Hd' & Hcase & Hactor & Hent & Hgrants). assert (decision' = decision) as -> by congruence.
  rewrite Forall_forall in Hent. destruct (entitled_may_learn _ _ _ _ _ _ _ _ Hsnap Hactor (Hent _ Hin)) as (case & Hc & Hlearn).
  destruct (snapshot_decision _ _ _ _ Hsnap) as (d & Hd2 & Hturn). assert (d = decision) as -> by congruence.
  exists trigger, decision, case, (en_RecipientID entry), (en_EvidenceID entry). split_and!; try done.
  - rewrite Hactor. apply (snapshot_actor _ _ _ _ Hsnap).
  - rewrite Hcase. apply (snapshot_case _ _ _ _ Hsnap).
  - by eapply grants_revealed.
  - eapply tells_keeps; [|exact Htells]. exact Hkeep.
Qed.

(** A knowledge delivery that is acknowledged is settled. When the consumer
    returns without an error the trigger was readable, and its turn names its
    knowledge receipt or is over. *)
Theorem acknowledged_knowledge_is_settled caseID (shares : option (ShareAuthorizer W)) witnesses decoded w w'
    (Hs : quiet_shares shares) (Hw : quiet_witnesses witnesses)
    (Hrun : Knowledge_Handle caseID shares witnesses decoded w = (Ok tt, w')) :
  exists trigger, ParseTrigger decoded = Ok trigger /\ knowledge_settled (t_TurnEntityID trigger) (graph_of w').
Proof.
  pose proof (wp_elim _ _ _ _ _ (Knowledge_Handle_spec caseID shares witnesses decoded w Hs Hw) Hrun) as Hpost.
  unfold delivery_post in Hpost. destruct (ParseTrigger decoded) as [trigger|err]; [|by destruct Hpost].
  exists trigger. split; [done|apply Hpost].
Qed.
End theorems.

(** ** At work on one search *)

Import CaseDemo.
Module KnowledgeDemo.
Definition companion_id : string := "acme.semmachina.barrow.case.character.watson".
Definition letter_id : string := "acme.semmachina.barrow.case.evidence.letter".

(** The case holds a letter, shown to who investigates the victim. *)
Definition case_file : EntityState :=
  with_triples (Demo.bare case_id)
    [Demo.string_triple case_id CaseLifecyclePhase CasePhaseDiscovery;
     Demo.string_triple case_id CaseMemberVictim victim_id;
     Demo.string_triple case_id CaseMemberEvidence letter_id].

Definition letter : EntityState :=
  with_triples (Demo.bare letter_id)
    [Demo.string_triple letter_id EvidenceRevealPhase CasePhaseDiscovery;
     Demo.string_triple letter_id EvidenceRevealKindPredicate CaseDecisionInvestigate;
     Demo.string_triple letter_id EvidenceRevealTarget victim_id].

Definition search_world : World :=
  mkWorld {[ Demo.player_id := with_triples (Demo.bare Demo.player_id)
               [Demo.string_triple Demo.player_id PlayerCharacterCurrent character_id];
             case_id := case_file; letter_id := letter; Demo.turn_id := turn_at PhaseAdjudicating ]} 10 [] [].

Definition search : CaseDecision := {|
  cd_DecisionID := CaseDecisionID "turn-a1" "a1" case_id character_id;
  cd_TurnID := "turn-a1"; cd_ActionID := "a1"; cd_CaseID := case_id; cd_ActorID := character_id;
  cd_Kind := CaseDecisionInvestigate; cd_TargetRefs := [victim_id]; cd_RevealRefs := [letter_id];
  cd_CulpritRef := EmptyString; cd_MethodRef := EmptyString; cd_MotiveRef := EmptyString |}.

#[export] Instance search_artifacts : CaseArtifacts World := {|
  artifacts_InstanceName := "content";
  artifacts_GetCaseDecisionRecord _ := mret (Some {| cdr_TurnID := "turn-a1"; cdr_ActionID := "a1";
    cdr_Status := CaseDecisionStatusDecision; cdr_Decision := Some search |});
  artifacts_GetKnowledgeReceipt _ := mret None;
  artifacts_PutKnowledgeReceipt _ _ := mret {| Instance_ := "content"; Key := "turn/turn-a1/knowledge" |};
  artifacts_PutTestimony _ _ := throw (Errorf "no testimony" []);
  artifacts_GetCaseProgressRecord _ := mret None;
  artifacts_PutCaseProgressRecord _ _ := throw (Errorf "no progress" []);
  artifacts_GetAccusationRecord _ := mret None;
  artifacts_PutAccusationRecord _ _ := throw (Errorf "no accusation" []);
  artifacts_PutFailureDetail _ _ := mret {| Instance_ := "content"; Key := "turn/turn-a1/failure" |} |}.

#[export] Instance search_artifacts_laws : CaseArtifactsLaws World (H0 := search_artifacts).
Proof. by split. Qed.

#[export] Instance patient : Ctx World := {| ctx_Err := mret tt |}.
#[export] Instance patient_laws : CtxLaws World.
Proof. by split. Qed.

#[export] Instance no_queries : PredicateReader World := {| EntitiesByPredicateValue _ _ _ := mret [] |}.
#[export] Instance no_queries_laws : PredicateReaderLaws World.
Proof. by split. Qed.
#[export] Instance no_queries_honest : HonestQueries World.
Proof. split. by intros actor n w ids w' id e [= <- _] ?%elem_of_nil. Qed.

#[export] Instance text_objects : ObjectEncoder := {|
  marshal_object o := match o with AString s => Ok s | _ => Err (Errorf "not text" []) end |}.

(** The companion was there. *)
Definition watson : WitnessAuthorizer World := fun _ _ => mret (companion_id, true).

Definition preflight : Preflight :=
  match (Load case_id Demo.turn_id search_world).1 with
  | Ok loaded => default (Build_Preflight None EmptyString EmptyString EmptyString [] [] ∅ ∅ [] []) (lr_Preflight loaded)
  | Err _ => Build_Preflight None EmptyString EmptyString EmptyString [] [] ∅ ∅ [] []
  end.

Definition seen_by (recipient : string) : Entry := {|
  en_RecipientID := recipient; en_EvidenceID := letter_id; en_Testimony := None |}.

Definition publication : rulePublication := {|
  EntityID_ := Demo.turn_id; Subject_ := SubjectCaseProgress; Source_ := "rules"; Properties_ := ∅ |}.

Lemma watson_quiet : quiet_witnesses (Some watson).
Proof. intros witness actor targets [= <-] w. done. Qed.
Lemma nobody_shares : quiet_shares (W := World) None.
Proof. by intros ????. Qed.
End KnowledgeDemo.
Import KnowledgeDemo.

Example the_search_is_authorized :
  (AuthorizeWithWitnesses preflight None (Some watson) search_world).1 = Ok [seen_by character_id; seen_by companion_id].
Proof. vm_compute. reflexivity. Qed.

Lemma authorization_is_sound_witness :
  plan_of (graph_of search_world) preflight None (Some watson) [seen_by character_id; seen_by companion_id].
Proof.
  apply (authorization_is_sound preflight None (Some watson) search_world _
    (AuthorizeWithWitnesses preflight None (Some watson) search_world).2).
  - exact nobody_shares.
  - vm_compute. reflexivity.
Defined.

Definition granted_search : World :=
  (GrantWithWitnesses Demo.turn_id preflight None (Some watson) search_world).2.
Definition delivered_search : World :=
  (Knowledge_Handle case_id None (Some watson) (Ok KnowledgeDemo.publication) search_world).2.

Example the_search_is_on_record :
  (GrantWithWitnesses Demo.turn_id preflight None (Some watson) search_world).1 =
    Ok {| Instance_ := "content"; Key := "turn/turn-a1/knowledge" |} /\
  (size (graph_of granted_search) = size (graph_of search_world) + 4)%nat.
Proof. vm_compute. split; reflexivity. Qed.

Lemma grants_land_before_their_reference_witness :
  forall id e, graph_of search_world !! id = Some e ->
    (id <> Demo.turn_id -> graph_of granted_search !! id = Some e) /\
    (forall p, p <> TurnKnowledgeRef -> objects_in (graph_of granted_search) id p = Some (objectsFor e p)).
Proof.
  apply (grants_land_before_their_reference Demo.turn_id preflight None (Some watson) search_world
    (GrantWithWitnesses Demo.turn_id preflight None (Some watson) search_world).1).
  - exact nobody_shares.
  - exact watson_quiet.
  - apply surjective_pairing.
Defined.

Lemma knowledge_stays_inside_the_case_witness :
  (exists g1, graph_of search_world ⊆ g1 /\ fsm_run g1 (graph_of delivered_search)) /\
  forall id, (forall p, p ∈ disclosures -> objects_in (graph_of delivered_search) id p = objects_in (graph_of search_world) id p) \/
    (graph_of search_world !! id = None /\
     exists trigger decision case recipient evidenceID, ParseTrigger (Ok KnowledgeDemo.publication) = Ok trigger /\
       turns_decision (graph_of search_world) (t_TurnEntityID trigger) decision /\
       plays (graph_of search_world) (t_TurnEntityID trigger) (cd_ActorID decision) /\ cd_CaseID decision = case_id /\
       evidenceID ∈ cd_RevealRefs decision /\ graph_of search_world !! case_id = Some case /\
       tells (graph_of delivered_search) id recipient evidenceID /\
       may_learn (graph_of search_world) case decision None (Some watson) recipient evidenceID).
Proof.
  apply (knowledge_stays_inside_the_case case_id None (Some watson) (Ok KnowledgeDemo.publication) search_world
    (Knowledge_Handle case_id None (Some watson) (Ok KnowledgeDemo.publication) search_world).1).
  - exact nobody_shares.
  - exact watson_quiet.
  - apply surjective_pairing.
Defined.

Lemma acknowledged_knowledge_is_settled_witness :
  exists trigger, ParseTrigger (Ok KnowledgeDemo.publication) = Ok trigger /\
    knowledge_settled (t_TurnEntityID trigger) (graph_of delivered_search).
Proof.
  apply (acknowledged_knowledge_is_settled case_id None (Some watson) (Ok KnowledgeDemo.publication) search_world).
  - exact nobody_shares.
  - exact watson_quiet.
  - unfold delivered_search. refine (pair_of (Knowledge_Handle case_id None (Some watson) (Ok KnowledgeDemo.publication) search_world) (Ok tt) _).
    vm_compute. reflexivity.
Defined.
