(* ===== verification/ReceiptSpec.v ===== *)
(** What the records of the case's stages promise of each other: their derived
    identities name their members, and the receipt a commit builds satisfies
    the receipt's own contract. *)

From stdpp Require Import sorting.
From S2P Require Import Prelude GoStd GoHash GoErrors Graph Vocab Vocabulary Payload Decisions ContentRecords Store Caseflow Knowledge MemStore CaseflowSpec KnowledgeSpec.

Open Scope Z_scope.

(** ** Derived identities *)

(** The artifacts and entities named after their members. *)
Inductive derived_id : Type :=
| IdCaseDecision (turnID actionID caseID actorID : string)
| IdCompanionDecision (turnID contextRef playerID companionID : string)
| IdAccusationResult (turnID caseID decisionID : string)
| IdKnowledgeReceipt (turnID decisionID : string)
| IdTestimony (turnID decisionID beliefID recipientID evidenceID : string)
| IdCaseProgressEvent (turnID decisionID kind : string)
| IdKnowledgeGrant (recipientID evidenceID : string)
| IdRevelation (turnID decisionID recipientID evidenceID : string).

Definition id_of (d : derived_id) : string :=
  match d with
  | IdCaseDecision t a c r => CaseDecisionID t a c r
  | IdCompanionDecision t x p c => CompanionDecisionID t x p c
  | IdAccusationResult t c d => AccusationResultID t c d
  | IdKnowledgeReceipt t d => KnowledgeReceiptID t d
  | IdTestimony t d b r e => TestimonyID t d b r e
  | IdCaseProgressEvent t d k => CaseProgressEventID t d k
  | IdKnowledgeGrant r e => knowledge_framedID ["knowledge-grant/v1"%string; r; e]
  | IdRevelation t d r e => knowledge_framedID ["revelation-receipt/v1"%string; t; d; r; e]
  end.

Definition members_of (d : derived_id) : list string :=
  match d with
  | IdCaseDecision t a c r => [caseDecisionIdentityDomain; t; a; c; r]
  | IdCompanionDecision t x p c => [companionDecisionIdentityDomain; t; x; p; c]
  | IdAccusationResult t c d => [accusationResultIdentityDomain; t; c; d]
  | IdKnowledgeReceipt t d => [knowledgeReceiptIdentityDomain; t; d]
  | IdTestimony t d b r e => [testimonyIdentityDomain; t; d; b; r; e]
  | IdCaseProgressEvent t d k => [caseProgressIdentityDomain; t; d; k]
  | IdKnowledgeGrant r e => ["knowledge-grant/v1"%string; r; e]
  | IdRevelation t d r e => ["revelation-receipt/v1"%string; t; d; r; e]
  end.

Lemma knowledge_framedID_framed parts : knowledge_framedID parts = framed_digest parts.
Proof. exact (framedID_framed parts). Qed.

Lemma id_of_framed d : id_of d = framed_digest (members_of d).
Proof.
  destruct d; cbn [id_of members_of]; first [exact (deterministicID_framed _ _)|exact (framedID_framed _)].
Qed.

Lemma members_of_inj a b : members_of a = members_of b -> a = b.
Proof. destruct a, b; cbn [members_of]; intros Heq; try discriminate Heq; injection Heq; by intros; subst. Qed.

(** A derived identity names its members. Every identity is 64 characters,
    and two of them - of one kind or of different kinds - coincide only when
    they were derived from the same members, or exhibit a collision of SHA-256
    on the two framings. *)
Theorem derived_identities_name_their_members (a b : derived_id)
    (Ha : Forall (fun m => len m < 2 ^ 32) (members_of a)) (Hb : Forall (fun m => len m < 2 ^ 32) (members_of b))
    (Heq : id_of a = id_of b) :
  len (id_of a) = 64 /\
  (a = b \/ (frame (members_of a) <> frame (members_of b) /\ sha256 (frame (members_of a)) = sha256 (frame (members_of b)))).
Proof.
  rewrite !id_of_framed in Heq. split; [by rewrite id_of_framed, len_framed_digest|].
  destruct (framed_digest_collision _ _ Ha Hb Heq) as [Hm|Hc]; [left; by apply members_of_inj|by right].
Qed.

Lemma derived_identities_name_their_members_witness :
  id_of (IdCaseDecision "turn-a1" "a1" "case" "ada") = id_of (IdCaseDecision "turn-a1" "a1" "case" "ada") /\
  len (id_of (IdCaseDecision "turn-a1" "a1" "case" "ada")) = 64.
Proof.
  split; [reflexivity|].
  apply (derived_identities_name_their_members (IdCaseDecision "turn-a1" "a1" "case" "ada") (IdCaseDecision "turn-a1" "a1" "case" "ada")).
  - repeat constructor.
  - repeat constructor.
  - reflexivity.
Defined.

(** ** Receipts *)

Definition NUL : ascii := "000"%char.

(** Entity identifiers are text: they hold no NUL. *)
Class EntityIDText `{Substrate} : Prop := {
  ValidateEntityID_text s : ValidateEntityID s = Ok tt -> contains_char NUL s = false }.

Lemma compare_NUL c : Ascii.eqb NUL c = false -> Ascii.compare NUL c = Lt.
Proof. destruct c as [[] [] [] [] [] [] [] []]; cbn; done. Qed.

(** A key orders as its parts do, one after the other. *)
Lemma compare_keys r1 r2 e1 e2 :
  contains_char NUL r1 = false -> contains_char NUL r2 = false ->
  String.compare (r1 +:+ String NUL e1) (r2 +:+ String NUL e2) =
    match String.compare r1 r2 with Eq => String.compare e1 e2 | c => c end.
Proof.
  revert r2. induction r1 as [|c1 r1 IH]; intros [|c2 r2]; rewrite ?app_cons, ?app_nil;
    cbn -[Ascii.compare Ascii.eqb]; rewrite ?orb_false_iff.
  - done.
  - intros _ [Hc _]. by rewrite (compare_NUL _ Hc).
  - intros [Hc _] _. rewrite Ascii.compare_antisym, (compare_NUL _ Hc). done.
  - intros [_ H1] [_ H2]. rewrite (IH r2 H1 H2). by destruct (Ascii.compare c1 c2).
Qed.

Lemma entry_le_total : Total (fun a b => entry_le a b = true).
Proof.
  intros a b. unfold entry_le. rewrite (String.compare_antisym (kre_RecipientID b)).
  destruct (String.compare (kre_RecipientID a) (kre_RecipientID b)); cbn; auto.
  unfold String.leb. rewrite (String.compare_antisym (kre_EvidenceID b)).
  destruct (String.compare (kre_EvidenceID a) (kre_EvidenceID b)); cbn; auto.
Qed.

Definition entry_pair (e : KnowledgeReceiptEntry) : string * string := (kre_RecipientID e, kre_EvidenceID e).

Lemma entry_le_strict a b :
  contains_char NUL (kre_RecipientID a) = false -> contains_char NUL (kre_RecipientID b) = false ->
  entry_le a b = true -> entry_pair a <> entry_pair b -> String.leb (entry_key b) (entry_key a) = false.
Proof.
  unfold entry_le, entry_key, entry_pair, String.leb. intros Ha Hb Hle Hne.
  rewrite String.compare_antisym, (compare_keys _ _ _ _ Ha Hb).
  destruct (String.compare (kre_RecipientID a) (kre_RecipientID b)) eqn:Hr; [|done..].
  apply String.compare_eq_iff in Hr.
  destruct (String.compare (kre_EvidenceID a) (kre_EvidenceID b)) eqn:He; [|done..].
  apply String.compare_eq_iff in He. congruence.
Qed.

Section receipts.
Context `{Substrate, !EntityIDText, ObjectEncoder}.

Lemma entry_recipient e : KnowledgeReceiptEntry_validate e = Ok tt -> contains_char NUL (kre_RecipientID e) = false.
Proof.
  unfold KnowledgeReceiptEntry_validate. intros (u & Hall & _)%result_bind_ok. apply all_ok_Forall in Hall.
  apply Forall_inv, wrapf_ok in Hall. by apply ValidateEntityID_text.
Qed.

Lemma checkEntries_sorted es previous :
  Forall (fun e => KnowledgeReceiptEntry_validate e = Ok tt) es ->
  Sorted (fun a b => entry_le a b = true) es -> NoDup (map entry_pair es) ->
  match es with e :: _ => String.leb (entry_key e) previous = false | [] => True end ->
  checkEntries es previous = Ok tt.
Proof.
  intros Hv Hs. revert previous. induction Hs as [|e es Hs IH Hhd]; intros previous Hnd Hprev; [done|].
  apply Forall_cons in Hv as [He Hv]. cbn [map] in Hnd. apply NoDup_cons in Hnd as [Hni Hnd].
  cbn [checkEntries]. rewrite He. cbn [wrapf mbind result_bind]. rewrite Hprev. apply IH; [done..|].
  destruct Hhd as [|b es Hle]; [done|]. apply Forall_cons in Hv as [Hb _].
  apply entry_le_strict; [by apply entry_recipient..|done|]. intros Heq. apply Hni. rewrite Heq. left.
Qed.

Lemma requireEntityID_valid field v : requireEntityID field v = Ok tt -> ValidateEntityID v = Ok tt.
Proof. unfold requireEntityID. destruct (String.eqb _ _); [done|]. apply wrapf_ok. Qed.

(** What a valid decision says of its parts. *)
Record decision_parts (d : CaseDecision) : Prop := {
  parts_turn : ValidateIDSegment (cd_TurnID d) = Ok tt;
  parts_actor : ValidateEntityID (cd_ActorID d) = Ok tt;
  parts_targets : Forall (fun ref => ValidateEntityID ref = Ok tt) (cd_TargetRefs d);
  parts_reveals : Forall (fun ref => ValidateEntityID ref = Ok tt) (cd_RevealRefs d);
  parts_distinct : NoDup (cd_RevealRefs d);
  parts_bound : (List.length (cd_RevealRefs d) <= 12)%nat;
  parts_identity : len (cd_DecisionID d) = 64 }.

Lemma validateCaseDecisionRefs_parts field refs limit :
  validateCaseDecisionRefs field refs limit = Ok tt ->
  Z.of_nat (List.length refs) <= limit /\ NoDup refs /\ Forall (fun ref => ValidateEntityID ref = Ok tt) refs.
Proof.
  unfold validateCaseDecisionRefs. destruct (Z.ltb_spec limit (Z.of_nat (List.length refs))); [done|].
  intros (Hv & Hnd & _)%refs_loop_ok. split_and!; [lia|done|]. eapply Forall_impl; [exact Hv|].
  intros ref. apply requireEntityID_valid.
Qed.

Lemma CaseDecision_parts d : CaseDecision_Validate d = Ok tt -> decision_parts d.
Proof.
  unfold CaseDecision_Validate. intros Hd.
  apply result_bind_ok in Hd as ([] & Hturn & Hd). apply result_bind_ok in Hd as (? & _ & Hd).
  apply result_bind_ok in Hd as (? & _ & Hd). apply result_bind_ok in Hd as (? & _ & Hd).
  apply result_bind_ok in Hd as ([] & Hactor & Hd). apply result_bind_ok in Hd as (? & _ & Hd).
  apply result_bind_ok in Hd as ([] & Htargets & Hd). apply result_bind_ok in Hd as ([] & Hreveals & Hd).
  apply result_bind_ok in Hd as (? & _ & Hid). apply require_ok, String.eqb_eq in Hid.
  apply validateCaseDecisionRefs_parts in Htargets as (_ & _ & Htargets).
  apply validateCaseDecisionRefs_parts in Hreveals as (Hlen & Hnd & Hreveals).
  split; [|by eapply requireEntityID_valid|done..| |].
  - by apply wrapf_ok in Hturn.
  - unfold MaxCaseDecisionReveals in Hlen. lia.
  - rewrite Hid. change (len (id_of (IdCaseDecision (cd_TurnID d) (cd_ActionID d) (cd_CaseID d) (cd_ActorID d))) = 64).
    by rewrite id_of_framed, len_framed_digest.
Qed.

Lemma recipients_pairs (refs : list string) recipients :
  NoDup recipients -> NoDup refs -> NoDup (flat_map (fun r : string => map (fun ev => (r, ev)) refs) recipients).
Proof.
  intros Hr Hrefs. induction Hr as [|r rs Hni Hr IH]; [constructor|]. cbn [flat_map]. apply NoDup_app. split_and!; [| |done].
  - by apply (NoDup_fmap_2 (fun ev => (r, ev))).
  - intros [r' ev] (ev' & [= -> ->] & _)%list_elem_of_fmap Hin. apply list_elem_of_In, in_flat_map in Hin as (r2 & Hr2 & Hin).
    apply in_map_iff in Hin as (ev2 & [= -> ->] & _). by apply Hni, list_elem_of_In.
Qed.

Lemma recipients_length {A} (f : string -> list A) n recipients :
  (forall r, List.length (f r) = n) -> List.length (flat_map f recipients) = (n * List.length recipients)%nat.
Proof.
  intros Hf. induction recipients as [|r rs IH]; cbn [flat_map List.length]; [lia|].
  rewrite length_app, Hf, IH. lia.
Qed.

(** The recipients of an entitled entry are the actor, a target, or a witness. *)
Lemma entitled_recipient {W} (here : W -> Prop) input decision (shares : option (ShareAuthorizer W)) witnesses e :
  decision_parts decision -> cd_ActorID decision = pf_ActingActorID input ->
  (forall witness actor targets w id w', witnesses = Some witness ->
     witness actor targets w = (Ok (id, true), w') -> ValidateEntityID id = Ok tt) ->
  entitled here input decision shares witnesses e -> ValidateEntityID (en_RecipientID e) = Ok tt.
Proof.
  intros Hparts Hactor Hwit He. pose proof (parts_actor _ Hparts) as Ha. rewrite Hactor in Ha.
  destruct He as [_ _ _ Hobs _|? ? _ _ _ _ _ -> _|? ? ? _ Htarget _ _ _ _ _]; [|done|].
  - destruct Hobs as [->|(witness & w & w' & Hw & _ & _ & Hrun)]; [done|by eapply Hwit].
  - pose proof (parts_targets _ Hparts) as Ht. rewrite Htarget in Ht. by apply Forall_inv in Ht.
Qed.

Lemma each_length {A B} (f : A -> res B) l l' : each f l = Ok l' -> List.length l' = List.length l.
Proof.
  revert l'. induction l as [|x l IH]; intros l'; cbn; [by intros [= <-]|].
  intros (y & _ & (ys & Hys & [= <-])%result_bind_ok)%result_bind_ok. cbn. by rewrite (IH _ Hys).
Qed.

Lemma each_map {A B C} (f : A -> res B) (g : B -> C) (h : A -> C) l l' :
  (forall x y, f x = Ok y -> g y = h x) -> each f l = Ok l' -> map g l' = map h l.
Proof.
  intros Hgh. revert l'. induction l as [|x l IH]; intros l'; cbn; [by intros [= <-]|].
  intros (y & Hy & (ys & Hys & [= <-])%result_bind_ok)%result_bind_ok. cbn. by rewrite (Hgh _ _ Hy), (IH _ Hys).
Qed.

Lemma derive_entry_ids decision e d : derive_entry decision e = Ok d ->
  ValidateEntityID (dv_knowledgeID d) = Ok tt /\ ValidateEntityID (dv_revelationID d) = Ok tt.
Proof.
  assert (Hid : forall anchor kind instance id, entityIDFor anchor kind instance = Ok id -> ValidateEntityID id = Ok tt).
  { intros anchor kind instance id. unfold entityIDFor.
    destruct (Split dot anchor) as [|? [|? [|? [|? [|? [|? [|]]]]]]]; try done. intros Hc. by apply ComposeEntityID_ok in Hc as [_ ?]. }
  unfold derive_entry. intros (k & Hk & (r & Hr & [= <-])%result_bind_ok)%result_bind_ok. split; by eapply Hid.
Qed.

Lemma grants_pairs decision (plan : Plan) :
  decision_parts decision -> grants_reveals decision plan ->
  NoDup (map (fun e => (en_RecipientID e, en_EvidenceID e)) plan) /\ (List.length plan <= 24)%nat /\
  Forall (fun e => ValidateEntityID (en_EvidenceID e) = Ok tt) plan.
Proof.
  intros Hparts (recipients & Hlen & Hnd & Hmap). split_and!.
  - rewrite Hmap. by apply recipients_pairs; [|apply parts_distinct].
  - rewrite <- (length_map (fun e => (en_RecipientID e, en_EvidenceID e))), Hmap.
    rewrite (recipients_length _ (List.length (cd_RevealRefs decision))); [|intros; by rewrite length_map].
    pose proof (parts_bound _ Hparts). nia.
  - apply Forall_forall. intros e He.
    assert (Hin : (en_RecipientID e, en_EvidenceID e) ∈ map (fun e => (en_RecipientID e, en_EvidenceID e)) plan)
      by (apply list_elem_of_fmap; by exists e).
    rewrite Hmap in Hin. apply list_elem_of_In, in_flat_map in Hin as (r & _ & Hin).
    apply in_map_iff in Hin as (ev & [= _ <-] & Hin). pose proof (parts_reveals _ Hparts) as Hv.
    rewrite Forall_forall in Hv. by apply Hv, list_elem_of_In.
Qed.

(** An entry of the receipt, as the commit builds it. *)
Definition receipt_entry (refs : gmap string Ref) (d : derived) : KnowledgeReceiptEntry := {|
  kre_RecipientID := en_RecipientID (dv_entry d); kre_EvidenceID := en_EvidenceID (dv_entry d);
  kre_KnowledgeID := dv_knowledgeID d; kre_RevelationID := dv_revelationID d;
  kre_TestimonyRef := Ref_String (default zero_Ref (refs !! dv_revelationID d)) |}.

Lemma receipt_entry_valid refs decision e d :
  map_Forall (fun _ ref => is_ok (ParseRef (Ref_String ref)) = true) refs ->
  ValidateEntityID (en_RecipientID e) = Ok tt -> ValidateEntityID (en_EvidenceID e) = Ok tt ->
  derive_entry decision e = Ok d -> KnowledgeReceiptEntry_validate (receipt_entry refs d) = Ok tt.
Proof.
  intros Hrefs Hr He Hd. destruct (derive_entry_ids _ _ _ Hd) as [Hk Hrev].
  unfold KnowledgeReceiptEntry_validate. cbn [receipt_entry kre_RecipientID kre_EvidenceID kre_KnowledgeID kre_RevelationID kre_TestimonyRef].
  rewrite (derive_entry_own _ _ _ Hd). cbn [all_ok]. rewrite Hr, He, Hk, Hrev. cbn [wrapf mbind result_bind].
  destruct (String.eqb_spec (Ref_String (default zero_Ref (refs !! dv_revelationID d))) EmptyString) as [|Hne]; [done|].
  destruct (refs !! dv_revelationID d) as [ref|] eqn:Href; [|done]. cbn [default].
  specialize (Hrefs _ _ Href). cbn in *. by destruct (ParseRef (Ref_String ref)).
Qed.

(** A receipt never refuses the grants it records. Whatever plan a valid
    decision is authorized for, the receipt its commit builds - after the
    grants are written - satisfies the receipt's own contract: its entries are
    valid, sorted and distinct by recipient and evidence, and no more than the
    24 it admits, because a decision reveals at most 12 references to at most
    two recipients. *)
Theorem granted_receipt_is_valid {W} (here : W -> Prop) input decision (shares : option (ShareAuthorizer W)) witnesses plan ds refs
    (Hplan : plan_sound here input shares witnesses plan) (Hd : pf_Decision input = Some decision)
    (Hvalid : CaseDecision_Validate decision = Ok tt)
    (Hwit : forall witness actor targets w id w', witnesses = Some witness ->
       witness actor targets w = (Ok (id, true), w') -> ValidateEntityID id = Ok tt)
    (Hds : each (derive_entry decision) plan = Ok ds)
    (Hrefs : map_Forall (fun _ ref => is_ok (ParseRef (Ref_String ref)) = true) refs) :
  KnowledgeReceipt_Validate (receipt_of decision refs ds) = Ok tt /\
  List.length (kr_Entries (receipt_of decision refs ds)) = List.length plan /\
  Z.of_nat (List.length plan) <= MaxKnowledgeReceiptEntries.
Proof.
  destruct Hplan as (decision' & Hd' & _ & Hactor & Hent & Hgrants).
  assert (decision' = decision) as -> by congruence. pose proof (CaseDecision_parts _ Hvalid) as Hparts.
  destruct (grants_pairs _ _ Hparts Hgrants) as (Hnd & Hlen & Hev).
  set (es := map (receipt_entry refs) ds). set (sorted := SortedKnowledgeEntries es).
  assert (Hperm : sorted ≡ₚ es) by apply merge_sort_Permutation.
  assert (Hes : List.length sorted = List.length plan).
  { rewrite Hperm. unfold es. by rewrite length_map, (each_length _ _ _ Hds). }
  assert (Hentries : Forall (fun e => KnowledgeReceiptEntry_validate e = Ok tt) es).
  { unfold es. rewrite List.Forall_map. apply Forall_forall. intros d Hin. destruct (each_in _ _ _ _ Hds Hin) as (e & He & Hder).
    rewrite Forall_forall in Hent, Hev. eapply receipt_entry_valid; [done| |by apply Hev|exact Hder].
    eapply entitled_recipient; [done..|]. by apply Hent. }
  assert (Hpairs : NoDup (map entry_pair es)).
  { unfold es. rewrite map_map, (each_map (derive_entry decision) _ (fun e => (en_RecipientID e, en_EvidenceID e)) plan ds); [done| |done]. intros e d Hder. unfold entry_pair. cbn. by rewrite (derive_entry_own _ _ _ Hder). }
  assert (Hbound : Z.of_nat (List.length plan) <= MaxKnowledgeReceiptEntries) by (unfold MaxKnowledgeReceiptEntries; lia).
  split_and!; [|exact Hes|done].
  unfold KnowledgeReceipt_Validate. change (kr_Entries (receipt_of decision refs ds)) with sorted.
  cbn [receipt_of kr_TurnID kr_DecisionID kr_Status]. rewrite (parts_turn _ Hparts). cbn [wrapf mbind result_bind].
  rewrite Hes. destruct (Z.ltb_spec MaxKnowledgeReceiptEntries (Z.of_nat (List.length plan))); [lia|]. cbn [negb require mbind result_bind].
  assert (Hne : cd_DecisionID decision <> EmptyString).
  { intros Heq. pose proof (parts_identity _ Hparts) as Hl. by rewrite Heq in Hl. }
  apply String.eqb_neq in Hne. rewrite String.eqb_refl, Hne. cbn [negb require mbind result_bind].
  apply checkEntries_sorted.
  - by rewrite Hperm.
  - apply Sorted_merge_sort, entry_le_total.
  - by rewrite Hperm.
  - destruct sorted as [|e l]; [done|]. unfold String.leb. by destruct e as [[] ? ? ? ?].
Qed.
End receipts.

(** ** The receipt of a search *)

Lemma segment_char_text s : all_chars segment_char s = true -> contains_char NUL s = false.
Proof.
  induction s as [|c s IH]; [done|]. cbn [all_chars contains_char]. intros [Hc Hs]%andb_true_iff. rewrite (IH Hs), orb_false_r.
  destruct (Ascii.eqb_spec NUL c) as [<-|]; [discriminate Hc|done].
Qed.

Lemma Join_text l : Forall (fun s => contains_char NUL s = false) l -> contains_char NUL (Join dot l) = false.
Proof.
  induction 1 as [|s l Hs Hl IH]; [done|]. destruct l as [|s' l]; [done|].
  change (Join dot (s :: s' :: l)) with (s +:+ String dot (Join dot (s' :: l))).
  rewrite contains_char_app, Hs. cbn [orb]. change (Ascii.eqb NUL dot || contains_char NUL (Join dot (s' :: l)) = false).
  by rewrite IH.
Qed.

#[export] Instance mem_text : EntityIDText (H := mem_substrate).
Proof.
  split. intros s Hs. cbn in Hs. unfold mem_ValidateEntityID in Hs. apply require_ok in Hs.
  repeat (apply andb_true_iff in Hs as [Hs ?]). rewrite <- (Join_Split dot s). apply Join_text.
  match goal with H : forallb segment_ok _ = true |- _ => rewrite forallb_forall in H; rename H into Hall end.
  apply Forall_forall. intros p Hp. apply list_elem_of_In in Hp. specialize (Hall p Hp).
  unfold segment_ok in Hall. apply andb_true_iff in Hall as [_ Hall]. by apply segment_char_text.
Qed.

Import KnowledgeDemo.

Definition search_entries : list derived :=
  match each (derive_entry search) [seen_by CaseflowSpec.CaseDemo.character_id; seen_by companion_id] with
  | Ok ds => ds | Err _ => [] end.

Lemma granted_receipt_is_valid_witness :
  KnowledgeReceipt_Validate (receipt_of search ∅ search_entries) = Ok tt /\
  List.length (kr_Entries (receipt_of search ∅ search_entries)) = 2%nat /\ Z.of_nat 2 <= MaxKnowledgeReceiptEntries.
Proof.
  apply (granted_receipt_is_valid (fun _ => True) preflight search None (Some watson)
    [seen_by CaseflowSpec.CaseDemo.character_id; seen_by companion_id] search_entries ∅).
  - pose proof (AuthorizeWithWitnesses_spec (fun _ => True) preflight None (Some watson) search_world (fun _ _ _ _ _ _ _ => I) I) as Hspec.
    unfold wp in Hspec. rewrite the_search_is_authorized in Hspec. exact Hspec.
  - vm_compute. reflexivity.
  - vm_compute. reflexivity.
  - intros witness actor targets w id w' [= <-] [= <- <-]. vm_compute. reflexivity.
  - vm_compute. reflexivity.
  - apply map_Forall_empty.
Defined.
