(* ===== verification/SceneSpec.v ===== *)
(** What the assembler promises of the room it shows: it is read from one graph,
    within its cap, and the actor it pins is in it. *)

From stdpp Require Import sorting.
From S2P Require Import Prelude GoStd GoErrors Graph Vocab Vocabulary Payload ProjectionContract Store GraphIO Effect Turn Caseflow Knowledge Scene MemStore TurnSpec CaseflowSpec KnowledgeSpec.

Open Scope Z_scope.

(** Batches return what was asked for, each entity once, as the graph has it;
    queries for edges only read. *)
Class SceneGraphLaws (W : Type) `{HasGraph W, SceneGraph W} : Prop := {
  GetEntities_spec ids w :
    wp (GetEntities ids) (fun r w' => graph_of w' = graph_of w /\
      match r with
      | Ok batch => NoDup (map ID (br_Entities batch)) /\
          Forall (fun e => ID e ∈ ids /\ graph_of w !! ID e = Some e) (br_Entities batch)
      | Err _ => True
      end) w;
  IncomingRelationships_graph id w : graph_of (IncomingRelationships id w).2 = graph_of w }.

(** A batch accounts for everything it was asked for, as the engine's own
    [GetEntities] does: what it does not return it names as missing. *)
Class AccountedBatches (W : Type) `{SceneGraph W} : Prop := {
  GetEntities_accounts ids w batch w' : GetEntities ids w = (Ok batch, w') ->
    Forall (fun id => id ∈ map ID (br_Entities batch) ++ map me_ID (br_Missing batch)) ids }.

(** An entity of the view is what the graph records, less the predicates the
    engine does not know. *)
Definition grounded (g : graph) (e : SceneEntity) : Prop := exists state, g !! se_ID e = Some state /\ e = project state.

Lemma project_registered state : Forall (fun t => Predicate t ∈ allPredicates) (se_Triples (project state)).
Proof.
  apply Forall_forall. intros t Ht. cbn in Ht. apply list_elem_of_In, filter_In in Ht as [_ Ht].
  by apply mem_true in Ht.
Qed.

Lemma pigeonhole (l l' : list string) : NoDup l -> Forall (fun x => x ∈ l') l -> (List.length l <= List.length l')%nat.
Proof.
  intros Hnd Hall. apply NoDup_incl_length; [by apply NoDup_ListNoDup|]. intros x Hx. rewrite Forall_forall in Hall.
  by apply list_elem_of_In, Hall, list_elem_of_In.
Qed.

Section assembler.
Context {W : Type} `{Substrate, HasGraph W, GraphStore W, Clock W, SceneGraph W, TripleShape}.
Context `{!GraphStoreLaws W, !SceneGraphLaws W, !AccountedBatches W}.
Implicit Types (w : W).

(** What a hydration of [ids] shows, and what it leaves out. *)
Definition hydrated (g : graph) (ids : list string) (entities : list SceneEntity) (excluded : list Exclusion) : Prop :=
  Forall (fun e => se_ID e ∈ ids /\ grounded g e) entities /\ NoDup (idsOf entities) /\
  Sorted (by_id se_ID) entities /\ (List.length entities <= List.length ids)%nat /\
  Forall (fun id => id ∈ idsOf entities ++ map ex_ID excluded) ids.

Lemma by_id_total {A} (id : A -> string) : Total (by_id id).
Proof. intros a b. apply (total string_le). Qed.

Lemma hydrate_spec ids w :
  wp (hydrate ids) (fun r w' => graph_of w' = graph_of w /\
    match r with Ok room => hydrated (graph_of w) ids room.1 room.2 | Err _ => True end) w.
Proof.
  unfold hydrate. destruct ids as [|id ids'].
  { apply wp_ret. split; [done|]. split_and!; [constructor..|done|constructor]. }
  set (ids := id :: ids'). apply wp_bind, wp_attempt. pose proof (GetEntities_spec ids w) as Hspec.
  pose proof (GetEntities_accounts ids w) as Hacc. unfold wp in Hspec. unfold wp at 1.
  destruct (GetEntities ids w) as [r w1]; cbn [fst snd] in *. destruct Hspec as [Hg Hr].
  apply wp_lift_bind; [|by intros]. intros batch Hb.
  destruct r as [b|]; [|done]. cbn in Hb. injection Hb as ->. destruct Hr as [Hnd Hall]. specialize (Hacc _ _ eq_refl).
  apply wp_ret. split; [done|]. cbn [fst snd].
  assert (Hperm : merge_sort (by_id se_ID) (map project (br_Entities batch)) ≡ₚ map project (br_Entities batch))
    by apply merge_sort_Permutation.
  assert (Hids : idsOf (map project (br_Entities batch)) = map ID (br_Entities batch)) by (unfold idsOf; by rewrite map_map).
  unfold hydrated. split_and!.
  - rewrite Hperm. rewrite List.Forall_map. eapply Forall_impl; [exact Hall|]. intros e [Hin He]. split; [done|]. by exists e.
  - unfold idsOf. rewrite Hperm. fold (idsOf (map project (br_Entities batch))). by rewrite Hids.
  - apply Sorted_merge_sort, by_id_total.
  - rewrite Hperm, length_map, <- (length_map ID). apply pigeonhole; [done|]. rewrite List.Forall_map.
    eapply Forall_impl; [exact Hall|]. by intros e [? _].
  - eapply Forall_impl; [exact Hacc|]. intros x. unfold idsOf. rewrite Hperm, merge_sort_Permutation.
    fold (idsOf (map project (br_Entities batch))). by rewrite Hids, map_map.
Qed.

Lemma readSolid_spec id role w :
  wp (readSolid id role) (fun r w' => graph_of w' = graph_of w /\
    match r with Ok e => graph_of w !! id = Some e | Err _ => True end) w.
Proof.
  unfold readSolid. apply wp_bind, wp_attempt. eapply wp_mono; [apply GetEntity_spec|].
  intros [e|err] w1 [Hg He]; by apply wp_lift.
Qed.

(** The turn, its scene and the scene's location, as the graph has them. *)
Definition fixed_view (g : graph) (turnEntityID sceneID locationID : string) (turn scene location : SceneEntity) : Prop :=
  (exists state, g !! turnEntityID = Some state /\ turn = project state) /\
  sceneOf turn = Ok sceneID /\ (exists state, g !! sceneID = Some state /\ scene = project state) /\
  locationOf scene = Ok locationID /\ (exists state, g !! locationID = Some state /\ location = project state) /\
  requireKind location EntityKindLocation = Ok tt.

Lemma read_fixed_spec turnID turnEntityID w :
  wp (read_fixed turnID turnEntityID) (fun r w' => graph_of w' = graph_of w /\
    match r with
    | Ok (turn, (sceneID, scene), (locationID, location)) =>
        fixed_view (graph_of w) turnEntityID sceneID locationID turn scene location
    | Err _ => True
    end) w.
Proof.
  unfold read_fixed. apply wp_lift_bind; [|done]. intros _ _.
  apply wp_bind. eapply wp_mono; [apply readSolid_spec|]. intros [ts|err] w1 [Hg1 Ht]; [|done].
  apply wp_lift_bind; [|done]. intros sceneID Hs.
  apply wp_bind. eapply wp_mono; [apply readSolid_spec|]. rewrite Hg1. intros [ss|err] w2 [Hg2 Hsc]; [|done].
  apply wp_lift_bind; [|done]. intros locationID Hl.
  apply wp_bind. eapply wp_mono; [apply readSolid_spec|]. rewrite Hg2. intros [ls|err] w3 [Hg3 Hlc]; [|done].
  apply wp_lift_bind; [|done]. intros [] Hk. apply wp_ret. split; [done|].
  split_and!; [by exists ts|done|by exists ss|done|by exists ls|done].
Qed.

Lemma actorOf_ok turnEntityID sceneID turn scene location members neighbours excluded actor :
  actorOf turnEntityID sceneID turn scene location members neighbours excluded = Ok actor ->
  playerOf turn = Ok (sa_PlayerID actor) /\
  (Verified actor = true -> sa_CharacterID actor ∈ idsOf members /\
    exists player, player ∈ view_entities turn scene location members neighbours /\ se_ID player = sa_PlayerID actor /\
      entityReferences player PlayerCharacterCurrent = Ok [sa_CharacterID actor]).
Proof.
  unfold actorOf. intros (playerID & Hp & Ha)%result_bind_ok.
  destruct (find_entity _ playerID) as [player|] eqn:Hf; [|injection Ha as <-; done].
  apply result_bind_ok in Ha as (characters & Hc & Ha).
  destruct characters as [|character [|]]; [injection Ha as <-; done| |injection Ha as <-; done].
  destruct (existsb _ members) eqn:He; [|done]. injection Ha as <-. cbn. split; [done|]. intros _.
  apply existsb_exists in He as (m & Hm & <-%String.eqb_eq). split.
  - apply list_elem_of_fmap. exists m. split; [done|]. by apply list_elem_of_In.
  - unfold find_entity in Hf. apply List.find_some in Hf as [Hin <-%String.eqb_eq].
    exists player. split_and!; [by apply list_elem_of_In|done|done].
Qed.

(** A neighbour is what something in view points at, and not in view itself. *)
Lemma targets_in triples inView seen x : x ∈ targets triples inView seen ->
  (x ∉ inView) /\ exists t, t ∈ triples /\ IsRelationship t = true /\ Object t = AString x.
Proof.
  revert seen. induction triples as [|t triples IH]; intros seen; cbn -[mem]; [by intros ?%elem_of_nil|].
  assert (Hrest : forall seen', x ∈ targets triples inView seen' -> (x ∉ inView) /\
    exists t', t' ∈ t :: triples /\ IsRelationship t' = true /\ Object t' = AString x).
  { intros seen' Hx. destruct (IH _ Hx) as (Hn & t' & Hin & Hrel & Ho). split; [done|]. exists t'.
    split_and!; [by right|done..]. }
  destruct (IsRelationship t) eqn:Hr; [|by apply Hrest]. destruct (Object t) as [|target| | | | | |] eqn:Ho; try by apply Hrest.
  destruct (mem target inView || mem target seen) eqn:Hm; [by apply Hrest|].
  intros [->|Hx]%elem_of_cons; [|by eapply Hrest]. apply orb_false_iff in Hm as [Hm _]. apply mem_false in Hm.
  split; [done|]. exists t. split_and!; [by left|done..].
Qed.

(** Something in view points at it, which is not in view itself. *)
Definition target_of (v : View) (id : string) : Prop :=
  (id ∉ [v_SceneID v; v_LocationID v; se_ID (v_Turn v)] ++ idsOf (v_Members v)) /\
  exists t, t ∈ flat_map se_Triples ([v_Turn v; v_Scene v; v_Location v] ++ v_Members v) /\
    IsRelationship t = true /\ Object t = AString id.

(** An edge of scene membership leads from it to the location. *)
Definition in_the_room (locationID : string) (incoming : list IncomingEntry) (id : string) : Prop :=
  id <> EmptyString /\ id <> locationID /\
  exists edge, edge ∈ incoming /\ IsSceneMembership (ie_Predicate edge) = true /\ ie_FromEntityID edge = id.

(** An identifier is shown among [entities], or the view says it is missing. *)
Definition accounted_for (v : View) (entities : list SceneEntity) (id : string) : Prop :=
  id ∈ idsOf entities \/ id ∈ map ex_ID (v_Excluded v).

(** The members are who the location's incoming edges say is in the room. *)
Definition room_of (g : graph) (v : View) : Prop :=
  exists incoming w w', graph_of w = g /\ IncomingRelationships (v_LocationID v) w = (Ok incoming, w') /\
    Forall (in_the_room (v_LocationID v) incoming) (idsOf (v_Members v)) /\
    forall id, in_the_room (v_LocationID v) incoming id -> accounted_for v (v_Members v) id.

(** What a view says of the graph it was assembled from. *)
Record view_of (g : graph) (maxEntities : Z) (turnID turnEntityID : string) (v : View) : Prop := {
  view_turn : v_TurnID v = turnID /\ v_TurnEntityID v = turnEntityID;
  view_fixed : fixed_view g turnEntityID (v_SceneID v) (v_LocationID v) (v_Turn v) (v_Scene v) (v_Location v);
  view_members : Forall (grounded g) (v_Members v) /\ NoDup (idsOf (v_Members v));
  view_neighbours : Forall (grounded g) (v_Neighbours v) /\ NoDup (idsOf (v_Neighbours v));
  view_room : room_of g v;
  view_pointed : Forall (target_of v) (idsOf (v_Neighbours v)) /\
    forall id, target_of v id -> accounted_for v (v_Neighbours v) id;
  view_registered : Forall (fun e => Forall (fun t => Predicate t ∈ allPredicates) (se_Triples e)) (View_Entities v);
  view_cap : Z.of_nat (List.length (View_Entities v)) <= maxEntities;
  view_size : v_Size v = measure (View_Entities v);
  view_player : Scene.playerOf (v_Turn v) = Ok (sa_PlayerID (v_Actor v));
  view_actor : Verified (v_Actor v) = true -> sa_CharacterID (v_Actor v) ∈ idsOf (v_Members v) /\
    exists player, player ∈ View_Entities v /\ se_ID player = sa_PlayerID (v_Actor v) /\
      entityReferences player PlayerCharacterCurrent = Ok [sa_CharacterID (v_Actor v)] }.

(** Everything in view points at is a target, unless it is in view. *)
Lemma targets_all triples inView seen t x : t ∈ triples -> IsRelationship t = true -> Object t = AString x ->
  (x ∉ inView) -> (x ∉ seen) -> x ∈ targets triples inView seen.
Proof.
  intros Ht Hr Ho Hview. revert seen. induction triples as [|u triples IH]; intros seen Hseen; [by apply elem_of_nil in Ht|].
  cbn -[mem]. apply elem_of_cons in Ht as [<-|Ht].
  - rewrite Hr, Ho, (proj2 (mem_false _ _) Hview), (proj2 (mem_false _ _) Hseen). left.
  - specialize (IH Ht). destruct (IsRelationship u); [|by apply IH]. destruct (Object u) as [|y| | | | | |]; try by apply IH.
    destruct (mem y inView || mem y seen); [by apply IH|]. destruct (decide (x = y)) as [->|Hne]; [left|right].
    apply IH. set_solver.
Qed.

(** The sources of membership edges, all of them. *)
Lemma member_ids_elem locationID incoming seen x :
  x ∈ member_ids locationID incoming seen <-> in_the_room locationID incoming x /\ (x ∉ seen).
Proof.
  revert seen. induction incoming as [|edge rest IH]; intros seen; cbn [member_ids].
  { split; [by intros ?%elem_of_nil|]. by intros ((_ & _ & edge & ?%elem_of_nil & _) & _). }
  cbv zeta. assert (Hskip : forall s : list string, ie_FromEntityID edge <> x \/ IsSceneMembership (ie_Predicate edge) = false \/ x ∈ s \/
      ie_FromEntityID edge = EmptyString \/ ie_FromEntityID edge = locationID ->
    (in_the_room locationID rest x /\ (x ∉ s)) <-> (in_the_room locationID (edge :: rest) x /\ (x ∉ s))).
  { intros s Hs. unfold in_the_room. split.
    - intros ((? & ? & e & ? & ? & ?) & ?). split_and!; [done..| |done]. exists e. split_and!; [by right|done..].
    - intros ((Hne & Hnl & e & [->|He]%elem_of_cons & Hm & Hf) & Hn); [|split_and!; [done..|by exists e|done]].
      exfalso. rewrite Hm in Hs. destruct Hs as [?|[?|[?|[?|?]]]]; congruence. }
  destruct (IsSceneMembership (ie_Predicate edge)) eqn:Hm; cbn [negb].
  2: { rewrite IH. apply Hskip. by right; left. }
  destruct (String.eqb_spec (ie_FromEntityID edge) EmptyString) as [He|He]; cbn [orb].
  { rewrite IH. apply Hskip. tauto. }
  destruct (String.eqb_spec (ie_FromEntityID edge) locationID) as [Hl|Hl]; cbn [orb].
  { rewrite IH. apply Hskip. tauto. }
  destruct (mem (ie_FromEntityID edge) seen) eqn:Hseen.
  { apply mem_true in Hseen. rewrite IH. apply Hskip. destruct (decide (ie_FromEntityID edge = x)) as [<-|]; tauto. }
  apply mem_false in Hseen. rewrite elem_of_cons, IH. destruct (decide (x = ie_FromEntityID edge)) as [->|Hne].
  - split; [intros _|by left]. split; [|done]. split_and!; [done..|]. exists edge. split_and!; [left|done..].
  - rewrite <- (Hskip seen) by (left; congruence). split; [intros [?|[? Hn]]; [done|split; [done|set_solver]]|].
    intros [? ?]. right. split; [done|]. set_solver.
Qed.

Lemma accounts g v ids entities excluded : hydrated g ids entities excluded ->
  (forall id, id ∈ map ex_ID excluded -> id ∈ map ex_ID (v_Excluded v)) ->
  forall id, id ∈ Sort ids \/ id ∈ ids -> accounted_for v entities id.
Proof.
  intros (_ & _ & _ & _ & Hall) Hex id Hin. rewrite Forall_forall in Hall.
  assert (Hid : id ∈ ids) by (destruct Hin as [Hin|]; [unfold Sort in Hin; by rewrite merge_sort_Permutation in Hin|done]).
  specialize (Hall _ Hid). apply elem_of_app in Hall as [?|?]; [by left|right; by apply Hex].
Qed.

Lemma checkCap_ok max sceneID n u : checkCap max sceneID n = Ok u -> n <= max.
Proof. unfold checkCap. destruct (Z.ltb_spec max n); [done|lia]. Qed.

Lemma Assemble_spec maxEntities turnID turnEntityID w :
  wp (Assemble maxEntities turnID turnEntityID) (fun r w' => graph_of w' = graph_of w /\
    match r with Ok v => view_of (graph_of w) maxEntities turnID turnEntityID v | Err _ => True end) w.
Proof.
  unfold Assemble. apply wp_bind. eapply wp_mono; [apply read_fixed_spec|].
  intros [[[turn [sceneID scene]] [locationID location]]|err] w1 [Hg1 Hfix]; [|done].
  apply wp_clock. intros at_ w2 Hg2. rewrite Hg1 in Hg2. unfold memberIDs.
  apply wp_bind, wp_bind, wp_attempt. pose proof (IncomingRelationships_graph locationID w2) as Hg3. unfold wp at 1.
  destruct (IncomingRelationships locationID w2) as [r w3] eqn:Hedges. cbn [fst snd] in *. rewrite Hg2 in Hg3.
  apply wp_lift_bind; [|done]. intros incoming Hincoming. apply wp_ret.
  destruct r as [incoming'|]; [injection Hincoming as ->|done].
  set (ids := Sort (member_ids locationID incoming [])).
  apply wp_lift_bind; [|done]. intros _ _.
  apply wp_bind. eapply wp_mono; [apply hydrate_spec|]. rewrite Hg3. intros [room|err] w4 [Hg4 Hroom]; [|done].
  apply wp_lift_bind; [|done]. intros u Hcap%checkCap_ok.
  apply wp_bind. eapply wp_mono; [apply hydrate_spec|]. rewrite Hg4. intros [around|err] w5 [Hg5 Haround]; [|done].
  apply wp_lift_bind; [|done]. intros actor Hactor. apply wp_ret. split; [done|].
  pose proof Hroom as Hroom'. pose proof Haround as Haround'.
  destruct Hroom as (Hm & Hmn & _ & Hml & _), Haround as (Hn & Hnn & _ & Hnl & _).
  apply actorOf_ok in Hactor as [Hplayer Hactor].
  assert (Hsub : forall (ids : list string) l, Forall (fun e => se_ID e ∈ ids /\ grounded (graph_of w) e) l -> Forall (grounded (graph_of w)) l).
  { intros ids' l Hall. eapply Forall_impl; [exact Hall|]. by intros e [_ ?]. }
  split; cbn [v_TurnID v_TurnEntityID v_SceneID v_LocationID v_Turn v_Scene v_Location v_Members v_Neighbours v_Actor v_Size].
  - done.
  - done.
  - split; [by eapply Hsub|done].
  - split; [by eapply Hsub|done].
  - exists incoming, w2, w3. split_and!; [done|done| |].
    + unfold idsOf. rewrite List.Forall_map. eapply Forall_impl; [exact Hm|]. intros e [Hin _]. unfold ids, Sort in Hin.
      rewrite merge_sort_Permutation in Hin. by apply member_ids_elem in Hin as [Hin _].
    + intros id Hid. eapply (accounts _ _ _ _ _ Hroom'); [|right]; cbn [v_Excluded].
      * intros x Hx. rewrite map_app. apply elem_of_app. by left.
      * unfold ids, Sort. rewrite merge_sort_Permutation. apply member_ids_elem. split; [done|set_solver].
  - split.
    + unfold idsOf. rewrite List.Forall_map. eapply Forall_impl; [exact Hn|]. intros e [Hin _].
      unfold neighbourIDsOf, Sort in Hin. rewrite merge_sort_Permutation in Hin. exact (targets_in _ _ _ _ Hin).
    + intros id (Hview & t & Ht & Hrel & Hobj). eapply (accounts _ _ _ _ _ Haround'); [|right]; cbn [v_Excluded].
      * intros x Hx. rewrite map_app. apply elem_of_app. by right.
      * unfold neighbourIDsOf, Sort. rewrite merge_sort_Permutation. eapply targets_all; [done..|set_solver].
  - destruct Hfix as ((? & _ & ->) & _ & (? & _ & ->) & _ & (? & _ & ->) & _).
    assert (Hreg : forall l, Forall (grounded (graph_of w)) l ->
      Forall (fun e => Forall (fun t => Predicate t ∈ allPredicates) (se_Triples e)) l).
    { intros l Hall. eapply Forall_impl; [exact Hall|]. intros e (state & _ & ->). apply project_registered. }
    unfold View_Entities, view_entities. cbn [v_Turn v_Scene v_Location v_Members v_Neighbours].
    repeat (constructor; [apply project_registered|]). apply Forall_app. split; apply Hreg; by eapply Hsub.
  - unfold View_Entities, view_entities. cbn [v_Turn v_Scene v_Location v_Members v_Neighbours].
    rewrite !length_app. cbn [List.length]. unfold fixedEntities in Hcap. lia.
  - done.
  - done.
  - exact Hactor.
Qed.

(** C22: the room is read from one graph, holds who is in it and stays within
    its cap. A view that is assembled names the turn it was asked for; its turn,
    scene and location are the graph's own, found by following the turn's one
    scene and the scene's one location. Its members are sources of the
    scene-membership edges the graph answered that location with, and every
    such source is a member or named as missing; its neighbours are what turn,
    scene, location and members point at and is not yet in view, and every such
    target is a neighbour or named as missing. Each member and each neighbour
    is shown once, as the graph records it, on predicates the engine knows;
    there are no more entities than the cap; and the actor it vouches for is a
    member, by the binding of the turn's own player. *)
Theorem scene_view_is_grounded_and_bounded maxEntities turnID turnEntityID w v w'
    (Hrun : Assemble maxEntities turnID turnEntityID w = (Ok v, w')) :
  graph_of w' = graph_of w /\ view_of (graph_of w) maxEntities turnID turnEntityID v.
Proof. exact (wp_elim _ _ _ _ _ (Assemble_spec maxEntities turnID turnEntityID w) Hrun). Qed.
End assembler.

(** ** One room *)

Module SceneDemo.
Definition scene_id : string := "acme.semmachina.barrow.case.scene.hall".
Definition location_id : string := "acme.semmachina.barrow.case.location.manor".
Definition watson_id : string := "acme.semmachina.barrow.case.character.watson".
Definition character_id : string := CaseflowSpec.CaseDemo.character_id.

Definition of_kind (id kind : string) (more : list Triple) : EntityState :=
  with_triples (Demo.bare id) (Demo.string_triple id WorldEntityKind kind :: more).

Definition turn_here : EntityState :=
  with_triples (Demo.bare Demo.turn_id)
    [Demo.string_triple Demo.turn_id TurnPhaseCurrent PhaseNarrating;
     Demo.string_triple Demo.turn_id TurnActionPlayer Demo.player_id;
     Demo.string_triple Demo.turn_id TurnActionScene scene_id].

Definition room_graph : graph :=
  list_to_map (map (fun e => (ID e, e))
    [of_kind Demo.player_id EntityKindPlayer [Demo.string_triple Demo.player_id PlayerCharacterCurrent character_id];
     of_kind character_id EntityKindCharacter [Demo.string_triple character_id WorldLocationCurrent location_id];
     of_kind watson_id EntityKindCharacter [Demo.string_triple watson_id WorldLocationCurrent location_id];
     of_kind scene_id EntityKindScene [Demo.string_triple scene_id SceneLocationCurrent location_id];
     of_kind location_id EntityKindLocation []; turn_here]).

Definition room_world : World := mkWorld room_graph 10 [] [].

Definition own_state (g : graph) (id : string) : option EntityState :=
  match g !! id with Some e => if String.eqb (ID e) id then Some e else None | None => None end.

Definition batch_of (g : graph) (ids : list string) : list EntityState := omap (own_state g) (remove_dups ids).

Definition absent (g : graph) (ids : list string) : list MissingEntity :=
  map (fun id => {| me_ID := id; me_Reason := MissingUnknown |})
    (List.filter (fun id => match own_state g id with Some _ => false | None => true end) ids).

Definition edges_to (g : graph) (id : string) : list IncomingEntry :=
  flat_map (fun e => map (fun t => {| ie_FromEntityID := ID e; ie_Predicate := Predicate t |})
    (List.filter (fun t => IsEntityReference (Predicate t) && bool_decide (Object t = AString id)) (Triples e)))
    (map snd (map_to_list g)).

#[export] Instance mem_scene : SceneGraph World := {|
  GetEntities ids w := (Ok {| br_Entities := batch_of (w_graph w) ids; br_Missing := absent (w_graph w) ids |}, w);
  IncomingRelationships id w := (Ok (edges_to (w_graph w) id), w) |}.

Lemma own_state_spec g id e : own_state g id = Some e -> g !! id = Some e /\ ID e = id.
Proof.
  unfold own_state. destruct (g !! id) as [e'|]; [|done]. destruct (String.eqb_spec (ID e') id); [|done]. by intros [= <-].
Qed.

Lemma batch_ids g ids : map ID (omap (own_state g) ids) = List.filter (fun id => match own_state g id with Some _ => true | None => false end) ids.
Proof.
  induction ids as [|id ids IH]; [done|]. cbn. destruct (own_state g id) as [e|] eqn:He; [|done].
  cbn. destruct (own_state_spec _ _ _ He) as [_ ->]. by rewrite <- IH.
Qed.

#[export] Instance mem_scene_laws : SceneGraphLaws World.
Proof.
  split; [|done]. intros ids w. split; [done|]. cbn. split.
  - unfold batch_of. rewrite batch_ids. apply NoDup_ListNoDup, List.NoDup_filter. by apply NoDup_ListNoDup, NoDup_remove_dups.
  - apply Forall_forall. intros e (id & Hin & He)%list_elem_of_omap. rewrite elem_of_remove_dups in Hin.
    destruct (own_state_spec _ _ _ He) as [Hg ->]. split; [done|exact Hg].
Qed.

#[export] Instance mem_scene_accounts : AccountedBatches World.
Proof.
  split. intros ids w batch w' [= <- _]. apply Forall_forall. intros id Hid. cbn. rewrite elem_of_app.
  destruct (own_state (w_graph w) id) as [e|] eqn:He.
  - left. apply list_elem_of_fmap. exists e. destruct (own_state_spec _ _ _ He) as [_ Hown]. split; [done|].
    apply list_elem_of_omap. exists id. by rewrite elem_of_remove_dups.
  - right. unfold absent. rewrite map_map. cbn. rewrite map_id. apply list_elem_of_In, filter_In.
    split; [by apply list_elem_of_In|by rewrite He].
Qed.

#[export] Instance reference_shape : TripleShape := {|
  IsRelationship t := match Object t with AString id => is_ok (mem_ValidateEntityID id) | _ => false end |}.

Definition room : View :=
  match (Assemble DefaultMaxEntities "turn-a1" Demo.turn_id room_world).1 with
  | Ok v => v
  | Err _ => Build_View EmptyString EmptyString EmptyString EmptyString 0 (Build_SceneEntity EmptyString []) (Build_SceneEntity EmptyString []) (Build_SceneEntity EmptyString [])
               [] [] [] (Build_SceneActor EmptyString EmptyString EmptyString) (Build_Size 0 0 0)
  end.
End SceneDemo.
Import SceneDemo.

Example two_are_in_the_room :
  idsOf (v_Members room) = [character_id; watson_id] /\ Verified (v_Actor room) = true /\
  sa_CharacterID (v_Actor room) = character_id.
Proof. vm_compute. done. Qed.

Lemma scene_view_is_grounded_and_bounded_witness :
  exists w', graph_of w' = graph_of room_world /\
    view_of (graph_of room_world) DefaultMaxEntities "turn-a1" Demo.turn_id room.
Proof.
  exists (Assemble DefaultMaxEntities "turn-a1" Demo.turn_id room_world).2.
  apply (scene_view_is_grounded_and_bounded DefaultMaxEntities "turn-a1" Demo.turn_id room_world room).
  refine (pair_of (Assemble DefaultMaxEntities "turn-a1" Demo.turn_id room_world) (Ok room) _). vm_compute. reflexivity.
Defined.
