(* ===== verification/EpistemicSpec.v ===== *)
(** What a projection promises: the solution and the case file reach nobody they
    are not for, evidence is shown on a grant, and every projection is closed,
    deduplicated and within its bounds. *)

From stdpp Require Import sorting.
From S2P Require Import Prelude GoStd GoErrors Graph Vocab Vocabulary Payload ProjectionContract Store GraphIO Effect Turn Caseflow Knowledge Scene Epistemic MemStore TurnSpec CaseflowSpec KnowledgeSpec SceneSpec.

Open Scope Z_scope.

(** What the casekeeper's file holds beyond name, kind and description. *)
Definition caseFilePredicates : list string :=
  List.filter (fun p => negb (mem p evidencePredicates)) casekeeperPredicates.

(** What the surfaces of everybody else may show. *)
Definition ordinaryPredicates : list string := publicWorldPredicates ++ narrationTurnPredicates ++ bondPredicates.

Lemma ordinary_is_no_case_file p : p ∈ ordinaryPredicates -> p ∉ caseFilePredicates.
Proof.
  intros Hp. assert (Hall : forallb (fun p => negb (mem p caseFilePredicates)) ordinaryPredicates = true) by (vm_compute; reflexivity).
  rewrite forallb_forall in Hall. specialize (Hall p (proj1 (list_elem_of_In _ _) Hp)).
  apply negb_true_iff in Hall. by apply mem_false.
Qed.

(** ** Deduplication and closure *)

Definition facts_in (allowed : list string) (e : ProjEntity) : Prop := Forall (fun f => f_Predicate f ∈ allowed) (pe_Facts e).

Lemma facts_in_weaken l l' e : l ⊆ l' -> facts_in l e -> facts_in l' e.
Proof. intros Hs He. eapply Forall_impl; [exact He|]. intros f Hf. by apply Hs. Qed.

Lemma prune_facts allowed ids e : facts_in allowed e -> facts_in allowed (pruneDangling e ids).
Proof.
  unfold facts_in. rewrite !Forall_forall. intros He f Hf. cbn in Hf. apply list_elem_of_In, filter_In in Hf as [Hf _].
  apply He. by apply list_elem_of_In.
Qed.

(** Every reference left in an entity is to one of the identifiers. *)
Definition closed_in (ids : list string) (e : ProjEntity) : Prop :=
  Forall (fun f => IsEntityReference (f_Predicate f) = true -> exists id, f_Object f = AString id /\ id ∈ ids) (pe_Facts e).

Lemma prune_closed ids e : closed_in ids (pruneDangling e ids).
Proof.
  apply Forall_forall. intros f Hf. cbn -[IsEntityReference] in Hf. apply list_elem_of_In, filter_In in Hf as [_ Hf].
  intros Href. rewrite Href in Hf. cbn in Hf. destruct (f_Object f) as [|id| | | | | |]; try discriminate Hf.
  exists id. split; [done|]. by apply mem_true.
Qed.

Section dedupe.
Variable excluded : list string.

Definition dedupe_step (byID : gmap string ProjEntity) (e : ProjEntity) : gmap string ProjEntity :=
  if negb (String.eqb (pe_ID e) EmptyString) && negb (mem (pe_ID e) excluded) then <[pe_ID e := e]> byID else byID.

Lemma dedupe_map entities byID id e :
  fold_left dedupe_step entities byID !! id = Some e ->
  byID !! id = Some e \/ (e ∈ entities /\ pe_ID e = id /\ id <> EmptyString /\ id ∉ excluded).
Proof.
  revert byID. induction entities as [|x l IH]; intros byID; [by left|]. cbn [fold_left]. intros He.
  destruct (IH _ He) as [Hb|(Hin & Hid & Hr)]; [|right; split_and!; [by right|done|apply Hr..]].
  unfold dedupe_step in Hb. destruct (String.eqb_spec (pe_ID x) EmptyString); [by left|]. cbn [negb andb] in Hb.
  destruct (mem (pe_ID x) excluded) eqn:Hm; [by left|]. cbn [negb] in Hb. apply mem_false in Hm.
  rewrite lookup_insert in Hb. case_decide as Heq; [|by left]. injection Hb as <-. right. subst. split_and!; [by left|done..].
Qed.

Lemma dedupe_spec entities :
  let out := dedupeSorted entities excluded in
  NoDup (map pe_ID out) /\ Forall (fun e => e ∈ entities /\ pe_ID e <> EmptyString /\ pe_ID e ∉ excluded) out.
Proof.
  cbv zeta. unfold dedupeSorted. change (fun byID e => _) with dedupe_step.
  set (byID := fold_left dedupe_step entities ∅). set (keys := Sort (map fst (map_to_list byID))).
  assert (Hmap : forall id e, byID !! id = Some e -> e ∈ entities /\ pe_ID e = id /\ id <> EmptyString /\ id ∉ excluded).
  { intros id e He. destruct (dedupe_map _ _ _ _ He) as [Hb|Hb]; [by rewrite lookup_empty in Hb|done]. }
  assert (Hkeys : NoDup keys).
  { unfold keys, Sort. rewrite merge_sort_Permutation. apply NoDup_fst_map_to_list. }
  split.
  - revert Hkeys. generalize keys as l. induction 1 as [|k l Hni Hnd IH]; [constructor|]. cbn.
    destruct (byID !! k) as [e|] eqn:He; [|done]. cbn. constructor; [|done].
    destruct (Hmap _ _ He) as (_ & Hid & _). rewrite Hid. intros (e' & Heq & Hin)%list_elem_of_fmap.
    apply list_elem_of_omap in Hin as (k' & Hk' & He'). destruct (Hmap _ _ He') as (_ & Hid' & _). congruence.
  - apply Forall_forall. intros e (k & _ & He)%list_elem_of_omap. by destruct (Hmap _ _ He) as (? & <- & ? & ?).
Qed.
End dedupe.

(** What finalizing leaves of a projection. *)
Record finalized (p p' : Projection) : Prop := {
  final_flags : p_HasSolution p' = p_HasSolution p /\ p_Solution p' = p_Solution p /\ p_Purpose p' = p_Purpose p;
  final_turn : exists ids, p_Turn p' = pruneDangling (p_Turn p) ids /\ p_Scene p' = pruneDangling (p_Scene p) ids;
  final_members : Forall (fun e' => exists e ids, e ∈ p_Members p /\ e' = pruneDangling e ids) (p_Members p');
  final_neighbours : Forall (fun e' => exists e ids, e ∈ p_Neighbours p /\ e' = pruneDangling e ids) (p_Neighbours p');
  final_distinct : NoDup (map pe_ID (p_Members p' ++ p_Neighbours p'));
  final_apart : Forall (fun e => pe_ID e <> pe_ID (p_Turn p') /\ pe_ID e <> pe_ID (p_Scene p')) (p_Members p' ++ p_Neighbours p');
  final_closed : Forall (closed_in (map pe_ID (Projection_Entities p'))) (Projection_Entities p') }.

Lemma prune_ids ids l : map pe_ID (map (fun e => pruneDangling e ids) l) = map pe_ID l.
Proof. by rewrite map_map. Qed.

Lemma entities_ids p turn scene members neighbours ids :
  map pe_ID (Projection_Entities (with_entities p (pruneDangling turn ids) (pruneDangling scene ids)
    (map (fun e => pruneDangling e ids) members) (map (fun e => pruneDangling e ids) neighbours))) =
  map pe_ID (Projection_Entities (with_entities p turn scene members neighbours)).
Proof.
  unfold Projection_Entities. cbn [p_Turn p_Scene p_Members p_Neighbours with_entities pe_ID pruneDangling].
  rewrite !map_app, !prune_ids. by destruct (String.eqb (pe_ID turn) _), (String.eqb (pe_ID scene) _).
Qed.

Lemma finalize_spec p : finalized p (finalize p).
Proof.
  unfold finalize. cbv zeta. set (members := dedupeSorted (p_Members p) _).
  set (neighbours := dedupeSorted (p_Neighbours p) _).
  destruct (dedupe_spec [pe_ID (p_Turn p); pe_ID (p_Scene p)] (p_Members p)) as [Hmn Hm]. fold members in Hmn, Hm.
  destruct (dedupe_spec ([pe_ID (p_Turn p); pe_ID (p_Scene p)] ++ map pe_ID members) (p_Neighbours p)) as [Hnn Hn].
  fold neighbours in Hnn, Hn.
  set (base := with_entities p (p_Turn p) (p_Scene p) members neighbours). set (ids := map pe_ID (Projection_Entities base)).
  rewrite Forall_forall in Hm, Hn. split.
  - done.
  - by exists ids.
  - cbn. apply Forall_forall. intros e' (e & -> & Hin)%list_elem_of_fmap. exists e, ids. split; [by apply Hm|done].
  - cbn. apply Forall_forall. intros e' (e & -> & Hin)%list_elem_of_fmap. exists e, ids. split; [by apply Hn|done].
  - cbn. rewrite map_app, !prune_ids. apply NoDup_app. split_and!; [done| |done].
    intros id Hid (e & -> & Hin)%list_elem_of_fmap. destruct (Hn e Hin) as (_ & _ & Hni). apply Hni. set_solver.
  - cbn. apply Forall_app. split; apply Forall_forall; intros e' (e & -> & Hin)%list_elem_of_fmap; cbn.
    + destruct (Hm e Hin) as (_ & _ & Hni). set_solver.
    + destruct (Hn e Hin) as (_ & _ & Hni). set_solver.
  - rewrite entities_ids. fold base. change (map pe_ID (Projection_Entities _)) with ids at 1. fold ids.
    unfold Projection_Entities at 1. cbn. apply Forall_app. split; [|apply Forall_app; split].
    + destruct (negb _); repeat constructor; apply prune_closed.
    + destruct (negb _); repeat constructor; apply prune_closed.
    + apply Forall_app. split; apply Forall_forall; intros e' (e & -> & Hin)%list_elem_of_fmap; apply prune_closed.
Qed.

(** ** What each authority adds *)

Section projector.
Context {W : Type} `{Substrate, HasGraph W, SceneGraph W, PredicateReader W, ProjectionEncoder}.
Context `{!SceneGraphLaws W, !PredicateReaderLaws W}.
Implicit Types (w : W) (pj : Projector W).

(** The assembler and the authorities of a projector only read. *)
Record quiet (pj : Projector W) : Prop := {
  quiet_assemble t e : reading (pj_Assemble pj t e);
  quiet_denouement f t c r : pj_denouement pj = Some f -> reading (f t c r);
  quiet_bonds f b p c : pj_companionBonds pj = Some f -> reading (f b p c);
  quiet_evidence f r : pj_narrationEvidence pj = Some f -> reading (f r) }.

(** The states a hydration returns are the graph's, of the requested identifiers. *)
Lemma check_batch_spec (g : graph) ids entities requested seen states :
  check_batch entities requested seen = Ok states -> requested = ids ->
  Forall (fun e => ID e ∈ ids /\ g !! ID e = Some e) entities ->
  Forall (fun e => ID e ∈ ids /\ g !! ID e = Some e) states.
Proof.
  intros Hc ->. revert seen states Hc. induction entities as [|e l IH]; intros seen states; cbn -[mem].
  { by intros [= <-]. }
  destruct (negb _); [done|]. destruct (mem (ID e) seen); [done|].
  intros (rest & Hrest & Heq)%result_bind_ok [He Hall]%Forall_cons. specialize (IH _ _ Hrest Hall).
  injection Heq as <-. destruct (String.eqb _ _); [done|by constructor].
Qed.

Lemma hydrate_states_spec pj ids w :
  wp (hydrate pj ids) (fun r w' => graph_of w' = graph_of w /\
    match r with Ok states => Forall (fun e => ID e ∈ ids /\ graph_of w !! ID e = Some e) states | Err _ => True end) w.
Proof.
  unfold hydrate. destruct ids as [|id ids']; [apply wp_ret; split; [done|constructor]|]. set (ids := id :: ids').
  destruct (_ <? _); [by apply wp_throw|].
  apply wp_bind. eapply wp_mono; [apply GetEntities_spec|]. intros [batch|err] w1 [Hg Hr]; [|done].
  apply wp_lift_bind; [|done]. intros states Hs. apply wp_ret. split; [done|].
  rewrite merge_sort_Permutation. eapply check_batch_spec; [exact Hs|done|apply Hr].
Qed.

Lemma queryIDs_reading pj p v : reading (queryIDs pj p v).
Proof.
  apply reading_bind; [apply reading_attempt; intros w; apply EntitiesByPredicateValue_graph|]. intros r.
  apply reading_bind; [apply reading_lift|]. intros ids. destruct (_ <? _); [apply reading_throw|apply reading_ret].
Qed.

Lemma wp_reading {A} (m : MW W A) w : reading m -> wp m (fun _ w' => graph_of w' = graph_of w) w.
Proof. intros Hm. exact (Hm w). Qed.

(** Neighbours were added, each of which is accounted for. *)
Definition adds (P : ProjEntity -> Prop) (p p' : Projection) : Prop :=
  exists more, p' = add_neighbours p more /\ Forall P more.

Lemma adds_none P p : adds P p p.
Proof. exists []. split; [|constructor]. unfold add_neighbours. rewrite List.app_nil_r. by destruct p. Qed.

Lemma adds_trans P p p1 p2 : adds P p p1 -> adds P p1 p2 -> adds P p p2.
Proof.
  intros (m1 & -> & H1') (m2 & -> & H2'). exists (m1 ++ m2). split; [|by apply Forall_app].
  unfold add_neighbours, with_entities. cbn. by rewrite (assoc_L (++)).
Qed.

Lemma adds_weaken (P Q : ProjEntity -> Prop) p p' : (forall e, P e -> Q e) -> adds P p p' -> adds Q p p'.
Proof. intros HPQ (more & -> & Hall). exists more. split; [done|]. eapply Forall_impl; [exact Hall|exact HPQ]. Qed.

(** A piece of evidence, shown by name, kind and description, that [src] names. *)
Definition shown_evidence (g : graph) (src : string -> Prop) (e : ProjEntity) : Prop :=
  exists s, g !! ID s = Some s /\ e = projectState s evidencePredicates /\
    requireEntityKind s EntityKindEvidence = Ok tt /\ src (ID s).

Lemma addEvidence_spec pj p ids w :
  wp (addEvidence pj p ids evidencePredicates) (fun r w' => graph_of w' = graph_of w /\
    match r with Ok p' => adds (shown_evidence (graph_of w) (fun id => id ∈ ids)) p p' | Err _ => True end) w.
Proof.
  unfold addEvidence. apply wp_bind. eapply wp_mono; [apply hydrate_states_spec|]. intros [states|err] w1 [Hg Hs]; [|done].
  apply wp_lift_bind; [|done]. intros u Hk%all_ok_Forall. apply wp_ret. split; [done|].
  eexists. split; [done|]. apply Forall_forall. intros e (s & -> & Hin)%list_elem_of_fmap.
  rewrite Forall_forall in Hs, Hk. destruct (Hs s Hin) as [Hid Hgs]. exists s. split_and!; [done|done| |].
  - specialize (Hk s Hin). by apply wrapf_ok in Hk.
  - unfold Sort in Hid. by rewrite Compact_elem, merge_sort_Permutation in Hid.
Qed.

(** What the actor has a grant for. *)
Definition knows (g : graph) (actorID id : string) : Prop :=
  exists r, g !! ID r = Some r /\ knowledge_evidence actorID r = Ok id.

(** What was revealed to the actor in the turn. *)
Definition was_revealed (g : graph) (actorID turnID id : string) : Prop :=
  exists r l, g !! ID r = Some r /\ revealed_evidence actorID turnID r = Ok l /\ id ∈ l.

Lemma grants_read pj predicate value w msg (k : list EntityState -> MW W Projection) (Q : res Projection -> W -> Prop) :
  (forall err w', graph_of w' = graph_of w -> Q (Err err) w') ->
  (forall records w', graph_of w' = graph_of w -> Forall (fun e => graph_of w !! ID e = Some e) records -> wp (k records) Q w') ->
  wp (recordIDs ← queryIDs pj predicate value;
      read ← attempt (hydrate pj recordIDs);
      records ← lift (wrapf msg read);
      k records) Q w.
Proof.
  intros Herr Hok. apply wp_bind. eapply wp_mono; [apply wp_reading, queryIDs_reading|]. intros [ids|err] w1 Hg1; [|by apply Herr].
  apply wp_bind, wp_attempt. eapply wp_mono; [apply hydrate_states_spec|]. rewrite Hg1. intros r w2 [Hg2 Hr].
  apply wp_lift_bind; [|intros err _; by apply Herr]. intros records Hrec. apply Hok; [done|].
  destruct r as [states|]; [|done]. injection Hrec as <-. eapply Forall_impl; [exact Hr|]. by intros e [_ ?].
Qed.

Lemma addKnowledge_spec pj p actorID w :
  wp (addKnowledge pj p actorID) (fun r w' => graph_of w' = graph_of w /\
    match r with Ok p' => adds (shown_evidence (graph_of w) (knows (graph_of w) actorID)) p p' | Err _ => True end) w.
Proof.
  unfold addKnowledge. apply grants_read; [done|]. intros records w1 Hg Hrec.
  apply wp_lift_bind; [|done]. intros ids Hids. eapply wp_mono; [apply addEvidence_spec|]. rewrite Hg.
  intros [p'|err] w2 [Hg2 Ha]; (split; [done|]); [|done]. eapply adds_weaken; [|exact Ha].
  intros e (s & Hs & -> & Hk & Hin). exists s. split_and!; [done..|].
  destruct (each_in _ _ _ _ Hids Hin) as (r & Hr & Hev). rewrite Forall_forall in Hrec. exists r. split; [by apply Hrec|done].
Qed.

Lemma addRevelations_spec pj p actorID turnID w :
  wp (addRevelations pj p actorID turnID) (fun r w' => graph_of w' = graph_of w /\
    match r with Ok p' => adds (shown_evidence (graph_of w) (was_revealed (graph_of w) actorID turnID)) p p' | Err _ => True end) w.
Proof.
  unfold addRevelations. apply grants_read; [done|]. intros records w1 Hg Hrec.
  apply wp_lift_bind; [|done]. intros ids Hids. eapply wp_mono; [apply addEvidence_spec|]. rewrite Hg.
  intros [p'|err] w2 [Hg2 Ha]; (split; [done|]); [|done]. eapply adds_weaken; [|exact Ha].
  intros e (s & Hs & -> & Hk & Hin). exists s. split_and!; [done..|].
  apply list_elem_of_In, in_concat in Hin as (l & Hl & Hin). apply list_elem_of_In in Hl, Hin.
  destruct (each_in _ _ _ _ Hids Hl) as (r & Hr & Hev). rewrite Forall_forall in Hrec. exists r, l. split_and!; [by apply Hrec|done|done].
Qed.

(** The companion's bond, by its own predicates. *)
Definition shown_bond (g : graph) (bondID : string) (e : ProjEntity) : Prop :=
  exists s, g !! bondID = Some s /\ ID s = bondID /\ e = projectState s bondPredicates.

Lemma addCompanionBond_spec pj p bondID w :
  wp (addCompanionBond pj p bondID) (fun r w' => graph_of w' = graph_of w /\
    match r with Ok p' => adds (shown_bond (graph_of w) bondID) p p' | Err _ => True end) w.
Proof.
  unfold addCompanionBond. apply wp_bind, wp_attempt. eapply wp_mono; [apply hydrate_states_spec|].
  intros r w1 [Hg Hr]. apply wp_lift_bind; [|done]. intros bonds Hb. destruct r as [states|]; [|done]. injection Hb as <-.
  destruct states as [|bond [|]]; [by apply wp_throw| |by apply wp_throw]. apply wp_ret. split; [done|].
  apply Forall_inv in Hr as [Hid Hs]. apply list_elem_of_singleton in Hid. eexists. split; [done|].
  constructor; [|constructor]. exists bond. by rewrite <- Hid.
Qed.

(** The case of the projector's scope. *)
Definition case_of (g : graph) pj (s : EntityState) : Prop :=
  g !! sc_caseID (pj_scope pj) = Some s /\ ID s = sc_caseID (pj_scope pj) /\ requireEntityKind s EntityKindCase = Ok tt.

Lemma caseState_spec pj w :
  wp (caseState pj) (fun r w' => graph_of w' = graph_of w /\
    match r with Ok s => case_of (graph_of w) pj s | Err _ => True end) w.
Proof.
  unfold caseState. destruct (String.eqb _ _); [by apply wp_throw|].
  apply wp_bind. eapply wp_mono; [apply hydrate_states_spec|]. intros [states|err] w1 [Hg Hr]; [|done].
  destruct states as [|s [|]]; [by apply wp_throw| |by apply wp_throw].
  apply wp_lift_bind; [|done]. intros [] Hk%wrapf_ok. apply wp_ret. split; [done|].
  apply Forall_inv in Hr as [Hid Hs]. apply list_elem_of_singleton in Hid. unfold case_of. by rewrite <- Hid.
Qed.

Lemma projected_objects s allowed p : p ∈ allowed -> ProjEntity_Objects (projectState s allowed) p ≡ₚ objectsFor s p.
Proof.
  intros Hp. unfold ProjEntity_Objects, projectState, projectTriples, objectsFor, triplesFor. cbn [pe_Facts].
  assert (Hfilter : forall (A : Type) (f : A -> bool) (l l' : list A), l ≡ₚ l' -> List.filter f l ≡ₚ List.filter f l').
  { intros A f l l'. induction 1; cbn; [done|by destruct (f x); [constructor|]|destruct (f x), (f y); try done; constructor|by etrans]. }
  rewrite (Hfilter _ _ _ _ (merge_sort_Permutation fact_le _)). induction (Triples s) as [|t l IH]; [done|]. cbn -[mem String.eqb].
  destruct (String.eqb (Predicate t) p) eqn:He.
  - apply String.eqb_eq in He. rewrite He, (proj2 (mem_true _ _) Hp). cbn -[mem String.eqb]. rewrite He, String.eqb_refl. cbn. by rewrite IH.
  - destruct (mem (Predicate t) allowed); [|done]. cbn -[mem String.eqb]. by rewrite He.
Qed.

Lemma projectTriples_facts id triples allowed : facts_in allowed (projectTriples id triples allowed).
Proof.
  unfold facts_in. cbn. rewrite merge_sort_Permutation. apply Forall_forall. intros f (t & -> & Hin)%list_elem_of_fmap.
  apply list_elem_of_In, filter_In in Hin as [_ Hin]. cbn. by apply mem_true.
Qed.

Lemma projectState_facts s allowed : facts_in allowed (projectState s allowed).
Proof. apply projectTriples_facts. Qed.

(** What the denouement takes: the case is there, and the authority agrees. *)
Definition earned (g : graph) pj (turnID authorizerRef : string) (solution : Solution) : Prop :=
  exists s, case_of g pj s /\ solutionOf s = Ok solution /\
    objectsFor s CaseLifecyclePhase = [AString CasePhaseDenouement] /\
    exists authorize (w1 w2 : W), pj_denouement pj = Some authorize /\ graph_of w1 = g /\
      authorize turnID (sc_caseID (pj_scope pj)) authorizerRef w1 = (Ok true, w2).

Lemma authorizeDenouement_spec pj p ref w : quiet pj ->
  wp (authorizeDenouement pj p ref) (fun r w' => graph_of w' = graph_of w /\
    match r with
    | Ok p' => exists solution, p' = with_solution p solution /\ earned (graph_of w) pj (p_TurnID p) ref solution
    | Err _ => True
    end) w.
Proof.
  intros Hq. unfold authorizeDenouement. apply wp_bind. eapply wp_mono; [apply caseState_spec|]. intros [s|err] w1 [Hg Hcase]; [|done].
  pose proof (projected_objects s casekeeperPredicates CaseLifecyclePhase) as Hperm.
  specialize (Hperm (proj1 (mem_true CaseLifecyclePhase casekeeperPredicates) ltac:(vm_compute; reflexivity))).
  destruct (ProjEntity_Objects _ CaseLifecyclePhase) as [|[|phase| | | | | |] [|]]; try by apply wp_throw.
  destruct (String.eqb_spec phase CasePhaseDenouement) as [->|]; [|by apply wp_throw]. cbn [negb].
  destruct (pj_denouement pj) as [authorize|] eqn:Ha; [|by apply wp_throw].
  apply wp_bind, wp_attempt. pose proof (quiet_denouement _ Hq authorize (p_TurnID p) (ID s) ref Ha w1) as Hg2. unfold wp at 1.
  destruct (authorize (p_TurnID p) (ID s) ref w1) as [r w2] eqn:Hrun. cbn [fst snd] in *.
  apply wp_lift_bind; [|intros; split; [congruence|done]]. intros [] Hr; [|apply wp_throw; split; [congruence|done]]. cbn [negb].
  destruct r as [b|]; [injection Hr as ->|done].
  apply wp_lift_bind; [|intros; split; [congruence|done]]. intros solution Hsol. apply wp_ret. split; [congruence|].
  exists solution. split; [done|]. exists s. split_and!; [done|done| |].
  - symmetry in Hperm. by apply Permutation_singleton_r in Hperm.
  - exists authorize, w1, w2. destruct Hcase as (_ & <- & _). done.
Qed.

(** What the narration resolver named, none of it the locked solution's. *)
Definition narrated (g : graph) pj (a : AuthenticatedAudience) (id : string) : Prop :=
  (exists resolve request (w1 w2 : W) ids, pj_narrationEvidence pj = Some resolve /\
     resolve request w1 = (Ok ids, w2) /\ ne_TurnID request = au_turnID a /\ id ∈ ids) /\
  (au_purpose a = PurposeNarrator -> sc_caseID (pj_scope pj) <> EmptyString ->
   exists s solution, case_of g pj s /\ solutionOf s = Ok solution /\
     id <> Culprit solution /\ id <> Method solution /\ id <> Motive solution).

Lemma check_locked_spec pj purpose ids w :
  wp (check_locked pj purpose ids) (fun r w' => graph_of w' = graph_of w /\
    match r with
    | Ok _ => Forall (fun id => purpose = PurposeNarrator -> sc_caseID (pj_scope pj) <> EmptyString ->
        exists s solution, case_of (graph_of w) pj s /\ solutionOf s = Ok solution /\
          id <> Culprit solution /\ id <> Method solution /\ id <> Motive solution) ids
    | Err _ => True
    end) w.
Proof.
  unfold check_locked. destruct (String.eqb_spec purpose PurposeNarrator) as [->|Hp].
  2: { apply wp_ret. split; [done|]. by apply Forall_forall. }
  destruct ids as [|id ids']; [apply wp_ret; split; [done|constructor]|]. set (ids := id :: ids').
  destruct (String.eqb_spec (sc_caseID (pj_scope pj)) EmptyString) as [Hs|Hs]; cbn [negb andb Nat.eqb List.length ids].
  { apply wp_ret. split; [done|]. by apply Forall_forall. }
  apply wp_bind. eapply wp_mono; [apply caseState_spec|]. intros [s|err] w1 [Hg Hcase]; [|done].
  apply wp_lift_bind; [|done]. intros solution Hsol. apply wp_lift. split; [done|].
  destruct (all_ok _ ids) as [[]|] eqn:Hall; [|done]. apply all_ok_Forall in Hall. eapply Forall_impl; [exact Hall|].
  intros x Hx _ _. apply require_ok, negb_true_iff, mem_false in Hx. exists s, solution. split_and!; [done|done|set_solver..].
Qed.

Lemma addNarrationEvidence_spec pj p a w : quiet pj ->
  wp (addNarrationEvidence pj p a) (fun r w' => graph_of w' = graph_of w /\
    match r with Ok p' => adds (shown_evidence (graph_of w) (narrated (graph_of w) pj a)) p p' | Err _ => True end) w.
Proof.
  intros Hq. unfold addNarrationEvidence. destruct (pj_narrationEvidence pj) as [resolve|] eqn:Hres.
  2: { destruct (Nat.eqb _ _); [apply wp_ret|by apply wp_throw]. split; [done|apply adds_none]. }
  set (request := Build_NarrationEvidenceRequest _ _ _ _ _).
  apply wp_bind, wp_attempt. pose proof (quiet_evidence _ Hq resolve request Hres w) as Hg. unfold wp at 1.
  destruct (resolve request w) as [r w1] eqn:Hrun. cbn [fst snd] in *. apply wp_lift_bind; [|done]. intros ids Hids.
  destruct r as [ids'|]; [injection Hids as ->|done].
  destruct (negb _); [by apply wp_throw|]. destruct (negb _); [by apply wp_throw|].
  apply wp_bind. eapply wp_mono; [apply check_locked_spec|]. rewrite Hg. intros [u|err] w2 [Hg2 Hlock]; [|done].
  apply wp_bind. eapply wp_mono; [apply hydrate_states_spec|]. rewrite Hg2. intros [states|err] w3 [Hg3 Hs]; [|done].
  destruct (negb _); [by apply wp_throw|]. apply wp_lift_bind; [|done]. intros u' Hk%all_ok_Forall.
  apply wp_ret. split; [done|]. eexists. split; [done|]. apply Forall_forall. intros e (s & -> & Hin)%list_elem_of_fmap.
  cbv beta iota in Hlock. rewrite Forall_forall in Hs, Hk. rewrite Forall_forall in Hlock. destruct (Hs s Hin) as [Hid Hgs]. exists s.
  specialize (Hk s Hin). apply wrapf_ok in Hk. split_and!; [done..|]. split; [|by apply Hlock].
  by exists resolve, request, w, w1, ids.
Qed.

Lemma addCasekeeperState_spec pj p targets w :
  wp (addCasekeeperState pj p targets) (fun r w' => graph_of w' = graph_of w /\
    match r with Ok p' => adds (facts_in casekeeperPredicates) p p' | Err _ => True end) w.
Proof.
  assert (Hstates : forall q states, adds (facts_in casekeeperPredicates) q
    (add_neighbours q (map (fun s => projectState s casekeeperPredicates) states))).
  { intros q states. eexists. split; [done|]. apply Forall_forall. intros e (s & -> & _)%list_elem_of_fmap. apply projectState_facts. }
  unfold addCasekeeperState. apply wp_bind. eapply wp_mono; [apply caseState_spec|]. intros [s|err] w1 [Hg1 _]; [|done].
  apply wp_bind. eapply wp_mono; [apply hydrate_states_spec|]. rewrite Hg1. intros [states|err] w2 [Hg2 _]; [|done].
  apply wp_lift_bind; [|done]. intros _ _. apply wp_lift_bind; [|done]. intros records _.
  apply wp_bind. eapply wp_mono; [apply hydrate_states_spec|]. rewrite Hg2. intros [beliefs|err] w3 [Hg3 _]; [|done].
  destruct (negb _); [by apply wp_throw|]. apply wp_lift_bind; [|done]. intros more Hmore. apply wp_ret. split; [done|].
  eapply adds_trans; [apply (Hstates p [s])|]. eapply adds_trans; [apply Hstates|].
  exists more. split; [done|]. apply Forall_forall. intros e Hin. destruct (each_in _ _ _ _ Hmore Hin) as (b & _ & Hb).
  unfold check_belief in Hb. apply result_bind_ok in Hb as (? & _ & Hb). apply result_bind_ok in Hb as (? & _ & Hb).
  destruct (negb _); [done|]. apply result_bind_ok in Hb as (? & _ & Hb). destruct (negb _); [done|].
  apply result_bind_ok in Hb as (? & _ & Hb). apply result_bind_ok in Hb as (? & _ & [= <-]). apply projectState_facts.
Qed.

(** Who is told: the companion itself, or the actor of the turn. *)
Definition audience_actor (view : View) (a : AuthenticatedAudience) : string :=
  if String.eqb (au_purpose a) PurposeCompanion then au_companionID a else sa_CharacterID (v_Actor view).

(** Why an entity is shown beside the public scene. *)
Inductive accounted (g : graph) pj (view : View) (a : AuthenticatedAudience) (e : ProjEntity) : Prop :=
| accounted_known : au_purpose a <> PurposeCasekeeper ->
    shown_evidence g (knows g (audience_actor view a)) e -> accounted g pj view a e
| accounted_revealed : au_purpose a ∈ [PurposePlayer; PurposeNarrator; PurposeDenouement] ->
    shown_evidence g (was_revealed g (audience_actor view a) (au_turnID a)) e -> accounted g pj view a e
| accounted_narrated : au_purpose a ∈ [PurposeNarrator; PurposeDenouement] ->
    shown_evidence g (narrated g pj a) e -> accounted g pj view a e
| accounted_bond : au_purpose a = PurposeCompanion -> shown_bond g (au_bondID a) e -> accounted g pj view a e
| accounted_case : au_purpose a = PurposeCasekeeper -> facts_in casekeeperPredicates e -> accounted g pj view a e.

(** A surface that only gained neighbours. *)
Record grown (P : ProjEntity -> Prop) (p p' : Projection) : Prop := {
  grown_surface : p_Turn p' = p_Turn p /\ p_Scene p' = p_Scene p /\ p_Members p' = p_Members p /\ p_TurnID p' = p_TurnID p;
  grown_neighbours : exists more, p_Neighbours p' = p_Neighbours p ++ more /\ Forall P more }.

Lemma adds_grown (P Q : ProjEntity -> Prop) p p' : (forall e, P e -> Q e) -> adds P p p' -> grown Q p p'.
Proof.
  intros HPQ (more & -> & Hall). split; [done|]. exists more. split; [done|]. eapply Forall_impl; [exact Hall|exact HPQ].
Qed.

Lemma grown_trans P p p1 p2 : grown P p p1 -> grown P p1 p2 -> grown P p p2.
Proof.
  intros [(Ht & Hs & Hm & Hi) (m1 & Hn1 & Hp1)] [(Ht2 & Hs2 & Hm2 & Hi2) (m2 & Hn2 & Hp2)]. split; [split_and!; congruence|].
  exists (m1 ++ m2). split; [rewrite Hn2, Hn1; by rewrite (assoc_L (++))|by apply Forall_app].
Qed.

Lemma grown_same P p p' : p_Turn p' = p_Turn p -> p_Scene p' = p_Scene p -> p_Members p' = p_Members p ->
  p_TurnID p' = p_TurnID p -> p_Neighbours p' = p_Neighbours p -> grown P p p'.
Proof. intros ? ? ? ? Hn. split; [done|]. exists []. split; [by rewrite List.app_nil_r|constructor]. Qed.

Definition flags (p p' : Projection) : Prop := p_HasSolution p' = p_HasSolution p /\ p_Solution p' = p_Solution p.

Lemma adds_flags P p p' : adds P p p' -> flags p p'.
Proof. by intros (more & -> & _). Qed.

(** The bond authority accepted the companion for the player of the view. *)
Definition bonded (g : graph) pj (view : View) (a : AuthenticatedAudience) : Prop :=
  exists validate w w', pj_companionBonds pj = Some validate /\ graph_of w = g /\
    validate (au_bondID a) (sa_PlayerID (v_Actor view)) (au_companionID a) w = (Ok tt, w').

Definition grew (g : graph) pj view a (p p' : Projection) : Prop :=
  grown (accounted g pj view a) p p' /\ (au_purpose a = PurposeCompanion -> bonded g pj view a) /\
  (if String.eqb (au_purpose a) PurposeDenouement
   then p_HasSolution p' = true /\ earned g pj (p_TurnID p) (au_authorizerRef a) (p_Solution p')
   else flags p p').

Lemma add_for_spec pj view a p w : quiet pj ->
  wp (add_for pj view a p) (fun r w' => graph_of w' = graph_of w /\
    match r with Ok p' => grew (graph_of w) pj view a p p' | Err _ => True end) w.
Proof.
  intros Hq. unfold add_for, grew. fold (audience_actor view a). set (actor := audience_actor view a).
  destruct (String.eqb_spec (au_purpose a) PurposePublicAdjudicator) as [Hp|_].
  { rewrite Hp. eapply wp_mono; [apply addKnowledge_spec|]. intros [p1|err] w1 [Hg1 Ha1]; (split; [done|]); [|done].
    split; [|split; [done|by eapply adds_flags]]. eapply adds_grown; [|exact Ha1]. intros e. apply accounted_known. by rewrite Hp. }
  destruct (String.eqb_spec (au_purpose a) PurposePlayer) as [Hp|_].
  { rewrite Hp. apply wp_bind. eapply wp_mono; [apply addKnowledge_spec|]. intros [p1|err] w1 [Hg1 Ha1]; [|done].
    eapply wp_mono; [apply addRevelations_spec|]. rewrite Hg1. intros [p2|err] w2 [Hg2 Ha2]; (split; [done|]); [|done].
    split; [|split; [done|destruct (adds_flags _ _ _ Ha1), (adds_flags _ _ _ Ha2); split; cbn; congruence]].
    eapply grown_trans; [eapply adds_grown; [|exact Ha1]|eapply adds_grown; [|exact Ha2]].
    - intros e. apply accounted_known. by rewrite Hp.
    - intros e. apply accounted_revealed. rewrite Hp. left. }
  destruct (String.eqb_spec (au_purpose a) PurposeCompanion) as [Hp|Hnc].
  { rewrite Hp. destruct (pj_companionBonds pj) as [validate|] eqn:Hb; [|by apply wp_throw].
    apply wp_bind. pose proof (quiet_bonds _ Hq validate (au_bondID a) (sa_PlayerID (v_Actor view)) actor Hb w) as Hg1.
    unfold wp at 1. destruct (validate _ _ actor w) as [[[]|err] w1] eqn:Hbond; cbn [fst snd] in *; [|done].
    apply wp_bind. eapply wp_mono; [apply addCompanionBond_spec|]. rewrite Hg1. intros [p1|err] w2 [Hg2 Ha1]; [|done].
    eapply wp_mono; [apply addKnowledge_spec|]. rewrite Hg2. intros [p2|err] w3 [Hg3 Ha2]; (split; [done|]); [|done].
    split; [|split; [intros _; exists validate, w, w1; split_and!; [done|done|]|
      destruct (adds_flags _ _ _ Ha1), (adds_flags _ _ _ Ha2); split; cbn in *; congruence]].
    2: { revert Hbond. unfold actor, audience_actor. by rewrite Hp. }
    eapply grown_trans; [eapply grown_trans|].
    - apply (grown_same _ p (with_bond p (au_contextRef a) (au_companionID a) (au_bondID a))); done.
    - eapply adds_grown; [|exact Ha1]. intros e. by apply accounted_bond.
    - eapply adds_grown; [|exact Ha2]. intros e. apply accounted_known. by rewrite Hp. }
  destruct (String.eqb_spec (au_purpose a) PurposeNarrator) as [Hp|_].
  { rewrite Hp. apply wp_bind. eapply wp_mono; [apply addKnowledge_spec|]. intros [p1|err] w1 [Hg1 Ha1]; [|done].
    apply wp_bind. eapply wp_mono; [apply addRevelations_spec|]. rewrite Hg1. intros [p2|err] w2 [Hg2 Ha2]; [|done].
    eapply wp_mono; [by apply addNarrationEvidence_spec|]. rewrite Hg2. intros [p3|err] w3 [Hg3 Ha3]; (split; [done|]); [|done].
    split; [|split; [done|]].
    - eapply grown_trans; [eapply grown_trans; [eapply adds_grown; [|exact Ha1]|eapply adds_grown; [|exact Ha2]]|
        eapply adds_grown; [|exact Ha3]].
      + intros e. apply accounted_known. by rewrite Hp.
      + intros e. apply accounted_revealed. rewrite Hp. right. left.
      + intros e. apply accounted_narrated. rewrite Hp. left.
    - destruct (adds_flags _ _ _ Ha1), (adds_flags _ _ _ Ha2), (adds_flags _ _ _ Ha3). split; cbn; congruence. }
  destruct (String.eqb_spec (au_purpose a) PurposeCasekeeper) as [Hp|_].
  { rewrite Hp. eapply wp_mono; [apply addCasekeeperState_spec|]. intros [p1|err] w1 [Hg1 Ha1]; (split; [done|]); [|done].
    split; [|split; [done|by eapply adds_flags]]. eapply adds_grown; [|exact Ha1]. intros e. by apply accounted_case. }
  destruct (String.eqb_spec (au_purpose a) PurposeDenouement) as [Hp|_].
  { apply wp_bind. eapply wp_mono; [apply addKnowledge_spec|]. intros [p1|err] w1 [Hg1 Ha1]; [|done].
    apply wp_bind. eapply wp_mono; [apply addRevelations_spec|]. rewrite Hg1. intros [p2|err] w2 [Hg2 Ha2]; [|done].
    apply wp_bind. eapply wp_mono; [by apply authorizeDenouement_spec|]. rewrite Hg2. intros [p3|err] w3 [Hg3 Ha3]; [|done].
    destruct Ha3 as (solution & -> & Hearned).
    eapply wp_mono; [by apply addNarrationEvidence_spec|]. rewrite Hg3. intros [p4|err] w4 [Hg4 Ha4]; (split; [done|]); [|done].
    split; [|split; [by rewrite Hp|]].
    - eapply grown_trans; [eapply grown_trans; [eapply grown_trans|]|eapply adds_grown; [|exact Ha4]].
      + eapply adds_grown; [|exact Ha1]. intros e. apply accounted_known. by rewrite Hp.
      + eapply adds_grown; [|exact Ha2]. intros e. apply accounted_revealed. rewrite Hp. right. right. left.
      + by apply (grown_same _ p2 (with_solution p2 solution)).
      + intros e. apply accounted_narrated. rewrite Hp. right. left.
    - destruct (adds_flags _ _ _ Ha4) as [Hh Hs]. cbn in Hh, Hs. split; [done|]. rewrite Hs.
      destruct Ha1 as (m1 & -> & _), Ha2 as (m2 & -> & _). exact Hearned. }
  apply wp_ret. split; [done|]. split; [by apply grown_same|]. by split.
Qed.

(** What a projection is made of. *)
Inductive projected w pj (a : AuthenticatedAudience) (p : Projection) : Prop :=
| projected_verifier s : au_purpose a = PurposeVerifier -> case_of (graph_of w) pj s -> p_HasSolution p = true ->
    solutionOf s = Ok (p_Solution p) -> Projection_Entities p = [] -> projected w pj a p
| projected_view view w1 p0 : au_purpose a <> PurposeVerifier -> v_TurnID view = au_turnID a ->
    v_TurnEntityID view = au_turnEntityID a -> Verified (v_Actor view) = true ->
    pj_Assemble pj (au_turnID a) (au_turnEntityID a) w = (Ok (Some view), w1) ->
    grew (graph_of w) pj view a (publicProjection view (au_purpose a)) p0 -> p = finalize p0 -> projected w pj a p.

Definition within_bounds pj (p : Projection) : Prop :=
  Z.of_nat (List.length (Projection_Entities p)) <= pj_maxProjectionEntities pj /\
  Z.of_nat (List.length (flat_map pe_Facts (Projection_Entities p))) <= pj_maxProjectionTriples pj /\
  exists bytes, Projection_Bytes p = Ok bytes /\ len bytes <= pj_maxProjectionBytes pj.

Lemma enforce_ok pj p base u : enforceProjectionBounds pj p base = Ok u -> within_bounds pj p.
Proof.
  unfold enforceProjectionBounds, within_bounds. destruct (Z.ltb_spec (pj_maxProjectionEntities pj) (Z.of_nat (List.length (Projection_Entities p)))); [done|].
  destruct (_ <? _); [done|]. destruct (Z.ltb_spec (pj_maxProjectionTriples pj) (Z.of_nat (List.length (flat_map pe_Facts (Projection_Entities p))))); [done|].
  intros (bytes & Hb%wrapf_ok & Hl)%result_bind_ok. destruct (Z.ltb_spec (pj_maxProjectionBytes pj) (len bytes)); [done|].
  split_and!; [done..|]. by exists bytes.
Qed.

Lemma Project_spec pj a w : quiet pj ->
  wp (Project pj a) (fun r w' => graph_of w' = graph_of w /\
    match r with Ok p => projected w pj a p /\ within_bounds pj p | Err _ => True end) w.
Proof.
  intros Hq. unfold Project. destruct (negb _); [by apply wp_throw|]. destruct (String.eqb _ PurposeOperator); [by apply wp_throw|].
  apply wp_lift_bind; [|done]. intros _ _. destruct (String.eqb_spec (au_purpose a) PurposeVerifier) as [Hp|Hp].
  - unfold solutionOnly. apply wp_bind, wp_bind. eapply wp_mono; [apply caseState_spec|]. intros [s|err] w1 [Hg Hcase]; [|done].
    apply wp_lift_bind; [|done]. intros solution Hsol. apply wp_ret. apply wp_lift_bind; [|done]. intros u Hb%enforce_ok.
    apply wp_ret. split; [done|]. split; [|done]. by apply (projected_verifier _ _ _ _ s).
  - apply wp_bind, wp_attempt. pose proof (quiet_assemble _ Hq (au_turnID a) (au_turnEntityID a) w) as Hg. unfold wp at 1.
    destruct (pj_Assemble pj _ _ w) as [r w1] eqn:Hview. cbn [fst snd] in *. apply wp_lift_bind; [|done].
    intros [view|] Hr; [|by apply wp_throw]. destruct r as [v|]; [injection Hr as ->|done].
    destruct (String.eqb_spec (v_TurnID view) (au_turnID a)) as [Ht|]; [|by apply wp_throw]. cbn [negb orb].
    destruct (String.eqb_spec (v_TurnEntityID view) (au_turnEntityID a)) as [He|]; [|by apply wp_throw]. cbn [negb orb].
    destruct (Verified (v_Actor view)) eqn:Hv; [|by apply wp_throw]. cbn [negb].
    apply wp_bind. eapply wp_mono; [by apply add_for_spec|]. rewrite Hg. intros [p0|err] w2 [Hg2 Hgrew]; [|done].
    apply wp_lift_bind; [|done]. intros u Hb%enforce_ok. apply wp_ret. split; [done|]. split; [|done].
    by apply (projected_view _ _ _ _ view w1 p0).
Qed.

(** *** Ordinary surfaces *)

Lemma ordinary_sub l : l ∈ [publicWorldPredicates; publicTurnPredicates; narrationTurnPredicates; bondPredicates; evidencePredicates] ->
  l ⊆ ordinaryPredicates.
Proof.
  intros Hl. assert (Hall : forallb (fun l => forallb (fun p => mem p ordinaryPredicates) l)
    [publicWorldPredicates; publicTurnPredicates; narrationTurnPredicates; bondPredicates; evidencePredicates] = true) by (vm_compute; reflexivity).
  rewrite forallb_forall in Hall. specialize (Hall l (proj1 (list_elem_of_In _ _) Hl)). rewrite forallb_forall in Hall.
  intros p Hp. by apply mem_true, Hall, list_elem_of_In.
Qed.

Lemma accounted_ordinary g pj view a e :
  au_purpose a <> PurposeCasekeeper -> accounted g pj view a e -> facts_in ordinaryPredicates e.
Proof.
  intros Hp Hacc. assert (Hev : forall src, shown_evidence g src e -> facts_in ordinaryPredicates e).
  { intros src (s & _ & -> & _ & _). eapply facts_in_weaken; [apply (ordinary_sub evidencePredicates)|apply projectState_facts].
    do 4 right. left. }
  destruct Hacc as [_ Hs|_ Hs|_ Hs|_ (s & _ & _ & ->)|Hc _]; [by eapply Hev..| |done].
  eapply facts_in_weaken; [apply (ordinary_sub bondPredicates)|apply projectState_facts]. do 3 right. left.
Qed.

Lemma public_ordinary view purpose :
  let p := publicProjection view purpose in
  facts_in ordinaryPredicates (p_Turn p) /\ facts_in ordinaryPredicates (p_Scene p) /\
  Forall (facts_in ordinaryPredicates) (p_Members p) /\ Forall (facts_in ordinaryPredicates) (p_Neighbours p).
Proof.
  cbv zeta. assert (Hworld : publicWorldPredicates ⊆ ordinaryPredicates) by (apply ordinary_sub; left).
  assert (Hlist : forall l, Forall (facts_in ordinaryPredicates) (map (fun e => projectSceneEntity e publicWorldPredicates) l)).
  { intros l. apply Forall_forall. intros e (s & -> & _)%list_elem_of_fmap. eapply facts_in_weaken; [exact Hworld|apply projectTriples_facts]. }
  split_and!; [| |apply Hlist|apply Hlist].
  - cbn [p_Turn publicProjection]. destruct (_ || _); (eapply facts_in_weaken; [|apply projectTriples_facts]); apply ordinary_sub.
    + do 2 right. left.
    + right. left.
  - eapply facts_in_weaken; [exact Hworld|apply projectTriples_facts].
Qed.

Lemma entities_elem p e : e ∈ Projection_Entities p -> e = p_Turn p \/ e = p_Scene p \/ e ∈ p_Members p \/ e ∈ p_Neighbours p.
Proof.
  unfold Projection_Entities. rewrite !elem_of_app. intros [Ht|[Hs|[Hm|Hn]]]; [| |auto..].
  - destruct (negb _); [apply list_elem_of_singleton in Ht; auto|by apply elem_of_nil in Ht].
  - destruct (negb _); [apply list_elem_of_singleton in Hs; auto|by apply elem_of_nil in Hs].
Qed.

(** C7: nobody but the casekeeper is shown the case file, and nobody but the
    verifier and the denouement a solution. Of any world and any audience: a
    projection carries a solution exactly when its purpose is one of those
    two, and whatever its purpose, unless it is the casekeeper's, no fact of
    any of its entities is on a predicate of the case file - its solution,
    its phase, its members, where evidence is revealed, who believes what. *)
Theorem ordinary_projections_hide_the_case_file pj a w p w' (Hq : quiet pj) (Hrun : Project pj a w = (Ok p, w')) :
  (p_HasSolution p = true <-> au_purpose a ∈ [PurposeVerifier; PurposeDenouement]) /\
  (p_HasSolution p = false -> p_Solution p = no_solution) /\
  (au_purpose a <> PurposeCasekeeper ->
   forall e f, e ∈ Projection_Entities p -> f ∈ pe_Facts e -> f_Predicate f ∉ caseFilePredicates).
Proof.
  destruct (wp_elim _ _ _ _ _ (Project_spec pj a w Hq) Hrun) as (_ & Hproj & _).
  destruct Hproj as [s Hp _ Hh Hsol Hnone|view w1 p0 Hp _ _ _ _ (Hgrown & _ & Hflags) ->].
  - rewrite Hh, Hnone. split_and!; [split; [intros _; rewrite Hp; left|done]|done|]. intros _ e f He. by apply elem_of_nil in He.
  - destruct (finalize_spec p0) as [(Hh & Hs & _) (ids & Ht & Hsc) Hm Hn _ _ _]. rewrite Hh, Hs.
    assert (Hflag : (p_HasSolution p0 = true <-> au_purpose a ∈ [PurposeVerifier; PurposeDenouement]) /\
      (p_HasSolution p0 = false -> p_Solution p0 = no_solution)).
    { destruct (String.eqb_spec (au_purpose a) PurposeDenouement) as [Hd|Hd].
      - destruct Hflags as [-> _]. split; [split; [intros _; rewrite Hd; right; left|done]|done].
      - destruct Hflags as [-> ->]. split; [|done]. split; [done|]. intros [?|Hin]%elem_of_cons; [done|].
        by apply list_elem_of_singleton in Hin. }
    split_and!; [apply Hflag..|]. intros Hck e f He Hf. apply ordinary_is_no_case_file.
    destruct (public_ordinary view (au_purpose a)) as (Hpt & Hps & Hpm & Hpn).
    destruct Hgrown as [(Het & Hes & Hem & _) (more & Hen & Hmore)].
    assert (Hfacts : facts_in ordinaryPredicates e).
    { destruct (entities_elem _ _ He) as [->|[->|[Hin|Hin]]].
      - rewrite Ht, Het. by apply prune_facts.
      - rewrite Hsc, Hes. by apply prune_facts.
      - rewrite Forall_forall in Hm. destruct (Hm e Hin) as (e0 & ids' & Hin0 & ->). apply prune_facts.
        rewrite Hem in Hin0. rewrite Forall_forall in Hpm. by apply Hpm.
      - rewrite Forall_forall in Hn. destruct (Hn e Hin) as (e0 & ids' & Hin0 & ->). apply prune_facts.
        rewrite Hen in Hin0. apply elem_of_app in Hin0 as [Hin0|Hin0].
        + rewrite Forall_forall in Hpn. by apply Hpn.
        + rewrite Forall_forall in Hmore. by eapply accounted_ordinary, Hmore. }
    unfold facts_in in Hfacts. rewrite Forall_forall in Hfacts. by apply Hfacts.
Qed.

Lemma projected_solution pj a w p w' : quiet pj -> Project pj a w = (Ok p, w') -> p_HasSolution p = true ->
  (exists s, case_of (graph_of w) pj s /\ solutionOf s = Ok (p_Solution p)) /\
  (au_purpose a <> PurposeVerifier -> earned (graph_of w) pj (au_turnID a) (au_authorizerRef a) (p_Solution p)).
Proof.
  intros Hq Hrun Hh.
  destruct (wp_elim _ _ _ _ _ (Project_spec pj a w Hq) Hrun) as (_ & Hproj & _).
  destruct Hproj as [s Hp Hs _ Hsol _|view w1 p0 Hp Hturn _ _ _ (Hgrown & _ & Hflags) ->]; [split; [by exists s|done]|].
  destruct (finalize_spec p0) as [(Hfh & Hfs & _) _ _ _ _ _ _]. rewrite Hfh in Hh. rewrite Hfs.
  destruct (String.eqb (au_purpose a) PurposeDenouement).
  - destruct Hflags as [_ Hearned]. cbn in Hearned. rewrite Hturn in Hearned. split; [|done].
    destruct Hearned as (s & Hc & Hsol & _). by exists s.
  - destruct Hflags as [Hflag _]. cbn in Hflag. congruence.
Qed.

(** A solution is the case's own, and it is earned. A projection that
    carries a solution carries the one the scoped case records; and unless it
    is the verifier's, the case was in its denouement and the accusation
    authority answered yes for the audience's turn, this case and the
    reference the audience presented. *)
Theorem solution_is_earned pj a w p w' (Hq : quiet pj) (Hrun : Project pj a w = (Ok p, w')) (Hh : p_HasSolution p = true) :
  (exists s, case_of (graph_of w) pj s /\ solutionOf s = Ok (p_Solution p)) /\
  (au_purpose a <> PurposeVerifier -> earned (graph_of w) pj (au_turnID a) (au_authorizerRef a) (p_Solution p)).
Proof. by eapply projected_solution. Qed.

Lemma told_player purpose : purpose ∈ [PurposePlayer; PurposeNarrator; PurposeDenouement] ->
  purpose ∈ [PurposePlayer; PurposeCompanion; PurposePublicAdjudicator] -> purpose = PurposePlayer.
Proof. intros Ha Hb. closed_cases Ha; [done|..]; exfalso; apply mem_true in Hb; discriminate Hb. Qed.

Lemma told_nobody purpose : purpose ∈ [PurposeNarrator; PurposeDenouement] ->
  purpose ∈ [PurposePlayer; PurposeCompanion; PurposePublicAdjudicator] -> False.
Proof. intros Ha Hb. closed_cases Ha; apply mem_true in Hb; discriminate Hb. Qed.

(** A projection is closed and bounded. Its members and neighbours are each
    shown once and apart from the turn and the scene, every reference among
    their facts is to an entity of the projection, and its entities, facts and
    serialized bytes are within the projector's limits. *)
Theorem projection_is_closed_and_bounded pj a w p w' (Hq : quiet pj) (Hrun : Project pj a w = (Ok p, w')) :
  NoDup (map pe_ID (p_Members p ++ p_Neighbours p)) /\
  Forall (fun e => au_purpose a <> PurposeVerifier -> pe_ID e <> pe_ID (p_Turn p) /\ pe_ID e <> pe_ID (p_Scene p))
    (p_Members p ++ p_Neighbours p) /\
  Forall (closed_in (map pe_ID (Projection_Entities p))) (Projection_Entities p) /\ within_bounds pj p.
Proof.
  destruct (wp_elim _ _ _ _ _ (Project_spec pj a w Hq) Hrun) as (_ & Hproj & Hbounds).
  destruct Hproj as [s Hp _ _ _ Hnone|view w1 p0 _ _ _ _ _ _ ->].
  - assert (Hmn : p_Members p ++ p_Neighbours p = []).
    { unfold Projection_Entities in Hnone. apply app_eq_nil in Hnone as [_ Hnone]. by apply app_eq_nil in Hnone as [_ ?]. }
    rewrite Hmn, Hnone. split_and!; [constructor|constructor|constructor|done].
  - destruct (finalize_spec p0) as [_ _ _ _ Hd Ha Hc]. split_and!; [done| |done|done].
    eapply Forall_impl; [exact Ha|]. auto.
Qed.
End projector.

(** ** Who evidence is shown to *)

Section grants.
Context {W : Type} `{Substrate, HasGraph W, GraphStore W, Clock W, SceneGraph W, TripleShape}.
Context `{PredicateReader W, ProjectionEncoder}.
Context `{!GraphStoreLaws W, !SceneGraphLaws W, !AccountedBatches W, !PredicateReaderLaws W}.
Implicit Types (w : W) (pj : Projector W).

(** The projector asks the scene assembler for its views. *)
Definition assembles_scenes (maxEntities : Z) (pj : Projector W) : Prop :=
  forall turnID turnEntityID w,
    pj_Assemble pj turnID turnEntityID w = (v ← Assemble maxEntities turnID turnEntityID; mret (Some v)) w.

(** Who is told: the companion of an accepted bond with the turn's player, or
    the character that player is bound to. *)
Definition told_to (g : graph) pj (view : View) (a : AuthenticatedAudience) (reader : string) : Prop :=
  if String.eqb (au_purpose a) PurposeCompanion
  then reader = au_companionID a /\ bonded g pj view a
  else exists player, Scene.playerOf (v_Turn view) = Ok (se_ID player) /\ player ∈ View_Entities view /\
    entityReferences player PlayerCharacterCurrent = Ok [reader].

(** The graph records that somebody knows of a piece of evidence. *)
Definition granted_to (g : graph) (reader evidenceID : string) : Prop :=
  exists r, g !! ID r = Some r /\ objectsFor r WorldEntityKind = [AString EntityKindKnowledge] /\
    objectsFor r KnowledgeActorHolder = [AString reader] /\ objectsFor r KnowledgeEvidenceRef = [AString evidenceID].

(** The graph records that it was revealed to them in the turn. *)
Definition revealed_to (g : graph) (reader turnID evidenceID : string) : Prop :=
  exists r, g !! ID r = Some r /\ objectsFor r WorldEntityKind = [AString EntityKindRevelation] /\
    objectsFor r RevelationTurnID = [AString turnID] /\ objectsFor r RevelationActorHolder = [AString reader] /\
    objectsFor r RevelationEvidenceRef = [AString evidenceID].

Lemma references_objects e p l : entityReferences e p = Ok l -> SceneEntity_Objects e p = map AString l.
Proof.
  unfold entityReferences. revert l. induction (SceneEntity_Objects e p) as [|o objects IH]; intros l; [by intros [= <-]|].
  destruct o; try done. intros (ids & Hids & [= <-])%result_bind_ok. cbn. by rewrite (IH _ Hids).
Qed.

Lemma exact_objects state p v : Epistemic.exactString state p = Ok v -> objectsFor state p = [AString v].
Proof.
  unfold Epistemic.exactString. intros (l & Hl%references_objects & Hv)%result_bind_ok.
  destruct l as [|x [|]]; [done| |done]. injection Hv as ->. exact Hl.
Qed.

Lemma kind_objects state kind u : requireEntityKind state kind = Ok u -> objectsFor state WorldEntityKind = [AString kind].
Proof.
  intros (k & Hk%exact_objects & Hr%require_ok)%result_bind_ok. by apply String.eqb_eq in Hr as <-.
Qed.

Lemma knows_granted g actorID id : knows g actorID id -> granted_to g actorID id.
Proof.
  intros (r & Hr & (? & Hk%wrapf_ok%kind_objects & (holder & Hh%wrapf_ok%exact_objects & Hev)%result_bind_ok)%result_bind_ok).
  destruct (String.eqb_spec holder actorID) as [->|]; [|done]. cbn [negb] in Hev. apply wrapf_ok, exact_objects in Hev.
  by exists r.
Qed.

Lemma was_revealed_to g actorID turnID id : was_revealed g actorID turnID id -> revealed_to g actorID turnID id.
Proof.
  intros (r & l & Hr & (? & Hk%wrapf_ok%kind_objects & (turn & Ht%wrapf_ok%exact_objects & Hev)%result_bind_ok)%result_bind_ok & Hin).
  destruct (String.eqb_spec turn turnID) as [->|]; [|done]. cbn [negb] in Hev.
  apply result_bind_ok in Hev as (holder & Hh%wrapf_ok%exact_objects & (ev & He%wrapf_ok%exact_objects & [= <-])%result_bind_ok).
  destruct (String.eqb_spec holder actorID) as [->|]; [|by apply elem_of_nil in Hin].
  apply list_elem_of_singleton in Hin as ->. by exists r.
Qed.

(** C23: evidence is shown on a grant. What a player, a companion or the public
    adjudicator is shown beside the members of the scene is, by the view the
    scene assembler returns for their turn in this very run, a neighbour of the
    public scene; or, for a companion, its own bond; or evidence, by its name,
    kind and description, of which the graph holds a knowledge record for the
    one who is told - or, for the player, a revelation of this very turn to
    them. The one who is told is the character the turn's own player is bound
    to, or the companion whose bond with that player the bond authority
    accepted; nobody else's record opens anything to them. *)
Theorem evidence_needs_a_grant maxEntities pj a w p w' e (Hq : quiet pj) (Hscene : assembles_scenes maxEntities pj)
    (Hrun : Project pj a w = (Ok p, w'))
    (Hpurpose : au_purpose a ∈ [PurposePlayer; PurposeCompanion; PurposePublicAdjudicator]) (He : e ∈ p_Neighbours p) :
  exists view w1 e0 ids, Assemble maxEntities (au_turnID a) (au_turnEntityID a) w = (Ok view, w1) /\
    e = pruneDangling e0 ids /\
    (e0 ∈ p_Neighbours (publicProjection view (au_purpose a)) \/
     (au_purpose a = PurposeCompanion /\ shown_bond (graph_of w) (au_bondID a) e0) \/
     exists reader, told_to (graph_of w) pj view a reader /\
       shown_evidence (graph_of w) (fun id => granted_to (graph_of w) reader id \/
         (au_purpose a = PurposePlayer /\ revealed_to (graph_of w) reader (au_turnID a) id)) e0).
Proof.
  destruct (wp_elim _ _ _ _ _ (Project_spec pj a w Hq) Hrun) as (_ & Hproj & _).
  destruct Hproj as [s Hp _ _ _ _|view w1 p0 _ _ _ Hver Hview (Hgrown & Hbond & _) ->].
  { rewrite Hp in Hpurpose. apply mem_true in Hpurpose. discriminate Hpurpose. }
  destruct (finalize_spec p0) as [_ _ _ Hn _ _ _]. rewrite Forall_forall in Hn. destruct (Hn e He) as (e0 & ids & Hin & ->).
  rewrite Hscene in Hview. unfold mbind, M_bind in Hview. pose proof (Assemble_spec maxEntities (au_turnID a) (au_turnEntityID a) w) as Hof.
  unfold wp in Hof. destruct (Assemble maxEntities (au_turnID a) (au_turnEntityID a) w) as [[v|err] w2]; [|done].
  injection Hview as -> ->. destruct Hof as [_ Hof]. exists view, w1, e0, ids. split_and!; [done|done|].
  assert (Htold : told_to (graph_of w) pj view a (audience_actor view a)).
  { unfold told_to, audience_actor. destruct (String.eqb_spec (au_purpose a) PurposeCompanion) as [Hc|_]; [split; [done|by apply Hbond]|].
    destruct (view_actor _ _ _ _ _ Hof Hver) as (_ & player & Hpl & Hid & Hchar). exists player. rewrite Hid.
    split_and!; [by apply view_player in Hof|done|done]. }
  destruct Hgrown as [_ (more & Heq & Hmore)]. rewrite Heq in Hin.
  apply elem_of_app in Hin as [Hin|Hin]; [by left|right]. rewrite Forall_forall in Hmore.
  destruct (Hmore e0 Hin) as [_ (s & ?&?&?&?)|Hr (s & ?&?&?&?)|Hr _|Hc Hb|Hc _]; [| | |by left|].
  - right. exists (audience_actor view a). split; [done|]. exists s. split_and!; [done..|]. left. by apply knows_granted.
  - right. exists (audience_actor view a). split; [done|]. exists s. split_and!; [done..|]. right.
    split; [by apply told_player|by apply was_revealed_to].
  - exfalso. by eapply told_nobody.
  - exfalso. rewrite Hc in Hpurpose. apply mem_true in Hpurpose. discriminate Hpurpose.
Qed.
End grants.

(** ** One case, three audiences *)

Import SceneDemo.
Module EpistemicDemo.
Definition case_id : string := CaseflowSpec.CaseDemo.case_id.
Definition letter_id : string := KnowledgeDemo.letter_id.
Definition grant_id : string := "acme.semmachina.barrow.case.knowledge.grant-1".
Definition butler_id : string := "acme.semmachina.barrow.case.character.butler".

(** The detective knows of the letter; the case is solved. *)
Definition case_graph : graph :=
  list_to_map (map (fun e => (ID e, e))
    [of_kind case_id EntityKindCase
       [Demo.string_triple case_id CaseLifecyclePhase CasePhaseDenouement;
        Demo.string_triple case_id CaseMemberEvidence letter_id;
        Demo.string_triple case_id CaseSolutionCulprit butler_id;
        Demo.string_triple case_id CaseSolutionMethod "poison"; Demo.string_triple case_id CaseSolutionMotive "debt"];
     of_kind letter_id EntityKindEvidence
       [Demo.string_triple letter_id WorldEntityName "a letter";
        Demo.string_triple letter_id EvidenceTruthStatusCurrent "genuine"];
     of_kind grant_id EntityKindKnowledge
       [Demo.string_triple grant_id KnowledgeActorHolder character_id;
        Demo.string_triple grant_id KnowledgeEvidenceRef letter_id]]) ∪ room_graph.

Definition case_world : World := mkWorld case_graph 10 [] [].

Definition holders (g : graph) (p v : string) : list string :=
  map fst (List.filter (fun kv => bool_decide (AString v ∈ objectsFor kv.2 p)) (map_to_list g)).

#[export] Instance mem_queries : PredicateReader World := {|
  EntitiesByPredicateValue p v n w := (Ok (take (Z.to_nat n) (holders (w_graph w) p v)), w) |}.
#[export] Instance mem_queries_laws : PredicateReaderLaws World.
Proof. by split. Qed.

#[export] Instance text_encoder : ProjectionEncoder := {|
  marshal_any o := match o with AString s => Ok s | _ => Err (Errorf "not text" []) end;
  type_name o := match o with AString _ => "string" | _ => "?" end;
  Projection_Bytes p := Ok (Join " " (map pe_ID (Projection_Entities p))) |}.

Definition projector : Projector World := {|
  pj_scope := {| sc_caseID := case_id; sc_beliefsByActorID := ∅ |};
  pj_maxSupplemental := DefaultMaxSupplementalEntities; pj_maxProjectionEntities := DefaultMaxProjectionEntities;
  pj_maxProjectionTriples := DefaultMaxProjectionTriples; pj_maxProjectionBytes := DefaultMaxProjectionBytes;
  pj_Assemble turnID turnEntityID := v ← Assemble DefaultMaxEntities turnID turnEntityID; mret (Some v);
  pj_denouement := Some (fun _ _ ref => mret (String.eqb ref "obj://content/turn/turn-a1/accusation"));
  pj_companionBonds := None; pj_narrationEvidence := None |}.

Lemma projector_quiet : quiet projector.
Proof.
  split; [|by intros ???? [= <-]|done|done]. intros t e w. cbn [pj_Assemble projector].
  pose proof (Assemble_spec DefaultMaxEntities t e w) as Ha. unfold wp in Ha. unfold mbind, M_bind.
  destruct (Assemble DefaultMaxEntities t e w) as [[v|err] w1]; apply Ha.
Qed.

Definition for_player : AuthenticatedAudience := PlayerAudience "turn-a1" Demo.turn_id.
Definition for_denouement : AuthenticatedAudience :=
  DenouementAudience "turn-a1" Demo.turn_id case_id "obj://content/turn/turn-a1/accusation".

Definition nothing_shown : Projection :=
  Build_Projection EmptyString EmptyString EmptyString EmptyString EmptyString EmptyString EmptyString (Build_ProjActor EmptyString EmptyString) (Build_ProjEntity EmptyString []) (Build_ProjEntity EmptyString []) [] []
    false no_solution.
Definition shown_to (a : AuthenticatedAudience) : Projection :=
  match (Project projector a case_world).1 with Ok p => p | Err _ => nothing_shown end.

Definition after_player : World := (Project projector for_player case_world).2.

Lemma player_run : Project projector for_player case_world = (Ok (shown_to for_player), after_player).
Proof. refine (pair_of (Project projector for_player case_world) (Ok (shown_to for_player)) _). vm_compute. reflexivity. Qed.
End EpistemicDemo.
Import EpistemicDemo.

Example the_player_sees_the_letter :
  map pe_ID (Projection_Entities (shown_to for_player)) =
    [Demo.turn_id; scene_id; character_id; watson_id; letter_id; Demo.player_id].
Proof. vm_compute. reflexivity. Qed.

Lemma ordinary_projections_hide_the_case_file_witness :
  (p_HasSolution (shown_to for_player) = true <-> au_purpose for_player ∈ [PurposeVerifier; PurposeDenouement]) /\
  (p_HasSolution (shown_to for_player) = false -> p_Solution (shown_to for_player) = no_solution) /\
  (au_purpose for_player <> PurposeCasekeeper -> forall e f,
     e ∈ Projection_Entities (shown_to for_player) -> f ∈ pe_Facts e -> f_Predicate f ∉ caseFilePredicates).
Proof.
  apply (ordinary_projections_hide_the_case_file projector for_player case_world _ after_player).
  - exact projector_quiet.
  - exact player_run.
Defined.

Lemma solution_is_earned_witness :
  p_Solution (shown_to for_denouement) = {| Culprit := butler_id; Method := "poison"; Motive := "debt" |} /\
  (exists s, case_of (graph_of case_world) projector s /\ solutionOf s = Ok (p_Solution (shown_to for_denouement))) /\
  (au_purpose for_denouement <> PurposeVerifier ->
   earned (graph_of case_world) projector "turn-a1" "obj://content/turn/turn-a1/accusation" (p_Solution (shown_to for_denouement))).
Proof.
  split; [vm_compute; reflexivity|].
  apply (solution_is_earned projector for_denouement case_world _ (Project projector for_denouement case_world).2).
  - exact projector_quiet.
  - refine (pair_of (Project projector for_denouement case_world) (Ok (shown_to for_denouement)) _). vm_compute. reflexivity.
  - vm_compute. reflexivity.
Defined.

Definition the_letter : ProjEntity := List.hd (Build_ProjEntity EmptyString []) (p_Neighbours (shown_to for_player)).

Lemma hd_in {A} (d : A) l : List.length l <> 0%nat -> List.hd d l ∈ l.
Proof. destruct l; [done|]. intros _. left. Qed.

Lemma evidence_needs_a_grant_witness :
  pe_ID the_letter = letter_id /\
  exists view w1 e0 ids, Assemble DefaultMaxEntities "turn-a1" Demo.turn_id case_world = (Ok view, w1) /\
    the_letter = pruneDangling e0 ids /\
    (e0 ∈ p_Neighbours (publicProjection view PurposePlayer) \/
     (au_purpose for_player = PurposeCompanion /\ shown_bond (graph_of case_world) EmptyString e0) \/
     exists reader, told_to (graph_of case_world) projector view for_player reader /\
       shown_evidence (graph_of case_world) (fun id => granted_to (graph_of case_world) reader id \/
         (au_purpose for_player = PurposePlayer /\ revealed_to (graph_of case_world) reader "turn-a1" id)) e0).
Proof.
  split; [vm_compute; reflexivity|].
  apply (evidence_needs_a_grant DefaultMaxEntities projector for_player case_world (shown_to for_player) after_player the_letter).
  - exact projector_quiet.
  - by intros ???.
  - exact player_run.
  - left.
  - apply hd_in. vm_compute. discriminate.
Defined.

Lemma projection_is_closed_and_bounded_witness :
  NoDup (map pe_ID (p_Members (shown_to for_player) ++ p_Neighbours (shown_to for_player))) /\
  Forall (fun e => au_purpose for_player <> PurposeVerifier ->
      pe_ID e <> pe_ID (p_Turn (shown_to for_player)) /\ pe_ID e <> pe_ID (p_Scene (shown_to for_player)))
    (p_Members (shown_to for_player) ++ p_Neighbours (shown_to for_player)) /\
  Forall (closed_in (map pe_ID (Projection_Entities (shown_to for_player)))) (Projection_Entities (shown_to for_player)) /\
  within_bounds projector (shown_to for_player).
Proof.
  apply (projection_is_closed_and_bounded projector for_player case_world _ after_player).
  - exact projector_quiet.
  - exact player_run.
Defined.
