(* ===== verification/AccusationSpec.v ===== *)
(** What an accusation comes to: the verdict is the solution's, it is committed
    once, an acknowledged delivery is settled, and the solution is narrated only
    on a correct verdict of the turn. *)

From stdpp Require Import relations.
From S2P Require Import Prelude GoStd GoHash GoErrors Graph Vocab Vocabulary Payload Mechanics Decisions ContentRecords ContentStore ProjectionContract Store Sequencing RulePack GraphIO Turn Caseflow Knowledge Scene Epistemic Accusation MemStore TurnSpec TurnTheorems StageSpec CaseflowSpec KnowledgeSpec SceneSpec EpistemicSpec.

Open Scope Z_scope.

(** ** The verdict *)

Lemma len_CaseDecision_Validate_id `{Substrate} d : CaseDecision_Validate d = Ok tt ->
  requireIDSegment "turn_id" (cd_TurnID d) = Ok tt /\ requireEntityID "case_id" (cd_CaseID d) = Ok tt /\
  cd_DecisionID d = CaseDecisionID (cd_TurnID d) (cd_ActionID d) (cd_CaseID d) (cd_ActorID d).
Proof.
  unfold CaseDecision_Validate. intros Hd.
  apply result_bind_ok in Hd as ([] & Hturn & Hd). apply result_bind_ok in Hd as (? & _ & Hd).
  apply result_bind_ok in Hd as (? & _ & Hd). apply result_bind_ok in Hd as ([] & Hcase & Hd).
  apply result_bind_ok in Hd as (? & _ & Hd). apply result_bind_ok in Hd as (? & _ & Hd).
  apply result_bind_ok in Hd as (? & _ & Hd). apply result_bind_ok in Hd as (? & _ & Hd).
  apply result_bind_ok in Hd as (? & _ & Hid). by apply require_ok, String.eqb_eq in Hid.
Qed.

Lemma framed_digest_SHA256 field members : requireSHA256 field (framed_digest members) = Ok tt.
Proof.
  unfold requireSHA256. rewrite len_framed_digest. change (negb (64 =? 64)) with false. cbv iota.
  unfold framed_digest. rewrite DecodeString_EncodeToString by apply sha256_bytes. by rewrite String.eqb_refl.
Qed.

(** The verdict is the solution's. Verifying succeeds exactly on valid
    accusations; the result is the accusation's own - its turn, case, decision
    and derived identity - and satisfies its contract, and it is correct exactly
    when culprit, method and motive are all three the solution's. *)
Theorem verdict_is_exact `{Substrate} (decision : CaseDecision) (solution : Solution) :
  (is_ok (Verify (Some decision) solution) = true <->
     CaseDecision_Validate decision = Ok tt /\ cd_Kind decision = CaseDecisionAccuse) /\
  forall result, Verify (Some decision) solution = Ok result ->
    ar_TurnID result = cd_TurnID decision /\ ar_CaseID result = cd_CaseID decision /\
    ar_DecisionID result = cd_DecisionID decision /\ AccusationResult_Validate result = Ok tt /\
    (ar_Outcome result = AccusationCorrect <->
       cd_CulpritRef decision = Culprit solution /\ cd_MethodRef decision = Method solution /\
       cd_MotiveRef decision = Motive solution).
Proof.
  unfold Verify. destruct (CaseDecision_Validate decision) as [[]|err] eqn:Hv; cbn [wrapf mbind result_bind].
  2: { split; [split; [done|]|done]. by intros [? _]. }
  destruct (String.eqb_spec (cd_Kind decision) CaseDecisionAccuse) as [Hk|Hk]; cbn [negb is_ok].
  2: { split; [split; [done|]|done]. by intros [_ ?]. }
  split; [done|]. intros result [= <-]. cbn [ar_TurnID ar_CaseID ar_DecisionID ar_Outcome]. split_and!; [done..| |].
  - destruct (len_CaseDecision_Validate_id _ Hv) as (Ht & Hc & Hid). unfold AccusationResult_Validate.
    cbn [ar_TurnID ar_CaseID ar_DecisionID ar_Outcome ar_ResultID]. rewrite Ht, Hc, Hid. cbn [mbind result_bind].
    unfold CaseDecisionID. rewrite deterministicID_framed, framed_digest_SHA256. cbn [mbind result_bind].
    rewrite String.eqb_refl. by destruct (_ && _).
  - destruct (String.eqb_spec (cd_CulpritRef decision) (Culprit solution)) as [?|Hn]; cbn [andb];
      [|split; [discriminate|by intros [? _]]].
    destruct (String.eqb_spec (cd_MethodRef decision) (Method solution)) as [?|Hn]; cbn [andb];
      [|split; [discriminate|by intros (_ & ? & _)]].
    destruct (String.eqb_spec (cd_MotiveRef decision) (Motive solution)) as [?|Hn]; [done|].
    split; [discriminate|by intros (_ & _ & ?)].
Qed.

(** ** Committing *)

Lemma stringObjects_some e p t : t ∈ Triples e -> own e p t = true -> stringObjects e p <> [].
Proof.
  unfold stringObjects. induction (Triples e) as [|x l IH]; intros Hin Ht; [by apply elem_of_nil in Hin|].
  cbn [own_strings]. destruct (own e p x) eqn:Hx.
  - destruct (Object x); try done. by destruct (own_strings e p l).
  - apply elem_of_cons in Hin as [->|Hin]; [congruence|]. by apply IH.
Qed.

Lemma stringObjects_none e p : stringObjects e p <> [] -> objectsFor e p <> [].
Proof.
  unfold stringObjects, objectsFor, triplesFor. induction (Triples e) as [|x l IH]; [done|].
  cbn [own_strings List.filter]. unfold own at 1.
  destruct (String.eqb (Predicate x) p) eqn:Hp; [done|]. rewrite andb_false_r. exact IH.
Qed.

(** The turn's accusation reference was written, and nothing else. *)
Definition verdict_written `{Substrate} (turn : string) (ref : Ref) (g g' : graph) : Prop :=
  exists at_, reconcile_effect TurnAccusation turn [resultTriple turn TurnAccusationRef (Ref_String ref) at_] g g'.

(** The turn names a verdict. *)
Definition carries_verdict (g : graph) (turn : string) : Prop :=
  exists l, objects_in g turn TurnAccusationRef = Some l /\ l <> [].

Lemma written_carries `{Substrate} turn ref g g' : verdict_written turn ref g g' -> carries_verdict g' turn.
Proof. intros [t He]. exists [AString (Ref_String ref)]. split; [|done]. eapply reconcile_single; [exact He|in_target|]. done. Qed.

Lemma written_read `{Substrate} turn ref g g' e :
  verdict_written turn ref g g' -> g' !! turn = Some e -> ID e = turn -> stringObjects e TurnAccusationRef <> [].
Proof.
  intros (at_ & e0 & e1 & _ & (_ & _ & Hperm) & ->) He Hid. rewrite lookup_insert_eq in He. injection He as ->.
  set (t := resultTriple turn TurnAccusationRef (Ref_String ref) at_) in *.
  assert (Hin : t ∈ group_triples (Predicates TurnAccusation) (Triples e)) by (rewrite Hperm; left).
  apply (stringObjects_some e TurnAccusationRef t).
  - apply list_elem_of_In in Hin. unfold group_triples in Hin. apply filter_In in Hin as [Hin _]. by apply list_elem_of_In.
  - unfold own. rewrite Hid. unfold t, resultTriple. cbn [Subject Predicate]. by rewrite !String.eqb_refl.
Qed.

Section commit.
Context {W : Type} `{Substrate, HasGraph W, GraphStore W, Clock W, CaseArtifacts W, Ctx W}.
Context `{!GraphStoreLaws W, !CaseArtifactsLaws W, !CtxLaws W}.
Implicit Types (w : W).

(** What a commit does: nothing to a turn that names a verdict, at most one
    write of its reference to a turn that names none. *)
Definition commit_post (turn : string) (g g' : graph) (r : res Ref) : Prop :=
  match r with
  | Ok ref => (exists e, g !! turn = Some e /\ stringObjects e TurnAccusationRef <> [] /\ g' = g) \/
      ((forall e, g !! turn = Some e -> stringObjects e TurnAccusationRef = []) /\ verdict_written turn ref g g')
  | Err _ => g' = g \/
      ((forall e, g !! turn = Some e -> stringObjects e TurnAccusationRef = []) /\ exists ref, verdict_written turn ref g g')
  end.

Lemma resident_record_reading refs record : reading (resident_record refs record).
Proof.
  unfold resident_record. destruct refs as [|value [|]]; [apply reading_throw| |apply reading_throw].
  destruct (ParseRef value) as [ref|]; [|apply reading_throw].
  apply reading_bind; [apply reading_attempt; intros w; apply GetAccusationRecord_graph|].
  intros [resident|err]; [destruct (negb _); [apply reading_throw|apply reading_ret]|].
  destruct (permanentArtifactError err); apply reading_throw.
Qed.

Lemma Commit_spec turn record w :
  wp (Commit turn record) (fun r w' => commit_post turn (graph_of w) (graph_of w') r) w.
Proof.
  assert (Hsame : forall (w' : W) err, graph_of w' = graph_of w -> commit_post turn (graph_of w) (graph_of w') (Err err)) by (by left).
  unfold Commit. destruct (AccusationRecord_Validate record); [|by apply wp_throw, Hsame].
  destruct (RequireTurnEntityID _ _); [|by apply wp_throw, Hsame].
  apply wp_get. intros [e|err] w1 Hg He; [|destruct (errors_Is _ _); by apply wp_throw, Hsame].
  destruct (stringObjects e TurnAccusationRef) as [|v l] eqn:Hobj; cbn [List.length Nat.ltb Nat.leb].
  2: { pose proof (resident_record_reading (v :: l) record w1) as Hread. unfold wp. rewrite Hread, Hg.
       destruct (resident_record _ _ w1).1; [left; exists e; by rewrite Hobj|by left]. }
  assert (Hnone : forall e', graph_of w !! turn = Some e' -> stringObjects e' TurnAccusationRef = []) by (intros; congruence).
  apply wp_artifact; [intros; apply PutAccusationRecord_graph|]. intros stored w2 Hg2.
  apply wp_lift_bind; [|intros; apply Hsame; congruence]. intros ref _. apply wp_clock. intros t w3 Hg3.
  apply wp_bind, wp_attempt. unfold RetryRevisionConflict.
  eapply wp_mono; [apply (retry_reconcile_spec _ _ _ _ _ _ (graph_of w3)); by left|].
  rewrite Hg3, Hg2, Hg. intros r w4 Hr. apply wp_lift_bind.
  - intros u Hu. apply wp_ret. right. split; [done|]. destruct r as [?|err]; [by exists t|discriminate Hu].
  - intros err Herr. destruct r as [?|err']; [done|]. destruct Hr as [Hr|Hr]; [by left|right]. split; [done|]. by exists ref, t.
Qed.

(** An accusation is committed once. A commit changes no entity but the
    turn and no predicate but its accusation reference; a turn that names a
    verdict is left as it is; and once a commit has returned a reference, every
    later commit for the turn - of the same record or another - leaves the
    graph as it is, whatever it returns. *)
Theorem accusation_is_committed_once turn record w ref w1
    (Hown : forall id e, graph_of w1 !! id = Some e -> ID e = id)
    (Hrun : Commit turn record w = (Ok ref, w1)) :
  (forall id, id <> turn -> graph_of w1 !! id = graph_of w !! id) /\
  (forall p, p <> TurnAccusationRef -> keeps p (graph_of w) (graph_of w1)) /\
  carries_verdict (graph_of w1) turn /\
  (forall record' w2, graph_of w2 = graph_of w1 -> graph_of (Commit turn record' w2).2 = graph_of w1).
Proof.
  pose proof (wp_elim _ _ _ _ _ (Commit_spec turn record w) Hrun) as Hpost.
  assert (Hagain : (exists e, graph_of w1 !! turn = Some e /\ stringObjects e TurnAccusationRef <> []) ->
    forall record' w2, graph_of w2 = graph_of w1 -> graph_of (Commit turn record' w2).2 = graph_of w1).
  { intros (e & He & Hobj) record' w2 Hsame. pose proof (Commit_spec turn record' w2) as Hc. unfold wp in Hc. rewrite Hsame in Hc.
    destruct (Commit turn record' w2) as [[r|err] w3]; cbn [fst snd] in *.
    - destruct Hc as [(_ & _ & _ & Hg)|[Hnone _]]; [done|]. by rewrite (Hnone e He) in Hobj.
    - destruct Hc as [Hg|[Hnone _]]; [done|]. by rewrite (Hnone e He) in Hobj. }
  destruct Hpost as [(e & He & Hobj & Hg)|[_ Hw]].
  - rewrite Hg. split_and!; [done|done| |rewrite <- Hg; apply Hagain; exists e; by rewrite Hg].
    exists (objectsFor e TurnAccusationRef). unfold objects_in. rewrite He. split; [done|by apply stringObjects_none].
  - assert (Hkeep : forall p, p <> TurnAccusationRef -> keeps p (graph_of w) (graph_of w1)).
    { intros p Hp. destruct Hw as [t Hw]. eapply reconcile_keeps; [exact Hw|]. autorewrite with contracts. set_solver. }
    pose proof Hw as Hland. apply written_carries in Hland. split_and!; [|exact Hkeep|exact Hland|].
    + intros id Hne. destruct Hw as [t Hw]. by rewrite (reconcile_other _ _ _ _ _ _ Hw Hne).
    + apply Hagain. destruct Hland as (l & Hl & _). unfold objects_in in Hl. destruct (graph_of w1 !! turn) as [e|] eqn:He; [|done].
      exists e. split; [done|]. by apply (written_read _ _ _ _ _ Hw He), Hown.
Qed.
End commit.

(** ** Deliveries *)

Section deliveries.
Context {W : Type} `{Substrate, HasGraph W, GraphStore W, Clock W, CaseArtifacts W, Ctx W, ActionStore W}.
Context `{!GraphStoreLaws W, !CaseArtifactsLaws W, !CtxLaws W, !ActionStoreLaws W, !VocabularyLaws}.
Implicit Types (w : W).

(** The projector the loader asks only reads. *)
Definition quiet_service (project : option (ProjectionService W)) : Prop :=
  forall f a, project = Some f -> reading (f a).

Lemma checked_reading {A} msg (r : res A) : reading (match r with Ok a => mret a | Err _ => throw (integrity msg) end : MW W A).
Proof. destruct r; [apply reading_ret|apply reading_throw]. Qed.

Lemma load_accusation_reading turnID state : reading (load_accusation turnID state).
Proof.
  unfold load_accusation. do 3 (apply reading_bind; [apply checked_reading|intros]).
  destruct (negb _); [apply reading_throw|].
  apply reading_bind; [apply reading_attempt; intros w; apply GetCaseDecisionRecord_graph|].
  intros [[record|]|err]; [|apply reading_throw|destruct (permanentArtifactError err); apply reading_throw].
  apply reading_bind; [apply checked_reading|intros _]. destruct (negb _); [apply reading_throw|].
  destruct (String.eqb _ _); [apply reading_ret|]. destruct (cdr_Decision record); [|apply reading_throw].
  destruct (negb _); [apply reading_throw|]. destruct (negb _); [apply reading_throw|apply reading_ret].
Qed.

Lemma load_case_reading caseID project turnEntityID turnID decision : quiet_service project ->
  reading (load_case caseID project turnEntityID turnID decision).
Proof.
  intros Hq. unfold load_case. destruct project as [f|]; [|apply reading_throw]. destruct (_ || _); [apply reading_throw|].
  apply reading_bind; [apply reading_attempt, reading_get|]. intros [e|err]; [|destruct (errors_Is _ _); apply reading_throw].
  destruct (_ ≫= _); [|apply reading_throw]. apply reading_bind; [apply reading_attempt; by apply Hq|]. intros r.
  apply reading_bind; [apply reading_lift|]. intros p. destruct (_ || _); [apply reading_throw|apply reading_ret].
Qed.

Lemma Accusation_Load_reading caseID project turn : quiet_service project -> reading (Accusation_Load caseID project turn).
Proof.
  intros Hq. unfold Accusation_Load. destruct (Split dot turn) as [|? [|? [|? [|? [|kind [|turnID [|]]]]]]]; try apply reading_throw.
  destruct (negb _); [apply reading_throw|]. destruct (RequireTurnEntityID _ _); [|apply reading_throw].
  apply reading_bind; [apply reading_attempt, reading_get|]. intros [e|err]; [|destruct (errors_Is _ _); apply reading_throw].
  apply reading_bind; [apply load_accusation_reading|]. intros [decision|]; [|apply reading_ret].
  destruct (negb _); [apply reading_ret|by apply load_case_reading].
Qed.

Lemma record_keeps request g g' r p : record_post request g g' r -> p ∉ Predicates CaseLifecycleReceipt -> keeps p g g'.
Proof.
  intros Hr Hp. destruct r as [o|err].
  - destruct Hr as (e & from & to & _ & _ & _ & _ & Hr). destruct (ro_Recorded o); [|by destruct Hr as [-> _]].
    destruct Hr as [_ [t Hr]]. by eapply reconcile_keeps.
  - destruct Hr as [[->|(e & from & to & _ & _ & _ & t & Hr)] _]; [done|by eapply reconcile_keeps].
Qed.

Lemma record_run request g g' r : record_post request g g' r -> fsm_run g g'.
Proof. intros Hr. apply fsm_keep; (eapply record_keeps; [exact Hr|not_in_target]). Qed.

Lemma written_run turn ref g g' : verdict_written turn ref g g' -> fsm_run g g'.
Proof. intros [t He]. apply fsm_keep; (eapply reconcile_keeps; [exact He|not_in_target]). Qed.

Lemma commit_run turn g g' r : commit_post turn g g' r -> fsm_run g g' /\ (is_ok r = true -> carries_verdict g' turn).
Proof.
  destruct r as [ref|err].
  - intros [(e & He & Hobj & ->)|[_ Hw]]; [split; [apply rtc_refl|intros _]|split; [by eapply written_run|intros _; by eapply written_carries]].
    exists (objectsFor e TurnAccusationRef). unfold objects_in. rewrite He. split; [done|by apply stringObjects_none].
  - intros [->|[_ [ref Hw]]]; (split; [|done]); [apply rtc_refl|by eapply written_run].
Qed.

(** The turn is over, or names its verdict. *)
Definition accusation_settled (turn : string) (g' : graph) : Prop := turn_over g' turn \/ carries_verdict g' turn.

Definition settling (trigger : Trigger) (g : graph) (r : res unit) (g' : graph) : Prop :=
  fsm_run g g' /\ match r with Ok _ => accusation_settled (t_TurnEntityID trigger) g' | Err _ => True end.

Lemma settling_after trigger g g1 g2 r : fsm_run g g1 -> settling trigger g1 r g2 -> settling trigger g r g2.
Proof. intros Hr [Hf Ho]. split; [by etrans|done]. Qed.

Lemma failInvalid_spec trigger w : wp (failInvalid trigger) (fun r w' => settling trigger (graph_of w) r (graph_of w')) w.
Proof.
  unfold failInvalid. apply wp_bind, wp_attempt. eapply wp_mono; [apply Fail_ends|]. intros [tr|err] w1 [Hm Ho].
  - apply wp_ret. split; [by apply fsm_once|by left].
  - destruct (errors_Is _ _); apply wp_throw; (split; [by apply fsm_once|done]).
Qed.

Lemma handle_accusation_spec trigger loaded decision w :
  wp (handle_accusation trigger loaded decision) (fun r w' => settling trigger (graph_of w) r (graph_of w')) w.
Proof.
  assert (Hstay : forall err g, settling trigger g (Err err) g) by (intros; split; [apply rtc_refl|done]).
  unfold handle_accusation. apply wp_bind, wp_attempt. eapply wp_mono; [apply Record_spec|]. intros r w1 Hr. apply record_run in Hr.
  assert (Hfail : forall w2, fsm_run (graph_of w) (graph_of w2) ->
    wp (failInvalid trigger) (fun r w' => settling trigger (graph_of w) r (graph_of w')) w2).
  { intros w2 Hrun. eapply wp_mono; [apply failInvalid_spec|]. intros r' w3 Hs. exact (settling_after _ _ _ _ _ Hrun Hs). }
  assert (Hthrow : forall (w2 : W) err, fsm_run (graph_of w) (graph_of w2) -> settling trigger (graph_of w) (Err err) (graph_of w2)) by (intros; split; assumption || exact I).
  destruct r as [o|err]; [|by apply wp_throw, Hthrow].
  destruct (String.eqb _ CasePhaseInvestigation); [by apply wp_throw, Hthrow|].
  destruct (_ && _); [by apply Hfail|]. destruct (Verify _ _) as [result|]; [|by apply Hfail].
  apply wp_bind, wp_attempt. eapply wp_mono; [apply Commit_spec|]. intros c w2 [Hc Hcarry]%commit_run.
  assert (Hrun : fsm_run (graph_of w) (graph_of w2)) by (by etrans).
  destruct c as [ref|err]; [|destruct (errors_As_b _ err); [by apply Hfail|by apply wp_throw, Hthrow]].
  specialize (Hcarry eq_refl). destruct (String.eqb _ AccusationIncorrect); [apply wp_ret; split; [done|by right]|].
  apply wp_bind, wp_attempt. eapply wp_mono; [apply Record_spec|]. intros r2 w3 Hr2.
  assert (Hrun3 : fsm_run (graph_of w) (graph_of w3)) by (etrans; [exact Hrun|exact (record_run _ _ _ _ Hr2)]).
  destruct r2 as [o2|err]; [|by apply wp_throw, Hthrow]. apply wp_ret. split; [done|]. right.
  destruct Hcarry as (l & Hl & Hne). exists l. split; [|done].
  rewrite (record_keeps _ _ _ _ TurnAccusationRef Hr2); [done|not_in_target].
Qed.

Lemma Accusation_Handle_spec caseID project decoded w : quiet_service project ->
  wp (Accusation_Handle caseID project decoded) (fun r w' => fsm_run (graph_of w) (graph_of w') /\
    match r with
    | Ok _ => exists trigger, ParseTrigger decoded = Ok trigger /\ t_Subject trigger = SubjectAccusation /\
        accusation_settled (t_TurnEntityID trigger) (graph_of w')
    | Err _ => True
    end) w.
Proof.
  intros Hq. unfold Accusation_Handle. destruct (ParseTrigger decoded) as [trigger|err]; [|apply wp_throw; split; [apply rtc_refl|done]].
  destruct (String.eqb_spec (t_Subject trigger) SubjectAccusation) as [Hsub|]; cbn [negb]; [|apply wp_throw; split; [apply rtc_refl|done]].
  assert (Hdone : forall (m : MW W unit) w1, graph_of w1 = graph_of w ->
    wp m (fun r w' => settling trigger (graph_of w) r (graph_of w')) w1 ->
    wp m (fun r w' => fsm_run (graph_of w) (graph_of w') /\
      match r with
      | Ok _ => exists trigger0, (Ok trigger : res Trigger) = Ok trigger0 /\ t_Subject trigger0 = SubjectAccusation /\
          accusation_settled (t_TurnEntityID trigger0) (graph_of w')
      | Err _ => True
      end) w1).
  { intros m w1 _ Hm. eapply wp_mono; [exact Hm|]. intros [u|err] w2 [Hf Ho]; (split; [done|]); [|done]. by exists trigger. }
  apply wp_bind, wp_attempt. pose proof (Accusation_Load_reading caseID project (t_TurnEntityID trigger) Hq w) as Hg. unfold wp at 1.
  destruct (Accusation_Load caseID project (t_TurnEntityID trigger) w) as [r w1]. cbn [fst snd] in *. apply Hdone; [done|]. rewrite <- Hg.
  assert (Hstay : forall (w2 : W) err, fsm_run (graph_of w1) (graph_of w2) -> settling trigger (graph_of w1) (Err err) (graph_of w2)) by (intros; split; assumption || exact I).
  destruct r as [loaded|err].
  2: { destruct (errors_As_b is_MissingAccusationTurnError err); [apply wp_throw, Hstay, rtc_refl|].
       destruct (errors_As_b is_IntegrityError err); [apply failInvalid_spec|apply wp_throw, Hstay, rtc_refl]. }
  assert (Hna : wp (committed ← attempt (CommitNotApplicable (af_TurnID loaded) (t_TurnEntityID trigger));
    match committed with
    | Ok _ => mret tt
    | Err err => if errors_As_b is_IntegrityError err then failInvalid trigger
                 else throw (Errorf "commit non-applicable accusation barrier" [err])
    end) (fun r w' => settling trigger (graph_of w1) r (graph_of w')) w1).
  { apply wp_bind, wp_attempt. eapply wp_mono; [apply Commit_spec|]. intros c w2 [Hc Hcarry]%commit_run.
    destruct c as [ref|err]; [apply wp_ret; split; [done|right; by apply Hcarry]|].
    destruct (errors_As_b _ err); [|by apply wp_throw, Hstay].
    eapply wp_mono; [apply failInvalid_spec|]. intros r' w3 Hs. by eapply settling_after. }
  destruct (af_Applicable loaded), (af_Decision loaded) as [decision|]; [apply handle_accusation_spec|exact Hna..].
Qed.

(** An accusation delivery that is acknowledged is settled. Under any store
    faults the consumer takes turns only along the turn FSM; and when it returns
    without an error, the trigger was an accusation's and its turn names its
    verdict or is over. *)
Theorem acknowledged_accusation_is_settled caseID project decoded w r w' (Hq : quiet_service project)
    (Hrun : Accusation_Handle caseID project decoded w = (r, w')) :
  fsm_run (graph_of w) (graph_of w') /\
  (r = Ok tt -> exists trigger, ParseTrigger decoded = Ok trigger /\ t_Subject trigger = SubjectAccusation /\
     accusation_settled (t_TurnEntityID trigger) (graph_of w')).
Proof.
  destruct (wp_elim _ _ _ _ _ (Accusation_Handle_spec caseID project decoded w Hq) Hrun) as [Hf Hr].
  split; [done|]. by intros ->.
Qed.

(** A premature accusation is never settled. While the case is in its cold
    open or its discovery, and has not consumed the accusation's own event, the
    consumer answers an accusation with a plain, retryable error and writes
    nothing: the branch that would fail the turn is not reached, because
    recording the submission refuses first. *)
Theorem premature_accusation_is_never_settled trigger loaded decision w e
    (He : graph_of w !! af_CaseID loaded = Some e)
    (Hphase : literal e CaseLifecyclePhase ∈ [CasePhaseColdOpen; CasePhaseDiscovery])
    (Hfresh : literal e CaseLifecycleEventID <> cd_DecisionID decision) :
  graph_of (handle_accusation trigger loaded decision w).2 = graph_of w /\
  exists err, (handle_accusation trigger loaded decision w).1 = Err (Errorf "record accusation submitted" [err]).
Proof.
  assert (Hwp : wp (handle_accusation trigger loaded decision) (fun r w' => graph_of w' = graph_of w /\
    exists err, r = Err (Errorf "record accusation submitted" [err])) w); [|exact Hwp].
  unfold handle_accusation. apply wp_bind, wp_attempt. eapply wp_mono; [apply Record_spec|].
  set (request := {| tq_CaseEntityID := af_CaseID loaded; tq_EventID := cd_DecisionID decision;
                     tq_Kind := CaseEventAccusationSubmitted |}).
  assert (Hrank : phaseRank (literal e CaseLifecyclePhase) < phaseRank CasePhaseInvestigation /\
    literal e CaseLifecyclePhase <> CasePhaseInvestigation).
  { revert Hphase. generalize (literal e CaseLifecyclePhase). intros p Hp. closed_cases Hp; by vm_compute. }
  intros [o|err] w1 Hr.
  - exfalso. destruct Hr as (e' & from & to & He' & Hedge & _ & _ & Hr). change (graph_of w !! af_CaseID loaded = Some e') in He'.
    assert (e' = e) as -> by congruence. cbn in Hedge. injection Hedge as <- <-.
    destruct (ro_Recorded o); [destruct Hr as [Hr _]; by apply (proj2 Hrank)|]. destruct Hr as (_ & [Hr|Hr]); [by apply Hfresh|lia].
  - apply wp_throw. split; [|by exists err]. destruct Hr as [[Hr|(e' & from & to & He' & Hedge & Hlit & _)] _]; [done|].
    exfalso. change (graph_of w !! af_CaseID loaded = Some e') in He'. assert (e' = e) as -> by congruence.
    cbn in Hedge. injection Hedge as <- <-. by apply (proj2 Hrank).
Qed.
End deliveries.

(** ** The denouement *)

Section denouement.
Context {W : Type} `{Substrate, HasGraph W, GraphStore W, Clock W, CaseArtifacts W, PredicateReader W}.
Context `{SceneGraph W, ProjectionEncoder}.
Context `{!GraphStoreLaws W, !CaseArtifactsLaws W, !PredicateReaderLaws W, !SceneGraphLaws W}.
Implicit Types (w : W).

(** The turn names, in its own slot, a stored and valid record of a correct
    accusation of this turn in this case. *)
Definition vindicated (g : graph) (turnID caseID refText : string) : Prop :=
  exists ref turnEntityID e record result (w1 w2 : W),
    ParseRef refText = Ok ref /\ KeyFor TurnAccusationRef SubjectTurn turnID = Ok (Key ref) /\
    g !! turnEntityID = Some e /\ soleObject e TurnAccusationRef = Ok refText /\
    artifacts_GetAccusationRecord ref w1 = (Ok (Some record), w2) /\ AccusationRecord_Validate record = Ok tt /\
    acr_Result record = Some result /\
    ar_TurnID result = turnID /\ ar_CaseID result = caseID /\ ar_Outcome result = AccusationCorrect.

Lemma or3_false a b c : a || b || c = false -> a = false /\ b = false /\ c = false.
Proof. by destruct a, b, c. Qed.
Lemma negb_eqb_false s t : negb (String.eqb s t) = false -> s = t.
Proof. intros Hn. by apply negb_false_iff, String.eqb_eq in Hn. Qed.

(** Reading an artifact keeps the graph and remembers the answer. *)
Lemma wp_fetch {A B} (m : MW W A) (k : res A -> MW W B) Q w :
  (forall w0, graph_of (m w0).2 = graph_of w0) ->
  (forall r w', graph_of w' = graph_of w -> m w = (r, w') -> wp (k r) Q w') ->
  wp (r ← attempt m; k r) Q w.
Proof.
  intros Hm Hk. apply wp_bind, wp_attempt. unfold wp. specialize (Hm w). destruct (m w) as [r w'] eqn:Hrun.
  exact (Hk r w' Hm eq_refl).
Qed.

Lemma Authorized_spec turnID caseID refText w :
  wp (Authorized turnID caseID refText) (fun r w' => graph_of w' = graph_of w /\
    match r with Ok b => b = true /\ vindicated (graph_of w) turnID caseID refText | Err _ => True end) w.
Proof.
  assert (Hthrow : forall (err : error) (w' : W), graph_of w' = graph_of w ->
    wp (throw err : MW W bool) (fun r w' => graph_of w' = graph_of w /\
      match r with Ok b => b = true /\ vindicated (graph_of w) turnID caseID refText | Err _ => True end) w').
  { intros err w' Hg. apply wp_throw. split; [done|exact I]. }
  unfold Authorized. apply wp_lift_bind; [|intros; by split]. intros ref Href. apply wrapf_ok in Href.
  destruct (Ref_IsZero ref); [by apply Hthrow|]. destruct (KeyFor _ _ _) as [key|] eqn:Hkey; [|by apply Hthrow].
  destruct (negb _) eqn:Hslot; [by apply Hthrow|]. apply negb_eqb_false in Hslot.
  apply wp_fetch; [intros; apply EntitiesByPredicateValue_graph|]. intros asked w1 Hg1 _.
  apply wp_lift_bind; [|by intros; split]. intros [|id [|]] _; try by apply Hthrow.
  destruct (Split dot id) as [|? [|? [|? [|? [|kind [|instance [|]]]]]]]; try by apply Hthrow.
  destruct (_ || _); [by apply Hthrow|]. apply wp_get. intros r w2 Hg2 He. rewrite Hg1 in Hg2.
  apply wp_lift_bind; [|by intros; split]. intros e Hre. apply wrapf_ok in Hre. subst r. rewrite Hg1 in He.
  destruct (soleObject e _) as [resident|] eqn:Hsole; [|by apply Hthrow].
  destruct (negb _) eqn:Hres; [by apply Hthrow|]. apply negb_eqb_false in Hres. subst resident.
  apply wp_fetch; [intros; apply GetAccusationRecord_graph|]. intros fetched w3 Hg3 Hrun. rewrite Hg2 in Hg3.
  apply wp_lift_bind; [|by intros; split]. intros record Hrec. apply wrapf_ok in Hrec. subst fetched.
  destruct record as [record|]; [|by apply Hthrow]. apply wp_lift_bind; [|by intros; split]. intros [] Hvalid. apply wrapf_ok in Hvalid.
  destruct (String.eqb _ AccusationResultRecorded); [|by apply Hthrow]. destruct (acr_Result record) as [result|] eqn:Hr; [|by apply Hthrow].
  destruct (_ || _) eqn:Hall; [by apply Hthrow|]. apply or3_false in Hall as (Ht & Hc & Ho).
  apply wp_ret. split; [done|]. split; [done|]. exists ref, id, e, record, result, w2, w3. subst key.
  split_and!; try assumption; by apply negb_eqb_false.
Qed.

(** Routing asks its projector for an audience of the same turn, and makes
    nobody a verifier. *)
Lemma Route_spec caseID (next : ProjectionService W) a w (Q : res Projection -> W -> Prop) :
  (forall a' w1, graph_of w1 = graph_of w -> au_turnID a' = au_turnID a ->
     (au_purpose a' = PurposeVerifier -> au_purpose a = PurposeVerifier) -> wp (next a') Q w1) ->
  (forall err w1, graph_of w1 = graph_of w -> Q (Err err) w1) ->
  wp (Route caseID next a) Q w.
Proof.
  intros Hnext Herr. assert (Hthrow : forall (err : error) w1, graph_of w1 = graph_of w -> wp (throw err) Q w1) by (intros; apply wp_throw; auto).
  unfold Route. destruct (negb _); [by apply Hnext|]. apply wp_get. intros r w1 Hg1 _. apply wp_lift_bind; [|intros; auto]. intros e _.
  destruct (stringObjects e _) as [|value [|]]; [by apply Hnext| |by apply Hthrow].
  destruct (ParseRef value) as [ref|]; [|by apply Hthrow]. destruct (Ref_IsZero ref); [by apply Hthrow|].
  destruct (KeyFor _ _ _); [|by apply Hthrow]. destruct (negb _); [by apply Hthrow|].
  apply wp_fetch; [intros; apply GetAccusationRecord_graph|]. intros fetched w2 Hg2 _. rewrite Hg1 in Hg2.
  apply wp_lift_bind; [|intros; auto]. intros [record|] _; [|by apply Hthrow].
  apply wp_lift_bind; [|intros; auto]. intros _ _. destruct (negb _); [by apply Hthrow|].
  destruct (String.eqb (acr_Status record) _); [by apply Hnext|]. destruct (acr_Result record) as [result|]; [|by apply Hthrow].
  destruct (negb _); [by apply Hthrow|]. destruct (String.eqb _ AccusationIncorrect); [by apply Hnext|].
  destruct (String.eqb _ AccusationCorrect); [|by apply Hthrow].
  apply Hnext; [done|done|]. intros Hv. apply String.eqb_eq in Hv. discriminate Hv.
Qed.

(** C5: the solution is told after a correct accusation only. When the projector
    asks the stored verdicts for its denouements and audiences reach it through
    the narration router, a projection that carries the solution to anyone but
    the verifier is of a turn that names, in its own slot, a stored and valid
    record of a correct accusation by this turn in this case. *)
Theorem solution_is_told_after_a_correct_accusation pj a w p w' (Hq : quiet pj)
    (Hden : pj_denouement pj = Some Authorized)
    (Hrun : Route (sc_caseID (pj_scope pj)) (Project pj) a w = (Ok p, w'))
    (Hsol : p_HasSolution p = true) (Hver : au_purpose a <> PurposeVerifier) :
  exists refText, vindicated (graph_of w) (au_turnID a) (sc_caseID (pj_scope pj)) refText.
Proof.
  assert (Hwp : wp (Route (sc_caseID (pj_scope pj)) (Project pj) a) (fun r _ => forall p, r = Ok p -> p_HasSolution p = true ->
    exists refText, vindicated (graph_of w) (au_turnID a) (sc_caseID (pj_scope pj)) refText) w).
  2: { pose proof (wp_elim _ _ _ _ _ Hwp Hrun) as Hp. cbv beta in Hp. by eapply Hp. }
  apply Route_spec; [|done]. intros a' w1 Hg Hturn Hpurpose. unfold wp.
  destruct (Project pj a' w1) as [r w2] eqn:Hproj. cbn [fst snd]. intros p0 -> Hp0.
  destruct (projected_solution _ _ _ _ _ Hq Hproj Hp0) as [_ Hearned].
  destruct Hearned as (s & _ & _ & _ & authorize & w3 & w4 & Hauth & Hg3 & Hyes); [auto|].
  rewrite Hden in Hauth. injection Hauth as <-. exists (au_authorizerRef a').
  pose proof (wp_elim _ _ _ _ _ (Authorized_spec _ _ _ _) Hyes) as (_ & _ & Hv). rewrite Hg3, Hg, Hturn in Hv. exact Hv.
Qed.
End denouement.

(** ** At work on one accusation *)

Import CaseDemo KnowledgeDemo SceneDemo EpistemicDemo.
Module AccusationDemo.
Definition case_id : string := CaseflowSpec.CaseDemo.case_id.
Definition ref_text : string := "obj://content/turn/turn-a1/accusation".
Definition poison_id : string := "acme.semmachina.barrow.case.method.poison".
Definition debt_id : string := "acme.semmachina.barrow.case.motive.debt".

(** The detective names the butler. *)
Definition accuse : CaseDecision := {|
  cd_DecisionID := CaseDecisionID "turn-a1" "a1" case_id character_id;
  cd_TurnID := "turn-a1"; cd_ActionID := "a1"; cd_CaseID := case_id; cd_ActorID := character_id;
  cd_Kind := CaseDecisionAccuse; cd_TargetRefs := []; cd_RevealRefs := [];
  cd_CulpritRef := butler_id; cd_MethodRef := poison_id; cd_MotiveRef := debt_id |}.

Definition verdict : AccusationResult := {|
  ar_ResultID := AccusationResultID "turn-a1" case_id (cd_DecisionID accuse); ar_TurnID := "turn-a1";
  ar_CaseID := case_id; ar_DecisionID := cd_DecisionID accuse; ar_Outcome := AccusationCorrect |}.
Definition verdict_record : AccusationRecord := {|
  acr_TurnID := "turn-a1"; acr_Status := AccusationResultRecorded; acr_Result := Some verdict |}.
Definition the_solution : Solution := {| Culprit := butler_id; Method := poison_id; Motive := debt_id |}.

#[export] Instance verdicts : CaseArtifacts World := {|
  artifacts_InstanceName := "content";
  artifacts_GetCaseDecisionRecord _ := mret (Some {| cdr_TurnID := "turn-a1"; cdr_ActionID := "a1";
    cdr_Status := CaseDecisionStatusDecision; cdr_Decision := Some accuse |});
  artifacts_GetKnowledgeReceipt _ := mret None;
  artifacts_PutKnowledgeReceipt _ _ := throw (Errorf "no receipt" []);
  artifacts_PutTestimony _ _ := throw (Errorf "no testimony" []);
  artifacts_GetCaseProgressRecord _ := mret None;
  artifacts_PutCaseProgressRecord _ _ := throw (Errorf "no progress" []);
  artifacts_GetAccusationRecord _ := mret (Some verdict_record);
  artifacts_PutAccusationRecord _ _ := mret {| Instance_ := "content"; Key := "turn/turn-a1/accusation" |};
  artifacts_PutFailureDetail _ _ := mret {| Instance_ := "content"; Key := "turn/turn-a1/failure" |} |}.

#[export] Instance verdicts_laws : CaseArtifactsLaws World (H0 := verdicts).
Proof. by split. Qed.

(** The case is in a phase; the turn has decided, or decided and been judged. *)
Definition manor_in (phase : string) : EntityState :=
  of_kind case_id EntityKindCase
    [Demo.string_triple case_id CaseLifecyclePhase phase;
     Demo.string_triple case_id CaseSolutionCulprit butler_id;
     Demo.string_triple case_id CaseSolutionMethod poison_id; Demo.string_triple case_id CaseSolutionMotive debt_id].
Definition accusing_turn (judged : list Triple) : EntityState :=
  with_triples turn_here (Triples turn_here ++
    Demo.string_triple Demo.turn_id TurnCaseDecisionRef (ref_to "case-decision") :: judged).
Definition manor (phase : string) (judged : list Triple) : World :=
  mkWorld (<[Demo.turn_id := accusing_turn judged]> (<[case_id := manor_in phase]> room_graph)) 10 [] [].
Definition judged : list Triple := [Demo.string_triple Demo.turn_id TurnAccusationRef ref_text].

Definition told : Projection :=
  Build_Projection PurposeVerifier EmptyString EmptyString EmptyString EmptyString EmptyString EmptyString
    (Build_ProjActor EmptyString EmptyString) (Build_ProjEntity EmptyString []) (Build_ProjEntity EmptyString []) [] []
    true the_solution.
Definition verifier : option (ProjectionService World) := Some (fun _ => mret told).
Lemma verifier_quiet : quiet_service verifier.
Proof. intros f a [= <-] w. done. Qed.

Definition publication : rulePublication := {|
  EntityID_ := Demo.turn_id; Subject_ := SubjectAccusation; Source_ := "rules"; Properties_ := ∅ |}.

Definition accused : World := (Commit Demo.turn_id verdict_record (manor CasePhaseAccusation [])).2.
Definition delivered : World := (Accusation_Handle case_id verifier (Ok publication) (manor CasePhaseAccusation [])).2.
End AccusationDemo.
Import AccusationDemo.

Lemma manor_owns_its_entities :
  forall id e, graph_of accused !! id = Some e -> ID e = id.
Proof.
  assert (Hall : forallb (fun kv => String.eqb (ID kv.2) kv.1) (map_to_list (graph_of accused)) = true)
    by (vm_compute; reflexivity).
  rewrite forallb_forall in Hall. intros id e He. apply elem_of_map_to_list, list_elem_of_In, Hall in He.
  by apply String.eqb_eq in He.
Qed.

Lemma accusation_is_committed_once_witness :
  carries_verdict (graph_of accused) Demo.turn_id /\
  (forall record' w2, graph_of w2 = graph_of accused -> graph_of (Commit Demo.turn_id record' w2).2 = graph_of accused).
Proof.
  apply (accusation_is_committed_once Demo.turn_id verdict_record (manor CasePhaseAccusation [])
    {| Instance_ := "content"; Key := "turn/turn-a1/accusation" |}).
  - exact manor_owns_its_entities.
  - refine (pair_of (Commit Demo.turn_id verdict_record (manor CasePhaseAccusation [])) (Ok _) _). vm_compute. reflexivity.
Defined.

Lemma acknowledged_accusation_is_settled_witness :
  exists trigger, ParseTrigger (Ok AccusationDemo.publication) = Ok trigger /\ t_Subject trigger = SubjectAccusation /\
    accusation_settled (t_TurnEntityID trigger) (graph_of delivered).
Proof.
  refine (proj2 (acknowledged_accusation_is_settled AccusationDemo.case_id verifier (Ok AccusationDemo.publication)
    (manor CasePhaseAccusation []) (Ok tt) delivered verifier_quiet _) eq_refl).
  refine (pair_of (Accusation_Handle AccusationDemo.case_id verifier (Ok AccusationDemo.publication)
    (manor CasePhaseAccusation [])) (Ok tt) _). vm_compute. reflexivity.
Defined.

Definition premature : AccusationPreflight := {|
  af_TurnEntityID := Demo.turn_id; af_TurnID := "turn-a1"; af_Applicable := true; af_CaseID := AccusationDemo.case_id;
  af_CasePhase := CasePhaseDiscovery; af_Decision := Some accuse; af_Solution := the_solution |}.
Definition accusation_trigger : Trigger := {|
  t_TurnEntityID := Demo.turn_id; t_TurnID := "turn-a1"; t_Subject := SubjectAccusation |}.

Lemma premature_accusation_is_never_settled_witness :
  graph_of (handle_accusation accusation_trigger premature accuse (manor CasePhaseDiscovery [])).2 =
    graph_of (manor CasePhaseDiscovery []).
Proof.
  refine (proj1 (premature_accusation_is_never_settled accusation_trigger premature accuse (manor CasePhaseDiscovery [])
    (manor_in CasePhaseDiscovery) _ _ _)).
  - vm_compute. reflexivity.
  - right. left.
  - vm_compute. discriminate.
Defined.

(** The case's projector, with the stored verdicts for its authority. *)
Definition detective : Projector World := {|
  pj_scope := {| sc_caseID := AccusationDemo.case_id; sc_beliefsByActorID := ∅ |};
  pj_maxSupplemental := DefaultMaxSupplementalEntities; pj_maxProjectionEntities := DefaultMaxProjectionEntities;
  pj_maxProjectionTriples := DefaultMaxProjectionTriples; pj_maxProjectionBytes := DefaultMaxProjectionBytes;
  pj_Assemble := pj_Assemble projector; pj_denouement := Some Authorized;
  pj_companionBonds := None; pj_narrationEvidence := None |}.

Lemma detective_quiet : quiet detective.
Proof.
  split; [apply projector_quiet| |done|done]. intros f t c r [= <-] w.
  pose proof (Authorized_spec t c r w) as Ha. unfold wp in Ha. apply Ha.
Qed.

Definition solved : World := manor CasePhaseDenouement judged.
Definition for_narrator : AuthenticatedAudience := NarratorAudience "turn-a1" Demo.turn_id.
Definition told_at_last : Projection :=
  match (Route AccusationDemo.case_id (Project detective) for_narrator solved).1 with Ok p => p | Err _ => nothing_shown end.

Lemma solution_is_told_after_a_correct_accusation_witness :
  p_Solution told_at_last = the_solution /\
  exists refText, vindicated (graph_of solved) "turn-a1" AccusationDemo.case_id refText.
Proof.
  split; [vm_compute; reflexivity|].
  apply (solution_is_told_after_a_correct_accusation detective for_narrator solved told_at_last
    (Route AccusationDemo.case_id (Project detective) for_narrator solved).2 detective_quiet eq_refl).
  - refine (pair_of (Route AccusationDemo.case_id (Project detective) for_narrator solved) (Ok told_at_last) _).
    vm_compute. reflexivity.
  - vm_compute. reflexivity.
  - vm_compute. discriminate.
Defined.

Lemma verdict_is_exact_witness :
  ar_Outcome verdict = AccusationCorrect <->
    cd_CulpritRef accuse = Culprit the_solution /\ cd_MethodRef accuse = Method the_solution /\
    cd_MotiveRef accuse = Motive the_solution.
Proof.
  apply (proj2 (verdict_is_exact accuse the_solution) verdict). vm_compute. reflexivity.
Defined.
