(* ===== verification/LedgerSpec.v ===== *)
(** The archive keeps its promises: one record per turn that never changes, an
    acknowledged or reconciled turn is on it as the graph tells it, and a replay
    re-derives the recorded roll or refuses. *)

From stdpp Require Import relations.
From S2P Require Import Prelude GoStd GoErrors Graph Vocab Vocabulary Payload Mechanics ContentRecords ContentStore ProjectionContract Store Campaign Dice Sequencing GraphIO Turn Resume Ledger MemStore TurnSpec CampaignSpec DiceSpec.

Open Scope Z_scope.

(** ** What the archive holds *)

(** Subjects to the messages published on them, oldest first. *)
Abbreviation ledger := (gmap string (list string)).

Class HasLedger (W : Type) : Type := { ledger_of : W -> ledger }.

Definition entries (l : ledger) (subject : string) : list string := default [] (l !! subject).

(** Every subject has one record at most. *)
Definition one_each (l : ledger) : Prop := forall subject, (List.length (entries l subject) <= 1)%nat.

(** Nothing, or the first record of one subject, was added. *)
Definition adds_record (l l' : ledger) : Prop :=
  l' = l \/ exists subject data, entries l subject = [] /\ l' = <[subject := [data]]> l.

Lemma entries_insert l s d s' : entries (<[s := d]> l) s' = if decide (s = s') then d else entries l s'.
Proof. unfold entries. rewrite lookup_insert. by case_decide. Qed.

Lemma adds_one_each l l' : adds_record l l' -> one_each l -> one_each l'.
Proof.
  intros [->|(s & d & _ & ->)] Hl s'; [apply Hl|]. rewrite entries_insert. case_decide; [cbn; lia|apply Hl].
Qed.

Lemma adds_keeps l l' s : adds_record l l' -> entries l s <> [] -> entries l' s = entries l s.
Proof. intros [->|(s' & d & He & ->)] Hs; [done|]. rewrite entries_insert. case_decide; [congruence|done]. Qed.

Lemma run_one_each l l' : rtc adds_record l l' -> one_each l -> one_each l'.
Proof. induction 1; eauto using adds_one_each. Qed.

Lemma run_keeps l l' s : rtc adds_record l l' -> entries l s <> [] -> entries l' s = entries l s.
Proof.
  induction 1 as [|l l1 l' H1 _ IH]; [done|]. intros Hs. pose proof (adds_keeps _ _ _ H1 Hs) as He.
  rewrite IH; [done|]. by rewrite He.
Qed.

(** ** The services it is written through *)

Section laws.
Context (W : Type) `{Substrate, HasGraph W, HasLedger W, GraphStore W, LedgerStream W, ManifestEnvelope W, Codec TurnManifest}.

Definition same (w w' : W) : Prop := graph_of w' = graph_of w /\ ledger_of w' = ledger_of w.

(** A publish appends, or finds the message already there within the broker's
    window; a failed one may have appended. The envelope decodes to a manifest
    that encodes alike. Errors of these services are not the archive's own. *)
Class LedgerLaws : Prop := {
  EnsureStream_same w : same w (EnsureStream w).2;
  hold_stream_same user w : same w (hold_stream user w);
  GetEntity_ledger id w : ledger_of (GetEntity id w).2 = ledger_of w;
  GetLastMsg_spec subject w : wp (GetLastMsgForSubject subject) (fun r w' => same w w' /\
    match r with
    | Ok data => List.last (map Some (entries (ledger_of w) subject)) None = Some data
    | Err err => (errors_Is ErrMsgNotFound err = true -> entries (ledger_of w) subject = []) /\
                 errors_Is ErrManifestNotFound err = false
    end) w;
  Publish_spec subject data id w : wp (PublishToStreamWithMsgID subject data id) (fun r w' =>
    graph_of w' = graph_of w /\
    (ledger_of w' = <[subject := entries (ledger_of w) subject ++ [data]]> (ledger_of w) \/
     (ledger_of w' = ledger_of w /\ (is_ok r = true -> entries (ledger_of w) subject <> [])))) w;
  marshal_message_spec m w : wp (marshal_message m) (fun r w' => same w w' /\
    match r with
    | Ok data => TurnManifest_Validate m = Ok tt -> exists m', decode_message data = Ok (Some m') /\
        TurnManifest_Validate m' = Ok tt /\ manifestDiff m' m = false
    | Err _ => True
    end) w;
  decode_message_error data err : decode_message data = Err err -> errors_Is ErrManifestNotFound err = false;
  ValidateEntityID_error s err : ValidateEntityID s = Err err -> errors_Is ErrManifestNotFound err = false;
  ValidateEntityIDPrefix_error s err : ValidateEntityIDPrefix s = Err err -> errors_Is ErrManifestNotFound err = false
}.
End laws.
Arguments LedgerLaws W {_ _ _ _ _ _ _}.
Arguments same {W _ _}.

(** ** Which errors mean that nothing is archived *)

Section foreign.
Context {W : Type} `{Substrate, HasGraph W, HasLedger W, GraphStore W, LedgerStream W, ManifestEnvelope W, Codec TurnManifest}.
Context `{!LedgerLaws W}.

Definition foreign {A} (r : res A) : Prop := forall err, r = Err err -> errors_Is ErrManifestNotFound err = false.

Lemma foreign_ok {A} (a : A) : foreign (Ok a).
Proof. done. Qed.
Lemma foreign_msg {A} msg : foreign (Err (Errorf msg []) : res A).
Proof. intros err [= <-]. apply errors_Is_Errorf. Qed.
Lemma foreign_require c msg : foreign (require c (Errorf msg [])).
Proof. destruct c; [done|apply foreign_msg]. Qed.
Lemma foreign_bind {A B} (r : res A) (f : A -> res B) : foreign r -> (forall a, foreign (f a)) -> foreign (r ≫= f).
Proof. intros Hr Hf. destruct r as [a|e]; [apply Hf|]. intros err [= <-]. by apply Hr. Qed.
Lemma foreign_wrapf {A} msg (r : res A) : foreign r -> foreign (wrapf msg r).
Proof.
  intros Hr. destruct r as [a|e]; [done|]. intros err [= <-]. rewrite errors_Is_Errorf. cbn.
  by rewrite (Hr e eq_refl).
Qed.
Lemma foreign_unknown {A} kind value values : foreign (Err (UnknownValueError kind value values) : res A).
Proof. by intros err [= <-]. Qed.
Lemma foreign_parse e raw : foreign (enum_parse e raw).
Proof. unfold enum_parse. destruct (enum_valid _ _); [done|apply foreign_unknown]. Qed.

Lemma foreign_segment field value : foreign (requireIDSegment field value).
Proof.
  apply foreign_wrapf. unfold ValidateIDSegment. destruct (String.eqb _ _); [apply foreign_msg|].
  destruct (_ <? _); [apply foreign_msg|]. destruct (contains_char _ _); [apply foreign_msg|].
  apply foreign_wrapf. intros err. apply (ValidateEntityIDPrefix_error W).
Qed.
Lemma foreign_action field value : foreign (requireActionID field value).
Proof. apply foreign_bind; [apply foreign_segment|]. intros _. destruct (_ <? _); [apply foreign_msg|apply foreign_ok]. Qed.
Lemma foreign_entity field value : foreign (requireEntityID field value).
Proof.
  unfold requireEntityID. destruct (String.eqb _ _); [apply foreign_msg|]. apply foreign_wrapf.
  intros err. apply (ValidateEntityID_error W).
Qed.
Lemma foreign_ending m : foreign (manifest_ending m).
Proof.
  unfold manifest_ending. destruct (String.eqb _ _).
  - apply foreign_bind; [apply foreign_require|]. intros _. apply foreign_bind; [apply foreign_parse|]. intros _. apply foreign_ok.
  - destruct (String.eqb _ _); [|apply foreign_ok]. do 3 (apply foreign_bind; [apply foreign_require|]; intros _).
    apply foreign_require.
Qed.
Lemma foreign_gate gate : foreign (RollGateExpectation_Validate gate).
Proof.
  apply foreign_bind; [|intros; apply foreign_require]. unfold AdviseRollGate.
  destruct (_ !! _); [|apply foreign_unknown]. destruct (negb _); [apply foreign_unknown|].
  destruct (negb _); [apply foreign_unknown|apply foreign_ok].
Qed.

Lemma TurnManifest_Validate_foreign m : foreign (TurnManifest_Validate m).
Proof.
  unfold TurnManifest_Validate. apply foreign_bind; [apply foreign_segment|]. intros _.
  apply foreign_bind; [apply foreign_action|]. intros _. do 3 (apply foreign_bind; [apply foreign_entity|]; intros _).
  apply foreign_bind; [unfold requireNonEmpty; destruct (String.eqb _ _); [apply foreign_msg|apply foreign_ok]|]. intros _.
  apply foreign_bind; [apply foreign_parse|]. intros _. apply foreign_bind; [apply foreign_require|]. intros _.
  apply foreign_bind; [apply foreign_ending|]. intros _.
  apply foreign_bind; [destruct (m_RollGate m); [apply foreign_wrapf, foreign_gate|apply foreign_ok]|]. intros _.
  apply foreign_require.
Qed.
End foreign.

(** ** One turn *)

Section writer.
Context {W : Type} `{Substrate, HasGraph W, HasLedger W, GraphStore W, Clock W, PrefixReader W, LedgerStream W, ManifestEnvelope W, Codec TurnManifest}.
Context `{!GraphStoreLaws W, !LedgerLaws W}.
Implicit Types (w : W).

(** The last record of a subject, read as a manifest. *)
Definition holds (l : ledger) (subject : string) (m : TurnManifest) : Prop :=
  exists data, List.last (map Some (entries l subject)) None = Some data /\ decode_message data = Ok (Some m) /\
    TurnManifest_Validate m = Ok tt.

(** The turn's subject holds a record that says what [m] says. *)
Definition archived (l : ledger) (turnID : string) (m : TurnManifest) : Prop :=
  exists subject m', SubjectFor turnID = Ok subject /\ holds l subject m' /\ manifestDiff m' m = false.

Lemma holds_nonempty l subject m : holds l subject m -> entries l subject <> [].
Proof. intros (d & Hl & _). by destruct (entries l subject). Qed.

Lemma archived_run l l' turnID m : rtc adds_record l l' -> archived l turnID m -> archived l' turnID m.
Proof.
  intros Hrun (subject & m' & Hs & Hh & Hd). exists subject, m'. split_and!; [done| |done].
  pose proof (holds_nonempty _ _ _ Hh) as Hne. unfold holds in *. by rewrite (run_keeps _ _ _ Hrun Hne).
Qed.

Lemma same_trans w1 w2 w3 : same w1 w2 -> same w2 w3 -> same w1 w3.
Proof. unfold same. intros [-> ->] [-> ->]. done. Qed.

Lemma wp_held {A} user (k : bool -> MW W A) (Q : res A -> W -> Prop) w :
  wp (k (stream_held user w)) Q w -> wp (held ← stream_is_held user; k held) Q w.
Proof. done. Qed.

Lemma archive_spec w : wp archive (fun r w' => same w w') w.
Proof.
  unfold archive. apply wp_held. destruct (stream_held AsWriter w); [by apply wp_ret|].
  apply wp_bind, wp_attempt. pose proof (EnsureStream_same W w) as Hs. unfold wp at 1.
  destruct (EnsureStream w) as [r w1]. cbn [fst snd] in *. destruct r as [u|err]; [|by apply wp_throw].
  unfold keep_stream, wp. cbn [fst snd]. eapply same_trans; [exact Hs|]. exact (hold_stream_same W _ _).
Qed.

Lemma readManifest_spec subject w :
  wp (readManifest subject) (fun r w' => same w w' /\
    match r with
    | Ok m => holds (ledger_of w) subject m
    | Err err => errors_Is ErrManifestNotFound err = true -> entries (ledger_of w) subject = []
    end) w.
Proof.
  unfold readManifest. apply wp_bind, wp_attempt. eapply wp_mono; [exact (GetLastMsg_spec W subject w)|].
  intros [data|err] w1 [Hs Hr].
  - assert (Hfail : forall (r : res TurnManifest), foreign r -> forall err, r = Err err ->
      same w w1 /\ (errors_Is ErrManifestNotFound err = true -> entries (ledger_of w) subject = [])).
    { intros r Hf err Herr. split; [done|]. by rewrite (Hf err Herr). }
    apply wp_lift_bind.
    2: { intros err Herr. split; [done|]. destruct (decode_message data) as [|e] eqn:Hd; [done|]. injection Herr as <-.
         rewrite errors_Is_Errorf. cbn. by rewrite (decode_message_error W _ _ Hd). }
    intros [m|] Hd; [|apply wp_throw; split; [done|by rewrite errors_Is_Errorf]]. apply wrapf_ok in Hd.
    apply wp_lift_bind.
    2: { intros err Herr. split; [done|]. pose proof (foreign_wrapf "the archived manifest does not satisfy its own contract" _ (TurnManifest_Validate_foreign m)) as Hf.
         by rewrite (Hf err Herr). }
    intros [] Hv. apply wrapf_ok in Hv. apply wp_ret. split; [done|]. by exists data.
  - destruct Hr as [Hnone Hf]. destruct (errors_Is ErrMsgNotFound err) eqn:He; apply wp_throw; (split; [done|]).
    + intros _. by apply Hnone.
    + rewrite errors_Is_Errorf. cbn. by rewrite Hf.
Qed.

Lemma Compose_valid turnID state campaignID m : Compose turnID state campaignID = Ok m -> TurnManifest_Validate m = Ok tt.
Proof.
  unfold Compose. destruct state as [e|]; [|done]. intros Hc.
  do 12 (apply result_bind_ok in Hc as (? & _ & Hc)). apply result_bind_ok in Hc as ([] & Hv & [= <-]). by apply wrapf_ok in Hv.
Qed.

(** What archiving a turn does to the archive, whatever it returns; and what is
    there when it returns. *)
Definition archive_post (campaignID turnID : string) (state : option EntityState) (l l' : ledger) (r : res Outcome) : Prop :=
  adds_record l l' /\
  match r with
  | Ok o => exists m, Compose turnID state campaignID = Ok m /\ archived l' turnID m /\
      (oc_Appended o = false -> l' = l)
  | Err _ => True
  end.

Lemma last_single (d : string) : List.last (map Some [d]) None = Some d.
Proof. done. Qed.

Lemma archiveTurn_spec wr turnID state w :
  wp (archiveTurn wr turnID state) (fun r w' => graph_of w' = graph_of w /\
    archive_post (wr_campaignID wr) turnID state (ledger_of w) (ledger_of w') r) w.
Proof.
  assert (Hstay : forall err (w' : W), same w w' -> graph_of w' = graph_of w /\
    archive_post (wr_campaignID wr) turnID state (ledger_of w) (ledger_of w') (Err err)).
  { intros err w' [Hg Hl]. split; [done|]. split; [by left|done]. }
  unfold archiveTurn. apply wp_lift_bind; [|intros; by apply Hstay]. intros subject Hsub.
  apply wp_lift_bind; [|intros; by apply Hstay]. intros m Hm.
  apply wp_bind. eapply wp_mono; [apply archive_spec|]. intros [u|err] w1 Hs1; [|by apply Hstay].
  apply wp_bind, wp_attempt. eapply wp_mono; [apply readManifest_spec|]. intros [existing|err] w2 [Hs2 Hr].
  - pose proof (same_trans _ _ _ Hs1 Hs2) as Hs. destruct (manifestDiff existing m) eqn:Hd; [by apply wp_throw, Hstay|].
    apply wp_ret. split; [apply Hs|]. split; [left; apply Hs|]. exists m. split; [done|]. split; [|intros _; apply Hs].
    exists subject, existing. rewrite (proj2 Hs). rewrite (proj2 Hs1) in Hr. done.
  - pose proof (same_trans _ _ _ Hs1 Hs2) as Hs. destruct (errors_Is ErrManifestNotFound err); cbn [negb]; [|by apply wp_throw, Hstay].
    specialize (Hr eq_refl). rewrite (proj2 Hs1) in Hr.
    apply wp_bind, wp_attempt. eapply wp_mono; [exact (marshal_message_spec W m w2)|]. intros encoded w3 [Hs3 Henc].
    pose proof (same_trans _ _ _ Hs Hs3) as Hsame. apply wp_lift_bind; [|intros; by apply Hstay]. intros body Hb.
    apply wrapf_ok in Hb. subst encoded.
    apply wp_bind, wp_attempt. eapply wp_mono; [exact (Publish_spec W subject body turnID w3)|]. intros published w4 [Hg4 Hl4].
    rewrite (proj2 Hsame) in Hl4. rewrite Hr in Hl4. cbn [app] in Hl4. assert (Hg : graph_of w4 = graph_of w) by (rewrite Hg4; apply Hsame).
    assert (Hadd : adds_record (ledger_of w) (ledger_of w4)).
    { destruct Hl4 as [Hl4|[Hl4 _]]; [right; by exists subject, body|by left]. }
    apply wp_lift_bind; [|intros; by split]. intros [] Hp. apply wrapf_ok in Hp. subst published.
    destruct Hl4 as [Hl4|[_ Hne]]; [|by destruct (Hne eq_refl)]. apply wp_ret. split; [done|]. split; [done|].
    exists m. split; [done|]. split; [|done]. destruct (Henc ltac:(by apply Compose_valid in Hm)) as (m' & Hdec & Hv & Hdiff).
    exists subject, m'. split_and!; [done| |done]. exists body. rewrite Hl4, entries_insert, decide_True by done. done.
Qed.

Lemma adds_run l l' : adds_record l l' -> rtc adds_record l l'.
Proof. apply rtc_once. Qed.

(** The turn of the graph is on the archive as the graph tells it. *)
Definition turn_archived (campaignID : string) (g : graph) (l : ledger) (turnEntityID : string) : Prop :=
  exists turnID e m, ledger_turnIDOf turnEntityID = Ok turnID /\ g !! turnEntityID = Some e /\
    Compose turnID (Some e) campaignID = Ok m /\ archived l turnID m.

Lemma Append_spec wr id w :
  wp (Append wr id) (fun r w' => graph_of w' = graph_of w /\ adds_record (ledger_of w) (ledger_of w') /\
    match r with
    | Ok o => turn_archived (wr_campaignID wr) (graph_of w) (ledger_of w') id /\ (oc_Appended o = false -> ledger_of w' = ledger_of w)
    | Err _ => True
    end) w.
Proof.
  unfold Append. apply wp_lift_bind; [|intros; split; [done|]; split; [by left|done]]. intros turnID Hid.
  apply wp_bind, wp_attempt. pose proof (GetEntity_ledger W id w) as Hl. pose proof (GetEntity_spec id w) as Hg.
  unfold wp in Hg |- * at 1. destruct (GetEntity id w) as [r w1]. cbn [fst snd] in *. destruct Hg as [Hg Hr].
  apply wp_lift_bind; [|intros; split; [done|]; split; [by left|done]]. intros e He. apply wrapf_ok in He. subst r.
  eapply wp_mono; [apply archiveTurn_spec|]. intros r w2 [Hg2 [Hadd Ho]]. rewrite Hl in Hadd, Ho.
  split; [congruence|]. split; [done|]. destruct r as [o|]; [|done]. destruct Ho as (m & Hm & Ha & Hf).
  split; [|done]. by exists turnID, e, m.
Qed.

Lemma Ledger_Handle_spec wr decoded w :
  wp (Ledger_Handle wr decoded) (fun r w' => graph_of w' = graph_of w /\ adds_record (ledger_of w) (ledger_of w') /\
    match r with
    | Ok _ => exists event, ParseResolvedEvent decoded = Ok event /\
        turn_archived (wr_campaignID wr) (graph_of w) (ledger_of w') (re_TurnEntityID event)
    | Err _ => True
    end) w.
Proof.
  unfold Ledger_Handle. destruct (ParseResolvedEvent decoded) as [event|err]; [|apply wp_throw; split; [done|]; split; [by left|done]].
  apply wp_bind, wp_attempt. eapply wp_mono; [apply Append_spec|]. intros r w1 (Hg & Hadd & Ho).
  apply wp_lift_bind; [|intros; by split]. intros o Hr. apply wrapf_ok in Hr. subst r. apply wp_ret.
  split; [done|]. split; [done|]. exists event. split; [done|]. apply Ho.
Qed.

(** ** A whole pass *)

(** A scanned turn was dealt with: it is in flight, or on the archive. *)
Definition dealt_with (campaignID : string) (l : ledger) (state : EntityState) : Prop :=
  exists turnID phase, ledger_turnIDOf (ID state) = Ok turnID /\ ledger_recordedPhase state = Ok phase /\
    (IsTerminal phase = true -> exists m, Compose turnID (Some state) campaignID = Ok m /\ archived l turnID m).

Lemma dealt_run campaignID l l' state : rtc adds_record l l' -> dealt_with campaignID l state -> dealt_with campaignID l' state.
Proof.
  intros Hrun (turnID & phase & Hid & Hp & Ht). exists turnID, phase. split_and!; [done..|].
  intros Hterm. destruct (Ht Hterm) as (m & Hm & Ha). exists m. split; [done|]. by eapply archived_run.
Qed.

(** Every scanned turn is counted once. *)
Definition balanced (r : LedgerReconciliation) : Prop :=
  l_Scanned r = l_Archived r + l_AlreadyArchived r + l_InFlight r + Z.of_nat (List.length (l_Failures r)).

(** What reconciling some turns does: records are added, each turn is counted,
    and when no failure was added, each was dealt with. *)
Definition pass_post (campaignID : string) (states : list EntityState) (report : LedgerReconciliation)
    (w : W) (r : res LedgerReconciliation) (w' : W) : Prop :=
  graph_of w' = graph_of w /\ rtc adds_record (ledger_of w) (ledger_of w') /\
  exists report', r = Ok report' /\
    l_Scanned report' = l_Scanned report + Z.of_nat (List.length states) /\ (balanced report -> balanced report') /\
    (exists more, l_Failures report' = l_Failures report ++ more /\
       (more = [] -> Forall (dealt_with campaignID (ledger_of w')) states)).

Lemma ledger_reconcileTurn_spec wr state report w :
  wp (ledger_reconcileTurn wr state report) (pass_post (wr_campaignID wr) [state] report w) w.
Proof.
  destruct report as [s a k i f]. unfold ledger_reconcileTurn.
  assert (Hfail : forall err w', graph_of w' = graph_of w -> rtc adds_record (ledger_of w) (ledger_of w') ->
    pass_post (wr_campaignID wr) [state] (mkLedgerReconciliation s a k i f) w
      (Ok (mkLedgerReconciliation (s + 1) a k i (f ++ [{| tf_TurnEntityID := ID state; tf_Err := err |}]))) w').
  { intros err w' Hg Hl. split; [done|]. split; [done|]. eexists. split; [done|]. unfold balanced. cbn.
    split; [done|]. split; [rewrite length_app; cbn; lia|]. eexists. split; [done|]. discriminate. }
  destruct (ledger_turnIDOf (ID state)) as [turnID|err] eqn:Hid; [|apply wp_ret, Hfail; [done|apply rtc_refl]].
  destruct (ledger_recordedPhase state) as [phase|err] eqn:Hp; [|apply wp_ret, Hfail; [done|apply rtc_refl]].
  assert (Hok : forall report' w', graph_of w' = graph_of w -> rtc adds_record (ledger_of w) (ledger_of w') ->
    l_Scanned report' = s + 1 -> l_Failures report' = f ->
    (l_Archived report' + l_AlreadyArchived report' + l_InFlight report' = a + k + i + 1) ->
    dealt_with (wr_campaignID wr) (ledger_of w') state ->
    pass_post (wr_campaignID wr) [state] (mkLedgerReconciliation s a k i f) w (Ok report') w').
  { intros report' w' Hg Hl Hs Hf Hsum Hd. split; [done|]. split; [done|]. exists report'. split; [done|].
    unfold balanced. cbn. split; [lia|]. split; [rewrite Hf; lia|]. exists []. rewrite app_nil_r. split; [done|].
    intros _. by constructor. }
  destruct (IsTerminal phase) eqn:Hterm; cbn [negb].
  - apply wp_bind, wp_attempt. eapply wp_mono; [apply archiveTurn_spec|]. intros [o|err] w1 [Hg [Hadd Ho]].
    + destruct Ho as (m & Hm & Ha & _).
      assert (Hd : dealt_with (wr_campaignID wr) (ledger_of w1) state) by (exists turnID, phase; split_and!; [done..|]; intros _; by exists m).
      destruct (oc_Appended o); apply wp_ret, Hok; cbn; try done; try lia; by apply adds_run.
    + apply wp_ret, Hfail; [done|by apply adds_run].
  - apply wp_ret, Hok; cbn; [done|apply rtc_refl|done|done|lia|]. exists turnID, phase. split_and!; [done..|congruence].
Qed.

Lemma ledger_entities_spec wr states report w :
  wp (ledger_reconcile_entities wr states report) (pass_post (wr_campaignID wr) states report w) w.
Proof.
  revert report w. induction states as [|state rest IH]; intros report w; cbn [ledger_reconcile_entities].
  { apply wp_ret. split; [done|]. split; [apply rtc_refl|]. exists report. split; [done|]. cbn. split; [lia|].
    split; [done|]. exists []. rewrite app_nil_r. by split. }
  apply wp_bind. eapply wp_mono; [apply ledger_reconcileTurn_spec|]. intros r w1 (Hg & Hl & report1 & -> & Hs & Hb & more & Hf & Hd).
  eapply wp_mono; [apply IH|]. intros r w2 (Hg2 & Hl2 & report2 & -> & Hs2 & Hb2 & more2 & Hf2 & Hd2).
  split; [congruence|]. split; [by etrans|]. exists report2. split; [done|]. cbn [List.length] in *. split; [lia|]. split; [auto|].
  exists (more ++ more2). split; [by rewrite Hf2, Hf, app_assoc|]. intros [-> ->]%app_eq_nil.
  specialize (Hd eq_refl). apply Forall_cons in Hd as [Hd _]. constructor; [|by apply Hd2]. by eapply dealt_run.
Qed.
End writer.

(** The pages of a prefix: what is still to be read from a cursor on, which
    from the first cursor is every entity under the prefix. *)
Class PrefixListing (W : Type) : Type := { remaining : graph -> string -> string -> list EntityState }.

Class PrefixLaws (W : Type) `{HasGraph W, HasLedger W, PrefixReader W, PrefixListing W} : Prop := {
  EntitiesWithPrefix_spec prefix cursor limit w : wp (EntitiesWithPrefix prefix cursor limit) (fun r w' => same w w' /\
    match r with
    | Ok page => remaining (graph_of w) prefix cursor =
        pg_Entities page ++ (if String.eqb (pg_NextCursor page) EmptyString then []
                             else remaining (graph_of w) prefix (pg_NextCursor page))
    | Err _ => True
    end) w;
  remaining_all g prefix id e : g !! id = Some e -> HasPrefix id prefix = true -> e ∈ remaining g prefix EmptyString
}.

Section pass.
Context {W : Type} `{Substrate, HasGraph W, HasLedger W, GraphStore W, Clock W, PrefixReader W, LedgerStream W, ManifestEnvelope W, Codec TurnManifest, PrefixListing W}.
Context `{!GraphStoreLaws W, !LedgerLaws W, !PrefixLaws W}.
Implicit Types (w : W).

(** A pass: records are added, every turn is counted, and a clean one has dealt
    with all that was left from its cursor. *)
Definition pages_post wr cursor (report : LedgerReconciliation) (w : W) (r : res (LedgerReconciliation * option error)) (w' : W) : Prop :=
  graph_of w' = graph_of w /\ rtc adds_record (ledger_of w) (ledger_of w') /\
  exists report' err more, r = Ok (report', err) /\ (balanced report -> balanced report') /\
    l_Failures report' = l_Failures report ++ more /\
    (err = None -> l_Failures report' = [] /\ exists states, l_Scanned report' = l_Scanned report + Z.of_nat (List.length states) /\
       states = remaining (graph_of w) (wr_turnPrefix wr) cursor /\ Forall (dealt_with (wr_campaignID wr) (ledger_of w')) states).

Lemma ledger_pages_spec wr pages cursor report w :
  wp (ledger_reconcile_pages wr pages cursor report) (pages_post wr cursor report w) w.
Proof.
  revert cursor report w. induction pages as [|pages IH]; intros cursor report w; cbn [ledger_reconcile_pages].
  { apply wp_ret. split; [done|]. split; [apply rtc_refl|]. eexists _, _, []. rewrite app_nil_r. done. }
  apply wp_bind, wp_attempt. eapply wp_mono; [exact (EntitiesWithPrefix_spec (wr_turnPrefix wr) cursor (wr_pageLimit wr) w)|].
  intros [page|err] w1 [[Hg Hl] Hpage].
  2: { apply wp_ret. split; [done|]. rewrite Hl. split; [apply rtc_refl|]. eexists _, _, []. rewrite app_nil_r. done. }
  apply wp_bind. eapply wp_mono; [apply ledger_entities_spec|]. intros r w2 (Hg2 & Hl2 & report1 & -> & Hs & Hb & more & Hf & Hd).
  rewrite Hg in Hg2. rewrite Hl in Hl2. destruct (String.eqb (pg_NextCursor page) EmptyString) eqn:Hend.
  - apply wp_ret. split; [done|]. split; [done|]. eexists _, _, more. split; [done|]. split; [done|]. split; [done|].
    destruct (l_Failures report1) eqn:Hnone; [|done]. intros _. split; [done|]. symmetry in Hf. apply app_eq_nil in Hf as [_ ->].
    exists (pg_Entities page). rewrite Hpage, app_nil_r. split_and!; [done|done|by apply Hd].
  - destruct (String.eqb (pg_NextCursor page) cursor).
    { apply wp_ret. split; [done|]. split; [done|]. eexists _, _, more. by split. }
    eapply wp_mono; [apply IH|]. intros r w3 (Hg3 & Hl3 & report2 & err & more2 & -> & Hb2 & Hf2 & Hclean).
    split; [congruence|]. split; [by etrans|]. exists report2, err, (more ++ more2). split; [done|]. split; [auto|].
    split; [by rewrite Hf2, Hf, app_assoc|]. intros Herr. destruct (Hclean Herr) as (Hnone & states & Hs2 & Hst & Hdealt).
    split; [done|]. exists (pg_Entities page ++ states). rewrite length_app. split; [lia|]. rewrite Hpage, Hst, Hg2. split; [done|].
    apply Forall_app. split; [|by rewrite <- Hg2, <- Hst].
    rewrite Hf2, Hf in Hnone. apply app_eq_nil in Hnone as [Hnone _]. apply app_eq_nil in Hnone as [_ ->].
    eapply Forall_impl; [by apply Hd|]. intros state Hw. by eapply dealt_run.
Qed.

Lemma Ledger_Reconcile_spec wr w : wp (Ledger_Reconcile wr) (pages_post wr EmptyString empty_ledger_report w) w.
Proof. apply ledger_pages_spec. Qed.

(** A call of the writer, with whatever the stores answer. *)
Inductive ledger_call (wr : Writer) : W -> W -> Prop :=
| call_handle decoded w : ledger_call wr w (Ledger_Handle wr decoded w).2
| call_reconcile w : ledger_call wr w (Ledger_Reconcile wr w).2
| call_elsewhere w w' : ledger_of w' = ledger_of w -> ledger_call wr w w'.

Lemma call_adds wr w w' : ledger_call wr w w' -> rtc adds_record (ledger_of w) (ledger_of w').
Proof.
  intros [decoded w0|w0|w0 w1 Heq].
  - apply adds_run. exact (proj1 (proj2 (Ledger_Handle_spec wr decoded w0))).
  - exact (proj1 (proj2 (Ledger_Reconcile_spec wr w0))).
  - rewrite Heq. apply rtc_refl.
Qed.

Lemma calls_add wr w w' : rtc (ledger_call wr) w w' -> rtc adds_record (ledger_of w) (ledger_of w').
Proof. induction 1 as [|w1 w2 w3 Hc _ IH]; [apply rtc_refl|]. etrans; [by eapply call_adds|exact IH]. Qed.

(** C28: a turn is archived once. Whatever notifications arrive, however often
    the graph is reconciled, whatever the stores and the broker answer and
    whatever happens elsewhere in between, no turn's subject ever holds two
    records, and a record once there never changes. *)
Theorem turns_are_archived_once wr w w' (Hcalls : rtc (ledger_call wr) w w') (Hone : one_each (ledger_of w)) :
  one_each (ledger_of w') /\
  (forall subject, entries (ledger_of w) subject <> [] -> entries (ledger_of w') subject = entries (ledger_of w) subject) /\
  (forall turnID m, archived (ledger_of w) turnID m -> archived (ledger_of w') turnID m).
Proof.
  pose proof (calls_add _ _ _ Hcalls) as Hrun. split; [by eapply run_one_each|].
  split; [intros subject; by apply run_keeps|]. intros turnID m. by apply archived_run.
Qed.

(** An acknowledged turn is on the archive as the graph tells it. Handling a
    notification leaves the graph alone and adds at most one record; when it
    returns without an error the event named a turn of the graph, which
    composes a valid manifest, and the turn's subject holds a record that
    decodes to one that encodes alike. *)
Theorem acknowledged_turn_is_archived wr decoded w r w' (Hrun : Ledger_Handle wr decoded w = (r, w')) :
  graph_of w' = graph_of w /\ adds_record (ledger_of w) (ledger_of w') /\
  (r = Ok tt -> exists event, ParseResolvedEvent decoded = Ok event /\
     turn_archived (wr_campaignID wr) (graph_of w) (ledger_of w') (re_TurnEntityID event)).
Proof.
  destruct (wp_elim _ _ _ _ _ (Ledger_Handle_spec wr decoded w) Hrun) as (Hg & Hadd & Ho).
  split; [done|]. split; [done|]. by intros ->.
Qed.

(** A clean reconciliation leaves no resolved turn behind. The pass always
    returns its report, writes nothing to the graph, only adds records, and
    counts every turn it scanned once; and when it reports no error there is no
    failure, and every entity under the campaign's turn prefix is a turn that
    is in flight or on the archive with the manifest its entity composes. *)
Theorem clean_reconciliation_archives_every_turn wr w r w' (Hrun : Ledger_Reconcile wr w = (r, w')) :
  graph_of w' = graph_of w /\ rtc adds_record (ledger_of w) (ledger_of w') /\
  exists report err, r = Ok (report, err) /\ balanced report /\
    (err = None -> l_Failures report = [] /\
       forall id e, graph_of w !! id = Some e -> HasPrefix id (wr_turnPrefix wr) = true ->
         dealt_with (wr_campaignID wr) (ledger_of w') e).
Proof.
  destruct (wp_elim _ _ _ _ _ (Ledger_Reconcile_spec wr w) Hrun) as (Hg & Hl & report & err & more & -> & Hb & _ & Hclean).
  split; [done|]. split; [done|]. exists report, err. split; [done|]. split; [by apply Hb|].
  intros Herr. destruct (Hclean Herr) as (Hnone & states & _ & -> & Hdealt). split; [done|].
  intros id e He Hp. rewrite Forall_forall in Hdealt. apply Hdealt. by apply (remaining_all _ _ id).
Qed.
End pass.

(** ** Replaying *)

Section replay.
Context {W : Type} `{Substrate, ArtifactReader W, Codec RollResult}.
Implicit Types (w : W) (seeds : ReplaySeeds W).

(** A call whose answer is remembered. *)
Lemma wp_call {A B} (m : MW W A) (k : res A -> MW W B) (Q : res B -> W -> Prop) w :
  (forall r w', m w = (r, w') -> wp (k r) Q w') -> wp (r ← attempt m; k r) Q w.
Proof. intros Hk. apply wp_bind, wp_attempt. unfold wp at 1. destruct (m w) as [r w'] eqn:Hm. by apply Hk. Qed.

(** The roll comes out of its inputs again, byte for byte. *)
Definition reproduces seeds (m : TurnManifest) (verdict : Verdict) (roll again : RollResult) : Prop :=
  exists spec seed bytes (w1 w2 : W),
    MechanicSpecFor (r_Mechanic roll) = Ok spec /\ rs_LoadSeed seeds w1 = (Ok seed, w2) /\
    Roll spec seed (m_CampaignID m) (m_TurnID m) (v_Modifiers verdict) = Ok again /\
    Marshal roll = Ok bytes /\ Marshal again = Ok bytes.

Lemma identicalRolls_ok a b u : identicalRolls a b = Ok u -> exists bytes, Marshal a = Ok bytes /\ Marshal b = Ok bytes.
Proof.
  unfold identicalRolls. intros Hi. apply result_bind_ok in Hi as (x & Hx & Hi). apply result_bind_ok in Hi as (y & Hy & Hi).
  apply wrapf_ok in Hx, Hy. apply require_ok, String.eqb_eq in Hi. subst y. by exists x.
Qed.

Lemma replay_verdict_spec m w : wp (replay_verdict m) (fun r _ =>
  match r with
  | Ok (Some verdict) => v_TurnID verdict = m_TurnID m
  | Ok None => m_VerdictRef m = EmptyString
  | Err _ => True
  end) w.
Proof.
  unfold replay_verdict. destruct (String.eqb_spec (m_VerdictRef m) EmptyString) as [He|]; [by apply wp_ret|].
  apply wp_lift_bind; [|done]. intros ref _. apply wp_call. intros r w1 _. apply wp_lift_bind; [|done]. intros verdict _.
  destruct (String.eqb_spec (v_TurnID verdict) (m_TurnID m)) as [Ht|]; cbn [negb]; [by apply wp_ret|by apply wp_throw].
Qed.

Lemma replayRoll_spec seeds m verdict w : wp (replayRoll seeds m verdict) (fun r _ =>
  match r with
  | Ok (Some (roll, again)) => m_RollRef m <> EmptyString /\ r_TurnID roll = m_TurnID m /\
      exists v, verdict = Some v /\ v_RequiresRoll (v_Scalars v) = true /\ reproduces seeds m v roll again
  | Ok None => m_RollRef m = EmptyString /\ forall v, verdict = Some v -> v_RequiresRoll (v_Scalars v) = false
  | Err _ => True
  end) w.
Proof.
  unfold replayRoll. destruct (String.eqb_spec (m_RollRef m) EmptyString) as [He|Hne].
  { destruct verdict as [v|]; [|by apply wp_ret]. destruct (v_RequiresRoll (v_Scalars v)) eqn:Hreq; [by apply wp_throw|].
    apply wp_ret. split; [done|]. by intros v' [= <-]. }
  destruct verdict as [v|]; [|by apply wp_throw]. destruct (v_RequiresRoll (v_Scalars v)) eqn:Hreq; cbn [negb]; [|by apply wp_throw].
  apply wp_lift_bind; [|done]. intros ref _. apply wp_call. intros r w1 _. apply wp_lift_bind; [|done]. intros recorded _.
  destruct (String.eqb_spec (r_TurnID recorded) (m_TurnID m)) as [Ht|]; cbn [negb]; [|by apply wp_throw].
  destruct (String.eqb_spec (ss_CampaignID (r_Seed recorded)) (m_CampaignID m)) as [Hc|]; cbn [negb]; [|by apply wp_throw].
  destruct (negb _); [by apply wp_throw|]. destruct (NewRoller (r_Mechanic recorded)) as [spec|] eqn:Hspec; [|by apply wp_throw].
  apply wp_call. intros loaded w2 Hload. apply wp_lift_bind; [|done]. intros seed Hseed. apply wrapf_ok in Hseed. subst loaded.
  apply wp_lift_bind; [|done]. intros again Hroll. apply wrapf_ok in Hroll.
  destruct (identicalRolls recorded again) as [u|] eqn:Hid; [|by apply wp_throw]. apply wp_ret.
  split; [done|]. split; [done|]. exists v. split; [done|]. split; [done|]. destruct (identicalRolls_ok _ _ _ Hid) as (bytes & ? & ?).
  rewrite Hc in Hroll. by exists spec, seed, bytes, w1, w2.
Qed.

(** The narration is the turn's and voices the band it resolved to. *)
Definition voices (m : TurnManifest) (roll : option RollResult) (narration : Narration) : Prop :=
  n_TurnID narration = m_TurnID m /\
  n_Band narration = match roll with Some roll => r_Band roll | None => BandAuto end.

Lemma readNarration_spec m roll w : wp (readNarration m roll) (fun r _ =>
  match r with Ok (Some n) => voices m roll n | Ok None => m_NarrationRef m = EmptyString | Err _ => True end) w.
Proof.
  unfold readNarration. destruct (String.eqb_spec (m_NarrationRef m) EmptyString) as [He|Hne]; [by apply wp_ret|].
  apply wp_lift_bind; [|done]. intros ref _. apply wp_call. intros r w1 _. apply wp_lift_bind; [|done]. intros n _.
  destruct (String.eqb_spec (n_TurnID n) (m_TurnID m)) as [Ht|]; cbn [negb]; [|by apply wp_throw].
  apply wp_lift_bind; [|done]. intros [] Hb. apply require_ok, String.eqb_eq in Hb. apply wp_ret. by split.
Qed.

(** C29: a replay is honest. What a replay returns is of a valid manifest of the
    reader's campaign; a roll is in it exactly when the manifest names one, and
    then it came out again, byte for byte, from the campaign's seed, the turn
    and the archived verdict's modifiers - a record tampered with is refused;
    no roll is passed over that the verdict called for; and the narration is the
    turn's own and voices the band the dice, or their absence, decided. *)
Theorem replay_is_honest seeds m w rp w' (Hrun : Reader_Replay seeds (Some m) w = (Ok rp, w')) :
  rp_Manifest rp = m /\ TurnManifest_Validate m = Ok tt /\ m_CampaignID m = rs_CampaignID seeds /\
  match rp_Roll rp, rp_Reproduced rp with
  | Some roll, Some again => m_RollRef m <> EmptyString /\ r_TurnID roll = m_TurnID m /\
      exists v, rp_Verdict rp = Some v /\ v_RequiresRoll (v_Scalars v) = true /\ reproduces seeds m v roll again
  | None, None => m_RollRef m = EmptyString /\ forall v, rp_Verdict rp = Some v -> v_RequiresRoll (v_Scalars v) = false
  | _, _ => False
  end /\
  (forall n, rp_Narration rp = Some n -> voices m (rp_Roll rp) n).
Proof.
  assert (Hwp : wp (Reader_Replay seeds (Some m)) (fun r _ => forall rp, r = Ok rp ->
    rp_Manifest rp = m /\ TurnManifest_Validate m = Ok tt /\ m_CampaignID m = rs_CampaignID seeds /\
    match rp_Roll rp, rp_Reproduced rp with
    | Some roll, Some again => m_RollRef m <> EmptyString /\ r_TurnID roll = m_TurnID m /\
        exists v, rp_Verdict rp = Some v /\ v_RequiresRoll (v_Scalars v) = true /\ reproduces seeds m v roll again
    | None, None => m_RollRef m = EmptyString /\ forall v, rp_Verdict rp = Some v -> v_RequiresRoll (v_Scalars v) = false
    | _, _ => False
    end /\ (forall n, rp_Narration rp = Some n -> voices m (rp_Roll rp) n)) w).
  2: { pose proof (wp_elim _ _ _ _ _ Hwp Hrun) as Hp. by apply Hp. }
  unfold Reader_Replay. apply wp_lift_bind; [|done]. intros [] Hv. apply wrapf_ok in Hv.
  destruct (String.eqb_spec (m_CampaignID m) (rs_CampaignID seeds)) as [Hc|]; cbn [negb]; [|by apply wp_throw].
  apply wp_bind. eapply wp_mono; [apply replay_verdict_spec|]. intros [verdict|] w1 _; [|done].
  apply wp_bind. eapply wp_mono; [apply replayRoll_spec|]. intros [rolls|] w2 Hrolls; [|done].
  apply wp_bind. eapply wp_mono; [apply readNarration_spec|]. intros [told|] w3 Htold; [|done].
  apply wp_ret. intros ? [= <-]. cbn [rp_Manifest rp_Roll rp_Reproduced rp_Verdict rp_Narration].
  split; [done|]. split; [done|]. split; [done|]. split; [by destruct rolls as [[roll again]|]|]. intros n0 Hn0. by rewrite Hn0 in Htold.
Qed.

(** A reference names an artifact that every read answers with. *)
Definition resolves {A} (get : Ref -> MW W A) (text : string) (a : A) : Prop :=
  String.eqb text EmptyString = false /\ exists ref, ParseRef text = Ok ref /\ forall w, (get ref w).1 = Ok a.

(** An archived turn whose artifacts are the ones its stages recorded: the
    verdict called for the dice, the roll is what the roller made of the
    campaign's seed, the turn and the verdict's modifiers, and the narration
    voices its band. *)
Record told_by seeds (m : TurnManifest) (verdict : Verdict) (roll : RollResult) (narration : Narration) : Prop := {
  told_valid : TurnManifest_Validate m = Ok tt;
  told_campaign : m_CampaignID m = rs_CampaignID seeds;
  told_verdict : resolves archived_GetVerdict (m_VerdictRef m) verdict;
  told_roll : resolves archived_GetRoll (m_RollRef m) roll;
  told_narration : resolves archived_GetNarration (m_NarrationRef m) narration;
  told_turn : v_TurnID verdict = m_TurnID m;
  told_dice : v_RequiresRoll (v_Scalars verdict) = true;
  told_rolled : exists mechanic spec seed, NewRoller mechanic = Ok spec /\ (forall w, (rs_LoadSeed seeds w).1 = Ok seed) /\
    Roll spec seed (m_CampaignID m) (m_TurnID m) (v_Modifiers verdict) = Ok roll;
  told_voice : voices m (Some roll) narration
}.

(** A call that always answers alike. *)
Lemma wp_answer {A B} (m : MW W A) (k : res A -> MW W B) (Q : res B -> W -> Prop) w a :
  (forall w, (m w).1 = a) -> (forall w', wp (k a) Q w') -> wp (r ← attempt m; k r) Q w.
Proof. intros Ha Hk. apply wp_call. intros r w' Hm. assert (r = a) as -> by (rewrite <- (Ha w); by rewrite Hm). apply Hk. Qed.

Lemma told_verdict_read seeds m verdict roll narration w : told_by seeds m verdict roll narration ->
  wp (replay_verdict m) (fun r _ => r = Ok (Some verdict)) w.
Proof.
  intros [_ _ (Hne & ref & Hp & Hg) _ _ Ht _ _ _]. unfold replay_verdict. rewrite Hne, Hp.
  change (lift (wrapf _ (Ok ref))) with (lift (W := W) (Ok ref : res Ref)). apply wp_bind, wp_lift.
  eapply wp_answer; [exact Hg|]. intros w'. apply wp_bind, wp_lift. cbn [wrapf]. rewrite Ht, String.eqb_refl. by apply wp_ret.
Qed.

Lemma told_roll_again seeds m verdict roll narration w : told_by seeds m verdict roll narration -> is_ok (Marshal roll) = true ->
  wp (replayRoll seeds m (Some verdict)) (fun r _ => r = Ok (Some (roll, roll))) w.
Proof.
  intros [_ _ _ (Hne & ref & Hp & Hg) _ _ Hd (mechanic & spec & seed & Hspec & Hseed & Hroll) _] Henc.
  pose proof (Roll_shape _ _ _ _ _ _ Hroll) as [Hshape _]. destruct (mechanic_rows _ _ Hspec) as [Hname _].
  assert (Hfields : r_TurnID roll = m_TurnID m /\ ss_CampaignID (r_Seed roll) = m_CampaignID m /\
    r_RNGVersion roll = RNGVersion /\ r_Mechanic roll = mechanic).
  { rewrite Hshape. unfold rolled. destruct (Dice.roll spec _). cbn. by rewrite Hname. }
  destruct Hfields as (Ht & Hc & Hv & Hmech).
  unfold replayRoll. rewrite Hne, Hd, Hp. cbn [negb].
  apply wp_bind, wp_lift. cbn [wrapf]. eapply wp_answer; [exact Hg|]. intros w1. apply wp_bind, wp_lift. cbn [wrapf].
  rewrite Ht, Hc, Hv, Hmech, Hspec, !String.eqb_refl. cbn [negb]. eapply wp_answer; [exact Hseed|]. intros w2.
  apply wp_bind, wp_lift. cbn [wrapf]. apply wp_bind, wp_lift. rewrite Hroll. cbn [wrapf].
  unfold identicalRolls. destruct (Marshal roll) as [bytes|]; [|done]. cbn [wrapf mbind result_bind].
  unfold require. rewrite String.eqb_refl. by apply wp_ret.
Qed.

Lemma told_narration_read seeds m verdict roll narration w : told_by seeds m verdict roll narration ->
  wp (readNarration m (Some roll)) (fun r _ => r = Ok (Some narration)) w.
Proof.
  intros [_ _ _ _ (Hne & ref & Hp & Hg) _ _ _ [Ht Hb]]. unfold readNarration. rewrite Hne, Hp.
  apply wp_bind, wp_lift. cbn [wrapf]. eapply wp_answer; [exact Hg|]. intros w1. apply wp_bind, wp_lift. cbn [wrapf].
  rewrite Ht, String.eqb_refl. cbn [negb]. apply wp_bind, wp_lift. unfold checkBand, require. rewrite Hb, String.eqb_refl.
  by apply wp_ret.
Qed.

(** What the dice stage rolled replays. When the archived artifacts are the
    ones the stages recorded, replaying the manifest succeeds: it returns the
    recorded verdict, roll and narration, and the dice come out the same. *)
Theorem recorded_turns_replay seeds m verdict roll narration w
    (Htold : told_by seeds m verdict roll narration) (Henc : is_ok (Marshal roll) = true) :
  (Reader_Replay seeds (Some m) w).1 =
    Ok {| rp_Manifest := m; rp_Verdict := Some verdict; rp_Roll := Some roll; rp_Reproduced := Some roll;
          rp_Narration := Some narration |}.
Proof.
  assert (Hwp : wp (Reader_Replay seeds (Some m)) (fun r _ => r = Ok {| rp_Manifest := m; rp_Verdict := Some verdict;
    rp_Roll := Some roll; rp_Reproduced := Some roll; rp_Narration := Some narration |}) w); [|exact Hwp].
  unfold Reader_Replay. apply wp_bind, wp_lift. rewrite (told_valid _ _ _ _ _ Htold). cbn [wrapf].
  rewrite (told_campaign _ _ _ _ _ Htold), String.eqb_refl. cbn [negb].
  apply wp_bind. eapply wp_mono; [by eapply told_verdict_read|]. intros r1 w1 ->.
  apply wp_bind. eapply wp_mono; [by eapply told_roll_again|]. intros r2 w2 ->. cbn [option_map fst snd].
  apply wp_bind. eapply wp_mono; [by eapply told_narration_read|]. intros r3 w3 ->. by apply wp_ret.
Qed.

(** A turn that failed before its dice does not replay. A failed turn of the
    reader's campaign with an archived verdict that called for the dice and no
    roll is refused by every replay, although its manifest is valid and it has
    nothing to re-execute. *)
Theorem failed_before_the_dice_does_not_replay seeds m verdict w
    (Hvalid : TurnManifest_Validate m = Ok tt) (Hcampaign : m_CampaignID m = rs_CampaignID seeds)
    (Hphase : m_Phase m = PhaseFailed) (Hroll : m_RollRef m = EmptyString)
    (Hverdict : resolves archived_GetVerdict (m_VerdictRef m) verdict)
    (Hturn : v_TurnID verdict = m_TurnID m) (Hdice : v_RequiresRoll (v_Scalars verdict) = true) :
  (Reader_Replay seeds (Some m) w).1 =
    Err (Errorf "turn archived a verdict that called for the dice and no roll reference" []).
Proof.
  destruct Hverdict as (Hne & ref & Href & Hget).
  assert (Hwp : wp (Reader_Replay seeds (Some m)) (fun r _ => r =
    Err (Errorf "turn archived a verdict that called for the dice and no roll reference" [])) w); [|exact Hwp].
  unfold Reader_Replay. apply wp_bind, wp_lift. rewrite Hvalid. cbn [wrapf]. rewrite Hcampaign, String.eqb_refl. cbn [negb].
  apply wp_bind. unfold replay_verdict. rewrite Hne, Href. apply wp_bind, wp_lift. cbn [wrapf].
  eapply wp_answer; [exact Hget|]. intros w1. apply wp_bind, wp_lift. cbn [wrapf]. rewrite Hturn, String.eqb_refl. cbn [negb].
  apply wp_ret. apply wp_bind. unfold replayRoll. rewrite Hroll, Hdice. by apply wp_throw.
Qed.
End replay.

(** ** One archive *)

Module LedgerDemo.
(** The in-memory world with a stream that always answers. *)
Record LWorld : Type := mkLWorld { lw : World; lw_ledger : ledger; lw_held : bool }.

Definition inside {A} (m : MW World A) : MW LWorld A := fun w =>
  let '(r, w1) := m (lw w) in (r, mkLWorld w1 (lw_ledger w) (lw_held w)).

#[export] Instance lw_graph : HasGraph LWorld := {| graph_of w := graph_of (lw w) |}.
#[export] Instance lw_holds : HasLedger LWorld := {| ledger_of := lw_ledger |}.
#[export] Instance lw_clock : Clock LWorld := {|
  now w := let '(t, w1) := now (lw w) in (t, mkLWorld w1 (lw_ledger w) (lw_held w)) |}.
#[export] Instance lw_store : GraphStore LWorld := {|
  CreateEntity c e := inside (CreateEntity c e); GetEntity id := inside (GetEntity id);
  Reconcile t id desired := inside (Reconcile t id desired) |}.

Lemma wp_inside {A} (m : MW World A) (Q : res A -> LWorld -> Prop) w :
  wp m (fun r w1 => Q r (mkLWorld w1 (lw_ledger w) (lw_held w))) (lw w) -> wp (inside m) Q w.
Proof. unfold wp, inside. by destruct (m (lw w)). Qed.

#[export] Instance lw_store_laws : GraphStoreLaws LWorld.
Proof.
  split.
  - intros id w. apply wp_inside. exact (GetEntity_spec id (lw w)).
  - intros t id d w. apply wp_inside. exact (Reconcile_spec t id d (lw w)).
  - intros c e w. apply wp_inside. exact (CreateEntity_spec c e (lw w)).
  - intros w. pose proof (now_spec (lw w)) as Hs. unfold now at 1, lw_clock. by destruct (now (lw w)).
Qed.

Definition campaign_id : string := "acme.semmachina.barrow.case.campaign.main".
Definition verdict_ref : string := "obj://content/turn/turn-a1/verdict".
Definition roll_ref : string := "obj://content/turn/turn-a1/roll".
Definition narration_ref : string := "obj://content/turn/turn-a1/narration".

(** A turn that ran to its end. *)
Definition ended_turn : EntityState :=
  with_triples (Demo.bare Demo.turn_id)
    [Demo.string_triple Demo.turn_id TurnPhaseCurrent PhaseComplete;
     Demo.string_triple Demo.turn_id TurnActionPlayer Demo.player_id;
     Demo.string_triple Demo.turn_id TurnActionScene "acme.semmachina.barrow.case.scene.hall";
     Demo.string_triple Demo.turn_id TurnActionRef "obj://content/turn/turn-a1/action";
     Demo.string_triple Demo.turn_id TurnVerdictRef verdict_ref;
     Demo.string_triple Demo.turn_id TurnRollRef roll_ref;
     Demo.string_triple Demo.turn_id TurnNarrationRef narration_ref;
     Demo.string_triple Demo.turn_id TurnVerdictPlausibility PlausibilityPlausible;
     Demo.string_triple Demo.turn_id TurnVerdictRisk RiskLow;
     {| Subject := Demo.turn_id; Predicate := TurnVerdictRequiresRoll; Object := ABool true; Source := "demo";
        Timestamp := 1; Confidence := float_one; Context_ := Demo.turn_id; Datatype := EmptyString; ExpiresAt := None |}].

Definition the_manifest : TurnManifest :=
  match Compose "turn-a1" (Some ended_turn) campaign_id with
  | Ok m => m
  | Err _ => mkTurnManifest EmptyString EmptyString EmptyString EmptyString EmptyString EmptyString EmptyString
               EmptyString EmptyString EmptyString EmptyString EmptyString None 0 0
  end.

Example the_turn_composes : Compose "turn-a1" (Some ended_turn) campaign_id = Ok the_manifest.
Proof. vm_compute. reflexivity. Qed.

#[export] Instance manifest_text : Codec TurnManifest := {|
  Marshal m := if decide (m_TurnID m = m_TurnID the_manifest) then Ok (m_Phase m) else Err (Errorf "another turn" []);
  Unmarshal _ := Ok the_manifest |}.

#[export] Instance manifest_envelope : ManifestEnvelope LWorld := {|
  marshal_message m := if decide (m_TurnID m = m_TurnID the_manifest /\ m_Phase m = m_Phase the_manifest)
                       then mret "manifest" else throw (Errorf "another turn" []);
  decode_message _ := Ok (Some the_manifest) |}.

#[export] Instance lw_stream : LedgerStream LWorld := {|
  EnsureStream := mret tt;
  GetLastMsgForSubject subject w :=
    (match List.last (map Some (entries (lw_ledger w) subject)) None with
     | Some data => Ok data
     | None => Err (Sentinel ErrMsgNotFound)
     end, w);
  PublishToStreamWithMsgID subject data id w :=
    (Ok tt, mkLWorld (lw w) (<[subject := entries (lw_ledger w) subject ++ [data]]> (lw_ledger w)) (lw_held w));
  stream_held _ w := lw_held w;
  hold_stream _ w := mkLWorld (lw w) (lw_ledger w) true |}.

Lemma last_none (l : list string) : List.last (map Some l) None = None -> l = [].
Proof.
  induction l as [|a [|b l] IH]; [done|done|]. intros Hl. change (List.last (map Some (b :: l)) None = None) in Hl.
  specialize (IH Hl). discriminate.
Qed.

#[export] Instance lw_laws : LedgerLaws LWorld.
Proof.
  split.
  - done.
  - done.
  - intros id w. change (ledger_of (inside (GetEntity id) w).2 = ledger_of w). unfold inside.
    by destruct ((GetEntity id : MW World EntityState) (lw w)).
  - intros subject w. unfold wp, GetLastMsgForSubject, lw_stream. cbn [fst snd]. split; [done|].
    destruct (List.last _ None) eqn:Hl; [done|]. split; [intros _; by apply last_none|reflexivity].
  - intros subject data id w. split; [done|by left].
  - intros m w. unfold wp, marshal_message, manifest_envelope. destruct (decide _) as [[Ht Hp]|]; [|done]. split; [done|].
    intros _. exists the_manifest. split; [done|]. split; [vm_compute; reflexivity|].
    unfold manifestDiff, Marshal, manifest_text. rewrite !decide_True by done. by rewrite Hp, String.eqb_refl.
  - done.
  - intros s err. unfold ValidateEntityID, mem_substrate, mem_ValidateEntityID, require. destruct (_ && _); [done|].
    intros [= <-]. apply errors_Is_Errorf.
  - intros s err. unfold ValidateEntityIDPrefix, mem_substrate, mem_ValidateEntityIDPrefix, require. destruct (_ && _); [done|].
    intros [= <-]. apply errors_Is_Errorf.
Qed.

Definition under (g : graph) (prefix : string) : list EntityState :=
  map snd (List.filter (fun kv => HasPrefix kv.1 prefix) (map_to_list g)).
#[export] Instance lw_pages : PrefixReader LWorld := {|
  EntitiesWithPrefix prefix _ _ w := (Ok {| pg_Entities := under (graph_of w) prefix; pg_NextCursor := EmptyString |}, w) |}.
#[export] Instance lw_listing : PrefixListing LWorld := {| remaining g prefix _ := under g prefix |}.
#[export] Instance lw_prefix_laws : PrefixLaws LWorld.
Proof.
  split.
  - intros prefix cursor limit w. split; [done|]. cbn. by rewrite app_nil_r.
  - intros g prefix id e He Hp. cbn. unfold under. apply list_elem_of_fmap. exists (id, e). split; [done|].
    apply list_elem_of_In, filter_In. split; [|done]. by apply list_elem_of_In, elem_of_map_to_list.
Qed.

Definition fresh : LWorld := mkLWorld (mkWorld {[ Demo.turn_id := ended_turn ]} 10 [] []) ∅ false.
Definition writer : Writer := {|
  wr_campaignID := campaign_id; wr_turnPrefix := "acme.semmachina.barrow.case.turn"; wr_heartbeat := 10; wr_pageLimit := 200 |}.
Definition resolved_event : rulePublication := {|
  EntityID_ := Demo.turn_id; Subject_ := "semmachina.turn.resolved"; Source_ := "rules"; Properties_ := ∅ |}.
Definition notified : LWorld := (Ledger_Handle writer (Ok resolved_event) fresh).2.
Definition swept : LWorld := (Ledger_Reconcile writer fresh).2.
End LedgerDemo.
Import LedgerDemo.

Example one_record_after_two_notifications :
  entries (ledger_of (Ledger_Handle writer (Ok resolved_event) notified).2) "semmachina.ledger.turn.turn-a1" = ["manifest"].
Proof. vm_compute. reflexivity. Qed.

Lemma turns_are_archived_once_witness :
  one_each (ledger_of notified) /\
  (forall turnID m, archived (ledger_of fresh) turnID m -> archived (ledger_of notified) turnID m).
Proof.
  destruct (turns_are_archived_once writer fresh notified) as (Hone & _ & Hk).
  - apply rtc_once. apply (call_handle writer (Ok resolved_event) fresh).
  - intros subject. unfold entries. change (ledger_of fresh) with (∅ : ledger). rewrite lookup_empty. cbn. lia.
  - split; [exact Hone|exact Hk].
Defined.

Lemma acknowledged_turn_is_archived_witness :
  exists event, ParseResolvedEvent (Ok resolved_event) = Ok event /\
    turn_archived campaign_id (graph_of fresh) (ledger_of notified) (re_TurnEntityID event).
Proof.
  refine (proj2 (proj2 (acknowledged_turn_is_archived writer (Ok resolved_event) fresh (Ok tt) notified _)) eq_refl).
  vm_compute. reflexivity.
Defined.

Lemma clean_reconciliation_archives_every_turn_witness :
  exists report err, (Ledger_Reconcile writer fresh).1 = Ok (report, err) /\ err = None /\ balanced report.
Proof.
  destruct (clean_reconciliation_archives_every_turn writer fresh (Ledger_Reconcile writer fresh).1 swept (surjective_pairing _))
    as (_ & _ & report & err & Hr & Hb & _).
  exists report, err. split; [exact Hr|]. split; [|exact Hb]. vm_compute in Hr. by injection Hr.
Defined.

(** ** One replay *)

Module ReplayDemo.
Definition roll : RollResult := rolled demo_spec (repeat 7 SeedBytes) campaign_id "turn-a1" [].
Definition narration : Narration := {| n_TurnID := "turn-a1"; n_Band := r_Band roll; n_Prose := "The hall creaks." |}.

#[export] Instance shelf : ArtifactReader World := {|
  archived_GetVerdict _ := mret demo_verdict; archived_GetRoll _ := mret roll; archived_GetNarration _ := mret narration |}.
#[export] Instance roll_text : Codec RollResult := {|
  Marshal r := Ok (r_TurnID r); Unmarshal _ := Ok roll |}.
Definition seeds : ReplaySeeds World := {| rs_CampaignID := campaign_id; rs_LoadSeed := mret (repeat 7 SeedBytes) |}.

Lemma the_roll : Roll demo_spec (repeat 7 SeedBytes) campaign_id "turn-a1" [] = Ok roll.
Proof. apply (Roll_total Mechanic2d6PbtaV1); vm_compute; reflexivity. Qed.

Lemma resolves_to {A} (get : Ref -> MW World A) text a :
  String.eqb text EmptyString = false -> is_ok (ParseRef text) = true -> (forall ref w, (get ref w).1 = Ok a) -> resolves get text a.
Proof. intros Hne Hok Hg. split; [done|]. destruct (ParseRef text) as [ref|]; [|done]. exists ref. by split. Qed.

Lemma the_turn_was_told : told_by seeds the_manifest demo_verdict roll narration.
Proof.
  split.
  - vm_compute. reflexivity.
  - vm_compute. reflexivity.
  - apply resolves_to; [vm_compute; reflexivity..|done].
  - apply resolves_to; [vm_compute; reflexivity..|done].
  - apply resolves_to; [vm_compute; reflexivity..|done].
  - vm_compute. reflexivity.
  - reflexivity.
  - exists Mechanic2d6PbtaV1, demo_spec, (repeat 7 SeedBytes). split; [vm_compute; reflexivity|]. split; [done|]. exact the_roll.
  - split; [vm_compute; reflexivity|reflexivity].
Qed.

(** The same turn, had it failed once its verdict had landed. *)
Definition failed_turn : TurnManifest :=
  let m := the_manifest in
  mkTurnManifest (m_TurnID m) (m_ActionID m) (m_CampaignID m) (m_SceneID m) (m_PlayerID m) PhaseFailed (m_ActionRef m)
    (m_VerdictRef m) EmptyString EmptyString EmptyString FailureTurnStranded (m_RollGate m) (m_RecordedAt m) 0.
End ReplayDemo.
Import ReplayDemo.

Definition replayed : Replay := {| rp_Manifest := the_manifest; rp_Verdict := Some demo_verdict; rp_Roll := Some ReplayDemo.roll;
  rp_Reproduced := Some ReplayDemo.roll; rp_Narration := Some narration |}.

Lemma recorded_turns_replay_witness : (Reader_Replay seeds (Some the_manifest) (lw fresh)).1 = Ok replayed.
Proof. exact (recorded_turns_replay seeds the_manifest demo_verdict ReplayDemo.roll narration (lw fresh) the_turn_was_told eq_refl). Defined.

Lemma failed_before_the_dice_does_not_replay_witness :
  TurnManifest_Validate failed_turn = Ok tt /\
  (Reader_Replay seeds (Some failed_turn) (lw fresh)).1 =
    Err (Errorf "turn archived a verdict that called for the dice and no roll reference" []).
Proof.
  split; [vm_compute; reflexivity|].
  apply (failed_before_the_dice_does_not_replay seeds failed_turn demo_verdict (lw fresh)).
  - vm_compute. reflexivity.
  - vm_compute. reflexivity.
  - reflexivity.
  - reflexivity.
  - apply resolves_to; [vm_compute; reflexivity..|done].
  - vm_compute. reflexivity.
  - reflexivity.
Defined.

Lemma replay_is_honest_witness :
  m_CampaignID the_manifest = rs_CampaignID seeds /\ voices the_manifest (Some ReplayDemo.roll) narration.
Proof.
  destruct (replay_is_honest seeds the_manifest (lw fresh) replayed (Reader_Replay seeds (Some the_manifest) (lw fresh)).2)
    as (_ & _ & Hc & _ & Hn).
  - refine (pair_of (Reader_Replay seeds (Some the_manifest) (lw fresh)) (Ok replayed) _). vm_compute. reflexivity.
  - split; [exact Hc|]. by apply Hn.
Defined.
