(* ===== verification/PersonaSpec.v ===== *)
(** What the personas' exits come to: a tool that lets the loop stop has put its
    artifact on the turn, the names of the tasks tell the spawns apart, the
    schemas are closed, and the explanation of a persona that never exited fits
    the stored budget - or does not. *)

From stdpp Require Import relations.
From S2P Require Import Prelude GoStd GoHash GoErrors Graph Vocab Vocabulary Payload Mechanics Decisions ContentRecords ContentStore ProjectionContract Store Sequencing GraphIO Turn Persona MemStore TurnSpec TurnTheorems StageSpec.

Open Scope Z_scope.

(** ** The names of tasks *)

Lemma contains_char_app_sep c a b : contains_char c (a +:+ String c b) = true.
Proof. rewrite contains_char_app. cbn. rewrite Ascii.eqb_refl. by rewrite orb_true_r. Qed.

(** A text after the last separator, and what stands before it. *)
Lemma last_separator c a b x y :
  contains_char c x = false -> contains_char c y = false -> a +:+ String c x = b +:+ String c y -> a = b /\ x = y.
Proof.
  intros Hx Hy. revert b. induction a as [|ca a IH]; intros [|cb b]; cbn; intros [= He].
  - done.
  - subst. by rewrite contains_char_app_sep in Hx.
  - subst. by rewrite contains_char_app_sep in Hy.
  - destruct (IH _ H0) as [-> ->]. by subst.
Qed.

Lemma app_inj_r a b s : a +:+ s = b +:+ s -> a = b.
Proof.
  intros He. assert (Hl : String.length a = String.length b).
  { apply (f_equal len) in He. rewrite !len_app in He. unfold len in He. lia. }
  revert b Hl He. induction a as [|c a IH]; intros [|c' b]; cbn; try done. intros [= Hl] [= -> He].
  by rewrite (IH b).
Qed.

Lemma pretty_N_char_no_slash n : pretty.pretty_N_char n <> "/"%char.
Proof. unfold pretty.pretty_N_char. repeat case_match; discriminate. Qed.

Lemma pretty_N_go_no_slash n : forall s, contains_char "/" s = false -> contains_char "/" (pretty.pretty_N_go n s) = false.
Proof.
  induction (N.lt_wf_0 n) as [n _ IH]. intros s Hs.
  destruct (decide (n = 0)%N) as [->|Hn]; [by rewrite pretty.pretty_N_go_0|].
  rewrite pretty.pretty_N_go_step by lia. apply IH; [apply N.div_lt; lia|]. cbn [contains_char].
  rewrite Hs, orb_false_r. apply Ascii.eqb_neq, not_eq_sym, pretty_N_char_no_slash.
Qed.

Lemma Itoa_no_slash z : contains_char "/" (Itoa z) = false.
Proof.
  assert (Hn : forall n : N, contains_char "/" (pretty n) = false).
  { intros n. unfold pretty, pretty.pretty_N. destruct (decide _); [reflexivity|]. by apply pretty_N_go_no_slash. }
  unfold Itoa, pretty, pretty.pretty_Z. destruct z as [|p|p]; [done|apply (Hn (Npos p))|]. cbn. apply (Hn (Npos p)).
Qed.

(** Which spawn a task is: of which persona, for which turn, which attempt. *)
Definition spawn_of (s : Spec) (request : TaskRequest) : string * string * Z :=
  (sp_Role s, pi_TurnID (rq_Identity request), rq_ResumeAttempt request).

Lemma task_id_inj role role' turn turn' a a' :
  role ∈ map sp_Role Specs -> role' ∈ map sp_Role Specs -> 0 <= a -> 0 <= a' ->
  task_id role turn a = task_id role' turn' a' -> role = role' /\ turn = turn' /\ a = a'.
Proof.
  intros Hr Hr' Ha Ha'. unfold task_id.
  assert (Hresume : forall s t n, s +:+ "/" +:+ t +:+ "/resume/" +:+ Itoa n = (s +:+ "/" +:+ t +:+ "/resume") +:+ String "/" (Itoa n)).
  { intros s t n. by rewrite <- !string_app_assoc. }
  rewrite !Hresume. unfold Specs in Hr, Hr'. cbn [map] in Hr, Hr'.
  destruct (Z.ltb_spec 0 a), (Z.ltb_spec 0 a').
  - intros [He Hn]%last_separator; [|apply Itoa_no_slash..]. apply pretty.pretty_Z_inj in Hn as ->.
    rewrite !(string_app_assoc _ "/"), !string_app_assoc in He. apply app_inj_r in He.
    set_unfold. destruct_or!; subst; cbn in He; try discriminate He; simplify_eq; done.
  - rewrite <- Hresume. intros He. set_unfold. destruct_or!; subst; cbn in He; discriminate He.
  - rewrite <- Hresume. intros He. set_unfold. destruct_or!; subst; cbn in He; discriminate He.
  - intros He. assert (a = 0) as -> by lia. assert (a' = 0) as -> by lia.
    set_unfold. destruct_or!; subst; cbn in He; try discriminate He; simplify_eq; done.
Qed.

(** A task's name is its spawn's. Two tasks the personas' specifications
    build carry the same identifier - which is what the broker drops a repeated
    publication by - exactly when they are of the same persona, for the same
    turn, at the same resume attempt. *)
Theorem task_ids_name_spawns `{Substrate, AgenticRules, TaskRules} (s s' : Spec) (request request' : TaskRequest)
    (task task' : TaskMessage) (Hs : s ∈ Specs) (Hs' : s' ∈ Specs)
    (Htask : Task s request = Ok task) (Htask' : Task s' request' = Ok task') :
  tm_TaskID task = tm_TaskID task' <-> spawn_of s request = spawn_of s' request'.
Proof.
  assert (Hid : forall s r t, Task s r = Ok t ->
    tm_TaskID t = task_id (sp_Role s) (pi_TurnID (rq_Identity r)) (rq_ResumeAttempt r) /\ 0 <= rq_ResumeAttempt r).
  { intros x r t Ht. unfold Task in Ht. apply result_bind_ok in Ht as (? & _ & Ht).
    apply result_bind_ok in Ht as (? & _ & Ht). apply result_bind_ok in Ht as (? & Ha & Ht).
    apply result_bind_ok in Ht as (? & _ & Ht). apply result_bind_ok in Ht as (? & _ & Ht).
    apply result_bind_ok in Ht as (? & _ & Ht). apply result_bind_ok in Ht as (? & _ & [= <-]).
    split; [done|]. apply require_ok, negb_true_iff, Z.ltb_ge in Ha. done. }
  destruct (Hid _ _ _ Htask) as [-> Ha], (Hid _ _ _ Htask') as [-> Ha']. unfold spawn_of. split.
  - intros He. apply task_id_inj in He as (-> & -> & ->); try done; by apply list_elem_of_fmap_2.
  - by intros [= -> -> ->].
Qed.

(** ** Exits *)

Lemma Verdict_Triples_ok `{Substrate} v id ref source at_ ts :
  Verdict_Triples v id ref source at_ = Ok ts ->
  objects_of TurnVerdictRef (map (fun t => (Predicate t, Object t)) ts) = [AString ref].
Proof. intros (-> & _)%build_ok. reflexivity. Qed.

Lemma TurnNarration_Triples_ok `{Substrate} n id source at_ ts :
  TurnNarration_Triples n id source at_ = Ok ts ->
  objects_of TurnNarrationRef (map (fun t => (Predicate t, Object t)) ts) = [AString (tn_NarrationRef n)].
Proof. intros (-> & _)%build_ok. reflexivity. Qed.

Lemma CaseDecisionRecord_Triples_ok `{Substrate} r id ref source at_ ts :
  CaseDecisionRecord_Triples r id ref source at_ = Ok ts ->
  objects_of TurnCaseDecisionRef (map (fun t => (Predicate t, Object t)) ts) = [AString ref].
Proof.
  unfold CaseDecisionRecord_Triples. intros (-> & _)%build_ok.
  destruct (String.eqb _ _); [reflexivity|]. destruct (cdr_Decision r); reflexivity.
Qed.

(** Storing an artifact leaves the graph alone. *)
Class PersonaArtifactsLaws (W : Type) `{HasGraph W, PersonaArtifacts W} : Prop := {
  persona_PutVerdict_graph turn verdict w : graph_of (persona_PutVerdict turn verdict w).2 = graph_of w;
  persona_PutNarration_graph turn narration w : graph_of (persona_PutNarration turn narration w).2 = graph_of w;
  persona_PutCaseDecisionRecord_graph turn record w :
    graph_of (persona_PutCaseDecisionRecord turn record w).2 = graph_of w;
  persona_PutFailureDetail_graph turn detail w : graph_of (persona_PutFailureDetail turn detail w).2 = graph_of w
}.

(** The graph as it was, or after one write of the group on the turn. *)
Definition one_write (target : Target) (turn : string) (g g' : graph) : Prop :=
  g' = g \/ exists ts, reconcile_effect target turn ts g g'.

(** How a call of a terminal tool comes out: the loop stops, and the reference
    the turn carries is the one the artifact was stored at; the persona is told to
    correct itself and nothing was written; or the call failed, and the loop does
    not stop. *)
Inductive exit_outcome (target : Target) (turn predicate : string) (stored_as : Ref -> Prop) (g g' : graph) : Executed -> Prop :=
| exit_done result ref :
    tr_StopLoop result = true -> tr_ErrorKind result = None -> stored_as ref ->
    one_write target turn g g' -> objects_in g' turn predicate = Some [AString (Ref_String ref)] ->
    exit_outcome target turn predicate stored_as g g' (result, None)
| exit_correctable result :
    tr_StopLoop result = false -> tr_ErrorKind result = Some ToolErrorInvalidArgs -> g' = g ->
    exit_outcome target turn predicate stored_as g g' (result, None)
| exit_failed result err :
    tr_StopLoop result = false -> one_write target turn g g' ->
    exit_outcome target turn predicate stored_as g g' (result, Some err).

Section exits.
Context {W : Type} `{Substrate, HasGraph W, GraphStore W, Clock W, PersonaArtifacts W}.
Context `{!GraphStoreLaws W, !PersonaArtifactsLaws W}.
Context `{Codec Verdict, Codec Narration, Codec CaseDecisionRecord}.
Implicit Types (w : W).

(** A call answered without a write. *)
Lemma exit_unwritten {A} (call : ToolCall A) target turn predicate stored_as kind err w :
  kind <> ToolErrorInvalidArgs ->
  exit_outcome target turn predicate stored_as (graph_of w) (graph_of w) (tool_failed call kind, Some err).
Proof. intros Hk. apply exit_failed; [done|by left]. Qed.

Lemma exit_corrected {A} (call : ToolCall A) target turn predicate stored_as w :
  exit_outcome target turn predicate stored_as (graph_of w) (graph_of w) (correctable call).
Proof. by apply exit_correctable. Qed.

Lemma commit_artifact_spec {A B} `{Codec B} (call : ToolCall A) turn (artifact : B) stored triples_of target m1 m2 m3 m4
    metadata predicate (stored_as : Ref -> Prop) w :
  (forall w, graph_of (stored w).2 = graph_of w) -> (forall ref w1, stored w = (Ok ref, w1) -> stored_as ref) ->
  predicate ∈ Predicates target ->
  (forall ref at_ ts, triples_of ref at_ = Ok ts ->
    objects_of predicate (map (fun t => (Predicate t, Object t)) ts) = [AString (Ref_String ref)]) ->
  wp (commit_artifact call turn artifact stored triples_of target m1 m2 m3 m4 metadata) (fun r w' =>
    exists ex, r = Ok ex /\ exit_outcome target turn predicate stored_as (graph_of w) (graph_of w') ex) w.
Proof.
  intros Hq Hstored Hp Hts. unfold commit_artifact. apply wp_bind, wp_attempt. unfold wp at 1.
  specialize (Hq w). destruct (stored w) as [[ref|err] w1] eqn:Hput; cbn [fst snd] in Hq |- *.
  2: { apply wp_ret. eexists. split; [done|]. rewrite Hq. by apply exit_failed; [|left]. }
  apply wp_clock. intros t w2 Hw2. rewrite Hq in Hw2. destruct (triples_of ref t) as [ts|err] eqn:Ets.
  2: { apply wp_ret. eexists. split; [done|]. rewrite Hw2. by apply exit_failed; [|left]. }
  apply wp_bind, wp_attempt. eapply wp_mono; [apply Reconcile_spec|]. intros [e|err] w3 Hr; apply wp_ret.
  - destruct Hr as [He _]. rewrite Hw2 in He. eexists. split; [done|].
    destruct (metadata ref) as [md|]; [|apply exit_failed; [done|right; by exists ts]].
    destruct (Marshal artifact); [|apply exit_failed; [done|right; by exists ts]].
    apply (exit_done _ _ _ _ _ _ _ ref); [done..|by eapply Hstored|right; by exists ts|].
    exact (reconcile_single _ _ _ _ _ _ _ He Hp (Hts _ _ _ Ets)).
  - eexists. split; [done|]. apply exit_failed; [done|]. rewrite Hw2 in Hr.
    destruct Hr as [->|He]; [by left|right; by exists ts].
Qed.

(** The turn a call's metadata names. *)
Definition called_turn (metadata : Metadata) (identity : Metadata -> res PersonaIdentity) : string :=
  match identity metadata with Ok i => pi_TurnEntityID i | Err _ => EmptyString end.

(** Where a call's artifact was stored: the one artifact the call's own
    arguments and the identity the engine injected make, which is valid, handed
    to the store for that identity's turn, in the world the call was made in; the
    store answered the reference. *)
Definition verdict_stored (call : ToolCall verdictArgs) (w : W) (ref : Ref) : Prop :=
  exists i parsed w', IdentityFrom (call_Metadata call) = Ok i /\ parseVerdictArgs call = Ok parsed /\
    Verdict_Validate (verdict_of parsed i) = Ok tt /\
    persona_PutVerdict (pi_TurnEntityID i) (verdict_of parsed i) w = (Ok ref, w').

Definition narration_stored (call : ToolCall narrationArgs) (w : W) (ref : Ref) : Prop :=
  exists i band args w', IdentityFrom (call_Metadata call) = Ok i /\ BandFrom (call_Metadata call) = Ok band /\
    decodeStrict call = Ok args /\
    let narration := {| n_TurnID := pi_TurnID i; n_Band := band; n_Prose := na_Prose args |} in
    Narration_Validate narration = Ok tt /\ persona_PutNarration (pi_TurnEntityID i) narration w = (Ok ref, w').

Definition case_decision_stored (call : ToolCall caseDecisionArgs) (w : W) (ref : Ref) : Prop :=
  exists i args w', CaseIdentityFrom (call_Metadata call) = Ok i /\ decodeStrict call = Ok args /\
    CaseDecisionRecord_Validate (case_record args i) = Ok tt /\
    persona_PutCaseDecisionRecord (pi_TurnEntityID i) (case_record args i) w = (Ok ref, w').

(** C27: a persona's loop only stops on an artifact the turn names. Whatever the
    model puts in a call of one of the three terminal tools and whatever the
    stores do, the executor answers. When the answer stops the loop, the store
    was handed - for the turn the engine injected, in the world of the call - the
    valid verdict, narration or decision that the call's arguments and the
    injected identity make, and the one reference the turn now carries is the one
    the store answered. A call the model may correct has written nothing, a
    failed one does not stop the loop, and nothing but the tool's own group of
    that turn is ever written on the graph. *)
Theorem exits_land_their_artifact (vcall : ToolCall verdictArgs) (ncall : ToolCall narrationArgs)
    (ccall : ToolCall caseDecisionArgs) w :
  wp (Verdict_Execute vcall) (fun r w' => exists ex, r = Ok ex /\
    exit_outcome TurnVerdict (called_turn (call_Metadata vcall) IdentityFrom) TurnVerdictRef
      (verdict_stored vcall w) (graph_of w) (graph_of w') ex) w /\
  wp (Narration_Execute ncall) (fun r w' => exists ex, r = Ok ex /\
    exit_outcome TurnNarration (called_turn (call_Metadata ncall) IdentityFrom) TurnNarrationRef
      (narration_stored ncall w) (graph_of w) (graph_of w') ex) w /\
  wp (CaseDecision_Execute ccall) (fun r w' => exists ex, r = Ok ex /\
    exit_outcome TurnCaseDecision (called_turn (call_Metadata ccall) CaseIdentityFrom) TurnCaseDecisionRef
      (case_decision_stored ccall w) (graph_of w) (graph_of w') ex) w.
Proof.
  assert (Hstop : forall (A : Type) (call : ToolCall A) target turn predicate stored_as ex w,
    exit_outcome target turn predicate stored_as (graph_of w) (graph_of w) ex ->
    wp (mret ex : MW W Executed) (fun r w' => exists ex, r = Ok ex /\
      exit_outcome target turn predicate stored_as (graph_of w) (graph_of w') ex) w).
  { intros A call target turn predicate stored_as ex w0 Hex. apply wp_ret. by exists ex. }
  split_and!.
  - unfold Verdict_Execute, called_turn. destruct (String.eqb _ VerdictToolName); cbn [negb].
    2: { by apply (Hstop _ vcall), exit_unwritten. }
    destruct (IdentityFrom _) as [i|err] eqn:Hi; [|by apply (Hstop _ vcall), exit_unwritten].
    destruct (parseVerdictArgs vcall) as [parsed|err] eqn:Hp; [|apply (Hstop _ vcall), exit_corrected].
    destruct (Verdict_Validate (verdict_of parsed i)) as [[]|err] eqn:Hv; [|apply (Hstop _ vcall), exit_corrected].
    apply commit_artifact_spec; [intros; apply persona_PutVerdict_graph|intros ref w1 Hput; by exists i, parsed, w1|in_target|].
    intros ref at_ ts. apply Verdict_Triples_ok.
  - unfold Narration_Execute, called_turn. destruct (String.eqb _ NarrationToolName); cbn [negb].
    2: { by apply (Hstop _ ncall), exit_unwritten. }
    destruct (IdentityFrom _) as [i|err] eqn:Hi; [|by apply (Hstop _ ncall), exit_unwritten].
    destruct (BandFrom _) as [band|err] eqn:Hb; [|by apply (Hstop _ ncall), exit_unwritten].
    destruct (decodeStrict ncall) as [args|err] eqn:Hd; [|apply (Hstop _ ncall), exit_corrected].
    destruct (Narration_Validate _) as [[]|err] eqn:Hv; [|apply (Hstop _ ncall), exit_corrected].
    apply commit_artifact_spec; [intros; apply persona_PutNarration_graph|intros ref w1 Hput; by exists i, band, args, w1|in_target|].
    intros ref at_ ts. apply TurnNarration_Triples_ok.
  - unfold CaseDecision_Execute, called_turn. destruct (String.eqb _ CaseDecisionToolName); cbn [negb].
    2: { by apply (Hstop _ ccall), exit_unwritten. }
    destruct (CaseIdentityFrom _) as [i|err] eqn:Hi; [|by apply (Hstop _ ccall), exit_unwritten].
    destruct (decodeStrict ccall) as [args|err] eqn:Hd; [|apply (Hstop _ ccall), exit_corrected].
    destruct (CaseDecisionRecord_Validate _) as [[]|err] eqn:Hv; [|apply (Hstop _ ccall), exit_corrected].
    apply commit_artifact_spec; [intros; apply persona_PutCaseDecisionRecord_graph|intros ref w1 Hput; by exists i, args, w1|in_target|].
    intros ref at_ ts. apply CaseDecisionRecord_Triples_ok.
Qed.
End exits.

(** ** Examples *)

Module PersonaDemo.
Definition stored (kind : string) : Ref := {| Instance_ := "content"; Key := "turn/turn-a1/" +:+ kind |}.
#[export] Instance stores : PersonaArtifacts World := {|
  persona_PutVerdict _ _ := mret (stored "verdict");
  persona_PutNarration _ _ := mret (stored "narration");
  persona_PutCaseDecisionRecord _ _ := mret (stored "case-decision");
  persona_PutFailureDetail _ _ := mret (stored "failure") |}.
#[export] Instance stores_laws : PersonaArtifactsLaws World.
Proof. by split. Qed.
Definition text_codec (A : Type) : Codec A := {| Marshal _ := Ok "{}"%string; Unmarshal _ := Err (Errorf "no text" []) |}.
#[export] Instance verdict_text : Codec Verdict := text_codec Verdict.
#[export] Instance narration_text : Codec Narration := text_codec Narration.
#[export] Instance case_text : Codec CaseDecisionRecord := text_codec CaseDecisionRecord.
#[export] Instance rules : AgenticRules := {| ToolDefinition_Validate _ := Ok tt |}.
#[export] Instance task_rules : TaskRules := {| TaskMessage_Validate _ := Ok tt |}.

Definition identity : PersonaIdentity := {|
  pi_TurnID := "turn-a1"; pi_TurnEntityID := Demo.turn_id; pi_ActionID := "a1";
  pi_SceneID := "acme.semmachina.barrow.case.scene.hall"; pi_CaseID := EmptyString; pi_ActorID := EmptyString;
  pi_ContextRef := EmptyString; pi_PlayerID := EmptyString; pi_CompanionID := EmptyString; pi_BondID := EmptyString |}.
Definition injected : Metadata := <[MetadataKeyBand := AString BandFull]> (identity_metadata identity).

Definition tells : ToolCall narrationArgs := {|
  call_ID := "c1"; call_Name := NarrationToolName; call_Metadata := injected; call_Empty := false;
  call_Arguments := Ok {| na_Prose := "The hall is empty." |} |}.
Definition says_nothing : ToolCall verdictArgs := {|
  call_ID := "c2"; call_Name := VerdictToolName; call_Metadata := injected; call_Empty := true;
  call_Arguments := Err (Errorf "no arguments" []) |}.
Definition misrouted : ToolCall caseDecisionArgs := {|
  call_ID := "c3"; call_Name := VerdictToolName; call_Metadata := injected; call_Empty := true;
  call_Arguments := Err (Errorf "no arguments" []) |}.

Definition narrating : World := Demo.turn_world PhaseNarrating [].

Definition asked (spec : Spec) (attempt : Z) : TaskRequest := {|
  rq_Identity := identity; rq_ResumeAttempt := attempt; rq_Band := if sp_NeedsBand spec then BandFull else EmptyString;
  rq_Prompt := "Judge." |}.
Definition spawned (spec : Spec) (attempt : Z) : res TaskMessage := Task spec (asked spec attempt).
End PersonaDemo.
Import PersonaDemo.

Lemma task_ids_name_spawns_witness :
  exists t t', spawned Adjudicator 0 = Ok t /\ spawned Adjudicator 2 = Ok t' /\
    tm_TaskID t = "adjudicator-turn-a1"%string /\ tm_TaskID t' = "adjudicator/turn-a1/resume/2"%string /\
    (tm_TaskID t = tm_TaskID t' <-> spawn_of Adjudicator (asked Adjudicator 0) = spawn_of Adjudicator (asked Adjudicator 2)).
Proof.
  eexists _, _. split; [vm_compute; reflexivity|]. split; [vm_compute; reflexivity|]. split; [reflexivity|]. split; [reflexivity|].
  apply (task_ids_name_spawns Adjudicator Adjudicator (asked Adjudicator 0) (asked Adjudicator 2)).
  - apply list_elem_of_In. vm_compute. tauto.
  - apply list_elem_of_In. vm_compute. tauto.
  - vm_compute. reflexivity.
  - vm_compute. reflexivity.
Defined.

Lemma exits_land_their_artifact_witness :
  exists ex, (Narration_Execute tells narrating).1 = Ok ex /\ tr_StopLoop ex.1 = true /\
    exit_outcome TurnNarration Demo.turn_id TurnNarrationRef (narration_stored tells narrating)
      (graph_of narrating) (graph_of (Narration_Execute tells narrating).2) ex.
Proof.
  destruct (exits_land_their_artifact says_nothing tells misrouted narrating) as (_ & Hn & _).
  assert (Hrun : exists ex, (Narration_Execute tells narrating).1 = Ok ex /\ tr_StopLoop ex.1 = true)
    by (eexists; split; vm_compute; reflexivity).
  destruct Hrun as (ex & Hex & Hstop), Hn as (ex' & Hex' & Hout).
  rewrite Hex in Hex'. injection Hex' as <-. exists ex. split; [exact Hex|]. split; [exact Hstop|exact Hout].
Defined.

(** ** Lengths *)

Lemma len_string_of l : len (string_of l) = Z.of_nat (List.length l).
Proof. unfold len. induction l as [|b l IH]; [done|]. cbn [string_of String.length List.length]. lia. Qed.

Lemma bytes_of_substring k s : bytes_of (String.substring 0 k s) = take k (bytes_of s).
Proof. revert k. induction s as [|c s IH]; intros [|k]; cbn; try done. by rewrite IH. Qed.

Lemma truncateAtRune_le text n : (truncateAtRune text n <= n)%nat.
Proof. induction n as [|n IH]; cbn; [done|]. destruct (RuneStart _); lia. Qed.

Lemma len_substring k s : len (String.substring 0 k s) <= Z.of_nat k.
Proof. rewrite <- bytes_of_length, bytes_of_substring, length_take. lia. Qed.

(** What is clipped is within its budget, the marker included. *)
Lemma len_clip text limit : 0 <= limit -> len (clip text limit) <= limit.
Proof.
  intros Hl. unfold clip. destruct (Z.ltb_spec limit 0) as [?|_]; [lia|].
  destruct (Z.leb_spec (len text) limit); [done|]. rewrite len_app.
  pose proof (len_substring (truncateAtRune text (Z.to_nat (limit - len (if limit <? len elision then EmptyString else elision)))) text).
  pose proof (truncateAtRune_le text (Z.to_nat (limit - len (if limit <? len elision then EmptyString else elision)))).
  destruct (Z.ltb_spec limit (len elision)); cbn [len] in *; change (len EmptyString) with 0 in *; lia.
Qed.

Lemma len_pretty_N_go k n : forall s, (n < 10 ^ N.of_nat k)%N -> len (pretty.pretty_N_go n s) <= Z.of_nat k + len s.
Proof.
  revert n. induction k as [|k IH]; intros n s Hn.
  - assert (n = 0)%N as -> by (cbn in Hn; lia). by rewrite pretty.pretty_N_go_0.
  - destruct (decide (n = 0)%N) as [->|Hz]; [rewrite pretty.pretty_N_go_0; lia|].
    rewrite pretty.pretty_N_go_step by lia. etrans; [apply IH|].
    + apply N.Div0.div_lt_upper_bound. rewrite <- N.pow_succ_r', <- Nat2N.inj_succ. done.
    + unfold len. cbn [String.length]. rewrite !Nat2Z.inj_succ. lia.
Qed.

Lemma len_Itoa z : in_int64 z = true -> len (Itoa z) <= 20.
Proof.
  unfold in_int64, int64_min, int64_max. intros [Hlo%Z.leb_le Hhi%Z.leb_le]%andb_true_iff.
  assert (Hn : forall n : N, (n <= 2 ^ 63)%N -> len (pretty n) <= 19).
  { intros n Hn. unfold pretty, pretty.pretty_N. destruct (decide _); [vm_compute; discriminate|].
    etrans; [apply (len_pretty_N_go 19)|]; [|by vm_compute]. eapply N.le_lt_trans; [exact Hn|by vm_compute]. }
  unfold Itoa. destruct z as [|p|p]; [by vm_compute| |]; specialize (Hn (Npos p) ltac:(lia)).
  - change (pretty (Zpos p)) with (pretty (Npos p)). lia.
  - change (pretty (Zneg p)) with (String (Ascii.ascii_of_nat 45) (pretty (Npos p))).
    unfold len in *. cbn [String.length]. rewrite Nat2Z.inj_succ. lia.
Qed.

(** ** Quoting *)

Section quoting.
Context `{UnicodePrint}.

Definition plain_byte (b : Z) : bool := (32 <=? b) && (b <? 127) && negb (b =? 34) && negb (b =? 92).

(** Printable ASCII without a quote or a backslash quotes to itself. *)
Definition plain_text (s : string) : bool := forallb plain_byte (bytes_of s).

Lemma quote_plain l l' : forallb plain_byte l = true -> quote_bytes 0 (l ++ l') = l ++ quote_bytes 0 l'.
Proof.
  induction l as [|b l IH]; [done|]. cbn [forallb app quote_bytes]. intros [Hb Hl]%andb_true_iff.
  unfold plain_byte in Hb. rewrite !andb_true_iff, Z.leb_le, Z.ltb_lt, !negb_true_iff in Hb.
  destruct Hb as [[[H1 H2] H3] H4].
  destruct (Z.ltb_spec b 128); [|lia]. unfold escape_rune, IsPrint. rewrite H3, H4. cbn [orb].
  destruct (Z.leb_spec b 255); [|lia]. destruct (Z.leb_spec 32 b); [|lia]. destruct (Z.ltb_spec b 127); [|lia].
  cbn. by rewrite IH.
Qed.

Lemma forallb_take {A} (f : A -> bool) k l : forallb f l = true -> forallb f (take k l) = true.
Proof.
  revert k. induction l as [|x l IH]; intros [|k]; try done. cbn. intros [-> Hl]%andb_true_iff. by apply IH.
Qed.

Lemma quote_elision : Z.of_nat (List.length (quote_bytes 0 (bytes_of elision))) <= 18.
Proof.
  assert (He : quote_bytes 0 (bytes_of elision) =
    (if print_table 8230 then [226; 128; 166] else [92; 117; 50; 48; 50; 54]) ++ [32; 40; 116; 114; 117; 110; 99; 97; 116; 101; 100; 41])
    by (vm_compute; reflexivity).
  rewrite He, length_app. destruct (print_table 8230); vm_compute; discriminate.
Qed.

Lemma len_quote_clip text : plain_text text = true -> len (Quote (clip text MaxLoopReasonBytes)) <= 133.
Proof.
  intros Hp. unfold Quote. rewrite len_string_of, !length_app.
  assert (Hq : forall l, forallb plain_byte l = true -> quote_bytes 0 l = l).
  { intros l Hl. rewrite <- (app_nil_r l) at 1. rewrite (quote_plain l []) by done. cbn. apply app_nil_r. }
  pose proof (len_clip text MaxLoopReasonBytes ltac:(done)) as Hc.
  unfold clip in *. change (MaxLoopReasonBytes <? 0) with false in *. cbv iota in *.
  destruct (len text <=? MaxLoopReasonBytes).
  - rewrite Hq by done. pose proof (bytes_of_length text). cbn [List.length]. unfold MaxLoopReasonBytes in *. lia.
  - change (MaxLoopReasonBytes <? len elision) with false in *. cbv iota in *.
    rewrite bytes_of_app, bytes_of_substring, quote_plain by (by apply forallb_take).
    rewrite length_app, length_take. pose proof quote_elision.
    pose proof (truncateAtRune_le text (Z.to_nat (MaxLoopReasonBytes - len elision))) as Ht.
    change (Z.to_nat (MaxLoopReasonBytes - len elision)) with 113%nat in *. cbn [List.length]. lia.
Qed.

(** ** Explanations *)

Ltac literal_lengths :=
  repeat match goal with
  | |- context [len (String ?c ?s)] =>
      let n := eval vm_compute in (len (String c s)) in change (len (String c s)) with n
  end.

Lemma len_loop_fragments loopID lastError : len (loop_fragments loopID lastError) <= 3242.
Proof.
  unfold loop_fragments. rewrite len_app.
  pose proof (len_clip loopID MaxLoopIDBytes ltac:(done)). pose proof (len_clip lastError MaxLastErrorBytes ltac:(done)).
  unfold MaxLoopIDBytes, MaxLastErrorBytes in *.
  destruct (String.eqb loopID _), (String.eqb lastError _); rewrite ?len_app; literal_lengths;
    change (len EmptyString) with 0; lia.
Qed.

Lemma spec_lengths spec : spec ∈ Specs ->
  len (sp_Role spec) <= 11 /\ len (tool_Name (sp_Tool spec)) <= 25 /\ len (Itoa (sp_MaxIterations spec)) = 1 /\
  0 < len (sp_Role spec).
Proof.
  intros Hs. unfold Specs in Hs. set_unfold.
  destruct Hs as [->|[->|[->|[->|[]]]]]; (split_and!; [vm_compute; discriminate|vm_compute; discriminate|reflexivity|reflexivity]).
Qed.

Lemma is_ok_bind_false {A B} (r : res A) (f : A -> res B) :
  (forall x, is_ok (f x) = false) -> is_ok (x ← r; f x) = false.
Proof. intros Hf. destruct r; [apply Hf|done]. Qed.

(** The stored explanation of a persona that never exited fits its budget.
    Whatever loop identifier and last error the loop reports and however many
    iterations it counts, the explanation of an exhausted cap is within the
    bytes the content store accepts, and so is that of any other failure whose
    reason code is printable ASCII. *)
Theorem explanations_fit_the_budget (spec : Spec) (loopID reason lastError : string) (iterations : Z)
    (Hspec : spec ∈ Specs) (Hiter : in_int64 iterations = true) (Hreason : plain_text reason = true) :
  0 < len (cap_describe {| ce_Role := sp_Role spec; ce_LoopID := loopID; ce_Iterations := iterations;
                           ce_LastError := lastError |} spec) <= MaxFailureMessageBytes /\
  0 < len (loop_describe {| lf_Role := sp_Role spec; lf_LoopID := loopID; lf_Reason := reason;
                            lf_Iterations := iterations; lf_LastError := lastError |} spec) <= MaxFailureMessageBytes.
Proof.
  destruct (spec_lengths spec Hspec) as (Hrole & Htool & Hmax & Hpos).
  pose proof (len_loop_fragments loopID lastError). pose proof (len_nonneg (loop_fragments loopID lastError)).
  pose proof (len_Itoa _ Hiter). pose proof (len_nonneg (Itoa iterations)).
  pose proof (len_quote_clip reason Hreason). pose proof (len_nonneg (Quote (clip reason MaxLoopReasonBytes))).
  pose proof (len_nonneg (tool_Name (sp_Tool spec))).
  unfold cap_describe, loop_describe, MaxFailureMessageBytes. cbn [ce_Role ce_LoopID ce_Iterations ce_LastError
    lf_Role lf_LoopID lf_Reason lf_Iterations lf_LastError].
  rewrite !len_app, Hmax. literal_lengths. lia.
Qed.

(** A loop identifier and a last error at their budgets, and a reason of
    control characters. *)
Definition widest_failure (spec : Spec) : LoopFailure := {|
  lf_Role := sp_Role spec; lf_LoopID := string_of (repeat 76 128); lf_Reason := string_of (repeat 1 128);
  lf_Iterations := 1; lf_LastError := string_of (repeat 69 3072) |}.

(** An explanation the store must refuse. The reason code is clipped before
    it is quoted, and quoting a control character takes four bytes: for every
    persona there is a failure whose fragments are all within their budgets and
    whose explanation exceeds the stored one, so that the detail it is stored in
    is not valid, on whatever turn. *)
Theorem control_reason_overflows_the_budget `{Substrate} (spec : Spec) (turnID : string) (Hspec : spec ∈ Specs) :
  let f := widest_failure spec in
  len (lf_LoopID f) <= MaxLoopIDBytes /\ len (lf_Reason f) <= MaxLoopReasonBytes /\ len (lf_LastError f) <= MaxLastErrorBytes /\
  MaxFailureMessageBytes < len (loop_describe f spec) /\
  is_ok (FailureDetail_Validate {| fd_TurnID := turnID; fd_Reason := FailurePersonaLoopFailed;
           fd_Class := classifyLoopFailure (lf_Reason f); fd_AuthorizationReason := EmptyString;
           fd_Message := loop_describe f spec; fd_Target := EmptyString; fd_Committed := [] |}) = false.
Proof.
  cbv zeta. assert (Hlen : MaxFailureMessageBytes < len (loop_describe (widest_failure spec) spec)).
  { unfold Specs in Hspec. set_unfold. destruct Hspec as [->|[->|[->|[->|[]]]]]; vm_compute; reflexivity. }
  split_and!; [vm_compute; discriminate|vm_compute; discriminate|vm_compute; discriminate|exact Hlen|].
  unfold FailureDetail_Validate. apply Z.ltb_lt in Hlen.
  do 6 (apply is_ok_bind_false; intros _). cbn [fd_Message]. by rewrite Hlen.
Qed.
End quoting.

#[export] Instance ascii_print : UnicodePrint := {| print_table _ := true |}.

Lemma explanations_fit_the_budget_witness :
  0 < len (cap_describe {| ce_Role := RoleNarrator; ce_LoopID := "loop-1"; ce_Iterations := 2; ce_LastError := "refused" |} Narrator)
    <= MaxFailureMessageBytes /\
  0 < len (loop_describe {| lf_Role := RoleNarrator; lf_LoopID := "loop-1"; lf_Reason := "model_error"; lf_Iterations := 2;
                            lf_LastError := "refused" |} Narrator) <= MaxFailureMessageBytes.
Proof.
  apply (explanations_fit_the_budget Narrator "loop-1" "model_error" "refused" 2); [|reflexivity|reflexivity].
  unfold Specs. set_solver.
Defined.

Lemma control_reason_overflows_the_budget_witness :
  MaxFailureMessageBytes < len (loop_describe (widest_failure Adjudicator) Adjudicator).
Proof.
  assert (Hs : Adjudicator ∈ Specs) by (unfold Specs; set_solver).
  destruct (control_reason_overflows_the_budget Adjudicator "turn-a1" Hs) as (_ & _ & _ & Hlen & _). exact Hlen.
Defined.
