(* ===== verification/LoopFailureSpec.v ===== *)
(** What the loop-failure watcher promises: a persona loop that ended without
    exiting ends its turn before its event is acknowledged - and the companion's
    exhausted loop, whose event is never acknowledged. *)

From stdpp Require Import relations.
From S2P Require Import Prelude GoStd GoHash GoErrors Graph Vocab Vocabulary Payload Mechanics Decisions ContentRecords ContentStore ProjectionContract Store Sequencing GraphIO Turn Caseflow Knowledge Stage Scene Epistemic Persona Companion Spawn MemStore TurnSpec TurnTheorems StageSpec CaseflowSpec KnowledgeSpec PersonaSpec.

Open Scope Z_scope.

(** ** Errors that are not a lost explanation

    The watcher takes an error for the end of the turn when it carries a
    [DetailLostError]; the calls below never make one. *)

Definition plain {A} (r : res A) : Prop := forall e, r = Err e -> errors_As_b is_DetailLostError e = false.

Lemma As_existsb p e : errors_As_b p e = existsb p (chain e).
Proof. unfold errors_As_b, errors_As. induction (chain e) as [|x l IH]; [done|]. cbn. by destruct (p x). Qed.

Lemma As_wrapped p msg e : p (Errorf msg [e]) = false -> errors_As_b p (Errorf msg [e]) = errors_As_b p e.
Proof.
  intros Hp. unfold errors_As_b, errors_As. cbn [chain flat_map find]. rewrite Hp.
  by rewrite app_nil_r.
Qed.

Lemma plain_ok {A} (a : A) : plain (Ok a).
Proof. by intros e [=]. Qed.
Lemma plain_leaf {A} msg : plain (A := A) (Err (Errorf msg [])).
Proof. by intros e [= <-]. Qed.
Lemma plain_enum e s : plain (enum_parse e s).
Proof. unfold enum_parse. destruct (enum_valid e s); [apply plain_ok|]. by intros x [= <-]. Qed.
Lemma plain_bind {A B} (r : res A) (f : A -> res B) : plain r -> (forall a, plain (f a)) -> plain (x ← r; f x).
Proof. intros Hr Hf. destruct r as [a|e]; [apply Hf|]. intros x [= <-]. by apply Hr. Qed.
Lemma plain_wrapped {A B} msg (r : res A) e : plain r -> r = Err e -> plain (A := B) (Err (Errorf msg [e])).
Proof. intros Hr He x [= <-]. rewrite As_wrapped by done. by apply Hr. Qed.
Lemma plain_wrapf {A} msg (r : res A) : plain r -> plain (wrapf msg r).
Proof. intros Hr. destruct r as [a|e]; [apply plain_ok|]. by eapply plain_wrapped. Qed.
Lemma plain_record {A B} id (r : res A) e : plain r -> r = Err e -> plain (A := B) (Err (RecordError id e)).
Proof. intros Hr He x [= <-]. exact (Hr e He). Qed.
Lemma plain_unrecorded {A} id msg : plain (A := A) (Err (RecordError id (Errorf msg []))).
Proof. by intros e [= <-]. Qed.
Lemma plain_require c msg : plain (require c (Errorf msg [])).
Proof. destruct c; [apply plain_ok|apply plain_leaf]. Qed.
Lemma plain_all_ok {A} (f : A -> res unit) l : (forall x, plain (f x)) -> plain (all_ok f l).
Proof.
  intros Hf. induction l as [|x l IH]; [apply plain_ok|]. cbn. destruct (f x) eqn:E; [done|].
  intros e' [= <-]. by apply (Hf x).
Qed.

Create HintDb plain.
#[export] Hint Resolve plain_ok plain_leaf plain_unrecorded plain_enum plain_require : plain.

(** [plainly] walks a check; what it calls is closed by the database. *)
Ltac plainly :=
  repeat first
    [ solve [auto with plain]
    | apply plain_bind; [|intros ?]
    | apply plain_wrapf
    | apply plain_all_ok; intros ?
    | match goal with
      | E : ?r = Err ?e |- plain (Err (Errorf _ [?e])) => apply (plain_wrapped _ r e); [|exact E]
      | E : ?r = Err ?e |- plain (Err (RecordError _ ?e)) => apply (plain_record _ r e); [|exact E]
      | |- plain (match ?x with _ => _ end) => destruct x eqn:?
      | |- plain (let '(_, _) := ?x in _) => destruct x eqn:?
      end ].

(** ** Programs *)

Section plain_programs.
Context {W : Type}.
Implicit Types (w : W).

Definition plainM {A} (m : MW W A) : Prop := forall w, plain (m w).1.

Lemma plainM_ret {A} (a : A) : plainM (mret a).
Proof. intros w. apply plain_ok. Qed.
Lemma plainM_lift {A} (r : res A) : plain r -> plainM (lift r).
Proof. by intros Hr w. Qed.
Lemma plainM_throw {A} (e : error) : plain (A := A) (Err e) -> plainM (throw (A := A) e).
Proof. by intros He w. Qed.
Lemma plainM_bind {A B} (m : MW W A) (k : A -> MW W B) : plainM m -> (forall a, plainM (k a)) -> plainM (m ≫= k).
Proof.
  intros Hm Hk w. specialize (Hm w). unfold mbind, M_bind. destruct (m w) as [[a|e] w1]; cbn in *; [apply Hk|].
  intros x [= <-]. by apply Hm.
Qed.

(** A call whose error is handled by the caller. *)
Lemma plainM_call {A B} (m : MW W A) (k : res A -> MW W B) :
  plainM m -> (forall r, plain r -> plainM (k r)) -> plainM (r ← attempt m; k r).
Proof.
  intros Hm Hk w. specialize (Hm w). unfold mbind, M_bind, attempt. destruct (m w) as [r w1]; cbn in *.
  by apply Hk.
Qed.

End plain_programs.

#[export] Hint Resolve plainM_ret : plain.

Ltac plainly_run :=
  repeat first
    [ solve [auto with plain]
    | apply plainM_call; [|intros [?|?] ?]
    | apply plainM_bind; [|intros ?]
    | apply plainM_lift
    | apply plainM_throw
    | match goal with
      | Hr : plain (Err ?e) |- plain (Err (Errorf _ [?e])) => exact (plain_wrapped _ _ _ Hr eq_refl)
      | |- plainM (match ?x with _ => _ end) => destruct x eqn:?
      end ].

(** The substrate's own errors are plain, as are the store's. *)
Class PlainErrors (W : Type) `{Substrate, GraphStore W, PersonaArtifacts W} : Prop := {
  ValidateEntityID_plain s : plain (ValidateEntityID s);
  ValidateEntityIDPrefix_plain s : plain (ValidateEntityIDPrefix s);
  ParsePredicate_plain s : plain (ParsePredicate s);
  GetEntity_plain id (w : W) : plain (GetEntity id w).1;
  Reconcile_plain target id ts (w : W) : plain (Reconcile target id ts w).1;
  PutFailureDetail_plain turn detail (w : W) : plain (persona_PutFailureDetail turn detail w).1
}.

Section plain_checks.
Context {W : Type} `{Substrate, GraphStore W, Clock W, ActionStore W, PersonaArtifacts W, !PlainErrors W}.
Implicit Types (w : W).

Lemma plain_segment s : plain (ValidateIDSegment s).
Proof. unfold ValidateIDSegment. plainly. apply ValidateEntityIDPrefix_plain. Qed.
Lemma plain_requireIDSegment f s : plain (requireIDSegment f s).
Proof. apply plain_wrapf, plain_segment. Qed.
Lemma plain_requireEntityID f s : plain (requireEntityID f s).
Proof. unfold requireEntityID. plainly. apply ValidateEntityID_plain. Qed.
Lemma plain_requireNonEmpty f s : plain (requireNonEmpty f s).
Proof. unfold requireNonEmpty. plainly. Qed.
Lemma plain_storage f s : plain (RequireStorageRef f s).
Proof. unfold RequireStorageRef. plainly. Qed.
#[local] Hint Resolve plain_segment plain_requireIDSegment plain_requireEntityID plain_requireNonEmpty plain_storage : plain.

Lemma plain_RequireTurnEntityID a b : plain (RequireTurnEntityID a b).
Proof. unfold RequireTurnEntityID. plainly. Qed.
Lemma plain_object p o : plain (checkTripleObject p o).
Proof. unfold checkTripleObject. plainly. apply ParsePredicate_plain. Qed.
#[local] Hint Resolve plain_RequireTurnEntityID plain_object : plain.

Lemma plain_registered objects l seen : plain (checkRegistered objects l seen).
Proof. revert seen. induction l as [|p l IH]; intros seen; cbn; plainly. Qed.
#[local] Hint Resolve plain_registered : plain.

Lemma plain_scalars p l : plain (build_scalars p l).
Proof. induction l as [|q l IH]; cbn; plainly. Qed.
#[local] Hint Resolve plain_scalars : plain.

Lemma plain_build p : (forall v, p_payload p = Some v -> plain v) -> plain (build p).
Proof.
  intros Hp. unfold build. destruct (p_payload p) as [v|]; [|plainly]. specialize (Hp v eq_refl).
  unfold checkSubject, checkPredicateSet. plainly.
Qed.

Lemma plain_TurnState s id source at_ : plain (TurnState_Triples s id source at_).
Proof.
  apply plain_build. intros v. unfold TurnState_projection.
  destruct (String.eqb _ _); [|destruct (String.eqb _ _); [destruct (String.eqb _ _)|]]; cbn; intros [= <-];
    unfold TurnState_Validate, ParseTurnPhase, ParseFailureReason; plainly.
Qed.
Lemma plain_PlayerResolvedTurn p id source at_ : plain (PlayerResolvedTurn_Triples p id source at_).
Proof.
  apply plain_build. intros v. cbn. intros [= <-]. unfold PlayerResolvedTurn_Validate, PlayerTurn_Validate. plainly.
Qed.
Lemma plain_PhaseOf state id : plain (PhaseOf state id).
Proof. unfold PhaseOf, ParseTurnPhase. plainly. Qed.
Lemma plain_playerOf state id : plain (Turn.playerOf state id).
Proof. unfold Turn.playerOf. plainly. Qed.
Lemma plain_Ref r : plain (Ref_Validate r).
Proof. unfold Ref_Validate. plainly. Qed.
Lemma plain_identity i : plain (PersonaIdentity_Validate i).
Proof. unfold PersonaIdentity_Validate, persona_requireEntityID. plainly; apply ValidateEntityID_plain. Qed.
Lemma plain_SpecFor role : plain (SpecFor role).
Proof. unfold SpecFor. plainly. Qed.
Lemma plainM_get id : plainM (GetEntity id).
Proof. intros w. apply GetEntity_plain. Qed.
Lemma plainM_reconcile target id ts : plainM (Reconcile target id ts).
Proof. intros w. apply Reconcile_plain. Qed.
Lemma plainM_clock : plainM (read_clock (W := W)).
Proof. intros w. unfold read_clock. destruct (now w). apply plain_ok. Qed.

#[local] Hint Resolve plainM_get plainM_reconcile plainM_clock plain_RequireTurnEntityID plain_PhaseOf plain_playerOf
  plain_TurnState plain_PlayerResolvedTurn plain_Ref : plain.

Lemma plain_Fail turnID turn reason detail : plainM (Fail_ turnID turn reason detail).
Proof.
  unfold Fail_, transition, currentState, repairResolvedPointer, pointPlayerAtResolvedTurn, writeResolvedPointer,
    ParseFailureReason.
  plainly_run; plainly. by intros x [= <-].
Qed.
End plain_checks.

(** ** The watcher *)

Lemma joined_plain m m1 m2 e1 e2 : errors_As_b is_DetailLostError e1 = false -> errors_As_b is_DetailLostError e2 = false ->
  errors_As_b is_DetailLostError (Errorf m [Errorf m1 [e1]; Errorf m2 [e2]]) = false.
Proof.
  rewrite !As_existsb. intros H1 H2. cbn [chain flat_map existsb is_DetailLostError].
  rewrite !existsb_app. cbn [existsb is_DetailLostError chain flat_map]. by rewrite !app_nil_r, H1, H2.
Qed.

Section watcher.
Context {W : Type} `{Substrate, UnicodePrint, HasGraph W, GraphStore W, Clock W, ActionStore W, PersonaArtifacts W,
  PredicateReader W, CompanionArtifacts W, TransientErrors, Codec CompanionDecision, AgentStream W}.
Context `{!GraphStoreLaws W, !ActionStoreLaws W, !PersonaArtifactsLaws W, !PlainErrors W, !VocabularyLaws}.
Implicit Types (w : W).

(** What a recording comes to: FSM steps, and an answer the watcher reads as the
    end of the turn only when the turn is over. *)
Definition recorded (turn : string) (g g' : graph) {A} (r : res A) : Prop :=
  fsm_run g g' /\
  match r with
  | Ok _ => turn_over g' turn
  | Err err => errors_As_b is_DetailLostError err = true -> turn_over g' turn
  end.

Lemma Fail_recorded turnID turn reason detail w :
  wp (Fail_ turnID turn reason detail) (fun r w' => fsm_run (graph_of w) (graph_of w') /\ plain r /\
    (is_ok r = true -> turn_over (graph_of w') turn)) w.
Proof.
  pose proof (Fail_ends turnID turn reason detail w) as Hends. pose proof (plain_Fail turnID turn reason detail w) as Hp.
  unfold wp in *. destruct (Fail_ turnID turn reason detail w) as [r w']. cbn in *. destruct Hends as [Hm Hr].
  split_and!; [by apply fsm_once|done|]. by destruct r.
Qed.

Lemma record_failure_spec identity reason class explanation w :
  wp (record_failure identity reason class explanation)
     (fun r w' => recorded (pi_TurnEntityID identity) (graph_of w) (graph_of w') r) w.
Proof.
  unfold record_failure. apply wp_lift_bind.
  2: { intros e He. split; [done|]. by rewrite (plain_identity identity e He). }
  intros _ _. apply wp_bind, wp_attempt. pose proof (persona_PutFailureDetail_graph (pi_TurnEntityID identity)
    {| fd_TurnID := pi_TurnID identity; fd_Reason := reason; fd_Class := class; fd_AuthorizationReason := EmptyString;
       fd_Message := explanation; fd_Target := EmptyString; fd_Committed := [] |} w) as Hg.
  unfold wp at 1. destruct (persona_PutFailureDetail _ _ w) as [[ref|storeErr] w1] eqn:Eput; cbn in Hg |- *.
  - eapply wp_mono; [apply Fail_recorded|]. rewrite Hg. intros r w2 (Hrun & Hp & Hok). split; [done|].
    destruct r as [tr|e]; [by apply Hok|]. by rewrite (Hp e eq_refl).
  - pose proof (PutFailureDetail_plain (pi_TurnEntityID identity) _ w storeErr (f_equal fst Eput)) as Hstore.
    unfold failWithoutDetail. apply wp_bind, wp_attempt. eapply wp_mono; [apply Fail_recorded|].
    rewrite Hg. intros [tr|failErr] w2 (Hrun & Hp & Hok); apply wp_throw; (split; [done|]).
    + intros _. by apply Hok.
    + rewrite joined_plain; [done|exact Hstore|by apply Hp].
Qed.

(** An event of the engine's own, other than a companion's exhausted budget. *)
Definition ends_its_turn (event : LoopFailedEvent) (identity : PersonaIdentity) : Prop :=
  IdentityFrom (le_Metadata event) = Ok identity /\
  (le_Reason event = ReasonMaxIterations -> le_Role event <> RoleCompanion).

(** How a handler leaves a turn it acknowledges. *)
Definition over_when_acknowledged (turn : string) (w : W) (r : res unit) (w' : W) : Prop :=
  fsm_run (graph_of w) (graph_of w') /\ (r = Ok tt -> turn_over (graph_of w') turn).

Lemma reporting_spec turn (m : MW W Transition) w :
  wp m (fun r w' => recorded turn (graph_of w) (graph_of w') r) w ->
  wp (r ← attempt m; match r with Ok _ => mret tt | Err err => lift (reportRecordError err) end)
     (over_when_acknowledged turn w) w.
Proof.
  intros Hm. apply wp_bind, wp_attempt. eapply wp_mono; [exact Hm|]. intros [tr|err] w1 [Hrun Hr]; [by apply wp_ret|].
  apply wp_lift. split; [done|]. unfold reportRecordError. destruct (errors_As_b _ err); [|done]. intros _. by apply Hr.
Qed.

(** C24: a failed loop ends its turn. Whatever the stores do, handling the failure
    event of one of the engine's loops moves turns only along the phase FSM; and
    when the event is acknowledged - unless it is the companion's exhausted
    budget - the turn it names is over, even when its explanation was lost. *)
Theorem failed_loop_ends_its_turn (watcher : LoopFailureWatcher) (event : LoopFailedEvent) (identity : PersonaIdentity)
    (w : W) r w' (Hev : ends_its_turn event identity) (Hrun : Loop_Handle watcher (Ok (Some event)) w = (r, w')) :
  fsm_run (graph_of w) (graph_of w') /\ (r = Ok tt -> turn_over (graph_of w') (pi_TurnEntityID identity)).
Proof.
  destruct Hev as [Hid Hrole]. pattern r, w'. eapply wp_elim; [|exact Hrun]. clear r w' Hrun.
  unfold Loop_Handle. rewrite Hid. apply wp_lift_bind; [|by intros e _].
  intros role Hrole_of. assert (Hsame : role = le_Role event).
  { unfold roleOf in Hrole_of. apply result_bind_ok in Hrole_of as (spec & Hs%wrapf_ok & [= <-]).
    unfold SpecFor in Hs. destruct (find _ Specs) as [s|] eqn:Hf; [|done]. injection Hs as <-.
    apply find_some in Hf as [_ ?%String.eqb_eq]. done. }
  assert (Hrec : forall class reason describe,
    wp (spec ← lift (SpecFor role); record_failure identity reason class (describe spec))
       (fun r w' => recorded (pi_TurnEntityID identity) (graph_of w) (graph_of w') r) w).
  { intros class reason describe. apply wp_lift_bind; [intros spec _; apply record_failure_spec|].
    intros e He. split; [done|]. by rewrite (plain_SpecFor role e He). }
  destruct (String.eqb_spec (le_Reason event) ReasonMaxIterations) as [Hmax|_];
    [destruct (String.eqb_spec role RoleCompanion) as [Hc|_]|].
  - exfalso. apply (Hrole Hmax). congruence.
  - apply reporting_spec, Hrec.
  - apply reporting_spec, Hrec.
Qed.

Lemma identity_metadata_base i :
  identity_metadata i !! MetadataKeyTurnID = Some (AString (pi_TurnID i)) /\
  identity_metadata i !! MetadataKeyTurnEntityID = Some (AString (pi_TurnEntityID i)) /\
  identity_metadata i !! MetadataKeyActionID = Some (AString (pi_ActionID i)) /\
  identity_metadata i !! MetadataKeySceneID = Some (AString (pi_SceneID i)).
Proof.
  unfold identity_metadata. destruct (hasCompanionIdentity i), (negb (String.eqb (pi_CaseID i) EmptyString));
    split_and!; by simplify_map_eq.
Qed.

(** What a spawned companion's task tells its loop, and what the watcher reads back. *)
Lemma companion_task_identity `{AgenticRules, TaskRules} request task :
  Task Companion_ request = Ok task ->
  exists identity, IdentityFrom (tm_Metadata task) = Ok identity /\ pi_BondID identity = EmptyString.
Proof.
  unfold Task. intros Ht. apply result_bind_ok in Ht as (? & _ & Ht).
  apply result_bind_ok in Ht as ([] & Hv & Ht). apply result_bind_ok in Ht as (? & _ & Ht).
  apply result_bind_ok in Ht as (? & _ & Ht). apply result_bind_ok in Ht as (? & _ & Ht).
  cbn [sp_NeedsBand Companion_] in Ht. apply result_bind_ok in Ht as (metadata & Hm & Ht).
  apply result_bind_ok in Hm as (? & _ & [= <-]). apply result_bind_ok in Ht as (? & _ & [= <-]).
  cbn [tm_Metadata]. set (i := rq_Identity request) in *.
  unfold PersonaIdentity_Validate in Hv. apply result_bind_ok in Hv as ([] & Hturn & Hv).
  apply result_bind_ok in Hv as ([] & Haction & Hv). apply result_bind_ok in Hv as ([] & Hseg & Hv).
  apply result_bind_ok in Hv as ([] & Hscene & _).
  assert (Hread : forall k v, v <> EmptyString -> identity_metadata i !! k = Some (AString v) ->
    metadataString (identity_metadata i) k = Ok v).
  { intros k v Hne Hk. unfold metadataString. rewrite Hk. by rewrite (proj2 (String.eqb_neq _ _) Hne). }
  pose proof (identity_metadata_base i) as (Ht & He & Ha & Hs).
  pose proof (proj1 (RequireTurnEntityID_ok _ _) Hturn) as (Hti%ValidateIDSegment_ok & Hen & _ & _).
  pose proof (proj1 (wrapf_ok _ _ _) Hseg) as (Han & _)%ValidateIDSegment_ok.
  assert (Hsn : pi_SceneID i <> EmptyString).
  { unfold persona_requireEntityID in Hscene. by destruct (String.eqb_spec (pi_SceneID i) EmptyString). }
  eexists. unfold IdentityFrom. rewrite (Hread _ _ (proj1 Hti) Ht), (Hread _ _ Hen He), (Hread _ _ Han Ha), (Hread _ _ Hsn Hs).
  cbn [mbind result_bind]. unfold PersonaIdentity_Validate. cbn [pi_TurnID pi_TurnEntityID pi_ActionID pi_SceneID].
  rewrite Hturn, Haction, Hseg, Hscene. split; reflexivity.
Qed.

(** C25: a companion's exhausted budget is never acknowledged. The watcher reads
    a loop's identity without the companion's own fields, so for every companion
    task the engine spawns, the event that reports its exhausted budget fails to
    find a bond: whatever the world holds, handling it returns an error, commits
    no silent decision and writes nothing - and so does every redelivery. *)
Theorem companion_exhaustion_is_never_acknowledged `{!SubstrateLaws, AgenticRules, TaskRules}
    (watcher : LoopFailureWatcher) (request : TaskRequest) (task : TaskMessage) (event : LoopFailedEvent) (w : W)
    (Htask : Task Companion_ request = Ok task) (Hmeta : le_Metadata event = tm_Metadata task)
    (Hrole : le_Role event = tm_Role task) (Hreason : le_Reason event = ReasonMaxIterations) :
  exists err, Loop_Handle watcher (Ok (Some event)) w = (Err err, w).
Proof.
  destruct (companion_task_identity _ _ Htask) as (identity & Hid & Hbond).
  assert (Hr : tm_Role task = RoleCompanion).
  { unfold Task in Htask. repeat (apply result_bind_ok in Htask as (? & _ & Htask)). by injection Htask as <-. }
  unfold Loop_Handle. rewrite Hmeta, Hid, Hrole, Hr, Hreason.
  change (roleOf RoleCompanion) with (Ok (E := error) RoleCompanion). rewrite String.eqb_refl.
  unfold mbind, M_bind, lift at 1. cbv beta iota. rewrite String.eqb_refl.
  destruct (lw_hasExhauster watcher); [|by eexists]. cbn [negb].
  assert (Hex : exists err, Exhaust identity w = (Err err, w)).
  { unfold Exhaust, WithBondTransaction, ValidateBond. rewrite Hbond.
    assert (Hk : exists err, requireKindID "bond_id" EmptyString EntityKindCompanionBond = Err err).
    { unfold requireKindID. destruct (ParseEntityID EmptyString) as [parsed|err] eqn:Ep; [|by eexists].
      by apply ParseEntityID_parts in Ep. }
    destruct Hk as [err ->]. by eexists. }
  destruct Hex as [err Hex]. unfold attempt. rewrite Hex. by eexists.
Qed.
End watcher.

(** ** At work *)

Import PersonaDemo.

Module WatcherDemo.
#[export] Existing Instance KnowledgeDemo.no_queries.
#[export] Instance hints : CompanionArtifacts World := {|
  companion_InstanceName := "content";
  companion_PutDecision _ _ := mret (stored "companion-decision");
  companion_GetDecision _ := throw (Sentinel "no decision");
  companion_PutStageRecord _ _ := mret (stored "companion-stage");
  companion_GetStageRecord _ := throw (Sentinel "no record") |}.
#[export] Instance no_transient : TransientErrors := {| IsTransient _ := false |}.
#[export] Instance decision_text : Codec CompanionDecision := text_codec CompanionDecision.
#[export] Instance agent_stream : AgentStream World := {|
  stream_Subjects := mret AgentStreamSubjects; stream_Consume _ _ := mret tt; stream_Backlog _ := mret (0, 0);
  stream_Tick := mret tt |}.

Lemma plain_missing {A} msg e : errors_As_b is_DetailLostError e = false ->
  plain (A := A) (Err (Errorf msg [Sentinel ErrEntityNotFound; e])).
Proof.
  intros He x [= <-]. rewrite As_existsb in *. cbn [chain flat_map existsb is_DetailLostError app].
  by rewrite app_nil_r, He.
Qed.

Lemma plain_read id : plainM (W := World) (ReadAuthoritative id).
Proof. intros w. cbn. unfold mem_Read. destruct (w_graph w !! id); [apply plain_ok|]. by intros x [= <-]. Qed.

Lemma plain_mutate {A} (a : A) g : plainM (mutate a g).
Proof.
  intros w. unfold mutate. destruct (next_fault w) as [[] w1]; cbn [fst];
    first [apply plain_ok | intros x [= <-]; reflexivity].
Qed.

Lemma plain_client contract group id ts : plainM (W := World) (client_Reconcile contract group id ts).
Proof.
  intros w. cbn [client_Reconcile mem_client]. unfold mem_Reconcile. destruct (w_graph w !! id); [|by intros x [= <-]].
  destruct (forallb _ ts); [apply plain_mutate|by intros x [= <-]].
Qed.

#[export] Instance plain_world : PlainErrors World.
Proof.
  split.
  - intros s. cbn. unfold mem_ValidateEntityID. plainly.
  - intros s. cbn. unfold mem_ValidateEntityIDPrefix. plainly.
  - intros s. cbn. unfold mem_ParsePredicate. plainly.
  - intros id w. revert w. change (plainM (GetEntity (W := World) id)). cbn. unfold graphio_GetEntity.
    plainly_run; try apply plain_read; (apply plain_missing; match goal with Hr : plain (Err ?e) |- _ => exact (Hr e eq_refl) end).
  - intros target id ts w. revert w. change (plainM (Reconcile (W := World) target id ts)). cbn.
    unfold graphio_Reconcile, settle. plainly_run; try apply plain_read; try apply plain_client; (apply plain_missing; match goal with Hr : plain (Err ?e) |- _ => exact (Hr e eq_refl) end).
  - done.
Qed.

Definition watcher : LoopFailureWatcher := {|
  lw_subject := LoopFailedSubject; lw_consumerName := LoopFailureConsumer; lw_heartbeat := DefaultFailureHeartbeat;
  lw_ackWait := DefaultFailureAckWait; lw_hasExhauster := true |}.
Definition narrator_failed : LoopFailedEvent := {|
  le_LoopID := "loop-1"; le_Role := RoleNarrator; le_Reason := "model_error"; le_Iterations := 1;
  le_Error := "refused"; le_Metadata := injected |}.
Definition narrating : World := Demo.turn_world PhaseNarrating [].

Definition companion_identity : PersonaIdentity := {|
  pi_TurnID := "turn-a1"; pi_TurnEntityID := Demo.turn_id; pi_ActionID := "a1";
  pi_SceneID := "acme.semmachina.barrow.case.scene.hall"; pi_CaseID := EmptyString; pi_ActorID := EmptyString;
  pi_ContextRef := "acme.semmachina.barrow.case.scene.hall"; pi_PlayerID := Demo.player_id;
  pi_CompanionID := "acme.semmachina.barrow.case.character.holly";
  pi_BondID := "acme.semmachina.barrow.case.companion-bond.holly" |}.
Definition companion_request : TaskRequest := {|
  rq_Identity := companion_identity; rq_ResumeAttempt := 0; rq_Band := EmptyString; rq_Prompt := "Warn them." |}.
Definition companion_spent (task : TaskMessage) : LoopFailedEvent := {|
  le_LoopID := "loop-2"; le_Role := tm_Role task; le_Reason := ReasonMaxIterations; le_Iterations := CompanionMaxIterations;
  le_Error := EmptyString; le_Metadata := tm_Metadata task |}.
End WatcherDemo.
Import WatcherDemo.

Lemma failed_loop_ends_its_turn_witness :
  exists w', Loop_Handle watcher (Ok (Some narrator_failed)) narrating = (Ok tt, w') /\
    phase_in (graph_of narrating) Demo.turn_id = Some PhaseNarrating /\ turn_over (graph_of w') Demo.turn_id.
Proof.
  exists (Loop_Handle watcher (Ok (Some narrator_failed)) narrating).2.
  assert (Hrun : Loop_Handle watcher (Ok (Some narrator_failed)) narrating =
    (Ok tt, (Loop_Handle watcher (Ok (Some narrator_failed)) narrating).2)).
  { refine (pair_of (Loop_Handle watcher (Ok (Some narrator_failed)) narrating) (Ok tt) _). vm_compute. reflexivity. }
  split; [exact Hrun|]. split; [vm_compute; reflexivity|].
  apply (failed_loop_ends_its_turn watcher narrator_failed identity narrating (Ok tt) _).
  - split; [vm_compute; reflexivity|discriminate].
  - exact Hrun.
  - reflexivity.
Defined.

Lemma companion_exhaustion_is_never_acknowledged_witness :
  exists task err, Task Companion_ companion_request = Ok task /\
    Loop_Handle watcher (Ok (Some (companion_spent task))) narrating = (Err err, narrating).
Proof.
  assert (Htask : exists task, Task Companion_ companion_request = Ok task) by (eexists; vm_compute; reflexivity).
  destruct Htask as [task Htask]. exists task.
  destruct (companion_exhaustion_is_never_acknowledged watcher companion_request task (companion_spent task) narrating Htask
              eq_refl eq_refl eq_refl) as [err Herr].
  exists err. split; [exact Htask|exact Herr].
Defined.
