(* ===== verification/GatewaySpec.v ===== *)
(** What the gateway promises: a session table whose two indexes agree, action
    identities that name their submissions, and submissions that publish at most
    the one action they answer for. *)

From stdpp Require Import relations.
From S2P Require Import Prelude GoStd GoHash GoErrors Graph Vocab Vocabulary Payload Store Sequencing GraphIO Turn Delivery Gateway MemStore TurnSpec CaseflowSpec PersonaSpec.

Open Scope Z_scope.

(** ** The session table *)

(** The two indexes agree: every session sits under its own connection, and a
    player's entry holds exactly the connections bound to that player, at least
    one and within the bound. *)
Record table_ok (s : sessions) : Prop := {
  keyed : forall c session, byConnID s !! c = Some session -> cn_ID (se_Connection session) = c;
  indexed : forall p c, c ∈ connections_of s p <-> exists session, byConnID s !! c = Some session /\ se_PlayerID session = p;
  bounded : forall p, Z.of_nat (size (connections_of s p)) <= Z.max 0 (maxPerPlayer s)
}.

(** One call on the table. *)
Inductive session_call (s : sessions) : sessions -> Prop :=
| call_put session : session_call s (put session s).2
| call_remove connID : session_call s (remove_session connID s).

Lemma connections_of_unbind connID s p previous : byConnID s !! connID = Some previous ->
  connections_of (unbind connID s) p =
    if String.eqb (se_PlayerID previous) p then connections_of s p ∖ {[ connID ]} else connections_of s p.
Proof.
  intros Hp. unfold unbind. rewrite Hp. unfold connections_of at 1. cbn [byPlayerID].
  destruct (String.eqb_spec (se_PlayerID previous) p) as [<-|Hne].
  - destruct (bool_decide _) eqn:Eb; [|by rewrite lookup_insert_eq].
    rewrite lookup_delete_eq. apply bool_decide_eq_true in Eb. by rewrite Eb.
  - destruct (bool_decide _); [by rewrite lookup_delete_ne|by rewrite lookup_insert_ne].
Qed.

(** After [unbind] the connection is in nobody's entry, and [byConnID] is as it was. *)
Lemma unbind_spec connID s : table_ok s ->
  byConnID (unbind connID s) = byConnID s /\ maxPerPlayer (unbind connID s) = maxPerPlayer s /\
  (forall p, connections_of (unbind connID s) p = connections_of s p ∖ {[ connID ]}).
Proof.
  intros Hok. destruct (byConnID s !! connID) as [previous|] eqn:Ep.
  - split; [unfold unbind; by rewrite Ep|]. split; [unfold unbind; by rewrite Ep|]. intros p.
    rewrite (connections_of_unbind _ _ _ _ Ep). destruct (String.eqb_spec (se_PlayerID previous) p) as [|Hne]; [done|].
    assert (connID ∉ connections_of s p); [|set_solver].
    rewrite (indexed _ Hok). intros (session & Hs & <-). congruence.
  - unfold unbind. rewrite Ep. split; [done|]. split; [done|]. intros p.
    assert (connID ∉ connections_of s p); [|set_solver]. rewrite (indexed _ Hok). intros (session & Hs & _). congruence.
Qed.

Lemma size_without (X : gset string) c : (size (X ∖ {[ c ]}) <= size X)%nat.
Proof. apply subseteq_size. set_solver. Qed.

Lemma removed_ok connID s t : table_ok s -> byConnID t = delete connID (byConnID s) -> maxPerPlayer t = maxPerPlayer s ->
  (forall p, connections_of t p = connections_of s p ∖ {[ connID ]}) -> table_ok t.
Proof.
  intros Hok Hb Hm Hc. split.
  - intros c session. rewrite Hb. intros [_ Hs]%lookup_delete_Some. by apply (keyed _ Hok).
  - intros p c. rewrite Hc, elem_of_difference, (indexed _ Hok), elem_of_singleton, Hb. split.
    + intros [(session & Hs & Hp) Hne]. exists session. by rewrite lookup_delete_ne.
    + intros (session & [Hne Hs]%lookup_delete_Some & Hp). split; [by exists session|congruence].
  - intros p. rewrite Hc, Hm. pose proof (size_without (connections_of s p) connID). pose proof (bounded _ Hok p). lia.
Qed.

Lemma put_ok session s : table_ok s -> table_ok (put session s).2.
Proof.
  intros Hok. set (connID := cn_ID (se_Connection session)).
  destruct (unbind_spec connID s Hok) as (Hb & Hm & Hc). unfold put. fold connID. rewrite Hb, Hm.
  destruct (Z.leb_spec (maxPerPlayer s) (Z.of_nat (size (connections_of (unbind connID s) (se_PlayerID session))))) as [|Hlt].
  { eapply removed_ok; [exact Hok|done|done|exact Hc]. }
  assert (Hnew : forall p, connections_of {| byConnID := <[connID := session]> (byConnID s);
      byPlayerID := <[se_PlayerID session := {[ connID ]} ∪ connections_of (unbind connID s) (se_PlayerID session)]>
        (byPlayerID (unbind connID s)); maxPerPlayer := maxPerPlayer s |} p =
    if String.eqb (se_PlayerID session) p then {[ connID ]} ∪ (connections_of s p ∖ {[ connID ]})
    else connections_of s p ∖ {[ connID ]}).
  { intros p. unfold connections_of at 1. cbn [byPlayerID]. destruct (String.eqb_spec (se_PlayerID session) p) as [<-|Hne].
    - rewrite lookup_insert_eq. cbn [default]. by rewrite Hc.
    - rewrite lookup_insert_ne by done. apply Hc. }
  split; cbn [snd].
  - intros c session'. cbn [byConnID]. rewrite lookup_insert_Some. intros [[<- <-]|[_ Hs]]; [done|]. by apply (keyed _ Hok).
  - intros p c. rewrite Hnew. cbn [byConnID]. setoid_rewrite lookup_insert_Some.
    destruct (String.eqb_spec (se_PlayerID session) p) as [<-|Hne].
    + rewrite elem_of_union, elem_of_difference, elem_of_singleton, (indexed _ Hok). split.
      * intros [->|[(s' & Hs & Hp) Hn]]; [exists session; auto|]. exists s'. split; [right; split; [congruence|done]|done].
      * intros (s' & [[<- <-]|[Hn Hs]] & Hp); [by left|]. right. split; [by exists s'|congruence].
    + rewrite elem_of_difference, elem_of_singleton, (indexed _ Hok). split.
      * intros [(s' & Hs & Hp) Hn]. exists s'. split; [right; split; [congruence|done]|done].
      * intros (s' & [[<- <-]|[Hn Hs]] & Hp); [done|]. split; [by exists s'|congruence].
  - intros p. rewrite Hnew. cbn [maxPerPlayer]. rewrite Hc in Hlt.
    destruct (String.eqb_spec (se_PlayerID session) p) as [<-|Hne].
    + rewrite size_union by set_solver. rewrite size_singleton. lia.
    + pose proof (size_without (connections_of s p) connID). pose proof (bounded _ Hok p). lia.
Qed.

Lemma call_ok s s' : session_call s s' -> table_ok s -> table_ok s' /\ maxPerPlayer s' = maxPerPlayer s.
Proof.
  intros [session|connID] Hok.
  - split; [by apply put_ok|]. destruct (unbind_spec (cn_ID (se_Connection session)) s Hok) as (_ & Hm & _).
    unfold put. rewrite Hm. by destruct (_ <=? _).
  - destruct (unbind_spec connID s Hok) as (Hb & Hm & Hc). unfold remove_session. split; [|by cbn].
    eapply removed_ok; [exact Hok|cbn; by rewrite Hb|done|exact Hc].
Qed.

Lemma calls_ok limit s : rtc session_call (newSessions limit) s -> table_ok s /\ maxPerPlayer s = limit.
Proof.
  intros Hr. assert (Hgen : forall s1 s2, rtc session_call s1 s2 -> table_ok s1 -> table_ok s2 /\ maxPerPlayer s2 = maxPerPlayer s1).
  { intros s1 s2 Hs. induction Hs as [t|t1 t2 t3 Hc _ IH]; [done|]. intros Hok.
    apply call_ok in Hc as [Hok2 Hm]; [|done]. rewrite <- Hm. by apply IH. }
  eapply (Hgen (newSessions limit)) in Hr as [Hok Hm]; [done|]. split; cbn.
  - intros c session. by rewrite lookup_empty.
  - intros p c. unfold connections_of. cbn. rewrite lookup_empty. cbn. split; [set_solver|].
    intros (session & Hs & _). by rewrite lookup_empty in Hs.
  - intros p. unfold connections_of. cbn. rewrite lookup_empty. cbn. rewrite size_empty. lia.
Qed.

Lemma forPlayer_perm p s :
  forPlayer p s ≡ₚ omap (fun connID => byConnID s !! connID) (elements (connections_of s p)).
Proof. apply sort_by_perm. Qed.

Lemma omap_length_le {A B} (f : A -> option B) l : (List.length (omap f l) <= List.length l)%nat.
Proof. induction l as [|a l IH]; cbn; [done|]. destruct (f a); cbn; lia. Qed.

Lemma omap_NoDup {A B} (f : A -> option B) (h : B -> A) l :
  (forall a b, f a = Some b -> h b = a) -> NoDup l -> NoDup (omap f l).
Proof.
  intros Hh. induction 1 as [|a l Ha _ IH]; cbn; [constructor|]. destruct (f a) as [b|] eqn:E; [|done].
  constructor; [|done]. intros (a' & Ha' & Hb)%list_elem_of_omap.
  apply Hh in E. apply Hh in Hb. congruence.
Qed.

Lemma forPlayer_spec p s session : table_ok s ->
  session ∈ forPlayer p s <-> se_PlayerID session = p /\ byConnID s !! cn_ID (se_Connection session) = Some session.
Proof.
  intros Hok. rewrite forPlayer_perm, list_elem_of_omap. setoid_rewrite elem_of_elements. setoid_rewrite (indexed _ Hok). split.
  - intros (c & (s' & Hs' & Hp) & Hs). rewrite Hs in Hs'. injection Hs' as ->. split; [done|]. by rewrite (keyed _ Hok _ _ Hs).
  - intros [Hp Hs]. exists (cn_ID (se_Connection session)). split; [by exists session|done].
Qed.

(** The session table is consistent. However connections are bound, rebound
    to other players, refused and dropped, a player's sessions are exactly the
    connections bound to that player, each once, and never more than the
    gateway's limit. *)
Theorem sessions_are_exactly_the_players (limit : Z) (s : sessions) (p : string)
    (Hreach : rtc session_call (newSessions limit) s) :
  (forall session, session ∈ forPlayer p s <->
     se_PlayerID session = p /\ get_session (cn_ID (se_Connection session)) s = Some session) /\
  (forall connID session, get_session connID s = Some session -> cn_ID (se_Connection session) = connID) /\
  NoDup (forPlayer p s) /\ Z.of_nat (List.length (forPlayer p s)) <= Z.max 0 limit.
Proof.
  destruct (calls_ok _ _ Hreach) as [Hok Hm]. split; [intros session; by apply forPlayer_spec|].
  split; [apply (keyed _ Hok)|]. rewrite forPlayer_perm. split.
  - eapply (omap_NoDup _ (fun session => cn_ID (se_Connection session))); [by apply (keyed _ Hok)|apply NoDup_elements].
  - pose proof (omap_length_le (fun connID => byConnID s !! connID) (elements (connections_of s p))).
    pose proof (bounded _ Hok p) as Hb. unfold size, set_size in Hb. cbn in Hb. rewrite Hm in Hb. lia.
Qed.

(** ** Action identities *)

Lemma bits_value_inj l l' : List.length l = 5%nat -> List.length l' = 5%nat -> bits_value l = bits_value l' -> l = l'.
Proof.
  destruct l as [|[] [|[] [|[] [|[] [|[] [|]]]]]]; try done;
    destruct l' as [|[] [|[] [|[] [|[] [|[] [|]]]]]]; done.
Qed.

Lemma bits_value_range l : List.length l = 5%nat -> 0 <= bits_value l < 32.
Proof. destruct l as [|[] [|[] [|[] [|[] [|[] [|]]]]]]; try done; cbn; lia. Qed.

Lemma quintets_inj n : forall l l', (List.length l <= n)%nat -> List.length l = List.length l' -> quintets l = quintets l' -> l = l'.
Proof.
  induction n as [n IH] using lt_wf_ind. intros l l' Hn Hl.
  destruct l as [|a1 [|a2 [|a3 [|a4 [|a5 l]]]]]; destruct l' as [|b1 [|b2 [|b3 [|b4 [|b5 l']]]]]; try discriminate Hl; try done.
  1-4: cbn [quintets app repeat take]; intros [= Hv]; apply bits_value_inj in Hv; [by simplify_eq|done|done].
  cbn [quintets]. intros [= Hv Hq]. apply bits_value_inj in Hv; [|done|done]. injection Hv as -> -> -> -> ->.
  do 5 f_equal. cbn in Hn, Hl. eapply (IH (List.length l)); [lia|lia|lia|done].
Qed.

Lemma quintets_range n : forall l, (List.length l <= n)%nat -> Forall (fun v => 0 <= v < 32) (quintets l).
Proof.
  induction n as [n IH] using lt_wf_ind. intros l Hn. destruct l as [|a1 [|a2 [|a3 [|a4 [|a5 l]]]]]; cbn [quintets].
  - constructor.
  - apply Forall_singleton. by apply bits_value_range.
  - apply Forall_singleton. by apply bits_value_range.
  - apply Forall_singleton. by apply bits_value_range.
  - apply Forall_singleton. by apply bits_value_range.
  - constructor; [by apply bits_value_range|]. cbn in Hn. eapply (IH (List.length l)); lia.
Qed.

Lemma byte_bits_inj b b' : 0 <= b < 256 -> 0 <= b' < 256 -> byte_bits b = byte_bits b' -> b = b'.
Proof.
  intros Hb Hb'. unfold byte_bits. cbn [map]. intros [= H7 H6 H5 H4 H3 H2 H1 H0]. apply Z.bits_inj'. intros n Hn.
  assert (Hhigh : forall z, 0 <= z < 256 -> 8 <= n -> Z.testbit z n = false).
  { intros z Hz Hn8. rewrite Z.testbit_false by lia. rewrite Z.div_small; [done|]. split; [lia|].
    eapply Z.lt_le_trans; [apply Hz|]. change 256 with (2 ^ 8). apply Z.pow_le_mono_r; lia. }
  destruct (Z.le_gt_cases 8 n); [by rewrite !Hhigh|].
  assert (n = 0 \/ n = 1 \/ n = 2 \/ n = 3 \/ n = 4 \/ n = 5 \/ n = 6 \/ n = 7) as Hcase by lia.
  by repeat destruct Hcase as [->|Hcase]; subst.
Qed.

Lemma byte_bits_list_inj l l' : bytes_ok l -> bytes_ok l' -> flat_map byte_bits l = flat_map byte_bits l' -> l = l'.
Proof.
  assert (Hlen : forall b, List.length (byte_bits b) = 8%nat) by done.
  assert (Hr : forall b, is_byte b = true -> 0 <= b < 256).
  { intros b. unfold is_byte. rewrite andb_true_iff, Z.leb_le, Z.ltb_lt. lia. }
  intros Hl. revert l'. induction Hl as [|b l Hb _ IH]; intros ? [|b' l' Hb' Hl']; cbn [flat_map]; try done.
  intros He. apply app_inj_1 in He as [He Ht]; [|done]. apply byte_bits_inj in He; [|by apply Hr|by apply Hr].
  subst. f_equal. by apply IH.
Qed.

Lemma byte_of_ascii_of z : 0 <= z < 256 -> byte_of (ascii_of z) = z.
Proof. intros Hz. unfold byte_of, ascii_of. rewrite N_ascii_embedding by lia. lia. Qed.

Lemma string_of_inj l l' : Forall (fun z => 0 <= z < 256) l -> Forall (fun z => 0 <= z < 256) l' ->
  string_of l = string_of l' -> l = l'.
Proof.
  intros Hl. revert l'. induction Hl as [|z l Hz _ IH]; intros ? [|z' l' Hz' Hl']; try done.
  cbn. intros [= Hc Hs]. rewrite (IH l') by done. f_equal.
  apply (f_equal byte_of) in Hc. by rewrite !byte_of_ascii_of in Hc by lia.
Qed.

Lemma base32_inj l l' : bytes_ok l -> bytes_ok l' -> List.length l = List.length l' -> base32 l = base32 l' -> l = l'.
Proof.
  intros Hl Hl' Hlen He. unfold base32 in He.
  assert (Hq : forall l, Forall (fun v => 0 <= v < 32) (quintets (flat_map byte_bits l))) by (intros; by eapply quintets_range).
  assert (Hc : forall v, 0 <= v < 32 -> 0 <= base32_char v < 256 /\ (forall v', 0 <= v' < 32 -> base32_char v = base32_char v' -> v = v')).
  { intros v Hv. unfold base32_char. split; [destruct (Z.ltb_spec v 26); lia|]. intros v' Hv'.
    destruct (Z.ltb_spec v 26), (Z.ltb_spec v' 26); lia. }
  apply string_of_inj in He; [|apply Forall_map; eapply Forall_impl; [apply Hq|intros v Hv; by apply Hc]..].
  assert (Hm : quintets (flat_map byte_bits l) = quintets (flat_map byte_bits l')).
  { revert He. generalize (Hq l) (Hq l'). generalize (quintets (flat_map byte_bits l)) (quintets (flat_map byte_bits l')).
    intros q q' Hf. revert q'. induction Hf as [|v q Hv _ IH]; intros [|v' q']; try done. cbn. intros Hf' [= Hvv Hqq].
    apply Forall_cons_1 in Hf' as [Hv' Hf']. rewrite (proj2 (Hc v Hv) v' Hv' Hvv). by rewrite (IH q'). }
  apply byte_bits_list_inj; [done|done|]. eapply quintets_inj; [reflexivity| |exact Hm].
  assert (Hn : forall l, List.length (flat_map byte_bits l) = (8 * List.length l)%nat).
  { intros m. induction m as [|b m IH]; [done|]. cbn [flat_map]. rewrite length_app, IH. cbn. lia. }
  by rewrite !Hn, Hlen.
Qed.

(** An action's identity names its submission. Two submissions get the same
    action identifier only if they are of the same player under the same
    idempotency key - or the two digests exhibit a collision of SHA-256. *)
Theorem action_ids_name_submissions `{Substrate, !SubstrateLaws} (player player' key key' actionID : string)
    (Hmax : MaxEntityIDBytes < 2 ^ 32)
    (Hid : ActionIDFor player key = Ok actionID) (Hid' : ActionIDFor player' key' = Ok actionID) :
  (player = player' /\ key = key') \/
  (bytes_of actionIDDomain ++ frame [player; key] <> bytes_of actionIDDomain ++ frame [player'; key'] /\
   action_digest player key = action_digest player' key').
Proof.
  assert (Hparts : forall p k a, ActionIDFor p k = Ok a ->
    len p < 2 ^ 32 /\ len k < 2 ^ 32 /\ a = base32 (action_digest p k)).
  { intros p k a Ha. unfold ActionIDFor in Ha. apply result_bind_ok in Ha as ([] & Hp%wrapf_ok & Ha).
    apply result_bind_ok in Ha as ([] & Hk%wrapf_ok & Ha). apply result_bind_ok in Ha as ([] & _ & [= <-]).
    apply ValidateEntityID_len in Hp. split; [lia|]. split; [|done].
    unfold RequireIdempotencyKey, validateIdempotencyKey in Hk. destruct (String.eqb k _); [done|].
    destruct (Z.ltb_spec MaxIdempotencyKeyBytes (len k)); [done|]. unfold MaxIdempotencyKeyBytes in *. lia. }
  destruct (Hparts _ _ _ Hid) as (Hp & Hk & ->), (Hparts _ _ _ Hid') as (Hp' & Hk' & He).
  apply base32_inj in He; [|apply sha256_bytes|apply sha256_bytes|by unfold action_digest; rewrite !sha256_length].
  destruct (decide (player = player' /\ key = key')) as [|Hne]; [by left|right]. split; [|done].
  intros Hf. apply app_inv_head, frame_inj in Hf; [|by repeat constructor|by repeat constructor].
  injection Hf as -> ->. by apply Hne.
Qed.

(** ** Submitting *)

(** What has been published: subject, bytes and message identifier. *)
Class HasStream (W : Type) : Type := { stream_of : W -> list (string * string * string) }.

(** Reading the clock and the graph leaves all else alone; a publish appends,
    or fails - and may have appended even then, its acknowledgement lost. *)
Class GatewayLaws (W : Type) `{Substrate, HasGraph W, GraphStore W, Clock W, HasSessions W, HasStream W, ActionPublisher W}
    : Prop := {
  gateway_get id (w : W) : stream_of (GetEntity id w).2 = stream_of w /\ sessions_of (GetEntity id w).2 = sessions_of w;
  gateway_clock (w : W) : stream_of (now w).2 = stream_of w /\ sessions_of (now w).2 = sessions_of w;
  gateway_publish subject data msgID (w : W) :
    let '(r, w') := PublishToStreamWithMsgID subject data msgID w in
    graph_of w' = graph_of w /\ sessions_of w' = sessions_of w /\
    (stream_of w' = stream_of w ++ [(subject, data, msgID)] \/ (is_ok r = false /\ stream_of w' = stream_of w))
}.

Section submit.
Context {W : Type} `{Substrate, HasGraph W, GraphStore W, Clock W, Authenticator W, HasSessions W, ActionEnvelope,
  ActionPublisher W, SubmissionText, HasStream W}.
Context `{!GraphStoreLaws W, !GatewayLaws W}.
Implicit Types (w : W).

(** A world that differs in nothing the gateway knows. *)
Definition untouched (w w' : W) : Prop :=
  graph_of w' = graph_of w /\ stream_of w' = stream_of w /\ sessions_of w' = sessions_of w.

(** No turn the player's pointer names is live, [turnID] itself apart. Of turns
    no pointer names it says nothing: the guard of [internal/gateway] reads the
    pointer, and its [doc.go] concedes the extra turn this can let in. *)
Definition may_act (g : graph) (playerID turnID : string) : Prop :=
  exists e, g !! playerID = Some e /\
    forall held, held ∈ (HeldTurns (Some e)).1 -> RequireTurnEntityID turnID held <> Ok tt ->
      g !! held = None \/ exists p, phase_in g held = Some p /\ IsTerminal p = true.

(** The one action a submission may publish. *)
Definition publishes (g : Gateway) (connID raw : string) (w : W) (action : PlayerAction) (data : string) : Prop :=
  exists session submission,
    get_session connID (sessions_of w) = Some session /\ decode raw = Ok submission /\
    ActionIDFor (se_PlayerID session) (sa_IdempotencyKey submission) = Ok (pa_ActionID action) /\
    may_act (graph_of w) (se_PlayerID session) (TurnIDForAction (pa_ActionID action)) /\
    pa_PlayerID action = se_PlayerID session /\ pa_CampaignID action = gc_CampaignID (gw_config g) /\
    pa_SceneID action = gc_SceneID (gw_config g) /\ pa_Text action = sa_Text submission /\
    PlayerAction_Validate action = Ok tt /\ envelope_bytes action = Ok data.

Definition answers_for (answer : Answer) (action : PlayerAction) : Prop :=
  answer.2 = None -> exists response, answer.1 = Some response /\ sp_Status response = StatusAccepted /\
    sp_ActionID response = pa_ActionID action /\ sp_TurnID response = TurnIDForAction (pa_ActionID action) /\
    sp_ArrivedAt response = pa_ArrivedAt action /\ SubmitResponse_Validate response = Ok tt.

(** How a submission comes out: refused or failed with nothing published; or
    its one action is on the stream - and the answer, unless an error stands
    beside it, accepts that action. *)
Inductive submission_outcome (g : Gateway) (connID raw : string) (w w' : W) (answer : Answer) : Prop :=
| nothing_published :
    stream_of w' = stream_of w ->
    (forall response, answer.1 = Some response -> sp_Status response = StatusRefused) ->
    submission_outcome g connID raw w w' answer
| one_action action data :
    publishes g connID raw w action data ->
    stream_of w' = stream_of w ++ [(gw_subject g, data, pa_ActionID action)] ->
    answers_for answer action ->
    submission_outcome g connID raw w w' answer.

Lemma untouched_trans w1 w2 w3 : untouched w1 w2 -> untouched w2 w3 -> untouched w1 w3.
Proof. intros (? & ? & ?) (? & ? & ?). split_and!; congruence. Qed.

Lemma wp_look {A} id (k : res EntityState -> MW W A) Q w :
  (forall r w', untouched w w' ->
     match r with
     | Ok e => graph_of w !! id = Some e
     | Err err => errors_Is ErrEntityNotFound err = true -> graph_of w !! id = None
     end -> wp (k r) Q w') ->
  wp (r ← attempt (GetEntity id); k r) Q w.
Proof.
  intros Hk. pose proof (GetEntity_spec id w) as Hs. pose proof (gateway_get id w) as [Hst Hse].
  apply wp_bind, wp_attempt. unfold wp in Hs |- *. destruct (GetEntity id w) as [r w']. cbn in *.
  destruct Hs as [Hg Hr]. by apply Hk.
Qed.

Lemma wp_tick {A} (k : time -> MW W A) Q w :
  (forall t w', untouched w w' -> wp (k t) Q w') -> wp (t ← read_clock; k t) Q w.
Proof.
  intros Hk. pose proof (gateway_clock w) as [Hst Hse]. pose proof (now_spec w) as Hg. apply wp_bind.
  unfold wp at 1, read_clock. destruct (now w) as [t w1]. cbn in *. by apply Hk.
Qed.

Lemma refuseIfLive_spec held w :
  wp (refuseIfLive held) (fun r w' => untouched w w' /\
    (r = Ok None -> graph_of w !! held = None \/ exists p, phase_in (graph_of w) held = Some p /\ IsTerminal p = true)) w.
Proof.
  unfold refuseIfLive. apply wp_look. intros [e|err] w1 Hu Hr.
  - apply wp_lift_bind; [|by intros x _]. intros phase Hp%wrapf_ok.
    destruct (IsTerminal phase) eqn:Ht; apply wp_ret; (split; [done|]); [|done]. intros _. right. exists phase.
    split; [|done]. unfold phase_in. by rewrite Hr, Hp.
  - destruct (errors_Is _ err); [|by apply wp_throw]. apply wp_ret. split; [done|]. intros _. left. by apply Hr.
Qed.

Lemma admit_held_spec turnID held w :
  wp (admit_held turnID held) (fun r w' => untouched w w' /\
    (r = Ok None -> forall id, id ∈ held -> RequireTurnEntityID turnID id <> Ok tt ->
       graph_of w !! id = None \/ exists p, phase_in (graph_of w) id = Some p /\ IsTerminal p = true)) w.
Proof.
  revert w. induction held as [|id rest IH]; intros w; cbn [admit_held].
  { apply wp_ret. split; [done|]. intros _ id Hin. by apply elem_of_nil in Hin. }
  destruct (RequireTurnEntityID turnID id) as [[]|err] eqn:Eown.
  - eapply wp_mono; [apply IH|]. intros r w' [Hu Hr]. split; [done|]. intros Hn id' [->|Hin]%elem_of_cons Hne; [done|].
    by apply Hr.
  - apply wp_bind. eapply wp_mono; [apply refuseIfLive_spec|]. intros [[refusal|]|e] w1 [Hu Hr]; [by apply wp_ret| |done].
    eapply wp_mono; [apply IH|]. intros r w2 [Hu2 Hr2]. split; [by eapply untouched_trans|].
    intros Hn id' [->|Hin]%elem_of_cons Hne; [by apply Hr|]. rewrite <- (proj1 Hu). by apply Hr2.
Qed.

Lemma admit_action_spec playerID turnID w :
  wp (admit_action playerID turnID) (fun r w' => untouched w w' /\ (r = Ok None -> may_act (graph_of w) playerID turnID)) w.
Proof.
  unfold admit_action. apply wp_look. intros [e|err] w1 Hu Hr.
  - eapply wp_mono; [apply admit_held_spec|]. intros r w2 [Hu2 Hr2]. split; [by eapply untouched_trans|].
    intros Hn. exists e. split; [done|]. rewrite <- (proj1 Hu). by apply Hr2.
  - destruct (errors_Is _ err); by apply wp_throw.
Qed.

Lemma submit_admitted_spec g connID raw session submission actionID w w0 :
  untouched w0 w -> get_session connID (sessions_of w0) = Some session -> decode raw = Ok submission ->
  ActionIDFor (se_PlayerID session) (sa_IdempotencyKey submission) = Ok actionID ->
  may_act (graph_of w0) (se_PlayerID session) (TurnIDForAction actionID) ->
  wp (submit_admitted g session submission actionID) (fun r w' => graph_of w' = graph_of w0 /\ sessions_of w' = sessions_of w0 /\
    exists answer, r = Ok answer /\ submission_outcome g connID raw w0 w' answer) w.
Proof.
  intros Hu Hsession Hdecode Hid Hmay. unfold submit_admitted, canonical.
  apply wp_bind, wp_tick. intros at_ w1 Hu1. apply wp_ret.
  pose proof (untouched_trans _ _ _ Hu Hu1) as (Hg & Hst & Hse).
  match goal with |- context [PlayerAction_Validate ?a] => set (action := a) end.
  assert (Hquiet : forall answer, (forall response, answer.1 = Some response -> sp_Status response = StatusRefused) ->
    graph_of w1 = graph_of w0 /\ sessions_of w1 = sessions_of w0 /\
    exists a, Ok (E := error) answer = Ok a /\ submission_outcome g connID raw w0 w1 a).
  { intros answer Ha. split_and!; [done|done|]. exists answer. split; [done|]. by apply nothing_published. }
  destruct (PlayerAction_Validate action) as [[]|err] eqn:Ev; [|apply wp_ret, Hquiet; by intros ? [= <-]].
  apply wp_bind, wp_attempt. unfold publish_action. apply wp_lift_bind.
  2: { intros e _. apply wp_ret, Hquiet. by intros ? [= <-]. }
  intros data Hdata%wrapf_ok. apply wp_bind, wp_attempt. unfold wp at 1.
  pose proof (gateway_publish (gw_subject g) data (pa_ActionID action) w1) as Hpub.
  destruct (PublishToStreamWithMsgID (gw_subject g) data (pa_ActionID action) w1) as [r w2]. cbn [fst snd] in *.
  destruct Hpub as (Hg2 & Hse2 & Hst2). apply wp_lift.
  assert (Hpublishes : publishes g connID raw w0 action data) by (exists session, submission; by split_and!).
  assert (Hframe : graph_of w2 = graph_of w0 /\ sessions_of w2 = sessions_of w0) by (split; congruence).
  destruct r as [u|err]; cbn [wrapf].
  - destruct Hst2 as [Hst2|[Hno _]]; [|done]. apply wp_ret.
    split; [apply Hframe|]. split; [apply Hframe|]. eexists. split; [reflexivity|].
    eapply one_action; [exact Hpublishes|by rewrite Hst2, Hst|]. intros Hnone.
    destruct (SubmitResponse_Validate _) as [[]|e] eqn:Er; [|done]. eexists. cbn. by split_and!.
  - apply wp_ret. split; [apply Hframe|]. split; [apply Hframe|]. eexists. split; [reflexivity|].
    destruct Hst2 as [Hst2|[_ Hst2]].
    + eapply one_action; [exact Hpublishes|by rewrite Hst2, Hst|]. by intros [=].
    + apply nothing_published; [congruence|]. by intros ? [= <-].
Qed.

(** C12: a submission publishes at most the action it answers for. Whatever the
    stores and the broker do, submitting returns an answer and changes neither
    graph nor sessions; at most one action is published, and then it is the
    submitted text of the connection's own player, under the identity derived
    from player and key, at a moment when every turn the player's current
    pointer names, this action's own apart, is over or not there; an acceptance
    names exactly that action, and where nothing is published the answer is a
    refusal. A live turn the pointer does not name refuses nothing
    ([an_unnamed_live_turn_refuses_nothing] below): that is the window the
    gateway's documentation concedes. *)
Theorem submission_publishes_its_action (g : Gateway) (connID raw : string) (w : W) r w'
    (Hrun : Gateway_Submit g connID raw w = (r, w')) :
  graph_of w' = graph_of w /\ sessions_of w' = sessions_of w /\
  exists answer, r = Ok answer /\ submission_outcome g connID raw w w' answer.
Proof.
  pattern r, w'. eapply wp_elim; [|exact Hrun]. clear r w' Hrun.
  assert (Hquiet : forall answer w1, untouched w w1 ->
    (forall response, answer.1 = Some response -> sp_Status response = StatusRefused) ->
    graph_of w1 = graph_of w /\ sessions_of w1 = sessions_of w /\
    exists a, Ok (E := error) answer = Ok a /\ submission_outcome g connID raw w w1 a).
  { intros answer w1 (? & ? & ?) Ha. split_and!; [done|done|]. exists answer. split; [done|]. by apply nothing_published. }
  unfold Gateway_Submit. apply wp_bind. unfold wp at 1, read_sessions. cbn [fst snd].
  destruct (get_session connID (sessions_of w)) as [session|] eqn:Es; [|apply wp_ret, Hquiet; [done|by intros ? [= <-]]].
  destruct (decode raw) as [submission|refusal] eqn:Ed; [|apply wp_ret, Hquiet; [done|by intros ? [= <-]]].
  destruct (ActionIDFor _ _) as [actionID|err] eqn:Ei; [|apply wp_ret, Hquiet; [done|by intros ? [= <-]]].
  apply wp_bind, wp_attempt. eapply wp_mono; [apply admit_action_spec|].
  intros [[refusal|]|err] w1 [Hu Hmay]; [apply wp_ret, Hquiet; [done|by intros ? [= <-]]| |apply wp_ret, Hquiet; [done|by intros ? [= <-]]].
  eapply submit_admitted_spec; [exact Hu|exact Es|exact Ed|exact Ei|by apply Hmay].
Qed.
End submit.

(** ** At work *)

(** The in-memory world with a state of one's own beside it. *)
Module Beside.
Section beside.
Context {X : Type}.

Definition beside {A} (m : MW World A) : MW (World * X) A := fun w => let '(r, w1) := m w.1 in (r, (w1, w.2)).

#[export] Instance beside_graph : HasGraph (World * X) := {| graph_of w := graph_of w.1 |}.
#[export] Instance beside_clock : Clock (World * X) := {| now w := let '(t, w1) := now w.1 in (t, (w1, w.2)) |}.
#[export] Instance beside_store : GraphStore (World * X) := {|
  CreateEntity c e := beside (CreateEntity c e); GetEntity id := beside (GetEntity id);
  Reconcile t id desired := beside (Reconcile t id desired) |}.

Lemma wp_beside {A} (m : MW World A) (Q : res A -> World * X -> Prop) w :
  wp m (fun r w1 => Q r (w1, w.2)) w.1 -> wp (beside m) Q w.
Proof. unfold wp, beside. by destruct (m w.1). Qed.

Lemma beside_state {A} (m : MW World A) (w : World * X) : (beside m w).2.2 = w.2.
Proof. unfold beside. by destruct (m w.1). Qed.

#[export] Instance beside_store_laws : GraphStoreLaws (World * X).
Proof.
  split.
  - intros id w. apply wp_beside. exact (GetEntity_spec id w.1).
  - intros t id d w. apply wp_beside. exact (Reconcile_spec t id d w.1).
  - intros c e w. apply wp_beside. exact (CreateEntity_spec c e w.1).
  - intros w. pose proof (now_spec w.1) as Hs. unfold now at 1, beside_clock. by destruct (now w.1).
Qed.
End beside.
End Beside.
Import Beside.

Module GatewayDemo.
(** The table and the stream beside the world. *)
Definition GW : Type := World * (sessions * list (string * string * string)).
#[export] Instance gw_sessions : HasSessions GW := {|
  sessions_of w := w.2.1; with_sessions s w := (w.1, (s, w.2.2)) |}.
#[export] Instance gw_stream : HasStream GW := {| stream_of w := w.2.2 |}.
#[export] Instance gw_publisher : ActionPublisher GW := {|
  PublishToStreamWithMsgID subject data msgID w := (Ok tt, (w.1, (w.2.1, w.2.2 ++ [(subject, data, msgID)]))) |}.
#[export] Instance gw_roster : Authenticator GW := {|
  auth_Authenticate credential := lift (Roster_Authenticate {| ro_entries := [("sesame"%string, Demo.player_id)] |} credential) |}.
#[export] Instance gw_envelope : ActionEnvelope := {| envelope_bytes action := Ok (pa_Text action) |}.
#[export] Instance gw_text : SubmissionText := {|
  submission_names _ := Ok (Some ["text"; "protocol"; "idempotency_key"]%string);
  submission_fields data := Ok {| sa_Protocol := PlayerProtocolV1; sa_Text := data; sa_IdempotencyKey := "key-1" |};
  submission_key _ := Ok "key-1"%string |}.

#[export] Instance gw_laws : GatewayLaws GW.
Proof.
  split.
  - intros id w. pose proof (beside_state (GetEntity id) w) as Hs. split; [exact (f_equal snd Hs)|exact (f_equal fst Hs)].
  - intros w. unfold now, beside_clock. by destruct (now w.1).
  - intros subject data msgID w. cbn. auto.
Qed.

Definition ada : Connection := {| cn_ID := "conn-1"; cn_Adapter := "websocket"; cn_ReplyTo := "ada"; cn_Writer := None |}.
Definition gate : Gateway := {|
  gw_config := {| gc_CampaignID := "acme.semmachina.barrow.case.campaign.main";
                  gc_SceneID := "acme.semmachina.barrow.case.scene.hall" |};
  gw_subject := "player.action.submitted" |}.
Definition opened (limit : Z) : GW := (Demo.world [], (newSessions limit, [])).
(** Ada is connected. *)
Definition connected : GW := (Gateway_Authenticate "sesame" ada (opened 1)).2.
Definition submitted : res Answer * GW := Gateway_Submit gate "conn-1" "I search the hall" connected.
(** A turn of hers is being resolved that her pointer does not name. *)
Definition other_turn : string := "acme.semmachina.barrow.case.turn.turn-z9".
Definition crowded : GW :=
  (mkWorld (<[other_turn := with_triples (Demo.bare other_turn)
      [Demo.string_triple other_turn TurnPhaseCurrent PhaseResolving;
       Demo.string_triple other_turn TurnActionPlayer Demo.player_id]]> (graph_of connected)) 10 [] [], connected.2).
Definition action_id : string := match ActionIDFor Demo.player_id "key-1" with Ok id => id | Err _ => EmptyString end.
End GatewayDemo.
Import GatewayDemo.

Lemma sessions_are_exactly_the_players_witness :
  let s := (put {| se_PlayerID := Demo.player_id; se_Connection := ada |} (newSessions 1)).2 in
  forPlayer Demo.player_id s = [{| se_PlayerID := Demo.player_id; se_Connection := ada |}] /\
  NoDup (forPlayer Demo.player_id s) /\ Z.of_nat (List.length (forPlayer Demo.player_id s)) <= Z.max 0 1.
Proof.
  split; [vm_compute; reflexivity|].
  apply (sessions_are_exactly_the_players 1 _ Demo.player_id). apply rtc_once. constructor.
Defined.

Lemma action_ids_name_submissions_witness :
  ActionIDFor Demo.player_id "key-1" = Ok action_id /\ len action_id = 52 /\
  ((Demo.player_id = Demo.player_id /\ "key-1"%string = "key-1"%string) \/
   (bytes_of actionIDDomain ++ frame [Demo.player_id; "key-1"%string] <>
    bytes_of actionIDDomain ++ frame [Demo.player_id; "key-1"%string] /\
    action_digest Demo.player_id "key-1" = action_digest Demo.player_id "key-1")).
Proof.
  assert (Hid : ActionIDFor Demo.player_id "key-1" = Ok action_id) by (vm_compute; reflexivity).
  split; [exact Hid|]. split; [vm_compute; reflexivity|].
  apply (action_ids_name_submissions Demo.player_id Demo.player_id "key-1" "key-1" action_id); [reflexivity|exact Hid|exact Hid].
Defined.

Example an_unnamed_live_turn_refuses_nothing :
  phase_in (graph_of crowded) other_turn = Some PhaseResolving /\
  stream_of (Gateway_Submit gate "conn-1" "I search the hall" crowded).2 =
    [("player.action.submitted"%string, "I search the hall"%string, action_id)] .
Proof. vm_compute. split; reflexivity. Qed.

Lemma submission_publishes_its_action_witness :
  exists response, submitted.1 = Ok (Some response, None) /\ sp_ActionID response = action_id /\
    stream_of submitted.2 = [("player.action.submitted"%string, "I search the hall"%string, action_id)] /\
    exists answer, submitted.1 = Ok answer /\ submission_outcome gate "conn-1" "I search the hall" connected submitted.2 answer.
Proof.
  eexists. split; [vm_compute; reflexivity|]. split; [vm_compute; reflexivity|]. split; [vm_compute; reflexivity|].
  destruct (submission_publishes_its_action gate "conn-1" "I search the hall" connected submitted.1 submitted.2)
    as (_ & _ & Hanswer); [apply surjective_pairing|exact Hanswer].
Defined.
