(* ===== verification/EgressSpec.v ===== *)
(** What retrieval and delivery promise: a player is only ever shown their own
    turns, the latest of them when they ask for the latest, and an acknowledged
    notification has reached every live connection of its player. *)

From stdpp Require Import relations.
From S2P Require Import Prelude GoStd GoHash GoErrors Graph Vocab Vocabulary Payload Mechanics Decisions ContentRecords ContentStore ProjectionContract Store Campaign Sequencing GraphIO Turn Resume Ledger Delivery Gateway Egress MemStore TurnSpec PersonaSpec GatewaySpec.

Open Scope Z_scope.

(** ** Runs that returned *)

Section runs.
Context {W : Type}.
Implicit Types (w : W).

Lemma bind_ran {A B} (m : MW W A) (k : A -> MW W B) w b w' :
  (x ← m; k x) w = (Ok b, w') -> exists a w1, m w = (Ok a, w1) /\ k a w1 = (Ok b, w').
Proof. unfold mbind, M_bind. destruct (m w) as [[a|e] w1]; [|by intros [=]]. intros Hk. by exists a, w1. Qed.

Lemma lift_ran {A B} (r : res A) (k : A -> MW W B) w b w' :
  (x ← lift r; k x) w = (Ok b, w') -> exists a, r = Ok a /\ k a w = (Ok b, w').
Proof. intros (a & w1 & Hr & Hk)%bind_ran. injection Hr as -> ->. by exists a. Qed.

Lemma call_ran {A B} (m : MW W A) (k : res A -> MW W B) w b w' :
  (x ← attempt m; k x) w = (Ok b, w') -> exists r w1, m w = (r, w1) /\ k r w1 = (Ok b, w').
Proof.
  intros (r & w1 & Hr & Hk)%bind_ran. unfold attempt in Hr. destruct (m w) as [r0 w0]. injection Hr as -> ->. by exists r, w1.
Qed.

(** A call that leaves the world as it is. *)
Definition still {A} (m : MW W A) : Prop := forall w, (m w).2 = w.

Lemma still_ret {A} (a : A) : still (mret a).
Proof. done. Qed.
Lemma still_throw {A} (e : error) : still (throw (A := A) e).
Proof. done. Qed.
Lemma still_lift {A} (r : res A) : still (lift r).
Proof. done. Qed.
Lemma still_attempt {A} (m : MW W A) : still m -> still (attempt m).
Proof. intros Hm w. specialize (Hm w). unfold attempt. by destruct (m w). Qed.
Lemma still_bind {A B} (m : MW W A) (k : A -> MW W B) : still m -> (forall a, still (k a)) -> still (m ≫= k).
Proof.
  intros Hm Hk w. specialize (Hm w). unfold mbind, M_bind. destruct (m w) as [[a|e] w1]; cbn in *; [|done]. by rewrite Hk.
Qed.
Lemma still_ran {A} (m : MW W A) w r w' : still m -> m w = (r, w') -> w' = w.
Proof. intros Hm Hr. specialize (Hm w). by rewrite Hr in Hm. Qed.
End runs.

Create HintDb still.
#[export] Hint Resolve still_ret still_throw still_lift : still.

(** [stilly] walks a program; only calls are left, and the database closes them. *)
Ltac stilly :=
  repeat first
    [ solve [auto with still]
    | apply still_bind; [|intros ?]
    | apply still_attempt
    | match goal with |- still (match ?x with _ => _ end) => destruct x end ].

(** ** The surface *)

(** Reading is reading: the graph and the artifacts answer without changing. *)
Class ResultLaws (W : Type) `{GraphStore W, ResultArtifacts W} : Prop := {
  still_GetEntity id : still (W := W) (GetEntity id);
  still_GetRoll ref : still (W := W) (result_GetRoll ref);
  still_GetNarration ref : still (W := W) (result_GetNarration ref);
  still_GetStageRecord ref : still (W := W) (result_GetCompanionStageRecord ref);
  still_GetDecision ref : still (W := W) (result_GetCompanionDecision ref);
  (** the store's errors are not this surface's *)
  GetEntity_foreign id (w : W) err : (GetEntity id w).1 = Err err -> errors_Is ErrTurnNotFound err = false
}.

(** The result is the archive's own manifest of the turn, told to its player. *)
Definition tells (manifest : TurnManifest) (result : TurnResult) : Prop :=
  rt_TurnID result = m_TurnID manifest /\ rt_ActionID result = m_ActionID manifest /\
  rt_PlayerID result = m_PlayerID manifest /\ rt_Phase result = m_Phase manifest /\
  rt_NarrationRef result = m_NarrationRef manifest /\ rt_FailureReason result = m_FailureReason manifest /\
  rt_ResolvedAt result = m_RecordedAt manifest.

Section surface.
Context {W : Type} `{Substrate, HasGraph W, GraphStore W, Clock W, ResultArtifacts W}.
Context `{!GraphStoreLaws W, !ResultLaws W}.
Implicit Types (w : W).

#[local] Hint Extern 1 (still _) =>
  first [apply still_GetEntity | apply still_GetRoll | apply still_GetNarration | apply still_GetStageRecord
        | apply still_GetDecision] : still.

Lemma still_deliverable r turnID id state : still (W := W) (deliverable r turnID id state).
Proof.
  unfold deliverable, compose_result, deliver_resolution, deliver_roll, companionResolution, companion_record,
    companion_summary, deliver_narration. stilly.
Qed.
Lemma still_read_turn id : still (W := W) (read_turn id).
Proof. unfold read_turn. stilly. Qed.
#[local] Hint Resolve still_deliverable still_read_turn : still.

Lemma still_ByTurn r turnID : still (W := W) (ByTurn r turnID).
Proof. unfold ByTurn. stilly. Qed.
Lemma still_ByTurnForPlayer r playerID turnID : still (W := W) (ByTurnForPlayer r playerID turnID).
Proof. unfold ByTurnForPlayer. stilly. Qed.
Lemma still_latest_of r playerID candidates best : still (W := W) (latest_of r playerID candidates best).
Proof. revert best. induction candidates as [|c l IH]; intros best; cbn [latest_of]; stilly. Qed.
Lemma still_Latest r playerID : still (W := W) (Latest r playerID).
Proof. unfold Latest. stilly. apply still_latest_of. Qed.

(** A delivery that came back is coherent and tells the turn's own manifest. *)
Definition delivers (r : Results) (turnID : string) (state : EntityState) (d : TurnDelivery) : Prop :=
  exists manifest result, Compose turnID (Some state) (re_campaignID r) = Ok manifest /\
    td_Result d = Some result /\ tells manifest result /\ TurnDelivery_Validate d = Ok tt.

Lemma deliverable_ran r turnID id state w d w' :
  deliverable r turnID id state w = (Ok d, w') -> delivers r turnID state d.
Proof.
  unfold deliverable, compose_result. intros Hrun. apply bind_ran in Hrun as (result & w1 & Hc & Hrun).
  apply lift_ran in Hc as (phase & _ & Hc). destruct (negb _); [done|].
  apply lift_ran in Hc as (manifest & Hm & Hc). apply bind_ran in Hc as (resolution & w2 & _ & Hc).
  apply bind_ran in Hc as (companion & w3 & _ & Hc). apply lift_ran in Hc as (u & _ & Hc).
  injection Hc as <- <-. apply bind_ran in Hrun as (narration & w4 & _ & Hrun).
  apply lift_ran in Hrun as ([] & Hv%wrapf_ok & Hrun). injection Hrun as <- <-.
  exists manifest. eexists. split; [done|]. split; [reflexivity|]. split; [|done]. by unfold tells.
Qed.

Lemma read_turn_ran id w state w' : read_turn id w = (Ok state, w') -> graph_of w !! id = Some state.
Proof.
  unfold read_turn. intros Hrun. apply call_ran in Hrun as ([e|err] & w1 & Hg & Hrun).
  - injection Hrun as -> ->. pose proof (GetEntity_spec id w) as Hs. unfold wp in Hs. rewrite Hg in Hs. by destruct Hs.
  - by destruct (errors_Is _ err).
Qed.

(** The turn's two readers of its player agree. *)
Lemma owner_is_player state owner player : resultOwner state = Ok owner -> requiredString state TurnActionPlayer = Ok player -> player = owner.
Proof.
  unfold resultOwner. intros Ho Hp. apply result_bind_ok in Ho as (o & Ho & Hv). apply result_bind_ok in Hv as (u & _ & [= <-]).
  unfold requiredString, optionalString in Hp. apply result_bind_ok in Hp as (v & Hp & Hne).
  destruct (String.eqb_spec v EmptyString) as [|Hv]; [done|]. injection Hne as <-. apply result_bind_ok in Hp as (t & Hs & Hp).
  unfold soleTriple in Hs. unfold result_soleString, objectsFor, triplesFor in Ho.
  destruct (List.filter _ (Triples state)) as [|t1 [|t2 l]]; [injection Hs as <-; by injection Hp as <-| |done]. injection Hs as <-. cbn in Ho.
  destruct (Object t1); try discriminate Hp. injection Hp as <-. by injection Ho as <-.
Qed.

Lemma Compose_player turnID state campaignID manifest : Compose turnID (Some state) campaignID = Ok manifest ->
  requiredString state TurnActionPlayer = Ok (m_PlayerID manifest) /\ m_TurnID manifest = turnID /\
  RequireTurnEntityID turnID (ID state) = Ok tt.
Proof.
  unfold Compose. intros Hc. apply result_bind_ok in Hc as ([] & Hid & Hc).
  apply result_bind_ok in Hc as (? & _ & Hc). apply result_bind_ok in Hc as (? & _ & Hc).
  apply result_bind_ok in Hc as (player & Hp & Hc).
  do 9 (apply result_bind_ok in Hc as (? & _ & Hc)). by injection Hc as <-.
Qed.

(** The turn's own delivery, when the player who asks owns the turn. *)
Definition own_result (r : Results) (w : W) (playerID id : string) (d : TurnDelivery) : Prop :=
  exists state turnID, graph_of w !! id = Some state /\ resultOwner state = Ok playerID /\
    deliverable r turnID id state w = (Ok d, w).

(** The ways a player asks. *)
Inductive lookup : Type := by_turn (turnID : string) | by_action (actionID : string) | the_latest.

Definition run_lookup (r : Results) (playerID : string) (l : lookup) : MW W TurnDelivery :=
  match l with
  | by_turn turnID => ByTurnForPlayer r playerID turnID
  | by_action actionID => ByActionForPlayer r playerID actionID
  | the_latest => Latest r playerID
  end.

Lemma ByTurnForPlayer_ran r playerID turnID w d w' :
  ByTurnForPlayer r playerID turnID w = (Ok d, w') -> exists id, own_result r w playerID id d.
Proof.
  unfold ByTurnForPlayer. intros Hrun. apply lift_ran in Hrun as (? & _ & Hrun). apply lift_ran in Hrun as (id & _ & Hrun).
  apply bind_ran in Hrun as (state & w1 & Hread & Hrun). pose proof (still_ran _ _ _ _ (still_read_turn id) Hread) as ->.
  apply lift_ran in Hrun as (owner & Ho & Hrun). destruct (String.eqb_spec owner playerID) as [->|]; [|discriminate Hrun].
  pose proof (still_ran _ _ _ _ (still_deliverable r turnID id state) Hrun) as ->.
  exists id, state, turnID. split; [by eapply read_turn_ran|]. by split.
Qed.

Lemma newer_spec best d : exists d', newer best d = Some d' /\ resolved_at d <= resolved_at d' /\
  (forall b, best = Some b -> resolved_at b <= resolved_at d') /\ (d' = d \/ best = Some d').
Proof.
  destruct best as [b|]; cbn [newer].
  - destruct (Z.ltb_spec (resolved_at b) (resolved_at d)).
    + exists d. split_and!; [done|lia| |by left]. intros b' [= <-]. lia.
    + exists b. split_and!; [done|lia| |by right]. intros b' [= <-]. lia.
  - exists d. split_and!; [done|lia|done|by left].
Qed.

Lemma read_turn_present id w state : graph_of w !! id = Some state -> forall err w', read_turn id w = (Err err, w') ->
  errors_Is ErrTurnNotFound err = false.
Proof.
  intros Hs err w' Hrun. unfold read_turn, mbind, M_bind, attempt in Hrun.
  pose proof (GetEntity_spec id w) as Hg. pose proof (GetEntity_foreign id w) as Hf. unfold wp in Hg.
  destruct (GetEntity id w) as [[e|err0] w0]; [discriminate Hrun|]. cbn in Hg, Hf. destruct Hg as [_ Hg].
  destruct (errors_Is ErrEntityNotFound err0) eqn:En; [rewrite (Hg eq_refl) in Hs; discriminate Hs|].
  injection Hrun as <- <-. rewrite errors_Is_Errorf. cbn. by rewrite (Hf err0 eq_refl).
Qed.

(** What a walk over candidates makes of the best one so far. *)
Definition kept (r : Results) (w : W) (playerID : string) (candidates : list string) (best best' : option TurnDelivery) : Prop :=
  (forall d, best' = Some d -> best = Some d \/ exists id, id ∈ candidates /\ own_result r w playerID id d) /\
  (forall d, best = Some d -> exists d', best' = Some d' /\ resolved_at d <= resolved_at d') /\
  (forall id d turnID state, id ∈ candidates -> result_turnIDOf id = Ok turnID -> graph_of w !! id = Some state ->
     resultOwner state = Ok playerID -> deliverable r turnID id state w = (Ok d, w) ->
     exists d', best' = Some d' /\ resolved_at d <= resolved_at d').

(** A candidate without an own result is passed over. *)
Lemma kept_skip r w playerID c rest best best' : kept r w playerID rest best best' ->
  (forall turnID state d, result_turnIDOf c = Ok turnID -> graph_of w !! c = Some state -> resultOwner state = Ok playerID ->
     deliverable r turnID c state w = (Ok d, w) -> False) ->
  kept r w playerID (c :: rest) best best'.
Proof.
  intros (K1 & K2 & K3) Hno. split_and!; [|done|].
  - intros d Hd. destruct (K1 d Hd) as [|(id & Hin & Ho)]; [by left|]. right. exists id. split; [by right|done].
  - intros id d turnID state [->|Hin]%elem_of_cons Ht Hs Ho Hd; [by destruct (Hno turnID state d)|]. by eapply K3.
Qed.

Lemma latest_of_ran r playerID candidates best w best' w' :
  latest_of r playerID candidates best w = (Ok best', w') -> kept r w playerID candidates best best'.
Proof.
  revert best. induction candidates as [|c rest IH]; intros best Hrun; cbn [latest_of] in Hrun.
  { injection Hrun as <- <-. split_and!; [by left|intros d ->; exists d; split; [done|lia]|].
    intros id d turnID state Hin. by apply elem_of_nil in Hin. }
  destruct (result_turnIDOf c) as [turnID|err] eqn:Et.
  2: { apply kept_skip; [by apply IH|]. intros turnID state d Ht. by rewrite Et in Ht. }
  apply call_ran in Hrun as ([state|err] & w1 & Hread & Hrun); pose proof (still_ran _ _ _ _ (still_read_turn c) Hread) as ->.
  2: { destruct (errors_Is ErrTurnNotFound err) eqn:En; [|discriminate Hrun]. apply kept_skip; [by apply IH|].
       intros turnID' state d _ Hs _ _. by rewrite (read_turn_present _ _ _ Hs _ _ Hread) in En. }
  pose proof (read_turn_ran _ _ _ _ Hread) as Hs.
  apply lift_ran in Hrun as (owner & Ho & Hrun). destruct (String.eqb_spec owner playerID) as [->|Hne]; cbn [negb] in Hrun.
  2: { apply kept_skip; [by apply IH|]. intros turnID' state' d _ Hs' Ho'. rewrite Hs in Hs'. congruence. }
  apply call_ran in Hrun as ([d|err] & w1 & Hd & Hrun); pose proof (still_ran _ _ _ _ (still_deliverable r turnID c state) Hd) as ->.
  2: { destruct (errors_Is ErrNoResult err); [|discriminate Hrun]. apply kept_skip; [by apply IH|].
       intros turnID' state' d Ht' Hs' _ Hd'. rewrite Hs in Hs'. rewrite Et in Ht'. congruence. }
  destruct (IH _ Hrun) as (K1 & K2 & K3). destruct (newer_spec best d) as (d1 & Hn & Hle & Hbest & Hor).
  destruct (K2 d1 Hn) as (d2 & -> & Hle2). split_and!.
  - intros d3 [= <-]. destruct (K1 d2 eq_refl) as [Heq|(id & Hin & Hown)]; [|right; exists id; split; [by right|done]].
    rewrite Hn in Heq. injection Heq as ->. destruct Hor as [->|Hb]; [|by left].
    right. exists c. split; [by left|]. exists state, turnID. by split_and!.
  - intros b Hb. exists d2. split; [done|]. pose proof (Hbest b Hb). lia.
  - intros id d3 turnID' state' [->|Hin]%elem_of_cons Ht' Hs' Ho' Hd'; [|by eapply K3].
    exists d2. split; [done|]. rewrite Hs in Hs'. rewrite Et in Ht'. injection Hs' as <-. injection Ht' as <-.
    rewrite Hd in Hd'. injection Hd' as <-. lia.
Qed.

Lemma Latest_ran r playerID w d w' : Latest r playerID w = (Ok d, w') ->
  exists player, graph_of w !! playerID = Some player /\
    kept r w playerID (candidateTurns (Some player)) None (Some d).
Proof.
  unfold Latest. intros Hrun. apply lift_ran in Hrun as (? & _ & Hrun).
  apply call_ran in Hrun as ([player|err] & w1 & Hread & Hrun); [|by destruct (errors_Is _ err)].
  pose proof (still_ran _ _ _ _ (still_GetEntity playerID) Hread) as ->.
  pose proof (GetEntity_spec playerID w) as Hg. unfold wp in Hg. rewrite Hread in Hg. destruct Hg as [_ Hg].
  destruct (Nat.eqb _ 0); [discriminate Hrun|]. apply bind_ran in Hrun as ([best|] & w1 & Hl & Hrun); [|discriminate Hrun].
  injection Hrun as <- <-. exists player. split; [done|]. by eapply latest_of_ran.
Qed.

(** C13: players see their own turns only. Whatever the store holds - another
    player's turn under a pointer, a forged reference - a lookup on a player's
    behalf changes nothing, and what it returns is a coherent delivery whose
    result is that player's own: the archive's manifest of a turn of the graph. *)
Theorem players_see_their_own_turns (r : Results) (playerID : string) (l : lookup) (w : W) answer w'
    (Hrun : run_lookup r playerID l w = (answer, w')) :
  w' = w /\
  (forall d, answer = Ok d -> exists id state turnID manifest result,
     graph_of w !! id = Some state /\ Compose turnID (Some state) (re_campaignID r) = Ok manifest /\
     td_Result d = Some result /\ tells manifest result /\ rt_PlayerID result = playerID /\
     TurnDelivery_Validate d = Ok tt).
Proof.
  split.
  { eapply still_ran; [|exact Hrun]. destruct l; cbn [run_lookup]; [apply still_ByTurnForPlayer| |apply still_Latest].
    unfold ByActionForPlayer. apply still_bind; [done|]. intros _. apply still_ByTurnForPlayer. }
  intros d ->. assert (Hown : exists id, own_result r w playerID id d).
  { destruct l; cbn [run_lookup] in Hrun.
    - by eapply ByTurnForPlayer_ran.
    - unfold ByActionForPlayer in Hrun. apply lift_ran in Hrun as (? & _ & Hrun). by eapply ByTurnForPlayer_ran.
    - apply Latest_ran in Hrun as (player & _ & Hk & _). destruct (Hk d eq_refl) as [|(id & _ & Hown)]; [done|by exists id]. }
  destruct Hown as (id & state & turnID & Hs & Ho & Hd). destruct (deliverable_ran _ _ _ _ _ _ _ Hd) as (m & result & Hm & Hr & Ht & Hv).
  exists id, state, turnID, m, result. split_and!; try done.
  destruct Ht as (_ & _ & -> & _). eapply owner_is_player; [exact Ho|]. by apply Compose_player in Hm as (? & _).
Qed.

(** The latest result is the latest. What a player is told is one of the
    turns their pointers name, their own; and no other turn those pointers name,
    of theirs and with a result, ended later - whatever order the pointers were
    written in. *)
Theorem latest_result_is_the_latest (r : Results) (playerID : string) (w : W) d w'
    (Hrun : Latest r playerID w = (Ok d, w')) :
  exists player, graph_of w !! playerID = Some player /\
    (exists id, id ∈ candidateTurns (Some player) /\ own_result r w playerID id d) /\
    forall id turnID state d', id ∈ candidateTurns (Some player) -> result_turnIDOf id = Ok turnID ->
      graph_of w !! id = Some state -> resultOwner state = Ok playerID -> deliverable r turnID id state w = (Ok d', w) ->
      resolved_at d' <= resolved_at d.
Proof.
  apply Latest_ran in Hrun as (player & Hp & K1 & _ & K3). exists player. split; [done|]. split.
  - destruct (K1 d eq_refl) as [|Hown]; done.
  - intros id turnID state d' Hin Ht Hs Ho Hd. destruct (K3 _ _ _ _ Hin Ht Hs Ho Hd) as (d2 & [= <-] & Hle). done.
Qed.
End surface.

(** ** Delivery *)

(** What the sink has handed to which connection. *)
Class HasDeliveries (W : Type) : Type := { deliveries : W -> list (Session * TurnDelivery) }.

(** A delivery to a connection is on its record, or failed - maybe after it
    reached the connection all the same - and touches nothing else. *)
Class SinkLaws (W : Type) `{HasSessions W, HasDeliveries W, Sink W} : Prop := {
  sink_spec session d (w : W) :
    let '(res, w') := sink_Deliver session d w in
    sessions_of w' = sessions_of w /\
    (deliveries w' = deliveries w ++ [(session, d)] \/ (is_ok res = false /\ deliveries w' = deliveries w))
}.

Section delivery.
Context {W : Type} `{Substrate, HasGraph W, GraphStore W, Clock W, ResultArtifacts W, HasSessions W, HasDeliveries W, Sink W}.
Context `{!GraphStoreLaws W, !ResultLaws W, !SinkLaws W}.
Implicit Types (w : W).

(** Handed out to these sessions, some of them perhaps in vain. *)
Definition handed_out (d : TurnDelivery) (recipients : list Session) (w w' : W) : Prop :=
  sessions_of w' = sessions_of w /\
  exists reached, sublist reached recipients /\ deliveries w' = deliveries w ++ map (fun s => (s, d)) reached.

Lemma deliver_each_spec d recipients sent errs w :
  wp (deliver_each d recipients sent errs) (fun r w' => handed_out d recipients w w' /\
    exists sent' errs', r = Ok (sent', errs') /\
      (errs' = [] -> errs = [] /\ deliveries w' = deliveries w ++ map (fun s => (s, d)) recipients)) w.
Proof.
  revert sent errs w. induction recipients as [|s rest IH]; intros sent errs w; cbn [deliver_each].
  { apply wp_ret. split; [split; [done|]; exists []; by rewrite app_nil_r|]. exists sent, errs. split; [done|].
    intros ->. by rewrite app_nil_r. }
  apply wp_bind, wp_attempt. pose proof (sink_spec s d w) as Hs. unfold wp at 1.
  destruct (sink_Deliver s d w) as [res w1]. cbn [fst snd]. destruct Hs as [Hse Hst].
  assert (Hout : forall w2, handed_out d rest w1 w2 -> handed_out d (s :: rest) w w2).
  { intros w2 (Hse2 & reached & Hsub & Hd). split; [congruence|]. destruct Hst as [Hst|[_ Hst]].
    - exists (s :: reached). split; [by constructor|]. rewrite Hd, Hst, <- app_assoc. done.
    - exists reached. split; [by constructor|]. by rewrite Hd, Hst. }
  destruct res as [u|err]; (eapply wp_mono; [apply IH|]); intros r w2 (Ho & sent' & errs' & -> & Hall);
    (split; [by apply Hout|]); exists sent', errs'; (split; [done|]); intros Hn; destruct (Hall Hn) as [He Hd].
  - split; [done|]. destruct Hst as [Hst|[? _]]; [|done]. by rewrite Hd, Hst, <- app_assoc.
  - by destruct errs.
Qed.

(** Whom a delivery is for. *)
Definition addressee (d : TurnDelivery) : string := match td_Result d with Some result => rt_PlayerID result | None => EmptyString end.

Lemma Router_Deliver_spec d w :
  wp (Router_Deliver (Some d)) (fun r w' => handed_out d (forPlayer (addressee d) (sessions_of w)) w w' /\
    forall outcome, r = Ok (outcome, None) ->
      deliveries w' = deliveries w ++ map (fun s => (s, d)) (forPlayer (addressee d) (sessions_of w))) w.
Proof.
  assert (Hnone : forall recipients, handed_out d recipients w w).
  { intros recipients. split; [done|]. exists []. split; [apply sublist_nil_l|by rewrite app_nil_r]. }
  unfold Router_Deliver. apply wp_lift_bind; [intros _ _|by intros e _]. unfold Gateway_SessionsFor, read_sessions.
  apply wp_bind, wp_bind. unfold wp at 1. cbn [fst snd]. apply wp_ret. fold (addressee d).
  destruct (Nat.eqb_spec (List.length (forPlayer (addressee d) (sessions_of w))) 0) as [Hz|Hz].
  { apply wp_ret. split; [done|]. intros outcome _. apply nil_length_inv in Hz. rewrite Hz. by rewrite app_nil_r. }
  apply wp_bind. eapply wp_mono; [apply deliver_each_spec|]. intros r w1 (Ho & sent & errs & -> & Hall).
  apply wp_ret. split; [done|]. intros outcome [= _ He]. destruct errs; [|done]. by apply Hall.
Qed.

(** The notified turn's own delivery. *)
Definition notified (r : Results) (decoded : res rulePublication) (w : W) (d : TurnDelivery) : Prop :=
  exists event id state, ParseResolvedEvent decoded = Ok event /\ EntityID (re_identity r) (re_TurnID event) = Ok id /\
    graph_of w !! id = Some state /\ delivers r (re_TurnID event) state d.

(** C14: an acknowledged notification has reached its player. Handling the
    notification of a resolved turn hands out one coherent delivery at most, and
    to live connections of the result's own player alone; when it returns
    without an error the delivery is the notified turn's, and every connection
    the player holds has received it. *)
Theorem acknowledged_notification_reached_its_player (r : Results) (decoded : res rulePublication) (w : W) answer w'
    (Htable : table_ok (sessions_of w)) (Hrun : Notifier_Handle r decoded w = (answer, w')) :
  (exists out, deliveries w' = deliveries w ++ out /\
     forall session d, (session, d) ∈ out -> notified r decoded w d /\ se_PlayerID session = addressee d) /\
  (answer = Ok tt -> exists d, notified r decoded w d /\
     deliveries w' = deliveries w ++ map (fun s => (s, d)) (forPlayer (addressee d) (sessions_of w))).
Proof.
  pattern answer, w'. eapply wp_elim; [|exact Hrun]. clear answer w' Hrun.
  assert (Hnone : forall e : error, (exists out, deliveries w = deliveries w ++ out /\
     forall session d, (session, d) ∈ out -> notified r decoded w d /\ se_PlayerID session = addressee d) /\
     (Err (A := unit) e = Ok tt -> exists d, notified r decoded w d /\
       deliveries w = deliveries w ++ map (fun s => (s, d)) (forPlayer (addressee d) (sessions_of w)))).
  { intros e. split; [|done]. exists []. split; [by rewrite app_nil_r|]. intros session d Hin. by apply elem_of_nil in Hin. }
  unfold Notifier_Handle. destruct (ParseResolvedEvent decoded) as [event|err] eqn:Ep; [|by apply wp_throw].
  apply wp_bind, wp_attempt. unfold wp at 1. destruct (ByTurn r (re_TurnID event) w) as [found w1] eqn:Hby. cbn [fst snd].
  pose proof (still_ran _ _ _ _ (still_ByTurn r (re_TurnID event)) Hby) as ->.
  destruct found as [d|err].
  2: { destruct (errors_Is _ err); [by apply wp_throw|]. destruct (errors_Is _ err); [by apply wp_throw|].
       destruct (errors_Is _ err); by apply wp_throw. }
  assert (Hd : notified r decoded w d).
  { unfold ByTurn in Hby. apply lift_ran in Hby as (id & Hid & Hby). apply bind_ran in Hby as (state & w1 & Hread & Hby).
    pose proof (still_ran _ _ _ _ (still_read_turn id) Hread) as ->. exists event, id, state. split_and!; try done.
    - by eapply read_turn_ran.
    - by eapply deliverable_ran. }
  apply wp_bind, wp_attempt. eapply wp_mono; [apply Router_Deliver_spec|].
  intros routed w2 [(Hse & reached & Hsub & Hout) Hall].
  assert (Hpart : exists out, deliveries w2 = deliveries w ++ out /\
     forall session d, (session, d) ∈ out -> notified r decoded w d /\ se_PlayerID session = addressee d).
  { eexists. split; [exact Hout|]. intros session d' (s & [= -> ->] & Hin)%list_elem_of_fmap. split; [done|].
    pose proof (elem_of_sublist _ _ _ Hin Hsub) as Hin2. by apply forPlayer_spec in Hin2 as [-> _]. }
  destruct routed as [[outcome [err|]]|err]; [by apply wp_throw| |by apply wp_throw].
  apply wp_ret. split; [exact Hpart|]. intros _. exists d. split; [done|]. by apply (Hall outcome).
Qed.
End delivery.

(** ** At work *)

Import Beside.

Module EgressDemo.
(** The session table and the record of deliveries beside the world. *)
Definition EW : Type := World * (sessions * list (Session * TurnDelivery)).
#[export] Instance ew_sessions : HasSessions EW := {|
  sessions_of w := w.2.1; with_sessions s w := (w.1, (s, w.2.2)) |}.
#[export] Instance ew_deliveries : HasDeliveries EW := {| deliveries w := w.2.2 |}.
#[export] Instance ew_sink : Sink EW := {|
  sink_Deliver session d w := (Ok tt, (w.1, (w.2.1, w.2.2 ++ [(session, d)]))) |}.
#[export] Instance ew_sink_laws : SinkLaws EW.
Proof. split. intros session d w. cbn. auto. Qed.

Definition narration_ref : string := "obj://content/turn/turn-a1/narration".
Definition stage_ref : string := "obj://content/turn/turn-a1/companion-stage".

#[export] Instance ew_artifacts : ResultArtifacts EW := {|
  result_GetRoll _ := throw (Sentinel ErrArtifactNotFound);
  result_GetNarration _ := mret {| n_TurnID := "turn-a1"; n_Band := BandAuto; n_Prose := "The hall is empty." |};
  result_GetCompanionStageRecord _ := mret {|
    csr_TurnID := "turn-a1"; csr_PlayerID := Demo.player_id; csr_CompanionID := EmptyString; csr_BondID := EmptyString;
    csr_Status := CompanionStageNoActiveBond; csr_TriggerKind := EmptyString; csr_TriggerSource := EmptyString;
    csr_DecisionRef := EmptyString |};
  result_GetCompanionDecision _ := throw (Sentinel ErrArtifactNotFound) |}.

(** A turn that was narrated without dice. *)
Definition told_turn : EntityState :=
  with_triples (Demo.bare Demo.turn_id)
    [Demo.string_triple Demo.turn_id TurnPhaseCurrent PhaseComplete;
     Demo.string_triple Demo.turn_id TurnActionPlayer Demo.player_id;
     Demo.string_triple Demo.turn_id TurnActionScene "acme.semmachina.barrow.case.scene.hall";
     Demo.string_triple Demo.turn_id TurnActionRef "obj://content/turn/turn-a1/action";
     Demo.string_triple Demo.turn_id TurnVerdictRef "obj://content/turn/turn-a1/verdict";
     Demo.string_triple Demo.turn_id TurnEffectsRef "obj://content/turn/turn-a1/effects";
     Demo.string_triple Demo.turn_id TurnNarrationRef narration_ref;
     Demo.string_triple Demo.turn_id TurnCompanionStageRef stage_ref;
     Demo.string_triple Demo.turn_id TurnVerdictPlausibility PlausibilityPlausible;
     Demo.string_triple Demo.turn_id TurnVerdictRisk RiskLow;
     Demo.string_triple Demo.turn_id TurnVerdictConsequence ConsequenceCost;
     {| Subject := Demo.turn_id; Predicate := TurnVerdictRequiresRoll; Object := ABool false; Source := "demo";
        Timestamp := 1; Confidence := float_one; Context_ := Demo.turn_id; Datatype := EmptyString; ExpiresAt := None |}].

Definition player : EntityState :=
  with_triples (Demo.bare Demo.player_id) [Demo.string_triple Demo.player_id PlayerTurnResolved Demo.turn_id].

Definition surface : Results := {|
  re_identity := Demo.identity; re_campaignID := "acme.semmachina.barrow.case.campaign.main" |}.
Definition ada_session : Session := {| se_PlayerID := Demo.player_id; se_Connection := GatewayDemo.ada |}.
Definition watched : EW :=
  (mkWorld {[ Demo.player_id := player; Demo.turn_id := told_turn ]} 10 [] [], ((put ada_session (newSessions 1)).2, [])).
Definition resolved : rulePublication := {|
  EntityID_ := Demo.turn_id; Subject_ := "turn.resolved"; Source_ := "rules"; Properties_ := ∅ |}.
End EgressDemo.
Import EgressDemo.

Lemma mem_read_foreign id (w : World) err : (GetEntity id w).1 = Err err -> errors_Is ErrTurnNotFound err = false.
Proof.
  cbn [GetEntity graphio_store]. unfold graphio_GetEntity, mbind, M_bind, lift, attempt. cbn [ReadAuthoritative mem_client].
  unfold require, mem_Read. destruct (negb (String.eqb id EmptyString)); [|by intros [= <-]].
  destruct (w_graph w !! id); cbn; [done|]. by intros [= <-].
Qed.

Lemma mem_read_still id : still (W := World) (GetEntity id).
Proof.
  cbn [GetEntity graphio_store]. unfold graphio_GetEntity. stilly.
  intros w. cbn. unfold mem_Read. by destruct (w_graph w !! _).
Qed.

#[export] Instance ew_result_laws : ResultLaws EW.
Proof.
  split; try done.
  - intros id [w x]. pose proof (mem_read_still id w) as Hs. cbn [GetEntity beside_store]. unfold beside. cbn [fst snd].
    destruct (GetEntity id w) as [r w1]. cbn in *. by rewrite Hs.
  - intros id [w x] err He. apply (mem_read_foreign id w). cbn [GetEntity beside_store] in He. unfold beside in He.
    cbn [fst snd] in He. by destruct (GetEntity id w).
Qed.

Definition told : TurnDelivery :=
  match (Latest surface Demo.player_id watched).1 with
  | Ok d => d
  | Err _ => {| td_Protocol := EmptyString; td_Result := None; td_Narration := None |}
  end.

Lemma watched_table : table_ok (sessions_of watched).
Proof. apply put_ok. apply (calls_ok 1). apply rtc_refl. Qed.

Lemma players_see_their_own_turns_witness :
  exists w', run_lookup surface Demo.player_id (by_turn "turn-a1") watched = (Ok told, w') /\ w' = watched.
Proof.
  exists (run_lookup surface Demo.player_id (by_turn "turn-a1") watched).2.
  assert (Hrun : run_lookup surface Demo.player_id (by_turn "turn-a1") watched =
    (Ok told, (run_lookup surface Demo.player_id (by_turn "turn-a1") watched).2)).
  { refine (pair_of (run_lookup surface Demo.player_id (by_turn "turn-a1") watched) (Ok told) _). vm_compute. reflexivity. }
  split; [exact Hrun|].
  exact (proj1 (players_see_their_own_turns surface Demo.player_id (by_turn "turn-a1") watched (Ok told) _ Hrun)).
Defined.

Lemma latest_result_is_the_latest_witness :
  resolved_at told = 1 /\ exists player, graph_of watched !! Demo.player_id = Some player /\
    exists id, id ∈ candidateTurns (Some player) /\ own_result surface watched Demo.player_id id told.
Proof.
  split; [vm_compute; reflexivity|].
  destruct (latest_result_is_the_latest surface Demo.player_id watched told (Latest surface Demo.player_id watched).2)
    as (player & Hp & Hown & _).
  - refine (pair_of (Latest surface Demo.player_id watched) (Ok told) _). vm_compute. reflexivity.
  - exists player. split; [exact Hp|exact Hown].
Defined.

Lemma acknowledged_notification_reached_its_player_witness :
  forPlayer Demo.player_id (sessions_of watched) = [ada_session] /\
  exists d, notified surface (Ok resolved) watched d /\
    deliveries (Notifier_Handle surface (Ok resolved) watched).2 =
      deliveries watched ++ map (fun s => (s, d)) (forPlayer (addressee d) (sessions_of watched)).
Proof.
  split; [vm_compute; reflexivity|].
  apply (acknowledged_notification_reached_its_player surface (Ok resolved) watched
           (Ok tt) (Notifier_Handle surface (Ok resolved) watched).2 watched_table); [|reflexivity].
  refine (pair_of (Notifier_Handle surface (Ok resolved) watched) (Ok tt) _). vm_compute. reflexivity.
Defined.
