(* ===== verification/PlayerSocketSpec.v ===== *)
(** What the player socket guarantees: a frame carries exactly the document it
    names, connection identifiers do not repeat, a retrieval is answered
    coherently and with the asking player's own result, every message is
    answered by one frame in order, and a connection leaves no session behind. *)

From S2P Require Import Prelude GoStd GoHash GoErrors Graph Vocab Vocabulary Payload Mechanics Decisions ContentRecords ContentStore Store Sequencing GraphIO Turn Ledger Persona Delivery Gateway Egress PlayerSocket MemStore TurnSpec ContractSpec CaseflowSpec GatewaySpec EgressSpec.

Open Scope Z_scope.

(** ** Frames *)

Lemma protocol_ok p u : ParsePlayerProtocolVersion p = Ok u <-> p = PlayerProtocolV1 /\ u = p.
Proof.
  unfold ParsePlayerProtocolVersion. destruct (mem p playerProtocolVersions) eqn:Hm.
  - apply mem_true in Hm. unfold playerProtocolVersions in Hm. apply list_elem_of_singleton in Hm as ->. naive_solver.
  - apply mem_false in Hm. split; [by destruct (String.eqb p EmptyString)|]. intros [-> _]. by destruct Hm; left.
Qed.

Lemma absent_none {A} (o : option A) : absent o = true <-> o = None.
Proof. by destruct o. Qed.

Section frames.
Context `{Substrate}.

(** The four documents a frame may carry, each valid. *)
Inductive carries (f : Frame) : Prop :=
| carries_response r : f = responseFrame (Some r) -> SubmitResponse_Validate r = Ok tt -> carries f
| carries_delivery d : f = deliveryFrame (Some d) -> TurnDelivery_Validate d = Ok tt -> carries f
| carries_retrieval r : f = retrievalFrame r -> RetrieveResponse_Validate r = Ok tt -> carries f
| carries_operation o : f = operationFrame o -> OperationResponse_Validate o = Ok tt -> carries f.

(** A frame says what it carries. Validation accepts exactly the frames of this
    protocol that carry one valid document, under the type that names it, and
    nothing beside it: a submission's answer can never be read as a turn's
    result. *)
Theorem frames_carry_their_document (f : Frame) : Frame_Validate f = Ok tt <-> carries f.
Proof.
  destruct f as [protocol type response delivery retrieval operation]. split.
  - unfold Frame_Validate. cbn. intros (p & [-> _]%protocol_ok & Hr)%result_bind_ok.
    apply result_bind_ok in Hr as ([] & Hm%require_ok & Hr).
    repeat match type of Hr with
    | (if String.eqb type ?t then _ else _) = _ => destruct (String.eqb_spec type t) as [->|]
    end.
    + destruct response as [r|]; [|discriminate Hr].
      do 3 (apply result_bind_ok in Hr as ([] & ?%require_ok%absent_none & Hr)). subst. by eapply carries_response.
    + destruct delivery as [d|]; [|discriminate Hr].
      do 3 (apply result_bind_ok in Hr as ([] & ?%require_ok%absent_none & Hr)). subst. by eapply carries_delivery.
    + destruct retrieval as [r|]; [|discriminate Hr]. apply result_bind_ok in Hr as ([] & Ha%require_ok & Hr).
      apply andb_true_iff in Ha as [[?%absent_none ?%absent_none]%andb_true_iff ?%absent_none]. subst. by eapply carries_retrieval.
    + apply mem_true in Hm. assert (type = FrameOperationResponse) as -> by (unfold frameTypes in Hm; closed_cases Hm; done).
      destruct operation as [o|]; [|discriminate Hr]. apply result_bind_ok in Hr as ([] & Ha%require_ok & Hr).
      apply andb_true_iff in Ha as [[?%absent_none ?%absent_none]%andb_true_iff ?%absent_none]. subst. by eapply carries_operation.
  - by intros [r [= -> -> -> -> -> ->] Hv|d [= -> -> -> -> -> ->] Hv|r [= -> -> -> -> -> ->] Hv|o [= -> -> -> -> -> ->] Hv].
Qed.
End frames.

(** ** Connection identifiers *)

(** The socket's memory is read back as it was written. *)
Class TransportLaws (W : Type) `{HasTransport W} : Prop := {
  transport_written t (w : W) : transport_of (with_transport t w) = t }.

Section identifiers.
Context {W : Type} `{HasTransport W, !TransportLaws W}.

(** So many connections one after another. *)
Fixpoint mints (s : Server W) (n : nat) : MW W (list string) :=
  match n with
  | O => mret []
  | S n => id ← mintConnectionID s; ids ← mints s n; mret (id :: ids)
  end.

Definition connection_name (nonce : string) (counter : Z) : string := "ws-" +:+ nonce +:+ "-" +:+ Itoa (counter mod 2 ^ 64).

Lemma mints_ran s n w :
  (mints s n w).1 = Ok (map (fun i => connection_name (sv_nonce s) (tp_counter (transport_of w) + Z.of_nat i)) (seq 1 n)).
Proof.
  revert w. induction n as [|n IH]; intros w; [done|]. cbn [mints]. unfold mbind, M_bind. unfold mintConnectionID at 1.
  cbv beta iota zeta. match goal with |- context [mints s n ?w1] => specialize (IH w1); destruct (mints s n w1) as [r w2] end.
  cbn in IH. subst r. cbn [seq map fst]. rewrite transport_written. cbn [tp_counter].
  rewrite <- (seq_shift n 1), map_map. unfold mret, M_ret. cbn [fst]. do 2 f_equal. apply map_ext. intros i.
  unfold connection_name. rewrite Zplus_mod_idemp_l. do 5 f_equal. lia.
Qed.

Lemma Itoa_inj x y : Itoa x = Itoa y -> x = y.
Proof. apply (inj pretty). Qed.

Lemma string_app_inj a b c d : String.length a = String.length b -> a +:+ c = b +:+ d -> a = b /\ c = d.
Proof.
  revert b. induction a as [|x a IH]; intros [|y b] Hl; try discriminate Hl; [done|]. injection Hl as Hl.
  cbn. intros [= -> Heq]. by destruct (IH b Hl Heq) as [-> ->].
Qed.

Lemma connection_name_inj n1 n2 c1 c2 : String.length n1 = String.length n2 ->
  connection_name n1 c1 = connection_name n2 c2 -> n1 = n2 /\ c1 mod 2 ^ 64 = c2 mod 2 ^ 64.
Proof.
  unfold connection_name. intros Hl Heq. apply string_app_inj in Heq as [_ Heq]; [|done].
  apply string_app_inj in Heq as [-> Heq]; [|done]. apply string_app_inj in Heq as [_ Heq]; [|done].
  split; [done|by apply Itoa_inj].
Qed.

(** Connections are never mistaken for one another. The identifiers a server
    mints for up to 2^64 connections, wherever its counter starts, are all
    different; and two servers of different nonces - two in one process, or one
    before and after a restart - have none in common. *)
Theorem connection_ids_do_not_repeat (s s' : Server W) (n n' : nat) (w w' : W) ids ids'
    (Hids : (mints s n w).1 = Ok ids) (Hids' : (mints s' n' w').1 = Ok ids') :
  (Z.of_nat n <= 2 ^ 64 -> NoDup ids) /\
  (String.length (sv_nonce s) = String.length (sv_nonce s') -> sv_nonce s <> sv_nonce s' -> forall id, id ∈ ids -> id ∉ ids').
Proof.
  rewrite mints_ran in Hids, Hids'. injection Hids as <-. injection Hids' as <-. split.
  - intros Hn. apply NoDup_fmap_2_strong; [|apply NoDup_seq]. intros i j Hi%elem_of_seq Hj%elem_of_seq Heq.
    apply connection_name_inj in Heq as [_ Heq]; [|done].
    assert (Hd : (Z.of_nat i - Z.of_nat j) mod 2 ^ 64 = 0).
    { replace (Z.of_nat i - Z.of_nat j) with
        ((tp_counter (transport_of w) + Z.of_nat i) - (tp_counter (transport_of w) + Z.of_nat j)) by lia.
      rewrite Zminus_mod, Heq, Z.sub_diag. done. }
    apply Z.mod_divide in Hd as [k Hk]; [|done]. assert (k = 0) by nia. lia.
  - intros Hl Hne id (i & -> & _)%list_elem_of_fmap (j & Heq & _)%list_elem_of_fmap.
    apply connection_name_inj in Heq as [Heq _]; done.
Qed.
End identifiers.

(** ** Retrieval *)

Section retrieval.
Context {W : Type} `{Substrate, SocketText, NetAddresses, HasGraph W, GraphStore W, Clock W, ResultArtifacts W}.
Context `{!GraphStoreLaws W, !ResultLaws W}.
Implicit Types (w : W).

(** The delivery is the player's own, coherent, and of the turn. *)
Definition own_delivery (playerID : string) (d : TurnDelivery) : Prop :=
  exists result, td_Result d = Some result /\ rt_PlayerID result = playerID /\ TurnDelivery_Validate d = Ok tt.

Lemma own_result_delivery r w playerID id d : own_result r w playerID id d -> own_delivery playerID d.
Proof.
  intros (state & turnID & _ & Ho & Hd). destruct (deliverable_ran _ _ _ _ _ _ _ Hd) as (m & result & Hm & Hr & Ht & Hv).
  exists result. split; [done|]. split; [|done]. destruct Ht as (_ & _ & -> & _).
  eapply owner_is_player; [exact Ho|]. by apply Compose_player in Hm as (? & _).
Qed.

Lemma by_turn_ran r playerID turnID w d w' : ByTurnForPlayer r playerID turnID w = (Ok d, w') ->
  own_delivery playerID d /\ exists result, td_Result d = Some result /\ rt_TurnID result = turnID.
Proof.
  intros Hrun. split; [by apply ByTurnForPlayer_ran in Hrun as (id & Hown%own_result_delivery)|]. revert Hrun.
  unfold ByTurnForPlayer. intros Hrun. apply lift_ran in Hrun as (? & _ & Hrun). apply lift_ran in Hrun as (id & _ & Hrun).
  apply bind_ran in Hrun as (state & w1 & Hread & Hrun). apply lift_ran in Hrun as (owner & _ & Hrun).
  destruct (negb _); [discriminate Hrun|]. destruct (deliverable_ran _ _ _ _ _ _ _ Hrun) as (m & result & Hm & Hr & Ht & _).
  exists result. split; [done|]. destruct Ht as (-> & _). by apply Compose_player in Hm as (_ & -> & _).
Qed.

(** A valid delivery's action is the one its turn derives. *)
Lemma delivery_action d result : TurnDelivery_Validate d = Ok tt -> td_Result d = Some result ->
  ActionIDForTurn (rt_TurnID result) = Ok (rt_ActionID result).
Proof.
  intros (? & _ & Hr)%result_bind_ok Hd. rewrite Hd in Hr. apply result_bind_ok in Hr as ([] & Hv%wrapf_ok & _).
  apply result_bind_ok in Hv as (? & _ & Hv). apply result_bind_ok in Hv as (derived & Ha & Hv).
  apply result_bind_ok in Hv as ([] & ->%require_ok%String.eqb_eq & _). exact Ha.
Qed.

Lemma by_action_ran r playerID actionID w d w' : ByActionForPlayer r playerID actionID w = (Ok d, w') ->
  own_delivery playerID d /\ exists result, td_Result d = Some result /\ rt_ActionID result = actionID.
Proof.
  unfold ByActionForPlayer. intros Hrun. apply lift_ran in Hrun as (? & Hact & Hrun).
  apply by_turn_ran in Hrun as [Hown (result & Hd & Ht)]. split; [done|]. exists result. split; [done|].
  destruct Hown as (result' & Hd' & _ & Hv). pose proof (delivery_action d result Hv Hd) as Hi. rewrite Ht in Hi.
  apply ActionIDForTurn_ok in Hi as (_ & Hi & _). unfold TurnIDForAction in Hi.
  destruct (String.eqb actionID EmptyString); [discriminate Hi|]. by apply string_app_inj in Hi as [_ <-].
Qed.

(** A lookup that names what its key needs. *)
Definition well_named (by_ id : string) : Prop :=
  by_ ∈ retrieveBys /\ (by_ = RetrieveLatest <-> id = EmptyString) /\ check_lookup_id by_ id = Ok tt.

Lemma latest_named : well_named RetrieveLatest EmptyString.
Proof. split; [|done]. apply mem_true. reflexivity. Qed.

Lemma request_named request : RetrieveRequest_Validate request = Ok tt -> well_named (rq_By request) (rq_ID request).
Proof.
  unfold RetrieveRequest_Validate. intros (? & _ & Hr)%result_bind_ok. apply result_bind_ok in Hr as ([] & _ & Hr).
  apply result_bind_ok in Hr as ([] & Hm%require_ok%mem_true & Hr). split; [done|].
  destruct (String.eqb_spec (rq_By request) RetrieveLatest) as [Hb|Hb].
  - apply require_ok, String.eqb_eq in Hr. by rewrite Hb, Hr.
  - split; [|done]. split; [done|]. intros Hid. rewrite Hid in Hr. exfalso. revert Hr. unfold check_lookup_id.
    destruct (String.eqb_spec (rq_By request) RetrieveByTurn) as [_|Ht].
    { intros (a & Ha%wrapf_ok & _)%result_bind_ok. by apply ActionIDForTurn_ok in Ha as (_ & Ha & _). }
    destruct (String.eqb_spec (rq_By request) RetrieveByAction) as [_|Ha].
    { intros Ha%wrapf_ok. apply requireActionID_ok in Ha as [Ha _]. by apply ValidateIDSegment_ok in Ha as [? _]. }
    unfold retrieveBys in Hm. closed_cases Hm; congruence.
Qed.

Lemma response_valid r : rp_Protocol r = PlayerProtocolV1 -> well_named (rp_By r) (rp_ID r) ->
  (rp_Status r = RetrieveFound /\ check_found r = Ok tt) \/
  (rp_Status r = RetrieveRefused /\ rp_Delivery r = None /\ RetrieveRefusal_Validate (rp_Refusal r) = Ok tt) ->
  RetrieveResponse_Validate r = Ok tt.
Proof.
  intros Hp (Hb & Hid & Hc) Hs. unfold RetrieveResponse_Validate. rewrite Hp, Hc, (proj2 (mem_true _ _) Hb).
  assert (Hl : String.eqb (rp_By r) RetrieveLatest = String.eqb (rp_ID r) EmptyString).
  { destruct (String.eqb_spec (rp_By r) RetrieveLatest), (String.eqb_spec (rp_ID r) EmptyString); naive_solver. }
  rewrite Hl. destruct Hs as [[-> Hf]|(-> & Hn & Hr)]; [|rewrite Hn]; by destruct (String.eqb (rp_ID r) EmptyString).
Qed.

Lemma refused_coherent by_ id code message : well_named by_ id -> code ∈ retrieveRefusalCodes -> message <> EmptyString ->
  RetrieveResponse_Validate (retrievalRefused by_ id code message) = Ok tt.
Proof.
  intros Hn Hcode Hm. unfold retrievalRefused. rewrite (proj2 (mem_true _ _) (proj1 Hn)). apply response_valid; [done|done|right].
  split_and!; [done|done|]. unfold RetrieveRefusal_Validate. cbn [rp_Refusal rf_Code rf_Message].
  rewrite (proj2 (mem_true _ _) Hcode). cbn. by destruct (String.eqb_spec message EmptyString).
Qed.

(** What an answer's delivery may be. *)
Definition answers_player (playerID : string) (response : RetrieveResponse) : Prop :=
  forall d, rp_Delivery response = Some d -> exists result, td_Result d = Some result /\ rt_PlayerID result = playerID /\
    TurnDelivery_Validate d = Ok tt /\ (rp_By response = RetrieveByTurn -> rt_TurnID result = rp_ID response) /\
    (rp_By response = RetrieveByAction -> rt_ActionID result = rp_ID response).

Lemma look_up_ran r playerID request w d w' :
  look_up (egress_retriever r) playerID request w = (Ok (Some d), w') ->
  own_delivery playerID d /\ exists result, td_Result d = Some result /\
    (rq_By request = RetrieveByTurn -> rt_TurnID result = rq_ID request) /\
    (rq_By request = RetrieveByAction -> rt_ActionID result = rq_ID request).
Proof.
  unfold look_up. cbn [rr_ByTurnForPlayer rr_ByActionForPlayer rr_Latest egress_retriever].
  destruct (String.eqb_spec (rq_By request) RetrieveByTurn) as [Hb|_].
  { intros (d' & w1 & Hrun & Heq)%bind_ran. injection Heq as -> ->. apply by_turn_ran in Hrun as [Hown (result & Hd & Ht)].
    split; [done|]. exists result. split_and!; [done|done|]. by rewrite Hb. }
  destruct (String.eqb_spec (rq_By request) RetrieveByAction) as [Hb|_].
  { intros (d' & w1 & Hrun & Heq)%bind_ran. injection Heq as -> ->. apply by_action_ran in Hrun as [Hown (result & Hd & Ht)].
    split; [done|]. exists result. split_and!; [done|by rewrite Hb|done]. }
  destruct (String.eqb_spec (rq_By request) RetrieveLatest) as [Hb|_]; [|done].
  intros (d' & w1 & Hrun & Heq)%bind_ran. injection Heq as -> ->.
  apply Latest_ran in Hrun as (player & _ & Hk & _). destruct (Hk d eq_refl) as [|(id & _ & Hown%own_result_delivery)]; [done|].
  split; [done|]. destruct Hown as (result & Hd & _). exists result. by rewrite Hb.
Qed.

Lemma answer_lookup_spec playerID request found : well_named (rq_By request) (rq_ID request) ->
  (forall d, found = Ok (Some d) -> own_delivery playerID d /\ exists result, td_Result d = Some result /\
    (rq_By request = RetrieveByTurn -> rt_TurnID result = rq_ID request) /\
    (rq_By request = RetrieveByAction -> rt_ActionID result = rq_ID request)) ->
  RetrieveResponse_Validate (answer_lookup playerID request found) = Ok tt /\
  answers_player playerID (answer_lookup playerID request found).
Proof.
  intros Hn Hfound.
  assert (Hrefused : forall code message, code ∈ retrieveRefusalCodes -> message <> EmptyString ->
    RetrieveResponse_Validate (retrievalRefused (rq_By request) (rq_ID request) code message) = Ok tt /\
    answers_player playerID (retrievalRefused (rq_By request) (rq_ID request) code message)).
  { intros code message Hc Hm. split; [by apply refused_coherent|]. unfold retrievalRefused. by destruct (mem _ _); intros d Hd. }
  unfold answer_lookup. destruct found as [[d|]|err].
  - destruct (Hfound d eq_refl) as [(result & Hd & Hp & Hv) (result' & Hd' & Ht & Ha)]. rewrite Hd in Hd' |- *.
    injection Hd' as <-. rewrite Hp, String.eqb_refl. cbn [negb]. split.
    + apply response_valid; [done|done|left]. split; [done|]. unfold check_found. cbn [rp_Delivery rp_Refusal retrievalFound].
      rewrite Hv, Hd. cbn [rp_By rp_ID retrievalFound].
      destruct (String.eqb_spec (rq_By request) RetrieveByTurn) as [Hb|_]; [rewrite (Ht Hb), String.eqb_refl|];
        (destruct (String.eqb_spec (rq_By request) RetrieveByAction) as [Hb'|_]; [rewrite (Ha Hb'), String.eqb_refl|]); done.
    + intros d' [= <-]. exists result. by split_and!.
  - apply Hrefused; [apply mem_true; reflexivity|done].
  - destruct (_ || _); [apply Hrefused; [apply mem_true; reflexivity|done]|].
    destruct (errors_Is _ _); apply Hrefused; try (apply mem_true; reflexivity); done.
Qed.

(** A retrieval is answered coherently, with the asking player's own result or
    none. Whatever the stores hold and however the request is written, the answer
    is a valid document of the protocol and nothing changes; and if it carries a
    delivery, that is a coherent result of the player of this connection, and of
    the turn or the action the request names. *)
Theorem retrievals_answer_with_the_players_own_result (s : Server W) (r : Results) (playerID raw : string) (w : W) response w'
    (Hresults : sv_results s = Some (egress_retriever r))
    (Htext : forall err, decodeRetrieveRequest raw = Err err -> Error_text err <> EmptyString)
    (Hrun : retrieve s playerID raw w = (Ok response, w')) :
  w' = w /\ RetrieveResponse_Validate response = Ok tt /\ answers_player playerID response.
Proof.
  revert Hrun. unfold retrieve. destruct (decodeRetrieveRequest raw) as [request|err] eqn:Hdec.
  2: { intros [= <- <-]. split; [done|]. split; [|by intros d Hd]. apply refused_coherent; [apply latest_named| |by apply Htext].
       apply mem_true. reflexivity. }
  assert (Hn : well_named (rq_By request) (rq_ID request)).
  { revert Hdec. unfold decodeRetrieveRequest. intros ([request' [u|second]] & _ & Hr)%result_bind_ok; [discriminate Hr|].
    destruct (negb _); [discriminate Hr|]. apply result_bind_ok in Hr as ([] & Hv & Heq). injection Heq as ->. by apply request_named. }
  rewrite Hresults. intros (found & w1 & Hlook & Heq)%call_ran. injection Heq as <- <-. split.
  { eapply still_ran; [|exact Hlook]. unfold look_up. cbn [rr_ByTurnForPlayer rr_ByActionForPlayer rr_Latest egress_retriever].
    unfold ByActionForPlayer. pose proof still_ByTurnForPlayer. pose proof still_Latest. stilly. }
  apply answer_lookup_spec; [done|]. intros d ->. by eapply look_up_ran.
Qed.
End retrieval.

(** ** Every message is answered *)

(** What has been written to the peers, connection and document. *)
Class HasWire (W : Type) : Type := { wire_of : W -> list (string * string) }.

(** What the calls around the socket leave alone. *)
Class Undisturbed {W X : Type} `{Substrate, GraphStore W, Clock W, Authenticator W, ActionPublisher W, Ctx W, HasTransport W,
    WebSocket W} (obs : W -> X) : Prop := {
  undisturbed_get id w : obs (GetEntity id w).2 = obs w;
  undisturbed_clock w : obs (now w).2 = obs w;
  undisturbed_auth credential w : obs (auth_Authenticate credential w).2 = obs w;
  undisturbed_publish subject data id w : obs (PublishToStreamWithMsgID subject data id w).2 = obs w;
  undisturbed_ctx w : obs (ctx_Err w).2 = obs w;
  undisturbed_transport t w : obs (with_transport t w) = obs w;
  undisturbed_upgrade w : obs (ws_Upgrade w).2 = obs w;
  undisturbed_deadline c w : obs (ws_SetWriteDeadline c w).2 = obs w;
  undisturbed_control c code reason w : obs (ws_WriteControl c code reason w).2 = obs w;
  undisturbed_close c w : obs (ws_Close c w).2 = obs w }.

(** A write appends its document, or fails - and may have written even then. *)
Class SocketLaws (W : Type) `{Substrate, GraphStore W, Clock W, Authenticator W, HasSessions W, ActionPublisher W, Ctx W,
    HasTransport W, WebSocket W, HasWire W} : Prop := {
  wire_undisturbed :: Undisturbed (W := W) wire_of;
  sessions_undisturbed :: Undisturbed (W := W) sessions_of;
  written_sessions c d (w : W) : sessions_of (ws_WriteMessage c d w).2 = sessions_of w;
  written_wire c d (w : W) :
    let '(r, w') := ws_WriteMessage c d w in
    wire_of w' = wire_of w ++ [(c, d)] \/ (is_ok r = false /\ wire_of w' = wire_of w);
  sessions_wire t (w : W) : wire_of (with_sessions t w) = wire_of w;
  sessions_written t (w : W) : sessions_of (with_sessions t w) = t }.

Section serving.
Context {W : Type} `{Substrate, SocketText, NetAddresses, GraphStore W, Clock W, Authenticator W, HasSessions W,
  ActionEnvelope, ActionPublisher W, SubmissionText, Ctx W, HasTransport W, WebSocket W, HasWire W}.
Context `{!SocketLaws W}.
Context (g : Gateway) (s : Server W).
Implicit Types (w : W).

(** The result surface only reads. *)
Context (results_still : forall results, sv_results s = Some results ->
  (forall p id, still (rr_ByTurnForPlayer results p id)) /\ (forall p id, still (rr_ByActionForPlayer results p id)) /\
  (forall p, still (rr_Latest results p))).

Definition preserves {X A} (obs : W -> X) (m : MW W A) : Prop := forall w, obs (m w).2 = obs w.

Lemma preserves_bind {X A B} (obs : W -> X) (m : MW W A) (k : A -> MW W B) :
  preserves obs m -> (forall a, preserves obs (k a)) -> preserves obs (m ≫= k).
Proof.
  intros Hm Hk w. specialize (Hm w). unfold mbind, M_bind. destruct (m w) as [[a|e] w1]; cbn in *; [|done]. by rewrite Hk.
Qed.
Lemma preserves_attempt {X A} (obs : W -> X) (m : MW W A) : preserves obs m -> preserves obs (attempt m).
Proof. intros Hm w. specialize (Hm w). unfold attempt. by destruct (m w). Qed.
Lemma preserves_clock {X} (obs : W -> X) : Undisturbed obs -> preserves obs read_clock.
Proof. intros Ho w. pose proof (undisturbed_clock w) as Hc. unfold read_clock. by destruct (now w). Qed.
Lemma preserves_still {X A} (obs : W -> X) (m : MW W A) : still m -> preserves obs m.
Proof. intros Hm w. by rewrite Hm. Qed.

Section undisturbed.
Context {X : Type} (obs : W -> X) `{!Undisturbed obs}.

(** [preserving] walks a program down to its calls. *)
Ltac preserving :=
  repeat first
    [ done
    | apply preserves_clock; exact _
    | intros ?; apply undisturbed_get | intros ?; apply undisturbed_publish | intros ?; apply undisturbed_ctx
    | intros ?; apply undisturbed_deadline | intros ?; apply undisturbed_control | intros ?; apply undisturbed_close
    | intros ?; apply undisturbed_auth | intros ?; apply undisturbed_transport
    | apply preserves_bind; [|intros ?]
    | apply preserves_attempt
    | match goal with |- preserves _ (match ?x with _ => _ end) => destruct x end ].

Lemma preserves_admit_held turnID held : preserves obs (admit_held turnID held).
Proof. induction held as [|id held IH]; cbn [admit_held]; unfold refuseIfLive; preserving. Qed.

Lemma preserves_Submit connID raw : preserves obs (Gateway_Submit g connID raw).
Proof.
  unfold Gateway_Submit, submit_admitted, canonical, publish_action, admit_action, read_sessions. pose proof preserves_admit_held.
  preserving.
Qed.

Lemma preserves_retrieve playerID raw : preserves obs (retrieve s playerID raw).
Proof.
  unfold retrieve. destruct (decodeRetrieveRequest raw) as [request|]; [|done]. destruct (sv_results s) as [results|] eqn:Hr; [|done].
  destruct (results_still results eq_refl) as (Ht & Ha & Hl). apply preserves_bind; [|done]. apply preserves_attempt. unfold look_up.
  repeat (destruct (String.eqb _ _); [apply preserves_bind; [by apply preserves_still|done]|]). done.
Qed.

Lemma preserves_answer connID playerID message : preserves obs (answer_message g s connID playerID message).
Proof.
  unfold answer_message. destruct (negb _); [done|]. destruct (inspectRequestType _) as [[operation typed] typeErr].
  destruct typed; [destruct typeErr; [done|]|].
  - destruct (negb _); [done|]. apply preserves_bind; [apply preserves_retrieve|done].
  - apply preserves_bind; [apply preserves_Submit|done].
Qed.

Lemma preserves_closeLocked id : preserves obs (closeLocked id).
Proof. unfold closeLocked, is_closed, mark_closed. preserving. Qed.
End undisturbed.

(** A send writes the frame's text, or nothing; one that reports success wrote it. *)
Lemma conn_send_spec connID frame w :
  wp (conn_send connID frame) (fun r w' => exists tail, wire_of w' = wire_of w ++ tail /\
    match r with
    | Ok _ => exists d, Frame_encode frame = Ok d /\ tail = [(connID, d)]
    | Err _ => tail = [] \/ exists d, Frame_encode frame = Ok d /\ tail = [(connID, d)]
    end) w.
Proof.
  assert (Hnone : forall w', wire_of w' = wire_of w -> exists tail, wire_of w' = wire_of w ++ tail /\
    (tail = [] \/ exists d, Frame_encode frame = Ok d /\ tail = [(connID, d)])).
  { intros w' Hw. exists []. rewrite app_nil_r. by split; [|left]. }
  unfold conn_send. apply wp_lift_bind; [|intros err _; by apply Hnone]. intros d Hd. unfold conn_Write.
  apply wp_bind, wp_attempt. pose proof (undisturbed_ctx (obs := wire_of) w) as Hctx. unfold wp at 1.
  destruct (ctx_Err w) as [alive w1]. cbn [fst snd] in *. apply wp_lift_bind; [|intros err _; by apply Hnone]. intros ? _.
  apply wp_bind. unfold wp at 1, is_closed. cbn [fst snd]. destruct (bool_decide _); [by apply wp_throw, Hnone|].
  apply wp_bind, wp_attempt. pose proof (undisturbed_deadline (obs := wire_of) connID w1) as Hdl. unfold wp at 1.
  destruct (ws_SetWriteDeadline connID w1) as [deadline w2]. cbn [fst snd] in *.
  apply wp_lift_bind; [|intros err _; apply Hnone; congruence]. intros ? _.
  apply wp_bind, wp_attempt. pose proof (written_wire connID d w2) as Hwritten. unfold wp at 1.
  destruct (ws_WriteMessage connID d w2) as [[u|err] w3]. all: cbn [fst snd] in *.
  - apply wp_ret. exists [(connID, d)]. destruct Hwritten as [->|[Hno _]]; [|done]. split; [congruence|]. by exists d.
  - apply wp_bind. unfold wp at 1. pose proof (preserves_closeLocked wire_of connID w3) as Hclose.
    assert (Hw3 : exists tail, wire_of (closeLocked connID w3).2 = wire_of w ++ tail /\
      (tail = [] \/ exists d, Frame_encode frame = Ok d /\ tail = [(connID, d)])).
    { destruct Hwritten as [Hw|[_ Hw]]; [|apply Hnone; congruence]. exists [(connID, d)]. split; [congruence|]. right. by exists d. }
    destruct (closeLocked connID w3) as [[u|e] w4]; cbn [fst snd] in *; [by apply wp_throw|done].
Qed.

(** The frame is what the message was answered with, at some moment. *)
Definition answer_of (connID playerID : string) (message : Message) (frame : Frame) : Prop :=
  exists w w', answer_message g s connID playerID message w = (Ok frame, w').

(** A call that returns. *)
Definition returns {A} (m : MW W A) : Prop := forall w, exists a w', m w = (Ok a, w').

Lemma returns_bind {A B} (m : MW W A) (k : A -> MW W B) : returns m -> (forall a, returns (k a)) -> returns (m ≫= k).
Proof. intros Hm Hk w. destruct (Hm w) as (a & w1 & Hr). unfold mbind, M_bind. rewrite Hr. apply Hk. Qed.
Lemma returns_ret {A} (a : A) : returns (mret a).
Proof. intros w. by exists a, w. Qed.
Lemma returns_attempt {A} (m : MW W A) : returns (attempt m).
Proof. intros w. unfold attempt. destruct (m w) as [r w1]. by exists r, w1. Qed.
Lemma returns_clock : returns read_clock.
Proof. intros w. unfold read_clock. destruct (now w) as [t w1]. by exists t, w1. Qed.

(** There is always an answer. *)
Lemma returns_answer connID playerID message : returns (answer_message g s connID playerID message).
Proof.
  unfold answer_message, retrieve, Gateway_Submit, submit_admitted, canonical, read_sessions.
  repeat first [ apply returns_ret | apply returns_attempt | apply returns_clock | apply returns_bind; [|intros ?]
    | match goal with |- returns (match ?x with _ => _ end) => destruct x end ].
  intros w. by eexists _, _.
Qed.

(** Why the loop reads no further than a message, and what of its answer has
    gone out. *)
Inductive stopped (connID playerID : string) (message : Message) : list (string * string) -> Prop :=
| too_large : MaxRequestBytes < len (ms_Raw message) -> stopped connID playerID message []
| not_sent frame err w w' unsent :
    answer_of connID playerID message frame -> conn_send connID frame w = (Err err, w') ->
    unsent = [] \/ (exists d, Frame_encode frame = Ok d /\ unsent = [(connID, d)]) ->
    stopped connID playerID message unsent.

(** C37: Every message is answered once. However the stores, the broker and the peer
    behave, what a connection's read loop writes is, message by message in the
    order they came, the one frame each is answered with; and it reads on until
    the peer is done, or a message is too large, or an answer cannot be sent - of
    which at most that answer's own document may have gone out. *)
Theorem every_message_is_answered_once (connID playerID : string) (incoming : list Message) (w : W) r w'
    (Hrun : readLoop g s connID playerID incoming w = (r, w')) :
  exists answered rest frames docs unsent,
    incoming = answered ++ rest /\ Forall2 (answer_of connID playerID) answered frames /\
    Forall2 (fun frame d => Frame_encode frame = Ok d) frames docs /\
    wire_of w' = wire_of w ++ map (fun d => (connID, d)) docs ++ unsent /\
    match rest with
    | [] => unsent = []
    | message :: _ => stopped connID playerID message unsent
    end.
Proof.
  revert w Hrun. induction incoming as [|message incoming IH]; intros w Hrun; cbn [readLoop] in Hrun.
  { injection Hrun as <- <-. exists [], [], [], [], []. rewrite !app_nil_r. split_and!; [done|constructor|constructor|done|done]. }
  assert (Hstop : forall (unsent : list (string * string)) w1, wire_of w1 = wire_of w ++ unsent ->
    stopped connID playerID message unsent ->
    exists answered rest frames docs unsent',
      message :: incoming = answered ++ rest /\ Forall2 (answer_of connID playerID) answered frames /\
      Forall2 (fun frame d => Frame_encode frame = Ok d) frames docs /\
      wire_of w1 = wire_of w ++ map (fun d => (connID, d)) docs ++ unsent' /\
      match rest with [] => unsent' = [] | message :: _ => stopped connID playerID message unsent' end).
  { intros unsent w1 Hw Hl. exists [], (message :: incoming), [], [], unsent. split_and!; [done|constructor|constructor|exact Hw|exact Hl]. }
  destruct (Z.ltb_spec MaxRequestBytes (len (ms_Raw message))).
  { injection Hrun as <- <-. apply (Hstop []); [by rewrite app_nil_r|by apply too_large]. }
  pose proof (preserves_answer wire_of connID playerID message w) as Hquiet. unfold mbind, M_bind in Hrun.
  destruct (answer_message g s connID playerID message w) as [[frame|err] w1] eqn:Ha; cbn [snd] in Hquiet.
  2: { destruct (returns_answer connID playerID message w) as (? & ? & Hr). congruence. }
  assert (Hanswer : answer_of connID playerID message frame) by by exists w, w1.
  pose proof (conn_send_spec connID frame w1) as Hsend. unfold wp in Hsend. unfold attempt in Hrun.
  destruct (conn_send connID frame w1) as [[u|err] w2] eqn:Hs; cbn [fst snd] in Hsend; destruct Hsend as (tail & Hw & Htail).
  - destruct Htail as (d & Hd & ->). destruct (IH w2 Hrun) as (answered & rest & frames & docs & unsent & -> & Hf & Hdocs & Hw' & Hl).
    exists (message :: answered), rest, (frame :: frames), (d :: docs), unsent. split; [done|].
    split; [by constructor|]. split; [by constructor|]. split; [|done]. by rewrite Hw', Hw, Hquiet, <- (assoc_L (++)).
  - injection Hrun as <- <-. apply (Hstop tail); [by rewrite Hw, Hquiet|].
    by eapply not_sent.
Qed.

(** ** Connections *)

Lemma unbind_sessions c t : byConnID (unbind c t) = byConnID t.
Proof. unfold unbind. by destruct (byConnID t !! c). Qed.

Lemma put_others session t c : c <> cn_ID (se_Connection session) -> get_session c (put session t).2 = get_session c t.
Proof.
  intros Hne. unfold put, get_session. destruct (_ <=? _); cbn [snd byConnID]; rewrite ?lookup_delete_ne, ?lookup_insert_ne, unbind_sessions; done.
Qed.

Lemma remove_sessions c t : byConnID (remove_session c t) = delete c (byConnID t).
Proof. unfold remove_session. cbn. by rewrite unbind_sessions. Qed.

(** A refused bind leaves nothing under its connection. *)
Lemma put_refused session t err t' : put session t = (Err err, t') -> get_session (cn_ID (se_Connection session)) t' = None.
Proof.
  unfold put, get_session. destruct (_ <=? _); [|by intros [=]]. intros [= _ <-]. cbn [byConnID]. apply lookup_delete_eq.
Qed.

(** Every session but perhaps the one of [c] is as it was, and [c] has none it
    did not have. *)
Definition same_but (c : string) (w w' : W) : Prop :=
  (forall c', c' <> c -> get_session c' (sessions_of w') = get_session c' (sessions_of w)) /\
  (get_session c (sessions_of w') = None \/ get_session c (sessions_of w') = get_session c (sessions_of w)).

Lemma readLoop_returns connID playerID incoming : returns (readLoop g s connID playerID incoming).
Proof.
  induction incoming as [|message incoming IH]; cbn [readLoop]; [apply returns_ret|]. destruct (_ <? _); [apply returns_ret|].
  apply returns_bind; [apply returns_answer|]. intros frame. apply returns_bind; [apply returns_attempt|].
  intros [u|err]; [exact IH|apply returns_ret].
Qed.

Lemma preserves_send connID frame : preserves sessions_of (conn_send connID frame).
Proof.
  unfold conn_send. apply preserves_bind; [done|]. intros d. unfold conn_Write, is_closed.
  apply preserves_bind; [apply preserves_attempt; intros w; apply undisturbed_ctx|]. intros alive.
  apply preserves_bind; [done|]. intros ?. apply preserves_bind; [done|]. intros [|]; [done|].
  apply preserves_bind; [apply preserves_attempt; intros w; apply undisturbed_deadline|]. intros deadline.
  apply preserves_bind; [done|]. intros ?. apply preserves_bind; [apply preserves_attempt; intros w; apply written_sessions|].
  intros [u|err]; [done|]. apply preserves_bind; [apply (preserves_closeLocked sessions_of)|done].
Qed.

Lemma preserves_readLoop connID playerID incoming : preserves sessions_of (readLoop g s connID playerID incoming).
Proof.
  induction incoming as [|message incoming IH]; cbn [readLoop]; [done|]. destruct (_ <? _); [done|].
  apply preserves_bind; [apply (preserves_answer sessions_of)|]. intros frame.
  apply preserves_bind; [apply preserves_attempt, preserves_send|]. by intros [u|err].
Qed.

Lemma preserves_closeWith connID code reason : preserves sessions_of (conn_closeWith connID code reason).
Proof.
  unfold conn_closeWith, is_closed. apply preserves_bind; [done|]. intros [|]; [done|].
  apply preserves_bind; [apply preserves_attempt; intros w; apply undisturbed_control|]. intros ?. apply (preserves_closeLocked sessions_of).
Qed.

Lemma returns_closeLocked connID : returns (closeLocked connID).
Proof.
  unfold closeLocked, is_closed, mark_closed. apply returns_bind; [intros w; by eexists _, _|]. intros [|]; [apply returns_ret|].
  apply returns_bind; [intros w; by eexists _, _|]. intros ?. apply returns_bind; [apply returns_attempt|]. intros ?. apply returns_ret.
Qed.

Lemma returns_closeWith connID code reason : returns (conn_closeWith connID code reason).
Proof.
  unfold conn_closeWith, is_closed. apply returns_bind; [intros w; by eexists _, _|]. intros [|]; [apply returns_ret|].
  apply returns_bind; [apply returns_attempt|]. intros ?. apply returns_closeLocked.
Qed.

Lemma serve_spec playerID incoming w :
  wp (serve g s playerID incoming) (fun r w' => r = Ok tt /\ exists c, same_but c w w') w.
Proof.
  unfold serve. apply wp_bind. unfold wp at 1. pose proof (undisturbed_transport (obs := sessions_of)
    {| tp_counter := (tp_counter (transport_of w) + 1) mod 2 ^ 64; tp_closed := tp_closed (transport_of w) |} w) as Hs1.
  unfold mintConnectionID. cbv zeta. cbn [fst snd]. match goal with |- wp _ _ ?w1 => set (w1' := w1) in * end.
  match goal with |- context [Build_Connection ?c _ _ _] => set (connID := c) end. clearbody connID.
  apply wp_bind, wp_attempt. unfold wp at 1.
  assert (Hb : let '(r, w2) := Gateway_Bind playerID {| cn_ID := connID; cn_Adapter := AdapterWebSocket; cn_ReplyTo := connID;
      cn_Writer := Some connID |} w1' in
    (forall c, c <> connID -> get_session c (sessions_of w2) = get_session c (sessions_of w)) /\
    (is_ok r = false -> get_session connID (sessions_of w2) = None \/ sessions_of w2 = sessions_of w)).
  { unfold Gateway_Bind, mbind, M_bind, lift. destruct (Connection_Validate _); [|rewrite Hs1; split; [done|by right]].
    destruct (wrapf _ _); [|rewrite Hs1; split; [done|by right]]. unfold update_sessions.
    match goal with |- context [put ?session _] => pose proof (put_refused session (sessions_of w1')) as Hrefused;
      pose proof (put_others session (sessions_of w1')) as Hothers; destruct (put session (sessions_of w1')) as [[u|err] t] end;
      cbn [snd] in Hothers; rewrite Hs1 in Hothers.
    - unfold mret, M_ret. rewrite sessions_written. split; [exact Hothers|done].
    - rewrite sessions_written. split; [exact Hothers|]. intros _. left. by eapply Hrefused. }
  destruct (Gateway_Bind _ _ w1') as [[session|err] w2]; destruct Hb as [Hothers Hfailed]; cbn [fst snd].
  - apply wp_bind, wp_attempt. pose proof (preserves_readLoop connID (se_PlayerID session) incoming w2) as Hloop.
    destruct (readLoop_returns connID (se_PlayerID session) incoming w2) as (u & w3 & Hr). unfold wp at 1. rewrite Hr in Hloop |- *.
    cbn [fst snd] in *. apply wp_bind. unfold wp at 1, Gateway_Disconnect, update_sessions. cbn [fst snd].
    match goal with |- wp _ _ ?w => set (w4 := w) in * end.
    assert (Hs4 : sessions_of w4 = remove_session connID (sessions_of w3)) by apply sessions_written. clearbody w4.
    apply wp_bind. pose proof (preserves_closeLocked sessions_of connID w4) as Hclose. unfold conn_close.
    destruct (returns_closeLocked connID w4) as (? & w5 & Hr5). unfold wp at 1. rewrite Hr5 in Hclose |- *. cbn [fst snd] in *.
    apply wp_intro with (r := Ok tt) (w' := w5); [by destruct u|]. split; [done|]. exists connID.
    unfold same_but, get_session. rewrite Hclose, Hs4, remove_sessions, Hloop. split.
    + intros c Hc. rewrite lookup_delete_ne by done. by apply Hothers.
    + left. apply lookup_delete_eq.
  - assert (Hend : forall code reason, wp (conn_closeWith connID code reason) (fun r w' => r = Ok tt /\ exists c, same_but c w w') w2).
    { intros code reason. pose proof (preserves_closeWith connID code reason w2) as Hk.
      destruct (returns_closeWith connID code reason w2) as ([] & w3 & Hr). apply (wp_intro _ _ _ _ _ Hr). rewrite Hr in Hk.
      split; [done|]. exists connID. unfold same_but. cbn [snd] in Hk. rewrite Hk. split; [done|].
      destruct (Hfailed eq_refl) as [Hn|Hn]; [by left|right; by rewrite Hn]. }
    destruct (errors_Is _ _); apply Hend.
Qed.

(** The credential is a player's: the authenticator says whose, and the graph
    has them, one read after the other. *)
Definition credential_of (credential player : string) (w w' : W) : Prop :=
  ValidateEntityID player = Ok tt /\
  exists w1 e, auth_Authenticate credential w = (Ok player, w1) /\ GetEntity player w1 = (Ok e, w').

Lemma Verify_ran credential player w w' : Gateway_Verify credential w = (Ok player, w') -> credential_of credential player w w'.
Proof.
  unfold Gateway_Verify. intros (id & w1 & Ha & Hrun)%bind_ran. apply lift_ran in Hrun as (u & Hv & Hrun).
  apply call_ran in Hrun as ([e|err] & w2 & Hg & Hrun); [|by destruct (errors_Is _ err)]. injection Hrun as -> ->.
  split; [by destruct (ValidateEntityID player) as [[]|]|]. by exists w1, e.
Qed.

Lemma preserves_Verify credential : preserves sessions_of (Gateway_Verify credential).
Proof.
  unfold Gateway_Verify. apply preserves_bind; [intros w; apply undisturbed_auth|]. intros id. apply preserves_bind; [done|]. intros ?.
  apply preserves_bind; [apply preserves_attempt; intros w; apply undisturbed_get|]. intros [e|err]; [done|]. by destruct (errors_Is _ err).
Qed.

(** C36: Only a player's credential opens a socket, and no socket outlives its
    session. A handshake always ends. It is served only on the server's path, for
    a peer the posture admits, with a bearer credential that is a player's of this
    world when the handshake is made, whose socket it then is; otherwise the session table is untouched. And
    whatever the peer sent and however its socket ended, afterwards its
    connection has no session it did not have before, and every other session is
    as it was. *)
Theorem sockets_are_authenticated_and_leave_no_session (request : Handshake) (incoming : list Message) (w : W) r w'
    (Hrun : ServeHTTP g s request incoming w = (r, w')) :
  (exists ending, r = Ok ending /\ ending <> Served /\ sessions_of w' = sessions_of w) \/
  (r = Ok Served /\ hs_Path request = sc_Path (sv_config s) /\ peerIsAllowed (sv_config s) (hs_Remote request) = true /\
   (exists credential player w1 w2 u, bearerCredential (hs_Authorization request) = Some credential /\
      credential_of credential player w w1 /\ ws_Upgrade w1 = (Ok u, w2) /\ serve g s player incoming w2 = (Ok tt, w')) /\
   exists c, same_but c w w').
Proof.
  revert Hrun. unfold ServeHTTP.
  destruct (String.eqb_spec (hs_Path request) (sc_Path (sv_config s))) as [Hpath|]; cbn [negb].
  2: { intros [= <- <-]. left. by eexists. }
  destruct (peerIsAllowed _ _) eqn:Hpeer; cbn [negb]; [|intros [= <- <-]; left; by eexists].
  destruct (bearerCredential _) as [credential|] eqn:Hcred; [|intros [= <- <-]; left; by eexists].
  unfold mbind at 1, M_bind at 1. unfold attempt at 1. pose proof (preserves_Verify credential w) as Hs1.
  destruct (Gateway_Verify credential w) as [[player|err] w1] eqn:Hverify; cbn [snd] in Hs1; [|intros [= <- <-]; left; by eexists].
  unfold mbind at 1, M_bind at 1. unfold attempt at 1. pose proof (undisturbed_upgrade (obs := sessions_of) w1) as Hs2.
  destruct (ws_Upgrade w1) as [[u|err] w2] eqn:Hup; cbn [snd] in Hs2; [|intros [= <- <-]; left; eexists; split_and!; [done|done|congruence]].
  pose proof (serve_spec player incoming w2) as Hserve. unfold wp in Hserve. unfold mbind, M_bind.
  destruct (serve g s player incoming w2) as [r3 w3] eqn:Hrun; cbn [fst snd] in Hserve. destruct Hserve as [-> (c & Hsame)].
  intros [= <- <-]. right. split_and!; [done|done|done| |].
  - exists credential, player, w1, w2, u. split; [done|]. split; [by apply Verify_ran|done].
  - exists c. unfold same_but in *. by rewrite <- Hs1, <- Hs2.
Qed.
End serving.

(** ** At work *)

Import Beside EgressDemo.

Module SocketDemo.
(** Sessions, the transport's memory and the wire beside the world. *)
Definition PW : Type := World * (sessions * (Transport * list (string * string))).
#[export] Instance pw_sessions : HasSessions PW := {|
  sessions_of w := w.2.1; with_sessions t w := (w.1, (t, w.2.2)) |}.
#[export] Instance pw_transport : HasTransport PW := {|
  transport_of w := w.2.2.1; with_transport t w := (w.1, (w.2.1, (t, w.2.2.2))) |}.
#[export] Instance pw_wire : HasWire PW := {| wire_of w := w.2.2.2 |}.
#[export] Instance pw_socket : WebSocket PW := {|
  ws_Upgrade := mret tt; ws_SetWriteDeadline _ := mret tt;
  ws_WriteMessage c d := fun w => (Ok tt, (w.1, (w.2.1, (w.2.2.1, w.2.2.2 ++ [(c, d)]))));
  ws_WriteControl _ _ _ := mret tt; ws_Close _ := mret tt |}.
#[export] Instance pw_publisher : ActionPublisher PW := {| PublishToStreamWithMsgID _ _ _ := mret tt |}.
#[export] Instance pw_roster : Authenticator PW := {|
  auth_Authenticate credential := lift (Roster_Authenticate {| ro_entries := [("sesame"%string, Demo.player_id)] |} credential) |}.
#[export] Instance pw_ctx : Ctx PW := {| ctx_Err := mret tt |}.
#[export] Instance pw_artifacts : ResultArtifacts PW := {|
  result_GetRoll _ := throw (Sentinel ErrArtifactNotFound);
  result_GetNarration _ := mret {| n_TurnID := "turn-a1"; n_Band := BandAuto; n_Prose := "The hall is empty." |};
  result_GetCompanionStageRecord _ := mret {|
    csr_TurnID := "turn-a1"; csr_PlayerID := Demo.player_id; csr_CompanionID := EmptyString; csr_BondID := EmptyString;
    csr_Status := CompanionStageNoActiveBond; csr_TriggerKind := EmptyString; csr_TriggerSource := EmptyString;
    csr_DecisionRef := EmptyString |};
  result_GetCompanionDecision _ := throw (Sentinel ErrArtifactNotFound) |}.
#[export] Instance pw_net : NetAddresses := {|
  split_host := Ok; loopback_literal := String.eqb "127.0.0.1"; loopback_peer := String.eqb "127.0.0.1:9" |}.

(** The peer speaks two texts: a request for the latest result, and others. *)
#[export] Instance pw_text : SocketText := {|
  marshal_frame f := Ok (fr_Type f);
  object_members raw := if String.eqb raw "latest" then Ok {[ "type"%string := quote_mark ]} else Err (Sentinel "not an object");
  string_token _ := Ok RequestRetrieve;
  request_stream _ := Ok ({| rq_Protocol := PlayerProtocolV1; rq_Type := RequestRetrieve; rq_By := RetrieveLatest; rq_ID := EmptyString |},
                          Err (Sentinel EOF)) |}.

#[export] Existing Instances GatewayDemo.gw_envelope GatewayDemo.gw_text.
#[export] Instance pw_transport_laws : TransportLaws PW.
Proof. by split. Qed.
#[export] Instance pw_socket_laws : SocketLaws PW.
Proof.
  assert (Hund : forall X (obs : sessions * (Transport * list (string * string)) -> X),
    (forall t x, obs (x.1, (t, x.2.2)) = obs x) -> Undisturbed (W := PW) (fun w => obs w.2)).
  { intros X obs Ht. split; try done.
    - intros id w. exact (f_equal obs (beside_state (GetEntity id) w)).
    - intros t w. apply Ht. }
  split; try done; [by apply (Hund _ (fun x => x.2.2))|by apply (Hund _ fst)|by left].
Qed.

#[export] Instance pw_result_laws : ResultLaws PW.
Proof.
  split; try done.
  - intros id [w x]. pose proof (mem_read_still id w) as Hs. cbn [GetEntity beside_store]. unfold beside. cbn [fst snd].
    destruct (GetEntity id w) as [r w1]. cbn in *. by rewrite Hs.
  - intros id [w x] err He. apply (mem_read_foreign id w). cbn [GetEntity beside_store] in He. unfold beside in He.
    cbn [fst snd] in He. by destruct (GetEntity id w).
Qed.

Definition server : Server PW := {|
  sv_results := Some (egress_retriever surface);
  sv_config := {| sc_Addr := EmptyString; sc_Path := DefaultPath; sc_AllowNonLoopback := false |};
  sv_pingInterval := 1; sv_pongTimeout := 1; sv_writeTimeout := 1; sv_nonce := "00aa" |}.
Definition restarted : Server PW := {|
  sv_results := None; sv_config := sv_config server; sv_pingInterval := 1; sv_pongTimeout := 1; sv_writeTimeout := 1;
  sv_nonce := "00ab" |}.
Lemma server_still results : sv_results server = Some results ->
  (forall p id, still (rr_ByTurnForPlayer results p id)) /\ (forall p id, still (rr_ByActionForPlayer results p id)) /\
  (forall p, still (rr_Latest results p)).
Proof.
  intros [= <-]. cbn. split_and!; [intros; apply still_ByTurnForPlayer| |intros; apply still_Latest].
  intros p id. unfold ByActionForPlayer. apply still_bind; [done|]. intros ?. apply still_ByTurnForPlayer.
Qed.

(** Ada's turn is told; she connects, asks for it, and sends a binary frame. *)
Definition idle : PW :=
  (mkWorld {[ Demo.player_id := player; Demo.turn_id := told_turn ]} 10 [] [],
   (newSessions 1, ({| tp_counter := 6; tp_closed := ∅ |}, []))).
Definition handshake : Handshake := {| hs_Path := "/play"; hs_Remote := "127.0.0.1:9"; hs_Authorization := "bearer sesame" |}.
Definition messages : list Message := [{| ms_Text := true; ms_Raw := "latest" |}; {| ms_Text := false; ms_Raw := "?" |}].
Definition visit : res handshake_end * PW := ServeHTTP GatewayDemo.gate server handshake messages idle.
Definition spoken : res unit * PW := readLoop GatewayDemo.gate server "ws-1" Demo.player_id messages idle.
Definition answered : RetrieveResponse :=
  match (retrieve server Demo.player_id "latest" idle).1 with
  | Ok response => response
  | Err _ => retrievalRefused RetrieveLatest EmptyString RetrieveUnavailable EmptyString
  end.
End SocketDemo.
Import SocketDemo.

Lemma connection_ids_do_not_repeat_witness :
  (mints server 3 idle).1 = Ok ["ws-00aa-7"; "ws-00aa-8"; "ws-00aa-9"]%string /\
  NoDup ["ws-00aa-7"; "ws-00aa-8"; "ws-00aa-9"]%string.
Proof.
  split; [vm_compute; reflexivity|].
  apply (connection_ids_do_not_repeat server restarted 3 1 idle idle _ ["ws-00ab-7"%string]);
    [vm_compute; reflexivity|vm_compute; reflexivity|lia].
Defined.

Lemma retrievals_answer_with_the_players_own_result_witness :
  rp_Status answered = RetrieveFound /\ RetrieveResponse_Validate answered = Ok tt /\ answers_player Demo.player_id answered.
Proof.
  split; [vm_compute; reflexivity|].
  destruct (retrievals_answer_with_the_players_own_result server surface Demo.player_id "latest" idle answered
              (retrieve server Demo.player_id "latest" idle).2) as (_ & Hv & Ha).
  - reflexivity.
  - intros err Herr. exfalso. revert Herr. vm_compute. intros [=].
  - refine (pair_of (retrieve server Demo.player_id "latest" idle) (Ok answered) _). vm_compute. reflexivity.
  - split; [exact Hv|exact Ha].
Defined.

Lemma every_message_is_answered_once_witness :
  wire_of spoken.2 = [("ws-1", FrameRetrieveResponse); ("ws-1", FrameSubmitResponse)]%string /\
  exists answered rest frames docs unsent,
    messages = answered ++ rest /\ Forall2 (answer_of GatewayDemo.gate server "ws-1" Demo.player_id) answered frames /\
    Forall2 (fun frame d => Frame_encode frame = Ok d) frames docs /\
    wire_of spoken.2 = wire_of idle ++ map (fun d => ("ws-1"%string, d)) docs ++ unsent /\
    match rest with
    | [] => unsent = []
    | message :: _ => stopped GatewayDemo.gate server "ws-1" Demo.player_id message unsent
    end.
Proof.
  split; [vm_compute; reflexivity|].
  apply (every_message_is_answered_once GatewayDemo.gate server server_still "ws-1" Demo.player_id messages idle spoken.1).
  apply surjective_pairing.
Defined.

Lemma sockets_are_authenticated_and_leave_no_session_witness :
  visit.1 = Ok Served /\ get_session "ws-00aa-7" (sessions_of visit.2) = None /\
  ((exists ending, visit.1 = Ok ending /\ ending <> Served /\ sessions_of visit.2 = sessions_of idle) \/
   (visit.1 = Ok Served /\ hs_Path handshake = sc_Path (sv_config server) /\
    peerIsAllowed (sv_config server) (hs_Remote handshake) = true /\
    (exists credential player w1 w2 u, bearerCredential (hs_Authorization handshake) = Some credential /\
       credential_of credential player idle w1 /\ ws_Upgrade w1 = (Ok u, w2) /\
       serve GatewayDemo.gate server player messages w2 = (Ok tt, visit.2)) /\
    exists c, same_but c idle visit.2)).
Proof.
  split; [vm_compute; reflexivity|]. split; [vm_compute; reflexivity|].
  apply (sockets_are_authenticated_and_leave_no_session GatewayDemo.gate server server_still handshake messages idle visit.1).
  apply surjective_pairing.
Defined.
