(* ===== verification/BootSequenceSpec.v ===== *)
(** What a boot sequence promises whatever its steps do - the steps that ran
    respect the declared prerequisites, a sequence is refused for its order
    exactly when the order is wrong, a step starts in a world its prerequisites
    have established - and what its preconditions decide: which subjects a
    checked stream really captures, when the rule processor is taken to be ready,
    and that every readback of the boot ends. *)

From stdpp Require Import relations.
From stdpp Require Import infinite.
From S2P Require Import Prelude GoStd GoErrors Graph Vocab Vocabulary Payload ProjectionContract Store Campaign Sequencing GraphIO Turn Persona Spawn BootSequence MemStore TurnSpec CampaignSpec.

Open Scope Z_scope.

(** A list without a step before one it needs, given what is done already. *)
Fixpoint ordered_from {W} (done : gset string) (steps : list (Step W)) : bool :=
  match steps with
  | [] => true
  | step :: rest =>
      forallb (fun need => bool_decide (need ∈ done)) (st_Needs step) && ordered_from ({[st_ID step]} ∪ done) rest
  end.

Section spec.
Context {W : Type} `{Ctx W}.
Implicit Types (s : Sequence W) (step : Step W) (w : W).

(** Every completed step is a declared one, once, after all it needs. *)
Definition respects s : Prop :=
  NoDup (sq_completed s) /\ (forall id, id ∈ sq_done s <-> id ∈ sq_completed s) /\
  forall pre id post, sq_completed s = pre ++ id :: post ->
    exists step, step ∈ sq_steps s /\ st_ID step = id /\ Forall (fun need => need ∈ pre) (st_Needs step).

Lemma missing_nil s step : missing s step = [] <-> Forall (fun need => need ∈ sq_done s) (st_Needs step).
Proof.
  unfold missing. induction (st_Needs step) as [|need needs IH]; cbn; [by rewrite Forall_nil|].
  rewrite Forall_cons. case_bool_decide; cbn; [naive_solver|]. split; [done|naive_solver].
Qed.

Lemma respects_complete s step :
  respects s -> step ∈ sq_steps s -> st_ID step ∉ sq_done s -> missing s step = [] ->
  respects {| sq_steps := sq_steps s; sq_done := {[st_ID step]} ∪ sq_done s;
              sq_completed := sq_completed s ++ [st_ID step] |}.
Proof.
  intros (Hnd & Hdone & Hpre) Hin Hnew Hneeds. split_and!; cbn.
  - apply NoDup_app. split_and!; [done| |apply NoDup_singleton].
    intros id Hid ->%list_elem_of_singleton. by apply Hnew, Hdone.
  - intros id. rewrite elem_of_app, elem_of_union, elem_of_singleton, list_elem_of_singleton, Hdone. naive_solver.
  - intros pre id post Heq. destruct post as [|p post _] using rev_ind.
    + apply app_inj_tail in Heq as [<- <-]. exists step. split_and!; [done..|].
      apply missing_nil in Hneeds. eapply Forall_impl; [exact Hneeds|]. intros need. apply Hdone.
    + rewrite app_comm_cons, app_assoc in Heq. apply app_inj_tail in Heq as [Heq _]. by apply (Hpre pre id post).
Qed.

(** *** The rule of a run

    [P id w] is what step [id] establishes; nothing the boot does undoes it. *)
Section rule.
Variable P : string -> W -> Prop.
Variable steps0 : list (Step W).

Definition keeping (w w' : W) : Prop := forall id, P id w -> P id w'.

Definition establishes step : Prop := forall w, Forall (fun need => P need w) (st_Needs step) ->
  wp (perform step) (fun r w' => keeping w w' /\ (is_ok r = true -> P (st_ID step) w')) w.

Definition established s w : Prop := respects s /\ sq_steps s = steps0 /\ Forall (fun id => P id w) (sq_completed s).

Hypothesis Hctx : forall w, keeping w (ctx_Err w).2.
Hypothesis Hsteps : Forall establishes steps0.

Lemma established_keeping s w w' : established s w -> keeping w w' -> established s w'.
Proof. intros (? & ? & Hall) Hk. split_and!; [done..|]. eapply Forall_impl; [exact Hall|]. intros id. apply Hk. Qed.

Definition ran (last : string) (steps : list (Step W)) s (r : res unit) (sw : Sequence W * W) : Prop :=
  established sw.1 sw.2 /\ sq_completed s `prefix_of` sq_completed sw.1 /\
  (is_ok r = true -> last ∈ sq_completed sw.1 \/ Forall (fun step => st_ID step ∈ sq_completed sw.1) steps).

Lemma run_steps_rule last steps s w :
  Forall (fun step => step ∈ steps0) steps -> established s w -> wp (run_steps last steps) (ran last steps s) (s, w).
Proof.
  revert s w. induction steps as [|step steps IH]; intros s w Hin Hs; cbn [run_steps].
  { apply wp_ret. split_and!; [done..|]. right. constructor. }
  apply Forall_cons in Hin as [Hstep Hin]. apply wp_bind. unfold wp at 1, get_sequence. cbn [fst snd].
  destruct (decide _) as [Hd|Hd].
  { eapply wp_mono; [by apply IH|]. intros r sw (He & Hp & Hr). split_and!; [done..|].
    intros Hok. destruct (Hr Hok) as [|Hall]; [by left|]. right. constructor; [|done].
    eapply elem_of_prefix; [|exact Hp]. by apply Hs. }
  apply wp_bind. unfold wp at 1, on_world, wrapping. pose proof (Hctx w) as Hk.
  destruct (ctx_Err w) as [[[]|err] w1]; cbn [fst snd wrapf] in *;
    [|split_and!; [by eapply established_keeping|done|done]].
  pose proof (established_keeping _ _ _ Hs Hk) as Hs1.
  destruct (missing s step) as [|need needs] eqn:Hm; [|apply wp_throw; split_and!; done].
  assert (Hneeds : Forall (fun need => P need w1) (st_Needs step)).
  { apply missing_nil in Hm. destruct Hs1 as ((_ & Hdone & _) & _ & Hall). rewrite Forall_forall in Hall, Hm |- *.
    intros n Hn. by apply Hall, Hdone, Hm. }
  rewrite Forall_forall in Hsteps. pose proof (Hsteps step Hstep w1 Hneeds) as Hp.
  apply wp_bind. unfold wp in Hp |- * at 1. unfold on_world.
  destruct (perform step w1) as [[[]|err] w2]; cbn [fst snd] in *; destruct Hp as [Hk2 HP].
  2: { split_and!; [by eapply established_keeping|done|done]. }
  pose proof (established_keeping _ _ _ Hs1 Hk2) as (Hr2 & Hst & Hall).
  apply wp_bind. unfold wp at 1, complete_step. cbn [fst snd].
  match goal with |- wp _ _ (?s', _) => assert (Hs2 : established s' w2) end.
  { split_and!; cbn; [apply respects_complete; [done|by rewrite Hst|done|done]|done|].
    apply Forall_app. split; [done|]. constructor; [by apply HP|constructor]. }
  destruct (String.eqb_spec (st_ID step) last) as [<-|Hne].
  { apply wp_ret. split_and!; cbn; [done|by eexists|]. intros _. left. apply elem_of_app. right. by left. }
  eapply wp_mono; [by apply IH|]. intros r sw (He & Hpre & Hr). split_and!; [done| |].
  - etransitivity; [|exact Hpre]. by eexists.
  - intros Hok. destruct (Hr Hok) as [|Hrest]; [by left|]. right. constructor; [|done].
    eapply elem_of_prefix; [|exact Hpre]. cbn. apply elem_of_app. right. by left.
Qed.

Lemma RunThrough_rule last s w : established s w -> wp (RunThrough last) (ran last steps0 s) (s, w).
Proof.
  intros Hs. unfold RunThrough. apply wp_bind. unfold wp at 1, get_sequence. cbn [fst snd].
  destruct (negb _ && negb _); [apply wp_throw; by split_and!|]. destruct Hs as (? & Hst & ?). rewrite Hst.
  apply run_steps_rule; [by apply Forall_forall|by split_and!].
Qed.
End rule.

(** *** Runs, and what the constructor accepted *)

(** A call of the sequence, or anything else that happens to the world. *)
Inductive boot_step : Sequence W * W -> Sequence W * W -> Prop :=
| boot_call last sw : boot_step sw (RunThrough last sw).2
| boot_elsewhere s w w' : boot_step (s, w) (s, w').

Definition anything (_ : string) (_ : W) : Prop := True.

Lemma RunThrough_respects last s w :
  respects s -> wp (RunThrough last) (ran anything (sq_steps s) last (sq_steps s) s) (s, w).
Proof.
  intros Hs. apply RunThrough_rule.
  - done.
  - apply Forall_forall. intros step _ w1 _. by apply wp_intro with (r := (perform step w1).1) (w' := (perform step w1).2);
      [apply surjective_pairing|].
  - split_and!; [done..|]. by apply Forall_forall.
Qed.

Lemma boot_run_respects sw sw' : rtc boot_step sw sw' -> respects sw.1 -> respects sw'.1 /\ sq_steps sw'.1 = sq_steps sw.1.
Proof.
  induction 1 as [|sw sw1 sw' Hstep _ IH]; [done|]. intros Hs.
  assert (respects sw1.1 /\ sq_steps sw1.1 = sq_steps sw.1) as [Hs1 Heq].
  { destruct Hstep as [last [s w]|s w w']; [|done].
    by destruct (RunThrough_respects last s w Hs) as ((? & ? & _) & _). }
  destruct (IH Hs1) as [? ->]. done.
Qed.

Lemma declare_steps_ok (steps : list (Step W)) declared declared' : declare_steps steps declared = Ok declared' ->
  NoDup (map st_ID steps) /\ Forall (fun id => id <> EmptyString /\ id ∉ declared) (map st_ID steps) /\
  Forall (fun step => st_Run step <> None) steps /\
  declared' = declared ∪ list_to_set (map st_ID steps).
Proof.
  revert declared. induction steps as [|step steps IH]; intros declared; cbn.
  { intros [= <-]. split_and!; try constructor. set_solver. }
  destruct (String.eqb_spec (st_ID step) EmptyString) as [|Hne]; [done|].
  destruct (decide _) as [|Hnew]; [done|]. destruct (st_Run step) as [run|] eqn:Hrun; [|done].
  intros (Hnd & Hall & Hruns & ->)%IH. rewrite Forall_forall in Hall. split_and!.
  - constructor; [|done]. intros Hin. destruct (Hall _ Hin) as [_ Hout]. set_solver.
  - constructor; [done|]. apply Forall_forall. intros id Hid. destruct (Hall id Hid). set_solver.
  - constructor; [by rewrite Hrun|done].
  - set_solver.
Qed.

Lemma NewSequence_ok (steps : list (Step W)) s0 : NewSequence steps = Ok s0 ->
  s0 = {| sq_steps := steps; sq_done := ∅; sq_completed := [] |} /\
  NoDup (map st_ID steps) /\ (EmptyString ∉ map st_ID steps) /\ Forall (fun step => st_Run step <> None) steps /\
  (forall step need, step ∈ steps -> need ∈ st_Needs step -> need <> st_ID step /\ need ∈ map st_ID steps).
Proof.
  unfold NewSequence. destruct (Nat.eqb _ _); [done|]. rewrite result_bind_ok.
  intros (declared & (Hnd & Hall & Hruns & ->)%declare_steps_ok & Hrest).
  apply result_bind_ok in Hrest as ([] & Hneeds & [= <-]). rewrite Forall_forall in Hall.
  apply all_ok_Forall in Hneeds. rewrite Forall_forall in Hneeds. split_and!; [done..| | |].
  - intros Hin. by destruct (Hall _ Hin).
  - done.
  - intros step need Hstep Hneed. apply Hneeds in Hstep. unfold check_needs in Hstep. apply all_ok_Forall in Hstep.
    rewrite Forall_forall in Hstep. specialize (Hstep need Hneed). cbn beta in Hstep.
    destruct (String.eqb_spec need (st_ID step)); [done|]. destruct (decide _) as [Hd|]; [|done].
    split; [done|]. set_solver.
Qed.

(** *** The order *)

Lemma ordered_weaken (steps : list (Step W)) done1 done2 :
  done1 ⊆ done2 -> ordered_from done1 steps = true -> ordered_from done2 steps = true.
Proof.
  revert done1 done2. induction steps as [|step steps IH]; intros d1 d2 Hsub; cbn; [done|].
  rewrite !andb_true_iff, !forallb_forall. intros [Hn Ho]. split; [|by eapply IH, Ho; set_solver].
  intros need Hin. specialize (Hn need Hin). apply bool_decide_eq_true in Hn. apply bool_decide_eq_true. set_solver.
Qed.

Definition order_refusal (r : res unit) : Prop := exists id needs completed, r = Err (misordered id needs completed).

Lemma run_ordered last steps s w :
  ordered_from (sq_done s) steps = true -> wp (run_steps last steps) (fun r _ => ~ order_refusal r) (s, w).
Proof.
  revert s w. induction steps as [|step steps IH]; intros s w Ho; cbn [run_steps].
  { apply wp_ret. by intros (? & ? & ? & ?). }
  cbn in Ho. apply andb_true_iff in Ho as [Hn Ho]. apply wp_bind. unfold wp at 1, get_sequence. cbn [fst snd].
  destruct (decide _) as [Hd|Hd].
  { apply IH. eapply ordered_weaken; [|exact Ho]. set_solver. }
  apply wp_bind. unfold wp at 1, on_world, wrapping.
  destruct (ctx_Err w) as [[[]|err] w1]; cbn [fst snd wrapf]; [|by intros (? & ? & ? & ?)].
  assert (Hm : missing s step = []).
  { apply missing_nil, Forall_forall. intros need Hin. rewrite forallb_forall in Hn.
    apply list_elem_of_In in Hin. by apply Hn, bool_decide_eq_true in Hin. }
  rewrite Hm. apply wp_bind. unfold wp at 1, on_world.
  assert (Hp : wp (perform step) (fun r _ => ~ order_refusal r) w1).
  { unfold perform. apply wp_bind. destruct (st_Check step) as [check|].
    2: { apply wp_ret. unfold wp. destruct (st_Run step) as [run|]; [|by intros (? & ? & ? & ?)].
      unfold wrapping. by destruct (run w1) as [[]]; intros (? & ? & ? & ?). }
    unfold wp at 1, wrapping. destruct (check w1) as [[[]|] w2]; cbn [fst snd wrapf]; [|by intros (? & ? & ? & ?)].
    unfold wp. destruct (st_Run step) as [run|]; [|by intros (? & ? & ? & ?)].
    unfold wrapping. by destruct (run w2) as [[]]; intros (? & ? & ? & ?). }
  unfold wp in Hp. destruct (perform step w1) as [[[]|err] w2]; cbn [fst snd] in *.
  2: { intros (? & ? & ? & [= ->]). apply Hp. by eexists _, _, _. }
  apply wp_bind. unfold wp at 1, complete_step. cbn [fst snd].
  destruct (String.eqb _ _); [apply wp_ret; by intros (? & ? & ? & ?)|]. by apply IH.
Qed.

(** Nothing stands in the way of a step. *)
Definition willing (steps : list (Step W)) : Prop :=
  (forall w, (ctx_Err w).1 = Ok tt) /\ Forall (fun step => forall w, (perform step w).1 = Ok tt) steps.

Lemma run_misordered steps s w :
  willing steps -> EmptyString ∉ map st_ID steps -> (forall id, id ∈ map st_ID steps -> id ∉ sq_done s) ->
  NoDup (map st_ID steps) -> ordered_from (sq_done s) steps = false ->
  wp (run_steps EmptyString steps) (fun r _ => order_refusal r) (s, w).
Proof.
  intros [Hctx Hall]. revert s w. induction steps as [|step steps IH]; intros s w Hne Hnew Hnd Ho; cbn [run_steps]; [done|].
  apply Forall_cons in Hall as [Hp Hall]. cbn in Hne, Hnew. apply NoDup_cons in Hnd as [Hfresh Hnd].
  apply wp_bind. unfold wp at 1, get_sequence. cbn [fst snd]. destruct (decide _) as [Hd|Hd]; [set_solver|].
  apply wp_bind. unfold wp at 1, on_world, wrapping. specialize (Hctx w) as Hc.
  destruct (ctx_Err w) as [r w1]. cbn [fst] in Hc. subst r. cbn [fst snd wrapf].
  destruct (missing s step) as [|need needs] eqn:Hm; [|apply wp_throw; by eexists _, _, _].
  apply wp_bind. unfold wp at 1, on_world. specialize (Hp w1). destruct (perform step w1) as [r w2].
  cbn [fst] in Hp. subst r. cbn [fst snd]. apply wp_bind. unfold wp at 1, complete_step. cbn [fst snd].
  destruct (String.eqb_spec (st_ID step) EmptyString) as [Heq|]; [set_solver|].
  apply IH; [done|set_solver|set_solver|done|]. cbn in Ho |- *. apply andb_false_iff in Ho as [Hn|]; [|done].
  exfalso. apply missing_nil in Hm. rewrite Forall_forall in Hm.
  assert (Ht : forallb (fun need => bool_decide (need ∈ sq_done s)) (st_Needs step) = true); [|congruence].
  apply forallb_forall. intros need Hin. by apply bool_decide_eq_true, Hm, list_elem_of_In.
Qed.

(** A run through a step that is done skips over it. *)
Lemma run_past_done last steps s w :
  last ∈ sq_done s -> EmptyString ∉ map st_ID steps ->
  run_steps last steps (s, w) = run_steps EmptyString steps (s, w).
Proof.
  revert s w. induction steps as [|step steps IH]; intros s w Hd Hne; [done|]. cbn in Hne.
  cbn [run_steps]. unfold mbind, M_bind, get_sequence. cbn [fst]. destruct (decide _) as [|Hnd]; [apply IH; set_solver|].
  unfold on_world at 1 3. destruct (wrapping _ ctx_Err w) as [[[]|] w1]; [|done].
  destruct (missing s step); [|done]. unfold on_world. destruct (perform step w1) as [[[]|] w2]; [|done].
  unfold complete_step. destruct (String.eqb_spec (st_ID step) last) as [Heq|]; [by rewrite Heq in Hnd|].
  destruct (String.eqb_spec (st_ID step) EmptyString); [set_solver|]. apply IH; [|set_solver]. cbn. set_solver.
Qed.
End spec.

(** An order that puts prerequisites first is never refused for it. *)
Lemma ordered_is_not_refused {W} `{Ctx W} (steps : list (Step W)) s0 (Hnew : NewSequence steps = Ok s0) :
  ordered_from ∅ steps = true -> forall last s w, Sequence_Steps s = steps -> ~ order_refusal (RunThrough last (s, w)).1.
Proof.
  intros Ho last s w Hs. unfold RunThrough, mbind, M_bind, get_sequence. cbn [fst]. unfold Sequence_Steps in Hs.
  destruct (negb _ && negb _); [by intros (? & ? & ? & ?)|]. rewrite Hs.
  apply (run_ordered last steps s w). eapply ordered_weaken; [|exact Ho]. set_solver.
Qed.

(** ** The guarantees *)

Section guarantees.
Context {W : Type} `{Ctx W}.

(** However often a boot is resumed and whatever its steps and the world do,
    the steps that completed are declared ones, none twice, each after all it
    requires; and a run that ends without error has completed every step. *)
Theorem boot_steps_follow_their_prerequisites (steps : list (Step W)) s0 w0 s w
    (Hnew : NewSequence steps = Ok s0) (Hrun : rtc boot_step (s0, w0) (s, w)) :
  NoDup (Completed s) /\
  (forall pre id post, Completed s = pre ++ id :: post ->
     exists step, step ∈ steps /\ st_ID step = id /\ Forall (fun need => need ∈ pre) (st_Needs step)) /\
  (forall s' w', Sequence_Run (s, w) = (Ok tt, (s', w')) -> Completed s' ≡ₚ map st_ID steps).
Proof.
  apply NewSequence_ok in Hnew as (-> & Hnd & Hne & _).
  assert (Hinit : respects {| sq_steps := steps; sq_done := ∅; sq_completed := [] |}).
  { split_and!; cbn; [constructor|set_solver|]. intros pre id post Heq. by destruct pre. }
  apply boot_run_respects in Hrun as [Hs Hst]; [|done]. cbn in Hs, Hst. destruct Hs as (Hs1 & Hs2 & Hs3).
  split_and!; [done|by rewrite Hst in Hs3|]. intros s' w' Hfinal.
  pose proof (wp_elim _ _ _ _ _ (RunThrough_respects EmptyString s w (conj Hs1 (conj Hs2 Hs3))) Hfinal) as (He & _ & Hr).
  cbn in He, Hr. destruct He as ((Hnd' & _ & Hpre) & Hst' & _). rewrite Hst', Hst in Hpre. rewrite Hst in Hr.
  assert (Hdecl : forall id, id ∈ sq_completed s' -> id ∈ map st_ID steps).
  { intros id (pre & post & Hid)%list_elem_of_split. destruct (Hpre pre id post Hid) as (step & Hin & <- & _).
    by apply list_elem_of_fmap_2. }
  apply NoDup_Permutation; [done..|]. intros id. split; [apply Hdecl|]. intros (step & -> & Hin)%list_elem_of_fmap_1.
  destruct (Hr eq_refl) as [Hlast|Hall]; [by apply Hdecl in Hlast|]. rewrite Forall_forall in Hall. by apply Hall.
Qed.

(** C34: A boot is refused for its order exactly when its order is wrong: in an
    order that puts prerequisites first no run is ever refused for it, wherever
    it resumes; in any other, a boot whose every step is willing is refused. *)
Theorem order_is_refused_exactly_when_wrong (steps : list (Step W)) s0 (Hnew : NewSequence steps = Ok s0) :
  (ordered_from ∅ steps = true ->
     forall last s w, Sequence_Steps s = steps -> ~ order_refusal (RunThrough last (s, w)).1) /\
  (ordered_from ∅ steps = false -> willing steps -> forall w, order_refusal (Sequence_Run (s0, w)).1).
Proof.
  split; [by apply (ordered_is_not_refused steps s0)|].
  apply NewSequence_ok in Hnew as (-> & Hnd & Hne & _). intros Ho Hw w. by apply (run_misordered steps _ w).
Qed.

(** A run through a step that has run already does not stop there: it is the
    whole boot. *)
Theorem run_through_a_finished_step_runs_on (steps : list (Step W)) s0 s w last
    (Hnew : NewSequence steps = Ok s0) (Hs : Sequence_Steps s = steps) (Hlast : last ∈ map st_ID steps)
    (Hdone : last ∈ sq_done s) :
  RunThrough last (s, w) = Sequence_Run (s, w).
Proof.
  apply NewSequence_ok in Hnew as (_ & _ & Hne & _). unfold Sequence_Run, RunThrough, mbind, M_bind, get_sequence.
  cbn [fst]. unfold Sequence_Steps in Hs.
  assert (Hdecl : declares s last = true).
  { unfold declares. apply existsb_exists. rewrite Hs. apply list_elem_of_fmap_1 in Hlast as (step & -> & Hin).
    exists step. split; [by apply list_elem_of_In|]. apply String.eqb_refl. }
  rewrite Hdecl, andb_false_r. cbn. rewrite Hs. by apply run_past_done.
Qed.
End guarantees.

(** ** A small boot *)

Module SequenceDemo.

(** Steps that leave their name in a journal; the context never ends. *)
#[export] Instance journal_ctx : Ctx (list string) := {| ctx_Err := mret tt |}.
Definition journal (id : string) : MW (list string) unit := fun w => (Ok tt, w ++ [id]).
Definition step (id : string) (needs : list string) : Step (list string) :=
  {| st_ID := id; st_Needs := needs; st_Check := None; st_Run := Some (journal id) |}.

Definition in_order : list (Step (list string)) := [step "connect" []; step "graph" ["connect"]; step "world" ["graph"]]%string.
Definition started (steps : list (Step (list string))) : Sequence (list string) :=
  {| sq_steps := steps; sq_done := ∅; sq_completed := [] |}.
Definition half : Sequence (list string) * list string := (RunThrough "graph" (started in_order, [])).2.

Lemma accepted : NewSequence in_order = Ok (started in_order).
Proof. vm_compute. reflexivity. Qed.

Lemma half_run : rtc boot_step (started in_order, []) (half.1, half.2).
Proof. rewrite <- surjective_pairing. apply rtc_once, (boot_call "graph" (started in_order, [])). Qed.
End SequenceDemo.
Import SequenceDemo.

Lemma boot_steps_follow_their_prerequisites_witness :
  Completed half.1 = ["connect"; "graph"]%string /\ half.2 = Completed half.1 /\
  Completed (Sequence_Run half).2.1 ≡ₚ ["connect"; "graph"; "world"]%string.
Proof.
  split; [vm_compute; reflexivity|]. split; [vm_compute; reflexivity|].
  apply (boot_steps_follow_their_prerequisites in_order (started in_order) [] half.1 half.2 accepted half_run) with (w' := (Sequence_Run half).2.2).
  vm_compute. reflexivity.
Defined.

Lemma order_is_refused_exactly_when_wrong_witness :
  is_ok (RunThrough "graph" (started in_order, [])).1 = true /\
  order_refusal (Sequence_Run (started (rev in_order), [])).1.
Proof.
  split; [vm_compute; reflexivity|].
  apply (order_is_refused_exactly_when_wrong (rev in_order) (started (rev in_order)) ltac:(vm_compute; reflexivity)).
  - vm_compute. reflexivity.
  - split; [done|]. repeat constructor.
Defined.

Lemma run_through_a_finished_step_runs_on_witness :
  RunThrough "graph" half = Sequence_Run half /\
  Completed (RunThrough "graph" half).2.1 = ["connect"; "graph"; "world"]%string.
Proof.
  split; [|vm_compute; reflexivity].
  apply (run_through_a_finished_step_runs_on in_order (started in_order) half.1 half.2 "graph" accepted).
  - vm_compute. reflexivity.
  - right. left.
  - apply (bool_decide_eq_true _). vm_compute. reflexivity.
Defined.

(** ** Subjects

    A pattern matches a subject token by token; [*] stands for one token and a
    final [>] for one or more. *)

Fixpoint subject_matches (pattern subject : list string) : bool :=
  match pattern with
  | [] => match subject with [] => true | _ => false end
  | token :: pattern' =>
      match subject with
      | [] => false
      | t :: subject' =>
          String.eqb token ">" || ((String.eqb token "*" || String.eqb token t) && subject_matches pattern' subject')
      end
  end.

(** A token of a subject something is published on. *)
Definition literal_token (t : string) : Prop := t <> EmptyString /\ t <> "*"%string /\ t <> ">"%string.

(** No token is empty and [>] comes last. *)
Fixpoint well_formed (pattern : list string) : Prop :=
  match pattern with
  | [] => True
  | token :: rest => token <> EmptyString /\ (token = ">"%string -> rest = []) /\ well_formed rest
  end.

(** The two shapes the check takes for covered which are not: a [*] against a
    final [>], and a [>] against nothing left. *)
Fixpoint blind (pattern want : list string) : bool :=
  match pattern with
  | [] => false
  | token :: pattern' =>
      let last := match pattern' with [] => true | _ => false end in
      match want with
      | [] => String.eqb token ">" && last
      | wanted :: want' => (String.eqb token "*" && String.eqb wanted ">" && last) || blind pattern' want'
      end
  end.

Definition reaches (pattern want : list string) : Prop :=
  forall s, Forall literal_token s -> subject_matches want s = true -> subject_matches pattern s = true.

Lemma covers_reaches pattern want :
  well_formed pattern -> well_formed want -> patternCovers pattern want = true -> blind pattern want = false ->
  reaches pattern want.
Proof.
  revert want. induction pattern as [|token pattern IH]; intros want Hp Hw; cbn [patternCovers].
  { destruct want; [|done]. by intros _ _ s _ Hs. }
  destruct Hp as (Ht & Hlast & Hp). destruct (String.eqb_spec token ">") as [->|Hne].
  { rewrite (Hlast eq_refl). destruct want as [|wanted want]; [done|]. intros _ _ s _ Hs. by destruct s. }
  destruct want as [|wanted want]; [done|]. destruct Hw as (Hx & Hxlast & Hw).
  destruct (negb _ && negb _) eqn:Htok; [done|]. intros Hc Hb s Hlit Hs. cbn [blind] in Hb.
  apply orb_false_iff in Hb as [Hb1 Hb2]. destruct s as [|t s]; [done|]. cbn [subject_matches] in Hs |- *.
  destruct (String.eqb_spec token ">"); [done|]. cbn [orb]. apply Forall_cons in Hlit as [_ Hlit].
  destruct (String.eqb_spec wanted ">") as [->|Hxne]; cbn [orb] in Hs.
  - destruct (String.eqb_spec token "*") as [->|]; [|by destruct (String.eqb_spec token ">")].
    rewrite (Hxlast eq_refl) in Hc, Hb2. destruct pattern as [|t1 [|]]; [done| |].
    + cbn in Hc, Hb2. by destruct (String.eqb t1 ">").
    + destruct Hp as (_ & Hl & _). cbn in Hc. destruct (String.eqb_spec t1 ">") as [->|]; [by specialize (Hl eq_refl)|done].
  - apply andb_true_iff in Hs as [Hxt Hs]. apply andb_true_iff. split; [|by apply (IH want)].
    destruct (String.eqb_spec token "*"); [done|]. destruct (String.eqb_spec token wanted) as [->|]; [|done].
    by destruct (String.eqb_spec wanted "*").
Qed.

(** A subject of [want] that meets no literal of a pattern by accident. *)
Definition instance_token (f wanted : string) : string :=
  if String.eqb wanted "*" || String.eqb wanted ">" then f else wanted.

Lemma instance_matches f want : literal_token f -> well_formed want ->
  Forall literal_token (map (instance_token f) want) /\ subject_matches want (map (instance_token f) want) = true.
Proof.
  intros Hf. induction want as [|wanted want IH]; intros Hw; [by repeat constructor|]. destruct Hw as (Hx & _ & Hw).
  destruct (IH Hw) as [Hl Hm]. cbn. unfold instance_token at 1 3. destruct (String.eqb_spec wanted "*") as [->|Hs]; cbn.
  { split; [by constructor|]. by rewrite Hm. }
  destruct (String.eqb_spec wanted ">") as [->|Hg]; cbn; [split; [by constructor|done]|].
  split; [by constructor|]. by rewrite String.eqb_refl, Hm.
Qed.

Lemma not_covered_misses f pattern want :
  literal_token f -> f ∉ pattern -> well_formed pattern -> well_formed want ->
  patternCovers pattern want = false \/ blind pattern want = true ->
  exists s, Forall literal_token s /\ subject_matches want s = true /\ subject_matches pattern s = false.
Proof.
  intros Hf. revert want. induction pattern as [|token pattern IH]; intros want Hfresh Hp Hw Hbad.
  { destruct want as [|wanted want]; [by destruct Hbad|]. destruct (instance_matches f (wanted :: want) Hf Hw) as [Hl Hm].
    by exists (map (instance_token f) (wanted :: want)). }
  apply not_elem_of_cons in Hfresh as [Hft Hfresh]. destruct Hp as (Ht & Hlast & Hp).
  destruct want as [|wanted want]; [by exists []|]. destruct Hw as (Hx & Hxlast & Hw).
  destruct (instance_matches f (wanted :: want) Hf (conj Hx (conj Hxlast Hw))) as [Hl Hm].
  cbn [patternCovers blind] in Hbad. destruct (String.eqb_spec token ">") as [->|Hne].
  { exfalso. rewrite (Hlast eq_refl) in Hbad. by destruct Hbad. }
  destruct (String.eqb_spec wanted ">") as [->|Hxne].
  { rewrite (Hxlast eq_refl) in *. destruct (String.eqb_spec token "*") as [->|Hstar].
    - destruct pattern as [|t pattern]; [exists [f; f]|exists [f]]; (split_and!; [by auto using Forall_cons_2, Forall_nil_2|done|done]).
    - exists [f]. split_and!; [by auto using Forall_cons_2, Forall_nil_2|done|]. cbn. destruct (String.eqb_spec token ">"); [done|].
      destruct (String.eqb_spec token "*"); [done|]. by destruct (String.eqb_spec token f). }
  rewrite andb_false_r in Hbad. cbn [andb orb] in Hbad. cbn in Hl, Hm. apply Forall_cons in Hl as [Hl1 Hl].
  destruct (String.eqb_spec wanted ">"); [done|]. cbn [orb] in Hm. apply andb_true_iff in Hm as [Hm1 Hm].
  destruct (negb (String.eqb token "*") && negb (String.eqb token wanted)) eqn:Htok.
  - apply andb_true_iff in Htok as [H1%negb_true_iff H2%negb_true_iff].
    exists (instance_token f wanted :: map (instance_token f) want). split_and!; [by constructor| |].
    + cbn. by rewrite Hm1, Hm, orb_true_r.
    + cbn. rewrite H1. destruct (String.eqb_spec token ">"); [done|]. cbn. unfold instance_token.
      destruct (String.eqb_spec wanted "*"); cbn; [by destruct (String.eqb_spec token f)|].
      destruct (String.eqb_spec wanted ">"); [done|]. by rewrite H2.
  - destruct (IH want Hfresh Hp Hw Hbad) as (s & Hs1 & Hs2 & Hs3).
    exists (instance_token f wanted :: s). split_and!; [by constructor| |].
    + cbn. by rewrite Hm1, Hs2, orb_true_r.
    + cbn. destruct (String.eqb_spec token ">"); [done|]. by rewrite Hs3, andb_false_r.
Qed.

Lemma fresh_token (l : list string) : exists f, literal_token f /\ f ∉ l.
Proof.
  destruct (exist_fresh (C := gset string) (list_to_set (EmptyString :: "*"%string :: ">"%string :: l))) as [f Hf]. exists f.
  rewrite elem_of_list_to_set, !not_elem_of_cons in Hf. unfold literal_token. tauto.
Qed.

(** The check of a stream's subjects tells, of well-formed patterns, exactly
    whether every subject the wanted pattern can match is one the stream
    captures - but for the two shapes it is blind to; and none of the subjects
    the engine asks of the streams it declares has one of those shapes. *)
Theorem captured_subjects_reach_the_stream subject want
    (Hs : well_formed (Split dot subject)) (Hw : well_formed (Split dot want)) :
  (subjectCaptured want [subject] = true /\ blind (Split dot subject) (Split dot want) = false <->
     reaches (Split dot subject) (Split dot want)) /\
  Forall (fun want => exists subject, subject ∈ AgentStreamSubjects /\ reaches (Split dot subject) (Split dot want))
    agentStreamSubjects.
Proof.
  split.
  - unfold subjectCaptured. cbn [existsb]. rewrite orb_false_r. split; [intros [? ?]; by apply covers_reaches|].
    intros Hr. destruct (fresh_token (Split dot subject)) as (f & Hf & Hfresh).
    destruct (patternCovers _ _) eqn:Hc, (blind _ _) eqn:Hb; [| |..]; try (by split);
      (destruct (not_covered_misses f _ _ Hf Hfresh Hs Hw) as (s & Hl & Hm & Hn); [tauto|]; by rewrite (Hr s Hl Hm) in Hn).
  - assert (Hall : forallb (fun want => existsb (fun subject =>
      patternCovers (Split dot subject) (Split dot want) && negb (blind (Split dot subject) (Split dot want)))
      AgentStreamSubjects) agentStreamSubjects = true) by (vm_compute; reflexivity).
    assert (Hwf : forall l, forallb (fun p => forallb (fun t => negb (String.eqb t EmptyString)) (Split dot p) &&
        forallb (fun t => negb (String.eqb t ">")) (removelast (Split dot p))) l = true ->
      forall p, p ∈ l -> well_formed (Split dot p)).
    { intros l Hl p Hin. rewrite forallb_forall in Hl. apply list_elem_of_In in Hin. apply Hl in Hin.
      apply andb_true_iff in Hin as [He Hg]. clear Hl. revert He Hg. generalize (Split dot p). clear.
      induction l as [|t l IH]; [done|]. cbn [forallb]. intros [Ht He]%andb_true_iff Hg. cbn [removelast] in Hg.
      apply negb_true_iff, String.eqb_neq in Ht. split; [done|]. destruct l as [|u l]; [done|].
      cbn [forallb] in Hg. apply andb_true_iff in Hg as [Hg1 Hg]. apply negb_true_iff, String.eqb_neq in Hg1.
      split; [done|]. by apply IH. }
    rewrite forallb_forall in Hall. apply Forall_forall. intros w Hin.
    pose proof (Hall w (proj1 (list_elem_of_In _ _) Hin)) as Hw'. apply existsb_exists in Hw' as (p & Hp & Hok).
    apply list_elem_of_In in Hp. apply andb_true_iff in Hok as [Hc Hb%negb_true_iff]. exists p. split; [done|].
    apply covers_reaches; [..|done|done].
    + by apply (Hwf AgentStreamSubjects); [vm_compute; reflexivity|].
    + by apply (Hwf agentStreamSubjects); [vm_compute; reflexivity|].
Qed.

(** A stream that captures one token below a prefix passes for one that
    captures everything below it, and a subject one token deeper reaches it not. *)
Theorem narrow_stream_passes_the_check :
  subjectCaptured "agent.request.>" ["agent.request.*"%string] = true /\
  subject_matches (Split dot "agent.request.>") (Split dot "agent.request.turn.7") = true /\
  subject_matches (Split dot "agent.request.*") (Split dot "agent.request.turn.7") = false /\
  subjectCaptured "agent.request" ["agent.request.>"%string] = true /\
  subject_matches (Split dot "agent.request.>") (Split dot "agent.request") = false.
Proof. vm_compute. repeat split. Qed.

Lemma captured_subjects_reach_the_stream_witness :
  reaches (Split dot "semmachina.turn.>") (Split dot "semmachina.turn.*") /\
  ~ reaches (Split dot "semmachina.turn.*") (Split dot "semmachina.turn.>").
Proof.
  split.
  - apply (captured_subjects_reach_the_stream "semmachina.turn.>" "semmachina.turn.*"); [by vm_compute..|by vm_compute].
  - intros [_ Hb]%(captured_subjects_reach_the_stream "semmachina.turn.*" "semmachina.turn.>"); [by vm_compute in Hb|by vm_compute..].
Defined.

(** ** Polls *)

Section polls.
Context {W : Type} `{Clock W, Waits W}.

(** What reads, waits and the probe preserve, a poll preserves; and it ends
    well only on a probe that found nothing left. *)
Lemma poll_until_rule {A} (R : W -> W -> Prop) `{!PreOrder R} (F : W -> Prop) (probe : MW W (option A)) late fuel deadline poll w :
  (forall w, R w (now w).2) -> (forall d w, R w (pause d w).2) ->
  (forall w, wp probe (fun r w' => R w w' /\ (r = Ok None -> F w')) w) ->
  wp (poll_until probe late fuel deadline poll) (fun r w' => R w w' /\ (forall u, r = Ok (Some u) -> F w')) w.
Proof.
  intros Hnow Hpause Hprobe. revert w. induction fuel as [|fuel IH]; intros w; cbn [poll_until]; [by apply wp_ret|].
  apply wp_bind. eapply wp_mono; [apply Hprobe|]. intros [[pending|]|err] w1 [HR HF]; [| |done].
  2: { apply wp_ret. split; [done|]. intros _ _. by apply HF. }
  apply wp_bind. unfold wp at 1, read_clock. pose proof (Hnow w1) as Hn. destruct (now w1) as [t w2]. cbn [fst snd] in *.
  destruct (deadline <? t); [apply wp_throw; split; [by etransitivity|done]|].
  apply wp_bind. unfold wp at 1. pose proof (Hpause poll w2) as Hp. destruct (pause poll w2) as [[u|err] w3]; cbn [fst snd] in *.
  2: { split; [by do 2 (etransitivity; [done|])|done]. }
  eapply wp_mono; [apply IH|]. intros r w4 [HR4 HF4]. split; [by do 3 (etransitivity; [done|])|done].
Qed.

(** A poll with fuel for its window never runs out of it. *)
Lemma poll_until_ends `{GraphStore W, !TimerLaws W} {A} (probe : MW W (option A)) late fuel deadline poll w :
  (forall w, instant w <= instant (probe w).2) -> 0 < poll -> deadline - instant w < poll * Z.of_nat fuel ->
  wp (poll_until probe late (S fuel) deadline poll) (fun r _ => r <> Ok None) w.
Proof.
  intros Hprobe Hpoll. revert w. induction fuel as [|fuel IH]; intros w Hf; cbn [poll_until];
    apply wp_bind; unfold wp at 1; pose proof (Hprobe w) as Hi;
    destruct (probe w) as [[[pending|]|err] w1]; cbn [fst snd] in *; try done;
    apply wp_bind; unfold wp at 1, read_clock; pose proof (now_instant w1) as Hn;
    destruct (now w1) as [t w2]; cbn [fst snd] in *; destruct (Z.ltb_spec deadline t); try done; try lia.
  apply wp_bind. unfold wp at 1. pose proof (pause_instant poll w2) as Hp.
  destruct (pause poll w2) as [[u|err] w3]; cbn [fst snd] in *; [|done]. apply IH. lia.
Qed.

Lemma window_polls w : 0 < win_poll w -> 0 <= win_timeout w ->
  exists fuel, polls w = S fuel /\ win_timeout w < win_poll w * Z.of_nat fuel.
Proof.
  intros Hp Ht. pose proof (Z.div_pos (win_timeout w) (win_poll w)). pose proof (Z.mul_succ_div_gt (win_timeout w) (win_poll w) Hp).
  exists (Z.to_nat (win_timeout w / win_poll w + 1)). unfold polls. split; [lia|]. rewrite Z2Nat.id; lia.
Qed.

(** A poll from now on for the whole of its window. *)
Lemma window_ends `{GraphStore W, !TimerLaws W} {A} (probe : MW W (option A)) late window w :
  (forall w, instant w <= instant (probe w).2) -> 0 < win_poll window -> 0 <= win_timeout window ->
  wp (start ← read_clock; poll_until probe late (polls window) (start + win_timeout window) (win_poll window))
    (fun r _ => r <> Ok None) w.
Proof.
  intros Hprobe Hp Ht. destruct (window_polls window Hp Ht) as (fuel & -> & Hf). apply wp_bind.
  unfold wp at 1, read_clock. pose proof (now_instant w) as Hn. destruct (now w) as [start w1]. cbn [fst snd] in *.
  apply poll_until_ends; [done..|]. lia.
Qed.
End polls.

#[export] Instance anyhow_preorder {A} : PreOrder (fun _ _ : A => True).
Proof. by split. Qed.

(** ** The rule processor's readiness *)

(** What makes a status reading the one the boot waits for. *)
Definition ready_reading {W} `{RuleStatus W} (baseline : Z) (g : ruleReadinessGeneration) : Prop :=
  baseline < rr_revision g /\ rg_Known (rr_reading g) = true /\ rg_Err (rr_reading g) = None /\
  rg_Fresh (rr_reading g) = true /\ ix_State (rg_Status (rr_reading g)) = IndexStateReady /\
  ix_Ready (rg_Status (rr_reading g)) = true /\ ix_BootstrapComplete (rg_Status (rr_reading g)) = true.

Section readiness.
Context {W : Type} `{RuleStatus W, Clock W, Waits W, GraphStore W, !TimerLaws W}.

Lemma not_ready_none baseline g : not_ready baseline g = None <-> ready_reading baseline g.
Proof.
  unfold not_ready, ready_reading. destruct (Z.leb_spec (rr_revision g) baseline) as [|Hr]; [split; [done|lia]|].
  destruct (rg_Known _); cbn [negb]; [|split; [done|naive_solver]].
  destruct (rg_Err _); [split; [done|naive_solver]|]. destruct (rg_Fresh _); cbn [negb]; [|split; [done|naive_solver]].
  destruct (String.eqb_spec (ix_State (rg_Status (rr_reading g))) IndexStateReady); cbn [negb]; [|split; [done|naive_solver]].
  destruct (ix_Ready _); cbn [negb]; [|split; [done|naive_solver]].
  destruct (ix_BootstrapComplete _); cbn [negb]; [|split; [done|naive_solver]]. naive_solver.
Qed.

(** Waiting for the rule processor ends, whatever its status says; and it ends
    well only on a reading of a status written after the processor was started
    which is known, fresh, ready and past its bootstrap. *)
Theorem rule_readiness_is_read_or_refused baseline (read : MW W ruleReadinessGeneration) window (w : W)
    (Hread : forall w, instant w <= instant (read w).2)
    (Hpoll : 0 < win_poll window) (Htimeout : 0 <= win_timeout window) :
  let '(r, w') := awaitRuleReadiness (polls window) baseline read window w in
  r <> Ok None /\
  (forall u, r = Ok (Some u) -> exists w0 generation, read w0 = (Ok generation, w') /\ ready_reading baseline generation).
Proof.
  set (probe := generation ← read; mret (not_ready baseline generation)).
  destruct (awaitRuleReadiness _ _ _ _ w) as [r w'] eqn:Hrun. split.
  - assert (Hwp : wp (awaitRuleReadiness (polls window) baseline read window) (fun r _ => r <> Ok None) w);
      [|exact (wp_elim _ _ _ _ _ Hwp Hrun)].
    apply window_ends; [|done..]. intros w1. unfold mbind, M_bind. specialize (Hread w1).
    by destruct (read w1) as [[g|err] w2].
  - assert (Hwp : wp (awaitRuleReadiness (polls window) baseline read window)
      (fun r w' => True /\ forall u, r = Ok (Some u) -> exists w0 generation,
         read w0 = (Ok generation, w') /\ ready_reading baseline generation) w);
      [|by apply (wp_elim _ _ _ _ _ Hwp Hrun)].
    apply wp_bind. unfold wp at 1, read_clock. destruct (now w) as [start w1]. cbn [fst snd].
    apply (poll_until_rule (fun _ _ => True) (fun w' => exists w0 g, read w0 = (Ok g, w') /\ ready_reading baseline g));
      [done..|]. intros w2. unfold wp, mbind, M_bind. destruct (read w2) as [[g|err] w3] eqn:Hr; cbn [fst snd]; [|done].
    split; [done|]. intros [= Hn]. apply not_ready_none in Hn. by eexists _, _.
Qed.
End readiness.

Module ReadinessDemo.

(** The in-memory world, with a status that was written at revision 4. *)
#[export] Instance demo_status : RuleStatus World := {|
  status_Bucket := mret tt;
  status_Get := mret {| se_Revision := 4; se_Created := 5;
                        se_Value := Ok {| ix_State := "ready"; ix_Ready := true; ix_BootstrapComplete := true |} |};
  FreshnessWindow := 1000; IndexStateReady := "ready" |}.

Definition small : readinessWindow := {| win_timeout := 10; win_poll := 3 |}.
Definition w0 : World := Demo.world [].

Lemma read_onward (w : World) : instant w <= instant (readRuleReadinessGeneration w).2.
Proof. change (w_clock w <= w_clock w + 1). lia. Qed.
End ReadinessDemo.
Import ReadinessDemo.

Lemma rule_readiness_is_read_or_refused_witness :
  (awaitRuleReadiness (polls small) 3 readRuleReadinessGeneration small w0).1 = Ok (Some tt) /\
  (awaitRuleReadiness (polls small) 4 readRuleReadinessGeneration small w0).1 <> Ok None /\
  is_ok (awaitRuleReadiness (polls small) 4 readRuleReadinessGeneration small w0).1 = false.
Proof.
  split; [vm_compute; reflexivity|]. split; [|vm_compute; reflexivity].
  pose proof (rule_readiness_is_read_or_refused 4 readRuleReadinessGeneration small w0 read_onward ltac:(done) ltac:(done)) as Ha.
  destruct (awaitRuleReadiness _ 4 _ _ _) as [r w']. by destruct Ha.
Defined.
