(* ===== verification/CompanionSpec.v ===== *)
(** What the companion guarantees: a bond is taken only from what the graph
    records of both its ends, the hint ladder climbs one rung at a time and only
    for a hint that was stored at the rung it leaves, and a narration draws on
    evidence the companion holds. *)

From stdpp Require Import relations sorting.
From S2P Require Import Prelude GoStd GoHash GoErrors Graph Vocab Vocabulary Payload Mechanics Decisions ContentRecords ContentStore ProjectionContract Store WorldEntity Sequencing GraphIO Turn Caseflow Knowledge Stage Scene Epistemic Persona WorldImport Companion Spawn MemStore TurnSpec TurnTheorems StageSpec CaseflowSpec KnowledgeSpec SceneSpec EpistemicSpec.

Open Scope Z_scope.

(** The artifact store is no part of the graph. *)
Class CompanionArtifactsLaws (W : Type) `{HasGraph W, CompanionArtifacts W} : Prop := {
  companion_PutDecision_graph turn d : reading (W := W) (companion_PutDecision turn d);
  companion_GetDecision_graph ref : reading (W := W) (companion_GetDecision ref);
  companion_PutStageRecord_graph turn r : reading (W := W) (companion_PutStageRecord turn r);
  companion_GetStageRecord_graph ref : reading (W := W) (companion_GetStageRecord ref) }.

(** ** What a bond rests on *)

Lemma text_values_ok bad msg triples values :
  text_values bad msg triples = Ok values ->
  map Object triples = map AString values /\ Forall (fun v => bad v = false) values.
Proof.
  revert values. induction triples as [|t triples IH]; intros values; cbn [text_values]; [by intros [= <-]|].
  destruct (Object t) as [|s| | | | | |] eqn:Ht; try (intros Hr; discriminate Hr). destruct (bad s) eqn:Hb; [intros Hr; discriminate Hr|].
  intros (rest & [Hm Hf]%IH & Heq)%result_bind_ok. injection Heq as <-. cbn. rewrite Ht, Hm. split; [done|by constructor].
Qed.

Lemma sole_value state predicate bad msg other value :
  match text_values bad msg (of_predicate state predicate) with
  | Ok [v] => Ok v | Ok _ => Err other | Err err => Err err end = Ok value ->
  objectsFor state predicate = [AString value] /\ bad value = false.
Proof.
  destruct (text_values _ _ _) as [values|] eqn:Ht; [|intros Hr; discriminate Hr]. apply text_values_ok in Ht as [Hm Hf].
  destruct values as [|v [|]]; try (intros Hr; discriminate Hr). intros [= ->]. apply Forall_cons_1 in Hf as [Hf _]. split; [exact Hm|exact Hf].
Qed.

Lemma exactString_ok state predicate value : exactString state predicate = Ok value -> objectsFor state predicate = [AString value].
Proof. intros Hv. by eapply (proj1 (sole_value _ _ _ _ _ _ Hv)). Qed.

Lemma soleRecordString_ok state predicate value :
  soleRecordString state predicate = Ok value -> objectsFor state predicate = [AString value].
Proof. intros Hv. by eapply (proj1 (sole_value _ _ _ _ _ _ Hv)). Qed.

Lemma exactImportedString_ok `{Substrate} state predicate value :
  exactImportedString state predicate = Ok value -> objectsFor state predicate = [AString value].
Proof.
  unfold exactImportedString, objectsFor, triplesFor. fold (of_predicate state predicate).
  destruct (of_predicate state predicate) as [|t [|]]; try (intros Hr; discriminate Hr).
  destruct (_ || _); [intros Hr; discriminate Hr|]. destruct (ParseEntityID _); [|intros Hr; discriminate Hr].
  destruct (Cut _ _) as [[template version]|]; [|intros Hr; discriminate Hr]. destruct (_ || _); [intros Hr; discriminate Hr|].
  destruct (Object t) eqn:Ht; try (intros Hr; discriminate Hr). destruct (blank _); [intros Hr; discriminate Hr|].
  intros [= <-]. cbn. by rewrite Ht.
Qed.

(** The one value an entity of the graph records for a predicate. *)
Definition records (g : graph) (id p value : string) : Prop := objects_in g id p = Some [AString value].

Lemma records_of g id state p value : g !! id = Some state -> objectsFor state p = [AString value] -> records g id p value.
Proof. unfold records, objects_in. intros -> Ho. cbn. by rewrite Ho. Qed.

(** What makes a bond authoritative. Its entity names two ends, a policy and a
    level; the player it names controls another character than its own; the
    character it names is a candidate, and for no narrower policy; and its
    identifier is the one its ends give it. *)
Record vouched `{Substrate} (g : graph) (bond : Bond) : Prop := {
  vouched_player : records g (bo_ID bond) CompanionBondPlayer (bo_PlayerID bond);
  vouched_character : records g (bo_ID bond) CompanionBondCharacter (bo_CharacterID bond);
  vouched_level : records g (bo_ID bond) CompanionBondHintLevel (bo_HintLevel bond);
  vouched_closed : is_ok (ParseHintLevel (bo_HintLevel bond));
  vouched_other : exists controlled, records g (bo_PlayerID bond) PlayerCharacterCurrent controlled /\ controlled <> bo_CharacterID bond;
  vouched_candidate : exists policy, records g (bo_CharacterID bond) CompanionCandidatePolicy policy /\
    (policy = CompanionPolicyReactive -> bo_Policy bond <> CompanionPolicyBoundedInitiative);
  vouched_identity : check_identity bond = Ok tt }.

Section bonds.
Context {W : Type} `{Substrate, HasGraph W, GraphStore W, Clock W, PredicateReader W}.
Context `{!SubstrateLaws, !GraphStoreLaws W, !PredicateReaderLaws W}.
Implicit Types (w : W).

Lemma read_bond_ok id player companion state bond :
  read_bond id player companion state = Ok bond ->
  bo_ID bond = id /\ (player <> EmptyString -> bo_PlayerID bond = player) /\
  (companion <> EmptyString -> bo_CharacterID bond = companion) /\
  objectsFor state CompanionBondPlayer = [AString (bo_PlayerID bond)] /\
  objectsFor state CompanionBondCharacter = [AString (bo_CharacterID bond)] /\
  objectsFor state CompanionBondHintLevel = [AString (bo_HintLevel bond)] /\
  ParseHintLevel (bo_HintLevel bond) = Ok (bo_HintLevel bond).
Proof.
  unfold read_bond. intros (? & _ & Hr)%result_bind_ok.
  apply result_bind_ok in Hr as (p & Hp%exactImportedString_ok & Hr).
  apply result_bind_ok in Hr as (c & Hc%exactImportedString_ok & Hr).
  apply result_bind_ok in Hr as (policyText & _ & Hr).
  destruct (ParseCompanionPolicy policyText) as [policy|]; [|discriminate Hr].
  apply result_bind_ok in Hr as (hintText & Hh%exactString_ok & Hr).
  destruct (ParseHintLevel hintText) as [hint|] eqn:Hl; [|discriminate Hr].
  assert (hint = hintText) as -> by by apply enum_parse_ok in Hl as [-> _].
  destruct (String.eqb_spec player EmptyString), (String.eqb_spec p player), (String.eqb_spec companion EmptyString),
    (String.eqb_spec c companion); cbn in Hr; try discriminate Hr; injection Hr as <-; split_and!; done.
Qed.

Lemma check_candidate_ok bond state :
  check_candidate bond state = Ok tt ->
  exists policy, objectsFor state CompanionCandidatePolicy = [AString policy] /\
    (policy = CompanionPolicyReactive -> bo_Policy bond <> CompanionPolicyBoundedInitiative).
Proof.
  unfold check_candidate. intros (? & _ & Hr)%result_bind_ok.
  destruct (exactImportedString state CompanionCandidatePolicy) as [text|] eqn:Ht; [|discriminate Hr].
  apply exactImportedString_ok in Ht. destruct (ParseCompanionPolicy text) as [candidate|] eqn:Hc; [|discriminate Hr].
  apply enum_parse_ok in Hc as [-> _]. exists text. split; [done|]. intros ->. rewrite String.eqb_refl in Hr. cbn [andb] in Hr.
  intros Hb. rewrite Hb in Hr. discriminate Hr.
Qed.

Lemma authority_query_reading predicate value limit : reading (authority_query predicate value limit).
Proof.
  unfold authority_query. apply reading_bind; [apply reading_attempt; intros w; apply EntitiesByPredicateValue_graph|].
  intros read. apply reading_bind; [apply reading_lift|]. intros ids. apply reading_ret.
Qed.

Lemma sole_bond_reading predicate value id : reading (sole_bond predicate value id).
Proof. apply reading_bind; [apply authority_query_reading|]. intros bonds. apply reading_lift. Qed.

(** The graph of the result and what the read found there. *)
Lemma read_step {A} id (k : res EntityState -> MW W A) (Q : res A -> W -> Prop) w :
  (forall r w', graph_of w' = graph_of w -> match r with Ok e => graph_of w !! id = Some e | Err _ => True end -> wp (k r) Q w') ->
  wp (r ← attempt (GetEntity id); k r) Q w.
Proof.
  intros Hk. apply wp_bind, wp_attempt. eapply wp_mono; [apply GetEntity_spec|]. intros [e|err] w' [Hg He]; by apply Hk.
Qed.

(** A call that only reads, with the run it took part in. *)
Lemma pass_reading {A B} (m : MW W A) (k : A -> MW W B) (Q : res B -> W -> Prop) w :
  reading m -> (forall err w', graph_of w' = graph_of w -> Q (Err err) w') ->
  (forall a w', graph_of w' = graph_of w -> m w = (Ok a, w') -> wp (k a) Q w') -> wp (a ← m; k a) Q w.
Proof.
  intros Hm Herr Hk. specialize (Hm w). apply wp_bind. unfold wp at 1. destruct (m w) as [[a|err] w'] eqn:Hr; cbn [fst snd] in *.
  - by apply Hk.
  - by apply Herr.
Qed.

Lemma ValidateBond_spec id player companion w :
  wp (ValidateBond id player companion) (fun r w' => graph_of w' = graph_of w /\
    match r with
    | Ok bond => vouched (graph_of w) bond /\ bo_ID bond = id /\ (player <> EmptyString -> bo_PlayerID bond = player) /\
        (companion <> EmptyString -> bo_CharacterID bond = companion)
    | Err _ => True end) w.
Proof.
  unfold ValidateBond. destruct (requireKindID _ id _); [|by apply wp_throw].
  apply read_step. intros [state|err] w1 Hg1 Hstate; [|by destruct (errors_Is _ _); apply wp_throw].
  apply wp_lift_bind; [|done]. intros bond (Hid & Hp & Hc & Hplayer & Hchar & Hlevel & Hclosed)%read_bond_ok.
  apply read_step. intros [player'|err] w2 Hg2 Hpl; [|apply wp_throw; split; [congruence|done]].
  apply wp_lift_bind; [|intros; split; [congruence|done]]. intros [] _.
  apply wp_lift_bind; [|intros; split; [congruence|done]]. intros controlled Hcon%exactImportedString_ok.
  destruct (String.eqb_spec controlled (bo_CharacterID bond)) as [|Hne]; [apply wp_throw; split; [congruence|done]|].
  apply read_step. intros [companionState|err] w3 Hg3 Hch; [|apply wp_throw; split; [congruence|done]].
  apply wp_lift_bind; [|intros; split; [congruence|done]]. intros [] (policy & Hpol & Hwide)%check_candidate_ok.
  assert (Hg : graph_of w3 = graph_of w) by congruence. rewrite Hg1 in Hpl. rewrite Hg2, Hg1 in Hch.
  do 2 (apply pass_reading; [apply sole_bond_reading|intros err ? Hw; split; [congruence|done]|]; intros [] ? ? _).
  apply wp_lift_bind; [|intros; split; [congruence|done]]. intros [] Hident. apply wp_ret. split; [congruence|].
  split_and!; [|done..]. rewrite <- Hid in Hstate. split; try (by eapply records_of).
  - by rewrite Hclosed.
  - exists controlled. split; [by eapply records_of|done].
  - exists policy. split; [by eapply records_of|done].
  - done.
Qed.

Lemma ActiveBondForPlayer_spec player w :
  wp (ActiveBondForPlayer player) (fun r w' => graph_of w' = graph_of w /\
    match r with Ok (Some bond) => vouched (graph_of w) bond /\ bo_PlayerID bond = player | _ => True end) w.
Proof.
  unfold ActiveBondForPlayer. apply wp_lift_bind; [|done]. intros [] Hkind.
  apply pass_reading; [apply authority_query_reading|done|]. intros [|id [|]] w1 Hg _; [by apply wp_ret| |by apply wp_throw].
  apply wp_bind. eapply wp_mono; [apply ValidateBond_spec|]. rewrite Hg. intros [bond|err] w2 [Hg2 Hb]; [|by split].
  apply wp_ret. split; [done|]. destruct Hb as (Hv & _ & Hp & _). split; [done|]. apply Hp. intros ->.
  revert Hkind. unfold requireKindID. intros (parsed & Hw & _)%result_bind_ok. apply wrapf_ok in Hw.
  by apply ParseEntityID_parts in Hw.
Qed.
End bonds.

(** ** What the companion holds *)

(** The graph records that the actor was granted the evidence. *)
Definition granted (g : graph) (actorID evidenceID : string) : Prop :=
  exists id, records g id KnowledgeActorHolder actorID /\ records g id KnowledgeEvidenceRef evidenceID.

Lemma granted_keeps g g' actorID evidenceID :
  keeps KnowledgeActorHolder g g' -> keeps KnowledgeEvidenceRef g g' -> granted g' actorID evidenceID -> granted g actorID evidenceID.
Proof. intros Hh He (id & Hholder & Hev). exists id. unfold records in *. by rewrite <- Hh, <- He. Qed.

Section selection.
Context `{Substrate}.

Lemma record_evidence_ok record companionID evidence :
  record_evidence record companionID = Ok (Some evidence) ->
  objectsFor record KnowledgeActorHolder = [AString companionID] /\ objectsFor record KnowledgeEvidenceRef = [AString evidence].
Proof.
  unfold record_evidence. repeat (match goal with |- context [if ?b then _ else _] => destruct b; [intros Hr; discriminate Hr|] end).
  intros (kind & _ & Hr)%result_bind_ok. destruct (negb _); [discriminate Hr|].
  apply result_bind_ok in Hr as (holder & Hh%wrapf_ok%soleRecordString_ok & Hr).
  destruct (String.eqb_spec holder companionID) as [->|]; cbn [negb] in Hr; [|discriminate Hr].
  apply result_bind_ok in Hr as (ev & He%wrapf_ok%soleRecordString_ok & Hr). destruct (negb _); [discriminate Hr|].
  by injection Hr as <-.
Qed.

Lemma records_evidence_elem found companionID l evidence :
  records_evidence found companionID = Ok l -> evidence ∈ l ->
  exists record, record ∈ found /\ record_evidence record companionID = Ok (Some evidence).
Proof.
  revert l. induction found as [|record found IH]; intros l; cbn [records_evidence].
  { intros [= <-] Hin. by apply elem_of_nil in Hin. }
  intros (one & Hone & Hr)%result_bind_ok. apply result_bind_ok in Hr as (more & Hmore & Heq). injection Heq as <-. intros Hin.
  destruct one as [ev|]; [apply elem_of_cons in Hin as [->|Hin]; [by exists record; split; [left|]|]|];
    (destruct (IH _ Hmore Hin) as (r & Hr & Hev); exists r; split; [by right|done]).
Qed.

Lemma knowledgeEvidenceIDs_granted (g : graph) found companionID l evidence :
  Forall (fun e => g !! ID e = Some e) found -> knowledgeEvidenceIDs found companionID = Ok l -> evidence ∈ l ->
  granted g companionID evidence.
Proof.
  intros Hg (raw & Hraw & Heq)%result_bind_ok Hin. injection Heq as <-. unfold Sort in Hin.
  rewrite Compact_elem, merge_sort_Permutation in Hin.
  destruct (records_evidence_elem _ _ _ _ Hraw Hin) as (record & Hr & [Hh He]%record_evidence_ok).
  rewrite Forall_forall in Hg. exists (ID record). specialize (Hg record Hr). by split; eapply records_of.
Qed.

(** A hint's evidence: shown to the companion, held by it, each piece once, and
    no more than the rung discloses. *)
Lemma SelectHintEvidence_ok (g : graph) projection companionID found level refs :
  Forall (fun e => g !! ID e = Some e) found -> SelectHintEvidence (Some projection) companionID found level = Ok refs ->
  exists count, HintEvidenceCount level = Ok count /\ NoDup refs /\ Z.of_nat (List.length refs) <= Z.max 0 count /\
    Forall (fun id => id ∈ map pe_ID (Projection_Entities projection) /\ granted g companionID id) refs.
Proof.
  intros Hg (count & Hcount & Hr)%result_bind_ok. exists count. split; [done|].
  do 3 (destruct (_ : bool); [discriminate Hr|]). destruct (ParseEntityID companionID); [|discriminate Hr].
  destruct (negb _); [discriminate Hr|]. apply result_bind_ok in Hr as (known & Hknown & Hr).
  cbv zeta in Hr. set (held := List.filter (fun evidence => mem evidence (map pe_ID (Projection_Entities projection))) known) in Hr.
  destruct (Compact_sorted (Sort held)) as [_ Hnd]; [by apply StronglySorted_merge_sort; apply _|].
  assert (Hheld : Forall (fun id => id ∈ map pe_ID (Projection_Entities projection) /\ granted g companionID id) (Compact (Sort held))).
  { apply Forall_forall. intros id. unfold Sort. rewrite Compact_elem, merge_sort_Permutation. unfold held.
    intros [Hin Hm]%list_elem_of_In%filter_In. apply mem_true in Hm. apply list_elem_of_In in Hin. split; [done|].
    by eapply knowledgeEvidenceIDs_granted. }
  destruct (Z.ltb_spec (Z.of_nat (List.length (Compact (Sort held)))) count) as [Hlt|Hge]; injection Hr as <-.
  - split; [done|]. split; [lia|done].
  - split; [eapply sublist_NoDup; [exact Hnd|apply sublist_take]|]. split; [rewrite length_take; lia|by apply Forall_take].
Qed.
End selection.

(** ** Programs that leave a predicate alone *)

Section steady.
Context {W : Type} `{Substrate, HasGraph W, GraphStore W, Clock W, CompanionArtifacts W}.
Context `{!GraphStoreLaws W, !CompanionArtifactsLaws W}.
Implicit Types (w : W).

Lemma steady_commitRecord p turn record ref : p ∉ Predicates TurnCompanionResult -> steady p (commitRecord turn record ref).
Proof.
  intros Hp. unfold commitRecord. apply steady_bind; [apply steady_reading, companion_PutStageRecord_graph|]. intros stageRef.
  apply steady_bind; [apply steady_clock|]. intros at_. apply steady_bind; [apply steady_reading, reading_lift|]. intros triples.
  destruct (Ref_IsZero ref); [|apply steady_bind; [apply steady_clock|]; intros at'];
    (apply steady_bind; [by apply steady_Reconcile|]; intros ?; apply steady_reading, reading_ret).
Qed.

Lemma steady_persistTrigger p turn trigger : p ∉ Predicates TurnCompanionTrigger -> steady p (persistTrigger turn trigger).
Proof.
  intros Hp. apply steady_bind; [apply steady_clock|]. intros at_. apply steady_bind; [by apply steady_Reconcile|].
  intros ?. apply steady_reading, reading_ret.
Qed.

Lemma steady_write_level a p bond level msg : p ∉ Predicates CompanionBondHint -> steady p (write_level a bond level msg).
Proof.
  intros Hp. unfold write_level. destruct (negb _); [apply steady_reading, reading_throw|].
  apply steady_bind; [apply steady_clock|]. intros at_. apply steady_bind; [by apply steady_attempt, steady_Reconcile|].
  intros written. apply steady_bind; [apply steady_reading, reading_lift|]. intros ?. apply steady_reading, reading_ret.
Qed.
End steady.

(** Prompts and publications are no part of the graph. *)
Class CompanionServicesLaws (W : Type) `{HasGraph W, Prompter W, TaskPublisher W} : Prop := {
  prompt_Companion_graph projection : reading (W := W) (prompt_Companion projection);
  PublishToStreamWithMsgID_graph subject data id : reading (W := W) (PublishToStreamWithMsgID subject data id) }.

(** ** The hint ladder *)

(** The bond alone has moved, from the level it was read at to the next. *)
Record climbs (bond : Bond) (g g' : graph) : Prop := {
  climbed_from : records g (bo_ID bond) CompanionBondHintLevel (bo_HintLevel bond);
  climbed_to : exists next, NextHintLevel (bo_HintLevel bond) = Ok (bo_HintLevel bond, next) /\ next <> bo_HintLevel bond /\
    records g' (bo_ID bond) CompanionBondHintLevel next;
  climbed_alone id : id <> bo_ID bond -> objects_in g' id CompanionBondHintLevel = objects_in g id CompanionBondHintLevel }.

Lemma climbs_frame bond g0 g1 g2 g3 :
  keeps CompanionBondHintLevel g0 g1 -> climbs bond g1 g2 -> keeps CompanionBondHintLevel g2 g3 -> climbs bond g0 g3.
Proof.
  intros H01 [Hfrom (next & Hn & Hne & Hto) Halone] H23. split; unfold records in *; [by rewrite <- H01| |].
  - exists next. split_and!; [done..|]. by rewrite H23.
  - intros id Hid. by rewrite H23, Halone, H01.
Qed.

Lemma climbs_rank bond g g' : climbs bond g g' ->
  (bo_HintLevel bond = HintLevelNudge /\ records g' (bo_ID bond) CompanionBondHintLevel HintLevelConnect) \/
  (bo_HintLevel bond = HintLevelConnect /\ records g' (bo_ID bond) CompanionBondHintLevel HintLevelNextStep).
Proof.
  intros [_ (next & Hn & Hne & Hto) _]. revert Hn. unfold NextHintLevel.
  intros (level & Hl & Hn)%result_bind_ok. apply enum_parse_ok in Hl as [-> Hin].
  destruct (String.eqb_spec (bo_HintLevel bond) HintLevelNudge) as [->|]; [left; by injection Hn as <-|].
  destruct (String.eqb_spec (bo_HintLevel bond) HintLevelConnect) as [->|]; [right; by injection Hn as <-|].
  injection Hn as <-. cbn in Hin. closed_cases Hin; congruence.
Qed.

Section ladder.
Context {W : Type} `{Substrate, AgenticRules, TaskRules, TaskEnvelope, HasGraph W, GraphStore W, Clock W, PersonaArtifacts W,
  TaskPublisher W, Prompter W, PredicateReader W, SceneGraph W, CompanionArtifacts W}.
Context `{!SubstrateLaws, !GraphStoreLaws W, !PredicateReaderLaws W, !SceneGraphLaws W, !CompanionArtifactsLaws W,
  !CompanionServicesLaws W}.
Context (a : Authority) (project : AuthenticatedAudience -> MW W Projection).
Context (project_graph : forall audience, reading (project audience)).
Implicit Types (w : W).

Lemma advanceHintLocked_spec bond emitted w :
  records (graph_of w) (bo_ID bond) CompanionBondHintLevel (bo_HintLevel bond) ->
  wp (advanceHintLocked a bond emitted) (fun _ w' => keeps CompanionBondHintLevel (graph_of w) (graph_of w') \/
    (emitted = bo_HintLevel bond /\ climbs bond (graph_of w) (graph_of w'))) w.
Proof.
  intros Hlevel. unfold advanceHintLocked. apply wp_lift_bind; [|by left]. intros [current next] Hnext.
  assert (current = emitted) as ->.
  { revert Hnext. unfold NextHintLevel. intros (l & _ & Hn)%result_bind_ok. by repeat case_match; injection Hn as <- _. }
  destruct (String.eqb_spec (bo_HintLevel bond) emitted) as [<-|]; cbn [negb]; [|by apply wp_throw; left].
  cbn [snd]. destruct (String.eqb_spec next (bo_HintLevel bond)) as [|Hne]; [by apply wp_ret; left|].
  unfold write_level. destruct (negb _); [by apply wp_throw; left|].
  apply wp_bind, read_clock_spec. intros at_ w1 Hg. apply wp_bind, wp_attempt.
  eapply wp_mono; [apply Reconcile_spec|]. intros r w2 Hr.
  assert (Hmoved : reconcile_effect CompanionBondHint (bo_ID bond) [hint_triple (bo_ID bond) next at_] (graph_of w) (graph_of w2) ->
    climbs bond (graph_of w) (graph_of w2)).
  { intros He. split; [done| |intros id Hid; unfold objects_in; by rewrite (reconcile_other _ _ _ _ _ _ He Hid)].
    exists next. split_and!; [done..|]. destruct (reconcile_writes _ _ _ _ _ CompanionBondHintLevel He) as (l & Hl & Hp).
    { apply mem_true. vm_compute. reflexivity. }
    unfold records. rewrite Hl. cbn in Hp. apply Permutation_singleton_r in Hp. by rewrite Hp. }
  rewrite Hg in Hr. apply wp_lift_bind; [intros ? Hok; apply wp_ret|intros err _];
    (destruct r as [e|err']; [right; split; [done|]; apply Hmoved, Hr|destruct Hr as [Hr|Hr]; [left; by rewrite Hr|right; by split; [|apply Hmoved]]]).
Qed.

(** How a hint came to be stored in the turn's slot: before this run, by one of
    the same turn and bond at this level; or by this run, which drew on what the
    bond's companion is shown and holds, as many pieces as the level discloses. *)
Inductive disclosed (g : graph) (trigger : Trigger) (bond : Bond) : Prop :=
| disclosed_before d ref contextRef w1 w2 :
    directRef TurnCompanionDecisionRef (t_TurnID trigger) = Ok ref -> companion_GetDecision ref w1 = (Ok d, w2) ->
    decision_matches d (t_TurnID trigger) contextRef bond = true -> cmd_Kind d = CompanionDecisionHint ->
    cmd_HintLevel d = bo_HintLevel bond -> disclosed g trigger bond
| disclosed_now contextRef projection refs ref w1 w2 w3 w4 :
    project (CompanionAudience (t_TurnID trigger) (t_TurnEntityID trigger) contextRef (bo_CharacterID bond) (bo_ID bond)) w1 =
      (Ok projection, w2) ->
    HintEvidenceCount (bo_HintLevel bond) = Ok (Z.of_nat (List.length refs)) -> NoDup refs ->
    Forall (fun id => id ∈ map pe_ID (Projection_Entities projection) /\ granted g (bo_CharacterID bond) id) refs ->
    companion_PutDecision (t_TurnEntityID trigger)
      (companionDecision (t_TurnID trigger) (p_ContextRef projection) bond CompanionDecisionHint (bo_HintLevel bond) refs) w3 =
      (Ok ref, w4) ->
    disclosed g trigger bond.

(** The ladder stands still, or climbs a rung for a hint disclosed at the one it
    leaves. *)
Definition ladder (trigger : Trigger) (bond : Bond) (g g' : graph) : Prop :=
  keeps CompanionBondHintLevel g g' \/ (climbs bond g g' /\ disclosed g trigger bond).

Lemma steady_after {A} trigger bond (m : MW W A) g w :
  steady CompanionBondHintLevel m -> ladder trigger bond g (graph_of w) -> wp m (fun _ w' => ladder trigger bond g (graph_of w')) w.
Proof.
  intros Hm Hl. eapply wp_mono; [by apply wp_steady|]. intros ? w' Hk. destruct Hl as [Hl|[Hc Hd]]; [left; by etrans|right].
  split; [|done]. by eapply climbs_frame; [|exact Hc|].
Qed.

Lemma steady_commit trigger record ref : steady CompanionBondHintLevel (commitRecord (t_TurnEntityID trigger) record ref).
Proof. apply steady_commitRecord. not_in_target. Qed.

Lemma HintEvidenceCount_pos level count : HintEvidenceCount level = Ok count -> 0 <= count.
Proof.
  unfold HintEvidenceCount. do 3 (destruct (String.eqb level _); [intros [= <-]; lia|]).
  intros (? & _ & Heq)%result_bind_ok. injection Heq as <-. lia.
Qed.

Lemma fresh_hint_spec trigger bond projection selected contextRef w0 w1 w :
  project (CompanionAudience (t_TurnID trigger) (t_TurnEntityID trigger) contextRef (bo_CharacterID bond) (bo_ID bond)) w0 =
    (Ok projection, w1) ->
  records (graph_of w) (bo_ID bond) CompanionBondHintLevel (bo_HintLevel bond) ->
  wp (fresh_hint a trigger bond projection selected) (fun _ w' => ladder trigger bond (graph_of w) (graph_of w')) w.
Proof.
  intros Hproj Hlevel. unfold fresh_hint.
  apply pass_reading; [intros ?; apply EntitiesByPredicateValue_graph|intros err w' Hw; left; by rewrite Hw|]. intros ids w2 Hg2 _.
  apply wp_bind. eapply wp_mono; [apply GetEntities_spec|]. intros [batch|err] w3 [Hg3 Hb]; [|left; by rewrite Hg3, Hg2].
  assert (Hg : graph_of w3 = graph_of w) by congruence. destruct Hb as [_ Hb]. rewrite Hg2 in Hb.
  destruct (negb _); [apply wp_throw; left; by rewrite Hg|].
  apply wp_lift_bind; [|intros ? _; left; by rewrite Hg]. intros refs Hrefs.
  eapply SelectHintEvidence_ok in Hrefs as (count & Hcount & Hnd & Hlen & Hall);
    [|eapply Forall_impl; [exact Hb|]; by intros e [_ ?]]. rewrite Hcount.
  pose proof (HintEvidenceCount_pos _ _ Hcount) as Hpos. rewrite <- Hg in Hlevel |- *.
  destruct (Z.ltb_spec (Z.of_nat (List.length refs)) count) as [|Hge].
  - apply steady_after; [|by left]. unfold commitDecision.
    apply steady_bind; [apply steady_reading, companion_PutDecision_graph|]. intros ref.
    apply steady_bind; [apply steady_reading, reading_ret|]. intros ?. apply steady_commit.
  - unfold commitDecision. apply pass_reading; [apply companion_PutDecision_graph|by intros err w' ->; left|].
    intros ref w4 Hg4 Hput. apply wp_bind, wp_bind. rewrite <- Hg4 in Hlevel |- *.
    eapply wp_mono; [by apply advanceHintLocked_spec|]. intros r w5 Hr.
    assert (Hladder : ladder trigger bond (graph_of w4) (graph_of w5)).
    { destruct Hr as [Hr|[_ Hr]]; [by left|right]. split; [done|]. rewrite Hg4, Hg.
      eapply disclosed_now; [exact Hproj| |exact Hnd|exact Hall|exact Hput]. rewrite Hcount. f_equal. lia. }
    destruct r as [bond'|err]; [|done]. apply wp_ret. by apply steady_after; [apply steady_commit|].
Qed.

Lemma commitHint_spec trigger bond projection selected contextRef w0 w1 w :
  project (CompanionAudience (t_TurnID trigger) (t_TurnEntityID trigger) contextRef (bo_CharacterID bond) (bo_ID bond)) w0 =
    (Ok projection, w1) ->
  records (graph_of w) (bo_ID bond) CompanionBondHintLevel (bo_HintLevel bond) ->
  wp (commitHint a trigger bond projection selected) (fun _ w' => ladder trigger bond (graph_of w) (graph_of w')) w.
Proof.
  intros Hproj Hlevel. unfold commitHint, residentDecision. apply wp_bind. apply wp_lift_bind; [|by left]. intros ref Hslot.
  apply wp_bind, wp_attempt. pose proof (companion_GetDecision_graph ref w) as Hg.
  unfold wp at 1. destruct (companion_GetDecision ref w) as [[d|err] w2] eqn:Hget; cbn [fst snd] in *; rewrite <- Hg in Hlevel |- *.
  2: { destruct (errors_Is _ err); [|by apply wp_throw; left]. apply wp_ret. by eapply fresh_hint_spec. }
  apply wp_ret. destruct (decision_matches _ _ _ _) eqn:Hm; cbn [negb]; [|by apply wp_throw; left]. apply wp_bind.
  destruct (String.eqb_spec (cmd_Kind d) CompanionDecisionHint) as [Hkind|]; [|apply wp_ret; apply steady_after; [apply steady_commit|by left]].
  unfold advanceResidentHint. apply wp_lift_bind; [|by left]. intros levels _.
  destruct (String.eqb _ _); [apply wp_ret; apply steady_after; [apply steady_commit|by left]|].
  apply wp_bind. eapply wp_mono; [by apply advanceHintLocked_spec|]. intros r w3 Hr.
  assert (Hladder : ladder trigger bond (graph_of w2) (graph_of w3)).
  { destruct Hr as [Hr|[Hl Hr]]; [by left|right]. split; [done|]. by eapply disclosed_before. }
  destruct r as [bond'|err]; [|done]. apply wp_ret. by apply steady_after; [apply steady_commit|].
Qed.

Lemma warn_steady p trigger bond projection selected :
  p ∉ Predicates TurnCompanionResult -> steady p (warn trigger bond projection selected).
Proof.
  intros Hp. unfold warn, residentDecision. apply steady_bind.
  { apply steady_reading. apply reading_bind; [apply reading_lift|]. intros ref.
    apply reading_bind; [apply reading_attempt, companion_GetDecision_graph|]. intros [d|err]; [apply reading_ret|].
    destruct (errors_Is _ _); [apply reading_ret|apply reading_throw]. }
  intros [[d ref]|].
  - destruct (_ || _); [apply steady_reading, reading_throw|by apply steady_commitRecord].
  - apply steady_reading. apply reading_bind; [apply prompt_Companion_graph|]. intros request.
    apply reading_bind; [apply reading_lift|]. intros task. apply reading_bind; [apply reading_lift|]. intros data.
    apply PublishToStreamWithMsgID_graph.
Qed.

(** What a disclosure depends on. *)
Definition same_holdings (g g' : graph) : Prop :=
  keeps CompanionBondHintLevel g g' /\ keeps KnowledgeActorHolder g g' /\ keeps KnowledgeEvidenceRef g g'.

Lemma ladder_frame trigger bond g0 g1 g2 : same_holdings g0 g1 -> ladder trigger bond g1 g2 -> ladder trigger bond g0 g2.
Proof.
  intros (Hl & Hh & He) [Hk|[Hc Hd]]; [left; by etrans|right]. split; [by eapply climbs_frame; [exact Hl|exact Hc|]|].
  destruct Hd as [d ref c w1 w2 ? ? ? ? ?|c projection refs ref w1 w2 w3 w4 ? ? ? Hall ?]; [by eapply disclosed_before|].
  eapply disclosed_now; try done. eapply Forall_impl; [exact Hall|]. intros id [Hin Hg]. split; [done|]. by eapply granted_keeps.
Qed.

Lemma runBondTransaction_spec trigger state bond w :
  records (graph_of w) (bo_ID bond) CompanionBondHintLevel (bo_HintLevel bond) ->
  wp (runBondTransaction a project trigger state bond) (fun _ w' => ladder trigger bond (graph_of w) (graph_of w')) w.
Proof.
  intros Hlevel. unfold runBondTransaction. apply wp_lift_bind; [|by left]. intros selected _.
  apply wp_bind. assert (Hpersist : forall p, p ∉ Predicates TurnCompanionTrigger ->
    keeps p (graph_of w) (graph_of (persistTrigger (t_TurnEntityID trigger) selected w).2)).
  { intros p Hp. by apply (steady_persistTrigger p _ _ Hp w). }
  unfold wp at 1. destruct (persistTrigger _ _ w) as [r w1]; cbn [fst snd] in *.
  assert (Hsame : same_holdings (graph_of w) (graph_of w1)) by (split_and!; apply Hpersist; not_in_target).
  assert (Hlevel1 : records (graph_of w1) (bo_ID bond) CompanionBondHintLevel (bo_HintLevel bond)).
  { unfold records. by rewrite (proj1 Hsame). }
  destruct r as [[]|err]; [|left; apply Hsame].
  eapply wp_mono; [|intros r' w'; by apply ladder_frame].
  destruct (String.eqb (tg_Kind selected) _); [apply steady_after; [apply steady_commit|by left]|].
  apply wp_lift_bind; [|by left]. intros [contextRef|] _; [|by apply wp_throw; left].
  apply pass_reading; [done|by intros err w' ->; left|]. intros projection w2 Hg Hproj. rewrite <- Hg in Hlevel1 |- *.
  destruct (String.eqb _ _); [apply steady_after; [apply warn_steady; not_in_target|by left]|by eapply commitHint_spec].
Qed.

#[local] Hint Extern 1 (steady _ (mret _)) => apply steady_reading, reading_ret : steady.
#[local] Hint Extern 1 (steady _ (throw _)) => apply steady_reading, reading_throw : steady.
#[local] Hint Extern 1 (steady _ (lift _)) => apply steady_reading, reading_lift : steady.
#[local] Hint Extern 1 (steady _ (GetEntity _)) => apply steady_reading, reading_get : steady.
#[local] Hint Extern 1 (steady _ (project _)) => apply steady_reading, project_graph : steady.
#[local] Hint Extern 1 (steady _ (companion_GetStageRecord _)) => apply steady_reading, companion_GetStageRecord_graph : steady.
#[local] Hint Extern 1 (steady _ (companion_GetDecision _)) => apply steady_reading, companion_GetDecision_graph : steady.
#[local] Hint Extern 1 (steady _ (companion_PutDecision _ _)) => apply steady_reading, companion_PutDecision_graph : steady.
#[local] Hint Extern 1 (steady _ (EntitiesByPredicateValue _ _ _)) =>
  apply steady_reading; intros ?; apply EntitiesByPredicateValue_graph : steady.
#[local] Hint Extern 1 (steady _ (GetEntities _)) => apply steady_reading; intros ?; apply GetEntities_spec : steady.
#[local] Hint Extern 1 (steady _ (ValidateBond _ _ _)) => apply steady_reading; intros ?; apply ValidateBond_spec : steady.
#[local] Hint Extern 1 (steady _ (ActiveBondForPlayer _)) => apply steady_reading; intros ?; apply ActiveBondForPlayer_spec : steady.
#[local] Hint Extern 1 (steady _ (commitRecord _ _ _)) => apply steady_commitRecord; not_in_target : steady.
#[local] Hint Extern 1 (steady _ (persistTrigger _ _)) => apply steady_persistTrigger; not_in_target : steady.
#[local] Hint Extern 1 (steady _ (write_level _ _ _ _)) => apply steady_write_level; not_in_target : steady.
#[local] Hint Extern 1 (steady _ (warn _ _ _ _)) => apply warn_steady; not_in_target : steady.

(** After it has entered its phase, the stage moves no turn. *)
Lemma CompanionStage_Run_moves `{ActionStore W, !ActionStoreLaws W, !VocabularyLaws} trigger w :
  wp (CompanionStage_Run a project trigger) (fun _ w' => fsm_run (graph_of w) (graph_of w')) w.
Proof.
  unfold CompanionStage_Run. apply wp_bind. eapply wp_mono; [apply enter_spec|]. intros r w1 (Hm & _ & _).
  apply fsm_once in Hm. destruct r as [run|err]; [|done]. eapply wp_mono.
  - apply wp_both; [apply (wp_steady TurnPhaseCurrent)|apply (wp_steady TurnFailureReason)];
      unfold residentStage, adopt_stage, WithBondTransaction, runBondTransaction, commitHint, fresh_hint, commitDecision,
        advanceResidentHint, advanceHintLocked, residentDecision; steadily.
  - intros ? w' [Hp Hr]. etrans; [exact Hm|]. by apply fsm_keep.
Qed.

Lemma optionalSoleTurnString_ok state predicate value :
  optionalSoleTurnString state predicate = Ok (Some value) -> objectsFor state predicate = [AString value] /\ value <> EmptyString.
Proof.
  unfold optionalSoleTurnString. intros (values & [Hm Hf]%text_values_ok & Hr)%result_bind_ok.
  destruct values as [|v [|]]; try discriminate Hr. injection Hr as ->. apply Forall_cons_1 in Hf as [Hf _].
  split; [exact Hm|]. intros ->. discriminate Hf.
Qed.

Lemma vouched_keeps g g' bond :
  (forall p, mem p [CompanionBondPlayer; CompanionBondCharacter; CompanionBondHintLevel; PlayerCharacterCurrent;
    CompanionCandidatePolicy] = true -> keeps p g g') ->
  vouched g' bond -> vouched g bond.
Proof.
  intros Hk. assert (Hrec : forall p id v, mem p [CompanionBondPlayer; CompanionBondCharacter; CompanionBondHintLevel;
    PlayerCharacterCurrent; CompanionCandidatePolicy] = true -> records g' id p v -> records g id p v).
  { intros p id v Hp Hr. unfold records in *. by rewrite <- (Hk p Hp id). }
  intros [Hp Hc Hl Hv (controlled & Hcon & Hne) (policy & Hpol & Hw) Hi].
  split; [by apply Hrec..|done| | |done].
  - exists controlled. split; [by apply Hrec|done].
  - exists policy. split; [by apply Hrec|done].
Qed.

(** Which bond a run may move: the authoritative one of the turn's player. *)
Definition turns_bond (g : graph) (trigger : Trigger) (bond : Bond) : Prop :=
  vouched g bond /\ records g (t_TurnEntityID trigger) TurnActionPlayer (bo_PlayerID bond).

Lemma CompanionStage_Run_ladder `{ActionStore W, !ActionStoreLaws W, !VocabularyLaws} trigger w :
  wp (CompanionStage_Run a project trigger) (fun _ w' => keeps CompanionBondHintLevel (graph_of w) (graph_of w') \/
    exists bond, turns_bond (graph_of w) trigger bond /\ ladder trigger bond (graph_of w) (graph_of w')) w.
Proof.
  unfold CompanionStage_Run. apply wp_bind. eapply wp_mono; [apply enter_spec|]. intros r w1 (_ & Hframe & _).
  assert (Hkeep : forall p, mem p (PlayerTurnResolved :: Predicates TurnPhaseState) = false -> keeps p (graph_of w) (graph_of w1)).
  { intros p Hp%mem_false. apply not_elem_of_cons in Hp as [Hne Hnot]. by apply Hframe. }
  assert (Hsame : same_holdings (graph_of w) (graph_of w1)) by (split_and!; apply Hkeep; vm_compute; reflexivity).
  assert (Hvouched : forall bond, vouched (graph_of w1) bond -> vouched (graph_of w) bond).
  { intros bond. apply vouched_keeps. intros p Hp%mem_true. apply Hkeep. closed_cases Hp; vm_compute; reflexivity. }
  pose proof (proj1 Hsame) as Hstill. destruct r as [run|err]; [|by left].
  destruct (negb run); [by apply wp_ret; left|].
  apply read_step. intros read w2 Hg2 Hread. apply wp_lift_bind; [|intros; left; by rewrite Hg2].
  intros state Hstate%wrapf_ok. subst read. rewrite <- Hg2 in Hstill, Hsame, Hvouched, Hread.
  pose proof (Hkeep TurnActionPlayer eq_refl (t_TurnEntityID trigger)) as Hplayer. rewrite <- Hg2 in Hplayer. clear Hkeep Hframe w1 Hg2.
  apply wp_lift_bind; [|by left]. intros [stageRef|] _.
  { apply pass_reading; [apply companion_GetStageRecord_graph|by intros err w' ->; left|]. intros record w3 Hg _.
    eapply wp_mono; [apply wp_reading, reading_lift|]. intros ? w' Hg'. left. by rewrite Hg', Hg. }
  apply wp_lift_bind; [|by left]. intros [playerID|] Hpl%wrapf_ok; [|by apply wp_throw; left].
  apply optionalSoleTurnString_ok in Hpl as [Hpl Hne].
  unfold residentStage. apply wp_bind, wp_lift_bind; [|by left]. intros ref _. apply wp_bind, wp_attempt.
  pose proof (companion_GetStageRecord_graph ref w2) as Hg. unfold wp at 1.
  destruct (companion_GetStageRecord ref w2) as [[resident|err] w3]; cbn [fst snd] in *;
    rewrite <- Hg in Hstill, Hsame, Hvouched, Hread, Hplayer.
  { apply wp_ret. eapply wp_mono; [apply (wp_steady CompanionBondHintLevel); unfold adopt_stage; steadily|].
    intros ? w' Hk. left. by etrans. }
  destruct (errors_Is _ err); [|by apply wp_throw; left]. apply wp_ret.
  apply wp_bind. eapply wp_mono; [apply ActiveBondForPlayer_spec|]. intros [[bond|]|err'] w4 [Hg4 Hb]; [| |left; by rewrite Hg4].
  2: { eapply wp_mono; [apply (wp_steady CompanionBondHintLevel); steadily|]. intros ? w' Hk. left. etrans; [exact Hstill|]. by rewrite <- Hg4. }
  unfold WithBondTransaction. apply wp_bind. eapply wp_mono; [apply ValidateBond_spec|]. rewrite Hg4.
  intros [fresh|err'] w5 [Hg5 Hf]; [|left; by rewrite Hg5]. destruct Hf as (Hv & _ & Hp & _).
  eapply wp_mono; [apply runBondTransaction_spec; rewrite Hg5; apply Hv|]. intros ? w' Hl. right. exists fresh.
  rewrite Hg5 in Hl. split; [|by eapply ladder_frame]. split; [by apply Hvouched|].
  unfold records. rewrite <- Hplayer, (Hp Hne). by eapply records_of.
Qed.

(** C26: The hint ladder climbs one rung at a time, and only for a hint. Whatever the
    stores do, a run of the companion's stage moves turns along the FSM only, and
    it leaves every bond's hint level as it was but one: the authoritative bond
    of the turn's own player may have gone from nudge to connect or from connect
    to next step - and then a hint at the rung it left is in the turn's slot,
    either from an earlier run of the same turn, or written by this one from
    evidence the companion was shown and holds, as many pieces as that rung
    discloses. *)
Theorem hints_climb_one_rung `{ActionStore W, !ActionStoreLaws W, !VocabularyLaws} (trigger : Trigger) (w : W) r w'
    (Hrun : CompanionStage_Run a project trigger w = (r, w')) :
  fsm_run (graph_of w) (graph_of w') /\
  (keeps CompanionBondHintLevel (graph_of w) (graph_of w') \/
   exists bond, turns_bond (graph_of w) trigger bond /\ climbs bond (graph_of w) (graph_of w') /\
     ((bo_HintLevel bond = HintLevelNudge /\ records (graph_of w') (bo_ID bond) CompanionBondHintLevel HintLevelConnect) \/
      (bo_HintLevel bond = HintLevelConnect /\ records (graph_of w') (bo_ID bond) CompanionBondHintLevel HintLevelNextStep)) /\
     disclosed (graph_of w) trigger bond).
Proof.
  split; [exact (wp_elim _ _ _ _ _ (CompanionStage_Run_moves trigger w) Hrun)|].
  destruct (wp_elim _ _ _ _ _ (CompanionStage_Run_ladder trigger w) Hrun) as [Hk|(bond & Hb & [Hk|[Hc Hd]])]; [by left..|].
  right. exists bond. split_and!; [done..|by eapply climbs_rank|done].
Qed.
End ladder.

(** ** What a narration may use *)

Section narration.
Context {W : Type} `{Substrate, HasGraph W, GraphStore W, Clock W, PredicateReader W, CompanionArtifacts W}.
Context `{!SubstrateLaws, !GraphStoreLaws W, !PredicateReaderLaws W, !CompanionArtifactsLaws W}.
Implicit Types (w : W).

Lemma read_records_spec ids w :
  wp (read_records ids) (fun r w' => graph_of w' = graph_of w /\
    match r with Ok found => Forall (fun e => graph_of w !! ID e = Some e) found | Err _ => True end) w.
Proof.
  revert w. induction ids as [|id ids IH]; intros w; cbn [read_records]; [by apply wp_ret|].
  apply read_step. intros read w1 Hg Hread. apply wp_lift_bind; [|done]. intros record ->%wrapf_ok.
  destruct (String.eqb_spec (ID record) id) as [<-|]; cbn [negb]; [|by apply wp_throw].
  apply wp_bind. eapply wp_mono; [apply IH|]. rewrite Hg. intros [found|err] w2 [Hg2 Hf]; [|done].
  apply wp_ret. split; [done|]. by constructor.
Qed.

Lemma authorizedKnowledge_spec companionID cited w :
  wp (authorizedKnowledge companionID cited) (fun r w' => graph_of w' = graph_of w /\
    match r with
    | Ok ids => NoDup ids /\ (forall id, id ∈ ids <-> id ∈ cited) /\ Forall (granted (graph_of w) companionID) ids
    | Err _ => True end) w.
Proof.
  unfold authorizedKnowledge. apply pass_reading; [apply reading_attempt; intros ?; apply EntitiesByPredicateValue_graph|done|].
  intros read w1 Hg _. apply wp_lift_bind; [|done]. intros ids _. destruct (_ <? _); [by apply wp_throw|].
  apply wp_bind. eapply wp_mono; [apply read_records_spec|]. rewrite Hg. intros [found|err] w2 [Hg2 Hf]; [|done].
  apply wp_lift_bind; [|done]. intros known Hknown. destruct (forallb _ cited) eqn:Hall; cbn [negb]; [|by apply wp_throw].
  apply wp_ret. split; [done|].
  destruct (Compact_sorted (Sort cited)) as [_ Hnd]; [by apply StronglySorted_merge_sort; apply _|]. split; [done|].
  assert (Hel : forall id, id ∈ Compact (Sort cited) <-> id ∈ cited).
  { intros id. unfold Sort. by rewrite Compact_elem, merge_sort_Permutation. }
  split; [done|]. apply Forall_forall. intros id Hin%Hel. rewrite forallb_forall in Hall.
  eapply knowledgeEvidenceIDs_granted; [exact Hf|exact Hknown|]. apply mem_true, Hall. by apply list_elem_of_In.
Qed.

(** The turn's player is the request's, and the record is of that player. *)
Lemma narration_stage_spec request w :
  wp (narration_stage request) (fun r w' => graph_of w' = graph_of w /\
    match r with
    | Ok (state, stage) => graph_of w !! ne_TurnEntityID request = Some state /\
        objectsFor state TurnActionPlayer = [AString (ne_PlayerID request)] /\ ne_PlayerID request <> EmptyString /\
        CompanionStageRecord_Validate (Some stage) = Ok tt
    | Err _ => True end) w.
Proof.
  unfold narration_stage. do 2 (apply wp_lift_bind; [|done]; intros [] _).
  apply read_step. intros read w1 Hg Hread. apply wp_lift_bind; [|done]. intros state ->%wrapf_ok.
  apply wp_lift_bind; [|done]. intros [] _.
  apply wp_lift_bind; [|done]. intros playerID Hp%wrapf_ok. apply wp_lift_bind; [|done].
  intros [] ->%require_ok%String.eqb_eq. do 3 (apply wp_lift_bind; [|done]; intros ? _).
  apply pass_reading; [apply reading_attempt, companion_GetStageRecord_graph|intros err w' Hg'; split; [congruence|done]|].
  intros stageRead w2 Hg2 _. assert (Hgw : graph_of w2 = graph_of w) by congruence.
  apply wp_lift_bind; [|done]. intros stage _. apply wp_lift_bind; [|done]. intros [] Hv%wrapf_ok.
  apply wp_lift_bind; [|done]. intros [] _. apply wp_ret. split; [done|]. split; [done|].
  apply sole_value in Hp as [Ho Hb]. split; [done|]. split; [|done]. intros He. rewrite He in Hb. discriminate Hb.
Qed.

Lemma stage_companion stage :
  CompanionStageRecord_Validate (Some stage) = Ok tt -> csr_Status stage <> CompanionStageNoActiveBond ->
  csr_CompanionID stage <> EmptyString.
Proof.
  cbn [CompanionStageRecord_Validate]. intros Hr Hs. do 3 (apply result_bind_ok in Hr as (? & _ & Hr)).
  destruct (String.eqb_spec (csr_Status stage) CompanionStageNoActiveBond); [done|].
  apply result_bind_ok in Hr as ([] & Hc & _). unfold requireTypedEntityID in Hc.
  apply result_bind_ok in Hc as ([] & [Hne _]%requireEntityID_ok & _). exact Hne.
Qed.

(** The evidence is what a stored, valid decision of this turn cites, and the
    companion of the player's authoritative bond holds every piece. *)
Definition cited_by_companion (g : graph) (request : NarrationEvidenceRequest) (ids : list string) : Prop :=
  exists bond d text ref (w1 w2 : W), vouched g bond /\ bo_PlayerID bond = ne_PlayerID request /\
    records g (ne_TurnEntityID request) TurnCompanionDecisionRef text /\ ParseRef text = Ok ref /\
    companion_GetDecision ref w1 = (Ok d, w2) /\ CompanionDecision_Validate (Some d) = Ok tt /\
    cmd_TurnID d = ne_TurnID request /\ cmd_PlayerID d = ne_PlayerID request /\ cmd_CompanionID d = bo_CharacterID bond /\
    NoDup ids /\ (forall id, id ∈ ids <-> id ∈ cmd_EvidenceRefs d) /\ Forall (granted g (bo_CharacterID bond)) ids.

Lemma decided_evidence_spec request state stage w :
  graph_of w !! ne_TurnEntityID request = Some state -> ne_PlayerID request <> EmptyString -> csr_CompanionID stage <> EmptyString ->
  wp (decided_evidence request state stage) (fun r w' => graph_of w' = graph_of w /\
    match r with Ok ids => cited_by_companion (graph_of w) request ids | Err _ => True end) w.
Proof.
  intros Hstate Hp Hc. unfold decided_evidence. apply wp_bind. eapply wp_mono; [apply ValidateBond_spec|].
  intros [bond|err] w1 [Hg Hb]; [|done]. destruct Hb as (Hv & _ & Hplayer & Hcompanion).
  specialize (Hplayer Hp). specialize (Hcompanion Hc).
  apply wp_lift_bind; [|done]. intros ref Href. apply wp_lift_bind; [|done]. intros [] _.
  unfold wp at 1. apply wp_bind, wp_attempt. pose proof (companion_GetDecision_graph ref w1) as Hg2. unfold wp at 1.
  destruct (companion_GetDecision ref w1) as [read w2] eqn:Hget. cbn [fst snd] in *.
  assert (Hgw : graph_of w2 = graph_of w) by congruence.
  apply wp_lift_bind; [|done]. intros d ->%wrapf_ok. apply wp_lift_bind; [|done]. intros [] Hvalid%wrapf_ok.
  apply wp_lift_bind; [|done]. intros [] Hsame%require_ok.
  apply andb_true_iff in Hsame as [Hsame _]. apply andb_true_iff in Hsame as [Hsame Hcd%String.eqb_eq].
  apply andb_true_iff in Hsame as [Ht%String.eqb_eq Hpd%String.eqb_eq].
  eapply wp_mono; [apply authorizedKnowledge_spec|]. rewrite Hgw. intros [ids|err] w3 [Hg3 Hids]; (split; [done|]); [|done].
  destruct Hids as (Hnd & Hel & Hall).
  unfold exactTurnRef in Href. apply result_bind_ok in Href as (value & Hval%wrapf_ok%exactString_ok & Hr).
  apply result_bind_ok in Hr as (parsed & Hparse%wrapf_ok & Hr). destruct (KeyFor _ _ _); [|discriminate Hr].
  destruct (_ || _); [discriminate Hr|]. injection Hr as ->.
  exists bond, d, value, ref, w1, w2. rewrite Hcompanion. split_and!; try done. by eapply records_of.
Qed.

(** A narration is told only what the companion may tell. Resolving the
    companion's evidence for a narration changes nothing; and what it returns is
    nothing at all, or exactly the evidence a stored decision of this turn cites,
    every piece of which the graph records as granted to the companion of the
    player's authoritative bond. *)
Theorem narration_draws_on_companion_knowledge (request : NarrationEvidenceRequest) (w : W) ids w'
    (Hrun : AuthorizedNarrationEvidence request w = (Ok ids, w')) :
  graph_of w' = graph_of w /\ (ids = [] \/ cited_by_companion (graph_of w) request ids).
Proof.
  enough (Hwp : wp (AuthorizedNarrationEvidence request) (fun r w' => graph_of w' = graph_of w /\
    match r with Ok ids => ids = [] \/ cited_by_companion (graph_of w) request ids | Err _ => True end) w).
  { exact (wp_elim _ _ _ _ _ Hwp Hrun). }
  unfold AuthorizedNarrationEvidence. apply wp_bind. eapply wp_mono; [apply narration_stage_spec|].
  intros [[state stage]|err] w1 [Hg Hstage]; [|done]. destruct Hstage as (Hstate & _ & Hp & Hv).
  destruct (String.eqb_spec (csr_Status stage) CompanionStageNoActiveBond) as [|Hs].
  { apply wp_lift_bind; [|done]. intros [] _. apply wp_bind. eapply wp_mono; [apply ActiveBondForPlayer_spec|].
    intros [[bond|]|err] w2 [Hg2 _]; [apply wp_throw|apply wp_ret|]; (split; [congruence|]); [done|by left|done]. }
  destruct (String.eqb_spec (csr_Status stage) CompanionStageNoTrigger) as [|_].
  { apply wp_lift_bind; [|done]. intros [] _. apply wp_bind. eapply wp_mono; [apply ValidateBond_spec|].
    intros [bond|err] w2 [Hg2 _]; [apply wp_ret|]; (split; [congruence|]); [by left|done]. }
  destruct (mem _ _); [|by apply wp_throw]. rewrite <- Hg in Hstate.
  eapply wp_mono; [apply decided_evidence_spec; [exact Hstate|done|by apply stage_companion]|].
  rewrite Hg. intros [found|err] w2 [Hg2 Hf]; (split; [done|]); [by right|done].
Qed.
End narration.

(** ** A companion at work *)

Import SceneSpec.SceneDemo EpistemicSpec.EpistemicDemo.

Module CompanionDemo.
(** An entity as an import leaves it. *)
Definition imported_triple (id p o : string) : Triple := {|
  Subject := id; Predicate := p; Object := AString o; Source := WorldImportSource; Timestamp := 1;
  Confidence := float_one; Context_ := "case@1"; Datatype := EmptyString; ExpiresAt := None |}.
Definition imported (id : string) (triples : list Triple) : EntityState := {|
  ID := id; MsgType := WorldEntitySchema; EVersion := 1; UpdatedAt := 0; StorageRef := None; Triples := triples |}.

Definition bond_id : string :=
  match CompanionBondID "acme" "barrow" "case" Demo.player_id watson_id with Ok id => id | Err _ => EmptyString end.
Definition letter : string := letter_id.
Definition held_id : string := "acme.semmachina.barrow.case.knowledge.watson-letter".

(** Ada asked for a hint; her companion Watson holds a letter. *)
Definition turn (phase : string) (more : list Triple) : EntityState := with_triples (Demo.bare Demo.turn_id)
  ([Demo.string_triple Demo.turn_id TurnPhaseCurrent phase;
    Demo.string_triple Demo.turn_id TurnActionPlayer Demo.player_id;
    Demo.string_triple Demo.turn_id TurnActionScene scene_id;
    Demo.string_triple Demo.turn_id TurnCaseDecisionKind CaseDecisionRequestHint] ++ more).
Definition watsons (turn : EntityState) : graph :=
  list_to_map (map (fun e => (ID e, e))
    [turn;
     imported bond_id [imported_triple bond_id WorldEntityKind EntityKindCompanionBond;
       imported_triple bond_id CompanionBondPlayer Demo.player_id; imported_triple bond_id CompanionBondCharacter watson_id;
       imported_triple bond_id CompanionBondPolicy CompanionPolicyReactive;
       Demo.string_triple bond_id CompanionBondHintLevel HintLevelNudge];
     imported Demo.player_id [imported_triple Demo.player_id WorldEntityKind EntityKindPlayer;
       imported_triple Demo.player_id PlayerCharacterCurrent character_id];
     imported watson_id [imported_triple watson_id WorldEntityKind EntityKindCharacter;
       imported_triple watson_id CompanionCandidatePolicy CompanionPolicyReactive];
     imported held_id [imported_triple held_id WorldEntityKind EntityKindKnowledge;
       imported_triple held_id KnowledgeActorHolder watson_id; imported_triple held_id KnowledgeEvidenceRef letter]]).
Definition companion_world (turn : EntityState) : World := mkWorld (watsons turn) 10 [] [].

(** What Watson is shown: the scene and the letter. *)
Definition shown (audience : AuthenticatedAudience) : MW World Projection :=
  mret (Build_Projection PurposeCompanion "turn-a1" Demo.turn_id scene_id scene_id watson_id bond_id
    (Build_ProjActor EmptyString EmptyString) (Build_ProjEntity Demo.turn_id []) (Build_ProjEntity scene_id [])
    [Build_ProjEntity letter []] [] false no_solution).

Definition slot (predicate : string) : Ref :=
  {| Instance_ := "content"; Key := match KeyFor predicate SubjectTurn "turn-a1" with Ok key => key | Err _ => EmptyString end |}.

(** An artifact store that holds these two, and takes what it is given. *)
Definition holding (d : option CompanionDecision) (stage : option CompanionStageRecord) : CompanionArtifacts World := {|
  companion_InstanceName := "content";
  companion_PutDecision _ _ := mret (slot TurnCompanionDecisionRef);
  companion_GetDecision _ := match d with Some d => mret d | None => throw (Sentinel ErrArtifactNotFound) end;
  companion_PutStageRecord _ _ := mret (slot TurnCompanionStageRef);
  companion_GetStageRecord _ := match stage with Some s => mret s | None => throw (Sentinel ErrArtifactNotFound) end |}.
Lemma holding_laws d stage : @CompanionArtifactsLaws World _ (holding d stage).
Proof. split; intros *; intros w; cbn; try done; by repeat case_match. Qed.

#[export] Instance no_tools : AgenticRules := {| ToolDefinition_Validate _ := Ok tt |}.
#[export] Instance any_task : TaskRules := {| TaskMessage_Validate _ := Ok tt |}.
#[export] Instance plain_task : TaskEnvelope := {| marshal_task task _ := Ok (tm_TaskID task) |}.
#[export] Instance publishes : TaskPublisher World := {| PublishToStreamWithMsgID _ _ _ := mret tt |}.
Definition no_prompt : MW World TaskRequest := throw (Sentinel "no prompt").
#[export] Instance unprompted : Prompter World := {|
  Interpret _ := no_prompt; Adjudicate _ := no_prompt; Narrate _ := no_prompt; prompt_Companion _ := no_prompt |}.
#[export] Instance services_laws : CompanionServicesLaws World.
Proof. by split. Qed.

Definition trigger : Trigger := {| t_TurnID := "turn-a1"; t_TurnEntityID := Demo.turn_id; t_Subject := StageSubjectPrefix +:+ "companion" |}.
Definition asked : World := companion_world (turn PhaseApplying []).
#[export] Instance empty_store : CompanionArtifacts World := holding None None.
#[export] Instance empty_laws : CompanionArtifactsLaws World := holding_laws None None.
Definition authority : Authority := {| au_writable := true |}.
Definition hint_run : res unit * World := CompanionStage_Run authority shown trigger asked.
End CompanionDemo.
Import CompanionDemo.

(** The hint is given and Watson's bond climbs from nudge to connect. *)
Example watson_gives_a_hint :
  hint_run.1 = Ok tt /\ objects_in (graph_of hint_run.2) bond_id CompanionBondHintLevel = Some [AString HintLevelConnect].
Proof. vm_compute. split; reflexivity. Qed.

Lemma hints_climb_one_rung_witness :
  hint_run.1 = Ok tt /\
  fsm_run (graph_of asked) (graph_of hint_run.2) /\
  (keeps CompanionBondHintLevel (graph_of asked) (graph_of hint_run.2) \/
   exists bond, turns_bond (graph_of asked) trigger bond /\ climbs bond (graph_of asked) (graph_of hint_run.2) /\
     ((bo_HintLevel bond = HintLevelNudge /\
       records (graph_of hint_run.2) (bo_ID bond) CompanionBondHintLevel HintLevelConnect) \/
      (bo_HintLevel bond = HintLevelConnect /\
       records (graph_of hint_run.2) (bo_ID bond) CompanionBondHintLevel HintLevelNextStep)) /\
     disclosed shown (graph_of asked) trigger bond).
Proof.
  split; [apply watson_gives_a_hint|].
  apply (hints_climb_one_rung authority shown (fun audience w => eq_refl) trigger asked hint_run.1 hint_run.2).
  apply surjective_pairing.
Defined.

(** The turn is narrated next: its records are those the stage has left. *)
Module NarrationDemo.
Definition decision : CompanionDecision := {|
  cmd_DecisionID := CompanionDecisionID "turn-a1" scene_id Demo.player_id watson_id; cmd_TurnID := "turn-a1";
  cmd_ContextRef := scene_id; cmd_PlayerID := Demo.player_id; cmd_CompanionID := watson_id;
  cmd_Kind := CompanionDecisionHint; cmd_HintLevel := HintLevelNudge; cmd_EvidenceRefs := [letter];
  cmd_TargetRef := EmptyString |}.
Definition stage : CompanionStageRecord := {|
  csr_TurnID := "turn-a1"; csr_PlayerID := Demo.player_id; csr_CompanionID := watson_id; csr_BondID := bond_id;
  csr_Status := CompanionStageDecision; csr_TriggerKind := CompanionTriggerPlayerHint;
  csr_TriggerSource := CompanionTriggerSourceCaseDecision; csr_DecisionRef := Ref_String (slot TurnCompanionDecisionRef) |}.
#[export] Instance full_store : CompanionArtifacts World := holding (Some decision) (Some stage).
#[export] Instance full_laws : CompanionArtifactsLaws World := holding_laws (Some decision) (Some stage).

Definition narrating : World := companion_world (turn PhaseNarrating
  [Demo.string_triple Demo.turn_id TurnCompanionStageRef (Ref_String (slot TurnCompanionStageRef));
   Demo.string_triple Demo.turn_id TurnCompanionDecisionRef (Ref_String (slot TurnCompanionDecisionRef))]).
Definition request : NarrationEvidenceRequest := {|
  ne_TurnID := "turn-a1"; ne_TurnEntityID := Demo.turn_id; ne_PlayerID := Demo.player_id; ne_ContextRef := scene_id;
  ne_Purpose := PurposeNarrator |}.
Definition resolved : res (list string) * World := AuthorizedNarrationEvidence request narrating.
End NarrationDemo.
Import NarrationDemo.

Lemma narration_draws_on_companion_knowledge_witness :
  [letter] <> [] /\ graph_of resolved.2 = graph_of narrating /\
  ([letter] = [] \/ cited_by_companion (graph_of narrating) request [letter]).
Proof.
  split; [done|]. apply (narration_draws_on_companion_knowledge request narrating [letter] resolved.2).
  refine (pair_of (AuthorizedNarrationEvidence request narrating) (Ok [letter]) _). vm_compute. reflexivity.
Defined.
