(* ===== verification/WorldSpec.v ===== *)
(** What a world package promises once it is loaded, resolved and imported. *)

From S2P Require Import Prelude GoStd GoHash GoErrors Graph Vocab Vocabulary Payload Store Effect WorldEntity WorldTemplate WorldRules WorldPackage WorldImport MemStore ContractSpec.

Open Scope Z_scope.

(** ** Composed identifiers *)

Lemma length_Split_app sep a b :
  List.length (Split sep (a +:+ String sep b)) = (List.length (Split sep a) + List.length (Split sep b))%nat.
Proof.
  induction a as [|d a IH].
  - rewrite app_nil. cbn. by rewrite Ascii.eqb_refl.
  - rewrite app_cons. cbn. destruct (Ascii.eqb sep d); cbn; [by rewrite IH|].
    pose proof (Split_not_nil sep a). pose proof (Split_not_nil sep (a +:+ String sep b)).
    destruct (Split sep a), (Split sep (a +:+ String sep b)); done.
Qed.

Lemma length_Split_pos sep a : (1 <= List.length (Split sep a))%nat.
Proof. pose proof (Split_not_nil sep a). destruct (Split sep a); [done|cbn; lia]. Qed.

Lemma length_Split_one sep a : List.length (Split sep a) = 1%nat -> contains_char sep a = false.
Proof.
  intros Hl. pose proof (Join_Split sep a) as Hj. pose proof (Split_parts_no_sep sep a) as Hf.
  destruct (Split sep a) as [|x [|]]; try discriminate. cbn in Hj. subst x. by apply Forall_cons in Hf as [].
Qed.

Section identifiers.
Context `{SubstrateLaws}.

(** An identifier that composed has the positions it was composed of, so
    nothing it was composed of holds a dot. *)
Lemma ComposeEntityID_split org worldNS template kind instance id :
  ComposeEntityID org worldNS template kind instance = Ok id ->
  Split dot id = [org; PlatformSegment; worldNS; template; kind; instance].
Proof.
  intros Hc. apply (ComposeEntityID_parts _ _ _ _ _ _ Hc).
  apply ComposeEntityID_ok in Hc as [-> Hv]. apply ValidateEntityID_parts in Hv. cbn [Join] in Hv.
  rewrite !length_Split_app in Hv.
  pose proof (length_Split_pos dot org). pose proof (length_Split_pos dot PlatformSegment).
  pose proof (length_Split_pos dot worldNS). pose proof (length_Split_pos dot template).
  pose proof (length_Split_pos dot kind). pose proof (length_Split_pos dot instance).
  rewrite !Forall_cons. repeat split; try (apply length_Split_one; lia). by apply Forall_nil.
Qed.

Lemma requireEntityID_composed field org worldNS template kind instance id :
  ComposeEntityID org worldNS template kind instance = Ok id -> requireEntityID field id = Ok tt.
Proof.
  intros [_ Hv]%ComposeEntityID_ok. unfold requireEntityID.
  destruct (String.eqb_spec id EmptyString) as [->|]; [by apply ValidateEntityID_nonempty in Hv|].
  by rewrite Hv.
Qed.
End identifiers.

(** ** Parsed entities *)

Section parsed.
Context `{Substrate}.

(** A literal an author may write: short text, a whole number, or the finite
    number of a coordinate. *)
Definition authored_literal (predicate : string) (object : any) : Prop :=
  match object with
  | AString s => s <> EmptyString /\ len s <= MaxFactTextBytes
  | AInt _ => True
  | AFloat64 f => finite f = true /\ isCoordinatePredicate predicate = true
  | _ => False
  end.

Definition parsed_fact (kind : string) (fact : TemplateFact) : Prop :=
  AuthorWritable (tf_Predicate fact) = true /\ AllowsSubjectKind (tf_Predicate fact) kind = true /\
  is_ok (ParsePredicate (tf_Predicate fact)) = true /\
  if IsReference fact then ObjectShapeFor (tf_Predicate fact) = ShapeReference
  else authored_literal (tf_Predicate fact) (tf_Literal fact).

Record parsed_entity (entity : TemplateEntity) : Prop := {
  parsed_local : ValidateIDSegment (te_LocalID entity) = Ok tt;
  parsed_kind : te_Kind entity ∈ enum_values entityKindEnum;
  parsed_nonempty : te_Facts entity <> [];
  parsed_facts : Forall (parsed_fact (te_Kind entity)) (te_Facts entity) }.

Definition short_values (e : enum) : bool :=
  forallb (fun v => negb (String.eqb v EmptyString) && (len v <=? MaxFactTextBytes)) (enum_values e).

Lemma closed_fact e predicate raw fact :
  short_values e = true -> parseClosedStringFact predicate raw (enum_parse e) = Ok fact ->
  tf_Predicate fact = predicate /\ IsReference fact = false /\ authored_literal predicate (tf_Literal fact).
Proof.
  intros Hs Hf. unfold parseClosedStringFact in Hf. apply result_bind_ok in Hf as (text & _ & Hf).
  apply result_bind_ok in Hf as (value & [-> Hv]%enum_parse_ok & [= <-]).
  unfold short_values in Hs. rewrite forallb_forall in Hs.
  specialize (Hs text (proj1 (list_elem_of_In _ _) Hv)). apply andb_true_iff in Hs as [Hn Hl].
  apply negb_true_iff, String.eqb_neq in Hn. apply Z.leb_le in Hl. cbn. done.
Qed.

Lemma number_shape p : ObjectShapeFor p = ShapeNumber -> isCoordinatePredicate p = true.
Proof.
  unfold ObjectShapeFor, isCoordinatePredicate. destruct (AttributeForPredicate p); [discriminate|].
  repeat match goal with |- (if ?b then _ else _) = _ -> _ => destruct b eqn:?; [try (intros [=])|] end;
    try (intros [=]).
  match goal with Hm : mem p [GeoLocationLatitude; GeoLocationLongitude] = true |- _ => apply mem_true in Hm; closed_cases Hm end;
    rewrite String.eqb_refl, ?orb_true_r; done.
Qed.

(** Every object an author can write has its predicate's shape. *)
Lemma parseFactObject_shape predicate raw specs fact :
  parseFactObject predicate raw specs = Ok fact ->
  tf_Predicate fact = predicate /\
  if IsReference fact then ObjectShapeFor predicate = ShapeReference
  else authored_literal predicate (tf_Literal fact).
Proof.
  assert (Hclosed : forall e, short_values e = true ->
    parseClosedStringFact predicate raw (enum_parse e) = Ok fact ->
    tf_Predicate fact = predicate /\
    if IsReference fact then ObjectShapeFor predicate = ShapeReference
    else authored_literal predicate (tf_Literal fact)).
  { intros e He Hf. apply (closed_fact e) in Hf as (Hp & -> & Hl); [exact (conj Hp Hl)|exact He]. }
  unfold parseFactObject. destruct (ObjectShapeFor predicate) eqn:Hs; intros Hf.
  - discriminate.
  - apply result_bind_ok in Hf as (text & _ & Hf).
    destruct (String.eqb_spec text EmptyString) as [|Hn]; [discriminate|].
    destruct (HasPrefix text LocalRefPrefix); [discriminate|].
    destruct (Z.ltb_spec MaxFactTextBytes (len text)); [discriminate|]. injection Hf as <-.
    clear Hs Hclosed. split; [reflexivity|]. by split.
  - apply result_bind_ok in Hf as (text & _ & Hf). destruct (CutPrefix text LocalRefPrefix); [|discriminate].
    apply result_bind_ok in Hf as (u & Hv%wrapf_ok & [= <-]). destruct u. apply ValidateIDSegment_ok in Hv as [Hn _].
    split; [done|]. unfold IsReference. cbn [tf_LocalRef]. by apply String.eqb_neq in Hn as ->.
  - destruct (AttributeForPredicate predicate); [|discriminate].
    apply result_bind_ok in Hf as (value & _ & Hf). apply result_bind_ok in Hf as (u & _ & [= <-]). clear Hs Hclosed. by split.
  - exact (Hclosed statusEnum eq_refl Hf).
  - apply result_bind_ok in Hf as (value & _ & Hf). destruct (value <? 1); [discriminate|]. injection Hf as <-.
    clear Hs Hclosed. by split.
  - exact (Hclosed evidenceTruthStatusEnum eq_refl Hf).
  - exact (Hclosed casePhaseEnum eq_refl Hf).
  - exact (Hclosed evidenceRevealKindEnum eq_refl Hf).
  - exact (Hclosed beliefStanceEnum eq_refl Hf).
  - exact (Hclosed companionPolicyEnum eq_refl Hf).
  - exact (Hclosed hintLevelEnum eq_refl Hf).
  - apply result_bind_ok in Hf as (value & Hd & [= <-]). cbn. split; [done|]. split; [|by apply number_shape].
    unfold decodeFloat in Hd. apply result_bind_ok in Hd as (number & _ & Hd).
    destruct (ParseFloat number) eqn:Hp; [|discriminate]. injection Hd as <-. exact (ParseFloat_finite _ _ Hp).
Qed.

Lemma parse_facts_parsed line kind specs triples facts :
  parse_facts line kind specs triples = Ok facts ->
  Forall (parsed_fact kind) facts /\ List.length facts = List.length triples.
Proof.
  revert facts. induction triples as [|triple rest IH]; intros facts; cbn; [by intros [= <-]|].
  destruct (parseTemplateFact triple kind specs) as [fact|] eqn:Hf; [|discriminate].
  intros (out & Hr & [= <-])%result_bind_ok. apply IH in Hr as [Hr Hl]. cbn. rewrite Hl. split; [|done].
  constructor; [|done].
  unfold parseTemplateFact in Hf. apply result_bind_ok in Hf as (v & Hp%wrapf_ok & Hf).
  destruct (AuthorWritable (tl_Predicate triple)) eqn:Ha; [|discriminate].
  destruct (AllowsSubjectKind (tl_Predicate triple) kind) eqn:Hk; [|discriminate]. cbn in Hf.
  apply parseFactObject_shape in Hf as [Hpred Hshape]. unfold parsed_fact. rewrite Hpred, Ha, Hk, Hp.
  exact (conj eq_refl (conj eq_refl (conj eq_refl Hshape))).
Qed.

Context (decode : string -> res (entityLine * bool)).

Lemma parseEntityLine_parsed text line specs entity :
  parseEntityLine decode text line specs = Ok entity -> parsed_entity entity.
Proof.
  unfold parseEntityLine. destruct (decode text) as [[wire []]|]; try discriminate.
  destruct (ValidateIDSegment (el_LocalID wire)) as [[]|] eqn:Hl; [|discriminate].
  destruct (ParseEntityKind (el_Type wire)) as [kind|] eqn:Hk; [|discriminate].
  destruct (el_Triples wire) as [|triple rest] eqn:Ht; [discriminate|].
  cbn [List.length Nat.eqb]. intros (facts & Hf & [= <-])%result_bind_ok.
  apply parse_facts_parsed in Hf as [Hf Hlen]. apply enum_parse_ok in Hk as [-> Hk].
  split; cbn; [done|done| |done]. by intros ->.
Qed.

Lemma parse_lines_parsed specs line declared lines entities :
  parse_lines decode specs line declared lines = Ok entities ->
  Forall parsed_entity entities /\ NoDup (map te_LocalID entities) /\
  (forall local, local ∈ map te_LocalID entities -> local ∉ declared).
Proof.
  revert line declared entities. induction lines as [|text rest IH]; intros line declared entities; cbn.
  { intros [= <-]. split; [done|]. split; [constructor|]. by intros local ?%not_elem_of_nil. }
  destruct (String.eqb (TrimSpace text) EmptyString); [by apply IH|].
  intros (entity & He & Hr)%result_bind_ok. apply parseEntityLine_parsed in He.
  destruct (mem (te_LocalID entity) declared) eqn:Hm; [discriminate|]. apply mem_false in Hm.
  apply result_bind_ok in Hr as (out & Hr & [= <-]). apply IH in Hr as (Hf & Hn & Hd).
  split; [by constructor|]. cbn. split.
  - constructor; [|done]. intros Hin. apply Hd in Hin. apply Hin. by left.
  - intros local [->|Hin]%elem_of_cons; [done|]. intros Hl. apply Hd in Hin. apply Hin. by right.
Qed.
End parsed.

(** ** What a loaded package is *)

(** No author can write an entity of the kind only the instance creates. *)
Lemma bonds_are_not_authored p :
  AuthorWritable p = true -> AllowsSubjectKind p EntityKindCompanionBond = true -> False.
Proof.
  unfold AuthorWritable, AllowsSubjectKind, SubjectKindsFor.
  destruct (mem p engineOwnedFacts) eqn:Ho; [intros [=]|].
  destruct (worldFactSubjectKinds !! p) as [kinds|] eqn:Hk; [|discriminate]. intros _ Hm.
  apply (lookup_forallb _ (fun row => negb (mem EntityKindCompanionBond row.2) || mem row.1 engineOwnedFacts)) in Hk;
    [|vm_compute; reflexivity].
  cbn [fst snd] in Hk. by rewrite Hm, Ho in Hk.
Qed.

Section loaded.
Context `{Substrate} `{Semver} `{WorldRuleEngine} `{PersonaRecords}.

(** A package as [LoadPackage] returns it. *)
Definition loaded (p : Package) : Prop := exists fsys opts, LoadPackage fsys opts = Ok p.

Record wellformed_package (p : Package) : Prop := {
  wp_entities : Forall parsed_entity (pkg_Entities p);
  wp_unique : NoDup (map te_LocalID (pkg_Entities p));
  wp_template : ValidateIDSegment (mf_ID (pkg_Manifest p)) = Ok tt;
  wp_version : mf_Version (pkg_Manifest p) <> EmptyString }.

Lemma manifest_valid m version :
  manifest_validate m version = Ok tt -> ValidateIDSegment (mf_ID m) = Ok tt /\ mf_Version m <> EmptyString.
Proof.
  unfold manifest_validate. intros (u & Hr & Hm)%result_bind_ok. apply all_ok_Forall in Hr.
  apply result_bind_ok in Hm as ([] & Hi & _). split.
  - unfold manifest_field in Hi. by destruct (ValidateIDSegment (mf_ID m)) as [[]|].
  - do 2 apply Forall_cons in Hr as [_ Hr]. apply Forall_cons in Hr as [Hv _]. cbn in Hv.
    by destruct (String.eqb_spec (mf_Version m) EmptyString).
Qed.

Lemma loaded_wellformed p : loaded p -> wellformed_package p.
Proof.
  intros (fsys & opts & Hl). unfold LoadPackage in Hl.
  apply result_bind_ok in Hl as (md & _ & Hl). apply result_bind_ok in Hl as (m & Hm & Hl).
  apply result_bind_ok in Hl as (ed & _ & Hl). destruct (as_lines fsys ed) as [lines scanErr].
  apply result_bind_ok in Hl as (entities & He & Hl).
  apply result_bind_ok in Hl as (? & _ & Hl). apply result_bind_ok in Hl as (? & _ & Hl).
  apply result_bind_ok in Hl as (? & _ & Hl). apply result_bind_ok in Hl as (? & _ & Hl).
  apply result_bind_ok in Hl as ([catalog explicit] & _ & Hl).
  match type of Hl with context [if ?b then _ else _] => destruct b; [discriminate|] end. injection Hl as <-.
  unfold ParseManifest in Hm. destruct (String.eqb _ _); [discriminate|].
  apply result_bind_ok in Hm as (m' & _ & Hm). apply result_bind_ok in Hm as ([] & [Hi Hv]%manifest_valid & [= ->]).
  unfold ParseEntities in He. apply result_bind_ok in He as (es & He & Hs).
  apply parse_lines_parsed in He as (Hf & Hn & _). destruct scanErr; [by destruct (errors_Is _ _)|].
  destruct (Nat.eqb (List.length es) 0); [discriminate|]. injection Hs as <-. by split.
Qed.
End loaded.

(** ** Resolution *)

Section resolution.
Context `{SubstrateLaws}.
Context (inst : InstanceConfig) (templateID : string) (entities : list TemplateEntity).
Context (Hunique : NoDup (map te_LocalID entities)).

(** The identifier an entity of the package gets in this instance. *)
Definition address (entity : TemplateEntity) (id : string) : Prop :=
  ComposeEntityID (ic_Org inst) (ic_WorldNS inst) templateID (te_Kind entity) (te_LocalID entity) = Ok id.

Lemma compose_ids_inv l ids :
  compose_ids inst templateID l = Ok ids ->
  Forall2 (fun entity entry => entry.1 = te_LocalID entity /\ address entity entry.2) l ids.
Proof.
  revert ids. induction l as [|entity rest IH]; intros ids; cbn; [by intros [= <-]|].
  destruct (ComposeEntityID _ _ _ _ _) as [id|] eqn:Hc; [|discriminate].
  intros (out & Hr & [= <-])%result_bind_ok. constructor; [done|by apply IH].
Qed.

Lemma find_rev_inv {A} (f : A -> bool) l x : List.find f (rev l) = Some x -> x ∈ l /\ f x = true.
Proof. intros [Hin Hf]%find_some. split; [|done]. by apply list_elem_of_In, in_rev. Qed.

Lemma find_rev_unique {A} (key : A -> string) l x :
  NoDup (map key l) -> x ∈ l -> List.find (fun y => String.eqb (key y) (key x)) (rev l) = Some x.
Proof.
  intros Hn Hx. destruct (List.find _ (rev l)) as [y|] eqn:Hf.
  - apply find_rev_inv in Hf as [Hy Heq%String.eqb_eq]. f_equal.
    apply list_elem_of_lookup in Hx as [i Hi]. apply list_elem_of_lookup in Hy as [j Hj].
    assert (i = j) as ->; [|by rewrite Hi in Hj; injection Hj].
    apply (NoDup_lookup (map key l) i j (key x)); [done| |].
    + by rewrite list_lookup_fmap, Hi.
    + rewrite <- Heq. by rewrite list_lookup_fmap, Hj.
  - exfalso. apply list_elem_of_In, in_rev in Hx. apply (find_none _ _ Hf) in Hx. by rewrite String.eqb_refl in Hx.
Qed.

Lemma byID_inv id entity : byID entities id = Some entity -> entity ∈ entities /\ te_LocalID entity = id.
Proof. intros [Hin Hid%String.eqb_eq]%find_rev_inv. done. Qed.

Lemma byID_elem entity : entity ∈ entities -> byID entities (te_LocalID entity) = Some entity.
Proof. intros Hin. by apply (find_rev_unique te_LocalID). Qed.

Lemma kind_of_elem entity : entity ∈ entities -> kind_of entities (te_LocalID entity) = te_Kind entity.
Proof. intros Hin. unfold kind_of. by rewrite byID_elem. Qed.

Context (ids : list (string * string)) (Hids : compose_ids inst templateID entities = Ok ids).

(** The map of the first pass is the addresses of the package's entities. *)
Lemma mapped_inv local id :
  mapped ids local = Some id -> exists entity, entity ∈ entities /\ te_LocalID entity = local /\ address entity id.
Proof.
  unfold mapped. destruct (List.find _ (rev ids)) as [[l i]|] eqn:Hf; [|discriminate]. intros [= <-].
  apply find_rev_inv in Hf as [Hin Heq%String.eqb_eq]. cbn in Heq. subst l.
  apply compose_ids_inv in Hids. apply list_elem_of_lookup in Hin as [n Hn].
  destruct (Forall2_lookup_r _ _ _ _ _ Hids Hn) as (entity & He & Hl & Ha).
  exists entity. split; [by eapply list_elem_of_lookup_2|]. cbn in *. done.
Qed.

Lemma mapped_elem entity : entity ∈ entities -> exists id, mapped ids (te_LocalID entity) = Some id /\ address entity id.
Proof.
  intros Hin. pose proof (compose_ids_inv _ _ Hids) as Hf. apply list_elem_of_lookup in Hin as [n Hn].
  destruct (Forall2_lookup_l _ _ _ _ _ Hf Hn) as ([l i] & He & Hl & Ha). cbn in *. subst l.
  exists i. split; [|done]. unfold mapped.
  assert (Hkeys : map fst ids = map te_LocalID entities).
  { clear -Hf. induction Hf as [|e [? ?] ? ? [He _] _ IH]; [done|]. cbn in *. by rewrite He, IH. }
  pose proof (find_rev_unique fst ids (te_LocalID entity, i)) as Hfind. cbn [fst] in Hfind.
  by rewrite Hfind; [|rewrite Hkeys|eapply list_elem_of_lookup_2].
Qed.

Lemma address_split entity id :
  address entity id ->
  Split dot id = [ic_Org inst; PlatformSegment; ic_WorldNS inst; templateID; te_Kind entity; te_LocalID entity].
Proof. apply ComposeEntityID_split. Qed.

(** ** One fact, one entity *)

(** What a fact of a planned entity is: the authored literal, or the address of
    another entity of the package whose kind the predicate allows. *)
Lemma resolveFact_inv entity fact resolved :
  entity ∈ entities -> resolveFact ids entities entity fact = Ok resolved ->
  wf_Predicate resolved = tf_Predicate fact /\
  if IsReference fact then
    wf_Reference resolved = true /\
    exists target id, target ∈ entities /\ te_LocalID target <> te_LocalID entity /\ address target id /\
      wf_Object resolved = AString id /\ AllowsObjectKind (tf_Predicate fact) (te_Kind target) = true
  else wf_Reference resolved = false /\ wf_Object resolved = tf_Literal fact.
Proof.
  intros Hin. unfold resolveFact. destruct (IsReference fact); [|by intros [= <-]]. cbn [negb].
  destruct (mapped ids (tf_LocalRef fact)) as [id|] eqn:Hm; [|discriminate].
  destruct (String.eqb_spec (tf_LocalRef fact) (te_LocalID entity)) as [|Hne]; [discriminate|].
  destruct (AllowsObjectKind (tf_Predicate fact) (kind_of entities (tf_LocalRef fact))) eqn:Hk; [|discriminate].
  intros [= <-]. split; [done|]. split; [done|]. apply mapped_inv in Hm as (target & Ht & Hl & Ha).
  exists target, id. rewrite <- Hl, kind_of_elem in Hk by exact Ht.
  repeat split; [exact Ht| |exact Ha|exact Hk]. rewrite Hl. exact Hne.
Qed.

Lemma resolve_facts_inv entity facts out :
  resolve_facts ids entities entity facts = Ok out ->
  Forall2 (fun fact resolved => resolveFact ids entities entity fact = Ok resolved) facts out.
Proof.
  revert out. induction facts as [|fact rest IH]; intros out; cbn; [by intros [= <-]|].
  destruct (resolveFact ids entities entity fact) eqn:Hf; [|discriminate].
  intros (r & Hr & [= <-])%result_bind_ok. constructor; [done|by apply IH].
Qed.

Definition planned_of (templateRef : string -> TemplateRef) (entity : TemplateEntity) (planned : PlannedEntity) : Prop :=
  address entity (pn_ID planned) /\ pn_Kind planned = te_Kind entity /\
  pn_Template planned = templateRef (te_LocalID entity) /\
  Forall2 (fun fact resolved => resolveFact ids entities entity fact = Ok resolved) (te_Facts entity) (pn_Facts planned).

Lemma plan_entities_inv templateRef l out :
  (forall entity, entity ∈ l -> entity ∈ entities) ->
  plan_entities ids entities templateRef l = Ok out -> Forall2 (planned_of templateRef) l out.
Proof.
  revert out. induction l as [|entity rest IH]; intros out Hsub; cbn; [by intros [= <-]|].
  intros (facts & Hf%resolve_facts_inv & Hr)%result_bind_ok. apply result_bind_ok in Hr as (planned & Hp & [= <-]).
  constructor; [|apply IH; [intros x ?; apply Hsub; by right|done]].
  destruct (mapped_elem entity) as (id & Hm & Ha); [apply Hsub; by left|].
  unfold planned_of. cbn. rewrite Hm. done.
Qed.

Lemma planPlayerEntity_inv templateRef player :
  planPlayerEntity templateID inst ids entities templateRef = Ok player ->
  ComposeEntityID (ic_Org inst) (ic_WorldNS inst) templateID EntityKindPlayer (pb_LocalID (ic_Player inst)) = Ok (pn_ID player) /\
  pn_Kind player = EntityKindPlayer /\ pn_Template player = templateRef (pb_LocalID (ic_Player inst)) /\
  (forall entity, entity ∈ entities -> te_LocalID entity <> pb_LocalID (ic_Player inst)) /\
  exists target id, target ∈ entities /\ address target id /\
    AllowsObjectKind PlayerCharacterCurrent (te_Kind target) = true /\
    pn_Facts player = [literal WorldEntityName (AString (pb_Name (ic_Player inst))); reference PlayerCharacterCurrent id].
Proof.
  unfold planPlayerEntity. intros (u & _ & Hp)%result_bind_ok.
  destruct (mapped ids (local_name _)) as [id|] eqn:Hm; [|discriminate].
  destruct (AllowsObjectKind PlayerCharacterCurrent (kind_of entities _)) eqn:Hk; [|discriminate].
  destruct (mapped ids (pb_LocalID (ic_Player inst))) eqn:Hfree; [discriminate|].
  apply result_bind_ok in Hp as (pid & Hc & [= <-]). cbn [pn_ID pn_Kind pn_Template pn_Facts].
  split; [done|]. split; [done|]. split; [done|]. split.
  - intros entity Hin Heq. destruct (mapped_elem entity Hin) as (i & Hi & _). by rewrite Heq, Hfree in Hi.
  - apply mapped_inv in Hm as (target & Ht & Hl & Ha). exists target, id.
    rewrite <- Hl, kind_of_elem in Hk by exact Ht. exact (conj Ht (conj Ha (conj Hk eq_refl))).
Qed.

Lemma planCompanionBond_inv templateRef companion player bond :
  planCompanionBond templateID inst companion player ids entities templateRef = Ok bond ->
  pn_Kind bond = EntityKindCompanionBond /\
  exists target id, target ∈ entities /\ address target id /\ te_Kind target = EntityKindCharacter /\
    ComposeEntityID (ic_Org inst) (ic_WorldNS inst) templateID EntityKindCompanionBond
      (companionBondLocalID (ic_WorldNS inst) (pn_ID player) id) = Ok (pn_ID bond) /\
    id <> controlled_character player /\
    pn_Template bond = templateRef (companionBondLocalID (ic_WorldNS inst) (pn_ID player) id) /\
    pn_Facts bond = [reference CompanionBondPlayer (pn_ID player); reference CompanionBondCharacter id;
                     literal CompanionBondPolicy (AString (cb_Policy companion));
                     literal CompanionBondHintLevel (AString HintLevelNudge)].
Proof.
  unfold planCompanionBond. destruct (mapped ids (local_name _)) as [id|] eqn:Hm; [|discriminate].
  destruct (String.eqb_spec (kind_of entities (local_name (cb_Character companion))) EntityKindCharacter) as [Hk|]; [|discriminate].
  destruct (String.eqb_spec id (controlled_character player)) as [|Hne]; [discriminate|].
  cbn [negb]. intros (policies & _ & Hb)%result_bind_ok. destruct policies as [|candidate [|]]; try discriminate.
  match type of Hb with context [if ?b then _ else _] => destruct b; [discriminate|] end.
  apply result_bind_ok in Hb as (bid & Hc & [= <-]). cbn [pn_ID pn_Kind pn_Template pn_Facts]. split; [done|].
  apply mapped_inv in Hm as (target & Ht & Hl & Ha). exists target, id.
  rewrite <- Hl, kind_of_elem in Hk by done. done.
Qed.
End resolution.
