(* ===== verification/WorldPlanSpec.v ===== *)
(** The theorems about a package resolved into a campaign and imported: the plan
    is closed and its identifiers are its own, two campaigns share none, and an
    import publishes the whole plan or says how much of it. *)

From S2P Require Import Prelude GoStd GoHash GoErrors Graph Vocab Vocabulary Payload Store Effect WorldEntity WorldTemplate WorldRules WorldPackage WorldImport MemStore ContractSpec WorldSpec.

Open Scope Z_scope.

Section plans.
Context `{SubstrateLaws} `{Semver} `{WorldRuleEngine} `{PersonaRecords}.
Context (marshal : planSealWire -> res string).

(** ** What a resolved plan is made of *)

Record resolution (p : Package) (inst : InstanceConfig) (plan : Plan) : Type := {
  rs_ids : list (string * string);
  rs_planned : list PlannedEntity;
  rs_player : PlannedEntity;
  rs_bond : list PlannedEntity;
  rs_config : InstanceConfig_Validate inst = Ok tt;
  rs_composed : compose_ids inst (mf_ID (pkg_Manifest p)) (pkg_Entities p) = Ok rs_ids;
  rs_template : string -> TemplateRef;
  rs_template_eq : forall local, rs_template local =
    {| tr_ID := mf_ID (pkg_Manifest p); tr_Version := mf_Version (pkg_Manifest p); tr_LocalID := local |};
  rs_entities : plan_entities rs_ids (pkg_Entities p) rs_template (pkg_Entities p) = Ok rs_planned;
  rs_player_planned :
    planPlayerEntity (mf_ID (pkg_Manifest p)) inst rs_ids (pkg_Entities p) rs_template = Ok rs_player;
  rs_bond_planned : forall b, b ∈ rs_bond -> exists companion, rs_bond = [b] /\
    planCompanionBond (mf_ID (pkg_Manifest p)) inst companion rs_player rs_ids (pkg_Entities p) rs_template = Ok b;
  rs_plan : ps_Entities (pl_Wire plan) = rs_planned ++ rs_player :: rs_bond;
  rs_sealed : sealBytes marshal plan = Ok (pl_seal plan) }.

Lemma Resolve_resolution p inst plan :
  Package_Resolve marshal p inst = Ok plan -> inhabited (resolution p inst plan).
Proof.
  unfold Package_Resolve. intros Hr.
  apply result_bind_ok in Hr as (? & _ & Hr). apply result_bind_ok in Hr as (? & _ & Hr).
  apply result_bind_ok in Hr as ([] & Hconf & Hr). apply result_bind_ok in Hr as (experience & _ & Hr).
  apply result_bind_ok in Hr as (ids & Hids & Hr). apply result_bind_ok in Hr as (planned & Hplanned & Hr).
  apply result_bind_ok in Hr as (player & Hplayer & Hr). apply result_bind_ok in Hr as (bond & Hbond & Hr).
  unfold sealResolved in Hr. apply result_bind_ok in Hr as (seal & Hseal & [= <-]).
  constructor. unshelve refine {| rs_composed := Hids; rs_entities := Hplanned; rs_player_planned := Hplayer |}.
  all: try done.
  intros b Hb. destruct (ic_Companion inst) as [companion|]; [|injection Hbond as <-; by apply not_elem_of_nil in Hb].
  apply result_bind_ok in Hbond as (b' & Hb' & [= <-]). apply list_elem_of_singleton in Hb as ->.
  by exists companion.
Qed.

Section one_plan.
Context (p : Package) (inst : InstanceConfig) (plan : Plan).
Context (Hp : wellformed_package p) (r : resolution p inst plan).

Abbreviation template := (mf_ID (pkg_Manifest p)).

Lemma planned_elem e : e ∈ rs_planned _ _ _ r ->
  exists entity, entity ∈ pkg_Entities p /\ parsed_entity entity /\
    planned_of inst template (pkg_Entities p) (rs_ids _ _ _ r) (rs_template _ _ _ r) entity e.
Proof.
  intros He. pose proof (plan_entities_inv _ _ _ (wp_unique _ Hp) _ (rs_composed _ _ _ r) _ _ _ (fun _ H => H) (rs_entities _ _ _ r)) as Hf.
  apply list_elem_of_lookup in He as [n Hn]. destruct (Forall2_lookup_r _ _ _ _ _ Hf Hn) as (entity & Hi & Hpl).
  apply list_elem_of_lookup_2 in Hi. exists entity. split; [done|]. split; [|done].
  pose proof (wp_entities _ Hp) as Hall. rewrite Forall_forall in Hall. by apply Hall.
Qed.

(** The entity of the plan that an entity of the package became. *)
Lemma planned_for entity id :
  entity ∈ pkg_Entities p -> address inst template entity id ->
  exists e, e ∈ rs_planned _ _ _ r /\ pn_ID e = id /\ pn_Kind e = te_Kind entity.
Proof.
  intros Hin Ha. pose proof (plan_entities_inv _ _ _ (wp_unique _ Hp) _ (rs_composed _ _ _ r) _ _ _ (fun _ H => H) (rs_entities _ _ _ r)) as Hf.
  apply list_elem_of_lookup in Hin as [n Hn]. destruct (Forall2_lookup_l _ _ _ _ _ Hf Hn) as (e & Hi & Hid & Hk & _ & _).
  exists e. split; [by eapply list_elem_of_lookup_2|]. split; [|done].
  unfold address in *. congruence.
Qed.

Lemma player_planned :
  ComposeEntityID (ic_Org inst) (ic_WorldNS inst) template EntityKindPlayer (pb_LocalID (ic_Player inst)) = Ok (pn_ID (rs_player _ _ _ r)) /\
  pn_Kind (rs_player _ _ _ r) = EntityKindPlayer /\
  pn_Template (rs_player _ _ _ r) = rs_template _ _ _ r (pb_LocalID (ic_Player inst)) /\
  (forall entity, entity ∈ pkg_Entities p -> te_LocalID entity <> pb_LocalID (ic_Player inst)) /\
  exists target id, target ∈ pkg_Entities p /\ address inst template target id /\
    AllowsObjectKind PlayerCharacterCurrent (te_Kind target) = true /\
    pn_Facts (rs_player _ _ _ r) = [literal WorldEntityName (AString (pb_Name (ic_Player inst))); reference PlayerCharacterCurrent id].
Proof. exact (planPlayerEntity_inv _ _ _ (wp_unique _ Hp) _ (rs_composed _ _ _ r) _ _ (rs_player_planned _ _ _ r)). Qed.

Lemma bond_planned b : b ∈ rs_bond _ _ _ r ->
  rs_bond _ _ _ r = [b] /\ pn_Kind b = EntityKindCompanionBond /\
  exists target id policy, target ∈ pkg_Entities p /\ address inst template target id /\ te_Kind target = EntityKindCharacter /\
    ComposeEntityID (ic_Org inst) (ic_WorldNS inst) template EntityKindCompanionBond
      (companionBondLocalID (ic_WorldNS inst) (pn_ID (rs_player _ _ _ r)) id) = Ok (pn_ID b) /\
    pn_Facts b = [reference CompanionBondPlayer (pn_ID (rs_player _ _ _ r)); reference CompanionBondCharacter id;
                  literal CompanionBondPolicy (AString policy); literal CompanionBondHintLevel (AString HintLevelNudge)].
Proof.
  intros Hb. destruct (rs_bond_planned _ _ _ r b Hb) as (companion & Heq & Hc). split; [done|].
  apply (planCompanionBond_inv _ _ _ (wp_unique _ Hp) _ (rs_composed _ _ _ r)) in Hc as (Hk & target & id & Ht & Ha & Hkt & Hid & _ & _ & Hf).
  split; [done|]. by exists target, id, (cb_Policy companion).
Qed.

Lemma plan_cases e : e ∈ ps_Entities (pl_Wire plan) ->
  e ∈ rs_planned _ _ _ r \/ e = rs_player _ _ _ r \/ e ∈ rs_bond _ _ _ r.
Proof. rewrite (rs_plan _ _ _ r), elem_of_app, elem_of_cons. tauto. Qed.

(** Every identifier of a plan has the campaign's positions in front. *)
Lemma plan_positions e : e ∈ ps_Entities (pl_Wire plan) ->
  exists local, Split dot (pn_ID e) = [ic_Org inst; PlatformSegment; ic_WorldNS inst; template; pn_Kind e; local].
Proof.
  intros [He|[->|He]]%plan_cases.
  - apply planned_elem in He as (entity & _ & _ & Ha & -> & _). exists (te_LocalID entity). by apply address_split.
  - destruct player_planned as (Hid & -> & _). exists (pb_LocalID (ic_Player inst)). by apply ComposeEntityID_split.
  - apply bond_planned in He as (_ & -> & target & id & policy & _ & _ & _ & Hid & _).
    eexists. by apply ComposeEntityID_split.
Qed.
(** The entity of the plan a fact of [e] leads to. *)
Definition answers (e : PlannedEntity) (f : WorldFact) : Prop :=
  exists target, target ∈ ps_Entities (pl_Wire plan) /\ wf_Object f = AString (pn_ID target) /\
    AllowsObjectKind (wf_Predicate f) (pn_Kind target) = true /\ pn_ID target <> pn_ID e.

Lemma answers_address e f target id :
  target ∈ pkg_Entities p -> address inst template target id -> wf_Object f = AString id ->
  AllowsObjectKind (wf_Predicate f) (te_Kind target) = true -> id <> pn_ID e -> answers e f.
Proof.
  intros Ht Ha Ho Hk Hne. destruct (planned_for target id Ht Ha) as (t & Hin & <- & Hkt).
  exists t. rewrite Hkt. split; [|exact (conj Ho (conj Hk Hne))]. rewrite (rs_plan _ _ _ r). apply elem_of_app. by left.
Qed.

Lemma template_reference e f :
  e ∈ rs_planned _ _ _ r -> f ∈ pn_Facts e -> wf_Reference f = true -> answers e f.
Proof.
  intros (entity & Hent & _ & Ha & _ & _ & Hfacts)%planned_elem Hf Href.
  apply list_elem_of_lookup in Hf as [n Hn]. destruct (Forall2_lookup_r _ _ _ _ _ Hfacts Hn) as (fact & _ & Hres).
  apply (resolveFact_inv _ _ _ (wp_unique _ Hp) _ (rs_composed _ _ _ r) _ _ _ Hent) in Hres as [Hpred Hres].
  destruct (IsReference fact); [|destruct Hres; congruence].
  destruct Hres as (_ & target & id & Ht & Hne & Hat & Hobj & Hkind). rewrite <- Hpred in Hkind.
  apply (answers_address e f target id Ht Hat Hobj Hkind). intros ->. clear Hkind.
  apply (address_split inst template) in Hat, Ha. rewrite Ha in Hat. by injection Hat.
Qed.

Lemma player_reference f :
  f ∈ pn_Facts (rs_player _ _ _ r) -> wf_Reference f = true -> answers (rs_player _ _ _ r) f.
Proof.
  intros Hf Href. destruct player_planned as (Hid & Hk & _ & _ & target & id & Ht & Hat & Hkind & Hfacts).
  assert (f = reference PlayerCharacterCurrent id) as ->.
  { clear Hkind. rewrite Hfacts in Hf. by repeat (apply elem_of_cons in Hf as [->|Hf]); [| |by apply not_elem_of_nil in Hf]. }
  apply (answers_address _ (reference PlayerCharacterCurrent id) target id Ht Hat eq_refl Hkind). intros ->.
  apply (address_split inst template) in Hat. apply ComposeEntityID_split in Hid.
  rewrite Hid in Hat. injection Hat as Hkd Hl. rewrite <- Hkd in Hkind. by vm_compute in Hkind.
Qed.

Lemma bond_reference b f :
  b ∈ rs_bond _ _ _ r -> f ∈ pn_Facts b -> wf_Reference f = true -> answers b f.
Proof.
  intros Hin Hf Href.
  destruct (bond_planned b Hin) as (_ & Hkb & target & id & policy & Ht & Hat & Hkt & Hidb & Hfacts).
  rewrite Hfacts in Hf. destruct player_planned as (Hidp & Hkp & _).
  apply ComposeEntityID_split in Hidb, Hidp.
  apply elem_of_cons in Hf as [->|Hf].
  { exists (rs_player _ _ _ r). rewrite Hkp. split; [rewrite (rs_plan _ _ _ r), elem_of_app, elem_of_cons; tauto|].
    split; [done|]. split; [vm_compute; reflexivity|]. intros Heq. rewrite Heq, Hidb in Hidp. by injection Hidp. }
  repeat (apply elem_of_cons in Hf as [->|Hf]); try discriminate; [|by apply not_elem_of_nil in Hf].
  apply (answers_address _ (reference CompanionBondCharacter id) target id Ht Hat eq_refl);
    [rewrite Hkt; vm_compute; reflexivity|]. intros ->.
  apply (address_split inst template) in Hat. rewrite Hidb, Hkt in Hat. by injection Hat.
Qed.

(** Two addresses of the package's entities are one entity's. *)
Lemma planned_ids_distinct : NoDup (map pn_ID (rs_planned _ _ _ r)).
Proof.
  pose proof (plan_entities_inv _ _ _ (wp_unique _ Hp) _ (rs_composed _ _ _ r) _ _ _ (fun _ H => H) (rs_entities _ _ _ r)) as Hf.
  assert (Hgen : forall l l', NoDup (map te_LocalID l) ->
    Forall2 (planned_of inst template (pkg_Entities p) (rs_ids _ _ _ r) (rs_template _ _ _ r)) l l' -> NoDup (map pn_ID l')).
  { clear Hf. intros l l' Hn Hf. induction Hf as [|entity e l l' (Ha & _) Hf IH]; [constructor|].
    cbn in Hn |- *. apply NoDup_cons in Hn as [Hnew Hn]. constructor; [|by apply IH].
    intros (e' & Heq & He')%list_elem_of_fmap. apply Hnew.
    apply list_elem_of_lookup in He' as [n Hlk]. destruct (Forall2_lookup_r _ _ _ _ _ Hf Hlk) as (entity' & Hl & Ha' & _).
    apply (address_split inst template) in Ha, Ha'. rewrite Heq, Ha' in Ha. injection Ha as _ Hlocal.
    rewrite <- Hlocal. apply list_elem_of_fmap. exists entity'. split; [done|]. by eapply list_elem_of_lookup_2. }
  exact (Hgen _ _ (wp_unique _ Hp) Hf).
Qed.

Lemma planned_kind e : e ∈ rs_planned _ _ _ r -> pn_Kind e <> EntityKindCompanionBond.
Proof.
  intros (entity & _ & [_ _ Hne Hfacts] & _ & Hk & _)%planned_elem Heq. rewrite Hk in Heq. rewrite Heq in Hfacts.
  destruct (te_Facts entity) as [|fact rest]; [done|]. apply Forall_cons in Hfacts as [(Haw & Hs & _) _].
  exact (bonds_are_not_authored _ Haw Hs).
Qed.

End one_plan.

(** ** Closed plans *)

(** C16: Every reference of a resolved plan leads to an entity of the same plan, of a
    kind the vocabulary allows the predicate to point at, and never back to the
    entity that makes it: no reference dangles, and none leaves the campaign. *)
Theorem resolved_plans_are_closed p inst plan
    (Hloaded : loaded p) (Hr : Package_Resolve marshal p inst = Ok plan)
    e f (He : e ∈ ps_Entities (pl_Wire plan)) (Hf : f ∈ pn_Facts e) (Href : wf_Reference f = true) :
  exists target, target ∈ ps_Entities (pl_Wire plan) /\ wf_Object f = AString (pn_ID target) /\
    AllowsObjectKind (wf_Predicate f) (pn_Kind target) = true /\ pn_ID target <> pn_ID e.
Proof.
  apply loaded_wellformed in Hloaded as Hp. apply Resolve_resolution in Hr as [r].
  destruct (plan_cases p inst plan r e He) as [Hin|[->|Hin]].
  - by apply (template_reference p inst plan Hp r).
  - by apply (player_reference p inst plan Hp r).
  - by apply (bond_reference p inst plan Hp r).
Qed.

(** ** The identifiers of a plan *)

(** No two entities of a plan share an identifier, so importing one never
    overwrites what importing another wrote: not the player, whose local id the
    package may not use, nor the bond, whose kind no author can write. *)
Theorem plan_identifiers_are_distinct p inst plan
    (Hloaded : loaded p) (Hr : Package_Resolve marshal p inst = Ok plan) : NoDup (Plan_IDs plan).
Proof.
  apply loaded_wellformed in Hloaded as Hp. apply Resolve_resolution in Hr as [r].
  unfold Plan_IDs. rewrite (rs_plan _ _ _ r), map_app. cbn [map].
  destruct (player_planned p inst plan Hp r) as (Hidp & Hkp & _ & Hfree & _). apply ComposeEntityID_split in Hidp.
  assert (Hb : forall b, b ∈ rs_bond _ _ _ r -> rs_bond _ _ _ r = [b] /\ exists local,
    Split dot (pn_ID b) = [ic_Org inst; PlatformSegment; ic_WorldNS inst; mf_ID (pkg_Manifest p); EntityKindCompanionBond; local]).
  { intros b (Heq & _ & target & id & policy & _ & _ & _ & Hid & _)%(bond_planned p inst plan Hp r).
    apply ComposeEntityID_split in Hid. eauto. }
  apply NoDup_app. split; [by apply planned_ids_distinct|]. split.
  - intros id (e & -> & (entity & Hent & Hpe & Ha & Hk & _)%(planned_elem p inst plan Hp r))%list_elem_of_fmap.
    apply (address_split inst (mf_ID (pkg_Manifest p))) in Ha.
    intros [Heq|(b & Heq & Hin)%list_elem_of_fmap]%elem_of_cons; rewrite Heq in Ha.
    + rewrite Hidp in Ha. injection Ha as _ Hlocal. by apply (Hfree entity Hent).
    + destruct (Hb b Hin) as (_ & local & Hs). rewrite Hs in Ha. injection Ha as Hkind _.
      destruct Hpe as [_ _ Hne Hfacts]. rewrite <- Hkind in Hfacts.
      destruct (te_Facts entity) as [|fact rest]; [done|]. apply Forall_cons in Hfacts as [(Haw & Hsk & _) _].
      exact (bonds_are_not_authored _ Haw Hsk).
  - destruct (rs_bond _ _ _ r) as [|b rest]; [apply NoDup_cons; split; [by intros ?%not_elem_of_nil|constructor]|].
    destruct (Hb b) as ([= ->] & local & Hs); [by left|]. cbn [map]. apply NoDup_cons. split; [|apply NoDup_singleton].
    intros Heq%list_elem_of_singleton. rewrite Heq, Hs in Hidp. by injection Hidp.
Qed.

(** Two campaigns in different namespaces, or of different organizations, share
    no entity, whatever packages they were made from: what is imported or played
    in one cannot reach the other. *)
Theorem campaigns_share_no_entity p1 p2 inst1 inst2 plan1 plan2
    (Hl1 : loaded p1) (Hl2 : loaded p2)
    (Hr1 : Package_Resolve marshal p1 inst1 = Ok plan1) (Hr2 : Package_Resolve marshal p2 inst2 = Ok plan2)
    (Hdiff : (ic_Org inst1, ic_WorldNS inst1) <> (ic_Org inst2, ic_WorldNS inst2)) :
  forall id, id ∈ Plan_IDs plan1 -> id ∉ Plan_IDs plan2.
Proof.
  apply loaded_wellformed in Hl1, Hl2. apply Resolve_resolution in Hr1 as [r1], Hr2 as [r2].
  intros id (e1 & -> & Hin1)%list_elem_of_fmap (e2 & Heq & Hin2)%list_elem_of_fmap. apply Hdiff.
  apply (plan_positions p1 inst1 plan1 Hl1 r1) in Hin1 as (l1 & Hs1).
  apply (plan_positions p2 inst2 plan2 Hl2 r2) in Hin2 as (l2 & Hs2).
  rewrite Heq, Hs2 in Hs1. injection Hs1 as -> -> _ _ _. done.
Qed.
End plans.

(** ** What the import may still refuse *)

Section validation.
Context `{VocabularyLaws}.

(** No fact comes twice, and no single-valued predicate does. *)
Definition repeats_nothing (facts : list WorldFact) : Prop :=
  NoDup (map fact_pair facts) /\
  NoDup (List.filter (fun p => negb (IsMultiValued p)) (map wf_Predicate facts)).

Definition fact_valid (kind : string) (f : WorldFact) : Prop :=
  wf_Predicate f <> WorldEntityKind /\ WorldFact_Validate f = Ok tt /\ AllowsSubjectKind (wf_Predicate f) kind = true.

Lemma validateFacts_iff kind facts seen pairs :
  Forall (fact_valid kind) facts ->
  validateFacts kind seen pairs facts = Ok tt <->
  NoDup (map fact_pair facts) /\ (forall f, f ∈ facts -> fact_pair f ∉ pairs) /\
  NoDup (List.filter (fun p => negb (IsMultiValued p)) (map wf_Predicate facts)) /\
  (forall f, f ∈ facts -> IsMultiValued (wf_Predicate f) = false -> wf_Predicate f ∉ seen).
Proof.
  intros Hf. revert seen pairs. induction Hf as [|fact rest (Hk & Hv & Hs) Hf IH]; intros seen pairs; cbn [validateFacts map List.filter].
  { split; [intros _|done]. split; [constructor|]. split; [by intros f ?%not_elem_of_nil|].
    split; [constructor|]. by intros f ?%not_elem_of_nil. }
  apply String.eqb_neq in Hk as ->. rewrite Hv, Hs. cbn [wrapf mbind result_bind negb].
  destruct (mem (fact_pair fact) pairs) eqn:Hp.
  { apply mem_true in Hp. split; [discriminate|]. intros (_ & Hn & _). destruct (Hn fact); [by left|done]. }
  apply mem_false in Hp. destruct (mem (wf_Predicate fact) seen && negb (IsMultiValued (wf_Predicate fact))) eqn:Hm.
  { apply andb_true_iff in Hm as [Hm Hsingle]. apply mem_true in Hm. apply negb_true_iff in Hsingle.
    split; [discriminate|]. intros (_ & _ & _ & Hn). destruct (Hn fact); [by left|done|done]. }
  rewrite IH, NoDup_cons. apply andb_false_iff in Hm. rewrite mem_false, negb_false_iff in Hm.
  assert (Hcell : forall f, f ∈ fact :: rest <-> f = fact \/ f ∈ rest) by (intros f; apply elem_of_cons).
  split.
  - intros (Hn & Hpairs & Hsingle & Hseen). split; [split; [|done]|].
    { intros (f & Heq & Hin)%list_elem_of_fmap. apply (Hpairs f Hin). rewrite <- Heq. by left. }
    split; [intros f [->|Hin]%Hcell; [done|]; intros ?; apply (Hpairs f Hin); by right|]. split.
    + destruct (IsMultiValued (wf_Predicate fact)) eqn:Hmv; cbn; [done|]. constructor; [|done].
      intros Hin. apply list_elem_of_In, filter_In in Hin as [Hin _]. apply list_elem_of_In, list_elem_of_fmap in Hin as (f & Heq & Hin).
      apply (Hseen f Hin); rewrite <- Heq; [done|by left].
    + intros f [->|Hin]%Hcell Hmv; [destruct Hm; congruence|]. intros ?. apply (Hseen f Hin Hmv). by right.
  - intros ([Hnew Hn] & Hpairs & Hsingle & Hseen). split; [done|]. split.
    { intros f Hin [Heq|Hin']%elem_of_cons; [|by apply (Hpairs f); [apply Hcell; right|]].
      apply Hnew, list_elem_of_fmap. exists f. exact (conj (eq_sym Heq) Hin). }
    destruct (IsMultiValued (wf_Predicate fact)) eqn:Hmv; cbn in Hsingle.
    + split; [done|]. intros f Hin Hfm [Heq|Hin']%elem_of_cons; [congruence|]. by apply (Hseen f); [apply Hcell; right|..].
    + apply NoDup_cons in Hsingle as [Hfirst Hsingle]. split; [done|].
      intros f Hin Hfm [Heq|Hin']%elem_of_cons; [|by apply (Hseen f); [apply Hcell; right|..]].
      apply Hfirst, list_elem_of_In, filter_In. rewrite Hmv. split; [|done].
      apply list_elem_of_In, list_elem_of_fmap. exists f. exact (conj (eq_sym Heq) Hin).
Qed.

Lemma validateFacts_repeats kind facts :
  Forall (fact_valid kind) facts -> validateFacts kind [] [] facts = Ok tt <-> repeats_nothing facts.
Proof.
  intros Hf. rewrite (validateFacts_iff kind facts [] [] Hf). unfold repeats_nothing. split.
  - intros (Hpairs & _ & Hsingle & _). exact (conj Hpairs Hsingle).
  - intros [? ?]. split; [done|]. split; [by intros f _ ?%not_elem_of_nil|]. split; [done|]. by intros f _ _ ?%not_elem_of_nil.
Qed.

Lemma author_writable p : AuthorWritable p = true -> p <> WorldEntityKind /\ is_Some (SubjectKindsFor p).
Proof.
  unfold AuthorWritable. destruct (mem p engineOwnedFacts) eqn:Ho; [intros [=]|]. apply mem_false in Ho.
  destruct (SubjectKindsFor p); [|intros [=]]. intros _. split; [|by eexists].
  intros ->. apply Ho. by left.
Qed.

Lemma literal_valid f :
  is_Some (SubjectKindsFor (wf_Predicate f)) -> is_ok (ParsePredicate (wf_Predicate f)) = true ->
  wf_Reference f = false -> authored_literal (wf_Predicate f) (wf_Object f) -> WorldFact_Validate f = Ok tt.
Proof.
  intros [kinds Hk] (v & Hp)%is_ok_ok Hr Hl. unfold WorldFact_Validate. rewrite Hk, Hp, Hr. cbn [wrapf mbind result_bind].
  clear Hk Hp. destruct (wf_Object f); cbn in Hl; try contradiction; [|reflexivity|].
  - destruct Hl as [Hn Hlen]. apply String.eqb_neq in Hn as ->. apply Z.ltb_ge in Hlen as ->. reflexivity.
  - destruct Hl as [-> ->]. reflexivity.
Qed.

Lemma reference_valid f id :
  is_Some (SubjectKindsFor (wf_Predicate f)) -> is_ok (ParsePredicate (wf_Predicate f)) = true ->
  wf_Object f = AString id -> (wf_Reference f = true -> forall field, requireEntityID field id = Ok tt) -> wf_Reference f = true ->
  WorldFact_Validate f = Ok tt.
Proof.
  intros [kinds Hk] (v & Hp)%is_ok_ok Ho Hid Hr. unfold WorldFact_Validate. rewrite Hk, Hp, Ho, Hr. by apply Hid.
Qed.
(** What the instance adds to a plan: its player. *)
Lemma InstanceConfig_player inst :
  InstanceConfig_Validate inst = Ok tt ->
  ValidateIDSegment (pb_LocalID (ic_Player inst)) = Ok tt /\
  pb_Name (ic_Player inst) <> EmptyString /\ len (pb_Name (ic_Player inst)) <= MaxFactTextBytes.
Proof.
  unfold InstanceConfig_Validate. intros (u1 & _ & Hc)%result_bind_ok. apply result_bind_ok in Hc as (u2 & _ & Hc).
  apply result_bind_ok in Hc as ([] & Hl%wrapf_ok & Hc). split; [done|].
  destruct (String.eqb_spec (TrimSpace (pb_Name (ic_Player inst))) EmptyString) as [|Hn]; [discriminate|].
  destruct (Z.ltb_spec MaxFactTextBytes (len (pb_Name (ic_Player inst)))); [discriminate|].
  split; [|lia]. intros Heq. by rewrite Heq in Hn.
Qed.

Lemma WorldEntity_valid_iff e org worldNS template local t :
  ComposeEntityID org worldNS template (pn_Kind e) local = Ok (pn_ID e) ->
  pn_Kind e ∈ enum_values entityKindEnum ->
  tr_ID (pn_Template e) = template -> tr_LocalID (pn_Template e) = local -> tr_Version (pn_Template e) <> EmptyString ->
  ValidateIDSegment template = Ok tt -> ValidateIDSegment local = Ok tt ->
  pn_Facts e <> [] -> time_IsZero t = false -> Forall (fact_valid (pn_Kind e)) (pn_Facts e) ->
  WorldEntity_Validate (PlannedEntity_Payload e t) = Ok tt <-> repeats_nothing (pn_Facts e).
Proof.
  intros Hid Hkind Htid Htl Hver Htemplate Hlocal Hne Ht Hfacts.
  rewrite <- (validateFacts_repeats (pn_Kind e) _ Hfacts). unfold WorldEntity_Validate.
  cbn [we_ID we_Kind we_Template we_Facts we_RecordedAt PlannedEntity_Payload].
  rewrite (requireEntityID_composed _ _ _ _ _ _ _ Hid). apply ComposeEntityID_split in Hid.
  assert (ParseEntityKind (pn_Kind e) = Ok (pn_Kind e)) as -> by (by apply enum_parse_ok).
  unfold TemplateRef_Validate, requireNonEmpty, requireIDSegment, validateIDAgreesWithDeclaration.
  cbn [we_ID we_Kind we_Template PlannedEntity_Payload mbind result_bind].
  apply String.eqb_neq in Hver as ->. rewrite Htid, Htl, Htemplate, Hlocal, Hid, Ht. cbn [mbind result_bind wrapf].
  change (String.eqb PlatformSegment PayloadDomain) with true. rewrite !String.eqb_refl. cbn [negb].
  by destruct (pn_Facts e).
Qed.
End validation.

Section refusals.
Context `{VocabularyLaws} `{Semver} `{WorldRuleEngine} `{PersonaRecords}.
Context (marshal : planSealWire -> res string).
Context (p : Package) (inst : InstanceConfig) (plan : Plan).
Context (Hp : wellformed_package p) (r : resolution marshal p inst plan).

Lemma planned_fact_valid e entity :
  entity ∈ pkg_Entities p -> parsed_entity entity ->
  planned_of inst (mf_ID (pkg_Manifest p)) (pkg_Entities p) (rs_ids _ _ _ _ r) (rs_template _ _ _ _ r) entity e ->
  Forall (fact_valid (pn_Kind e)) (pn_Facts e).
Proof.
  intros Hin [_ _ _ Hparsed] (_ & Hk & _ & Hf). rewrite Hk. apply Forall_forall. intros f Hinf.
  apply list_elem_of_lookup in Hinf as [n Hn]. destruct (Forall2_lookup_r _ _ _ _ _ Hf Hn) as (fact & Hfact & Hres).
  rewrite Forall_forall in Hparsed. apply list_elem_of_lookup_2 in Hfact. apply Hparsed in Hfact as (Haw & Hs & Hpp & Hshape).
  apply (resolveFact_inv _ _ _ (wp_unique _ Hp) _ (rs_composed _ _ _ _ r) _ _ _ Hin) in Hres as [Hpred Hres].
  apply author_writable in Haw as [Hne Hsome]. rewrite <- Hpred in *. split; [exact Hne|]. split; [|exact Hs].
  destruct (IsReference fact).
  - destruct Hres as (Href & target & id & _ & _ & Hat & Hobj & _). apply (reference_valid f id Hsome Hpp Hobj); [|exact Href].
    intros _ field. exact (requireEntityID_composed _ _ _ _ _ _ _ Hat).
  - destruct Hres as [Href Hobj]. rewrite <- Hobj in Hshape. exact (literal_valid f Hsome Hpp Href Hshape).
Qed.

Lemma player_fact_valid :
  Forall (fact_valid EntityKindPlayer) (pn_Facts (rs_player _ _ _ _ r)).
Proof.
  destruct (player_planned marshal p inst plan Hp r) as (_ & _ & _ & _ & target & id & _ & Hat & _ & ->).
  destruct (InstanceConfig_player _ (rs_config _ _ _ _ r)) as (_ & Hn & Hl).
  assert (Hcanon : forall q, q ∈ allPredicates -> is_ok (ParsePredicate q) = true).
  { intros q (v & Hv)%allPredicates_canonical. apply is_ok_ok. by exists v. }
  apply Forall_cons. split; [|apply Forall_cons; split; [|constructor]].
  - split; [done|]. split; [|vm_compute; reflexivity].
    apply literal_valid; [eexists; vm_compute; reflexivity|apply Hcanon, mem_true; vm_compute; reflexivity|reflexivity|exact (conj Hn Hl)].
  - split; [done|]. split; [|vm_compute; reflexivity].
    apply (reference_valid _ id); [eexists; vm_compute; reflexivity|apply Hcanon, mem_true; vm_compute; reflexivity|reflexivity| |reflexivity].
    intros _ field. exact (requireEntityID_composed _ _ _ _ _ _ _ Hat).
Qed.
End refusals.

Section repetition.
Context `{VocabularyLaws} `{Semver} `{WorldRuleEngine} `{PersonaRecords}.
Context (marshal : planSealWire -> res string).

(** Once a package has loaded and resolved, the one thing the importer's own
    check can still refuse an entity of the package or the player for is
    repetition: a fact written twice, or a single-valued predicate written more
    than once. Identifiers, kinds, provenance, references, the size and shape of
    every object are all right already. *)
Theorem imports_are_refused_for_repetition_only p inst plan e t
    (Hloaded : loaded p) (Hr : Package_Resolve marshal p inst = Ok plan)
    (He : e ∈ ps_Entities (pl_Wire plan)) (Hbond : pn_Kind e <> EntityKindCompanionBond)
    (Ht : time_IsZero t = false) :
  WorldEntity_Validate (PlannedEntity_Payload e t) = Ok tt <-> repeats_nothing (pn_Facts e).
Proof.
  apply loaded_wellformed in Hloaded as Hp. apply Resolve_resolution in Hr as [r].
  destruct (plan_cases marshal p inst plan r e He) as [Hin|[->|Hin]].
  - apply (planned_elem marshal p inst plan Hp r) in Hin as (entity & Hent & Hpe & Hpl).
    pose proof (planned_fact_valid marshal p inst plan Hp r e entity Hent Hpe Hpl) as Hfacts.
    destruct Hpl as (Ha & Hk & Htr & Hf). destruct Hpe as [Hlocal Hkind Hne _].
    rewrite (rs_template_eq _ _ _ _ r) in Htr. unfold address in Ha. rewrite <- Hk in Ha, Hkind.
    apply (WorldEntity_valid_iff e _ _ _ _ t Ha Hkind); rewrite ?Htr;
      [reflexivity|reflexivity|exact (wp_version _ Hp)|exact (wp_template _ Hp)|exact Hlocal| |exact Ht|exact Hfacts].
    intros Hnil. rewrite Hnil in Hf. apply Forall2_nil_inv_r in Hf. by rewrite Hf in Hne.
  - destruct (player_planned marshal p inst plan Hp r) as (Hid & Hk & Htr & _ & target & id & _ & _ & _ & Hf).
    pose proof (player_fact_valid marshal p inst plan Hp r) as Hfacts.
    rewrite (rs_template_eq _ _ _ _ r) in Htr. rewrite <- Hk in Hid, Hfacts.
    apply (WorldEntity_valid_iff _ _ _ _ _ t Hid); rewrite ?Htr;
      [rewrite Hk; apply mem_true; vm_compute; reflexivity|reflexivity|reflexivity|exact (wp_version _ Hp)|
       exact (wp_template _ Hp)|exact (proj1 (InstanceConfig_player _ (rs_config _ _ _ _ r)))|by rewrite Hf|exact Ht|exact Hfacts].
  - by apply (bond_planned marshal p inst plan Hp r) in Hin as (_ & Hk & _).
Qed.
End repetition.

(** ** Importing *)

(** What the fact lane holds. *)
Class HasImports (W : Type) : Type := { imports_of : W -> list (string * string) }.

(** An acknowledged publish stored its message; one that failed may have. *)
Class PublisherLaws (W : Type) `{HasImports W, Clock W, Publisher W} : Prop := {
  Ack_spec subject data w :
    wp (PublishToStreamWithAck subject data) (fun r w' =>
      match r with
      | Ok _ => imports_of w' = imports_of w ++ [(subject, data)]
      | Err _ => imports_of w' = imports_of w \/ imports_of w' = imports_of w ++ [(subject, data)]
      end) w;
  now_imports w : imports_of (now w).2 = imports_of w
}.

Section import.
Context {W : Type} `{Substrate} `{EntityEnvelope} `{PublisherLaws W}.
Context (marshal : planSealWire -> res string) (i : Importer).

Definition encodes (t : time) (e : PlannedEntity) (wire : string) : Prop :=
  WorldEntity_Validate (PlannedEntity_Payload e t) = Ok tt /\
  marshal_entity WorldEntitySchema (PlannedEntity_Payload e t) (im_source i) t = Ok wire.

Lemma prepare_inv t entities prepared :
  prepare i t entities = Ok prepared ->
  Forall2 (encodes t) entities (map snd prepared) /\ map fst prepared = map pn_ID entities.
Proof.
  revert prepared. induction entities as [|e rest IH]; intros prepared; cbn; [by intros [= <-]|].
  intros (wire & Hw%wrapf_ok & Hr)%result_bind_ok. apply result_bind_ok in Hr as (out & [Hf Hids]%IH & [= <-]).
  unfold Importer_encode in Hw. apply result_bind_ok in Hw as ([] & Hv%wrapf_ok & Hm%wrapf_ok).
  cbn. rewrite Hids. split; [|done]. by constructor.
Qed.

(** How far a run of publishes got: all of the messages, or the first [k] of
    them and perhaps the one whose publish failed. *)
Definition progress (w w' : W) (messages : list (string * string)) (k : nat) (err : option error) : Prop :=
  match err with
  | None => k = List.length messages /\ imports_of w' = imports_of w ++ messages
  | Some _ => (k < List.length messages)%nat /\
      (imports_of w' = imports_of w ++ take k messages \/ imports_of w' = imports_of w ++ take (S k) messages)
  end.

Lemma publish_all_spec t result prepared w :
  wp (publish_all i t result prepared) (fun out w' => exists result' err k, out = Ok (result', err) /\
    ir_Entities result' = ir_Entities result ++ take k (map fst prepared) /\
    List.length (ir_Sequences result') = (List.length (ir_Sequences result) + k)%nat /\
    progress w w' (map (fun m => (im_subject i, m.2)) prepared) k err) w.
Proof.
  revert result w. induction prepared as [|[id wire] rest IH]; intros result w; cbn [publish_all].
  - apply wp_ret. exists result, None, 0%nat. cbn. rewrite !app_nil_r, Nat.add_0_r. done.
  - apply wp_bind, wp_attempt. eapply wp_mono; [apply Ack_spec|]. intros [ack|err] w1 Hw.
    + eapply wp_mono; [apply IH|]. intros out w2 (result' & err & k & -> & Hids & Hlen & Hpr).
      exists result', err, (S k). cbn [ir_Entities ir_Sequences] in *. split; [done|].
      rewrite Hids, Hlen, length_app, <- (assoc_L (++)). split; [done|]. split; [cbn; lia|].
      unfold progress in *. rewrite Hw in Hpr. cbn [map List.length snd take].
      destruct err; rewrite <- ?(assoc_L (++)) in Hpr; destruct Hpr as [Hk Hi]; (split; [lia|]); [|done].
      destruct Hi as [->| ->]; [by left|by right].
    + apply wp_ret. exists result, (Some (Errorf "publish entity" [err])), 0%nat. cbn [take map snd].
      rewrite app_nil_r, Nat.add_0_r. split; [done|]. split; [done|]. split; [done|].
      unfold progress. split; [cbn; lia|]. cbn [take map snd]. by rewrite app_nil_r.
Qed.

(** C15: An import that reports no error stored every entity of the plan, each once,
    in the plan's order, stamped with one time. One that reports an error either
    published nothing at all, or had checked every entity of a sealed plan
    beforehand and stored the entities it names, which are the plan's first, and
    at most the next one besides. *)
Theorem import_publishes_the_plan plan w :
  wp (Importer_Import marshal i (Some plan)) (fun out w' => exists result err, out = Ok (result, err) /\
    ((imports_of w' = imports_of w /\ ir_Entities result = [] /\ err <> None) \/
     requireResolvedSeal marshal (Some plan) = Ok tt /\
     exists t wires k,
       Forall2 (encodes t) (ps_Entities (pl_Wire plan)) wires /\
       ir_Entities result = take k (Plan_IDs plan) /\ List.length (ir_Sequences result) = k /\
       progress w w' (map (pair (im_subject i)) wires) k err)) w.
Proof.
  unfold Importer_Import. destruct (Nat.eqb (List.length (ps_Entities (pl_Wire plan))) 0).
  { apply wp_ret. eexists _, _. split; [done|]. by left. }
  destruct (requireResolvedSeal marshal (Some plan)) as [[]|err] eqn:Hseal.
  2:{ apply wp_ret. eexists _, _. split; [done|]. by left. }
  apply wp_bind. pose proof (now_imports w) as Hnow. destruct (now w) as [t w1] eqn:Ew. cbn [snd] in Hnow.
  eapply wp_intro; [unfold read_clock; rewrite Ew; reflexivity|]. cbn zeta beta iota.
  destruct (prepare i t (ps_Entities (pl_Wire plan))) as [prepared|err] eqn:Hprep.
  2:{ apply wp_ret. eexists _, _. split; [done|]. left. done. }
  apply prepare_inv in Hprep as [Hf Hids]. eapply wp_mono; [apply publish_all_spec|].
  intros out w2 (result & err & k & -> & Hent & Hlen & Hpr). cbn in Hent, Hlen. exists result, err. split; [done|].
  right. split; [done|]. exists t, (map snd prepared), k. unfold Plan_IDs. rewrite <- Hids, map_map.
  unfold progress in *. by rewrite Hnow in Hpr.
Qed.
End import.

(** ** A package to evaluate on *)
Module WorldDemo.

#[export] Instance demo_semver : Semver := {
  semver_IsValid version := HasPrefix version "v";
  semver_Canonical version := version;
  semver_Compare a b := match String.compare a b with Lt => -1 | Eq => 0 | Gt => 1 end }.

#[export] Instance demo_rules : WorldRuleEngine := {
  DefaultActionMaxIterations := 3;
  IsValidEntityID s := is_ok (ValidateEntityID s) }.

(** A persona record is the list of its roles. *)
#[export] Instance demo_personas : PersonaRecords := {
  PersonaRecord := list string;
  PersonaRecord_Roles roles := roles;
  PersonaRecord_Validate _ := Ok tt }.

Definition text_line (predicate object : string) : tripleLine :=
  {| tl_Predicate := predicate; tl_Object := Some (Ok (JString object)) |}.

(** The lines of the package, by their text. *)
Definition demo_line (gate_names : list string) (text : string) : res (entityLine * bool) :=
  if String.eqb text "gatehouse" then
    Ok ({| el_LocalID := "gatehouse"; el_Type := EntityKindLocation;
           el_Triples := map (text_line WorldEntityName) gate_names |}, false)
  else if String.eqb text "rook" then
    Ok ({| el_LocalID := "rook"; el_Type := EntityKindCharacter;
           el_Triples := [text_line WorldEntityName "Rook"; text_line WorldLocationCurrent "local:gatehouse";
                          text_line WorldRelationKnows "local:ash"] |}, false)
  else if String.eqb text "ash" then
    Ok ({| el_LocalID := "ash"; el_Type := EntityKindCharacter;
           el_Triples := [text_line WorldEntityName "Ash"; text_line CompanionCandidatePolicy CompanionPolicyReactive] |}, false)
  else Err (Errorf "not a line of the package" []).

Definition demo_fs (gate_names : list string) : PackageFS := {|
  fs_Bytes := string;
  fs_ReadFile name :=
    if mem name [ManifestFile; EntitiesFile; "personas/cast.json"%string] then Ok name
    else Err (Sentinel ErrNotExist);
  fs_ReadDir dir :=
    if String.eqb dir PersonasDir then Ok [{| de_Name := "cast.json"; de_IsDir := false |}]
    else Err (Sentinel ErrNotExist);
  as_manifest _ := Ok {| mf_ID := "tower"; mf_Name := "The Tower"; mf_Version := "0.1.0";
                         mf_EngineCompat := ">=v1.0.0"; mf_Description := "a gatehouse and two people" |};
  as_lines _ := (["gatehouse"; ""; "rook"; " ash "]%string, None);
  as_line := demo_line gate_names;
  as_rules _ := (false, Ok [], Err (Errorf "none" []));
  as_persona _ := Ok ["adjudicator"; "narrator"]%string;
  as_catalog _ := (Err (Errorf "none" []), Ok tt) |}.

Definition opts : LoadOptions := {| lo_EngineVersion := EmptyString; lo_AttributeSpecs := None |}.

Definition or_empty (r : res Package) : Package :=
  match r with
  | Ok p => p
  | Err _ => {| pkg_Manifest := {| mf_ID := EmptyString; mf_Name := EmptyString; mf_Version := EmptyString;
                                   mf_EngineCompat := EmptyString; mf_Description := EmptyString |};
                pkg_Entities := []; pkg_Mystery := None; pkg_Catalog := implicitCatalog [];
                pkg_validatedCatalog := None; pkg_RuleFiles := []; pkg_PersonaFiles := [] |}
  end.

Definition package : Package := or_empty (LoadPackage (demo_fs ["Gatehouse"]%string) opts).

Definition instance (worldNS : string) : InstanceConfig := {|
  ic_Org := "acme"; ic_WorldNS := worldNS;
  ic_Player := {| pb_LocalID := "p1"; pb_Name := "Ada"; pb_Character := "local:rook" |};
  ic_Companion := Some {| cb_Character := "local:ash"; cb_Policy := CompanionPolicyReactive |};
  ic_Experience := {| es_PersonaPack := EmptyString; es_MechanicsPack := EmptyString |} |}.

Definition demo_marshal (wire : planSealWire) : res string := Ok (Join dot (map pn_ID (ps_Entities wire))).

Definition or_no_plan (r : res Plan) : Plan :=
  match r with
  | Ok plan => plan
  | Err _ => {| pl_Wire := {| ps_Org := EmptyString; ps_WorldNS := EmptyString; ps_TemplateID := EmptyString;
                              ps_TemplateVersion := EmptyString;
                              ps_Experience := {| rx_PersonaPack := EmptyString; rx_MechanicsPack := EmptyString;
                                                  rx_PersonaFiles := []; rx_MechanicsFiles := [] |};
                              ps_Entities := [] |}; pl_seal := zero_seal |}
  end.

Definition plan (worldNS : string) : Plan := or_no_plan (Package_Resolve demo_marshal package (instance worldNS)).

Lemma package_loaded : loaded package.
Proof. exists (demo_fs ["Gatehouse"]%string), opts. vm_compute. reflexivity. Qed.

Lemma plan_resolved_one : Package_Resolve demo_marshal package (instance "alpha") = Ok (plan "alpha").
Proof. vm_compute. reflexivity. Qed.
Lemma plan_resolved_two : Package_Resolve demo_marshal package (instance "beta") = Ok (plan "beta").
Proof. vm_compute. reflexivity. Qed.

Definition empty_entity : PlannedEntity :=
  {| pn_ID := EmptyString; pn_Kind := EmptyString;
     pn_Template := {| tr_ID := EmptyString; tr_Version := EmptyString; tr_LocalID := EmptyString |}; pn_Facts := [] |}.
Definition entity (n : nat) : PlannedEntity := nth n (ps_Entities (pl_Wire (plan "alpha"))) empty_entity.

(** The lane, the clock and the publisher of an empty broker. *)
Definition Lane : Type := list (string * string).
#[export] Instance lane_imports : HasImports Lane := {| imports_of l := l |}.
#[export] Instance lane_clock : Clock Lane := {| now l := (1000, l) |}.
#[export] Instance lane_publisher : Publisher Lane := {|
  PublishToStreamWithAck subject data l :=
    if Nat.eqb (List.length l) 4 then (Err (Errorf "broker is gone" []), l)
    else (Ok (Some (Z.of_nat (List.length l) + 1)), l ++ [(subject, data)]) |}.
#[export] Instance lane_laws : PublisherLaws Lane.
Proof.
  split; [|done]. intros subject data l. unfold wp. cbn. by destruct (Nat.eqb (List.length l) 4); cbn; [left|].
Qed.
#[export] Instance lane_envelope : EntityEnvelope := {| marshal_entity _ entity _ _ := Ok (we_ID entity) |}.
End WorldDemo.
Import WorldDemo.

Lemma resolved_plans_are_closed_witness :
  let e := WorldDemo.entity 1 in
  exists target, target ∈ ps_Entities (pl_Wire (WorldDemo.plan "alpha")) /\
    wf_Object (reference WorldRelationKnows "acme.semmachina.alpha.tower.character.ash") = AString (pn_ID target) /\
    AllowsObjectKind WorldRelationKnows (pn_Kind target) = true /\ pn_ID target <> pn_ID e.
Proof.
  apply (resolved_plans_are_closed WorldDemo.demo_marshal WorldDemo.package (WorldDemo.instance "alpha")
           (WorldDemo.plan "alpha") WorldDemo.package_loaded WorldDemo.plan_resolved_one (WorldDemo.entity 1)
           (reference WorldRelationKnows "acme.semmachina.alpha.tower.character.ash")).
  - apply (list_elem_of_lookup_2 _ 1). vm_compute. reflexivity.
  - apply (list_elem_of_lookup_2 _ 2). vm_compute. reflexivity.
  - reflexivity.
Defined.

Lemma plan_identifiers_are_distinct_witness :
  List.length (Plan_IDs (WorldDemo.plan "alpha")) = 5%nat /\ NoDup (Plan_IDs (WorldDemo.plan "alpha")).
Proof.
  split; [vm_compute; reflexivity|].
  exact (plan_identifiers_are_distinct WorldDemo.demo_marshal _ _ _ WorldDemo.package_loaded WorldDemo.plan_resolved_one).
Defined.

Lemma campaigns_share_no_entity_witness :
  "acme.semmachina.alpha.tower.player.p1"%string ∉ Plan_IDs (WorldDemo.plan "beta").
Proof.
  apply (campaigns_share_no_entity WorldDemo.demo_marshal _ _ _ _ _ _ WorldDemo.package_loaded WorldDemo.package_loaded
           WorldDemo.plan_resolved_one WorldDemo.plan_resolved_two); [done|].
  apply mem_true. vm_compute. reflexivity.
Defined.

Lemma imports_are_refused_for_repetition_only_witness :
  WorldEntity_Validate (PlannedEntity_Payload (WorldDemo.entity 0) 1000) = Ok tt /\ repeats_nothing (pn_Facts (WorldDemo.entity 0)).
Proof.
  split; [vm_compute; reflexivity|].
  apply (imports_are_refused_for_repetition_only WorldDemo.demo_marshal WorldDemo.package (WorldDemo.instance "alpha")
           (WorldDemo.plan "alpha") (WorldDemo.entity 0) 1000 WorldDemo.package_loaded WorldDemo.plan_resolved_one).
  - apply (list_elem_of_lookup_2 _ 0). vm_compute. reflexivity.
  - vm_compute. discriminate.
  - reflexivity.
  - vm_compute. reflexivity.
Defined.

(** A package whose gatehouse carries two names loads and resolves, and no
    import of it ever passes the importer's check. *)
Definition renamed : Package := or_empty (LoadPackage (demo_fs ["Gatehouse"; "Old Gate"]%string) opts).
Definition renamed_plan : Plan := or_no_plan (Package_Resolve demo_marshal renamed (instance "alpha")).
Definition renamed_gate : PlannedEntity := nth 0 (ps_Entities (pl_Wire renamed_plan)) empty_entity.

Example repeated_name_loads_but_never_imports :
  LoadPackage (demo_fs ["Gatehouse"; "Old Gate"]%string) opts = Ok renamed /\
  Package_Resolve demo_marshal renamed (instance "alpha") = Ok renamed_plan /\
  renamed_gate ∈ ps_Entities (pl_Wire renamed_plan) /\
  forall t, is_ok (WorldEntity_Validate (PlannedEntity_Payload renamed_gate t)) = false.
Proof.
  split; [vm_compute; reflexivity|]. split; [vm_compute; reflexivity|].
  split; [apply (list_elem_of_lookup_2 _ 0); vm_compute; reflexivity|]. intros t.
  destruct (WorldEntity_Validate (PlannedEntity_Payload renamed_gate t)) as [[]|] eqn:Hv; [|done]. exfalso.
  unfold WorldEntity_Validate in Hv. do 4 apply result_bind_ok in Hv as (? & _ & Hv).
  cbn [we_RecordedAt PlannedEntity_Payload] in Hv. destruct (time_IsZero t); [discriminate|]. vm_compute in Hv. discriminate.
Qed.
(** The fifth publish fails: the four entities before it are on the lane, and
    the import says so. *)
Lemma import_publishes_the_plan_witness :
  let i := {| im_subject := DefaultImportSubject; im_source := ImportSource |} in
  let run := Importer_Import demo_marshal i (Some (plan "alpha")) ([] : Lane) in
  List.length run.2 = 4%nat /\ exists result err, run.1 = Ok (result, err) /\
    ((imports_of run.2 = [] /\ ir_Entities result = [] /\ err <> None) \/
     requireResolvedSeal demo_marshal (Some (plan "alpha")) = Ok tt /\
     exists t wires k,
       Forall2 (encodes i t) (ps_Entities (pl_Wire (plan "alpha"))) wires /\
       ir_Entities result = take k (Plan_IDs (plan "alpha")) /\ List.length (ir_Sequences result) = k /\
       progress ([] : Lane) run.2 (map (pair DefaultImportSubject) wires) k err).
Proof.
  split; [vm_compute; reflexivity|].
  exact (import_publishes_the_plan demo_marshal {| im_subject := DefaultImportSubject; im_source := ImportSource |}
           (plan "alpha") ([] : Lane)).
Defined.
