(* ===== verification/WorldRuleSpec.v ===== *)
(** What a downloaded world's rules can reach - only the entity they matched, no
    fact the engine writes, and a bounded number of times - and what the checks of
    an authored mystery guarantee. *)

From S2P Require Import Prelude GoStd GoErrors Graph Vocab Vocabulary RulePack WorldTemplate WorldRules MemStore WorldSpec.

Open Scope Z_scope.

(** ** The engine's own facts

    The predicates the recorder, the stages, the resume pass and the admission
    gate write, the authored truth that never changes, the campaign's provenance
    and the case machine's state. *)
Definition engine_facts : list string :=
  turnAcceptedPredicates ++ turnPhasePredicates ++ turnFailurePredicates ++ turnResumePredicates ++
  verdictScalarPredicates ++ caseDecisionScalarPredicates ++ rollScalarPredicates ++ effectScalarPredicates ++
  flat_map snd (map_to_list stageArtifacts) ++ playerTurnPredicates ++ playerResolvedTurnPredicates ++
  immutablePredicates ++
  [CampaignSeedValue; CampaignImportCompleted; CampaignExperiencePersonaPack; CampaignExperienceMechanicsPack;
   CaseLifecyclePhase; CaseLifecycleEventID; CaseLifecycleEventKindPredicate; CaseLifecycleFromPhase; CaseLifecycleToPhase].

(** The namespaces the boundary keeps for the engine, and what lies in them. *)
Definition reserved_prefixes : list string :=
  ["turn."; "campaign.seed."; "campaign.import."; "campaign.experience."; "player.turn."; "case.solution.";
   "evidence.truth."; "case.lifecycle."]%string.
Definition reserved_predicate (p : string) : Prop := exists prefix, prefix ∈ reserved_prefixes /\ HasPrefix p prefix = true.

(** What [authoring.go] declares engine-owned and no namespace keeps: the kind of
    an entity, the player's binding, revelations, bonds, and the case machine's
    transition receipts. *)
Definition engine_owned_in_reach : list string :=
  [WorldEntityKind; PlayerCharacterCurrent; RevelationEvidenceRef; RevelationActorHolder; RevelationTurnID;
   RevelationSourceActor; RevelationTestimonyRef; CompanionBondPlayer; CompanionBondCharacter; CompanionBondPolicy;
   CompanionBondHintLevel; CaseTransitionSource; CaseTransitionAt; CaseTransitionFrom].

Lemma listed_reserved l p : forallb (fun p => existsb (HasPrefix p) reserved_prefixes) l = true -> p ∈ l -> reserved_predicate p.
Proof.
  rewrite forallb_forall. intros Hall Hp%list_elem_of_In%Hall. apply existsb_exists in Hp as (prefix & Hin & Hpre).
  exists prefix. by rewrite list_elem_of_In.
Qed.

Lemma engine_facts_reserved p : p ∈ engine_facts -> reserved_predicate p.
Proof. apply listed_reserved. vm_compute. reflexivity. Qed.

Lemma engine_owned_reserved p : p ∈ engineOwnedFacts -> (p ∉ engine_owned_in_reach) -> reserved_predicate p.
Proof.
  intros Hp Hn. apply (listed_reserved (List.filter (fun p => negb (mem p engine_owned_in_reach)) engineOwnedFacts)).
  - vm_compute. reflexivity.
  - apply list_elem_of_In, filter_In. split; [by apply list_elem_of_In|]. by apply negb_true_iff, mem_false.
Qed.

(** ** Firing

    What upstream does with an action of a rule that matched: substitution of
    [$...] tokens, and a write on the trigger when the action names no subject. *)
Record firing : Type := {
  fg_trigger : string;
  fg_related : string;
  substitute : string -> string }.

Record firing_laws (f : firing) : Prop := {
  substitute_literal s : contains_char "$"%char s = false -> substitute f s = s;
  substitute_entity : substitute f "$entity.id" = fg_trigger f;
  substitute_related : substitute f "$related.id" = fg_related f }.

Definition written_subject (f : firing) (a : WorldAction) : string :=
  if String.eqb (wa_Subject a) EmptyString then fg_trigger f else substitute f (wa_Subject a).

Definition all_actions (r : WorldRule) : list WorldAction :=
  wr_OnEnter r ++ wr_OnExit r ++ wr_WhileTrue r ++ wr_OnRecovery r ++ wr_Actions r.

Section boundary.
Context `{VocabularyLaws} `{WorldRuleEngine}.

Lemma ParsePredicate_split p d c q : ParsePredicate p = Ok (d, c, q) -> Split dot p = [d; c; q].
Proof. intros [_ Hs]%ParsePredicate_parts. exact Hs. Qed.

(** The prefix a source reserves, read off the predicate's text. *)
Definition prefix_of (source : string * namespaceWidth * string) : string :=
  match Split dot source.1.1, source.1.2 with
  | d :: _, wholeDomain => d +:+ "."
  | d :: c :: _, domainAndCategory => d +:+ "." +:+ c +:+ "."
  | _, _ => EmptyString
  end.

Lemma reserve_prefixes sources domains :
  reserve sources = Ok domains -> map rv_prefix domains = map prefix_of sources.
Proof.
  revert domains. induction sources as [|[[predicate width] why] rest IH]; intros domains; cbn [reserve]; [by intros [= <-]|].
  destruct (ParsePredicate predicate) as [[[d c] q]|] eqn:Hp; [|discriminate].
  intros (out & Hr & [= <-])%result_bind_ok. cbn [map rv_prefix]. rewrite (IH _ Hr). f_equal.
  unfold prefix_of. cbn [fst snd]. rewrite (ParsePredicate_split _ _ _ _ Hp).
  destruct width; [done|]. by rewrite <- !string_app_assoc.
Qed.

Lemma namespaces domains : enginePredicateNamespaces = Ok domains -> map rv_prefix domains = reserved_prefixes.
Proof. intros ->%reserve_prefixes. vm_compute. reflexivity. Qed.

(** A field or predicate the boundary let pass is in none of its namespaces. *)
Lemma reserved_none domains field :
  enginePredicateNamespaces = Ok domains -> reservedDomainFor field domains = None -> ~ reserved_predicate field.
Proof.
  intros Hd%namespaces Hn (prefix & Hin & Hp). unfold reservedDomainFor in Hn.
  destruct (String.eqb field EmptyString || HasPrefix field "$") eqn:Hs.
  - assert (Hfirst : forallb (fun prefix => match prefix with String c _ => negb (Ascii.eqb c "$") | EmptyString => false end)
      reserved_prefixes = true) by (vm_compute; reflexivity).
    rewrite forallb_forall in Hfirst. apply list_elem_of_In, Hfirst in Hin. destruct prefix as [|c prefix]; [done|].
    destruct field as [|d field]; [discriminate Hp|]. apply negb_true_iff in Hin.
    unfold HasPrefix in Hs, Hp. cbn [CutPrefix String.eqb orb] in Hs, Hp. destruct (Ascii.eqb_spec "$" d) as [<-|]; [|discriminate Hs].
    by rewrite Hin in Hp.
  - rewrite <- Hd in Hin. apply list_elem_of_fmap in Hin as (domain & -> & Hin).
    apply list_elem_of_In, (find_none _ _ Hn) in Hin. congruence.
Qed.

Lemma condition_scoped domains c :
  enginePredicateNamespaces = Ok domains -> checkConditionScope c domains = Ok tt ->
  ~ reserved_predicate (cd_Field c) /\ HasPrefix (cd_Field c) "$entity.lifecycle." = false.
Proof.
  intros Hd. unfold checkConditionScope. destruct (HasPrefix (cd_Field c) "$entity.lifecycle."); [discriminate|].
  destruct (reservedDomainFor (cd_Field c) domains) eqn:Hr; [discriminate|]. intros _.
  split; [by apply (reserved_none domains)|done].
Qed.

(** What an action may do to the graph when it fires. *)
Definition confined (f : firing) (related : bool) (a : WorldAction) : Prop :=
  written_subject f a = fg_trigger f /\
  substitute f (wa_Predicate a) = wa_Predicate a /\ ~ reserved_predicate (wa_Predicate a) /\
  (wa_Type a = ActionTypeRemoveTriple \/
   (wa_Type a = ActionTypeReconcilePredicates /\ wa_Object a = EmptyString) \/
   substitute f (wa_Object a) = fg_trigger f \/
   (related = true /\ substitute f (wa_Object a) = fg_related f) \/
   (substitute f (wa_Object a) = wa_Object a /\ IsValidEntityID (wa_Object a) = false /\
    ObjectShapeFor (wa_Predicate a) <> ShapeReference)).

Lemma graph_action_confined f related domains a :
  firing_laws f -> enginePredicateNamespaces = Ok domains ->
  checkGraphActionScope a related domains = Ok tt -> confined f related a.
Proof.
  intros [Hlit Hent Hrel] Hd. unfold checkGraphActionScope, checkReservedPredicate, checkNameIsLiteral.
  intros (u & Hp & Ha)%result_bind_ok. apply result_bind_ok in Hp as (u' & Hl & Hp).
  destruct (contains_char "$"%char (wa_Predicate a)) eqn:Hdollar; [discriminate|].
  destruct (reservedDomainFor (wa_Predicate a) domains) eqn:Hr; [discriminate|]. unfold confined, written_subject.
  assert (Hsubject : (if String.eqb (wa_Subject a) EmptyString then fg_trigger f else substitute f (wa_Subject a)) = fg_trigger f /\
    (negb (String.eqb (wa_Subject a) EmptyString) && negb (String.eqb (wa_Subject a) "$entity.id")) = false).
  { destruct (String.eqb (wa_Subject a) EmptyString); [done|].
    destruct (String.eqb_spec (wa_Subject a) "$entity.id") as [->|]; [by rewrite Hent|discriminate Ha]. }
  destruct Hsubject as [-> Hs]. rewrite Hs in Ha.
  split; [done|]. split; [by apply Hlit|]. split; [by apply (reserved_none domains)|].
  destruct (bool_decide_reflect (wa_Type a = ActionTypeRemoveTriple)) as [Ht|Ht]; [by left|right].
  destruct (bool_decide (wa_Type a = ActionTypeReconcilePredicates) && String.eqb (wa_Object a) EmptyString) eqn:Hc.
  { apply andb_true_iff in Hc as [Hc%bool_decide_eq_true Ho%String.eqb_eq]. left. done. }
  right. destruct (String.eqb_spec (wa_Object a) "$entity.id") as [->|]; [by left|right].
  destruct (String.eqb_spec (wa_Object a) "$related.id") as [->|]; cbn [andb] in Ha.
  { destruct related; [left; done|discriminate Ha]. }
  right. destruct (contains_char "$"%char (wa_Object a)) eqn:Ho; [discriminate Ha|].
  destruct (IsValidEntityID (wa_Object a)); [discriminate Ha|].
  destruct (bool_decide_reflect (ObjectShapeFor (wa_Predicate a) = ShapeReference)) as [|Hn]; [discriminate Ha|].
  split; [by apply Hlit|]. exact (conj eq_refl Hn).
Qed.

(** How often upstream lets an action of the rule run. *)
Definition bound (a : WorldAction) : Z := default DefaultActionMaxIterations (wa_MaxIterations a).

Lemma action_scoped f related domains a :
  firing_laws f -> enginePredicateNamespaces = Ok domains -> checkActionScope a related domains = Ok tt ->
  1 <= bound a <= 4 /\ Forall (fun g => ~ reserved_predicate (cd_Field g)) (wa_When a) /\
  (wa_Type a = ActionTypeDeny \/ confined f related a).
Proof.
  intros Hf Hd. unfold checkActionScope. intros (u & Hg & Ha)%result_bind_ok.
  apply result_bind_ok in Ha as (u' & Hb & Ha). apply all_ok_Forall in Hg. split; [|split].
  - unfold checkActionBound, maxWorldPackageActionIterations in Hb. unfold bound.
    destruct (wa_MaxIterations a) as [n|]; cbn [default].
    + destruct ((0 <? n) && (n <=? 4)) eqn:Hn; [|discriminate]. apply andb_true_iff in Hn as [? ?]. cbn. lia.
    + destruct ((1 <=? DefaultActionMaxIterations) && (DefaultActionMaxIterations <=? 4)) eqn:Hn; [|discriminate].
      apply andb_true_iff in Hn as [? ?]. cbn. lia.
  - eapply Forall_impl; [exact Hg|]. intros g Hc. by apply (condition_scoped domains) in Hc as [].
  - destruct (wa_Type a) eqn:Ht; try discriminate Ha; [right..|by left]; by apply (graph_action_confined f related domains).
Qed.

(** C17: A rule of a downloaded package that loads stays out of the engine's
    namespaces. No condition or guard of it reads a predicate under one of the
    eight the boundary reserves; whenever one of its actions fires, the action
    denies, or it writes on the very entity that triggered it, under a predicate
    the author spelled out and outside those namespaces, and a link it makes
    leads to that entity or to the one matched beside it; and it runs at most
    four times. The namespaces hold what the recorder, the stages, the resume
    pass and the admission gate write, the immutable truth of the case and its
    lifecycle state. Of the facts [authoring.go] declares engine-owned they hold
    only the last: entity kinds, the player's binding, revelations, bonds and
    transition receipts stay in reach ([engine_owned_facts_in_reach]). *)
Theorem world_rules_stay_in_their_world r f (Hrule : checkRuleScope r = Ok tt) (Hf : firing_laws f) :
  Forall (fun c => ~ reserved_predicate (cd_Field c)) (wr_Conditions r) /\
  Forall (fun a => 1 <= bound a <= 4 /\ Forall (fun g => ~ reserved_predicate (cd_Field g)) (wa_When a) /\
    (wa_Type a = ActionTypeDeny \/ confined f (Nat.ltb 0 (List.length (wr_RelatedPatterns r))) a)) (all_actions r) /\
  (forall p, p ∈ engine_facts -> reserved_predicate p) /\
  (forall p, p ∈ engineOwnedFacts -> (p ∉ engine_owned_in_reach) -> reserved_predicate p).
Proof.
  unfold checkRuleScope in Hrule. apply result_bind_ok in Hrule as (domains & Hd & Hrule).
  apply result_bind_ok in Hrule as (u & Hc & Ha). apply all_ok_Forall in Hc, Ha.
  split; [|split; [|split; [apply engine_facts_reserved|apply engine_owned_reserved]]].
  - eapply Forall_impl; [exact Hc|]. intros c Hs. by apply (condition_scoped domains) in Hs as [].
  - assert (Hone : forall l, all_ok (fun a => checkActionScope a (Nat.ltb 0 (List.length (wr_RelatedPatterns r))) domains) l = Ok tt ->
      Forall (fun a => 1 <= bound a <= 4 /\ Forall (fun g => ~ reserved_predicate (cd_Field g)) (wa_When a) /\
        (wa_Type a = ActionTypeDeny \/ confined f (Nat.ltb 0 (List.length (wr_RelatedPatterns r))) a)) l).
    { intros l Hl%all_ok_Forall. eapply Forall_impl; [exact Hl|]. intros a. by apply action_scoped. }
    unfold all_actions. rewrite !Forall_app. rewrite !Forall_cons in Ha. destruct Ha as (? & ? & ? & ? & ? & _).
    repeat split; by apply Hone.
Qed.
End boundary.

(** ** Rules to evaluate on *)
Module RuleDemo.
#[export] Instance engine : WorldRuleEngine := {
  DefaultActionMaxIterations := 3;
  IsValidEntityID s := is_ok (ValidateEntityID s) }.

Definition condition (field : string) : Condition :=
  {| cd_Field := field; cd_Operator := "eq"; cd_Value := VText "1"; cd_From := VNil; cd_Required := false |}.

Definition action (type : action_type) (predicate object : string) : WorldAction := {|
  wa_Type := type; wa_Subject := EmptyString; wa_Predicate := predicate; wa_Object := object;
  wa_When := []; wa_MaxIterations := None;
  wa_ProjectionContract := EmptyString; wa_ProjectionGroup := EmptyString |}.

Definition rule (field : string) (a : WorldAction) : WorldRule := {|
  wr_ID := "reaction"; wr_Type := "expression"; wr_Pattern := "*.semmachina.*.*.item.*"; wr_WatchBuckets := [];
  wr_Conditions := [condition field]; wr_RelatedPatterns := [];
  wr_OnEnter := [a]; wr_OnExit := []; wr_WhileTrue := []; wr_OnRecovery := []; wr_Actions := [] |}.

(** A torch that burns out: a reaction to a world fact. *)
Definition torch : WorldRule := rule ItemAttributeQuantity (action ActionTypeUpdateTriple CharacterStatusCurrent "down").

Definition fire : firing := {|
  fg_trigger := "acme.semmachina.alpha.tower.item.torch"; fg_related := EmptyString;
  substitute s := if String.eqb s "$entity.id" then "acme.semmachina.alpha.tower.item.torch"%string
                  else if contains_char "$"%char s then EmptyString else s |}.

Lemma fire_laws : firing_laws fire.
Proof.
  split; [|done|done]. intros s Hs. cbn [substitute fire].
  destruct (String.eqb_spec s "$entity.id") as [->|]; [discriminate Hs|]. by rewrite Hs.
Qed.
End RuleDemo.
Import RuleDemo.

Lemma world_rules_stay_in_their_world_witness :
  checkRuleScope torch = Ok tt /\
  Forall (fun c => ~ reserved_predicate (cd_Field c)) (wr_Conditions torch) /\
  Forall (fun a => 1 <= bound a <= 4 /\ Forall (fun g => ~ reserved_predicate (cd_Field g)) (wa_When a) /\
    (wa_Type a = ActionTypeDeny \/ confined fire (Nat.ltb 0 (List.length (wr_RelatedPatterns torch))) a)) (all_actions torch) /\
  (forall p, p ∈ engine_facts -> reserved_predicate p) /\
  (forall p, p ∈ engineOwnedFacts -> (p ∉ engine_owned_in_reach) -> reserved_predicate p).
Proof.
  split; [vm_compute; reflexivity|].
  apply (world_rules_stay_in_their_world torch fire); [vm_compute; reflexivity|exact fire_laws].
Defined.

(** A rule that narrates the turn loop is refused, as are unlimited actions,
    substituted predicates and links out of the world. *)
Example refusals :
  map (fun r => is_ok (checkRuleScope r))
    [rule TurnPhaseCurrent (action ActionTypeDeny EmptyString EmptyString);
     rule ItemAttributeQuantity (action ActionTypePublish_ EmptyString EmptyString);
     rule ItemAttributeQuantity (action ActionTypeUpdateTriple "$state.predicate" "down");
     rule ItemAttributeQuantity (action ActionTypeAddTriple WorldRelationKnows "acme.semmachina.beta.tower.character.ash");
     rule ItemAttributeQuantity {| wa_Type := ActionTypeDeny; wa_Subject := EmptyString; wa_Predicate := EmptyString;
       wa_Object := EmptyString; wa_When := []; wa_MaxIterations := Some 0;
       wa_ProjectionContract := EmptyString; wa_ProjectionGroup := EmptyString |}]
  = [false; false; false; false; false].
Proof. vm_compute. reflexivity. Qed.

(** The boundary does not reserve every fact a template may not declare: each
    of [engine_owned_in_reach] is engine-owned to the template reader, outside
    every reserved namespace, and a rule of the same package may read it. The
    hint level and the policy of a companion's bond, the receipts of a
    revelation and the case machine's transition receipts it may write. *)
Example engine_owned_facts_in_reach :
  Forall (fun p => AuthorWritable p = false /\ mem p engineOwnedFacts = true /\
    existsb (HasPrefix p) reserved_prefixes = false /\
    checkRuleScope (rule p (action ActionTypeUpdateTriple CharacterStatusCurrent "down")) = Ok tt) engine_owned_in_reach /\
  Forall (fun p => checkRuleScope (rule ItemAttributeQuantity (action ActionTypeUpdateTriple p "bounded-initiative")) = Ok tt)
    [CompanionBondPolicy; CompanionBondHintLevel; RevelationTurnID; RevelationTestimonyRef;
     CaseTransitionSource; CaseTransitionAt; CaseTransitionFrom].
Proof. split; repeat constructor; vm_compute; reflexivity. Qed.

(** ** Facts read *)

Lemma exactlyOneRef_inv entity predicate field ref :
  exactlyOneRef entity predicate field = Ok ref ->
  exists fact, factsFor entity predicate = [fact] /\ tf_LocalRef fact = ref /\ IsReference fact = true.
Proof.
  unfold exactlyOneRef. destruct (factsFor entity predicate) as [|fact [|]]; try discriminate.
  destruct (IsReference fact) eqn:Hr; [|discriminate]. intros [= <-]. by exists fact.
Qed.

Lemma unique_values_inv value field seen facts values :
  unique_values value field seen facts = Ok values ->
  Forall2 (fun fact v => value fact = Ok v) facts values /\ NoDup values /\ (forall v, v ∈ values -> v ∉ seen).
Proof.
  revert seen values. induction facts as [|fact rest IH]; intros seen values; cbn [unique_values].
  { intros [= <-]. split; [constructor|]. split; [constructor|]. by intros v ?%not_elem_of_nil. }
  intros (v & Hv & Hr)%result_bind_ok. destruct (mem v seen) eqn:Hm; [discriminate|]. apply mem_false in Hm.
  apply result_bind_ok in Hr as (vs & Hr & [= <-]). apply IH in Hr as (Hf & Hn & Hs).
  split; [by constructor|]. split.
  - constructor; [|done]. intros Hin. apply Hs in Hin. apply Hin. by left.
  - intros x [->|Hin]%elem_of_cons; [done|]. intros Hx. apply Hs in Hin. apply Hin. by right.
Qed.

Lemma uniqueRefs_inv entity predicate field refs :
  uniqueRefs entity predicate field = Ok refs -> NoDup refs /\ refs <> [].
Proof.
  unfold uniqueRefs. destruct (factsFor entity predicate) as [|fact rest]; [discriminate|].
  intros (Hf & Hn & _)%unique_values_inv. split; [done|]. intros ->. inversion Hf.
Qed.

Section package.
Context (entities : list TemplateEntity).

Lemma requireRef_inv ref kind field :
  requireRef entities ref kind field = Ok tt -> exists entity, entity ∈ entities /\ te_LocalID entity = ref /\ te_Kind entity = kind.
Proof.
  unfold requireRef. destruct (byID entities ref) as [entity|] eqn:Hb; [|discriminate].
  destruct (String.eqb_spec (te_Kind entity) kind) as [Hk|]; [|discriminate]. intros _.
  apply byID_inv in Hb as [Hin Hid]. by exists entity.
Qed.

Definition declares (kind ref : string) : Prop :=
  exists entity, entity ∈ entities /\ te_LocalID entity = ref /\ te_Kind entity = kind.

Lemma requireRefs_inv refs kind field :
  requireRefs entities refs kind field = Ok tt -> Forall (declares kind) refs.
Proof. intros Hf%all_ok_Forall. eapply Forall_impl; [exact Hf|]. intros ref. apply requireRef_inv. Qed.

(** ** The timeline *)

Lemma insert_event_perm e l : insert_event e l ≡ₚ e :: l.
Proof.
  induction l as [|x rest IH]; cbn; [done|]. destruct (mt_Order e <=? mt_Order x); [done|].
  rewrite IH. apply Permutation_swap.
Qed.

Lemma sort_events_perm l : sort_events l ≡ₚ l.
Proof. induction l as [|e l IH]; cbn; [done|]. by rewrite insert_event_perm, IH. Qed.

Lemma timeline_events_inv refs events :
  timeline_events entities refs = Ok events -> map mt_Event events = refs.
Proof.
  revert events. induction refs as [|ref rest IH]; intros events; cbn; [by intros [= <-]|].
  intros (order & _ & Hr)%result_bind_ok. apply result_bind_ok in Hr as (out & Hr & [= <-]). cbn. by rewrite (IH _ Hr).
Qed.

Lemma contiguous_inv position timeline :
  contiguous position timeline = Ok tt -> forall n e, timeline !! n = Some e -> mt_Order e = position + Z.of_nat n.
Proof.
  revert position. induction timeline as [|event rest IH]; intros position; cbn [contiguous]; [done|].
  destruct (mt_Order event =? position) eqn:Ho; [|discriminate]. apply Z.eqb_eq in Ho. cbn [negb].
  intros Hr [|n] e; cbn; [intros [= <-]; lia|]. intros Hn. rewrite (IH _ Hr n e Hn). lia.
Qed.

(** ** The evidence *)

Lemma evidence_records_inv evidence herrings records :
  evidence_records entities evidence = Ok (herrings, records) ->
  map me_Evidence records = evidence /\
  (herrings <> 0%nat -> exists id, id ∈ evidence /\
    exactlyOneLiteral (entity_or_zero entities id) EvidenceTruthStatusCurrent "evidence truth status" = Ok EvidenceTruthRedHerring) /\
  Forall (fun r => me_MinimumPhase r ∈ enum_values casePhaseEnum /\ me_Kinds r <> [] /\ me_Targets r <> []) records.
Proof.
  revert herrings records. induction evidence as [|id rest IH]; intros herrings records; cbn [evidence_records].
  { intros [= <- <-]. done. }
  intros ([herring record] & He & Hr)%result_bind_ok. apply result_bind_ok in Hr as ([n out] & Hr & [= <- <-]).
  apply IH in Hr as (Hids & Hherring & Hf). unfold evidence_eligibility in He.
  apply result_bind_ok in He as (statusText & Hst & He). apply result_bind_ok in He as (status & [-> _]%wrapf_ok%enum_parse_ok & He).
  apply result_bind_ok in He as (phaseText & _ & He). apply result_bind_ok in He as (phase & [-> Hphase]%wrapf_ok%enum_parse_ok & He).
  apply result_bind_ok in He as (kindTexts & Hkt & He). apply result_bind_ok in He as (kinds & Hk%wrapf_ok & He).
  apply result_bind_ok in He as (targets & [_ Ht]%uniqueRefs_inv & [= <- <-]). cbn. rewrite Hids. split; [done|]. split.
  - destruct (String.eqb_spec statusText EvidenceTruthRedHerring) as [->|]; intros Hn.
    + exists id. split; [by left|exact Hst].
    + destruct (Hherring Hn) as (x & Hx & Hl). exists x. split; [by right|done].
  - constructor; [|done]. split; [done|]. split; [|done]. cbn. intros ->.
    unfold uniqueLiterals in Hkt. destruct (factsFor (entity_or_zero entities id) EvidenceRevealKindPredicate) as [|fact facts]; [discriminate|].
    apply unique_values_inv in Hkt as [Hf2 _]. destruct kindTexts as [|k ks]; [by inversion Hf2|].
    cbn in Hk. apply result_bind_ok in Hk as (? & _ & Hk). by apply result_bind_ok in Hk as (? & _ & [=]).
Qed.

(** ** The records *)

Lemma mystery_record_of_inv evidence entity r :
  mystery_record_of entities evidence entity = Ok (Some r) ->
  match r with
  | RBelief b => mb_Evidence b ∈ evidence /\ declares EntityKindCharacter (mb_Actor b)
  | RKnowledge k => mk_Evidence k ∈ evidence /\ declares EntityKindCharacter (mk_Actor k)
  | RCompanion local => local = te_LocalID entity /\ te_Kind entity = EntityKindCharacter
  end.
Proof.
  unfold mystery_record_of. destruct (String.eqb (te_Kind entity) EntityKindBelief).
  { intros (actor & _ & Hr)%result_bind_ok. apply result_bind_ok in Hr as (ev & _ & Hr).
    apply result_bind_ok in Hr as (text & _ & Hr). apply result_bind_ok in Hr as (stance & _ & Hr).
    apply result_bind_ok in Hr as ([] & Hact%requireRef_inv & Hr). destruct (mem ev evidence) eqn:Hm; [|discriminate].
    injection Hr as <-. apply mem_true in Hm. done. }
  destruct (String.eqb (te_Kind entity) EntityKindKnowledge).
  { intros (actor & _ & Hr)%result_bind_ok. apply result_bind_ok in Hr as (ev & _ & Hr).
    apply result_bind_ok in Hr as ([] & Hact%requireRef_inv & Hr). destruct (mem ev evidence) eqn:Hm; [|discriminate].
    injection Hr as <-. apply mem_true in Hm. done. }
  destruct (String.eqb_spec (te_Kind entity) EntityKindCharacter) as [Hk|]; [|discriminate].
  intros (candidate & _ & Hr)%result_bind_ok. destruct candidate; [|discriminate]. by injection Hr as <-.
Qed.

Lemma mystery_records_inv evidence l records r :
  (forall entity, entity ∈ l -> entity ∈ entities) ->
  mystery_records entities evidence l = Ok records -> r ∈ records ->
  exists entity, entity ∈ entities /\ mystery_record_of entities evidence entity = Ok (Some r).
Proof.
  revert records. induction l as [|entity rest IH]; intros records Hsub; cbn [mystery_records].
  { intros [= <-]. by intros ?%not_elem_of_nil. }
  intros (o & Ho & Hr)%result_bind_ok. apply result_bind_ok in Hr as (out & Hr & [= <-]).
  assert (Hrest : r ∈ out -> exists entity, entity ∈ entities /\ mystery_record_of entities evidence entity = Ok (Some r)).
  { intros Hin. apply (IH out); [intros x ?; apply Hsub; by right|done|done]. }
  destruct o as [r0|]; [|exact Hrest]. intros [->|Hin]%elem_of_cons; [|by apply Hrest].
  exists entity. split; [apply Hsub; by left|done].
Qed.
End package.

(** ** A case that holds together

    The contract of the checks, over the package's entities alone. *)
Record solvable (entities : list TemplateEntity) (c : MysteryCase) : Prop := {
  only_case : exists entity, List.filter is_case entities = [entity] /\ te_LocalID entity = mc_ID c;
  suspects_are_characters : NoDup (mc_Suspects c) /\ Forall (declares entities EntityKindCharacter) (mc_Suspects c);
  evidence_is_declared : NoDup (mc_Evidence c) /\ Forall (declares entities EntityKindEvidence) (mc_Evidence c);
  nothing_is_outside : forall e, e ∈ entities ->
    (te_Kind e = EntityKindEvidence -> te_LocalID e ∈ mc_Evidence c) /\
    (te_Kind e = EntityKindEvent -> te_LocalID e ∈ map mt_Event (mc_Timeline c));
  culprit_is_a_suspect : ms_Culprit (mc_Solution c) ∈ mc_Suspects c;
  motive_is_evidence : ms_Motive (mc_Solution c) ∈ mc_Evidence c;
  method_is_an_item : declares entities EntityKindItem (ms_Method (mc_Solution c));
  victim_is_a_character : declares entities EntityKindCharacter (mc_Victim c);
  timeline_is_a_sequence : mc_Timeline c <> [] /\ NoDup (map mt_Event (mc_Timeline c)) /\
    forall n e, mc_Timeline c !! n = Some e -> mt_Order e = 1 + Z.of_nat n;
  someone_is_misled : exists id, id ∈ mc_Evidence c /\
    exactlyOneLiteral (entity_or_zero entities id) EvidenceTruthStatusCurrent "evidence truth status" = Ok EvidenceTruthRedHerring;
  evidence_can_be_found : map me_Evidence (mc_EvidenceEligibility c) = mc_Evidence c /\
    Forall (fun r => me_MinimumPhase r ∈ enum_values casePhaseEnum /\ me_Kinds r <> [] /\ me_Targets r <> [])
      (mc_EvidenceEligibility c);
  beliefs_are_about_the_case : mc_Beliefs c <> [] /\
    Forall (fun b => mb_Evidence b ∈ mc_Evidence c /\ declares entities EntityKindCharacter (mb_Actor b)) (mc_Beliefs c);
  knowledge_is_about_the_case : mc_KnowledgeSeeds c <> [] /\
    Forall (fun k => mk_Evidence k ∈ mc_Evidence c /\ declares entities EntityKindCharacter (mk_Actor k)) (mc_KnowledgeSeeds c);
  someone_can_help : mc_CompanionCandidates c <> [] /\ Forall (declares entities EntityKindCharacter) (mc_CompanionCandidates c) }.

Lemma nonempty_list {A} (l : list A) e : require (E := error) (negb (Nat.eqb (List.length l) 0)) e = Ok tt -> l <> [].
Proof. intros Hr%require_ok. by destruct l. Qed.

Section cases.
Context (entities : list TemplateEntity).

Lemma validateMysteryEvidence_inv evidence timelineRefs eligibility :
  validateMysteryEvidence entities evidence timelineRefs = Ok eligibility ->
  (exists id, id ∈ evidence /\
    exactlyOneLiteral (entity_or_zero entities id) EvidenceTruthStatusCurrent "evidence truth status" = Ok EvidenceTruthRedHerring) /\
  map me_Evidence eligibility = evidence /\
  Forall (fun r => me_MinimumPhase r ∈ enum_values casePhaseEnum /\ me_Kinds r <> [] /\ me_Targets r <> []) eligibility /\
  forall e, e ∈ entities -> (te_Kind e = EntityKindEvidence -> te_LocalID e ∈ evidence) /\
    (te_Kind e = EntityKindEvent -> te_LocalID e ∈ timelineRefs).
Proof.
  unfold validateMysteryEvidence. intros ([herrings out] & (Hids & Hherring & Hf)%evidence_records_inv & Hr)%result_bind_ok.
  destruct herrings as [|n]; [discriminate|]. cbn [Nat.eqb] in Hr. apply result_bind_ok in Hr as ([] & Hall & [= <-]).
  apply all_ok_Forall in Hall. rewrite Forall_forall in Hall. split; [by apply Hherring|]. split; [done|]. split; [done|].
  intros e He. apply Hall in He.
  destruct (String.eqb_spec (te_Kind e) EntityKindEvidence) as [Hk|Hk]; cbn [andb] in He.
  - destruct (mem (te_LocalID e) evidence) eqn:Hm; [|discriminate]. apply mem_true in Hm. split; [done|]. intros Hev. by rewrite Hev in Hk.
  - split; [done|]. intros Hev. rewrite Hev, String.eqb_refl in He. cbn [andb] in He.
    destruct (mem (te_LocalID e) timelineRefs) eqn:Hm; [|discriminate]. by apply mem_true in Hm.
Qed.

Lemma validateMysteryRecords_inv evidence beliefs knowledge companions :
  validateMysteryRecords entities evidence = Ok (beliefs, knowledge, companions) ->
  Forall (fun b => mb_Evidence b ∈ evidence /\ declares entities EntityKindCharacter (mb_Actor b)) beliefs /\
  Forall (fun k => mk_Evidence k ∈ evidence /\ declares entities EntityKindCharacter (mk_Actor k)) knowledge /\
  Forall (declares entities EntityKindCharacter) companions.
Proof.
  unfold validateMysteryRecords. destruct (mystery_records entities evidence entities) as [records|] eqn:Hr; [|discriminate].
  intros [= <- <- <-].
  assert (Hrec : forall r, r ∈ records -> exists entity, entity ∈ entities /\ mystery_record_of entities evidence entity = Ok (Some r)).
  { intros r. by apply (mystery_records_inv entities evidence entities). }
  repeat split; apply Forall_forall; intros x (r & Hin & Hx)%list_elem_of_omap;
    apply Hrec in Hin as (entity & He & Hof%mystery_record_of_inv); destruct r; try discriminate; injection Hx as <-; try exact Hof.
  destruct Hof as [-> Hk]. by exists entity.
Qed.

Lemma validateMysteryCase_solvable caseEntity c :
  List.filter is_case entities = [caseEntity] -> validateMysteryCase entities caseEntity = Ok c -> solvable entities c.
Proof.
  intros Honly. unfold validateMysteryCase.
  intros (culprit & _ & Hc)%result_bind_ok. apply result_bind_ok in Hc as (method & _ & Hc).
  apply result_bind_ok in Hc as (motive & _ & Hc). apply result_bind_ok in Hc as (victim & _ & Hc).
  apply result_bind_ok in Hc as (suspectCount & _ & Hc). apply result_bind_ok in Hc as (evidenceCount & _ & Hc).
  apply result_bind_ok in Hc as (suspects & [Hns _]%uniqueRefs_inv & Hc).
  apply result_bind_ok in Hc as (evidence & [Hne _]%uniqueRefs_inv & Hc).
  apply result_bind_ok in Hc as (timelineRefs & [Hnt Ht0]%uniqueRefs_inv & Hc).
  apply result_bind_ok in Hc as ([] & _ & Hc). apply result_bind_ok in Hc as ([] & _ & Hc).
  apply result_bind_ok in Hc as ([] & _ & Hc). apply result_bind_ok in Hc as ([] & Hs%requireRefs_inv & Hc).
  apply result_bind_ok in Hc as ([] & He%requireRefs_inv & Hc). apply result_bind_ok in Hc as ([] & _ & Hc).
  apply result_bind_ok in Hc as ([] & _ & Hc). apply result_bind_ok in Hc as ([] & Hv%requireRef_inv & Hc).
  apply result_bind_ok in Hc as ([] & Hcul & Hc). apply require_ok, mem_true in Hcul.
  apply result_bind_ok in Hc as ([] & Hmet%requireRef_inv & Hc). apply result_bind_ok in Hc as ([] & _ & Hc).
  apply result_bind_ok in Hc as ([] & Hmot & Hc). apply require_ok, mem_true in Hmot.
  apply result_bind_ok in Hc as (timeline & Htl & Hc).
  apply result_bind_ok in Hc as (eligibility & (Hherring & Hids & Hel & Houter)%validateMysteryEvidence_inv & Hc).
  apply result_bind_ok in Hc as ([[beliefs knowledge] companions] & (Hb & Hk & Hcomp)%validateMysteryRecords_inv & Hc).
  apply result_bind_ok in Hc as ([] & Hb0%nonempty_list & Hc). apply result_bind_ok in Hc as ([] & Hk0%nonempty_list & Hc).
  apply result_bind_ok in Hc as ([] & Hc0%nonempty_list & [= <-]).
  unfold validateMysteryTimeline in Htl. apply result_bind_ok in Htl as (events & Hev%timeline_events_inv & Htl).
  apply result_bind_ok in Htl as ([] & Hcont & [= <-]).
  assert (Hperm : map mt_Event (sort_events events) ≡ₚ timelineRefs) by (rewrite <- Hev; apply Permutation_map, sort_events_perm).
  split; cbn; try done.
  - by exists caseEntity.
  - intros e Hin. destruct (Houter e Hin) as [Hx Hy]. split; [exact Hx|]. by rewrite Hperm.
  - split; [|split].
    + intros Hnil. rewrite Hnil in Hperm. symmetry in Hperm. by apply Permutation_nil_r in Hperm.
    + by rewrite Hperm.
    + intros n e Hn. exact (contiguous_inv 1 _ Hcont n e Hn).
Qed.

(** A package that passes the mystery checks declares one case that holds
    together: the culprit is one of the suspects and the motive one of the pieces
    of evidence, every reference is to an entity of the right kind, no evidence
    and no event is left out, the timeline counts 1 to n without a gap, at least
    one piece of evidence misleads, every piece can be found somehow, and there is
    a belief, a seed of knowledge and a companion to start from. A package that
    declares none has no mystery record at all. *)
Theorem accepted_mysteries_are_solvable result (Hr : validateMysteryEntities entities = Ok result) :
  match result with
  | Some c => solvable entities c
  | None => Forall (fun e => is_mystery_record e = false) entities
  end.
Proof.
  unfold validateMysteryEntities in Hr. destruct (existsb is_mystery_record entities) eqn:Hm; cbn [negb] in Hr.
  - destruct (List.filter is_case entities) as [|caseEntity [|]] eqn:Hone; try discriminate.
    apply result_bind_ok in Hr as (c & Hc & [= <-]). by apply (validateMysteryCase_solvable caseEntity).
  - injection Hr as <-. apply Forall_forall. intros e He. apply list_elem_of_In in He.
    destruct (is_mystery_record e) eqn:Hx; [|done].
    assert (existsb is_mystery_record entities = true) by (apply existsb_exists; by exists e). congruence.
Qed.
End cases.

(** ** A case to evaluate on *)
Module MysteryDemo.
Definition ref (predicate local : string) : TemplateFact :=
  {| tf_Predicate := predicate; tf_LocalRef := local; tf_Literal := ANil |}.
Definition entity (kind local : string) (facts : list TemplateFact) : TemplateEntity :=
  {| te_LocalID := local; te_Kind := kind; te_Facts := facts; te_Line := 1 |}.

Definition letter (local truth : string) : TemplateEntity := entity EntityKindEvidence local
  [literal_fact EvidenceTruthStatusCurrent (AString truth); literal_fact EvidenceRevealPhase (AString CasePhaseColdOpen);
   literal_fact EvidenceRevealKindPredicate (AString EvidenceRevealObserve); ref EvidenceRevealTarget "study"].

Definition package : list TemplateEntity :=
  [entity EntityKindCase "the-study"
     [ref CaseSolutionCulprit "butler"; ref CaseSolutionMethod "poker"; ref CaseSolutionMotive "will";
      ref CaseMemberVictim "baron"; literal_fact CaseRequirementSuspects (AInt 2);
      literal_fact CaseRequirementEvidence (AInt 2); ref CaseMemberSuspect "butler"; ref CaseMemberSuspect "heir";
      ref CaseMemberEvidence "will"; ref CaseMemberEvidence "glove"; ref CaseMemberTimeline "dinner"; ref CaseMemberTimeline "blow"];
   entity EntityKindCharacter "butler" []; entity EntityKindCharacter "baron" [];
   entity EntityKindCharacter "heir" [literal_fact CompanionCandidatePolicy (AString CompanionPolicyReactive)];
   entity EntityKindItem "poker" []; letter "will" EvidenceTruthClue; letter "glove" EvidenceTruthRedHerring;
   entity EntityKindEvent "dinner" [literal_fact CaseTimelineOrder (AInt 1)];
   entity EntityKindEvent "blow" [literal_fact CaseTimelineOrder (AInt 2)];
   entity EntityKindBelief "heir-suspects" [ref BeliefActorHolder "heir"; ref BeliefEvidenceRef "glove";
     literal_fact BeliefStanceCurrent (AString BeliefAffirms)];
   entity EntityKindKnowledge "heir-knows" [ref KnowledgeActorHolder "heir"; ref KnowledgeEvidenceRef "will"]].

Definition found : option MysteryCase :=
  match validateMysteryEntities package with Ok c => c | Err _ => None end.
End MysteryDemo.

Lemma accepted_mysteries_are_solvable_witness :
  option_map mc_Suspects MysteryDemo.found = Some ["butler"; "heir"]%string /\
  match MysteryDemo.found with
  | Some c => solvable MysteryDemo.package c
  | None => Forall (fun e => is_mystery_record e = false) MysteryDemo.package
  end.
Proof.
  split; [vm_compute; reflexivity|].
  apply (accepted_mysteries_are_solvable MysteryDemo.package MysteryDemo.found). vm_compute. reflexivity.
Defined.
