(* ===== verification/BootRulesSpec.v ===== *)
(** What an instance makes of the rules it selected: narrowed, they match the
    entities of the instance they matched before and no others; composed after
    the engine's rules, they keep its rules as they are and write the graph only
    through the projection of their own pack. *)

From stdpp Require Import sorting.
From S2P Require Import Prelude GoStd GoErrors Graph Vocab Vocabulary Sequencing RulePack WorldTemplate WorldRules WorldPackage WorldImport BootRules WorldRuleSpec.

Open Scope Z_scope.

Lemma map_ok_Forall2 {A B} (f : A -> res B) l l' : map_ok f l = Ok l' -> Forall2 (fun x y => f x = Ok y) l l'.
Proof.
  revert l'. induction l as [|x l IH]; intros l'; cbn; [intros [= <-]; constructor|].
  rewrite result_bind_ok. intros (y & Hy & Hl). apply result_bind_ok in Hl as (ys & Hys & [= <-]).
  constructor; [done|]. by apply IH.
Qed.

(** ** Narrowing *)

(** A position of an entity pattern is a literal or [*]. *)
Definition position_matches (p t : string) : Prop := p = "*"%string \/ p = t.
Definition entity_matches (pattern id : list string) : Prop := Forall2 position_matches pattern id.

(** Upstream's promise: an entity pattern has six positions. *)
Class EntityPatternLaw `{RuleRuntime} : Prop := {
  pattern_positions pattern : ValidateEntityIDPattern pattern = Ok tt -> List.length (Split dot pattern) = 6%nat }.

Lemma narrow_parts_spec instance parts :
  Forall (fun s => s <> "*"%string) instance -> (List.length instance <= List.length parts)%nat ->
  match narrow_parts instance parts with
  | Ok narrowed =>
      (List.length narrowed = List.length parts) /\ narrowed = instance ++ drop (List.length instance) parts /\
      forall id, entity_matches narrowed id <-> entity_matches parts id /\ take (List.length instance) id = instance
  | Err _ => forall id, entity_matches parts id -> take (List.length instance) id <> instance
  end.
Proof.
  intros Hinst. revert parts. induction Hinst as [|exact instance Hne Hinst IH]; intros parts Hlen; cbn [narrow_parts].
  { split_and!; [done..|]. intros id. rewrite take_0. tauto. }
  destruct parts as [|part parts]; cbn in Hlen; [lia|]. specialize (IH parts ltac:(lia)).
  destruct (String.eqb part "*" || String.eqb part exact) eqn:Hp.
  - assert (Hm : position_matches part exact).
    { apply orb_true_iff in Hp as [->%String.eqb_eq| ->%String.eqb_eq]; [by left|by right]. }
    destruct (narrow_parts instance parts) as [narrowed|err]; cbn.
    + destruct IH as (Hl & Heq & IH). split_and!; [by rewrite Hl|by rewrite Heq|]. intros [|t id]; cbn.
      { split; [by inversion 1|intros [? [=]]]. }
      unfold entity_matches in *. rewrite !Forall2_cons, IH. split.
      * intros ([-> | ->] & ? & ->); [done|]. done.
      * intros ([? ?] & [= -> ->]). split_and!; [by right|done|done].
    + intros [|t id] Hid; [by inversion Hid|]. cbn. intros [= _ Ht]. apply Forall2_cons in Hid as [_ Hid]. by apply (IH id).
  - intros [|t id] Hid; [by inversion Hid|]. cbn. intros [= -> _]. apply Forall2_cons in Hid as [Hid _].
    apply orb_false_iff in Hp as [H1%String.eqb_neq H2%String.eqb_neq]. by destruct Hid.
Qed.

(** A narrowed pattern selects, of the entities the pattern it came from
    selects, exactly those of the instance; and a pattern that is refused for
    its positions selects no entity of the instance at all. *)
Theorem narrowed_patterns_select_the_instance `{RuleRuntime, !EntityPatternLaw} plan pattern
    (Hinst : Forall (fun s => s <> "*"%string /\ contains_char dot s = false) (instance_positions plan))
    (Hpattern : ValidateEntityIDPattern pattern = Ok tt) :
  match narrowWorldPattern plan pattern with
  | Ok narrowed => forall id, entity_matches (Split dot narrowed) id <->
      entity_matches (Split dot pattern) id /\ take 4 id = instance_positions plan
  | Err _ => forall id, entity_matches (Split dot pattern) id -> take 4 id <> instance_positions plan
  end.
Proof.
  unfold narrowWorldPattern. rewrite Hpattern. cbn [mbind result_bind].
  pose proof (pattern_positions pattern Hpattern) as Hlen.
  pose proof (narrow_parts_spec (instance_positions plan) (Split dot pattern)) as Hspec.
  assert (Hstar : Forall (fun s => s <> "*"%string) (instance_positions plan)) by (eapply Forall_impl; [exact Hinst|naive_solver]).
  specialize (Hspec Hstar ltac:(cbn; lia)). destruct (narrow_parts _ _) as [narrowed|err]; cbn; [|exact Hspec].
  destruct Hspec as (Hl & Heq & Hm). rewrite Split_Join; [exact Hm| |].
  - intros ->. cbn in Hl. lia.
  - rewrite Heq. apply Forall_app. split; [eapply Forall_impl; [exact Hinst|naive_solver]|].
    apply Forall_drop, Split_parts_no_sep.
Qed.

(** ** Group names *)

Lemma replace_char_inj old new a b : contains_char new a = false -> contains_char new b = false ->
  replace_char old new a = replace_char old new b -> a = b.
Proof.
  revert b. induction a as [|c a IH]; intros [|d b]; cbn; try done. intros [Hc Ha]%orb_false_iff [Hd Hb]%orb_false_iff [= Hcd Hab].
  f_equal; [|by apply IH]. apply Ascii.eqb_neq in Hc, Hd.
  destruct (Ascii.eqb_spec c old), (Ascii.eqb_spec d old); congruence.
Qed.

(** ** Binding *)

Definition writes_graph (action : WorldAction) : bool :=
  match wa_Type action with
  | ActionTypeAddTriple | ActionTypeRemoveTriple | ActionTypeUpdateTriple | ActionTypeReconcilePredicates => true
  | _ => false
  end.

(** An action that does not write the graph, or writes it through a projection. *)
Definition bound_to (contract : string) (action : WorldAction) : Prop :=
  writes_graph action = true ->
  wa_Type action = ActionTypeReconcilePredicates /\ wa_ProjectionContract action = contract /\
  wa_ProjectionGroup action = selectedMechanicsGroupName (wa_Predicate action).

Lemma bind_action_bound contract action bound : bind_action contract action = Ok bound ->
  bound_to contract bound /\ wa_Predicate bound = wa_Predicate action /\ wa_Object bound = wa_Object action /\
  wa_Subject bound = wa_Subject action /\ writes_graph bound = writes_graph action.
Proof.
  unfold bind_action, bound_to, writes_graph. destruct (wa_Type action) eqn:Ht; try done;
    try (by intros [= <-]; rewrite Ht; split_and!; [done|..]);
    (destruct (negb (Bool.eqb _ _)); [done|]; destruct (negb _ && _); [done|]; by intros [= <-]).
Qed.

Lemma bind_action_idem contract action bound : contract <> EmptyString ->
  bind_action contract action = Ok bound -> bind_action contract bound = Ok bound.
Proof.
  intros Hc. unfold bind_action. destruct (wa_Type action) eqn:Ht; try done; try (intros [= <-]; by rewrite Ht);
    (destruct (negb (Bool.eqb _ _)); [done|]; destruct (negb _ && _); [done|]; intros [= <-]; cbn;
     destruct (String.eqb_spec contract EmptyString); [done|]; by rewrite !String.eqb_refl).
Qed.

Lemma map_bind_bound contract l l' : map_ok (bind_action contract) l = Ok l' -> Forall (bound_to contract) l'.
Proof.
  intros Hl%map_ok_Forall2. induction Hl as [|x y l l' Hxy _ IH]; [constructor|]. constructor; [|done].
  by apply bind_action_bound in Hxy as [? _].
Qed.

Lemma bound_rule contract d d' : bindSelectedMechanicsActions contract d = Ok d' ->
  Forall (bound_to contract) (rule_actions d') /\ wr_ID d' = wr_ID d /\ wr_Pattern d' = wr_Pattern d /\
  wr_RelatedPatterns d' = wr_RelatedPatterns d /\ wr_Conditions d' = wr_Conditions d.
Proof.
  unfold bindSelectedMechanicsActions. rewrite result_bind_ok. intros (l1 & H1%map_bind_bound & Hr).
  apply result_bind_ok in Hr as (l2 & H2%map_bind_bound & Hr). apply result_bind_ok in Hr as (l3 & H3%map_bind_bound & Hr).
  apply result_bind_ok in Hr as (l4 & H4%map_bind_bound & Hr). apply result_bind_ok in Hr as (l5 & H5%map_bind_bound & [= <-]).
  split_and!; [|done..]. unfold rule_actions. cbn. by rewrite !Forall_app.
Qed.

(** ** Composing *)

Section compose.
Context `{RuleRuntime}.

Lemma seen_ids_ok seen rules seen' : seen_ids seen rules = Ok seen' ->
  NoDup (map inline_ID rules) /\ (forall id, id ∈ map inline_ID rules -> id ∉ seen) /\
  seen' = seen ∪ list_to_set (map inline_ID rules).
Proof.
  revert seen. induction rules as [|r rules IH]; intros seen; cbn.
  { intros [= <-]. split_and!; [constructor|set_solver|set_solver]. }
  destruct (decide _) as [|Hnew]; [done|]. intros (Hnd & Hfresh & ->)%IH. split_and!.
  - constructor; [|done]. intros Hin%Hfresh. set_solver.
  - intros id [->|Hin]%elem_of_cons; [done|]. apply Hfresh in Hin. set_solver.
  - set_solver.
Qed.

(** What the loop keeps: the rules composed so far are distinct, are the fixed
    ones and then the selected, bound to their projection and watched. *)
Definition composing (contract : string) (fixed : list InlineRule) (patterns0 : list string) (graph0 : bool)
    (mechanics : list selectedMechanicsDefinition) (c : composed) : Prop :=
  NoDup (map inline_ID (co_rules c)) /\ co_seen c = list_to_set (map inline_ID (co_rules c)) /\
  co_rules c = fixed ++ map Selected (co_selected c) /\
  Forall2 (fun sm d => bindSelectedMechanicsActions contract (sm_definition sm) = Ok d) mechanics (co_selected c) /\
  patterns0 `prefix_of` co_patterns c /\ Forall (fun d => wr_Pattern d ∈ co_patterns c) (co_selected c) /\
  co_graph c = graph0 || existsb definitionMutatesGraph (co_selected c).

Lemma compose_selected_ok contract fixed patterns0 graph0 done_ mechanics c c' :
  composing contract fixed patterns0 graph0 done_ c -> compose_selected contract mechanics c = Ok c' ->
  composing contract fixed patterns0 graph0 (done_ ++ mechanics) c'.
Proof.
  revert done_ c. induction mechanics as [|sm mechanics IH]; intros done_ c Hc; cbn.
  { intros [= <-]. by rewrite app_nil_r. }
  destruct (decide _) as [|Hnew]; [done|]. rewrite result_bind_ok. intros (d & Hd & Hrest).
  apply result_bind_ok in Hrest as ([] & _ & Hrest). change (sm :: mechanics) with ([sm] ++ mechanics). rewrite (assoc_L (++)).
  refine (IH _ _ _ Hrest). clear IH Hrest. destruct Hc as (Hnd & Hseen & Hrules & Hsel & Hpre & Hwatch & Hgraph).
  pose proof (bound_rule contract _ _ Hd) as (_ & Hid & _). unfold composing; cbn. split_and!.
  - rewrite map_app. apply NoDup_app. split_and!; [done| |apply NoDup_singleton]. cbn.
    intros id Hin ->%list_elem_of_singleton. rewrite Hid in Hin. apply Hnew. rewrite Hseen. by apply elem_of_list_to_set.
  - rewrite Hseen, map_app, list_to_set_app_L. cbn. rewrite Hid. set_solver.
  - by rewrite Hrules, map_app, app_assoc.
  - apply Forall2_app; [done|]. by constructor.
  - destruct (mem _ _); [done|]. by apply prefix_app_r.
  - apply Forall_app. split.
    + eapply Forall_impl; [exact Hwatch|]. intros x Hx. destruct (mem _ _); [done|]. apply elem_of_app. by left.
    + constructor; [|constructor]. destruct (mem (wr_Pattern d) (co_patterns c)) eqn:Hm; [by apply mem_true in Hm|].
      apply elem_of_app. right. by left.
  - rewrite existsb_app, Hgraph. cbn. rewrite orb_false_r. by destruct (definitionMutatesGraph d), graph0, (existsb _ _).
Qed.

(** The map of written predicates, for bound rules. *)
Lemma written_predicates_fold contract actions (m : gmap string string) p g :
  Forall (bound_to contract) actions -> (forall p g, m !! p = Some g -> g = selectedMechanicsGroupName p) ->
  fold_left write_predicate actions m !! p = Some g ->
  g = selectedMechanicsGroupName p.
Proof.
  intros Hb. revert m. induction Hb as [|a actions Ha _ IH]; intros m Hm; [apply Hm|]. cbn. apply IH. intros p' g'.
  unfold write_predicate. case_bool_decide as Ht; [|apply Hm]. destruct (Ha ltac:(unfold writes_graph; by rewrite Ht)) as (_ & _ & Hg).
  rewrite lookup_insert. case_decide; [|apply Hm]. intros [= <-]. by subst.
Qed.

Lemma written_predicates_in actions (m : gmap string string) a :
  a ∈ actions -> wa_Type a = ActionTypeReconcilePredicates ->
  is_Some (fold_left write_predicate actions m !! wa_Predicate a).
Proof.
  assert (Hkeep : forall l (m : gmap string string) p, is_Some (m !! p) ->
    is_Some (fold_left write_predicate l m !! p)).
  { induction l as [|b l IH]; [done|]. intros m' p Hp. cbn. apply IH. unfold write_predicate. case_bool_decide; [|done].
    rewrite lookup_insert. by case_decide. }
  revert m. induction actions as [|b actions IH]; intros m Hin Ht; [by apply not_elem_of_nil in Hin|].
  apply elem_of_cons in Hin as [->|Hin]; cbn; [|by apply IH]. apply Hkeep. unfold write_predicate.
  rewrite bool_decide_true by done. rewrite lookup_insert_eq. done.
Qed.

(** C35: The composed configuration keeps the engine's rules first and untouched and
    adds the selected ones, no identifier twice, each on a watched pattern;
    whatever a selected rule does to the graph goes through the one projection
    contract of its pack, in a group that owns exactly the predicate it writes
    and that no other predicate of the language shares; and graph integration
    is on when some rule needs it. *)
Theorem selected_rules_write_through_their_projection plan mechanics config composed_
    (Hrun : composed_config plan mechanics config = Ok composed_) :
  exists selected,
    rc_InlineRules composed_ = rc_InlineRules config ++ map Selected selected /\
    NoDup (map inline_ID (rc_InlineRules composed_)) /\
    map wr_ID selected = map (fun sm => wr_ID (sm_definition sm)) mechanics /\
    Forall (fun d => wr_Pattern d ∈ rc_Patterns composed_) selected /\
    Forall (fun action => writes_graph action = true ->
      rc_EnableGraphIntegration composed_ = true /\
      exists contract, rc_Contracts composed_ = [contract] /\ mc_Name contract = wa_ProjectionContract action /\
        {| gr_Name := wa_ProjectionGroup action; gr_Mode := ModeReconcile; gr_Predicates := [wa_Predicate action] |}
          ∈ mc_Groups contract /\
        (forall g p, g ∈ mc_Groups contract -> gr_Name g = wa_ProjectionGroup action -> p ∈ gr_Predicates g ->
           contains_char "_"%char p = false -> contains_char "_"%char (wa_Predicate action) = false ->
           p = wa_Predicate action))
      (flat_map rule_actions selected).
Proof.
  unfold composed_config in Hrun. apply result_bind_ok in Hrun as (seen & (Hnd & _ & Hseen)%seen_ids_ok & Hrun).
  apply result_bind_ok in Hrun as (c & Hc & Hrun). apply result_bind_ok in Hrun as (contract & Hcontract & Hrun).
  apply result_bind_ok in Hrun as ([] & _ & [= <-]). cbn.
  set (name := selectedMechanicsContractName _) in Hc.
  apply (compose_selected_ok name (rc_InlineRules config) (rc_Patterns config) (rc_EnableGraphIntegration config) []) in Hc.
  2: { split_and!; cbn; [done|rewrite Hseen; set_solver|by rewrite app_nil_r|constructor|done|constructor|by rewrite orb_false_r]. }
  destruct Hc as (Hnd' & _ & Hrules & Hsel & _ & Hwatch & Hgraph). cbn in Hsel. exists (co_selected c).
  assert (Hbound : Forall (bound_to name) (flat_map rule_actions (co_selected c))).
  { clear -Hsel. induction Hsel as [|sm d ? ? Hd _ IH]; [constructor|]. cbn. apply Forall_app. split; [|done].
    by apply bound_rule in Hd as [? _]. }
  split_and!; [done|done| |done|].
  { clear -Hsel. induction Hsel as [|sm d ? ? Hd _ IH]; [done|]. cbn. apply bound_rule in Hd as (_ & -> & _). by rewrite IH. }
  apply Forall_forall. intros a Ha Hw. rewrite Forall_forall in Hbound.
  destruct (Hbound a Ha Hw) as (Ht & Hn & Hg).
  split.
  { rewrite Hgraph. apply orb_true_iff. right. apply existsb_exists. apply list_elem_of_In, in_flat_map in Ha as (d & Hd & Ha).
    exists d. split; [done|]. unfold definitionMutatesGraph. apply existsb_exists. exists a. by rewrite Ht. }
  unfold selectedMechanicsProjection in Hcontract. set (predicates := written_predicates (co_selected c)) in Hcontract.
  assert (Hin : is_Some (predicates !! wa_Predicate a)) by (by apply written_predicates_in).
  assert (Hval : forall p g, predicates !! p = Some g -> g = selectedMechanicsGroupName p).
  { intros p g. apply (written_predicates_fold name); [by apply Forall_forall|]. intros ? ?. by rewrite lookup_empty. }
  destruct (decide (predicates = ∅)) as [He|]; [rewrite He, lookup_empty in Hin; by destruct Hin|].
  apply result_bind_ok in Hcontract as ([] & _ & [= <-]). eexists. split; [done|]. cbn.
  assert (Hkeys : forall p, p ∈ Sort (map fst (map_to_list predicates)) <-> is_Some (predicates !! p)).
  { intros p. unfold Sort. rewrite (merge_sort_Permutation string_le). split.
    - intros ((q & g) & -> & Hq%elem_of_map_to_list)%list_elem_of_fmap_1. cbn. by rewrite Hq.
    - intros [g Hp]. apply (list_elem_of_fmap_2' fst _ (p, g)); [by apply elem_of_map_to_list|done]. }
  destruct Hin as [g Hin]. pose proof (Hval _ _ Hin) as ->. split_and!; [by rewrite Hn| |].
  - apply list_elem_of_fmap. exists (wa_Predicate a). rewrite Hin, Hg. split; [done|]. apply Hkeys. by eexists.
  - intros grp p Hgrp Hname Hp Hu1 Hu2. apply list_elem_of_fmap_1 in Hgrp as (q & -> & Hq). cbn in Hname, Hp.
    apply list_elem_of_singleton in Hp as ->. apply Hkeys in Hq as [gq Hq]. rewrite Hq in Hname. cbn in Hname.
    rewrite (Hval _ _ Hq), Hg in Hname. unfold selectedMechanicsGroupName in Hname. apply string_app_inj_l in Hname.
    by eapply replace_char_inj.
Qed.
End compose.

Module BootRuleDemo.

(** A rule engine that accepts what is well shaped. *)
#[export] Instance demo_runtime : RuleRuntime := {|
  rule_NewConfig _ := Ok {| rc_InlineRules := []; rc_Patterns := []; rc_Outputs := [];
                            rc_EnableGraphIntegration := false; rc_Contracts := [] |};
  rule_Config_Validate _ := Ok tt; rule_Marshal _ := Ok "config"%string;
  rule_Unmarshal _ := Err (Errorf "no text is decoded here" []); rule_ValidateDefinition _ := Ok tt;
  ValidateEntityIDPattern p :=
    if Nat.eqb (List.length (Split dot p)) 6 then Ok tt else Err (Errorf "an entity pattern has six positions" []);
  contract_Validate _ := Ok tt; ModeReconcile := "reconcile" |}.

#[export] Instance demo_pattern_law : EntityPatternLaw.
Proof. split. intros p. cbn. by destruct (Nat.eqb_spec (List.length (Split dot p)) 6). Qed.

Definition plan : Plan := {|
  pl_Wire := {| ps_Org := "acme"; ps_WorldNS := "alpha"; ps_TemplateID := "tower"; ps_TemplateVersion := "v1.0.0";
                ps_Experience := {| rx_PersonaPack := "gm"; rx_MechanicsPack := "pbta"; rx_PersonaFiles := [];
                                    rx_MechanicsFiles := ["rules/torch.json"%string] |};
                ps_Entities := [] |};
  pl_seal := [] |}.

Lemma demo_positions : Forall (fun s => s <> "*"%string /\ contains_char dot s = false) (instance_positions plan).
Proof. repeat constructor; try done. Qed.

Definition fixed : RuleConfig := {|
  rc_InlineRules := map Fixed turn_sequencing; rc_Patterns := [EntityPattern]; rc_Outputs := [];
  rc_EnableGraphIntegration := false; rc_Contracts := [] |}.

Definition composed_torch : res RuleConfig :=
  composed_config plan [{| sm_file := "rules/torch.json"; sm_definition := RuleDemo.torch |}] fixed.
Definition torch_config : RuleConfig := match composed_torch with Ok c => c | Err _ => fixed end.

Lemma torch_composes : composed_torch = Ok torch_config.
Proof. vm_compute. reflexivity. Qed.
End BootRuleDemo.
Import BootRuleDemo.

Lemma narrowed_patterns_select_the_instance_witness :
  narrowWorldPattern plan "*.semmachina.*.*.item.*" = Ok "acme.semmachina.alpha.tower.item.*"%string /\
  (forall id, entity_matches (Split dot "acme.semmachina.alpha.tower.item.*") id <->
     entity_matches (Split dot "*.semmachina.*.*.item.*") id /\ take 4 id = instance_positions plan) /\
  is_ok (narrowWorldPattern plan "*.semmachina.beta.*.item.*") = false.
Proof.
  split; [vm_compute; reflexivity|]. split; [|vm_compute; reflexivity].
  exact (narrowed_patterns_select_the_instance plan "*.semmachina.*.*.item.*" demo_positions eq_refl).
Defined.

Lemma selected_rules_write_through_their_projection_witness :
  composed_torch = Ok torch_config /\
  map mc_Groups (rc_Contracts torch_config) =
    [[{| gr_Name := "predicate_character_status_current"; gr_Mode := "reconcile"; gr_Predicates := [CharacterStatusCurrent] |}]] /\
  exists selected, rc_InlineRules torch_config = map Fixed turn_sequencing ++ map Selected selected.
Proof.
  split; [exact torch_composes|]. split; [vm_compute; reflexivity|].
  destruct (selected_rules_write_through_their_projection plan
    [{| sm_file := "rules/torch.json"; sm_definition := RuleDemo.torch |}] fixed torch_config torch_composes)
    as (selected & Hs & _). exists selected. exact Hs.
Defined.
