(* ===== verification/BootWorldSpec.v ===== *)
(** What the instantiation of a world promises: a marker is only written on a
    world read back whole, a campaign whose marker certified its births still has
    one that does, a boot that goes on - imported or found imported - has itself
    read every membership edge from the index of its own process, and every
    readback ends. *)

From stdpp Require Import sorting.
From S2P Require Import Prelude GoStd GoErrors Graph Vocab Vocabulary Payload ProjectionContract Store Campaign WorldEntity GraphIO Turn Scene WorldTemplate WorldPackage WorldImport BootSequence BootWorld MemStore TurnSpec CampaignSpec BootSequenceSpec WorldPlanSpec.

Open Scope Z_scope.

(** ** The marker certifies the world *)

Section certificate.
Context {W : Type} `{Substrate, TimeText, HasGraph W, GraphStore W, Clock W, Minter W, Waits W, SceneGraph W,
  Publisher W, EntityEnvelope}.
Context `{!GraphStoreLaws W, !VocabularyLaws}.
Context (plan : Plan) (campaignID : string).
(** What queries can see of an entity, and what the index knows of a membership
    edge, target first. *)
Context (Born : string -> W -> Prop) (Edge : string -> string -> W -> Prop).

Definition is_marked (w : W) : Prop := exists s, marked campaignID (graph_of w) = Some [AString s].

Definition all_indexed (w : W) : Prop :=
  forall target sources, membershipEdges plan !! target = Some sources -> Forall (fun source => Edge target source w) sources.

Definition all_born (w : W) : Prop := Forall (fun id => Born id w) (Plan_IDs plan).

(** Every planned entity can be queried and every membership edge is indexed. *)
Definition whole (w : W) : Prop := all_born w /\ all_indexed w.

(** What a marker says to whoever finds it. It says nothing about the index,
    which every process rebuilds for itself. *)
Definition certified (w : W) : Prop := is_marked w -> all_born w.

(** What is seen once stays to be seen while the boot runs. *)
Definition lasting (w w' : W) : Prop :=
  (forall id, Born id w -> Born id w') /\ (forall target source, Edge target source w -> Edge target source w').

Definition onward (w w' : W) : Prop :=
  lasting w w' /\ (is_marked w -> is_marked w') /\ (certified w -> certified w').

#[export] Instance lasting_preorder : PreOrder lasting.
Proof. split; [done|]. intros w1 w2 w3 [? ?] [? ?]. split; eauto. Qed.
#[export] Instance onward_preorder : PreOrder onward.
Proof. split; [done|]. intros w1 w2 w3 (? & ? & ?) (? & ? & ?). split_and!; [by etransitivity|eauto..]. Qed.

Lemma born_lasting w w' : lasting w w' -> all_born w -> all_born w'.
Proof. intros [Hb _] Hall. eapply Forall_impl; [exact Hall|]. intros id. apply Hb. Qed.

Lemma whole_lasting w w' : lasting w w' -> whole w -> whole w'.
Proof.
  intros Hl [Hall Hi]. split; [by eapply born_lasting|].
  intros t ss Ht. eapply Forall_impl; [by apply (Hi t)|]. intros s. apply Hl.
Qed.

(** The surroundings of a boot: reads answer with what there is; nothing that
    is seen is unseen while the boot makes its calls; and whatever else happens
    while it publishes, waits or reads, another boot that marks the campaign
    marks one whose entities are born. *)
Class Surroundings : Prop := {
  sees_entities ids w : wp (GetEntities ids) (fun r w' => onward w w' /\
    forall batch, r = Ok batch -> br_Missing batch = [] -> Forall (fun id => Born id w') ids) w;
  sees_edges target w : wp (IncomingRelationships target) (fun r w' => onward w w' /\
    forall entries, r = Ok entries -> Forall (fun entry => ie_Predicate entry = membershipPredicate ->
      Edge target (ie_FromEntityID entry) w') entries) w;
  now_onward w : onward w (now w).2;
  pause_onward d w : onward w (pause d w).2;
  publish_onward subject wire w : onward w (PublishToStreamWithAck subject wire w).2;
  newSeed_onward w : onward w (newSeed w).2;
  GetEntity_lasting id w : lasting w (GetEntity id w).2;
  CreateEntity_lasting entity w : lasting w (CreateEntity CampaignBirthContract entity w).2;
  Reconcile_lasting triples w : lasting w (Reconcile CampaignImport campaignID triples w).2
}.
Context `{!Surroundings}.

(** A program that goes onward, and what holds when it answers. *)
Definition along {A} (m : MW W A) (F : A -> W -> Prop) (w : W) : Prop :=
  wp m (fun r w' => onward w w' /\ forall a, r = Ok a -> F a w') w.

Lemma along_ret {A} (a : A) (F : A -> W -> Prop) w : F a w -> along (mret a) F w.
Proof. intros ?. apply wp_ret. split; [done|]. by intros ? [= <-]. Qed.

Lemma along_throw {A} err (F : A -> W -> Prop) w : along (throw err) F w.
Proof. by apply wp_throw. Qed.

Lemma along_lift {A} (r : res A) (F : A -> W -> Prop) w : (forall a, r = Ok a -> F a w) -> along (lift r) F w.
Proof. intros Hr. apply wp_lift. by split. Qed.

Lemma along_bind {A B} (m : MW W A) (k : A -> MW W B) (F : A -> W -> Prop) (G : B -> W -> Prop) w :
  along m F w -> (forall a w', onward w w' -> F a w' -> along (k a) G w') -> along (a ← m; k a) G w.
Proof.
  unfold along in *. intros Hm Hk. apply wp_bind. eapply wp_mono; [exact Hm|]. intros [a|err] w1 [Ho HF]; [|done].
  eapply wp_mono; [by apply (Hk a w1 Ho), HF|]. intros r w2 [Ho2 HG]. split; [by etransitivity|done].
Qed.

Lemma along_mono {A} (m : MW W A) (F G : A -> W -> Prop) w : along m F w -> (forall a w', F a w' -> G a w') -> along m G w.
Proof. unfold along. intros Hm HFG. eapply wp_mono; [exact Hm|]. intros r w' [? ?]. split; [done|]. eauto. Qed.

Lemma along_wrapping {A} msg (m : MW W A) (F : A -> W -> Prop) w : along m F w -> along (wrapping msg m) F w.
Proof.
  unfold along, wp, wrapping. destruct (m w) as [[a|err] w']; cbn; [done|]. intros [? _]. by split.
Qed.

Lemma along_ran {A} (m : MW W A) (F : A -> W -> Prop) w : along m F w -> along m (fun a w' => F a w' /\ m w = (Ok a, w')) w.
Proof.
  unfold along, wp. destruct (m w) as [r w']. cbn [fst snd]. intros [Ho HF]. split; [done|]. intros a ->. split; [by apply HF|done].
Qed.

Lemma along_attempt {A} (m : MW W A) (F : A -> W -> Prop) w : along m F w -> along (attempt m) (fun r w' => forall a, r = Ok a -> F a w') w.
Proof. unfold along. intros Hm. apply wp_attempt. eapply wp_mono; [exact Hm|]. intros r w' [? ?]. split; [done|]. by intros ? [= <-]. Qed.

Lemma along_clock w : along read_clock (fun _ _ => True) w.
Proof. unfold along, wp, read_clock. pose proof (now_onward w). by destruct (now w). Qed.

Lemma along_reading {A} (m : MW W A) (F : A -> W -> Prop) w :
  lasting w (m w).2 -> wp m (fun r w' => graph_of w' = graph_of w /\ forall a, r = Ok a -> F a w') w -> along m F w.
Proof.
  intros Hl Hm. unfold along, wp in *. destruct (m w) as [r w']. cbn [fst snd] in *. destruct Hm as [Hg HF]. split; [|done].
  split_and!; [done| |]; unfold certified, is_marked; rewrite Hg; [done|]. intros Hc Hm. apply (born_lasting w); auto.
Qed.

Lemma along_GetEntity id w : along (GetEntity id) (fun e w' => graph_of w' !! id = Some e) w.
Proof.
  apply along_reading; [apply GetEntity_lasting|]. eapply wp_mono; [apply GetEntity_spec|].
  intros r w' [Hg Hr]. split; [done|]. intros e ->. by rewrite Hg.
Qed.

(** *** The gate *)

Lemma create_marks_nothing seed requested t g g' :
  create_effect (gate_entity campaignID seed requested t) g g' ->
  forall s, marked campaignID g' = Some [AString s] -> marked campaignID g = Some [AString s].
Proof.
  intros [->|(Hn & e & [_ Hb] & ->)] s; [done|]. cbn [ID gate_entity]. unfold marked, objects_in.
  rewrite lookup_insert_eq. cbn. intros [= Ho]. exfalso.
  assert (Hp : objectsFor e CampaignImportCompleted ≡ₚ []).
  { rewrite (Hb CampaignImportCompleted); [done|].
    intros Heq. apply EntityIndexingProfile_foreign. rewrite <- Heq. in_target. }
  rewrite Ho in Hp. by symmetry in Hp; apply Permutation_nil_cons in Hp.
Qed.

Lemma create_keeps_mark seed requested t g g' s :
  create_effect (gate_entity campaignID seed requested t) g g' ->
  marked campaignID g = Some [AString s] -> marked campaignID g' = Some [AString s].
Proof.
  intros [->|(Hn & e & _ & ->)]; [done|]. cbn [ID gate_entity] in *. unfold marked, objects_in. by rewrite Hn.
Qed.

Lemma along_create seed requested t w :
  along (CreateEntity CampaignBirthContract (gate_entity campaignID seed requested t)) (fun _ _ => True) w.
Proof.
  pose proof (CreateEntity_lasting (gate_entity campaignID seed requested t) w) as Hl.
  pose proof (CreateEntity_spec CampaignBirthContract (gate_entity campaignID seed requested t) w) as Hc.
  unfold along, wp in *. destruct (CreateEntity _ _ w) as [r w']. cbn [fst snd] in *.
  assert (He : create_effect (gate_entity campaignID seed requested t) (graph_of w) (graph_of w')).
  { destruct r as [[[e|] rev]|err]; [by apply Hc|done|by apply Hc]. }
  split; [|done]. split_and!; [done| |].
  - intros [s Hs]. exists s. by eapply create_keeps_mark.
  - intros Hcert [s Hs]. apply (born_lasting w); [done|]. apply Hcert. exists s. by eapply create_marks_nothing.
Qed.

Lemma along_Claim requested w : along (Claim campaignID requested) (fun _ _ => True) w.
Proof.
  unfold Claim. eapply along_bind; [by apply along_lift with (F := fun _ _ => True)|]. intros _ w1 _ _.
  eapply along_bind with (F := fun _ _ => True).
  { unfold along, wp. split; [apply newSeed_onward|done]. }
  intros seed w2 _ _. destruct (Seed_IsZero seed); [apply along_throw|].
  eapply along_bind; [apply along_clock|]. intros t w3 _ _.
  eapply along_bind; [apply along_attempt, along_create|]. intros [[stored rev]|err] w4 _ _.
  - eapply along_bind; [by apply along_lift with (F := fun _ _ => True)|]. intros _ w5 _ _. by apply along_ret.
  - destruct (errors_Is ErrEntityExists err); [|apply along_throw].
    eapply along_bind; [apply along_attempt, along_GetEntity|]. intros [e|err'] w5 _ _; [|apply along_throw].
    destruct (instantiationFromEntity _ _) as [[s x]|]; [|apply along_throw].
    case_bool_decide; [by apply along_ret|apply along_throw].
Qed.

Lemma along_completion w :
  along (ImportCompletion campaignID) (fun completion w' => snd completion = true -> is_marked w') w.
Proof.
  apply along_reading.
  - unfold ImportCompletion, mbind, M_bind. pose proof (GetEntity_lasting campaignID w).
    by destruct (GetEntity campaignID w) as [[e|] w1].
  - eapply wp_mono; [apply ImportCompletion_spec|]. intros r w' [Hg Hr]. split; [done|]. intros [t b] ->. cbn. intros ->.
    destruct Hr as (s & Hs & _). exists s. by rewrite Hg.
Qed.

Lemma along_await fuel wait poll w :
  along (AwaitImportCompletion campaignID fuel wait poll) (fun at_ w' => is_Some at_ -> is_marked w') w.
Proof.
  unfold AwaitImportCompletion. destruct (_ || _); [apply along_throw|].
  eapply along_bind; [apply along_clock|]. intros start w1 _ _. generalize (start + wait) as deadline. clear start w.
  revert w1. induction fuel as [|fuel IH]; intros w deadline; cbn [awaitLoop]; [apply along_ret; by intros [? ?]|].
  eapply along_bind; [apply along_completion|]. intros [t [|]] w1 _ Hm; [apply along_ret; auto|].
  eapply along_bind; [apply along_clock|]. intros u w2 _ _. destruct (negb _); [apply along_throw|].
  eapply along_bind with (F := fun _ _ => True); [split; [apply pause_onward|done]|]. intros _ w3 _ _. apply IH.
Qed.

Lemma along_mark claim w : whole w -> along (MarkImported campaignID claim) (fun _ w' => is_marked w') w.
Proof.
  intros Hw. unfold MarkImported. destruct (sealed _); [|apply along_throw].
  destruct (hasValidProof claim); [|apply along_throw]. destruct (i_Fresh claim); [|apply along_throw].
  destruct (String.eqb _ _); [|apply along_throw]. cbn [negb]. eapply along_bind; [apply along_clock|]. intros t w1 Ho _.
  assert (Hw1 : whole w1) by (eapply whole_lasting; [apply Ho|done]). set (ts := [_] : list Triple).
  eapply along_bind with (F := fun r w' => is_ok r = true -> is_marked w').
  - apply wp_attempt. pose proof (Reconcile_lasting ts w1) as Hl. pose proof (Reconcile_spec CampaignImport campaignID ts w1) as Hr.
    unfold wp in *. destruct (Reconcile CampaignImport campaignID ts w1) as [r w2]. cbn [fst snd] in *.
    assert (Hmark : reconcile_effect CampaignImport campaignID ts (graph_of w1) (graph_of w2) -> is_marked w2).
    { intros He. exists (FormatRFC3339Nano t). unfold marked. eapply reconcile_single; [exact He|in_target|reflexivity]. }
    assert (Hcases : graph_of w2 = graph_of w1 \/ is_marked w2).
    { destruct r as [e|err]; [right; by apply Hmark, Hr|]. destruct Hr as [->|He]; [by left|right; by apply Hmark]. }
    split.
    + split_and!; [done| |intros _ _; eapply born_lasting; [done|apply Hw1]].
      intros Hm. destruct Hcases as [Hg|]; [|done]. unfold is_marked. by rewrite Hg.
    + intros a [= <-]. destruct r as [e|err]; [|done]. intros _. by apply Hmark, Hr.
  - intros [e|err] w2 _ Hm; [|apply along_throw]. apply along_ret. by apply Hm.
Qed.

(** *** The readbacks *)

Lemma along_poll {A} (F : W -> Prop) (probe : MW W (option A)) late fuel deadline poll w :
  (forall w, along probe (fun left w' => left = None -> F w') w) ->
  along (poll_until probe late fuel deadline poll) (fun done_ w' => is_Some done_ -> F w') w.
Proof.
  intros Hprobe. eapply wp_mono; [apply (poll_until_rule onward F)|].
  - apply now_onward.
  - apply pause_onward.
  - intros w1. eapply wp_mono; [apply Hprobe|]. intros r w2 [Ho HF]. split; [done|]. intros Hr. by apply (HF None).
  - intros r w1 [Ho HF]. split; [done|]. intros a -> [u ->]. by apply (HF u).
Qed.

Lemma along_finished (F : W -> Prop) (m : MW W (option unit)) w :
  along m (fun done_ w' => is_Some done_ -> F w') w -> along (finished m) (fun _ w' => F w') w.
Proof.
  intros Hm. unfold finished. eapply along_bind; [exact Hm|]. intros [u|] w1 _ HF; [|apply along_throw].
  apply along_ret, HF. by eexists.
Qed.

Lemma along_missing target sources w :
  along (missingIncoming target sources)
    (fun missing w' => forall source, source ∈ sources -> source ∉ missing -> Edge target source w') w.
Proof.
  unfold missingIncoming. eapply along_bind; [apply along_attempt, sees_edges|]. intros [entries|err] w1 _ He.
  - specialize (He _ eq_refl). apply along_ret. intros source Hin Hout. rewrite Forall_forall in He.
    set (present := map ie_FromEntityID _) in Hout. destruct (mem source present) eqn:Hm.
    + apply mem_true, list_elem_of_fmap_1 in Hm as (entry & -> & Hentry).
      apply list_elem_of_In, filter_In in Hentry as [Hentry Hp%String.eqb_eq]. apply He; [by apply list_elem_of_In|done].
    + exfalso. apply Hout, list_elem_of_In, filter_In. split; [by apply list_elem_of_In|]. by rewrite Hm.
  - destruct (errors_Is _ _); [|apply along_throw]. apply along_ret. done.
Qed.

Lemma along_edges expected targets w :
  along (missing_edges expected targets)
    (fun pending w' => pending = [] -> forall target, target ∈ targets ->
       Forall (fun source => Edge target source w') (default [] (expected !! target))) w.
Proof.
  revert w. induction targets as [|target targets IH]; intros w; cbn [missing_edges].
  { apply along_ret. by intros _ target ?%not_elem_of_nil. }
  eapply along_bind; [apply along_missing|]. intros missing w1 _ Hfirst.
  eapply along_bind; [apply IH|]. intros more w2 Ho Hrest. apply along_ret. intros [Hm Hmore]%List.app_eq_nil.
  apply map_eq_nil in Hm. subst missing. intros t [->|Ht]%elem_of_cons; [|by apply Hrest].
  apply Forall_forall. intros source Hs. apply Ho, Hfirst; [done|]. apply not_elem_of_nil.
Qed.

Lemma along_indexed window w :
  along (engine_awaitMembershipIndexed plan window) (fun _ w' => all_indexed w') w.
Proof.
  unfold engine_awaitMembershipIndexed. apply along_finished. unfold awaitMembershipIndexed.
  destruct (decide _) as [|Hne]; [apply along_throw|]. eapply along_bind; [apply along_clock|]. intros start w1 _ _.
  apply along_poll. intros w2. eapply along_bind; [apply along_edges|]. intros pending w3 _ Hp.
  apply along_ret. destruct pending; [|done]. intros _ target sources Ht. specialize (Hp eq_refl target).
  rewrite Ht in Hp. apply Hp. unfold Sort. rewrite (merge_sort_Permutation string_le).
  apply (list_elem_of_fmap_2' fst _ (target, sources)); [by apply elem_of_map_to_list|done].
Qed.

Lemma along_born window w : along (engine_awaitEntitiesBorn plan window) (fun _ w' => all_born w') w.
Proof.
  unfold engine_awaitEntitiesBorn. apply along_finished. unfold awaitEntitiesBorn.
  eapply along_bind; [apply along_clock|]. intros start w1 _ _. apply along_poll. intros w2.
  eapply along_bind.
  { apply along_wrapping. eapply wp_mono; [apply sees_entities|]. intros r w3 [Ho Hb]. split; [exact Ho|].
    intros batch Hr. exact (Hb batch Hr). }
  intros batch w3 _ Hb. apply along_ret. cbn beta in Hb. destruct (br_Missing batch); [intros _; exact (Hb eq_refl)|done].
Qed.

(** *** The instantiation *)

Lemma along_publish importer recordedAt result prepared w : along (publish_all importer recordedAt result prepared) (fun _ _ => True) w.
Proof.
  revert result w. induction prepared as [|[id wire] prepared IH]; intros result w; cbn [publish_all]; [by apply along_ret|].
  eapply along_bind with (F := fun _ _ => True).
  { apply wp_attempt. split; [apply publish_onward|done]. }
  intros [ack|err] w1 _ _; [apply IH|by apply along_ret].
Qed.

Lemma along_import marshal importer p w : along (Importer_Import marshal importer p) (fun _ _ => True) w.
Proof.
  unfold Importer_Import. destruct p as [p|]; [|by apply along_ret]. destruct (Nat.eqb _ _); [by apply along_ret|].
  destruct (requireResolvedSeal _ _); [|by apply along_ret]. eapply along_bind; [apply along_clock|]. intros t w1 _ _.
  destruct (prepare _ _ _); [apply along_publish|by apply along_ret].
Qed.

(** The boot that imports writes the marker on a world it has read back whole. *)
Definition marks_whole (claim : Instantiation) (w' : W) : Prop :=
  exists w1 t w2, whole w1 /\ MarkImported campaignID claim w1 = (Ok t, w2) /\ onward w2 w'.

Lemma along_importWorld marshal importer window claim w :
  along (importWorld marshal plan campaignID importer window claim) (fun _ w' => is_marked w' /\ marks_whole claim w') w.
Proof.
  unfold importWorld. eapply along_bind; [apply along_import|]. intros [result [err|]] w1 _ _; [apply along_throw|]. cbn [snd].
  eapply along_bind; [apply along_born|]. intros u w2 _ Hb. cbn beta in Hb.
  eapply along_bind; [apply along_indexed|]. intros v w3 Ho Hi. cbn beta in Hi.
  assert (Hw : whole w3) by (split; [by eapply born_lasting; [apply Ho|]|done]).
  eapply along_bind; [by apply along_ran, along_mark|]. intros t w4 Ho4 [Hm Hrun]. apply along_ret. split; [done|].
  by exists w3, t, w4.
Qed.

Lemma along_claimant window markerWait w : along (await_claimant campaignID window markerWait) (fun _ w' => is_marked w') w.
Proof.
  unfold await_claimant. eapply along_bind; [apply along_completion|]. intros [t [|]] w1 _ Hm; cbn [snd] in *.
  { apply along_ret. by apply Hm. }
  apply along_finished. eapply along_bind; [apply along_await|]. intros [at_|] w2 _ Ha; apply along_ret; [|by intros [? ?]].
  intros _. apply Ha. by eexists.
Qed.

Lemma along_instantiate marshal importer window markerWait w : certified w ->
  along (instantiate marshal plan campaignID importer window markerWait)
    (fun outcome w' => snd outcome = Ok tt ->
       is_marked w' /\ whole w' /\ (i_Fresh (fst outcome) = true -> marks_whole (fst outcome) w')) w.
Proof.
  intros Hc. unfold instantiate. eapply along_bind; [apply along_wrapping, along_Claim|]. intros claim w1 Ho1 _.
  assert (Hc1 : certified w1) by (by apply Ho1).
  eapply along_bind.
  { apply along_attempt. eapply along_bind with (F := fun _ w' => is_marked w' /\ (i_Fresh claim = true -> marks_whole claim w')).
    { destruct (i_Fresh claim).
      - eapply along_mono; [apply along_importWorld|]. by intros _ w2 [? ?].
      - eapply along_mono; [apply along_claimant|]. intros u0 w2 Hm. by split. }
    intros u0 w2 Ho2 [Hm Hmarks]. eapply wp_mono; [apply along_indexed|]. intros r w3 [Ho3 Hi]. split; [exact Ho3|].
    intros u Hr. instantiate (1 := fun _ w' => is_marked w' /\ whole w' /\ (i_Fresh claim = true -> marks_whole claim w')).
    cbn beta. assert (Hm3 : is_marked w3) by (by apply Ho3). split_and!; [done| |].
    - split; [|by apply (Hi u)]. apply Ho3; [|done]. by apply Ho2.
    - intros Hf. destruct (Hmarks Hf) as (w4 & t & w5 & Hw & Hrun & Ho5). exists w4, t, w5. split_and!; [done..|by etransitivity]. }
  intros rest w2 _ Hr. apply along_ret. cbn. intros ->. by apply (Hr tt).
Qed.

(** C30: However an instantiation ends - claimed or found claimed, imported or
    waited for, failed anywhere between - a campaign whose marker, if it had one,
    certified that every planned entity can be queried is left as such a
    campaign, provided that what queries and the index show once they go on
    showing while this boot runs, and that another boot marks meanwhile only
    after the births. A boot that goes on has such a marker and has read from the
    index every membership edge the plan declares, whatever the index held
    before - a marker that was already there excuses it from nothing; and when
    the claim was its own, it wrote the marker itself, on a world it had read
    back whole: born and indexed. *)
Theorem import_marker_certifies_the_world marshal importer window markerWait (w : W) r w'
    (Hcertified : certified w)
    (Hrun : instantiate marshal plan campaignID importer window markerWait w = (r, w')) :
  certified w' /\
  (forall claim, r = Ok (claim, Ok tt) -> is_marked w' /\ whole w' /\ (i_Fresh claim = true -> marks_whole claim w')).
Proof.
  pose proof (along_instantiate marshal importer window markerWait w Hcertified) as Ha. unfold along in Ha.
  destruct (wp_elim _ _ _ _ _ Ha Hrun) as [Ho Hr].
  split; [by apply Ho|]. intros claim Heq. by apply (Hr _ Heq).
Qed.
End certificate.

(** ** The readbacks end *)

Section ending.
Context {W : Type} `{GraphStore W, Clock W, Waits W, SceneGraph W, !TimerLaws W}.

(** Reading back takes no time away. *)
Class ReadbackTimes : Prop := {
  GetEntities_instant ids w : instant w <= instant (GetEntities ids w).2;
  IncomingRelationships_instant id w : instant w <= instant (IncomingRelationships id w).2 }.
Context `{!ReadbackTimes}.

Lemma missing_edges_instant expected targets w : instant w <= instant (missing_edges expected targets w).2.
Proof.
  revert w. induction targets as [|target targets IH]; intros w; cbn [missing_edges]; [cbn; lia|].
  unfold mbind, M_bind, missingIncoming at 1, attempt. cbn.
  pose proof (IncomingRelationships_instant target w) as Hi.
  unfold mbind, M_bind. destruct (IncomingRelationships target w) as [[entries|err] w1]; cbn [fst snd] in *.
  - cbn. specialize (IH w1). destruct (missing_edges expected targets w1) as [[more|err] w2]; cbn in *; lia.
  - destruct (errors_Is ErrIndexNotReady err); cbn; [|lia].
    specialize (IH w1). destruct (missing_edges expected targets w1) as [[more|err'] w2]; cbn in *; lia.
Qed.

(** With the polls a window leaves room for, no readback of the boot is still
    polling when its fuel ends: it is answered or it fails. *)
Theorem boot_readbacks_end ids expected window (w : W)
    (Hpoll : 0 < win_poll window) (Htimeout : 0 <= win_timeout window) :
  (awaitEntitiesBorn (polls window) ids window w).1 <> Ok None /\
  (awaitMembershipIndexed (polls window) expected window w).1 <> Ok None.
Proof.
  split.
  - apply (window_ends (W := W)); [|done..]. intros w1. unfold wrapping, mbind, M_bind.
    pose proof (GetEntities_instant ids w1). by destruct (GetEntities ids w1) as [[batch|err] w2].
  - unfold awaitMembershipIndexed. destruct (decide _); [done|]. apply (window_ends (W := W)); [|done..].
    intros w1. unfold mbind, M_bind. pose proof (missing_edges_instant expected (Sort (map fst (map_to_list expected))) w1).
    by destruct (missing_edges _ _ w1) as [[pending|err] w2].
Qed.
End ending.

Module BootDemo.

(** The in-memory world, its graph the room of a plan's entities: queries and
    the index answer from it, and a publication changes nothing. *)
Definition demo_edges (g : graph) (target : string) : list IncomingEntry :=
  flat_map (fun entry => map (fun t => {| ie_FromEntityID := entry.1; ie_Predicate := Predicate t |})
    (List.filter (fun t => String.eqb (Predicate t) membershipPredicate && bool_decide (Object t = AString target))
       (Triples entry.2))) (map_to_list g).

#[export] Instance boot_scene : SceneGraph World := {|
  GetEntities ids w :=
    (Ok {| br_Entities := omap (fun id => w_graph w !! id) ids;
           br_Missing := map (fun id => {| me_ID := id; me_Reason := "not found" |})
                           (List.filter (fun id => negb (bool_decide (is_Some (w_graph w !! id)))) ids) |}, w);
  IncomingRelationships target w := (Ok (demo_edges (w_graph w) target), w) |}.

#[export] Instance boot_envelope : EntityEnvelope := {| marshal_entity _ entity _ _ := Ok (we_ID entity) |}.
#[export] Instance boot_publisher : Publisher World := {| PublishToStreamWithAck _ _ w := (Ok (Some 1), w) |}.

Definition Born (id : string) (w : World) : Prop := is_Some (w_graph w !! id).
Definition Edge (target source : string) (w : World) : Prop :=
  exists l, objects_in (w_graph w) source membershipPredicate = Some l /\ AString target ∈ l.

Definition campaign_id : string := "acme.semmachina.alpha.tower.campaign.main".

Lemma same_graph plan (w w' : World) : w_graph w' = w_graph w -> onward plan campaign_id Born Edge w w'.
Proof.
  intros Hg. unfold onward, certified, all_born, is_marked, lasting, Born, Edge.
  change (graph_of w') with (w_graph w'). change (graph_of w) with (w_graph w). rewrite Hg. done.
Qed.

Lemma create_lasting want (w w' : World) : create_effect want (w_graph w) (w_graph w') -> lasting Born Edge w w'.
Proof.
  intros [Hg|(Hn & e & _ & Hg)]; unfold lasting, Born, Edge; rewrite Hg; [done|]. split.
  - intros id [x Hx]. rewrite lookup_insert. case_decide; [done|by eexists].
  - intros target source (l & Hl & Hin). exists l. split; [|done]. unfold objects_in in *.
    rewrite lookup_insert. case_decide as Heq; [|done]. by rewrite <- Heq, Hn in Hl.
Qed.

Lemma mark_lasting ts (w w' : World) : reconcile_effect CampaignImport campaign_id ts (w_graph w) (w_graph w') ->
  lasting Born Edge w w'.
Proof.
  intros He. assert (Hk : keeps membershipPredicate (w_graph w) (w_graph w')) by (eapply reconcile_keeps; [exact He|not_in_target]).
  destruct He as (e0 & e & Hg0 & _ & Hg). split.
  - intros id [x Hx]. unfold Born. rewrite Hg, lookup_insert. case_decide; [done|by eexists].
  - intros target source (l & Hl & Hin). exists l. split; [|done]. by rewrite Hk.
Qed.

#[export] Instance boot_surroundings plan : Surroundings plan campaign_id Born Edge.
Proof.
  split.
  - intros ids w. unfold wp. cbn. split; [by apply same_graph|]. intros batch [= <-]. cbn. intros Hm%map_eq_nil.
    apply Forall_forall. intros id Hin. destruct (decide (is_Some (w_graph w !! id))) as [|Hn]; [done|exfalso].
    assert (Hx : In id []); [|done]. rewrite <- Hm. apply filter_In. split; [by apply list_elem_of_In|].
    by rewrite bool_decide_false.
  - intros target w. unfold wp. cbn. split; [by apply same_graph|]. intros entries [= <-]. apply Forall_forall.
    intros entry Hin _. apply list_elem_of_In, in_flat_map in Hin as ([id e] & Hid & Hin). cbn in Hin.
    apply in_map_iff in Hin as (t & <- & Ht). apply filter_In in Ht as [Ht Hp]. cbn.
    apply andb_true_iff in Hp as [Hp%String.eqb_eq Ho%bool_decide_eq_true].
    apply list_elem_of_In, elem_of_map_to_list in Hid. exists (objectsFor e membershipPredicate). split.
    + unfold objects_in. by rewrite Hid.
    + unfold objectsFor. rewrite <- Ho. apply list_elem_of_fmap_2, elem_of_triplesFor. split; [by apply list_elem_of_In|done].
  - intros w. by apply same_graph.
  - intros d w. by apply same_graph.
  - intros subject wire w. by apply same_graph.
  - intros w. by apply same_graph.
  - intros id w. pose proof (GetEntity_spec id w) as [Hg _]. by apply (same_graph plan).
  - intros entity w. pose proof (CreateEntity_spec CampaignBirthContract entity w) as Hc. unfold wp in Hc.
    destruct (CreateEntity CampaignBirthContract entity w) as [[[[e|] rev]|err] w']; cbn [fst snd] in *;
      (eapply create_lasting; by apply Hc).
  - intros ts w. pose proof (Reconcile_spec CampaignImport campaign_id ts w) as Hr. unfold wp in Hr.
    destruct (Reconcile CampaignImport campaign_id ts w) as [[e|err] w']; cbn [fst snd] in *.
    + eapply mark_lasting. by apply Hr.
    + destruct Hr as [Hg|He]; [by apply (same_graph plan)|by eapply mark_lasting].
Qed.

#[export] Instance boot_times : ReadbackTimes (W := World).
Proof. split; intros; change (w_clock w <= w_clock w); lia. Qed.

(** A graph that holds the plan's entities with their membership, and no campaign. *)
Definition as_triple (id : string) (fact : WorldFact) : Triple := {|
  Subject := id; Predicate := wf_Predicate fact; Object := wf_Object fact; Source := EmptyString; Timestamp := 0;
  Confidence := float_one; Context_ := EmptyString; Datatype := EmptyString; ExpiresAt := None |}.
Definition as_entity (e : PlannedEntity) : EntityState :=
  mkEntity (pn_ID e) CampaignEntityMessageType 1 0 None (map (as_triple (pn_ID e)) (pn_Facts e)).
Definition alpha : Plan := WorldDemo.plan "alpha".
Definition room : graph := list_to_map (map (fun e => (pn_ID e, as_entity e)) (ps_Entities (pl_Wire alpha))).
Definition before : World := mkWorld room 10 [] [].
Definition brief : readinessWindow := {| win_timeout := 10; win_poll := 3 |}.
Definition lane : Importer := {| im_subject := DefaultImportSubject; im_source := ImportSource |}.

Definition imported : res (Instantiation * res unit) * World :=
  instantiate WorldDemo.demo_marshal alpha campaign_id lane brief 20 before.

(** The next process boots on what the first left. *)
Definition rebooted : res (Instantiation * res unit) * World :=
  instantiate WorldDemo.demo_marshal alpha campaign_id lane brief 20 imported.2.

Lemma unclaimed : certified alpha campaign_id Born before.
Proof. intros [s Hs]. vm_compute in Hs. discriminate Hs. Qed.
End BootDemo.
Import BootDemo.

(** The first boot imports and marks; the second finds the marker, and reads the
    index all the same. *)
Lemma import_marker_certifies_the_world_witness :
  (exists claim, imported.1 = Ok (claim, Ok tt) /\ i_Fresh claim = true /\
     marks_whole alpha campaign_id Born Edge claim imported.2) /\
  (exists claim, rebooted.1 = Ok (claim, Ok tt) /\ i_Fresh claim = false) /\
  is_marked campaign_id rebooted.2 /\ whole alpha Born Edge rebooted.2 /\
  membershipEdges alpha !! "acme.semmachina.alpha.tower.location.gatehouse"%string =
    Some ["acme.semmachina.alpha.tower.character.rook"%string].
Proof.
  assert (Hok : exists claim, imported.1 = Ok (claim, Ok tt) /\ i_Fresh claim = true).
  { eexists. split; vm_compute; reflexivity. }
  assert (Hagain : exists claim, rebooted.1 = Ok (claim, Ok tt) /\ i_Fresh claim = false).
  { eexists. split; vm_compute; reflexivity. }
  destruct (import_marker_certifies_the_world alpha campaign_id Born Edge WorldDemo.demo_marshal lane brief 20 before
    imported.1 imported.2 unclaimed (surjective_pairing _)) as [Hcert Hwhole].
  destruct Hok as (claim & Hclaim & Hf). destruct (Hwhole claim Hclaim) as (_ & _ & Hmarks).
  split; [exists claim; split; [exact Hclaim|]; split; [exact Hf|exact (Hmarks Hf)]|]. split; [exact Hagain|].
  destruct (import_marker_certifies_the_world alpha campaign_id Born Edge WorldDemo.demo_marshal lane brief 20 imported.2
    rebooted.1 rebooted.2 Hcert (surjective_pairing _)) as [_ Hwhole'].
  destruct Hagain as (claim' & Hclaim' & _). destruct (Hwhole' claim' Hclaim') as (Hm & Hw & _).
  split; [exact Hm|]. split; [exact Hw|vm_compute; reflexivity].
Defined.

Lemma boot_readbacks_end_witness :
  (awaitEntitiesBorn (polls brief) ["nobody"%string] brief before).1 <> Ok None /\
  is_ok (awaitEntitiesBorn (polls brief) ["nobody"%string] brief before).1 = false.
Proof.
  split; [|vm_compute; reflexivity].
  assert (Hpoll : 0 < win_poll brief) by done. assert (Htimeout : 0 <= win_timeout brief) by done.
  exact (proj1 (boot_readbacks_end ["nobody"%string] ∅ brief before Hpoll Htimeout)).
Defined.
