(* ===== verification/BootEngineSpec.v ===== *)
(** What the engine's own boot promises: its steps come in the order their
    prerequisites ask for, ingress opens after all of them, no action is
    consumed before the import marker was read, the composed components have
    one writer of the graph, and a stop unwinds the start. *)

From S2P Require Import Prelude GoStd GoErrors Graph Vocab Vocabulary Payload ContentRecords ContentStore Store Campaign WorldEntity Sequencing RulePack GraphIO Turn Caseflow Ledger Scene Persona PlayerSocket WorldTemplate WorldRules WorldPackage WorldImport Spawn BootSequence BootRules BootWorld BootEngine MemStore TurnSpec CampaignSpec BootSequenceSpec WorldPlanSpec BootWorldSpec.

Open Scope Z_scope.

(** ** Component manifests *)

Definition ports_of (d : Discoverable) : list Port := dc_InputPorts d ++ dc_OutputPorts d.
Definition mutation_port (port : Port) : bool := match pt_Facts port with Ok facts => isMutation facts | Err _ => false end.
Definition sound_port (port : Port) : Prop :=
  exists facts, pt_Facts port = Ok facts /\ (isMutation facts = true -> canonical_port port facts = true).
Definition provides (port : Port) : bool := mutation_port port && pt_IsInput port.
Definition count {A} (f : A -> bool) (l : list A) : nat := List.length (List.filter f l).

Lemma port_providers_iff port n :
  port_providers port = Ok n <-> sound_port port /\ n = (if provides port then 1%nat else O).
Proof.
  unfold port_providers, sound_port, provides, mutation_port. destruct (pt_Facts port) as [facts|err]; cbn.
  2: { split; [done|]. by intros [(? & ? & _) _]. }
  destruct (isMutation facts) eqn:Hm; cbn.
  2: { split; [intros [= <-]; split; [exists facts; split; congruence|done]|]. by intros [_ ->]. }
  destruct (canonical_port port facts) eqn:Hc; cbn.
  - split; [intros [= <-]; split; [by exists facts|done]|]. by intros [_ ->].
  - split; [done|]. intros [(f & [= <-] & Hf) _]. specialize (Hf Hm). congruence.
Qed.

Lemma sum_ok_iff {A} (f : A -> res nat) (P : A -> Prop) (g : A -> bool) l n :
  (forall x n, f x = Ok n <-> P x /\ n = (if g x then 1%nat else O)) ->
  sum_ok f l = Ok n <-> Forall P l /\ n = count g l.
Proof.
  intros Hf. revert n. induction l as [|x l IH]; intros n; cbn [sum_ok].
  { unfold count. cbn. split; [intros [= <-]; by split|]. by intros [_ ->]. }
  rewrite result_bind_ok, Forall_cons. unfold count in *. cbn [List.filter]. split.
  - intros (a & [Hx ->]%Hf & (b & [Hl ->]%IH & [= <-])%result_bind_ok). split; [done|]. by destruct (g x).
  - intros [[Hx Hl] ->]. eexists. split; [apply Hf; split; [exact Hx|reflexivity]|]. apply result_bind_ok.
    eexists. split; [apply IH; split; [exact Hl|reflexivity]|]. by destruct (g x).
Qed.

Lemma count_app {A} (f : A -> bool) l1 l2 : count f (l1 ++ l2) = (count f l1 + count f l2)%nat.
Proof. unfold count. by rewrite List.filter_app, length_app. Qed.

Definition all_ports (components : list (string * Discoverable)) : list Port := flat_map (fun c => ports_of c.2) components.

Lemma count_providers_iff seen components counts :
  count_providers seen components = Ok counts <->
  NoDup (map fst components) /\ (forall name, name ∈ map fst components -> name ∉ seen) /\
  Forall sound_port (all_ports components) /\
  counts = (count provides (all_ports components), count (fun c => dc_IsStoreProvider c.2) components).
Proof.
  revert seen counts. induction components as [|[name d] components IH]; intros seen counts; cbn [count_providers].
  { unfold count. cbn. split; [intros [= <-]; split_and!; [constructor|set_solver|constructor|done]|]. by intros (_ & _ & _ & ->). }
  cbn [map fst all_ports flat_map snd]. rewrite NoDup_cons, Forall_app. fold (all_ports components).
  destruct (decide (name ∈ seen)) as [Hin|Hout].
  { split; [done|]. intros (_ & Hall & _). by destruct (Hall name); [left|]. }
  rewrite result_bind_ok. rewrite count_app. split.
  - intros (n & [Hp ->]%(sum_ok_iff _ sound_port provides _ _ port_providers_iff) & Hr).
    apply result_bind_ok in Hr as (c & (Hnd & Hfresh & Hs & ->)%IH & [= <-]). cbn. split_and!; [set_solver|done|set_solver|done|done|].
    unfold ports_of, count. cbn. by destruct (dc_IsStoreProvider d).
  - intros ([Hn Hnd] & Hfresh & [Hp Hs] & ->). eexists. split.
    { apply (sum_ok_iff _ sound_port provides _ _ port_providers_iff). split; [exact Hp|reflexivity]. }
    apply result_bind_ok. eexists. split; [apply IH; split_and!; [done|set_solver|done|reflexivity]|]. cbn.
    unfold ports_of, count. cbn. by destruct (dc_IsStoreProvider d).
Qed.

(** The composed components are admitted exactly when no name appears twice
    among the managers, every port resolves, every port that touches graph
    mutations is the canonical required one, one input port takes them and one
    component provides storage - whichever order the maps are walked in. *)
Theorem admitted_components_have_one_graph_writer groups :
  let components := concat groups in
  validateUnionComponents groups = Ok tt <->
  NoDup (map fst components) /\ Forall sound_port (all_ports components) /\
  count provides (all_ports components) = 1%nat /\ count (fun c => dc_IsStoreProvider c.2) components = 1%nat.
Proof.
  cbn zeta. unfold validateUnionComponents. rewrite result_bind_ok. split.
  - intros (counts & (Hnd & _ & Hs & ->)%count_providers_iff & Hr). cbn [fst snd] in Hr.
    destruct (Nat.eqb_spec (count provides (all_ports (concat groups))) 1) as [H1|]; [|done]. cbn [negb] in Hr.
    destruct (Nat.eqb_spec (count (fun c => dc_IsStoreProvider c.2) (concat groups)) 1) as [H2|]; [|done]. done.
  - intros (Hnd & Hs & H1 & H2). eexists. split.
    { apply count_providers_iff. split_and!; [done|set_solver|done|reflexivity]. }
    cbn [fst snd]. by rewrite H1, H2.
Qed.

(** ** The engine's sequence *)

Definition table {W} (steps : list (Step W)) : list (string * list string) := map (fun step => (st_ID step, st_Needs step)) steps.

(** The prerequisites an entry of the table states, and what a chain of at most
    [n] of them leads to. *)
Definition needs_in (t : list (string * list string)) (id : string) : list string :=
  match List.find (fun entry => String.eqb entry.1 id) t with Some entry => entry.2 | None => [] end.

Fixpoint grow (n : nat) (t : list (string * list string)) (ids : list string) : list string :=
  match n with O => ids | S n => ids ++ flat_map (needs_in t) (grow n t ids) end.

(** Whether a table is one the constructor accepts, and whether it is in order. *)
Definition table_accepted (t : list (string * list string)) : bool :=
  let ids := map fst t in
  negb (Nat.eqb (List.length t) 0) && bool_decide (NoDup ids) && negb (mem EmptyString ids) &&
  forallb (fun entry => forallb (fun need => negb (String.eqb need entry.1) && mem need ids) entry.2) t.

Fixpoint table_ordered (done : list string) (t : list (string * list string)) : bool :=
  match t with
  | [] => true
  | (id, needs) :: rest => forallb (fun need => mem need done) needs && table_ordered (id :: done) rest
  end.

Lemma table_ordered_from {W} (steps : list (Step W)) done_ (l : list string) :
  (forall x, x ∈ l -> x ∈ done_) -> table_ordered l (table steps) = true -> ordered_from done_ steps = true.
Proof.
  revert done_ l. induction steps as [|step steps IH]; intros d l Hsub; cbn; [done|].
  rewrite !andb_true_iff, !forallb_forall. intros [Hn Ho]. split; [|eapply IH, Ho; set_solver].
  intros need Hin. apply bool_decide_eq_true, Hsub, mem_true. by apply Hn.
Qed.

Lemma declare_steps_accepts {W} (steps : list (Step W)) declared :
  NoDup (map st_ID steps) -> EmptyString ∉ map st_ID steps -> (forall id, id ∈ map st_ID steps -> id ∉ declared) ->
  Forall (fun step => is_Some (st_Run step)) steps ->
  declare_steps steps declared = Ok (declared ∪ list_to_set (map st_ID steps)).
Proof.
  revert declared. induction steps as [|step steps IH]; intros declared Hnd Hne Hfresh Hrun; cbn.
  { f_equal. set_solver. }
  cbn in Hnd, Hne, Hfresh. apply NoDup_cons in Hnd as [Hn Hnd]. apply Forall_cons in Hrun as [[run Hr] Hrun].
  destruct (String.eqb_spec (st_ID step) EmptyString); [set_solver|]. destruct (decide _); [set_solver|].
  rewrite Hr, IH; [f_equal; set_solver|done|set_solver|set_solver|done].
Qed.

Lemma NewSequence_accepts {W} (steps : list (Step W)) :
  table_accepted (table steps) = true -> Forall (fun step => is_Some (st_Run step)) steps ->
  NewSequence steps = Ok {| sq_steps := steps; sq_done := ∅; sq_completed := [] |}.
Proof.
  intros Ht Hrun. unfold table_accepted in Ht.
  assert (Hids : map fst (table steps) = map st_ID steps) by (unfold table; by rewrite map_map). rewrite Hids in Ht.
  repeat apply andb_true_iff in Ht as [Ht ?]. unfold NewSequence, table in *. rewrite length_map in Ht.
  apply negb_true_iff in Ht. rewrite Ht.
  match goal with Hm : negb (mem _ _) = true |- _ => apply negb_true_iff, mem_false in Hm; rename Hm into Hne end.
  match goal with Hm : bool_decide _ = true |- _ => apply bool_decide_eq_true in Hm; rename Hm into Hnd end.
  match goal with Hm : forallb _ _ = true |- _ => rename Hm into Hneeds end.
  rewrite declare_steps_accepts by (done || set_solver). cbn [mbind result_bind].
  assert (Hall : all_ok (check_needs (∅ ∪ list_to_set (map st_ID steps))) steps = Ok tt); [|by rewrite Hall].
  apply all_ok_Forall, Forall_forall. intros step Hin. unfold check_needs. apply all_ok_Forall, Forall_forall.
  intros need Hneed. rewrite forallb_forall in Hneeds.
  specialize (Hneeds (st_ID step, st_Needs step)). cbn in Hneeds. rewrite forallb_forall in Hneeds.
  assert (Hx : In (st_ID step, st_Needs step) (map (fun step => (st_ID step, st_Needs step)) steps)).
  { apply in_map_iff. exists step. split; [done|]. by apply list_elem_of_In. }
  specialize (Hneeds Hx need (proj1 (list_elem_of_In _ _) Hneed)). apply andb_true_iff in Hneeds as [Hself Hdecl].
  apply negb_true_iff in Hself. rewrite Hself. apply mem_true in Hdecl. destruct (decide _); [done|set_solver].
Qed.

Section engine.
Context {W : Type} `{Substrate, TimeText, AgenticRules, Semver, WorldRuleEngine, PersonaRecords, RuleRuntime,
  RuleValidator, GraphStore W, Clock W, Minter W, Waits W, SceneGraph W, Publisher W, EntityEnvelope, Ctx W,
  BootStreams W, RuleStatus W, ComponentManagers W, !BootServices W, BootParts W}.
Context (marshal : planSealWire -> res string) (cfg : Config) (lw : LoadedWorld) (importer : Importer)
  (pack : res (list Definition_)).

Abbreviation engine_steps := (steps marshal cfg lw importer pack).
Abbreviation EW := (Engine * W)%type.

(** The prerequisites of the engine's steps. *)
Definition engine_table : list (string * list string) :=
  Eval cbv [table map steps plain checked st_ID st_Needs] in table engine_steps.

Lemma engine_table_is : table engine_steps = engine_table.
Proof. reflexivity. Qed.

Lemma find_step (steps : list (Step EW)) step : NoDup (map st_ID steps) -> step ∈ steps ->
  needs_in (table steps) (st_ID step) = st_Needs step.
Proof.
  unfold needs_in. induction steps as [|s steps IH]; intros Hnd Hin; [by apply not_elem_of_nil in Hin|].
  cbn in Hnd |- *. apply NoDup_cons in Hnd as [Hn Hnd]. apply elem_of_cons in Hin as [->|Hin]; [by rewrite String.eqb_refl|].
  destruct (String.eqb_spec (st_ID s) (st_ID step)) as [Heq|]; [|by apply IH].
  exfalso. apply Hn. rewrite Heq. by apply list_elem_of_fmap_2.
Qed.

(** What completed before a completed step includes all that any chain of
    prerequisites leads to. *)
Lemma grow_completed n (s : Sequence EW) (pre : list string) (id : string) (post : list string) :
  respects s -> NoDup (map st_ID (sq_steps s)) -> sq_completed s = pre ++ id :: post ->
  Forall (fun x => x ∈ pre) (grow n (table (sq_steps s)) (needs_in (table (sq_steps s)) id)).
Proof.
  intros (_ & _ & Hpre) Hnd Hc.
  assert (Hneeds : forall pre' id' post', sq_completed s = pre' ++ id' :: post' ->
    Forall (fun x => x ∈ pre') (needs_in (table (sq_steps s)) id')).
  { intros pre' id' post' Hc'. destruct (Hpre pre' id' post' Hc') as (step & Hin & <- & Hall).
    by rewrite find_step. }
  induction n as [|n IH]; cbn [grow]; [by eapply Hneeds|]. apply Forall_app. split; [by eapply Hneeds|].
  apply Forall_forall. intros x Hx. apply list_elem_of_In, in_flat_map in Hx as (y & Hy & Hx).
  rewrite Forall_forall in IH. apply list_elem_of_In, IH, list_elem_of_split in Hy as (p1 & p2 & ->).
  rewrite <- app_assoc in Hc. cbn in Hc. pose proof (Hneeds p1 y (p2 ++ id :: post) Hc) as Hall.
  rewrite Forall_forall in Hall. apply elem_of_app. left. apply Hall. by apply list_elem_of_In.
Qed.

Lemma engine_sequence : NewSequence engine_steps = Ok {| sq_steps := engine_steps; sq_done := ∅; sq_completed := [] |}.
Proof.
  apply NewSequence_accepts; [rewrite engine_table_is; vm_compute; reflexivity|].
  unfold steps. repeat (apply Forall_cons; split; [by eexists|]). apply Forall_nil_2.
Qed.

(** C31: Whatever the parts of an engine do, its sequence is accepted and no run of
    it is refused for its order, wherever it resumes; and once ingress is open,
    every other step has completed, each after all it requires. *)
Theorem engine_boots_in_the_order_of_its_needs :
  exists s0, NewSequence engine_steps = Ok s0 /\
    (forall last s ew, Sequence_Steps s = engine_steps -> ~ order_refusal (RunThrough last (s, ew)).1) /\
    forall ew0 s ew, rtc boot_step (s0, ew0) (s, ew) -> StepIngress ∈ Completed s ->
      exists pre, Completed s = pre ++ [StepIngress] /\ pre ++ [StepIngress] ≡ₚ map st_ID engine_steps.
Proof.
  eexists. split; [exact engine_sequence|]. pose proof (NewSequence_ok _ _ engine_sequence) as (_ & Hnd & _ & _ & _). split.
  - intros last s ew Hs. apply (ordered_is_not_refused _ _ engine_sequence); [|done].
    apply (table_ordered_from _ _ []); [by intros x ?%not_elem_of_nil|]. rewrite engine_table_is. vm_compute. reflexivity.
  - intros ew0 s ew Hrun Hin.
    assert (Hinit : respects {| sq_steps := engine_steps; sq_done := ∅; sq_completed := [] |}).
    { split_and!; cbn; [constructor|set_solver|]. intros pre id post Heq. by destruct pre. }
    apply boot_run_respects in Hrun as [Hs Hst]; [|done]. cbn in Hs, Hst.
    apply list_elem_of_split in Hin as (pre & post & Hc). unfold Completed in *.
    pose proof (grow_completed 8 s pre StepIngress post Hs ltac:(by rewrite Hst) Hc) as Hall.
    rewrite Hst, engine_table_is in Hall.
    assert (Hids : map st_ID engine_steps = map fst engine_table) by reflexivity.
    assert (Hbefore : Forall (fun x => x ∈ pre) (removelast (map st_ID engine_steps))).
    { rewrite Hids. rewrite Forall_forall in Hall |- *. intros x Hx. apply Hall. revert x Hx.
      apply Forall_forall, (bool_decide_eq_true _). vm_compute. reflexivity. }
    destruct Hs as (Hnd' & _ & Hpre). rewrite Hst in Hpre.
    assert (Hdecl : forall id, id ∈ sq_completed s -> id ∈ map st_ID engine_steps).
    { intros id (p & q & Hid)%list_elem_of_split. destruct (Hpre p id q Hid) as (step & Hin & <- & _). by apply list_elem_of_fmap_2. }
    assert (Hsplit : map st_ID engine_steps = removelast (map st_ID engine_steps) ++ [StepIngress]) by reflexivity.
    assert (Hpost : post = []).
    { destruct post as [|p post]; [done|exfalso]. rewrite Hc in Hnd'. apply NoDup_app in Hnd' as (_ & Hdisj & Hnd').
      assert (Hp : p ∈ map st_ID engine_steps) by (apply Hdecl; rewrite Hc; set_solver). rewrite Hsplit in Hp.
      apply elem_of_app in Hp as [Hp|Hp%list_elem_of_singleton].
      - rewrite Forall_forall in Hbefore. apply (Hdisj p); [by apply Hbefore|]. right. by left.
      - subst p. apply NoDup_cons in Hnd' as [Hn _]. apply Hn. by left. }
    subst post. exists pre. split; [done|]. rewrite <- Hc. apply NoDup_Permutation; [done..|]. intros id. split; [apply Hdecl|].
    rewrite Hsplit, elem_of_app, list_elem_of_singleton, Hc, elem_of_app, list_elem_of_singleton.
    rewrite Forall_forall in Hbefore. intros [Hid| ->]; [left; by apply Hbefore|by right].
Qed.

(** ** Consumption waits for the import marker *)

Context `{!HasGraph W, !GraphStoreLaws W, !VocabularyLaws}.

(** The outcome of [run] on a world where the campaign carries its marker and
    the graph is the one of [ew], or a refusal that left the engine and the
    graph as they were. *)
Definition runs_marked (run : MW W unit) (ew : EW) (out : res unit * EW) : Prop :=
  exists w1, graph_of w1 = graph_of ew.2 /\
    ((exists err, out = (Err err, (ew.1, w1))) \/
     (exists s, marked (gate_campaign cfg lw) (graph_of w1) = Some [AString s]) /\
     out = (wrapf "boot step" (run w1).1, (ew.1, (run w1).2))).

Lemma checkImportMarked_spec campaignID w :
  wp (checkImportMarked campaignID) (fun r w' => graph_of w' = graph_of w /\
    (r = Ok tt -> exists s, marked campaignID (graph_of w') = Some [AString s])) w.
Proof.
  unfold checkImportMarked. apply wp_bind. pose proof (ImportCompletion_spec campaignID w) as Hc. unfold wp, wrapping in *.
  destruct (ImportCompletion campaignID w) as [[[t b]|err] w1]; cbn in *; [|by destruct Hc].
  destruct Hc as [Hg Hr]. destruct b; cbn; [|done]. split; [done|]. intros _. destruct Hr as (s & Hs & _). exists s. by rewrite Hg.
Qed.

(** The check of a consuming step: the marker, then what leaves the graph be. *)
Lemma checked_runs_marked id needs (check run : MW W unit) ew :
  (forall w, wp check (fun r w' => graph_of w' = graph_of w /\
     (r = Ok tt -> exists s, marked (gate_campaign cfg lw) (graph_of w') = Some [AString s])) w) ->
  runs_marked run ew (perform (checked id needs (on_world check) (on_world run)) ew).
Proof.
  intros Hcheck. destruct ew as [e w]. specialize (Hcheck w). unfold wp in Hcheck.
  unfold perform, checked, on_world, wrapping, mbind, M_bind. cbn.
  destruct (check w) as [[[]|err] w1]; cbn in *; destruct Hcheck as [Hg Hm]; exists w1; (split; [done|]).
  - right. split; [by apply Hm|]. by destruct (run w1) as [[[]|err] w2].
  - left. by eexists.
Qed.


(** Reading the broker leaves the graph be. *)
Class BrokerReads : Prop := {
  GetStream_graph name w : graph_of (GetStream name w).2 = graph_of w;
  Consumers_graph name w : graph_of (stream_Consumers name w).2 = graph_of w
}.
Context `{!BrokerReads}.

Lemma bridges_graph w : wp checkAgenticBridges (fun _ w' => graph_of w' = graph_of w) w.
Proof.
  unfold checkAgenticBridges. apply wp_bind. unfold wp at 1, wrapping. pose proof (GetStream_graph TaskStream w) as Hs.
  destruct (GetStream TaskStream w) as [[[]|err] w1]; cbn [wrapf fst snd] in *; [|done].
  apply wp_bind. unfold wp at 1. pose proof (Consumers_graph TaskStream w1) as Hl.
  destruct (stream_Consumers TaskStream w1) as [[listed|err] w2]; cbn [fst snd] in *; [|congruence].
  destruct (snd listed); [apply wp_throw; congruence|]. apply wp_lift. congruence.
Qed.

Lemma stage_preconditions_spec w :
  wp (checkStagePreconditions cfg lw) (fun r w' => graph_of w' = graph_of w /\
    (r = Ok tt -> exists s, marked (gate_campaign cfg lw) (graph_of w') = Some [AString s])) w.
Proof.
  unfold checkStagePreconditions. apply wp_bind. eapply wp_mono; [apply checkImportMarked_spec|].
  intros [[]|err] w1 [Hg Hm]; [|done]. eapply wp_mono; [apply bridges_graph|]. intros r w2 Hg2.
  rewrite Hg2. split; [done|]. intros _. by apply Hm.
Qed.

(** C32: The steps that bind the stage consumers and the intake consumer - the two
    which let a player's action be carried out - run their work only on a world
    whose campaign carries its import marker; they refuse any other, and leave
    engine and graph as they were. *)
Theorem consumers_wait_for_the_import_marker (ew : EW) :
  Forall (fun entry => exists step, step ∈ engine_steps /\ st_ID step = entry.1 /\
      runs_marked entry.2 ew (perform step ew))
    [(StepStages, part_Stages); (StepIntake, part_Intake)].
Proof.
  apply Forall_cons_2; [|apply Forall_cons_2; [|apply Forall_nil_2]].
  - exists (checked StepStages [StepLoopFailures; StepAgentic; StepWorld] (on_world (checkStagePreconditions cfg lw))
      (on_world part_Stages)).
    split_and!; [|done|by apply checked_runs_marked, stage_preconditions_spec].
    unfold steps. do 16 apply list_elem_of_further. apply list_elem_of_here.
  - exists (checked StepIntake [StepActionStream; StepStages; StepEgress; StepLedger; StepWorld]
      (on_world (checkImportMarked (gate_campaign cfg lw))) (on_world part_Intake)).
    split_and!; [|done|by apply checked_runs_marked; intros w; apply checkImportMarked_spec].
    unfold steps. do 20 apply list_elem_of_further. apply list_elem_of_here.
Qed.
End engine.

(** ** Stopping *)

Section stopping.
Context {W : Type} `{PersonaRecords, ComponentManagers W, !BootServices W}.
Context (cfg : Config).
(** The managers that were told to stop, in that order. *)
Context (stopped : W -> list string).

Class StopJournal : Prop := {
  manager_Stop_journal name timeout w : stopped (manager_Stop name timeout w).2 = stopped w ++ [name];
  listener_Close_journal w : stopped (listener_Close w).2 = stopped w;
  client_Close_journal w : stopped (client_Close w).2 = stopped w;
  client_StopAllConsumers_journal w : stopped (client_StopAllConsumers w).2 = stopped w
}.
Context `{!StopJournal}.

Definition holds_nothing (e : Engine) : Prop := en_managers e = [] /\ en_client e = false /\ en_listener e = false.

Lemma quietly_on_world {A} (m : MW W A) (e : Engine) w : quietly (on_world m) (e, w) = (e, (m w).2).
Proof. unfold quietly, on_world. by destruct (m w). Qed.

Lemma stop_managers_journal timeout names e w :
  exists w', stop_managers timeout names (e, w) = (e, w') /\ stopped w' = stopped w ++ names.
Proof.
  revert w. induction names as [|name names IH]; intros w; cbn [stop_managers].
  { exists w. by rewrite app_nil_r. }
  rewrite quietly_on_world. destruct (IH (manager_Stop name timeout w).2) as (w' & -> & Hw). exists w'. split; [done|].
  by rewrite Hw, manager_Stop_journal, <- app_assoc.
Qed.

Lemma stopComponents_journal e w :
  exists w', stopComponents cfg (e, w) = (set_managers [] e, w') /\ stopped w' = stopped w ++ rev (en_managers e).
Proof.
  unfold stopComponents. cbn [fst]. destruct (stop_managers_journal (cf_StopTimeout cfg) (rev (en_managers e)) e w) as (w' & -> & Hw).
  by exists w'.
Qed.

(** Stopping tells every manager that was activated to stop, the last one
    first, and holds nothing afterwards, so that stopping again does nothing;
    a manager counts as activated from before its start, whether or not that
    succeeds. *)
Theorem stop_unwinds_the_start (e : Engine) (w : W) :
  let ew := Stop cfg (e, w) in
  holds_nothing ew.1 /\ en_prepared ew.1 = en_prepared e /\
  stopped ew.2 = stopped w ++ rev (en_managers e) /\ Stop cfg ew = ew /\
  forall name verify, name ∈ en_prepared e ->
    en_managers (activateManager name verify (e, w)).2.1 = en_managers e ++ [name].
Proof.
  cbn zeta. assert (Hnothing : forall e w, holds_nothing e -> Stop cfg (e, w) = (e, w)).
  { intros [] ? (Hm & Hc & Hl). cbn in *. subst. unfold Stop. cbn. reflexivity. }
  assert (Hstop : exists e' w', Stop cfg (e, w) = (e', w') /\ holds_nothing e' /\ en_prepared e' = en_prepared e /\
    stopped w' = stopped w ++ rev (en_managers e)).
  { unfold Stop. cbn [fst].
    assert (Hl : exists e1 w1, (if en_listener e then quietly (modify (set_listener false)) (quietly (on_world listener_Close) (e, w))
        else (e, w)) = (e1, w1) /\ en_listener e1 = false /\ en_managers e1 = en_managers e /\
        en_prepared e1 = en_prepared e /\ stopped w1 = stopped w).
    { destruct (en_listener e) eqn:Hl; [rewrite quietly_on_world|]; eexists _, _; (split; [reflexivity|]);
        split_and!; try done. apply listener_Close_journal. }
    destruct Hl as (e1 & w1 & -> & Hl & Hm & Hp & Hj). destruct (stopComponents_journal e1 w1) as (w2 & -> & Hj2). cbn [fst].
    cbn [set_managers en_client]. rewrite <- Hm, <- Hj, <- Hj2. destruct (en_client e1) eqn:Hc; [rewrite !quietly_on_world|];
      eexists _, _; (split; [reflexivity|]); split_and!; try done.
    cbn. by rewrite client_Close_journal, client_StopAllConsumers_journal. }
  destruct Hstop as (e' & w' & -> & Hn & Hp & Hj). cbn [fst snd]. split_and!; try done; [by apply Hn..|by apply Hnothing|].
  intros name verify Hin. unfold activateManager, get_engine, mbind, M_bind. cbn.
  replace (mem name (en_prepared e)) with true by (symmetry; by apply mem_true). cbn.
  unfold wrapping. destruct (manager_Start name w) as [[[]|err] w1]; cbn; [|done]. by destruct (verify w1) as [[[]|err] w2].
Qed.
End stopping.

(** A start that succeeds is a run of the sequence. *)
Lemma started_run {W} `{PersonaRecords, Ctx W, ComponentManagers W, !BootServices W} cfg (sw : Sequence (Engine * W) * (Engine * W)) :
  (Start cfg sw).1 = Ok tt -> (Start cfg sw).2 = (Sequence_Run sw).2.
Proof. unfold Start, after. by destruct (Sequence_Run sw) as [[[]|err] [s ew]]. Qed.

Module EngineDemo.
Import WorldDemo BootDemo.

(** The components beside the in-memory world: every call of them answers, and
    a bound intake shows on the clock. *)
#[export] Instance quiet_ctx : Ctx World := {| ctx_Err := mret tt |}.
#[export] Instance any_tool : AgenticRules := {| ToolDefinition_Validate _ := Ok tt |}.
#[export] Instance any_rule : RuleValidator := {| ValidateDefinition _ := Ok tt |}.
(** Every stream is there, configured as its owner asks. *)
Definition stream_at (name : string) : StreamInfo :=
  if String.eqb name ActionStreamName then {| si_Config := ActionStreamConfig; si_Duplicates := 0 |}
  else if String.eqb name TaskStream then
    {| si_Config := {| sc_Subjects := agentStreamSubjects; sc_Retention := "limits"; sc_MaxAge := AgentStreamMaxAge;
                       sc_MaxBytes := 0; sc_Discard := "old" |}; si_Duplicates := AgentStreamMaxAge |}
  else {| si_Config := {| sc_Subjects := [EntitySubjectFilter; StageSubjectFilter]; sc_Retention := "limits";
                          sc_MaxAge := 0; sc_MaxBytes := 0; sc_Discard := "old" |}; si_Duplicates := 0 |}.

#[export] Instance demo_streams : BootStreams World := {|
  GetStream _ := mret tt;
  stream_Info name := mret (stream_at name);
  stream_Consumers _ := mret ([Some {| cf_FilterSubject := EmptyString; cf_FilterSubjects := agenticBridges |}], None) |}.

Definition publication (what name : string) : stageTrigger :=
  {| st_EntityID := name; st_Subject := what; st_Source := EmptyString; st_Timestamp := EmptyString |}.
#[export] Instance stageTrigger_eq_dec : EqDecision stageTrigger.
Proof. solve_decision. Defined.

(** What the managers were told, on the world's own record of publications. *)
Definition note (what name : string) : MW World unit := fun w =>
  (Ok tt, mkWorld (w_graph w) (w_clock w) (w_faults w) (w_published w ++ [publication what name])).
Definition noted (what name : string) (w : World) : bool := existsb (fun p => bool_decide (p = publication what name)) (w_published w).

Definition components_of (name : string) : list string :=
  if String.eqb name "graph" then graphComponents
  else if String.eqb name "agentic" then agenticComponents else [ruleProcessorComponent].

Definition mutation_facts (input : bool) : Port := {|
  pt_Name := "mutations"; pt_IsInput := input; pt_Required := true;
  pt_Facts := Ok {| pf_IsRequest := true; pf_ConnectionIDs := [mutationSubject];
                    pf_Interface := Some (mutationType, mutationVersion) |} |}.

#[export] Instance demo_managers : ComponentManagers World := {|
  manager_Build name _ _ := note "build" name;
  manager_Components name w :=
    (Ok (map (fun c => (c, if noted "start" name w then StateStarted else StateInitialized)) (components_of name)), w);
  manager_Manifest name := mret (map (fun c => (c, {|
    dc_IsStoreProvider := String.eqb c ManagedStorageInstance;
    dc_InputPorts := if String.eqb c "graph-ingest" then [mutation_facts true] else [];
    dc_OutputPorts := if String.eqb c ruleProcessorComponent then [mutation_facts false] else [] |})) (components_of name));
  manager_IsStarted name w := (Ok (noted "start" name w), w);
  manager_Start name := note "start" name;
  manager_Stop name _ := note "stop" name |}.

(** The rule processor writes its status anew when it starts. *)
#[export] Instance demo_rule_status : RuleStatus World := {|
  status_Bucket := mret tt;
  status_Get w := (Ok {| se_Revision := if noted "start" "rule" w then 5 else 4; se_Created := w_clock w;
                         se_Value := Ok {| ix_State := "ready"; ix_Ready := true; ix_BootstrapComplete := true |} |}, w);
  FreshnessWindow := 1000; IndexStateReady := "ready" |}.

#[export] Instance demo_services : BootServices World := {|
  client_Connect := mret tt; client_StopAllConsumers := mret tt; client_Close := note "close" "client";
  listener_Close := note "close" "listener"; EnsureStreams _ := mret tt; EnsureStream _ := mret tt;
  bind_projection := mret tt; lifecycle_Register _ := mret tt; lifecycle_Create _ := mret tt;
  persona_NewManager := mret tt; persona_Upsert _ := mret tt |}.
#[export] Instance demo_parts : BootParts World := {|
  part_Knowledge := mret tt; part_Accusation := mret tt; part_CaseProgress := mret tt; part_WorkQueues := mret tt;
  part_Reconcile := mret tt; part_LoopFailures := mret tt; part_Stages := note "bind" "stages"; part_Egress := mret tt;
  part_Ledger := mret tt; part_Intake := note "bind" "intake"; part_Ingress := mret tt |}.

#[export] Instance demo_reads : BrokerReads (W := World).
Proof. by split. Qed.

Definition cfg : Config := {|
  cf_NATSURL := EmptyString; cf_Org := "acme"; cf_WorldNS := "alpha";
  cf_Player := {| pl_LocalID := "p1"; pl_Name := "Ada"; pl_Character := "local:rook"; pl_Credential := "secret" |};
  cf_Companion := None; cf_Experience := {| ex_PersonaPack := EmptyString; ex_MechanicsPack := EmptyString |};
  cf_SceneLocalID := "gatehouse"; cf_ContentBucket := EmptyString; cf_Models := Some {| mr_Validate := Ok tt; mr_Reader := {| GetCapability _ := true; ResolveEndpoint _ := Ok (Some true) |} |};
  cf_Socket := {| sc_Addr := EmptyString; sc_Path := EmptyString; sc_AllowNonLoopback := false |}; cf_ReadyTimeout := 20 * second;
  cf_ReadyPoll := 10 * second; cf_MarkerWait := 20 * second; cf_StopTimeout := second;
  cf_World := Some (demo_fs ["Gatehouse"]%string); cf_CampaignSeed := []; cf_Registry := None |}.

(** A rule engine that knows the configurations it is asked about. *)
#[export] Instance demo_engine : RuleRuntime := {|
  rule_NewConfig _ := Ok {| rc_InlineRules := []; rc_Patterns := []; rc_Outputs := [];
                            rc_EnableGraphIntegration := false; rc_Contracts := [] |};
  rule_Config_Validate _ := Ok tt; rule_Marshal _ := Ok "config"%string;
  rule_Unmarshal _ := Ok {| rc_InlineRules := []; rc_Patterns := []; rc_Outputs := [];
                            rc_EnableGraphIntegration := false; rc_Contracts := [] |};
  rule_ValidateDefinition _ := Ok tt; ValidateEntityIDPattern _ := Ok tt; contract_Validate _ := Ok tt;
  ModeReconcile := "reconcile" |}.

Definition lw : LoadedWorld := {|
  lw_pkg := package; lw_plan := alpha; lw_personas := [["adjudicator"; "narrator"]%string]; lw_mechanics := [];
  lw_sceneID := EmptyString; lw_playerID := EmptyString |}.

Definition demo_steps : list (Step (Engine * World)) := steps demo_marshal cfg lw lane (Ok turn_sequencing).
Definition demo_sequence : Sequence (Engine * World) := {| sq_steps := demo_steps; sq_done := ∅; sq_completed := [] |}.
Definition booted : res unit * (Sequence (Engine * World) * (Engine * World)) :=
  Start cfg (demo_sequence, (new_Engine, before)).

(** The whole boot: every step of it completes, each manager is built and then
    started, and the consumers are bound last. *)
Lemma engine_boots :
  booted.1 = Ok tt /\ Completed booted.2.1 = map st_ID demo_steps /\
  en_managers booted.2.2.1 = ["graph"; "agentic"; "rule"]%string /\
  w_published booted.2.2.2 =
    map (publication "build") ["graph"; "agentic"; "rule"]%string ++
    map (publication "start") ["graph"; "agentic"; "rule"]%string ++ map (publication "bind") ["stages"; "intake"]%string.
Proof.
  split; [vm_compute; reflexivity|]. split; [vm_compute; reflexivity|]. split; vm_compute; reflexivity.
Qed.

Definition intake (ew : Engine * World) : res unit :=
  match List.find (fun step => String.eqb (st_ID step) StepIntake) demo_steps with
  | Some step => (perform step ew).1
  | None => Err (Errorf "no intake" [])
  end.

(** The managers told to stop, by the world's record. *)
Definition stops (w : World) : list string :=
  map st_EntityID (List.filter (fun p => String.eqb (st_Subject p) "stop") (w_published w)).
Lemma stops_note what name w : stops (note what name w).2 = stops w ++ (if String.eqb what "stop" then [name] else []).
Proof. unfold stops, note. cbn [fst snd w_published]. rewrite List.filter_app, map_app. cbn. by destruct (String.eqb what "stop"). Qed.

#[export] Instance demo_journal : StopJournal stops.
Proof. by split; intros; [exact (stops_note "stop" name w)|etransitivity; [apply (stops_note "close")|apply app_nil_r]..|]. Qed.
End EngineDemo.
Import WorldDemo BootDemo EngineDemo.

Lemma run_started {W} `{PersonaRecords, Ctx W, ComponentManagers W, !BootServices W} cfg (sw : Sequence (Engine * W) * (Engine * W)) out :
  Start cfg sw = out -> out.1 = Ok tt -> rtc boot_step sw (out.2.1, out.2.2).
Proof.
  intros <- Hok. rewrite <- surjective_pairing. apply rtc_once. rewrite (started_run _ _ Hok). apply (boot_call EmptyString).
Qed.
Lemma booted_run : rtc boot_step (demo_sequence, (new_Engine, before)) (booted.2.1, booted.2.2).
Proof. exact (run_started cfg _ booted eq_refl (proj1 engine_boots)). Qed.
Lemma booted_ingress : StepIngress ∈ Completed booted.2.1.
Proof. rewrite (proj1 (proj2 engine_boots)). apply mem_true. vm_compute. reflexivity. Qed.

Lemma engine_boots_in_the_order_of_its_needs_witness :
  exists pre, Completed booted.2.1 = pre ++ [StepIngress] /\ pre ++ [StepIngress] ≡ₚ map st_ID demo_steps.
Proof.
  destruct (engine_boots_in_the_order_of_its_needs (W := World) demo_marshal cfg lw lane (Ok turn_sequencing))
    as (s0 & Hnew & _ & Hrun).
  rewrite engine_sequence in Hnew. injection Hnew as <-. exact (Hrun _ _ _ booted_run booted_ingress).
Defined.

(** A world nothing was imported into is refused; the one that booted is served. *)
Lemma consumers_wait_for_the_import_marker_witness :
  is_ok (intake (new_Engine, BootDemo.before)) = false /\ is_ok (intake booted.2.2) = true /\
  exists step, step ∈ demo_steps /\ st_ID step = StepIntake /\
    runs_marked cfg lw part_Intake booted.2.2 (perform step booted.2.2).
Proof.
  split; [vm_compute; reflexivity|]. split; [vm_compute; reflexivity|].
  pose proof (consumers_wait_for_the_import_marker (W := World) WorldDemo.demo_marshal cfg lw BootDemo.lane (Ok turn_sequencing)
    booted.2.2) as Hall.
  apply Forall_cons in Hall as [_ Hall]. apply Forall_cons in Hall as [Hintake _]. exact Hintake.
Defined.

Lemma stop_unwinds_the_start_witness :
  holds_nothing (Stop cfg booted.2.2).1 /\ stops (Stop cfg booted.2.2).2 = ["rule"; "agentic"; "graph"]%string.
Proof.
  destruct (stop_unwinds_the_start cfg stops booted.2.2.1 booted.2.2.2) as (Hn & _ & Hj & _).
  rewrite <- surjective_pairing in Hn, Hj. split; [exact Hn|]. rewrite Hj. vm_compute. reflexivity.
Defined.
