(* ===== verification/Bindings.v ===== *)
(** The durable consumers of an instance: what each component binds on the
    broker ([turn/intake.go], [stage/runner.go], [egress/notifier.go],
    [ledger/stream.go], [ledger/writer.go] and the consumers of knowledge,
    accusation and case progress), and the steps of [boot/engine.go] that
    construct these components and bind them. *)

From S2P Require Import Prelude GoStd GoErrors Graph Vocab Vocabulary Payload Mechanics Decisions ContentRecords ContentStore ProjectionContract Store Campaign Dice Effect Sequencing Turn Caseflow Knowledge Stage Resume Ledger Scene Epistemic Accusation Persona Delivery Gateway Egress WorldTemplate WorldRules WorldPackage WorldImport Companion Spawn Queues BootSequence BootRules BootWorld.

Open Scope Z_scope.

(** ** The broker *)

(** [ConsumeDurable]: the configuration, the heartbeat while a delivery is in
    flight, and the handler of a delivery's bytes. *)
(* src/internal/stage/runner.go#type Consumer *)
Class Consumer (W : Type) : Type := {
  ConsumeDurable : StreamConsumerConfig -> Z -> (string -> MW W unit) -> MW W unit }.

(** [jetstream.StreamConfig], as the components declare one. *)
Record JetStreamConfig : Type := {
  jc_Name : string; jc_Subjects : list string; jc_FileStorage : bool; jc_LimitsPolicy : bool; jc_MaxAge : Z;
  jc_MaxBytes : Z; jc_MaxMsgs : Z; jc_MaxMsgsPerSubject : Z; jc_DiscardNew : bool; jc_Duplicates : Z }.

(* src/internal/stage/runner.go#type StreamEnsurer *)
Class StreamEnsurer (W : Type) : Type := { ensure_stream : JetStreamConfig -> MW W unit }.

(** [json.Unmarshal] of a rule's publication, and [message.Decoder]: [None] is
    a payload of another type. *)
Class Decoders : Type := {
  decode_publication : string -> res rulePublication;
  decode_action : string -> res (option PlayerAction) }.

(** The seven fields every durable of the engine states alike but for its
    stream, name, filter and the time one delivery may take. *)
Definition durable (stream name filter deliver : string) (ackWait : Z) : StreamConsumerConfig := {|
  cn_StreamName := stream; cn_ConsumerName := name; cn_FilterSubject := filter; cn_DeliverPolicy := deliver;
  cn_AckPolicy := "explicit"; cn_MaxDeliver := 0; cn_AckWait := ackWait |}.

(** ** The intake *)

(* src/internal/turn/intake.go:36-36 (IntakeConsumer) *)
Definition IntakeConsumer : string := "semmachina-turn-intake".
(* src/internal/turn/intake.go:52-52 (DefaultAckWait) *)
Definition IntakeAckWait : Z := 30 * Second.
(* src/internal/turn/intake.go:54-54 (DefaultHeartbeat) *)
Definition IntakeHeartbeat : Z := 10 * Second.

(** The recorder, the decoder and the consumer are classes. *)
(* src/internal/turn/intake.go#type Intake *)
Record Intake : Type := {
  it_stream : string; it_subject : string; it_name : string; it_ackWait : Z; it_heartbeat : Z }.

(* src/internal/turn/intake.go#type IntakeOption *)
Definition IntakeOption : Type := Intake -> Intake.

(* src/internal/turn/intake.go#WithAckTimings *)
Definition Intake_WithAckTimings (ackWait heartbeat : Z) : IntakeOption := fun i => {|
  it_stream := it_stream i; it_subject := it_subject i; it_name := it_name i; it_ackWait := ackWait;
  it_heartbeat := heartbeat |}.
(* src/internal/turn/intake.go#WithStream *)
Definition Intake_WithStream (stream subject : string) : IntakeOption := fun i => {|
  it_stream := stream; it_subject := subject; it_name := it_name i; it_ackWait := it_ackWait i;
  it_heartbeat := it_heartbeat i |}.
(* src/internal/turn/intake.go#WithConsumerName *)
Definition Intake_WithConsumerName (name : string) : IntakeOption := fun i => {|
  it_stream := it_stream i; it_subject := it_subject i; it_name := name; it_ackWait := it_ackWait i;
  it_heartbeat := it_heartbeat i |}.

(** [for _, opt := range opts]. *)
Definition apply_options {A} (opts : list (A -> A)) (x : A) : A := fold_left (fun x opt => opt x) opts x.

(* src/internal/turn/intake.go:133-153 (NewIntake) *)
Definition NewIntake (opts : list IntakeOption) : res Intake :=
  let intake := apply_options opts {|
    it_stream := ActionStreamName; it_subject := ActionSubject; it_name := IntakeConsumer;
    it_ackWait := IntakeAckWait; it_heartbeat := IntakeHeartbeat |} in
  if String.eqb (it_stream intake) EmptyString || String.eqb (it_name intake) EmptyString then
    Err (Errorf "turn intake requires a stream and a durable consumer name" [])
  else if (it_ackWait intake <=? 0) || (it_heartbeat intake <=? 0) then
    Err (Errorf "turn intake requires positive ack timings" [])
  else Ok intake.

(* src/internal/turn/intake.go#Intake.ConsumerConfig *)
Definition Intake_ConsumerConfig (i : Intake) : StreamConsumerConfig :=
  durable (it_stream i) (it_name i) (it_subject i) "all" (it_ackWait i).

Section intake.
Context {W : Type} `{Substrate, GraphStore W, Clock W, ActionStore W, Consumer W, Decoders}.

(* src/internal/turn/intake.go#Intake.decode *)
Definition intake_decode (data : string) : res PlayerAction :=
  match decode_action data with
  | Err err => Err (RejectedActionError EmptyString (Errorf "decode player action" [err]))
  | Ok None => Err (RejectedActionError EmptyString
                      (Errorf "message on the player-action stream is not a player action" []))
  | Ok (Some action) => Ok action
  end.

(* src/internal/turn/intake.go#Intake.Start *)
Definition Intake_Start (identity : Identity) (i : Intake) : MW W unit :=
  ConsumeDurable (Intake_ConsumerConfig i) (it_heartbeat i) (fun data => Handle identity (intake_decode data)).
End intake.

(** ** The stage runner *)

(* src/internal/stage/runner.go:29-29 (DefaultAckWait) *)
Definition StageAckWait : Z := 2 * 60 * Second.
(* src/internal/stage/runner.go:31-31 (DefaultHeartbeat) *)
Definition StageHeartbeat : Z := 30 * Second.

(* src/internal/stage/runner.go#type Stage *)
Record Stage_ (W : Type) : Type := { sg_Phase : string; sg_Run : Trigger -> MW W unit }.
Arguments sg_Phase {W}. Arguments sg_Run {W}.

(* src/internal/stage/runner.go#type Runner *)
Record Runner (W : Type) : Type := { rn_stages : list (Stage_ W); rn_ackWait : Z; rn_heartbeat : Z }.
Arguments rn_stages {W}. Arguments rn_ackWait {W}. Arguments rn_heartbeat {W}.

(* src/internal/stage/runner.go#WithAckTimings *)
Definition Runner_WithAckTimings {W} (ackWait heartbeat : Z) (r : Runner W) : Runner W :=
  {| rn_stages := rn_stages r; rn_ackWait := ackWait; rn_heartbeat := heartbeat |}.

(** The loop over the stages, which are what remains when none of them is nil. *)
(* src/internal/stage/runner.go:129-144 (NewRunner) *)
Fixpoint check_stages {W} (stages : list (option (Stage_ W))) (seen : gset string) : res (list (Stage_ W)) :=
  match stages with
  | [] => Ok []
  | None :: _ => Err (Errorf "a stage runner was given a nil stage" [])
  | Some stage :: rest =>
      if bool_decide (sg_Phase stage ∈ seen) then
        Err (Errorf "two stages claim a phase; they would bind the same durable consumer" [])
      else
        _ ← SubjectForPhase (sg_Phase stage);
        rest ← check_stages rest ({[sg_Phase stage]} ∪ seen);
        Ok (stage :: rest)
  end.

(* src/internal/stage/runner.go:125-161 (NewRunner) *)
Definition NewRunner {W} (stages : list (option (Stage_ W))) (opts : list (Runner W -> Runner W)) : res (Runner W) :=
  if Nat.eqb (List.length stages) 0 then Err (Errorf "a stage runner requires at least one stage" [])
  else
    stages ← check_stages stages ∅;
    let runner := apply_options opts {| rn_stages := stages; rn_ackWait := StageAckWait; rn_heartbeat := StageHeartbeat |} in
    if (rn_ackWait runner <=? 0) || (rn_heartbeat runner <=? 0) then
      Err (Errorf "a stage runner requires positive ack timings" [])
    else Ok runner.

(* src/internal/stage/runner.go#StreamConfig *)
Definition stage_StreamConfig : JetStreamConfig := {|
  jc_Name := StageStream; jc_Subjects := [StageSubjectFilter]; jc_FileStorage := true; jc_LimitsPolicy := true;
  jc_MaxAge := 0; jc_MaxBytes := 0; jc_MaxMsgs := 0; jc_MaxMsgsPerSubject := 0; jc_DiscardNew := false;
  jc_Duplicates := 0 |}.

(* src/internal/stage/runner.go#Runner.ConsumerConfig *)
Definition Runner_ConsumerConfig {W} (r : Runner W) (phase : string) : res StreamConsumerConfig :=
  subject ← SubjectForPhase phase;
  Ok (durable StageStream (StageConsumerName phase) subject "all" (rn_ackWait r)).

Section runner.
Context {W : Type} `{Substrate, Consumer W, StreamEnsurer W, Decoders}.

(** What a delivery's bytes do. *)
(* src/internal/stage/runner.go#Runner.handle *)
Definition Runner_handle (stage : Stage_ W) (data : string) : MW W unit :=
  match ParseTrigger (decode_publication data) with
  | Err err => throw (TerminateDelivery err)
  | Ok trigger =>
      ran ← attempt (sg_Run stage trigger);
      lift (wrapf "run the stage" ran)
  end.

(* src/internal/stage/runner.go#Runner.handler *)
Definition Runner_handler (stage : Stage_ W) : string -> MW W unit := fun data => Runner_handle stage data.

(* src/internal/stage/runner.go:212-220 (Runner.Start) *)
Fixpoint bind_stages (r : Runner W) (stages : list (Stage_ W)) : MW W unit :=
  match stages with
  | [] => mret tt
  | stage :: rest =>
      cfg ← lift (Runner_ConsumerConfig r (sg_Phase stage));
      bound ← attempt (ConsumeDurable cfg (rn_heartbeat r) (Runner_handler stage));
      _ ← lift (wrapf "bind the stage consumer" bound);
      bind_stages r rest
  end.

(* src/internal/stage/runner.go#Runner.Start *)
Definition Runner_Start (r : Runner W) : MW W unit :=
  ensured ← attempt (ensure_stream stage_StreamConfig);
  _ ← lift (wrapf "ensure the stage stream" ensured);
  bind_stages r (rn_stages r).
End runner.

(** ** The consumers of the other work on the stage stream *)

(* src/internal/knowledge/consumer.go#const DefaultAckWait *)
Definition KnowledgeAckWait : Z := 30 * Second.
(* src/internal/knowledge/consumer.go#const DefaultHeartbeat *)
Definition KnowledgeHeartbeat : Z := 10 * Second.
(* src/internal/accusation/consumer.go#const DefaultAckWait *)
Definition AccusationAckWait : Z := 30 * Second.
(* src/internal/accusation/consumer.go#const DefaultHeartbeat *)
Definition AccusationHeartbeat : Z := 10 * Second.
(* src/internal/caseflow/consumer.go#const DefaultProgressAckWait *)
Definition DefaultProgressAckWait : Z := 30 * Second.
(* src/internal/caseflow/consumer.go#const DefaultProgressHeartbeat *)
Definition DefaultProgressHeartbeat : Z := 10 * Second.

(* src/internal/knowledge/consumer.go:92-96 (Consumer.Start) *)
Definition Knowledge_config : StreamConsumerConfig :=
  durable StageStream KnowledgeConsumerName SubjectKnowledge "all" KnowledgeAckWait.
(* src/internal/accusation/consumer.go:75-79 (Consumer.Start) *)
Definition Accusation_config : StreamConsumerConfig :=
  durable StageStream AccusationConsumerName SubjectAccusation "all" AccusationAckWait.
(* src/internal/caseflow/consumer.go:65-69 (ProgressConsumer.Start) *)
Definition Progress_config : StreamConsumerConfig :=
  durable StageStream CaseProgressConsumerName SubjectCaseProgress "all" DefaultProgressAckWait.

(* src/internal/egress/notifier.go:25-25 (ConsumerName) *)
Definition EgressConsumerName : string := "semmachina-player-egress".
(* src/internal/egress/notifier.go:29-29 (DefaultAckWait) *)
Definition EgressAckWait : Z := 30 * Second.
(* src/internal/egress/notifier.go:31-31 (DefaultHeartbeat) *)
Definition EgressHeartbeat : Z := 10 * Second.
(** A brand new consumer starts at what is published after it. *)
(* src/internal/egress/notifier.go#ConsumerConfig *)
Definition Egress_ConsumerConfig : StreamConsumerConfig :=
  durable StageStream EgressConsumerName SubjectResolved "new" EgressAckWait.

(* src/internal/ledger/stream.go:24-24 (ConsumerName) *)
Definition LedgerConsumerName : string := "semmachina-campaign-ledger".
(* src/internal/ledger/stream.go#const DuplicateWindow *)
Definition DuplicateWindow : Z := 2 * 60 * Second.
(* src/internal/ledger/stream.go:45-45 (DefaultAckWait) *)
Definition LedgerAckWait : Z := 30 * Second.
(* src/internal/ledger/stream.go:47-47 (DefaultHeartbeat) *)
Definition LedgerHeartbeat : Z := 10 * Second.
(* src/internal/ledger/reconcile.go#const DefaultPageLimit *)
Definition LedgerPageLimit : Z := 200.

(* src/internal/ledger/stream.go#StreamConfig *)
Definition ledger_StreamConfig : JetStreamConfig := {|
  jc_Name := LedgerStreamName; jc_Subjects := [LedgerSubjectFilter]; jc_FileStorage := true; jc_LimitsPolicy := true;
  jc_MaxAge := 0; jc_MaxBytes := -1; jc_MaxMsgs := -1; jc_MaxMsgsPerSubject := -1; jc_DiscardNew := true;
  jc_Duplicates := DuplicateWindow |}.

(* src/internal/ledger/stream.go#ConsumerConfig *)
Definition Ledger_ConsumerConfig : StreamConsumerConfig :=
  durable StageStream LedgerConsumerName SubjectResolved "all" LedgerAckWait.

(** The notifier: its result surface and its router are classes. *)
(* src/internal/egress/notifier.go#type Notifier *)
Record Notifier : Type := { nt_results : Results; nt_heartbeat : Z }.

(* src/internal/egress/notifier.go#WithNotifierHeartbeat *)
Definition WithNotifierHeartbeat (d : Z) (n : Notifier) : Notifier := {| nt_results := nt_results n; nt_heartbeat := d |}.

(* src/internal/egress/notifier.go:142-153 (NewNotifier) *)
Definition NewNotifier (results : Results) (opts : list (Notifier -> Notifier)) : res Notifier :=
  let notifier := apply_options opts {| nt_results := results; nt_heartbeat := EgressHeartbeat |} in
  if nt_heartbeat notifier <=? 0 then Err (Errorf "the egress notifier requires a positive heartbeat" [])
  else Ok notifier.

(* src/internal/egress/results.go:125-132 (NewResults) *)
Definition NewResults `{Substrate} (identity : Identity) (campaignID : string) : res Results :=
  _ ← wrapf "the result surface requires a turn identity" (Identity_Validate identity);
  _ ← wrapf "the result surface requires a canonical campaign entity id" (ValidateEntityID campaignID);
  Ok {| re_identity := identity; re_campaignID := campaignID |}.

Section starts.
Context {W : Type} `{Substrate, GraphStore W, Clock W, CaseArtifacts W, Ctx W, ObjectEncoder, PredicateReader W,
  ActionStore W, Consumer W, Decoders}.

(* src/internal/knowledge/consumer.go#Consumer.Start *)
Definition Knowledge_Start (caseID : string) (shares : option (ShareAuthorizer W)) (witnesses : option (WitnessAuthorizer W))
    : MW W unit :=
  ConsumeDurable Knowledge_config KnowledgeHeartbeat
    (fun data => Knowledge_Handle caseID shares witnesses (decode_publication data)).

(* src/internal/accusation/consumer.go#Consumer.Start *)
Definition Accusation_Start (caseID : string) (project : option (ProjectionService W)) : MW W unit :=
  ConsumeDurable Accusation_config AccusationHeartbeat
    (fun data => Accusation_Handle caseID project (decode_publication data)).

(* src/internal/caseflow/consumer.go#ProgressConsumer.Start *)
Definition Progress_Start (owner : Identity) : MW W unit :=
  ConsumeDurable Progress_config DefaultProgressHeartbeat
    (fun data => ProgressConsumer_Handle owner (decode_publication data)).

Context `{ResultArtifacts W, HasSessions W, Sink W}.

(* src/internal/egress/notifier.go#Notifier.Start *)
Definition Notifier_Start (n : Notifier) : MW W unit :=
  bound ← attempt (ConsumeDurable Egress_ConsumerConfig (nt_heartbeat n)
                     (fun data => Notifier_Handle (nt_results n) (decode_publication data)));
  lift (wrapf "bind the player-egress consumer" bound).

Context `{PrefixReader W, LedgerStream W, ManifestEnvelope W, Codec TurnManifest}.

(** What the reconciliation reports is logged: it never stops the bind. *)
(* src/internal/ledger/writer.go#Writer.Start *)
Definition Writer_Start (wr : Writer) : MW W unit :=
  _ ← (archive : MW W unit);
  _ ← attempt (Ledger_Reconcile wr);
  bound ← attempt (ConsumeDurable Ledger_ConsumerConfig (wr_heartbeat wr)
                     (fun data => Ledger_Handle wr (decode_publication data)));
  lift (wrapf "bind the campaign-ledger consumer" bound).
End starts.

(** ** The steps that construct and bind *)

(** [companion.NewAuthority] over the graph store, which writes too. *)
Definition graph_authority : Authority := {| au_writable := true |}.

Section stages.
Context {W : Type} `{Substrate, AgenticRules, TaskRules, TaskEnvelope, GraphStore W, Clock W, ActionStore W, ArtifactStore W,
  ErrorClassifier, CaseArtifacts W, Ctx W, PredicateReader W, SceneGraph W, TripleShape, ProjectionEncoder,
  PersonaArtifacts W, CompanionArtifacts W, TransientErrors, Codec CompanionDecision, TaskPublisher W, Prompter W}.

(** [epistemic.NewProjector] over [scene.NewAssembler] with their defaults. *)
Definition new_projector (scope : Scope) (denouement : option (string -> string -> string -> MW W bool))
    (bonds : option (string -> string -> string -> MW W unit))
    (evidence : option (NarrationEvidenceRequest -> MW W (list string))) : res (Projector W) :=
  NewProjector {|
    pj_scope := scope; pj_maxSupplemental := DefaultMaxSupplementalEntities;
    pj_maxProjectionEntities := DefaultMaxProjectionEntities; pj_maxProjectionTriples := DefaultMaxProjectionTriples;
    pj_maxProjectionBytes := DefaultMaxProjectionBytes;
    pj_Assemble := fun turnID turnEntityID => view ← Assemble DefaultMaxEntities turnID turnEntityID; mret (Some view);
    pj_denouement := denouement; pj_companionBonds := bonds; pj_narrationEvidence := evidence |}.

(** What each stage is, as the runner sees it. *)
(* src/internal/stage/spawn.go#Spawner.Phase *)
Definition spawner_stage (s : Spawner W) : Stage_ W := {| sg_Phase := sw_phase s; sg_Run := Spawner_Run s |}.
(* src/internal/stage/companion.go#CompanionStage.Phase *)
Definition companion_stage (project : AuthenticatedAudience -> MW W Projection) : Stage_ W :=
  {| sg_Phase := PhaseCompanion; sg_Run := CompanionStage_Run graph_authority project |}.
(* src/internal/stage/resolve.go#Resolver.Phase *)
Definition dice_stage (r : Resolver) : Stage_ W := {| sg_Phase := PhaseResolving; sg_Run := Resolver_Run r |}.
(* src/internal/stage/apply.go#Effector.Phase *)
Definition effect_stage (specs : AttributeSpecSet) : Stage_ W :=
  {| sg_Phase := PhaseApplying; sg_Run := Effector_Run specs |}.
(* src/internal/stage/complete.go#Completer.Phase *)
Definition complete_stage : Stage_ W := {| sg_Phase := PhaseComplete; sg_Run := Completer_Run |}.

(** The stages of an instance over its scope and its claim. A narrator of a
    scoped case is routed through the case's denouement. *)
(* src/internal/boot/engine.go:864-948 (startStages) *)
Definition engine_stages (scope : Scope) (instantiation : Instantiation) : res (list (option (Stage_ W))) :=
  projector ← new_projector scope (Some Authorized) (Some ValidateCompanionBond) (Some AuthorizedNarrationEvidence);
  let stageProjector :=
    if negb (String.eqb (sc_caseID scope) EmptyString) then Route (sc_caseID scope) (Project projector)
    else Project projector in
  adjudicator ← NewSpawner Adjudicator stageProjector None;
  casekeeper ← NewSpawner Casekeeper stageProjector (Some scope);
  narrator ← NewSpawner Narrator stageProjector None;
  roller ← NewRoller Mechanic2d6PbtaV1;
  resolver ← NewResolver (Some roller) true instantiation;
  Ok (map Some [spawner_stage casekeeper; spawner_stage adjudicator; dice_stage resolver;
                effect_stage DefaultAttributeSpecs; companion_stage (Project projector); spawner_stage narrator;
                complete_stage]).

Context `{Consumer W, StreamEnsurer W, Decoders, ObjectEncoder, UnicodePrint, AgentStream W}.
Context `{ResultArtifacts W, HasSessions W, Sink W, PrefixReader W, LedgerStream W, ManifestEnvelope W, Codec TurnManifest}.
Context `{Semver, WorldRuleEngine, PersonaRecords}.
(** What the engine holds at these steps: its configuration, the loaded world,
    and the campaign of its gate. *)
Context (cfg : Config) (lw : LoadedWorld) (campaignID : string).

Definition engine_scope : res Scope := epistemicScope (Some (lw_plan lw)) (Some (lw_pkg lw)).

(* src/internal/boot/engine.go#Engine.startStages *)
Definition startStages (instantiation : Instantiation) : MW W unit :=
  scope ← lift engine_scope;
  stages ← lift (engine_stages scope instantiation);
  runner ← lift (NewRunner stages []);
  Runner_Start runner.

(* src/internal/boot/engine.go#Engine.startKnowledge *)
Definition startKnowledge : MW W unit :=
  scope ← lift engine_scope;
  Knowledge_Start (sc_caseID scope) (Some Authority_Authorized) (Some Witness).

(* src/internal/boot/engine.go#Engine.startAccusation *)
Definition startAccusation : MW W unit :=
  scope ← lift engine_scope;
  projector ← lift (new_projector scope None None None);
  Accusation_Start (sc_caseID scope) (Some (Project projector)).

(* src/internal/boot/engine.go#Engine.startCaseProgress *)
Definition startCaseProgress : MW W unit :=
  _ ← lift (wrapf "case progress consumer owner" (Identity_Validate (turnIdentity cfg (lw_plan lw))));
  Progress_Start (turnIdentity cfg (lw_plan lw)).

(** The failures queued before this boot are acknowledged before the stages
    start; [polls] are those the context allows, after which it has ended. *)
(* src/internal/boot/engine.go#Engine.startLoopFailures *)
Definition startLoopFailures (polls : nat) : MW W unit :=
  watcher ← lift (NewLoopFailureWatcher EmptyString EmptyString None true);
  _ ← Loop_Start watcher;
  caught ← CatchUp polls watcher;
  match caught with
  | Some _ => mret tt
  | None => throw (Errorf "catch up loop failures" [])
  end.

Definition hold_sessions (s : sessions) : MW W unit := fun w => (Ok tt, with_sessions s w).

(** The gateway the engine holds, built with its session table by whichever
    step asks first. *)
(* src/internal/boot/engine.go#Engine.buildGateway *)
Definition buildGateway (built : option (Roster * Gateway)) : MW W (Roster * Gateway) :=
  match built with
  | Some gateway => mret gateway
  | None =>
      roster ← lift (NewRoster {[pl_Credential (cf_Player cfg) := lw_playerID lw]});
      gateway ← lift (New {| gc_CampaignID := campaignID; gc_SceneID := lw_sceneID lw |}
                        DefaultMaxConnectionsPerPlayer ActionSubject);
      _ ← hold_sessions (snd gateway);
      mret (roster, fst gateway)
  end.

(* src/internal/boot/engine.go#Engine.PlayerConnectionCount *)
Definition PlayerConnectionCount (built : option (Roster * Gateway)) (w : W) : Z :=
  match built with
  | None => 0
  | Some _ =>
      if String.eqb (lw_playerID lw) EmptyString then 0
      else match (Gateway_SessionsFor (lw_playerID lw) w).1 with
           | Ok sessions => Z.of_nat (List.length sessions)
           | Err _ => 0
           end
  end.

(* src/internal/boot/engine.go#Engine.startEgress *)
Definition startEgress (built : option (Roster * Gateway)) : MW W (Roster * Gateway) :=
  results ← lift (NewResults (turnIdentity cfg (lw_plan lw)) campaignID);
  gateway ← buildGateway built;
  notifier ← lift (NewNotifier results []);
  _ ← Notifier_Start notifier;
  mret gateway.

(* src/internal/boot/engine.go#Engine.startLedger *)
Definition startLedger : MW W unit :=
  writer ← lift (NewWriter campaignID LedgerHeartbeat LedgerPageLimit);
  Writer_Start writer.

(* src/internal/boot/engine.go#Engine.startIntake *)
Definition startIntake : MW W unit :=
  intake ← lift (NewIntake []);
  Intake_Start (turnIdentity cfg (lw_plan lw)) intake.
End stages.

(** ** What is bound

    The durables the broker holds, each with its heartbeat, oldest first. *)
Class HasDurables (W : Type) : Type := { durables : W -> list (StreamConsumerConfig * Z) }.

Section bound.
Context {W : Type} `{HasDurables W}.

(** [m] binds [l] in its order, all of it when it succeeds. *)
Definition binds {A} (m : MW W A) (l : list (StreamConsumerConfig * Z)) : Prop :=
  forall w, exists k, durables (m w).2 = durables w ++ take k l /\ (is_ok (m w).1 = true -> k = List.length l).

(** [m] binds nothing. *)
Definition quiet {A} (m : MW W A) : Prop := forall w, durables (m w).2 = durables w.

Lemma quiet_binds {A} (m : MW W A) : quiet m -> binds m [].
Proof. intros Hq w. exists O. rewrite Hq, app_nil_r. done. Qed.

Lemma unbound_ret {A} (a : A) : quiet (mret a).
Proof. done. Qed.
Lemma unbound_lift {A} (r : res A) : quiet (lift r).
Proof. done. Qed.
Lemma unbound_throw {A} (e : error) : quiet (throw e : MW W A).
Proof. done. Qed.
Lemma unbound_attempt {A} (m : MW W A) : quiet m -> quiet (attempt m).
Proof. intros Hq w. unfold attempt. specialize (Hq w). by destruct (m w). Qed.
Lemma unbound_bind {A B} (m : MW W A) (k : A -> MW W B) : quiet m -> (forall a, quiet (k a)) -> quiet (m ≫= k).
Proof.
  intros Hm Hk w. unfold mbind, M_bind. specialize (Hm w). destruct (m w) as [[a|e] w1]; cbn in *; [|done].
  by rewrite Hk.
Qed.

Lemma binds_bind {A B} (m : MW W A) (k : A -> MW W B) l1 l2 :
  binds m l1 -> (forall a, binds (k a) l2) -> binds (m ≫= k) (l1 ++ l2).
Proof.
  intros Hm Hk w. specialize (Hm w) as (i & Hi & Hok). unfold mbind, M_bind.
  destruct (m w) as [[a|e] w1]; cbn in *.
  - specialize (Hk a w1) as (j & Hj & Hok2). specialize (Hok eq_refl). subst i.
    exists (List.length l1 + j)%nat. rewrite Hj, Hi, firstn_all, take_app_add. rewrite app_assoc.
    split; [done|]. intros E%Hok2. rewrite length_app. lia.
  - exists (i `min` List.length l1)%nat. rewrite Hi. split; [|done]. f_equal.
    rewrite take_app_le by lia. destruct (Nat.le_ge_cases i (List.length l1)) as [Hl|Hl].
    + by rewrite Nat.min_l by lia.
    + by rewrite Nat.min_r, firstn_all, firstn_all2 by lia.
Qed.

(** A value in hand decides what is bound. *)
Lemma binds_lift {A B} (r : res A) (k : A -> MW W B) l :
  (forall a, r = Ok a -> binds (k a) l) -> binds (lift r ≫= k) l.
Proof.
  intros Hk w. destruct r as [a|e]; [by apply Hk|]. exists O. cbn. by rewrite app_nil_r.
Qed.

(** A quiet step, then the rest. *)
Lemma binds_after {A B} (m : MW W A) (k : A -> MW W B) l :
  quiet m -> (forall a, binds (k a) l) -> binds (m ≫= k) l.
Proof. intros Hm Hk. apply (binds_bind m k [] l); [by apply quiet_binds|done]. Qed.

Lemma binds_before {A B} (m : MW W A) (k : A -> MW W B) l :
  binds m l -> (forall a, quiet (k a)) -> binds (m ≫= k) l.
Proof. intros Hm Hk. rewrite <- (app_nil_r l). apply binds_bind; [done|]. intros a. by apply quiet_binds. Qed.

(** [if err := m; err != nil { return wrap(err) }], at the end and before more. *)
Lemma binds_wrapped {A} (m : MW W A) msg l :
  binds m l -> binds (bound ← attempt m; lift (wrapf msg bound)) l.
Proof.
  intros Hm w. specialize (Hm w) as (k & Hk & Hok). exists k. unfold attempt, mbind, M_bind.
  destruct (m w) as [[a|e] w1]; cbn in *; auto.
Qed.

Lemma binds_wrapped_then {A B} (m : MW W A) msg (k : A -> MW W B) l1 l2 :
  binds m l1 -> (forall a, binds (k a) l2) ->
  binds (bound ← attempt m; a ← lift (wrapf msg bound); k a) (l1 ++ l2).
Proof.
  intros Hm Hk. pose proof (binds_bind _ k l1 l2 (binds_wrapped m msg l1 Hm) Hk) as Hb. intros w.
  specialize (Hb w). unfold attempt, mbind, M_bind in *. by destruct (m w) as [[a|e] w1].
Qed.
End bound.

(** The head of a quiet program. *)
Ltac quiet_step :=
  match goal with
  | |- quiet (mbind _ _) => apply unbound_bind; [|intros ?]
  | |- quiet (mret _) => apply unbound_ret
  | |- quiet (lift _) => apply unbound_lift
  | |- quiet (throw _) => apply unbound_throw
  | |- quiet (attempt _) => apply unbound_attempt
  | |- quiet (match ?x with _ => _ end) => destruct x
  | |- quiet (let '_ := ?x in _) => destruct x
  end.

(** The broker, and the other calls of these steps: only a bind binds. *)
Class BrokerLaws (W : Type) `{HasDurables W, Consumer W, StreamEnsurer W, AgentStream W} : Prop := {
  ConsumeDurable_binds cfg heartbeat handler : binds (ConsumeDurable cfg heartbeat handler) [(cfg, heartbeat)];
  stream_Consume_binds cfg heartbeat : binds (stream_Consume cfg heartbeat) [(cfg, heartbeat)];
  ensure_stream_quiet c : quiet (ensure_stream c);
  stream_Subjects_quiet : quiet stream_Subjects;
  stream_Backlog_quiet name : quiet (stream_Backlog name);
  stream_Tick_quiet : quiet stream_Tick }.

Class ArchiveQuiet (W : Type) `{HasDurables W, HasSessions W, PrefixReader W, LedgerStream W, ManifestEnvelope W} : Prop := {
  sessions_durables s w : durables (with_sessions s w) = durables w;
  hold_stream_durables user w : durables (hold_stream user w) = durables w;
  EnsureStream_quiet : quiet Ledger.EnsureStream;
  GetLastMsg_quiet subject : quiet (GetLastMsgForSubject subject);
  Publish_quiet subject data id : quiet (Ledger.PublishToStreamWithMsgID subject data id);
  marshal_quiet manifest : quiet (marshal_message manifest);
  Prefix_quiet prefix cursor limit : quiet (EntitiesWithPrefix prefix cursor limit) }.

(** ** The runner binds each of its stages once *)

Lemma check_stages_ok {W} (stages : list (option (Stage_ W))) seen impls :
  check_stages stages seen = Ok impls ->
  stages = map Some impls /\ NoDup (map sg_Phase impls) /\
  Forall (fun s => sg_Phase s ∈ stagePhases /\ sg_Phase s ∉ seen) impls.
Proof.
  revert seen impls. induction stages as [|[stage|] rest IH]; intros seen impls; cbn [check_stages]; [|case_bool_decide|].
  - intros [= <-]. by repeat constructor.
  - discriminate.
  - intros (subject & (Hin & _)%SubjectForPhase_ok & (more & Hmore & [= <-])%result_bind_ok)%result_bind_ok.
    apply IH in Hmore as (-> & Hnd & Hall). rewrite Forall_forall in Hall. split; [done|]. split.
    + cbn. constructor; [|done]. intros (s & Hs & Hm)%list_elem_of_fmap. apply Hall in Hm as (_ & Hm). set_solver.
    + constructor; [done|]. apply Forall_forall. intros s (Hp & Hns)%Hall. set_solver.
  - discriminate.
Qed.

Lemma timings_keep_stages {W} timings (r : Runner W) :
  rn_stages (apply_options (map (fun t => Runner_WithAckTimings (fst t) (snd t)) timings) r) = rn_stages r.
Proof. unfold apply_options. revert r. induction timings as [|t timings IH]; intros r; [done|]. cbn. by rewrite IH. Qed.

(** What a runner binds for a stage. *)
Definition stage_durable {W} (r : Runner W) (phase : string) : StreamConsumerConfig * Z :=
  (durable StageStream (StageConsumerName phase) (StageSubjectPrefix +:+ phase) "all" (rn_ackWait r), rn_heartbeat r).

Section runner_laws.
Context {W : Type} `{Substrate, HasDurables W, Consumer W, StreamEnsurer W, AgentStream W, Decoders, !BrokerLaws W}.

Lemma bind_stages_binds (r : Runner W) stages :
  Forall (fun s => sg_Phase s ∈ stagePhases) stages ->
  binds (bind_stages r stages) (map (fun s => stage_durable r (sg_Phase s)) stages).
Proof.
  induction 1 as [|stage rest Hp _ IH]; cbn [bind_stages map]; [apply quiet_binds, unbound_ret|].
  apply binds_lift. intros cfg (subject & (_ & ->)%SubjectForPhase_ok & [= <-])%result_bind_ok.
  apply (binds_wrapped_then _ _ _ [_]); [apply ConsumeDurable_binds|done].
Qed.

Lemma Runner_Start_binds (r : Runner W) :
  Forall (fun s => sg_Phase s ∈ stagePhases) (rn_stages r) ->
  binds (Runner_Start r) (map (fun s => stage_durable r (sg_Phase s)) (rn_stages r)).
Proof.
  intros Hp. unfold Runner_Start. apply binds_after; [apply unbound_attempt, ensure_stream_quiet|]. intros ensured.
  apply binds_after; [apply unbound_lift|]. intros _. by apply bind_stages_binds.
Qed.

(** A runner that was built binds one durable for each stage it was given, in
    their order: each on its own trigger subject, under a name no other of its
    stages has. A start that fails part-way has bound a prefix of them. *)
Lemma runner_binds_stages_of (stages : list (option (Stage_ W))) timings r
    (Hnew : NewRunner stages (map (fun t => Runner_WithAckTimings (fst t) (snd t)) timings) = Ok r) :
  exists impls, stages = map Some impls /\ rn_stages r = impls /\ 0 < rn_ackWait r /\ 0 < rn_heartbeat r /\
    NoDup (map (fun s => cn_ConsumerName (fst (stage_durable r (sg_Phase s)))) impls) /\
    NoDup (map (fun s => cn_FilterSubject (fst (stage_durable r (sg_Phase s)))) impls) /\
    Forall (fun s => SubjectForPhase (sg_Phase s) = Ok (cn_FilterSubject (fst (stage_durable r (sg_Phase s))))) impls /\
    binds (Runner_Start r) (map (fun s => stage_durable r (sg_Phase s)) impls).
Proof.
  unfold NewRunner in Hnew. destruct (Nat.eqb _ 0); [discriminate|].
  apply result_bind_ok in Hnew as (impls & Hchk & Hr). cbv zeta in Hr. destruct (_ || _) eqn:Ht in Hr; [discriminate|].
  injection Hr as Hr. rewrite Hr in Ht. apply orb_false_iff in Ht as (Ha & Hh). apply Z.leb_gt in Ha, Hh.
  apply check_stages_ok in Hchk as (-> & Hnd & Hall).
  assert (Hs : rn_stages r = impls) by (rewrite <- Hr; apply timings_keep_stages).
  assert (Hp : Forall (fun s => sg_Phase s ∈ stagePhases) impls) by (eapply Forall_impl; [exact Hall|]; by intros s []).
  exists impls. split; [done|]. split; [done|]. split; [done|]. split; [done|]. split; [|split; [|split]].
  - change (NoDup (map (fun s => "semmachina-stage-" +:+ sg_Phase s) impls)).
    rewrite <- (map_map sg_Phase). by apply (NoDup_fmap_2 _).
  - change (NoDup (map (fun s => StageSubjectPrefix +:+ sg_Phase s) impls)).
    rewrite <- (map_map sg_Phase). by apply (NoDup_fmap_2 _).
  - eapply Forall_impl; [exact Hp|]. intros s Hin. by apply SubjectForPhase_ok.
  - rewrite <- Hs in Hp |- *. by apply Runner_Start_binds.
Qed.
End runner_laws.

(** The stages of this development are run by the runner as by [Stage.handle]. *)
Lemma runner_handles_as_stage {W} `{Substrate, GraphStore W, Clock W, ActionStore W, ArtifactStore W, ErrorClassifier, Decoders}
    (s : stage) data :
  Runner_handler {| sg_Phase := stage_Phase s; sg_Run := stage_Run s |} data = handle s (decode_publication data).
Proof. reflexivity. Qed.

(** ** What an instance binds *)

Section engine_laws.
Context {W : Type} `{Substrate, AgenticRules, TaskRules, TaskEnvelope, GraphStore W, Clock W, ActionStore W, ArtifactStore W,
  ErrorClassifier, CaseArtifacts W, Ctx W, PredicateReader W, SceneGraph W, TripleShape, ProjectionEncoder,
  PersonaArtifacts W, CompanionArtifacts W, TransientErrors, Codec CompanionDecision, Spawn.TaskPublisher W, Prompter W}.
Context `{Consumer W, StreamEnsurer W, Decoders, ObjectEncoder, UnicodePrint, AgentStream W}.
Context `{ResultArtifacts W, HasSessions W, Sink W, PrefixReader W, LedgerStream W, ManifestEnvelope W, Codec TurnManifest}.
Context `{Semver, WorldRuleEngine, PersonaRecords, HasDurables W, !BrokerLaws W, !ArchiveQuiet W}.

Lemma NewSpawner_phase spec project caseScope (s : Spawner W) :
  NewSpawner spec project caseScope = Ok s -> spawnPhases !! sp_Role spec = Some (sw_phase s).
Proof.
  unfold NewSpawner. intros ([] & _ & Hs)%result_bind_ok. destruct (spawnPhases !! _) as [phase|]; [|discriminate].
  destruct (String.eqb _ _), caseScope; simplify_eq/=; done.
Qed.

(** The seven stages of an instance, one for each phase a rule can trigger. *)
Lemma engine_stages_phases scope instantiation (stages : list (option (Stage_ W))) :
  engine_stages scope instantiation = Ok stages ->
  exists impls, stages = map Some impls /\ map sg_Phase impls = StagePhases.
Proof.
  unfold engine_stages. intros (projector & _ & Hs)%result_bind_ok. cbv zeta in Hs.
  apply result_bind_ok in Hs as (adjudicator & Ha%NewSpawner_phase & Hs).
  apply result_bind_ok in Hs as (casekeeper & Hc%NewSpawner_phase & Hs).
  apply result_bind_ok in Hs as (narrator & Hn%NewSpawner_phase & Hs).
  apply result_bind_ok in Hs as (roller & _ & Hs). apply result_bind_ok in Hs as (resolver & _ & [= <-]).
  exists [spawner_stage casekeeper; spawner_stage adjudicator; dice_stage resolver; effect_stage DefaultAttributeSpecs;
          companion_stage (Project projector); spawner_stage narrator; complete_stage].
  split; [reflexivity|].
  replace (spawnPhases !! sp_Role Adjudicator) with (Some PhaseAdjudicating) in Ha by (vm_compute; reflexivity).
  replace (spawnPhases !! sp_Role Casekeeper) with (Some PhaseInterpreting) in Hc by (vm_compute; reflexivity).
  replace (spawnPhases !! sp_Role Narrator) with (Some PhaseNarrating) in Hn by (vm_compute; reflexivity).
  cbn [map sg_Phase spawner_stage dice_stage effect_stage companion_stage complete_stage]. simplify_eq.
  rewrite <- Ha, <- Hc, <- Hn. reflexivity.
Qed.

Definition stage_consumer (phase : string) : StreamConsumerConfig * Z :=
  (durable StageStream (StageConsumerName phase) (StageSubjectPrefix +:+ phase) "all" StageAckWait, StageHeartbeat).

Lemma startStages_binds lw instantiation : binds (startStages lw instantiation : MW W unit) (map stage_consumer StagePhases).
Proof.
  unfold startStages. apply binds_lift. intros scope _. apply binds_lift. intros stages Hst. apply binds_lift. intros r Hr.
  apply engine_stages_phases in Hst as (impls & -> & Hph).
  destruct (runner_binds_stages_of _ [] r Hr) as (impls' & Heq & Hrn & _ & _ & _ & _ & _ & Hb).
  assert (impls' = impls) as -> by (symmetry; by apply (inj (map Some))).
  enough (Hl : map (fun s => stage_durable r (sg_Phase s)) impls = map stage_consumer StagePhases) by (by rewrite <- Hl).
  rewrite <- Hph, map_map. apply map_ext. intros s. unfold stage_durable, stage_consumer.
  unfold NewRunner in Hr. destruct (Nat.eqb _ 0); [discriminate|]. apply result_bind_ok in Hr as (l & _ & Hr).
  cbn in Hr. by injection Hr as <-.
Qed.

Lemma archive_quiet : quiet (archive : MW W unit).
Proof.
  unfold archive. apply unbound_bind; [done|]. intros []; [done|]. apply unbound_bind; [apply unbound_attempt, EnsureStream_quiet|].
  intros []; [|done]. intros w. apply hold_stream_durables.
Qed.

Lemma archiveTurn_quiet wr turnID state : quiet (archiveTurn wr turnID state : MW W Ledger.Outcome).
Proof.
  unfold archiveTurn, readManifest. repeat first [apply archive_quiet | apply GetLastMsg_quiet | apply Publish_quiet
    | apply marshal_quiet | quiet_step].
Qed.

Lemma reconcile_entities_quiet wr states report : quiet (ledger_reconcile_entities wr states report : MW W _).
Proof.
  revert report. induction states as [|state rest IH]; intros report; cbn [ledger_reconcile_entities]; [done|].
  apply unbound_bind; [|done]. unfold ledger_reconcileTurn. destruct report.
  repeat first [apply archiveTurn_quiet | quiet_step].
Qed.

Lemma Ledger_Reconcile_quiet wr : quiet (Ledger_Reconcile wr : MW W _).
Proof.
  unfold Ledger_Reconcile. generalize EmptyString empty_ledger_report. induction maxReconcilePages as [|n IH]; intros cursor report;
    cbn [ledger_reconcile_pages]; [done|].
  repeat first [apply Prefix_quiet | apply reconcile_entities_quiet | apply IH | quiet_step].
Qed.

Lemma CatchUp_quiet polls lw : quiet (CatchUp polls lw : MW W _).
Proof.
  induction polls as [|n IH]; cbn [CatchUp]; [done|].
  repeat first [apply stream_Backlog_quiet | apply stream_Tick_quiet | apply IH | quiet_step].
Qed.

Lemma buildGateway_quiet cfg lw campaignID built : quiet (buildGateway cfg lw campaignID built : MW W _).
Proof.
  unfold buildGateway. repeat first [quiet_step | intros w; apply sessions_durables].
Qed.
End engine_laws.

(** ** The queues the stranded-turn pass reads *)

(** The durables of turn work, each with the subject of its triggers. *)
Definition turn_queues : list (string * string) :=
  map (fun phase => (StageConsumerName phase, StageSubjectPrefix +:+ phase)) StagePhases ++
  [(KnowledgeConsumerName, SubjectKnowledge); (AccusationConsumerName, SubjectAccusation);
   (CaseProgressConsumerName, SubjectCaseProgress)].

Section queue_pass.
Context {W : Type} `{Clock W, WorkStreams W}.

Fixpoint read_queues (queues : list (string * string)) (pending : gmap string Z) : MW W (gmap string Z) :=
  match queues with
  | [] => mret pending
  | (name, subject) :: rest => pending ← read_subject name subject pending; read_queues rest pending
  end.

Definition read_tasks (pending : gmap string Z) : MW W (gmap string Z) :=
  floor ← taskAckFloor;
  read ← attempt (readQueue agent_Fetch TaskSubjectFilter floor taskEntityID pending);
  lift (wrapf "read the queued persona tasks" read).

Lemma read_stages_queues phases rest (k : gmap string Z -> MW W (gmap string Z)) pending w :
  Forall (fun p => p ∈ stagePhases) phases -> (forall pending w, k pending w = read_queues rest pending w) ->
  (pending ← read_stages phases pending; k pending) w =
    read_queues (map (fun phase => (StageConsumerName phase, StageSubjectPrefix +:+ phase)) phases ++ rest) pending w.
Proof.
  intros Hp Hk. revert pending w. induction Hp as [|phase phases Hin _ IH]; intros pending w; cbn [read_stages map app read_queues].
  - unfold mbind, M_bind, mret, M_ret. apply Hk.
  - rewrite (proj2 (SubjectForPhase_ok phase _) (conj Hin eq_refl)). unfold mbind, M_bind, lift in *. cbn.
    destruct (read_subject (StageConsumerName phase) _ pending w) as [[p|e] w1]; [apply IH|done].
Qed.

Lemma Pending_reads_turn_queues w :
  Queues_Pending w = (pending ← read_queues turn_queues ∅; read_tasks pending) w.
Proof.
  assert (Hs : forall phases pending w, read_stages phases pending w = (pending ← read_stages phases pending; mret pending) w).
  { intros. unfold mbind, M_bind. by destruct (read_stages _ _ _) as [[]]. }
  assert (Hall : Forall (fun p => p ∈ stagePhases) StagePhases) by (apply Forall_forall; done).
  unfold Queues_Pending, turn_queues.
  transitivity ((pending ← read_queues (map (fun phase => (StageConsumerName phase, StageSubjectPrefix +:+ phase)) StagePhases ++ []) ∅;
    pending ← read_subject KnowledgeConsumerName SubjectKnowledge pending;
    pending ← read_subject AccusationConsumerName SubjectAccusation pending;
    pending ← read_subject CaseProgressConsumerName SubjectCaseProgress pending; read_tasks pending) w).
  - unfold mbind at 1 7. unfold M_bind. rewrite Hs, (read_stages_queues StagePhases []) by done. reflexivity.
  - generalize (map (fun phase => (StageConsumerName phase, StageSubjectPrefix +:+ phase)) StagePhases). intros queues.
    generalize (∅ : gmap string Z). revert w. induction queues as [|[name subject] queues IH]; intros w pending; cbn [app read_queues].
    + unfold mbind, M_bind, mret, M_ret. cbn.
      repeat (destruct (read_subject _ _ _ _) as [[] ?]; [|done]). done.
    + unfold mbind, M_bind in *.
      destruct (read_subject name subject pending w) as [[p|e] w1]; [apply IH|done].
Qed.
End queue_pass.

(** ** The whole instance *)

(** The watcher's durable on the agentic stream. *)
Definition loop_consumer : StreamConsumerConfig * Z :=
  (durable TaskStream LoopFailureConsumer LoopFailedSubject "all" DefaultFailureAckWait, DefaultFailureHeartbeat).

Definition work_consumers : list (StreamConsumerConfig * Z) :=
  [(Knowledge_config, KnowledgeHeartbeat); (Accusation_config, AccusationHeartbeat);
   (Progress_config, DefaultProgressHeartbeat)].
Definition outcome_consumers : list (StreamConsumerConfig * Z) :=
  [(Egress_ConsumerConfig, EgressHeartbeat); (Ledger_ConsumerConfig, LedgerHeartbeat)].
Definition intake_consumer : StreamConsumerConfig * Z :=
  (durable ActionStreamName IntakeConsumer ActionSubject "all" IntakeAckWait, IntakeHeartbeat).

(** The durables of an instance, in the order of its boot. *)
Definition engine_consumers : list (StreamConsumerConfig * Z) :=
  work_consumers ++ [loop_consumer] ++ map stage_consumer StagePhases ++ outcome_consumers ++ [intake_consumer].

(** Nothing is lost or taken twice: a delivery stays until it is acknowledged,
    and two heartbeats of a working handler fit in the time it is given. *)
Definition patient (c : StreamConsumerConfig * Z) : bool :=
  String.eqb (cn_AckPolicy c.1) "explicit" && (cn_MaxDeliver c.1 =? 0) && (0 <? c.2) && (2 * c.2 <? cn_AckWait c.1).

Definition reads_subject (subject : string) (c : StreamConsumerConfig * Z) : bool := String.eqb (cn_FilterSubject c.1) subject.

Section whole.
Context {W : Type} `{Substrate, AgenticRules, TaskRules, TaskEnvelope, GraphStore W, Clock W, ActionStore W, ArtifactStore W,
  ErrorClassifier, CaseArtifacts W, Ctx W, PredicateReader W, SceneGraph W, TripleShape, ProjectionEncoder,
  PersonaArtifacts W, CompanionArtifacts W, TransientErrors, Codec CompanionDecision, Spawn.TaskPublisher W, Prompter W}.
Context `{Consumer W, StreamEnsurer W, Decoders, ObjectEncoder, UnicodePrint, AgentStream W}.
Context `{ResultArtifacts W, HasSessions W, Sink W, PrefixReader W, LedgerStream W, ManifestEnvelope W, Codec TurnManifest}.
Context `{Semver, WorldRuleEngine, PersonaRecords, HasDurables W, WorkStreams W, !BrokerLaws W, !ArchiveQuiet W}.

(** C33: each step of the boot that starts consumers binds, when it succeeds,
    exactly the durables [engine_consumers] lists for it, and never another:
    the seven stages have one durable each. Over the whole instance no two
    durables share a name, every one of them redelivers until the handler
    accepts, and the subject of each trigger is read by exactly one durable -
    the very one whose floor the stranded-turn pass reads for it - while a
    resolved turn is read by the player's delivery and by the archive. *)
Theorem boot_binds_every_trigger_once cfg lw campaignID instantiation polls built :
  binds (startKnowledge lw : MW W unit) [(Knowledge_config, KnowledgeHeartbeat)] /\
  binds (startAccusation lw : MW W unit) [(Accusation_config, AccusationHeartbeat)] /\
  binds (startCaseProgress cfg lw : MW W unit) [(Progress_config, DefaultProgressHeartbeat)] /\
  binds (startLoopFailures polls : MW W unit) [loop_consumer] /\
  binds (startStages lw instantiation : MW W unit) (map stage_consumer StagePhases) /\
  binds (startEgress cfg lw campaignID built : MW W _) [(Egress_ConsumerConfig, EgressHeartbeat)] /\
  binds (startLedger campaignID : MW W unit) [(Ledger_ConsumerConfig, LedgerHeartbeat)] /\
  binds (startIntake cfg lw : MW W unit) [intake_consumer] /\
  NoDup (map (fun c => cn_ConsumerName c.1) engine_consumers) /\ forallb patient engine_consumers = true /\
  Forall (fun queue => exists c, List.filter (reads_subject queue.2) engine_consumers = [c] /\ cn_ConsumerName c.1 = queue.1)
    turn_queues /\
  List.filter (reads_subject SubjectResolved) engine_consumers = outcome_consumers /\
  forall w : W, Queues_Pending w = (pending ← read_queues turn_queues ∅; read_tasks pending) w.
Proof.
  split_and!.
  - apply binds_lift. intros scope _. apply ConsumeDurable_binds.
  - apply binds_lift. intros scope _. apply binds_lift. intros projector _. apply ConsumeDurable_binds.
  - apply binds_lift. intros [] _. apply ConsumeDurable_binds.
  - apply binds_lift. intros watcher [= <-]. apply (binds_bind _ _ [_] []).
    + unfold Loop_Start. apply binds_after; [apply unbound_attempt, stream_Subjects_quiet|]. intros read.
      apply binds_lift. intros subjects _. destruct (negb _); [|apply binds_wrapped, stream_Consume_binds].
      intros w. exists O. cbn. by rewrite app_nil_r.
    + intros _. apply quiet_binds, unbound_bind; [apply CatchUp_quiet|]. by intros [].
  - apply startStages_binds.
  - apply binds_lift. intros results _. apply binds_after; [apply buildGateway_quiet|]. intros gateway.
    apply binds_lift. intros notifier [= <-]. apply binds_before; [apply binds_wrapped, ConsumeDurable_binds|done].
  - unfold startLedger. apply binds_lift. intros wr Hwr. apply binds_after; [apply archive_quiet|]. intros _.
    apply binds_after; [apply unbound_attempt, Ledger_Reconcile_quiet|]. intros _.
    assert (Hh : wr_heartbeat wr = LedgerHeartbeat).
    { unfold NewWriter in Hwr. apply result_bind_ok in Hwr as (? & _ & Hwr).
      apply result_bind_ok in Hwr as (? & _ & Hwr). cbn in Hwr. by injection Hwr as <-. }
    rewrite Hh. apply binds_wrapped, ConsumeDurable_binds.
  - apply binds_lift. intros intake [= <-]. apply ConsumeDurable_binds.
  - apply (bool_decide_unpack _). vm_compute. reflexivity.
  - vm_compute. reflexivity.
  - repeat constructor; eexists; split; vm_compute; reflexivity.
  - vm_compute. reflexivity.
  - apply Pending_reads_turn_queues.
Qed.
End whole.

(** ** An instance that starts

    The world is the broker's list of durables; every other service is there
    and has nothing to say. *)
From S2P Require Import BootEngine MemStore WorldPlanSpec BootWorldSpec BootEngineSpec.

Module BindingDemo.
Import WorldDemo BootDemo EngineDemo.

Abbreviation Bound := (list (StreamConsumerConfig * Z)).
Definition silent {A} : MW Bound A := throw (Errorf "nothing here" []).
Definition bind_ (cfg : StreamConsumerConfig) (heartbeat : Z) : MW Bound unit := fun w => (Ok tt, w ++ [(cfg, heartbeat)]).

#[export] Instance bound_durables : HasDurables Bound := {| durables w := w |}.
#[export] Instance bound_consumer : Consumer Bound := {| ConsumeDurable cfg heartbeat _ := bind_ cfg heartbeat |}.
#[export] Instance bound_streams : StreamEnsurer Bound := {| ensure_stream _ := mret tt |}.
#[export] Instance bound_agent : AgentStream Bound := {|
  stream_Subjects := mret AgentStreamSubjects; stream_Consume := bind_; stream_Backlog _ := mret (0, 0);
  stream_Tick := mret tt |}.
#[export] Instance bound_broker : BrokerLaws Bound.
Proof.
  assert (Hb : forall cfg heartbeat, binds (bind_ cfg heartbeat) [(cfg, heartbeat)]) by (intros ??; by exists 1%nat).
  split; intros; solve [apply Hb|done].
Qed.

#[export] Instance bound_graph : GraphStore Bound :=
  {| CreateEntity _ _ := silent; GetEntity _ := silent; Reconcile _ _ _ := silent |}.
#[export] Instance bound_clock : Clock Bound := {| now w := (10, w) |}.
#[export] Instance bound_actions : ActionStore Bound := {| PutAction _ _ := silent |}.
#[export] Instance bound_artifacts : ArtifactStore Bound :=
  {| GetVerdict _ := silent; PutRoll _ _ := silent; PutEffectBatch _ _ := silent; PutFailureDetail _ _ := silent |}.
#[export] Instance bound_case : CaseArtifacts Bound := {|
  artifacts_InstanceName := "content"; artifacts_GetCaseDecisionRecord _ := silent;
  artifacts_GetKnowledgeReceipt _ := silent; artifacts_PutKnowledgeReceipt _ _ := silent;
  artifacts_PutTestimony _ _ := silent; artifacts_GetCaseProgressRecord _ := silent;
  artifacts_PutCaseProgressRecord _ _ := silent; artifacts_GetAccusationRecord _ := silent;
  artifacts_PutAccusationRecord _ _ := silent; artifacts_PutFailureDetail _ _ := silent |}.
#[export] Instance bound_ctx : Ctx Bound := {| ctx_Err := mret tt |}.
#[export] Instance bound_predicates : PredicateReader Bound := {| EntitiesByPredicateValue _ _ _ := silent |}.
#[export] Instance bound_scene : SceneGraph Bound := {| GetEntities _ := silent; IncomingRelationships _ := silent |}.
#[export] Instance bound_personas : PersonaArtifacts Bound := {|
  persona_PutVerdict _ _ := silent; persona_PutNarration _ _ := silent; persona_PutCaseDecisionRecord _ _ := silent;
  persona_PutFailureDetail _ _ := silent |}.
#[export] Instance bound_companion : CompanionArtifacts Bound := {|
  companion_InstanceName := "content"; companion_PutDecision _ _ := silent; companion_GetDecision _ := silent;
  companion_PutStageRecord _ _ := silent; companion_GetStageRecord _ := silent |}.
#[export] Instance bound_tasks : Spawn.TaskPublisher Bound := {| Spawn.PublishToStreamWithMsgID _ _ _ := silent |}.
#[export] Instance bound_prompter : Prompter Bound :=
  {| Interpret _ := silent; Adjudicate _ := silent; Narrate _ := silent; prompt_Companion _ := silent |}.
#[export] Instance bound_results : ResultArtifacts Bound := {|
  result_GetRoll _ := silent; result_GetNarration _ := silent; result_GetCompanionStageRecord _ := silent;
  result_GetCompanionDecision _ := silent |}.
#[export] Instance bound_sessions : HasSessions Bound := {| sessions_of _ := newSessions 4; with_sessions _ w := w |}.
#[export] Instance bound_sink : Sink Bound := {| sink_Deliver _ _ := silent |}.
#[export] Instance bound_prefix : PrefixReader Bound :=
  {| EntitiesWithPrefix _ _ _ := mret {| GraphIO.pg_Entities := []; GraphIO.pg_NextCursor := EmptyString |} |}.
#[export] Instance bound_ledger : LedgerStream Bound := {|
  Ledger.EnsureStream := mret tt; GetLastMsgForSubject _ := silent; Ledger.PublishToStreamWithMsgID _ _ _ := silent;
  stream_held _ _ := true; hold_stream _ w := w |}.
#[export] Instance bound_manifests : ManifestEnvelope Bound :=
  {| marshal_message _ := silent; decode_message _ := Ok None |}.
#[export] Instance bound_queues : WorkStreams Bound := {|
  stream_Heads := mret (0, 0); stages_AckFloor _ := mret 0; agent_Consumers := mret []; stages_Fetch _ _ _ := mret [];
  agent_Fetch _ _ _ := mret []; poll_wait _ := mret tt |}.
#[export] Instance bound_archive : ArchiveQuiet Bound.
Proof. by split. Qed.

(** The services without a world. *)
#[export] Instance any_task : TaskRules := {| TaskMessage_Validate _ := Ok tt |}.
#[export] Instance any_envelope : TaskEnvelope := {| marshal_task _ _ := Ok "task"%string |}.
#[export] Instance any_shape : TripleShape := {| IsRelationship _ := false |}.
#[export] Instance any_encoder : ProjectionEncoder :=
  {| marshal_any _ := Ok "any"%string; type_name _ := "string"; Projection_Bytes _ := Ok "projection"%string |}.
#[export] Instance any_transient : TransientErrors := {| IsTransient _ := true |}.
#[export] Instance any_classifier : ErrorClassifier := {| is_transient _ := true |}.
#[export] Instance no_codec {A} : Codec A := {| Marshal _ := Err (Errorf "no text" []); Unmarshal _ := Err (Errorf "no text" []) |}.
#[export] Instance any_objects : ObjectEncoder := {| marshal_object _ := Ok "object"%string |}.
#[export] Instance any_print : UnicodePrint := {| print_table _ := true |}.
#[export] Instance no_decoder : Decoders :=
  {| decode_publication _ := Err (Errorf "not a trigger" []); decode_action _ := Ok None |}.

Definition lw : LoadedWorld := {|
  lw_pkg := package; lw_plan := alpha; lw_personas := []; lw_mechanics := [];
  lw_sceneID := "acme.semmachina.alpha.tower.scene.gatehouse"; lw_playerID := "acme.semmachina.alpha.tower.player.p1" |}.
Definition campaign : string := gate_campaign cfg lw.
Definition claim : Instantiation :=
  newInstantiation campaign (map Z.of_nat (seq 1 32)) {| PersonaPack := EmptyString; MechanicsPack := EmptyString |} true.

(** The steps that bind, in the order of the boot. *)
Definition start_all : MW Bound unit :=
  _ ← startKnowledge lw;
  _ ← startAccusation lw;
  _ ← startCaseProgress cfg lw;
  _ ← startLoopFailures 1;
  _ ← startStages lw claim;
  _ ← startEgress cfg lw campaign None;
  _ ← startLedger campaign;
  startIntake cfg lw.
End BindingDemo.
Import WorldDemo BootDemo EngineDemo BindingDemo.

Lemma boot_binds_every_trigger_once_witness :
  (start_all []).1 = Ok tt /\ (start_all []).2 = engine_consumers /\
  binds (startStages BindingDemo.lw claim : MW Bound unit) (map stage_consumer StagePhases).
Proof.
  split; [vm_compute; reflexivity|]. split; [vm_compute; reflexivity|].
  exact (proj1 (proj2 (proj2 (proj2 (proj2 (boot_binds_every_trigger_once (W := Bound) EngineDemo.cfg BindingDemo.lw
    campaign claim 1 None)))))).
Defined.
